(* ===== verification/_CoqProject ===== *)
-Q . S2P
Prelude.v
CFloat.v
I2cBus.v
SmbusSlave.v
SmbusMaster.v
XboxSmc.v
SmbusDevices.v
Amd756.v
PciCore.v
Acpi.v
XboxPci.v
DspArith.v
DspCore.v
DspDecode.v
DspEmuAlu.v
DspEmuMove.v
DspEmuOps.v
DspEmu.v
DspFir.v
DspTyped.v
DspSound.v
DspDma.v
DspShell.v
DspRun.v
GpEp.v
Nv2a.v
Pfifo.v
PgraphRegs.v
PgraphState.v
PgraphMethods.v
PgraphDispatch.v
PgraphSafe.v
PgraphDraw.v
Nvnet.v
Swizzle.v
S3tc.v
Lpc47m157.v
UsbCore.v
AxisFloat.v
XidGamepad.v
AndroidAudio.v
Sha1.v
Rc4.v
EepromGen.v
Adpcm.v
VpCore.v
VpWork.v
VpThreads.v
VpVoice.v
VpSamples.v
