(* ===== verification/Prelude.v ===== *)
(** * Verification of the Xbox hardware core of X-OG Mobile

    X-OG Mobile is an Android port of xemu, an emulator of the original Xbox.
    The guest, the console's software, talks to emulated devices through ports,
    memory-mapped registers, DMA and USB packets; the devices talk to each other
    through buses and interrupt lines, and to the host through files, the
    network, the audio output and the touch screen or controller.  This library
    models the devices and the Android glue as functions on explicit states and
    proves that they do what the guest, or the user, relies on.

    ** Conventions

    A C struct is a record, a C function a function from states to states.  A
    function that can fail returns [result]: a failed [assert] aborts the
    emulator, and an access outside an array, a null pointer, a division by zero,
    a bad shift or a bad cast is undefined behaviour; each is a value of [fault].
    A theorem with the conclusion [Ok _] therefore says that none of them happens.
    Unsigned integers are integers with their wrap-around written out ([u8],
    [u16], [u32], [u64], [s32]), bit fields are read and written as the macros of
    the source do ([GET_MASK], [SET_MASK]).  Large memories are finite maps with
    default 0 ([mem]), buffers passed by pointer are lists of bytes with bounded
    accesses ([slice], [blit]).  Loops are [for_loop], structural recursion, or
    recursion on fuel.  Code outside the modelled parts is a type class, with what
    the theorems need of it as a second class of laws; each property that uses such a
    class has a witness at a concrete instance, so that no theorem is about nothing.

    ** The parts and their files

    The system management bus.  The guest programs the AMD756 host controller
    (hw/xbox/amd_smbus.c, file Amd756), which runs the transactions of
    hw/i2c/smbus_master.c (SmbusMaster) on the bus of hw/i2c/core.c (I2cBus);
    every device is the protocol automaton of hw/i2c/smbus_slave.c (SmbusSlave)
    around its own registers: the system management controller (XboxSmc), the
    temperature monitor, the three video encoders and the EEPROM (SmbusDevices).
    [Amd756.host_accesses_refine_registers] composes all of them: port accesses of
    the guest behave as an abstract register file.  The other theorems bound the
    transfer buffer, relate the EEPROM's image to its file, and show that no
    interrupt of the controller is lost.

    The audio processor.  Two DSP56300 processors run guest code.  DspArith has
    the 56-bit arithmetic of dsp_cpu.c, DspCore the processor with its stack,
    loops and interrupts, DspDecode the decoder with its caches.  The instruction
    set of dsp_emu.c.inc is in DspEmuAlu (addressing, flags and the operations that
    go along with a move), DspEmuMove (the parallel moves) and DspEmuOps (the other
    instructions); DspEmu binds them to the names of the opcode table.  DspDma is
    the DMA engine of dsp_dma.c, DspShell the devices and the backend of dsp.c and
    dsp_c.c, and GpEp the two processors in the audio device (gp_ep.c, apu.c) with
    their scratch memory in guest RAM.  DspTyped and DspSound prove that every instruction keeps registers
    and memories within their widths, and DspRun composes this with the devices and
    the DMA engine: any program runs until it idles or its cycles are spent.  DspFir
    executes the inner loop of a filter and obtains the exact sum of products.  The
    other theorems show loops and stack against their meaning, the cached decoder
    against the table, that DMA moves what the descriptors say and never re-enters
    itself, and that the scatter-gather memory is flat.

    The voice processor (apu/vp) plays up to 256 voices, whose structures are in guest
    memory.  VpCore has the methods the guest writes to vp.c and the lists of voices,
    VpWork the walk over the lists, the dealing of voices to workers and the mixing,
    VpThreads the audio thread and its workers as interleaved steps, VpVoice the
    envelopes, VpSamples the fetching of samples, and Adpcm the decoder of adpcm.h.
    [VpThreads.frame_any_interleaving] says that a frame gives what one thread would
    mix, whatever order the threads run in.  The other theorems show that the methods
    stay inside the state, that a voice switched on is in its list and in the next
    frame's queue, that the workers start and stop, and which samples and envelope
    values a voice gives.  Samples are added in any commutative monoid: the source adds
    floating-point numbers, where the order shows in the last bits.

    The graphics processor.  Nv2a has the register blocks of hw/xbox/nv2a/ and the
    interrupt line, Pfifo the command FIFO (pfifo.c) with the pusher and the
    puller, Swizzle and S3tc the texture layouts of pgraph/.  The theorems show
    that no register access leaves its array, that the interrupt line is the one
    the registers ask for, that the pusher delivers exactly the methods of the
    push buffer, and that textures are converted as the formats are defined.

    The network.  Nvnet has the Ethernet controller of mcpx/nvnet/nvnet.c with its
    descriptor rings, address filter, PHY and migration.

    The chipset.  PciCore has the PCI devices of hw/pci/pci.c: configuration space,
    base addresses and interrupt pins, with the root of the bus as a type class; Acpi
    the power management registers of hw/acpi/core.c; XboxPci the chipset of
    hw/xbox/xbox_pci.c and acpi_xbox.c, which implements the root of the bus and
    connects everything to the interrupt controller.  The theorems show that the
    inputs of the interrupt controller are exact under any sequence of operations
    ([XboxPci.pci_interrupts_reach_pic]) and that a press of the power button reaches
    the guest through the system management controller and the chipset.

    The Super I/O chip.  Lpc47m157 has hw/xbox/lpc47m157.c.

    Input.  UsbCore has the packets and control pipe of hw/usb/core.c, AxisFloat
    the conversion of axis values, and XidGamepad the way from a key event of the
    Android activity through android_backend.cpp and ui/xemu-android-stubs.c to the
    USB gamepad of hw/xbox/xid.c.  [XidGamepad.gamepad_report_end_to_end] composes
    all of them.

    Audio output.  AndroidAudio has the lock-free ring of
    ui/xemu-android-native.c, with its two threads as interleaved steps.

    The EEPROM generator.  Sha1 and Rc4 have the hash and the cipher of util/, and
    EepromGen the image hw/xbox/eeprom_generation.c builds with them:
    [Sha1.sha1_is_fips] relates the hash to the standard, and
    [EepromGen.xbox_eeprom_generate_valid] says that a generated image is one the
    console accepts.

    ** Fuel and bounds

    Only loops whose end depends on guest data run on fuel.  The cycles of the DSP
    bound its run, whatever the program ([DspRun.dsp_run_sound]).  The pusher needs
    one round per word between its two pointers ([Pfifo.pusher_delivers_methods]),
    the Ethernet controller one per descriptor of a ring.  The DMA engine walks a
    linked list the guest wrote; a cyclic list keeps the source busy for ever, so its
    theorems state the number of descriptors, and theorems about any program name a
    DMA run as a place where it may stop.  A frame of the voice processor walks each list for at most 256 voices, and its
    threads take at most [VpThreads.steps_left] steps.  The callback of the resampler
    needs 34 rounds for a voice that loops inside its buffer, and for one that loops
    behind it no number is enough ([VpSamples.looping_voice_fills_frame]).  The
    computation of the swizzle masks ends
    for the sides [Swizzle.swizzle_masks_terminate] names and for no others.

    ** Not modelled

    The methods of the 3D engine (most of pgraph.c), its renderers (pgraph/gl, vk,
    android, null) and shader generators (pgraph/glsl): drawing is a side effect
    on a graphics API.  Of the voice processor, what a voice's samples go
    through on the host: the resampler, a library, the two kinds of filters and the
    volumes, in floating point.  The DSP JIT, which Android
    builds leave out.  The machine set-up (xbox.c, chihiro.c) beyond the list of
    devices, message signalled interrupts and the memory map of PCI, the ACPI tables,
    the AC97 shell (aci.c) and the voice communicator (xblc.c).  The Java user interface except the key
    path, the rest of android_backend.cpp, and QEMU itself except the buses the
    Xbox devices use.  Tracing, debugging and monitor commands. *)

From stdpp Require Export base gmap list strings.
From Stdlib Require Export ZArith Lia Bool.

#[export] Set Warnings "-postfix-notation-not-level-1".
Global Open Scope Z_scope.

(** ** Faults

    The modelled C code runs in one process with the whole emulator: a failing
    [assert] aborts it, and an access outside an array, through a null pointer
    and a division by zero, a shift by a negative or too large amount or a cast
    of a floating-point number that does not fit are undefined behaviour.  Each of them is a value of
    [fault], so that a theorem whose conclusion is [Ok _] states that none of
    them happens. *)

Inductive fault :=
| AssertFail (what : string)
| OutOfBounds
| NullPointer
| DivByZero
| BadShift
| BadCast
| OutOfFuel.

Inductive result (A : Type) :=
| Ok (a : A)
| Fault (f : fault).
Arguments Ok {A} a.
Arguments Fault {A} f.

Definition result_bind {A B} (k : A -> result B) (m : result A) : result B :=
  match m with Ok a => k a | Fault f => Fault f end.

#[export] Instance result_mret : MRet result := fun _ a => Ok a.
#[export] Instance result_mbind : MBind result := fun _ _ k m => result_bind k m.

Lemma result_bind_ext {A B} (m : result A) (f g : A -> result B) :
  (forall x, f x = g x) -> (m ≫= f) = (m ≫= g).
Proof. intros H. destruct m; [apply H|done]. Qed.
Lemma result_bind_ret {A} (m : result A) : m ≫= Ok = m.
Proof. by destruct m. Qed.
Lemma result_bind_assoc {A B C} (m : result A) (f : A -> result B) (g : B -> result C) :
  ((m ≫= f) ≫= g) = (m ≫= fun x => f x ≫= g).
Proof. by destruct m. Qed.

(** [check b what] is C's [assert]. *)
Definition check (b : bool) (what : string) : result unit :=
  if b then Ok tt else Fault (AssertFail what).

(** [fetch l i] reads element [i] of an array of [length l] elements. *)
Definition fetch {A} (l : list A) (i : Z) : result A :=
  if i <? 0 then Fault OutOfBounds
  else match l !! Z.to_nat i with Some x => Ok x | None => Fault OutOfBounds end.

Lemma fetch_ok {A} (l : list A) i x :
  0 <= i -> l !! Z.to_nat i = Some x -> fetch l i = Ok x.
Proof. intros Hi Hx. unfold fetch. by rewrite (proj2 (Z.ltb_ge i 0)), Hx by lia. Qed.

(** [safe F Q c]: the result of [c] satisfies [Q], and a fault is one that [F] allows. *)
Definition safe {A} (F : fault -> Prop) (Q : A -> Prop) (c : result A) : Prop :=
  match c with Ok a => Q a | Fault f => F f end.

Lemma safe_bind {A B} F (Q : A -> Prop) (R : B -> Prop) (c : result A) (k : A -> result B) :
  safe F Q c -> (forall a, Q a -> safe F R (k a)) -> safe F R (c ≫= k).
Proof. destruct c; [intros H Hk; by apply Hk|done]. Qed.
Lemma safe_skip {A B} (F : fault -> Prop) (R : B -> Prop) (c : result A) (k : A -> result B) :
  (forall f, F f) -> (forall a, safe F R (k a)) -> safe F R (c ≫= k).
Proof. intros HF Hk. destruct c; [apply Hk|apply HF]. Qed.
Lemma safe_weaken {A} F (Q R : A -> Prop) (c : result A) :
  safe F Q c -> (forall a, Q a -> R a) -> safe F R c.
Proof. destruct c; [intros H Hk; by apply Hk|done]. Qed.
Lemma safe_check (F : fault -> Prop) b what :
  (forall m, F (AssertFail m)) -> safe F (fun _ => b = true) (check b what).
Proof. intros HF. unfold check. destruct b; [done|apply HF]. Qed.
Lemma safe_fetch {A} F (l : list A) i :
  0 <= i < Z.of_nat (length l) -> safe F (fun x => l !! Z.to_nat i = Some x) (fetch l i).
Proof.
  intros Hi. unfold fetch. rewrite (proj2 (Z.ltb_ge i 0)) by lia.
  destruct (l !! Z.to_nat i) eqn:E; [done|]. apply lookup_ge_None in E. lia.
Qed.

(** ** Record update

    [s <| f := v |>] is the C assignment [s->f = v].  A record type lists its
    fields once in a [Settable] instance and the setter of each field is
    computed from it. *)

Class Settable (R : Type) := MkSettable { rebuild : R -> R }.
Class Setter {R T : Type} (field : R -> T) := setf : (T -> T) -> R -> R.
#[export] Hint Mode Setter - - ! : typeclass_instances.

Notation "'settable!' mk < f ; .. ; g >" :=
  (MkSettable _ (fun r => .. (mk (f r)) .. (g r)))
  (at level 0, mk at level 10, f at level 9, g at level 9, only parsing).

Ltac build_setter :=
  lazymatch goal with
  | |- @Setter ?R ?T ?p =>
      let inst := constr:(_ : Settable R) in
      let b := eval hnf in inst in
      lazymatch b with
      | MkSettable _ ?body =>
        exact (fun (h : T -> T) (r : R) =>
          ltac:(let e := eval cbv beta in (body r) in
                lazymatch (eval pattern (p r) in e) with
                | ?F _ => let t := eval cbv beta in (F (h (p r))) in exact t
                end))
      end
  end.
#[export] Hint Extern 1 (@Setter _ _ _) => build_setter : typeclass_instances.

Declare Scope xbox_scope.
Delimit Scope xbox_scope with xbox.
Global Open Scope xbox_scope.

Notation "r <| f := v |>" := (@setf _ _ f _ (fun _ => v) r)
  (at level 12, f at next level, left associativity) : xbox_scope.
Notation "r <| f ::= h |>" := (@setf _ _ f _ h r)
  (at level 12, f at next level, left associativity) : xbox_scope.

(** [is_field R p d] succeeds when [p] is a field of the record type [R], of
    which [d] is any inhabitant. *)
Ltac is_field R p d :=
  let inst := constr:(_ : Settable R) in
  let b := eval hnf in inst in
  lazymatch b with
  | MkSettable _ ?body =>
      let e := eval cbv beta in (body d) in
      lazymatch e with context [p d] => idtac end
  end.

(** [proj_red] computes the fields of updated records, one update at a time:
    unfolding the updates of a large record would copy it once per field. *)
Ltac proj_red :=
  repeat match goal with
  | |- context [?p (@setf ?R ?T ?f ?i ?h ?d)] =>
      is_field R p d;
      first
      [ constr_eq p f;
        let E := constr:((fun h' d' => eq_refl)
                   : forall (h' : T -> T) (d' : R), p (@setf R T f i h' d') = h' (p d')) in
        rewrite (E h d)
      | assert_fails (constr_eq p f);
        let E := constr:((fun h' d' => eq_refl)
                   : forall (h' : T -> T) (d' : R), p (@setf R T f i h' d') = p d') in
        rewrite (E h d) ]
  end; cbv beta.

(** ** Machine integers

    A C unsigned integer of width [w] is a [Z] in [0, 2^w); the conversions
    [u8], [u16], [u32] and [u64] are what an assignment to such a variable
    does. *)

Definition u8 (x : Z) : Z := x mod 2 ^ 8.
Definition u16 (x : Z) : Z := x mod 2 ^ 16.
Definition u32 (x : Z) : Z := x mod 2 ^ 32.
Definition u64 (x : Z) : Z := x mod 2 ^ 64.

Definition is_u8 (x : Z) : Prop := 0 <= x < 2 ^ 8.
Definition is_u16 (x : Z) : Prop := 0 <= x < 2 ^ 16.
Definition is_u32 (x : Z) : Prop := 0 <= x < 2 ^ 32.
Definition is_u64 (x : Z) : Prop := 0 <= x < 2 ^ 64.

(** An [int] after an operation: the code is compiled with wrapping signed
    arithmetic. *)
Definition s32 (x : Z) : Z := (x + 2 ^ 31) mod 2 ^ 32 - 2 ^ 31.

(** The value of a two's complement number of width [w]. *)
Definition signed (w x : Z) : Z := if x <? 2 ^ (w - 1) then x else x - 2 ^ w.

(** Conversions to [int8_t] and [int16_t]. *)
Definition s8 (x : Z) : Z := signed 8 (u8 x).
Definition s16 (x : Z) : Z := signed 16 (u16 x).

(** The C condition [v & m]. *)
Definition has (v m : Z) : bool := negb (Z.land v m =? 0).

(** The C expression [1 << n]. *)
Abbreviation bit n := (Z.shiftl 1 n).

(** The macro [BITMASK(n)] and the C expression [(x >> n) & 1]. *)
Definition BITMASK (n : Z) : Z := Z.shiftl 1 n - 1.
Definition bit_of (x n : Z) : Z := Z.land (Z.shiftr x n) 1.

(** [ctz32] and the field macros [GET_MASK] and [SET_MASK]. *)
Definition ctz32 (m : Z) : Z := Z.log2 (Z.land m (- m)).
Definition GET_MASK (v mask : Z) : Z := Z.shiftr (Z.land v mask) (ctz32 mask).
Definition SET_MASK (v mask val : Z) : Z :=
  Z.lor (Z.ldiff v mask) (Z.land (u32 (Z.shiftl val (ctz32 mask))) mask).

Lemma u8_range x : is_u8 (u8 x).
Proof. apply Z.mod_pos_bound. lia. Qed.
Lemma u16_range x : is_u16 (u16 x).
Proof. apply Z.mod_pos_bound. lia. Qed.
Lemma u32_range x : is_u32 (u32 x).
Proof. apply Z.mod_pos_bound. lia. Qed.
Lemma u64_range x : is_u64 (u64 x).
Proof. apply Z.mod_pos_bound. lia. Qed.

Lemma u8_id x : is_u8 x -> u8 x = x.
Proof. apply Z.mod_small. Qed.
Lemma u16_id x : is_u16 x -> u16 x = x.
Proof. apply Z.mod_small. Qed.
Lemma u32_id x : is_u32 x -> u32 x = x.
Proof. apply Z.mod_small. Qed.
Lemma u64_id x : is_u64 x -> u64 x = x.
Proof. apply Z.mod_small. Qed.

Lemma s8_small x : 0 <= x < 128 -> s8 x = x.
Proof. intros H. unfold s8, signed. rewrite u8_id, (proj2 (Z.ltb_lt _ _)) by (unfold is_u8; lia). done. Qed.

Lemma s8_id x : -128 <= x < 128 -> s8 x = x.
Proof.
  intros H. destruct (Z.leb_spec 0 x); [apply s8_small; lia|]. unfold s8, signed, u8.
  rewrite <- (Z.mod_add x 1), (Z.mod_small (x + 1 * 2 ^ 8)) by lia. rewrite (proj2 (Z.ltb_ge _ _)) by lia. lia.
Qed.

Lemma s32_id x : - 2 ^ 31 <= x < 2 ^ 31 -> s32 x = x.
Proof. intros Hx. unfold s32. rewrite Z.mod_small by lia. lia. Qed.
Lemma s16_id x : -32768 <= x <= 32767 -> s16 x = x.
Proof.
  intros H. unfold s16, signed, u16. destruct (Z.leb_spec 0 x).
  - rewrite Z.mod_small, (proj2 (Z.ltb_lt _ _)) by lia. done.
  - rewrite <- (Z.mod_add x 1), (Z.mod_small (x + 1 * 2 ^ 16)) by lia. rewrite (proj2 (Z.ltb_ge _ _)) by lia. lia.
Qed.

Lemma land_BITMASK x n : 0 <= n -> Z.land x (BITMASK n) = x mod 2 ^ n.
Proof.
  intros Hn. unfold BITMASK. rewrite Z.shiftl_1_l, Z.sub_1_r, <- Z.ones_equiv.
  by apply Z.land_ones.
Qed.

Lemma bit_of_div x n : 0 <= n -> bit_of x n = (x / 2 ^ n) mod 2.
Proof.
  intros Hn. unfold bit_of. rewrite Z.shiftr_div_pow2 by done. by apply (Z.land_ones _ 1).
Qed.

Lemma bit_of_testbit x n : 0 <= n -> bit_of x n = Z.b2z (Z.testbit x n).
Proof. intros Hn. by rewrite bit_of_div, Z.testbit_spec' by done. Qed.

Lemma has_bit x n : 0 <= n -> has x (bit n) = Z.testbit x n.
Proof.
  intros Hn. unfold has. rewrite Z.shiftl_1_l. destruct (Z.testbit x n) eqn:Hb.
  - apply negb_true_iff, Z.eqb_neq. intros H0. apply (f_equal (fun v => Z.testbit v n)) in H0.
    by rewrite Z.land_spec, Hb, Z.pow2_bits_true, Z.bits_0 in H0.
  - apply negb_false_iff, Z.eqb_eq. apply Z.bits_inj'. intros m Hm.
    rewrite Z.land_spec, Z.bits_0. destruct (Z.eq_dec m n) as [->|Hne]; [by rewrite Hb|].
    by rewrite Z.pow2_bits_false, andb_false_r by congruence.
Qed.

Lemma testbit_above a n m : 0 <= a < 2 ^ n -> n <= m -> Z.testbit a m = false.
Proof.
  intros Ha Hm. rewrite <- (Z.mod_small a (2 ^ n)) by done.
  apply Z.mod_pow2_bits_high. split; [|done].
  destruct (Z.le_gt_cases 0 n); [done|]. rewrite Z.pow_neg_r in Ha; lia.
Qed.

Lemma lor_shiftl a b n : 0 <= n -> 0 <= a < 2 ^ n -> Z.lor a (Z.shiftl b n) = a + b * 2 ^ n.
Proof.
  intros Hn Ha. rewrite <- (Z.shiftl_mul_pow2 b n) by done.
  assert (Z.land a (Z.shiftl b n) = 0) as H0.
  { apply Z.bits_inj'. intros m Hm. rewrite Z.land_spec, Z.bits_0.
    destruct (Z.lt_ge_cases m n) as [Hlt|Hge].
    - by rewrite Z.shiftl_spec_low, andb_false_r by done.
    - by rewrite (testbit_above a n m Ha Hge). }
  by rewrite <- Z.lxor_lor, Z.add_nocarry_lxor.
Qed.

Lemma land_high x n k : 0 <= n -> 0 <= k ->
  Z.land x (Z.shiftl (Z.ones k) n) = (x / 2 ^ n) mod 2 ^ k * 2 ^ n.
Proof.
  intros Hn Hk. rewrite <- Z.land_ones, <- Z.shiftr_div_pow2, <- Z.shiftl_mul_pow2 by done.
  apply Z.bits_inj'. intros m Hm. rewrite Z.land_spec.
  destruct (Z.lt_ge_cases m n) as [Hlt|Hge].
  - by rewrite !Z.shiftl_spec_low, andb_false_r by done.
  - rewrite !Z.shiftl_spec, Z.land_spec, Z.shiftr_spec by lia. by rewrite Z.sub_add.
Qed.

Lemma land_range x y n : 0 <= n -> 0 <= x < 2 ^ n -> 0 <= Z.land x y < 2 ^ n.
Proof.
  intros Hn Hx. rewrite <- (Z.mod_small x (2 ^ n)), <- Z.land_ones by done.
  rewrite <- Z.land_assoc, (Z.land_comm (Z.ones n)), Z.land_assoc, Z.land_ones by done.
  apply Z.mod_pos_bound. lia.
Qed.

Lemma lxor_range x y n : 0 <= n -> 0 <= x < 2 ^ n -> 0 <= y < 2 ^ n -> 0 <= Z.lxor x y < 2 ^ n.
Proof.
  intros Hn Hx Hy. enough (Z.lxor x y mod 2 ^ n = Z.lxor x y) as <- by (apply Z.mod_pos_bound; lia).
  rewrite <- Z.land_ones by done. apply Z.bits_inj'. intros m Hm. rewrite Z.land_spec.
  destruct (Z.lt_ge_cases m n); [by rewrite Z.ones_spec_low, andb_true_r by lia|].
  by rewrite Z.lxor_spec, !(testbit_above _ n) by done.
Qed.

Lemma lor_range x y n : 0 <= n -> 0 <= x < 2 ^ n -> 0 <= y < 2 ^ n -> 0 <= Z.lor x y < 2 ^ n.
Proof.
  intros Hn Hx Hy. split; [apply Z.lor_nonneg; lia|].
  destruct (Z.eq_dec (Z.lor x y) 0) as [->|Hne]; [lia|].
  apply Z.log2_lt_pow2; [pose proof (proj2 (Z.lor_nonneg x y)); lia|].
  rewrite Z.log2_lor by lia. apply Z.max_lub_lt.
  - destruct (Z.eq_dec x 0) as [->|]; [|apply Z.log2_lt_pow2; lia].
    destruct (Z.eq_dec n 0) as [->|]; [|cbn; lia]. assert (y = 0) by lia. by subst.
  - destruct (Z.eq_dec y 0) as [->|]; [|apply Z.log2_lt_pow2; lia].
    destruct (Z.eq_dec n 0) as [->|]; [|cbn; lia]. assert (x = 0) by lia. by subst.
Qed.
Lemma ldiff_range x y n : 0 <= n -> 0 <= x < 2 ^ n -> 0 <= Z.ldiff x y < 2 ^ n.
Proof. intros Hn Hx. rewrite Z.ldiff_land. by apply land_range. Qed.

(** A field of a register: [k] bits from bit [n] on. *)
Definition bitfield (mask n k : Z) : Prop :=
  0 <= n /\ 0 < k /\ n + k <= 32 /\ mask = Z.shiftl (Z.ones k) n /\ ctz32 mask = n.

Lemma GET_MASK_field v mask n k : bitfield mask n k -> GET_MASK v mask = (v / 2 ^ n) mod 2 ^ k.
Proof.
  intros (Hn & Hk & _ & -> & Hc). unfold GET_MASK. rewrite Hc, land_high by lia.
  by rewrite Z.shiftr_div_pow2, Z.div_mul by lia.
Qed.

Lemma GET_MASK_range v mask n k : bitfield mask n k -> 0 <= GET_MASK v mask < 2 ^ k.
Proof. intros Hf. rewrite (GET_MASK_field v mask n k Hf). apply Z.mod_pos_bound. destruct Hf. lia. Qed.

Lemma land_GET_MASK v mask n k : bitfield mask n k -> Z.land v mask = GET_MASK v mask * 2 ^ n.
Proof.
  intros Hf. rewrite (GET_MASK_field v mask n k Hf). destruct Hf as (? & ? & _ & -> & _).
  apply land_high; lia.
Qed.

(** The written field reads back; another field is kept. *)
Lemma GET_SET_same v mask n k x : bitfield mask n k ->
  GET_MASK (SET_MASK v mask x) mask = x mod 2 ^ k.
Proof.
  intros Hf. pose proof Hf as (Hn & Hk & Hle & Hm & Hc). unfold GET_MASK, SET_MASK.
  rewrite Z.land_lor_distr_l, Z.land_ldiff, Z.lor_0_l, <- Z.land_assoc, Z.land_diag, Hc.
  unfold u32. rewrite <- (Z.land_ones _ 32), <- Z.land_ones by lia.
  apply Z.bits_inj'. intros m Hm0. rewrite Z.shiftr_spec, !Z.land_spec, Hm by done.
  rewrite !Z.shiftl_spec by lia. rewrite Z.add_simpl_r.
  destruct (Z.lt_ge_cases m k); [|by rewrite !(Z.ones_spec_high k), !andb_false_r by lia].
  by rewrite (Z.ones_spec_low 32), andb_true_r by lia.
Qed.

Lemma GET_SET_other v mask mask' x : Z.land mask mask' = 0 ->
  GET_MASK (SET_MASK v mask x) mask' = GET_MASK v mask'.
Proof.
  intros H0. unfold GET_MASK, SET_MASK. f_equal.
  rewrite Z.land_lor_distr_l, <- Z.land_assoc, H0, Z.land_0_r, Z.lor_0_r.
  apply Z.bits_inj'. intros m Hm. rewrite !Z.land_spec, Z.ldiff_spec.
  apply (f_equal (fun z => Z.testbit z m)) in H0. rewrite Z.land_spec, Z.bits_0 in H0.
  destruct (Z.testbit v m), (Z.testbit mask m), (Z.testbit mask' m); done.
Qed.

Create HintDb xbox.
Create Rewrite HintDb xbox.
#[export] Hint Resolve u8_range u16_range u32_range u64_range : xbox.
#[export] Hint Rewrite u8_id u16_id u32_id u64_id using (solve [auto with xbox]) : xbox.

(** ** Rings

    The distance of place [j] from place [c] of a ring, and from [k] further on. *)

Lemma ring_distance j c k size :
  0 < size -> 0 <= j < size -> 0 <= c < size -> 0 <= k <= size ->
  let q := (j - c) mod size in
  0 <= q < size /\ (j = c + q \/ j = c + q - size) /\
  (j - (c + k)) mod size = if k <=? q then q - k else q - k + size.
Proof.
  intros Hs Hj Hc Hk q.
  assert (0 <= q < size) as Hq by (apply Z.mod_pos_bound; lia).
  split; [done|]. split.
  - subst q. destruct (Z.le_gt_cases c j); [left; rewrite Z.mod_small; lia|right].
    rewrite <- (Z.mod_unique_pos (j - c) size (-1) (j - c + size)); lia.
  - replace (j - (c + k)) with (j - c - k) by lia. rewrite <- Zminus_mod_idemp_l. fold q.
    destruct (Z.leb_spec k q); [by rewrite Z.mod_small by lia|].
    symmetry. apply (Z.mod_unique_pos _ _ (-1)); lia.
Qed.

Lemma wrap_mod x size : 0 < size -> 0 <= x <= size ->
  (if size <=? x then 0 else x) = x mod size.
Proof.
  intros Hs Hx. destruct (Z.leb_spec size x).
  - replace x with size by lia. by rewrite Z.mod_same by lia.
  - by rewrite Z.mod_small by lia.
Qed.

(** ** Memories

    Arrays of the program (register files, RAM, FIFOs) are finite maps from
    indices to values that read 0 where nothing was written; the bounds checks
    and the faults are written at each access. *)

Abbreviation mem := (gmap Z Z).

Definition rd (m : mem) (i : Z) : Z := default 0 (m !! i).
Definition wr (i v : Z) (m : mem) : mem := <[i := v]> m.

Lemma rd_wr_eq m i v : rd (wr i v m) i = v.
Proof. unfold rd, wr. by rewrite lookup_insert_eq. Qed.
Lemma rd_wr_ne m i j v : i <> j -> rd (wr i v m) j = rd m j.
Proof. intros. unfold rd, wr. by rewrite lookup_insert_ne. Qed.
Lemma rd_empty i : rd ∅ i = 0.
Proof. reflexivity. Qed.

#[export] Hint Rewrite rd_wr_eq rd_empty : xbox.
#[export] Hint Rewrite rd_wr_ne using (first [discriminate | congruence | lia]) : xbox.

(** ** Loops

    [for_loop n i body s] is [for (j = i; j < i + n; j++) body]. *)

Fixpoint for_loop {S : Type} (n : nat) (i : Z) (body : Z -> S -> result S) (s : S) : result S :=
  match n with
  | O => Ok s
  | Datatypes.S n => s ← body i s; for_loop n (i + 1) body s
  end.

Lemma for_loop_inv {S : Type} (I : Z -> S -> Prop) body n i s :
  I i s ->
  (forall j s, i <= j < i + Z.of_nat n -> I j s -> exists s', body j s = Ok s' /\ I (j + 1) s') ->
  exists s', for_loop n i body s = Ok s' /\ I (i + Z.of_nat n) s'.
Proof.
  revert i s. induction n as [|n IH]; intros i s H0 Hstep; simpl.
  - exists s. by rewrite Z.add_0_r.
  - destruct (Hstep i s) as (s1 & Hb & H1); [lia|done|]. rewrite Hb. cbn [mbind result_mbind result_bind].
    destruct (IH (i + 1) s1 H1) as (s' & Hr & Hs).
    { intros j t Hj. apply Hstep. lia. }
    exists s'. split; [done|]. by replace (i + Z.of_nat (Datatypes.S n)) with (i + 1 + Z.of_nat n) by lia.
Qed.

Lemma for_loop_add {S : Type} n m i body (s : S) :
  for_loop (n + m) i body s = (s ← for_loop n i body s; for_loop m (i + Z.of_nat n) body s).
Proof.
  revert i s. induction n as [|n IH]; intros i s; cbn [for_loop Nat.add mbind result_mbind result_bind]; [by rewrite Z.add_0_r|].
  destruct (body i s) as [s1|]; cbn [mbind result_mbind result_bind]; [|done]. rewrite IH.
  by replace (i + 1 + Z.of_nat n) with (i + Z.of_nat (Datatypes.S n)) by lia.
Qed.

Lemma for_loop_ext {S : Type} (I : S -> Prop) body body' n i s :
  I s ->
  (forall j s, i <= j < i + Z.of_nat n -> I s ->
     body j s = body' j s /\ forall s', body j s = Ok s' -> I s') ->
  for_loop n i body s = for_loop n i body' s /\ forall s', for_loop n i body s = Ok s' -> I s'.
Proof.
  revert i s. induction n as [|n IH]; intros i s H0 Hstep; simpl.
  - split; [done|]. by intros s' [= <-].
  - destruct (Hstep i s) as [<- Hb]; [lia|done|].
    destruct (body i s) as [s1|f]; cbn [mbind result_mbind result_bind]; [|done].
    apply IH; [by apply Hb|]. intros j t Hj. apply Hstep. lia.
Qed.

(** ** Byte buffers

    A buffer handed to a function by pointer is a list of bytes; [slice] and
    [blit] read and write [length] bytes at an offset and fault outside. *)

Definition slice (l : list Z) (off n : Z) : result (list Z) :=
  if (0 <=? off) && (0 <=? n) && (off + n <=? Z.of_nat (length l))
  then Ok (take (Z.to_nat n) (drop (Z.to_nat off) l)) else Fault OutOfBounds.

Definition blit (l : list Z) (off : Z) (x : list Z) : result (list Z) :=
  if (0 <=? off) && (off + Z.of_nat (length x) <=? Z.of_nat (length l))
  then Ok (list_inserts (Z.to_nat off) x l) else Fault OutOfBounds.

Fixpoint le_bytes (n : nat) (v : Z) : list Z :=
  match n with O => [] | S n => v mod 256 :: le_bytes n (v / 256) end.

Fixpoint le_word (l : list Z) : Z :=
  match l with [] => 0 | b :: l => b + 256 * le_word l end.

Lemma length_le_bytes n v : length (le_bytes n v) = n.
Proof. revert v. induction n; intros v; simpl; auto. Qed.

Lemma le_bytes_u8 n : forall v, Forall is_u8 (le_bytes n v).
Proof. induction n; intros v; constructor; [apply (u8_range v)|done]. Qed.

Lemma le_word_range (l : list Z) : Forall is_u8 l -> 0 <= le_word l < 256 ^ Z.of_nat (length l).
Proof.
  induction 1 as [|b l Hb Hl IH]; cbn [le_word length]; [cbn; lia|].
  rewrite Nat2Z.inj_succ, Z.pow_succ_r by lia. unfold is_u8 in Hb. lia.
Qed.

Lemma le_word_bytes n v : le_word (le_bytes n v) = v mod 256 ^ Z.of_nat n.
Proof.
  revert v. induction n as [|n IH]; intros v; cbn [le_bytes le_word].
  - by rewrite Z.mod_1_r.
  - rewrite IH, Nat2Z.inj_succ, Z.pow_succ_r by lia.
    rewrite Z.rem_mul_r by lia. done.
Qed.

Lemma slice_ok l off n : 0 <= off -> 0 <= n -> off + n <= Z.of_nat (length l) ->
  slice l off n = Ok (take (Z.to_nat n) (drop (Z.to_nat off) l)).
Proof. intros. unfold slice. by rewrite !(proj2 (Z.leb_le _ _)) by lia. Qed.

Lemma blit_ok l off x : 0 <= off -> off + Z.of_nat (length x) <= Z.of_nat (length l) ->
  blit l off x = Ok (list_inserts (Z.to_nat off) x l).
Proof. intros. unfold blit. by rewrite !(proj2 (Z.leb_le _ _)) by lia. Qed.

Lemma inserts_split (l x : list Z) i : (i + length x <= length l)%nat ->
  list_inserts i x l = take i l ++ x ++ drop (i + length x) l.
Proof.
  intros H. apply list_eq. intros j. destruct (decide (j < i)%nat) as [Hj|Hj].
  - rewrite list_lookup_inserts_lt, lookup_app_l, lookup_take_lt by (rewrite ?length_take; lia). done.
  - rewrite lookup_app_r, length_take, Nat.min_l by (rewrite ?length_take; lia).
    destruct (decide (j < i + length x)%nat).
    + rewrite list_lookup_inserts, lookup_app_l by lia. done.
    + rewrite list_lookup_inserts_ge, lookup_app_r, lookup_drop by lia. f_equal. lia.
Qed.

Lemma blit_app a y c x : length x = length y ->
  blit (a ++ y ++ c) (Z.of_nat (length a)) x = Ok (a ++ x ++ c).
Proof.
  intros Hx. rewrite blit_ok, Nat2Z.id, inserts_split by (rewrite ?length_app; lia).
  rewrite take_app_length, (app_assoc a y), drop_app_length' by (rewrite length_app; lia). done.
Qed.

Lemma slice_app a y c : slice (a ++ y ++ c) (Z.of_nat (length a)) (Z.of_nat (length y)) = Ok y.
Proof. rewrite slice_ok, !Nat2Z.id, drop_app_length, take_app_length by (rewrite ?length_app; lia). done. Qed.

(** Byte [i] of a buffer. *)
Definition byte (l : list Z) (i : Z) : Z := nth (Z.to_nat i) l 0.

Lemma byte_lookup l i : 0 <= i < Z.of_nat (length l) -> l !! Z.to_nat i = Some (byte l i).
Proof.
  intros H. unfold byte. destruct (lookup_lt_is_Some_2 l (Z.to_nat i)) as [x Hx]; [lia|].
  by rewrite nth_lookup, Hx.
Qed.

Lemma fetch_byte l i : 0 <= i < Z.of_nat (length l) -> fetch l i = Ok (byte l i).
Proof. intros H. apply fetch_ok; [lia|by apply byte_lookup]. Qed.

Lemma byte_Forall (P : Z -> Prop) l i : Forall P l -> 0 <= i < Z.of_nat (length l) -> P (byte l i).
Proof. intros HP H. exact (Forall_lookup_1 _ _ _ _ HP (byte_lookup l i H)). Qed.

(** A store of one byte. *)
Lemma blit_one l i v : 0 <= i < Z.of_nat (length l) -> blit l i [v] = Ok (<[Z.to_nat i := v]> l).
Proof. intros H. unfold blit. rewrite !(proj2 (Z.leb_le _ _)) by (cbn; lia). done. Qed.

Lemma slice_inv l off n x : slice l off n = Ok x ->
  0 <= off /\ 0 <= n /\ off + n <= Z.of_nat (length l) /\ Z.of_nat (length x) = n /\
  forall i, 0 <= i < n -> byte x i = byte l (off + i).
Proof.
  unfold slice. destruct (_ && _) eqn:Hc; [|done]. intros [= <-].
  rewrite !andb_true_iff, !Z.leb_le in Hc. destruct Hc as [[? ?] ?].
  split_and!; [lia..| |].
  - rewrite length_take, length_drop. lia.
  - intros i Hi. unfold byte. rewrite !nth_lookup, lookup_take_lt, lookup_drop by lia.
    do 2 f_equal. lia.
Qed.

Lemma blit_inv l off x l' : blit l off x = Ok l' ->
  0 <= off /\ off + Z.of_nat (length x) <= Z.of_nat (length l) /\ length l' = length l /\
  forall i, 0 <= i -> byte l' i =
    if (off <=? i) && (i <? off + Z.of_nat (length x)) then byte x (i - off) else byte l i.
Proof.
  unfold blit. destruct (_ && _) eqn:Hc; [|done]. intros [= <-].
  rewrite andb_true_iff, !Z.leb_le in Hc. destruct Hc as [? ?].
  split_and!; [lia..|apply length_inserts|].
  intros i Hi. unfold byte. rewrite !nth_lookup.
  destruct (_ && _) eqn:Hin; [rewrite andb_true_iff in Hin|rewrite andb_false_iff in Hin];
    rewrite Z.leb_le, Z.ltb_lt in Hin || rewrite Z.leb_gt, Z.ltb_ge in Hin.
  - rewrite list_lookup_inserts by lia. by rewrite Z2Nat.inj_sub by lia.
  - destruct Hin as [Hlt|Hge]; [rewrite list_lookup_inserts_lt by lia; done|].
    rewrite list_lookup_inserts_ge by lia. done.
Qed.

Lemma byte_ext (l l' : list Z) : length l = length l' ->
  (forall i, 0 <= i < Z.of_nat (length l) -> byte l i = byte l' i) -> l = l'.
Proof.
  intros Hl Hb. apply (nth_ext _ _ 0 0 Hl). intros n Hn.
  specialize (Hb (Z.of_nat n)). unfold byte in Hb. rewrite Nat2Z.id in Hb. apply Hb. lia.
Qed.

Lemma elem_of_concat_map {A B} (g : A -> list B) l p :
  p ∈ concat (map g l) <-> exists x, x ∈ l /\ p ∈ g x.
Proof.
  rewrite list_elem_of_In, in_concat. split.
  - intros (l1 & (x & <- & Hx)%in_map_iff & H1). exists x. by rewrite !list_elem_of_In.
  - intros (x & Hx & Hp). rewrite list_elem_of_In in Hx. rewrite list_elem_of_In in Hp. exists (g x). split; [|done].
    apply in_map_iff. by exists x.
Qed.

(** Writes in sequence, each a position and its bytes. *)
Fixpoint stores (l : list (Z * list Z)) (dst : list Z) : result (list Z) :=
  match l with [] => Ok dst | w :: l => dst ← blit dst w.1 w.2; stores l dst end.

Lemma stores_app l1 l2 dst : stores (l1 ++ l2) dst = (dst ← stores l1 dst; stores l2 dst).
Proof.
  revert dst. induction l1 as [|w l1 IH]; intros dst; [done|]. cbn [app stores].
  destruct (blit dst w.1 w.2); cbn [mbind result_mbind result_bind]; [apply IH|done].
Qed.

(** A loop over [j] whose round does the writes [g j] and moves the loop
    variable from [st j] to [st (j + 1)] does the writes of all rounds. *)
Lemma loop_stores {A} (st : Z -> A) (g : Z -> list (Z * list Z)) body n : forall i dst,
  (forall j dst, i <= j < i + Z.of_nat n ->
     body j (dst, st j) = (dst ← stores (g j) dst; Ok (dst, st (j + 1)))) ->
  for_loop n i body (dst, st i) =
    (dst ← stores (concat (map g (seqZ i (Z.of_nat n)))) dst; Ok (dst, st (i + Z.of_nat n))).
Proof.
  induction n as [|n IH]; intros i dst Hb; cbn [for_loop].
  - cbn. by rewrite Z.add_0_r.
  - rewrite Hb, seqZ_cons by lia. cbn [map concat]. rewrite stores_app.
    destruct (stores (g i) dst) as [dst1|]; cbn [mbind result_mbind result_bind]; [|done].
    rewrite IH by (intros; apply Hb; lia).
    replace (Z.pred (Z.of_nat (S n))) with (Z.of_nat n) by lia. change (Z.succ i) with (i + 1).
    by replace (i + Z.of_nat (S n)) with (i + 1 + Z.of_nat n) by lia.
Qed.

Lemma for_stores (g : Z -> list (Z * list Z)) body n : forall i dst,
  (forall j dst, i <= j < i + Z.of_nat n -> body j dst = stores (g j) dst) ->
  for_loop n i body dst = stores (concat (map g (seqZ i (Z.of_nat n)))) dst.
Proof.
  induction n as [|n IH]; intros i dst Hb; cbn [for_loop]; [done|].
  rewrite Hb, seqZ_cons by lia. cbn [map concat]. rewrite stores_app.
  destruct (stores (g i) dst) as [dst1|]; cbn [mbind result_mbind result_bind]; [|done].
  rewrite IH by (intros; apply Hb; lia). by replace (Z.pred (Z.of_nat (S n))) with (Z.of_nat n) by lia.
Qed.

(** Writes that overlap write the same bytes. *)
Definition stores_agree (l : list (Z * list Z)) : Prop := forall w w' i j, w ∈ l -> w' ∈ l ->
  0 <= i < Z.of_nat (length w.2) -> 0 <= j < Z.of_nat (length w'.2) -> w.1 + i = w'.1 + j ->
  byte w.2 i = byte w'.2 j.

Lemma stores_spec l : forall dst, stores_agree l ->
  Forall (fun w => 0 <= w.1 /\ w.1 + Z.of_nat (length w.2) <= Z.of_nat (length dst)) l ->
  exists dst', stores l dst = Ok dst' /\ length dst' = length dst /\
    (forall w i, w ∈ l -> 0 <= i < Z.of_nat (length w.2) -> byte dst' (w.1 + i) = byte w.2 i) /\
    (forall k, 0 <= k -> (forall w, w ∈ l -> ~ (w.1 <= k < w.1 + Z.of_nat (length w.2))) ->
       byte dst' k = byte dst k).
Proof.
  induction l as [|w l IH] using rev_ind; intros dst Hag Hin.
  { exists dst. split; [done|]. split; [done|]. split; [|done]. intros w i Hw. inversion Hw. }
  apply Forall_app in Hin as [Hin Hw]. rewrite Forall_singleton in Hw. destruct Hw as [Hw0 Hw1].
  destruct (IH dst) as (d1 & H1 & Hl1 & Hb1 & Hk1); [|done|].
  { intros v v' i j Hv Hv'. apply Hag; apply elem_of_app; by left. }
  rewrite stores_app, H1. cbn [mbind result_mbind result_bind stores].
  destruct (blit d1 w.1 w.2) as [d2|] eqn:Hb2; [|rewrite blit_ok in Hb2 by lia; done].
  apply blit_inv in Hb2 as (_ & _ & Hl2 & Hb2). exists d2. split; [done|]. split; [lia|]. split.
  - intros v i Hv Hi. destruct (Z.leb_spec w.1 (v.1 + i)) as [Hle|Hlt]; [destruct (Z.ltb_spec (v.1 + i) (w.1 + Z.of_nat (length w.2)))|].
    + assert (0 <= v.1 + i) by lia. rewrite Hb2 by lia.
      rewrite (proj2 (Z.leb_le _ _)), (proj2 (Z.ltb_lt _ _)) by lia. cbn [andb].
      symmetry. apply Hag; [done|apply elem_of_app; right; by apply list_elem_of_singleton|lia..].
    + apply elem_of_app in Hv as [Hv|Hv%list_elem_of_singleton]; [|subst; lia].
      rewrite Hb2 by lia. rewrite (proj2 (Z.ltb_ge (v.1 + i) _)), andb_false_r by lia. by apply Hb1.
    + apply elem_of_app in Hv as [Hv|Hv%list_elem_of_singleton]; [|subst; lia].
      assert (0 <= v.1) by (rewrite Forall_forall in Hin; by apply Hin).
      rewrite Hb2 by lia. rewrite (proj2 (Z.leb_gt w.1 _)) by lia. by apply Hb1.
  - intros k Hk Hne. rewrite Hb2 by done.
    assert (~ w.1 <= k < w.1 + Z.of_nat (length w.2)) as Hnw
      by (apply Hne, elem_of_app; right; by apply list_elem_of_singleton).
    destruct (Z.leb_spec w.1 k), (Z.ltb_spec k (w.1 + Z.of_nat (length w.2))); try lia; cbn [andb];
      apply Hk1; try done; intros v Hv; apply Hne, elem_of_app; by left.
Qed.

Lemma slice_bytes l off n x : 0 <= off -> off + n <= Z.of_nat (length l) ->
  Z.of_nat (length x) = n -> (forall i, 0 <= i < n -> byte l (off + i) = byte x i) -> slice l off n = Ok x.
Proof.
  intros H0 H1 Hl Hb. destruct (slice l off n) as [x'|] eqn:Hs; [|rewrite slice_ok in Hs by lia; done].
  apply slice_inv in Hs as (_ & _ & _ & Hl' & Hb'). f_equal. apply byte_ext; [lia|]. intros i Hi.
  rewrite Hb', Hb by lia. done.
Qed.

(** Bytes of a memory: [memcpy] from and to it. *)
Definition load_bytes (m : mem) (a : Z) (n : nat) : list Z :=
  map (fun i => rd m (a + Z.of_nat i)) (seq 0 n).

Fixpoint store_bytes (m : mem) (a : Z) (l : list Z) : mem :=
  match l with [] => m | b :: l => store_bytes (wr a b m) (a + 1) l end.

Lemma length_load_bytes m a n : length (load_bytes m a n) = n.
Proof. unfold load_bytes. by rewrite length_map, length_seq. Qed.

Lemma byte_load_bytes m a n i : 0 <= i < Z.of_nat n -> byte (load_bytes m a n) i = rd m (a + i).
Proof.
  intros Hi. unfold byte, load_bytes.
  rewrite (nth_indep _ 0 (rd m (a + Z.of_nat 0))) by (rewrite length_map, length_seq; lia).
  rewrite (map_nth (fun i => rd m (a + Z.of_nat i))), seq_nth by lia. f_equal. lia.
Qed.

Lemma rd_store_bytes l : forall m a x,
  rd (store_bytes m a l) x =
  if (a <=? x) && (x <? a + Z.of_nat (length l)) then byte l (x - a) else rd m x.
Proof.
  induction l as [|b l IH]; intros m a x; cbn [store_bytes length].
  - destruct (Z.leb_spec a x), (Z.ltb_spec x (a + Z.of_nat 0)); try lia; done.
  - rewrite IH. destruct (Z.eq_dec a x) as [->|Hne].
    + rewrite rd_wr_eq, Z.leb_refl, Z.sub_diag.
      destruct (Z.leb_spec (x + 1) x), (Z.ltb_spec x (x + Z.of_nat (S (length l)))); try lia; done.
    + rewrite rd_wr_ne by done.
      destruct (Z.leb_spec (a + 1) x), (Z.leb_spec a x), (Z.ltb_spec x (a + 1 + Z.of_nat (length l))),
        (Z.ltb_spec x (a + Z.of_nat (S (length l)))); try lia; try done.
      cbn [andb]. unfold byte. replace (Z.to_nat (x - a)) with (S (Z.to_nat (x - (a + 1)))) by lia. done.
Qed.

Lemma load_store_same m a l : load_bytes (store_bytes m a l) a (length l) = l.
Proof.
  apply byte_ext; rewrite length_load_bytes; [done|]. intros i Hi.
  rewrite byte_load_bytes, rd_store_bytes by done.
  rewrite (proj2 (Z.leb_le _ _)), (proj2 (Z.ltb_lt _ _)) by lia. cbn [andb]. f_equal. lia.
Qed.

Lemma load_store_disjoint m a l b n :
  b + Z.of_nat n <= a \/ a + Z.of_nat (length l) <= b ->
  load_bytes (store_bytes m a l) b n = load_bytes m b n.
Proof.
  intros Hd. apply byte_ext; rewrite !length_load_bytes; [done|]. intros i Hi.
  rewrite !byte_load_bytes, rd_store_bytes by done.
  destruct (Z.leb_spec a (b + i)), (Z.ltb_spec (b + i) (a + Z.of_nat (length l))); done || lia.
Qed.

(** A little-endian word in a byte array. *)
Lemma load_le_same m a n v :
  le_word (load_bytes (store_bytes m a (le_bytes n v)) a n) = v mod 256 ^ Z.of_nat n.
Proof.
  rewrite <- (length_le_bytes n v) at 2. by rewrite load_store_same, le_word_bytes.
Qed.

Lemma byte_app (l l' : list Z) i : 0 <= i -> byte (l ++ l') i =
  if i <? Z.of_nat (length l) then byte l i else byte l' (i - Z.of_nat (length l)).
Proof.
  intros Hi. unfold byte. destruct (Z.ltb_spec i (Z.of_nat (length l))).
  - by rewrite app_nth1 by lia.
  - rewrite app_nth2 by lia. f_equal. lia.
Qed.
