(* ===== verification/CFloat.v ===== *)
(** C's floating-point numbers: [float] is the binary format with 24 bits of
    precision and exponents below 128, [double] the one with 53 bits and 1024,
    with the arithmetic of the standard library's [SpecFloat], rounding to
    nearest.  The bit patterns of single-precision numbers, which guests pass in
    registers, convert to numbers and back. *)

From Stdlib Require Import SpecFloat.
From S2P Require Import Prelude.

Definition f_of_Z (n : Z) : spec_float := binary_normalize 24 128 n 0 false.
Definition d_of_Z (n : Z) : spec_float := binary_normalize 53 1024 n 0 false.
Definition f_add : spec_float -> spec_float -> spec_float := SFadd 24 128.
Definition f_sub : spec_float -> spec_float -> spec_float := SFsub 24 128.
Definition f_mul : spec_float -> spec_float -> spec_float := SFmul 24 128.
Definition f_div : spec_float -> spec_float -> spec_float := SFdiv 24 128.
Definition d_mul : spec_float -> spec_float -> spec_float := SFmul 53 1024.
Definition d_sub : spec_float -> spec_float -> spec_float := SFsub 53 1024.
Definition d_div : spec_float -> spec_float -> spec_float := SFdiv 53 1024.

(** A conversion between the formats rounds to the target. *)
Definition convert (prec emax : Z) (x : spec_float) : spec_float :=
  match x with
  | S754_finite s m e => binary_normalize prec emax (if s then Zneg m else Zpos m) e s
  | _ => x
  end.
Definition d_to_f : spec_float -> spec_float := convert 24 128.
Definition f_to_d : spec_float -> spec_float := convert 53 1024.

Definition f_zero : spec_float := S754_zero false.
Definition f_one : spec_float := S754_finite false (2 ^ 23) (-23).
Definition f_minus_one : spec_float := S754_finite true (2 ^ 23) (-23).

(** ** Bit patterns *)

Definition sign_bit (s : bool) : Z := if s then 2 ^ 31 else 0.

(** The pattern of a number: sign, biased exponent and the significand without
    its leading one, which subnormal numbers do not have. *)
Definition bits_of_float (x : spec_float) : Z :=
  match x with
  | S754_zero s => sign_bit s
  | S754_infinity s => sign_bit s + 0x7F800000
  | S754_nan => 0x7FC00000
  | S754_finite s m e =>
      sign_bit s + (if Zpos m <? 2 ^ 23 then Zpos m else (e + 149) * 2 ^ 23 + Zpos m)
  end.

(** The number a pattern stands for, as the casts of pointers read it. *)
Definition float_of_bits (i : Z) : spec_float :=
  let s := Z.testbit i 31 in
  let e := i / 2 ^ 23 mod 2 ^ 8 in
  let m := i mod 2 ^ 23 in
  if e =? 255 then if m =? 0 then S754_infinity s else S754_nan
  else match (if e =? 0 then m else m + 2 ^ 23) with
       | Zpos p => S754_finite s p (if e =? 0 then -149 else e - 150)
       | _ => S754_zero s
       end.

(** Every pattern but those of NaN is that of the number it stands for. *)
Lemma bits_float_bits i : is_u32 i -> float_of_bits i <> S754_nan ->
  bits_of_float (float_of_bits i) = i.
Proof.
  intros Hi. unfold is_u32 in Hi.
  assert (i = sign_bit (Z.testbit i 31) + (i / 2 ^ 23 mod 2 ^ 8) * 2 ^ 23 + i mod 2 ^ 23) as Hsplit.
  { pose proof (Z.div_mod i (2 ^ 23) ltac:(done)) as H1.
    pose proof (Z.div_mod (i / 2 ^ 23) (2 ^ 8) ltac:(done)) as H2.
    rewrite Z.div_div in H2 by done. change (2 ^ 23 * 2 ^ 8) with (2 ^ 31) in H2.
    assert (i / 2 ^ 31 = Z.b2z (Z.testbit i 31)) as H3.
    { rewrite <- (bit_of_testbit i 31), bit_of_div by done. symmetry. apply Z.mod_small.
      split; [apply Z.div_pos; lia|apply Z.div_lt_upper_bound; lia]. }
    rewrite H3 in H2. unfold sign_bit. destruct (Z.testbit i 31); cbn [Z.b2z] in H2; lia. }
  unfold float_of_bits. pose proof (Z.mod_pos_bound (i / 2 ^ 23) (2 ^ 8) ltac:(done)) as He.
  pose proof (Z.mod_pos_bound i (2 ^ 23) ltac:(done)) as Hm.
  set (s := Z.testbit i 31) in *. set (e := i / 2 ^ 23 mod 2 ^ 8) in *. set (m := i mod 2 ^ 23) in *.
  clearbody s e m. destruct (Z.eqb_spec e 255) as [->|He1].
  - destruct (Z.eqb_spec m 0) as [->|]; [|done]. intros _. cbn [bits_of_float]. lia.
  - destruct (Z.eqb_spec e 0) as [->|He0]; intros _.
    + destruct m as [|p|p]; cbn [bits_of_float]; [lia| |lia].
      rewrite (proj2 (Z.ltb_lt _ _)) by lia. lia.
    + destruct (m + 2 ^ 23) as [|p|p] eqn:Ep; [lia| |lia]. cbn [bits_of_float].
      rewrite (proj2 (Z.ltb_ge _ _)) by lia. lia.
Qed.
