(* ===== verification/I2cBus.v ===== *)
(** * The I2C bus (src/xemu/hw/i2c/core.c, include/hw/i2c/i2c.h)

    The bus dispatches the master's start, send, receive, nack and stop to the
    slaves of the current transaction.  [I2CBus] keeps the slaves (the C
    [qbus.children]) in order; [current_devs] holds positions in that list, the
    way the C list of [I2CNode]s holds pointers to the slaves.  The slave class
    with its function pointers, any of which may be null, is the type class
    [I2CSlaveClass]. *)

From S2P Require Import Prelude.

Inductive i2c_event :=
| I2C_START_RECV
| I2C_START_SEND
| I2C_START_SEND_ASYNC
| I2C_FINISH
| I2C_NACK.

#[export] Instance i2c_event_eq_dec : EqDecision i2c_event.
Proof. solve_decision. Defined.

(** The return value of [event] and [send] is a C int, 0 for success. *)
Class I2CSlaveClass (D : Type) := {
  sc_event : option (D -> i2c_event -> result (D * Z));
  sc_send : option (D -> Z -> result (D * Z));
  sc_send_async : option (D -> Z -> result D);
  sc_recv : option (D -> result (D * Z));
}.

Record I2CSlave (D : Type) := mkI2CSlave { address : Z; slave_state : D }.
Arguments mkI2CSlave {D} _ _.
Arguments address {D} _.
Arguments slave_state {D} _.

(** [pending_masters], [bh] and [scheduled] are bottom halves, named by
    numbers; [scheduled] collects the calls of [qemu_bh_schedule]. *)
Record I2CBus (D : Type) := mkI2CBus {
  children : list (I2CSlave D);
  current_devs : list nat;
  pending_masters : list nat;
  saved_address : Z;
  broadcast : bool;
  bus_bh : option nat;
  scheduled : list nat;
}.
Arguments mkI2CBus {D} _ _ _ _ _ _ _.
Arguments children {D} _.
Arguments current_devs {D} _.
Arguments pending_masters {D} _.
Arguments saved_address {D} _.
Arguments broadcast {D} _.
Arguments bus_bh {D} _.
Arguments scheduled {D} _.

#[export] Instance I2CBus_settable D : Settable (I2CBus D) :=
  settable! (@mkI2CBus D) < children ; current_devs ; pending_masters ;
    saved_address ; broadcast ; bus_bh ; scheduled >.

Definition I2C_BROADCAST : Z := 0.

Section I2cBus.
Context {D : Type} `{!I2CSlaveClass D}.
Implicit Types b : I2CBus D.

Definition i2c_init_bus (devs : list (I2CSlave D)) : I2CBus D :=
  mkI2CBus devs [] [] 0 false None [].

Definition i2c_bus_pre_save b : result (I2CBus D) :=
  let b := b <| saved_address := u8 (-1) |> in
  match current_devs b with
  | [] => Ok b
  | i :: _ =>
      if negb (broadcast b) then
        match children b !! i with
        | Some s => Ok (b <| saved_address := address s |>)
        | None => Fault NullPointer
        end
      else Ok (b <| saved_address := I2C_BROADCAST |>)
  end.

(** The devices whose [post_load] runs are the children, in order. *)
Definition i2c_slave_post_load (i : nat) (s : I2CSlave D) b : I2CBus D :=
  if (saved_address b =? address s) || (saved_address b =? I2C_BROADCAST)
  then b <| current_devs ::= cons i |>
  else b.

Definition i2c_bus_busy b : bool :=
  match current_devs b, bus_bh b with [], None => false | _, _ => true end.

Definition i2c_slave_match (i : nat) (candidate : I2CSlave D) (addr : Z)
    (bcast : bool) (devs : list nat) : list nat * bool :=
  if (address candidate =? addr) || bcast then (i :: devs, true) else (devs, false).

Fixpoint scan_children (kids : list (I2CSlave D)) (i : nat) (addr : Z)
    (bcast : bool) (devs : list nat) : list nat * bool :=
  match kids with
  | [] => (devs, bcast)
  | k :: kids' =>
      let '(devs', matched) := i2c_slave_match i k addr bcast devs in
      if matched && negb bcast then (devs', true)
      else scan_children kids' (S i) addr bcast devs'
  end.

Definition i2c_scan_bus b (addr : Z) (bcast : bool) (devs : list nat) : list nat * bool :=
  scan_children (children b) 0 addr bcast devs.

(** [sc->event(s, ev)] for the slave at position [i]. *)
Definition slave_event b (i : nat) (ev : i2c_event) : result (I2CBus D * Z) :=
  match children b !! i with
  | None => Fault NullPointer
  | Some s =>
      match sc_event with
      | None => Ok (b, 0)
      | Some event =>
          '(d, rv) ← event (slave_state s) ev;
          Ok (b <| children ::= <[i := mkI2CSlave (address s) d]> |>, rv)
      end
  end.

Fixpoint notify_all (nodes : list nat) (ev : i2c_event) b : result (I2CBus D) :=
  match nodes with
  | [] => Ok b
  | i :: nodes' => '(b, _) ← slave_event b i ev; notify_all nodes' ev b
  end.

Definition i2c_end_transfer b : result (I2CBus D) :=
  b ← notify_all (current_devs b) I2C_FINISH b;
  Ok (b <| current_devs := [] |> <| broadcast := false |>).

Fixpoint start_all (nodes : list nat) (ev : i2c_event) (bus_scanned : bool) b
    : result (I2CBus D * Z) :=
  match nodes with
  | [] => Ok (b, 0)
  | i :: nodes' =>
      '(b, rv) ← slave_event b i ev;
      if negb (rv =? 0) && negb (broadcast b) then
        if bus_scanned then b ← i2c_end_transfer b; Ok (b, rv)
        else Ok (b, rv)
      else start_all nodes' ev bus_scanned b
  end.

Definition i2c_do_start_transfer b (addr : Z) (ev : i2c_event) : result (I2CBus D * Z) :=
  let b := if addr =? I2C_BROADCAST then b <| broadcast := true |> else b in
  let '(b, bus_scanned) :=
    match current_devs b with
    | [] => (b <| current_devs := fst (i2c_scan_bus b addr (broadcast b) []) |>, true)
    | _ => (b, false)
    end in
  match current_devs b with
  | [] => Ok (b, 1)
  | nodes => start_all nodes ev bus_scanned b
  end.

Definition i2c_start_transfer b (addr : Z) (is_recv : bool) : result (I2CBus D * Z) :=
  i2c_do_start_transfer b addr (if is_recv then I2C_START_RECV else I2C_START_SEND).
Definition i2c_start_recv b (addr : Z) := i2c_do_start_transfer b addr I2C_START_RECV.
Definition i2c_start_send b (addr : Z) := i2c_do_start_transfer b addr I2C_START_SEND.
Definition i2c_start_send_async b (addr : Z) :=
  i2c_do_start_transfer b addr I2C_START_SEND_ASYNC.

(** [ret = ret || sc->send(s, data)]: after a failure the remaining slaves
    get nothing. *)
Fixpoint send_all (nodes : list nat) (data : Z) (ret : Z) b : result (I2CBus D * Z) :=
  match nodes with
  | [] => Ok (b, ret)
  | i :: nodes' =>
      match children b !! i with
      | None => Fault NullPointer
      | Some s =>
          match sc_send with
          | None => send_all nodes' data (-1) b
          | Some send =>
              if ret =? 0 then
                '(d, rv) ← send (slave_state s) data;
                send_all nodes' data (if rv =? 0 then 0 else 1)
                  (b <| children ::= <[i := mkI2CSlave (address s) d]> |>)
              else send_all nodes' data 1 b
          end
      end
  end.

Definition i2c_send b (data : Z) : result (I2CBus D * Z) :=
  '(b, ret) ← send_all (current_devs b) data 0 b;
  Ok (b, if ret =? 0 then 0 else -1).

Definition i2c_send_async b (data : Z) : result (I2CBus D * Z) :=
  match current_devs b with
  | [] => Fault NullPointer
  | i :: _ =>
      match children b !! i with
      | None => Fault NullPointer
      | Some s =>
          match sc_send_async with
          | None => Ok (b, -1)
          | Some f =>
              d ← f (slave_state s) data;
              Ok (b <| children ::= <[i := mkI2CSlave (address s) d]> |>, 0)
          end
      end
  end.

Definition i2c_recv b : result (I2CBus D * Z) :=
  match current_devs b, broadcast b with
  | i :: _, false =>
      match sc_recv with
      | None => Ok (b, 0xff)
      | Some recv =>
          match children b !! i with
          | None => Fault NullPointer
          | Some s =>
              '(d, data) ← recv (slave_state s);
              Ok (b <| children ::= <[i := mkI2CSlave (address s) d]> |>, data)
          end
      end
  | _, _ => Ok (b, 0xff)
  end.

Definition i2c_nack b : result (I2CBus D) :=
  match current_devs b with
  | [] => Ok b
  | nodes => notify_all nodes I2C_NACK b
  end.

Definition i2c_bus_master b (bh : nat) : I2CBus D :=
  b <| pending_masters ::= fun l => l ++ [bh] |>.

Definition i2c_schedule_pending_master b : I2CBus D :=
  if i2c_bus_busy b then b
  else match pending_masters b with
       | [] => b
       | bh :: rest =>
           b <| bus_bh := Some bh |> <| pending_masters := rest |>
             <| scheduled ::= fun l => l ++ [bh] |>
       end.

Definition i2c_bus_release b : I2CBus D :=
  i2c_schedule_pending_master (b <| bus_bh := None |>).

Definition i2c_ack b : I2CBus D :=
  match bus_bh b with
  | None => b
  | Some bh => b <| scheduled ::= fun l => l ++ [bh] |>
  end.

(** ** A transaction with one slave

    [attached b i addr d] says that the slave at position [i] is the one that
    answers to [addr] and has state [d]; [in_transfer b i addr d] is the bus
    [b] in the middle of a transaction with it, [idle_with b i addr d] the bus
    between transactions. *)

Definition attached b (i : nat) (addr : Z) (d : D) : Prop :=
  children b !! i = Some (mkI2CSlave addr d) /\
  (forall j s, (j < i)%nat -> children b !! j = Some s -> address s <> addr).

Definition idle b : Prop := current_devs b = [] /\ broadcast b = false.

Definition with_slave b (i : nat) (addr : Z) (d : D) : I2CBus D :=
  b <| children ::= <[i := mkI2CSlave addr d]> |>.
Definition in_transfer b (i : nat) (addr : Z) (d : D) : I2CBus D :=
  with_slave b i addr d <| current_devs := [i] |>.

Lemma scan_children_first kids addr i s off devs :
  kids !! i = Some s -> address s = addr ->
  (forall j s', (j < i)%nat -> kids !! j = Some s' -> address s' <> addr) ->
  scan_children kids off addr false devs = ((off + i)%nat :: devs, true).
Proof.
  revert i off. induction kids as [|k kids IH]; intros i off Hi Ha Hbefore; [done|].
  destruct i as [|i]; simpl in *.
  - simplify_eq. unfold i2c_slave_match. rewrite Z.eqb_refl. simpl.
    by rewrite Nat.add_0_r.
  - unfold i2c_slave_match.
    destruct (Z.eqb_spec (address k) addr) as [He|_].
    { destruct (Hbefore 0%nat k); [lia|done|done]. }
    simpl. rewrite (IH i (S off)) by
      (try done; intros j s' Hj; apply (Hbefore (S j) s'); lia).
    f_equal. f_equal. lia.
Qed.

Lemma scan_children_none kids addr off devs :
  (forall s, s ∈ kids -> address s <> addr) ->
  scan_children kids off addr false devs = (devs, false).
Proof.
  revert off. induction kids as [|k kids IH]; intros off Hno; [done|].
  simpl. unfold i2c_slave_match.
  destruct (Z.eqb_spec (address k) addr) as [He|_].
  { destruct (Hno k); [left|done]. }
  simpl. apply IH. intros s Hs. apply Hno. by right.
Qed.

Lemma with_slave_id b i addr d : attached b i addr d -> with_slave b i addr d = b.
Proof.
  intros [Hi _]. destruct b; unfold with_slave, setf; simpl in *.
  by rewrite list_insert_id.
Qed.

Lemma with_slave_lookup b i addr d d' :
  attached b i addr d -> children (with_slave b i addr d') !! i = Some (mkI2CSlave addr d').
Proof.
  intros [Hi _]. cbn. apply list_lookup_insert_eq. by eapply lookup_lt_Some.
Qed.

Lemma with_slave_twice b i addr d d' :
  with_slave (with_slave b i addr d) i addr d' = with_slave b i addr d'.
Proof.
  destruct b; unfold with_slave, setf; simpl. by rewrite list_insert_insert_eq.
Qed.

Lemma with_slave_attached b i addr d d' :
  attached b i addr d -> attached (with_slave b i addr d') i addr d'.
Proof.
  intros H. split; [by eapply with_slave_lookup|].
  intros j s Hj. cbn. rewrite list_lookup_insert_ne by lia.
  by apply H.
Qed.

Lemma with_slave_others b i addr d j :
  i <> j -> children (with_slave b i addr d) !! j = children b !! j.
Proof. intros. cbn. by apply list_lookup_insert_ne. Qed.

Section OneSlave.
Context (event : D -> i2c_event -> result (D * Z)) (Hevent : sc_event = Some event).
Context (send : D -> Z -> result (D * Z)) (Hsend : sc_send = Some send).
Context (recv : D -> result (D * Z)) (Hrecv : sc_recv = Some recv).
Context (b : I2CBus D) (i : nat) (addr : Z) (d0 : D).
Context (Hatt : attached b i addr d0) (Hidle : idle b) (Haddr : addr <> I2C_BROADCAST).

Lemma slave_event_in_transfer d ev :
  slave_event (in_transfer b i addr d) i ev =
    ('(d', rv) ← event d ev; Ok (in_transfer b i addr d', rv)).
Proof.
  unfold slave_event, in_transfer.
  change (children (with_slave b i addr d <| current_devs := [i] |>))
    with (children (with_slave b i addr d)).
  rewrite (with_slave_lookup b i addr d0 d Hatt), Hevent. simpl.
  destruct (event d ev) as [[d' rv]|f]; simpl; [|done].
  f_equal. f_equal. rewrite <- (with_slave_twice b i addr d d'). done.
Qed.

Lemma start_in_transfer d ev :
  i2c_do_start_transfer (in_transfer b i addr d) addr ev =
    ('(d', rv) ← event d ev; Ok (in_transfer b i addr d', rv)).
Proof.
  unfold i2c_do_start_transfer. rewrite (proj2 (Z.eqb_neq _ _) Haddr). cbn -[slave_event].
  rewrite slave_event_in_transfer.
  destruct (event d ev) as [[d' rv]|f]; simpl; [|done].
  destruct Hidle as [_ Hb]. rewrite Hb. simpl.
  destruct (Z.eqb_spec rv 0); by subst.
Qed.

Lemma end_in_transfer d :
  i2c_end_transfer (in_transfer b i addr d) =
    ('(d', _) ← event d I2C_FINISH; Ok (with_slave b i addr d')).
Proof.
  unfold i2c_end_transfer. cbn -[slave_event]. rewrite slave_event_in_transfer.
  destruct (event d I2C_FINISH) as [[d' rv]|f]; simpl; [|done].
  destruct Hidle as [Hc Hb]. unfold in_transfer, with_slave, setf. simpl.
  by rewrite Hc, Hb.
Qed.

Lemma start_idle ev :
  i2c_do_start_transfer b addr ev =
    ('(d', rv) ← event d0 ev;
     if rv =? 0 then Ok (in_transfer b i addr d', 0)
     else b' ← i2c_end_transfer (in_transfer b i addr d'); Ok (b', rv)).
Proof.
  unfold i2c_do_start_transfer. rewrite (proj2 (Z.eqb_neq _ _) Haddr).
  destruct Hidle as [Hc Hb]. rewrite Hc, Hb. unfold i2c_scan_bus.
  destruct Hatt as [Hi Hbefore].
  rewrite (scan_children_first (children b) addr i (mkI2CSlave addr d0) 0 []
             Hi eq_refl Hbefore).
  change (0 + i)%nat with i. cbn -[slave_event i2c_end_transfer].
  replace (b <| current_devs := [i] |>) with (in_transfer b i addr d0)
    by (unfold in_transfer; by rewrite with_slave_id).
  rewrite slave_event_in_transfer.
  destruct (event d0 ev) as [[d' rv]|f]; simpl; [|done].
  rewrite Hb. destruct (Z.eqb_spec rv 0); by subst.
Qed.

Lemma send_in_transfer d x :
  i2c_send (in_transfer b i addr d) x =
    ('(d', rv) ← send d x; Ok (in_transfer b i addr d', if rv =? 0 then 0 else -1)).
Proof.
  unfold i2c_send. simpl current_devs. simpl send_all.
  change (<[i:=mkI2CSlave addr d]> (children b)) with (children (with_slave b i addr d)).
  rewrite (with_slave_lookup b i addr d0 d Hatt), Hsend. simpl.
  destruct (send d x) as [[d' rv]|f]; simpl; [|done].
  destruct (rv =? 0); simpl; f_equal; f_equal;
    unfold in_transfer; rewrite <- (with_slave_twice b i addr d d'); done.
Qed.

Lemma recv_in_transfer d :
  i2c_recv (in_transfer b i addr d) =
    ('(d', x) ← recv d; Ok (in_transfer b i addr d', x)).
Proof.
  unfold i2c_recv. destruct Hidle as [_ Hb]. cbn -[mbind]. rewrite Hb, Hrecv.
  change (<[i:=mkI2CSlave addr d]> (children b)) with (children (with_slave b i addr d)).
  rewrite (with_slave_lookup b i addr d0 d Hatt). simpl.
  destruct (recv d) as [[d' x]|f]; simpl; [|done].
  f_equal. f_equal. unfold in_transfer. rewrite <- (with_slave_twice b i addr d d'). done.
Qed.

Lemma nack_in_transfer d :
  i2c_nack (in_transfer b i addr d) =
    ('(d', _) ← event d I2C_NACK; Ok (in_transfer b i addr d')).
Proof.
  unfold i2c_nack. cbn -[slave_event]. rewrite slave_event_in_transfer.
  by destruct (event d I2C_NACK) as [[d' rv]|f].
Qed.
End OneSlave.

Lemma start_nobody b addr ev :
  idle b -> addr <> I2C_BROADCAST -> (forall s, s ∈ children b -> address s <> addr) ->
  i2c_do_start_transfer b addr ev = Ok (b, 1).
Proof.
  intros [Hc Hb] Ha Hno. unfold i2c_do_start_transfer.
  rewrite (proj2 (Z.eqb_neq _ _) Ha), Hc, Hb. unfold i2c_scan_bus.
  rewrite (scan_children_none _ _ _ _ Hno). simpl.
  destruct b; simpl in *; by subst.
Qed.

End I2cBus.

#[global] Arguments i2c_do_start_transfer : simpl never.
#[global] Arguments i2c_end_transfer : simpl never.
#[global] Arguments i2c_send : simpl never.
#[global] Arguments i2c_recv : simpl never.
#[global] Arguments i2c_nack : simpl never.
