(* ===== verification/SmbusSlave.v ===== *)
(** * The SMBus slave protocol (src/xemu/hw/i2c/smbus_slave.c, smbus_slave.h)

    Every SMBus device of the Xbox is a [SMBusDevice]: the protocol state below
    and the state [user] of the device itself, whose class gives the three
    callbacks.  [smbus_i2c_event], [smbus_i2c_send] and [smbus_i2c_recv] make it
    an I2C slave. *)

From S2P Require Import Prelude I2cBus.

Inductive smbus_mode :=
| SMBUS_IDLE
| SMBUS_WRITE_DATA
| SMBUS_READ_DATA
| SMBUS_DONE
| SMBUS_CONFUSED.

#[export] Instance smbus_mode_eq_dec : EqDecision smbus_mode.
Proof. solve_decision. Defined.

(** [write_data] gets the whole buffer and the number of bytes received. *)
Class SMBusDeviceClass (D : Type) := {
  quick_cmd : option (D -> Z -> result D);
  write_data : option (D -> list Z -> Z -> result (D * Z));
  receive_byte : option (D -> result (D * Z));
}.

Definition SMBUS_DATA_MAX_LEN : Z := 34.

Record SMBusDevice (D : Type) := mkSMBusDevice {
  mode : smbus_mode;
  data_len : Z;
  data_buf : list Z;
  user : D;
}.
Arguments mkSMBusDevice {D} _ _ _ _.
Arguments mode {D} _.
Arguments data_len {D} _.
Arguments data_buf {D} _.
Arguments user {D} _.

#[export] Instance SMBusDevice_settable D : Settable (SMBusDevice D) :=
  settable! (@mkSMBusDevice D) < mode ; data_len ; data_buf ; user >.

Section SmbusSlave.
Context {D : Type} `{!SMBusDeviceClass D}.
Implicit Types dev : SMBusDevice D.

Definition smbus_do_quick_cmd dev (recv : bool) : result (SMBusDevice D) :=
  match quick_cmd with
  | Some f => d ← f (user dev) (if recv then 1 else 0); Ok (dev <| user := d |>)
  | None => Ok dev
  end.

Definition smbus_do_write dev : result (SMBusDevice D) :=
  match write_data with
  | Some f => '(d, _) ← f (user dev) (data_buf dev) (u8 (data_len dev)); Ok (dev <| user := d |>)
  | None => Ok dev
  end.

Definition smbus_i2c_event dev (event : i2c_event) : result (SMBusDevice D * Z) :=
  match event with
  | I2C_START_SEND =>
      match mode dev with
      | SMBUS_IDLE => Ok (dev <| mode := SMBUS_WRITE_DATA |>, 0)
      | _ => Ok (dev <| mode := SMBUS_CONFUSED |>, 0)
      end
  | I2C_START_RECV =>
      match mode dev with
      | SMBUS_IDLE => Ok (dev <| mode := SMBUS_READ_DATA |>, 0)
      | SMBUS_WRITE_DATA =>
          if data_len dev =? 0 then Ok (dev <| mode := SMBUS_CONFUSED |>, 0)
          else dev ← smbus_do_write dev; Ok (dev <| mode := SMBUS_READ_DATA |>, 0)
      | _ => Ok (dev <| mode := SMBUS_CONFUSED |>, 0)
      end
  | I2C_FINISH =>
      dev ← (if data_len dev =? 0 then
               match mode dev with
               | SMBUS_WRITE_DATA => smbus_do_quick_cmd dev false
               | SMBUS_READ_DATA => smbus_do_quick_cmd dev true
               | _ => Ok dev
               end
             else
               match mode dev with
               | SMBUS_WRITE_DATA => smbus_do_write dev
               | _ => Ok dev
               end);
      Ok (dev <| mode := SMBUS_IDLE |> <| data_len := 0 |>, 0)
  | I2C_NACK =>
      match mode dev with
      | SMBUS_DONE => Ok (dev, 0)
      | SMBUS_READ_DATA => Ok (dev <| mode := SMBUS_DONE |>, 0)
      | _ => Ok (dev <| mode := SMBUS_CONFUSED |>, 0)
      end
  | I2C_START_SEND_ASYNC => Ok (dev, -1)
  end.

Definition smbus_i2c_recv dev : result (SMBusDevice D * Z) :=
  match mode dev with
  | SMBUS_READ_DATA =>
      match receive_byte with
      | Some f => '(d, ret) ← f (user dev); Ok (dev <| user := d |>, ret)
      | None => Ok (dev, 0xff)
      end
  | _ => Ok (dev <| mode := SMBUS_CONFUSED |>, 0xff)
  end.

Definition smbus_i2c_send dev (data : Z) : result (SMBusDevice D * Z) :=
  match mode dev with
  | SMBUS_WRITE_DATA =>
      if SMBUS_DATA_MAX_LEN <=? u64 (data_len dev) then Ok (dev, 0)
      else Ok (dev <| data_buf ::= <[Z.to_nat (data_len dev) := data]> |>
                   <| data_len ::= Z.add 1 |>, 0)
  | _ => Ok (dev, 0)
  end.

#[export] Instance smbus_device_class : I2CSlaveClass (SMBusDevice D) := {
  sc_event := Some smbus_i2c_event;
  sc_send := Some smbus_i2c_send;
  sc_send_async := None;
  sc_recv := Some smbus_i2c_recv;
}.

Lemma smbus_sc_event : sc_event = Some smbus_i2c_event.
Proof. reflexivity. Qed.
Lemma smbus_sc_send : sc_send = Some smbus_i2c_send.
Proof. reflexivity. Qed.
Lemma smbus_sc_recv : sc_recv = Some smbus_i2c_recv.
Proof. reflexivity. Qed.

Definition smbus_vmstate_needed dev : bool := negb (bool_decide (mode dev = SMBUS_IDLE)).

(** The buffer never overflows. *)
Definition smbus_wf dev : Prop :=
  Z.of_nat (length (data_buf dev)) = SMBUS_DATA_MAX_LEN /\
  0 <= data_len dev <= SMBUS_DATA_MAX_LEN.

(** What the master can make a slave do, whatever the order. *)
Inductive smbus_step dev : SMBusDevice D -> Prop :=
| step_event ev dev' rv : smbus_i2c_event dev ev = Ok (dev', rv) -> smbus_step dev dev'
| step_send x dev' rv : smbus_i2c_send dev x = Ok (dev', rv) -> smbus_step dev dev'
| step_recv dev' x : smbus_i2c_recv dev = Ok (dev', x) -> smbus_step dev dev'.

(** [resting dev]: between transactions.  [sent dev bs]: the master has started
    a write and sent the bytes [bs].  [finish dev bs d]: the transaction is over
    and the device is in state [d]. *)
Definition resting dev : Prop :=
  mode dev = SMBUS_IDLE /\ data_len dev = 0 /\
  Z.of_nat (length (data_buf dev)) = SMBUS_DATA_MAX_LEN.

Definition buffer dev (bs : list Z) : list Z := bs ++ drop (length bs) (data_buf dev).
Definition sent dev (bs : list Z) : SMBusDevice D :=
  dev <| mode := SMBUS_WRITE_DATA |> <| data_len := Z.of_nat (length bs) |>
      <| data_buf := buffer dev bs |>.
Definition finish dev (bs : list Z) (d : D) : SMBusDevice D :=
  mkSMBusDevice SMBUS_IDLE 0 (buffer dev bs) d.
Definition reading dev (bs : list Z) (d : D) : SMBusDevice D :=
  mkSMBusDevice SMBUS_READ_DATA (Z.of_nat (length bs)) (buffer dev bs) d.

Definition done_reading dev (bs : list Z) (d : D) : SMBusDevice D :=
  reading dev bs d <| mode := SMBUS_DONE |>.

(** The device's [write_data] on the received bytes [bs], and its
    [receive_byte], with the defaults of a class that lacks them. *)
Definition call_write dev (bs : list Z) : result D :=
  match write_data with
  | Some f => '(d, _) ← f (user dev) (buffer dev bs) (u8 (Z.of_nat (length bs))); Ok d
  | None => Ok (user dev)
  end.
Definition call_receive (d : D) : result (D * Z) :=
  match receive_byte with Some f => f d | None => Ok (d, 0xff) end.
Definition call_quick (d : D) (recv : bool) : result D :=
  match quick_cmd with Some f => f d (if recv then 1 else 0) | None => Ok d end.

Lemma do_write_keeps dev dev' :
  smbus_do_write dev = Ok dev' -> exists d, dev' = dev <| user := d |>.
Proof.
  unfold smbus_do_write. destruct write_data as [f|].
  - destruct (f _ _ _) as [[d r]|e]; simpl; intros; simplify_eq; eauto.
  - intros; simplify_eq. exists (user dev'). by destruct dev'.
Qed.

Lemma do_quick_keeps dev r dev' :
  smbus_do_quick_cmd dev r = Ok dev' -> exists d, dev' = dev <| user := d |>.
Proof.
  unfold smbus_do_quick_cmd. destruct quick_cmd as [f|].
  - destruct (f _ _) as [d|e]; simpl; intros; simplify_eq; eauto.
  - intros; simplify_eq. exists (user dev'). by destruct dev'.
Qed.

Lemma event_wf dev ev dev' rv :
  smbus_wf dev -> smbus_i2c_event dev ev = Ok (dev', rv) -> smbus_wf dev'.
Proof.
  intros [Hl Hd] He. unfold smbus_i2c_event, mbind, result_mbind, result_bind in He.
  destruct (smbus_do_write dev) eqn:Hw; [apply do_write_keeps in Hw as [? ->]|];
    destruct ev; repeat case_match; simplify_eq;
    repeat match goal with
    | H : smbus_do_quick_cmd _ _ = Ok _ |- _ => apply do_quick_keeps in H as [? ->]
    end; split; simpl; unfold SMBUS_DATA_MAX_LEN in *; lia.
Qed.

Lemma send_wf dev x dev' rv :
  smbus_wf dev -> smbus_i2c_send dev x = Ok (dev', rv) -> smbus_wf dev'.
Proof.
  intros [Hl Hd] He. unfold smbus_i2c_send in He.
  destruct (mode dev); simplify_eq; try done.
  destruct (Z.leb_spec SMBUS_DATA_MAX_LEN (u64 (data_len dev))) as [|Hlt]; simplify_eq; [done|].
  unfold SMBUS_DATA_MAX_LEN, u64 in *. rewrite Z.mod_small in Hlt by lia.
  split; cbn -[Z.add]; unfold SMBUS_DATA_MAX_LEN; [rewrite length_insert|]; lia.
Qed.

Lemma recv_wf dev dev' x :
  smbus_wf dev -> smbus_i2c_recv dev = Ok (dev', x) -> smbus_wf dev'.
Proof.
  intros Hwf He. unfold smbus_i2c_recv in He.
  destruct (mode dev); simplify_eq; try done.
  destruct receive_byte as [f|]; simplify_eq; [|done].
  destruct (f (user dev)) as [[d r]|]; simpl in *; by simplify_eq.
Qed.

(** C5.  Whatever starts, bytes, reads, nacks and stops a master sends, in any
    order, the slave's transfer buffer keeps its 34 bytes and the fill count
    stays within it, so [data_buf[data_len++] = data] never writes outside. *)
Theorem smbus_buffer_never_overflows dev dev' :
  smbus_wf dev -> rtc smbus_step dev dev' -> smbus_wf dev'.
Proof.
  intros Hwf Hsteps. induction Hsteps as [|dev dev1 dev2 Hstep _ IH]; [done|].
  apply IH. destruct Hstep; [by eapply event_wf|by eapply send_wf|by eapply recv_wf].
Qed.

(** ** One write or read transaction, seen by the slave *)

Lemma buffer_nil dev : buffer dev [] = data_buf dev.
Proof. reflexivity. Qed.

Lemma start_send_resting dev :
  resting dev -> smbus_i2c_event dev I2C_START_SEND = Ok (sent dev [], 0).
Proof. intros (Hm & Hd & _). unfold smbus_i2c_event. rewrite Hm. destruct dev; simpl in *; by subst. Qed.

Lemma send_sent dev bs x :
  resting dev -> Z.of_nat (length bs) < SMBUS_DATA_MAX_LEN ->
  smbus_i2c_send (sent dev bs) x = Ok (sent dev (bs ++ [x]), 0).
Proof.
  intros (_ & _ & Hl) Hbs. unfold smbus_i2c_send. cbn -[Z.add].
  unfold SMBUS_DATA_MAX_LEN, u64 in *. rewrite Z.mod_small by lia.
  rewrite (proj2 (Z.leb_gt 34 _)) by lia.
  f_equal. f_equal. unfold sent, buffer, setf. cbn -[Z.add].
  rewrite length_app. simpl. rewrite Nat2Z.id. f_equal; [lia|].
  rewrite insert_app_r_alt, Nat.sub_diag by lia.
  destruct (drop (length bs) (data_buf dev)) as [|y ys] eqn:Hdrop.
  { apply (f_equal length) in Hdrop. rewrite length_drop in Hdrop. simpl in Hdrop. lia. }
  rewrite <- drop_drop, Hdrop. simpl. by rewrite <- app_assoc.
Qed.

Lemma stop_sent dev bs :
  resting dev -> bs <> [] ->
  smbus_i2c_event (sent dev bs) I2C_FINISH =
    (d ← call_write dev bs; Ok (finish dev bs d, 0)).
Proof.
  intros Hr Hbs. unfold smbus_i2c_event, call_write, smbus_do_write, finish. cbn.
  destruct bs as [|b bs]; [done|]. rewrite (proj2 (Z.eqb_neq _ 0)) by (simpl; lia).
  destruct write_data as [f|]; [|done].
  by destruct (f _ _ _) as [[d r]|e].
Qed.

Lemma stop_empty dev :
  resting dev ->
  smbus_i2c_event (sent dev []) I2C_FINISH =
    (d ← call_quick (user dev) false; Ok (finish dev [] d, 0)).
Proof.
  intros Hr. unfold smbus_i2c_event, call_quick, smbus_do_quick_cmd, finish. cbn.
  destruct quick_cmd as [f|]; [|done]. by destruct (f _ _) as [d|e].
Qed.

Lemma restart_sent dev bs :
  resting dev -> bs <> [] ->
  smbus_i2c_event (sent dev bs) I2C_START_RECV =
    (d ← call_write dev bs; Ok (reading dev bs d, 0)).
Proof.
  intros Hr Hbs. unfold smbus_i2c_event, call_write, smbus_do_write, reading. cbn.
  destruct bs as [|b bs]; [done|]. rewrite (proj2 (Z.eqb_neq _ 0)) by (simpl; lia).
  destruct write_data as [f|]; [|done].
  by destruct (f _ _ _) as [[d r]|e].
Qed.

Lemma start_recv_resting dev :
  resting dev -> smbus_i2c_event dev I2C_START_RECV = Ok (reading dev [] (user dev), 0).
Proof. intros (Hm & Hd & _). unfold smbus_i2c_event. rewrite Hm. destruct dev; simpl in *; by subst. Qed.

Lemma recv_reading dev bs d :
  smbus_i2c_recv (reading dev bs d) =
    ('(d', x) ← call_receive d; Ok (reading dev bs d', x)).
Proof.
  unfold smbus_i2c_recv, call_receive. cbn. destruct receive_byte as [f|]; [|done].
  by destruct (f d) as [[d' x]|e].
Qed.

Lemma nack_reading dev bs d :
  smbus_i2c_event (reading dev bs d) I2C_NACK = Ok (done_reading dev bs d, 0).
Proof. reflexivity. Qed.

Lemma stop_done dev bs d :
  smbus_i2c_event (done_reading dev bs d) I2C_FINISH = Ok (finish dev bs d, 0).
Proof. unfold smbus_i2c_event. cbn. by destruct (Z.of_nat _ =? 0). Qed.

Lemma finish_resting dev bs d :
  resting dev -> Z.of_nat (length bs) <= SMBUS_DATA_MAX_LEN -> resting (finish dev bs d).
Proof.
  intros (_ & _ & Hl) Hbs. repeat split. cbn. unfold buffer.
  rewrite length_app, length_drop. lia.
Qed.

End SmbusSlave.

#[global] Arguments smbus_i2c_event : simpl never.
#[global] Arguments smbus_i2c_send : simpl never.
#[global] Arguments smbus_i2c_recv : simpl never.
#[global] Arguments call_write : simpl never.
#[global] Arguments call_receive : simpl never.
#[global] Arguments call_quick : simpl never.
