(* ===== verification/SmbusMaster.v ===== *)
(** * The SMBus master (src/xemu/hw/i2c/smbus_master.c)

    The SMBus transactions as sequences of I2C operations, and what each of
    them does to a resting SMBus device on an idle bus: exactly one call of the
    device's [write_data] with the bytes of the transaction and the expected
    calls of [receive_byte], the bus and the device idle again afterwards. *)

From S2P Require Import Prelude I2cBus SmbusSlave.

Section Master.
Context {D : Type} `{!I2CSlaveClass D}.
Implicit Types b : I2CBus D.

Definition smbus_quick_command b (addr : Z) (read : Z) : result (I2CBus D * Z) :=
  '(b, rv) ← i2c_start_transfer b addr (negb (read =? 0));
  if negb (rv =? 0) then Ok (b, -1)
  else b ← i2c_end_transfer b; Ok (b, 0).

Definition smbus_receive_byte b (addr : Z) : result (I2CBus D * Z) :=
  '(b, rv) ← i2c_start_recv b addr;
  if negb (rv =? 0) then Ok (b, -1)
  else
    '(b, data) ← i2c_recv b;
    b ← i2c_nack b;
    b ← i2c_end_transfer b;
    Ok (b, data).

Definition smbus_send_byte b (addr data : Z) : result (I2CBus D * Z) :=
  '(b, rv) ← i2c_start_send b addr;
  if negb (rv =? 0) then Ok (b, -1)
  else
    '(b, _) ← i2c_send b data;
    b ← i2c_end_transfer b;
    Ok (b, 0).

Definition smbus_read_byte b (addr command : Z) : result (I2CBus D * Z) :=
  '(b, rv) ← i2c_start_send b addr;
  if negb (rv =? 0) then Ok (b, -1)
  else
    '(b, _) ← i2c_send b command;
    '(b, rv) ← i2c_start_recv b addr;
    if negb (rv =? 0) then b ← i2c_end_transfer b; Ok (b, -1)
    else
      '(b, data) ← i2c_recv b;
      b ← i2c_nack b;
      b ← i2c_end_transfer b;
      Ok (b, data).

Definition smbus_write_byte b (addr command data : Z) : result (I2CBus D * Z) :=
  '(b, rv) ← i2c_start_send b addr;
  if negb (rv =? 0) then Ok (b, -1)
  else
    '(b, _) ← i2c_send b command;
    '(b, _) ← i2c_send b data;
    b ← i2c_end_transfer b;
    Ok (b, 0).

Definition smbus_read_word b (addr command : Z) : result (I2CBus D * Z) :=
  '(b, rv) ← i2c_start_send b addr;
  if negb (rv =? 0) then Ok (b, -1)
  else
    '(b, _) ← i2c_send b command;
    '(b, rv) ← i2c_start_recv b addr;
    if negb (rv =? 0) then b ← i2c_end_transfer b; Ok (b, -1)
    else
      '(b, lo) ← i2c_recv b;
      '(b, hi) ← i2c_recv b;
      b ← i2c_nack b;
      b ← i2c_end_transfer b;
      Ok (b, u16 (Z.lor lo (Z.shiftl hi 8))).

Definition smbus_write_word b (addr command data : Z) : result (I2CBus D * Z) :=
  '(b, rv) ← i2c_start_send b addr;
  if negb (rv =? 0) then Ok (b, -1)
  else
    '(b, _) ← i2c_send b command;
    '(b, _) ← i2c_send b (Z.land data 0xff);
    '(b, _) ← i2c_send b (u8 (Z.shiftr data 8));
    b ← i2c_end_transfer b;
    Ok (b, 0).

(** [for (i = 0; i < rlen; i++) data[i] = i2c_recv(bus);] *)
Fixpoint recv_bytes b (n : nat) (i : nat) (data : list Z) : result (I2CBus D * list Z) :=
  match n with
  | O => Ok (b, data)
  | S n' =>
      '(b, x) ← i2c_recv b;
      if decide (i < length data)%nat then recv_bytes b n' (S i) (<[i := x]> data)
      else Fault OutOfBounds
  end.

Definition smbus_read_block b (addr command : Z) (data : list Z) (len : Z)
    (recv_len send_cmd : bool) : result (I2CBus D * list Z * Z) :=
  '(b, rv) ← (if send_cmd then
                '(b, rv) ← i2c_start_send b addr;
                if negb (rv =? 0) then Ok (b, rv)
                else '(b, _) ← i2c_send b command; Ok (b, 0)
              else Ok (b, 0));
  if negb (rv =? 0) then Ok (b, data, -1)
  else
    '(b, rv) ← i2c_start_recv b addr;
    if negb (rv =? 0) then
      b ← (if send_cmd then i2c_end_transfer b else Ok b);
      Ok (b, data, -1)
    else
      '(b, rlen) ← (if recv_len then i2c_recv b else Ok (b, len));
      let rlen := if len <? rlen then 0 else rlen in
      '(b, data) ← recv_bytes b (Z.to_nat rlen) 0 data;
      b ← i2c_nack b;
      b ← i2c_end_transfer b;
      Ok (b, data, rlen).

(** [for (i = 0; i < len; i++) i2c_send(bus, data[i]);] *)
Fixpoint send_bytes b (n : nat) (i : nat) (data : list Z) : result (I2CBus D) :=
  match n with
  | O => Ok b
  | S n' =>
      match data !! i with
      | Some x => '(b, _) ← i2c_send b x; send_bytes b n' (S i) data
      | None => Fault OutOfBounds
      end
  end.

Definition smbus_write_block b (addr command : Z) (data : list Z) (len : Z)
    (send_len : bool) : result (I2CBus D * Z) :=
  let len := if 32 <? len then 32 else len in
  '(b, rv) ← i2c_start_send b addr;
  if negb (rv =? 0) then Ok (b, -1)
  else
    '(b, _) ← i2c_send b command;
    b ← (if send_len then '(b, _) ← i2c_send b (u8 len); Ok b else Ok b);
    b ← send_bytes b (Z.to_nat len) 0 data;
    b ← i2c_end_transfer b;
    Ok (b, 0).

End Master.

(** ** Transactions with an SMBus device *)

Section Transactions.
Context {D : Type} `{!SMBusDeviceClass D}.
Context (b : I2CBus (SMBusDevice D)) (i : nat) (addr : Z) (dev : SMBusDevice D).
Context (Hatt : attached b i addr dev) (Hidle : idle b) (Haddr : addr <> I2C_BROADCAST).
Context (Hrest : resting dev).

(** The bus after the transaction: only the addressed device has changed. *)
Definition after (bs : list Z) (d : D) : I2CBus (SMBusDevice D) :=
  with_slave b i addr (finish dev bs d).

(** What holds between transactions: the bus is idle, the device answers at its
    address and rests in state [d], and the other slaves are as before. *)
Definition settled (b' : I2CBus (SMBusDevice D)) (d : D) : Prop :=
  idle b' /\
  (exists dev', attached b' i addr dev' /\ resting dev' /\ user dev' = d) /\
  forall j, j <> i -> children b' !! j = children b !! j.

(** [n] consecutive calls of the device's [receive_byte]. *)
Fixpoint call_receives (d : D) (n : nat) : result (D * list Z) :=
  match n with
  | O => Ok (d, [])
  | S n' =>
      '(d, x) ← call_receive d;
      '(d, xs) ← call_receives d n';
      Ok (d, x :: xs)
  end.

(** The bytes of a block write: the command, the length when it is sent, and at
    most 32 bytes of data. *)
Definition block_bytes (cmd : Z) (data : list Z) (len : Z) (send_len : bool) : list Z :=
  cmd :: (if send_len then [u8 (Z.min len 32)] else [])
      ++ take (Z.to_nat (Z.min len 32)) data.

Ltac bus_step :=
  first
  [ rewrite (start_idle _ smbus_sc_event b i addr dev) by done
  | rewrite (start_in_transfer _ smbus_sc_event b i addr dev) by done
  | rewrite (end_in_transfer _ smbus_sc_event b i addr dev) by done
  | rewrite (send_in_transfer _ smbus_sc_send b i addr dev) by done
  | rewrite (recv_in_transfer _ smbus_sc_recv b i addr dev) by done
  | rewrite (nack_in_transfer _ smbus_sc_event b i addr dev) by done
  | rewrite start_send_resting by done
  | rewrite start_recv_resting by done
  | rewrite send_sent by (simpl; unfold SMBUS_DATA_MAX_LEN; first [done | lia])
  | rewrite stop_sent by done
  | rewrite stop_empty by done
  | rewrite restart_sent by done
  | rewrite recv_reading
  | rewrite nack_reading
  | rewrite stop_done ].
Ltac case_call :=
  match goal with
  | |- context [call_write dev ?bs] => destruct (call_write dev bs) as [?|?] eqn:?
  | |- context [call_receive ?d] => destruct (call_receive d) as [[? ?]|?] eqn:?
  | |- context [call_quick ?d ?r] => destruct (call_quick d r) as [?|?] eqn:?
  end.
Ltac bus_red := cbn [mbind result_mbind result_bind Z.eqb negb app].
Ltac bus_run := repeat (bus_red; first [bus_step | case_call]); bus_red; try done.

Lemma quick_command_write :
  smbus_quick_command b addr 0 =
    (d ← call_quick (user dev) false; Ok (after [] d, 0)).
Proof. unfold smbus_quick_command, i2c_start_transfer. bus_run. Qed.

Lemma send_byte_transaction data :
  smbus_send_byte b addr data =
    (d ← call_write dev [data]; Ok (after [data] d, 0)).
Proof. unfold smbus_send_byte, i2c_start_send. bus_run. Qed.

Lemma receive_byte_transaction :
  smbus_receive_byte b addr =
    ('(d, x) ← call_receive (user dev); Ok (after [] d, x)).
Proof. unfold smbus_receive_byte, i2c_start_recv. bus_run. Qed.

Lemma write_byte_run cmd data :
  smbus_write_byte b addr cmd data =
    (d ← call_write dev [cmd; data]; Ok (after [cmd; data] d, 0)).
Proof. unfold smbus_write_byte, i2c_start_send. bus_run. Qed.

Lemma read_byte_run cmd :
  smbus_read_byte b addr cmd =
    (d ← call_write dev [cmd];
     '(d, x) ← call_receive d;
     Ok (after [cmd] d, x)).
Proof. unfold smbus_read_byte, i2c_start_send, i2c_start_recv. bus_run. Qed.

Lemma read_word_run cmd :
  smbus_read_word b addr cmd =
    (d ← call_write dev [cmd];
     '(d, lo) ← call_receive d;
     '(d, hi) ← call_receive d;
     Ok (after [cmd] d, u16 (Z.lor lo (Z.shiftl hi 8)))).
Proof. unfold smbus_read_word, i2c_start_send, i2c_start_recv. bus_run. Qed.

Lemma write_word_run cmd data :
  smbus_write_word b addr cmd data =
    (let bs := [cmd; Z.land data 0xff; u8 (Z.shiftr data 8)] in
     d ← call_write dev bs; Ok (after bs d, 0)).
Proof. unfold smbus_write_word, i2c_start_send. bus_run. Qed.

Lemma send_bytes_sent n : forall k data bs,
  (k + n <= length data)%nat -> Z.of_nat (length bs + n) <= SMBUS_DATA_MAX_LEN ->
  send_bytes (in_transfer b i addr (sent dev bs)) n k data =
    Ok (in_transfer b i addr (sent dev (bs ++ take n (drop k data)))).
Proof.
  unfold SMBUS_DATA_MAX_LEN.
  induction n as [|n IH]; intros k data bs Hk Hbs; cbn [send_bytes].
  { by rewrite take_0, app_nil_r. }
  destruct (lookup_lt_is_Some_2 data k) as [x Hx]; [lia|]. rewrite Hx.
  bus_step. bus_red. bus_step. bus_red.
  rewrite IH by (rewrite ?length_app; simpl; lia).
  by rewrite (drop_S _ _ _ Hx), firstn_cons, <- app_assoc.
Qed.

Lemma write_block_run cmd data len send_len :
  0 <= len -> Z.min len 32 <= Z.of_nat (length data) ->
  let bs := block_bytes cmd data len send_len in
  smbus_write_block b addr cmd data len send_len =
    (d ← call_write dev bs; Ok (after bs d, 0)).
Proof.
  intros Hlen Hdata bs. subst bs. unfold smbus_write_block, block_bytes, i2c_start_send.
  replace (if 32 <? len then 32 else len) with (Z.min len 32)
    by (destruct (Z.ltb_spec 32 len); lia).
  bus_step. bus_red. bus_step. bus_red. bus_step. bus_red. bus_step. bus_red.
  destruct send_len; bus_red; [bus_step; bus_red; bus_step; bus_red|];
    rewrite send_bytes_sent by (unfold SMBUS_DATA_MAX_LEN; simpl length; lia);
    rewrite drop_0; bus_run.
Qed.

Lemma take_insert_snoc (data : list Z) k x :
  (k < length data)%nat -> take (S k) (<[k := x]> data) = take k data ++ [x].
Proof.
  intros Hk. rewrite (take_S_r _ _ x) by (by apply list_lookup_insert_eq).
  by rewrite take_insert_ge.
Qed.

Lemma recv_bytes_reading bs n : forall k d data,
  (k + n <= length data)%nat ->
  recv_bytes (in_transfer b i addr (reading dev bs d)) n k data =
    ('(d, xs) ← call_receives d n;
     Ok (in_transfer b i addr (reading dev bs d), take k data ++ xs ++ drop (k + n) data)).
Proof.
  induction n as [|n IH]; intros k d data Hk; cbn [recv_bytes call_receives].
  { bus_red. by rewrite Nat.add_0_r, take_drop. }
  bus_step. bus_red. bus_step. case_call; bus_red; [|done].
  rewrite decide_True by lia. rewrite IH by (rewrite length_insert; lia).
  destruct (call_receives _ n) as [[d' xs]|e]; bus_red; [|done].
  rewrite take_insert_snoc, drop_insert_lt, <- app_assoc by lia.
  by rewrite Nat.add_succ_r.
Qed.

Lemma call_receives_length n : forall d d' xs,
  call_receives d n = Ok (d', xs) -> length xs = n.
Proof.
  induction n as [|n IH]; intros d d' xs; simpl.
  - by intros [= _ <-].
  - destruct (call_receive d) as [[d1 x]|]; simpl; [|done].
    destruct (call_receives d1 n) as [[d2 ys]|] eqn:Hn; simpl; [|done].
    intros [= _ <-]. simpl. by erewrite IH.
Qed.

Lemma clip_len (len n : Z) :
  (0 + Z.to_nat (if Z.ltb len n then 0%Z else n) <= Z.to_nat len)%nat.
Proof. destruct (Z.ltb_spec len n); lia. Qed.

Lemma read_block_run cmd data len recv_len send_cmd :
  0 <= len <= Z.of_nat (length data) ->
  smbus_read_block b addr cmd data len recv_len send_cmd =
    (d ← (if send_cmd then call_write dev [cmd] else Ok (user dev));
     '(d, n) ← (if recv_len then call_receive d else Ok (d, len));
     let n := if len <? n then 0 else n in
     '(d, xs) ← call_receives d (Z.to_nat n);
     Ok (after (if send_cmd then [cmd] else []) d, xs ++ drop (Z.to_nat n) data, n)).
Proof.
  intros Hlen. unfold smbus_read_block, i2c_start_send, i2c_start_recv.
  destruct send_cmd, recv_len; bus_red; bus_run; cbv zeta;
    rewrite recv_bytes_reading by (etrans; [apply clip_len | lia]);
    match goal with |- context [call_receives ?d ?n] =>
      destruct (call_receives d n) as [[? ?]|?] end; bus_red; bus_run.
Qed.

Lemma after_settled bs d :
  Z.of_nat (length bs) <= SMBUS_DATA_MAX_LEN -> settled (after bs d) d.
Proof.
  intros Hbs. split; [done|]. split.
  - exists (finish dev bs d). split; [by eapply with_slave_attached|].
    by split; [apply finish_resting|].
  - intros j Hj. by apply list_lookup_insert_ne.
Qed.

Lemma block_bytes_length cmd data len send_len :
  Z.of_nat (length (block_bytes cmd data len send_len)) <= SMBUS_DATA_MAX_LEN.
Proof.
  unfold block_bytes, SMBUS_DATA_MAX_LEN. simpl. rewrite length_app, length_take.
  destruct send_len; simpl; lia.
Qed.

End Transactions.

(** ** Devices that are register files

    What a device with readable and writable 8-bit registers promises to the
    host: selecting a register and receiving a byte returns its value and
    changes no register; writing one changes that register only. *)

Class RegisterDevice (D : Type) `{!SMBusDeviceClass D} := {
  dev_inv : D -> Prop;
  rw_reg : Z -> Prop;
  reg : D -> Z -> Z;
  reg_is_u8 d r : dev_inv d -> rw_reg r -> is_u8 (reg d r);
  reg_select dev r :
    dev_inv (user dev) -> resting dev -> rw_reg r ->
    exists d d', call_write dev [r] = Ok d /\ call_receive d = Ok (d', reg (user dev) r) /\
      dev_inv d' /\ forall r', rw_reg r' -> reg d' r' = reg (user dev) r';
  reg_write dev r x :
    dev_inv (user dev) -> resting dev -> rw_reg r -> is_u8 x ->
    exists d, call_write dev [r; x] = Ok d /\ dev_inv d /\
      forall r', rw_reg r' -> reg d r' = if r' =? r then x else reg (user dev) r';
}.

Section RegisterBus.
Context {D : Type} `{!SMBusDeviceClass D, !RegisterDevice D}.
Implicit Types b : I2CBus (SMBusDevice D).

(** The abstract view of the bus: idle, and slave [i] at [addr] is a register
    file with contents [f]. *)
Definition holds_regs b (i : nat) (addr : Z) (f : Z -> Z) : Prop :=
  idle b /\ addr <> I2C_BROADCAST /\
  exists dev, attached b i addr dev /\ resting dev /\ dev_inv (user dev) /\
    forall r, rw_reg r -> reg (user dev) r = f r.

Definition others_kept b b' (i : nat) : Prop :=
  forall j, j <> i -> children b' !! j = children b !! j.

Lemma settled_holds b b' i addr d f :
  addr <> I2C_BROADCAST -> settled b i addr b' d -> dev_inv d ->
  (forall r, rw_reg r -> reg d r = f r) ->
  holds_regs b' i addr f /\ others_kept b b' i.
Proof.
  intros Ha (Hidle & (dev' & Hatt & Hrest & <-) & Hothers) Hinv Hf.
  split; [|done]. split; [done|]. split; [done|]. by exists dev'.
Qed.

Lemma write_byte_regs b i addr f r x :
  holds_regs b i addr f -> rw_reg r -> is_u8 x ->
  exists b', smbus_write_byte b addr r x = Ok (b', 0) /\
    holds_regs b' i addr (fun r' => if r' =? r then x else f r') /\ others_kept b b' i.
Proof.
  intros (Hidle & Ha & dev & Hatt & Hrest & Hinv & Hf) Hr Hx.
  destruct (reg_write dev r x) as (d & Hd & Hinv' & Hregs); try done.
  rewrite (write_byte_run b i addr dev), Hd by done.
  eexists. split; [reflexivity|].
  eapply settled_holds; [done|by apply after_settled|done|].
  intros r' Hr'. rewrite Hregs, Hf by done. done.
Qed.

Lemma read_byte_regs b i addr f r :
  holds_regs b i addr f -> rw_reg r ->
  exists b', smbus_read_byte b addr r = Ok (b', f r) /\ is_u8 (f r) /\
    holds_regs b' i addr f /\ others_kept b b' i.
Proof.
  intros (Hidle & Ha & dev & Hatt & Hrest & Hinv & Hf) Hr.
  destruct (reg_select dev r) as (d & d' & Hd & Hd' & Hinv' & Hregs); try done.
  rewrite (read_byte_run b i addr dev), Hd by done. cbn [mbind result_mbind result_bind].
  rewrite Hd', <- Hf by done.
  eexists. split; [reflexivity|]. split; [by apply reg_is_u8|].
  eapply settled_holds; [done|by apply after_settled|done|].
  intros r' Hr'. rewrite Hregs, Hf by done. done.
Qed.
End RegisterBus.
