(* ===== verification/XboxSmc.v ===== *)
(** * The system management controller (src/xemu/hw/xbox/smbus_xbox_smc.c)

    The PIC16LC behind SMBus address 0x10: version string, power control, tray
    state, AV pack, scratch and error registers, and the interrupt reasons that
    the front-panel buttons and the DVD tray set. *)

From S2P Require Import Prelude I2cBus SmbusSlave SmbusMaster.

Definition SMC_REG_VER : Z := 0x01.
Definition SMC_REG_POWER : Z := 0x02.
Definition SMC_REG_POWER_RESET : Z := 0x01.
Definition SMC_REG_POWER_CYCLE : Z := 0x40.
Definition SMC_REG_POWER_SHUTDOWN : Z := 0x80.
Definition SMC_REG_TRAYSTATE : Z := 0x03.
Definition SMC_REG_TRAYSTATE_OPEN : Z := 0x10.
Definition SMC_REG_TRAYSTATE_NO_MEDIA_DETECTED : Z := 0x40.
Definition SMC_REG_TRAYSTATE_MEDIA_DETECTED : Z := 0x60.
Definition SMC_REG_AVPACK : Z := 0x04.
Definition SMC_REG_AVPACK_SCART : Z := 0x00.
Definition SMC_REG_AVPACK_HDTV : Z := 0x01.
Definition SMC_REG_AVPACK_VGA : Z := 0x02.
Definition SMC_REG_AVPACK_RFU : Z := 0x03.
Definition SMC_REG_AVPACK_SVIDEO : Z := 0x04.
Definition SMC_REG_AVPACK_COMPOSITE : Z := 0x06.
Definition SMC_REG_AVPACK_NONE : Z := 0x07.
Definition SMC_REG_ERROR_WRITE : Z := 0x0e.
Definition SMC_REG_ERROR_READ : Z := 0x0f.
Definition SMC_REG_INTSTATUS : Z := 0x11.
Definition SMC_REG_INTSTATUS_POWER : Z := 0x01.
Definition SMC_REG_INTSTATUS_TRAYCLOSED : Z := 0x02.
Definition SMC_REG_INTSTATUS_TRAYOPENING : Z := 0x04.
Definition SMC_REG_INTSTATUS_EJECT_BUTTON : Z := 0x20.
Definition SMC_REG_SCRATCH : Z := 0x1b.
Definition SMC_REG_SCRATCH_SHORT_ANIMATION : Z := 0x04.
Definition SMC_VERSION_LENGTH : Z := 3.

(** What the controller asks of the rest of the emulator, in order. *)
Inductive smc_request :=
| RESET_REQUEST
| SHUTDOWN_REQUEST
| EXTSMI_EVENT.

(** [version_string] holds the characters and the terminating NUL. *)
Record SMBusSMCDevice := mkSMBusSMCDevice {
  version_string : option (list Z);
  version_string_index : Z;
  smc_cmd : Z;
  traystate_reg : Z;
  avpack_reg : Z;
  intstatus_reg : Z;
  scratch_reg : Z;
  error_reg : Z;
  requests : list smc_request;
}.
#[export] Instance SMBusSMCDevice_settable : Settable SMBusSMCDevice :=
  settable! mkSMBusSMCDevice < version_string ; version_string_index ; smc_cmd ;
    traystate_reg ; avpack_reg ; intstatus_reg ; scratch_reg ; error_reg ; requests >.

Definition request (r : smc_request) (smc : SMBusSMCDevice) : SMBusSMCDevice :=
  smc <| requests ::= fun rs => rs ++ [r] |>.

Definition smc_quick_cmd (smc : SMBusSMCDevice) (read : Z) : result SMBusSMCDevice := Ok smc.

Definition smc_write_data (smc : SMBusSMCDevice) (buf : list Z) (len : Z) :
    result (SMBusSMCDevice * Z) :=
  cmd ← fetch buf 0;
  let smc := smc <| smc_cmd := cmd |> in
  let len := u8 (len - 1) in
  if len <? 1 then Ok (smc, 0)
  else
    val ← fetch buf 1;
    let smc :=
      if cmd =? SMC_REG_VER then smc <| version_string_index := val |>
      else if cmd =? SMC_REG_POWER then
        if has val (Z.lor SMC_REG_POWER_RESET SMC_REG_POWER_CYCLE) then
          request RESET_REQUEST smc
        else if has val SMC_REG_POWER_SHUTDOWN then request SHUTDOWN_REQUEST smc
        else smc
      else if cmd =? SMC_REG_ERROR_WRITE then smc <| error_reg := val |>
      else if cmd =? SMC_REG_SCRATCH then smc <| scratch_reg := val |>
      else smc in
    Ok (smc, 0).

Definition smc_receive_byte (smc : SMBusSMCDevice) : result (SMBusSMCDevice * Z) :=
  let cmd := smc_cmd smc in
  let smc := smc <| smc_cmd := u8 (cmd + 1) |> in
  if cmd =? SMC_REG_VER then
    match version_string smc with
    | None => Fault NullPointer
    | Some str =>
        let index := version_string_index smc in
        c ← fetch str (Z.rem index SMC_VERSION_LENGTH);
        Ok (smc <| version_string_index := s32 (index + 1) |>, u8 c)
    end
  else if cmd =? SMC_REG_TRAYSTATE then Ok (smc, traystate_reg smc)
  else if cmd =? SMC_REG_SCRATCH then Ok (smc, scratch_reg smc)
  else if cmd =? SMC_REG_AVPACK then Ok (smc, avpack_reg smc)
  else if cmd =? SMC_REG_ERROR_READ then Ok (smc, error_reg smc)
  else if cmd =? SMC_REG_INTSTATUS then
    Ok (smc <| intstatus_reg := 0 |>, intstatus_reg smc)
  else if cmd =? 0x1c then Ok (smc, 0x52)
  else if cmd =? 0x1d then Ok (smc, 0x72)
  else if cmd =? 0x1e then Ok (smc, 0xea)
  else if cmd =? 0x1f then Ok (smc, 0x46)
  else Ok (smc, 0).

#[export] Instance smc_device_class : SMBusDeviceClass SMBusSMCDevice := {
  quick_cmd := Some smc_quick_cmd;
  receive_byte := Some smc_receive_byte;
  write_data := Some smc_write_data;
}.

Definition xbox_smc_avpack_to_reg (avpack : string) : option Z :=
  if bool_decide (avpack = "composite"%string) then Some SMC_REG_AVPACK_COMPOSITE
  else if bool_decide (avpack = "scart"%string) then Some SMC_REG_AVPACK_SCART
  else if bool_decide (avpack = "svideo"%string) then Some SMC_REG_AVPACK_SVIDEO
  else if bool_decide (avpack = "vga"%string) then Some SMC_REG_AVPACK_VGA
  else if bool_decide (avpack = "rfu"%string) then Some SMC_REG_AVPACK_RFU
  else if bool_decide (avpack = "hdtv"%string) then Some SMC_REG_AVPACK_HDTV
  else if bool_decide (avpack = "none"%string) then Some SMC_REG_AVPACK_NONE
  else None.

Definition xbox_assert_extsmi (smc : SMBusSMCDevice) : SMBusSMCDevice :=
  request EXTSMI_EVENT smc.

Definition xbox_smc_power_button (smc : SMBusSMCDevice) : SMBusSMCDevice :=
  xbox_assert_extsmi (smc <| intstatus_reg ::= fun r => Z.lor r SMC_REG_INTSTATUS_POWER |>).

Definition xbox_smc_eject_button (smc : SMBusSMCDevice) : SMBusSMCDevice :=
  xbox_assert_extsmi
    (smc <| intstatus_reg ::= fun r => Z.lor r SMC_REG_INTSTATUS_EJECT_BUTTON |>).

(** The block backend of the DVD drive, as the controller sees it: whether the
    tray is open and whether a medium with a driver is in it. *)
Record dvd_drive := { tray_open : bool; has_media : bool }.

Definition xbox_smc_update_tray_state (blk : option dvd_drive) (smc : SMBusSMCDevice) :
    result SMBusSMCDevice :=
  match blk with
  | None => Fault (AssertFail "blk != NULL")
  | Some drive =>
      let smc :=
        if tray_open drive then
          smc <| traystate_reg := SMC_REG_TRAYSTATE_OPEN |>
              <| intstatus_reg ::= fun r => Z.lor r SMC_REG_INTSTATUS_TRAYOPENING |>
        else
          smc <| traystate_reg := if has_media drive then SMC_REG_TRAYSTATE_MEDIA_DETECTED
                                  else SMC_REG_TRAYSTATE_NO_MEDIA_DETECTED |>
              <| intstatus_reg ::= fun r => Z.lor r SMC_REG_INTSTATUS_TRAYCLOSED |> in
      Ok (xbox_assert_extsmi smc)
  end.

(** [error_setg]: an [Error] may be set once. *)
Definition error_setg (err : option string) (msg : string) : result (option string) :=
  match err with
  | None => Ok (Some msg)
  | Some _ => Fault (AssertFail "*errp == NULL")
  end.

(** The machine properties the controller reads; strings without their NUL. *)
Record smc_machine := {
  short_animation : bool;
  avpack : option string;
  smc_version : option (list Z);
}.

Definition smbus_smc_realize (m : smc_machine) (blk : option dvd_drive) :
    result (SMBusSMCDevice * option string) :=
  let smc := mkSMBusSMCDevice None 0 0 0 0 0 0 0 [] in
  let smc := if short_animation m
             then smc <| scratch_reg := SMC_REG_SCRATCH_SHORT_ANIMATION |> else smc in
  '(smc, err) ←
    (match avpack m with
     | None => Ok (smc, None)
     | Some name =>
         match xbox_smc_avpack_to_reg name with
         | Some r => Ok (smc <| avpack_reg := r |>, None)
         | None => err ← error_setg None "Unsupported avpack option"; Ok (smc, err)
         end
     end);
  '(smc, err) ←
    (match smc_version m with
     | None => Ok (smc, err)
     | Some v =>
         err ← (if negb (Z.of_nat (length v) =? SMC_VERSION_LENGTH)
                then error_setg err "Unsupported SMC version string" else Ok err);
         Ok (smc <| version_string := Some (v ++ [0]) |>, err)
     end);
  smc ← xbox_smc_update_tray_state blk smc;
  Ok (smc, err).

(** What happens to the controller: the user and the tray on one side, the
    guest's SMBus accesses on the other. *)
Inductive smc_event :=
| PowerButton
| EjectButton
| TrayMoved (blk : option dvd_drive)
| GuestWrite (buf : list Z) (len : Z)
| GuestReceive.

Definition smc_handle (ev : smc_event) (smc : SMBusSMCDevice) : result (SMBusSMCDevice * Z) :=
  match ev with
  | PowerButton => Ok (xbox_smc_power_button smc, 0)
  | EjectButton => Ok (xbox_smc_eject_button smc, 0)
  | TrayMoved blk => smc ← xbox_smc_update_tray_state blk smc; Ok (smc, 0)
  | GuestWrite buf len => smc_write_data smc buf len
  | GuestReceive => smc_receive_byte smc
  end.

(** The interrupt reasons the guest has seen in a run: the union of the bytes
    it received from INTSTATUS. *)
Fixpoint smc_run (evs : list smc_event) (smc : SMBusSMCDevice) (seen : Z) :
    result (SMBusSMCDevice * Z) :=
  match evs with
  | [] => Ok (smc, seen)
  | ev :: evs =>
      '(smc', x) ← smc_handle ev smc;
      let seen := match ev with
                  | GuestReceive =>
                      if smc_cmd smc =? SMC_REG_INTSTATUS then Z.lor seen x else seen
                  | _ => seen
                  end in
      smc_run evs smc' seen
  end.

(** The reasons an event raises. *)
Definition raises (ev : smc_event) : Z :=
  match ev with
  | PowerButton => SMC_REG_INTSTATUS_POWER
  | EjectButton => SMC_REG_INTSTATUS_EJECT_BUTTON
  | TrayMoved (Some d) =>
      if tray_open d then SMC_REG_INTSTATUS_TRAYOPENING else SMC_REG_INTSTATUS_TRAYCLOSED
  | _ => 0
  end.

(** [n] reads of the version register, each selecting it first. *)
Fixpoint read_version (n : nat) (smc : SMBusSMCDevice) : result (SMBusSMCDevice * list Z) :=
  match n with
  | O => Ok (smc, [])
  | S n' =>
      '(smc, _) ← smc_write_data smc [SMC_REG_VER] 1;
      '(smc, c) ← smc_receive_byte smc;
      '(smc, cs) ← read_version n' smc;
      Ok (smc, c :: cs)
  end.

Definition smc_inv (smc : SMBusSMCDevice) : Prop := is_u8 (scratch_reg smc).

(** A controller of version P01, for examples. *)
Definition smc0 : SMBusSMCDevice := mkSMBusSMCDevice (Some [80; 48; 49; 0]) 0 0 0 0 0 0 0 [].

(** ** Theorems *)

Lemma write_data_select smc buf cmd :
  buf !! 0%nat = Some cmd -> smc_write_data smc buf 1 = Ok (smc <| smc_cmd := cmd |>, 0).
Proof. intros H. unfold smc_write_data. by rewrite (fetch_ok buf 0 cmd). Qed.

Lemma write_data_scratch smc buf x :
  buf !! 0%nat = Some SMC_REG_SCRATCH -> buf !! 1%nat = Some x ->
  smc_write_data smc buf 2 =
    Ok (smc <| smc_cmd := SMC_REG_SCRATCH |> <| scratch_reg := x |>, 0).
Proof.
  intros H0 H1. unfold smc_write_data.
  by rewrite (fetch_ok buf 0 SMC_REG_SCRATCH), (fetch_ok buf 1 x).
Qed.

(** The scratch register is the controller's only read-write register. *)
#[export] Program Instance smc_registers : RegisterDevice SMBusSMCDevice := {
  dev_inv := smc_inv;
  rw_reg r := r = SMC_REG_SCRATCH;
  reg smc _ := scratch_reg smc;
}.
Next Obligation. done. Qed.
Next Obligation.
  intros dev r Hinv _ ->. unfold call_write. cbn [write_data smc_device_class].
  change (u8 (Z.of_nat (length [SMC_REG_SCRATCH]))) with 1.
  rewrite (write_data_select _ _ SMC_REG_SCRATCH) by done.
  by eexists _, _.
Qed.
Next Obligation.
  intros dev r x Hinv _ -> Hx. unfold call_write. cbn [write_data smc_device_class].
  change (u8 (Z.of_nat (length [SMC_REG_SCRATCH; x]))) with 2.
  rewrite (write_data_scratch _ _ x) by done.
  eexists. repeat split; [apply Hx|apply Hx|]. by intros r' ->.
Qed.

Lemma handle_keeps ev smc smc' x n :
  smc_handle ev smc = Ok (smc', x) ->
  Z.testbit (Z.lor (intstatus_reg smc) (raises ev)) n = true ->
  Z.testbit (intstatus_reg smc') n = true \/
  (ev = GuestReceive /\ smc_cmd smc = SMC_REG_INTSTATUS /\ Z.testbit x n = true).
Proof.
  intros Hev Hn. destruct ev as [| |[d|]|buf len|]; simpl in Hev; try done.
  1-3: left; unfold raises in Hn; try (destruct (tray_open d)); by simplify_eq.
  - left. rewrite Z.lor_0_r in Hn. unfold smc_write_data, mbind, result_mbind, result_bind in Hev.
    repeat case_match; by simplify_eq.
  - rewrite Z.lor_0_r in Hn. unfold smc_receive_byte, mbind, result_mbind, result_bind in Hev.
    destruct (Z.eqb_spec (smc_cmd smc) SMC_REG_INTSTATUS) as [He|He].
    + rewrite He in Hev. simpl in Hev. simplify_eq. auto.
    + left. repeat case_match; simplify_eq; simpl; try done; by rewrite Z.eqb_eq in *.
Qed.

Lemma run_seen_grows evs : forall smc seen smc' seen' n,
  smc_run evs smc seen = Ok (smc', seen') ->
  Z.testbit seen n = true -> Z.testbit seen' n = true.
Proof.
  induction evs as [|ev evs IH]; intros smc seen smc' seen' n; simpl.
  - by intros [= _ <-].
  - destruct (smc_handle ev smc) as [[smc1 x]|]; simpl; [|done].
    intros Hrun Hn. eapply IH; [exact Hrun|].
    destruct ev; try done. case_match; [|done]. by rewrite Z.lor_spec, Hn.
Qed.

Lemma run_keeps evs : forall smc seen smc' seen' n,
  smc_run evs smc seen = Ok (smc', seen') ->
  Z.testbit (intstatus_reg smc) n = true ->
  Z.testbit (intstatus_reg smc') n = true \/ Z.testbit seen' n = true.
Proof.
  induction evs as [|ev evs IH]; intros smc seen smc' seen' n; simpl.
  - intros [= <- _] Hn. auto.
  - destruct (smc_handle ev smc) as [[smc1 x]|] eqn:Hev; simpl; [|done].
    intros Hrun Hn.
    destruct (handle_keeps ev smc smc1 x n Hev) as [H1|(-> & Hcmd & Hx)].
    + by rewrite Z.lor_spec, Hn.
    + by eapply IH.
    + right. eapply run_seen_grows; [exact Hrun|].
      by rewrite Hcmd, Z.eqb_refl, Z.lor_spec, Hx, orb_true_r.
Qed.

(** C7.  No interrupt reason is lost: a reason raised by a button or the tray is
    in INTSTATUS until a read of INTSTATUS has returned it to the guest,
    whatever the guest and the user do in between. *)
Theorem smc_interrupt_not_lost ev evs smc seen smc' seen' n :
  smc_run (ev :: evs) smc seen = Ok (smc', seen') ->
  Z.testbit (raises ev) n = true ->
  Z.testbit (intstatus_reg smc') n = true \/ Z.testbit seen' n = true.
Proof.
  cbn [smc_run]. destruct (smc_handle ev smc) as [[smc1 x]|] eqn:Hev; simpl; [|done].
  intros Hrun Hn.
  destruct (handle_keeps ev smc smc1 x n Hev) as [H1|(-> & _)]; [|by eapply run_keeps|].
  - by rewrite Z.lor_spec, Hn, orb_true_r.
  - simpl in Hn. by rewrite Z.bits_0 in Hn.
Qed.

Lemma smc_interrupt_not_lost_witness :
  Z.testbit (intstatus_reg (smc0 <| requests := [EXTSMI_EVENT; EXTSMI_EVENT] |>)) 5 = true \/
  Z.testbit 0x21 5 = true.
Proof.
  exact (smc_interrupt_not_lost EjectButton
           [PowerButton; GuestWrite [SMC_REG_INTSTATUS] 1; GuestReceive; GuestWrite [0] 1]
           smc0 0 (smc0 <| requests := [EXTSMI_EVENT; EXTSMI_EVENT] |>) 0x21 5 eq_refl eq_refl).
Defined.

Lemma receive_version smc str c :
  smc_cmd smc = SMC_REG_VER -> version_string smc = Some str ->
  0 <= version_string_index smc < 2 ^ 31 - 1 ->
  str !! Z.to_nat (version_string_index smc mod 3) = Some c ->
  smc_receive_byte smc =
    Ok (smc <| smc_cmd := 2 |> <| version_string_index ::= Z.succ |>, u8 c).
Proof.
  intros Hcmd Hstr Hidx Hc. unfold smc_receive_byte. rewrite Hcmd. simpl Z.eqb. cbv iota.
  simpl version_string. rewrite Hstr. cbn -[Z.rem s32 u8 Z.add].
  unfold SMC_VERSION_LENGTH. rewrite Z.rem_mod_nonneg by lia.
  rewrite (fetch_ok str _ c) by (try done; apply Z.mod_pos_bound; lia).
  cbn -[s32 u8 Z.add]. unfold s32. rewrite Z.mod_small by lia.
  do 2 f_equal. unfold setf. cbn -[Z.add]. f_equal. lia.
Qed.

(** The version register cycles through the three characters of the
    version string: the k-th read after index [i] returns character
    [(i + k) mod 3], and no read leaves the string. *)
Theorem smc_version_cycles c0 c1 c2 n : forall smc,
  version_string smc = Some [c0; c1; c2; 0] ->
  0 <= version_string_index smc -> version_string_index smc + Z.of_nat n < 2 ^ 31 ->
  exists smc', read_version n smc =
    Ok (smc', map (fun k : nat =>
        u8 (nth (Z.to_nat ((version_string_index smc + Z.of_nat k) mod 3)) [c0; c1; c2] 0))
      (seq 0 n)).
Proof.
  induction n as [|n IH]; intros smc Hstr Hlo Hhi; [by exists smc|].
  cbn [read_version]. rewrite (write_data_select _ _ SMC_REG_VER) by done.
  cbn [mbind result_mbind result_bind].
  pose proof (Z.mod_pos_bound (version_string_index smc) 3 eq_refl) as Hmod.
  set (m := version_string_index smc mod 3) in *.
  rewrite (receive_version _ [c0; c1; c2; 0] (nth (Z.to_nat m) [c0; c1; c2] 0)); cycle 1;
    [done|done|simpl; lia| |].
  { change (version_string_index (smc <| smc_cmd := SMC_REG_VER |>))
      with (version_string_index smc). fold m.
    assert (m = 0 \/ m = 1 \/ m = 2) as [-> |[-> | ->]] by lia; done. }
  cbn [mbind result_mbind result_bind].
  edestruct IH as [smc' ->]; [| | |exists smc'];
    [exact Hstr|cbn -[Z.add Z.succ]; lia|cbn -[Z.add Z.succ]; lia|].
  cbn -[Z.add Z.succ nth Z.of_nat Z.modulo]. rewrite <- seq_shift, map_map, Z.add_0_r.
  do 3 f_equal. apply map_ext. intros k. do 4 f_equal. lia.
Qed.

Lemma smc_version_cycles_witness :
  exists smc', read_version 4 smc0 = Ok (smc', [80; 48; 49; 80]).
Proof. exact (smc_version_cycles 80 48 49 4 smc0 eq_refl ltac:(by cbn) ltac:(by cbn)). Defined.

(** The power-on state for accepted machine properties. *)
Lemma smc_realize_accepts m d :
  (forall a, avpack m = Some a -> is_Some (xbox_smc_avpack_to_reg a)) ->
  (forall v, smc_version m = Some v -> length v = 3%nat) ->
  exists smc, smbus_smc_realize m (Some d) = Ok (smc, None) /\
    version_string smc = (fun v => v ++ [0]) <$> smc_version m /\
    smc_inv smc /\ intstatus_reg smc = raises (TrayMoved (Some d)).
Proof.
  intros Ha Hv. unfold smbus_smc_realize.
  destruct m as [sa [a|] [v|]]; simpl in *;
    try (destruct (Ha a eq_refl) as [r Hr]; rewrite Hr; simpl);
    try (rewrite (Hv v eq_refl); simpl);
    eexists; (split; [reflexivity|]);
    destruct sa, (tray_open d); repeat split; simpl; done || lia.
Qed.
