(* ===== verification/SmbusDevices.v ===== *)
(** * The other SMBus devices

    The temperature monitor (src/xemu/hw/xbox/smbus_adm1032.c), the three video
    encoders (smbus_cx25871.c, smbus_fs454.c and smbus_xcalibur.c, which differ
    in names only) and the EEPROM (smbus_storage.c), each with the laws of a
    register device. *)

From S2P Require Import Prelude I2cBus SmbusSlave SmbusMaster.

(** ** ADM1032 *)

Record SMBusADM1032Device := mkSMBusADM1032Device { adm_cmd : Z }.

Definition smbus_adm1032_write_data (cx : SMBusADM1032Device) (buf : list Z) (len : Z) :
    result (SMBusADM1032Device * Z) :=
  cmd ← fetch buf 0;
  Ok (mkSMBusADM1032Device cmd, 0).

Definition smbus_adm1032_receive_byte (cx : SMBusADM1032Device) :
    result (SMBusADM1032Device * Z) :=
  let cmd := adm_cmd cx in
  let cx := mkSMBusADM1032Device (u8 (cmd + 1)) in
  if (cmd =? 0x0) || (cmd =? 0x1) then Ok (cx, 50) else Ok (cx, 0).

Definition smbus_adm1032_realize : SMBusADM1032Device := mkSMBusADM1032Device 0.

#[export] Instance adm1032_class : SMBusDeviceClass SMBusADM1032Device := {
  quick_cmd := Some (fun cx _ => Ok cx);
  receive_byte := Some smbus_adm1032_receive_byte;
  write_data := Some smbus_adm1032_write_data;
}.

(** ** Video encoders *)

Record VideoEncoder := mkVideoEncoder {
  registers : list Z;
  enc_cmd : Z;
}.
#[export] Instance VideoEncoder_settable : Settable VideoEncoder :=
  settable! mkVideoEncoder < registers ; enc_cmd >.

(** [memcpy(dst + off, src, n)] between two arrays. *)
Definition memcpy_at (dst : list Z) (off : Z) (src : list Z) (n : Z) : result (list Z) :=
  if (off + n <=? Z.of_nat (length dst)) && (n <=? Z.of_nat (length src))
  then Ok (take (Z.to_nat off) dst ++ take (Z.to_nat n) src ++ drop (Z.to_nat (off + n)) dst)
  else Fault OutOfBounds.

Definition smbus_cx25871_write_data (cx : VideoEncoder) (buf : list Z) (len : Z) :
    result (VideoEncoder * Z) :=
  cmd ← fetch buf 0;
  let cx := cx <| enc_cmd := cmd |> in
  let buf := drop 1 buf in
  let len := u8 (len - 1) in
  if len <? 1 then Ok (cx, 0)
  else
    regs ← memcpy_at (registers cx) cmd buf (Z.min len (256 - cmd));
    Ok (cx <| registers := regs |>, 0).

Definition smbus_cx25871_receive_byte (cx : VideoEncoder) : result (VideoEncoder * Z) :=
  let cmd := enc_cmd cx in
  let cx := cx <| enc_cmd := u8 (cmd + 1) |> in
  x ← fetch (registers cx) cmd;
  Ok (cx, x).

Definition smbus_cx25871_realize : VideoEncoder := mkVideoEncoder (replicate 256 0) 0.

(** The Focus and Xcalibur encoders are the same code. *)
Definition smbus_fs454_write_data := smbus_cx25871_write_data.
Definition smbus_fs454_receive_byte := smbus_cx25871_receive_byte.
Definition smbus_fs454_realize := smbus_cx25871_realize.
Definition smbus_xcalibur_write_data := smbus_cx25871_write_data.
Definition smbus_xcalibur_receive_byte := smbus_cx25871_receive_byte.
Definition smbus_xcalibur_realize := smbus_cx25871_realize.

#[export] Instance video_encoder_class : SMBusDeviceClass VideoEncoder := {
  quick_cmd := Some (fun cx _ => Ok cx);
  receive_byte := Some smbus_cx25871_receive_byte;
  write_data := Some smbus_cx25871_write_data;
}.

(** ** EEPROM *)

(** The host file that backs an EEPROM: its size or -1, whether it can be
    opened for reading or writing, what a read returns and how many bytes a
    write of the image stores. *)
Class HostFile := {
  get_image_size : string -> Z;
  open_rdonly : string -> bool;
  read_image : string -> Z -> list Z;
  open_wronly : string -> bool;
  write_count : string -> list Z -> Z;
}.

(** [disk] is the content of the host file, changed by the writes. *)
Record SMBusStorageDevice := mkSMBusStorageDevice {
  sto_file : option string;
  sto_data : list Z;
  sto_size : Z;
  sto_offset : Z;
  persist : bool;
  disk : list Z;
}.
#[export] Instance SMBusStorageDevice_settable : Settable SMBusStorageDevice :=
  settable! mkSMBusStorageDevice
    < sto_file ; sto_data ; sto_size ; sto_offset ; persist ; disk >.

Section Storage.
Context `{host : HostFile}.
Implicit Types s : SMBusStorageDevice.

Definition smbus_storage_realize s : SMBusStorageDevice * option string :=
  let s := s <| sto_data := replicate (Z.to_nat (sto_size s)) 0 |> <| sto_offset := 0 |> in
  match sto_file s with
  | None => (s, Some "file unspecified"%string)
  | Some file =>
      if negb (get_image_size file =? sto_size s) then (s, Some "size"%string)
      else if negb (open_rdonly file) then (s, Some "could not be opened"%string)
      else
        let bytes := read_image file (sto_size s) in
        let s := s <| sto_data ::= fun d => bytes ++ drop (length bytes) d |> in
        if negb (Z.of_nat (length bytes) =? sto_size s) then (s, Some "read failure"%string)
        else (s, None)
  end.

(** [for (; len > 0; len--)]: [n] bytes of [buf] from index [i]. *)
Fixpoint storage_write_loop s (buf : list Z) (i : Z) (n : nat) : result SMBusStorageDevice :=
  match n with
  | O => Ok s
  | S n' =>
      x ← fetch buf i;
      _ ← fetch (sto_data s) (sto_offset s);
      let s := s <| sto_data ::= <[Z.to_nat (sto_offset s) := x]> |> in
      if sto_size s =? 0 then Fault DivByZero
      else
        let s := s <| sto_offset := u32 (sto_offset s + 1) mod sto_size s |> in
        storage_write_loop s buf (i + 1) n'
  end.

Definition smbus_storage_write_data s (buf : list Z) (len : Z) :
    result (SMBusStorageDevice * Z) :=
  off ← fetch buf 0;
  let s := s <| sto_offset := off |> in
  let len := u8 (len - 1) in
  s ← storage_write_loop s buf 1 (Z.to_nat len);
  let changed := 0 <? len in
  match sto_file s with
  | Some file =>
      if changed && persist s then
        if negb (open_wronly file) then Ok (s, -1)
        else
          let wc := write_count file (sto_data s) in
          let s := s <| disk ::= fun old => take (Z.to_nat wc) (sto_data s)
                                            ++ drop (Z.to_nat wc) old |> in
          if negb (wc =? sto_size s) then Ok (s, -1) else Ok (s, 0)
      else Ok (s, 0)
  | None => Ok (s, 0)
  end.

Definition smbus_storage_receive_byte s : result (SMBusStorageDevice * Z) :=
  val ← fetch (sto_data s) (sto_offset s);
  if sto_size s =? 0 then Fault DivByZero
  else Ok (s <| sto_offset := u32 (sto_offset s + 1) mod sto_size s |>, val).

#[export] Instance storage_class : SMBusDeviceClass SMBusStorageDevice := {
  quick_cmd := None;
  receive_byte := Some smbus_storage_receive_byte;
  write_data := Some smbus_storage_write_data;
}.

(** The EEPROM's invariant: the image has the configured size and holds bytes. *)
Definition storage_inv s : Prop :=
  0 < sto_size s < 2 ^ 31 /\ Z.of_nat (length (sto_data s)) = sto_size s /\
  Forall is_u8 (sto_data s).

(** The bytes [xs] are in the image from offset [off] on, around its end. *)
Definition stored s (off : Z) (xs : list Z) : Prop :=
  forall (k : nat) x, xs !! k = Some x ->
    sto_data s !! Z.to_nat ((off + Z.of_nat k) mod sto_size s) = Some x.

(** What the SMBus calls do to an EEPROM. *)
Inductive storage_step s : SMBusStorageDevice -> Prop :=
| storage_step_write buf len s' rv :
    smbus_storage_write_data s buf len = Ok (s', rv) -> storage_step s s'
| storage_step_receive s' x :
    smbus_storage_receive_byte s = Ok (s', x) -> storage_step s s'.

(** The host accepts every write of the file. *)
Definition host_writes (file : string) : Prop :=
  open_wronly file = true /\ forall bytes, write_count file bytes = Z.of_nat (length bytes).

(** The file holds the image. *)
Definition mirrored s (file : string) : Prop :=
  sto_file s = Some file /\ persist s = true /\ disk s = sto_data s /\
  Z.of_nat (length (sto_data s)) = sto_size s.

(** The same configuration and host file. *)
Definition same_config s s' : Prop :=
  sto_file s' = sto_file s /\ sto_size s' = sto_size s /\ persist s' = persist s.

End Storage.

(** ** Theorems on the video encoders *)

Definition encoder_inv (cx : VideoEncoder) : Prop :=
  length (registers cx) = 256%nat /\ Forall is_u8 (registers cx).

Lemma encoder_lookup cx r :
  encoder_inv cx -> is_u8 r ->
  registers cx !! Z.to_nat r = Some (nth (Z.to_nat r) (registers cx) 0).
Proof.
  intros [Hl _] Hr. destruct (lookup_lt_is_Some_2 (registers cx) (Z.to_nat r)) as [x Hx].
  { unfold is_u8 in Hr. lia. }
  by rewrite Hx, (nth_lookup_Some _ _ _ _ Hx).
Qed.

Lemma memcpy_one dst off x rest :
  0 <= off < Z.of_nat (length dst) ->
  memcpy_at dst off (x :: rest) 1 = Ok (<[Z.to_nat off := x]> dst).
Proof.
  intros Hoff. unfold memcpy_at.
  rewrite (proj2 (Z.leb_le (off + 1) _)), (proj2 (Z.leb_le 1 _)) by (simpl; lia). simpl.
  rewrite insert_take_drop, Z2Nat.inj_add, Nat.add_1_r by lia. done.
Qed.

#[export] Program Instance encoder_registers : RegisterDevice VideoEncoder := {
  dev_inv := encoder_inv;
  rw_reg := is_u8;
  reg cx r := nth (Z.to_nat r) (registers cx) 0;
}.
Next Obligation.
  intros cx r Hinv Hr. eapply (Forall_lookup_1 is_u8); [apply Hinv|by apply encoder_lookup].
Qed.
Next Obligation.
  intros dev r Hinv _ Hr. unfold call_write, call_receive.
  cbn -[fetch u8 Z.add smbus_cx25871_receive_byte]. unfold smbus_cx25871_write_data.
  rewrite (fetch_ok _ 0 r) by done. cbn -[fetch u8 Z.add]. 
  eexists _, _. split; [reflexivity|]. unfold smbus_cx25871_receive_byte.
  cbn -[fetch u8 Z.add].
  rewrite (fetch_ok _ _ _ (proj1 Hr) (encoder_lookup _ _ Hinv Hr)). done.
Qed.
Next Obligation.
  intros dev r x [Hl Hall] _ Hr Hx. unfold call_write.
  cbn -[fetch u8 Z.add Z.of_nat]. unfold smbus_cx25871_write_data.
  rewrite (fetch_ok _ 0 r) by done. cbn -[fetch memcpy_at Z.min].
  change (u8 (u8 (Z.of_nat 2) - 1)) with 1. cbn -[fetch memcpy_at Z.min].
  replace (Z.min 1 (256 - r)) with 1 by (unfold is_u8 in *; lia).
  rewrite memcpy_one by (unfold is_u8 in *; lia). cbn.
  eexists. split; [reflexivity|]. split.
  { split; cbn; [by rewrite length_insert|by apply Forall_insert]. }
  intros r' Hr'. cbn. rewrite !nth_lookup.
  destruct (Z.eqb_spec r' r) as [->|Hne].
  - by rewrite list_lookup_insert_eq by (unfold is_u8 in *; lia).
  - rewrite list_lookup_insert_ne; [done|]. unfold is_u8 in *; lia.
Qed.


(** ** Theorems on the EEPROM *)

Lemma ring_ne size off j : 0 <= off < size -> 0 < j < size -> (off + j) mod size <> off.
Proof.
  intros Hoff Hj Heq. pose proof (Z.div_mod (off + j) size ltac:(lia)) as Hdiv.
  rewrite Heq in Hdiv. destruct (Z.le_gt_cases ((off + j) / size) 0); nia.
Qed.

Lemma ring_next size off k :
  0 < size -> ((off + 1) mod size + k) mod size = (off + (1 + k)) mod size.
Proof. intros. rewrite Zplus_mod_idemp_l. f_equal. lia. Qed.

Section StorageTheorems.
Context `{host : HostFile}.
Implicit Types s : SMBusStorageDevice.

(** What a write loop from [s] to [s'] has done: the bytes [xs] are stored at
    the offset and the rest of the image is as before. *)
Record wrote s s' (xs : list Z) : Prop := {
  wrote_config : same_config s s';
  wrote_disk : disk s' = disk s;
  wrote_inv : storage_inv s';
  wrote_offset : sto_offset s' = (sto_offset s + Z.of_nat (length xs)) mod sto_size s;
  wrote_stored : stored s' (sto_offset s) xs;
  wrote_rest p : 0 <= p ->
    (forall k : nat, (k < length xs)%nat -> p <> (sto_offset s + Z.of_nat k) mod sto_size s) ->
    sto_data s' !! Z.to_nat p = sto_data s !! Z.to_nat p;
}.

(** The state after one iteration of the write loop. *)
Definition poke s (x : Z) : SMBusStorageDevice :=
  s <| sto_data ::= <[Z.to_nat (sto_offset s) := x]> |>
    <| sto_offset := (sto_offset s + 1) mod sto_size s |>.

Lemma poke_inv s x :
  storage_inv s -> is_u8 x ->
  storage_inv (poke s x) /\ 0 <= sto_offset (poke s x) < sto_size (poke s x).
Proof.
  intros (Hsz & Hl & Hall) Hx. split; [|apply Z.mod_pos_bound; cbn; lia].
  split; [done|]. split; cbn; [by rewrite length_insert|by apply Forall_insert].
Qed.

Lemma loop_step s buf i n x :
  storage_inv s -> 0 <= sto_offset s < sto_size s -> fetch buf i = Ok x ->
  storage_write_loop s buf i (S n) = storage_write_loop (poke s x) buf (i + 1) n.
Proof.
  intros (Hsz & Hl & _) Hoff Hx. cbn [storage_write_loop]. rewrite Hx.
  destruct (lookup_lt_is_Some_2 (sto_data s) (Z.to_nat (sto_offset s))) as [y Hy]; [lia|].
  cbn -[fetch u32 Z.add storage_write_loop]. rewrite (fetch_ok _ _ y) by (done || lia).
  cbn -[u32 Z.add storage_write_loop].
  rewrite (proj2 (Z.eqb_neq (sto_size s) 0)) by lia.
  by rewrite u32_id by (unfold is_u32; lia).
Qed.

Lemma wrote_cons s s' x xs :
  storage_inv s -> 0 <= sto_offset s < sto_size s -> is_u8 x ->
  Z.of_nat (S (length xs)) <= sto_size s ->
  wrote (poke s x) s' xs -> wrote s s' (x :: xs).
Proof.
  intros Hinv Hoff Hx Hn [Hcfg Hdisk Hinv' Hoff' Hst Hrest].
  pose proof Hinv as (Hsz & Hl & _). destruct Hcfg as (Hf & Hs & Hp). cbn in Hf, Hs, Hp, Hdisk.
  assert (forall k, sto_size (poke s x) = sto_size s /\
            (sto_offset (poke s x) + Z.of_nat k) mod sto_size s =
            (sto_offset s + Z.of_nat (S k)) mod sto_size s) as Hnext.
  { intros k. split; [done|]. cbn -[Z.of_nat Z.add]. rewrite ring_next by lia. f_equal. lia. }
  constructor; [done|done|done| | |].
  - rewrite Hoff'. cbn -[Z.of_nat Z.add poke]. by rewrite (proj1 (Hnext 0%nat)), (proj2 (Hnext _)).
  - intros [|k] y Hy; cbn in Hy.
    + simplify_eq. rewrite Hs, Z.add_0_r, Z.mod_small by lia.
      rewrite Hrest by (lia || (intros k Hk; rewrite (proj1 (Hnext k)), (proj2 (Hnext k));
        apply not_eq_sym, ring_ne; lia)).
      cbn. apply list_lookup_insert_eq. lia.
    + apply Hst in Hy. rewrite Hs in Hy |- *. by rewrite (proj2 (Hnext k)) in Hy.
  - intros p Hp0 Hne. rewrite Hrest; [|done|].
    + cbn. apply list_lookup_insert_ne. specialize (Hne 0%nat). cbn -[Z.add] in Hne.
      rewrite Z.add_0_r, Z.mod_small in Hne by lia. lia.
    + intros k Hk. rewrite (proj1 (Hnext k)), (proj2 (Hnext k)). apply Hne. simpl. lia.
Qed.

Lemma write_loop_spec xs : forall s buf i,
  storage_inv s -> 0 <= sto_offset s < sto_size s -> Forall is_u8 xs ->
  (forall k x, xs !! k = Some x -> fetch buf (i + Z.of_nat k) = Ok x) ->
  Z.of_nat (length xs) <= sto_size s ->
  exists s', storage_write_loop s buf i (length xs) = Ok s' /\ wrote s s' xs.
Proof.
  induction xs as [|x xs IH]; intros s buf i Hinv Hoff Hall Hbuf Hn.
  { exists s. split; [done|]. split; try done. by rewrite Z.add_0_r, Z.mod_small. }
  inversion_clear Hall as [|? ? Hx Hxs].
  cbn [length]. rewrite (loop_step _ _ _ _ x) by (try done; rewrite <- (Z.add_0_r i); by apply (Hbuf 0%nat)).
  destruct (poke_inv s x) as [Hinv1 Hoff1]; [done|done|].
  destruct (IH (poke s x) buf (i + 1)) as (s' & Hrun & Hw); try done.
  - intros k y Hy. rewrite <- (Hbuf (S k) y Hy). f_equal. lia.
  - cbn. simpl length in Hn. lia.
  - exists s'. split; [done|]. by apply wrote_cons.
Qed.

(** Reading back what is stored. *)
Lemma storage_receives_spec xs : forall s off,
  storage_inv s -> sto_offset s = off mod sto_size s -> stored s off xs ->
  exists s', call_receives s (length xs) = Ok (s', xs) /\ storage_inv s' /\
    same_config s s' /\ sto_data s' = sto_data s /\ disk s' = disk s.
Proof.
  induction xs as [|x xs IH]; intros s off Hinv Hoff Hst; [by exists s|].
  pose proof Hinv as (Hsz & Hl & Hall).
  pose proof (Z.mod_pos_bound off (sto_size s) ltac:(lia)) as Hm.
  cbn [call_receives length]. unfold call_receive. cbn [receive_byte storage_class].
  unfold smbus_storage_receive_byte.
  rewrite (fetch_ok _ _ x); [|lia|].
  2: { rewrite Hoff. specialize (Hst 0%nat x eq_refl). by rewrite Z.add_0_r in Hst. }
  cbn -[u32 Z.add call_receives]. rewrite (proj2 (Z.eqb_neq (sto_size s) 0)) by lia.
  cbn -[u32 Z.add call_receives]. rewrite u32_id by (unfold is_u32; lia).
  destruct (IH (s <| sto_offset := (sto_offset s + 1) mod sto_size s |>) (off + 1))
    as (s' & Hrun & Hinv' & Hcfg & Hd & Hk).
  - done.
  - cbn -[Z.add]. by rewrite Hoff, Zplus_mod_idemp_l.
  - intros k y Hy. cbn -[Z.add]. rewrite <- (Hst (S k) y Hy). do 3 f_equal. lia.
  - rewrite Hrun. by exists s'.
Qed.

Lemma write_loop_keeps buf n : forall s i s',
  storage_write_loop s buf i n = Ok s' ->
  same_config s s' /\ disk s' = disk s /\ length (sto_data s') = length (sto_data s) /\
  (n = 0%nat -> s' = s).
Proof.
  induction n as [|n IH]; intros s i s' Hrun; cbn [storage_write_loop] in Hrun.
  { by simplify_eq. }
  unfold mbind, result_mbind, result_bind in Hrun.
  destruct (fetch buf i) as [x|]; [|done].
  destruct (fetch (sto_data s) (sto_offset s)); [|done].
  destruct (_ =? 0); [done|]. apply IH in Hrun as ((Hf & Hs & Hp) & Hk & Hl & _).
  cbn in *. rewrite length_insert in Hl. done.
Qed.

Lemma write_data_mirrored file s buf len s' rv :
  host_writes file -> mirrored s file ->
  smbus_storage_write_data s buf len = Ok (s', rv) -> mirrored s' file.
Proof.
  intros [Hopen Hcount] (Hf & Hp & Hd & Hl) Hrun.
  unfold smbus_storage_write_data, mbind, result_mbind, result_bind in Hrun.
  destruct (fetch buf 0) as [off|]; [|done].
  destruct (storage_write_loop _ _ _ _) as [s1|] eqn:Hloop; [|done].
  apply write_loop_keeps in Hloop as ((Hf1 & Hs1 & Hp1) & Hk1 & Hl1 & Hsame). cbn in *.
  rewrite Hf1, Hf, Hp1, Hp, Hopen, Hcount, andb_true_r in Hrun. simpl in Hrun.
  destruct (Z.ltb_spec 0 (u8 (len - 1))) as [Hlt|Hge].
  - rewrite (proj2 (Z.eqb_eq _ _)) in Hrun by lia. simpl in Hrun. simplify_eq.
    split; [cbn; congruence|]. split; [cbn; congruence|].
    cbn. rewrite Nat2Z.id, take_ge by done.
    rewrite drop_ge by (rewrite Hk1, Hd; lia). by rewrite app_nil_r, Hl1, Hs1.
  - simplify_eq. rewrite (Hsame ltac:(lia)) in *. done.
Qed.

(** C6.  The EEPROM file is always up to date: when the host accepts the writes
    and persistence is on, the file equals the image after every sequence of
    SMBus calls, whatever their order. *)
Theorem eeprom_file_mirrors_image file s s' :
  host_writes file -> mirrored s file -> rtc storage_step s s' -> mirrored s' file.
Proof.
  intros Hhost Hm Hsteps. induction Hsteps as [|s1 s2 s3 Hstep _ IH]; [done|].
  apply IH. destruct Hstep as [buf len s' rv Hrun|s' x Hrun].
  - by eapply write_data_mirrored.
  - unfold smbus_storage_receive_byte, mbind, result_mbind, result_bind in Hrun.
    destruct (fetch _ _); [|done]. destruct (_ =? 0); [done|]. by simplify_eq.
Qed.

(** The state after a transaction's [write_data], up to the host file. *)
Lemma storage_call_write (dev : SMBusDevice SMBusStorageDevice) off xs :
  resting dev -> storage_inv (user dev) -> 0 <= off < sto_size (user dev) ->
  Forall is_u8 xs -> Z.of_nat (length xs) <= sto_size (user dev) ->
  Z.of_nat (length (off :: xs)) <= SMBUS_DATA_MAX_LEN ->
  exists d s', call_write dev (off :: xs) = Ok d /\
    wrote (user dev <| sto_offset := off |>) s' xs /\ exists k, d = s' <| disk := k |>.
Proof.
  intros Hrest Hinv Hoff Hxs Hn Hlen. unfold call_write, SMBUS_DATA_MAX_LEN in *.
  cbn [write_data storage_class]. unfold smbus_storage_write_data.
  rewrite (fetch_ok _ 0 off) by done. cbn [mbind result_mbind result_bind].
  replace (Z.to_nat (u8 (u8 (Z.of_nat (length (off :: xs))) - 1))) with (length xs).
  2: { cbn [length] in *. rewrite !u8_id by (rewrite ?u8_id; unfold is_u8; lia). lia. }
  destruct (write_loop_spec xs (user dev <| sto_offset := off |>)
              (buffer dev (off :: xs)) 1) as (s' & Hrun & Hw); try done.
  { intros k x Hx. apply fetch_ok; [lia|].
    replace (Z.to_nat (1 + Z.of_nat k)) with (S k) by lia.
    unfold buffer. rewrite lookup_app_l; [done|]. apply lookup_lt_Some in Hx. simpl. lia. }
  rewrite Hrun. cbn [mbind result_mbind result_bind].
  repeat case_match; cbn [mbind result_mbind result_bind]; eexists _, s';
    (split; [reflexivity|]); (split; [done|]);
    first [by eexists | exists (disk s'); by destruct s'].
Qed.

Lemma wrote_nil s s' : wrote s s' [] -> sto_data s' = sto_data s.
Proof.
  intros Hw. apply list_eq. intros p. rewrite <- (Nat2Z.id p).
  apply (wrote_rest _ _ _ Hw); [lia|]. simpl. lia.
Qed.

Lemma storage_lookup s r :
  storage_inv s -> 0 <= r < sto_size s ->
  sto_data s !! Z.to_nat r = Some (nth (Z.to_nat r) (sto_data s) 0).
Proof.
  intros (_ & Hl & _) Hr. destruct (lookup_lt_is_Some_2 (sto_data s) (Z.to_nat r)) as [x Hx].
  { lia. }
  by rewrite Hx, (nth_lookup_Some _ _ _ _ Hx).
Qed.

(** The 256-byte EEPROM of the console is a register file. *)
#[export] Program Instance eeprom_registers : RegisterDevice SMBusStorageDevice := {
  dev_inv s := storage_inv s /\ sto_size s = 256;
  rw_reg := is_u8;
  reg s r := nth (Z.to_nat r) (sto_data s) 0;
}.
Next Obligation.
  intros s r [Hinv Hsz] Hr. pose proof (storage_lookup s r Hinv) as Hlk.
  destruct Hinv as (_ & Hl & Hall). unfold is_u8 in Hr.
  eapply (Forall_lookup_1 is_u8); [apply Hall|apply Hlk; lia].
Qed.
Next Obligation.
  intros dev r [Hinv Hsz] Hrest Hr. unfold is_u8 in Hr.
  destruct (storage_call_write dev r []) as (d & s' & Hd & Hw & k & ->);
    [done|done|lia|done|simpl; lia|done|].
  pose proof (wrote_nil _ _ Hw) as Hdata. destruct (wrote_config _ _ _ Hw) as (_ & Hs' & _).
  cbn in Hdata, Hs'.
  destruct (storage_receives_spec [nth (Z.to_nat r) (sto_data (user dev)) 0] (s' <| disk := k |>) r)
    as (s2 & Hrecv & Hinv2 & (_ & Hs2 & _) & Hd2 & _).
  - apply Hw.
  - cbn. rewrite (wrote_offset _ _ _ Hw), Hs'. cbn. by rewrite Z.add_0_r.
  - intros [|j] x Hx; [|done]. cbn in Hx. simplify_eq. cbn. rewrite Hs', Z.add_0_r, Z.mod_small by lia.
    rewrite Hdata. apply storage_lookup; [done|lia].
  - exists (s' <| disk := k |>), s2. split; [done|].
    cbn in Hrecv. destruct (call_receive _) as [[d2 x]|]; cbn in Hrecv; [|done]. simplify_eq.
    split; [done|]. split; [split; [done|]; rewrite Hs2; cbn; congruence|].
    intros r' _. by rewrite Hd2; cbn; rewrite Hdata.
Qed.
Next Obligation.
  intros dev r x [Hinv Hsz] Hrest Hr Hx. unfold is_u8 in Hr.
  destruct (storage_call_write dev r [x]) as (d & s' & Hd & Hw & k & ->);
    [done|done|lia|by constructor|simpl; lia|done|].
  destruct (wrote_config _ _ _ Hw) as (_ & Hs' & _). cbn in Hs'.
  exists (s' <| disk := k |>). split; [done|].
  split; [split; [apply Hw|cbn; congruence]|].
  intros r' Hr'. unfold is_u8 in Hr'. cbn. rewrite !nth_lookup.
  destruct (Z.eqb_spec r' r) as [->|Hne].
  - pose proof (wrote_stored _ _ _ Hw 0%nat x eq_refl) as H0. cbn in H0.
    rewrite Z.add_0_r, Z.mod_small in H0 by lia. by rewrite H0.
  - rewrite (wrote_rest _ _ _ Hw r'); [done|lia|].
    intros [|j] Hj; simpl in Hj; [|lia]. cbn. rewrite Z.add_0_r, Z.mod_small by lia. done.
Qed.

(** Selecting an offset does not change the image. *)
Lemma storage_select (dev : SMBusDevice SMBusStorageDevice) off :
  resting dev -> storage_inv (user dev) -> 0 <= off < sto_size (user dev) ->
  exists d, call_write dev [off] = Ok d /\ storage_inv d /\
    sto_size d = sto_size (user dev) /\ sto_data d = sto_data (user dev) /\ sto_offset d = off.
Proof.
  intros Hrest Hinv Hoff.
  destruct (storage_call_write dev off []) as (d & s' & Hd & Hw & k & ->);
    [done|done|done|done|simpl; lia|done|].
  exists (s' <| disk := k |>). split; [done|].
  destruct (wrote_config _ _ _ Hw) as (_ & Hs' & _).
  split; [apply Hw|]. split; [done|]. split; [by apply (wrote_nil _ _ Hw)|].
  cbn. rewrite (wrote_offset _ _ _ Hw). cbn. by rewrite Z.add_0_r, Z.mod_small.
Qed.

Lemma stored_ext s s' off xs :
  sto_size s' = sto_size s -> sto_data s' = sto_data s -> stored s off xs -> stored s' off xs.
Proof. intros Hs Hd Hst k x Hx. rewrite Hs, Hd. by apply Hst. Qed.

(** Receiving a length byte and then the bytes it announces. *)
Lemma storage_receive_block s off n xs :
  storage_inv s -> sto_offset s = off -> 0 <= off < sto_size s -> stored s off (n :: xs) ->
  exists s1 s2, call_receive s = Ok (s1, n) /\ call_receives s1 (length xs) = Ok (s2, xs).
Proof.
  intros Hinv Hoff Hr Hst.
  destruct (storage_receives_spec (n :: xs) s off) as (s2 & Hrun & _); [done| |done|].
  { by rewrite Z.mod_small. }
  cbn in Hrun. destruct (call_receive s) as [[s1 x]|]; cbn in Hrun; [|done].
  destruct (call_receives s1 (length xs)) as [[s3 ys]|] eqn:H3; cbn in Hrun; simplify_eq.
  by exists s1, s2.
Qed.

(** C4.  A block written to the EEPROM is read back: [smbus_write_block] of
    [len <= 32] bytes at any offset (wrapping around the end of the image)
    followed by [smbus_read_block] returns the length and the bytes, with the
    rest of the caller's buffer untouched. *)
Theorem eeprom_block_roundtrip b i addr dev cmd data len buf :
  attached b i addr dev -> idle b -> addr <> I2C_BROADCAST -> resting dev ->
  storage_inv (user dev) -> 0 <= cmd < sto_size (user dev) ->
  0 <= len <= 32 -> len < sto_size (user dev) -> len <= Z.of_nat (length data) ->
  Forall is_u8 data -> length buf = 32%nat ->
  exists b1 b2,
    smbus_write_block b addr cmd data len true = Ok (b1, 0) /\
    smbus_read_block b1 addr cmd buf 32 true true =
      Ok (b2, take (Z.to_nat len) data ++ drop (Z.to_nat len) buf, len).
Proof.
  intros Hatt Hidle Ha Hrest Hinv Hcmd Hlen Hsz Hdata Hbytes Hbuf.
  set (xs := take (Z.to_nat len) data).
  assert (length xs = Z.to_nat len) as Hxs by (unfold xs; rewrite length_take; lia).
  rewrite (write_block_run b i addr dev) by (done || lia).
  pose proof (block_bytes_length cmd data len true) as Hbs. revert Hbs.
  replace (block_bytes cmd data len true) with (cmd :: len :: xs).
  2: { unfold block_bytes. rewrite Z.min_l, u8_id by (unfold is_u8; lia). done. }
  intros Hbs.
  destruct (storage_call_write dev cmd (len :: xs)) as (d & s' & Hd & Hw & k & ->);
    [done|done|done| |simpl; lia|done|].
  { constructor; [unfold is_u8; lia|by apply Forall_take]. }
  destruct (wrote_config _ _ _ Hw) as (_ & Hs' & _). cbn in Hs'.
  destruct (after_settled b i addr dev Hatt Hidle Hrest _ (s' <| disk := k |>) Hbs)
    as (Hidle1 & (dev1 & Hatt1 & Hrest1 & Hu1) & _).
  destruct (storage_select dev1 cmd) as (d1 & Hd1 & Hinv1 & Hs1 & Hdat1 & Ho1);
    [done|rewrite Hu1; apply Hw|rewrite Hu1; cbn; lia|]. rewrite Hu1 in *. cbn in Hs1, Hdat1.
  destruct (storage_receive_block d1 cmd len xs) as (d2 & d3 & Hr1 & Hr2); [done|done|lia| |].
  { eapply stored_ext; [| |apply (wrote_stored _ _ _ Hw)]; cbn; congruence. }
  rewrite Hd. eexists _, _. split; [reflexivity|].
  rewrite (read_block_run _ i addr dev1) by (done || lia).
  rewrite Hd1. cbn [mbind result_mbind result_bind]. rewrite Hr1.
  cbn [mbind result_mbind result_bind]. rewrite (proj2 (Z.ltb_ge 32 len)) by lia.
  rewrite <- Hxs, Hr2. cbn [mbind result_mbind result_bind]. by rewrite Hxs.
Qed.
End StorageTheorems.

(** ** Examples: a 256-byte EEPROM at 0x54 with a writable host file *)

Definition host0 : HostFile := {|
  get_image_size _ := 256;
  open_rdonly _ := true;
  read_image _ n := replicate (Z.to_nat n) 0;
  open_wronly _ := true;
  write_count _ bytes := Z.of_nat (length bytes);
|}.
Definition eeprom0 : SMBusStorageDevice :=
  mkSMBusStorageDevice (Some "eeprom.bin"%string) (replicate 256 0) 256 0 true (replicate 256 0).
Definition rest_dev {D} (d : D) : SMBusDevice D := mkSMBusDevice SMBUS_IDLE 0 (replicate 34 0) d.
Definition bus0 {D} (addr : Z) (d : D) : I2CBus (SMBusDevice D) :=
  i2c_init_bus [mkI2CSlave addr (rest_dev d)].

Lemma bus0_attached {D} addr (d : D) : attached (bus0 addr d) 0 addr (rest_dev d).
Proof. split; [done|]. lia. Qed.

Lemma eeprom0_inv : storage_inv eeprom0.
Proof. repeat split; try done. by apply Forall_replicate. Qed.

Lemma eeprom_file_mirrors_image_witness :
  mirrored (eeprom0 <| sto_data ::= <[3%nat := 7]> |> <| disk ::= <[3%nat := 7]> |>
                    <| sto_offset := 4 |>) "eeprom.bin".
Proof.
  refine (@eeprom_file_mirrors_image host0 "eeprom.bin" eeprom0 _ _ _ _).
  - by split.
  - by repeat split.
  - apply rtc_once. by apply (@storage_step_write host0 _ [3; 7] 2 _ 0).
Defined.

Lemma eeprom_block_roundtrip_witness :
  exists b1 b2,
    @smbus_write_block _ (@smbus_device_class _ (@storage_class host0))
      (bus0 0x54 eeprom0) 0x54 254 [1; 2; 3] 3 true = Ok (b1, 0) /\
    @smbus_read_block _ (@smbus_device_class _ (@storage_class host0))
      b1 0x54 254 (replicate 32 9) 32 true true = Ok (b2, [1; 2; 3] ++ replicate 29 9, 3).
Proof.
  refine (@eeprom_block_roundtrip host0 (bus0 0x54 eeprom0) 0 0x54 (rest_dev eeprom0)
    254 [1; 2; 3] 3 (replicate 32 9) (bus0_attached _ _) _ _ _ eeprom0_inv _ _ _ _ _ _);
    try done; try (cbn; lia).
  by repeat constructor.
Defined.

Lemma smbus_buffer_never_overflows_witness :
  smbus_wf (rest_dev smbus_adm1032_realize <| mode := SMBUS_WRITE_DATA |>
            <| data_len := 1 |> <| data_buf ::= <[0%nat := 9]> |>).
Proof.
  apply (smbus_buffer_never_overflows (rest_dev smbus_adm1032_realize)); [done|].
  eapply rtc_l; [|apply rtc_once].
  - by apply (step_event _ I2C_START_SEND _ 0).
  - by apply (step_send _ 9 _ 0).
Defined.
