(* ===== verification/Amd756.v ===== *)
(** * The AMD756 SMBus host controller (src/xemu/hw/xbox/amd_smbus.c, amd_smbus.h)

    The I/O ports through which the guest reaches every SMBus device: the
    register file, the transaction started by GE_HOST_STC and the interrupt
    line.  [host_exec] is the guest's register access, a sequence of port
    accesses; the theorems show that on a register device it is a register
    access indeed. *)

From S2P Require Import Prelude I2cBus SmbusSlave SmbusMaster XboxSmc SmbusDevices.

Definition SMB_GLOBAL_STATUS : Z := 0x0.
Definition SMB_GLOBAL_ENABLE : Z := 0x2.
Definition SMB_HOST_ADDRESS : Z := 0x4.
Definition SMB_HOST_DATA : Z := 0x6.
Definition SMB_HOST_COMMAND : Z := 0x8.
Definition SMB_HOST_BLOCK_DATA : Z := 0x9.

Definition AMD756_QUICK : Z := 0x00.
Definition AMD756_BYTE : Z := 0x01.
Definition AMD756_BYTE_DATA : Z := 0x02.
Definition AMD756_WORD_DATA : Z := 0x03.
Definition AMD756_BLOCK_DATA : Z := 0x05.

Definition GS_ABRT_STS : Z := bit 0.
Definition GS_COL_STS : Z := bit 1.
Definition GS_PRERR_STS : Z := bit 2.
Definition GS_HCYC_STS : Z := bit 4.
Definition GS_TO_STS : Z := bit 5.
Definition GS_CLEAR_STS : Z :=
  Z.lor GS_ABRT_STS (Z.lor GS_COL_STS (Z.lor GS_PRERR_STS (Z.lor GS_HCYC_STS GS_TO_STS))).

Definition GE_CYC_TYPE_MASK : Z := 7.
Definition GE_HOST_STC : Z := bit 3.
Definition GE_HCYC_EN : Z := bit 4.
Definition GE_ABORT : Z := bit 5.

(** [smb_irq] is the level of the interrupt line, if there is one. *)
Record AMD756SMBus (D : Type) := mkAMD756SMBus {
  smbus : I2CBus D;
  smb_stat : Z;
  smb_ctl : Z;
  smb_cmd : Z;
  smb_addr : Z;
  smb_data0 : Z;
  smb_data1 : Z;
  smb_data : list Z;
  smb_index : Z;
  smb_irq : option bool;
}.
Arguments mkAMD756SMBus {D} _ _ _ _ _ _ _ _ _ _.
Arguments smbus {D} _.
Arguments smb_stat {D} _.
Arguments smb_ctl {D} _.
Arguments smb_cmd {D} _.
Arguments smb_addr {D} _.
Arguments smb_data0 {D} _.
Arguments smb_data1 {D} _.
Arguments smb_data {D} _.
Arguments smb_index {D} _.
Arguments smb_irq {D} _.
#[export] Instance AMD756SMBus_settable D : Settable (AMD756SMBus D) :=
  settable! (@mkAMD756SMBus D) < smbus ; smb_stat ; smb_ctl ; smb_cmd ; smb_addr ;
    smb_data0 ; smb_data1 ; smb_data ; smb_index ; smb_irq >.

Section Amd756.
Context {D : Type} `{!I2CSlaveClass D}.
Implicit Types s : AMD756SMBus D.

(** The labels [error], [done], [data8] and [data16] of the transaction. *)
Definition transaction_error s : AMD756SMBus D :=
  s <| smb_stat ::= fun v => Z.lor v GS_PRERR_STS |>.
Definition transaction_done s (ret : Z) : AMD756SMBus D :=
  if ret <? 0 then transaction_error s
  else s <| smb_stat ::= fun v => Z.lor v GS_HCYC_STS |>.
Definition transaction_data8 s (ret : Z) : AMD756SMBus D :=
  if ret <? 0 then transaction_error s
  else transaction_done (s <| smb_data0 := u8 ret |>) ret.
Definition transaction_data16 s (ret : Z) : AMD756SMBus D :=
  if ret <? 0 then transaction_error s
  else transaction_data8 (s <| smb_data1 := u8 (Z.shiftr ret 8) |>) ret.

Definition amd756_smb_transaction s : result (AMD756SMBus D) :=
  let prot := Z.land (smb_ctl s) GE_CYC_TYPE_MASK in
  let read := Z.land (smb_addr s) 0x01 in
  let cmd := smb_cmd s in
  let addr := Z.land (Z.shiftr (smb_addr s) 1) 0x7f in
  let bus := smbus s in
  if prot =? AMD756_QUICK then
    '(b, ret) ← smbus_quick_command bus addr read;
    Ok (transaction_done (s <| smbus := b |>) ret)
  else if prot =? AMD756_BYTE then
    if negb (read =? 0) then
      '(b, ret) ← smbus_receive_byte bus addr;
      Ok (transaction_data8 (s <| smbus := b |>) ret)
    else
      '(b, ret) ← smbus_send_byte bus addr cmd;
      Ok (transaction_done (s <| smbus := b |>) ret)
  else if prot =? AMD756_BYTE_DATA then
    if negb (read =? 0) then
      '(b, ret) ← smbus_read_byte bus addr cmd;
      Ok (transaction_data8 (s <| smbus := b |>) ret)
    else
      '(b, ret) ← smbus_write_byte bus addr cmd (smb_data0 s);
      Ok (transaction_done (s <| smbus := b |>) ret)
  else if prot =? AMD756_WORD_DATA then
    if negb (read =? 0) then
      '(b, ret) ← smbus_read_word bus addr cmd;
      Ok (transaction_data16 (s <| smbus := b |>) ret)
    else
      '(b, ret) ← smbus_write_word bus addr cmd
                    (Z.lor (Z.shiftl (smb_data1 s) 8) (smb_data0 s));
      Ok (transaction_done (s <| smbus := b |>) ret)
  else if prot =? AMD756_BLOCK_DATA then
    if negb (read =? 0) then
      '(b, data, ret) ← smbus_read_block bus addr cmd (smb_data s)
                          (Z.of_nat (length (smb_data s))) true true;
      Ok (transaction_data8 (s <| smbus := b |> <| smb_data := data |>) ret)
    else
      '(b, ret) ← smbus_write_block bus addr cmd (smb_data s) (smb_data0 s) true;
      Ok (transaction_done (s <| smbus := b |>) ret)
  else Ok (transaction_error s).

Definition amd756_smb_ioport_writeb s (addr val : Z) : result (AMD756SMBus D) :=
  let addr := Z.land addr 0x3f in
  if addr =? SMB_GLOBAL_STATUS then
    let s :=
      match smb_irq s with
      | Some _ =>
          if has (smb_ctl s) GE_HCYC_EN
             && has (Z.land val GS_CLEAR_STS) (Z.lnot (Z.land (smb_stat s) GS_CLEAR_STS))
          then s <| smb_irq := Some true |>
          else s <| smb_irq := Some false |>
      | None => s
      end in
    if has val GS_CLEAR_STS then Ok (s <| smb_stat := 0 |> <| smb_index := 0 |>)
    else if has val GS_HCYC_STS then Ok (s <| smb_stat := GS_HCYC_STS |> <| smb_index := 0 |>)
    else Ok (s <| smb_stat := GS_HCYC_STS |> <| smb_index := 0 |>)
  else if addr =? SMB_GLOBAL_ENABLE then
    let s := s <| smb_ctl := u8 val |> in
    let s := if has val GE_ABORT
             then s <| smb_stat ::= fun v => Z.lor v GS_ABRT_STS |> else s in
    if has val GE_HOST_STC then
      s ← amd756_smb_transaction s;
      if bool_decide (is_Some (smb_irq s)) && has val GE_HCYC_EN
         && has (smb_stat s) GS_CLEAR_STS
      then Ok (s <| smb_irq := Some true |>)
      else Ok s
    else Ok s
  else if addr =? SMB_HOST_COMMAND then Ok (s <| smb_cmd := u8 val |>)
  else if addr =? SMB_HOST_ADDRESS then Ok (s <| smb_addr := u8 val |>)
  else if addr =? SMB_HOST_DATA then Ok (s <| smb_data0 := u8 val |>)
  else if addr =? SMB_HOST_DATA + 1 then Ok (s <| smb_data1 := u8 val |>)
  else if addr =? SMB_HOST_BLOCK_DATA then
    _ ← fetch (smb_data s) (smb_index s);
    let s := s <| smb_data ::= <[Z.to_nat (smb_index s) := u8 val]> |>
               <| smb_index ::= fun i => u8 (i + 1) |> in
    Ok (if 31 <? smb_index s then s <| smb_index := 0 |> else s)
  else Ok s.

Definition amd756_smb_ioport_readb s (addr : Z) : result (AMD756SMBus D * Z) :=
  let addr := Z.land addr 0x3f in
  if addr =? SMB_GLOBAL_STATUS then Ok (s, smb_stat s)
  else if addr =? SMB_GLOBAL_ENABLE then Ok (s, Z.land (smb_ctl s) 0x1f)
  else if addr =? SMB_HOST_COMMAND then Ok (s, smb_cmd s)
  else if addr =? SMB_HOST_ADDRESS then Ok (s, smb_addr s)
  else if addr =? SMB_HOST_DATA then Ok (s, smb_data0 s)
  else if addr =? SMB_HOST_DATA + 1 then Ok (s, smb_data1 s)
  else if addr =? SMB_HOST_BLOCK_DATA then
    val ← fetch (smb_data s) (smb_index s);
    let s := s <| smb_index ::= fun i => u8 (i + 1) |> in
    Ok (if 31 <? smb_index s then s <| smb_index := 0 |> else s, val)
  else Ok (s, 0).

(** [smb] is the memory of the device before; only these three fields are set. *)
Definition amd756_smbus_init (smb : AMD756SMBus D) (kids : list (I2CSlave D))
    (irq : option bool) : AMD756SMBus D :=
  smb <| smbus := i2c_init_bus kids |> <| smb_stat := 0 |> <| smb_irq := irq |>.

(** ** The controller's invariant: the block index is inside the block buffer *)

Definition amd_inv s : Prop := length (smb_data s) = 32%nat /\ 0 <= smb_index s < 32.

Inductive amd_step s : AMD756SMBus D -> Prop :=
| amd_write addr val s' : amd756_smb_ioport_writeb s addr val = Ok s' -> amd_step s s'
| amd_read addr s' val : amd756_smb_ioport_readb s addr = Ok (s', val) -> amd_step s s'.

(** ** The guest's register accesses, as port accesses *)

Inductive host_op :=
| HostWrite (r x : Z)
| HostRead (r : Z).

(** Clear the status, set up a byte-data cycle, start it; the results are the
    data register (of a read) and the status. *)
Definition host_exec s (addr : Z) (op : host_op) : result (AMD756SMBus D * (Z * Z)) :=
  s ← amd756_smb_ioport_writeb s SMB_GLOBAL_STATUS GS_CLEAR_STS;
  s ← (match op with
       | HostWrite r x =>
           s ← amd756_smb_ioport_writeb s SMB_HOST_ADDRESS (2 * addr);
           s ← amd756_smb_ioport_writeb s SMB_HOST_COMMAND r;
           amd756_smb_ioport_writeb s SMB_HOST_DATA x
       | HostRead r =>
           s ← amd756_smb_ioport_writeb s SMB_HOST_ADDRESS (2 * addr + 1);
           amd756_smb_ioport_writeb s SMB_HOST_COMMAND r
       end);
  s ← amd756_smb_ioport_writeb s SMB_GLOBAL_ENABLE (Z.lor GE_HOST_STC AMD756_BYTE_DATA);
  '(s, st) ← amd756_smb_ioport_readb s SMB_GLOBAL_STATUS;
  '(s, x) ← amd756_smb_ioport_readb s SMB_HOST_DATA;
  Ok (s, (x, st)).

Fixpoint host_run s (addr : Z) (ops : list host_op) : result (AMD756SMBus D * list (Z * Z)) :=
  match ops with
  | [] => Ok (s, [])
  | op :: ops =>
      '(s, out) ← host_exec s addr op;
      '(s, outs) ← host_run s addr ops;
      Ok (s, out :: outs)
  end.
End Amd756.

(** The abstract register file: what a run of register accesses returns. *)
Definition regs_exec (f : Z -> Z) (op : host_op) : (Z -> Z) * Z :=
  match op with
  | HostWrite r x => (fun r' => if r' =? r then x else f r', x)
  | HostRead r => (f, f r)
  end.
Fixpoint regs_run (f : Z -> Z) (ops : list host_op) : list Z :=
  match ops with
  | [] => []
  | op :: ops => let '(f, x) := regs_exec f op in x :: regs_run f ops
  end.

Definition op_ok `{RegisterDevice D} (op : host_op) : Prop :=
  match op with
  | HostWrite r x => rw_reg r /\ is_u8 r /\ is_u8 x
  | HostRead r => rw_reg r /\ is_u8 r
  end.

(** ** Theorems *)

Section AmdInvariant.
Context {D : Type} `{!I2CSlaveClass D}.
Implicit Types s : AMD756SMBus D.

Lemma recv_bytes_length n : forall (b : I2CBus D) i data b' data',
  recv_bytes b n i data = Ok (b', data') -> length data' = length data.
Proof.
  induction n as [|n IH]; intros b i data b' data'; cbn [recv_bytes].
  - by intros [= _ <-].
  - unfold mbind, result_mbind, result_bind. destruct (i2c_recv b) as [[b1 x]|]; [|done].
    destruct (decide _); [|done]. intros Hrun. apply IH in Hrun. by rewrite length_insert in Hrun.
Qed.

Lemma read_block_length b addr cmd data len rl sc b' data' (rv : Z) :
  smbus_read_block (D := D) b addr cmd data len rl sc = Ok (b', data', rv) ->
  length data' = length data.
Proof.
  unfold smbus_read_block, mbind, result_mbind, result_bind. intros Hrun.
  repeat (case_match; simplify_eq; try done);
    repeat match goal with H : recv_bytes _ _ _ _ = Ok _ |- _ =>
      apply recv_bytes_length in H end; done.
Qed.

Lemma data8_inv s ret : amd_inv s -> amd_inv (transaction_data8 s ret).
Proof. intros Hinv. unfold transaction_data8, transaction_done. by destruct (ret <? 0). Qed.
Lemma done_inv s ret : amd_inv s -> amd_inv (transaction_done s ret).
Proof. intros Hinv. unfold transaction_done. by destruct (ret <? 0). Qed.
Lemma data16_inv s ret : amd_inv s -> amd_inv (transaction_data16 s ret).
Proof.
  intros Hinv. unfold transaction_data16. destruct (ret <? 0); [done|]. by apply data8_inv.
Qed.

Lemma transaction_inv s s' : amd_inv s -> amd756_smb_transaction s = Ok s' -> amd_inv s'.
Proof.
  intros Hinv. unfold amd756_smb_transaction, mbind, result_mbind, result_bind.
  repeat (case_match; try done); intros [= <-];
    first [apply done_inv; done | apply data8_inv; try done | apply data16_inv; done | done].
  split; cbn; [|apply Hinv].
  match goal with H : smbus_read_block _ _ _ _ _ _ _ = Ok _ |- _ =>
    apply read_block_length in H as -> end. apply Hinv.
Qed.

Lemma writeb_inv s addr val s' :
  amd_inv s -> amd756_smb_ioport_writeb s addr val = Ok s' -> amd_inv s'.
Proof.
  intros Hinv. pose proof Hinv as [Hl Hi].
  unfold amd756_smb_ioport_writeb, mbind, result_mbind, result_bind.
  repeat (case_match; try done); intros [= <-]; try done;
    try (match goal with H : amd756_smb_transaction _ = Ok _ |- _ =>
      apply transaction_inv in H; done end);
    split; cbn; rewrite ?length_insert; try done; try lia;
    unfold u8 in *; cbn in *; Z.to_euclidean_division_equations; lia.
Qed.

Lemma readb_ok s addr :
  amd_inv s -> exists s' val, amd756_smb_ioport_readb s addr = Ok (s', val) /\ amd_inv s'.
Proof.
  intros [Hl Hi]. unfold amd756_smb_ioport_readb.
  destruct (lookup_lt_is_Some_2 (smb_data s) (Z.to_nat (smb_index s))) as [x Hx]; [lia|].
  rewrite (fetch_ok _ _ x) by (done || lia).
  repeat case_match; eexists _, _; (split; [reflexivity|]); split; cbn; try done; try lia.
  unfold u8 in *; cbn in *; Z.to_euclidean_division_equations; lia.
Qed.

Lemma reachable_inv s s' : amd_inv s -> rtc amd_step s s' -> amd_inv s'.
Proof.
  intros Hinv Hsteps. induction Hsteps as [|s1 s2 s3 Hstep _ IH]; [done|].
  apply IH. destruct Hstep as [addr val s' Hrun|addr s' val Hrun]; [by eapply writeb_inv|].
  destruct (readb_ok s1 addr Hinv) as (s2' & val' & Hrun' & Hinv'). congruence.
Qed.

(** The block index never leaves the 32-byte block buffer: after any
    sequence of port reads and writes, every port read succeeds, and so does
    every port write that does not start a transaction. *)
Theorem amd756_ports_never_overrun s s' addr val :
  amd_inv s -> rtc amd_step s s' ->
  (exists s2 x, amd756_smb_ioport_readb s' addr = Ok (s2, x)) /\
  (has val GE_HOST_STC = false -> exists s2, amd756_smb_ioport_writeb s' addr val = Ok s2).
Proof.
  intros Hinv Hsteps. pose proof (reachable_inv _ _ Hinv Hsteps) as Hinv'. split.
  - destruct (readb_ok s' addr Hinv') as (s2 & x & Hrun & _). eauto.
  - intros Hval. destruct Hinv' as [Hl Hi]. unfold amd756_smb_ioport_writeb. rewrite Hval.
    destruct (lookup_lt_is_Some_2 (smb_data s') (Z.to_nat (smb_index s'))) as [x Hx]; [lia|].
    rewrite (fetch_ok _ _ x) by (done || lia).
    cbn [mbind result_mbind result_bind]. repeat case_match; eauto.
Qed.
End AmdInvariant.

(** ** The guest's register accesses *)

Section HostRegisters.
Context {D : Type} `{!SMBusDeviceClass D, !RegisterDevice D}.
Implicit Types s : AMD756SMBus (SMBusDevice D).

Lemma write_address s v : amd756_smb_ioport_writeb s SMB_HOST_ADDRESS v =
  Ok (s <| smb_addr := u8 v |>).
Proof. reflexivity. Qed.
Lemma write_command s v : amd756_smb_ioport_writeb s SMB_HOST_COMMAND v =
  Ok (s <| smb_cmd := u8 v |>).
Proof. reflexivity. Qed.
Lemma write_host_data s v : amd756_smb_ioport_writeb s SMB_HOST_DATA v =
  Ok (s <| smb_data0 := u8 v |>).
Proof. reflexivity. Qed.
Lemma clear_status s : exists irq,
  amd756_smb_ioport_writeb s SMB_GLOBAL_STATUS GS_CLEAR_STS =
    Ok (s <| smb_irq := irq |> <| smb_stat := 0 |> <| smb_index := 0 |>).
Proof.
  unfold amd756_smb_ioport_writeb. simpl. destruct (smb_irq s) eqn:Hirq.
  - case_match; eexists; reflexivity.
  - exists None. destruct s; cbn in *; by subst.
Qed.

(** A byte-data cycle started without interrupts is the transaction. *)
Lemma start_cycle s :
  amd756_smb_ioport_writeb s SMB_GLOBAL_ENABLE (Z.lor GE_HOST_STC AMD756_BYTE_DATA) =
  amd756_smb_transaction (s <| smb_ctl := 10 |>).
Proof.
  unfold amd756_smb_ioport_writeb. cbn -[amd756_smb_transaction].
  change (u8 10) with 10.
  destruct (amd756_smb_transaction _) as [s'|]; cbn; [|done].
  by rewrite andb_false_r.
Qed.

Lemma addr_bits addr rw :
  0 <= addr < 128 -> (rw = 0 \/ rw = 1) ->
  Z.land (u8 (2 * addr + rw)) 1 = rw /\ Z.land (Z.shiftr (u8 (2 * addr + rw)) 1) 0x7f = addr.
Proof.
  intros Ha Hrw. rewrite u8_id by (unfold is_u8; lia).
  rewrite (Z.land_ones _ 1 ltac:(done) : Z.land _ 1 = _).
  rewrite (Z.land_ones _ 7 ltac:(done) : Z.land _ 0x7f = _), Z.shiftr_div_pow2 by lia.
  split; Z.to_euclidean_division_equations; lia.
Qed.

Lemma transaction_write s i addr f r x :
  holds_regs (smbus s) i addr f -> rw_reg r -> is_u8 x -> 0 <= addr < 128 ->
  smb_ctl s = 10 -> smb_addr s = u8 (2 * addr + 0) -> smb_cmd s = r -> smb_data0 s = x ->
  exists b', amd756_smb_transaction s =
      Ok (s <| smbus := b' |> <| smb_stat ::= fun v => Z.lor v GS_HCYC_STS |>) /\
    holds_regs b' i addr (fun r' => if r' =? r then x else f r') /\ others_kept (smbus s) b' i.
Proof.
  intros Hregs Hr Hx Ha Hctl Haddr Hcmd Hdata.
  destruct (addr_bits addr 0 Ha ltac:(auto)) as [Hrw Hsel].
  destruct (write_byte_regs _ _ _ _ r x Hregs Hr Hx) as (b' & Hrun & Hregs' & Hoth).
  exists b'. split; [|done]. unfold amd756_smb_transaction.
  rewrite Hctl, Haddr, Hrw, Hsel, Hcmd, Hdata, Hrun. done.
Qed.

Lemma transaction_read s i addr f r :
  holds_regs (smbus s) i addr f -> rw_reg r -> 0 <= addr < 128 ->
  smb_ctl s = 10 -> smb_addr s = u8 (2 * addr + 1) -> smb_cmd s = r ->
  exists b', amd756_smb_transaction s =
      Ok (s <| smbus := b' |> <| smb_data0 := f r |>
            <| smb_stat ::= fun v => Z.lor v GS_HCYC_STS |>) /\
    holds_regs b' i addr f /\ others_kept (smbus s) b' i.
Proof.
  intros Hregs Hr Ha Hctl Haddr Hcmd.
  destruct (addr_bits addr 1 Ha ltac:(auto)) as [Hrw Hsel].
  destruct (read_byte_regs _ _ _ _ r Hregs Hr) as (b' & Hrun & Hu8 & Hregs' & Hoth).
  exists b'. split; [|done]. unfold amd756_smb_transaction.
  rewrite Hctl, Haddr, Hrw, Hsel, Hcmd, Hrun. cbn [mbind result_mbind result_bind].
  unfold transaction_data8, transaction_done.
  rewrite (proj2 (Z.ltb_ge (f r) 0)), u8_id by (done || apply Hu8). done.
Qed.

Lemma host_exec_spec s i addr f op :
  holds_regs (smbus s) i addr f -> 0 <= addr < 128 -> op_ok op ->
  exists s', host_exec s addr op = Ok (s', (snd (regs_exec f op), GS_HCYC_STS)) /\
    holds_regs (smbus s') i addr (fst (regs_exec f op)) /\ others_kept (smbus s) (smbus s') i.
Proof.
  intros Hregs Ha Hop. unfold host_exec. destruct (clear_status s) as [irq ->].
  cbn [mbind result_mbind result_bind].
  set (s1 := s <| smb_irq := irq |> <| smb_stat := 0 |> <| smb_index := 0 |>).
  destruct op as [r x|r].
  - destruct Hop as (Hr & Hr8 & Hx). rewrite write_address. cbn [mbind result_mbind result_bind]. rewrite write_command.
    cbn [mbind result_mbind result_bind]. rewrite write_host_data.
    cbn [mbind result_mbind result_bind]. rewrite start_cycle.
    rewrite (u8_id r), (u8_id x), <- (Z.add_0_r (2 * addr)) by done.
    match goal with |- context [amd756_smb_transaction ?s2] =>
      destruct (transaction_write s2 i addr f r x) as (b' & -> & Hregs' & Hoth) end; try done.
    eexists. split; [reflexivity|]. done.
  - destruct Hop as (Hr & Hr8). rewrite write_address.
    cbn [mbind result_mbind result_bind]. rewrite write_command.
    cbn [mbind result_mbind result_bind]. rewrite start_cycle. rewrite (u8_id r) by done.
    match goal with |- context [amd756_smb_transaction ?s2] =>
      destruct (transaction_read s2 i addr f r) as (b' & -> & Hregs' & Hoth) end; try done.
    eexists. split; [reflexivity|]. done.
Qed.

(** C1.  Behind the SMBus ports is a register file: any sequence of register
    reads and writes that the guest performs through the AMD756 ports on a
    register device returns what the abstract register file returns, each
    cycle completes with status HCYC and no error bit, and the other devices on
    the bus are unchanged. *)
Theorem host_accesses_refine_registers ops : forall s i addr f,
  holds_regs (smbus s) i addr f -> 0 <= addr < 128 -> Forall op_ok ops ->
  exists s', host_run s addr ops =
      Ok (s', map (fun x => (x, GS_HCYC_STS)) (regs_run f ops)) /\
    others_kept (smbus s) (smbus s') i.
Proof.
  induction ops as [|op ops IH]; intros s i addr f Hregs Ha Hops.
  { by exists s. }
  inversion_clear Hops as [|? ? Hop Hrest]. cbn [host_run regs_run].
  destruct (host_exec_spec s i addr f op) as (s1 & -> & Hregs1 & Hoth1); try done.
  cbn [mbind result_mbind result_bind]. destruct (regs_exec f op) as [f1 x].
  destruct (IH s1 i addr f1) as (s2 & -> & Hoth2); try done.
  exists s2. split; [done|]. intros j Hj. by rewrite (Hoth2 j Hj), (Hoth1 j Hj).
Qed.
End HostRegisters.

(** ** A transaction to an empty address *)

Section NoDevice.
Context {D : Type} `{!I2CSlaveClass D}.
Implicit Types s : AMD756SMBus D.

(** A cycle to an address no device has changes nothing but the status:
    it ends with the protocol error bit, whatever the cycle type, so the guest
    sees the absence of the device. *)
Theorem amd756_absent_device s :
  idle (smbus s) ->
  let addr := Z.land (Z.shiftr (smb_addr s) 1) 0x7f in
  addr <> I2C_BROADCAST ->
  (forall sl, sl ∈ children (smbus s) -> address sl <> addr) ->
  amd756_smb_transaction s = Ok (transaction_error s).
Proof.
  intros Hidle addr Ha Hno. unfold amd756_smb_transaction. fold addr.
  assert (s <| smbus := smbus s |> = s) as Hs by (by destruct s).
  assert (s <| smbus := smbus s |> <| smb_data := smb_data s |> = s) as Hs' by (by destruct s).
  unfold smbus_quick_command, smbus_receive_byte, smbus_send_byte, smbus_read_byte,
    smbus_write_byte, smbus_read_word, smbus_write_word, smbus_read_block, smbus_write_block,
    i2c_start_transfer, i2c_start_recv, i2c_start_send.
  rewrite !(start_nobody _ addr _ Hidle Ha Hno). cbn [mbind result_mbind result_bind].
  repeat (case_match; cbn [mbind result_mbind result_bind Z.eqb negb]; try done);
    rewrite ?Hs, ?Hs'; done.
Qed.
End NoDevice.

(** ** Examples *)

Definition amd0 {D} (b : I2CBus D) : AMD756SMBus D :=
  amd756_smbus_init (mkAMD756SMBus b 0 0 0 0 0 0 (replicate 32 0) 0 None) (children b) None.

Lemma amd756_ports_never_overrun_witness :
  (exists s2 x, amd756_smb_ioport_readb
     (amd0 (bus0 0x10 smc0) <| smb_index := 1 |>) SMB_HOST_BLOCK_DATA = Ok (s2, x)) /\
  (has 7 GE_HOST_STC = false -> exists s2, amd756_smb_ioport_writeb
     (amd0 (bus0 0x10 smc0) <| smb_index := 1 |>) SMB_HOST_BLOCK_DATA 7 = Ok s2).
Proof.
  apply (amd756_ports_never_overrun (amd0 (bus0 0x10 smc0))); [done|].
  apply rtc_once. by apply (amd_read _ SMB_HOST_BLOCK_DATA _ 0).
Defined.

Lemma host_accesses_refine_registers_witness :
  exists s', host_run (amd0 (bus0 0x10 smc0)) 0x10 [HostWrite 0x1b 5; HostRead 0x1b] =
      Ok (s', [(5, GS_HCYC_STS); (5, GS_HCYC_STS)]) /\
    others_kept (bus0 0x10 smc0) (smbus s') 0.
Proof.
  apply (host_accesses_refine_registers [HostWrite 0x1b 5; HostRead 0x1b]
           (amd0 (bus0 0x10 smc0)) 0 0x10 (fun _ => 0)).
  - split; [done|]. split; [done|]. exists (rest_dev smc0).
    split; [apply bus0_attached|]. done.
  - done.
  - by repeat constructor.
Defined.

Lemma amd756_absent_device_witness :
  amd756_smb_transaction (amd0 (bus0 0x10 smc0) <| smb_addr := 0x54 |>) =
  Ok (transaction_error (amd0 (bus0 0x10 smc0) <| smb_addr := 0x54 |>)).
Proof.
  apply (amd756_absent_device (amd0 (bus0 0x10 smc0) <| smb_addr := 0x54 |>)); [done|done|].
  intros sl Hsl. cbn in Hsl. by apply list_elem_of_singleton in Hsl as ->.
Defined.
