(* ===== verification/PciCore.v ===== *)
(** * PCI devices: configuration space, base addresses and interrupt pins
    (src/xemu/hw/pci/pci.c, include/hw/pci/)

    A device has 256 bytes of configuration space with masks for the bits the guest can
    write, up to seven regions mapped where its base address registers say, and four
    interrupt pins.  The pins of all devices, also of those behind bridges, end at the
    lines of the root bus, each of which counts the pins that hold it up.  What the root
    bus does with a line is the chipset's ([PciRoot]).  Conventional devices only: no
    power management, message-signalled interrupts, virtual functions or VGA windows,
    which no device of the console has apart from the VGA windows of the graphics chip. *)

From S2P Require Import Prelude.

Definition PCI_NUM_PINS : Z := 4.
Definition PCI_NUM_REGIONS : Z := 7.
Definition PCI_ROM_SLOT : Z := 6.
Definition PCI_CONFIG_SPACE_SIZE : Z := 0x100.
Definition PCI_CONFIG_HEADER_SIZE : Z := 0x40.
Definition PCI_BAR_UNMAPPED : Z := 2 ^ 64 - 1.
Definition PCI_COMMAND : Z := 0x04.
Definition PCI_COMMAND_IO : Z := 0x1.
Definition PCI_COMMAND_MEMORY : Z := 0x2.
Definition PCI_COMMAND_MASTER : Z := 0x4.
Definition PCI_COMMAND_INTX_DISABLE : Z := 0x400.
Definition PCI_STATUS : Z := 0x06.
Definition PCI_STATUS_INTERRUPT : Z := 0x08.
Definition PCI_CACHE_LINE_SIZE : Z := 0x0c.
Definition PCI_HEADER_TYPE : Z := 0x0e.
Definition PCI_BASE_ADDRESS_0 : Z := 0x10.
Definition PCI_BASE_ADDRESS_SPACE_IO : Z := 0x01.
Definition PCI_BASE_ADDRESS_MEM_TYPE_64 : Z := 0x04.
Definition PCI_ROM_ADDRESS : Z := 0x30.
Definition PCI_ROM_ADDRESS1 : Z := 0x38.
Definition PCI_ROM_ADDRESS_ENABLE : Z := 0x01.
Definition PCI_INTERRUPT_LINE : Z := 0x3c.
Definition PCI_INTERRUPT_PIN : Z := 0x3d.

Record PCIIORegion := mkRegion {
  region_addr : Z;
  region_size : Z;
  region_type : Z;
}.
#[export] Instance PCIIORegion_settable : Settable PCIIORegion :=
  settable! mkRegion < region_addr ; region_size ; region_type >.

(** A bus is the root bus or the secondary bus of a bridge, given by the slot of the
    bridge and the bus the bridge is on. *)
Inductive PCIBus :=
| RootBus
| SecondaryBus (bridge_slot : Z) (bridge_bus : PCIBus).

Record PCIDevice := mkPCIDevice {
  devfn : Z;
  on_bus : PCIBus;
  enabled : bool;
  config : mem;
  wmask : mem;
  w1cmask : mem;
  io_regions : list PCIIORegion;
  is_master : bool;
  irq_state : Z;
}.
#[export] Instance PCIDevice_settable : Settable PCIDevice :=
  settable! mkPCIDevice < devfn ; on_bus ; enabled ; config ; wmask ; w1cmask ; io_regions ; is_master ; irq_state >.

(** ** Configuration space *)

Definition PCI_SLOT (fn : Z) : Z := Z.land (Z.shiftr fn 3) 0x1f.
Definition pci_get_byte (c : mem) (a : Z) : Z := rd c a.
Definition pci_get_word (c : mem) (a : Z) : Z := le_word (load_bytes c a 2).
Definition pci_get_long (c : mem) (a : Z) : Z := le_word (load_bytes c a 4).
Definition pci_get_quad (c : mem) (a : Z) : Z := le_word (load_bytes c a 8).
Definition pci_set_word (c : mem) (a v : Z) : mem := store_bytes c a (le_bytes 2 v).
Definition pci_set_long (c : mem) (a v : Z) : mem := store_bytes c a (le_bytes 4 v).
Definition pci_set_quad (c : mem) (a v : Z) : mem := store_bytes c a (le_bytes 8 v).
Definition pci_word_test_and_clear_mask (c : mem) (a mask : Z) : mem :=
  pci_set_word c a (Z.ldiff (pci_get_word c a) (u16 mask)).
Definition pci_byte_test_and_clear_mask (c : mem) (a mask : Z) : mem :=
  wr a (Z.ldiff (pci_get_byte c a) (u8 mask)) c.

Definition range_covers_byte (offset len byte : Z) : bool :=
  (offset <=? byte) && (byte <=? u64 (offset + len - 1)).
Definition ranges_overlap (first1 len1 first2 len2 : Z) : bool :=
  negb ((u64 (first2 + len2 - 1) <? first1) || (u64 (first1 + len1 - 1) <? first2)).

(** ** Base addresses *)

Definition pci_bar (d : PCIDevice) (reg : Z) : Z :=
  if negb (reg =? PCI_ROM_SLOT) then PCI_BASE_ADDRESS_0 + reg * 4
  else if Z.ldiff (rd (config d) PCI_HEADER_TYPE) 0x80 =? 1 then PCI_ROM_ADDRESS1 else PCI_ROM_ADDRESS.

Definition pci_config_get_bar_addr (d : PCIDevice) (reg type size : Z) : Z :=
  let bar := pci_bar d reg in
  let new_addr :=
    if has type PCI_BASE_ADDRESS_MEM_TYPE_64 then pci_get_quad (config d) bar
    else pci_get_long (config d) bar in
  if negb (reg =? PCI_ROM_SLOT) then Z.ldiff new_addr (u64 (size - 1)) else new_addr.

(** [pci_allow_0_address] is false for this machine. *)
Definition pci_bar_address (d : PCIDevice) (reg type size : Z) : Z :=
  let cmd := pci_get_word (config d) PCI_COMMAND in
  if has type PCI_BASE_ADDRESS_SPACE_IO then
    if negb (has cmd PCI_COMMAND_IO) then PCI_BAR_UNMAPPED
    else
      let new_addr := pci_config_get_bar_addr d reg type size in
      let last_addr := u64 (new_addr + size - 1) in
      if (last_addr <=? new_addr) || (2 ^ 32 - 1 <=? last_addr) || (new_addr =? 0) then PCI_BAR_UNMAPPED
      else new_addr
  else if negb (has cmd PCI_COMMAND_MEMORY) then PCI_BAR_UNMAPPED
  else
    let new_addr := pci_config_get_bar_addr d reg type size in
    if (reg =? PCI_ROM_SLOT) && negb (has new_addr PCI_ROM_ADDRESS_ENABLE) then PCI_BAR_UNMAPPED
    else
      let new_addr := Z.ldiff new_addr (u64 (size - 1)) in
      let last_addr := u64 (new_addr + size - 1) in
      if (last_addr <=? new_addr) || (last_addr =? PCI_BAR_UNMAPPED) || (new_addr =? 0) then PCI_BAR_UNMAPPED
      else if negb (has type PCI_BASE_ADDRESS_MEM_TYPE_64) && (2 ^ 32 - 1 <=? last_addr) then PCI_BAR_UNMAPPED
      else if 2 ^ 64 - 1 <=? last_addr then PCI_BAR_UNMAPPED
      else new_addr.

(** A region is mapped exactly at [region_addr], or nowhere. *)
Definition update_mapping (d : PCIDevice) (i : nat) (r : PCIIORegion) : PCIIORegion :=
  if region_size r =? 0 then r
  else
    let new_addr := pci_bar_address d (Z.of_nat i) (region_type r) (region_size r) in
    let new_addr := if negb (enabled d) then PCI_BAR_UNMAPPED else new_addr in
    r <| region_addr := new_addr |>.
Definition pci_update_mappings (d : PCIDevice) : PCIDevice :=
  d <| io_regions := imap (update_mapping d) (io_regions d) |>.

(** ** New devices *)

Definition pci_init_wmask (m : mem) : mem :=
  let m := wr PCI_CACHE_LINE_SIZE 0xff m in
  let m := wr PCI_INTERRUPT_LINE 0xff m in
  let m := pci_set_word m PCI_COMMAND
    (Z.lor PCI_COMMAND_IO (Z.lor PCI_COMMAND_MEMORY (Z.lor PCI_COMMAND_MASTER PCI_COMMAND_INTX_DISABLE))) in
  let m := pci_set_word m PCI_COMMAND (Z.lor (pci_get_word m PCI_COMMAND) 0x100) in
  store_bytes m PCI_CONFIG_HEADER_SIZE
    (replicate (Z.to_nat (PCI_CONFIG_SPACE_SIZE - PCI_CONFIG_HEADER_SIZE)) 0xff).
Definition pci_init_w1cmask (m : mem) : mem :=
  pci_set_word m PCI_STATUS (Z.lor 0x100 (Z.lor 0x800 (Z.lor 0x1000 (Z.lor 0x2000 (Z.lor 0x4000 0x8000))))).

Definition pci_register_bar (d : PCIDevice) (region_num type size : Z) : result PCIDevice :=
  _ ← check (0 <=? region_num) "region_num >= 0";
  _ ← check (region_num <? PCI_NUM_REGIONS) "region_num < PCI_NUM_REGIONS";
  _ ← check (negb (size =? 0) && (Z.land size (size - 1) =? 0)) "is_power_of_2(size)";
  _ ← check (negb (Z.ldiff (rd (config d) PCI_HEADER_TYPE) 0x80 =? 1) || (region_num <? 2))
        "hdr_type != PCI_HEADER_TYPE_BRIDGE || region_num < 2";
  r ← fetch (io_regions d) region_num;
  _ ← check (region_size r =? 0) "!r->size";
  let d := d <| io_regions ::= <[Z.to_nat region_num := mkRegion PCI_BAR_UNMAPPED size type]> |> in
  let wm := u64 (Z.lnot (size - 1)) in
  let wm := if region_num =? PCI_ROM_SLOT then Z.lor wm PCI_ROM_ADDRESS_ENABLE else wm in
  let addr := pci_bar d region_num in
  let d := d <| config ::= fun c => pci_set_long c addr type |> in
  if negb (has type PCI_BASE_ADDRESS_SPACE_IO) && has type PCI_BASE_ADDRESS_MEM_TYPE_64
  then Ok (d <| wmask ::= fun m => pci_set_quad m addr wm |>)
  else Ok (d <| wmask ::= fun m => pci_set_long m addr (Z.land wm 0xffffffff) |>).

(** ** Interrupt pins *)

(** What the chipset attaches to the root bus: the line of a slot's pin, and the effect
    of a line, which may depend on the configuration of a device. *)
Class PciRoot (E : Type) := {
  nirq : Z;
  map_irq : Z -> Z -> result Z;
  set_irq : list PCIDevice -> Z -> Z -> E -> result E;
}.

Record PCIHost (E : Type) := mkHost {
  devices : list PCIDevice;
  irq_count : mem;
  chipset : E;
}.
Arguments mkHost {E} _ _ _.
Arguments devices {E} _.
Arguments irq_count {E} _.
Arguments chipset {E} _.
#[export] Instance PCIHost_settable E : Settable (PCIHost E) :=
  settable! (@mkHost E) < devices ; irq_count ; chipset >.

Definition pci_irq_state (d : PCIDevice) (irq_num : Z) : Z := Z.land (Z.shiftr (irq_state d) irq_num) 1.
Definition pci_set_irq_state (d : PCIDevice) (irq_num level : Z) : PCIDevice :=
  d <| irq_state := u8 (Z.lor (Z.ldiff (irq_state d) (Z.shiftl 1 irq_num)) (Z.shiftl level irq_num)) |>.
Definition pci_update_irq_status (d : PCIDevice) : PCIDevice :=
  let status := rd (config d) PCI_STATUS in
  if negb (irq_state d =? 0) then d <| config ::= wr PCI_STATUS (Z.lor status PCI_STATUS_INTERRUPT) |>
  else d <| config ::= wr PCI_STATUS (Z.ldiff status PCI_STATUS_INTERRUPT) |>.
Definition pci_irq_disabled (d : PCIDevice) : bool :=
  has (pci_get_word (config d) PCI_COMMAND) PCI_COMMAND_INTX_DISABLE.
Definition pci_swizzle (slot pin : Z) : Z := Z.rem (slot + pin) PCI_NUM_PINS.
Definition pci_intx (d : PCIDevice) : Z := pci_get_byte (config d) PCI_INTERRUPT_PIN - 1.

Section Pins.
Context {E : Type} `{!PciRoot E}.
Implicit Types st : PCIHost E.

(** The loop of [pci_change_irq_level] from a device to the root bus. *)
Fixpoint pci_route_pin (b : PCIBus) (slot irq_num : Z) : result Z :=
  match b with
  | RootBus => map_irq slot irq_num
  | SecondaryBus bslot up => pci_route_pin up bslot (pci_swizzle slot irq_num)
  end.

Definition pci_bus_change_irq_level st (irq_num change : Z) : result (PCIHost E) :=
  _ ← check (0 <=? irq_num) "irq_num >= 0";
  _ ← check (irq_num <? nirq) "irq_num < bus->nirq";
  let st := st <| irq_count ::= wr irq_num (s32 (rd (irq_count st) irq_num + change)) |> in
  c ← set_irq (devices st) irq_num (Z.b2z (negb (rd (irq_count st) irq_num =? 0))) (chipset st);
  Ok (st <| chipset := c |>).

Definition pci_change_irq_level st (d : PCIDevice) (irq_num change : Z) : result (PCIHost E) :=
  n ← pci_route_pin (on_bus d) (PCI_SLOT (devfn d)) irq_num;
  pci_bus_change_irq_level st n change.

Definition pci_bus_get_irq_level st (irq_num : Z) : result Z :=
  _ ← check (0 <=? irq_num) "irq_num >= 0";
  _ ← check (irq_num <? nirq) "irq_num < bus->nirq";
  Ok (Z.b2z (negb (rd (irq_count st) irq_num =? 0))).

Definition put_device st (i : Z) (d : PCIDevice) : PCIHost E :=
  st <| devices ::= <[Z.to_nat i := d]> |>.

Definition pci_irq_handler st (i irq_num level : Z) : result (PCIHost E) :=
  d ← fetch (devices st) i;
  _ ← check ((0 <=? irq_num) && (irq_num <? PCI_NUM_PINS)) "0 <= irq_num && irq_num < PCI_NUM_PINS";
  _ ← check ((level =? 0) || (level =? 1)) "level == 0 || level == 1";
  let change := level - pci_irq_state d irq_num in
  if change =? 0 then Ok st
  else
    let d := pci_update_irq_status (pci_set_irq_state d irq_num level) in
    let st := put_device st i d in
    if pci_irq_disabled d then Ok st
    else pci_change_irq_level st d irq_num change.

Definition pci_set_irq st (i level : Z) : result (PCIHost E) :=
  d ← fetch (devices st) i;
  pci_irq_handler st i (pci_intx d) level.

Definition pci_device_deassert_intx st (i : Z) : result (PCIHost E) :=
  for_loop (Z.to_nat PCI_NUM_PINS) 0 (fun pin st => pci_irq_handler st i pin 0) st.

(** ** Writes to the configuration space *)

Definition pci_update_irq_disabled st (i : Z) (was_irq_disabled : bool) : result (PCIHost E) :=
  d ← fetch (devices st) i;
  let disabled := pci_irq_disabled d in
  if eqb disabled was_irq_disabled then Ok st
  else
    for_loop (Z.to_nat PCI_NUM_PINS) 0
      (fun pin st =>
         let state := pci_irq_state d pin in
         pci_change_irq_level st d pin (if disabled then - state else state)) st.

Definition config_byte (addr val : Z) (d : PCIDevice) : result PCIDevice :=
  let wm := rd (wmask d) addr in
  let w1cm := rd (w1cmask d) addr in
  _ ← check (negb (has wm w1cm)) "!(wmask & w1cmask)";
  let b := Z.lor (Z.ldiff (rd (config d) addr) wm) (Z.land val wm) in
  Ok (d <| config ::= wr addr (Z.ldiff b (Z.land val w1cm)) |>).

Definition config_written (addr val l : Z) (d : PCIDevice) : result PCIDevice :=
  for_loop (Z.to_nat l) 0 (fun k d => config_byte (addr + k) (Z.shiftr val (8 * k)) d) d.

Definition pci_default_read_config (d : PCIDevice) (address len : Z) : result Z :=
  _ ← check (u32 (address + len) <=? PCI_CONFIG_SPACE_SIZE) "address + len <= pci_config_size(d)";
  Ok (le_word (load_bytes (config d) address (Z.to_nat len))).

Definition pci_default_write_config st (i addr val_in l : Z) : result (PCIHost E) :=
  d ← fetch (devices st) i;
  let was_irq_disabled := pci_irq_disabled d in
  _ ← check (u32 (addr + l) <=? PCI_CONFIG_SPACE_SIZE) "addr + l <= pci_config_size(d)";
  d ← config_written addr val_in l d;
  let d :=
    if ranges_overlap addr l PCI_BASE_ADDRESS_0 24 || ranges_overlap addr l PCI_ROM_ADDRESS 4 ||
       ranges_overlap addr l PCI_ROM_ADDRESS1 4 || range_covers_byte addr l PCI_COMMAND
    then pci_update_mappings d else d in
  let st := put_device st i d in
  if ranges_overlap addr l PCI_COMMAND 2 then
    st ← pci_update_irq_disabled st i was_irq_disabled;
    d ← fetch (devices st) i;
    Ok (put_device st i
          (d <| is_master := has (pci_get_word (config d) PCI_COMMAND) PCI_COMMAND_MASTER && enabled d |>))
  else Ok st.

(** ** Reset *)

Definition pci_reset_regions (d : PCIDevice) : PCIDevice :=
  foldl (fun d '(i, r) =>
      if region_size r =? 0 then d
      else if negb (has (region_type r) PCI_BASE_ADDRESS_SPACE_IO) &&
              has (region_type r) PCI_BASE_ADDRESS_MEM_TYPE_64
      then d <| config ::= fun c => pci_set_quad c (pci_bar d i) (region_type r) |>
      else d <| config ::= fun c => pci_set_long c (pci_bar d i) (region_type r) |>)
    d (imap (fun i r => (Z.of_nat i, r)) (io_regions d)).

Definition pci_do_device_reset st (i : Z) : result (PCIHost E) :=
  st ← pci_device_deassert_intx st i;
  d ← fetch (devices st) i;
  _ ← check (irq_state d =? 0) "dev->irq_state == 0";
  let d := d <| config ::= fun c => pci_word_test_and_clear_mask c PCI_COMMAND
      (Z.lor (pci_get_word (wmask d) PCI_COMMAND) (pci_get_word (w1cmask d) PCI_COMMAND)) |> in
  let d := d <| config ::= fun c => pci_word_test_and_clear_mask c PCI_STATUS
      (Z.lor (pci_get_word (wmask d) PCI_STATUS) (pci_get_word (w1cmask d) PCI_STATUS)) |> in
  let d := d <| config ::= fun c => pci_byte_test_and_clear_mask c PCI_INTERRUPT_LINE
      (Z.lor (pci_get_word (wmask d) PCI_INTERRUPT_LINE) (pci_get_word (w1cmask d) PCI_INTERRUPT_LINE)) |> in
  let d := d <| config ::= wr PCI_CACHE_LINE_SIZE 0 |> in
  Ok (put_device st i (pci_update_mappings (pci_reset_regions d))).

(** The reset of a bus with [n] lines of its own (a secondary bus has none): its devices
    in turn, then no line may be held. *)
Definition pcibus_reset_hold st (n : Z) (on_this_bus : list Z) : result (PCIHost E) :=
  st ← foldl (fun r i => st ← r; pci_do_device_reset st i) (Ok st) on_this_bus;
  _ ← for_loop (Z.to_nat n) 0
        (fun i _ => check (rd (irq_count st) i =? 0) "bus->irq_count[i] == 0") tt;
  Ok st.
End Pins.

(** ** What a line must show

    The pins a device holds up, and the devices that hold up a line of the root bus. *)

Definition active_pin (d : PCIDevice) (pin : Z) : Z := if pci_irq_disabled d then 0 else pci_irq_state d pin.

Fixpoint zsum {A} (f : A -> Z) (l : list A) : Z :=
  match l with [] => 0 | x :: l => f x + zsum f l end.

Lemma zsum_insert {A} (f : A -> Z) l i x y : l !! i = Some x -> zsum f (<[i := y]> l) = zsum f l - f x + f y.
Proof.
  revert i. induction l as [|z l IH]; intros [|i] Hi; simplify_eq/=; [lia|]. rewrite (IH i Hi). lia.
Qed.
Lemma zsum_bounds {A} (f : A -> Z) l b : (forall x, x ∈ l -> 0 <= f x <= b) -> 0 <= zsum f l <= b * Z.of_nat (length l).
Proof.
  induction l as [|x l IH]; intros Hf; cbn [zsum length]; [lia|].
  pose proof (Hf x ltac:(apply elem_of_cons; by left)). assert (0 <= zsum f l <= b * Z.of_nat (length l)); [|lia].
  apply IH. intros y Hy. apply Hf, elem_of_cons. by right.
Qed.
Lemma zsum_zero {A} (f : A -> Z) l : (forall x, x ∈ l -> f x = 0) -> zsum f l = 0.
Proof.
  induction l as [|x l IH]; intros Hf; cbn [zsum]; [done|].
  rewrite (Hf x) by (apply elem_of_cons; by left). rewrite IH; [done|].
  intros y Hy. apply Hf, elem_of_cons. by right.
Qed.

Definition pins : list Z := [0; 1; 2; 3].

Section Lines.
Context {E : Type} `{!PciRoot E}.
Implicit Types st : PCIHost E.

Definition on_line (n : Z) (d : PCIDevice) (pin v : Z) : Z :=
  match pci_route_pin (on_bus d) (PCI_SLOT (devfn d)) pin with
  | Ok m => if m =? n then v else 0
  | Fault _ => 0
  end.
Definition pins_held (n : Z) (d : PCIDevice) : Z := zsum (fun pin => on_line n d pin (active_pin d pin)) pins.
Definition held (n : Z) (ds : list PCIDevice) : Z := zsum (pins_held n) ds.

(** A device whose pins all lead to a line, and whose status bit is not the guest's. *)
Record dev_wf (d : PCIDevice) : Prop := {
  dw_irq : 0 <= irq_state d < 2 ^ 4;
  dw_route pin : 0 <= pin < 4 -> exists n, pci_route_pin (on_bus d) (PCI_SLOT (devfn d)) pin = Ok n /\ 0 <= n < nirq;
  dw_masks a : has (rd (wmask d) a) (rd (w1cmask d) a) = false;
  dw_regions : Z.of_nat (length (io_regions d)) <= PCI_NUM_REGIONS;
}.
End Lines.

(** What the chipset promises about the lines, as long as the configuration that routes
    them stays the same. *)
Class PciRootLaws (E : Type) `{!PciRoot E} := {
  routing_ok : list PCIDevice -> Prop;
  same_routing : list PCIDevice -> list PCIDevice -> Prop;
  line_shows : list PCIDevice -> E -> Z -> Z -> Prop;
  set_irq_shows ds n b e : routing_ok ds -> 0 <= n < nirq -> b = 0 \/ b = 1 ->
    exists e', set_irq ds n b e = Ok e' /\ line_shows ds e' n b /\
      forall m c, m <> n -> 0 <= m < nirq -> line_shows ds e m c -> line_shows ds e' m c;
  same_routing_equiv :: Equivalence same_routing;
  routing_ok_same ds ds' : same_routing ds ds' -> routing_ok ds -> routing_ok ds';
  line_shows_same ds ds' e n b : same_routing ds ds' -> line_shows ds e n b -> line_shows ds' e n b;
  routing_config ds ds' :
    Forall2 (fun d d' => forall a, PCI_CONFIG_HEADER_SIZE <= a -> rd (config d) a = rd (config d') a) ds ds' ->
    same_routing ds ds';
}.

(** The four pin levels are four bits. *)
Lemma pin_bits x k level : 0 <= x < 2 ^ 4 -> 0 <= k < 4 -> level = 0 \/ level = 1 ->
  let x' := u8 (Z.lor (Z.ldiff x (Z.shiftl 1 k)) (Z.shiftl level k)) in
  0 <= x' < 2 ^ 4 /\ forall p, 0 <= p < 4 ->
    Z.land (Z.shiftr x' p) 1 = if p =? k then level else Z.land (Z.shiftr x p) 1.
Proof.
  intros Hx Hk Hl.
  assert (forallb (fun x => forallb (fun k => forallb (fun level =>
      let x' := u8 (Z.lor (Z.ldiff x (Z.shiftl 1 k)) (Z.shiftl level k)) in
      (0 <=? x') && (x' <? 2 ^ 4) && forallb (fun p =>
        Z.land (Z.shiftr x' p) 1 =? if p =? k then level else Z.land (Z.shiftr x p) 1) pins)
      [0; 1]) pins) (map Z.of_nat (seq 0 16)) = true) as Hall by (vm_compute; reflexivity).
  rewrite forallb_forall in Hall. specialize (Hall x).
  rewrite forallb_forall in Hall. assert (forall p, 0 <= p < 4 -> In p pins) as Hpins.
  { intros p Hp. assert (p = 0 \/ p = 1 \/ p = 2 \/ p = 3) as Hc by lia. cbn. intuition. }
  specialize (Hall ltac:(apply in_map_iff; exists (Z.to_nat x); split; [lia|apply in_seq; lia]) k (Hpins k Hk)).
  rewrite forallb_forall in Hall. specialize (Hall level ltac:(cbn; intuition)). cbn zeta in Hall |- *.
  rewrite !andb_true_iff, Z.leb_le, Z.ltb_lt, forallb_forall in Hall. destruct Hall as [Hr Hp].
  split; [done|]. intros p Hpr. by apply Z.eqb_eq, Hp, Hpins.
Qed.

Section Exact.
Context {E : Type} `{!PciRoot E, !PciRootLaws E}.
Implicit Types st : PCIHost E.

Definition lines_shown st : Prop := forall n, 0 <= n < nirq ->
  line_shows (devices st) (chipset st) n (Z.b2z (negb (rd (irq_count st) n =? 0))).

(** Every line shows whether a pin holds it up, and its count is that of the pins except
    for [delta], the part of a change that is still to be passed on. *)
Record host_owes (delta : Z -> Z) st : Prop := {
  ho_devs : Forall dev_wf (devices st);
  ho_small : Z.of_nat (length (devices st)) < 2 ^ 20;
  ho_routing : routing_ok (devices st);
  ho_delta n : -8 <= delta n <= 8;
  ho_count n : 0 <= n < nirq -> rd (irq_count st) n + delta n = held n (devices st);
  ho_lines : lines_shown st;
}.
Definition host_ok : PCIHost E -> Prop := host_owes (fun _ => 0).

Lemma host_owes_ext delta delta' st : (forall n, delta n = delta' n) -> host_owes delta st -> host_owes delta' st.
Proof. intros Hd []. constructor; try done; intros n; rewrite <- Hd; auto. Qed.

Lemma active_range d pin : 0 <= active_pin d pin <= 1.
Proof.
  unfold active_pin. case_match; [lia|]. unfold pci_irq_state. rewrite Z.land_comm.
  pose proof (land_range 1 (Z.shiftr (irq_state d) pin) 1). lia.
Qed.
Lemma on_line_range n d pin v : 0 <= v <= 1 -> 0 <= on_line n d pin v <= 1.
Proof. intros Hv. unfold on_line. repeat case_match; lia. Qed.
Lemma held_bounds n ds : 0 <= held n ds <= 4 * Z.of_nat (length ds).
Proof.
  apply zsum_bounds. intros d _. pose proof (zsum_bounds (fun pin => on_line n d pin (active_pin d pin)) pins 1) as H.
  change (Z.of_nat (length pins)) with 4 in H. apply H. intros pin _. apply on_line_range, active_range.
Qed.

(** One change of a line: the count moves and the line shows it. *)
Lemma change_level_ok st d pin ch n :
  pci_route_pin (on_bus d) (PCI_SLOT (devfn d)) pin = Ok n -> 0 <= n < nirq -> routing_ok (devices st) ->
  lines_shown st -> - 2 ^ 31 <= rd (irq_count st) n + ch < 2 ^ 31 ->
  exists st', pci_change_irq_level st d pin ch = Ok st' /\ devices st' = devices st /\ lines_shown st' /\
    forall m, rd (irq_count st') m = rd (irq_count st) m + on_line m d pin ch.
Proof.
  intros Hr Hn Hok Hl Hb. unfold pci_change_irq_level. rewrite Hr. cbn [mbind result_mbind result_bind].
  unfold pci_bus_change_irq_level. rewrite (proj2 (Z.leb_le 0 n)), (proj2 (Z.ltb_lt n nirq)) by lia.
  cbn [check mbind result_mbind result_bind]. rewrite s32_id by done.
  set (c := rd (irq_count st) n + ch) in *. proj_red. rewrite rd_wr_eq.
  destruct (set_irq_shows (devices st) n (Z.b2z (negb (c =? 0))) (chipset st)) as (e & -> & Hshow & Hkeep);
    [done|done|by destruct (c =? 0); [left|right]|].
  cbn [mbind result_mbind result_bind]. eexists. split; [reflexivity|]. proj_red. split; [done|]. split.
  - intros m Hm. proj_red. destruct (decide (m = n)) as [->|Hne]; [by rewrite rd_wr_eq|].
    rewrite rd_wr_ne by done. apply Hkeep; [done|done|]. by apply Hl.
  - intros m. unfold on_line. rewrite Hr. destruct (Z.eqb_spec n m) as [->|Hne]; [by rewrite rd_wr_eq|].
    rewrite rd_wr_ne by done. lia.
Qed.

Lemma get_word_bytes c a : pci_get_word c a = rd c a + 256 * rd c (a + 1).
Proof. unfold pci_get_word, load_bytes. cbn [map seq le_word]. rewrite !Z.add_0_r. reflexivity. Qed.

(** The status bit of the pins touches neither the command word nor the pins. *)
Lemma update_status_disabled d : pci_irq_disabled (pci_update_irq_status d) = pci_irq_disabled d.
Proof.
  unfold pci_irq_disabled, pci_update_irq_status. rewrite !get_word_bytes.
  destruct (negb _); proj_red; by rewrite !rd_wr_ne by discriminate.
Qed.
Lemma update_status_same d : irq_state (pci_update_irq_status d) = irq_state d /\
  on_bus (pci_update_irq_status d) = on_bus d /\ devfn (pci_update_irq_status d) = devfn d /\
  wmask (pci_update_irq_status d) = wmask d /\ w1cmask (pci_update_irq_status d) = w1cmask d /\
  io_regions (pci_update_irq_status d) = io_regions d /\
  forall a, a <> PCI_STATUS -> rd (config (pci_update_irq_status d)) a = rd (config d) a.
Proof.
  unfold pci_update_irq_status. destruct (negb _); proj_red; repeat split; intros a Ha; by rewrite rd_wr_ne.
Qed.

Lemma on_line_add n d pin v w : on_line n d pin (v + w) = on_line n d pin v + on_line n d pin w.
Proof. unfold on_line. repeat case_match; lia. Qed.
Lemma on_line_same n d d' pin v : on_bus d' = on_bus d -> devfn d' = devfn d -> on_line n d' pin v = on_line n d pin v.
Proof. intros H1 H2. unfold on_line. by rewrite H1, H2. Qed.

Lemma in_pins p : p ∈ pins -> 0 <= p < 4.
Proof. unfold pins. rewrite !elem_of_cons. intros [->|[->|[->|[->|H]]]]; [lia..|]. by apply elem_of_nil in H. Qed.

(** A device with one pin changed, its interrupts not disabled. *)
Lemma pins_held_set n d d' k level : 0 <= k < 4 -> on_bus d' = on_bus d -> devfn d' = devfn d ->
  pci_irq_disabled d' = pci_irq_disabled d ->
  (forall p, 0 <= p < 4 -> pci_irq_state d' p = if p =? k then level else pci_irq_state d p) ->
  pins_held n d' = pins_held n d +
    (if pci_irq_disabled d then 0 else on_line n d k (level - pci_irq_state d k)).
Proof.
  intros Hk Hb Hf Hd Hs.
  assert (forall p, 0 <= p < 4 -> on_line n d' p (active_pin d' p) =
    on_line n d p (active_pin d p) +
      if pci_irq_disabled d then 0 else if p =? k then on_line n d k (level - pci_irq_state d k) else 0) as Hp.
  { intros p Hp. rewrite (on_line_same n d d') by done. unfold active_pin. rewrite Hd, Hs by done.
    destruct (pci_irq_disabled d); [lia|]. destruct (Z.eqb_spec p k) as [->|]; [|lia].
    rewrite <- on_line_add. f_equal. lia. }
  unfold pins_held, pins. cbn [zsum]. rewrite !Hp by lia.
  destruct (pci_irq_disabled d); [lia|].
  assert (k = 0 \/ k = 1 \/ k = 2 \/ k = 3) as [->|[->|[->| ->]]] by lia; cbn [Z.eqb Pos.eqb]; lia.
Qed.

Lemma wf_frame d d' : dev_wf d -> 0 <= irq_state d' < 2 ^ 4 -> on_bus d' = on_bus d -> devfn d' = devfn d ->
  wmask d' = wmask d -> w1cmask d' = w1cmask d -> length (io_regions d') = length (io_regions d) -> dev_wf d'.
Proof. intros [] Hi Hb Hf Hw Hc Hl. constructor; [done|by rewrite Hb, Hf|by rewrite Hw, Hc|by rewrite Hl]. Qed.

Lemma insert_routing (ds : list PCIDevice) i d d' : ds !! i = Some d ->
  (forall a, PCI_CONFIG_HEADER_SIZE <= a -> rd (config d) a = rd (config d') a) -> same_routing ds (<[i := d']> ds).
Proof.
  intros Hi Hc. apply routing_config. rewrite <- (list_insert_id ds i d Hi) at 1.
  apply Forall2_insert; [|done]. apply Forall_Forall2_diag, Forall_true. done.
Qed.

(** [d'] is [d] with other levels on its pins. *)
Record same_device d d' : Prop := {
  sd_bus : on_bus d' = on_bus d;
  sd_devfn : devfn d' = devfn d;
  sd_wmask : wmask d' = wmask d;
  sd_w1cmask : w1cmask d' = w1cmask d;
  sd_regions : io_regions d' = io_regions d;
  sd_config a : a <> PCI_STATUS -> rd (config d') a = rd (config d) a;
}.
Lemma same_device_refl d : same_device d d.
Proof. done. Qed.
Lemma same_device_trans d d' d'' : same_device d d' -> same_device d' d'' -> same_device d d''.
Proof. intros [] []. constructor; try congruence. intros a Ha. rewrite sd_config1, sd_config0 by done. done. Qed.
Lemma same_device_disabled d d' : same_device d d' -> pci_irq_disabled d' = pci_irq_disabled d.
Proof. intros []. unfold pci_irq_disabled. rewrite !get_word_bytes, !sd_config0 by discriminate. done. Qed.

Definition with_pin (k level : Z) (d : PCIDevice) : PCIDevice := pci_update_irq_status (pci_set_irq_state d k level).
Lemma with_pin_same k level d : same_device d (with_pin k level d).
Proof. destruct (update_status_same (pci_set_irq_state d k level)) as (_ & ? & ? & ? & ? & ? & ?). by constructor. Qed.
Lemma with_pin_state k level d : 0 <= irq_state d < 2 ^ 4 -> 0 <= k < 4 -> level = 0 \/ level = 1 ->
  0 <= irq_state (with_pin k level d) < 2 ^ 4 /\ forall p, 0 <= p < 4 ->
    pci_irq_state (with_pin k level d) p = if p =? k then level else pci_irq_state d p.
Proof.
  intros Hi Hk Hl. unfold pci_irq_state, with_pin.
  rewrite (proj1 (update_status_same _)). by apply pin_bits.
Qed.

(** A device with other pins, mask or command: the change is owed to the lines. *)
Lemma put_owes delta st i d d' : host_ok st -> devices st !! Z.to_nat i = Some d -> dev_wf d' ->
  same_routing (devices st) (<[Z.to_nat i := d']> (devices st)) -> (forall n, -8 <= delta n <= 8) ->
  (forall n, pins_held n d' = pins_held n d + delta n) -> host_owes delta (put_device st i d').
Proof.
  intros [Hdevs Hsmall Hrt _ Hcount Hlines] Hd Hwf Hroute Hdelta Hheld. unfold put_device. constructor; proj_red; try done.
  - by apply Forall_insert.
  - by rewrite length_insert.
  - by apply (routing_ok_same (devices st)).
  - intros n Hn. unfold held. rewrite (zsum_insert _ _ _ d), Hheld by done.
    specialize (Hcount n Hn). unfold held in Hcount. lia.
  - intros n Hn. proj_red. apply (line_shows_same (devices st)); [done|]. by apply Hlines.
Qed.

(** Passing one change on. *)
Lemma change_owed delta delta' st d k ch : host_owes delta st -> dev_wf d -> 0 <= k < 4 -> -1 <= ch <= 1 ->
  (forall n, delta n = delta' n + on_line n d k ch) -> (forall n, -8 <= delta' n <= 8) ->
  exists st', pci_change_irq_level st d k ch = Ok st' /\ host_owes delta' st' /\ devices st' = devices st.
Proof.
  intros [Hdevs Hsmall Hrt Hdelta Hcount Hlines] Hwf Hk Hch Heq Hdelta'.
  destruct (dw_route _ Hwf k Hk) as (n & Hn & Hnr).
  destruct (change_level_ok st d k ch n) as (st' & Hrun & Hds & Hl' & Hc'); [done..| |].
  { specialize (Hcount n Hnr). specialize (Hdelta n). pose proof (held_bounds n (devices st)). lia. }
  exists st'. split; [done|]. split; [|done]. constructor; rewrite ?Hds; try done.
  intros m Hm. specialize (Hcount m Hm). rewrite Hc', <- Hcount, Heq. lia.
Qed.

Lemma pin_range d k : 0 <= pci_irq_state d k <= 1.
Proof.
  unfold pci_irq_state. rewrite Z.land_comm. pose proof (land_range 1 (Z.shiftr (irq_state d) k) 1). lia.
Qed.
Lemma on_line_small n d k v : -1 <= v <= 1 -> -1 <= on_line n d k v <= 1.
Proof. intros Hv. unfold on_line. repeat case_match; lia. Qed.

Lemma irq_handler_ok st i k level d : host_ok st -> 0 <= i -> devices st !! Z.to_nat i = Some d ->
  0 <= k < 4 -> level = 0 \/ level = 1 ->
  exists st' d', pci_irq_handler st i k level = Ok st' /\ host_ok st' /\
    devices st' = <[Z.to_nat i := d']> (devices st) /\ same_device d d' /\
    forall p, 0 <= p < 4 -> pci_irq_state d' p = if p =? k then level else pci_irq_state d p.
Proof.
  intros Hok Hi Hd Hk Hl. unfold pci_irq_handler. rewrite (fetch_ok _ _ _ Hi Hd). cbn [mbind result_mbind result_bind].
  rewrite (proj2 (Z.leb_le 0 k)), (proj2 (Z.ltb_lt k PCI_NUM_PINS)) by (unfold PCI_NUM_PINS; lia).
  assert ((level =? 0) || (level =? 1) = true) as -> by (by destruct Hl as [-> | ->]).
  cbn [andb check mbind result_mbind result_bind].
  destruct (Z.eqb_spec (level - pci_irq_state d k) 0) as [Hz|Hnz].
  { exists st, d. split; [done|]. split; [done|]. split; [by rewrite list_insert_id|]. split; [done|].
    intros p Hp. destruct (Z.eqb_spec p k) as [->|]; [lia|done]. }
  fold (with_pin k level d). set (d' := with_pin k level d).
  pose proof (Forall_lookup_1 _ _ _ _ (ho_devs _ _ Hok) Hd) as Hwf.
  destruct (with_pin_state k level d (dw_irq _ Hwf) Hk Hl) as [Hirq Hpins]. fold d' in Hirq, Hpins.
  pose proof (with_pin_same k level d) as Hsame. fold d' in Hsame. pose proof Hsame as [Hb Hf Hw Hw1 Hrg Hcfg].
  assert (dev_wf d') as Hwf' by (apply (wf_frame d); congruence).
  pose proof (pin_range d k) as Hpk. set (ch := level - pci_irq_state d k) in *.
  pose proof (put_owes (fun n => if pci_irq_disabled d then 0 else on_line n d k ch) st i d d' Hok Hd Hwf') as Hput.
  rewrite (same_device_disabled d d' Hsame).
  assert (host_owes (fun n => if pci_irq_disabled d then 0 else on_line n d k ch) (put_device st i d')) as Howe.
  { apply Hput.
    - apply (insert_routing _ _ d); [done|]. intros a Ha. symmetry. apply Hcfg. unfold PCI_CONFIG_HEADER_SIZE, PCI_STATUS in *. lia.
    - intros n. pose proof (on_line_small n d k ch ltac:(lia)). case_match; lia.
    - intros n. apply pins_held_set; try done. by apply same_device_disabled. }
  destruct (pci_irq_disabled d); [by exists (put_device st i d'), d'|].
  destruct (change_owed _ (fun _ => 0) (put_device st i d') d' k ch Howe Hwf' Hk) as (st' & Hrun & Hok' & Hds);
    [lia|intros n; by rewrite (on_line_same n d d')|lia|]. by exists st', d'.
Qed.

(** All pins released. *)
Lemma pins_zero x : 0 <= x < 2 ^ 4 -> (forall p, 0 <= p < 4 -> Z.land (Z.shiftr x p) 1 = 0) -> x = 0.
Proof.
  intros Hx Hp. apply Z.bits_inj'. intros n Hn. rewrite Z.bits_0.
  destruct (Z.lt_ge_cases n 4); [|by apply (testbit_above x 4)].
  specialize (Hp n ltac:(lia)). fold (bit_of x n) in Hp. rewrite bit_of_testbit in Hp by lia. by destruct (Z.testbit x n).
Qed.
Lemma deassert_ok st i d : host_ok st -> 0 <= i -> devices st !! Z.to_nat i = Some d ->
  exists st' d', pci_device_deassert_intx st i = Ok st' /\ host_ok st' /\
    devices st' = <[Z.to_nat i := d']> (devices st) /\ same_device d d' /\ irq_state d' = 0.
Proof.
  intros Hok Hi Hd. unfold pci_device_deassert_intx.
  destruct (for_loop_inv (fun k s => host_ok s /\ exists d', devices s = <[Z.to_nat i := d']> (devices st) /\
      same_device d d' /\ forall p, 0 <= p < k -> pci_irq_state d' p = 0)
    (fun pin st => pci_irq_handler st i pin 0) (Z.to_nat PCI_NUM_PINS) 0 st) as (st' & Hrun & Hok' & d' & Hds & Hs & Hp).
  - split; [done|]. exists d. split; [by rewrite list_insert_id|]. split; [done|]. intros p Hp. lia.
  - intros k s Hk (Hs & d' & Hds & Hsd & Hz). change (0 + Z.of_nat (Z.to_nat PCI_NUM_PINS)) with 4 in Hk.
    assert (devices s !! Z.to_nat i = Some d') as Hd'.
    { rewrite Hds. apply list_lookup_insert_eq. by apply lookup_lt_Some in Hd. }
    destruct (irq_handler_ok s i k 0 d' Hs Hi Hd' Hk) as (s' & d'' & Hrun & Hok' & Hds' & Hsd' & Hst); [by left|].
    exists s'. split; [done|]. split; [done|]. exists d''. split; [rewrite Hds', Hds; apply list_insert_insert_eq|].
    split; [by apply (same_device_trans d d')|]. intros p Hp. rewrite Hst by lia.
    destruct (Z.eqb_spec p k); [done|]. apply Hz. lia.
  - exists st', d'. split; [done|]. split; [done|]. split; [done|]. split; [done|].
    assert (devices st' !! Z.to_nat i = Some d') as Hd'.
    { rewrite Hds. apply list_lookup_insert_eq. by apply lookup_lt_Some in Hd. }
    apply pins_zero; [apply (dw_irq _ (Forall_lookup_1 _ _ _ _ (ho_devs _ _ Hok') Hd'))|exact Hp].
Qed.

(** The bytes of a write: only the configuration changes, and only where it is written. *)
Lemma config_written_ok addr val l d : dev_wf d -> exists d', config_written addr val l d = Ok d' /\
  dev_wf d' /\ on_bus d' = on_bus d /\ devfn d' = devfn d /\ irq_state d' = irq_state d /\ wmask d' = wmask d /\
  w1cmask d' = w1cmask d /\ io_regions d' = io_regions d /\ enabled d' = enabled d /\
  forall a, a < addr \/ addr + Z.max 0 l <= a -> rd (config d') a = rd (config d) a.
Proof.
  intros Hwf. destruct (for_loop_inv (fun k d' => dev_wf d' /\ on_bus d' = on_bus d /\ devfn d' = devfn d /\
      irq_state d' = irq_state d /\ wmask d' = wmask d /\ w1cmask d' = w1cmask d /\ io_regions d' = io_regions d /\
      enabled d' = enabled d /\ forall a, a < addr \/ addr + k <= a -> rd (config d') a = rd (config d) a)
    (fun k d => config_byte (addr + k) (Z.shiftr val (8 * k)) d) (Z.to_nat l) 0 d) as (d' & Hrun & Hd'); [done| |].
  - intros k d' Hk (Hw & Hb & Hf & Hi & H1 & H2 & H3 & H4 & Hc). unfold config_byte.
    rewrite (dw_masks _ Hw). cbn [negb check mbind result_mbind result_bind]. eexists. split; [reflexivity|].
    proj_red. split; [by apply (wf_frame d'); proj_red; [| apply Hw| | | | |]|]. repeat (split; [done|]).
    intros a Ha. rewrite rd_wr_ne by lia. apply Hc. lia.
  - exists d'. split; [exact Hrun|]. replace (Z.max 0 l) with (0 + Z.of_nat (Z.to_nat l)) by lia. exact Hd'.
Qed.

(** What a change of the disable bit still owes from pin [k] on. *)
Definition disable_change (d : PCIDevice) (pin : Z) : Z :=
  if pci_irq_disabled d then - pci_irq_state d pin else pci_irq_state d pin.
Definition owed_from (k n : Z) (d : PCIDevice) : Z :=
  zsum (fun p => if k <=? p then on_line n d p (disable_change d p) else 0) pins.

Lemma disable_change_small d k : -1 <= disable_change d k <= 1.
Proof. unfold disable_change. pose proof (pin_range d k). case_match; lia. Qed.
Lemma owed_bounds k n d : -8 <= owed_from k n d <= 8.
Proof.
  unfold owed_from, pins. cbn [zsum].
  assert (forall p, -1 <= (if k <=? p then on_line n d p (disable_change d p) else 0) <= 1) as H.
  { intros p. case_match; [apply on_line_small, disable_change_small|lia]. }
  pose proof (H 0). pose proof (H 1). pose proof (H 2). pose proof (H 3). lia.
Qed.
Lemma owed_step k n d : 0 <= k < 4 -> owed_from k n d = owed_from (k + 1) n d + on_line n d k (disable_change d k).
Proof.
  intros Hk. unfold owed_from, pins. cbn [zsum].
  assert (k = 0 \/ k = 1 \/ k = 2 \/ k = 3) as [->|[->|[->| ->]]] by lia;
    repeat match goal with |- context [?a <=? ?b] => let v := eval vm_compute in (a <=? b) in change (a <=? b) with v end;
    cbn iota; lia.
Qed.
Lemma owed_none n d : owed_from 4 n d = 0.
Proof. reflexivity. Qed.

Lemma pins_held_disable n d d' : on_bus d' = on_bus d -> devfn d' = devfn d -> irq_state d' = irq_state d ->
  pins_held n d' = pins_held n d + if eqb (pci_irq_disabled d') (pci_irq_disabled d) then 0 else owed_from 0 n d'.
Proof.
  intros Hb Hf Hi. unfold pins_held, owed_from, pins. cbn [zsum]. cbn [Z.leb Z.compare].
  unfold active_pin, disable_change, pci_irq_state. rewrite Hi, !(on_line_same n d d') by done.
  assert (forall p, on_line n d p 0 = 0) as H0 by (intros p; unfold on_line; repeat case_match; lia).
  assert (forall p v, on_line n d p (- v) = - on_line n d p v) as Hm by (intros p v; unfold on_line; repeat case_match; lia).
  destruct (pci_irq_disabled d'), (pci_irq_disabled d); cbn [eqb]; rewrite ?H0, ?Hm; lia.
Qed.

Lemma update_disabled_ok st i d was : 0 <= i -> devices st !! Z.to_nat i = Some d -> dev_wf d ->
  host_owes (fun n => if eqb (pci_irq_disabled d) was then 0 else owed_from 0 n d) st ->
  exists st', pci_update_irq_disabled st i was = Ok st' /\ host_ok st' /\ devices st' = devices st.
Proof.
  intros Hi Hd Hwf Howe. unfold pci_update_irq_disabled. rewrite (fetch_ok _ _ _ Hi Hd).
  cbn [mbind result_mbind result_bind]. destruct (eqb _ _); [by exists st|].
  destruct (for_loop_inv (fun k s => host_owes (fun n => owed_from k n d) s /\ devices s = devices st)
    (fun pin st => pci_change_irq_level st d pin
       (if pci_irq_disabled d then - pci_irq_state d pin else pci_irq_state d pin)) (Z.to_nat PCI_NUM_PINS) 0 st)
    as (st' & Hrun & Hok & Hds); [done| |].
  - intros k s Hk [Hs Hds]. change (0 + Z.of_nat (Z.to_nat PCI_NUM_PINS)) with 4 in Hk.
    destruct (change_owed _ (fun n => owed_from (k + 1) n d) s d k (disable_change d k) Hs Hwf Hk) as (s' & Hr & Hok & Hds').
    + apply disable_change_small.
    + intros n. by apply owed_step.
    + intros n. apply owed_bounds.
    + exists s'. split; [exact Hr|]. split; [done|congruence].
  - exists st'. split; [exact Hrun|]. split; [|done]. by apply (host_owes_ext (fun n => owed_from 4 n d)).
Qed.

(** A device that differs in nothing that the pins depend on. *)
Lemma put_ok st i d d' : host_ok st -> devices st !! Z.to_nat i = Some d -> dev_wf d' ->
  same_routing (devices st) (<[Z.to_nat i := d']> (devices st)) -> (forall n, pins_held n d' = pins_held n d) ->
  host_ok (put_device st i d').
Proof. intros Hok Hd Hwf Hr Hp. apply (put_owes _ st i d); try done. intros n. rewrite Hp. lia. Qed.

Lemma not_in_command addr l : 0 <= addr -> 1 <= l -> addr + l <= 256 -> ranges_overlap addr l PCI_COMMAND 2 = false ->
  addr + l <= 4 \/ 6 <= addr.
Proof.
  intros Ha Hl Hb. unfold ranges_overlap, PCI_COMMAND. rewrite negb_false_iff, orb_true_iff, !Z.ltb_lt.
  unfold u64. rewrite !Z.mod_small by lia. lia.
Qed.

Lemma lookup_put st i d d' : devices st !! Z.to_nat i = Some d -> devices (put_device st i d') !! Z.to_nat i = Some d'.
Proof. intros Hd. unfold put_device. proj_red. apply list_lookup_insert_eq. by apply lookup_lt_Some in Hd. Qed.

Lemma write_config_ok st i addr val l d : host_ok st -> 0 <= i -> devices st !! Z.to_nat i = Some d ->
  0 <= addr -> 1 <= l -> addr + l <= PCI_CONFIG_SPACE_SIZE ->
  (forall d', config_written addr val l d = Ok d' ->
     same_routing (devices st) (<[Z.to_nat i := d']> (devices st))) ->
  exists st' d' d'', pci_default_write_config st i addr val l = Ok st' /\ host_ok st' /\
    config_written addr val l d = Ok d' /\ devices st' = <[Z.to_nat i := d'']> (devices st) /\
    on_bus d'' = on_bus d /\ devfn d'' = devfn d /\ irq_state d'' = irq_state d /\ config d'' = config d'.
Proof.
  intros Hok Hi Hd Ha Hl Hb Hroute. unfold PCI_CONFIG_SPACE_SIZE in Hb. unfold pci_default_write_config.
  rewrite (fetch_ok _ _ _ Hi Hd). cbn [mbind result_mbind result_bind].
  rewrite u32_id by (unfold is_u32; lia). rewrite (proj2 (Z.leb_le (addr + l) PCI_CONFIG_SPACE_SIZE)) by done.
  cbn [check mbind result_mbind result_bind].
  pose proof (Forall_lookup_1 _ _ _ _ (ho_devs _ _ Hok) Hd) as Hwf.
  destruct (config_written_ok addr val l d Hwf) as (d' & Hw & Hwf' & Hbus & Hfn & Hirq & Hm & Hm1 & _ & _ & Hcfg).
  specialize (Hroute d' Hw). rewrite Hw. cbn [mbind result_mbind result_bind].
  set (d1 := if _ || _ then pci_update_mappings d' else d').
  assert (dev_wf d1 /\ on_bus d1 = on_bus d /\ devfn d1 = devfn d /\ irq_state d1 = irq_state d /\ config d1 = config d')
    as (Hwf1 & Hb1 & Hf1 & Hi1 & Hc1).
  { subst d1. destruct (_ || _); [|done]. unfold pci_update_mappings. split; [|done].
    apply (wf_frame d'); proj_red; try done; [apply Hwf'|apply length_imap]. }
  assert (same_routing (devices st) (<[Z.to_nat i := d1]> (devices st))) as Hr1.
  { transitivity (<[Z.to_nat i := d']> (devices st)); [done|].
    rewrite <- (list_insert_insert_eq (devices st) (Z.to_nat i) d1 d').
    apply (insert_routing _ _ d'); [apply list_lookup_insert_eq; by apply lookup_lt_Some in Hd|]. by rewrite Hc1. }
  clearbody d1. destruct (ranges_overlap addr l PCI_COMMAND 2) eqn:Hov.
  - destruct (update_disabled_ok (put_device st i d1) i d1 (pci_irq_disabled d) Hi) as (st' & -> & Hok' & Hds).
    + by apply (lookup_put _ _ d).
    + done.
    + apply (put_owes _ st i d); try done; [intros n; case_match; [lia|apply owed_bounds]|].
      intros n. by apply pins_held_disable.
    + assert (devices st' !! Z.to_nat i = Some d1) as Hd1 by (rewrite Hds; by apply (lookup_put _ _ d)).
      cbn [mbind result_mbind result_bind]. rewrite (fetch_ok _ _ _ Hi Hd1). cbn [mbind result_mbind result_bind].
      set (d2 := d1 <| is_master := _ |>). exists (put_device st' i d2), d', d2. split; [done|]. split.
      * apply (put_ok st' i d1); try done; [by apply (wf_frame d1); try done; apply Hwf1|]. by apply (insert_routing _ _ d1).
      * split; [done|]. unfold put_device at 1. proj_red. rewrite Hds. unfold put_device. proj_red.
        by rewrite list_insert_insert_eq.
  - pose proof (not_in_command addr l Ha Hl Hb Hov) as Hout.
    exists (put_device st i d1), d', d1. split; [done|]. split; [|done]. apply (put_ok st i d); try done.
    intros n. rewrite (pins_held_disable n d d1) by done.
    assert (pci_irq_disabled d1 = pci_irq_disabled d) as ->; [|rewrite eqb_reflx; lia].
    unfold pci_irq_disabled, PCI_COMMAND. rewrite Hc1, !get_word_bytes, !Hcfg by lia. done.
Qed.

(** A reset changes the header of the configuration space only. *)
Definition header_only d d' : Prop := on_bus d' = on_bus d /\ devfn d' = devfn d /\ wmask d' = wmask d /\
  w1cmask d' = w1cmask d /\ irq_state d' = irq_state d /\ length (io_regions d') = length (io_regions d) /\
  forall a, PCI_CONFIG_HEADER_SIZE <= a -> rd (config d') a = rd (config d) a.
Lemma header_trans d d' d'' : header_only d d' -> header_only d' d'' -> header_only d d''.
Proof.
  intros (? & ? & ? & ? & ? & ? & Hc) (? & ? & ? & ? & ? & ? & Hc'). repeat (split; [congruence|]).
  intros a Ha. by rewrite Hc', Hc.
Qed.
Lemma header_config d f : (forall c a, PCI_CONFIG_HEADER_SIZE <= a -> rd (f c) a = rd c a) ->
  header_only d (d <| config ::= f |>).
Proof. intros Hf. repeat (split; [done|]). intros a Ha. by apply Hf. Qed.
Lemma store_below c a n v x : a + Z.of_nat n <= x -> rd (store_bytes c a (le_bytes n v)) x = rd c x.
Proof.
  intros Hx. rewrite rd_store_bytes, length_le_bytes.
  destruct (Z.leb_spec a x); [|done]. by rewrite (proj2 (Z.ltb_ge x (a + Z.of_nat n))).
Qed.
Lemma reset_regions_header d : Z.of_nat (length (io_regions d)) <= PCI_NUM_REGIONS -> header_only d (pci_reset_regions d).
Proof.
  intros Hl. unfold pci_reset_regions.
  assert (Forall (fun ir : Z * PCIIORegion => 0 <= fst ir < 7) (imap (fun i r => (Z.of_nat i, r)) (io_regions d))) as Hall.
  { apply Forall_lookup_2. intros k [i r] Hk. rewrite list_lookup_imap in Hk.
    destruct (io_regions d !! k) eqn:Hlk; simplify_eq/=. apply lookup_lt_Some in Hlk. unfold PCI_NUM_REGIONS in Hl. lia. }
  revert Hall. generalize (imap (fun i r => (Z.of_nat i, r)) (io_regions d)). intros irs. revert d Hl.
  induction irs as [|[i r] irs IH]; intros d Hl Hall; cbn [foldl]; [done|].
  apply Forall_cons_1 in Hall as [Hi Hall]. cbn [fst] in Hi.
  assert (0 <= pci_bar d i <= 0x38) as Hbar.
  { unfold pci_bar, PCI_ROM_SLOT, PCI_BASE_ADDRESS_0. destruct (Z.eqb_spec i 6); cbn [negb]; [|lia]. by case_match. }
  match goal with |- header_only d (foldl _ ?x _) => assert (header_only d x) as Hx end.
  { destruct (region_size r =? 0); [done|]. destruct (_ && _); apply header_config; intros c a Ha; unfold PCI_CONFIG_HEADER_SIZE in Ha.
    - apply (store_below c _ 8). lia.
    - apply (store_below c _ 4). lia. }
  eapply header_trans; [exact Hx|]. apply IH; [|done]. destruct Hx as (_ & _ & _ & _ & _ & -> & _). done.
Qed.

Lemma pins_held_quiet n d : irq_state d = 0 -> pins_held n d = 0.
Proof.
  intros Hi. apply zsum_zero. intros p _. unfold on_line, active_pin, pci_irq_state. rewrite Hi, Z.shiftr_0_l.
  repeat case_match; done.
Qed.

Lemma device_reset_ok st i d : host_ok st -> 0 <= i -> devices st !! Z.to_nat i = Some d ->
  exists st' d', pci_do_device_reset st i = Ok st' /\ host_ok st' /\
    devices st' = <[Z.to_nat i := d']> (devices st) /\ irq_state d' = 0 /\ on_bus d' = on_bus d /\
    forall a, PCI_CONFIG_HEADER_SIZE <= a -> rd (config d') a = rd (config d) a.
Proof.
  intros Hok Hi Hd. unfold pci_do_device_reset.
  destruct (deassert_ok st i d Hok Hi Hd) as (s1 & d1 & -> & Hok1 & Hds & [Sb Sf Sw Sw1 Sr Sc] & Hq).
  assert (devices s1 !! Z.to_nat i = Some d1) as Hd1.
  { rewrite Hds. apply list_lookup_insert_eq. by apply lookup_lt_Some in Hd. }
  pose proof (Forall_lookup_1 _ _ _ _ (ho_devs _ _ Hok1) Hd1) as Hwf.
  cbn [mbind result_mbind result_bind]. rewrite (fetch_ok _ _ _ Hi Hd1). cbn [mbind result_mbind result_bind].
  rewrite Hq, Z.eqb_refl. cbn [check mbind result_mbind result_bind].
  match goal with |- context [pci_reset_regions ?x] => assert (header_only d1 x) as Hx; [|set (dx := x) in *] end.
  { repeat (eapply header_trans; [|apply header_config]); [by repeat split|..]; intros c a Ha;
      unfold PCI_CONFIG_HEADER_SIZE in Ha; unfold pci_word_test_and_clear_mask, pci_byte_test_and_clear_mask, pci_set_word.
    - apply (store_below c 4 2). lia.
    - apply (store_below c 6 2). lia.
    - apply rd_wr_ne. unfold PCI_INTERRUPT_LINE. lia.
    - apply rd_wr_ne. unfold PCI_CACHE_LINE_SIZE. lia. }
  clearbody dx.
  assert (header_only d1 (pci_update_mappings (pci_reset_regions dx))) as Hh.
  { eapply header_trans; [exact Hx|]. eapply header_trans; [apply reset_regions_header|].
    - destruct Hx as (_ & _ & _ & _ & _ & -> & _). apply Hwf.
    - unfold pci_update_mappings. repeat (split; [done|]). split; [apply length_imap|done]. }
  set (d2 := pci_update_mappings _) in *. clearbody d2. destruct Hh as (Hb & Hf & Hw & Hw1 & Hirq & Hlen & Hc).
  exists (put_device s1 i d2), d2. split; [done|]. split.
  - apply (put_ok s1 i d1); try done.
    + apply (wf_frame d1); try done. by rewrite Hirq, Hq.
    + apply (insert_routing _ _ d1); [done|]. intros a Ha. by rewrite Hc.
    + intros n. rewrite !pins_held_quiet by congruence. done.
  - split; [unfold put_device; proj_red; rewrite Hds; apply list_insert_insert_eq|]. split; [congruence|].
    split; [congruence|]. intros a Ha. rewrite Hc, Sc by (try done; unfold PCI_CONFIG_HEADER_SIZE, PCI_STATUS in *; lia). done.
Qed.

(** The reset of the root bus: when all pins of devices elsewhere are released, the
    assertion at its end holds. *)
Lemma resets_ok ids : forall st, host_ok st -> Forall (fun i => 0 <= i < Z.of_nat (length (devices st))) ids ->
  exists st', foldl (fun r i => st ← r; pci_do_device_reset st i) (Ok st) ids = Ok st' /\ host_ok st' /\
    length (devices st') = length (devices st) /\
    forall k d, devices st' !! k = Some d ->
      (Z.of_nat k ∈ ids -> irq_state d = 0) /\ (Z.of_nat k ∉ ids -> devices st !! k = Some d).
Proof.
  induction ids as [|i ids IH]; intros st Hok Hids; cbn [foldl].
  - exists st. repeat (split; [done|]). intros k d Hd. split; [by intros []%elem_of_nil|done].
  - apply Forall_cons_1 in Hids as [Hi Hids].
    destruct (lookup_lt_is_Some_2 (devices st) (Z.to_nat i)) as [d0 Hd0]; [lia|].
    cbn [mbind result_mbind result_bind].
    destruct (device_reset_ok st i d0 Hok ltac:(lia) Hd0) as (s1 & d1 & -> & Hok1 & Hds & Hq & _).
    destruct (IH s1 Hok1) as (st' & Hrun & Hok' & Hlen & Hall).
    { by rewrite Hds, length_insert. }
    exists st'. split; [exact Hrun|]. split; [done|]. split; [by rewrite Hlen, Hds, length_insert|].
    intros k d Hk. destruct (Hall k d Hk) as [Hin Hout]. rewrite elem_of_cons. rewrite Hds in Hout.
    assert (Z.to_nat i < length (devices st))%nat as Hlt by (by apply lookup_lt_Some in Hd0). split.
    + intros [Hki|Hk']; [|by apply Hin]. destruct (decide (Z.of_nat k ∈ ids)) as [H|H]; [by apply Hin|].
      apply Hout in H. replace (Z.to_nat i) with k in * by lia. rewrite list_lookup_insert_eq in H by done. by simplify_eq.
    + intros [Hki Hk']%Decidable.not_or. apply Hout in Hk'. by rewrite list_lookup_insert_ne in Hk' by lia.
Qed.
Lemma bus_reset_ok st ids : host_ok st -> Forall (fun i => 0 <= i < Z.of_nat (length (devices st))) ids ->
  (forall k d, devices st !! k = Some d -> Z.of_nat k ∉ ids -> irq_state d = 0) ->
  exists st', pcibus_reset_hold st nirq ids = Ok st' /\ host_ok st' /\ length (devices st') = length (devices st) /\
    forall n, 0 <= n < nirq -> rd (irq_count st') n = 0.
Proof.
  intros Hok Hids Hq. destruct (resets_ok ids st Hok Hids) as (st' & Hrun & Hok' & Hlen & Hall).
  assert (forall n, 0 <= n < nirq -> rd (irq_count st') n = 0) as Hz.
  { intros n Hn. pose proof (ho_count _ _ Hok' n Hn) as Hc. rewrite Z.add_0_r in Hc. rewrite Hc. apply zsum_zero.
    intros d [k Hk]%list_elem_of_lookup. apply pins_held_quiet. destruct (Hall k d Hk) as [Hin Hout].
    destruct (decide (Z.of_nat k ∈ ids)); [by apply Hin|]. apply (Hq k); [by apply Hout|done]. }
  exists st'. split; [|done]. unfold pcibus_reset_hold. rewrite Hrun. cbn [mbind result_mbind result_bind].
  destruct (for_loop_inv (fun _ _ => True) (fun i (_ : unit) => check (rd (irq_count st') i =? 0) "bus->irq_count[i] == 0")
    (Z.to_nat nirq) 0 tt) as ([] & -> & _); [done| |done].
  intros n [] Hn _. exists tt. rewrite Hz by lia. done.
Qed.

(** ** Sequences of operations *)

Inductive pci_op :=
| PinLevel (i pin level : Z)
| ConfigWrite (i addr val l : Z)
| DeviceReset (i : Z).
Definition pci_do (op : pci_op) st : result (PCIHost E) :=
  match op with
  | PinLevel i pin level => pci_irq_handler st i pin level
  | ConfigWrite i addr val l => pci_default_write_config st i addr val l
  | DeviceReset i => pci_do_device_reset st i
  end.

Definition op_valid (ds : list PCIDevice) (op : pci_op) : Prop :=
  match op with
  | PinLevel i pin level => 0 <= i < Z.of_nat (length ds) /\ 0 <= pin < 4 /\ (level = 0 \/ level = 1)
  | ConfigWrite i addr val l => 0 <= i < Z.of_nat (length ds) /\ 0 <= addr /\ 1 <= l /\ addr + l <= PCI_CONFIG_SPACE_SIZE
  | DeviceReset i => 0 <= i < Z.of_nat (length ds)
  end.
(** The configuration that routes the lines stays. *)
Definition op_routes (ds : list PCIDevice) (op : pci_op) : Prop :=
  match op with
  | ConfigWrite i addr val l => forall d d', ds !! Z.to_nat i = Some d -> config_written addr val l d = Ok d' ->
      same_routing ds (<[Z.to_nat i := d']> ds)
  | _ => True
  end.

Lemma pci_do_ok op st : host_ok st -> op_valid (devices st) op -> op_routes (devices st) op ->
  exists st', pci_do op st = Ok st' /\ host_ok st' /\ same_routing (devices st) (devices st') /\
    length (devices st') = length (devices st).
Proof.
  intros Hok Hv Hr. destruct op as [i pin level|i addr val l|i]; cbn [op_valid pci_do op_routes] in *.
  - destruct Hv as (Hi & Hp & Hl). destruct (lookup_lt_is_Some_2 (devices st) (Z.to_nat i)) as [d Hd]; [lia|].
    destruct (irq_handler_ok st i pin level d Hok ltac:(lia) Hd Hp Hl) as (st' & d' & -> & Hok' & Hds & Hs & _).
    exists st'. rewrite Hds, length_insert. repeat (split; [done|]). split; [|done]. apply (insert_routing _ _ d); [done|].
    intros a Ha. symmetry. apply Hs. unfold PCI_CONFIG_HEADER_SIZE, PCI_STATUS in *. lia.
  - destruct Hv as (Hi & Ha & Hl & Hb). destruct (lookup_lt_is_Some_2 (devices st) (Z.to_nat i)) as [d Hd]; [lia|].
    destruct (write_config_ok st i addr val l d Hok ltac:(lia) Hd Ha Hl Hb) as (st' & d' & d'' & -> & Hok' & Hw & Hds & _ & _ & _ & Hc).
    { intros d' Hd'. by apply (Hr d d'). }
    exists st'. rewrite Hds, length_insert. repeat (split; [done|]). split; [|done].
    transitivity (<[Z.to_nat i := d']> (devices st)); [by apply (Hr d d')|].
    rewrite <- (list_insert_insert_eq (devices st) (Z.to_nat i) d'' d').
    apply (insert_routing _ _ d'); [apply list_lookup_insert_eq; lia|]. by rewrite Hc.
  - destruct (lookup_lt_is_Some_2 (devices st) (Z.to_nat i)) as [d Hd]; [lia|].
    destruct (device_reset_ok st i d Hok ltac:(lia) Hd) as (st' & d' & -> & Hok' & Hds & _ & _ & Hc).
    exists st'. rewrite Hds, length_insert. repeat (split; [done|]). split; [|done]. apply (insert_routing _ _ d); [done|].
    intros a Ha. by rewrite Hc.
Qed.
End Exact.

(** ** What the root bus keeps, the devices keep *)

Section Keeps.
Context {E : Type} `{!PciRoot E} (I : E -> Prop).
Hypothesis set_irq_keeps : forall ds n b e e', set_irq ds n b e = Ok e' -> I e -> I e'.
Implicit Types st : PCIHost E.

Definition keeps (c : result (PCIHost E)) : Prop := safe (fun _ => True) (fun st => I (chipset st)) c.

Lemma keeps_bind {A} (c : result A) k : (forall a, keeps (k a)) -> keeps (a ← c; k a).
Proof. intros Hk. by apply safe_skip. Qed.
Lemma keeps_then (c : result (PCIHost E)) k : keeps c -> (forall st, I (chipset st) -> keeps (k st)) -> keeps (st ← c; k st).
Proof. intros Hc Hk. by apply (safe_bind _ (fun st => I (chipset st))). Qed.
Lemma keeps_loop n body : (forall j st, I (chipset st) -> keeps (body j st)) ->
  forall i st, I (chipset st) -> keeps (for_loop n i body st).
Proof.
  intros Hb. induction n as [|n IH]; intros i st Hi; cbn [for_loop]; [done|]. apply keeps_then; [by apply Hb|]. intros s Hs. by apply IH.
Qed.

Lemma change_level_keeps st d k ch : I (chipset st) -> keeps (pci_change_irq_level st d k ch).
Proof.
  intros Hi. unfold pci_change_irq_level, pci_bus_change_irq_level. apply keeps_bind. intros n.
  apply keeps_bind. intros _. apply keeps_bind. intros _. unfold keeps.
  apply (safe_bind _ I); [|done]. destruct (set_irq _ _ _ _) eqn:Hs; [|done]. by apply set_irq_keeps in Hs.
Qed.
Lemma handler_keeps st i k level : I (chipset st) -> keeps (pci_irq_handler st i k level).
Proof.
  intros Hi. unfold pci_irq_handler. apply keeps_bind. intros d. do 2 (apply keeps_bind; intros _).
  repeat case_match; try done. by apply change_level_keeps.
Qed.
Lemma write_config_keeps st i addr val l : I (chipset st) -> keeps (pci_default_write_config st i addr val l).
Proof.
  intros Hi. unfold pci_default_write_config. apply keeps_bind. intros d. apply keeps_bind. intros _.
  apply keeps_bind. intros d'. destruct (ranges_overlap addr l PCI_COMMAND 2); [|done].
  apply keeps_then; [|by intros s Hs; apply keeps_bind].
  unfold pci_update_irq_disabled. apply keeps_bind. intros d''. case_match; [done|].
  apply keeps_loop; [|done]. intros j s Hs. by apply change_level_keeps.
Qed.
Lemma reset_keeps st i : I (chipset st) -> keeps (pci_do_device_reset st i).
Proof.
  intros Hi. unfold pci_do_device_reset. apply keeps_then.
  - apply keeps_loop; [|done]. intros j s Hs. by apply handler_keeps.
  - intros s Hs. apply keeps_bind. intros d. by apply keeps_bind.
Qed.
Lemma pci_do_keeps op st st' : pci_do op st = Ok st' -> I (chipset st) -> I (chipset st').
Proof.
  intros Hdo Hi. assert (keeps (pci_do op st)) as Hk; [|by rewrite Hdo in Hk].
  destruct op; [by apply handler_keeps|by apply write_config_keeps|by apply reset_keeps].
Qed.
End Keeps.

(** A device as it is created: the masks of [pci_init_wmask] and [pci_init_w1cmask], and
    interrupt pin A. *)
Definition new_device (fn : Z) (b : PCIBus) : PCIDevice :=
  mkPCIDevice fn b true (wr PCI_INTERRUPT_PIN 1 ∅) (pci_init_wmask ∅) (pci_init_w1cmask ∅)
    (replicate (Z.to_nat PCI_NUM_REGIONS) (mkRegion 0 0 0)) false 0.

Lemma new_masks a : has (rd (pci_init_wmask ∅) a) (rd (pci_init_w1cmask ∅) a) = false.
Proof.
  unfold pci_init_w1cmask, pci_set_word. rewrite rd_store_bytes.
  change (Z.of_nat (length (le_bytes 2 _))) with 2.
  destruct (_ && _) eqn:Ha; [|rewrite rd_empty; unfold has; by rewrite Z.land_0_r].
  assert (a = 6 \/ a = 7) as [-> | ->] by (unfold PCI_STATUS in Ha; lia); vm_compute; reflexivity.
Qed.
Lemma new_device_wf {E} `{!PciRoot E} fn b c :
  Forall (fun pin => match pci_route_pin b (PCI_SLOT fn) pin with Ok n => 0 <= n < nirq | Fault _ => False end) pins ->
  dev_wf (new_device fn b <| config := c |>).
Proof.
  intros Hr. constructor; proj_red; [done| |apply new_masks|done].
  intros pin Hp. assert (pin ∈ pins) as Hin by (unfold pins; rewrite !elem_of_cons; lia).
  rewrite Forall_forall in Hr. specialize (Hr pin Hin). cbn beta in Hr.
  change (on_bus (new_device fn b)) with b. change (devfn (new_device fn b)) with fn.
  destruct (pci_route_pin b (PCI_SLOT fn) pin) as [n|]; [by exists n|done].
Qed.
Lemma quiet_host_ok {E} `{!PciRoot E, !PciRootLaws E} (st : PCIHost E) : Forall dev_wf (devices st) ->
  Z.of_nat (length (devices st)) < 2 ^ 20 -> routing_ok (devices st) -> Forall (fun d => irq_state d = 0) (devices st) ->
  irq_count st = ∅ -> (forall n, 0 <= n < nirq -> line_shows (devices st) (chipset st) n 0) -> host_ok st.
Proof.
  intros Hwf Hlen Hr Hq Hc Hl. constructor; try done.
  - intros n Hn. rewrite Hc, rd_empty. symmetry. apply zsum_zero. intros d Hd. apply pins_held_quiet.
    rewrite Forall_forall in Hq. by apply Hq.
  - intros n Hn. rewrite Hc, rd_empty. by apply Hl.
Qed.

(** ** Mapped regions *)

Lemma ldiff_low x k : 0 <= k -> Z.ldiff x (2 ^ k - 1) = x / 2 ^ k * 2 ^ k.
Proof.
  intros Hk. replace (2 ^ k - 1) with (Z.ones k) by (rewrite Z.ones_equiv; lia).
  by rewrite Z.ldiff_ones_r, Z.shiftr_div_pow2, Z.shiftl_mul_pow2.
Qed.

(** An I/O region of a power of two size is where the guest put its base address. *)
Lemma io_bar_address d reg k base : 1 <= k <= 16 -> reg <> PCI_ROM_SLOT ->
  has (pci_get_word (config d) PCI_COMMAND) PCI_COMMAND_IO = true ->
  pci_get_long (config d) (pci_bar d reg) = base + PCI_BASE_ADDRESS_SPACE_IO ->
  base mod 2 ^ k = 0 -> 0 < base -> base + 2 ^ k < 2 ^ 32 ->
  pci_bar_address d reg PCI_BASE_ADDRESS_SPACE_IO (2 ^ k) = base.
Proof.
  intros Hk Hreg Hio Hbar Hal Hpos Hend. unfold pci_bar_address, pci_config_get_bar_addr.
  change (has PCI_BASE_ADDRESS_SPACE_IO PCI_BASE_ADDRESS_SPACE_IO) with true.
  change (has PCI_BASE_ADDRESS_SPACE_IO PCI_BASE_ADDRESS_MEM_TYPE_64) with false.
  rewrite Hio, Hbar, (proj2 (Z.eqb_neq _ _) Hreg). cbn [negb].
  assert (2 <= 2 ^ k) by (apply (Z.pow_le_mono_r 2 1 k); lia).
  rewrite (u64_id (2 ^ k - 1)) by (unfold is_u64; lia). rewrite ldiff_low by lia.
  assert ((base + PCI_BASE_ADDRESS_SPACE_IO) / 2 ^ k * 2 ^ k = base) as ->.
  { pose proof (Z.div_mod base (2 ^ k) ltac:(lia)). unfold PCI_BASE_ADDRESS_SPACE_IO.
    replace (base + 1) with (1 + base / 2 ^ k * 2 ^ k) by lia. rewrite Z.div_add, Z.div_small by lia. lia. }
  rewrite u64_id by (unfold is_u64; lia).
  by rewrite (proj2 (Z.leb_gt _ base)), (proj2 (Z.leb_gt (2 ^ 32 - 1) _)), (proj2 (Z.eqb_neq base 0)) by lia.
Qed.
