(* ===== verification/Acpi.v ===== *)
(** * ACPI registers
    (src/xemu/hw/acpi/core.c, include/hw/acpi/acpi.h)

    The fixed hardware of power management: the event registers with the power button
    and the timer, the control register with the sleep commands, the free running timer
    and the general purpose events.  [now] is the virtual clock in nanoseconds.  Requests
    to the rest of the emulator are a list; the level of the system control interrupt
    that a function drives is part of its result. *)

From S2P Require Import Prelude.

Definition PM_TIMER_FREQUENCY : Z := 3375000.
Definition NANOSECONDS_PER_SECOND : Z := 1000000000.
Definition ACPI_BITMASK_TIMER_STATUS : Z := 0x0001.
Definition ACPI_BITMASK_POWER_BUTTON_STATUS : Z := 0x0100.
Definition ACPI_BITMASK_RT_CLOCK_STATUS : Z := 0x0400.
Definition ACPI_BITMASK_WAKE_STATUS : Z := 0x8000.
Definition ACPI_BITMASK_TIMER_ENABLE : Z := 0x0001.
Definition ACPI_BITMASK_GLOBAL_LOCK_ENABLE : Z := 0x0020.
Definition ACPI_BITMASK_POWER_BUTTON_ENABLE : Z := 0x0100.
Definition ACPI_BITMASK_RT_CLOCK_ENABLE : Z := 0x0400.
Definition ACPI_BITMASK_SCI_ENABLE : Z := 0x0001.
Definition ACPI_BITMASK_SLEEP_ENABLE : Z := 0x2000.
Definition ACPI_BITMASK_PM1_COMMON_ENABLED : Z :=
  Z.lor ACPI_BITMASK_RT_CLOCK_ENABLE (Z.lor ACPI_BITMASK_POWER_BUTTON_ENABLE
    (Z.lor ACPI_BITMASK_GLOBAL_LOCK_ENABLE ACPI_BITMASK_TIMER_ENABLE)).

Inductive WakeupReason :=
| QEMU_WAKEUP_REASON_RTC
| QEMU_WAKEUP_REASON_PMTIMER
| QEMU_WAKEUP_REASON_OTHER.

(** What the registers ask of the emulator. *)
Inductive acpi_request :=
| WakeupEnable (reason : WakeupReason) (on : bool)
| WakeupRequest (reason : WakeupReason)
| ShutdownRequest
| SuspendRequest
| SuspendDisk.

(** [tmr_timer] is the time the timer expires, if it is armed. *)
Record ACPIREGS := mkACPI {
  tmr_timer : option Z;
  overflow_time : Z;
  evt_sts : Z;
  evt_en : Z;
  cnt : Z;
  s4_val : Z;
  acpi_only : bool;
  gpe_len : Z;
  gpe_sts : list Z;
  gpe_en : list Z;
  acpi_requests : list acpi_request;
}.
#[export] Instance ACPIREGS_settable : Settable ACPIREGS :=
  settable! mkACPI < tmr_timer ; overflow_time ; evt_sts ; evt_en ; cnt ; s4_val ; acpi_only ; gpe_len ;
    gpe_sts ; gpe_en ; acpi_requests >.
Implicit Types ar : ACPIREGS.

Definition acpi_ask (r : acpi_request) ar : ACPIREGS := ar <| acpi_requests ::= cons r |>.

(** [muldiv64], for a divisor that is not 0. *)
Definition muldiv64_const (a b c : Z) : Z := u64 (u64 a * u32 b / u32 c).

Definition acpi_notify_wakeup (reason : WakeupReason) ar : ACPIREGS :=
  match reason with
  | QEMU_WAKEUP_REASON_RTC =>
      ar <| evt_sts ::= fun s => Z.lor s (Z.lor ACPI_BITMASK_WAKE_STATUS ACPI_BITMASK_RT_CLOCK_STATUS) |>
  | QEMU_WAKEUP_REASON_PMTIMER =>
      ar <| evt_sts ::= fun s => Z.lor s (Z.lor ACPI_BITMASK_WAKE_STATUS ACPI_BITMASK_TIMER_STATUS) |>
  | QEMU_WAKEUP_REASON_OTHER =>
      ar <| evt_sts ::= fun s => Z.lor s (Z.lor ACPI_BITMASK_WAKE_STATUS ACPI_BITMASK_POWER_BUTTON_STATUS) |>
  end.

(** ** The timer *)

Definition acpi_pm_tmr_get_clock (now : Z) : Z := muldiv64_const now PM_TIMER_FREQUENCY NANOSECONDS_PER_SECOND.
Definition overflow_ns ar : Z := muldiv64_const (overflow_time ar) NANOSECONDS_PER_SECOND PM_TIMER_FREQUENCY.

Definition acpi_pm_tmr_update (enable : bool) ar : ACPIREGS :=
  if enable then ar <| tmr_timer := Some (overflow_ns ar) |> else ar <| tmr_timer := None |>.
Definition acpi_pm_tmr_calc_overflow_time (now : Z) ar : ACPIREGS :=
  ar <| overflow_time := Z.ldiff (acpi_pm_tmr_get_clock now + 0x80000000) 0x7fffffff |>.
Definition acpi_pm_tmr_get (now : Z) : Z := u32 (acpi_pm_tmr_get_clock now).
Definition acpi_pm_tmr_read (now : Z) ar (addr : Z) : Z := acpi_pm_tmr_get now.
Definition acpi_pm_tmr_write (now : Z) ar (addr val : Z) : ACPIREGS := ar.
Definition acpi_pm_tmr_reset ar : ACPIREGS := ar <| overflow_time := 0 |> <| tmr_timer := None |>.

(** ** The event registers *)

(** Reading the status also latches the timer's overflow. *)
Definition acpi_pm1_evt_get_sts (now : Z) ar : ACPIREGS * Z :=
  let ar := if overflow_ns ar <=? u64 now then ar <| evt_sts ::= fun s => Z.lor s ACPI_BITMASK_TIMER_STATUS |> else ar in
  (ar, evt_sts ar).
Definition acpi_pm1_evt_write_sts (now : Z) ar (val : Z) : ACPIREGS :=
  let '(ar, pm1_sts) := acpi_pm1_evt_get_sts now ar in
  let ar := if has (Z.land pm1_sts val) ACPI_BITMASK_TIMER_STATUS then acpi_pm_tmr_calc_overflow_time now ar else ar in
  ar <| evt_sts ::= fun s => Z.ldiff s val |>.
Definition acpi_pm1_evt_write_en ar (val : Z) : ACPIREGS :=
  let ar := ar <| evt_en := val |> in
  let ar := acpi_ask (WakeupEnable QEMU_WAKEUP_REASON_RTC (has val ACPI_BITMASK_RT_CLOCK_ENABLE)) ar in
  acpi_ask (WakeupEnable QEMU_WAKEUP_REASON_PMTIMER (has val ACPI_BITMASK_TIMER_ENABLE)) ar.
Definition acpi_pm1_evt_reset ar : ACPIREGS :=
  let ar := ar <| evt_sts := 0 |> <| evt_en := 0 |> in
  acpi_ask (WakeupEnable QEMU_WAKEUP_REASON_PMTIMER false) (acpi_ask (WakeupEnable QEMU_WAKEUP_REASON_RTC false) ar).
Definition acpi_pm_evt_read (now : Z) ar (addr : Z) : ACPIREGS * Z :=
  if addr =? 0 then acpi_pm1_evt_get_sts now ar
  else if addr =? 2 then (ar, evt_en ar)
  else (ar, 0).

(** [update_sci] is the callback the chipset registered. *)
Section Callback.
Context {S : Type} (regs : S -> ACPIREGS) (set_regs : ACPIREGS -> S -> S) (update_sci : Z -> S -> result S).

Definition acpi_pm_evt_write (now : Z) (s : S) (addr val : Z) : result S :=
  if addr =? 0 then update_sci now (set_regs (acpi_pm1_evt_write_sts now (regs s) (u16 val)) s)
  else if addr =? 2 then update_sci now (set_regs (acpi_pm1_evt_write_en (regs s) (u16 val)) s)
  else Ok s.
Definition acpi_pm1_evt_power_down (now : Z) (s : S) : result S :=
  if has (evt_en (regs s)) ACPI_BITMASK_POWER_BUTTON_ENABLE
  then update_sci now
         (set_regs (regs s <| evt_sts ::= fun x => Z.lor x ACPI_BITMASK_POWER_BUTTON_STATUS |>) s)
  else Ok s.
(** The timer has expired. *)
Definition acpi_pm_tmr_timer (now : Z) (s : S) : result S :=
  update_sci now (set_regs (acpi_ask (WakeupRequest QEMU_WAKEUP_REASON_PMTIMER) (regs s)) s).
End Callback.

(** ** The control register *)

Definition acpi_pm1_cnt_update (sci_enable sci_disable : bool) ar : ACPIREGS :=
  if acpi_only ar then ar
  else if sci_enable then ar <| cnt ::= fun c => Z.lor c ACPI_BITMASK_SCI_ENABLE |>
  else if sci_disable then ar <| cnt ::= fun c => Z.ldiff c ACPI_BITMASK_SCI_ENABLE |>
  else ar.
Definition acpi_pm_cnt_read ar (addr : Z) : Z := Z.shiftr (cnt ar) (addr * 8).
Definition acpi_pm_cnt_write ar (addr val : Z) : ACPIREGS :=
  let val := if addr =? 1 then Z.lor (u64 (Z.shiftl val 8)) (Z.land (cnt ar) 0xff) else val in
  let ar := ar <| cnt := u16 (Z.ldiff val ACPI_BITMASK_SLEEP_ENABLE) |> in
  if has val ACPI_BITMASK_SLEEP_ENABLE then
    let sus_typ := Z.land (Z.shiftr val 10) 7 in
    if sus_typ =? 0 then acpi_ask ShutdownRequest ar
    else if sus_typ =? 1 then acpi_ask SuspendRequest ar
    else if sus_typ =? s4_val ar then acpi_ask ShutdownRequest (acpi_ask SuspendDisk ar)
    else ar
  else ar.
Definition acpi_pm1_cnt_reset ar : ACPIREGS :=
  let ar := ar <| cnt := 0 |> in
  if acpi_only ar then ar <| cnt ::= fun c => Z.lor c ACPI_BITMASK_SCI_ENABLE |> else ar.

(** ** General purpose events *)

Definition acpi_gpe_init (len : Z) ar : ACPIREGS :=
  ar <| gpe_len := u8 len |> <| gpe_sts := replicate (Z.to_nat (u8 len)) 0 |> <| gpe_en := replicate (Z.to_nat (u8 len)) 0 |>.
Definition acpi_gpe_reset ar : result ACPIREGS :=
  sts ← blit (gpe_sts ar) 0 (replicate (Z.to_nat (gpe_len ar / 2)) 0);
  en ← blit (gpe_en ar) 0 (replicate (Z.to_nat (gpe_len ar / 2)) 0);
  Ok (ar <| gpe_sts := sts |> <| gpe_en := en |>).

Definition acpi_gpe_ioport_writeb ar (addr val : Z) : result ACPIREGS :=
  let half := gpe_len ar / 2 in
  if addr <? half then
    cur ← fetch (gpe_sts ar) addr;
    l ← blit (gpe_sts ar) addr [u8 (Z.ldiff cur val)];
    Ok (ar <| gpe_sts := l |>)
  else if addr <? gpe_len ar then
    l ← blit (gpe_en ar) (addr - half) [u8 val];
    Ok (ar <| gpe_en := l |>)
  else Fault (AssertFail "abort").
Definition acpi_gpe_ioport_readb ar (addr : Z) : result Z :=
  let half := gpe_len ar / 2 in
  if addr <? half then fetch (gpe_sts ar) addr
  else if addr <? gpe_len ar then fetch (gpe_en ar) (addr - half)
  else Fault (AssertFail "abort").

(** The interrupt level and the timer that follow from the registers. *)
Definition acpi_update_sci (now : Z) ar : result (ACPIREGS * Z) :=
  let '(ar, pm1a_sts) := acpi_pm1_evt_get_sts now ar in
  sts ← fetch (gpe_sts ar) 0;
  en ← fetch (gpe_en ar) 0;
  let sci_level := has (Z.land pm1a_sts (evt_en ar)) ACPI_BITMASK_PM1_COMMON_ENABLED || has sts en in
  Ok (acpi_pm_tmr_update (has (evt_en ar) ACPI_BITMASK_TIMER_ENABLE && negb (has pm1a_sts ACPI_BITMASK_TIMER_STATUS)) ar,
      Z.b2z sci_level).
Definition acpi_send_gpe_event (now : Z) ar (status : Z) : result (ACPIREGS * Z) :=
  sts ← fetch (gpe_sts ar) 0;
  l ← blit (gpe_sts ar) 0 [u8 (Z.lor sts status)];
  acpi_update_sci now (ar <| gpe_sts := l |>).

(** ** The timer against its counter *)

Lemma muldiv64_const_small a b c : 0 <= a < 2 ^ 64 -> 0 <= b < 2 ^ 32 -> 0 < c < 2 ^ 32 -> a * b / c < 2 ^ 64 ->
  muldiv64_const a b c = a * b / c.
Proof.
  intros Ha Hb Hc Hr. unfold muldiv64_const. rewrite (u64_id a), (u32_id b), (u32_id c) by (unfold is_u64, is_u32; lia).
  apply u64_id. split; [apply Z.div_pos; lia|done].
Qed.
Lemma clock_value now : 0 <= now < 2 ^ 63 ->
  acpi_pm_tmr_get_clock now = now * PM_TIMER_FREQUENCY / NANOSECONDS_PER_SECOND.
Proof.
  intros Hn. apply muldiv64_const_small; [lia|done|done|]. unfold PM_TIMER_FREQUENCY, NANOSECONDS_PER_SECOND.
  apply Z.div_lt_upper_bound; lia.
Qed.

(** The next multiple of 2^31 of the counter, and when it is reached in nanoseconds. *)
Definition next_overflow (now : Z) : Z := (acpi_pm_tmr_get_clock now / 2 ^ 31 + 1) * 2 ^ 31.
Lemma calc_overflow_value now ar : 0 <= now < 2 ^ 63 ->
  overflow_time (acpi_pm_tmr_calc_overflow_time now ar) = next_overflow now.
Proof.
  intros Hn. unfold acpi_pm_tmr_calc_overflow_time, next_overflow. proj_red.
  change 0x7fffffff with (Z.ones 31). rewrite Z.ldiff_ones_r, Z.shiftr_div_pow2, Z.shiftl_mul_pow2 by lia.
  change 0x80000000 with (1 * 2 ^ 31). by rewrite Z.div_add by lia.
Qed.

Lemma next_overflow_range now : 0 <= now < 2 ^ 62 -> acpi_pm_tmr_get_clock now < next_overflow now < 2 ^ 55.
Proof.
  intros Hn. unfold next_overflow. set (c := acpi_pm_tmr_get_clock now).
  assert (0 <= c < 2 ^ 54) as Hc.
  { unfold c. rewrite clock_value by lia. unfold PM_TIMER_FREQUENCY, NANOSECONDS_PER_SECOND. split.
    - apply Z.div_pos; lia.
    - apply Z.div_lt_upper_bound; lia. }
  pose proof (Z.div_mod c (2 ^ 31) ltac:(lia)). pose proof (Z.mod_pos_bound c (2 ^ 31) ltac:(lia)).
  assert (c / 2 ^ 31 < 2 ^ 23) by (apply Z.div_lt_upper_bound; lia). lia.
Qed.

(** The guest clears the timer status at [t0]; at a later time the status reads 1 exactly
    when the counter's top bit has changed since, up to the nanosecond in which it does. *)
Lemma timer_status_exact ar t0 t : 0 <= t0 <= t -> t + 1 < 2 ^ 62 -> is_u16 (evt_sts ar) ->
  Z.testbit (snd (acpi_pm1_evt_get_sts t0 ar)) 0 = true ->
  let ar' := acpi_pm1_evt_write_sts t0 ar ACPI_BITMASK_TIMER_STATUS in
  let set := Z.testbit (snd (acpi_pm1_evt_get_sts t ar')) 0 in
  (next_overflow t0 <= acpi_pm_tmr_get_clock t -> set = true) /\
  (set = true -> next_overflow t0 <= acpi_pm_tmr_get_clock (t + 1)).
Proof.
  intros Ht Hmax Hsts Hset. cbn zeta. unfold acpi_pm1_evt_write_sts.
  destruct (acpi_pm1_evt_get_sts t0 ar) as [ar1 sts] eqn:Hget. cbn [snd] in Hset.
  assert (has (Z.land sts ACPI_BITMASK_TIMER_STATUS) ACPI_BITMASK_TIMER_STATUS = true) as ->.
  { change ACPI_BITMASK_TIMER_STATUS with (bit 0). rewrite has_bit by lia.
    by rewrite Z.land_spec, Hset. }
  set (ar2 := acpi_pm_tmr_calc_overflow_time t0 ar1).
  unfold acpi_pm1_evt_get_sts. unfold overflow_ns. proj_red.
  replace (overflow_time ar2) with (next_overflow t0) by (symmetry; apply calc_overflow_value; lia).
  pose proof (next_overflow_range t0 ltac:(lia)) as Hov. rewrite (u64_id t) by (unfold is_u64; lia).
  assert (0 <= acpi_pm_tmr_get_clock t0) as Hc0.
  { rewrite clock_value by lia. unfold PM_TIMER_FREQUENCY, NANOSECONDS_PER_SECOND. apply Z.div_pos; lia. }
  assert (muldiv64_const (next_overflow t0) NANOSECONDS_PER_SECOND PM_TIMER_FREQUENCY =
          next_overflow t0 * NANOSECONDS_PER_SECOND / PM_TIMER_FREQUENCY) as ->.
  { apply muldiv64_const_small; [lia|done|done|]. unfold PM_TIMER_FREQUENCY, NANOSECONDS_PER_SECOND.
    apply Z.div_lt_upper_bound; lia. }
  set (ns := next_overflow t0 * NANOSECONDS_PER_SECOND / PM_TIMER_FREQUENCY).
  assert (Z.testbit (Z.ldiff (evt_sts ar2) ACPI_BITMASK_TIMER_STATUS) 0 = false) as Hclr
    by (rewrite Z.ldiff_spec; apply andb_false_r).
  rewrite !clock_value by lia. split.
  - intros Hreach. assert (ns <= t) as Hle.
    { unfold ns. apply Z.div_le_upper_bound; [done|].
      pose proof (Z.mul_div_le (t * PM_TIMER_FREQUENCY) NANOSECONDS_PER_SECOND ltac:(done)).
      unfold PM_TIMER_FREQUENCY, NANOSECONDS_PER_SECOND in *. lia. }
    rewrite (proj2 (Z.leb_le ns t)) by done. cbn [snd]. proj_red. rewrite Z.lor_spec. apply orb_true_r.
  - destruct (Z.leb_spec ns t) as [Hle|Hgt]; cbn [snd]; proj_red; [|by rewrite Hclr].
    intros _. apply Z.div_le_lower_bound; [done|].
    pose proof (Z.mul_succ_div_gt (next_overflow t0 * NANOSECONDS_PER_SECOND) PM_TIMER_FREQUENCY ltac:(done)) as Hd.
    fold ns in Hd. unfold PM_TIMER_FREQUENCY, NANOSECONDS_PER_SECOND in *. lia.
Qed.
