(* ===== verification/XboxPci.v ===== *)
(** * The chipset: interrupt routing, power management and the SMBus window
    (src/xemu/hw/xbox/xbox_pci.c, acpi_xbox.c)

    The LPC bridge connects the lines of the PCI bus and the interrupts of power
    management to the sixteen inputs of the interrupt controller, as registers in its
    configuration space say.  It also holds the power management registers, which the
    guest reaches through an I/O region, and hides the boot ROM.  The chipset is the
    root of PciCore.v; the buttons of the system management controller (XboxSmc.v) reach
    the guest through it. *)

From S2P Require Import Prelude I2cBus SmbusSlave XboxSmc SmbusDevices Amd756 PciCore Acpi.

Definition XBOX_NUM_INT_IRQS : Z := 8.
Definition XBOX_NUM_PIRQS : Z := 4.
Definition XBOX_NUM_PIC_IRQS : Z := 16.
Definition XBOX_LPC_ACPI_IRQ_ROUT : Z := 0x64.
Definition XBOX_LPC_PIRQ_ROUT : Z := 0x68.
Definition XBOX_LPC_INT_IRQ_ROUT : Z := 0x6C.
(** The place of the LPC bridge among the devices, in the order they are created. *)
Definition LPC_DEVICE : Z := 1.

(** [field_pin] is a static variable of the source; [widescreen] what the user interface
    was told; [pic] the level of each input of the interrupt controller; [mcpx_rom] whether
    the boot ROM is visible. *)
Record XBOX_LPCState := mkXboxLpc {
  acpi_regs : ACPIREGS;
  field_pin : Z;
  widescreen : bool;
  pic : mem;
  mcpx_rom : bool;
}.
#[export] Instance XBOX_LPCState_settable : Settable XBOX_LPCState :=
  settable! mkXboxLpc < acpi_regs ; field_pin ; widescreen ; pic ; mcpx_rom >.
Implicit Types lpc : XBOX_LPCState.

(** ** Interrupt routing *)

Definition xbox_lpc_set_irq (ds : list PCIDevice) (pirq level : Z) lpc : result XBOX_LPCState :=
  _ ← check (0 <=? pirq) "pirq >= 0";
  _ ← check (pirq <? XBOX_NUM_INT_IRQS + XBOX_NUM_PIRQS) "pirq < XBOX_NUM_INT_IRQS + XBOX_NUM_PIRQS";
  dev ← fetch ds LPC_DEVICE;
  if pirq <? XBOX_NUM_INT_IRQS then
    let routing := pci_get_long (config dev) XBOX_LPC_INT_IRQ_ROUT in
    let pic_irq := Z.land (Z.shiftr routing (pirq * 4)) 0xF in
    if pic_irq =? 0 then Ok lpc
    else if XBOX_NUM_PIC_IRQS <=? pic_irq then Ok lpc
    else Ok (lpc <| pic ::= wr pic_irq level |>)
  else
    let pic_irq := rd (config dev) (XBOX_LPC_PIRQ_ROUT + (pirq - XBOX_NUM_INT_IRQS)) in
    if XBOX_NUM_PIC_IRQS <=? pic_irq then Ok lpc
    else Ok (lpc <| pic ::= wr pic_irq level |>).

Definition xbox_lpc_map_irq (slot intx : Z) : result Z :=
  if slot =? 0 then Ok 5
  else if slot =? 1 then Ok 7
  else if slot =? 2 then Ok 0
  else if slot =? 3 then Ok 1
  else if slot =? 4 then Ok 2
  else if slot =? 5 then Ok 3
  else if slot =? 6 then Ok 4
  else if slot =? 9 then Ok 6
  else if slot =? 30 then Ok (XBOX_NUM_INT_IRQS + 2)
  else Fault (AssertFail "Mapping LPC to IRQ failed").

Definition xbox_lpc_set_acpi_irq (ds : list PCIDevice) (irq_num level : Z) lpc : result XBOX_LPCState :=
  _ ← check ((irq_num =? 0) || (irq_num =? 1)) "irq_num == 0 || irq_num == 1";
  dev ← fetch ds LPC_DEVICE;
  let routing := pci_get_long (config dev) XBOX_LPC_ACPI_IRQ_ROUT in
  let irq := Z.land (Z.shiftr routing (irq_num * 8)) 0xff in
  if (irq =? 0) || (XBOX_NUM_PIC_IRQS <=? irq) then Ok lpc
  else Ok (lpc <| pic ::= wr irq level |>).

#[export] Instance xbox_root : PciRoot XBOX_LPCState := {
  nirq := XBOX_NUM_INT_IRQS + XBOX_NUM_PIRQS;
  map_irq := xbox_lpc_map_irq;
  set_irq := xbox_lpc_set_irq;
}.

Definition machine : Type := PCIHost XBOX_LPCState.
Implicit Types m : machine.

(** ** The boot ROM *)

Definition xbox_lpc_enable_mcpx_rom (enable : bool) m : machine := m <| chipset ::= fun l => l <| mcpx_rom := enable |> |>.
Definition xbox_lpc_reset m : machine := xbox_lpc_enable_mcpx_rom true m.
Definition xbox_lpc_config_write m (addr val len : Z) : result machine :=
  m ← pci_default_write_config m LPC_DEVICE addr val len;
  Ok (if (addr =? 0x80) && has val 2 then xbox_lpc_enable_mcpx_rom false m else m).

(** ** Power management *)

Definition pm_regs m : ACPIREGS := acpi_regs (chipset m).
Definition set_pm_regs (ar : ACPIREGS) m : machine := m <| chipset ::= fun l => l <| acpi_regs := ar |> |>.
(** [qemu_set_irq(pm->irq, level)]: the first of the two interrupts of power management. *)
Definition set_sci (level : Z) m : result machine :=
  l ← xbox_lpc_set_acpi_irq (devices m) 0 level (chipset m);
  Ok (m <| chipset := l |>).

Definition pm_update_sci (now : Z) m : result machine :=
  let '(ar, pm1a_sts) := acpi_pm1_evt_get_sts now (pm_regs m) in
  let sci_level := has (Z.land pm1a_sts (evt_en ar))
    (Z.lor ACPI_BITMASK_RT_CLOCK_ENABLE (Z.lor ACPI_BITMASK_POWER_BUTTON_ENABLE
       (Z.lor ACPI_BITMASK_GLOBAL_LOCK_ENABLE ACPI_BITMASK_TIMER_ENABLE))) in
  m ← set_sci (Z.b2z sci_level) (set_pm_regs ar m);
  Ok (set_pm_regs
        (acpi_pm_tmr_update (has (evt_en ar) ACPI_BITMASK_TIMER_ENABLE && negb (has pm1a_sts ACPI_BITMASK_TIMER_STATUS)) ar)
        m).
(** [acpi_update_sci(&pm->acpi_regs, pm->irq)]. *)
Definition update_sci_of (r : result (ACPIREGS * Z)) m : result machine :=
  '(ar, level) ← r;
  m ← set_sci level m;
  Ok (set_pm_regs ar m).

Definition xbox_pm_gpe_readb m (addr : Z) : result Z := acpi_gpe_ioport_readb (pm_regs m) addr.
Definition xbox_pm_gpe_writeb (now : Z) m (addr val : Z) : result machine :=
  ar ← acpi_gpe_ioport_writeb (pm_regs m) addr val;
  update_sci_of (acpi_update_sci now ar) m.
Definition xbox_send_gpe (now ev : Z) m : result machine :=
  update_sci_of (acpi_send_gpe_event now (pm_regs m) ev) m.

Definition xbox_pm_gpio_read m (addr : Z) : machine * Z :=
  if addr =? 0 then
    let pin := Z.land (field_pin (chipset m) + 1) 1 in
    (m <| chipset ::= fun l => l <| field_pin := pin |> |>, Z.shiftl pin 5)
  else (m, 0).
Definition xbox_pm_gpio_write m (addr val : Z) : machine :=
  if addr =? 0x16 then m <| chipset ::= fun l => l <| widescreen := val =? 5 |> |> else m.

Definition pm_reset (now : Z) m : result machine :=
  let ar := acpi_pm_tmr_reset (acpi_pm1_cnt_reset (acpi_pm1_evt_reset (pm_regs m))) in
  ar ← acpi_gpe_reset ar;
  update_sci_of (acpi_update_sci now ar) m.

(** The I/O region of [xbox_pm_init]: the offset selects a block of registers; accesses
    have the size the block implements, everything else reads 0. *)
Definition pm_io_read (now : Z) m (off : Z) : result (machine * Z) :=
  if (0 <=? off) && (off <? 4) then
    let '(ar, v) := acpi_pm_evt_read now (pm_regs m) off in Ok (set_pm_regs ar m, v)
  else if (4 <=? off) && (off <? 6) then Ok (m, acpi_pm_cnt_read (pm_regs m) (off - 4))
  else if (8 <=? off) && (off <? 12) then Ok (m, acpi_pm_tmr_read now (pm_regs m) (off - 8))
  else if (0x20 <=? off) && (off <? 0x24) then v ← xbox_pm_gpe_readb m (off - 0x20); Ok (m, v)
  else if (0xC0 <=? off) && (off <? 0xDA) then Ok (xbox_pm_gpio_read m (off - 0xC0))
  else Ok (m, 0).
Definition pm_io_write (now : Z) m (off val : Z) : result machine :=
  if (0 <=? off) && (off <? 4) then acpi_pm_evt_write pm_regs set_pm_regs pm_update_sci now m off val
  else if (4 <=? off) && (off <? 6) then Ok (set_pm_regs (acpi_pm_cnt_write (pm_regs m) (off - 4) val) m)
  else if (8 <=? off) && (off <? 12) then Ok (set_pm_regs (acpi_pm_tmr_write now (pm_regs m) (off - 8) val) m)
  else if (0x20 <=? off) && (off <? 0x24) then xbox_pm_gpe_writeb now m (off - 0x20) val
  else if (0xC0 <=? off) && (off <? 0xDA) then Ok (xbox_pm_gpio_write m (off - 0xC0) val)
  else Ok m.
Definition pm_timer_expires (now : Z) m : result machine := acpi_pm_tmr_timer pm_regs set_pm_regs pm_update_sci now m.

(** ** The SMBus window *)

Definition XBOX_SMBUS_BASE_BAR : Z := 1.
(** The region of the window calls the handlers with offsets from its start; the
    difference to the base is taken at 64 bits. *)
Definition smb_offset (dev : PCIDevice) (addr : Z) : result Z :=
  r ← fetch (io_regions dev) XBOX_SMBUS_BASE_BAR;
  Ok (u64 (addr - region_addr r)).
Section Smbus.
Context {D : Type} `{!I2CSlaveClass D}.
Implicit Types smb : AMD756SMBus D.

Definition xbox_smb_ioport_writeb (dev : PCIDevice) smb (addr val : Z) : result (AMD756SMBus D) :=
  offset ← smb_offset dev addr;
  amd756_smb_ioport_writeb smb offset val.
Definition xbox_smb_ioport_readb (dev : PCIDevice) smb (addr : Z) : result (AMD756SMBus D * Z) :=
  offset ← smb_offset dev addr;
  amd756_smb_ioport_readb smb offset.
End Smbus.

(** ** The routing, as an abstract map *)

(** The input of the interrupt controller a line of the bus, or an interrupt of power
    management, is connected to. *)
Definition pic_of (ds : list PCIDevice) (n : Z) : option Z :=
  dev ← ds !! Z.to_nat LPC_DEVICE;
  if n <? XBOX_NUM_INT_IRQS then
    let p := Z.land (Z.shiftr (pci_get_long (config dev) XBOX_LPC_INT_IRQ_ROUT) (n * 4)) 0xF in
    if p =? 0 then None else if XBOX_NUM_PIC_IRQS <=? p then None else Some p
  else
    let p := rd (config dev) (XBOX_LPC_PIRQ_ROUT + (n - XBOX_NUM_INT_IRQS)) in
    if XBOX_NUM_PIC_IRQS <=? p then None else Some p.
Definition acpi_pic_of (ds : list PCIDevice) (k : Z) : option Z :=
  dev ← ds !! Z.to_nat LPC_DEVICE;
  let p := Z.land (Z.shiftr (pci_get_long (config dev) XBOX_LPC_ACPI_IRQ_ROUT) (k * 8)) 0xff in
  if (p =? 0) || (XBOX_NUM_PIC_IRQS <=? p) then None else Some p.

(** The lines that slots of the machine are mapped to. *)
Definition line_used (n : Z) : bool := ((0 <=? n) && (n <? 8)) || (n =? 10).

Definition routing_regs (ds : list PCIDevice) : option (list Z) :=
  (fun d => map (rd (config d)) [0x64; 0x65; 0x66; 0x67; 0x68; 0x69; 0x6a; 0x6b; 0x6c; 0x6d; 0x6e; 0x6f]) <$> ds !! Z.to_nat LPC_DEVICE.

Lemma get_long_bytes c a : pci_get_long c a = rd c a + 256 * (rd c (a + 1) + 256 * (rd c (a + 2) + 256 * (rd c (a + 3)))).
Proof. unfold pci_get_long, load_bytes. cbn [map seq le_word]. rewrite !Z.add_0_r. reflexivity. Qed.

Lemma routing_regs_pic ds ds' : routing_regs ds = routing_regs ds' ->
  (forall n, 0 <= n < 12 -> pic_of ds n = pic_of ds' n) /\ forall k, acpi_pic_of ds k = acpi_pic_of ds' k.
Proof.
  unfold routing_regs, pic_of, acpi_pic_of. intros H.
  destruct (ds !! Z.to_nat LPC_DEVICE) as [d|], (ds' !! Z.to_nat LPC_DEVICE) as [d'|]; [|discriminate H..|done].
  cbn in H. injection H as H0 H1 H2 H3 H4 H5 H6 H7 H8 H9 H10 H11.
  unfold XBOX_LPC_INT_IRQ_ROUT, XBOX_LPC_ACPI_IRQ_ROUT. split.
  - intros n Hn. cbn [mbind option_bind]. rewrite !get_long_bytes.
    change (0x6C + 1) with 0x6d. change (0x6C + 2) with 0x6e. change (0x6C + 3) with 0x6f.
    rewrite H8, H9, H10, H11. destruct (Z.ltb_spec n XBOX_NUM_INT_IRQS) as [|Hge]; [done|].
    unfold XBOX_NUM_INT_IRQS in *.
    assert (n = 8 \/ n = 9 \/ n = 10 \/ n = 11) as [->|[->|[->| ->]]] by lia;
      [change (XBOX_LPC_PIRQ_ROUT + (8 - 8)) with 0x68; by rewrite H4
      |change (XBOX_LPC_PIRQ_ROUT + (9 - 8)) with 0x69; by rewrite H5
      |change (XBOX_LPC_PIRQ_ROUT + (10 - 8)) with 0x6a; by rewrite H6
      |change (XBOX_LPC_PIRQ_ROUT + (11 - 8)) with 0x6b; by rewrite H7].
  - intros k. cbn [mbind option_bind]. rewrite !get_long_bytes.
    change (0x64 + 1) with 0x65. change (0x64 + 2) with 0x66. change (0x64 + 3) with 0x67.
    by rewrite H0, H1, H2, H3.
Qed.

(** No two lines share an input, as far as devices use them. *)
Definition lines_distinct (ds : list PCIDevice) : Prop :=
  (exists d, ds !! Z.to_nat LPC_DEVICE = Some d) /\
  forall n k p, 0 <= n < 12 -> 0 <= k < 12 -> line_used k = true -> n <> k ->
    pic_of ds n = Some p -> pic_of ds k <> Some p.

Lemma set_irq_pic ds n level lpc : (exists d, ds !! Z.to_nat LPC_DEVICE = Some d) -> 0 <= n < 12 ->
  xbox_lpc_set_irq ds n level lpc =
    Ok (match pic_of ds n with Some p => lpc <| pic ::= wr p level |> | None => lpc end).
Proof.
  intros [d Hd] Hn. unfold xbox_lpc_set_irq, pic_of.
  rewrite (proj2 (Z.leb_le 0 n)), (proj2 (Z.ltb_lt n (XBOX_NUM_INT_IRQS + XBOX_NUM_PIRQS))) by (unfold XBOX_NUM_INT_IRQS, XBOX_NUM_PIRQS; lia).
  cbn [check mbind result_mbind result_bind]. rewrite (fetch_ok ds LPC_DEVICE d) by done.
  rewrite Hd. cbn [mbind result_mbind result_bind option_bind]. repeat case_match; congruence.
Qed.

#[export] Program Instance xbox_root_laws : PciRootLaws XBOX_LPCState := {
  routing_ok := lines_distinct;
  same_routing ds ds' := routing_regs ds = routing_regs ds';
  line_shows ds lpc n b := line_used n = true -> forall p, pic_of ds n = Some p -> rd (pic lpc) p = b;
}.
Next Obligation.
  intros ds n b lpc [Hd Hdist] Hn Hb. change nirq with 12 in *. eexists. split; [by apply set_irq_pic|]. split.
  - intros _ p Hp. rewrite Hp. proj_red. by rewrite rd_wr_eq.
  - intros k c Hk Hkr Hshow Hu p Hp. destruct (pic_of ds n) as [q|] eqn:Hq; [|by apply Hshow].
    proj_red. rewrite rd_wr_ne; [by apply Hshow|]. intros ->. by apply (Hdist n k p).
Qed.
Next Obligation. split; [intros x|intros x y|intros x y z]; cbn; congruence. Qed.
Next Obligation.
  intros ds ds' Hs [[d Hd] Hdist]. destruct (routing_regs_pic _ _ Hs) as [Hp _]. split.
  - unfold routing_regs in Hs. rewrite Hd in Hs. destruct (ds' !! Z.to_nat LPC_DEVICE) as [d'|]; [by exists d'|done].
  - intros n k p Hn Hk Hu Hne. rewrite <- !Hp by done. by apply Hdist.
Qed.
Next Obligation.
  intros ds ds' lpc n b Hs Hshow Hu p Hp. destruct (routing_regs_pic _ _ Hs) as [Heq _]. apply (Hshow Hu).
  rewrite Heq; [done|]. unfold line_used in Hu. lia.
Qed.
Next Obligation.
  intros ds ds' HF. unfold routing_regs.
  destruct (ds !! Z.to_nat LPC_DEVICE) as [d|] eqn:Hd.
  - destruct (Forall2_lookup_l _ _ _ _ _ HF Hd) as (d' & -> & Hc). cbn. by rewrite !Hc.
  - apply lookup_ge_None in Hd. rewrite (Forall2_length _ _ _ HF) in Hd. apply lookup_ge_None in Hd. by rewrite Hd.
Qed.

(** ** The machine keeps its interrupt lines exact *)

(** The interrupts of power management use inputs of their own. *)
Definition acpi_distinct (ds : list PCIDevice) : Prop :=
  forall k n p, 0 <= k < 2 -> 0 <= n < 12 -> line_used n = true -> acpi_pic_of ds k = Some p -> pic_of ds n <> Some p.

(** The event registers of the GPE block have four bytes each. *)
Definition pm_wf (ar : ACPIREGS) : Prop := gpe_len ar = 4 /\ length (gpe_sts ar) = 4%nat /\ length (gpe_en ar) = 4%nat.

Record machine_ok m : Prop := {
  mo_host : host_ok m;
  mo_acpi : acpi_distinct (devices m);
  mo_pm : pm_wf (pm_regs m);
}.

Lemma chipset_ok m l : host_ok m ->
  (forall n p, line_used n = true -> pic_of (devices m) n = Some p -> rd (pic l) p = rd (pic (chipset m)) p) ->
  host_ok (m <| chipset := l |>).
Proof.
  intros [] Hl. constructor; try done. intros n Hn. proj_red. intros Hu p Hp. rewrite (Hl n p Hu Hp).
  by apply (ho_lines n Hn).
Qed.

(** Driving an interrupt of power management. *)
Lemma set_acpi_irq_pic ds k level lpc : (exists d, ds !! Z.to_nat LPC_DEVICE = Some d) -> 0 <= k < 2 ->
  xbox_lpc_set_acpi_irq ds k level lpc =
    Ok (match acpi_pic_of ds k with Some p => lpc <| pic ::= wr p level |> | None => lpc end).
Proof.
  intros [d Hd] Hk. unfold xbox_lpc_set_acpi_irq, acpi_pic_of.
  assert ((k =? 0) || (k =? 1) = true) as -> by lia. cbn [check mbind result_mbind result_bind].
  rewrite (fetch_ok ds LPC_DEVICE d) by done. rewrite Hd. cbn [mbind result_mbind result_bind option_bind].
  repeat case_match; congruence.
Qed.

Definition driven (k level : Z) m : machine :=
  match acpi_pic_of (devices m) k with
  | Some p => m <| chipset ::= fun l => l <| pic ::= wr p level |> |>
  | None => m
  end.
Lemma set_sci_driven level m : host_ok m -> set_sci level m = Ok (driven 0 level m).
Proof.
  intros Hok. destruct (ho_routing _ _ Hok) as [Hd _]. unfold set_sci, driven.
  rewrite (set_acpi_irq_pic (devices m) 0 level (chipset m) Hd) by lia. cbn [mbind result_mbind result_bind].
  destruct (acpi_pic_of (devices m) 0); [done|]. by destruct m.
Qed.
Lemma driven_regs k level m : pm_regs (driven k level m) = pm_regs m /\ devices (driven k level m) = devices m.
Proof. unfold driven. by destruct (acpi_pic_of (devices m) k). Qed.
Lemma driven_ok k level m : machine_ok m -> 0 <= k < 2 -> machine_ok (driven k level m).
Proof.
  intros [Hh Ha Hp] Hk. destruct (driven_regs k level m) as [Hr Hd].
  constructor; [|by rewrite Hd|by rewrite Hr]. unfold driven. destruct (acpi_pic_of (devices m) k) as [q|] eqn:Hq; [|done].
  apply (chipset_ok m (chipset m <| pic ::= wr q level |>)); [done|]. intros n p Hu Hpn. proj_red.
  rewrite rd_wr_ne; [done|]. intros ->. refine (Ha k n p Hk _ Hu Hq Hpn). unfold line_used in Hu. lia.
Qed.
Lemma set_regs_ok ar m : machine_ok m -> pm_wf ar -> machine_ok (set_pm_regs ar m).
Proof.
  intros [Hh Ha Hp] Har. constructor; [|done|done].
  by apply (chipset_ok m (chipset m <| acpi_regs := ar |>)).
Qed.

(** Register operations keep the arrays of the events. *)
Lemma get_sts_wf now ar : pm_wf ar -> pm_wf (fst (acpi_pm1_evt_get_sts now ar)).
Proof. intros H. unfold acpi_pm1_evt_get_sts. by destruct (_ <=? _). Qed.
Lemma write_sts_wf now ar val : pm_wf ar -> pm_wf (acpi_pm1_evt_write_sts now ar val).
Proof.
  intros H. unfold acpi_pm1_evt_write_sts. pose proof (get_sts_wf now ar H) as H1.
  destruct (acpi_pm1_evt_get_sts now ar) as [ar1 sts]. cbn [fst] in H1. by destruct (has _ _).
Qed.
Lemma tmr_update_wf b ar : pm_wf ar -> pm_wf (acpi_pm_tmr_update b ar).
Proof. intros H. by destruct b. Qed.
Lemma cnt_write_wf ar addr val : pm_wf ar -> pm_wf (acpi_pm_cnt_write ar addr val).
Proof. intros H. unfold acpi_pm_cnt_write. repeat case_match; done. Qed.

Lemma fetch_Some {A} (l : list A) i : 0 <= i < Z.of_nat (length l) -> exists x, fetch l i = Ok x.
Proof.
  intros Hi. destruct (lookup_lt_is_Some_2 l (Z.to_nat i)) as [x Hx]; [lia|]. exists x. apply fetch_ok; [lia|done].
Qed.
Lemma gpe_write_wf ar addr val : pm_wf ar -> 0 <= addr < 4 ->
  exists ar', acpi_gpe_ioport_writeb ar addr val = Ok ar' /\ pm_wf ar'.
Proof.
  intros (Hl & Hs & He) Ha. unfold acpi_gpe_ioport_writeb. rewrite Hl. change (4 / 2) with 2.
  destruct (Z.ltb_spec addr 2).
  - destruct (fetch_Some (gpe_sts ar) addr) as [x ->]; [rewrite Hs; lia|]. cbn [mbind result_mbind result_bind].
    rewrite blit_one by (rewrite Hs; lia). cbn [mbind result_mbind result_bind]. eexists. split; [done|].
    unfold pm_wf. proj_red. by rewrite length_insert.
  - rewrite (proj2 (Z.ltb_lt addr 4)) by lia. rewrite blit_one by (rewrite He; lia).
    cbn [mbind result_mbind result_bind]. eexists. split; [done|]. unfold pm_wf. proj_red. by rewrite length_insert.
Qed.

(** What [acpi_update_sci] makes of the registers. *)
Definition sci_now (now : Z) ar : Z :=
  let '(ar, sts) := acpi_pm1_evt_get_sts now ar in
  Z.b2z (has (Z.land sts (evt_en ar)) ACPI_BITMASK_PM1_COMMON_ENABLED || has (byte (gpe_sts ar) 0) (byte (gpe_en ar) 0)).
Lemma update_sci_wf now ar : pm_wf ar -> exists ar', acpi_update_sci now ar = Ok (ar', sci_now now ar) /\ pm_wf ar' /\
  gpe_sts ar' = gpe_sts ar /\ gpe_en ar' = gpe_en ar /\ evt_en ar' = evt_en ar.
Proof.
  intros Hw. unfold acpi_update_sci, sci_now. pose proof (get_sts_wf now ar Hw) as Hw1.
  assert (forall ar' sts, acpi_pm1_evt_get_sts now ar = (ar', sts) ->
    gpe_sts ar' = gpe_sts ar /\ gpe_en ar' = gpe_en ar /\ evt_en ar' = evt_en ar) as Hsame.
  { intros ar' sts. unfold acpi_pm1_evt_get_sts. case_match; intros [= <- _]; done. }
  destruct (acpi_pm1_evt_get_sts now ar) as [ar1 sts]. cbn [fst] in Hw1. destruct Hw1 as (Hl & Hs & He).
  rewrite !fetch_byte by (rewrite ?Hs, ?He; lia). cbn [mbind result_mbind result_bind].
  eexists. split; [reflexivity|]. split; [by apply tmr_update_wf|].
  destruct (Hsame ar1 sts eq_refl) as (H1 & H2 & H3). unfold acpi_pm_tmr_update. by case_match.
Qed.

Lemma update_sci_of_ok now ar m : machine_ok m -> pm_wf ar ->
  exists ar', update_sci_of (acpi_update_sci now ar) m = Ok (set_pm_regs ar' (driven 0 (sci_now now ar) m)) /\ pm_wf ar' /\
    gpe_sts ar' = gpe_sts ar /\ gpe_en ar' = gpe_en ar /\ evt_en ar' = evt_en ar.
Proof.
  intros Hm Hw. destruct (update_sci_wf now ar Hw) as (ar' & Hrun & Hrest). unfold update_sci_of. rewrite Hrun.
  cbn [mbind result_mbind result_bind]. rewrite (set_sci_driven _ m) by apply Hm.
  cbn [mbind result_mbind result_bind]. by exists ar'.
Qed.

(** The level [pm_update_sci] drives: the general purpose events are not part of it. *)
Definition pm1_now (now : Z) ar : Z :=
  let '(ar, sts) := acpi_pm1_evt_get_sts now ar in
  Z.b2z (has (Z.land sts (evt_en ar)) ACPI_BITMASK_PM1_COMMON_ENABLED).
Lemma pm_update_sci_ok now m : machine_ok m ->
  exists ar, pm_update_sci now m = Ok (set_pm_regs ar (driven 0 (pm1_now now (pm_regs m)) m)) /\ pm_wf ar /\
    gpe_sts ar = gpe_sts (pm_regs m) /\ gpe_en ar = gpe_en (pm_regs m).
Proof.
  intros Hm. unfold pm_update_sci, pm1_now. pose proof (get_sts_wf now (pm_regs m) (mo_pm _ Hm)) as Hw.
  assert (forall ar sts, acpi_pm1_evt_get_sts now (pm_regs m) = (ar, sts) ->
    gpe_sts ar = gpe_sts (pm_regs m) /\ gpe_en ar = gpe_en (pm_regs m)) as Hsame.
  { intros ar sts. unfold acpi_pm1_evt_get_sts. case_match; intros [= <- _]; done. }
  destruct (acpi_pm1_evt_get_sts now (pm_regs m)) as [ar sts]. cbn [fst] in Hw.
  rewrite (set_sci_driven _ (set_pm_regs ar m)) by (by apply set_regs_ok). cbn [mbind result_mbind result_bind].
  eexists. split; [|split; [by apply tmr_update_wf|]].
  - unfold driven. change (devices (set_pm_regs ar m)) with (devices m).
    by destruct (acpi_pic_of (devices m) 0).
  - destruct (Hsame ar sts eq_refl). unfold acpi_pm_tmr_update. by case_match.
Qed.

Inductive machine_op :=
| PciOp (op : pci_op)
| PmRead (now off : Z)
| PmWrite (now off val : Z)
| GpeEvent (now ev : Z)
| PmTimer (now : Z)
| PmReset (now : Z).
Definition machine_do (op : machine_op) m : result machine :=
  match op with
  | PciOp (ConfigWrite i addr val l) =>
      if i =? LPC_DEVICE then xbox_lpc_config_write m addr val l else pci_default_write_config m i addr val l
  | PciOp op => pci_do op m
  | PmRead now off => '(m, _) ← pm_io_read now m off; Ok m
  | PmWrite now off val => pm_io_write now m off val
  | GpeEvent now ev => xbox_send_gpe now ev m
  | PmTimer now => pm_timer_expires now m
  | PmReset now => pm_reset now m
  end.
Fixpoint machine_run (ops : list machine_op) m : result machine :=
  match ops with [] => Ok m | op :: ops => m ← machine_do op m; machine_run ops m end.

(** Operations of a guest that has set the routing up and leaves it. *)
Definition machine_op_ok (ds : list PCIDevice) (op : machine_op) : Prop :=
  match op with
  | PciOp op => op_valid ds op /\
      match op with
      | ConfigWrite i addr _ l => i = LPC_DEVICE -> addr + l <= XBOX_LPC_ACPI_IRQ_ROUT \/ 0x70 <= addr
      | _ => True
      end
  | _ => True
  end.

Definition steps_to m m' : Prop := machine_ok m' /\ routing_regs (devices m') = routing_regs (devices m) /\
  length (devices m') = length (devices m).

Lemma regs_step ar m : machine_ok m -> pm_wf ar -> steps_to m (set_pm_regs ar m).
Proof. intros Hm Hw. split; [by apply set_regs_ok|done]. Qed.
Lemma driven_step ar level m : machine_ok m -> pm_wf ar -> steps_to m (set_pm_regs ar (driven 0 level m)).
Proof.
  intros Hm Hw. split; [apply set_regs_ok; [by apply driven_ok|done]|].
  change (devices (set_pm_regs ar (driven 0 level m))) with (devices (driven 0 level m)).
  by rewrite (proj2 (driven_regs 0 level m)).
Qed.
Lemma update_sci_step now ar m : machine_ok m -> pm_wf ar -> exists m', update_sci_of (acpi_update_sci now ar) m = Ok m' /\ steps_to m m'.
Proof.
  intros Hm Hw. destruct (update_sci_of_ok now ar m Hm Hw) as (ar' & -> & Hw' & _).
  eexists. split; [done|by apply driven_step].
Qed.
Lemma pm_update_step now ar m : machine_ok m -> pm_wf ar -> exists m', pm_update_sci now (set_pm_regs ar m) = Ok m' /\ steps_to m m'.
Proof.
  intros Hm Hw. pose proof (set_regs_ok ar m Hm Hw) as Hm'.
  destruct (pm_update_sci_ok now _ Hm') as (ar' & -> & Hw' & _). eexists. split; [done|].
  destruct (driven_step ar' (pm1_now now (pm_regs (set_pm_regs ar m))) _ Hm' Hw') as (H1 & H2 & H3).
  by split.
Qed.

(** Writes elsewhere keep the routing registers. *)
Lemma config_write_routes ds i addr val l : Forall dev_wf ds -> 0 <= i -> 0 <= l ->
  (i = LPC_DEVICE -> addr + l <= XBOX_LPC_ACPI_IRQ_ROUT \/ 0x70 <= addr) -> op_routes ds (ConfigWrite i addr val l).
Proof.
  intros Hwf Hi Hl Hout d d' Hd Hw. unfold same_routing. cbn. unfold routing_regs.
  destruct (decide (i = LPC_DEVICE)) as [->|Hne].
  - rewrite list_lookup_insert_eq by (by apply lookup_lt_Some in Hd). rewrite Hd.
    pose proof (Forall_lookup_1 _ _ _ _ Hwf Hd) as Hwfd.
    destruct (config_written_ok addr val l d Hwfd) as (d1 & Hw1 & _ & _ & _ & _ & _ & _ & _ & _ & Hc).
    rewrite Hw in Hw1. injection Hw1 as <-. cbn. specialize (Hout eq_refl). unfold XBOX_LPC_ACPI_IRQ_ROUT in Hout. by rewrite !Hc by lia.
  - by rewrite list_lookup_insert_ne by (unfold LPC_DEVICE in *; lia).
Qed.

Lemma pci_machine_ok op m : machine_ok m -> machine_op_ok (devices m) (PciOp op) ->
  exists m', pci_do op m = Ok m' /\ steps_to m m'.
Proof.
  intros [Hh Ha Hp] [Hv Hr]. destruct (pci_do_ok op m Hh Hv) as (m' & Hdo & Hh' & Hs & Hlen).
  { destruct op as [| |]; [done| |done]. destruct Hv as (? & ? & ? & ?). apply config_write_routes; [apply Hh|lia|lia|done]. }
  exists m'. split; [done|]. destruct (routing_regs_pic _ _ Hs) as [H1 H2]. split; [|by split; [symmetry|]]. constructor; [done| |].
  - intros k n p Hk Hn Hu. rewrite <- H1, <- H2 by done. by apply Ha.
  - refine (pci_do_keeps (fun l => pm_wf (acpi_regs l)) _ op m m' Hdo Hp). clear. intros ds n b e e' Hset He.
    assert (safe (fun _ => True) (fun l => pm_wf (acpi_regs l)) (xbox_lpc_set_irq ds n b e)) as Hsafe.
    { unfold xbox_lpc_set_irq. do 3 (apply safe_skip; [done|intros ?]). repeat case_match; done. }
    change (xbox_lpc_set_irq ds n b e = Ok e') in Hset. by rewrite Hset in Hsafe.
Qed.

Lemma pm_write_ok now m off val : machine_ok m -> exists m', pm_io_write now m off val = Ok m' /\ steps_to m m'.
Proof.
  intros Hm. pose proof (mo_pm _ Hm) as Hw. unfold pm_io_write.
  assert (steps_to m m) as Hself by (by split).
  destruct (_ && _) eqn:E0; [|clear E0; destruct (_ && _) eqn:E1; [|clear E1; destruct (_ && _) eqn:E2;
    [|clear E2; destruct (_ && _) eqn:E3; [|clear E3; destruct (_ && _)]]]].
  - unfold acpi_pm_evt_write. destruct (off =? 0); [apply pm_update_step; [done|by apply write_sts_wf]|].
    destruct (off =? 2); [|by exists m]. by apply pm_update_step.
  - eexists. split; [done|]. apply regs_step; [done|by apply cnt_write_wf].
  - eexists. split; [done|]. by apply regs_step.
  - unfold xbox_pm_gpe_writeb. destruct (gpe_write_wf (pm_regs m) (off - 0x20) val Hw) as (ar & -> & Har); [lia|].
    cbn [mbind result_mbind result_bind]. by apply update_sci_step.
  - eexists. split; [done|]. unfold xbox_pm_gpio_write. case_match; [|done]. split; [|done].
    constructor; [|apply Hm|apply Hm]. by apply (chipset_ok m (chipset m <| widescreen := val =? 5 |>)); [apply Hm|].
  - by exists m.
Qed.
Lemma pm_read_ok now m off : machine_ok m -> exists m' v, pm_io_read now m off = Ok (m', v) /\ steps_to m m'.
Proof.
  intros Hm. pose proof (mo_pm _ Hm) as Hw. unfold pm_io_read.
  assert (steps_to m m) as Hself by (by split).
  destruct (_ && _) eqn:E0; [|clear E0; destruct (_ && _) eqn:E1; [|clear E1; destruct (_ && _) eqn:E2;
    [|clear E2; destruct (_ && _) eqn:E3; [|clear E3; destruct (_ && _)]]]]; try by eexists _, _.
  - unfold acpi_pm_evt_read. pose proof (get_sts_wf now (pm_regs m) Hw) as Hg.
    destruct (off =? 0); [|destruct (off =? 2); eexists _, _; (split; [done|by apply regs_step])].
    destruct (acpi_pm1_evt_get_sts now (pm_regs m)) as [ar v]. eexists _, _. split; [done|by apply regs_step].
  - destruct Hw as (Hl & Hs & He). unfold xbox_pm_gpe_readb, acpi_gpe_ioport_readb. rewrite Hl. change (4 / 2) with 2.
    destruct (Z.ltb_spec (off - 0x20) 2).
    + destruct (fetch_Some (gpe_sts (pm_regs m)) (off - 0x20)) as [x ->]; [rewrite Hs; lia|]. by eexists _, _.
    + rewrite (proj2 (Z.ltb_lt (off - 0x20) 4)) by lia.
      destruct (fetch_Some (gpe_en (pm_regs m)) (off - 0x20 - 2)) as [x ->]; [rewrite He; lia|]. by eexists _, _.
  - unfold xbox_pm_gpio_read. case_match; eexists _, _; (split; [done|]); [|done]. split; [|done].
    constructor; [|apply Hm|apply Hm]. by eapply (chipset_ok m (chipset m <| field_pin := _ |>)); [apply Hm|].
Qed.

Lemma gpe_reset_wf ar : pm_wf ar -> exists ar', acpi_gpe_reset ar = Ok ar' /\ pm_wf ar'.
Proof.
  intros (Hl & Hs & He). unfold acpi_gpe_reset. rewrite Hl. change (Z.to_nat (4 / 2)) with 2%nat.
  destruct (blit (gpe_sts ar) 0 (replicate 2 0)) as [s'|] eqn:E1; cycle 1.
  { rewrite blit_ok in E1 by (rewrite ?Hs; done). discriminate E1. }
  destruct (blit (gpe_en ar) 0 (replicate 2 0)) as [e'|] eqn:E2; cycle 1.
  { rewrite blit_ok in E2 by (rewrite ?He; done). discriminate E2. }
  apply blit_inv in E1 as (_ & _ & L1 & _). apply blit_inv in E2 as (_ & _ & L2 & _).
  eexists. split; [reflexivity|]. unfold pm_wf. proj_red. by rewrite L1, L2.
Qed.

Lemma machine_do_ok op m : machine_ok m -> machine_op_ok (devices m) op -> exists m', machine_do op m = Ok m' /\ steps_to m m'.
Proof.
  intros Hm Hop. pose proof (mo_pm _ Hm) as Hw.
  destruct op as [op|now off|now off val|now ev|now|now]; cbn [machine_do].
  - destruct (pci_machine_ok op m Hm Hop) as (m' & Hdo & Hs). destruct op as [i pin level|i addr val l|i]; [by exists m'| |by exists m'].
    destruct (Z.eqb_spec i LPC_DEVICE) as [->|]; [|by exists m'].
    unfold xbox_lpc_config_write. cbn [pci_do] in Hdo. rewrite Hdo. cbn [mbind result_mbind result_bind].
    eexists. split; [done|]. case_match; [|done]. destruct Hs as ([Hh Ha Hp] & Hr & Hlen). split; [|done].
    constructor; [|done|done]. by apply (chipset_ok m' (chipset m' <| mcpx_rom := false |>)).
  - destruct (pm_read_ok now m off Hm) as (m' & v & -> & Hs). by exists m'.
  - by apply pm_write_ok.
  - unfold xbox_send_gpe, acpi_send_gpe_event. destruct Hw as (Hl & Hs & He).
    rewrite fetch_byte by (rewrite Hs; lia). cbn [mbind result_mbind result_bind].
    rewrite blit_one by (rewrite Hs; lia). cbn [mbind result_mbind result_bind]. apply update_sci_step; [done|].
    unfold pm_wf. proj_red. by rewrite length_insert.
  - by apply pm_update_step.
  - unfold pm_reset. destruct (gpe_reset_wf (acpi_pm_tmr_reset (acpi_pm1_cnt_reset (acpi_pm1_evt_reset (pm_regs m)))))
      as (ar & -> & Har); [by unfold acpi_pm1_cnt_reset; case_match|].
    cbn [mbind result_mbind result_bind]. by apply update_sci_step.
Qed.

Lemma op_ok_length ds ds' op : length ds' = length ds -> machine_op_ok ds op -> machine_op_ok ds' op.
Proof. intros Hl. destruct op as [[]| | | | |]; cbn; by rewrite ?Hl. Qed.

Lemma machine_run_ok ops : forall m, machine_ok m -> Forall (machine_op_ok (devices m)) ops ->
  exists m', machine_run ops m = Ok m' /\ steps_to m m'.
Proof.
  induction ops as [|op ops IH]; intros m Hm Hops; cbn [machine_run]; [exists m; split; [done|by split]|].
  apply Forall_cons_1 in Hops as [Hop Hops]. destruct (machine_do_ok op m Hm Hop) as (m1 & -> & Hm1 & Hr & Hlen).
  destruct (IH m1 Hm1) as (m' & Hrun & Hm' & Hr' & Hlen').
  { eapply Forall_impl; [exact Hops|]. intros op'. by apply op_ok_length. }
  exists m'. split; [exact Hrun|]. split; [done|]. split; congruence.
Qed.

(** Some pin holds a line up. *)
Lemma zsum_pos {A} (f : A -> Z) l : (forall x, x ∈ l -> 0 <= f x) -> (zsum f l <> 0 <-> exists x, x ∈ l /\ f x <> 0).
Proof.
  induction l as [|x l IH]; intros Hf; cbn [zsum].
  - split; [done|]. by intros (x & []%elem_of_nil & _).
  - pose proof (Hf x ltac:(apply elem_of_cons; by left)) as Hx.
    assert (forall y, y ∈ l -> 0 <= f y) as Hl by (intros y Hy; apply Hf, elem_of_cons; by right).
    specialize (IH Hl). assert (0 <= zsum f l) as Hs.
    { clear IH Hf. induction l as [|y l IH]; cbn [zsum]; [lia|].
      pose proof (Hl y ltac:(apply elem_of_cons; by left)). assert (0 <= zsum f l); [|lia]. apply IH.
      intros z Hz. apply Hl, elem_of_cons. by right. }
    split.
    + intros Hne. destruct (Z.eq_dec (f x) 0) as [H0|H0]; [|exists x; split; [apply elem_of_cons; by left|done]].
      destruct (proj1 IH) as (y & Hy & Hfy); [lia|]. exists y. split; [apply elem_of_cons; by right|done].
    + intros (y & [->|Hy]%elem_of_cons & Hfy); [lia|]. assert (zsum f l <> 0); [|lia]. apply IH. by exists y.
Qed.
Definition asserts (n : Z) (d : PCIDevice) : Prop :=
  exists pin, 0 <= pin < 4 /\ pci_route_pin (on_bus d) (PCI_SLOT (devfn d)) pin = Ok n /\ active_pin d pin = 1.
Lemma held_asserts n ds : held n ds <> 0 <-> exists d, d ∈ ds /\ asserts n d.
Proof.
  unfold held. rewrite zsum_pos.
  - f_equiv. intros d. f_equiv. unfold pins_held. rewrite zsum_pos.
    + split.
      * intros (pin & Hpin & Hne). exists pin. split; [by apply in_pins|]. unfold on_line in Hne.
        case_match; [|done]. case_match; [|done]. simplify_eq/=.
        match goal with H : (_ =? n) = true |- _ => apply Z.eqb_eq in H; subst end. split; [done|]. pose proof (active_range d pin). lia.
      * intros (pin & Hpin & Hr & Ha). exists pin. split.
        -- unfold pins. rewrite !elem_of_cons. lia.
        -- unfold on_line. rewrite Hr, Z.eqb_refl, Ha. done.
    + intros pin _. apply on_line_range, active_range.
  - intros d _. apply (zsum_bounds _ pins 1). intros pin _. apply on_line_range, active_range.
Qed.


(** ** Buttons *)

Definition ACPI_EXTSMI_STATUS : Z := 2.

(** A press of the power button: the controller notes the reason and raises the external
    system management interrupt, a general purpose event of power management. *)
Definition power_button_pressed (now : Z) (smc : SMBusSMCDevice) m : result (SMBusSMCDevice * machine) :=
  m ← xbox_send_gpe now ACPI_EXTSMI_STATUS m;
  Ok (xbox_smc_power_button smc, m).

Lemma has_common a b k : 0 <= k -> Z.testbit a k = true -> Z.testbit b k = true -> has a b = true.
Proof.
  intros Hk Ha Hb. unfold has. apply negb_true_iff, Z.eqb_neq. intros H0.
  assert (Z.testbit (Z.land a b) k = true) as H by (rewrite Z.land_spec, Ha, Hb; done).
  by rewrite H0, Z.bits_0 in H.
Qed.

(** A general purpose event the guest has enabled is pending and its interrupt is up. *)
Record event_up (r k : Z) m : Prop := {
  eu_machine : machine_ok m;
  eu_route : acpi_pic_of (devices m) 0 = Some r;
  eu_pending : Z.testbit (byte (gpe_sts (pm_regs m)) 0) k = true;
  eu_enabled : Z.testbit (byte (gpe_en (pm_regs m)) 0) k = true;
  eu_line : rd (pic (chipset m)) r = 1;
}.

Lemma sci_now_pending now k ar : 0 <= k -> Z.testbit (byte (gpe_sts ar) 0) k = true ->
  Z.testbit (byte (gpe_en ar) 0) k = true -> sci_now now ar = 1.
Proof.
  intros Hk Hs He. unfold sci_now, acpi_pm1_evt_get_sts. case_match; proj_red;
    by rewrite (has_common _ _ k Hk Hs He), orb_true_r.
Qed.

Lemma send_gpe_up now ev k r m : machine_ok m -> acpi_pic_of (devices m) 0 = Some r -> 0 <= k < 8 ->
  Z.testbit (Z.lor (byte (gpe_sts (pm_regs m)) 0) ev) k = true ->
  Z.testbit (byte (gpe_en (pm_regs m)) 0) k = true ->
  exists m', xbox_send_gpe now ev m = Ok m' /\ event_up r k m'.
Proof.
  intros Hm Hr Hk Hs He. destruct (mo_pm _ Hm) as (Hl & Hls & Hle). unfold xbox_send_gpe, acpi_send_gpe_event.
  rewrite fetch_byte by (rewrite Hls; lia). cbn [mbind result_mbind result_bind].
  rewrite blit_one by (rewrite Hls; lia). cbn [mbind result_mbind result_bind].
  set (ar := pm_regs m <| gpe_sts := _ |>).
  assert (Z.testbit (byte (gpe_sts ar) 0) k = true) as Hs'.
  { unfold ar. proj_red. destruct (gpe_sts (pm_regs m)) as [|x l]; [discriminate Hls|].
    change (Z.testbit (u8 (Z.lor x ev)) k = true). unfold u8. change 256 with (2 ^ 8).
    by rewrite Z.mod_pow2_bits_low by lia. }
  destruct (update_sci_of_ok now ar m Hm) as (ar' & -> & Hw' & Hs1 & He1 & _).
  { unfold pm_wf, ar. proj_red. by rewrite length_insert. }
  rewrite (sci_now_pending now k ar) by (done || lia). eexists. split; [done|].
  destruct (driven_step ar' 1 m Hm Hw') as (Hm' & _ & _). destruct (driven_regs 0 1 m) as [_ Hdev].
  constructor; [done| | | |].
  - change (devices _) with (devices (driven 0 1 m)). by rewrite Hdev.
  - change (pm_regs _) with ar'. by rewrite Hs1.
  - change (pm_regs _) with ar'. by rewrite He1.
  - unfold driven. rewrite Hr. change (rd (wr r 1 (pic (chipset m))) r = 1). by rewrite rd_wr_eq.
Qed.

(** What a guest may do before it acknowledges the event: anything with power management
    but writing event registers. *)
Definition leaves_events (op : machine_op) : Prop :=
  match op with
  | PmRead _ _ | GpeEvent _ _ => True
  | PmWrite _ off _ => ~ 0 <= off < 4 /\ ~ 0x20 <= off < 0x24
  | _ => False
  end.

Lemma event_up_regs r k m m' : event_up r k m -> machine_ok m' -> devices m' = devices m ->
  pic (chipset m') = pic (chipset m) -> gpe_sts (pm_regs m') = gpe_sts (pm_regs m) ->
  gpe_en (pm_regs m') = gpe_en (pm_regs m) -> event_up r k m'.
Proof. intros [] Hm Hd Hp Hs He. constructor; [done|..]; by rewrite ?Hd, ?Hp, ?Hs, ?He. Qed.
Lemma pm_read_up r k now m off m' v : event_up r k m -> pm_io_read now m off = Ok (m', v) -> machine_ok m' -> event_up r k m'.
Proof.
  intros Hu Hrun Hm. apply (event_up_regs _ _ m); [done|done|..]; clear Hu Hm; revert Hrun;
    unfold pm_io_read, acpi_pm_evt_read, acpi_pm1_evt_get_sts, xbox_pm_gpio_read, mbind, result_mbind, result_bind;
    repeat case_match; simplify_eq; intros [= <- _]; reflexivity.
Qed.
Lemma pm_write_up r k now m off val m' : event_up r k m -> ~ 0 <= off < 4 -> ~ 0x20 <= off < 0x24 ->
  pm_io_write now m off val = Ok m' -> machine_ok m' -> event_up r k m'.
Proof.
  intros Hu H0 H1 Hrun Hm. apply (event_up_regs _ _ m); [done|done|..]; clear Hu Hm; revert Hrun; unfold pm_io_write;
    (destruct (_ && _) eqn:E0; [lia|]; clear E0; destruct (_ && _); [|destruct (_ && _); [|destruct (_ && _) eqn:E1; [lia|]]]);
    unfold acpi_pm_cnt_write, acpi_pm1_cnt_update, acpi_pm_tmr_write, xbox_pm_gpio_write;
    repeat case_match; intros [= <-]; reflexivity.
Qed.

Lemma events_left_up r k ops : 0 <= k < 8 -> Forall leaves_events ops -> forall m, event_up r k m ->
  exists m', machine_run ops m = Ok m' /\ event_up r k m'.
Proof.
  intros Hk Hops. induction Hops as [|op ops Hop Hops IH]; intros m Hu; cbn [machine_run]; [by exists m|].
  enough (exists m1, machine_do op m = Ok m1 /\ event_up r k m1) as (m1 & -> & Hu1) by (by apply IH).
  pose proof (eu_machine _ _ _ Hu) as Hm.
  destruct op as [|now off|now off val|now ev| |]; cbn [leaves_events machine_do] in *; try done.
  - destruct (pm_read_ok now m off Hm) as (m1 & v & Hrun & Hm1 & _). rewrite Hrun. exists m1. split; [done|].
    by apply (pm_read_up r k now m off m1 v).
  - destruct (pm_write_ok now m off val Hm) as (m1 & Hrun & Hm1 & _). exists m1. split; [done|].
    apply (pm_write_up r k now m off val m1); [done|apply Hop|apply Hop|done|done].
  - apply send_gpe_up; [done|apply Hu|done| |apply Hu]. rewrite Z.lor_spec. by rewrite (eu_pending _ _ _ Hu).
Qed.


(** A pending event loses its interrupt.  [pm_update_sci], which runs after every
    write of the PM1 event registers and when the timer expires, computes the level of
    the interrupt from the PM1 events alone: with no PM1 event enabled, acknowledging the
    PM1 status or the expiry of the timer lowers the input although an enabled general
    purpose event is still pending and [acpi_update_sci] would keep the input up. *)
Theorem pm1_write_drops_gpe now val r k m : event_up r k m -> 0 <= k < 8 -> evt_en (pm_regs m) = 0 ->
  forall op, op = PmWrite now 0 val \/ op = PmTimer now ->
  exists m', machine_do op m = Ok m' /\ rd (pic (chipset m')) r = 0 /\ sci_now now (pm_regs m') = 1.
Proof.
  intros Hu Hk He op Hop.
  enough (forall ar, pm_wf ar -> gpe_sts ar = gpe_sts (pm_regs m) -> gpe_en ar = gpe_en (pm_regs m) -> evt_en ar = 0 ->
    exists m', pm_update_sci now (set_pm_regs ar m) = Ok m' /\ rd (pic (chipset m')) r = 0 /\ sci_now now (pm_regs m') = 1) as Hall.
  { pose proof (mo_pm _ (eu_machine _ _ _ Hu)) as Hw. destruct Hop as [-> | ->]; cbn [machine_do].
    - apply (Hall (acpi_pm1_evt_write_sts now (pm_regs m) (u16 val))); [by apply write_sts_wf|..];
        unfold acpi_pm1_evt_write_sts, acpi_pm1_evt_get_sts; repeat case_match; by simplify_eq/=.
    - by apply Hall. }
  intros ar Hw Hs Hen He0. pose proof (set_regs_ok ar m (eu_machine _ _ _ Hu) Hw) as Hm.
  destruct (pm_update_sci_ok now _ Hm) as (ar' & -> & _ & Hs' & He'). eexists. split; [done|].
  change (gpe_sts (pm_regs (set_pm_regs ar m))) with (gpe_sts ar) in Hs'.
  change (gpe_en (pm_regs (set_pm_regs ar m))) with (gpe_en ar) in He'. split.
  - change (pm_regs (set_pm_regs ar m)) with ar. assert (pm1_now now ar = 0) as ->.
    { unfold pm1_now, acpi_pm1_evt_get_sts. case_match; proj_red; by rewrite He0, Z.land_0_r. }
    unfold driven. change (devices (set_pm_regs ar m)) with (devices m). rewrite (eu_route _ _ _ Hu).
    change (rd (wr r 0 (pic (chipset m))) r = 0). by rewrite rd_wr_eq.
  - change (pm_regs _) with ar'. apply (sci_now_pending now k); [lia|..]; rewrite ?Hs', ?He', ?Hs, ?Hen; apply Hu.
Qed.

(** ** The SMBus registers through the window *)

Section SmbusWindow.
Context {D : Type} `{!I2CSlaveClass D}.
Implicit Types smb : AMD756SMBus D.

Lemma smb_masked smb a b val : Z.land a 0x3f = Z.land b 0x3f ->
  amd756_smb_ioport_writeb smb a val = amd756_smb_ioport_writeb smb b val /\
  amd756_smb_ioport_readb smb a = amd756_smb_ioport_readb smb b.
Proof. unfold amd756_smb_ioport_writeb, amd756_smb_ioport_readb. by intros ->. Qed.
Lemma smb_beyond smb a val : 0x20 <= a < 0x40 ->
  amd756_smb_ioport_writeb smb a val = Ok smb /\ amd756_smb_ioport_readb smb a = Ok (smb, 0).
Proof.
  intros Ha. unfold amd756_smb_ioport_writeb, amd756_smb_ioport_readb.
  assert (Z.land a 0x3f = a) as -> by (change 0x3f with (Z.ones 6); rewrite Z.land_ones, Z.mod_small by lia; done).
  repeat (rewrite (proj2 (Z.eqb_neq a _)) by (unfold SMB_GLOBAL_STATUS, SMB_GLOBAL_ENABLE, SMB_HOST_COMMAND,
    SMB_HOST_ADDRESS, SMB_HOST_DATA, SMB_HOST_BLOCK_DATA; lia)). done.
Qed.
Lemma smb_offset_low dev r a : io_regions dev !! 1%nat = Some r ->
  exists o, smb_offset dev a = Ok o /\ Z.land o 0x3f = Z.land (a - region_addr r) 0x3f.
Proof.
  intros Hr. unfold smb_offset. rewrite (fetch_ok _ XBOX_SMBUS_BASE_BAR r) by done. cbn [mbind result_mbind result_bind].
  eexists. split; [done|]. change 0x3f with (Z.ones 6). rewrite !Z.land_ones by lia. unfold u64.
  apply Z.mod_mod_divide. by exists (2 ^ 58).
Qed.

(** The SMBus controller behind its window.  The window is 32 ports long, and the
    handlers subtract its base although they are given offsets.  Where the base is a
    multiple of 64 the registers the guest reaches are those of the controller; at any
    other base the guest may program, an odd multiple of 32, every write is ignored and
    every read gives 0. *)
Theorem smbus_window_base dev r smb a val : io_regions dev !! 1%nat = Some r -> 0 <= a < 0x20 ->
  (region_addr r mod 64 = 0 ->
     xbox_smb_ioport_writeb dev smb a val = amd756_smb_ioport_writeb smb a val /\
     xbox_smb_ioport_readb dev smb a = amd756_smb_ioport_readb smb a) /\
  (region_addr r mod 64 = 32 ->
     xbox_smb_ioport_writeb dev smb a val = Ok smb /\ xbox_smb_ioport_readb dev smb a = Ok (smb, 0)).
Proof.
  intros Hr Ha. destruct (smb_offset_low dev r a Hr) as (o & Ho & Hmask). change 0x3f with (Z.ones 6) in Hmask.
  unfold xbox_smb_ioport_writeb, xbox_smb_ioport_readb. rewrite Ho. cbn [mbind result_mbind result_bind].
  split; intros Hb.
  - apply smb_masked. change 0x3f with (Z.ones 6). rewrite Hmask, !Z.land_ones by lia.
    rewrite Zminus_mod. change (2 ^ 6) with 64. by rewrite Hb, Z.sub_0_r, Z.mod_mod by lia.
  - destruct (smb_masked smb o (a + 32) val) as [-> ->]; [|apply smb_beyond; lia].
    change 0x3f with (Z.ones 6). rewrite Hmask, !Z.land_ones by lia. change (2 ^ 6) with 64.
    rewrite Zminus_mod, Hb. rewrite (Z.mod_small a) by lia. rewrite (Z.mod_small (a + 32)) by lia.
    symmetry. apply (Z.mod_unique _ _ (-1)); lia.
Qed.
End SmbusWindow.

(** ** The console *)

(** The devices of [xbox_pci_init] and [xbox_init_common], in the order of their
    creation; the graphics chip is behind the AGP bridge. *)
Definition PCI_DEVFN (slot func : Z) : Z := Z.lor (Z.shiftl (Z.land slot 0x1f) 3) (Z.land func 0x07).
Definition xbox_devices (lpc_config : mem) : list PCIDevice :=
  [new_device (PCI_DEVFN 0 0) RootBus;
   new_device (PCI_DEVFN 1 0) RootBus <| config := lpc_config |>;
   new_device (PCI_DEVFN 1 1) RootBus;
   new_device (PCI_DEVFN 30 0) RootBus;
   new_device (PCI_DEVFN 9 0) RootBus;
   new_device (PCI_DEVFN 3 0) RootBus;
   new_device (PCI_DEVFN 2 0) RootBus;
   new_device (PCI_DEVFN 4 0) RootBus;
   new_device (PCI_DEVFN 5 0) RootBus;
   new_device (PCI_DEVFN 6 0) RootBus;
   new_device (PCI_DEVFN 0 0) (SecondaryBus 30 RootBus);
   new_device (PCI_DEVFN 0 3) RootBus].

(** The routing values of the hardware, with interrupts 12 and 11 for power management. *)
Definition hardware_routing : mem :=
  pci_set_long (pci_set_long (pci_set_long ∅ XBOX_LPC_ACPI_IRQ_ROUT 0x0b0c) XBOX_LPC_PIRQ_ROUT 0x00031000)
    XBOX_LPC_INT_IRQ_ROUT 0x0e065491.
Definition acpi0 : ACPIREGS := acpi_gpe_init 4 (mkACPI None 0 0 0 0 2 false 0 [] [] []).
Definition xbox_machine : machine :=
  mkHost (xbox_devices hardware_routing) ∅ (mkXboxLpc acpi0 0 false ∅ true).

Definition hardware_inputs : list (option Z) :=
  [Some 1; Some 9; Some 4; Some 5; Some 6; None; Some 14; None; Some 0; None; Some 3; Some 0].
Lemma twelve n : 0 <= n < 12 -> n ∈ [0; 1; 2; 3; 4; 5; 6; 7; 8; 9; 10; 11].
Proof. rewrite !elem_of_cons. lia. Qed.
Lemma hardware_line n : 0 <= n < 12 -> pic_of (devices xbox_machine) n = nth (Z.to_nat n) hardware_inputs None.
Proof.
  intros Hn%twelve. revert n Hn. apply Forall_forall.
  repeat (apply Forall_cons_2; [vm_compute; reflexivity|]). apply Forall_nil_2.
Qed.
Lemma hardware_distinct n k p : 0 <= n < 12 -> 0 <= k < 12 -> line_used k = true -> n <> k ->
  pic_of (devices xbox_machine) n = Some p -> pic_of (devices xbox_machine) k <> Some p.
Proof.
  intros Hn Hk Hu Hne. rewrite !hardware_line by done. revert k Hk Hu Hne p.
  assert (forallb (fun n => forallb (fun k => negb (line_used k) || (n =? k) ||
    match nth (Z.to_nat n) hardware_inputs None, nth (Z.to_nat k) hardware_inputs None with
    | Some p, Some q => negb (p =? q) | _, _ => true end)
    [0; 1; 2; 3; 4; 5; 6; 7; 8; 9; 10; 11]) [0; 1; 2; 3; 4; 5; 6; 7; 8; 9; 10; 11] = true) as H by (vm_compute; reflexivity).
  rewrite forallb_forall in H. specialize (H n ltac:(by apply list_elem_of_In, twelve)). rewrite forallb_forall in H.
  intros k Hk Hu Hne p. specialize (H k ltac:(by apply list_elem_of_In, twelve)).
  rewrite Hu, (proj2 (Z.eqb_neq n k) Hne) in H. intros Hp Hq. rewrite Hp, Hq, Z.eqb_refl in H. done.
Qed.

Lemma xbox_machine_ok : machine_ok xbox_machine.
Proof.
  constructor; [| |done].
  - apply quiet_host_ok; [|done| |by repeat constructor|done|].
    + unfold xbox_machine, xbox_devices. cbn [devices].
      repeat (apply Forall_cons_2; [|]); [..|apply Forall_nil_2];
        match goal with
        | |- dev_wf (setf _ _) => apply new_device_wf
        | |- dev_wf ?d => change d with (d <| config := config d |>); apply new_device_wf
        end; unfold pins; repeat (apply Forall_cons_2; [vm_compute; split; congruence|]); apply Forall_nil_2.
    + split; [by eexists|]. intros n k p Hn Hk Hu Hne. by apply hardware_distinct.
    + intros n Hn Hu p Hp. reflexivity.
  - intros k n p Hk Hn Hu Ha Hp. rewrite hardware_line in Hp by done.
    assert (p = 12 \/ p = 11) as Hp12.
    { assert (k = 0 \/ k = 1) as [-> | ->] by lia; vm_compute in Ha; injection Ha; lia. }
    assert (Forall (fun x => x <> Some p) hardware_inputs) as Hall
      by (destruct Hp12 as [-> | ->]; repeat (apply Forall_cons_2; [congruence|]); apply Forall_nil_2).
    rewrite Forall_forall in Hall. apply (Hall (Some p)); [|done]. rewrite <- Hp. apply list_elem_of_In, nth_In.
    change (length hardware_inputs) with 12%nat. lia.
Qed.


(** The console with the external management event enabled. *)
Definition armed_machine : machine := set_pm_regs (acpi0 <| gpe_en := [2; 0; 0; 0] |>) xbox_machine.
Lemma armed_machine_ok : machine_ok armed_machine.
Proof. by apply set_regs_ok; [apply xbox_machine_ok|]. Qed.


Definition pressed_machine : machine :=
  set_pm_regs (acpi0 <| gpe_en := [2; 0; 0; 0] |> <| gpe_sts := [2; 0; 0; 0] |>) (driven 0 1 xbox_machine).
Lemma pressed_machine_up : event_up 12 1 pressed_machine.
Proof.
  constructor.
  - apply set_regs_ok; [apply driven_ok; [apply xbox_machine_ok|lia]|done].
  - vm_compute. reflexivity.
  - vm_compute. reflexivity.
  - vm_compute. reflexivity.
  - vm_compute. reflexivity.
Qed.
Lemma pm1_write_drops_gpe_witness :
  exists m', machine_do (PmWrite 8 0 1) pressed_machine = Ok m' /\ rd (pic (chipset m')) 12 = 0 /\ sci_now 8 (pm_regs m') = 1.
Proof.
  apply (pm1_write_drops_gpe 8 1 12 1 pressed_machine); [exact pressed_machine_up|lia|reflexivity|by left].
Defined.

Definition smbus_dev : PCIDevice :=
  new_device (PCI_DEVFN 1 1) RootBus <| io_regions := [mkRegion 0 0 0; mkRegion 0xC000 32 1] |>.
Lemma smbus_window_base_witness :
  xbox_smb_ioport_readb smbus_dev (amd0 (bus0 0x10 smc0)) 8 = amd756_smb_ioport_readb (amd0 (bus0 0x10 smc0)) 8.
Proof.
  refine (proj2 (proj1 (smbus_window_base smbus_dev (mkRegion 0xC000 32 1) (amd0 (bus0 0x10 smc0)) 8 0 _ _) _)); [reflexivity|lia|reflexivity].
Defined.
