(* ===== verification/DspArith.v ===== *)
(** * The 56-bit arithmetic of the DSP
    (src/xemu/hw/xbox/mcpx/apu/dsp/interp/dsp_cpu.c, "56bit arithmetic")

    An accumulator is an array of three [uint32_t]: bits 55..48, 47..24 and
    23..0.  The functions work limb by limb; the theorems state them as
    arithmetic on the 56-bit two's complement numbers the limbs stand for. *)

From S2P Require Import Prelude.

Definition DSP_SR_C : Z := 0x00.
Definition DSP_SR_V : Z := 0x01.
Definition DSP_SR_Z : Z := 0x02.
Definition DSP_SR_N : Z := 0x03.
Definition DSP_SR_U : Z := 0x04.
Definition DSP_SR_E : Z := 0x05.
Definition DSP_SR_L : Z := 0x06.
Definition DSP_SR_I0 : Z := 0x08.
Definition DSP_SR_I1 : Z := 0x09.
Definition DSP_SR_S0 : Z := 0x0a.
Definition DSP_SR_S1 : Z := 0x0b.
Definition DSP_SR_LF : Z := 0x0f.

(** [uint32_t dest[3]] *)
Record acc := mkAcc { a2 : Z; a1 : Z; a0 : Z }.
Definition acc_zero : acc := mkAcc 0 0 0.

(** [(overflow<<DSP_SR_L)|(v<<DSP_SR_V)|(carry<<DSP_SR_C)] *)
Definition flags (l v c : Z) : Z :=
  u16 (Z.lor (Z.lor (Z.shiftl l DSP_SR_L) (Z.shiftl v DSP_SR_V)) (Z.shiftl c DSP_SR_C)).

Definition dsp_add56 (source dest : acc) : acc * Z :=
  let flg_s := bit_of (a2 source) 7 in
  let flg_d := bit_of (a2 dest) 7 in
  let d2 := u32 (a0 dest + a0 source) in
  let d1 := u32 (a1 dest + (a1 source + bit_of d2 24)) in
  let d0 := u32 (a2 dest + (a2 source + bit_of d1 24)) in
  let carry := bit_of d0 8 in
  let d2 := Z.land d2 (BITMASK 24) in
  let d1 := Z.land d1 (BITMASK 24) in
  let d0 := Z.land d0 (BITMASK 8) in
  let flg_r := bit_of d0 7 in
  let overflow := Z.land (Z.lxor flg_s flg_r) (Z.lxor flg_d flg_r) in
  (mkAcc d0 d1 d2, flags overflow overflow carry).

Definition dsp_sub56 (source dest : acc) : acc * Z :=
  let dest_save := u16 (a2 dest) in
  let d2 := u32 (a0 dest - a0 source) in
  let d1 := u32 (a1 dest - (a1 source + bit_of d2 24)) in
  let d0 := u32 (a2 dest - (a2 source + bit_of d1 24)) in
  let carry := bit_of d0 8 in
  let d2 := Z.land d2 (BITMASK 24) in
  let d1 := Z.land d1 (BITMASK 24) in
  let d0 := Z.land d0 (BITMASK 8) in
  let flg_s := bit_of (a2 source) 7 in
  let flg_d := bit_of dest_save 7 in
  let flg_r := bit_of d0 7 in
  let overflow := Z.land (Z.lxor flg_s flg_d) (Z.lxor flg_r flg_d) in
  (mkAcc d0 d1 d2, flags overflow overflow carry).

Definition dsp_abs56 (dest : acc) : acc * Z :=
  if has (a2 dest) (bit 7) then dsp_sub56 dest acc_zero else (dest, 0).

(** [dest[2] | ((uint64_t)dest[1] << 24) | ((uint64_t)dest[0] << 48)] *)
Definition acc_u64 (d : acc) : Z :=
  Z.lor (Z.lor (a0 d) (u64 (Z.shiftl (a1 d) 24))) (u64 (Z.shiftl (a2 d) 48)).

(** The three assignments that store bits 55..0 of [v]. *)
Definition acc_of_u64 (v : Z) : acc :=
  mkAcc (Z.land (Z.shiftr v 48) (BITMASK 8)) (Z.land (Z.shiftr v 24) (BITMASK 24))
        (Z.land v (BITMASK 24)).

(** A 64-bit shift amount must be between 0 and 63. *)
Definition shift_ok (n : Z) : bool := (0 <=? n) && (n <? 64).

Definition dsp_asl56 (dest : acc) (n : Z) : result (acc * Z) :=
  if negb (shift_ok n && shift_ok (56 - n)) then Fault BadShift
  else
    let dest_v := acc_u64 dest in
    let carry := bit_of dest_v (56 - n) in
    let dest_s := u64 (Z.shiftl dest_v n) in
    let overflow := Z.b2z (negb (Z.shiftr dest_v (56 - n) =? 0)) in
    let v := Z.b2z (negb (bit_of dest_v 55 =? bit_of dest_s 55)) in
    Ok (acc_of_u64 dest_s, flags overflow v carry).

Definition dsp_asr56 (dest : acc) (n : Z) : result (acc * Z) :=
  if negb (shift_ok n && shift_ok (n - 1)) then Fault BadShift
  else
    let dest_v := acc_u64 dest in
    let carry := bit_of dest_v (n - 1) in
    let dest_v := Z.shiftr dest_v n in
    Ok (acc_of_u64 dest_v, u16 (Z.shiftl carry DSP_SR_C)).

(** [if (source & (1<<23)) { signe ^= 1; source = (1<<24) - source; }] *)
Definition mul_operand (source signe : Z) : Z * Z :=
  if has source (bit 23) then (u32 (bit 24 - source), Z.lxor signe 1) else (source, signe).

(** The three limbs of the product from the four partial products. *)
Definition mul_limbs (part0 part1 part2 part3 : Z) : acc :=
  let d2 := part0 in
  let d2 := u32 (d2 + u32 (Z.shiftl (Z.land part1 (BITMASK 12)) 12)) in
  let d2 := u32 (d2 + u32 (Z.shiftl (Z.land part2 (BITMASK 12)) 12)) in
  let d1 := Z.land (Z.shiftr part1 12) (BITMASK 12) in
  let d1 := u32 (d1 + Z.land (Z.shiftr part2 12) (BITMASK 12)) in
  let d1 := u32 (d1 + part3) in
  let d0 := 0 in
  let value := Z.land (Z.shiftr d2 24) (BITMASK 8) in
  let '(d1, d2) := if negb (value =? 0) then (u32 (d1 + value), Z.land d2 (BITMASK 24))
                   else (d1, d2) in
  let value := Z.land (Z.shiftr d1 24) (BITMASK 8) in
  let '(d0, d1) := if negb (value =? 0) then (u32 (d0 + value), Z.land d1 (BITMASK 24))
                   else (d0, d1) in
  mkAcc d0 d1 d2.

Definition dsp_mul56 (source1 source2 : Z) (signe : Z) : result acc :=
  let '(source1, signe) := mul_operand source1 signe in
  let '(source2, signe) := mul_operand source2 signe in
  let lo1 := Z.land source1 (BITMASK 12) in
  let hi1 := Z.land (Z.shiftr source1 12) (BITMASK 12) in
  let lo2 := Z.land source2 (BITMASK 12) in
  let hi2 := Z.land (Z.shiftr source2 12) (BITMASK 12) in
  let dest := mul_limbs (u32 (lo1 * lo2)) (u32 (hi1 * lo2)) (u32 (lo1 * hi2)) (u32 (hi1 * hi2)) in
  '(dest, _) ← dsp_asl56 dest 1;
  if negb (signe =? 0) then Ok (fst (dsp_sub56 dest acc_zero)) else Ok dest.

(** [sr] is the status register. *)
Definition dsp_rnd56 (sr : Z) (dest : acc) : acc :=
  if has sr (bit DSP_SR_S0) then
    let dest := fst (dsp_add56 (mkAcc 0 1 0) dest) in
    let d1 := if (a0 dest =? 0) && (Z.land (a1 dest) 1 =? 0)
              then Z.land (a1 dest) (0xffffff - 0x3) else a1 dest in
    mkAcc (a2 dest) (Z.land d1 0xfffffe) 0
  else if has sr (bit DSP_SR_S1) then
    let dest := fst (dsp_add56 (mkAcc 0 0 (bit 22)) dest) in
    let d2 := if Z.land (a0 dest) 0x7fffff =? 0 then 0 else a0 dest in
    mkAcc (a2 dest) (a1 dest) (Z.land d2 0x800000)
  else
    let dest := fst (dsp_add56 (mkAcc 0 0 (bit 23)) dest) in
    let d1 := if a0 dest =? 0 then Z.land (a1 dest) 0xfffffe else a1 dest in
    mkAcc (a2 dest) d1 0.

(** [(int32_t)v << shift] and the arithmetic [>> shift]; a shift of 32 is undefined. *)
Definition dsp_signextend (bits v : Z) : result Z :=
  let shift := 32 - bits in
  _ ← check (0 <? shift) "shift > 0";
  if 32 <=? shift then Fault BadShift
  else Ok (u32 (Z.shiftr (s32 (Z.shiftl v shift)) shift)).

(** ** Values *)

Definition acc_wf (d : acc) : Prop :=
  0 <= a2 d < 2 ^ 8 /\ 0 <= a1 d < 2 ^ 24 /\ 0 <= a0 d < 2 ^ 24.
Definition val56 (d : acc) : Z := a2 d * 2 ^ 48 + a1 d * 2 ^ 24 + a0 d.
Definition sval56 (d : acc) : Z := signed 56 (val56 d).

(** The multiple of [2^k] nearest to [x], the even one on a tie. *)
Definition round_even (k x : Z) : Z :=
  let q := (x + 2 ^ (k - 1)) / 2 ^ k in
  if (x + 2 ^ (k - 1)) mod 2 ^ k =? 0 then 2 * (q / 2) * 2 ^ k else q * 2 ^ k.

(** The position of the rounded bit in the scaling mode of [sr]. *)
Definition rnd_pos (sr : Z) : Z :=
  if Z.testbit sr DSP_SR_S0 then 25 else if Z.testbit sr DSP_SR_S1 then 23 else 24.

(** ** Addition and subtraction *)

Lemma bit_of_range x n : bit_of x n = 0 \/ bit_of x n = 1.
Proof.
  unfold bit_of. rewrite (Z.land_ones _ 1 ltac:(done) : Z.land _ 1 = _).
  pose proof (Z.mod_pos_bound (Z.shiftr x n) (2 ^ 1) eq_refl). lia.
Qed.

(** The sign of a 56-bit number is bit 7 of its top limb. *)
Lemma sign_bit d : acc_wf d ->
  bit_of (a2 d) 7 = if val56 d <? 2 ^ 55 then 0 else 1.
Proof.
  intros (H2 & H1 & H0). rewrite bit_of_div by done. unfold val56.
  destruct (Z.ltb_spec (a2 d * 2 ^ 48 + a1 d * 2 ^ 24 + a0 d) (2 ^ 55));
    Z.to_euclidean_division_equations; lia.
Qed.

(** A limb with its carry, and a difference with its borrow. *)
Lemma limb_carry n x : 0 <= n -> 0 <= x < 2 ^ (n + 1) ->
  x = Z.land x (BITMASK n) + bit_of x n * 2 ^ n /\ 0 <= Z.land x (BITMASK n) < 2 ^ n.
Proof.
  intros Hn Hx. rewrite land_BITMASK, bit_of_div by done.
  rewrite Z.pow_add_r in Hx by lia.
  pose proof (Z.pow_pos_nonneg 2 n ltac:(lia) Hn) as Hp.
  rewrite (Z.mod_small (x / 2 ^ n) 2); Z.to_euclidean_division_equations; nia.
Qed.

Lemma limb_borrow n y : n = 24 \/ n = 8 -> - 2 ^ n <= y < 2 ^ n ->
  y = Z.land (u32 y) (BITMASK n) - bit_of (u32 y) n * 2 ^ n /\
  0 <= Z.land (u32 y) (BITMASK n) < 2 ^ n.
Proof.
  intros [->| ->] Hy; rewrite land_BITMASK, bit_of_div by done; unfold u32;
    Z.to_euclidean_division_equations; lia.
Qed.

Lemma b2z_01 b : Z.b2z b = 0 \/ Z.b2z b = 1.
Proof. destruct b; auto. Qed.

Lemma flags_bits l v c :
  (l = 0 \/ l = 1) -> (v = 0 \/ v = 1) -> (c = 0 \/ c = 1) ->
  bit_of (flags l v c) DSP_SR_L = l /\ bit_of (flags l v c) DSP_SR_V = v /\
  bit_of (flags l v c) DSP_SR_C = c.
Proof. by intros [->| ->] [->| ->] [->| ->]. Qed.

(** The signed result is exact unless the signs say otherwise. *)
Lemma sval_cases d : acc_wf d ->
  0 <= val56 d < 2 ^ 56 /\
  (bit_of (a2 d) 7 = 0 /\ val56 d < 2 ^ 55 /\ sval56 d = val56 d \/
   bit_of (a2 d) 7 = 1 /\ 2 ^ 55 <= val56 d /\ sval56 d = val56 d - 2 ^ 56).
Proof.
  intros Hwf. rewrite (sign_bit d Hwf). unfold sval56, signed. change (2 ^ (56 - 1)) with (2 ^ 55).
  destruct Hwf as (H2 & H1 & H0). split; [unfold val56; lia|].
  destruct (Z.ltb_spec (val56 d) (2 ^ 55)); auto.
Qed.

Ltac sign_cases :=
  repeat match goal with
  | H : _ \/ _ |- _ => destruct H as [(-> & ? & ->)|(-> & ? & ->)]
  end;
  match goal with |- _ = Z.b2z (negb (?x =? ?y)) => destruct (Z.eqb_spec x y) end;
  first [reflexivity | cbn [Z.b2z negb]; lia].

Lemma add_overflow s d r c : acc_wf s -> acc_wf d -> acc_wf r ->
  val56 s + val56 d = val56 r + c * 2 ^ 56 ->
  Z.land (Z.lxor (bit_of (a2 s) 7) (bit_of (a2 r) 7)) (Z.lxor (bit_of (a2 d) 7) (bit_of (a2 r) 7))
  = Z.b2z (negb (sval56 r =? sval56 s + sval56 d)).
Proof.
  intros Hs Hd Hr Hsum. destruct (sval_cases s Hs) as [Rs Cs], (sval_cases d Hd) as [Rd Cd],
    (sval_cases r Hr) as [Rr Cr]. sign_cases.
Qed.

Lemma sub_overflow s d r c : acc_wf s -> acc_wf d -> acc_wf r ->
  val56 d - val56 s = val56 r - c * 2 ^ 56 ->
  Z.land (Z.lxor (bit_of (a2 s) 7) (bit_of (a2 d) 7)) (Z.lxor (bit_of (a2 r) 7) (bit_of (a2 d) 7))
  = Z.b2z (negb (sval56 r =? sval56 d - sval56 s)).
Proof.
  intros Hs Hd Hr Hsum. destruct (sval_cases s Hs) as [Rs Cs], (sval_cases d Hd) as [Rd Cd],
    (sval_cases r Hr) as [Rr Cr]. sign_cases.
Qed.

Lemma add56_spec s d : acc_wf s -> acc_wf d ->
  let '(r, sr) := dsp_add56 s d in
  acc_wf r /\ val56 r = (val56 s + val56 d) mod 2 ^ 56 /\
  bit_of sr DSP_SR_C = (val56 s + val56 d) / 2 ^ 56 /\
  bit_of sr DSP_SR_V = Z.b2z (negb (sval56 r =? sval56 s + sval56 d)) /\
  bit_of sr DSP_SR_L = bit_of sr DSP_SR_V.
Proof.
  intros Hs Hd. pose proof (sval_cases s Hs) as [Rs Cs]. pose proof (sval_cases d Hd) as [Rd Cd].
  destruct Hs as (Hs2 & Hs1 & Hs0), Hd as (Hd2 & Hd1 & Hd0). unfold dsp_add56.
  set (x2 := a0 d + a0 s). pose proof (bit_of_range x2 24) as B2.
  rewrite (u32_id x2) by (unfold is_u32; lia).
  destruct (limb_carry 24 x2) as [E2 R2]; [done|lia|].
  set (x1 := a1 d + (a1 s + bit_of x2 24)). pose proof (bit_of_range x1 24) as B1.
  rewrite (u32_id x1) by (unfold is_u32; lia).
  destruct (limb_carry 24 x1) as [E1 R1]; [done|lia|].
  set (x0 := a2 d + (a2 s + bit_of x1 24)). pose proof (bit_of_range x0 8) as B0.
  rewrite (u32_id x0) by (unfold is_u32; lia).
  destruct (limb_carry 8 x0) as [E0 R0]; [done|lia|].
  set (r := mkAcc (Z.land x0 (BITMASK 8)) (Z.land x1 (BITMASK 24)) (Z.land x2 (BITMASK 24))).
  assert (acc_wf r) as Hr by done.
  assert (val56 s + val56 d = val56 r + bit_of x0 8 * 2 ^ 56) as Hsum.
  { unfold val56, r, x0, x1, x2 in *. cbn [a0 a1 a2]. lia. }
  pose proof (add_overflow s d r _ ltac:(done) ltac:(done) Hr Hsum) as Hov.
  change (Z.land x0 (BITMASK 8)) with (a2 r). rewrite Hov.
  destruct (flags_bits (Z.b2z (negb (sval56 r =? sval56 s + sval56 d)))
    (Z.b2z (negb (sval56 r =? sval56 s + sval56 d))) (bit_of x0 8)) as (-> & -> & ->);
    [apply b2z_01|apply b2z_01|done|].
  destruct (sval_cases r Hr) as [Rr _].
  split; [done|]. split; [|split; [|done]]; Z.to_euclidean_division_equations; lia.
Qed.

Lemma sub56_spec s d : acc_wf s -> acc_wf d ->
  let '(r, sr) := dsp_sub56 s d in
  acc_wf r /\ val56 r = (val56 d - val56 s) mod 2 ^ 56 /\
  bit_of sr DSP_SR_C = Z.b2z (val56 d <? val56 s) /\
  bit_of sr DSP_SR_V = Z.b2z (negb (sval56 r =? sval56 d - sval56 s)) /\
  bit_of sr DSP_SR_L = bit_of sr DSP_SR_V.
Proof.
  intros Hs Hd. pose proof (sval_cases s Hs) as [Rs Cs]. pose proof (sval_cases d Hd) as [Rd Cd].
  pose proof Hs as (Hs2 & Hs1 & Hs0). pose proof Hd as (Hd2 & Hd1 & Hd0). unfold dsp_sub56.
  rewrite (u16_id (a2 d)) by (unfold is_u16; lia).
  set (x2 := u32 (a0 d - a0 s)). pose proof (bit_of_range x2 24) as B2.
  destruct (limb_borrow 24 (a0 d - a0 s)) as [E2 R2]; [auto|lia|]. fold x2 in E2, R2.
  set (x1 := u32 (a1 d - (a1 s + bit_of x2 24))). pose proof (bit_of_range x1 24) as B1.
  destruct (limb_borrow 24 (a1 d - (a1 s + bit_of x2 24))) as [E1 R1]; [auto|lia|]. fold x1 in E1, R1.
  set (x0 := u32 (a2 d - (a2 s + bit_of x1 24))). pose proof (bit_of_range x0 8) as B0.
  destruct (limb_borrow 8 (a2 d - (a2 s + bit_of x1 24))) as [E0 R0]; [auto|lia|]. fold x0 in E0, R0.
  set (r := mkAcc (Z.land x0 (BITMASK 8)) (Z.land x1 (BITMASK 24)) (Z.land x2 (BITMASK 24))).
  assert (acc_wf r) as Hr by done.
  assert (val56 d - val56 s = val56 r - bit_of x0 8 * 2 ^ 56) as Hsum.
  { unfold val56, r. cbn [a0 a1 a2]. lia. }
  pose proof (sub_overflow s d r _ Hs Hd Hr Hsum) as Hov.
  change (Z.land x0 (BITMASK 8)) with (a2 r). rewrite Hov.
  destruct (flags_bits (Z.b2z (negb (sval56 r =? sval56 d - sval56 s)))
    (Z.b2z (negb (sval56 r =? sval56 d - sval56 s))) (bit_of x0 8)) as (-> & -> & ->);
    [apply b2z_01|apply b2z_01|done|].
  destruct (sval_cases r Hr) as [Rr _].
  split; [done|]. split; [|split; [|done]].
  - Z.to_euclidean_division_equations; lia.
  - destruct (Z.ltb_spec (val56 d) (val56 s)); simpl; lia.
Qed.

(** ** Shifts *)

Lemma acc_u64_val d : acc_wf d -> acc_u64 d = val56 d.
Proof.
  intros (H2 & H1 & H0). unfold acc_u64, val56.
  rewrite !u64_id by (unfold is_u64; rewrite Z.shiftl_mul_pow2; lia).
  rewrite (lor_shiftl (a0 d)), lor_shiftl by lia. lia.
Qed.

Lemma acc_of_u64_spec v : acc_wf (acc_of_u64 v) /\ val56 (acc_of_u64 v) = v mod 2 ^ 56.
Proof.
  unfold acc_of_u64, acc_wf, val56. cbn [a0 a1 a2].
  rewrite !land_BITMASK, !Z.shiftr_div_pow2 by done.
  repeat split; try (apply Z.mod_pos_bound; lia).
  Z.to_euclidean_division_equations; lia.
Qed.

Lemma shift_ok_true n : 0 <= n < 64 -> shift_ok n = true.
Proof. intros Hn. unfold shift_ok. by rewrite andb_true_iff, Z.leb_le, Z.ltb_lt. Qed.

Lemma asl56_run d n : acc_wf d -> 0 <= n <= 56 ->
  exists r sr, dsp_asl56 d n = Ok (r, sr) /\ acc_wf r /\
    val56 r = (val56 d * 2 ^ n) mod 2 ^ 56 /\
    bit_of sr DSP_SR_C = Z.b2z (Z.testbit (val56 d) (56 - n)) /\
    bit_of sr DSP_SR_V =
      Z.b2z (negb (Bool.eqb (Z.testbit (val56 d) 55) (Z.testbit (val56 r) 55))) /\
    bit_of sr DSP_SR_L = Z.b2z (2 ^ (56 - n) <=? val56 d).
Proof.
  intros Hd Hn. destruct (sval_cases d Hd) as [Rd _]. unfold dsp_asl56.
  rewrite !shift_ok_true, acc_u64_val by (done || lia). cbn [andb negb].
  eexists _, _. split; [reflexivity|].
  destruct (acc_of_u64_spec (u64 (Z.shiftl (val56 d) n))) as [Hwf Hval].
  assert (val56 (acc_of_u64 (u64 (Z.shiftl (val56 d) n))) = (val56 d * 2 ^ n) mod 2 ^ 56) as Hv.
  { rewrite Hval, Z.shiftl_mul_pow2 by lia. unfold u64.
    apply Z.mod_mod_divide. by exists (2 ^ 8). }
  edestruct flags_bits as (-> & -> & ->); [apply b2z_01|apply b2z_01|apply bit_of_range|].
  split; [done|]. split; [done|].
  rewrite !bit_of_testbit by lia. split; [done|]. split.
  - rewrite Hval, Z.mod_pow2_bits_low by lia.
    by destruct (Z.testbit (val56 d) 55), (Z.testbit (u64 (Z.shiftl (val56 d) n)) 55).
  - f_equal. rewrite Z.shiftr_div_pow2 by lia.
    pose proof (Z.pow_pos_nonneg 2 (56 - n) ltac:(lia) ltac:(lia)) as Hp.
    destruct (Z.leb_spec (2 ^ (56 - n)) (val56 d)) as [Hle|Hlt].
    + apply negb_true_iff, Z.eqb_neq. pose proof (Z.div_str_pos (val56 d) (2 ^ (56 - n))). lia.
    + rewrite Z.div_small by lia. done.
Qed.

Lemma asr56_run d n : acc_wf d -> 1 <= n < 64 ->
  exists r sr, dsp_asr56 d n = Ok (r, sr) /\ acc_wf r /\ val56 r = val56 d / 2 ^ n /\
    bit_of sr DSP_SR_C = Z.b2z (Z.testbit (val56 d) (n - 1)).
Proof.
  intros Hd Hn. destruct (sval_cases d Hd) as [Rd _]. unfold dsp_asr56.
  rewrite !shift_ok_true, acc_u64_val by (done || lia). cbn [andb negb].
  eexists _, _. split; [reflexivity|].
  destruct (acc_of_u64_spec (Z.shiftr (val56 d) n)) as [Hwf Hval].
  split; [done|]. split.
  - rewrite Hval, Z.shiftr_div_pow2 by lia. apply Z.mod_small.
    pose proof (Z.pow_pos_nonneg 2 n ltac:(lia) ltac:(lia)).
    split; [apply Z.div_pos; lia|]. apply Z.div_lt_upper_bound; nia.
  - rewrite (bit_of_testbit (val56 d)) by lia. by destruct (Z.testbit (val56 d) (n - 1)).
Qed.

(** ** Absolute value, product and rounding *)

Lemma zero_wf : acc_wf acc_zero.
Proof. repeat split; done. Qed.

Lemma neg56 d : acc_wf d ->
  acc_wf (fst (dsp_sub56 d acc_zero)) /\ val56 (fst (dsp_sub56 d acc_zero)) = (- val56 d) mod 2 ^ 56.
Proof.
  intros Hd. pose proof (sub56_spec d acc_zero Hd zero_wf) as Hspec.
  destruct (dsp_sub56 d acc_zero) as [r sr]. destruct Hspec as (Hwf & Hval & _). done.
Qed.

Lemma sval_mod d x : acc_wf d -> val56 d = x mod 2 ^ 56 -> - 2 ^ 55 <= x < 2 ^ 55 -> sval56 d = x.
Proof.
  intros Hd Hv Hx. destruct (sval_cases d Hd) as [Rd [(_ & Hlt & ->)|(_ & Hge & ->)]];
    Z.to_euclidean_division_equations; lia.
Qed.

Lemma mul_operand_spec src signe : 0 <= src < 2 ^ 24 -> (signe = 0 \/ signe = 1) ->
  exists m sg, mul_operand src signe = (m, sg) /\ 0 <= m <= 2 ^ 23 /\ (sg = 0 \/ sg = 1) /\
    (1 - 2 * sg) * m = (1 - 2 * signe) * signed 24 src.
Proof.
  intros Hs Hsg. unfold mul_operand, signed. rewrite has_bit by lia.
  assert (Z.testbit src 23 = negb (src <? 2 ^ 23)) as ->.
  { apply Z.b2z_inj. rewrite Z.testbit_spec' by lia.
    destruct (Z.ltb_spec src (2 ^ 23)); simpl; Z.to_euclidean_division_equations; lia. }
  change (24 - 1) with 23. destruct (Z.ltb_spec src (2 ^ 23)); simpl negb; cbv iota.
  - exists src, signe. repeat split; auto; lia.
  - exists (2 ^ 24 - src), (Z.lxor signe 1). change (bit 24) with (2 ^ 24).
    rewrite u32_id by (unfold is_u32; lia).
    destruct Hsg as [-> | ->]; [change (Z.lxor 0 1) with 1|change (Z.lxor 1 1) with 0];
      repeat split; auto; lia.
Qed.

(** [value = (x >> 24) & BITMASK(8); if (value) { d += value; x &= BITMASK(24); }] *)
Lemma add_carry d x : 0 <= x < 2 ^ 32 -> 0 <= d < 2 ^ 31 ->
  (if negb (Z.land (Z.shiftr x 24) (BITMASK 8) =? 0)
   then (u32 (d + Z.land (Z.shiftr x 24) (BITMASK 8)), Z.land x (BITMASK 24)) else (d, x))
  = (d + x / 2 ^ 24, x mod 2 ^ 24).
Proof.
  intros Hx Hd. rewrite !land_BITMASK, Z.shiftr_div_pow2 by done.
  rewrite (Z.mod_small (x / 2 ^ 24)) by (Z.to_euclidean_division_equations; lia).
  pose proof (Z.div_pos x (2 ^ 24)). pose proof (Z.div_lt_upper_bound x (2 ^ 24) (2 ^ 8)).
  rewrite u32_id by (unfold is_u32; lia).
  destruct (Z.eqb_spec (x / 2 ^ 24) 0) as [He|He]; simpl negb; cbv iota; [|done].
  rewrite He, Z.add_0_r. f_equal. Z.to_euclidean_division_equations; lia.
Qed.

Lemma mul_limbs_spec p0 p1 p2 p3 :
  0 <= p0 < 2 ^ 24 -> 0 <= p1 < 2 ^ 24 -> 0 <= p2 < 2 ^ 24 -> 0 <= p3 < 2 ^ 24 ->
  acc_wf (mul_limbs p0 p1 p2 p3) /\
  val56 (mul_limbs p0 p1 p2 p3) = p0 + (p1 + p2) * 2 ^ 12 + p3 * 2 ^ 24.
Proof.
  intros H0 H1 H2 H3. unfold mul_limbs. rewrite !Z.shiftl_mul_pow2 by done.
  rewrite (land_BITMASK p1), (land_BITMASK p2), (land_BITMASK (Z.shiftr p1 12)),
    (land_BITMASK (Z.shiftr p2 12)), (Z.shiftr_div_pow2 p1), (Z.shiftr_div_pow2 p2) by done.
  rewrite (Z.mod_small (p1 / 2 ^ 12) (2 ^ 12)), (Z.mod_small (p2 / 2 ^ 12) (2 ^ 12))
    by (Z.to_euclidean_division_equations; lia).
  pose proof (Z.div_mod p1 (2 ^ 12) ltac:(done)) as E1. pose proof (Z.mod_pos_bound p1 (2 ^ 12) eq_refl).
  pose proof (Z.div_mod p2 (2 ^ 12) ltac:(done)) as E2. pose proof (Z.mod_pos_bound p2 (2 ^ 12) eq_refl).
  set (h1 := p1 / 2 ^ 12) in *. set (l1 := p1 mod 2 ^ 12) in *.
  set (h2 := p2 / 2 ^ 12) in *. set (l2 := p2 mod 2 ^ 12) in *. clearbody h1 l1 h2 l2.
  assert (0 <= h1 < 2 ^ 12 /\ 0 <= h2 < 2 ^ 12) as [? ?] by lia.
  rewrite !(u32_id (_ * 2 ^ 12)) by (unfold is_u32; lia).
  rewrite (u32_id (p0 + _)) by (unfold is_u32; lia).
  set (d2 := p0 + l1 * 2 ^ 12 + l2 * 2 ^ 12). rewrite (u32_id d2) by (unfold is_u32; lia).
  rewrite (u32_id (h1 + h2)) by (unfold is_u32; lia).
  set (d1 := h1 + h2 + p3). rewrite (u32_id d1) by (unfold is_u32; lia).
  rewrite add_carry by lia. cbv beta iota.
  pose proof (Z.div_mod d2 (2 ^ 24) ltac:(done)) as D2. pose proof (Z.mod_pos_bound d2 (2 ^ 24) eq_refl).
  set (c := d1 + d2 / 2 ^ 24). rewrite add_carry by lia. cbv beta iota.
  pose proof (Z.div_mod c (2 ^ 24) ltac:(done)) as C2. pose proof (Z.mod_pos_bound c (2 ^ 24) eq_refl).
  unfold acc_wf, val56. cbn [a0 a1 a2]. lia.
Qed.

Lemma mul56_run s1 s2 signe :
  0 <= s1 < 2 ^ 24 -> 0 <= s2 < 2 ^ 24 -> (signe = 0 \/ signe = 1) ->
  exists r, dsp_mul56 s1 s2 signe = Ok r /\ acc_wf r /\
    sval56 r = (1 - 2 * signe) * (2 * signed 24 s1 * signed 24 s2).
Proof.
  intros H1 H2 Hsg. unfold dsp_mul56.
  destruct (mul_operand_spec s1 signe H1 Hsg) as (m1 & sg1 & -> & Hm1 & Hsg1 & E1).
  destruct (mul_operand_spec s2 sg1 H2 Hsg1) as (m2 & sg2 & -> & Hm2 & Hsg2 & E2).
  rewrite !land_BITMASK, !Z.shiftr_div_pow2 by done.
  rewrite (Z.mod_small (m1 / _)), (Z.mod_small (m2 / _)) by (Z.to_euclidean_division_equations; lia).
  pose proof (Z.div_mod m1 (2 ^ 12) ltac:(done)) as D1. pose proof (Z.mod_pos_bound m1 (2 ^ 12) eq_refl).
  pose proof (Z.div_mod m2 (2 ^ 12) ltac:(done)) as D2. pose proof (Z.mod_pos_bound m2 (2 ^ 12) eq_refl).
  set (h1 := m1 / 2 ^ 12) in *. set (l1 := m1 mod 2 ^ 12) in *.
  set (h2 := m2 / 2 ^ 12) in *. set (l2 := m2 mod 2 ^ 12) in *. clearbody h1 l1 h2 l2.
  assert (0 <= h1 < 2 ^ 12 /\ 0 <= h2 < 2 ^ 12) as [Hh1 Hh2] by lia.
  assert (forall x y, 0 <= x < 2 ^ 12 -> 0 <= y < 2 ^ 12 -> 0 <= x * y < 2 ^ 24) as Hprod by nia.
  rewrite !u32_id by (unfold is_u32; pose proof (Hprod l1 l2); pose proof (Hprod h1 l2);
    pose proof (Hprod l1 h2); pose proof (Hprod h1 h2); lia).
  destruct (mul_limbs_spec (l1 * l2) (h1 * l2) (l1 * h2) (h1 * h2)) as [Hwf Hval]; [auto..|].
  destruct (asl56_run _ 1 Hwf ltac:(lia)) as (d & sr & -> & Hd & Hdv & _).
  cbn [mbind result_mbind result_bind].
  replace (_ * 2 ^ 1) with (2 * m1 * m2) in Hdv by (rewrite Hval; nia).
  destruct (neg56 d Hd) as [Hn Hnv].
  assert (0 <= m1 * m2 <= 2 ^ 46) as Hm by nia.
  assert ((1 - 2 * signe) * (2 * signed 24 s1 * signed 24 s2) = (1 - 2 * sg2) * (2 * m1 * m2)) as ->.
  { transitivity (2 * signed 24 s2 * ((1 - 2 * signe) * signed 24 s1)); [ring|].
    rewrite <- E1. transitivity (2 * m1 * ((1 - 2 * sg1) * signed 24 s2)); [ring|].
    rewrite <- E2. ring. }
  destruct Hsg2 as [-> | ->]; cbn [Z.eqb negb]; (eexists; split; [reflexivity|]; split; [done|]).
  - apply sval_mod; [done| |lia]. rewrite Hdv. f_equal. lia.
  - apply sval_mod; [done| |lia]. rewrite Hnv, Hdv, (Z.mod_small (2 * m1 * m2)) by lia.
    f_equal.
Qed.

Lemma land_fffffe x : 0 <= x < 2 ^ 24 -> Z.land x 0xfffffe = 2 * (x / 2).
Proof.
  intros Hx. rewrite (land_high x 1 23 ltac:(done) ltac:(done) : Z.land x 0xfffffe = _).
  Z.to_euclidean_division_equations; lia.
Qed.
Lemma land_fffffc x : 0 <= x < 2 ^ 24 -> Z.land x (0xffffff - 0x3) = 4 * (x / 4).
Proof.
  intros Hx. rewrite (land_high x 2 22 ltac:(done) ltac:(done) : Z.land x (0xffffff - 3) = _).
  Z.to_euclidean_division_equations; lia.
Qed.
Lemma land_800000 x : 0 <= x < 2 ^ 24 -> Z.land x 0x800000 = 2 ^ 23 * (x / 2 ^ 23).
Proof.
  intros Hx. rewrite (land_high x 23 1 ltac:(done) ltac:(done) : Z.land x 0x800000 = _).
  Z.to_euclidean_division_equations; lia.
Qed.

Lemma add_const c d : acc_wf d -> acc_wf c ->
  exists t, (t = 0 \/ t = 1) /\ acc_wf (fst (dsp_add56 c d)) /\
    val56 d + val56 c = val56 (fst (dsp_add56 c d)) + t * 2 ^ 56.
Proof.
  intros Hd Hc. pose proof (add56_spec c d Hc Hd) as Hspec.
  pose proof (sval_cases d Hd) as [Rd _]. pose proof (sval_cases c Hc) as [Rc _].
  destruct (dsp_add56 c d) as [r sr]. destruct Hspec as (Hr & Hv & _).
  exists ((val56 c + val56 d) / 2 ^ 56). cbn [fst].
  split; [|split; [done|]]; Z.to_euclidean_division_equations; lia.
Qed.

(** Rounding after the addition of half a unit: [y] is the sum, [w] its low 56
    bits. *)
Lemma round_tie k x w t e :
  0 < k < 56 -> x + 2 ^ (k - 1) = w + t * 2 ^ 56 ->
  e = (if w mod 2 ^ k =? 0 then 2 * (w / 2 ^ k / 2) * 2 ^ k else w / 2 ^ k * 2 ^ k) ->
  0 <= w < 2 ^ 56 -> e = round_even k x mod 2 ^ 56.
Proof.
  intros Hk Hy -> Hw. unfold round_even. rewrite Hy.
  assert (2 ^ 56 = 2 ^ k * (2 * 2 ^ (55 - k))) as E.
  { rewrite <- Z.pow_succ_r, <- Z.pow_add_r by lia. f_equal. lia. }
  pose proof (Z.pow_pos_nonneg 2 k ltac:(lia) ltac:(lia)) as Hp.
  pose proof (Z.pow_pos_nonneg 2 (55 - k) ltac:(lia) ltac:(lia)) as Hq.
  rewrite E in *. set (u := 2 ^ k) in *. set (v := 2 ^ (55 - k)) in *.
  replace (w + t * (u * (2 * v))) with (w + (t * (2 * v)) * u) by ring.
  rewrite Z.mod_add, Z.div_add by lia.
  replace (w / u + t * (2 * v)) with (w / u + t * v * 2) by ring.
  rewrite Z.div_add by lia.
  pose proof (Z.div_pos w u). pose proof (Z.mul_div_le w u).
  pose proof (Z.div_pos (w / u) 2). pose proof (Z.mul_div_le (w / u) 2).
  case_match.
  - replace (2 * (w / u / 2 + t * v) * u) with (2 * (w / u / 2) * u + t * (u * (2 * v))) by ring.
    rewrite Z.mod_add, Z.mod_small by nia. done.
  - replace ((w / u + t * v * 2) * u) with (w / u * u + t * (u * (2 * v))) by ring.
    rewrite Z.mod_add, Z.mod_small by nia. done.
Qed.

Lemma land_1 x : Z.land x 1 = x mod 2.
Proof. by apply (Z.land_ones x 1). Qed.

Ltac limb_cases :=
  repeat match goal with |- context [?x =? ?y] => destruct (Z.eqb_spec x y) end;
  cbn [andb]; Z.to_euclidean_division_equations; lia.

Lemma rnd56_run sr d : acc_wf d ->
  acc_wf (dsp_rnd56 sr d) /\ val56 (dsp_rnd56 sr d) = round_even (rnd_pos sr) (val56 d) mod 2 ^ 56.
Proof.
  intros Hd. pose proof (sval_cases d Hd) as [Rd _]. unfold dsp_rnd56, rnd_pos.
  rewrite !has_bit by done. destruct (Z.testbit sr DSP_SR_S0); [|destruct (Z.testbit sr DSP_SR_S1)].
  - destruct (add_const (mkAcc 0 1 0) d Hd) as (t & Ht & Hr & Hv); [by repeat split|].
    pose proof (sval_cases _ Hr) as [Rr _].
    destruct (fst (dsp_add56 _ d)) as [r2 r1 r0], Hr as (Hr2 & Hr1 & Hr0). cbn [a0 a1 a2] in *.
    rewrite land_1, land_fffffc by done.
    rewrite land_fffffe by (case_match; Z.to_euclidean_division_equations; lia).
    split; [repeat split; cbn [a0 a1 a2]; try lia; case_match; Z.to_euclidean_division_equations; lia|].
    refine (round_tie 25 (val56 d) _ t _ _ Hv _ Rr); [lia|]. unfold val56. cbn [a0 a1 a2]. limb_cases.
  - destruct (add_const (mkAcc 0 0 (bit 22)) d Hd) as (t & Ht & Hr & Hv); [by repeat split|].
    pose proof (sval_cases _ Hr) as [Rr _].
    destruct (fst (dsp_add56 _ d)) as [r2 r1 r0], Hr as (Hr2 & Hr1 & Hr0). cbn [a0 a1 a2] in *.
    rewrite (Z.land_ones r0 23 ltac:(done) : Z.land r0 0x7fffff = _).
    rewrite land_800000 by (case_match; lia).
    split; [repeat split; cbn [a0 a1 a2]; try lia; case_match; Z.to_euclidean_division_equations; lia|].
    refine (round_tie 23 (val56 d) _ t _ _ Hv _ Rr); [lia|]. unfold val56. cbn [a0 a1 a2]. limb_cases.
  - destruct (add_const (mkAcc 0 0 (bit 23)) d Hd) as (t & Ht & Hr & Hv); [by repeat split|].
    pose proof (sval_cases _ Hr) as [Rr _].
    destruct (fst (dsp_add56 _ d)) as [r2 r1 r0], Hr as (Hr2 & Hr1 & Hr0). cbn [a0 a1 a2] in *.
    rewrite land_fffffe by done.
    split; [repeat split; cbn [a0 a1 a2]; try lia; case_match; Z.to_euclidean_division_equations; lia|].
    refine (round_tie 24 (val56 d) _ t _ _ Hv _ Rr); [lia|]. unfold val56. cbn [a0 a1 a2]. limb_cases.
Qed.

Lemma signed_shift bits m :
  1 <= bits <= 31 -> 0 <= m < 2 ^ bits ->
  s32 (m * 2 ^ (32 - bits)) = signed bits m * 2 ^ (32 - bits).
Proof.
  intros Hb Hm. unfold s32, signed.
  assert (2 ^ 31 = 2 ^ (bits - 1) * 2 ^ (32 - bits)) as E1.
  { rewrite <- Z.pow_add_r by lia. f_equal. lia. }
  assert (2 ^ 32 = 2 ^ bits * 2 ^ (32 - bits)) as E2.
  { rewrite <- Z.pow_add_r by lia. f_equal. lia. }
  assert (2 ^ bits = 2 * 2 ^ (bits - 1)) as E3.
  { rewrite <- Z.pow_succ_r by lia. f_equal. lia. }
  pose proof (Z.pow_pos_nonneg 2 (32 - bits) ltac:(lia) ltac:(lia)) as Hp.
  destruct (Z.ltb_spec m (2 ^ (bits - 1))) as [Hlt|Hge].
  - rewrite Z.mod_small by nia. lia.
  - rewrite <- (Z.mod_add _ (-1)) by lia. rewrite Z.mod_small by nia. nia.
Qed.

Lemma s32_mod x y : x mod 2 ^ 32 = y mod 2 ^ 32 -> s32 x = s32 y.
Proof. intros H. unfold s32. by rewrite <- Zplus_mod_idemp_l, H, Zplus_mod_idemp_l. Qed.

Lemma signextend_run bits v : 1 <= bits <= 31 ->
  dsp_signextend bits v = Ok (u32 (signed bits (v mod 2 ^ bits))).
Proof.
  intros Hb. unfold dsp_signextend, check.
  rewrite (proj2 (Z.ltb_lt 0 (32 - bits))), (proj2 (Z.leb_gt 32 (32 - bits))) by lia.
  cbn [mbind result_mbind result_bind]. do 2 f_equal.
  rewrite Z.shiftl_mul_pow2 by lia.
  pose proof (Z.pow_pos_nonneg 2 bits ltac:(lia) ltac:(lia)) as Hq.
  rewrite (s32_mod _ (v mod 2 ^ bits * 2 ^ (32 - bits))).
  - rewrite signed_shift by (lia || apply Z.mod_pos_bound; lia).
    rewrite Z.shiftr_div_pow2 by lia. apply Z.div_mul. lia.
  - assert (2 ^ 32 = 2 ^ bits * 2 ^ (32 - bits)) as ->.
    { rewrite <- Z.pow_add_r by lia. f_equal. lia. }
    rewrite !Z.mul_mod_distr_r by lia. by rewrite Z.mod_mod by lia.
Qed.

(** ** Properties *)

Definition acc_of (x : Z) : acc := acc_of_u64 (x mod 2 ^ 56).

(** [dsp_add56] is 56-bit addition: the result is the sum modulo [2^56],
    C is the carry out, and V (with L) is set exactly when the signed sum does
    not fit. *)
Theorem dsp_add56_correct s d : acc_wf s -> acc_wf d ->
  let '(r, sr) := dsp_add56 s d in
  acc_wf r /\ val56 r = (val56 s + val56 d) mod 2 ^ 56 /\
  bit_of sr DSP_SR_C = (val56 s + val56 d) / 2 ^ 56 /\
  bit_of sr DSP_SR_V = Z.b2z (negb (sval56 r =? sval56 s + sval56 d)) /\
  bit_of sr DSP_SR_L = bit_of sr DSP_SR_V.
Proof. apply add56_spec. Qed.

Lemma dsp_add56_correct_witness :
  bit_of (snd (dsp_add56 (acc_of (2 ^ 55 - 1)) (acc_of 1))) DSP_SR_V = 1.
Proof.
  apply (dsp_add56_correct (acc_of (2 ^ 55 - 1)) (acc_of 1)); by repeat split.
Defined.

(** [dsp_sub56] is 56-bit subtraction: the result is the difference modulo
    [2^56], C is the borrow, and V (with L) is set exactly when the signed
    difference does not fit. *)
Theorem dsp_sub56_correct s d : acc_wf s -> acc_wf d ->
  let '(r, sr) := dsp_sub56 s d in
  acc_wf r /\ val56 r = (val56 d - val56 s) mod 2 ^ 56 /\
  bit_of sr DSP_SR_C = Z.b2z (val56 d <? val56 s) /\
  bit_of sr DSP_SR_V = Z.b2z (negb (sval56 r =? sval56 d - sval56 s)) /\
  bit_of sr DSP_SR_L = bit_of sr DSP_SR_V.
Proof. apply sub56_spec. Qed.

Lemma dsp_sub56_correct_witness :
  bit_of (snd (dsp_sub56 (acc_of 1) (acc_of 0))) DSP_SR_C = 1.
Proof. apply (dsp_sub56_correct (acc_of 1) (acc_of 0)); by repeat split. Defined.

(** [dsp_mul56] is the signed fractional product: twice the product of the
    two 24-bit operands, negated when [signe] says so, and it always fits. *)
Theorem dsp_mul56_correct s1 s2 signe :
  0 <= s1 < 2 ^ 24 -> 0 <= s2 < 2 ^ 24 -> (signe = 0 \/ signe = 1) ->
  exists r, dsp_mul56 s1 s2 signe = Ok r /\ acc_wf r /\
    sval56 r = (1 - 2 * signe) * (2 * signed 24 s1 * signed 24 s2).
Proof. apply mul56_run. Qed.

Lemma dsp_mul56_correct_witness :
  exists r, dsp_mul56 0x800000 0x800000 1 = Ok r /\ acc_wf r /\ sval56 r = - 2 ^ 47.
Proof. apply (dsp_mul56_correct 0x800000 0x800000 1); auto; lia. Defined.

(** [dsp_rnd56] is convergent rounding in all three scaling modes: the
    result is the multiple of the unit of the mode nearest to the accumulator,
    the even one on a tie. *)
Theorem dsp_rnd56_correct sr d : acc_wf d ->
  acc_wf (dsp_rnd56 sr d) /\ val56 (dsp_rnd56 sr d) = round_even (rnd_pos sr) (val56 d) mod 2 ^ 56.
Proof. apply rnd56_run. Qed.

Lemma dsp_rnd56_correct_witness :
  acc_wf (dsp_rnd56 0 (acc_of (3 * 2 ^ 23))) /\ val56 (dsp_rnd56 0 (acc_of (3 * 2 ^ 23))) = 2 * 2 ^ 24.
Proof. apply (dsp_rnd56_correct 0 (acc_of (3 * 2 ^ 23))). by repeat split. Defined.

(** [dsp_abs56] is the absolute value; it overflows, and says so in V,
    exactly on the most negative number. *)
Theorem dsp_abs56_correct d : acc_wf d ->
  let '(r, sr) := dsp_abs56 d in
  acc_wf r /\ val56 r = Z.abs (sval56 d) /\
  bit_of sr DSP_SR_V = Z.b2z (sval56 d =? - 2 ^ 55).
Proof.
  intros Hd. unfold dsp_abs56. rewrite has_bit by done.
  pose proof (sval_cases d Hd) as [Rd Cd]. rewrite bit_of_testbit in Cd by done.
  destruct (Z.testbit (a2 d) 7); destruct Cd as [(Hb & Hv & Hs)|(Hb & Hv & Hs)]; try done.
  - pose proof (sub56_spec d acc_zero Hd zero_wf) as Hspec.
    destruct (dsp_sub56 d acc_zero) as [r sr]. destruct Hspec as (Hr & Hval & _ & -> & _).
    pose proof (sval_cases r Hr) as [Rr Cr]. change (val56 acc_zero) with 0 in Hval.
    change (sval56 acc_zero) with 0.
    assert (val56 r = 2 ^ 56 - val56 d) as Hr' by (Z.to_euclidean_division_equations; lia).
    split; [done|]. split; [lia|]. f_equal.
    destruct (Z.eqb_spec (sval56 d) (- 2 ^ 55)), (Z.eqb_spec (sval56 r) (0 - sval56 d)); done || lia.
  - split; [done|]. split; [lia|]. rewrite (proj2 (Z.eqb_neq _ _)) by lia. done.
Qed.

Lemma dsp_abs56_correct_witness : val56 (fst (dsp_abs56 (acc_of (-5)))) = 5.
Proof. apply (dsp_abs56_correct (acc_of (-5))). by repeat split. Defined.

(** [dsp_asl56] shifts left by any amount up to 56 without undefined
    behaviour: the result is multiplication by [2^n] modulo [2^56], C is the
    last bit shifted out and V says whether the sign changed. *)
Theorem dsp_asl56_correct d n : acc_wf d -> 0 <= n <= 56 ->
  exists r sr, dsp_asl56 d n = Ok (r, sr) /\ acc_wf r /\
    val56 r = (val56 d * 2 ^ n) mod 2 ^ 56 /\
    bit_of sr DSP_SR_C = Z.b2z (Z.testbit (val56 d) (56 - n)) /\
    bit_of sr DSP_SR_V =
      Z.b2z (negb (Bool.eqb (Z.testbit (val56 d) 55) (Z.testbit (val56 r) 55))) /\
    bit_of sr DSP_SR_L = Z.b2z (2 ^ (56 - n) <=? val56 d).
Proof. apply asl56_run. Qed.

Lemma dsp_asl56_correct_witness :
  exists r sr, dsp_asl56 (acc_of 3) 2 = Ok (r, sr) /\ val56 r = 12.
Proof.
  destruct (dsp_asl56_correct (acc_of 3) 2) as (r & sr & H & _ & Hv & _);
    [by repeat split|lia|]. by exists r, sr.
Defined.

(** [dsp_asr56] is not the arithmetic shift its callers need: it shifts
    in zeros, so for every negative accumulator and every amount below 56 the
    result differs from the signed division by [2^n]. *)
Theorem dsp_asr56_not_arithmetic d n : acc_wf d -> sval56 d < 0 -> 1 <= n < 56 ->
  exists r sr, dsp_asr56 d n = Ok (r, sr) /\ val56 r = val56 d / 2 ^ n /\
    sval56 r <> sval56 d / 2 ^ n.
Proof.
  intros Hd Hneg Hn. destruct (asr56_run d n Hd ltac:(lia)) as (r & sr & Hrun & Hr & Hv & _).
  exists r, sr. split; [done|]. split; [done|].
  pose proof (sval_cases d Hd) as [Rd _]. pose proof (sval_cases r Hr) as [Rr Cr].
  assert (2 <= 2 ^ n) by (change 2 with (2 ^ 1) at 1; apply Z.pow_le_mono_r; lia).
  pose proof (Z.div_lt_upper_bound (val56 d) (2 ^ n) (2 ^ 55) ltac:(lia) ltac:(nia)).
  pose proof (Z.div_lt_upper_bound (sval56 d) (2 ^ n) 0 ltac:(lia) ltac:(lia)).
  lia.
Qed.

Lemma dsp_asr56_not_arithmetic_witness :
  exists r sr, dsp_asr56 (acc_of (-2)) 1 = Ok (r, sr) /\ val56 r = 2 ^ 55 - 1 /\ sval56 r <> -1.
Proof. apply (dsp_asr56_not_arithmetic (acc_of (-2)) 1); [by repeat split|done|lia]. Defined.

(** [dsp_signextend] extends the sign of the low [bits] bits, and neither
    asserts nor shifts out of range for widths from 1 to 31. *)
Theorem dsp_signextend_correct bits v : 1 <= bits <= 31 ->
  dsp_signextend bits v = Ok (u32 (signed bits (v mod 2 ^ bits))).
Proof. apply signextend_run. Qed.

Lemma dsp_signextend_correct_witness : dsp_signextend 7 0x7f = Ok 0xffffffff.
Proof. apply (dsp_signextend_correct 7 0x7f). lia. Defined.
