(* ===== verification/DspCore.v ===== *)
(** * The DSP56300 interpreter core
    (src/xemu/hw/xbox/mcpx/apu/dsp/interp/dsp_cpu.c, dsp_cpu.h, dsp_cpu_regs.h)

    The processor state, its memories, registers and system stack, what happens
    after each instruction (REP and DO loops, the interrupt pipeline) and the
    reset.  The peripherals behind X:0xffff80 are a type class over their state
    [opaque]; DspShell.v gives the instance of dsp.c.  Tracing and disassembly
    are not modelled. *)

From S2P Require Import Prelude DspArith.

Definition DSP_REG_A0 : Z := 0x08.
Definition DSP_REG_B0 : Z := 0x09.
Definition DSP_REG_A2 : Z := 0x0a.
Definition DSP_REG_B2 : Z := 0x0b.
Definition DSP_REG_A1 : Z := 0x0c.
Definition DSP_REG_B1 : Z := 0x0d.
Definition DSP_REG_A : Z := 0x0e.
Definition DSP_REG_B : Z := 0x0f.
Definition DSP_REG_M0 : Z := 0x20.
Definition DSP_REG_SR : Z := 0x39.
Definition DSP_REG_OMR : Z := 0x3a.
Definition DSP_REG_SP : Z := 0x3b.
Definition DSP_REG_SSH : Z := 0x3c.
Definition DSP_REG_SSL : Z := 0x3d.
Definition DSP_REG_LA : Z := 0x3e.
Definition DSP_REG_LC : Z := 0x3f.
Definition DSP_REG_LCSAVE : Z := 0x30.
Definition DSP_REG_MAX : Z := 0x40.

Definition DSP_SR_FV : Z := 0x10.
Definition DSP_SP_SE : Z := 0x04.
Definition DSP_SP_UF : Z := 0x05.

Definition DSP_SPACE_X : Z := 0x00.
Definition DSP_SPACE_Y : Z := 0x01.
Definition DSP_SPACE_P : Z := 0x02.

Definition DSP_XRAM_SIZE : Z := 4096.
Definition DSP_YRAM_SIZE : Z := 2048.
Definition DSP_PRAM_SIZE : Z := 4096.
Definition DSP_MIXBUFFER_BASE : Z := 0x001400.
Definition DSP_MIXBUFFER_SIZE : Z := 1024.
Definition DSP_PERIPH_BASE : Z := 0xFFFF80.

Definition DSP_INTERRUPT_NONE : Z := 0.
Definition DSP_INTERRUPT_DISABLED : Z := 1.
Definition DSP_INTERRUPT_LONG : Z := 2.

Definition DSP_INTER_RESET : Z := 0.
Definition DSP_INTER_ILLEGAL : Z := 1.
Definition DSP_INTER_STACK_ERROR : Z := 2.
Definition DSP_INTER_TRAP : Z := 3.

(** The vector addresses of [dsp_interrupt]. *)
Definition dsp_interrupt : list Z := [0x00; 0x04; 0x02; 0x08].

Definition registers_mask : list Z :=
  [0; 0; 0; 0; 24; 24; 24; 24; 24; 24; 8; 8; 24; 24; 24; 24;
   16; 16; 16; 16; 16; 16; 16; 16; 16; 16; 16; 16; 16; 16; 16; 16;
   16; 16; 16; 16; 16; 16; 16; 16; 0; 0; 0; 0; 0; 0; 0; 0;
   0; 0; 0; 0; 0; 0; 0; 0; 0; 16; 8; 6; 16; 16; 16; 16].

(** [stack[0]] and [stack[1]] are [ssh_stack] and [ssl_stack];
    [pram_opcache] holds indices into the opcode table. *)
Record dsp_core (P : Type) := mkCore {
  is_gp : bool;
  is_idle : bool;
  cycle_count : Z;
  instr_cycle : Z;
  pc : Z;
  registers : mem;
  ssh_stack : mem;
  ssl_stack : mem;
  xram : mem;
  yram : mem;
  pram : mem;
  pram_opcache : gmap Z nat;
  mixbuffer : mem;
  periph : mem;
  loop_rep : Z;
  pc_on_rep : Z;
  interrupt_state : Z;
  interrupt_instr_fetch : Z;
  interrupt_save_pc : Z;
  interrupt_counter : Z;
  interrupt_ipl_to_raise : Z;
  interrupt_pipeline_count : Z;
  interrupt_ipl : mem;
  interrupt_is_pending : mem;
  opaque : P;
  num_inst : Z;
  cur_inst_len : Z;
  cur_inst : Z;
  exception_debugging : bool;
}.
Arguments mkCore {P}.
Arguments is_gp {P} _.
Arguments is_idle {P} _.
Arguments cycle_count {P} _.
Arguments instr_cycle {P} _.
Arguments pc {P} _.
Arguments registers {P} _.
Arguments ssh_stack {P} _.
Arguments ssl_stack {P} _.
Arguments xram {P} _.
Arguments yram {P} _.
Arguments pram {P} _.
Arguments pram_opcache {P} _.
Arguments mixbuffer {P} _.
Arguments periph {P} _.
Arguments loop_rep {P} _.
Arguments pc_on_rep {P} _.
Arguments interrupt_state {P} _.
Arguments interrupt_instr_fetch {P} _.
Arguments interrupt_save_pc {P} _.
Arguments interrupt_counter {P} _.
Arguments interrupt_ipl_to_raise {P} _.
Arguments interrupt_pipeline_count {P} _.
Arguments interrupt_ipl {P} _.
Arguments interrupt_is_pending {P} _.
Arguments opaque {P} _.
Arguments num_inst {P} _.
Arguments cur_inst_len {P} _.
Arguments cur_inst {P} _.
Arguments exception_debugging {P} _.

#[export] Instance dsp_core_settable P : Settable (dsp_core P) :=
  settable! (@mkCore P) < is_gp ; is_idle ; cycle_count ; instr_cycle ; pc ; registers ;
    ssh_stack ; ssl_stack ; xram ; yram ; pram ; pram_opcache ; mixbuffer ; periph ;
    loop_rep ; pc_on_rep ; interrupt_state ; interrupt_instr_fetch ; interrupt_save_pc ;
    interrupt_counter ; interrupt_ipl_to_raise ; interrupt_pipeline_count ; interrupt_ipl ;
    interrupt_is_pending ; opaque ; num_inst ; cur_inst_len ; cur_inst ; exception_debugging >.

(** The callbacks [read_peripheral] and [write_peripheral] of the core. *)
Class DspPeripheral (P : Type) := {
  core_read_peripheral : dsp_core P -> Z -> result (dsp_core P * Z);
  core_write_peripheral : dsp_core P -> Z -> Z -> result (dsp_core P);
}.

Section DspCore.
Context {P : Type}.
Implicit Types dsp : dsp_core P.

Definition getr dsp (r : Z) : Z := rd (registers dsp) r.
Definition setr (r v : Z) dsp : dsp_core P := dsp <| registers ::= wr r v |>.

Definition dsp56k_add_interrupt dsp (inter : Z) : result (dsp_core P) :=
  if negb ((0 <=? inter) && (inter <? 4)) then Fault OutOfBounds
  else if rd (interrupt_ipl dsp) inter =? -1 then Ok dsp
  else if rd (interrupt_is_pending dsp) inter =? 0 then
    Ok (dsp <| interrupt_is_pending ::= wr inter 1 |>
            <| interrupt_counter ::= fun c => u16 (c + 1) |>)
  else Ok dsp.

(** ** System stack *)

Definition dsp_stack_push dsp (curpc cursr sshOnly : Z) : result (dsp_core P) :=
  let stack_error := Z.land (getr dsp DSP_REG_SP) (bit DSP_SP_SE) in
  let underflow := Z.land (getr dsp DSP_REG_SP) (bit DSP_SP_UF) in
  let stack := Z.land (getr dsp DSP_REG_SP) (BITMASK 4) + 1 in
  dsp ← (if (stack_error =? 0) && has stack (bit DSP_SP_SE) then
           dsp ← dsp56k_add_interrupt dsp DSP_INTER_STACK_ERROR;
           _ ← check (negb (exception_debugging dsp)) "dsp stack overflow";
           Ok dsp
         else Ok dsp);
  let dsp := setr DSP_REG_SP
               (Z.land (Z.lor (Z.lor underflow stack_error) stack) (BITMASK 6)) dsp in
  let stack := Z.land stack (BITMASK 4) in
  let dsp :=
    if negb (stack =? 0) then
      let dsp := dsp <| ssh_stack ::= wr stack (Z.land curpc (BITMASK 16)) |> in
      if sshOnly =? 0 then dsp <| ssl_stack ::= wr stack (Z.land cursr (BITMASK 16)) |> else dsp
    else dsp <| ssh_stack ::= wr 0 0 |> <| ssl_stack ::= wr 0 0 |> in
  Ok (setr DSP_REG_SSL (rd (ssl_stack dsp) stack)
        (setr DSP_REG_SSH (rd (ssh_stack dsp) stack) dsp)).

(** Returns the core, [*newpc] and [*newsr]. *)
Definition dsp_stack_pop dsp : result (dsp_core P * Z * Z) :=
  let stack_error := Z.land (getr dsp DSP_REG_SP) (bit DSP_SP_SE) in
  let underflow := Z.land (getr dsp DSP_REG_SP) (bit DSP_SP_UF) in
  let stack := u32 (Z.land (getr dsp DSP_REG_SP) (BITMASK 4) - 1) in
  dsp ← (if (stack_error =? 0) && has stack (bit DSP_SP_SE) then
           dsp ← dsp56k_add_interrupt dsp DSP_INTER_STACK_ERROR;
           _ ← check (negb (exception_debugging dsp)) "Dsp stack underflow";
           Ok dsp
         else Ok dsp);
  let dsp := setr DSP_REG_SP
               (Z.land (Z.lor (Z.lor underflow stack_error) stack) (BITMASK 6)) dsp in
  let stack := Z.land stack (BITMASK 4) in
  let newpc := getr dsp DSP_REG_SSH in
  let newsr := getr dsp DSP_REG_SSL in
  Ok (setr DSP_REG_SSL (rd (ssl_stack dsp) stack)
        (setr DSP_REG_SSH (rd (ssh_stack dsp) stack) dsp), newpc, newsr).

Definition dsp_compute_ssh_ssl dsp : dsp_core P :=
  let stack := Z.land (getr dsp DSP_REG_SP) (BITMASK 4) in
  setr DSP_REG_SSL (rd (ssl_stack dsp) stack)
    (setr DSP_REG_SSH (rd (ssh_stack dsp) stack) dsp).

Definition dsp_write_reg dsp (numreg value : Z) : result (dsp_core P) :=
  let extension := if has value (bit 23) then 0xff else 0 in
  if numreg =? DSP_REG_A then
    Ok (setr DSP_REG_A2 extension (setr DSP_REG_A1 value (setr DSP_REG_A0 0 dsp)))
  else if numreg =? DSP_REG_B then
    Ok (setr DSP_REG_B2 extension (setr DSP_REG_B1 value (setr DSP_REG_B0 0 dsp)))
  else if numreg =? DSP_REG_OMR then Ok (setr DSP_REG_OMR (Z.land value 0xc7) dsp)
  else if numreg =? DSP_REG_SR then Ok (setr DSP_REG_SR (Z.land value 0xaf7f) dsp)
  else if numreg =? DSP_REG_SP then
    let stack_error := Z.land (getr dsp DSP_REG_SP) (Z.shiftl 3 DSP_SP_SE) in
    dsp ← (if (stack_error =? 0) && has value (Z.shiftl 3 DSP_SP_SE) then
             dsp ← dsp56k_add_interrupt dsp DSP_INTER_STACK_ERROR;
             let dsp := setr DSP_REG_SP (Z.land value (Z.shiftl 3 DSP_SP_SE)) dsp in
             _ ← check (negb (exception_debugging dsp))
                   "Dsp stack overflow or underflow detected";
             Ok dsp
           else Ok (setr DSP_REG_SP (Z.land value (BITMASK 6)) dsp));
    Ok (dsp_compute_ssh_ssl dsp)
  else if numreg =? DSP_REG_SSH then dsp_stack_push dsp value 0 1
  else if numreg =? DSP_REG_SSL then
    let numreg := Z.land (getr dsp DSP_REG_SP) (BITMASK 4) in
    let value := if numreg =? 0 then 0 else value in
    Ok (setr DSP_REG_SSL (Z.land value (BITMASK 16))
          (dsp <| ssl_stack ::= wr numreg (Z.land value (BITMASK 16)) |>))
  else
    mask ← fetch registers_mask numreg;
    Ok (setr numreg (Z.land value (BITMASK mask)) dsp).

(** ** Memory *)

Definition read_memory_p dsp (address : Z) : result Z :=
  _ ← check (Z.land address 0xFF000000 =? 0) "(address & 0xFF000000) == 0";
  _ ← check (address <? DSP_PRAM_SIZE) "address < DSP_PRAM_SIZE";
  let r := rd (pram dsp) address in
  _ ← check (Z.land r 0xFF000000 =? 0) "(r & 0xFF000000) == 0";
  Ok r.

Context `{!DspPeripheral P}.

Definition in_mixbuffer (base address : Z) : bool :=
  (base <=? address) && (address <? base + DSP_MIXBUFFER_SIZE).

Definition dsp56k_read_memory dsp (space address : Z) : result (dsp_core P * Z) :=
  _ ← check (Z.land address 0xFF000000 =? 0) "(address & 0xFF000000) == 0";
  if space =? DSP_SPACE_X then
    if DSP_PERIPH_BASE <=? address then core_read_peripheral dsp address
    else if in_mixbuffer DSP_MIXBUFFER_BASE address then
      Ok (dsp, rd (mixbuffer dsp) (address - DSP_MIXBUFFER_BASE))
    else if in_mixbuffer 0xc00 address then Ok (dsp, rd (mixbuffer dsp) (address - 0xc00))
    else if address <? DSP_XRAM_SIZE then Ok (dsp, rd (xram dsp) address)
    else Ok (dsp, 0x00FFFFFF)
  else if space =? DSP_SPACE_Y then
    _ ← check (address <? DSP_YRAM_SIZE) "address < DSP_YRAM_SIZE";
    Ok (dsp, rd (yram dsp) address)
  else if space =? DSP_SPACE_P then r ← read_memory_p dsp address; Ok (dsp, r)
  else Fault (AssertFail "Invalid dsp space in read memory").

Definition write_memory_raw dsp (space address value : Z) : result (dsp_core P) :=
  _ ← check (Z.land value 0xFF000000 =? 0) "(value & 0xFF000000) == 0";
  _ ← check (Z.land address 0xFF000000 =? 0) "(address & 0xFF000000) == 0";
  if space =? DSP_SPACE_X then
    if DSP_PERIPH_BASE <=? address then core_write_peripheral dsp address value
    else if in_mixbuffer DSP_MIXBUFFER_BASE address then
      Ok (dsp <| mixbuffer ::= wr (address - DSP_MIXBUFFER_BASE) value |>)
    else if in_mixbuffer 0xc00 address then
      Ok (dsp <| mixbuffer ::= wr (address - 0xc00) value |>)
    else
      _ ← check (address <? DSP_XRAM_SIZE) "address < DSP_XRAM_SIZE";
      Ok (dsp <| xram ::= wr address value |>)
  else if space =? DSP_SPACE_Y then
    _ ← check (address <? DSP_YRAM_SIZE) "address < DSP_YRAM_SIZE";
    Ok (dsp <| yram ::= wr address value |>)
  else if space =? DSP_SPACE_P then
    _ ← check (address <? DSP_PRAM_SIZE) "address < DSP_PRAM_SIZE";
    Ok (dsp <| pram ::= wr address value |> <| pram_opcache ::= delete address |>)
  else Fault (AssertFail "Invalid dsp space in write raw memory").

Definition dsp56k_write_memory dsp (space address value : Z) : result (dsp_core P) :=
  write_memory_raw dsp space address value.

(** ** After each instruction *)

(** When running a REP, the PC stays on the repeated instruction. *)
Definition update_rep dsp : dsp_core P :=
  if negb (loop_rep dsp =? 0) then
    if pc_on_rep dsp =? 0 then
      let dsp := setr DSP_REG_LC (Z.land (u32 (getr dsp DSP_REG_LC - 1)) (BITMASK 16)) dsp in
      if 0 <? getr dsp DSP_REG_LC then dsp <| cur_inst_len := 0 |>
      else setr DSP_REG_LC (getr dsp DSP_REG_LCSAVE) (dsp <| loop_rep := 0 |>)
    else
      let dsp := if getr dsp DSP_REG_LC =? 0 then setr DSP_REG_LC 0x010000 dsp else dsp in
      dsp <| pc_on_rep := 0 |>
  else dsp.

(** The end of a DO loop: leave it or go round again. *)
Definition leave_loop dsp : result (dsp_core P) :=
  '(dsp, saved_pc, saved_sr) ← dsp_stack_pop dsp;
  let dsp := setr DSP_REG_SR (Z.land (getr dsp DSP_REG_SR) 0x7f) dsp in
  let dsp := setr DSP_REG_SR
               (Z.lor (getr dsp DSP_REG_SR) (Z.land saved_sr (bit DSP_SR_LF))) dsp in
  '(dsp, la, lc) ← dsp_stack_pop dsp;
  Ok (setr DSP_REG_LC lc (setr DSP_REG_LA la dsp)).

Definition update_do dsp : result (dsp_core P) :=
  if has (getr dsp DSP_REG_SR) (bit DSP_SR_LF) then
    if pc dsp =? u32 (getr dsp DSP_REG_LA + 1) then
      let dsp := setr DSP_REG_LC (Z.land (u32 (getr dsp DSP_REG_LC - 1)) (BITMASK 16)) dsp in
      if getr dsp DSP_REG_LC =? 0 then leave_loop dsp
      else Ok (dsp <| pc := getr dsp DSP_REG_SSH |>)
    else Ok dsp
  else Ok dsp.

Definition dsp_postexecute_update_pc dsp : result (dsp_core P) :=
  let dsp := update_rep dsp in
  let dsp := dsp <| pc ::= fun p => u32 (p + cur_inst_len dsp) |> in
  update_do dsp.

(** JSR xxx or JSR ea: a long interrupt. *)
Definition is_jsr (instr : Z) : bool :=
  (Z.land instr 0xfff000 =? 0x0d0000) || (Z.land instr 0xffc0ff =? 0x0bc080).

(** [BITMASK(16)-((1<<DSP_SR_LF)|(1<<DSP_SR_FV)|...)], an [int] converted to [uint32_t]. *)
Definition long_sr_mask : Z :=
  u32 (BITMASK 16 -
       Z.lor (bit DSP_SR_LF) (Z.lor (bit DSP_SR_FV) (Z.lor (bit DSP_SR_S1)
         (Z.lor (bit DSP_SR_S0) (Z.lor (bit DSP_SR_I0) (bit DSP_SR_I1)))))).

Definition enter_long_interrupt dsp : result (dsp_core P) :=
  let dsp := dsp <| interrupt_state := DSP_INTERRUPT_LONG |> in
  dsp ← dsp_stack_push dsp (interrupt_save_pc dsp) (getr dsp DSP_REG_SR) 0;
  let dsp := setr DSP_REG_SR (Z.land (getr dsp DSP_REG_SR) long_sr_mask) dsp in
  Ok (setr DSP_REG_SR
        (Z.lor (getr dsp DSP_REG_SR) (Z.shiftl (interrupt_ipl_to_raise dsp) DSP_SR_I0)) dsp).

Definition pipeline_down dsp : dsp_core P :=
  dsp <| interrupt_pipeline_count ::= fun c => u16 (c - 1) |>.

(** The [for] loop that arbitrates: [break] on level 3, [continue] on masked or
    not higher levels. *)
Fixpoint arbitrate dsp (ipl_sr : Z) (idxs : list Z) (index ipl_to_raise : Z) : Z :=
  match idxs with
  | [] => index
  | i :: idxs =>
      if rd (interrupt_is_pending dsp) i =? 1 then
        let ipl := rd (interrupt_ipl dsp) i in
        if ipl =? 3 then i
        else if ipl <? ipl_sr then arbitrate dsp ipl_sr idxs index ipl_to_raise
        else if ipl <=? ipl_to_raise then arbitrate dsp ipl_sr idxs index ipl_to_raise
        else arbitrate dsp ipl_sr idxs i ipl
      else arbitrate dsp ipl_sr idxs index ipl_to_raise
  end.

(** The part after the pipeline: choose a pending interrupt and start it. *)
Definition start_interrupt dsp : result (dsp_core P) :=
  if interrupt_counter dsp =? 0 then Ok dsp
  else
    let ipl_sr := Z.land (Z.shiftr (getr dsp DSP_REG_SR) DSP_SR_I0) (BITMASK 2) in
    let index := arbitrate dsp ipl_sr [0; 1; 2; 3] 0xffff (-1) in
    if index =? 0xffff then Ok dsp
    else
      let dsp := dsp <| interrupt_is_pending ::= wr index 0 |>
                     <| interrupt_counter ::= fun c => u16 (c - 1) |> in
      let ipl_to_raise := rd (interrupt_ipl dsp) index + 1 in
      let ipl_to_raise := if 3 <? ipl_to_raise then 3 else ipl_to_raise in
      vector ← fetch dsp_interrupt index;
      Ok (dsp <| interrupt_instr_fetch := vector |>
              <| interrupt_pipeline_count := 5 |>
              <| interrupt_state := DSP_INTERRUPT_DISABLED |>
              <| interrupt_ipl_to_raise := u16 ipl_to_raise |>).

Definition dsp_postexecute_interrupts dsp : result (dsp_core P) :=
  if negb (loop_rep dsp =? 0) then Ok dsp
  else if interrupt_state dsp =? DSP_INTERRUPT_DISABLED then
    let count := interrupt_pipeline_count dsp in
    if count =? 5 then Ok (pipeline_down dsp)
    else if count =? 4 then
      let dsp := dsp <| interrupt_save_pc := u16 (pc dsp) |>
                     <| pc := interrupt_instr_fetch dsp |> in
      instr ← read_memory_p dsp (interrupt_instr_fetch dsp);
      dsp ← (if is_jsr instr then enter_long_interrupt dsp else Ok dsp);
      Ok (pipeline_down dsp)
    else if count =? 3 then
      dsp ← (if pc dsp =? interrupt_instr_fetch dsp + 1 then
               instr ← read_memory_p dsp (pc dsp);
               if is_jsr instr then enter_long_interrupt dsp else Ok dsp
             else Ok dsp);
      Ok (pipeline_down dsp)
    else if count =? 2 then
      let dsp := if pc dsp =? interrupt_instr_fetch dsp + 2
                 then dsp <| pc := interrupt_save_pc dsp |> else dsp in
      Ok (pipeline_down dsp)
    else if count =? 1 then Ok (pipeline_down dsp)
    else if count =? 0 then
      start_interrupt (dsp <| interrupt_save_pc := u16 (-1) |>
                           <| interrupt_instr_fetch := u16 (-1) |>
                           <| interrupt_state := DSP_INTERRUPT_NONE |>)
    else start_interrupt dsp
  else start_interrupt dsp.

(** Memory, registers and interrupt state at reset; the opcode masks that the
    first call computes are [nonparallel_matches] of DspDecode.v. *)
Definition dsp56k_reset_cpu dsp : dsp_core P :=
  let regs := wr DSP_REG_OMR 0x02 ∅ in
  let regs := foldr (fun i m => wr (DSP_REG_M0 + i) 0x00ffff m) regs [0; 1; 2; 3; 4; 5; 6; 7] in
  dsp <| periph := ∅ |> <| ssh_stack := ∅ |> <| ssl_stack := ∅ |> <| registers := regs |>
      <| pc := 0 |>
      <| interrupt_is_pending := ∅ |>
      <| interrupt_state := DSP_INTERRUPT_NONE |>
      <| interrupt_instr_fetch := u16 (-1) |> <| interrupt_save_pc := u16 (-1) |>
      <| interrupt_counter := 0 |> <| interrupt_pipeline_count := 0 |>
      <| interrupt_ipl := wr 0 3 (wr 1 3 (wr 2 3 (wr 3 3 ∅))) |>
      <| loop_rep := 0 |> <| num_inst := 0 |> <| exception_debugging := true |>.
End DspCore.

(** ** Specifications *)

Section DspSpecs.
Context {P : Type}.
Implicit Types dsp : dsp_core P.

(** The system stack as a list, top first, of at most 15 pairs (SSH, SSL). *)
Record stack_view dsp (l : list (Z * Z)) : Prop := {
  view_sp : getr dsp DSP_REG_SP = Z.of_nat (length l);
  view_len : (length l <= 15)%nat;
  view_cells (k : nat) p s : l !! k = Some (p, s) ->
    rd (ssh_stack dsp) (Z.of_nat (length l - k)) = p /\
    rd (ssl_stack dsp) (Z.of_nat (length l - k)) = s;
  view_ssh : getr dsp DSP_REG_SSH = rd (ssh_stack dsp) (Z.of_nat (length l));
  view_ssl : getr dsp DSP_REG_SSL = rd (ssl_stack dsp) (Z.of_nat (length l));
}.

Definition stack_reg (r : Z) : Prop := r = DSP_REG_SP \/ r = DSP_REG_SSH \/ r = DSP_REG_SSL.

(** [post dsp n]: the PC update after [n] one-word instructions. *)
Fixpoint post dsp (n : nat) : result (dsp_core P) :=
  match n with
  | O => Ok dsp
  | S n' => dsp ← dsp_postexecute_update_pc (dsp <| cur_inst_len := 1 |>); post dsp n'
  end.

(** One-word instructions without loops, each followed by the interrupt step. *)
Definition tick dsp : result (dsp_core P) :=
  dsp ← dsp_postexecute_update_pc (dsp <| cur_inst_len := 1 |>);
  dsp_postexecute_interrupts dsp.

(** The PCs at which [n] instructions are executed, and the state after them. *)
Fixpoint ticks dsp (n : nat) : result (dsp_core P * list Z) :=
  match n with
  | O => Ok (dsp, [])
  | S n' =>
      let p := pc dsp in
      dsp ← tick dsp;
      '(dsp, ps) ← ticks dsp n';
      Ok (dsp, p :: ps)
  end.

(** The memory cell behind an address; [None] for peripherals and holes. *)
Inductive cell := XCell (a : Z) | MixCell (a : Z) | YCell (a : Z) | PCell (a : Z).

#[global] Instance cell_eq_dec : EqDecision cell.
Proof. solve_decision. Defined.

Definition cell_of (space address : Z) : option cell :=
  if space =? DSP_SPACE_X then
    if DSP_PERIPH_BASE <=? address then None
    else if in_mixbuffer DSP_MIXBUFFER_BASE address then
      Some (MixCell (address - DSP_MIXBUFFER_BASE))
    else if in_mixbuffer 0xc00 address then Some (MixCell (address - 0xc00))
    else if address <? DSP_XRAM_SIZE then Some (XCell address)
    else None
  else if space =? DSP_SPACE_Y then
    if address <? DSP_YRAM_SIZE then Some (YCell address) else None
  else if space =? DSP_SPACE_P then
    if address <? DSP_PRAM_SIZE then Some (PCell address) else None
  else None.

Definition cell_value dsp (c : cell) : Z :=
  match c with
  | XCell a => rd (xram dsp) a
  | MixCell a => rd (mixbuffer dsp) a
  | YCell a => rd (yram dsp) a
  | PCell a => rd (pram dsp) a
  end.

(** The interrupt bookkeeping: the pending flags are 0 or 1 and the counter is
    their sum. *)
Definition pending_sum dsp : Z :=
  rd (interrupt_is_pending dsp) 0 + rd (interrupt_is_pending dsp) 1 +
  rd (interrupt_is_pending dsp) 2 + rd (interrupt_is_pending dsp) 3.
Definition interrupt_inv dsp : Prop :=
  (forall i, 0 <= i < 4 -> rd (interrupt_is_pending dsp) i = 0 \/ rd (interrupt_is_pending dsp) i = 1) /\
  interrupt_counter dsp = pending_sum dsp.
End DspSpecs.

(** ** Registers and stack *)

Section DspTheorems.
Context {P : Type}.
Implicit Types dsp d : dsp_core P.

Ltac core_red :=
  unfold getr, setr; proj_red; repeat first [rewrite rd_wr_eq | rewrite rd_wr_ne by done].

Lemma getr_setr_eq r v dsp : getr (setr r v dsp) r = v.
Proof. apply rd_wr_eq. Qed.
Lemma getr_setr_ne r r' v dsp : r <> r' -> getr (setr r v dsp) r' = getr dsp r'.
Proof. intros. by apply rd_wr_ne. Qed.

(** The SP register and the entry it selects, for a stack without error flags. *)
Lemma sp_bits sp : 0 <= sp < 16 ->
  Z.land sp (bit DSP_SP_SE) = 0 /\ Z.land sp (bit DSP_SP_UF) = 0 /\ Z.land sp (BITMASK 4) = sp.
Proof.
  intros Hsp. split; [|split].
  - rewrite (land_high sp 4 1 ltac:(done) ltac:(done) : Z.land sp (bit DSP_SP_SE) = _).
    by rewrite Z.div_small.
  - rewrite (land_high sp 5 1 ltac:(done) ltac:(done) : Z.land sp (bit DSP_SP_UF) = _).
    by rewrite Z.div_small by lia.
  - rewrite land_BITMASK by done. by apply Z.mod_small.
Qed.

Lemma push_view dsp l p sr :
  stack_view dsp l -> (length l < 15)%nat ->
  exists dsp', dsp_stack_push dsp p sr 0 = Ok dsp' /\
    stack_view dsp' ((Z.land p (BITMASK 16), Z.land sr (BITMASK 16)) :: l) /\
    (forall r, ~ stack_reg r -> getr dsp' r = getr dsp r) /\
    pc dsp' = pc dsp.
Proof.
  intros [Hsp Hlen Hcells Hssh Hssl] Hlt. unfold dsp_stack_push. rewrite Hsp.
  destruct (sp_bits (Z.of_nat (length l))) as (-> & -> & ->); [lia|].
  set (n := Z.of_nat (length l) + 1).
  destruct (sp_bits n) as (HSE & _ & Hmask); [lia|].
  unfold has. rewrite HSE. cbn [Z.eqb negb andb mbind result_mbind result_bind].
  rewrite !Z.lor_0_l, Hmask. rewrite (proj2 (Z.eqb_neq n 0)) by lia. cbn [negb].
  rewrite (land_BITMASK n 6), (Z.mod_small n) by lia.
  assert (Z.of_nat (length ((Z.land p (BITMASK 16), Z.land sr (BITMASK 16)) :: l)) = n) as Hn.
  { simpl length. lia. }
  eexists. split; [reflexivity|]. split; [|split; [|done]].
  - constructor.
    + core_red. by rewrite Hn.
    + simpl. lia.
    + intros k p' s' Hk. core_red. rewrite <- Hn. destruct k as [|k]; cbn in Hk.
      * simplify_eq. rewrite Nat.sub_0_r, !rd_wr_eq. done.
      * apply lookup_lt_Some in Hk as Hk'. rewrite !rd_wr_ne by (simpl; lia). by apply Hcells.
    + core_red. by rewrite Hn, rd_wr_eq.
    + core_red. by rewrite Hn, rd_wr_eq.
  - intros r Hr. unfold stack_reg in Hr. core_red. by rewrite !rd_wr_ne by (intros <-; tauto).
Qed.

Lemma pop_view dsp l p sr :
  stack_view dsp ((p, sr) :: l) ->
  exists dsp', dsp_stack_pop dsp = Ok (dsp', p, sr) /\ stack_view dsp' l /\
    (forall r, ~ stack_reg r -> getr dsp' r = getr dsp r) /\ pc dsp' = pc dsp.
Proof.
  intros [Hsp Hlen Hcells Hssh Hssl]. cbn [length] in *. unfold dsp_stack_pop. rewrite Hsp.
  destruct (sp_bits (Z.of_nat (S (length l)))) as (-> & -> & ->); [lia|].
  rewrite u32_id by (unfold is_u32; lia).
  replace (Z.of_nat (S (length l)) - 1) with (Z.of_nat (length l)) by lia.
  destruct (sp_bits (Z.of_nat (length l))) as (HSE & _ & Hmask); [lia|].
  unfold has. rewrite HSE. cbn [Z.eqb negb andb mbind result_mbind result_bind].
  rewrite !Z.lor_0_l, Hmask, (land_BITMASK _ 6), Z.mod_small by lia.
  destruct (Hcells 0%nat p sr eq_refl) as [Hp Hs]. rewrite Nat.sub_0_r in Hp, Hs.
  rewrite !getr_setr_ne, Hssh, Hssl, Hp, Hs by done.
  eexists. split; [reflexivity|]. split; [|split].
  - constructor; core_red; [done|lia| |done|done].
    intros k p' s' Hk. by apply (Hcells (S k)).
  - intros r Hr. unfold stack_reg in Hr. core_red. by rewrite !rd_wr_ne by (intros <-; tauto).
  - done.
Qed.

(** ** REP *)

Lemma post_add dsp a b : post dsp (a + b) = (dsp ← post dsp a; post dsp b).
Proof.
  revert dsp. induction a as [|a IH]; intros dsp; [done|]. cbn [post Nat.add].
  destruct (dsp_postexecute_update_pc _) as [d|]; [|done]. apply IH.
Qed.

(** Repeating the instruction at [p], [n] executions to go. *)
Record repeating dsp (n p save : Z) : Prop := {
  rep_loop : loop_rep dsp <> 0;
  rep_on : pc_on_rep dsp = 0;
  rep_lc : getr dsp DSP_REG_LC = n;
  rep_save : getr dsp DSP_REG_LCSAVE = save;
  rep_pc : pc dsp = p;
  rep_lf : Z.testbit (getr dsp DSP_REG_SR) DSP_SR_LF = false;
}.

Lemma dec16 n : 1 <= n <= 2 ^ 16 -> Z.land (u32 (n - 1)) (BITMASK 16) = n - 1.
Proof.
  intros Hn. rewrite u32_id, land_BITMASK by (unfold is_u32; lia). apply Z.mod_small. lia.
Qed.

Lemma repeating_len dsp n p save k :
  repeating dsp n p save -> repeating (dsp <| cur_inst_len := k |>) n p save.
Proof. by intros []. Qed.

Lemma update_rep_counts dsp n p save :
  repeating dsp n p save -> 1 <= n <= 2 ^ 16 ->
  update_rep dsp =
    if 1 <? n then setr DSP_REG_LC (n - 1) dsp <| cur_inst_len := 0 |>
    else setr DSP_REG_LC save (setr DSP_REG_LC (n - 1) dsp <| loop_rep := 0 |>).
Proof.
  intros [Hl Ho Hlc Hs Hp Hlf] Hn. unfold update_rep.
  rewrite (proj2 (Z.eqb_neq _ _) Hl), Ho. cbn [negb Z.eqb]. rewrite Hlc, dec16 by done.
  rewrite getr_setr_eq, getr_setr_ne, Hs by done.
  replace (0 <? n - 1) with (1 <? n) by (destruct (Z.ltb_spec 1 n), (Z.ltb_spec 0 (n - 1)); lia).
  done.
Qed.

Lemma update_do_off dsp :
  Z.testbit (getr dsp DSP_REG_SR) DSP_SR_LF = false -> update_do dsp = Ok dsp.
Proof. intros H. unfold update_do. by rewrite has_bit, H. Qed.

Lemma rep_step dsp n p save :
  repeating dsp n p save -> 1 < n <= 2 ^ 16 -> is_u32 p ->
  exists d, dsp_postexecute_update_pc (dsp <| cur_inst_len := 1 |>) = Ok d /\
    repeating d (n - 1) p save.
Proof.
  intros Hrep Hn Hp. unfold dsp_postexecute_update_pc.
  rewrite (update_rep_counts _ n p save) by (by apply repeating_len || lia).
  rewrite (proj2 (Z.ltb_lt 1 n)) by lia. destruct Hrep as [Hl Ho Hlc Hs Hpc Hlf].
  rewrite update_do_off by (core_red; done).
  eexists. split; [reflexivity|]. constructor; core_red; try done.
  by rewrite Z.add_0_r, Hpc, u32_id.
Qed.

Lemma rep_last dsp p save :
  repeating dsp 1 p save -> is_u32 (p + 1) ->
  exists d, dsp_postexecute_update_pc (dsp <| cur_inst_len := 1 |>) = Ok d /\
    loop_rep d = 0 /\ pc d = p + 1 /\ getr d DSP_REG_LC = save.
Proof.
  intros Hrep Hp. unfold dsp_postexecute_update_pc.
  rewrite (update_rep_counts _ 1 p save) by (by apply repeating_len || lia). destruct Hrep as [Hl Ho Hlc Hs Hpc Hlf].
  cbn [Z.ltb Z.compare Pos.compare Pos.compare_cont].
  rewrite update_do_off by (core_red; done).
  eexists. split; [reflexivity|]. core_red. by rewrite Hpc, u32_id.
Qed.

(** The REP instruction itself has just run: it left the count in LC, and 0
    stands for 65536. *)
Record rep_started dsp (c p save : Z) : Prop := {
  started_loop : loop_rep dsp <> 0;
  started_on : pc_on_rep dsp <> 0;
  started_lc : getr dsp DSP_REG_LC = c;
  started_save : getr dsp DSP_REG_LCSAVE = save;
  started_pc : pc dsp = p;
  started_lf : Z.testbit (getr dsp DSP_REG_SR) DSP_SR_LF = false;
}.
Definition rep_times (c : Z) : Z := if c =? 0 then 0x10000 else c.

Lemma rep_start dsp c p save :
  rep_started dsp c p save -> is_u32 (p + 1) ->
  exists d, dsp_postexecute_update_pc (dsp <| cur_inst_len := 1 |>) = Ok d /\
    repeating d (rep_times c) (p + 1) save.
Proof.
  intros [Hl Ho Hlc Hs Hpc Hlf] Hp. unfold dsp_postexecute_update_pc, update_rep. proj_red.
  rewrite (proj2 (Z.eqb_neq _ _) Hl), (proj2 (Z.eqb_neq _ _) Ho). cbn [negb].
  change (getr (dsp <| cur_inst_len := 1 |>)) with (getr dsp). rewrite Hlc. unfold rep_times.
  destruct (c =? 0) eqn:Hc; rewrite update_do_off by (core_red; done);
    (eexists; split; [reflexivity|]); constructor; core_red; try done; by rewrite Hpc, u32_id.
Qed.

Lemma rep_runs n : forall dsp p save,
  repeating dsp (Z.of_nat (S n)) p save -> Z.of_nat n < 2 ^ 16 -> is_u32 p -> is_u32 (p + 1) ->
  (forall k, (k <= n)%nat -> exists d, post dsp k = Ok d /\ pc d = p) /\
  (exists d, post dsp (S n) = Ok d /\ loop_rep d = 0 /\ pc d = p + 1 /\ getr d DSP_REG_LC = save).
Proof.
  induction n as [|n IH]; intros dsp p save Hrep Hn Hp Hp1.
  - split.
    + intros k Hk. replace k with 0%nat by lia. exists dsp. split; [done|]. apply Hrep.
    + destruct (rep_last dsp p save Hrep Hp1) as (d & Hd & Hrest). exists d.
      cbn [post]. rewrite Hd. done.
  - destruct (rep_step dsp (Z.of_nat (S (S n))) p save Hrep ltac:(lia) Hp) as (d & Hd & Hrep').
    replace (Z.of_nat (S (S n)) - 1) with (Z.of_nat (S n)) in Hrep' by lia.
    destruct (IH d p save Hrep' ltac:(lia) Hp Hp1) as [Hstay Hlast].
    assert (forall k, post dsp (S k) = post d k) as Hshift.
    { intros k. cbn [post]. by rewrite Hd. }
    split; [|by rewrite Hshift].
    intros [|k] Hk; [exists dsp; split; [done|apply Hrep]|].
    rewrite Hshift. apply Hstay. lia.
Qed.

(** REP repeats exactly: after a REP with count [c] (0 standing for
    65536) the next instruction is executed that many times, the PC staying on
    it, and then the PC moves on and LC is restored. *)
Theorem rep_executes_count dsp c p save :
  rep_started dsp c p save -> 0 <= c < 2 ^ 16 -> is_u32 (p + 1) -> is_u32 (p + 2) ->
  let n := Z.to_nat (rep_times c) in
  (forall k, (1 <= k <= n)%nat -> exists d, post dsp k = Ok d /\ pc d = p + 1) /\
  exists d, post dsp (S n) = Ok d /\ pc d = p + 2 /\ loop_rep d = 0 /\ getr d DSP_REG_LC = save.
Proof.
  intros Hst Hc Hp1 Hp2 n.
  destruct (rep_start dsp c p save Hst Hp1) as (d & Hd & Hrep).
  assert (1 <= rep_times c <= 2 ^ 16) as Ht.
  { unfold rep_times. destruct (Z.eqb_spec c 0); lia. }
  destruct (rep_runs (Nat.pred n) d (p + 1) save) as [Hstay Hlast].
  - replace (Z.of_nat (S (Nat.pred n))) with (rep_times c) by lia. done.
  - lia.
  - done.
  - by rewrite <- Z.add_assoc.
  - assert (forall k, post dsp (S k) = post d k) as Hshift.
    { intros k. cbn [post]. by rewrite Hd. }
    split.
    + intros k Hk. destruct k as [|k]; [lia|]. rewrite Hshift. apply Hstay. lia.
    + rewrite Hshift. replace n with (S (Nat.pred n)) by lia.
      destruct Hlast as (d' & Hd' & Hl & Hpc & Hlc). exists d'.
      split; [done|]. split; [|done]. lia.
Qed.

(** ** DO loops *)

(** Inside a DO loop: the body is [start..la], [n] in LC, the stack holds the
    loop's start and status, and under them the saved LA and LC. *)
Record looping dsp (n start la p sr sr1 la0 lc0 : Z) (l : list (Z * Z)) : Prop := {
  loop_norep : loop_rep dsp = 0;
  loop_sr : getr dsp DSP_REG_SR = sr;
  loop_lf : Z.testbit sr DSP_SR_LF = true;
  loop_la : getr dsp DSP_REG_LA = la;
  loop_lc : getr dsp DSP_REG_LC = n;
  loop_pc : pc dsp = p;
  loop_stack : stack_view dsp ((start, sr1) :: (la0, lc0) :: l);
}.

Lemma view_ext dsp dsp' l :
  stack_view dsp l -> (forall r, stack_reg r -> getr dsp' r = getr dsp r) ->
  ssh_stack dsp' = ssh_stack dsp -> ssl_stack dsp' = ssl_stack dsp -> stack_view dsp' l.
Proof.
  intros [H1 H2 H3 H4 H5] Hr Hh Hl. unfold stack_reg in Hr.
  constructor; rewrite ?Hr, ?Hh, ?Hl by auto; done.
Qed.

Lemma update_pc_norep dsp :
  loop_rep dsp = 0 ->
  dsp_postexecute_update_pc (dsp <| cur_inst_len := 1 |>) =
  update_do (dsp <| cur_inst_len := 1 |> <| pc ::= fun p => u32 (p + 1) |>).
Proof.
  intros Hl. unfold dsp_postexecute_update_pc, update_rep. proj_red. by rewrite Hl.
Qed.

Lemma do_inside dsp n start la p sr sr1 la0 lc0 l :
  looping dsp n start la p sr sr1 la0 lc0 l -> is_u16 la -> 0 <= p < la ->
  exists d, dsp_postexecute_update_pc (dsp <| cur_inst_len := 1 |>) = Ok d /\
    looping d n start la (p + 1) sr sr1 la0 lc0 l.
Proof.
  intros [Hr Hsr Hlf Hla Hlc Hp Hst] Hla16 Hpr. unfold is_u16 in Hla16.
  rewrite update_pc_norep by done. unfold update_do. rewrite has_bit by done.
  core_red. fold (getr dsp DSP_REG_SR) (getr dsp DSP_REG_LA). rewrite Hsr, Hlf, Hla, Hp.
  rewrite !u32_id by (unfold is_u32; lia). rewrite (proj2 (Z.eqb_neq _ _)) by lia.
  eexists. split; [reflexivity|]. constructor; core_red; try done.
  - by rewrite Hp, u32_id by (unfold is_u32; lia).
  - by apply (view_ext dsp).
Qed.

(** The count after one more pass; LC is 16 bits wide. *)
Definition lc_dec (n : Z) : Z := Z.land (u32 (n - 1)) (BITMASK 16).

Lemma do_again dsp n start la sr sr1 la0 lc0 l :
  looping dsp n start la la sr sr1 la0 lc0 l -> is_u16 la -> lc_dec n <> 0 ->
  exists d, dsp_postexecute_update_pc (dsp <| cur_inst_len := 1 |>) = Ok d /\
    looping d (lc_dec n) start la start sr sr1 la0 lc0 l.
Proof.
  intros [Hr Hsr Hlf Hla Hlc Hp Hst] Hla16 Hn. unfold is_u16 in Hla16.
  rewrite update_pc_norep by done. unfold update_do. rewrite has_bit by done.
  core_red. fold (getr dsp DSP_REG_SR) (getr dsp DSP_REG_LA) (getr dsp DSP_REG_LC)
    (getr dsp DSP_REG_SSH). rewrite Hsr, Hlf, Hla, Hp, Hlc, Z.eqb_refl.
  fold (lc_dec n). rewrite (proj2 (Z.eqb_neq _ _) Hn).
  eexists. split; [reflexivity|]. constructor; core_red; try done.
  - fold (getr dsp DSP_REG_SSH). rewrite (view_ssh _ _ Hst).
    by destruct (view_cells _ _ Hst 0%nat start sr1 eq_refl) as [<- _].
  - apply (view_ext dsp); [done| |done|done]. intros r [->|[->| ->]]; by core_red.
Qed.

(** After the last pass: LA, LC and LF are those saved when the loop began. *)
Record loop_left dsp (la sr sr1 la0 lc0 : Z) (l : list (Z * Z)) : Prop := {
  left_pc : pc dsp = la + 1;
  left_la : getr dsp DSP_REG_LA = la0;
  left_lc : getr dsp DSP_REG_LC = lc0;
  left_sr : getr dsp DSP_REG_SR = Z.lor (Z.land sr 0x7f) (Z.land sr1 (bit DSP_SR_LF));
  left_stack : stack_view dsp l;
}.

Lemma do_leave dsp n start la sr sr1 la0 lc0 l :
  looping dsp n start la la sr sr1 la0 lc0 l -> is_u16 la -> lc_dec n = 0 ->
  exists d, dsp_postexecute_update_pc (dsp <| cur_inst_len := 1 |>) = Ok d /\
    loop_left d la sr sr1 la0 lc0 l.
Proof.
  intros [Hr Hsr Hlf Hla Hlc Hp Hst] Hla16 Hn. unfold is_u16 in Hla16.
  rewrite update_pc_norep by done. unfold update_do. rewrite has_bit by done.
  core_red. fold (getr dsp DSP_REG_SR) (getr dsp DSP_REG_LA) (getr dsp DSP_REG_LC).
  rewrite Hsr, Hlf, Hla, Hp, Hlc, Z.eqb_refl. fold (lc_dec n). rewrite Hn, Z.eqb_refl.
  unfold leave_loop.
  match goal with |- context [dsp_stack_pop ?d] =>
    destruct (pop_view d ((la0, lc0) :: l) start sr1) as (d1 & -> & Hv1 & Hf1 & Hp1) end.
  { apply (view_ext dsp); [done| |done|done]. intros r [->|[->| ->]]; by core_red. }
  cbn [mbind result_mbind result_bind].
  match goal with |- context [dsp_stack_pop ?d] =>
    destruct (pop_view d l la0 lc0) as (d2 & -> & Hv2 & Hf2 & Hp2) end.
  { apply (view_ext d1); [done| |done|done]. intros r [->|[->| ->]]; by core_red. }
  cbn [mbind result_mbind result_bind]. eexists. split; [reflexivity|].
  assert (forall r, stack_reg r -> r <> DSP_REG_LA /\ r <> DSP_REG_LC) as Hne
    by (by intros r [->|[->| ->]]).
  constructor.
  - core_red. rewrite Hp2. core_red. rewrite Hp1. core_red. rewrite Hp.
    apply u32_id. unfold is_u32. lia.
  - by core_red.
  - by core_red.
  - core_red. fold (getr d2 DSP_REG_SR). rewrite Hf2 by (by intros [?|[?|?]]). core_red.
    fold (getr d1 DSP_REG_SR). rewrite Hf1 by (by intros [?|[?|?]]). core_red.
    fold (getr dsp DSP_REG_SR). by rewrite Hsr.
  - apply (view_ext d2); [done| |done|done]. intros r [->|[->| ->]]; by core_red.
Qed.

Lemma do_body k : forall dsp n start la sr sr1 la0 lc0 l p,
  looping dsp n start la p sr sr1 la0 lc0 l -> is_u16 la -> 0 <= p -> p + Z.of_nat k <= la ->
  exists d, post dsp k = Ok d /\ looping d n start la (p + Z.of_nat k) sr sr1 la0 lc0 l.
Proof.
  induction k as [|k IH]; intros dsp n start la sr sr1 la0 lc0 l p Hl Hla Hp Hk.
  { exists dsp. by rewrite Z.add_0_r. }
  destruct (do_inside _ _ _ _ _ _ _ _ _ _ Hl Hla) as (d & Hd & Hl'); [lia|].
  destruct (IH _ _ _ _ _ _ _ _ _ _ Hl' Hla) as (d' & Hd' & Hl''); [lia|lia|].
  exists d'. split; [cbn [post]; by rewrite Hd|].
  by replace (p + Z.of_nat (S k)) with (p + 1 + Z.of_nat k) by lia.
Qed.

Lemma lc_dec_u16 N : 1 <= N <= 2 ^ 16 -> lc_dec (u16 N) = N - 1.
Proof.
  intros HN. unfold lc_dec, u16, u32. rewrite land_BITMASK by done.
  destruct (Z.eq_dec N (2 ^ 16)) as [->|]; [done|].
  rewrite (Z.mod_small N), (Z.mod_small (N - 1) (2 ^ 32)) by lia. apply Z.mod_small. lia.
Qed.

(** [post] through one whole pass over the body. *)
Lemma do_pass dsp n start la sr sr1 la0 lc0 l :
  looping dsp n start la start sr sr1 la0 lc0 l -> is_u16 la -> 0 <= start <= la ->
  exists d, post dsp (Z.to_nat (la - start)) = Ok d /\
    post dsp (Z.to_nat (la - start + 1)) = dsp_postexecute_update_pc (d <| cur_inst_len := 1 |>) /\
    looping d n start la la sr sr1 la0 lc0 l.
Proof.
  intros Hl Hla Hs.
  destruct (do_body (Z.to_nat (la - start)) _ _ _ _ _ _ _ _ _ _ Hl Hla) as (d & Hd & Hl'); [lia|lia|].
  exists d. split; [done|]. split.
  - replace (Z.to_nat (la - start + 1)) with (Z.to_nat (la - start) + 1)%nat by lia.
    rewrite post_add, Hd. cbn [mbind result_mbind result_bind post].
    by destruct (dsp_postexecute_update_pc _).
  - by replace (start + Z.of_nat (Z.to_nat (la - start))) with la in Hl' by lia.
Qed.


(** ** Interrupts *)

Lemma add_interrupt_inv dsp i d :
  interrupt_inv dsp -> dsp56k_add_interrupt dsp i = Ok d -> interrupt_inv d.
Proof.
  intros [Hp Hc]. unfold dsp56k_add_interrupt.
  destruct ((0 <=? i) && (i <? 4)) eqn:Hi; [|done]. cbn [negb].
  apply andb_true_iff in Hi as [Hi1 Hi2]. apply Z.leb_le in Hi1. apply Z.ltb_lt in Hi2.
  destruct (_ =? -1); [by intros [= <-]|].
  destruct (Z.eqb_spec (rd (interrupt_is_pending dsp) i) 0) as [H0|]; [|by intros [= <-]].
  intros [= <-]. split.
  - intros j Hj. core_red. destruct (Z.eq_dec i j) as [->|]; [rewrite rd_wr_eq; auto|].
    rewrite rd_wr_ne by done. auto.
  - unfold pending_sum in *. core_red. rewrite Hc.
    pose proof (Hp 0 ltac:(lia)). pose proof (Hp 1 ltac:(lia)).
    pose proof (Hp 2 ltac:(lia)). pose proof (Hp 3 ltac:(lia)).
    assert (i = 0 \/ i = 1 \/ i = 2 \/ i = 3) as [->|[->|[->| ->]]] by lia;
      core_red; rewrite u16_id by (unfold is_u16; lia); lia.
Qed.

Lemma inv_ext dsp d :
  interrupt_is_pending d = interrupt_is_pending dsp ->
  interrupt_counter d = interrupt_counter dsp -> interrupt_inv dsp -> interrupt_inv d.
Proof. intros H1 H2 [Hp Hc]. split; unfold pending_sum in *; rewrite ?H1, ?H2; done. Qed.

Lemma push_inv dsp p sr o d :
  interrupt_inv dsp -> dsp_stack_push dsp p sr o = Ok d -> interrupt_inv d.
Proof.
  intros Hinv Hrun. unfold dsp_stack_push in Hrun.
  match type of Hrun with (mbind _ ?e = _) => destruct e as [d1|] eqn:He end; [|done].
  assert (interrupt_inv d1) as Hinv1.
  { destruct (_ && _); [|by simplify_eq].
    destruct (dsp56k_add_interrupt dsp DSP_INTER_STACK_ERROR) as [d2|] eqn:Ha; [|done].
    cbn in He. destruct (check _ _); simplify_eq/=. by eapply add_interrupt_inv. }
  cbn [mbind result_mbind result_bind] in Hrun. injection Hrun as <-.
  destruct (negb _); [destruct (o =? 0)|]; by apply (inv_ext d1).
Qed.

Lemma arbitrate_pending dsp ipl_sr idxs : forall index ipl,
  arbitrate dsp ipl_sr idxs index ipl = index \/
  (arbitrate dsp ipl_sr idxs index ipl ∈ idxs /\
   rd (interrupt_is_pending dsp) (arbitrate dsp ipl_sr idxs index ipl) = 1).
Proof.
  induction idxs as [|i idxs IH]; intros index ipl; cbn [arbitrate]; [by left|].
  destruct (Z.eqb_spec (rd (interrupt_is_pending dsp) i) 1) as [Hi|Hi].
  - destruct (_ =? 3); [right; split; [apply list_elem_of_here|done]|].
    destruct (_ <? _); [|destruct (_ <=? _)].
    1, 2: destruct (IH index ipl) as [->|[Hin Hp]]; [by left|right; split; [by apply list_elem_of_further|done]].
    destruct (IH i (rd (interrupt_ipl dsp) i)) as [->|[Hin Hp]]; right.
    + split; [apply list_elem_of_here|done].
    + split; [by apply list_elem_of_further|done].
  - destruct (IH index ipl) as [->|[Hin Hp]]; [by left|right; split; [by apply list_elem_of_further|done]].
Qed.

Lemma start_interrupt_inv dsp d :
  interrupt_inv dsp -> start_interrupt dsp = Ok d -> interrupt_inv d.
Proof.
  intros Hinv. unfold start_interrupt. destruct (_ =? 0) eqn:H0; [by intros [= <-]|].
  set (ipl_sr := Z.land _ _). set (index := arbitrate dsp ipl_sr _ _ _).
  destruct (Z.eqb_spec index 0xffff) as [|Hne]; [by intros [= <-]|].
  destruct (arbitrate_pending dsp ipl_sr [0; 1; 2; 3] 0xffff (-1)) as [|[Hin Hpend]]; [done|].
  fold index in Hin, Hpend. unfold mbind, result_mbind, result_bind.
  destruct (fetch dsp_interrupt index) as [vec|]; [|done]. intros [= <-].
  destruct Hinv as [Hp Hc]. split.
  - intros j Hj. core_red. destruct (Z.eq_dec index j) as [<-|]; [rewrite rd_wr_eq; auto|].
    rewrite rd_wr_ne by done. auto.
  - unfold pending_sum in *. core_red. rewrite Hc.
    pose proof (Hp 0 ltac:(lia)). pose proof (Hp 1 ltac:(lia)).
    pose proof (Hp 2 ltac:(lia)). pose proof (Hp 3 ltac:(lia)).
    assert (index = 0 \/ index = 1 \/ index = 2 \/ index = 3) as Hi.
    { rewrite !elem_of_cons in Hin. destruct Hin as [|[|[|[|Hin]]]]; auto. by inversion Hin. }
    clearbody index. destruct Hi as [->|[->|[->| ->]]];
      core_red; rewrite u16_id by (unfold is_u16; lia); lia.
Qed.

Lemma long_inv dsp d : interrupt_inv dsp -> enter_long_interrupt dsp = Ok d -> interrupt_inv d.
Proof.
  intros Hinv. unfold enter_long_interrupt, mbind, result_mbind, result_bind.
  destruct (dsp_stack_push _ _ _ _) as [d1|] eqn:Hpush; [|done]. intros [= <-].
  apply push_inv in Hpush; [by apply (inv_ext d1)|by apply (inv_ext dsp)].
Qed.

Lemma down_inv dsp d : interrupt_inv dsp -> Ok (pipeline_down dsp) = Ok d -> interrupt_inv d.
Proof. intros Hinv [= <-]. by apply (inv_ext dsp). Qed.

Lemma prefetch_inv dsp (instr : Z) d :
  interrupt_inv dsp ->
  (d ← (if is_jsr instr then enter_long_interrupt dsp else Ok dsp); Ok (pipeline_down d)) = Ok d ->
  interrupt_inv d.
Proof.
  intros Hinv. destruct (is_jsr instr).
  - destruct (enter_long_interrupt dsp) as [d1|] eqn:Hl; [|done]. cbn.
    apply down_inv. by eapply long_inv.
  - by apply down_inv.
Qed.

(** The interrupt counter is exact: it equals the number of pending
    interrupts, and posting an interrupt or processing one after an instruction
    keeps it so. *)
Theorem interrupt_counter_exact dsp d :
  interrupt_inv dsp ->
  (exists i, dsp56k_add_interrupt dsp i = Ok d) \/ dsp_postexecute_interrupts dsp = Ok d ->
  interrupt_inv d.
Proof.
  intros Hinv [[i Hi]|Hrun]; [by eapply add_interrupt_inv|].
  unfold dsp_postexecute_interrupts in Hrun.
  destruct (negb _); [by simplify_eq|].
  destruct (interrupt_state dsp =? _); [|by eapply start_interrupt_inv].
  destruct (_ =? 5); [by eapply down_inv|].
  destruct (_ =? 4).
  { destruct (read_memory_p _ _) as [instr|]; [|done]. cbn [mbind result_mbind result_bind] in Hrun.
    eapply prefetch_inv; [|exact Hrun]. by apply (inv_ext dsp). }
  destruct (_ =? 3).
  { destruct (_ =? _); [|by eapply down_inv].
    destruct (read_memory_p _ _) as [instr|]; [|done]. cbn [mbind result_mbind result_bind] in Hrun.
    by eapply prefetch_inv. }
  destruct (_ =? 2).
  { eapply down_inv; [|exact Hrun]. destruct (_ =? _); by apply (inv_ext dsp). }
  destruct (_ =? 1); [by eapply down_inv|].
  destruct (_ =? 0); (eapply start_interrupt_inv; [|exact Hrun]); by apply (inv_ext dsp).
Qed.

(** The lowest-numbered pending interrupt. *)
Definition first_pending dsp : option Z :=
  find (fun i => rd (interrupt_is_pending dsp) i =? 1) [0; 1; 2; 3].

Lemma arbitrate_level3 dsp ipl_sr idxs : forall index ipl,
  (forall i, i ∈ idxs -> rd (interrupt_ipl dsp) i = 3) ->
  arbitrate dsp ipl_sr idxs index ipl =
    default index (find (fun i => rd (interrupt_is_pending dsp) i =? 1) idxs).
Proof.
  induction idxs as [|i idxs IH]; intros index ipl Hipl; [done|]. cbn [arbitrate find].
  rewrite (Hipl i) by apply list_elem_of_here.
  destruct (_ =? 1); [done|]. apply IH. intros j Hj. apply Hipl. by apply list_elem_of_further.
Qed.

(** Interrupts are served lowest number first, once each: with all levels
    at 3 (as the reset leaves them) and none being served, the first pending
    interrupt is started (its vector fetched, its flag cleared, interrupts
    disabled while its two words run) and the others stay pending. *)
Theorem interrupt_lowest_first dsp i :
  interrupt_inv dsp -> loop_rep dsp = 0 -> interrupt_state dsp = DSP_INTERRUPT_NONE ->
  (forall j, 0 <= j < 4 -> rd (interrupt_ipl dsp) j = 3) ->
  first_pending dsp = Some i ->
  exists d, dsp_postexecute_interrupts dsp = Ok d /\
    Some (interrupt_instr_fetch d) = dsp_interrupt !! Z.to_nat i /\
    interrupt_state d = DSP_INTERRUPT_DISABLED /\ interrupt_pipeline_count d = 5 /\
    interrupt_ipl_to_raise d = 3 /\ pc d = pc dsp /\ registers d = registers dsp /\
    forall j, rd (interrupt_is_pending d) j = if j =? i then 0 else rd (interrupt_is_pending dsp) j.
Proof.
  intros [Hp Hc] Hrep Hst Hipl Hfirst. unfold dsp_postexecute_interrupts.
  rewrite Hrep, Hst. cbn [Z.eqb negb DSP_INTERRUPT_NONE DSP_INTERRUPT_DISABLED].
  unfold start_interrupt.
  pose proof (find_some _ _ Hfirst) as [Hin Hpend]. apply Z.eqb_eq in Hpend.
  assert (0 <= i < 4) as Hi by (cbn in Hin; lia).
  rewrite (proj2 (Z.eqb_neq (interrupt_counter dsp) 0)).
  2: { rewrite Hc. unfold pending_sum.
       pose proof (Hp 0 ltac:(lia)). pose proof (Hp 1 ltac:(lia)).
       pose proof (Hp 2 ltac:(lia)). pose proof (Hp 3 ltac:(lia)).
       assert (i = 0 \/ i = 1 \/ i = 2 \/ i = 3) as [->|[->|[->| ->]]] by lia; lia. }
  rewrite arbitrate_level3.
  2: { intros j Hj. apply Hipl. rewrite !elem_of_cons in Hj.
       destruct Hj as [->|[->|[->|[->|Hj]]]]; try done. by inversion Hj. }
  fold (first_pending dsp). rewrite Hfirst. change (default 0xffff (Some i)) with i.
  rewrite (proj2 (Z.eqb_neq i 0xffff)) by lia. proj_red. rewrite (Hipl i) by done.
  destruct (lookup_lt_is_Some_2 dsp_interrupt (Z.to_nat i)) as [vec Hvec]; [simpl; lia|].
  rewrite (fetch_ok _ _ vec) by (done || lia). cbn [mbind result_mbind result_bind].
  eexists. split; [reflexivity|]. proj_red. repeat split; [by rewrite Hvec|].
  intros j. destruct (Z.eqb_spec j i) as [->|]; [by rewrite rd_wr_eq|by rewrite rd_wr_ne].
Qed.

(** Outside loops, with the vector words [w1] and [w2] in program memory. *)
Record serving dsp (count p v save : Z) : Prop := {
  srv_rep : loop_rep dsp = 0;
  srv_lf : Z.testbit (getr dsp DSP_REG_SR) DSP_SR_LF = false;
  srv_state : interrupt_state dsp = DSP_INTERRUPT_DISABLED;
  srv_count : interrupt_pipeline_count dsp = count;
  srv_pending : interrupt_counter dsp = 0;
  srv_pc : pc dsp = p;
  srv_fetch : interrupt_instr_fetch dsp = v;
  srv_save : interrupt_save_pc dsp = save;
  srv_w1 : exists w, read_memory_p dsp v = Ok w /\ is_jsr w = false;
  srv_w2 : exists w, read_memory_p dsp (v + 1) = Ok w /\ is_jsr w = false;
}.

Lemma tick_norep dsp :
  loop_rep dsp = 0 -> Z.testbit (getr dsp DSP_REG_SR) DSP_SR_LF = false ->
  tick dsp =
    dsp_postexecute_interrupts (dsp <| cur_inst_len := 1 |> <| pc ::= fun p => u32 (p + 1) |>).
Proof.
  intros Hr Hlf. unfold tick. rewrite update_pc_norep, update_do_off by (core_red; done). done.
Qed.

(** One step of the pipeline: where the PC goes. *)
Lemma serving_step dsp count p v save :
  serving dsp count p v save -> 1 <= count <= 5 -> is_u16 (p + 1) -> is_u16 (v + 2) -> is_u16 save ->
  (count = 3 -> p = v) -> (count = 2 -> p = v + 1) ->
  exists d, tick dsp = Ok d /\
    serving d (count - 1)
      (if count =? 4 then v else if count =? 2 then save else p + 1)
      v (if count =? 4 then p + 1 else save).
Proof.
  intros [Hr Hlf Hst Hc Hpend Hp Hv Hs (w1 & Hw1 & Hj1) (w2 & Hw2 & Hj2)] Hrange Hp16 Hv16 Hs16 H3 H2.
  rewrite tick_norep by done. unfold dsp_postexecute_interrupts. proj_red.
  rewrite Hr, Hst, Hc, Hv, Hp, Hs. unfold is_u16 in Hp16, Hv16, Hs16.
  rewrite (u32_id (p + 1)) by (unfold is_u32; lia). cbn [Z.eqb negb DSP_INTERRUPT_DISABLED Pos.eqb].
  repeat match goal with |- context [read_memory_p (@setf _ _ ?f ?i ?h ?d)] =>
    change (read_memory_p (@setf _ _ f i h d)) with (read_memory_p dsp) end.
  assert (count = 5 \/ count = 4 \/ count = 3 \/ count = 2 \/ count = 1) as Hcases by lia.
  destruct Hcases as [->|[->|[->|[->| ->]]]]; cbn [Z.eqb Pos.eqb].
  2: rewrite Hw1; cbn [mbind result_mbind result_bind]; rewrite Hj1.
  3: specialize (H3 eq_refl); rewrite H3 in *; rewrite Z.eqb_refl, Hw2; cbn [mbind result_mbind result_bind]; rewrite Hj2.
  4: rewrite (H2 eq_refl), <- Z.add_assoc, Z.eqb_refl.
  all: eexists; (split; [reflexivity|]); unfold pipeline_down; constructor; core_red;
    rewrite ?Hc, ?Hp, ?Hs; try done; try (rewrite ?u32_id, ?u16_id by (unfold is_u32, is_u16; lia); done);
    first [by exists w1 | by exists w2].
Qed.

(** The last step re-enables interrupts. *)
Lemma serving_done dsp p v save :
  serving dsp 0 p v save -> is_u16 (p + 1) ->
  exists d, tick dsp = Ok d /\ pc d = p + 1 /\ interrupt_state d = DSP_INTERRUPT_NONE.
Proof.
  intros [Hr Hlf Hst Hc Hpend Hp Hv Hs _ _] Hp16. unfold is_u16 in Hp16.
  rewrite tick_norep by done. unfold dsp_postexecute_interrupts. proj_red.
  rewrite Hr, Hst, Hc. cbn [Z.eqb negb DSP_INTERRUPT_DISABLED Pos.eqb].
  unfold start_interrupt. proj_red. rewrite Hpend. cbn [Z.eqb].
  eexists. split; [reflexivity|]. proj_red. rewrite Hp, u32_id by (unfold is_u32; lia). done.
Qed.

(** A fast interrupt runs exactly the two words at its vector: the
    interrupted program executes two more instructions, then the two vector
    words, then continues where it was, and after two more instructions
    interrupts are enabled again. *)
Theorem fast_interrupt_runs_two_words dsp p v save :
  serving dsp 5 p v save -> is_u16 save -> 0 <= p -> is_u16 (p + 4) -> 0 <= v -> is_u16 (v + 2) ->
  exists d, ticks dsp 6 = Ok (d, [p; p + 1; v; v + 1; p + 2; p + 3]) /\
    pc d = p + 4 /\ interrupt_state d = DSP_INTERRUPT_NONE.
Proof.
  intros H5 Hs Hp Hp4 Hv Hv2. unfold is_u16 in *.
  destruct (serving_step dsp 5 p v save) as (d4 & E5 & H4); try done; try (unfold is_u16; lia).
  destruct (serving_step d4 4 (p + 1) v save) as (d3 & E4 & H3); try done; try (unfold is_u16; lia).
  destruct (serving_step d3 3 v v (p + 1 + 1)) as (d2 & E3 & H2); try done; try (unfold is_u16; lia).
  destruct (serving_step d2 2 (v + 1) v (p + 1 + 1)) as (d1 & E2 & H1); try done; try (unfold is_u16; lia).
  destruct (serving_step d1 1 (p + 1 + 1) v (p + 1 + 1)) as (d0 & E1 & H0); try done; try (unfold is_u16; lia).
  destruct (serving_done d0 (p + 1 + 1 + 1) v (p + 1 + 1)) as (d & E0 & Hpc & Hst); [done|unfold is_u16; lia|].
  exists d. cbn [ticks]. rewrite E5. cbn [mbind result_mbind result_bind].
  rewrite E4. cbn [mbind result_mbind result_bind]. rewrite E3. cbn [mbind result_mbind result_bind].
  rewrite E2. cbn [mbind result_mbind result_bind]. rewrite E1. cbn [mbind result_mbind result_bind].
  rewrite E0. cbn [mbind result_mbind result_bind].
  rewrite (srv_pc _ _ _ _ _ H5), (srv_pc _ _ _ _ _ H4), (srv_pc _ _ _ _ _ H3),
    (srv_pc _ _ _ _ _ H2), (srv_pc _ _ _ _ _ H1), (srv_pc _ _ _ _ _ H0), Hpc.
  replace (p + 1 + 1) with (p + 2) by lia. replace (p + 2 + 1) with (p + 3) by lia.
  split; [done|]. split; [lia|done].
Qed.

(** ** The system stack *)

(** A sequence of calls and returns, as the code of subroutines, DO loops and
    long interrupts makes them; [None] when the stack would over- or underflow. *)
Inductive stack_op := Push (p sr : Z) | Pop.

Fixpoint stack_run dsp (ops : list stack_op) : result (dsp_core P * list (Z * Z)) :=
  match ops with
  | [] => Ok (dsp, [])
  | Push p sr :: ops => dsp ← dsp_stack_push dsp p sr 0; stack_run dsp ops
  | Pop :: ops =>
      '(dsp, p, sr) ← dsp_stack_pop dsp;
      '(dsp, out) ← stack_run dsp ops;
      Ok (dsp, (p, sr) :: out)
  end.

Fixpoint list_run (l : list (Z * Z)) (ops : list stack_op) : option (list (Z * Z) * list (Z * Z)) :=
  match ops with
  | [] => Some (l, [])
  | Push p sr :: ops =>
      if (length l <? 15)%nat
      then list_run ((Z.land p (BITMASK 16), Z.land sr (BITMASK 16)) :: l) ops else None
  | Pop :: ops =>
      match l with
      | [] => None
      | top :: l => '(l, out) ← list_run l ops; Some (l, top :: out)
      end
  end.

(** The hardware stack is a stack: as long as its 15 entries are not
    exceeded, any sequence of pushes and pops returns what a list returns (16
    bits of PC and SR each), with no stack error and no other register
    touched. *)
Theorem system_stack_refines_list ops : forall dsp l l' out,
  stack_view dsp l -> list_run l ops = Some (l', out) ->
  exists d, stack_run dsp ops = Ok (d, out) /\ stack_view d l' /\
    forall r, ~ stack_reg r -> getr d r = getr dsp r.
Proof.
  induction ops as [|[p sr|] ops IH]; intros dsp l l' out Hv Hrun; cbn [list_run stack_run] in *.
  - simplify_eq. by exists dsp.
  - destruct (Nat.ltb_spec (length l) 15) as [Hlt|]; [|done].
    destruct (push_view dsp l p sr Hv Hlt) as (d1 & -> & Hv1 & Hr1 & _).
    destruct (IH d1 _ _ _ Hv1 Hrun) as (d & Hd & Hvd & Hr). exists d.
    split; [done|]. split; [done|]. intros r Hns. by rewrite Hr, Hr1.
  - destruct l as [|[p sr] l]; [done|].
    destruct (list_run l ops) as [[l2 out2]|] eqn:Hl; [|done]. cbn in Hrun. simplify_eq.
    destruct (pop_view dsp l p sr Hv) as (d1 & -> & Hv1 & Hr1 & _).
    destruct (IH d1 _ _ _ Hv1 Hl) as (d & Hd & Hvd & Hr). exists d.
    cbn [mbind result_mbind result_bind]. rewrite Hd.
    split; [done|]. split; [done|]. intros r Hns. by rewrite Hr, Hr1.
Qed.

(** ** Memory *)

Lemma top_byte_clear x : 0 <= x < 2 ^ 24 -> Z.land x 0xFF000000 = 0.
Proof.
  intros Hx. rewrite (land_high x 24 8 ltac:(done) ltac:(done) : Z.land x 0xFF000000 = _).
  by rewrite Z.div_small.
Qed.

Context `{!DspPeripheral P}.

Lemma write_cell dsp space a v c :
  0 <= a < 2 ^ 24 -> 0 <= v < 2 ^ 24 -> cell_of space a = Some c ->
  exists d, dsp56k_write_memory dsp space a v = Ok d /\
    (forall c', cell_value d c' = if decide (c' = c) then v else cell_value dsp c').
Proof.
  intros Ha Hv Hc. unfold dsp56k_write_memory, write_memory_raw.
  rewrite !top_byte_clear by done. cbn [check Z.eqb mbind result_mbind result_bind].
  unfold cell_of in Hc.
  assert (forall (m : mem) i j, rd (wr i v m) j = if decide (j = i) then v else rd m j) as Hrd.
  { intros m i j. case_decide as Hd; [by rewrite Hd, rd_wr_eq|by rewrite rd_wr_ne]. }
  repeat match type of Hc with (if ?b then _ else _) = _ => destruct b end; simplify_eq;
    cbn [check mbind result_mbind result_bind];
    (eexists; split; [reflexivity|]); intros [b|b|b|b]; cbn [cell_value]; proj_red; rewrite ?Hrd;
    repeat case_decide; simplify_eq; done.
Qed.

Lemma read_cell dsp space a c :
  0 <= a < 2 ^ 24 -> cell_of space a = Some c ->
  dsp56k_read_memory dsp space a =
    match c with
    | PCell b => if Z.land (rd (pram dsp) b) 0xFF000000 =? 0 then Ok (dsp, rd (pram dsp) b)
                 else Fault (AssertFail "(r & 0xFF000000) == 0")
    | _ => Ok (dsp, cell_value dsp c)
    end.
Proof.
  intros Ha Hc. unfold dsp56k_read_memory, read_memory_p.
  rewrite !(top_byte_clear a) by done. cbn [check Z.eqb mbind result_mbind result_bind].
  unfold cell_of in Hc.
  repeat match type of Hc with (if ?b then _ else _) = _ => destruct b end; simplify_eq; try done.
  cbn [check mbind result_mbind result_bind]. unfold check. by destruct (_ =? 0).
Qed.

(** DSP memory is memory: after a write to a RAM address of any space, a
    read of any RAM address returns the written value if it is the same cell
    (the mix buffer is one set of cells behind two windows of X) and what it
    returned before otherwise. *)
Theorem dsp_memory_read_after_write dsp space a v c space' a' c' :
  0 <= a < 2 ^ 24 -> 0 <= v < 2 ^ 24 -> cell_of space a = Some c ->
  0 <= a' < 2 ^ 24 -> cell_of space' a' = Some c' ->
  exists d, dsp56k_write_memory dsp space a v = Ok d /\
    dsp56k_read_memory d space' a' =
      if decide (c' = c) then Ok (d, v)
      else '(_, x) ← dsp56k_read_memory dsp space' a'; Ok (d, x).
Proof.
  intros Ha Hv Hc Ha' Hc'. destruct (write_cell dsp space a v c Ha Hv Hc) as (d & Hd & Hval).
  exists d. split; [done|]. rewrite !(read_cell _ space' a' c' Ha' Hc'). pose proof (Hval c') as Hc2.
  destruct c'; cbn [cell_value] in Hc2 |- *; rewrite Hc2; case_decide; try done;
    first [by rewrite top_byte_clear | by destruct (_ =? 0)].
Qed.
End DspTheorems.

(** ** Examples: a core after reset, without peripherals *)

Definition core0 : dsp_core unit :=
  dsp56k_reset_cpu
    (mkCore true false 0 0 0 ∅ ∅ ∅ ∅ ∅ ∅ ∅ ∅ ∅ 0 0 0 0 0 0 0 0 ∅ ∅ tt 0 0 0 false).
Definition no_peripheral : DspPeripheral unit := {|
  core_read_peripheral dsp _ := Ok (dsp, 0);
  core_write_peripheral dsp _ _ := Ok dsp;
|}.

Lemma rep_executes_count_witness :
  let dsp := setr DSP_REG_LCSAVE 7 (setr DSP_REG_LC 3
               (core0 <| loop_rep := 1 |> <| pc_on_rep := 1 |>)) in
  (forall k, (1 <= k <= 3)%nat -> exists d, post dsp k = Ok d /\ pc d = 1) /\
  exists d, post dsp 4 = Ok d /\ pc d = 2 /\ loop_rep d = 0 /\ getr d DSP_REG_LC = 7.
Proof.
  apply (rep_executes_count (setr DSP_REG_LCSAVE 7 (setr DSP_REG_LC 3
           (core0 <| loop_rep := 1 |> <| pc_on_rep := 1 |>))) 3 0 7); [by constructor|done..].
Defined.

(** A loop over the words 4 and 5, two passes to go. *)
Definition core_loop : dsp_core unit :=
  setr DSP_REG_SP 2 (setr DSP_REG_SSH 4 (setr DSP_REG_SSL 0 (setr DSP_REG_SR 0x8000
    (setr DSP_REG_LA 5 (setr DSP_REG_LC 2
      (core0 <| pc := 4 |> <| ssh_stack := wr 1 9 (wr 2 4 ∅) |>
             <| ssl_stack := wr 1 3 ∅ |>)))))).

Lemma core_loop_view : stack_view core_loop [(4, 0); (9, 3)].
Proof.
  constructor; try done; [simpl; lia|]. intros [|[|k]] p s Hk; by simplify_eq/=.
Qed.


Lemma interrupt_counter_exact_witness :
  interrupt_inv (core0 <| interrupt_is_pending ::= wr 2 1 |> <| interrupt_counter := 1 |>).
Proof.
  apply (interrupt_counter_exact core0).
  - split; [|done]. intros i Hi. left. reflexivity.
  - left. by exists 2.
Defined.

Definition core_two : dsp_core unit :=
  core0 <| interrupt_is_pending := wr 1 1 (wr 2 1 ∅) |> <| interrupt_counter := 2 |>.

Lemma interrupt_lowest_first_witness :
  exists d, dsp_postexecute_interrupts core_two = Ok d /\
    Some (interrupt_instr_fetch d) = Some 4 /\
    interrupt_state d = DSP_INTERRUPT_DISABLED /\ interrupt_pipeline_count d = 5 /\
    interrupt_ipl_to_raise d = 3 /\ pc d = pc core_two /\ registers d = registers core_two /\
    forall j, rd (interrupt_is_pending d) j =
      if j =? 1 then 0 else rd (interrupt_is_pending core_two) j.
Proof.
  apply (interrupt_lowest_first core_two 1); try done.
  - split; [|done]. intros i Hi.
    assert (i = 0 \/ i = 1 \/ i = 2 \/ i = 3) as [->|[->|[->| ->]]] by lia; vm_compute; auto.
  - intros j Hj. assert (j = 0 \/ j = 1 \/ j = 2 \/ j = 3) as [->|[->|[->| ->]]] by lia; done.
Defined.

Lemma fast_interrupt_runs_two_words_witness :
  exists d, ticks (core0 <| pc := 0x40 |> <| interrupt_state := DSP_INTERRUPT_DISABLED |>
                         <| interrupt_pipeline_count := 5 |> <| interrupt_instr_fetch := 2 |>) 6 =
      Ok (d, [0x40; 0x41; 2; 3; 0x42; 0x43]) /\
    pc d = 0x44 /\ interrupt_state d = DSP_INTERRUPT_NONE.
Proof.
  apply (fast_interrupt_runs_two_words
    (core0 <| pc := 0x40 |> <| interrupt_state := DSP_INTERRUPT_DISABLED |>
           <| interrupt_pipeline_count := 5 |> <| interrupt_instr_fetch := 2 |>) 0x40 2 0xffff);
    try done.
  constructor; try done; by exists 0.
Defined.

Lemma system_stack_refines_list_witness :
  exists d, stack_run core0 [Push 5 6; Push 7 8; Pop; Pop] = Ok (d, [(7, 8); (5, 6)]) /\
    stack_view d [] /\ forall r, ~ stack_reg r -> getr d r = getr core0 r.
Proof.
  apply (system_stack_refines_list [Push 5 6; Push 7 8; Pop; Pop] core0 [] []); [|done].
  constructor; try done. simpl. lia.
Defined.

Lemma dsp_memory_read_after_write_witness :
  exists d, @dsp56k_write_memory unit no_peripheral core0 DSP_SPACE_X 0x1405 42 = Ok d /\
    @dsp56k_read_memory unit no_peripheral d DSP_SPACE_X 0xc05 = Ok (d, 42).
Proof.
  apply (@dsp_memory_read_after_write unit no_peripheral core0 DSP_SPACE_X 0x1405 42 (MixCell 5)
           DSP_SPACE_X 0xc05 (MixCell 5)); done.
Defined.
