(* ===== verification/DspDecode.v ===== *)
(** * Instruction decoding and execution
    (src/xemu/hw/xbox/mcpx/apu/dsp/interp/dsp_cpu.c)

    The table of instructions without parallel moves, the masks computed from
    its templates, the two opcode caches (one per program address, one global)
    and the execution of one instruction.  The handlers of the instructions
    (dsp_emu.c.inc) are parameters here, by the names the table gives them; DspEmu.v
    instantiates them. *)

From Stdlib Require Import Ascii.
From S2P Require Import Prelude DspArith DspCore.

(** [match_func] says whether the entry has [match_MMMRRR]; the disassembler's
    functions are left out. *)
Record OpcodeEntry := mkOpcode {
  template : string;
  op_name : string;
  emu_func : option string;
  match_func : bool;
}.

Definition match_MMMRRR (op : Z) : bool :=
  let RRR := Z.land (Z.shiftr op 8) (BITMASK 3) in
  let MMM := Z.land (Z.shiftr op 11) (BITMASK 3) in
  if MMM =? 0x6 then (RRR =? 0x0) || (RRR =? 0x4) else true.

Definition nonparallel_opcodes : list OpcodeEntry :=
  [
   mkOpcode "0000000101iiiiii1000d000" "add #xx, D" (Some "emu_add_imm") false;
   mkOpcode "00000001010000001100d000" "add #xxxx, D" (Some "emu_add_long") false;
   mkOpcode "0000000101iiiiii1000d110" "and #xx, D" (Some "emu_and_imm") false;
   mkOpcode "00000001010000001100d110" "and #xxxx, D" (Some "emu_and_long") false;
   mkOpcode "00000000iiiiiiii101110EE" "andi #xx, D" (Some "emu_andi") false;
   mkOpcode "0000110000011101SiiiiiiD" "asl #ii, S2, D" (Some "emu_asl_imm") false;
   mkOpcode "0000110000011110010SsssD" "asl S1, S2, D" None false;
   mkOpcode "0000110000011100SiiiiiiD" "asr #ii, S2, D" (Some "emu_asr_imm") false;
   mkOpcode "0000110000011110011SsssD" "asr S1, S2, D" None false;
   mkOpcode "00001101000100000100CCCC" "bcc xxxx" (Some "emu_bcc_long") false;
   mkOpcode "00000101CCCC01aaaa0aaaaa" "bcc xxx" (Some "emu_bcc_imm") false;
   mkOpcode "0000110100011RRR0100CCCC" "bcc Rn" None false;
   mkOpcode "0000101101MMMRRR0S00bbbb" "bchg #n, [X or Y]:ea" (Some "emu_bchg_ea") true;
   mkOpcode "0000101100aaaaaa0S00bbbb" "bchg #n, [X or Y]:aa" (Some "emu_bchg_aa") false;
   mkOpcode "0000101110pppppp0S00bbbb" "bchg #n, [X or Y]:pp" (Some "emu_bchg_pp") false;
   mkOpcode "0000000101qqqqqq0S0bbbbb" "bchg #n, [X or Y]:qq" None false;
   mkOpcode "0000101111DDDDDD010bbbbb" "bchg, #n, D" (Some "emu_bchg_reg") false;
   mkOpcode "0000101001MMMRRR0S00bbbb" "bclr #n, [X or Y]:ea" (Some "emu_bclr_ea") true;
   mkOpcode "0000101000aaaaaa0S00bbbb" "bclr #n, [X or Y]:aa" (Some "emu_bclr_aa") false;
   mkOpcode "0000101010pppppp0S00bbbb" "bclr #n, [X or Y]:pp" (Some "emu_bclr_pp") false;
   mkOpcode "0000000100qqqqqq0S00bbbb" "bclr #n, [X or Y]:qq" None false;
   mkOpcode "0000101011DDDDDD010bbbbb" "bclr #n, D" (Some "emu_bclr_reg") false;
   mkOpcode "000011010001000011000000" "bra xxxx" (Some "emu_bra_long") false;
   mkOpcode "00000101000011aaaa0aaaaa" "bra xxx" (Some "emu_bra_imm") false;
   mkOpcode "0000110100011RRR11000000" "bra Rn" None false;
   mkOpcode "0000110010MMMRRR0S0bbbbb" "brclr #n, [X or Y]:ea, xxxx" None true;
   mkOpcode "0000110010aaaaaa1S0bbbbb" "brclr #n, [X or Y]:aa, xxxx" None false;
   mkOpcode "0000110011pppppp0S0bbbbb" "brclr #n, [X or Y]:pp, xxxx" (Some "emu_brclr_pp") false;
   mkOpcode "0000010010qqqqqq0S0bbbbb" "brclr #n, [X or Y]:qq, xxxx" None false;
   mkOpcode "0000110011DDDDDD100bbbbb" "brclr #n, S, xxxx" (Some "emu_brclr_reg") false;
   mkOpcode "00000000000000100001CCCC" "brkcc" None false;
   mkOpcode "0000110010MMMRRR0S1bbbbb" "brset #n, [X or Y]:ea, xxxx" None true;
   mkOpcode "0000110010aaaaaa1S1bbbbb" "brset #n, [X or Y]:aa, xxxx" None false;
   mkOpcode "0000110011pppppp0S1bbbbb" "brset #n, [X or Y]:pp, xxxx" (Some "emu_brset_pp") false;
   mkOpcode "0000010010qqqqqq0S1bbbbb" "brset #n, [X or Y]:qq, xxxx" None false;
   mkOpcode "0000110011DDDDDD101bbbbb" "brset #n, S, xxxx" (Some "emu_brset_reg") false;
   mkOpcode "00001101000100000000CCCC" "bscc xxxx" None false;
   mkOpcode "00000101CCCC00aaaa0aaaaa" "bscc xxx" None false;
   mkOpcode "0000110100011RRR0000CCCC" "bscc Rn" None false;
   mkOpcode "0000110110MMMRRR0S0bbbbb" "bsclr #n, [X or Y]:ea, xxxx" None true;
   mkOpcode "0000110110aaaaaa1S0bbbbb" "bsclr #n, [X or Y]:aa, xxxx" None false;
   mkOpcode "0000010010qqqqqq1S0bbbbb" "bsclr #n, [X or Y]:qq, xxxx" None false;
   mkOpcode "0000110111pppppp0S0bbbbb" "bsclr #n, [X or Y]:pp, xxxx" None false;
   mkOpcode "0000110111DDDDDD100bbbbb" "bsclr, #n, S, xxxx" None false;
   mkOpcode "0000101001MMMRRR0S1bbbbb" "bset #n, [X or Y]:ea" (Some "emu_bset_ea") true;
   mkOpcode "0000101000aaaaaa0S1bbbbb" "bset #n, [X or Y]:aa" (Some "emu_bset_aa") false;
   mkOpcode "0000101010pppppp0S1bbbbb" "bset #n, [X or Y]:pp" (Some "emu_bset_pp") false;
   mkOpcode "0000000100qqqqqq0S1bbbbb" "bset #n, [X or Y]:qq" None false;
   mkOpcode "0000101011DDDDDD011bbbbb" "bset, #n, D" (Some "emu_bset_reg") false;
   mkOpcode "000011010001000010000000" "bsr xxxx" (Some "emu_bsr_long") false;
   mkOpcode "00000101000010aaaa0aaaaa" "bsr xxx" (Some "emu_bsr_imm") false;
   mkOpcode "0000110100011RRR10000000" "bsr Rn" None false;
   mkOpcode "0000110110MMMRRR0S1bbbbb" "bsset #n, [X or Y]:ea, xxxx" None true;
   mkOpcode "0000110110aaaaaa1S1bbbbb" "bsset #n, [X or Y]:aa, xxxx" None false;
   mkOpcode "0000110111pppppp0S1bbbbb" "bsset #n, [X or Y]:pp, xxxx" None false;
   mkOpcode "0000010010qqqqqq1S1bbbbb" "bsset #n, [X or Y]:qq, xxxx" None false;
   mkOpcode "0000110111DDDDDD101bbbbb" "bsset #n, S, xxxx" None false;
   mkOpcode "0000101101MMMRRR0S10bbbb" "btst #n, [X or Y]:ea" (Some "emu_btst_ea") true;
   mkOpcode "0000101100aaaaaa0S10bbbb" "btst #n, [X or Y]:aa" (Some "emu_btst_aa") false;
   mkOpcode "0000101110pppppp0S10bbbb" "btst #n, [X or Y]:pp" (Some "emu_btst_pp") false;
   mkOpcode "0000000101qqqqqq0S10bbbb" "btst #n, [X or Y]:qq" None false;
   mkOpcode "0000101111DDDDDD0110bbbb" "btst #n, D" (Some "emu_btst_reg") false;
   mkOpcode "0000110000011110000000SD" "clb S, D" None false;
   mkOpcode "0000000101iiiiii1000d101" "cmp #xx, S2" (Some "emu_cmp_imm") false;
   mkOpcode "00000001010000001100d101" "cmp #xxxx, S2" (Some "emu_cmp_long") false;
   mkOpcode "00001100000111111111gggd" "cmpu S1, S2" (Some "emu_cmpu") false;
   mkOpcode "000000000000001000000000" "debug" None false;
   mkOpcode "00000000000000110000CCCC" "debugcc" None false;
   mkOpcode "00000000000000000000101d" "dec D" (Some "emu_dec") false;
   mkOpcode "000000011000000001JJd000" "div S, D" (Some "emu_div") false;
   mkOpcode "000000010010010s1sdkQQQQ" "dmac S1, S2, D" None false;
   mkOpcode "0000011001MMMRRR0S000000" "do [X or Y]:ea, expr" (Some "emu_do_ea") true;
   mkOpcode "0000011000aaaaaa0S000000" "do [X or Y]:aa, expr" (Some "emu_do_aa") false;
   mkOpcode "00000110iiiiiiii1000hhhh" "do #xxx, expr" (Some "emu_do_imm") false;
   mkOpcode "0000011011DDDDDD00000000" "do S, expr" (Some "emu_do_reg") false;
   mkOpcode "000000000000001000000011" "do_f" None false;
   mkOpcode "0000011001MMMRRR0S010000" "dor [X or Y]:ea, label" None true;
   mkOpcode "0000011000aaaaaa0S010000" "dor [X or Y]:aa, label" None false;
   mkOpcode "00000110iiiiiiii1001hhhh" "dor #xxx, label" (Some "emu_dor_imm") false;
   mkOpcode "0000011011DDDDDD00010000" "dor S, label" (Some "emu_dor_reg") false;
   mkOpcode "000000000000001000000010" "dor_f" None false;
   mkOpcode "000000000000000010001100" "enddo" (Some "emu_enddo") false;
   mkOpcode "0000000101iiiiii1000d011" "eor #xx, D" None false;
   mkOpcode "00000001010000001100d011" "eor #xxxx, D" None false;
   mkOpcode "0000110000011010000sSSSD" "extract S1, S2, D" None false;
   mkOpcode "0000110000011000000s000D" "extract #CO, S2, D" None false;
   mkOpcode "0000110000011010100sSSSD" "extractu S1, S2, D" None false;
   mkOpcode "0000110000011000100s000D" "extractu #CO, S2, D" None false;
   mkOpcode "000000000000000000000101" "ill" (Some "emu_illegal") false;
   mkOpcode "00000000000000000000100d" "inc D" (Some "emu_inc") false;
   mkOpcode "00001100000110110qqqSSSD" "insert S1, S2, D" None false;
   mkOpcode "00001100000110010qqq000D" "insert #CO, S2, D" None false;
   mkOpcode "00001110CCCCaaaaaaaaaaaa" "jcc xxx" (Some "emu_jcc_imm") false;
   mkOpcode "0000101011MMMRRR1010CCCC" "jcc ea" (Some "emu_jcc_ea") true;
   mkOpcode "0000101001MMMRRR1S00bbbb" "jclr #n, [X or Y]:ea, xxxx" (Some "emu_jclr_ea") true;
   mkOpcode "0000101000aaaaaa1S00bbbb" "jclr #n, [X or Y]:aa, xxxx" (Some "emu_jclr_aa") false;
   mkOpcode "0000101010pppppp1S00bbbb" "jclr #n, [X or Y]:pp, xxxx" (Some "emu_jclr_pp") false;
   mkOpcode "0000000110qqqqqq1S00bbbb" "jclr #n, [X or Y]:qq, xxxx" None false;
   mkOpcode "0000101011DDDDDD0000bbbb" "jclr #n, S, xxxx" (Some "emu_jclr_reg") false;
   mkOpcode "0000101011MMMRRR10000000" "jmp ea" (Some "emu_jmp_ea") true;
   mkOpcode "000011000000aaaaaaaaaaaa" "jmp xxx" (Some "emu_jmp_imm") false;
   mkOpcode "00001111CCCCaaaaaaaaaaaa" "jscc xxx" (Some "emu_jscc_imm") false;
   mkOpcode "0000101111MMMRRR1010CCCC" "jscc ea" (Some "emu_jscc_ea") true;
   mkOpcode "0000101101MMMRRR1S00bbbb" "jsclr #n, [X or Y]:ea, xxxx" (Some "emu_jsclr_ea") true;
   mkOpcode "0000101100MMMRRR1S00bbbb" "jsclr #n, [X or Y]:aa, xxxx" (Some "emu_jsclr_aa") true;
   mkOpcode "0000101110pppppp1S0bbbbb" "jsclr #n, [X or Y]:pp, xxxx" (Some "emu_jsclr_pp") false;
   mkOpcode "0000000111qqqqqq1S0bbbbb" "jsclr #n, [X or Y]:qq, xxxx" None false;
   mkOpcode "0000101111DDDDDD000bbbbb" "jsclr #n, S, xxxx" (Some "emu_jsclr_reg") false;
   mkOpcode "0000101001MMMRRR1S10bbbb" "jset #n, [X or Y]:ea, xxxx" (Some "emu_jset_ea") true;
   mkOpcode "0000101000MMMRRR1S10bbbb" "jset #n, [X or Y]:aa, xxxx" (Some "emu_jset_aa") true;
   mkOpcode "0000101010pppppp1S10bbbb" "jset #n, [X or Y]:pp, xxxx" (Some "emu_jset_pp") false;
   mkOpcode "0000000110qqqqqq1S10bbbb" "jset #n, [X or Y]:qq, xxxx" None false;
   mkOpcode "0000101011DDDDDD0010bbbb" "jset #n, S, xxxx" (Some "emu_jset_reg") false;
   mkOpcode "0000101111MMMRRR10000000" "jsr ea" (Some "emu_jsr_ea") true;
   mkOpcode "000011010000aaaaaaaaaaaa" "jsr xxx" (Some "emu_jsr_imm") false;
   mkOpcode "0000101101MMMRRR1S10bbbb" "jsset #n, [X or Y]:ea, xxxx" (Some "emu_jsset_ea") true;
   mkOpcode "0000101100aaaaaa1S10bbbb" "jsset #n, [X or Y]:aa, xxxx" (Some "emu_jsset_aa") false;
   mkOpcode "0000101110pppppp1S1bbbbb" "jsset #n, [X or Y]:pp, xxxx" (Some "emu_jsset_pp") false;
   mkOpcode "0000000111qqqqqq1S1bbbbb" "jsset #n, [X or Y]:qq, xxxx" None false;
   mkOpcode "0000101111DDDDDD001bbbbb" "jsset #n, S, xxxx" (Some "emu_jsset_reg") false;
   mkOpcode "0000010011000RRR000ddddd" "lra Rn, D" None false;
   mkOpcode "0000010001000000010ddddd" "lra xxxx, D" None false;
   mkOpcode "000011000001111010iiiiiD" "lsl #ii, D" (Some "emu_lsl_imm") false;
   mkOpcode "00001100000111100001sssD" "lsl S, D" None false;
   mkOpcode "000011000001111011iiiiiD" "lsr #ii, D" None false;
   mkOpcode "00001100000111100011sssD" "lsr S, D" None false;
   mkOpcode "00000100010MMRRR000ddddd" "lua ea, D" (Some "emu_lua") false;
   mkOpcode "0000010000aaaRRRaaaadddd" "lua (Rn + aa), D" (Some "emu_lua_rel") false;
   mkOpcode "00000001000sssss11QQdk10" "mac S, #n, D" None false;
   mkOpcode "000000010100000111qqdk10" "maci #xxxx, S, D" None false;
   mkOpcode "00000001001001101sdkQQQQ" "mac_s_u S1, S2, D" None false;
   mkOpcode "00000001000sssss11QQdk11" "macr S1, S2, D" None false;
   mkOpcode "000000010100000111qqdk11" "macri #xxxx, S, D" None false;
   mkOpcode "00001100000110111000sssD" "merge S, D" None false;
   mkOpcode "0000101001110RRR1WDDDDDD" "move X:(Rn + xxxx) <-> R" (Some "emu_move_x_long") false;
   mkOpcode "0000101101110RRR1WDDDDDD" "move Y:(Rn + xxxx) <-> R" None false;
   mkOpcode "0000001aaaaaaRRR1a0WDDDD" "move X:(Rn + xxx) <-> R" (Some "emu_move_x_imm") false;
   mkOpcode "0000001aaaaaaRRR1a1WDDDD" "move Y:(Rn + xxx) <-> R" (Some "emu_move_y_imm") false;
   mkOpcode "00000101W1MMMRRR0s1ddddd" "movec [X or Y]:ea <-> R" (Some "emu_movec_ea") true;
   mkOpcode "00000101W0aaaaaa0s1ddddd" "movec [X or Y]:aa <-> R" (Some "emu_movec_aa") true;
   mkOpcode "00000100W1eeeeee101ddddd" "movec R1, R2" (Some "emu_movec_reg") false;
   mkOpcode "00000101iiiiiiii101ddddd" "movec #xx, D1" (Some "emu_movec_imm") false;
   mkOpcode "00000111W1MMMRRR10dddddd" "movem P:ea <-> R" (Some "emu_movem_ea") true;
   mkOpcode "00000111W0aaaaaa00dddddd" "movem P:ea <-> R" (Some "emu_movem_aa") true;
   mkOpcode "0000100sW1MMMRRR1Spppppp" "movep [X or Y]:ea <-> [X or Y]:pp" (Some "emu_movep_23") true;
   mkOpcode "00000111W1MMMRRR0Sqqqqqq" "movep [X or Y]:ea <-> X:qq" (Some "emu_movep_x_qq") true;
   mkOpcode "00000111W0MMMRRR1Sqqqqqq" "movep [X or Y]:ea <-> Y:qq" None true;
   mkOpcode "0000100sW1MMMRRR01pppppp" "movep [X or Y]:pp <-> P:ea" (Some "emu_movep_1") true;
   mkOpcode "000000001WMMMRRR0sqqqqqq" "movep [X or Y]:qq <-> P:ea" None true;
   mkOpcode "0000100sW1dddddd00pppppp" "movep [X or Y]:pp <-> R" (Some "emu_movep_0") false;
   mkOpcode "00000100W1dddddd1q0qqqqq" "movep X:qq <-> R" None false;
   mkOpcode "00000100W1dddddd0q1qqqqq" "movep Y:qq <-> R" None false;
   mkOpcode "00000001000sssss11QQdk00" "mpy S, #n, D" None false;
   mkOpcode "00000001001001111sdkQQQQ" "mpy_s_u S1, S2, D" None false;
   mkOpcode "000000010100000111qqdk00" "mpyi #xxxx, S, D" (Some "emu_mpyi") false;
   mkOpcode "00000001000sssss11QQdk01" "mpyr S, #n, D" None false;
   mkOpcode "000000010100000111qqdk01" "mpyri #xxxx, S, D" None false;
   mkOpcode "000000000000000000000000" "nop" (Some "emu_nop") false;
   mkOpcode "0000000111011RRR0001d101" "norm Rn, D" (Some "emu_norm") false;
   mkOpcode "00001100000111100010sssD" "normf S, D" None false;
   mkOpcode "0000000101iiiiii1000d010" "or #xx, D" None false;
   mkOpcode "00000001010000001100d010" "or #xxxx, D" (Some "emu_or_long") false;
   mkOpcode "00000000iiiiiiii111110EE" "ori #xx, D" (Some "emu_ori") false;
   mkOpcode "000000000000000000000011" "pflush" None false;
   mkOpcode "000000000000000000000001" "pflushun" None false;
   mkOpcode "000000000000000000000010" "pfree" None false;
   mkOpcode "0000101111MMMRRR10000001" "plock ea" None true;
   mkOpcode "000000000000000000001111" "plockr xxxx" None false;
   mkOpcode "0000101011MMMRRR10000001" "punlock ea" None true;
   mkOpcode "000000000000000000001110" "punlockr xxxx" None false;
   mkOpcode "0000011001MMMRRR0S100000" "rep [X or Y]:ea" (Some "emu_rep_ea") true;
   mkOpcode "0000011000aaaaaa0S100000" "rep [X or Y]:aa" (Some "emu_rep_aa") false;
   mkOpcode "00000110iiiiiiii1010hhhh" "rep #xxx" (Some "emu_rep_imm") false;
   mkOpcode "0000011011dddddd00100000" "rep S" (Some "emu_rep_reg") false;
   mkOpcode "000000000000000010000100" "reset" (Some "emu_reset") false;
   mkOpcode "000000000000000000000100" "rti" (Some "emu_rti") false;
   mkOpcode "000000000000000000001100" "rts" (Some "emu_rts") false;
   mkOpcode "000000000000000010000111" "stop" (Some "emu_stop") false;
   mkOpcode "0000000101iiiiii1000d100" "sub #xx, D" (Some "emu_sub_imm") false;
   mkOpcode "00000001010000001100d100" "sub #xxxx, D" (Some "emu_sub_long") false;
   mkOpcode "00000010CCCC00000JJJd000" "tcc S1, D1" (Some "emu_tcc") false;
   mkOpcode "00000011CCCC0ttt0JJJdTTT" "tcc S1,D2 S2,D2" (Some "emu_tcc") false;
   mkOpcode "00000010CCCC1ttt00000TTT" "tcc S2, D2" (Some "emu_tcc") false;
   mkOpcode "000000000000000000000110" "trap" None false;
   mkOpcode "00000000000000000001CCCC" "trapcc" None false;
   mkOpcode "0000101S11MMMRRR110i0000" "vsl" None true;
   mkOpcode "000000000000000010000110" "wait" (Some "emu_wait") false
  ]%string.

(** The mask and match words of a template: bits 23 to 0, '0' and '1' fixed.
    [j] counts down from 23. *)
Fixpoint template_masks (t : list Ascii.ascii) (j : Z) (mask mtch : Z) : Z * Z :=
  match t with
  | [] => (mask, mtch)
  | c :: t =>
      if Ascii.eqb c "0"%char then template_masks t (j - 1) (Z.lor mask (bit j)) mtch
      else if Ascii.eqb c "1"%char then
        template_masks t (j - 1) (Z.lor mask (bit j)) (Z.lor mtch (bit j))
      else template_masks t (j - 1) mask mtch
  end.

(** The loop of [dsp56k_reset_cpu] that fills the table, with its assertion. *)
Definition entry_masks (e : OpcodeEntry) : result (Z * Z) :=
  _ ← check (String.length (template e) =? 24)%nat "strlen(t.template) == 24";
  Ok (template_masks (String.list_ascii_of_string (template e)) 23 0 0).

Fixpoint fill_matches (es : list OpcodeEntry) : result (list (Z * Z)) :=
  match es with
  | [] => Ok []
  | e :: es => m ← entry_masks e; ms ← fill_matches es; Ok (m :: ms)
  end.

Definition nonparallel_matches : list (Z * Z) :=
  Eval vm_compute in
    match fill_matches nonparallel_opcodes with Ok ms => ms | Fault _ => [] end.

Definition op_matches (op : Z) (e : OpcodeEntry) (m : Z * Z) : bool :=
  (Z.land op (fst m) =? snd m) && (negb (match_func e) || match_MMMRRR op).

(** The entries with their index, mask and match words. *)
Fixpoint scan_opcodes (op : Z) (i : nat) (es : list OpcodeEntry) (ms : list (Z * Z)) : result nat :=
  match es, ms with
  | e :: es, m :: ms => if op_matches op e m then Ok i else scan_opcodes op (S i) es ms
  | _, _ => Fault (AssertFail "Invalid op code in dsp_cpu")
  end.

Definition lookup_opcode_slow (op : Z) : result nat :=
  scan_opcodes op 0 nonparallel_opcodes nonparallel_matches.

(** [static struct opcache_entry opcache[256]]: an absent entry is the initial
    one, whose [entry] is NULL. *)
Abbreviation opcache := (gmap Z (Z * nat)).

Definition op_tag (op : Z) : Z :=
  Z.lxor (Z.lxor (Z.lxor (Z.land (Z.shiftr op 24) 0xff) (Z.land (Z.shiftr op 16) 0xff))
                 (Z.land (Z.shiftr op 8) 0xff)) (Z.land (Z.shiftr op 0) 0xff).

Definition lookup_opcode (cache : opcache) (op : Z) : result (opcache * nat) :=
  match cache !! op_tag op with
  | Some (op', e) =>
      if op' =? op then Ok (cache, e)
      else e ← lookup_opcode_slow op; Ok (<[op_tag op := (op, e)]> cache, e)
  | None => e ← lookup_opcode_slow op; Ok (<[op_tag op := (op, e)]> cache, e)
  end.

Section Execute.
Context {P : Type} `{!DspPeripheral P}.
Context (emu : string -> dsp_core P -> result (dsp_core P)).
Context (emu_undefined : dsp_core P -> result (dsp_core P)).
Context (opcodes_parmove : Z -> dsp_core P -> result (dsp_core P)).
Implicit Types dsp : dsp_core P.

(** The entry of the current instruction, through both caches. *)
Definition decode (cache : opcache) dsp : result (opcache * dsp_core P * nat) :=
  match pram_opcache dsp !! pc dsp with
  | Some e => Ok (cache, dsp, e)
  | None =>
      '(cache, e) ← lookup_opcode cache (cur_inst dsp);
      Ok (cache, dsp <| pram_opcache ::= <[pc dsp := e]> |>, e)
  end.

Definition run_entry dsp (e : nat) : result (dsp_core P) :=
  match nonparallel_opcodes !! e with
  | Some ent => match emu_func ent with Some f => emu f dsp | None => emu_undefined dsp end
  | None => Fault OutOfBounds
  end.

Definition dsp56k_execute_instruction (cache : opcache) dsp : result (opcache * dsp_core P) :=
  inst ← read_memory_p dsp (pc dsp);
  let dsp := dsp <| cur_inst := inst |> <| cur_inst_len := 1 |> <| instr_cycle := 2 |> in
  '(cache, dsp) ←
    (if cur_inst dsp <? 0x100000 then
       '(cache, dsp, e) ← decode cache dsp;
       dsp ← run_entry dsp e;
       Ok (cache, dsp)
     else
       dsp ← opcodes_parmove (Z.land (Z.shiftr (cur_inst dsp) 20) (BITMASK 4)) dsp;
       Ok (cache, dsp));
  dsp ← dsp_postexecute_update_pc dsp;
  dsp ← dsp_postexecute_interrupts dsp;
  Ok (cache, dsp <| num_inst ::= fun n => u32 (n + instr_cycle dsp) |>).

(** The same without caches: every instruction is looked up in the table. *)
Definition execute_uncached dsp : result (dsp_core P) :=
  inst ← read_memory_p dsp (pc dsp);
  let dsp := dsp <| cur_inst := inst |> <| cur_inst_len := 1 |> <| instr_cycle := 2 |> in
  dsp ←
    (if cur_inst dsp <? 0x100000 then
       e ← lookup_opcode_slow (cur_inst dsp);
       run_entry (dsp <| pram_opcache ::= <[pc dsp := e]> |>) e
     else opcodes_parmove (Z.land (Z.shiftr (cur_inst dsp) 20) (BITMASK 4)) dsp);
  dsp ← dsp_postexecute_update_pc dsp;
  dsp ← dsp_postexecute_interrupts dsp;
  Ok (dsp <| num_inst ::= fun n => u32 (n + instr_cycle dsp) |>).

(** The caches hold what the table says. *)
Definition cache_ok (cache : opcache) : Prop :=
  forall tag op e, cache !! tag = Some (op, e) -> lookup_opcode_slow op = Ok e.
Definition pram_cache_ok dsp : Prop :=
  forall a e, pram_opcache dsp !! a = Some e -> lookup_opcode_slow (rd (pram dsp) a) = Ok e.
End Execute.

(** ** The table *)

(** Two templates can match the same word. *)
Definition compatible (m1 m2 : Z * Z) : bool :=
  Z.land (Z.lxor (snd m1) (snd m2)) (Z.land (fst m1) (fst m2)) =? 0.

(** All pairs [i < j] of compatible entries, [i] and [j] counted from [k]. *)
Fixpoint compatible_with (m : Z * Z) (i j : nat) (ms : list (Z * Z)) : list (nat * nat) :=
  match ms with
  | [] => []
  | m' :: ms =>
      let rest := compatible_with m i (S j) ms in
      if compatible m m' then (i, j) :: rest else rest
  end.
Fixpoint compatible_pairs (k : nat) (ms : list (Z * Z)) : list (nat * nat) :=
  match ms with
  | [] => []
  | m :: ms => compatible_with m k (S k) ms ++ compatible_pairs (S k) ms
  end.

Lemma both_match op m1 m2 :
  Z.land op (fst m1) = snd m1 -> Z.land op (fst m2) = snd m2 -> compatible m1 m2 = true.
Proof.
  intros H1 H2. unfold compatible. rewrite <- H1, <- H2. apply Z.eqb_eq, Z.bits_inj'.
  intros n Hn. rewrite !Z.land_spec, Z.lxor_spec, !Z.land_spec, Z.bits_0.
  by destruct (Z.testbit op n), (Z.testbit (fst m1) n), (Z.testbit (fst m2) n).
Qed.

Lemma compatible_with_in m i ms : forall k j m',
  ms !! j = Some m' -> compatible m m' = true -> In (i, (k + j)%nat) (compatible_with m i k ms).
Proof.
  induction ms as [|m0 ms IH]; intros k j m' Hj Hc; [done|]. cbn [compatible_with].
  destruct j as [|j]; cbn in Hj.
  - simplify_eq. rewrite Hc, Nat.add_0_r. by left.
  - rewrite <- Nat.add_succ_comm. destruct (compatible m m0); [right|]; by eapply IH.
Qed.

Lemma compatible_pairs_in ms : forall k i j m1 m2,
  ms !! i = Some m1 -> ms !! j = Some m2 -> (i < j)%nat -> compatible m1 m2 = true ->
  In ((k + i)%nat, (k + j)%nat) (compatible_pairs k ms).
Proof.
  induction ms as [|m ms IH]; intros k i j m1 m2 Hi Hj Hlt Hc; [done|]. cbn [compatible_pairs].
  destruct j as [|j]; [lia|]. cbn in Hj. apply in_or_app. destruct i as [|i]; cbn in Hi.
  - simplify_eq. left. rewrite Nat.add_0_r, <- Nat.add_succ_comm. by eapply compatible_with_in.
  - right. rewrite <- !Nat.add_succ_comm. eapply IH; [exact Hi|exact Hj|lia|done].
Qed.

Lemma table_pairs :
  compatible_pairs 0 nonparallel_matches = [(94, 134); (103, 135); (108, 134); (115, 135)]%nat.
Proof. vm_compute. reflexivity. Qed.

(** The opcode table is well formed: every template has 24 characters, so
    the assertion at reset never fails, and two different entries match the
    same instruction word only in four cases, JCLR, JSCLR, JSET or JSSET with
    an absolute address against MOVE with a long displacement. *)
Theorem opcode_table_almost_unambiguous :
  fill_matches nonparallel_opcodes = Ok nonparallel_matches /\
  forall op i j mi mj, (i < j)%nat ->
    nonparallel_matches !! i = Some mi -> nonparallel_matches !! j = Some mj ->
    Z.land op (fst mi) = snd mi -> Z.land op (fst mj) = snd mj ->
    In (i, j) [(94, 134); (103, 135); (108, 134); (115, 135)]%nat.
Proof.
  split; [vm_compute; reflexivity|].
  intros op i j mi mj Hlt Hi Hj Hmi Hmj. rewrite <- table_pairs.
  apply (compatible_pairs_in _ 0 i j mi mj); try done. by eapply both_match.
Qed.

(** One of these words is decoded as the wrong instruction: the table
    names [0x0a70c4] MOVE X:(R0 + xxxx),X0 (entry 134), but the search stops at
    entry 94, JCLR, whose absolute-address form [match_MMMRRR] lets through. *)
Theorem move_long_decoded_as_jclr :
  lookup_opcode_slow 0x0a70c4 = Ok 94%nat /\
  (op_name <$> nonparallel_opcodes !! 94%nat) = Some "jclr #n, [X or Y]:ea, xxxx"%string /\
  (op_name <$> nonparallel_opcodes !! 134%nat) = Some "move X:(Rn + xxxx) <-> R"%string /\
  exists e m, nonparallel_opcodes !! 134%nat = Some e /\ nonparallel_matches !! 134%nat = Some m /\
    op_matches 0x0a70c4 e m = true.
Proof.
  split; [vm_compute; reflexivity|]. split; [reflexivity|]. split; [reflexivity|].
  eexists _, _. split; [reflexivity|]. split; [reflexivity|]. vm_compute. reflexivity.
Qed.

(** ** The caches *)

Lemma insert_cache_ok cache tag op e :
  cache_ok cache -> lookup_opcode_slow op = Ok e -> cache_ok (<[tag := (op, e)]> cache).
Proof.
  intros Hc He tag' op' e'. rewrite lookup_insert_Some. intros [[_ [= <- <-]]|[_ H]]; [done|].
  by eapply Hc.
Qed.

Lemma lookup_opcode_cached cache op e :
  cache_ok cache -> lookup_opcode_slow op = Ok e ->
  exists cache', lookup_opcode cache op = Ok (cache', e) /\ cache_ok cache'.
Proof.
  intros Hc He. unfold lookup_opcode. destruct (cache !! op_tag op) as [[op' e']|] eqn:Htag.
  - destruct (Z.eqb_spec op' op) as [->|].
    + exists cache. split; [|done]. apply Hc in Htag. congruence.
    + rewrite He. eexists. split; [reflexivity|]. by apply insert_cache_ok.
  - rewrite He. eexists. split; [reflexivity|]. by apply insert_cache_ok.
Qed.

Lemma lookup_opcode_fault cache op f :
  cache_ok cache -> lookup_opcode_slow op = Fault f -> lookup_opcode cache op = Fault f.
Proof.
  intros Hc He. unfold lookup_opcode. rewrite He.
  destruct (cache !! op_tag op) as [[op' e']|] eqn:Htag; [|done].
  destruct (Z.eqb_spec op' op) as [->|]; [|done]. apply Hc in Htag. congruence.
Qed.

Section ExecuteTheorems.
Context {P : Type} `{!DspPeripheral P}.
Context (emu : string -> dsp_core P -> result (dsp_core P)).
Context (emu_undefined : dsp_core P -> result (dsp_core P)).
Context (opcodes_parmove : Z -> dsp_core P -> result (dsp_core P)).
Implicit Types dsp : dsp_core P.

Lemma opcache_insert_id dsp a e :
  pram_opcache dsp !! a = Some e -> dsp <| pram_opcache ::= <[a := e]> |> = dsp.
Proof.
  intros H. unfold setf. rewrite (insert_id _ _ _ H). by destruct dsp.
Qed.

Lemma decode_ok cache dsp e :
  cache_ok cache -> pram_cache_ok dsp -> cur_inst dsp = rd (pram dsp) (pc dsp) ->
  lookup_opcode_slow (cur_inst dsp) = Ok e ->
  exists cache', cache_ok cache' /\
    decode cache dsp = Ok (cache', dsp <| pram_opcache ::= <[pc dsp := e]> |>, e).
Proof.
  intros Hc Hp Hi He. unfold decode.
  destruct (pram_opcache dsp !! pc dsp) as [e'|] eqn:Hlk.
  - apply Hp in Hlk as He'. rewrite <- Hi, He in He'. simplify_eq.
    exists cache. split; [done|]. by rewrite opcache_insert_id.
  - destruct (lookup_opcode_cached cache _ e Hc He) as (cache' & -> & Hc').
    by exists cache'.
Qed.

(** The opcode caches change nothing: with caches that agree with the
    table, executing an instruction through them gives exactly the state (or
    the fault) of looking it up in the table, and the global cache still
    agrees, whatever the instruction handlers do. *)
Theorem execute_cached_equals_uncached cache dsp :
  cache_ok cache -> pram_cache_ok dsp ->
  match execute_uncached emu emu_undefined opcodes_parmove dsp with
  | Ok d => exists cache', cache_ok cache' /\
      dsp56k_execute_instruction emu emu_undefined opcodes_parmove cache dsp = Ok (cache', d)
  | Fault f => dsp56k_execute_instruction emu emu_undefined opcodes_parmove cache dsp = Fault f
  end.
Proof.
  intros Hc Hp. unfold execute_uncached, dsp56k_execute_instruction.
  destruct (read_memory_p dsp (pc dsp)) as [inst|f] eqn:Hread; cbn [mbind result_mbind result_bind]; [|done].
  assert (inst = rd (pram dsp) (pc dsp)) as Hinst.
  { unfold read_memory_p, check in Hread. by repeat case_match; simplify_eq/=. }
  set (d1 := dsp <| cur_inst := inst |> <| cur_inst_len := 1 |> <| instr_cycle := 2 |>).
  destruct (cur_inst d1 <? 0x100000).
  - destruct (lookup_opcode_slow (cur_inst d1)) as [e|f] eqn:He.
    + destruct (decode_ok cache d1 e Hc Hp Hinst He) as (cache' & Hc' & ->).
      cbn [mbind result_mbind result_bind].
      destruct (run_entry _ _ _ _) as [d2|]; cbn [mbind result_mbind result_bind]; [|done].
      destruct (dsp_postexecute_update_pc d2) as [d3|]; cbn [mbind result_mbind result_bind]; [|done].
      destruct (dsp_postexecute_interrupts d3) as [d4|]; cbn [mbind result_mbind result_bind]; [|done].
      by exists cache'.
    + cbn [mbind result_mbind result_bind]. unfold decode.
      destruct (pram_opcache d1 !! pc d1) as [e'|] eqn:Hlk.
      { apply Hp in Hlk as He'. change (cur_inst d1) with inst in He. rewrite Hinst in He.
        change (pc d1) with (pc dsp) in He'. congruence. }
      by rewrite (lookup_opcode_fault cache _ f Hc He).
  - destruct (opcodes_parmove _ _) as [d2|]; cbn [mbind result_mbind result_bind]; [|done].
    destruct (dsp_postexecute_update_pc d2) as [d3|]; cbn [mbind result_mbind result_bind]; [|done].
    destruct (dsp_postexecute_interrupts d3) as [d4|]; cbn [mbind result_mbind result_bind]; [|done].
    by exists cache.
Qed.

(** Self-modifying code is safe: a write to DSP memory keeps the cached
    decoding of every program word in agreement with the memory. *)
Theorem write_keeps_opcode_cache dsp space a v d :
  pram_cache_ok dsp -> (space = DSP_SPACE_X -> a < DSP_PERIPH_BASE) ->
  dsp56k_write_memory dsp space a v = Ok d -> pram_cache_ok d.
Proof.
  intros Hp Ha. unfold dsp56k_write_memory, write_memory_raw, check.
  repeat case_match; cbn [mbind result_mbind result_bind]; intros Hrun; simplify_eq; try done.
  - match goal with H1 : (space =? _) = true, H2 : (_ <=? a) = true |- _ =>
      apply Z.eqb_eq in H1; apply Z.leb_le in H2; specialize (Ha H1); lia end.
  - intros b e. cbn. destruct (Z.eq_dec a b) as [->|Hne].
    + by rewrite lookup_delete_eq.
    + rewrite lookup_delete_ne, rd_wr_ne by done. apply Hp.
Qed.
End ExecuteTheorems.

(** ** Examples *)

Lemma execute_cached_equals_uncached_witness :
  exists cache' d, cache_ok cache' /\
    dsp56k_execute_instruction (fun _ => Ok) Ok (fun _ => Ok) ∅ core0 = Ok (cache', d) /\ pc d = 1.
Proof.
  pose proof (execute_cached_equals_uncached (fun _ => Ok) Ok (fun _ => Ok) ∅ core0) as H.
  cbv beta in H. destruct (execute_uncached _ _ _ core0) as [d|f] eqn:Hd.
  - destruct H as (cache' & Hc & Hrun).
    + by intros tag op e.
    + by intros a e.
    + exists cache', d. split; [done|]. split; [done|].
      assert (Ok (pc d) = (d ← execute_uncached (fun _ => Ok) Ok (fun _ => Ok) core0; Ok (pc d)))
        as Hpc by (by rewrite Hd).
      assert (Ok (pc d) = Ok 1) as [=] by (rewrite Hpc; vm_compute; reflexivity). done.
  - assert ((d ← execute_uncached (fun _ => Ok) Ok (fun _ => Ok) core0; Ok (pc d)) = Ok 1)
      as Hpc by (vm_compute; reflexivity). by rewrite Hd in Hpc.
Defined.

Lemma write_keeps_opcode_cache_witness :
  pram_cache_ok (core0 <| pram ::= wr 3 5 |> <| pram_opcache ::= delete 3 |>).
Proof.
  apply (@write_keeps_opcode_cache unit no_peripheral core0 DSP_SPACE_P 3 5).
  - by intros a e.
  - done.
  - reflexivity.
Defined.
