(* ===== verification/DspEmuAlu.v ===== *)
(** * The instructions of the DSP: addressing, conditions and the ALU
    (src/xemu/hw/xbox/mcpx/apu/dsp/interp/dsp_emu.c.inc, lines 25 to 5131)

    The update of the address registers (linear, bit-reversed, modulo), effective
    addresses, condition codes, and the 256 ALU operations that go along with a
    parallel move.  The source spells each operation out for each choice of
    registers; here a function takes the registers as arguments: accumulators are 0
    for A and 1 for B, other registers are their numbers.  [opcodes_alu] applies them
    in the order of the source's table. *)

From S2P Require Import Prelude DspArith DspCore.

Definition DSP_REG_NULL : Z := 0x00.
Definition DSP_REG_X0 : Z := 0x04.
Definition DSP_REG_X1 : Z := 0x05.
Definition DSP_REG_Y0 : Z := 0x06.
Definition DSP_REG_Y1 : Z := 0x07.
Definition DSP_REG_R0 : Z := 0x10.
Definition DSP_REG_N0 : Z := 0x18.

Section EmuAlu.
Context {P : Type}.
Implicit Types dsp : dsp_core P.

Definition add_cycles (n : Z) dsp : dsp_core P := dsp <| instr_cycle := u16 (instr_cycle dsp + n) |>.
Definition add_len dsp : dsp_core P := dsp <| cur_inst_len := u32 (cur_inst_len dsp + 1) |>.

Definition emu_undefined dsp : result (dsp_core P) :=
  let dsp := add_cycles 100 (dsp <| cur_inst_len := 0 |>) in
  _ ← check (negb (exception_debugging dsp)) "Illegal dsp instruction";
  Ok dsp.

(** ** Address registers *)

(** The first loop of the bit-reversed update: the number of the lowest set bit of
    [value], 16 if there is none among the first sixteen. *)
Fixpoint lowest_bit (n : nat) (i value : Z) : Z :=
  match n with
  | O => i
  | S n => if has value (bit i) then i else lowest_bit n (i + 1) value
  end.

(** [for (i=0;i<revbits;i++) if (r_reg & (1<<i)) value |= 1<<(revbits-i-1);] *)
Fixpoint reverse_bits (n : nat) (i revbits r_reg value : Z) : Z :=
  match n with
  | O => value
  | S n => reverse_bits n (i + 1) revbits r_reg
             (if has r_reg (bit i) then Z.lor value (bit (revbits - i - 1)) else value)
  end.

(** The bits above the reversed ones: [BITMASK(16)-BITMASK(revbits)]. *)
Definition above_mask (revbits : Z) : Z := u32 (BITMASK 16 - BITMASK revbits).
Definition reversed (revbits r_reg : Z) : Z :=
  reverse_bits (Z.to_nat revbits) 0 revbits r_reg (Z.land r_reg (above_mask revbits)).

Definition emu_update_rn_bitreverse dsp (numreg : Z) : dsp_core P :=
  let revbits := lowest_bit 16 0 (getr dsp (DSP_REG_N0 + numreg)) + 1 in
  let r_reg := getr dsp (DSP_REG_R0 + numreg) in
  let value := reversed revbits r_reg in
  let value := Z.land (u32 (value + 1)) (BITMASK revbits) in
  let r_reg := Z.lor (Z.land r_reg (above_mask revbits)) value in
  setr (DSP_REG_R0 + numreg) (reversed revbits r_reg) dsp.

(** [while (bufsize < modulo) { bufsize <<= 1; bufmask <<= 1; }] *)
Fixpoint modulo_buffer (fuel : nat) (modulo bufsize bufmask : Z) : result (Z * Z) :=
  if bufsize <? modulo then
    match fuel with
    | O => Fault OutOfFuel
    | S fuel => modulo_buffer fuel modulo (u16 (Z.shiftl bufsize 1)) (u16 (Z.shiftl bufmask 1))
    end
  else Ok (bufsize, bufmask).

(** [while (modifier>bufsize) { r_reg += bufsize; modifier -= bufsize; }] *)
Fixpoint step_up (fuel : nat) (bufsize r_reg modifier : Z) : result (Z * Z) :=
  if bufsize <? modifier then
    match fuel with
    | O => Fault OutOfFuel
    | S fuel => step_up fuel bufsize (s16 (r_reg + bufsize)) (s16 (modifier - bufsize))
    end
  else Ok (r_reg, modifier).
Fixpoint step_down (fuel : nat) (bufsize r_reg modifier : Z) : result (Z * Z) :=
  if modifier <? - bufsize then
    match fuel with
    | O => Fault OutOfFuel
    | S fuel => step_down fuel bufsize (s16 (r_reg - bufsize)) (s16 (modifier + bufsize))
    end
  else Ok (r_reg, modifier).

Definition emu_update_rn_modulo dsp (numreg modifier : Z) : result (dsp_core P) :=
  let orig_modifier := modifier in
  let modulo := u16 (getr dsp (DSP_REG_M0 + numreg) + 1) in
  '(bufsize, bufmask) ← modulo_buffer 17 modulo 1 (BITMASK 16);
  let lobound := u16 (Z.land (getr dsp (DSP_REG_R0 + numreg)) bufmask) in
  let hibound := u16 (lobound + modulo - 1) in
  let r_reg := s16 (getr dsp (DSP_REG_R0 + numreg)) in
  '(r_reg, modifier) ←
    (if modulo <? orig_modifier then
       '(r_reg, modifier) ← step_up (Z.to_nat modifier) bufsize r_reg modifier;
       step_down (Z.to_nat (- modifier)) bufsize r_reg modifier
     else Ok (r_reg, modifier));
  let r_reg := s16 (r_reg + modifier) in
  let r_reg :=
    if negb (orig_modifier =? modulo) then
      if hibound <? r_reg then s16 (r_reg - modulo)
      else if r_reg <? lobound then s16 (r_reg + modulo) else r_reg
    else r_reg in
  Ok (setr (DSP_REG_R0 + numreg) (Z.land (u32 r_reg) (BITMASK 16)) dsp).

Definition emu_update_rn dsp (numreg modifier : Z) : result (dsp_core P) :=
  let m_reg := u16 (getr dsp (DSP_REG_M0 + numreg)) in
  if m_reg =? 65535 then
    let value := s16 (s16 (getr dsp (DSP_REG_R0 + numreg)) + modifier) in
    Ok (setr (DSP_REG_R0 + numreg) (Z.land (u32 value) (BITMASK 16)) dsp)
  else if m_reg =? 0 then Ok (emu_update_rn_bitreverse dsp numreg)
  else if m_reg <=? 32767 then emu_update_rn_modulo dsp numreg modifier
  else Ok dsp.

(** The core, [*dst_addr] and whether it is an immediate value. *)
Definition emu_calc_ea dsp (ea_mode : Z) : result (dsp_core P * Z * bool) :=
  let value := Z.land (Z.shiftr ea_mode 3) (BITMASK 3) in
  let numreg := Z.land ea_mode (BITMASK 3) in
  let r dsp := getr dsp (DSP_REG_R0 + numreg) in
  let n := getr dsp (DSP_REG_N0 + numreg) in
  if value =? 0 then
    let addr := r dsp in dsp ← emu_update_rn dsp numreg (s16 (- n)); Ok (dsp, addr, false)
  else if value =? 1 then
    let addr := r dsp in dsp ← emu_update_rn dsp numreg (s16 n); Ok (dsp, addr, false)
  else if value =? 2 then
    let addr := r dsp in dsp ← emu_update_rn dsp numreg (-1); Ok (dsp, addr, false)
  else if value =? 3 then
    let addr := r dsp in dsp ← emu_update_rn dsp numreg 1; Ok (dsp, addr, false)
  else if value =? 4 then Ok (dsp, r dsp, false)
  else if value =? 5 then
    let dsp := add_cycles 2 dsp in
    let curreg := r dsp in
    dsp ← emu_update_rn dsp numreg (s16 n);
    let addr := r dsp in
    Ok (setr (DSP_REG_R0 + numreg) curreg dsp, addr, false)
  else if value =? 6 then
    let dsp := add_cycles 2 dsp in
    addr ← read_memory_p dsp (u32 (pc dsp + 1));
    Ok (add_len dsp, addr, negb (numreg =? 0))
  else
    let dsp := add_cycles 2 dsp in
    dsp ← emu_update_rn dsp numreg (-1);
    Ok (dsp, r dsp, false).

(** ** Conditions *)

Definition sr_bit dsp (b : Z) : Z := bit_of (getr dsp DSP_REG_SR) b.
Definition not_bit (v : Z) : Z := Z.land (Z.lnot v) 1.

Definition emu_calc_cc dsp (cc_code : Z) : bool :=
  let c := sr_bit dsp DSP_SR_C in
  let v := sr_bit dsp DSP_SR_V in
  let z := sr_bit dsp DSP_SR_Z in
  let n := sr_bit dsp DSP_SR_N in
  let u := sr_bit dsp DSP_SR_U in
  let e := sr_bit dsp DSP_SR_E in
  let l := sr_bit dsp DSP_SR_L in
  let normalized := Z.lor z (Z.land (not_bit u) (not_bit e)) in
  if cc_code =? 0 then negb (has (getr dsp DSP_REG_SR) (bit DSP_SR_C))
  else if cc_code =? 1 then Z.lxor n v =? 0
  else if cc_code =? 2 then negb (has (getr dsp DSP_REG_SR) (bit DSP_SR_Z))
  else if cc_code =? 3 then negb (has (getr dsp DSP_REG_SR) (bit DSP_SR_N))
  else if cc_code =? 4 then normalized =? 0
  else if cc_code =? 5 then negb (has (getr dsp DSP_REG_SR) (bit DSP_SR_E))
  else if cc_code =? 6 then negb (has (getr dsp DSP_REG_SR) (bit DSP_SR_L))
  else if cc_code =? 7 then Z.lor z (Z.lxor n v) =? 0
  else if cc_code =? 8 then Z.land (getr dsp DSP_REG_SR) (bit DSP_SR_C) =? 1
  else if cc_code =? 9 then Z.lxor n v =? 1
  else if cc_code =? 10 then z =? 1
  else if cc_code =? 11 then n =? 1
  else if cc_code =? 12 then normalized =? 1
  else if cc_code =? 13 then e =? 1
  else if cc_code =? 14 then l =? 1
  else if cc_code =? 15 then Z.lor z (Z.lxor n v) =? 1
  else false.

(** [SR &= BITMASK(16)-m] and [SR |= v]. *)
Definition sr_clear (m : Z) dsp : dsp_core P := setr DSP_REG_SR (Z.land (getr dsp DSP_REG_SR) (BITMASK 16 - m)) dsp.
Definition sr_or (v : Z) dsp : dsp_core P := setr DSP_REG_SR (Z.lor (getr dsp DSP_REG_SR) v) dsp.

Definition ccr_e (dsp : dsp_core P) (set : bool) : dsp_core P := if set then sr_or (bit DSP_SR_E) dsp else dsp.
Definition ccr_u (dsp : dsp_core P) (set : bool) : dsp_core P := if set then sr_or (bit DSP_SR_U) dsp else dsp.

Definition emu_ccr_update_e_u_n_z dsp (reg0 reg1 reg2 : Z) : dsp_core P :=
  let dsp := sr_clear (Z.lor (Z.lor (Z.lor (bit DSP_SR_E) (bit DSP_SR_U)) (bit DSP_SR_N)) (bit DSP_SR_Z)) dsp in
  let scaling := Z.land (Z.shiftr (getr dsp DSP_REG_SR) DSP_SR_S0) (BITMASK 2) in
  let zn dsp :=
    let dsp := if (reg1 =? 0) && (reg2 =? 0) && (reg0 =? 0) then sr_or (bit DSP_SR_Z) dsp else dsp in
    sr_or (Z.land (Z.shiftr reg0 4) 0x8) dsp in
  if scaling =? 0 then
    let value_e := u32 (Z.shiftl reg0 1 + Z.shiftr reg1 23) in
    let dsp := ccr_e dsp (negb (value_e =? 0) && negb (value_e =? BITMASK 9)) in
    let dsp := ccr_u dsp ((Z.land reg1 0xc00000 =? 0) || (Z.land reg1 0xc00000 =? 0xc00000)) in
    zn dsp
  else if scaling =? 1 then
    let dsp := ccr_e dsp (negb (reg0 =? 0) && negb (reg0 =? BITMASK 8)) in
    let value_u := Z.land (u32 (Z.shiftl reg0 1 + Z.shiftr reg1 23)) 3 in
    let dsp := ccr_u dsp ((value_u =? 0) || (value_u =? 3)) in
    zn dsp
  else if scaling =? 2 then
    let value_e := u32 (Z.shiftl reg0 2 + Z.shiftr reg1 22) in
    let dsp := ccr_e dsp (negb (value_e =? 0) && negb (value_e =? BITMASK 10)) in
    let dsp := ccr_u dsp ((Z.land reg1 0x600000 =? 0) || (Z.land reg1 0x600000 =? 0x600000)) in
    zn dsp
  else dsp.

(** ** Accumulators *)

(** [dest[0..2] = registers[A2, A1, A0]] and back; [d] is 0 for A and 1 for B. *)
Definition get_acc dsp (d : Z) : acc :=
  mkAcc (getr dsp (DSP_REG_A2 + d)) (getr dsp (DSP_REG_A1 + d)) (getr dsp (DSP_REG_A0 + d)).
Definition set_acc (d : Z) (v : acc) dsp : dsp_core P :=
  setr (DSP_REG_A0 + d) (a0 v) (setr (DSP_REG_A1 + d) (a1 v) (setr (DSP_REG_A2 + d) (a2 v) dsp)).

(** [source[1] & (1<<23) ? 0xff : 0x0] *)
Definition sign_ext24 (v : Z) : Z := if has v (bit 23) then 0xff else 0x0.
(** A 24-bit operand in bits 47..24, and the 48-bit operands X and Y. *)
Definition src24 (v : Z) : acc := mkAcc (sign_ext24 v) v 0.
Definition src48 dsp (r1 r0 : Z) : acc := mkAcc (sign_ext24 (getr dsp r1)) (getr dsp r1) (getr dsp r0).
Definition ccr_update (v : acc) dsp : dsp_core P := emu_ccr_update_e_u_n_z dsp (a2 v) (a1 v) (a0 v).

Definition sr_VC : Z := Z.lor (bit DSP_SR_V) (bit DSP_SR_C).
Definition sr_NZV : Z := Z.lor (Z.lor (bit DSP_SR_N) (bit DSP_SR_Z)) (bit DSP_SR_V).
Definition sr_CNZV : Z := Z.lor (Z.lor (Z.lor (bit DSP_SR_C) (bit DSP_SR_N)) (bit DSP_SR_Z)) (bit DSP_SR_V).

(** The end of the additions and subtractions: result, flags of the result, then
    [newsr] over V and C. *)
Definition finish_add (d : Z) (v : acc) (newsr : Z) dsp : dsp_core P :=
  sr_or newsr (sr_clear sr_VC (ccr_update v (set_acc d v dsp))).

Definition emu_add (d : Z) (source : acc) dsp : result (dsp_core P) :=
  let '(dest, newsr) := dsp_add56 source (get_acc dsp d) in
  Ok (finish_add d dest newsr dsp).
Definition emu_sub (d : Z) (source : acc) dsp : result (dsp_core P) :=
  let '(dest, newsr) := dsp_sub56 source (get_acc dsp d) in
  Ok (finish_add d dest newsr dsp).

(** add B,A and the like; add X,A; add X0,A. *)
Definition emu_add_acc (d : Z) dsp := emu_add d (get_acc dsp (1 - d)) dsp.
Definition emu_add_xy (r1 r0 d : Z) dsp := emu_add d (src48 dsp r1 r0) dsp.
Definition emu_add_reg (r d : Z) dsp := emu_add d (src24 (getr dsp r)) dsp.
Definition emu_sub_acc (d : Z) dsp := emu_sub d (get_acc dsp (1 - d)) dsp.
Definition emu_sub_xy (r1 r0 d : Z) dsp := emu_sub d (src48 dsp r1 r0) dsp.
Definition emu_sub_reg (r d : Z) dsp := emu_sub d (src24 (getr dsp r)) dsp.

(** With carry: a second addition of one. *)
Definition emu_adc (r1 r0 d : Z) dsp : result (dsp_core P) :=
  let curcarry := sr_bit dsp DSP_SR_C in
  let '(dest, newsr) := dsp_add56 (src48 dsp r1 r0) (get_acc dsp d) in
  let '(dest, newsr) :=
    if negb (curcarry =? 0) then
      let '(dest, sr2) := dsp_add56 (mkAcc 0 0 1) dest in (dest, Z.lor newsr sr2)
    else (dest, newsr) in
  Ok (finish_add d dest newsr dsp).
Definition emu_sbc (r1 r0 d : Z) dsp : result (dsp_core P) :=
  let curcarry := sr_bit dsp DSP_SR_C in
  let '(dest, newsr) := dsp_sub56 (src48 dsp r1 r0) (get_acc dsp d) in
  let '(dest, newsr) :=
    if negb (curcarry =? 0) then
      let '(dest, sr2) := dsp_sub56 (mkAcc 0 0 1) dest in (dest, Z.lor newsr sr2)
    else (dest, newsr) in
  Ok (finish_add d dest newsr dsp).

(** Shift the destination by one, then add or subtract the other accumulator. *)
Definition emu_shift_add (shift : acc -> Z -> result (acc * Z)) (op : acc -> acc -> acc * Z) (d : Z) dsp :
    result (dsp_core P) :=
  '(dest, newsr) ← shift (get_acc dsp d) 1;
  let '(dest, sr2) := op (get_acc dsp (1 - d)) dest in
  Ok (finish_add d dest (Z.lor newsr sr2) dsp).
Definition emu_addl (d : Z) := emu_shift_add dsp_asl56 dsp_add56 d.
Definition emu_addr (d : Z) := emu_shift_add dsp_asr56 dsp_add56 d.
Definition emu_subl (d : Z) := emu_shift_add dsp_asl56 dsp_sub56 d.
Definition emu_subr (d : Z) := emu_shift_add dsp_asr56 dsp_sub56 d.

(** Comparisons leave the accumulators alone. *)
Definition emu_cmp (source dest : acc) dsp : result (dsp_core P) :=
  let '(dest, newsr) := dsp_sub56 source dest in
  Ok (sr_or newsr (sr_clear sr_VC (ccr_update dest dsp))).
Definition emu_cmp_acc (d : Z) dsp := emu_cmp (get_acc dsp (1 - d)) (get_acc dsp d) dsp.
Definition emu_cmp_reg (r d : Z) dsp := emu_cmp (src24 (getr dsp r)) (get_acc dsp d) dsp.
Definition emu_cmpm_acc (d : Z) dsp :=
  emu_cmp (fst (dsp_abs56 (get_acc dsp (1 - d)))) (fst (dsp_abs56 (get_acc dsp d))) dsp.
Definition emu_cmpm_reg (r d : Z) dsp :=
  emu_cmp (fst (dsp_abs56 (src24 (getr dsp r)))) (fst (dsp_abs56 (get_acc dsp d))) dsp.

(** The overflow of a negation: the one number without its opposite. *)
Definition is_min (v : acc) : Z := Z.b2z ((a0 v =? 0) && (a1 v =? 0) && (a2 v =? 0x80)).
Definition finish_neg (d : Z) (v : acc) (overflowed : Z) dsp : dsp_core P :=
  ccr_update v
    (sr_or (Z.lor (Z.shiftl overflowed DSP_SR_L) (Z.shiftl overflowed DSP_SR_V))
       (sr_clear (bit DSP_SR_V) (set_acc d v dsp))).
Definition emu_abs (d : Z) dsp : result (dsp_core P) :=
  let dest := get_acc dsp d in
  Ok (finish_neg d (fst (dsp_abs56 dest)) (is_min dest) dsp).
Definition emu_neg (d : Z) dsp : result (dsp_core P) :=
  let source := get_acc dsp d in
  Ok (finish_neg d (fst (dsp_sub56 source acc_zero)) (is_min source) dsp).

(** Shifts of the whole accumulator. *)
Definition emu_shift (shift : acc -> Z -> result (acc * Z)) (s d n : Z) dsp : result (dsp_core P) :=
  '(dest, newsr) ← shift (get_acc dsp s) n;
  Ok (ccr_update dest (sr_or newsr (sr_clear sr_VC (set_acc d dest dsp)))).
Definition emu_asl (d : Z) := emu_shift dsp_asl56 d d 1.
Definition emu_asr (d : Z) := emu_shift dsp_asr56 d d 1.

Definition emu_clr (d : Z) dsp : result (dsp_core P) :=
  let dsp := set_acc d acc_zero dsp in
  let dsp := sr_clear (Z.lor (Z.lor (bit DSP_SR_E) (bit DSP_SR_N)) (bit DSP_SR_V)) dsp in
  Ok (sr_or (Z.lor (bit DSP_SR_U) (bit DSP_SR_Z)) dsp).

Definition emu_rnd (d : Z) dsp : result (dsp_core P) :=
  let dest := dsp_rnd56 (getr dsp DSP_REG_SR) (get_acc dsp d) in
  Ok (ccr_update dest (set_acc d dest dsp)).

Definition emu_tst (d : Z) dsp : result (dsp_core P) :=
  Ok (sr_clear (bit DSP_SR_V) (ccr_update (get_acc dsp d) dsp)).

Definition emu_tfr_acc (d : Z) dsp : result (dsp_core P) :=
  let s := 1 - d in
  let dsp := setr (DSP_REG_A0 + d) (getr dsp (DSP_REG_A0 + s)) dsp in
  let dsp := setr (DSP_REG_A1 + d) (getr dsp (DSP_REG_A1 + s)) dsp in
  Ok (setr (DSP_REG_A2 + d) (getr dsp (DSP_REG_A2 + s)) dsp).
Definition emu_tfr_reg (r d : Z) dsp : result (dsp_core P) :=
  let dsp := setr (DSP_REG_A0 + d) 0 dsp in
  let dsp := setr (DSP_REG_A1 + d) (getr dsp r) dsp in
  Ok (setr (DSP_REG_A2 + d) (sign_ext24 (getr dsp (DSP_REG_A1 + d))) dsp).

(** ** Logical operations on bits 47..24 *)

(** [SR |= ((A1>>23) & 1)<<N] and [SR |= (A1==0)<<Z]. *)
Definition set_n (v : Z) dsp : dsp_core P := sr_or (Z.shiftl (bit_of v 23) DSP_SR_N) dsp.
Definition set_z (v : Z) dsp : dsp_core P := sr_or (Z.shiftl (Z.b2z (v =? 0)) DSP_SR_Z) dsp.
Definition finish_logic (reg v : Z) dsp : dsp_core P :=
  let dsp := setr reg v dsp in
  set_z v (set_n v (sr_clear sr_NZV dsp)).

Definition emu_and_reg (r d : Z) dsp : result (dsp_core P) :=
  Ok (finish_logic (DSP_REG_A1 + d) (Z.land (getr dsp (DSP_REG_A1 + d)) (getr dsp r)) dsp).
Definition emu_eor_reg (r d : Z) dsp : result (dsp_core P) :=
  Ok (finish_logic (DSP_REG_A1 + d)
        (Z.land (Z.lxor (getr dsp (DSP_REG_A1 + d)) (getr dsp r)) (BITMASK 24)) dsp).
Definition emu_or_reg (r d : Z) dsp : result (dsp_core P) :=
  Ok (finish_logic (DSP_REG_A1 + d)
        (Z.land (Z.lor (getr dsp (DSP_REG_A1 + d)) (getr dsp r)) (BITMASK 24)) dsp).
Definition emu_not (d : Z) dsp : result (dsp_core P) :=
  Ok (finish_logic (DSP_REG_A1 + d) (Z.land (u32 (Z.lnot (getr dsp (DSP_REG_A1 + d)))) (BITMASK 24)) dsp).

(** Shifts and rotations of bits 47..24 through C. *)
Definition emu_lsl (d : Z) dsp : result (dsp_core P) :=
  let newcarry := bit_of (getr dsp (DSP_REG_A1 + d)) 23 in
  let v := Z.land (u32 (Z.shiftl (getr dsp (DSP_REG_A1 + d)) 1)) (BITMASK 24) in
  let dsp := setr (DSP_REG_A1 + d) v dsp in
  Ok (set_z v (set_n v (sr_or newcarry (sr_clear sr_CNZV dsp)))).
Definition emu_lsr (d : Z) dsp : result (dsp_core P) :=
  let newcarry := Z.land (getr dsp (DSP_REG_A1 + d)) 1 in
  let v := Z.shiftr (getr dsp (DSP_REG_A1 + d)) 1 in
  let dsp := setr (DSP_REG_A1 + d) v dsp in
  Ok (set_z v (sr_or newcarry (sr_clear sr_CNZV dsp))).
Definition emu_rol (d : Z) dsp : result (dsp_core P) :=
  let newcarry := bit_of (getr dsp (DSP_REG_A1 + d)) 23 in
  let v := Z.land (Z.lor (u32 (Z.shiftl (getr dsp (DSP_REG_A1 + d)) 1)) newcarry) (BITMASK 24) in
  let dsp := setr (DSP_REG_A1 + d) v dsp in
  Ok (set_z v (set_n v (sr_or newcarry (sr_clear sr_CNZV dsp)))).
Definition emu_ror (d : Z) dsp : result (dsp_core P) :=
  let newcarry := Z.land (getr dsp (DSP_REG_A1 + d)) 1 in
  let v := Z.lor (Z.shiftr (getr dsp (DSP_REG_A1 + d)) 1) (Z.shiftl newcarry 23) in
  let dsp := setr (DSP_REG_A1 + d) v dsp in
  Ok (set_z v (sr_or (Z.shiftl newcarry DSP_SR_N) (sr_or newcarry (sr_clear sr_CNZV dsp)))).

(** [while (ii--) func(dsp)] *)
Fixpoint emu_lsl_times (n : nat) (d : Z) dsp : result (dsp_core P) :=
  match n with
  | O => Ok dsp
  | S n => dsp ← emu_lsl d dsp; emu_lsl_times n d dsp
  end.
Definition emu_lsl_imm dsp : result (dsp_core P) :=
  let D := Z.land (cur_inst dsp) 1 in
  let ii := Z.land (Z.shiftr (cur_inst dsp) 1) (BITMASK 5) in
  emu_lsl_times (Z.to_nat ii) D dsp.

(** ** Multiplication *)

Definition SIGN_PLUS : Z := 0.
Definition SIGN_MINUS : Z := 1.

Definition emu_mpy (signe r1 r2 d : Z) dsp : result (dsp_core P) :=
  source ← dsp_mul56 (getr dsp r1) (getr dsp r2) signe;
  Ok (sr_clear (bit DSP_SR_V) (ccr_update source (set_acc d source dsp))).
Definition emu_mpyr (signe r1 r2 d : Z) dsp : result (dsp_core P) :=
  source ← dsp_mul56 (getr dsp r1) (getr dsp r2) signe;
  let source := dsp_rnd56 (getr dsp DSP_REG_SR) source in
  Ok (sr_clear (bit DSP_SR_V) (ccr_update source (set_acc d source dsp))).

Definition finish_mac (d : Z) (v : acc) (newsr : Z) dsp : dsp_core P :=
  sr_or (Z.land newsr 0xfe) (sr_clear (bit DSP_SR_V) (ccr_update v (set_acc d v dsp))).
Definition emu_mac (signe r1 r2 d : Z) dsp : result (dsp_core P) :=
  source ← dsp_mul56 (getr dsp r1) (getr dsp r2) signe;
  let '(dest, newsr) := dsp_add56 source (get_acc dsp d) in
  Ok (finish_mac d dest newsr dsp).
Definition emu_macr (signe r1 r2 d : Z) dsp : result (dsp_core P) :=
  source ← dsp_mul56 (getr dsp r1) (getr dsp r2) signe;
  let '(dest, newsr) := dsp_add56 source (get_acc dsp d) in
  let dest := dsp_rnd56 (getr dsp DSP_REG_SR) dest in
  Ok (finish_mac d dest newsr dsp).

(** This one rounds the local array before it is set, and so does not round. *)
Definition emu_macr_p_x1_y0_b dsp : result (dsp_core P) := emu_mac SIGN_PLUS DSP_REG_X1 DSP_REG_Y0 1 dsp.

(** The limbs 0 and 2 are exchanged, as in the source. *)
Definition emu_max dsp : result (dsp_core P) :=
  let dest := fst (dsp_sub56 (get_acc dsp 1) (get_acc dsp 0)) in
  let pass := has (a2 dest) (bit 7) || ((a2 dest =? 0) && (a1 dest =? 0) && (a0 dest =? 0)) in
  let dsp :=
    if pass then
      let dsp := setr DSP_REG_B0 (getr dsp DSP_REG_A2) dsp in
      let dsp := setr DSP_REG_B1 (getr dsp DSP_REG_A1) dsp in
      setr DSP_REG_B2 (getr dsp DSP_REG_A0) dsp
    else dsp in
  Ok (sr_or (Z.shiftl (Z.b2z pass) DSP_SR_C) (sr_clear (bit DSP_SR_C) dsp)).

Definition emu_move dsp : result (dsp_core P) := Ok dsp.
Definition emu_nop dsp : result (dsp_core P) := Ok dsp.

(** ** The table *)

Definition alu_op : Type := dsp_core P -> result (dsp_core P).

Definition alu_row_reg (r d : Z) : list alu_op :=
  [emu_add_reg r d; emu_tfr_reg r d; emu_or_reg r d; emu_eor_reg r d;
   emu_sub_reg r d; emu_cmp_reg r d; emu_and_reg r d; emu_cmpm_reg r d].

Definition alu_row_mul (r1 r2 d : Z) : list alu_op :=
  [emu_mpy SIGN_PLUS r1 r2 d; emu_mpyr SIGN_PLUS r1 r2 d; emu_mac SIGN_PLUS r1 r2 d;
   (if (r1 =? DSP_REG_X1) && (r2 =? DSP_REG_Y0) && (d =? 1) then emu_macr_p_x1_y0_b
    else emu_macr SIGN_PLUS r1 r2 d);
   emu_mpy SIGN_MINUS r1 r2 d; emu_mpyr SIGN_MINUS r1 r2 d; emu_mac SIGN_MINUS r1 r2 d; emu_macr SIGN_MINUS r1 r2 d].

Definition opcodes_alu : list alu_op :=
  [emu_move; emu_tfr_acc 0; emu_addr 0; emu_tst 0; emu_undefined; emu_cmp_acc 0; emu_subr 0; emu_cmpm_acc 0;
   emu_undefined; emu_tfr_acc 1; emu_addr 1; emu_tst 1; emu_undefined; emu_cmp_acc 1; emu_subr 1; emu_cmpm_acc 1;
   emu_add_acc 0; emu_rnd 0; emu_addl 0; emu_clr 0; emu_sub_acc 0; emu_undefined; emu_subl 0; emu_not 0;
   emu_add_acc 1; emu_rnd 1; emu_addl 1; emu_clr 1; emu_sub_acc 1; emu_max; emu_subl 1; emu_not 1;
   emu_add_xy DSP_REG_X1 DSP_REG_X0 0; emu_adc DSP_REG_X1 DSP_REG_X0 0; emu_asr 0; emu_lsr 0;
   emu_sub_xy DSP_REG_X1 DSP_REG_X0 0; emu_sbc DSP_REG_X1 DSP_REG_X0 0; emu_abs 0; emu_ror 0;
   emu_add_xy DSP_REG_X1 DSP_REG_X0 1; emu_adc DSP_REG_X1 DSP_REG_X0 1; emu_asr 1; emu_lsr 1;
   emu_sub_xy DSP_REG_X1 DSP_REG_X0 1; emu_sbc DSP_REG_X1 DSP_REG_X0 1; emu_abs 1; emu_ror 1;
   emu_add_xy DSP_REG_Y1 DSP_REG_Y0 0; emu_adc DSP_REG_Y1 DSP_REG_Y0 0; emu_asl 0; emu_lsl 0;
   emu_sub_xy DSP_REG_Y1 DSP_REG_Y0 0; emu_sbc DSP_REG_Y1 DSP_REG_Y0 0; emu_neg 0; emu_rol 0;
   emu_add_xy DSP_REG_Y1 DSP_REG_Y0 1; emu_adc DSP_REG_Y1 DSP_REG_Y0 1; emu_asl 1; emu_lsl 1;
   emu_sub_xy DSP_REG_Y1 DSP_REG_Y0 1; emu_sbc DSP_REG_Y1 DSP_REG_Y0 1; emu_neg 1; emu_rol 1]
  ++ flat_map (fun r => alu_row_reg r 0 ++ alu_row_reg r 1) [DSP_REG_X0; DSP_REG_Y0; DSP_REG_X1; DSP_REG_Y1]
  ++ flat_map (fun '(r1, r2) => alu_row_mul r1 r2 0 ++ alu_row_mul r1 r2 1)
       [(DSP_REG_X0, DSP_REG_X0); (DSP_REG_Y0, DSP_REG_Y0); (DSP_REG_X1, DSP_REG_X0); (DSP_REG_Y1, DSP_REG_Y0);
        (DSP_REG_X0, DSP_REG_Y1); (DSP_REG_Y0, DSP_REG_X0); (DSP_REG_X1, DSP_REG_Y0); (DSP_REG_Y1, DSP_REG_X1)].

(** [opcodes_alu[dsp->cur_inst & BITMASK(8)](dsp)] *)
Definition run_alu dsp : result (dsp_core P) :=
  op ← fetch opcodes_alu (Z.land (cur_inst dsp) (BITMASK 8));
  op dsp.
End EmuAlu.

(** ** Address registers *)

Lemma shl1_u16 k : 0 <= k < 15 -> u16 (Z.shiftl (2 ^ k) 1) = 2 ^ (k + 1).
Proof.
  intros Hk. rewrite Z.shiftl_mul_pow2, Z.pow_add_r by lia. apply u16_id.
  assert (1 <= 2 ^ k <= 2 ^ 14) by (split; [apply (Z.pow_le_mono_r 2 0)|apply Z.pow_le_mono_r]; lia).
  unfold is_u16. lia.
Qed.
Lemma shl1_mask k : 0 <= k < 15 -> u16 (Z.shiftl (2 ^ 16 - 2 ^ k) 1) = 2 ^ 16 - 2 ^ (k + 1).
Proof.
  intros Hk. rewrite Z.shiftl_mul_pow2, Z.pow_add_r by lia. unfold u16.
  assert (1 <= 2 ^ k <= 2 ^ 14) by (split; [apply (Z.pow_le_mono_r 2 0)|apply Z.pow_le_mono_r]; lia).
  replace ((2 ^ 16 - 2 ^ k) * 2 ^ 1) with (2 ^ 16 - 2 ^ k * 2 ^ 1 + 1 * 2 ^ 16) by lia.
  rewrite Z.mod_add by lia. apply Z.mod_small. lia.
Qed.

(** The loop finds the least power of two that holds the buffer. *)
Lemma modulo_buffer_spec fuel modulo : forall k, 0 <= k <= 15 -> modulo <= 2 ^ 15 -> 15 - k <= Z.of_nat fuel ->
  exists k', modulo_buffer fuel modulo (2 ^ k) (2 ^ 16 - 2 ^ k) = Ok (2 ^ k', 2 ^ 16 - 2 ^ k') /\
    k <= k' <= 15 /\ modulo <= 2 ^ k' /\ (k = k' \/ 2 ^ (k' - 1) < modulo).
Proof.
  induction fuel as [|fuel IH]; intros k Hk Hmod Hfuel; cbn [modulo_buffer].
  - assert (k = 15) as -> by lia. rewrite (proj2 (Z.ltb_ge _ _)) by lia. exists 15. split; [done|lia].
  - destruct (Z.ltb_spec (2 ^ k) modulo) as [Hlt|Hge]; [|exists k; split; [done|lia]].
    assert (k <> 15) by (intros ->; lia).
    rewrite shl1_u16, shl1_mask by lia.
    destruct (IH (k + 1)) as (k' & -> & Hk' & Hm & Hmin); [lia..|].
    exists k'. split; [done|]. split; [lia|]. split; [done|]. right.
    destruct Hmin as [<-|Hmin]; [by replace (k + 1 - 1) with k by lia|done].
Qed.

Lemma step_up_spec fuel bufsize : forall r m, 0 < bufsize -> 0 < m <= 32767 -> m <= Z.of_nat fuel ->
  exists r' m', step_up fuel bufsize r m = Ok (r', m') /\ 0 < m' <= bufsize /\ m' <= m.
Proof.
  induction fuel as [|fuel IH]; intros r m Hb Hm Hfuel; [lia|]. cbn [step_up].
  destruct (Z.ltb_spec bufsize m) as [Hlt|Hge]; [|exists r, m; split; [done|lia]].
  rewrite (s16_id (m - bufsize)) by lia.
  destruct (IH (s16 (r + bufsize)) (m - bufsize)) as (r' & m' & -> & H1 & H2); [lia..|].
  exists r', m'. split; [done|lia].
Qed.
Lemma step_down_none fuel bufsize r m : 0 < bufsize -> 0 < m -> step_down fuel bufsize r m = Ok (r, m).
Proof. intros Hb Hm. destruct fuel; cbn [step_down]; by rewrite (proj2 (Z.ltb_ge _ _)) by lia. Qed.

(** A buffer of [M + 1] words starts at a multiple of the least power of two above it. *)
Definition buffer_bits (M : Z) : Z := Z.log2_up (M + 1).
Definition buffer_base (M R : Z) : Z := R / 2 ^ buffer_bits M * 2 ^ buffer_bits M.

Lemma modulo_buffer_bits M : 1 <= M <= 32767 ->
  modulo_buffer 17 (M + 1) 1 (BITMASK 16) = Ok (2 ^ buffer_bits M, 2 ^ 16 - 2 ^ buffer_bits M) /\
  0 < buffer_bits M <= 15 /\ M + 1 <= 2 ^ buffer_bits M.
Proof.
  intros HM. change 1 with (2 ^ 0) at 2. change (BITMASK 16) with (2 ^ 16 - 2 ^ 0).
  destruct (modulo_buffer_spec 17 (M + 1) 0) as (k & -> & Hk & Hm & Hmin); [lia..|].
  assert (buffer_bits M = k) as ->; [|split; [done|]; split; [|done]].
  - unfold buffer_bits. destruct Hmin as [<-|Hmin]; [cbn in Hm; lia|].
    apply Z.log2_up_unique; [|lia].
    destruct (Z.eq_dec k 0) as [->|]; [cbn in Hm; lia|lia].
  - destruct (Z.eq_dec k 0) as [->|]; [cbn in Hm; lia|lia].
Qed.

Lemma land_bufmask R k : 0 <= R < 2 ^ 16 -> 0 <= k <= 16 -> Z.land R (2 ^ 16 - 2 ^ k) = R / 2 ^ k * 2 ^ k.
Proof.
  intros HR Hk.
  assert (2 ^ (16 - k) * 2 ^ k = 2 ^ 16) as Hpow by (rewrite <- Z.pow_add_r by lia; f_equal; lia).
  replace (2 ^ 16 - 2 ^ k) with (Z.shiftl (Z.ones (16 - k)) k).
  2: { rewrite Z.ones_equiv, Z.shiftl_mul_pow2 by lia. lia. }
  rewrite land_high by lia. rewrite Z.mod_small; [done|].
  split; [apply Z.div_pos; lia|]. apply Z.div_lt_upper_bound; lia.
Qed.

Lemma mod_step x m q : 0 < m -> q * m <= x < q * m + m -> x mod m = x - q * m.
Proof. intros Hm Hx. symmetry. apply (Z.mod_unique _ _ q); lia. Qed.

(** Modulo addressing: with [M0+numreg] = M and an address inside the buffer, adding
    an offset of at most M words stays in the buffer and wraps around its ends.
    (The source compares a signed 16-bit address with unsigned bounds, so the buffer
    and the sum must lie below 0x8000.) *)
Theorem modulo_addressing_correct {P : Type} (dsp : dsp_core P) (numreg modifier M R : Z) :
  getr dsp (DSP_REG_M0 + numreg) = M -> getr dsp (DSP_REG_R0 + numreg) = R ->
  1 <= M <= 32767 -> 0 <= R -> R <= buffer_base M R + M < 32768 -> - M <= modifier <= M ->
  R + modifier < 32768 ->
  emu_update_rn dsp numreg modifier =
    Ok (setr (DSP_REG_R0 + numreg)
          (buffer_base M R + (R - buffer_base M R + modifier) mod (M + 1)) dsp).
Proof.
  intros HM HR HMr HR0 Hbuf Hmod Hsum. unfold emu_update_rn. rewrite HM, HR.
  rewrite (u16_id M) by (unfold is_u16; lia).
  rewrite (proj2 (Z.eqb_neq M 65535)), (proj2 (Z.eqb_neq M 0)), (proj2 (Z.leb_le M 32767)) by lia.
  unfold emu_update_rn_modulo. rewrite HM, HR.
  destruct (modulo_buffer_bits M HMr) as (Hrun & Hk & Hsize).
  rewrite (u16_id (M + 1)) by (unfold is_u16; lia). rewrite Hrun. cbn [mbind result_mbind result_bind].
  rewrite land_bufmask by lia. fold (buffer_base M R). set (lo := buffer_base M R) in *.
  assert (0 <= lo <= R) as Hlo.
  { subst lo. unfold buffer_base. pose proof (Z.mul_div_le R (2 ^ buffer_bits M) ltac:(lia)).
    pose proof (Z.div_pos R (2 ^ buffer_bits M) HR0 ltac:(lia)). nia. }
  rewrite (proj2 (Z.ltb_ge (M + 1) modifier)) by lia. cbn [mbind result_mbind result_bind].
  rewrite (proj2 (Z.eqb_neq modifier (M + 1))) by lia. cbn [negb].
  rewrite (u16_id lo), (u16_id (lo + (M + 1) - 1)), (s16_id R), (s16_id (R + modifier)) by (unfold is_u16; lia).
  f_equal. f_equal.
  assert (forall v, 0 <= v < 32768 -> Z.land (u32 v) (BITMASK 16) = v) as Hstore.
  { intros v Hv. rewrite u32_id by (unfold is_u32; lia). rewrite land_BITMASK by done. apply Z.mod_small; lia. }
  destruct (Z.ltb_spec (lo + (M + 1) - 1) (R + modifier)); [|destruct (Z.ltb_spec (R + modifier) lo)].
  - rewrite s16_id, Hstore by lia.
    rewrite (mod_step (R - lo + modifier) (M + 1) 1) by lia. lia.
  - rewrite s16_id, Hstore by lia.
    rewrite (mod_step (R - lo + modifier) (M + 1) (-1)) by lia. lia.
  - rewrite Hstore by lia. rewrite Z.mod_small by lia. lia.
Qed.
