(* ===== verification/DspEmuMove.v ===== *)
(** * The instructions of the DSP: parallel moves
    (src/xemu/hw/xbox/mcpx/apu/dsp/interp/dsp_emu.c.inc, lines 5149 to 5790)

    An instruction from 0x100000 on is a move of one or two values together with an
    ALU operation: sources are read, the operation runs, destinations are written.
    Reading an accumulator limits it to 24 bits. *)

From S2P Require Import Prelude DspArith DspCore DspEmuAlu.

Section EmuMove.
Context {P : Type} `{!DspPeripheral P}.
Implicit Types dsp : dsp_core P.

(** The core, [*dest] and whether the value was limited. *)
Definition emu_pm_read_accu24 dsp (numreg : Z) : dsp_core P * Z * bool :=
  let scaling := Z.land (Z.shiftr (getr dsp DSP_REG_SR) DSP_SR_S0) (BITMASK 2) in
  let reg := Z.land numreg 1 in
  let ext := getr dsp (DSP_REG_A2 + reg) in
  let value := u32 (u32 (Z.shiftl ext 24) + getr dsp (DSP_REG_A1 + reg)) in
  let value :=
    if scaling =? 1 then Z.shiftr value 1
    else if scaling =? 2 then Z.lor (u32 (Z.shiftl value 1)) (bit_of (getr dsp (DSP_REG_A0 + reg)) 23)
    else value in
  let value := Z.land value (BITMASK 24) in
  if (ext =? 0) && (value <=? 0x007fffff) then (dsp, value, false)
  else if (ext =? 0xff) && (0x00800000 <=? value) then (dsp, value, false)
  else if has ext (bit 7) then (sr_or (bit DSP_SR_L) dsp, 0x00800000, true)
  else (sr_or (bit DSP_SR_L) dsp, 0x007fffff, true).

(** [(numreg==A || numreg==B) ? read_accu24 : registers[numreg]] *)
Definition is_accu (numreg : Z) : bool := (numreg =? DSP_REG_A) || (numreg =? DSP_REG_B).
Definition read_reg dsp (numreg : Z) : dsp_core P * Z :=
  if is_accu numreg then let '(dsp, v, _) := emu_pm_read_accu24 dsp numreg in (dsp, v)
  else (dsp, getr dsp numreg).

(** The three assignments of a 24-bit value to an accumulator; [d] is 0 or 1. *)
Definition load_accu (d v : Z) dsp : dsp_core P :=
  setr (DSP_REG_A2 + d) (sign_ext24 v) (setr (DSP_REG_A1 + d) v (setr (DSP_REG_A0 + d) 0 dsp)).

(** The write of a parallel move, without and with the mask of the register. *)
Definition write_reg_raw (numreg v : Z) dsp : dsp_core P :=
  if numreg =? DSP_REG_A then load_accu 0 v dsp
  else if numreg =? DSP_REG_B then load_accu 1 v dsp
  else setr numreg v dsp.
Definition write_reg_masked (numreg v : Z) dsp : result (dsp_core P) :=
  if numreg =? DSP_REG_A then Ok (load_accu 0 v dsp)
  else if numreg =? DSP_REG_B then Ok (load_accu 1 v dsp)
  else mask ← fetch registers_mask numreg; Ok (setr numreg (Z.land v (BITMASK mask)) dsp).

Definition inst_bits dsp (n k : Z) : Z := Z.land (Z.shiftr (cur_inst dsp) n) (BITMASK k).
Definition inst_bit dsp (n : Z) : Z := bit_of (cur_inst dsp) n.
Definition inst_has dsp (n : Z) : bool := has (cur_inst dsp) (bit n).

Definition emu_pm_0 dsp : result (dsp_core P) :=
  let memspace := inst_bit dsp 15 in
  let numreg := inst_bit dsp 16 in
  '(dsp, addr, _) ← emu_calc_ea dsp (inst_bits dsp 8 6);
  let '(dsp, save_accu, _) := emu_pm_read_accu24 dsp numreg in
  let save_xy0 := getr dsp (DSP_REG_X0 + Z.shiftl memspace 1) in
  dsp ← run_alu dsp;
  dsp ← dsp56k_write_memory dsp memspace addr save_accu;
  Ok (load_accu numreg save_xy0 dsp).

(** The registers a two-bit field selects. *)
Definition reg_x (v : Z) : Z :=
  if v =? 0 then DSP_REG_X0 else if v =? 1 then DSP_REG_X1 else if v =? 2 then DSP_REG_A else DSP_REG_B.
Definition reg_y (v : Z) : Z :=
  if v =? 0 then DSP_REG_Y0 else if v =? 1 then DSP_REG_Y1 else if v =? 2 then DSP_REG_A else DSP_REG_B.

(** The last assignment to [registers[numreg1]] stands outside the [else]: it is made
    for A and B as well. *)
Definition emu_pm_1 dsp : result (dsp_core P) :=
  '(dsp, xy_addr, retour) ← emu_calc_ea dsp (inst_bits dsp 8 6);
  let memspace := inst_bit dsp 14 in
  let isY := negb (memspace =? 0) in
  let numreg1 := if isY then reg_y (inst_bits dsp 16 2) else reg_x (inst_bits dsp 18 2) in
  '(dsp, save_1) ←
    (if inst_has dsp 15 then
       if (retour : bool) then Ok (dsp, xy_addr) else dsp56k_read_memory dsp memspace xy_addr
     else Ok (read_reg dsp numreg1));
  let numreg2 := DSP_REG_A + (if isY then inst_bit dsp 19 else inst_bit dsp 17) in
  let '(dsp, save_2, _) := emu_pm_read_accu24 dsp numreg2 in
  dsp ← run_alu dsp;
  dsp ←
    (if inst_has dsp 15 then Ok (setr numreg1 save_1 (write_reg_raw numreg1 save_1 dsp))
     else dsp56k_write_memory dsp memspace xy_addr save_1);
  let numreg2 := if isY then DSP_REG_X0 + inst_bit dsp 18 else DSP_REG_Y0 + inst_bit dsp 16 in
  Ok (setr numreg2 save_2 dsp).

Definition emu_pm_2_2 dsp : result (dsp_core P) :=
  let srcreg := inst_bits dsp 13 5 in
  let dstreg := inst_bits dsp 8 5 in
  let '(dsp, save_reg) := read_reg dsp srcreg in
  dsp ← run_alu dsp;
  write_reg_masked dstreg save_reg dsp.

Definition emu_pm_3 dsp : result (dsp_core P) :=
  dsp ← run_alu dsp;
  let dstreg := inst_bits dsp 16 5 in
  let srcvalue := inst_bits dsp 8 8 in
  let srcvalue :=
    if (dstreg =? DSP_REG_X0) || (dstreg =? DSP_REG_X1) || (dstreg =? DSP_REG_Y0) || (dstreg =? DSP_REG_Y1) ||
       is_accu dstreg then Z.shiftl srcvalue 16 else srcvalue in
  write_reg_masked dstreg srcvalue dsp.

Definition emu_pm_2 dsp : result (dsp_core P) :=
  if Z.land (cur_inst dsp) 0xffff00 =? 0x200000 then run_alu dsp
  else if Z.land (cur_inst dsp) 0xffe000 =? 0x204000 then
    '(dsp, _, _) ← emu_calc_ea dsp (inst_bits dsp 8 5);
    run_alu dsp
  else if Z.land (cur_inst dsp) 0xfc0000 =? 0x200000 then emu_pm_2_2 dsp
  else emu_pm_3 dsp.

(** The sources and destinations of a long move: [save_lx], [save_ly]. *)
Definition read_long dsp (numreg : Z) : dsp_core P * Z * Z :=
  if numreg =? 0 then (dsp, getr dsp DSP_REG_A1, getr dsp DSP_REG_A0)
  else if numreg =? 1 then (dsp, getr dsp DSP_REG_B1, getr dsp DSP_REG_B0)
  else if numreg =? 2 then (dsp, getr dsp DSP_REG_X1, getr dsp DSP_REG_X0)
  else if numreg =? 3 then (dsp, getr dsp DSP_REG_Y1, getr dsp DSP_REG_Y0)
  else if numreg =? 4 then
    let '(dsp, lx, limited) := emu_pm_read_accu24 dsp DSP_REG_A in
    (dsp, lx, if limited then (if has lx (bit 23) then 0 else 0xffffff) else getr dsp DSP_REG_A0)
  else if numreg =? 5 then
    let '(dsp, lx, limited) := emu_pm_read_accu24 dsp DSP_REG_B in
    (dsp, lx, if limited then (if has lx (bit 23) then 0 else 0xffffff) else getr dsp DSP_REG_B0)
  else if numreg =? 6 then
    let '(dsp, lx, _) := emu_pm_read_accu24 dsp DSP_REG_A in
    let '(dsp, ly, _) := emu_pm_read_accu24 dsp DSP_REG_B in (dsp, lx, ly)
  else
    let '(dsp, lx, _) := emu_pm_read_accu24 dsp DSP_REG_B in
    let '(dsp, ly, _) := emu_pm_read_accu24 dsp DSP_REG_A in (dsp, lx, ly).

Definition write_long (numreg lx ly : Z) dsp : dsp_core P :=
  if numreg =? 0 then setr DSP_REG_A0 ly (setr DSP_REG_A1 lx dsp)
  else if numreg =? 1 then setr DSP_REG_B0 ly (setr DSP_REG_B1 lx dsp)
  else if numreg =? 2 then setr DSP_REG_X0 ly (setr DSP_REG_X1 lx dsp)
  else if numreg =? 3 then setr DSP_REG_Y0 ly (setr DSP_REG_Y1 lx dsp)
  else if numreg =? 4 then
    setr DSP_REG_A2 (sign_ext24 lx) (setr DSP_REG_A1 lx (setr DSP_REG_A0 ly dsp))
  else if numreg =? 5 then
    setr DSP_REG_B2 (sign_ext24 lx) (setr DSP_REG_B1 lx (setr DSP_REG_B0 ly dsp))
  else if numreg =? 6 then load_accu 1 ly (load_accu 0 lx dsp)
  else load_accu 0 ly (load_accu 1 lx dsp).

Definition emu_pm_4x dsp : result (dsp_core P) :=
  let value := inst_bits dsp 8 6 in
  '(dsp, l_addr) ←
    (if inst_has dsp 14 then '(dsp, a, _) ← emu_calc_ea dsp value; Ok (dsp, a) else Ok (dsp, value));
  let numreg := Z.lor (inst_bits dsp 16 2) (Z.land (Z.shiftr (cur_inst dsp) 17) (bit 2)) in
  '(dsp, save_lx, save_ly) ←
    (if inst_has dsp 15 then
       '(dsp, lx) ← dsp56k_read_memory dsp DSP_SPACE_X l_addr;
       '(dsp, ly) ← dsp56k_read_memory dsp DSP_SPACE_Y l_addr;
       Ok (dsp, lx, ly)
     else Ok (read_long dsp numreg));
  dsp ← run_alu dsp;
  if inst_has dsp 15 then Ok (write_long numreg save_lx save_ly dsp)
  else
    dsp ← dsp56k_write_memory dsp DSP_SPACE_X l_addr save_lx;
    dsp56k_write_memory dsp DSP_SPACE_Y l_addr save_ly.

Definition emu_pm_5 dsp : result (dsp_core P) :=
  let value := inst_bits dsp 8 6 in
  '(dsp, xy_addr, retour) ← (if inst_has dsp 14 then emu_calc_ea dsp value else Ok (dsp, value, false));
  let memspace := inst_bit dsp 19 in
  let numreg := Z.lor (inst_bits dsp 16 3) (Z.land (Z.shiftr (cur_inst dsp) 17) (Z.shiftl (BITMASK 2) 3)) in
  '(dsp, value) ←
    (if inst_has dsp 15 then
       if (retour : bool) then Ok (dsp, xy_addr) else dsp56k_read_memory dsp memspace xy_addr
     else Ok (read_reg dsp numreg));
  dsp ← run_alu dsp;
  if inst_has dsp 15 then write_reg_masked numreg value dsp
  else dsp56k_write_memory dsp memspace xy_addr value.

Definition emu_pm_4 dsp : result (dsp_core P) :=
  if Z.land (cur_inst dsp) 0xf40000 =? 0x400000 then emu_pm_4x dsp else emu_pm_5 dsp.

Definition emu_pm_8 dsp : result (dsp_core P) :=
  let ea1 := inst_bits dsp 8 5 in
  let ea1 := if Z.shiftr ea1 3 =? 0 then Z.lor ea1 (bit 5) else ea1 in
  let ea2 := Z.lor (inst_bits dsp 13 2) (Z.land (Z.shiftr (cur_inst dsp) 17) (Z.shiftl (BITMASK 2) 3)) in
  let ea2 := if negb (has ea1 (bit 2)) then Z.lor ea2 (bit 2) else ea2 in
  let ea2 := if Z.shiftr ea2 3 =? 0 then Z.lor ea2 (bit 5) else ea2 in
  '(dsp, x_addr, _) ← emu_calc_ea dsp ea1;
  '(dsp, y_addr, _) ← emu_calc_ea dsp ea2;
  let numreg1 := reg_x (inst_bits dsp 18 2) in
  let numreg2 := reg_y (inst_bits dsp 16 2) in
  '(dsp, save_reg1) ←
    (if inst_has dsp 15 then dsp56k_read_memory dsp DSP_SPACE_X x_addr else Ok (read_reg dsp numreg1));
  '(dsp, save_reg2) ←
    (if inst_has dsp 22 then dsp56k_read_memory dsp DSP_SPACE_Y y_addr else Ok (read_reg dsp numreg2));
  dsp ← run_alu dsp;
  dsp ← (if inst_has dsp 15 then Ok (write_reg_raw numreg1 save_reg1 dsp)
         else dsp56k_write_memory dsp DSP_SPACE_X x_addr save_reg1);
  if inst_has dsp 22 then Ok (write_reg_raw numreg2 save_reg2 dsp)
  else dsp56k_write_memory dsp DSP_SPACE_Y y_addr save_reg2.

Definition opcodes_parmove : list (dsp_core P -> result (dsp_core P)) :=
  [emu_pm_0; emu_pm_1; emu_pm_2; emu_pm_3; emu_pm_4; emu_pm_5; emu_pm_5; emu_pm_5;
   emu_pm_8; emu_pm_8; emu_pm_8; emu_pm_8; emu_pm_8; emu_pm_8; emu_pm_8; emu_pm_8].

Definition run_parmove (i : Z) dsp : result (dsp_core P) := op ← fetch opcodes_parmove i; op dsp.
End EmuMove.
