(* ===== verification/DspEmuOps.v ===== *)
(** * The instructions of the DSP without parallel moves
    (src/xemu/hw/xbox/mcpx/apu/dsp/interp/dsp_emu.c.inc, lines 5797 to 8121)

    Immediate arithmetic, bit operations, branches and jumps, loops, moves to and
    from control registers, program memory and peripherals.  Instructions that differ
    only in the place of their operand (absolute address aa, effective address ea,
    peripheral pp, register) share a function of that place. *)

From S2P Require Import Prelude DspArith DspCore DspEmuAlu DspEmuMove.

(** The pairs (source, destination) of [emu_tcc]. *)
Definition registers_tcc : list (Z * Z) :=
  [(DSP_REG_B, DSP_REG_A); (DSP_REG_A, DSP_REG_B); (DSP_REG_NULL, DSP_REG_NULL); (DSP_REG_NULL, DSP_REG_NULL);
   (DSP_REG_NULL, DSP_REG_NULL); (DSP_REG_NULL, DSP_REG_NULL); (DSP_REG_NULL, DSP_REG_NULL); (DSP_REG_NULL, DSP_REG_NULL);
   (DSP_REG_X0, DSP_REG_A); (DSP_REG_X0, DSP_REG_B); (DSP_REG_Y0, DSP_REG_A); (DSP_REG_Y0, DSP_REG_B);
   (DSP_REG_X1, DSP_REG_A); (DSP_REG_X1, DSP_REG_B); (DSP_REG_Y1, DSP_REG_A); (DSP_REG_Y1, DSP_REG_B)].

Section EmuOps.
Context {P : Type} `{!DspPeripheral P}.
Implicit Types dsp : dsp_core P.

(** The word after the instruction. *)
Definition next_word dsp : result Z := read_memory_p dsp (u32 (pc dsp + 1)).
Definition long_word dsp : result (dsp_core P * Z) := xxxx ← next_word dsp; Ok (add_len dsp, xxxx).

(** ** Immediate arithmetic *)

Definition emu_add_x (x d : Z) dsp : result (dsp_core P) := emu_add d (src24 x) dsp.
Definition emu_add_imm dsp := emu_add_x (inst_bits dsp 8 6) (inst_bit dsp 3) dsp.
Definition emu_add_long dsp := '(dsp, xxxx) ← long_word dsp; emu_add_x xxxx (inst_bit dsp 3) dsp.
Definition emu_sub_x (x d : Z) dsp : result (dsp_core P) := emu_sub d (src24 x) dsp.
Definition emu_sub_imm dsp := emu_sub_x (inst_bits dsp 8 6) (inst_bit dsp 3) dsp.
Definition emu_sub_long dsp := '(dsp, xxxx) ← long_word dsp; emu_sub_x xxxx (inst_bit dsp 3) dsp.

Definition emu_and_x (x d : Z) dsp : result (dsp_core P) :=
  Ok (finish_logic (DSP_REG_A1 + d) (Z.land (getr dsp (DSP_REG_A1 + d)) x) dsp).
Definition emu_and_imm dsp := emu_and_x (inst_bits dsp 8 6) (inst_bit dsp 3) dsp.
Definition emu_and_long dsp := '(dsp, xxxx) ← long_word dsp; emu_and_x xxxx (inst_bit dsp 3) dsp.
Definition emu_or_long dsp : result (dsp_core P) :=
  '(dsp, xxxx) ← long_word dsp;
  let dstreg := DSP_REG_A1 + inst_bit dsp 3 in
  Ok (finish_logic dstreg (Z.lor (getr dsp dstreg) xxxx) dsp).

Definition emu_andi dsp : result (dsp_core P) :=
  let value := inst_bits dsp 8 8 in
  let regnum := Z.land (cur_inst dsp) (BITMASK 2) in
  if regnum =? 0 then
    Ok (setr DSP_REG_SR (Z.land (getr dsp DSP_REG_SR) (Z.lor (Z.shiftl value 8) (BITMASK 8))) dsp)
  else if regnum =? 1 then
    Ok (setr DSP_REG_SR (Z.land (getr dsp DSP_REG_SR) (Z.lor (Z.shiftl (BITMASK 8) 8) value)) dsp)
  else if regnum =? 2 then Ok (setr DSP_REG_OMR (Z.land (getr dsp DSP_REG_OMR) value) dsp)
  else Ok dsp.
Definition emu_ori dsp : result (dsp_core P) :=
  let value := inst_bits dsp 8 8 in
  let regnum := Z.land (cur_inst dsp) (BITMASK 2) in
  if regnum =? 0 then Ok (sr_or (Z.shiftl value 8) dsp)
  else if regnum =? 1 then Ok (sr_or value dsp)
  else if regnum =? 2 then Ok (setr DSP_REG_OMR (Z.lor (getr dsp DSP_REG_OMR) value) dsp)
  else Ok dsp.

Definition emu_asl_imm dsp : result (dsp_core P) :=
  emu_shift dsp_asl56 (inst_bit dsp 7) (Z.land (cur_inst dsp) 1) (inst_bits dsp 1 6) dsp.
Definition emu_asr_imm dsp : result (dsp_core P) :=
  emu_shift dsp_asr56 (inst_bit dsp 7) (Z.land (cur_inst dsp) 1) (inst_bits dsp 1 6) dsp.

(** The operand of a comparison with an immediate value is not sign-extended. *)
Definition emu_cmp_imm dsp : result (dsp_core P) :=
  emu_cmp (mkAcc 0 (inst_bits dsp 8 6) 0) (get_acc dsp (inst_bit dsp 3)) dsp.
Definition emu_cmp_long dsp : result (dsp_core P) :=
  '(dsp, xxxx) ← long_word dsp;
  emu_cmp (mkAcc 0 xxxx 0) (get_acc dsp (inst_bit dsp 3)) dsp.

Definition emu_cmpu dsp : result (dsp_core P) :=
  let ggg := inst_bits dsp 1 3 in
  let d := Z.land (cur_inst dsp) 1 in
  let srcreg :=
    if ggg =? 0 then (if negb (d =? 0) then DSP_REG_A else DSP_REG_B)
    else if ggg =? 4 then DSP_REG_X0 else if ggg =? 5 then DSP_REG_Y0
    else if ggg =? 6 then DSP_REG_X1 else if ggg =? 7 then DSP_REG_Y1 else DSP_REG_NULL in
  let dest := get_acc dsp d in
  let '(dsp, value) := read_reg dsp srcreg in
  let '(dest, newsr) := dsp_sub56 (src24 value) dest in
  let dsp := sr_clear (Z.lor (Z.lor (Z.lor (bit DSP_SR_V) (bit DSP_SR_C)) (bit DSP_SR_Z)) (bit DSP_SR_N)) dsp in
  let dsp := sr_or (Z.land newsr (bit DSP_SR_C)) dsp in
  let dsp := if (a2 dest =? 0) && (a0 dest =? 0) && (a1 dest =? 0) then sr_or (bit DSP_SR_Z) dsp else dsp in
  Ok (sr_or (Z.land (Z.shiftr (a2 dest) 4) 0x8) dsp).

Definition emu_dec dsp : result (dsp_core P) := emu_sub (Z.land (cur_inst dsp) 1) (mkAcc 0 0 1) dsp.
Definition emu_inc dsp : result (dsp_core P) := emu_add (Z.land (cur_inst dsp) 1) (mkAcc 0 0 1) dsp.

(** The source register of div and mpyi. *)
Definition reg_qq (v : Z) : Z :=
  if v =? 0 then DSP_REG_X0 else if v =? 1 then DSP_REG_Y0 else if v =? 2 then DSP_REG_X1 else DSP_REG_Y1.

Definition emu_div dsp : result (dsp_core P) :=
  let source := src24 (getr dsp (reg_qq (inst_bits dsp 4 2))) in
  let d := inst_bit dsp 3 in
  let dest := get_acc dsp d in
  let add := negb (Z.lxor (bit_of (a2 dest) 7) (bit_of (a1 source) 23) =? 0) in
  '(dest, newsr) ← dsp_asl56 dest 1;
  let dest := fst ((if add then dsp_add56 else dsp_sub56) source dest) in
  let dest := mkAcc (a2 dest) (a1 dest) (Z.lor (a0 dest) (sr_bit dsp DSP_SR_C)) in
  let dsp := sr_clear (Z.lor (bit DSP_SR_C) (bit DSP_SR_V)) (set_acc d dest dsp) in
  let dsp := sr_or (Z.shiftl (1 - bit_of (a2 dest) 7) DSP_SR_C) dsp in
  Ok (sr_or (Z.land newsr (bit DSP_SR_V)) (sr_or (Z.land newsr (bit DSP_SR_L)) dsp)).

Definition emu_mpyi dsp : result (dsp_core P) :=
  '(dsp, xxxx) ← long_word dsp;
  let k := inst_bit dsp 2 in
  let d := inst_bit dsp 3 in
  let srcreg := reg_qq (inst_bits dsp 4 2) in
  source ← dsp_mul56 xxxx (getr dsp srcreg) (if negb (k =? 0) then SIGN_MINUS else SIGN_PLUS);
  Ok (sr_clear (bit DSP_SR_V) (ccr_update source (set_acc d source dsp))).

Definition emu_norm dsp : result (dsp_core P) :=
  let cur_e := sr_bit dsp DSP_SR_E in
  let cur_euz := Z.land (Z.land (not_bit cur_e) (sr_bit dsp DSP_SR_U)) (not_bit (sr_bit dsp DSP_SR_Z)) in
  let numreg := inst_bit dsp 3 in
  let dest := get_acc dsp numreg in
  let rreg := DSP_REG_R0 + inst_bits dsp 8 3 in
  '(dsp, dest, newsr) ←
    (if negb (cur_euz =? 0) then
       '(dest, newsr) ← dsp_asl56 dest 1;
       Ok (setr rreg (Z.land (u32 (getr dsp rreg - 1)) (BITMASK 16)) dsp, dest, newsr)
     else if negb (cur_e =? 0) then
       '(dest, newsr) ← dsp_asr56 dest 1;
       Ok (setr rreg (Z.land (u32 (getr dsp rreg + 1)) (BITMASK 16)) dsp, dest, newsr)
     else Ok (dsp, dest, 0));
  Ok (finish_add numreg dest newsr dsp).

Definition emu_tcc dsp : result (dsp_core P) :=
  if emu_calc_cc dsp (inst_bits dsp 12 4) then
    '(regsrc1, regdest1) ← fetch registers_tcc (inst_bits dsp 3 4);
    let val :=
      if regsrc1 =? DSP_REG_A then get_acc dsp 0
      else if regsrc1 =? DSP_REG_B then get_acc dsp 1
      else src24 (getr dsp regsrc1) in
    let dsp := set_acc (if regdest1 =? DSP_REG_A then 0 else 1) val dsp in
    if inst_has dsp 16 then
      let regsrc2 := DSP_REG_R0 + inst_bits dsp 8 3 in
      let regdest2 := DSP_REG_R0 + Z.land (cur_inst dsp) (BITMASK 3) in
      Ok (setr regdest2 (getr dsp regsrc2) dsp)
    else Ok dsp
  else Ok dsp.

(** ** Bit operations *)

(** The places of an operand. *)
Definition loc_aa dsp : result (dsp_core P * Z) := Ok (dsp, inst_bits dsp 8 6).
Definition loc_ea dsp : result (dsp_core P * Z) :=
  '(dsp, addr, _) ← emu_calc_ea dsp (inst_bits dsp 8 6); Ok (dsp, addr).
Definition loc_pp dsp : result (dsp_core P * Z) := Ok (dsp, 0xffffc0 + inst_bits dsp 8 6).

Definition numbit dsp : Z := Z.land (cur_inst dsp) (BITMASK 5).
Definition set_carry (newcarry : Z) dsp : dsp_core P :=
  sr_or (Z.shiftl newcarry DSP_SR_C) (sr_clear (bit DSP_SR_C) dsp).

(** What bchg, bclr and bset make of a value; [1<<n] is taken modulo 2^32. *)
Definition bit_chg (value n : Z) : Z := if bit_of value n =? 0 then u32 (value + bit n) else u32 (value - bit n).
Definition bit_clr (value n : Z) : Z := Z.land value (0xffffffff - bit n).
Definition bit_set (value n : Z) : Z := Z.lor value (bit n).

Definition bit_mem (f : Z -> Z -> Z) (loc : dsp_core P -> result (dsp_core P * Z)) dsp : result (dsp_core P) :=
  let memspace := inst_bit dsp 6 in
  '(dsp, addr) ← loc dsp;
  '(dsp, value) ← dsp56k_read_memory dsp memspace addr;
  let newcarry := bit_of value (numbit dsp) in
  dsp ← dsp56k_write_memory dsp memspace addr (f value (numbit dsp));
  Ok (add_cycles 2 (set_carry newcarry dsp)).
Definition bit_reg (f : Z -> Z -> Z) dsp : result (dsp_core P) :=
  let numreg := inst_bits dsp 8 6 in
  let '(dsp, value) := read_reg dsp numreg in
  let newcarry := bit_of value (numbit dsp) in
  dsp ← dsp_write_reg dsp numreg (f value (numbit dsp));
  Ok (add_cycles 2 (set_carry newcarry dsp)).

Definition emu_bchg_mem := bit_mem bit_chg.
Definition emu_bchg_aa := emu_bchg_mem loc_aa.
Definition emu_bchg_ea := emu_bchg_mem loc_ea.
Definition emu_bchg_pp := emu_bchg_mem loc_pp.
Definition emu_bchg_reg := bit_reg bit_chg.
Definition emu_bclr_mem := bit_mem bit_clr.
Definition emu_bclr_aa := emu_bclr_mem loc_aa.
Definition emu_bclr_ea := emu_bclr_mem loc_ea.
Definition emu_bclr_pp := emu_bclr_mem loc_pp.
Definition emu_bclr_reg := bit_reg bit_clr.
Definition emu_bset_mem := bit_mem bit_set.
Definition emu_bset_aa := emu_bset_mem loc_aa.
Definition emu_bset_ea := emu_bset_mem loc_ea.
Definition emu_bset_pp := emu_bset_mem loc_pp.
Definition emu_bset_reg := bit_reg bit_set.

Definition emu_btst_mem (loc : dsp_core P -> result (dsp_core P * Z)) dsp : result (dsp_core P) :=
  let memspace := inst_bit dsp 6 in
  '(dsp, addr) ← loc dsp;
  '(dsp, value) ← dsp56k_read_memory dsp memspace addr;
  Ok (add_cycles 2 (set_carry (bit_of value (numbit dsp)) dsp)).
Definition emu_btst_aa := emu_btst_mem loc_aa.
Definition emu_btst_ea := emu_btst_mem loc_ea.
Definition emu_btst_pp := emu_btst_mem loc_pp.
Definition emu_btst_reg dsp : result (dsp_core P) :=
  let '(dsp, value) := read_reg dsp (inst_bits dsp 8 6) in
  Ok (add_cycles 2 (set_carry (bit_of value (numbit dsp)) dsp)).

(** ** Branches *)

Definition goto (newpc : Z) dsp : dsp_core P := dsp <| pc := newpc |> <| cur_inst_len := 0 |>.
(** [pc += x; pc &= BITMASK(24); cur_inst_len = 0] *)
Definition branch (x : Z) dsp : dsp_core P := goto (Z.land (u32 (pc dsp + x)) (BITMASK 24)) dsp.

(** The displacement of the short branches. *)
Definition branch_xxx dsp : Z :=
  Z.land (cur_inst dsp) (BITMASK 5) + Z.shiftr (Z.land (cur_inst dsp) (Z.shiftl (BITMASK 4) 6)) 1.

Definition emu_bcc_long dsp : result (dsp_core P) :=
  '(dsp, xxxx) ← long_word dsp;
  if emu_calc_cc dsp (Z.land (cur_inst dsp) (BITMASK 4)) then Ok (branch xxxx dsp) else Ok dsp.
Definition emu_bcc_imm dsp : result (dsp_core P) :=
  if emu_calc_cc dsp (inst_bits dsp 12 4) then x ← dsp_signextend 9 (branch_xxx dsp); Ok (branch x dsp)
  else Ok dsp.
Definition emu_bra_long dsp : result (dsp_core P) := '(dsp, xxxx) ← long_word dsp; Ok (branch xxxx dsp).
Definition emu_bra_imm dsp : result (dsp_core P) := x ← dsp_signextend 9 (branch_xxx dsp); Ok (branch x dsp).

(** The return address of a call; not pushed again in a long interrupt. *)
Definition push_return dsp : result (dsp_core P) :=
  dsp_stack_push dsp (u32 (pc dsp + cur_inst_len dsp)) (getr dsp DSP_REG_SR) 0.
Definition call_return dsp : result (dsp_core P) :=
  if negb (interrupt_state dsp =? DSP_INTERRUPT_LONG) then push_return dsp
  else Ok (dsp <| interrupt_state := DSP_INTERRUPT_DISABLED |>).

Definition emu_bsr_long dsp : result (dsp_core P) :=
  '(dsp, xxxx) ← long_word dsp;
  dsp ← call_return dsp;
  Ok (add_cycles 4 (branch xxxx dsp)).
Definition emu_bsr_imm dsp : result (dsp_core P) :=
  let xxx := branch_xxx dsp in
  dsp ← call_return dsp;
  x ← dsp_signextend 9 xxx;
  Ok (add_cycles 2 (branch x dsp)).

(** [want] is the value of the bit that branches. *)
Definition br_pp (want : bool) dsp : result (dsp_core P) :=
  '(dsp, xxxx) ← long_word dsp;
  '(dsp, addr) ← loc_pp dsp;
  '(dsp, value) ← dsp56k_read_memory dsp (inst_bit dsp 6) addr;
  let dsp := add_cycles 4 dsp in
  if eqb (has value (bit (numbit dsp))) want then Ok (branch xxxx dsp) else Ok dsp.
Definition br_reg (want : bool) dsp : result (dsp_core P) :=
  '(dsp, xxxx) ← long_word dsp;
  let '(dsp, value) := read_reg dsp (inst_bits dsp 8 6) in
  let dsp := add_cycles 4 dsp in
  if eqb (has value (bit (numbit dsp))) want then Ok (branch xxxx dsp) else Ok dsp.
Definition emu_brclr_pp := br_pp false.
Definition emu_brclr_reg := br_reg false.
Definition emu_brset_pp := br_pp true.
Definition emu_brset_reg := br_reg true.

(** ** Jumps *)

Definition emu_jcc_imm dsp : result (dsp_core P) :=
  let newpc := Z.land (cur_inst dsp) (BITMASK 12) in
  Ok (add_cycles 2 (if emu_calc_cc dsp (inst_bits dsp 12 4) then goto newpc dsp else dsp)).
Definition emu_jcc_ea dsp : result (dsp_core P) :=
  '(dsp, newpc) ← loc_ea dsp;
  Ok (add_cycles 2 (if emu_calc_cc dsp (Z.land (cur_inst dsp) (BITMASK 4)) then goto newpc dsp else dsp)).
Definition emu_jmp_imm dsp : result (dsp_core P) :=
  Ok (add_cycles 2 (goto (Z.land (cur_inst dsp) (BITMASK 12)) dsp)).
Definition emu_jmp_ea dsp : result (dsp_core P) :=
  '(dsp, newpc) ← loc_ea dsp; Ok (add_cycles 2 (goto newpc dsp)).

Definition emu_jscc_ea dsp : result (dsp_core P) :=
  '(dsp, newpc) ← loc_ea dsp;
  dsp ← (if emu_calc_cc dsp (Z.land (cur_inst dsp) (BITMASK 4)) then
           dsp ← push_return dsp; Ok (goto newpc dsp)
         else Ok dsp);
  Ok (add_cycles 2 dsp).
Definition emu_jscc_imm dsp : result (dsp_core P) :=
  let newpc := Z.land (cur_inst dsp) (BITMASK 12) in
  dsp ← (if emu_calc_cc dsp (inst_bits dsp 12 4) then
           dsp ← push_return dsp; Ok (goto newpc dsp)
         else Ok dsp);
  Ok (add_cycles 2 dsp).
Definition emu_jsr_imm dsp : result (dsp_core P) :=
  let newpc := Z.land (cur_inst dsp) (BITMASK 12) in
  dsp ← call_return dsp; Ok (add_cycles 2 (goto newpc dsp)).
Definition emu_jsr_ea dsp : result (dsp_core P) :=
  '(dsp, newpc) ← loc_ea dsp;
  dsp ← call_return dsp; Ok (add_cycles 2 (goto newpc dsp)).

(** The end of jclr, jset, jsclr and jsset: [call] pushes the return address. *)
Definition jump_bit (want call : bool) (value newaddr : Z) dsp : result (dsp_core P) :=
  let dsp := add_cycles 4 dsp in
  if eqb (has value (bit (numbit dsp))) want then
    dsp ← (if call then dsp_stack_push dsp (u32 (pc dsp + 2)) (getr dsp DSP_REG_SR) 0 else Ok dsp);
    Ok (goto newaddr dsp)
  else Ok (add_len dsp).

Definition jbit_mem (want call : bool) (loc : dsp_core P -> result (dsp_core P * Z)) dsp : result (dsp_core P) :=
  let memspace := inst_bit dsp 6 in
  '(dsp, addr) ← loc dsp;
  '(dsp, value) ← dsp56k_read_memory dsp memspace addr;
  newaddr ← next_word dsp;
  jump_bit want call value newaddr dsp.
(** The target word first, then the operand. *)
Definition jbit_reg (want call : bool) dsp : result (dsp_core P) :=
  newaddr ← next_word dsp;
  let '(dsp, value) := read_reg dsp (inst_bits dsp 8 6) in
  jump_bit want call value newaddr dsp.

Definition emu_jclr_aa := jbit_mem false false loc_aa.
Definition emu_jclr_ea dsp : result (dsp_core P) :=
  newaddr ← next_word dsp;
  '(dsp, addr) ← loc_ea dsp;
  '(dsp, value) ← dsp56k_read_memory dsp (inst_bit dsp 6) addr;
  jump_bit false false value newaddr dsp.
Definition emu_jclr_pp := jbit_mem false false loc_pp.
Definition emu_jclr_reg := jbit_reg false false.
Definition emu_jset_mem := jbit_mem true false.
Definition emu_jset_aa := emu_jset_mem loc_aa.
Definition emu_jset_ea := emu_jset_mem loc_ea.
Definition emu_jset_pp := emu_jset_mem loc_pp.
Definition emu_jset_reg := jbit_reg true false.
Definition emu_jsclr_mem := jbit_mem false true.
Definition emu_jsclr_aa := emu_jsclr_mem loc_aa.
Definition emu_jsclr_ea := emu_jsclr_mem loc_ea.
Definition emu_jsclr_pp := emu_jsclr_mem loc_pp.
Definition emu_jsclr_reg := jbit_reg false true.
Definition emu_jsset_mem := jbit_mem true true.
Definition emu_jsset_aa := emu_jsset_mem loc_aa.
Definition emu_jsset_ea := emu_jsset_mem loc_ea.
Definition emu_jsset_pp := emu_jsset_mem loc_pp.
Definition emu_jsset_reg := jbit_reg true true.

(** ** Loops *)

Definition push_loop dsp : result (dsp_core P) :=
  dsp_stack_push dsp (getr dsp DSP_REG_LA) (getr dsp DSP_REG_LC) 0.
Definition enter_loop dsp : result (dsp_core P) :=
  dsp ← push_return dsp; Ok (sr_or (bit DSP_SR_LF) dsp).
(** The first half of the DO instructions. *)
Definition do_la dsp : result (dsp_core P) :=
  dsp ← push_loop dsp;
  la ← next_word dsp;
  Ok (add_len (setr DSP_REG_LA (Z.land la (BITMASK 16)) dsp)).
Definition set_lc (v : Z) dsp : dsp_core P := setr DSP_REG_LC v dsp.
Definition imm_count dsp : Z := inst_bits dsp 8 8 + Z.shiftl (Z.land (cur_inst dsp) (BITMASK 4)) 8.

Definition do_mem (loc : dsp_core P -> result (dsp_core P * Z)) dsp : result (dsp_core P) :=
  dsp ← do_la dsp;
  dsp ← enter_loop dsp;
  let memspace := inst_bit dsp 6 in
  '(dsp, addr) ← loc dsp;
  '(dsp, v) ← dsp56k_read_memory dsp memspace addr;
  Ok (add_cycles 4 (set_lc (Z.land v (BITMASK 16)) dsp)).
Definition emu_do_aa := do_mem loc_aa.
Definition emu_do_ea := do_mem loc_ea.
Definition emu_do_imm dsp : result (dsp_core P) :=
  dsp ← do_la dsp;
  dsp ← enter_loop dsp;
  Ok (add_cycles 4 (set_lc (imm_count dsp) dsp)).
Definition emu_do_reg dsp : result (dsp_core P) :=
  dsp ← do_la dsp;
  let '(dsp, v) := read_reg dsp (inst_bits dsp 8 6) in
  let dsp := set_lc (Z.land v (BITMASK 16)) dsp in
  dsp ← enter_loop dsp;
  Ok (add_cycles 4 dsp).

Definition dor_la dsp : result (dsp_core P) :=
  '(dsp, xxxx) ← long_word dsp;
  dsp ← push_loop dsp;
  let dsp := setr DSP_REG_LA (Z.land (u32 (pc dsp + xxxx)) (BITMASK 16)) dsp in
  enter_loop dsp.
Definition emu_dor_imm dsp : result (dsp_core P) :=
  dsp ← dor_la dsp;
  Ok (add_cycles 4 (set_lc (imm_count dsp) dsp)).
Definition emu_dor_reg dsp : result (dsp_core P) :=
  dsp ← dor_la dsp;
  let '(dsp, v) := read_reg dsp (inst_bits dsp 8 6) in
  Ok (add_cycles 4 (set_lc (Z.land v (BITMASK 16)) dsp)).

(** The same steps as at the end of a loop. *)
Definition emu_enddo dsp : result (dsp_core P) := leave_loop dsp.

Definition start_rep dsp : dsp_core P :=
  setr DSP_REG_LCSAVE (getr dsp DSP_REG_LC) dsp <| pc_on_rep := 1 |> <| loop_rep := 1 |>.
Definition rep_mem (loc : dsp_core P -> result (dsp_core P * Z)) dsp : result (dsp_core P) :=
  let dsp := start_rep dsp in
  '(dsp, addr) ← loc dsp;
  '(dsp, v) ← dsp56k_read_memory dsp (inst_bit dsp 6) addr;
  Ok (add_cycles 2 (set_lc v dsp)).
Definition emu_rep_aa := rep_mem loc_aa.
Definition emu_rep_ea := rep_mem loc_ea.
Definition emu_rep_imm dsp : result (dsp_core P) :=
  let dsp := start_rep dsp in Ok (add_cycles 2 (set_lc (imm_count dsp) dsp)).
Definition emu_rep_reg dsp : result (dsp_core P) :=
  let dsp := start_rep dsp in
  let '(dsp, v) := read_reg dsp (inst_bits dsp 8 6) in
  Ok (add_cycles 2 (set_lc (Z.land v (BITMASK 16)) dsp)).

(** ** Control *)

Definition emu_illegal dsp : result (dsp_core P) :=
  dsp ← dsp56k_add_interrupt dsp DSP_INTER_ILLEGAL;
  _ ← check (negb (exception_debugging dsp)) "Illegal dsp instruction - interrupt 0x003e raised";
  Ok dsp.
Definition emu_reset dsp : result (dsp_core P) := Ok (add_cycles 2 dsp).
Definition emu_rti dsp : result (dsp_core P) :=
  '(dsp, newpc, newsr) ← dsp_stack_pop dsp;
  let dsp := dsp <| pc := newpc |> in
  let dsp := setr DSP_REG_SR newsr dsp in
  Ok (add_cycles 2 (dsp <| cur_inst_len := 0 |>)).
Definition emu_rts dsp : result (dsp_core P) :=
  '(dsp, newpc, _) ← dsp_stack_pop dsp;
  Ok (add_cycles 2 (goto newpc dsp)).
Definition emu_stop dsp : result (dsp_core P) := Ok dsp.
Definition emu_wait dsp : result (dsp_core P) := Ok dsp.

(** ** Moves *)

Definition emu_lua dsp : result (dsp_core P) :=
  let srcreg := inst_bits dsp 8 3 in
  let srcsave := getr dsp (DSP_REG_R0 + srcreg) in
  '(dsp, _, _) ← emu_calc_ea dsp (inst_bits dsp 8 5);
  let srcnew := getr dsp (DSP_REG_R0 + srcreg) in
  let dsp := setr (DSP_REG_R0 + srcreg) srcsave dsp in
  let dstreg := Z.land (cur_inst dsp) (BITMASK 3) in
  let dsp := setr ((if inst_has dsp 3 then DSP_REG_N0 else DSP_REG_R0) + dstreg) srcnew dsp in
  Ok (add_cycles 2 dsp).
Definition emu_lua_rel dsp : result (dsp_core P) :=
  let aa := inst_bits dsp 4 4 + Z.shiftl (inst_bits dsp 11 3) 4 in
  let addrreg := inst_bits dsp 8 3 in
  let dstreg := Z.land (cur_inst dsp) (BITMASK 3) in
  x ← dsp_signextend 7 aa;
  let v := Z.land (u32 (getr dsp (DSP_REG_R0 + addrreg) + x)) (BITMASK 24) in
  let dsp := setr ((if inst_has dsp 3 then DSP_REG_N0 else DSP_REG_R0) + dstreg) v dsp in
  Ok (add_cycles 2 dsp).

(** [value &= BITMASK(registers_mask[numreg]); dsp_write_reg(dsp, numreg, value);] *)
Definition write_masked (numreg value : Z) dsp : result (dsp_core P) :=
  mask ← fetch registers_mask numreg;
  dsp_write_reg dsp numreg (Z.land value (BITMASK mask)).
(** A source that may be SSH, which pops the stack; without and with A and B limited. *)
Definition read_control dsp (numreg : Z) : result (dsp_core P * Z) :=
  if numreg =? DSP_REG_SSH then '(dsp, value, _) ← dsp_stack_pop dsp; Ok (dsp, value)
  else Ok (dsp, getr dsp numreg).
Definition read_any dsp (numreg : Z) : result (dsp_core P * Z) :=
  if numreg =? DSP_REG_SSH then '(dsp, value, _) ← dsp_stack_pop dsp; Ok (dsp, value)
  else Ok (read_reg dsp numreg).

Definition emu_movec_reg dsp : result (dsp_core P) :=
  let numreg2 := inst_bits dsp 8 6 in
  let numreg1 := Z.land (cur_inst dsp) (BITMASK 6) in
  if inst_has dsp 15 then
    let '(dsp, value) := read_reg dsp numreg2 in
    write_masked numreg1 value dsp
  else
    '(dsp, value) ← read_control dsp numreg1;
    let load d :=
      setr (DSP_REG_A2 + d) (sign_ext24 value)
        (setr (DSP_REG_A1 + d) (Z.land value (BITMASK 24)) (setr (DSP_REG_A0 + d) 0 dsp)) in
    if numreg2 =? DSP_REG_A then Ok (load 0)
    else if numreg2 =? DSP_REG_B then Ok (load 1)
    else mask ← fetch registers_mask numreg2; Ok (setr numreg2 (Z.land value (BITMASK mask)) dsp).

Definition emu_movec_aa dsp : result (dsp_core P) :=
  let numreg := Z.land (cur_inst dsp) (BITMASK 6) in
  let addr := inst_bits dsp 8 6 in
  let memspace := inst_bit dsp 6 in
  if inst_has dsp 15 then
    '(dsp, value) ← dsp56k_read_memory dsp memspace addr;
    write_masked numreg value dsp
  else
    '(dsp, value) ← read_control dsp numreg;
    dsp56k_write_memory dsp memspace addr value.
Definition emu_movec_imm dsp : result (dsp_core P) :=
  write_masked (Z.land (cur_inst dsp) (BITMASK 6)) (inst_bits dsp 8 8) dsp.
Definition emu_movec_ea dsp : result (dsp_core P) :=
  let numreg := Z.land (cur_inst dsp) (BITMASK 6) in
  let memspace := inst_bit dsp 6 in
  if inst_has dsp 15 then
    '(dsp, addr, retour) ← emu_calc_ea dsp (inst_bits dsp 8 6);
    '(dsp, value) ← (if (retour : bool) then Ok (dsp, addr) else dsp56k_read_memory dsp memspace addr);
    write_masked numreg value dsp
  else
    '(dsp, addr, _) ← emu_calc_ea dsp (inst_bits dsp 8 6);
    '(dsp, value) ← read_control dsp numreg;
    dsp56k_write_memory dsp memspace addr value.

Definition movem (addr : Z) dsp : result (dsp_core P) :=
  let numreg := Z.land (cur_inst dsp) (BITMASK 6) in
  dsp ←
    (if inst_has dsp 15 then
       value ← read_memory_p dsp addr; write_masked numreg value dsp
     else
       '(dsp, value) ← read_any dsp numreg; dsp56k_write_memory dsp DSP_SPACE_P addr value);
  Ok (add_cycles 4 dsp).
Definition emu_movem_aa dsp : result (dsp_core P) := movem (inst_bits dsp 8 6) dsp.
Definition emu_movem_ea dsp : result (dsp_core P) := '(dsp, addr) ← loc_ea dsp; movem addr dsp.

Definition emu_movep_0 dsp : result (dsp_core P) :=
  let addr := 0xffffc0 + Z.land (cur_inst dsp) (BITMASK 6) in
  let memspace := inst_bit dsp 16 in
  let numreg := inst_bits dsp 8 6 in
  dsp ←
    (if inst_has dsp 15 then
       '(dsp, value) ← read_any dsp numreg; dsp56k_write_memory dsp memspace addr value
     else
       '(dsp, value) ← dsp56k_read_memory dsp memspace addr; write_masked numreg value dsp);
  Ok (add_cycles 2 dsp).

Definition emu_movep_1 dsp : result (dsp_core P) :=
  let xyaddr := 0xffffc0 + Z.land (cur_inst dsp) (BITMASK 6) in
  '(dsp, paddr) ← loc_ea dsp;
  let memspace := inst_bit dsp 16 in
  dsp ←
    (if inst_has dsp 15 then
       v ← read_memory_p dsp paddr; dsp56k_write_memory dsp memspace xyaddr v
     else
       '(dsp, v) ← dsp56k_read_memory dsp memspace xyaddr; dsp56k_write_memory dsp DSP_SPACE_P paddr v);
  Ok (add_cycles 4 dsp).

(** Between an effective address and a peripheral. *)
Definition movep_ea (perspace peraddr : Z) dsp : result (dsp_core P) :=
  let easpace := inst_bit dsp 6 in
  '(dsp, addr, retour) ← emu_calc_ea dsp (inst_bits dsp 8 6);
  dsp ←
    (if inst_has dsp 15 then
       '(dsp, v) ← (if (retour : bool) then Ok (dsp, addr) else dsp56k_read_memory dsp easpace addr);
       dsp56k_write_memory dsp perspace peraddr v
     else
       '(dsp, v) ← dsp56k_read_memory dsp perspace peraddr;
       dsp56k_write_memory dsp easpace addr v);
  Ok (add_cycles 2 dsp).
Definition emu_movep_23 dsp : result (dsp_core P) :=
  movep_ea (inst_bit dsp 16) (0xffffc0 + Z.land (cur_inst dsp) (BITMASK 6)) dsp.
Definition emu_movep_x_qq dsp : result (dsp_core P) :=
  movep_ea DSP_SPACE_X (0xffff80 + Z.land (cur_inst dsp) (BITMASK 6)) dsp.

(** Between a register and a displaced address. *)
Definition move_disp (W space addr numreg : Z) dsp : result (dsp_core P) :=
  if W =? 0 then
    let '(dsp, value) := read_reg dsp numreg in dsp56k_write_memory dsp space addr value
  else
    '(dsp, v) ← dsp56k_read_memory dsp space addr; dsp_write_reg dsp numreg v.
Definition emu_move_x_long dsp : result (dsp_core P) :=
  '(dsp, xxxx) ← long_word dsp;
  let offreg := DSP_REG_R0 + inst_bits dsp 8 3 in
  move_disp (inst_bit dsp 6) DSP_SPACE_X (Z.land (u32 (getr dsp offreg + xxxx)) (BITMASK 24))
    (Z.land (cur_inst dsp) (BITMASK 6)) dsp.
Definition emu_move_xy_imm (space : Z) dsp : result (dsp_core P) :=
  let xxx := Z.shiftl (inst_bits dsp 11 6) 1 + inst_bit dsp 6 in
  let offreg := DSP_REG_R0 + inst_bits dsp 8 3 in
  x ← dsp_signextend 7 xxx;
  move_disp (inst_bit dsp 4) space (Z.land (u32 (getr dsp offreg + x)) (BITMASK 24))
    (Z.land (cur_inst dsp) (BITMASK 4)) dsp.
Definition emu_move_x_imm := emu_move_xy_imm DSP_SPACE_X.
Definition emu_move_y_imm := emu_move_xy_imm DSP_SPACE_Y.
End EmuOps.
