(* ===== verification/DspEmu.v ===== *)
(** * The instruction set of the DSP
    (src/xemu/hw/xbox/mcpx/apu/dsp/interp/dsp_cpu.c, dsp_emu.c.inc)

    The handlers of DspEmuAlu.v, DspEmuMove.v and DspEmuOps.v under the names of the
    opcode table, the execution of one instruction with them, and places where the
    source departs from the processor it emulates. *)

From S2P Require Import Prelude DspArith DspCore DspDecode DspEmuAlu DspEmuMove DspEmuOps.

Section Emu.
Context {P : Type} `{!DspPeripheral P}.
Implicit Types dsp : dsp_core P.

(** The function pointers of [nonparallel_opcodes]. *)
Definition emu_table : list (string * (dsp_core P -> result (dsp_core P))) :=
  [("emu_add_imm", emu_add_imm); ("emu_add_long", emu_add_long); ("emu_and_imm", emu_and_imm);
   ("emu_and_long", emu_and_long); ("emu_andi", emu_andi); ("emu_asl_imm", emu_asl_imm);
   ("emu_asr_imm", emu_asr_imm); ("emu_bcc_long", emu_bcc_long); ("emu_bcc_imm", emu_bcc_imm);
   ("emu_bchg_ea", emu_bchg_ea); ("emu_bchg_aa", emu_bchg_aa); ("emu_bchg_pp", emu_bchg_pp);
   ("emu_bchg_reg", emu_bchg_reg); ("emu_bclr_ea", emu_bclr_ea); ("emu_bclr_aa", emu_bclr_aa);
   ("emu_bclr_pp", emu_bclr_pp); ("emu_bclr_reg", emu_bclr_reg); ("emu_bra_long", emu_bra_long);
   ("emu_bra_imm", emu_bra_imm); ("emu_brclr_pp", emu_brclr_pp); ("emu_brclr_reg", emu_brclr_reg);
   ("emu_brset_pp", emu_brset_pp); ("emu_brset_reg", emu_brset_reg); ("emu_bset_ea", emu_bset_ea);
   ("emu_bset_aa", emu_bset_aa); ("emu_bset_pp", emu_bset_pp); ("emu_bset_reg", emu_bset_reg);
   ("emu_bsr_long", emu_bsr_long); ("emu_bsr_imm", emu_bsr_imm); ("emu_btst_ea", emu_btst_ea);
   ("emu_btst_aa", emu_btst_aa); ("emu_btst_pp", emu_btst_pp); ("emu_btst_reg", emu_btst_reg);
   ("emu_cmp_imm", emu_cmp_imm); ("emu_cmp_long", emu_cmp_long); ("emu_cmpu", emu_cmpu); ("emu_dec", emu_dec);
   ("emu_div", emu_div); ("emu_do_ea", emu_do_ea); ("emu_do_aa", emu_do_aa); ("emu_do_imm", emu_do_imm);
   ("emu_do_reg", emu_do_reg); ("emu_dor_imm", emu_dor_imm); ("emu_dor_reg", emu_dor_reg);
   ("emu_enddo", emu_enddo); ("emu_illegal", emu_illegal); ("emu_inc", emu_inc); ("emu_jcc_imm", emu_jcc_imm);
   ("emu_jcc_ea", emu_jcc_ea); ("emu_jclr_ea", emu_jclr_ea); ("emu_jclr_aa", emu_jclr_aa);
   ("emu_jclr_pp", emu_jclr_pp); ("emu_jclr_reg", emu_jclr_reg); ("emu_jmp_ea", emu_jmp_ea);
   ("emu_jmp_imm", emu_jmp_imm); ("emu_jscc_imm", emu_jscc_imm); ("emu_jscc_ea", emu_jscc_ea);
   ("emu_jsclr_ea", emu_jsclr_ea); ("emu_jsclr_aa", emu_jsclr_aa); ("emu_jsclr_pp", emu_jsclr_pp);
   ("emu_jsclr_reg", emu_jsclr_reg); ("emu_jset_ea", emu_jset_ea); ("emu_jset_aa", emu_jset_aa);
   ("emu_jset_pp", emu_jset_pp); ("emu_jset_reg", emu_jset_reg); ("emu_jsr_ea", emu_jsr_ea);
   ("emu_jsr_imm", emu_jsr_imm); ("emu_jsset_ea", emu_jsset_ea); ("emu_jsset_aa", emu_jsset_aa);
   ("emu_jsset_pp", emu_jsset_pp); ("emu_jsset_reg", emu_jsset_reg); ("emu_lsl_imm", emu_lsl_imm);
   ("emu_lua", emu_lua); ("emu_lua_rel", emu_lua_rel); ("emu_move_x_long", emu_move_x_long);
   ("emu_move_x_imm", emu_move_x_imm); ("emu_move_y_imm", emu_move_y_imm); ("emu_movec_ea", emu_movec_ea);
   ("emu_movec_aa", emu_movec_aa); ("emu_movec_reg", emu_movec_reg); ("emu_movec_imm", emu_movec_imm);
   ("emu_movem_ea", emu_movem_ea); ("emu_movem_aa", emu_movem_aa); ("emu_movep_23", emu_movep_23);
   ("emu_movep_x_qq", emu_movep_x_qq); ("emu_movep_1", emu_movep_1); ("emu_movep_0", emu_movep_0);
   ("emu_mpyi", emu_mpyi); ("emu_nop", emu_nop); ("emu_norm", emu_norm); ("emu_or_long", emu_or_long);
   ("emu_ori", emu_ori); ("emu_rep_ea", emu_rep_ea); ("emu_rep_aa", emu_rep_aa); ("emu_rep_imm", emu_rep_imm);
   ("emu_rep_reg", emu_rep_reg); ("emu_reset", emu_reset); ("emu_rti", emu_rti); ("emu_rts", emu_rts);
   ("emu_stop", emu_stop); ("emu_sub_imm", emu_sub_imm); ("emu_sub_long", emu_sub_long); ("emu_tcc", emu_tcc);
   ("emu_wait", emu_wait)].

Definition emu (name : string) dsp : result (dsp_core P) :=
  match find (fun e => String.eqb (fst e) name) emu_table with
  | Some (_, f) => f dsp
  | None => Fault NullPointer
  end.

Definition execute_instruction : opcache -> dsp_core P -> result (opcache * dsp_core P) :=
  dsp56k_execute_instruction emu emu_undefined run_parmove.
Definition execute_slow : dsp_core P -> result (dsp_core P) :=
  execute_uncached emu emu_undefined run_parmove.
End Emu.

(** ** Departures from the processor *)

(** The field of an absolute short address is checked as if it held an addressing mode:
    JSET, JSCLR, MOVEC and MOVEM with an address 0x31 to 0x37, 0x34 apart, are not decoded. *)
Lemma absolute_operands_rejected :
  forallb (fun a => forallb (fun op =>
      match lookup_opcode_slow (op + Z.shiftl a 8) with Ok _ => false | Fault _ => true end)
    [0x0a00a0; 0x0b0080; 0x050020; 0x070000]) [0x31; 0x32; 0x33; 0x35; 0x36; 0x37] = true /\
  forallb (fun a => forallb (fun op =>
      match lookup_opcode_slow (op + Z.shiftl a 8) with Ok _ => true | Fault _ => false end)
    [0x0a00a0; 0x0b0080; 0x050020; 0x070000]) [0x2f; 0x30; 0x34; 0x38] = true.
Proof. split; vm_compute; reflexivity. Qed.

(** MAX gives B the limbs of A in reverse order, and does so when A is the smaller. *)
Lemma max_swaps_limbs :
  let dsp := setr DSP_REG_A0 1 (setr DSP_REG_A1 2 (setr DSP_REG_A2 0 (setr DSP_REG_B1 3 core0))) in
  (d ← emu_max dsp; Ok (get_acc d 1)) = Ok {| a2 := 1; a1 := 2; a0 := 0 |}.
Proof. vm_compute. reflexivity. Qed.

(** MACR +X1,Y0,B does not round; its sibling for A does. *)
Lemma macr_p_x1_y0_b_unrounded :
  let dsp := setr DSP_REG_B0 0xc00000 (setr DSP_REG_A0 0xc00000 core0) in
  (d ← emu_macr_p_x1_y0_b dsp; Ok (get_acc d 1)) = Ok {| a2 := 0; a1 := 0; a0 := 0xc00000 |} /\
  (d ← emu_macr SIGN_PLUS DSP_REG_X1 DSP_REG_Y0 0 dsp; Ok (get_acc d 0)) = Ok {| a2 := 0; a1 := 1; a0 := 0 |}.
Proof. split; vm_compute; reflexivity. Qed.

(** CMP with a long operand takes a negative operand for a large positive one, where
    SUB extends its sign. *)
Lemma cmp_long_unsigned :
  let dsp := core0 <| cur_inst := 0x0140c5 |> <| cur_inst_len := 1 |> <| pram := wr 1 0xffffff ∅ |> in
  (d ← emu_cmp_long dsp; Ok (bit_of (getr d DSP_REG_SR) DSP_SR_N)) = Ok 1 /\
  (d ← emu_sub_long dsp; Ok (bit_of (getr d DSP_REG_SR) DSP_SR_N)) = Ok 0.
Proof. split; vm_compute; reflexivity. Qed.
