(* ===== verification/DspFir.v ===== *)
(** * A dot product on the DSP
    (src/xemu/hw/xbox/mcpx/apu/dsp/interp/dsp_cpu.c, dsp_emu.c.inc)

    The inner loop of every filter: REP #n, then MAC Y0,X0,A X:(R0)+,X0 Y:(R4)+,Y0.
    Decoding, the repeat counter, the two parallel moves, linear addressing and the
    56-bit multiply-accumulate together compute the exact sum of products. *)

From S2P Require Import Prelude DspArith DspCore DspDecode DspEmuAlu DspEmuMove DspEmuOps DspEmu.

Section Fir.
Context {P : Type} `{!DspPeripheral P}.
Implicit Types dsp d : dsp_core P.

(** [n] instructions, one after the other. *)
Fixpoint execs (n : nat) (cache : opcache) dsp : result (opcache * dsp_core P) :=
  match n with
  | O => Ok (cache, dsp)
  | S n => '(cache, dsp) ← execute_instruction cache dsp; execs n cache dsp
  end.

(** REP #n (n below 4096) and the MAC with its two moves. *)
Definition REP_imm (n : Z) : Z := 0x0600a0 + n mod 256 * 256 + n / 256.
Definition MAC_y0_x0_a : Z := 0xf098d2.

(** The sum of products: the first pair is in X0 and Y0, the others in memory. *)
Fixpoint dot (n : nat) (x y : Z) (r0 r4 : Z) (xm ym : mem) : Z :=
  match n with
  | O => 0
  | S n => 2 * (signed 24 x * signed 24 y) + dot n (rd xm r0) (rd ym r4) (r0 + 1) (r4 + 1) xm ym
  end.

(** Registers and memories are in range, nothing interrupts, no DO loop is active, and
    R0 and R4 walk linearly through [n] words of X and Y memory. *)
Record fir_ready (n : Z) dsp : Prop := {
  fr_pc : 0 <= pc dsp <= DSP_PRAM_SIZE;
  fr_acc : acc_wf (get_acc dsp 0);
  fr_x0 : 0 <= getr dsp DSP_REG_X0 < 2 ^ 24;
  fr_y0 : 0 <= getr dsp DSP_REG_Y0 < 2 ^ 24;
  fr_xram a : 0 <= rd (xram dsp) a < 2 ^ 24;
  fr_yram a : 0 <= rd (yram dsp) a < 2 ^ 24;
  fr_r0 : 0 <= getr dsp DSP_REG_R0 /\ getr dsp DSP_REG_R0 + n <= 0xc00;
  fr_r4 : 0 <= getr dsp (DSP_REG_R0 + 4) /\ getr dsp (DSP_REG_R0 + 4) + n <= 0x800;
  fr_m0 : getr dsp DSP_REG_M0 = 0xffff;
  fr_m4 : getr dsp (DSP_REG_M0 + 4) = 0xffff;
  fr_sr : is_u16 (getr dsp DSP_REG_SR) /\ Z.testbit (getr dsp DSP_REG_SR) DSP_SR_LF = false;
  fr_irq : interrupt_state dsp = DSP_INTERRUPT_NONE /\ interrupt_counter dsp = 0;
}.

(** ** The flags *)

Lemma setr_setr r v w dsp : setr r v (setr r w dsp) = setr r v dsp.
Proof. unfold setr, setf. cbn. f_equal. apply insert_insert_eq. Qed.

(** [d] differs from [dsp] in the flags only, and the loop flag is as it was. *)
Record flags_only dsp d : Prop := {
  fo_eq v : setr DSP_REG_SR v d = setr DSP_REG_SR v dsp;
  fo_sr : is_u16 (getr d DSP_REG_SR);
  fo_lf : Z.testbit (getr d DSP_REG_SR) DSP_SR_LF = Z.testbit (getr dsp DSP_REG_SR) DSP_SR_LF;
}.

Lemma flags_refl dsp : is_u16 (getr dsp DSP_REG_SR) -> flags_only dsp dsp.
Proof. by constructor. Qed.
Lemma flags_set dsp d v : flags_only dsp d -> is_u16 v ->
  Z.testbit v DSP_SR_LF = Z.testbit (getr dsp DSP_REG_SR) DSP_SR_LF -> flags_only dsp (setr DSP_REG_SR v d).
Proof.
  intros [Heq _ _] Hv Hb. constructor; [intros w; by rewrite setr_setr|by rewrite getr_setr_eq..].
Qed.
Lemma flags_clear m dsp d : flags_only dsp d -> Z.testbit (BITMASK 16 - m) DSP_SR_LF = true ->
  flags_only dsp (sr_clear m d).
Proof.
  intros Hd Hm. apply flags_set; [done|apply (land_range _ _ 16); [done|apply Hd]|].
  by rewrite Z.land_spec, Hm, andb_true_r, (fo_lf _ _ Hd).
Qed.
Lemma flags_or v dsp d : flags_only dsp d -> 0 <= v < 2 ^ 15 -> flags_only dsp (sr_or v d).
Proof.
  intros Hd Hv. pose proof (fo_sr _ _ Hd) as Hsr. apply flags_set; [done| |].
  - unfold is_u16 in *. split; [apply Z.lor_nonneg; lia|].
    apply Z.log2_lt_cancel. rewrite Z.log2_lor by lia. apply Z.max_lub_lt; change (Z.log2 (2 ^ 16)) with 16.
    + destruct (Z.eq_dec (getr d DSP_REG_SR) 0) as [->|]; [done|apply Z.log2_lt_pow2; lia].
    + destruct (Z.eq_dec v 0) as [->|]; [done|apply Z.log2_lt_pow2; lia].
  - by rewrite Z.lor_spec, (testbit_above v 15), orb_false_r, (fo_lf _ _ Hd) by done.
Qed.
Lemma flags_if (b : bool) dsp d d' : flags_only dsp d -> flags_only dsp d' -> flags_only dsp (if b then d else d').
Proof. by destruct b. Qed.
Lemma land_8_small x : 0 <= Z.land x 0x8 < 2 ^ 15.
Proof. rewrite Z.land_comm. by apply (land_range 8 x 15). Qed.

Lemma flags_ccr_update v dsp d : flags_only dsp d -> flags_only dsp (ccr_update v d).
Proof.
  intros Hd. unfold ccr_update, emu_ccr_update_e_u_n_z, ccr_e, ccr_u.
  repeat first [apply flags_if | by apply flags_clear | apply flags_or; [|first [done|apply land_8_small]]]; done.
Qed.
Lemma flags_finish_mac dsp v sr : is_u16 (getr dsp DSP_REG_SR) ->
  flags_only (set_acc 0 v dsp) (finish_mac 0 v sr dsp).
Proof.
  intros Hsr. apply flags_or; [apply flags_clear; [|done]|rewrite Z.land_comm; by apply (land_range _ _ 15)].
  apply flags_ccr_update, flags_refl. unfold set_acc. by rewrite !getr_setr_ne by done.
Qed.

(** The registers and the other fields are the same. *)
Lemma flags_getr dsp d r : flags_only dsp d -> r <> DSP_REG_SR -> getr d r = getr dsp r.
Proof.
  intros Hd Hr. rewrite <- (getr_setr_ne DSP_REG_SR r 0 d), <- (getr_setr_ne DSP_REG_SR r 0 dsp) by done.
  by rewrite (fo_eq _ _ Hd).
Qed.
Lemma flags_field {A} (f : dsp_core P -> A) dsp d : flags_only dsp d ->
  (forall v x, f (setr DSP_REG_SR v x) = f x) -> f d = f dsp.
Proof. intros Hd Hf. by rewrite <- (Hf 0 d), (fo_eq _ _ Hd). Qed.

(** ** One multiply-accumulate *)

(** The address in R0 or R4, then one more. *)
Lemma ea_postinc k dsp : k = 0 \/ k = 4 -> getr dsp (DSP_REG_M0 + k) = 0xffff ->
  0 <= getr dsp (DSP_REG_R0 + k) < 0x7fff ->
  emu_calc_ea dsp (0x18 + k) =
    Ok (setr (DSP_REG_R0 + k) (getr dsp (DSP_REG_R0 + k) + 1) dsp, getr dsp (DSP_REG_R0 + k), false).
Proof.
  intros Hk HM HR. unfold emu_calc_ea.
  assert (Z.land (Z.shiftr (0x18 + k) 3) (BITMASK 3) = 3 /\ Z.land (0x18 + k) (BITMASK 3) = k) as [-> ->]
    by (destruct Hk as [-> | ->]; done).
  cbn [Z.eqb Pos.eqb]. unfold emu_update_rn. rewrite HM. cbn [mbind result_mbind result_bind].
  change (u16 65535 =? 65535) with true. cbn [mbind result_mbind result_bind].
  rewrite (s16_id (getr dsp _)), s16_id, u32_id, land_BITMASK, Z.mod_small by (unfold is_u32; lia). done.
Qed.
Lemma ea_r0 dsp : getr dsp DSP_REG_M0 = 0xffff -> 0 <= getr dsp DSP_REG_R0 < 0x7fff ->
  emu_calc_ea dsp 0x18 = Ok (setr DSP_REG_R0 (getr dsp DSP_REG_R0 + 1) dsp, getr dsp DSP_REG_R0, false).
Proof. intros HM HR. by apply (ea_postinc 0); [left|..]. Qed.
Lemma ea_r4 dsp : getr dsp (DSP_REG_M0 + 4) = 0xffff -> 0 <= getr dsp (DSP_REG_R0 + 4) < 0x7fff ->
  emu_calc_ea dsp 0x1c = Ok (setr (DSP_REG_R0 + 4) (getr dsp (DSP_REG_R0 + 4) + 1) dsp,
                             getr dsp (DSP_REG_R0 + 4), false).
Proof. intros HM HR. by apply (ea_postinc 4); [right|..]. Qed.
Lemma read_x dsp a : 0 <= a < 0xc00 -> dsp56k_read_memory dsp DSP_SPACE_X a = Ok (dsp, rd (xram dsp) a).
Proof.
  intros Ha. unfold dsp56k_read_memory, in_mixbuffer.
  assert ((Z.land a 0xFF000000 =? 0) = true) as ->.
  { apply Z.eqb_eq. rewrite (land_high a 24 8 ltac:(done) ltac:(done) : Z.land a 0xFF000000 = _).
    by rewrite Z.div_small by lia. }
  cbn [check mbind result_mbind result_bind]. change (DSP_SPACE_X =? DSP_SPACE_X) with true.
  rewrite (proj2 (Z.leb_gt DSP_PERIPH_BASE a)), (proj2 (Z.leb_gt DSP_MIXBUFFER_BASE a)), (proj2 (Z.leb_gt 0xc00 a)),
    (proj2 (Z.ltb_lt a DSP_XRAM_SIZE)) by (unfold DSP_PERIPH_BASE, DSP_MIXBUFFER_BASE, DSP_XRAM_SIZE; lia). done.
Qed.
Lemma read_y dsp a : 0 <= a < 0x800 -> dsp56k_read_memory dsp DSP_SPACE_Y a = Ok (dsp, rd (yram dsp) a).
Proof.
  intros Ha. unfold dsp56k_read_memory.
  assert ((Z.land a 0xFF000000 =? 0) = true) as ->.
  { apply Z.eqb_eq. rewrite (land_high a 24 8 ltac:(done) ltac:(done) : Z.land a 0xFF000000 = _).
    by rewrite Z.div_small by lia. }
  cbn [check mbind result_mbind result_bind]. change (DSP_SPACE_Y =? DSP_SPACE_X) with false.
  change (DSP_SPACE_Y =? DSP_SPACE_Y) with true.
  by rewrite (proj2 (Z.ltb_lt a DSP_YRAM_SIZE)) by (unfold DSP_YRAM_SIZE; lia).
Qed.

(** The multiply-accumulate itself. *)
Lemma mac_run dsp : acc_wf (get_acc dsp 0) -> 0 <= getr dsp DSP_REG_X0 < 2 ^ 24 ->
  0 <= getr dsp DSP_REG_Y0 < 2 ^ 24 -> is_u16 (getr dsp DSP_REG_SR) ->
  exists v d, emu_mac SIGN_PLUS DSP_REG_Y0 DSP_REG_X0 0 dsp = Ok d /\ flags_only (set_acc 0 v dsp) d /\ acc_wf v /\
    val56 v = (val56 (get_acc dsp 0)
               + 2 * (signed 24 (getr dsp DSP_REG_X0) * signed 24 (getr dsp DSP_REG_Y0))) mod 2 ^ 56.
Proof.
  intros Ha Hx Hy Hsr. unfold emu_mac.
  destruct (mul56_run _ _ 0 Hy Hx) as (p & Hp & Hwf & Hv); [by left|].
  change SIGN_PLUS with 0. rewrite Hp. cbn [mbind result_mbind result_bind].
  pose proof (add56_spec p (get_acc dsp 0) Hwf Ha) as Hadd.
  destruct (dsp_add56 p (get_acc dsp 0)) as [r sr]. destruct Hadd as (Hr & Hrv & _).
  exists r, (finish_mac 0 r sr dsp). split; [done|]. split; [by apply flags_finish_mac|]. split; [done|].
  rewrite Hrv. destruct (sval_cases p Hwf) as [Hrange Hcases].
  replace (2 * _) with (sval56 p) by lia.
  destruct Hcases as [(_ & _ & ->)|(_ & _ & ->)]; [f_equal; lia|].
  rewrite <- (Z.mod_add (val56 (get_acc dsp 0) + (val56 p - 2 ^ 56)) 1 (2 ^ 56)) by done. f_equal. lia.
Qed.

(** The state at the start of the instruction, with it fetched. *)
Definition fetched (inst : Z) dsp : dsp_core P :=
  dsp <| cur_inst := inst |> <| cur_inst_len := 1 |> <| instr_cycle := 2 |>.
(** After both address updates. *)
Definition stepped dsp : dsp_core P :=
  setr (DSP_REG_R0 + 4) (getr dsp (DSP_REG_R0 + 4) + 1) (setr DSP_REG_R0 (getr dsp DSP_REG_R0 + 1) dsp).

Lemma mac_pm_run n dsp : fir_ready n dsp -> 1 <= n ->
  exists v d, run_parmove 15 (fetched MAC_y0_x0_a dsp) =
      Ok (setr DSP_REG_Y0 (rd (yram dsp) (getr dsp (DSP_REG_R0 + 4)))
            (setr DSP_REG_X0 (rd (xram dsp) (getr dsp DSP_REG_R0)) d)) /\
    flags_only (set_acc 0 v (stepped (fetched MAC_y0_x0_a dsp))) d /\ acc_wf v /\
    val56 v = (val56 (get_acc dsp 0)
               + 2 * (signed 24 (getr dsp DSP_REG_X0) * signed 24 (getr dsp DSP_REG_Y0))) mod 2 ^ 56.
Proof.
  intros [] Hn. set (d1 := fetched MAC_y0_x0_a dsp).
  assert (forall r, getr d1 r = getr dsp r) as Hd1 by done.
  change (run_parmove 15 d1) with (emu_pm_8 d1). unfold emu_pm_8.
  change (inst_bits d1 8 5) with 0x18. cbn zeta. change (Z.shiftr 0x18 3 =? 0) with false. cbn iota.
  match goal with |- context [if negb (has 0x18 (bit 2)) then ?a else ?b] =>
    change (if negb (has 0x18 (bit 2)) then a else b) with 0x1c end.
  change (Z.shiftr 0x1c 3 =? 0) with false. cbn iota.
  rewrite ea_r0 by (rewrite Hd1; lia). cbn [mbind result_mbind result_bind].
  rewrite ea_r4 by (rewrite !getr_setr_ne, !Hd1 by done; lia). cbn [mbind result_mbind result_bind].
  rewrite getr_setr_ne by done. fold (stepped d1). set (d2 := stepped d1).
  match goal with |- context [if inst_has d2 15 then ?a else ?b] => change (if inst_has d2 15 then a else b) with a end.
  rewrite read_x by (rewrite Hd1; lia). cbn [mbind result_mbind result_bind].
  match goal with |- context [if inst_has d2 22 then ?a else ?b] => change (if inst_has d2 22 then a else b) with a end.
  rewrite read_y by (rewrite Hd1; lia). cbn [mbind result_mbind result_bind].
  change (run_alu d2) with (emu_mac SIGN_PLUS DSP_REG_Y0 DSP_REG_X0 0 d2).
  assert (forall r, r <> DSP_REG_R0 -> r <> DSP_REG_R0 + 4 -> getr d2 r = getr dsp r) as Hd2.
  { intros r Hr Hr'. subst d2. unfold stepped. by rewrite !getr_setr_ne by done. }
  assert (get_acc d2 0 = get_acc dsp 0) as Hacc by (unfold get_acc; by rewrite !Hd2).
  destruct (mac_run d2) as (v & d & -> & Hf & Hv & Hval); rewrite ?Hacc, ?Hd2 by done; [done|done|done|apply fr_sr0|].
  cbn [mbind result_mbind result_bind].
  assert (cur_inst d = MAC_y0_x0_a) as Hci by (by rewrite (flags_field cur_inst _ _ Hf)).
  exists v, d. unfold inst_has. rewrite Hci.
  match goal with |- context [if has MAC_y0_x0_a (bit 15) then Ok ?a else ?b] =>
    change (if has MAC_y0_x0_a (bit 15) then Ok a else b) with (Ok (A := dsp_core P) a);
    change (inst_bits d2 18 2) with 0 end.
  cbn [mbind result_mbind result_bind].
  change (cur_inst (write_reg_raw (reg_x 0) _ d)) with (cur_inst d). rewrite Hci.
  split; [reflexivity|]. split; [done|]. split; [done|]. by rewrite Hval, Hacc, !Hd2.
Qed.

(** ** The repeated instruction *)

(** What does not take part in the loop is as it was. *)
Record same_rest dsp d : Prop := {
  sr_xram : xram d = xram dsp;
  sr_yram : yram d = yram dsp;
  sr_pram : pram d = pram dsp;
  sr_save : getr d DSP_REG_LCSAVE = getr dsp DSP_REG_LCSAVE;
}.
Lemma same_refl dsp : same_rest dsp dsp.
Proof. done. Qed.
Lemma same_trans dsp d d' : same_rest dsp d -> same_rest d d' -> same_rest dsp d'.
Proof. intros [] []. constructor; congruence. Qed.

(** The registers of the sum, the operands and the pointers after one step. *)
Record fir_step (n : Z) dsp d : Prop := {
  fs_ready : fir_ready (n - 1) d;
  fs_acc : val56 (get_acc d 0) = (val56 (get_acc dsp 0)
    + 2 * (signed 24 (getr dsp DSP_REG_X0) * signed 24 (getr dsp DSP_REG_Y0))) mod 2 ^ 56;
  fs_x0 : getr d DSP_REG_X0 = rd (xram dsp) (getr dsp DSP_REG_R0);
  fs_y0 : getr d DSP_REG_Y0 = rd (yram dsp) (getr dsp (DSP_REG_R0 + 4));
  fs_r0 : getr d DSP_REG_R0 = getr dsp DSP_REG_R0 + 1;
  fs_r4 : getr d (DSP_REG_R0 + 4) = getr dsp (DSP_REG_R0 + 4) + 1;
  fs_same : same_rest dsp d;
}.

Ltac regs := repeat first [rewrite getr_setr_eq | rewrite getr_setr_ne by done].

Lemma moved_step n dsp v d : fir_ready n dsp -> 1 <= n ->
  flags_only (set_acc 0 v (stepped (fetched MAC_y0_x0_a dsp))) d -> acc_wf v ->
  val56 v = (val56 (get_acc dsp 0)
    + 2 * (signed 24 (getr dsp DSP_REG_X0) * signed 24 (getr dsp DSP_REG_Y0))) mod 2 ^ 56 ->
  fir_step n dsp (setr DSP_REG_Y0 (rd (yram dsp) (getr dsp (DSP_REG_R0 + 4)))
                    (setr DSP_REG_X0 (rd (xram dsp) (getr dsp DSP_REG_R0)) d)).
Proof.
  intros HR Hn Hf Hv Hval. set (d5 := setr DSP_REG_Y0 _ _).
  assert (forall r, r <> DSP_REG_SR -> r <> DSP_REG_X0 -> r <> DSP_REG_Y0 ->
    getr d5 r = getr (set_acc 0 v (stepped (fetched MAC_y0_x0_a dsp))) r) as Hg.
  { intros r H1 H2 H3. subst d5. rewrite !getr_setr_ne by done. by apply (flags_getr _ _ _ Hf). }
  assert (get_acc d5 0 = v) as Ha.
  { unfold get_acc. rewrite !Hg by done. unfold set_acc. regs. by destruct v. }
  assert (getr d5 DSP_REG_R0 = getr dsp DSP_REG_R0 + 1) as H0.
  { rewrite Hg by done. unfold set_acc, stepped. by regs. }
  assert (getr d5 (DSP_REG_R0 + 4) = getr dsp (DSP_REG_R0 + 4) + 1) as H4.
  { rewrite Hg by done. unfold set_acc, stepped. by regs. }
  assert (getr d5 DSP_REG_SR = getr d DSP_REG_SR) as Hsr by (subst d5; by regs).
  assert (getr (set_acc 0 v (stepped (fetched MAC_y0_x0_a dsp))) DSP_REG_SR = getr dsp DSP_REG_SR) as Hsr0
    by (unfold set_acc, stepped; by regs).
  assert (getr d5 DSP_REG_M0 = getr dsp DSP_REG_M0 /\ getr d5 (DSP_REG_M0 + 4) = getr dsp (DSP_REG_M0 + 4))
    as [Hm0 Hm4] by (rewrite !Hg by done; unfold set_acc, stepped; by regs).
  pose proof (flags_field xram _ _ Hf ltac:(done)) as Hx. pose proof (flags_field yram _ _ Hf ltac:(done)) as Hy.
  destruct HR. constructor; [|by rewrite Ha|subst d5; by regs|subst d5; by regs|done|done|].
  - constructor; rewrite ?Ha, ?H0, ?H4, ?Hm0, ?Hm4, ?Hsr; try done; try lia.
    + change (pc d5) with (pc d). by rewrite (flags_field pc _ _ Hf).
    + subst d5. regs. apply fr_xram0.
    + subst d5. regs. apply fr_yram0.
    + change (xram d5) with (xram d). by rewrite Hx.
    + change (yram d5) with (yram d). by rewrite Hy.
    + split; [apply Hf|]. rewrite (fo_lf _ _ Hf), Hsr0. apply fr_sr0.
    + change (interrupt_state d5) with (interrupt_state d). change (interrupt_counter d5) with (interrupt_counter d).
      by rewrite (flags_field interrupt_state _ _ Hf), (flags_field interrupt_counter _ _ Hf).
  - constructor; [done|done| |rewrite Hg by done; unfold set_acc, stepped; by regs].
    change (pram d5) with (pram d). by rewrite (flags_field pram _ _ Hf).
Qed.

(** The end of a round of the repeat: the counter goes down, and the PC stays until it
    reaches 0. *)
Definition rep_next (n : Z) dsp d : Prop :=
  if n =? 1 then loop_rep d = 0 /\ pc d = pc dsp + 1 /\ getr d DSP_REG_LC = getr dsp DSP_REG_LCSAVE
  else loop_rep d = 1 /\ pc_on_rep d = 0 /\ pc d = pc dsp /\ getr d DSP_REG_LC = n - 1.

(** Changes of the loop counter and of fields outside the computation. *)
Lemma step_frame n dsp d d' : fir_step n dsp d ->
  (forall r, r <> DSP_REG_LC -> getr d' r = getr d r) ->
  xram d' = xram d -> yram d' = yram d -> pram d' = pram d ->
  interrupt_state d' = interrupt_state d -> interrupt_counter d' = interrupt_counter d ->
  0 <= pc d' <= DSP_PRAM_SIZE -> fir_step n dsp d'.
Proof.
  intros [[] ? ? ? ? ? []] Hg Hx Hy Hp Hs Hc Hpc.
  assert (get_acc d' 0 = get_acc d 0) as Ha by (unfold get_acc; by rewrite !Hg).
  constructor; rewrite ?Ha, ?Hg by done; try done; [|constructor; rewrite ?Hg by done; congruence].
  constructor; rewrite ?Ha, ?Hg, ?Hx, ?Hy, ?Hs, ?Hc by done; done.
Qed.

Lemma read_p_ok dsp a v : 0 <= a < DSP_PRAM_SIZE -> rd (pram dsp) a = v -> 0 <= v < 2 ^ 24 -> read_memory_p dsp a = Ok v.
Proof.
  intros Ha <- Hv. unfold read_memory_p.
  assert (forall x, 0 <= x < 2 ^ 24 -> (Z.land x 0xFF000000 =? 0) = true) as Htop.
  { intros x Hx. apply Z.eqb_eq. rewrite (land_high x 24 8 ltac:(done) ltac:(done) : Z.land x 0xFF000000 = _).
    by rewrite Z.div_small by lia. }
  unfold DSP_PRAM_SIZE in *. rewrite !Htop, (proj2 (Z.ltb_lt a 4096)) by lia. done.
Qed.

Lemma interrupts_idle d : interrupt_state d = DSP_INTERRUPT_NONE -> interrupt_counter d = 0 ->
  dsp_postexecute_interrupts d = Ok d.
Proof.
  intros Hs Hc. unfold dsp_postexecute_interrupts, start_interrupt. rewrite Hs, Hc. by case_match.
Qed.

Lemma update_do_none d : Z.testbit (getr d DSP_REG_SR) DSP_SR_LF = false -> update_do d = Ok d.
Proof. intros H. unfold update_do. by rewrite has_bit, H by done. Qed.

Lemma rep_post n dsp d : fir_step n dsp d -> 1 <= n < 2 ^ 16 -> pc dsp < DSP_PRAM_SIZE ->
  loop_rep d = 1 -> pc_on_rep d = 0 -> pc d = pc dsp -> cur_inst_len d = 1 -> getr d DSP_REG_LC = n ->
  exists d1, dsp_postexecute_update_pc d = Ok d1 /\ dsp_postexecute_interrupts d1 = Ok d1 /\
    fir_step n dsp d1 /\ rep_next n dsp d1.
Proof.
  intros Hstep Hn Hpc Hrep Hon Hpcd Hlen Hlc. pose proof (fs_ready _ _ _ Hstep) as [].
  pose proof (sr_save _ _ (fs_same _ _ _ Hstep)) as Hsave.
  assert (Z.land (u32 (getr d DSP_REG_LC - 1)) (BITMASK 16) = n - 1) as Hlc1.
  { rewrite Hlc, u32_id, land_BITMASK by (unfold is_u32; lia). apply Z.mod_small. lia. }
  unfold dsp_postexecute_update_pc, update_rep. rewrite Hrep, Hon, Hlc1. cbn [Z.eqb negb]. rewrite getr_setr_eq.
  unfold rep_next. destruct (Z.eqb_spec n 1) as [->|Hne].
  - change (0 <? 1 - 1) with false. cbn iota.
    set (d1 := setr DSP_REG_LC _ _).
    assert (forall r, r <> DSP_REG_LC -> getr d1 r = getr d r) as Hg.
    { intros r Hr. subst d1. regs. change (getr (_ <| loop_rep := 0 |>) r) with (getr (setr DSP_REG_LC (1 - 1) d) r). by regs. }
    set (d2 := d1 <| pc ::= _ |>).
    assert (pc d2 = pc dsp + 1) as Hpc2.
    { change (pc d2) with (u32 (pc d + cur_inst_len d)). rewrite Hpcd, Hlen, u32_id; [done|].
      rewrite Hpcd in *. unfold is_u32, DSP_PRAM_SIZE in *. lia. }
    rewrite update_do_none by (change (getr d2 DSP_REG_SR) with (getr d1 DSP_REG_SR); rewrite Hg by done; apply fr_sr0).
    exists d2. split; [done|]. split; [apply interrupts_idle; apply fr_irq0|]. split.
    + apply (step_frame 1 dsp d); try done. rewrite Hpc2. rewrite Hpcd in *. lia.
    + split; [done|]. split; [done|]. change (getr d2 DSP_REG_LC) with (getr d1 DSP_REG_LC).
      subst d1. rewrite getr_setr_eq.
      change (getr (setr DSP_REG_LC (1 - 1) d) DSP_REG_LCSAVE = getr dsp DSP_REG_LCSAVE). by regs.
  - rewrite (proj2 (Z.ltb_lt 0 (n - 1))) by lia.
    set (d2 := (setr DSP_REG_LC (n - 1) d <| cur_inst_len := 0 |>) <| pc ::= _ |>).
    assert (forall r, getr d2 r = getr (setr DSP_REG_LC (n - 1) d) r) as Hg by done.
    assert (pc d2 = pc dsp) as Hpc2.
    { change (pc d2) with (u32 (pc d + 0)). rewrite Hpcd, Z.add_0_r, u32_id; [done|].
      rewrite Hpcd in *. unfold is_u32, DSP_PRAM_SIZE in *. lia. }
    rewrite update_do_none by (rewrite Hg; regs; apply fr_sr0).
    exists d2. split; [done|]. split; [apply interrupts_idle; apply fr_irq0|]. split.
    + apply (step_frame n dsp d); try done; [intros r Hr; rewrite Hg; by regs|]. rewrite Hpc2. rewrite Hpcd in *. lia.
    + split; [done|]. split; [done|]. split; [done|]. rewrite Hg. by regs.
Qed.

Lemma mac_exec n cache dsp : fir_ready n dsp -> 1 <= n < 2 ^ 16 -> pc dsp < DSP_PRAM_SIZE ->
  rd (pram dsp) (pc dsp) = MAC_y0_x0_a -> loop_rep dsp = 1 -> pc_on_rep dsp = 0 -> getr dsp DSP_REG_LC = n ->
  exists d, execute_instruction cache dsp = Ok (cache, d) /\ fir_step n dsp d /\ rep_next n dsp d.
Proof.
  intros HR Hn Hpc Hinst Hrep Hon Hlc. unfold execute_instruction, dsp56k_execute_instruction.
  rewrite (read_p_ok dsp (pc dsp) MAC_y0_x0_a); [|pose proof (fr_pc _ _ HR); lia|done|done].
  cbn [mbind result_mbind result_bind]. fold (fetched MAC_y0_x0_a dsp).
  change (cur_inst (fetched MAC_y0_x0_a dsp)) with MAC_y0_x0_a. change (MAC_y0_x0_a <? 0x100000) with false. cbn iota.
  change (Z.land (Z.shiftr MAC_y0_x0_a 20) (BITMASK 4)) with 15.
  destruct (mac_pm_run n dsp HR) as (v & d & -> & Hf & Hv & Hval); [lia|].
  cbn [mbind result_mbind result_bind].
  pose proof (moved_step n dsp v d HR ltac:(lia) Hf Hv Hval) as Hstep.
  destruct (rep_post n dsp _ Hstep) as (d1 & -> & Hirq & Hs1 & Hn1); [done|done|..].
  { rewrite <- Hrep. exact (flags_field loop_rep _ _ Hf ltac:(done)). }
  { rewrite <- Hon. exact (flags_field pc_on_rep _ _ Hf ltac:(done)). }
  { exact (flags_field pc _ _ Hf ltac:(done)). }
  { exact (flags_field cur_inst_len _ _ Hf ltac:(done)). }
  { regs. rewrite (flags_getr _ _ _ Hf) by done. unfold set_acc, stepped. by regs. }
  cbn [mbind result_mbind result_bind]. rewrite Hirq. cbn [mbind result_mbind result_bind].
  eexists. split; [reflexivity|]. split; [|exact Hn1].
  apply (step_frame n dsp d1); try done. apply (fr_pc _ _ (fs_ready _ _ _ Hs1)).
Qed.

(** The result of the loop. *)
Record fir_result (n : nat) dsp d : Prop := {
  fd_acc : val56 (get_acc d 0) =
    (val56 (get_acc dsp 0) + dot n (getr dsp DSP_REG_X0) (getr dsp DSP_REG_Y0) (getr dsp DSP_REG_R0)
       (getr dsp (DSP_REG_R0 + 4)) (xram dsp) (yram dsp)) mod 2 ^ 56;
  fd_wf : acc_wf (get_acc d 0);
  fd_r0 : getr d DSP_REG_R0 = getr dsp DSP_REG_R0 + Z.of_nat n;
  fd_r4 : getr d (DSP_REG_R0 + 4) = getr dsp (DSP_REG_R0 + 4) + Z.of_nat n;
  fd_same : same_rest dsp d;
  fd_pc : pc d = pc dsp + 1;
  fd_rep : loop_rep d = 0;
  fd_lc : getr d DSP_REG_LC = getr dsp DSP_REG_LCSAVE;
}.

Lemma mac_loop n : forall cache dsp, fir_ready (Z.of_nat (S n)) dsp -> Z.of_nat (S n) < 2 ^ 16 ->
  pc dsp < DSP_PRAM_SIZE -> rd (pram dsp) (pc dsp) = MAC_y0_x0_a -> loop_rep dsp = 1 -> pc_on_rep dsp = 0 ->
  getr dsp DSP_REG_LC = Z.of_nat (S n) ->
  exists d, execs (S n) cache dsp = Ok (cache, d) /\ fir_result (S n) dsp d.
Proof.
  induction n as [|n IH]; intros cache dsp HR Hn Hpc Hinst Hrep Hon Hlc;
    destruct (mac_exec _ cache dsp HR ltac:(lia) Hpc Hinst Hrep Hon Hlc) as (d1 & Hx & Hs & Hnext);
    unfold rep_next in Hnext; cbn [execs]; rewrite Hx; cbn [mbind result_mbind result_bind].
  - destruct Hnext as (H1 & H2 & H3). exists d1. split; [done|].
    pose proof (fr_acc _ _ (fs_ready _ _ _ Hs)). destruct Hs. constructor; try done. cbn [dot]. by rewrite Z.add_0_r.
  - rewrite (proj2 (Z.eqb_neq _ 1)) in Hnext by lia. destruct Hnext as (H1 & H2 & H3 & H4).
    destruct Hs as [Hr Hacc Hx0 Hy0 Hr0 Hr4 Hsame]. pose proof Hsame as [Hsx Hsy Hsp Hss].
    destruct (IH cache d1) as (d & Hd & [Da Dwf D0 D4 Ds Dpc Drep Dlc]).
    { by replace (Z.of_nat (S n)) with (Z.of_nat (S (S n)) - 1) by lia. }
    { lia. }
    { by rewrite H3. }
    { by rewrite H3, Hsp. }
    { done. }
    { done. }
    { rewrite H4. lia. }
    exists d. split; [exact Hd|]. constructor; [|done|lia|lia| |lia|done|congruence].
    + rewrite Da, Hacc, Hx0, Hy0, Hr0, Hr4, Hsx, Hsy. cbn [dot]. rewrite Z.add_mod_idemp_l by lia. f_equal. lia.
    + by eapply same_trans.
Qed.

(** ** The repeat instruction *)

Definition rep_entry : nat := match lookup_opcode_slow (REP_imm 1) with Ok e => e | _ => 0%nat end.

Lemma rep_decodes n : 1 <= n < 4096 ->
  lookup_opcode_slow (REP_imm n) = Ok rep_entry /\ REP_imm n < 0x100000 /\ 0 <= REP_imm n < 2 ^ 24 /\
  Z.land (Z.shiftr (REP_imm n) 8) (BITMASK 8) + Z.shiftl (Z.land (REP_imm n) (BITMASK 4)) 8 = n.
Proof.
  intros Hn.
  assert (forallb (fun k => let i := REP_imm (Z.of_nat k) in
    match lookup_opcode_slow i with Ok e => Nat.eqb e rep_entry | Fault _ => false end &&
    (i <? 0x100000) && (0 <=? i) &&
    (Z.land (Z.shiftr i 8) (BITMASK 8) + Z.shiftl (Z.land i (BITMASK 4)) 8 =? Z.of_nat k)) (seq 1 4095) = true)
    as Hall by (vm_compute; reflexivity).
  rewrite forallb_forall in Hall. specialize (Hall (Z.to_nat n) ltac:(apply in_seq; lia)).
  rewrite Z2Nat.id in Hall by lia. cbn zeta in Hall. rewrite !andb_true_iff, Z.ltb_lt, Z.leb_le, Z.eqb_eq in Hall.
  destruct Hall as (((Hl & Hlt) & Hge) & Hc).
  destruct (lookup_opcode_slow (REP_imm n)) as [e|]; [|done]. apply Nat.eqb_eq in Hl. subst e.
  split; [done|]. split; [done|]. split; [lia|done].
Qed.

Lemma rep_run d : run_entry emu emu_undefined d rep_entry = emu_rep_imm d.
Proof. reflexivity. Qed.

(** The repeat instruction itself, and the PC moving on to the repeated one. *)
Lemma rep_imm_getr d r n : r <> DSP_REG_LC -> r <> DSP_REG_LCSAVE ->
  getr (add_cycles 2 (set_lc n (start_rep d))) r = getr d r.
Proof.
  intros H1 H2. change (getr (set_lc n (start_rep d)) r = getr d r). unfold set_lc. rewrite getr_setr_ne by done.
  change (getr (setr DSP_REG_LCSAVE (getr d DSP_REG_LC) d) r = getr d r). by rewrite getr_setr_ne.
Qed.
Lemma rep_imm_lc d n : getr (add_cycles 2 (set_lc n (start_rep d))) DSP_REG_LC = n.
Proof. apply (getr_setr_eq DSP_REG_LC n (start_rep d)). Qed.
Lemma rep_imm_save d n : getr (add_cycles 2 (set_lc n (start_rep d))) DSP_REG_LCSAVE = getr d DSP_REG_LC.
Proof.
  change (getr (setr DSP_REG_LC n (start_rep d)) DSP_REG_LCSAVE = getr d DSP_REG_LC). rewrite getr_setr_ne by done.
  apply (getr_setr_eq DSP_REG_LCSAVE (getr d DSP_REG_LC) d).
Qed.
Lemma rep_begins d : loop_rep d = 1 -> pc_on_rep d = 1 -> getr d DSP_REG_LC <> 0 ->
  Z.testbit (getr d DSP_REG_SR) DSP_SR_LF = false ->
  dsp_postexecute_update_pc d = Ok (d <| pc_on_rep := 0 |> <| pc ::= fun x => u32 (x + cur_inst_len d) |>).
Proof.
  intros Hrep Hon Hlc Hlf. unfold dsp_postexecute_update_pc, update_rep. rewrite Hrep, Hon. cbn [Z.eqb negb].
  rewrite (proj2 (Z.eqb_neq _ 0) Hlc). by apply update_do_none.
Qed.

(** The state in which the repeated instruction runs for the first time. *)
Record rep_started (n : Z) dsp d : Prop := {
  rs_regs r : r <> DSP_REG_LC -> r <> DSP_REG_LCSAVE -> getr d r = getr dsp r;
  rs_lc : getr d DSP_REG_LC = n;
  rs_save : getr d DSP_REG_LCSAVE = getr dsp DSP_REG_LC;
  rs_mem : xram d = xram dsp /\ yram d = yram dsp /\ pram d = pram dsp;
  rs_pc : pc d = pc dsp + 1;
  rs_rep : loop_rep d = 1 /\ pc_on_rep d = 0;
  rs_irq : interrupt_state d = interrupt_state dsp /\ interrupt_counter d = interrupt_counter dsp;
}.
Lemma started_ready n dsp d : fir_ready n dsp -> rep_started n dsp d -> pc dsp < DSP_PRAM_SIZE -> fir_ready n d.
Proof.
  intros [] [Hg _ _ (Hx & Hy & _) Hpc _ (Hi & Hk)] Hlt.
  assert (get_acc d 0 = get_acc dsp 0) as Ha by (unfold get_acc; by rewrite !Hg).
  constructor; rewrite ?Ha, ?Hx, ?Hy, ?Hi, ?Hk, ?Hg by done; try done. lia.
Qed.

Lemma rep_finish n d0 : 1 <= n -> imm_count (start_rep d0) = n -> cur_inst_len d0 = 1 ->
  Z.testbit (getr d0 DSP_REG_SR) DSP_SR_LF = false ->
  interrupt_state d0 = DSP_INTERRUPT_NONE /\ interrupt_counter d0 = 0 -> 0 <= pc d0 < DSP_PRAM_SIZE ->
  exists d1 d2, emu_rep_imm d0 = Ok d1 /\ dsp_postexecute_update_pc d1 = Ok d2 /\
    dsp_postexecute_interrupts d2 = Ok d2 /\ rep_started n d0 d2.
Proof.
  intros Hn Hcount Hlen Hlf [Hi Hk] Hpc. exists (add_cycles 2 (set_lc n (start_rep d0))).
  pose proof (rep_imm_getr d0) as Hg. pose proof (rep_imm_lc d0 n) as Hlc. pose proof (rep_imm_save d0 n) as Hsave.
  eexists. split; [unfold emu_rep_imm; by rewrite Hcount|].
  split; [apply rep_begins; [done|done|rewrite Hlc; lia|by rewrite Hg by discriminate]|].
  split; [by apply interrupts_idle|].
  constructor; [intros r H1 H2; exact (Hg r n H1 H2)|exact Hlc|exact Hsave|done| |done|done].
  change (u32 (pc d0 + cur_inst_len d0) = pc d0 + 1). rewrite Hlen. apply u32_id.
  unfold is_u32, DSP_PRAM_SIZE in *. lia.
Qed.

Lemma rep_exec n cache dsp : fir_ready n dsp -> 1 <= n < 4096 -> pc dsp < DSP_PRAM_SIZE ->
  rd (pram dsp) (pc dsp) = REP_imm n -> cache_ok cache -> pram_cache_ok dsp ->
  exists cache' d, execute_instruction cache dsp = Ok (cache', d) /\ rep_started n dsp d.
Proof.
  intros HR Hn Hpc Hinst Hc Hp. destruct (rep_decodes n Hn) as (Hl & Hlt & Hrange & Hcount).
  unfold execute_instruction, dsp56k_execute_instruction.
  rewrite (read_p_ok dsp (pc dsp) (REP_imm n)); [|pose proof (fr_pc _ _ HR); lia|done|done].
  cbn [mbind result_mbind result_bind]. fold (fetched (REP_imm n) dsp).
  change (cur_inst (fetched (REP_imm n) dsp)) with (REP_imm n). rewrite (proj2 (Z.ltb_lt _ _)) by done.
  destruct (decode_ok cache (fetched (REP_imm n) dsp) rep_entry Hc Hp (eq_sym Hinst) Hl) as (cache' & _ & ->).
  cbn [mbind result_mbind result_bind]. rewrite rep_run. clear Hl Hlt Hrange Hinst.
  destruct (rep_finish n (fetched (REP_imm n) dsp <| pram_opcache ::= <[pc dsp := rep_entry]> |>))
    as (d1 & d2 & Hrun & Hpost & Hirq & [Hg ? ? ? ? ? ?]);
    [lia|exact Hcount|done|apply (fr_sr _ _ HR)|apply (fr_irq _ _ HR)|split; [apply (fr_pc _ _ HR)|exact Hpc]|].
  change (pc (fetched (REP_imm n) dsp)) with (pc dsp). rewrite Hrun. cbn [mbind result_mbind result_bind].
  rewrite Hpost. cbn [mbind result_mbind result_bind]. rewrite Hirq. cbn [mbind result_mbind result_bind].
  eexists _, _. split; [reflexivity|]. constructor; [exact Hg|done..].
Qed.

(** C10. The dot product of a filter: from REP #n (n below 4096) followed by the MAC with
    its two post-incremented moves, 1 + n instructions of the interpreter add to A the
    exact sum of the n products of signed 24-bit fractions, modulo 2^56, whatever the
    caches hold; R0 and R4 have advanced by n, the memories and the outer loop counter are
    as before, and the PC is behind the loop. *)
Theorem fir_kernel_correct n cache dsp : (1 <= n < 4096)%nat -> fir_ready (Z.of_nat n) dsp ->
  pc dsp + 2 <= DSP_PRAM_SIZE -> rd (pram dsp) (pc dsp) = REP_imm (Z.of_nat n) ->
  rd (pram dsp) (pc dsp + 1) = MAC_y0_x0_a -> cache_ok cache -> pram_cache_ok dsp ->
  exists cache' d, execs (1 + n) cache dsp = Ok (cache', d) /\
    val56 (get_acc d 0) =
      (val56 (get_acc dsp 0) + dot n (getr dsp DSP_REG_X0) (getr dsp DSP_REG_Y0) (getr dsp DSP_REG_R0)
         (getr dsp (DSP_REG_R0 + 4)) (xram dsp) (yram dsp)) mod 2 ^ 56 /\
    getr d DSP_REG_R0 = getr dsp DSP_REG_R0 + Z.of_nat n /\
    getr d (DSP_REG_R0 + 4) = getr dsp (DSP_REG_R0 + 4) + Z.of_nat n /\
    xram d = xram dsp /\ yram d = yram dsp /\ pram d = pram dsp /\
    pc d = pc dsp + 2 /\ loop_rep d = 0 /\ getr d DSP_REG_LC = getr dsp DSP_REG_LC.
Proof.
  intros Hn HR Hpc Hrep Hmac Hc Hp.
  destruct (rep_exec (Z.of_nat n) cache dsp HR ltac:(lia) ltac:(lia) Hrep Hc Hp) as (c1 & d1 & Hx & Hs).
  pose proof (started_ready _ _ _ HR Hs ltac:(lia)) as HR1. destruct n as [|n]; [lia|].
  destruct Hs as [Hg Hlc Hsave (Hxr & Hyr & Hpr) Hpc1 [Hl Ho] _].
  destruct (mac_loop n c1 d1) as (d & Hd & [Da _ D0 D4 [Sx Sy Sp Ss] Dpc Dl Dlc]);
    [done|lia|rewrite Hpc1; lia|by rewrite Hpr, Hpc1|done|done|done|].
  exists c1, d. split; [cbn [Nat.add execs]; rewrite Hx; exact Hd|].
  assert (get_acc d1 0 = get_acc dsp 0) as Ha by (unfold get_acc; by rewrite !Hg).
  rewrite Da, D0, D4, Sx, Sy, Sp, Dpc, Dlc, Ha, Hxr, Hyr, Hpr, Hpc1, Hsave, !Hg by done.
  repeat split; [lia|done].
Qed.
End Fir.

(** ** An example *)

(** 0.5 * 0.5 - 0.25 * 0.5 + 0.125 * 0.125. *)
Definition fir_demo : dsp_core unit :=
  setr DSP_REG_M0 0xffff (setr (DSP_REG_M0 + 4) 0xffff (setr DSP_REG_X0 0x400000 (setr DSP_REG_Y0 0x400000
    (core0 <| xram := wr 0 0x200000 (wr 1 0x100000 ∅) |> <| yram := wr 0 0xc00000 (wr 1 0x100000 ∅) |>
           <| pram := wr 0 (REP_imm 3) (wr 1 MAC_y0_x0_a ∅) |>)))).

Lemma fir_kernel_correct_witness : exists cache d, @execs _ no_peripheral 4 ∅ fir_demo = Ok (cache, d) /\
  val56 (get_acc d 0) = 0x120000 * 2 ^ 24 /\ getr d DSP_REG_R0 = 3 /\ pc d = 2.
Proof.
  destruct (@fir_kernel_correct _ no_peripheral 3 ∅ fir_demo) as (c & d & Hx & Ha & H0 & _ & _ & _ & _ & Hpc & _).
  - lia.
  - constructor; lazymatch goal with |- forall _, _ => idtac | _ => vm_compute; repeat split; discriminate end.
    + intros a. change (xram fir_demo) with (wr 0 0x200000 (wr 1 0x100000 ∅)). unfold rd, wr.
      by rewrite !lookup_insert, lookup_empty; repeat case_decide.
    + intros a. change (yram fir_demo) with (wr 0 0xc00000 (wr 1 0x100000 ∅)). unfold rd, wr.
      by rewrite !lookup_insert, lookup_empty; repeat case_decide.
  - vm_compute. congruence.
  - reflexivity.
  - reflexivity.
  - intros tag op e Ht. by rewrite lookup_empty in Ht.
  - intros a e Ht. vm_compute in Ht. discriminate Ht.
  - exists c, d. split; [exact Hx|]. split; [rewrite Ha; vm_compute; reflexivity|].
    split; [rewrite H0; reflexivity|rewrite Hpc; reflexivity].
Defined.
