(* ===== verification/DspTyped.v ===== *)
(** * Type soundness of the DSP instruction set
    (src/xemu/hw/xbox/mcpx/apu/dsp/interp/dsp_cpu.c, dsp_emu.c.inc)

    The registers of the DSP are [uint32_t] in the emulator and narrower in the chip.
    [typed ps I true n] says that every register, memory word and counter is within its
    width, that the current instruction satisfies [I] and has used between 2 and [n]
    cycles, and that the peripherals are as [ps] says; [typed ps I false n] is the same
    with 32 bits for data registers and data memory, which are not initialised to 24-bit
    words.  Executing an instruction keeps both: from a
    typed state the outcome is a typed state, an assertion of the source, or an
    undefined shift of ASL and ASR with an immediate count.  No table is indexed out of
    bounds, no handler is missing and every loop ends. *)

From S2P Require Import Prelude DspArith DspCore DspDecode DspEmuAlu DspEmuMove DspEmuOps DspEmu.

(** The width of data words, of the extensions A2 and B2, and of each register. *)
Definition dw (s : bool) : Z := if s then 24 else 32.
Definition ew (s : bool) : Z := if s then 8 else 32.
Definition width (s : bool) (r : Z) : Z :=
  if r <? 4 then 0
  else if (r =? DSP_REG_A2) || (r =? DSP_REG_B2) then ew s
  else if r <? DSP_REG_R0 then dw s
  else if r <? DSP_REG_M0 then 24
  else if r <? 0x28 then 16
  else if (r =? DSP_REG_LC) || (r =? DSP_REG_LCSAVE) then dw s
  else if r =? DSP_REG_OMR then 8
  else if r =? DSP_REG_SP then 6
  else if (r =? DSP_REG_SR) || (r =? DSP_REG_SSH) || (r =? DSP_REG_SSL) || (r =? DSP_REG_LA) then 16
  else 0.

(** The instructions that put a wider value in an accumulator: MAX, and BSET and BCHG
    of a bit above 23. *)
Definition narrow_alu (inst : Z) : Prop := Z.land inst (BITMASK 8) <> 0x1d.
Definition narrow_bit (inst : Z) : Prop :=
  is_accu (Z.land (Z.shiftr inst 8) (BITMASK 6)) = true -> Z.land inst (BITMASK 5) < 24.

Section Typed.
Context {P : Type}.
(** What holds of the state of the peripherals, and the faults they may have. *)
Context (periph_typed : bool -> P -> Prop) (periph_fault : fault -> Prop).
Implicit Types dsp : dsp_core P.

(** [I] is what is known of the current instruction. *)
Record typed (I : Z -> Prop) (s : bool) (n : Z) dsp : Prop := {
  ty_regs r : 0 <= r < 64 -> 0 <= getr dsp r < 2 ^ width s r;
  ty_x a : 0 <= rd (xram dsp) a < 2 ^ dw s;
  ty_y a : 0 <= rd (yram dsp) a < 2 ^ dw s;
  ty_mix a : 0 <= rd (mixbuffer dsp) a < 2 ^ dw s;
  ty_p a : is_u32 (rd (pram dsp) a);
  ty_ssh a : is_u16 (rd (ssh_stack dsp) a);
  ty_ssl a : is_u16 (rd (ssl_stack dsp) a);
  ty_pc : is_u32 (pc dsp);
  ty_inst : 0 <= cur_inst dsp < 2 ^ 24 /\ I (cur_inst dsp);
  ty_cycles : 2 <= instr_cycle dsp <= n;
  ty_ipl i : -1 <= rd (interrupt_ipl dsp) i <= 3;
  ty_raise : 0 <= interrupt_ipl_to_raise dsp <= 3;
  ty_fetch : is_u16 (interrupt_instr_fetch dsp);
  ty_save : is_u16 (interrupt_save_pc dsp);
  ty_cache : pram_cache_ok dsp;
  ty_opaque : periph_typed s (opaque dsp);
}.

Definition allowed (f : fault) : Prop :=
  match f with AssertFail _ | BadShift => True | _ => periph_fault f end.

(** What the instructions rely on from the peripherals. *)
Class TypedPeripheral `{!DspPeripheral P} := {
  typed_read I s n dsp a : typed I s n dsp ->
    safe allowed (fun '(d, v) => typed I s n d /\ 0 <= v < 2 ^ dw s) (core_read_peripheral dsp a);
  typed_write I s n dsp a v : typed I s n dsp -> 0 <= v < 2 ^ 24 ->
    safe allowed (typed I s n) (core_write_peripheral dsp a v);
}.
End Typed.
Arguments typed {P} _ _ _ _ _.
Arguments TypedPeripheral {P} _ _ {_}.

(** A step of an instruction: the next call is safe, and what it gives is typed. *)
Tactic Notation "step" uconstr(lem) := eapply safe_bind; [eapply lem; try done|].

(** ** Ranges *)

Lemma range_weaken x a b : a <= b -> 0 <= x < 2 ^ a -> 0 <= x < 2 ^ b.
Proof.
  intros Hab Hx. split; [lia|]. eapply Z.lt_le_trans; [apply Hx|].
  apply Z.pow_le_mono_r; lia.
Qed.
Lemma land_mask_range x n : 0 <= n -> 0 <= Z.land x (BITMASK n) < 2 ^ n.
Proof. intros Hn. rewrite land_BITMASK by done. apply Z.mod_pos_bound. lia. Qed.
Lemma shiftr_range x k n : 0 <= k -> 0 <= x < 2 ^ n -> 0 <= Z.shiftr x k < 2 ^ n.
Proof.
  intros Hk Hx. rewrite Z.shiftr_div_pow2 by done. split; [apply Z.div_pos; lia|].
  apply Z.div_lt_upper_bound; [lia|]. assert (1 <= 2 ^ k) by (apply Z.pow_le_mono_r with (b := 0); lia).
  nia.
Qed.
Lemma bit_of_01 x n : 0 <= bit_of x n <= 1.
Proof. destruct (bit_of_range x n) as [-> | ->]; lia. Qed.

(** ** Registers *)

Section Soundness.
Context {P : Type} `{!DspPeripheral P}.
Context {periph_typed : bool -> P -> Prop} {periph_fault : fault -> Prop}.
Context `{!TypedPeripheral periph_typed periph_fault}.
Implicit Types dsp : dsp_core P.
Context {I : Z -> Prop}.
Local Abbreviation typed := (typed periph_typed I).
Local Abbreviation safe := (safe (allowed periph_fault)).

Lemma width_nonneg s r : 0 <= width s r <= 32.
Proof. unfold width, dw, ew. destruct s; repeat case_match; lia. Qed.

Lemma typed_setr s n dsp r v : typed s n dsp -> 0 <= v < 2 ^ width s r -> typed s n (setr r v dsp).
Proof.
  intros [] Hv. constructor; try assumption.
  intros r' Hr'. destruct (Z.eq_dec r r') as [->|Hne].
  - by rewrite getr_setr_eq.
  - rewrite getr_setr_ne by done. auto.
Qed.
Lemma typed_weaken s n m dsp : n <= m -> typed s n dsp -> typed s m dsp.
Proof. intros Hn []. constructor; try assumption. lia. Qed.
Lemma typed_goto s n dsp p : typed s n dsp -> is_u32 p -> typed s n (goto p dsp).
Proof. intros [] Hp. by constructor. Qed.
Lemma typed_add_cycles s n k dsp : 0 <= k -> n + k < 2 ^ 16 ->
  typed s n dsp -> typed s (n + k) (add_cycles k dsp).
Proof.
  intros Hk Hn []. constructor; try assumption.
  cbn. rewrite u16_id by (unfold is_u16; lia). lia.
Qed.
Lemma typed_add_len s n dsp : typed s n dsp -> typed s n (add_len dsp).
Proof. intros []. by constructor. Qed.

(** The registers an accumulator is made of. *)
Lemma width_acc s d : 0 <= d <= 1 ->
  width s (DSP_REG_A0 + d) = dw s /\ width s (DSP_REG_A1 + d) = dw s /\ width s (DSP_REG_A2 + d) = ew s.
Proof. intros Hd. assert (d = 0 \/ d = 1) as [-> | ->] by lia; done. Qed.
Lemma width_R s k : 0 <= k < 8 -> width s (DSP_REG_R0 + k) = 24 /\ width s (DSP_REG_N0 + k) = 24 /\
  width s (DSP_REG_M0 + k) = 16.
Proof.
  intros Hk. assert (k = 0 \/ k = 1 \/ k = 2 \/ k = 3 \/ k = 4 \/ k = 5 \/ k = 6 \/ k = 7)
    as [-> | [-> | [-> | [-> | [-> | [-> | [-> | ->]]]]]]] by lia; done.
Qed.

Definition acc_typed (s : bool) (v : acc) : Prop :=
  0 <= a2 v < 2 ^ ew s /\ 0 <= a1 v < 2 ^ dw s /\ 0 <= a0 v < 2 ^ dw s.

Lemma acc_wf_typed s v : acc_wf v -> acc_typed s v.
Proof.
  intros (H2 & H1 & H0). split; [|split]; eapply range_weaken; try eassumption; by destruct s.
Qed.
Lemma typed_get_acc s n dsp d : typed s n dsp -> 0 <= d <= 1 -> acc_typed s (get_acc dsp d).
Proof.
  intros HT Hd. destruct (width_acc s d Hd) as (W0 & W1 & W2).
  unfold acc_typed, get_acc; cbn [a2 a1 a0]. rewrite <- W0 at 2. rewrite <- W1, <- W2.
  repeat split; apply (ty_regs _ _ _ _ _ HT); unfold DSP_REG_A0, DSP_REG_A1, DSP_REG_A2; lia.
Qed.
Lemma typed_set_acc s n dsp d v : typed s n dsp -> 0 <= d <= 1 -> acc_typed s v ->
  typed s n (set_acc d v dsp).
Proof.
  intros HT Hd (H2 & H1 & H0). destruct (width_acc s d Hd) as (W0 & W1 & W2).
  unfold set_acc. repeat apply typed_setr; rewrite ?W0, ?W1, ?W2; done.
Qed.

(** ** The status register *)

Lemma typed_sr s n dsp : typed s n dsp -> is_u16 (getr dsp DSP_REG_SR).
Proof. intros HT. apply (ty_regs _ _ _ _ _ HT DSP_REG_SR). unfold DSP_REG_SR. lia. Qed.
Lemma typed_sr_clear s n m dsp : typed s n dsp -> typed s n (sr_clear m dsp).
Proof.
  intros HT. apply typed_setr; [done|]. apply land_range; [done|]. by apply (typed_sr s n).
Qed.
Lemma typed_sr_or s n v dsp : is_u16 v -> typed s n dsp -> typed s n (sr_or v dsp).
Proof.
  intros Hv HT. apply typed_setr; [done|]. apply lor_range; [done| |done]. by apply (typed_sr s n).
Qed.
Lemma typed_sr_or_const s n v dsp : Z.land v (BITMASK 16) = v -> typed s n dsp -> typed s n (sr_or v dsp).
Proof. intros Hv. apply typed_sr_or. rewrite <- Hv. by apply land_mask_range. Qed.
Lemma typed_sr_or_bit s n b k dsp : 0 <= b <= 1 -> 0 <= k < 16 -> typed s n dsp ->
  typed s n (sr_or (Z.shiftl b k) dsp).
Proof.
  intros Hb Hk. apply typed_sr_or. rewrite Z.shiftl_mul_pow2 by lia.
  assert (1 <= 2 ^ k <= 2 ^ 15) by (split; [apply (Z.pow_le_mono_r 2 0)|apply Z.pow_le_mono_r]; lia).
  unfold is_u16. nia.
Qed.
Lemma land_8_u16 x : is_u16 (Z.land x 0x8).
Proof. rewrite Z.land_comm. by apply (land_range 8 x 16). Qed.
Lemma bit_u16 k : 0 <= k < 16 -> is_u16 (bit k).
Proof.
  intros Hk. rewrite Z.shiftl_mul_pow2 by lia. unfold is_u16.
  assert (2 ^ k <= 2 ^ 15) by (apply Z.pow_le_mono_r; lia). lia.
Qed.

Lemma typed_if s n (b : bool) d1 d2 : typed s n d1 -> typed s n d2 -> typed s n (if b then d1 else d2).
Proof. by destruct b. Qed.

Lemma typed_ccr_update s n v dsp : typed s n dsp -> typed s n (ccr_update v dsp).
Proof.
  intros HT. unfold ccr_update, emu_ccr_update_e_u_n_z, ccr_e, ccr_u.
  repeat first [apply typed_if | apply typed_sr_clear | apply typed_sr_or; [by apply land_8_u16 || by apply bit_u16|]];
    done.
Qed.

(** ** What the arithmetic gives, whatever its operands *)

Lemma flags_u16 l v c : is_u16 (flags l v c).
Proof. apply u16_range. Qed.
Lemma limbs_wf d2 d1 d0 :
  acc_wf (mkAcc (Z.land d2 (BITMASK 8)) (Z.land d1 (BITMASK 24)) (Z.land d0 (BITMASK 24))).
Proof. split; [|split]; by apply land_mask_range. Qed.
Lemma add56_out x y : acc_wf (fst (dsp_add56 x y)) /\ is_u16 (snd (dsp_add56 x y)).
Proof. split; [apply limbs_wf|apply flags_u16]. Qed.
Lemma sub56_out x y : acc_wf (fst (dsp_sub56 x y)) /\ is_u16 (snd (dsp_sub56 x y)).
Proof. split; [apply limbs_wf|apply flags_u16]. Qed.
Lemma asl56_out x n : safe (fun '(v, sr) => acc_wf v /\ is_u16 sr) (dsp_asl56 x n).
Proof. unfold dsp_asl56. case_match; [done|]. split; [apply limbs_wf|apply flags_u16]. Qed.
Lemma asr56_out x n : safe (fun '(v, sr) => acc_wf v /\ is_u16 sr) (dsp_asr56 x n).
Proof. unfold dsp_asr56. case_match; [done|]. split; [apply limbs_wf|apply u16_range]. Qed.
Lemma mul56_out x y signe : safe acc_wf (dsp_mul56 x y signe).
Proof.
  unfold dsp_mul56. destruct (mul_operand _ _) as [? ?], (mul_operand _ _) as [? ?].
  eapply safe_bind; [apply asl56_out|]. intros [v sr] [Hv _]. case_match; [|done]. apply sub56_out.
Qed.
Lemma abs56_out s x : acc_typed s x -> acc_typed s (fst (dsp_abs56 x)).
Proof. intros Hx. unfold dsp_abs56. case_match; [apply acc_wf_typed, sub56_out|done]. Qed.
Lemma rnd56_out sr x : acc_wf (dsp_rnd56 sr x).
Proof.
  unfold dsp_rnd56.
  repeat case_match; cbn [a2 a1 a0];
    match goal with |- context [dsp_add56 ?c x] =>
      destruct (add56_out c x) as [(Ha & Hb & Hc) _]; revert Ha Hb Hc; generalize (fst (dsp_add56 c x)) end;
    intros v Ha Hb Hc; (split; [|split]); cbn [a2 a1 a0]; repeat (apply land_range; [done|]); done.
Qed.
Lemma sign_ext24_range s v : 0 <= sign_ext24 v < 2 ^ ew s.
Proof. unfold sign_ext24. destruct s, (has v _); cbn; lia. Qed.

(** ** The ALU *)

Definition keeps (s : bool) (op : dsp_core P -> result (dsp_core P)) : Prop :=
  forall n dsp, typed s n dsp -> safe (typed s n) (op dsp).

Lemma typed_finish_add s n d v sr dsp : typed s n dsp -> 0 <= d <= 1 -> acc_typed s v -> is_u16 sr ->
  typed s n (finish_add d v sr dsp).
Proof.
  intros HT Hd Hv Hsr. apply typed_sr_or; [done|]. by apply typed_sr_clear, typed_ccr_update, typed_set_acc.
Qed.
Lemma typed_finish_mac s n d v sr dsp : typed s n dsp -> 0 <= d <= 1 -> acc_wf v -> is_u16 sr ->
  typed s n (finish_mac d v sr dsp).
Proof.
  intros HT Hd Hv Hsr. apply typed_sr_or; [by apply (land_range sr 0xfe 16)|].
  by apply typed_sr_clear, typed_ccr_update, typed_set_acc, acc_wf_typed.
Qed.

Lemma emu_add_typed s n d x dsp : 0 <= d <= 1 -> typed s n dsp -> safe (typed s n) (emu_add d x dsp).
Proof.
  intros Hd HT. unfold emu_add. destruct (dsp_add56 _ _) eqn:E.
  destruct (add56_out x (get_acc dsp d)) as [Hv Hsr]. rewrite E in Hv, Hsr.
  by apply typed_finish_add, Hsr; [..|apply acc_wf_typed].
Qed.
Lemma emu_sub_typed s n d x dsp : 0 <= d <= 1 -> typed s n dsp -> safe (typed s n) (emu_sub d x dsp).
Proof.
  intros Hd HT. unfold emu_sub. destruct (dsp_sub56 _ _) eqn:E.
  destruct (sub56_out x (get_acc dsp d)) as [Hv Hsr]. rewrite E in Hv, Hsr.
  by apply typed_finish_add, Hsr; [..|apply acc_wf_typed].
Qed.
Lemma emu_cmp_typed s n x y dsp : typed s n dsp -> safe (typed s n) (emu_cmp x y dsp).
Proof.
  intros HT. unfold emu_cmp. destruct (dsp_sub56 _ _) eqn:E.
  destruct (sub56_out x y) as [Hv Hsr]. rewrite E in Hsr.
  apply typed_sr_or; [done|]. by apply typed_sr_clear, typed_ccr_update.
Qed.

(** A second addition or subtraction, of the carry, under the flags of both. *)
Lemma emu_adc_keeps s r1 r0 d : 0 <= d <= 1 -> keeps s (emu_adc r1 r0 d).
Proof.
  intros Hd n dsp HT. unfold emu_adc.
  destruct (dsp_add56 (src48 _ _ _) _) as [v sr] eqn:E.
  pose proof (add56_out (src48 dsp r1 r0) (get_acc dsp d)) as [Hv Hsr]. rewrite E in Hv, Hsr.
  destruct (negb _); [|by apply typed_finish_add; try done; apply acc_wf_typed].
  destruct (dsp_add56 _ v) as [v2 sr2] eqn:E2.
  pose proof (add56_out (mkAcc 0 0 1) v) as [Hv2 Hsr2]. rewrite E2 in Hv2, Hsr2.
  apply typed_finish_add; try done; [by apply acc_wf_typed|by apply lor_range].
Qed.
Lemma emu_sbc_keeps s r1 r0 d : 0 <= d <= 1 -> keeps s (emu_sbc r1 r0 d).
Proof.
  intros Hd n dsp HT. unfold emu_sbc.
  destruct (dsp_sub56 (src48 _ _ _) _) as [v sr] eqn:E.
  pose proof (sub56_out (src48 dsp r1 r0) (get_acc dsp d)) as [Hv Hsr]. rewrite E in Hv, Hsr.
  destruct (negb _); [|by apply typed_finish_add; try done; apply acc_wf_typed].
  destruct (dsp_sub56 _ v) as [v2 sr2] eqn:E2.
  pose proof (sub56_out (mkAcc 0 0 1) v) as [Hv2 Hsr2]. rewrite E2 in Hv2, Hsr2.
  apply typed_finish_add; try done; [by apply acc_wf_typed|by apply lor_range].
Qed.

Lemma emu_shift_add_keeps s shift op d : 0 <= d <= 1 ->
  (forall x n, safe (fun '(v, sr) => acc_wf v /\ is_u16 sr) (shift x n)) ->
  (forall x y, acc_wf (fst (op x y)) /\ is_u16 (snd (op x y))) ->
  keeps s (emu_shift_add shift op d).
Proof.
  intros Hd Hshift Hop n dsp HT. unfold emu_shift_add.
  eapply safe_bind; [apply Hshift|]. intros [v sr] [Hv Hsr].
  destruct (op _ v) as [v2 sr2] eqn:E.
  pose proof (Hop (get_acc dsp (1 - d)) v) as [Hv2 Hsr2]. rewrite E in Hv2, Hsr2.
  apply typed_finish_add; try done; [by apply acc_wf_typed|by apply lor_range].
Qed.

Lemma emu_shift_typed s n shift x d k dsp : 0 <= d <= 1 ->
  (forall x n, safe (fun '(v, sr) => acc_wf v /\ is_u16 sr) (shift x n)) ->
  typed s n dsp -> safe (typed s n) (emu_shift shift x d k dsp).
Proof.
  intros Hd Hshift HT. unfold emu_shift.
  eapply safe_bind; [apply Hshift|]. intros [v sr] [Hv Hsr].
  apply typed_ccr_update, typed_sr_or; [done|]. by apply typed_sr_clear, typed_set_acc, acc_wf_typed.
Qed.

Lemma finish_neg_typed s n d v o dsp : 0 <= d <= 1 -> acc_typed s v -> 0 <= o <= 1 ->
  typed s n dsp -> typed s n (finish_neg d v o dsp).
Proof.
  intros Hd Hv Ho HT. apply typed_ccr_update, typed_sr_or; [|by apply typed_sr_clear, typed_set_acc].
  assert (o = 0 \/ o = 1) as [-> | ->] by lia; done.
Qed.
Lemma is_min_01 v : 0 <= is_min v <= 1.
Proof. unfold is_min. destruct (_ && _ && _); cbn; lia. Qed.

Lemma typed_getr s n dsp r w : typed s n dsp -> 0 <= r < 64 -> width s r = w -> 0 <= getr dsp r < 2 ^ w.
Proof. intros HT Hr <-. by apply (ty_regs _ _ _ _ _ HT). Qed.
Lemma typed_A1 s n dsp d : typed s n dsp -> 0 <= d <= 1 -> 0 <= getr dsp (DSP_REG_A1 + d) < 2 ^ dw s.
Proof.
  intros HT Hd. apply (typed_getr s n); [done|unfold DSP_REG_A1; lia|by apply width_acc].
Qed.
Lemma mask24_dw s x : 0 <= Z.land x (BITMASK 24) < 2 ^ dw s.
Proof. apply (range_weaken _ 24); [by destruct s|by apply land_mask_range]. Qed.

(** The flags N and Z of a 24-bit result. *)
Lemma typed_set_n s n v dsp : typed s n dsp -> typed s n (set_n v dsp).
Proof. apply typed_sr_or_bit; [apply bit_of_01|done]. Qed.
Lemma typed_set_z s n v dsp : typed s n dsp -> typed s n (set_z v dsp).
Proof. apply typed_sr_or_bit; [destruct (v =? 0); cbn; lia|done]. Qed.
Lemma typed_setA1 s n d v dsp : typed s n dsp -> 0 <= d <= 1 -> 0 <= v < 2 ^ dw s ->
  typed s n (setr (DSP_REG_A1 + d) v dsp).
Proof. intros HT Hd Hv. apply typed_setr; [done|]. destruct (width_acc s d Hd) as (_ & -> & _). done. Qed.
Lemma typed_finish_logic s n d v dsp : typed s n dsp -> 0 <= d <= 1 -> 0 <= v < 2 ^ dw s ->
  typed s n (finish_logic (DSP_REG_A1 + d) v dsp).
Proof. intros HT Hd Hv. by apply typed_set_z, typed_set_n, typed_sr_clear, typed_setA1. Qed.
Lemma bit_of_u16 x n : is_u16 (bit_of x n).
Proof. pose proof (bit_of_01 x n). unfold is_u16. lia. Qed.
Lemma land_1_01 x : 0 <= Z.land x 1 <= 1.
Proof. pose proof (land_mask_range x 1 ltac:(done)). change (BITMASK 1) with 1 in *. lia. Qed.
Lemma land_1_u16 x : is_u16 (Z.land x 1).
Proof. pose proof (land_1_01 x). unfold is_u16. lia. Qed.

Lemma emu_lsl_keeps s d : 0 <= d <= 1 -> keeps s (emu_lsl d).
Proof.
  intros Hd n dsp HT. apply typed_set_z, typed_set_n, typed_sr_or; [apply bit_of_u16|].
  apply typed_sr_clear, typed_setA1; [done..|apply mask24_dw].
Qed.
Lemma emu_lsr_keeps s d : 0 <= d <= 1 -> keeps s (emu_lsr d).
Proof.
  intros Hd n dsp HT. apply typed_set_z, typed_sr_or; [apply land_1_u16|].
  apply typed_sr_clear, typed_setA1; [done..|]. apply shiftr_range; [done|]. by apply (typed_A1 s n).
Qed.
Lemma emu_rol_keeps s d : 0 <= d <= 1 -> keeps s (emu_rol d).
Proof.
  intros Hd n dsp HT. apply typed_set_z, typed_set_n, typed_sr_or; [apply bit_of_u16|].
  apply typed_sr_clear, typed_setA1; [done..|apply mask24_dw].
Qed.
Lemma emu_ror_keeps s d : 0 <= d <= 1 -> keeps s (emu_ror d).
Proof.
  intros Hd n dsp HT. apply typed_set_z, typed_sr_or_bit; [apply land_1_01|done|].
  apply typed_sr_or; [apply land_1_u16|]. apply typed_sr_clear, typed_setA1; [done..|].
  apply lor_range; [by destruct s|apply shiftr_range; [done|by apply (typed_A1 s n)]|].
  apply (range_weaken _ 24); [by destruct s|]. rewrite Z.shiftl_mul_pow2 by lia.
  pose proof (land_1_01 (getr dsp (DSP_REG_A1 + d))). lia.
Qed.

Lemma emu_mpy_keeps s sg r1 r2 d : 0 <= d <= 1 -> keeps s (emu_mpy sg r1 r2 d).
Proof.
  intros Hd n dsp HT. eapply safe_bind; [apply mul56_out|]. intros v Hv.
  by apply typed_sr_clear, typed_ccr_update, typed_set_acc, acc_wf_typed.
Qed.
Lemma emu_mpyr_keeps s sg r1 r2 d : 0 <= d <= 1 -> keeps s (emu_mpyr sg r1 r2 d).
Proof.
  intros Hd n dsp HT. eapply safe_bind; [apply mul56_out|]. intros v Hv.
  by apply typed_sr_clear, typed_ccr_update, typed_set_acc, acc_wf_typed, rnd56_out.
Qed.
Lemma emu_mac_keeps s sg r1 r2 d : 0 <= d <= 1 -> keeps s (emu_mac sg r1 r2 d).
Proof.
  intros Hd n dsp HT. eapply safe_bind; [apply mul56_out|]. intros v Hv.
  destruct (dsp_add56 v _) eqn:E. pose proof (add56_out v (get_acc dsp d)) as [Ho Hsr].
  rewrite E in Ho, Hsr. by apply typed_finish_mac.
Qed.
Lemma emu_macr_keeps s sg r1 r2 d : 0 <= d <= 1 -> keeps s (emu_macr sg r1 r2 d).
Proof.
  intros Hd n dsp HT. eapply safe_bind; [apply mul56_out|]. intros v Hv.
  destruct (dsp_add56 v _) eqn:E. pose proof (add56_out v (get_acc dsp d)) as [Ho Hsr].
  rewrite E in Ho, Hsr. apply typed_finish_mac; try done. apply rnd56_out.
Qed.

Lemma emu_clr_keeps s d : 0 <= d <= 1 -> keeps s (emu_clr d).
Proof.
  intros Hd n dsp HT. apply typed_sr_or_const; [done|]. apply typed_sr_clear, typed_set_acc; [done..|].
  apply acc_wf_typed, zero_wf.
Qed.
Lemma emu_tfr_acc_keeps s d : 0 <= d <= 1 -> keeps s (emu_tfr_acc d).
Proof.
  intros Hd n dsp HT. destruct (width_acc s d Hd) as (W0 & W1 & W2).
  destruct (width_acc s (1 - d) ltac:(lia)) as (V0 & V1 & V2).
  assert (forall dsp' r w, typed s n dsp' -> 0 <= r < 62 -> width s (r + (1 - d)) = w ->
    0 <= getr dsp' (r + (1 - d)) < 2 ^ w) as Hget.
  { intros dsp' r w HT' Hr Hw. apply (typed_getr s n); [done|lia|done]. }
  unfold emu_tfr_acc. apply typed_setr; [|rewrite W2; apply Hget; [|done..]];
    (apply typed_setr; [|rewrite W1; apply Hget; [|done..]]);
    (apply typed_setr; [done|rewrite W0; by apply Hget]).
Qed.
Lemma emu_tfr_reg_keeps s r d : 0 <= d <= 1 -> 0 <= r < 64 -> width s r = dw s -> keeps s (emu_tfr_reg r d).
Proof.
  intros Hd Hr Hw n dsp HT. destruct (width_acc s d Hd) as (W0 & W1 & W2).
  assert (typed s n (setr (DSP_REG_A0 + d) 0 dsp)) as HT0.
  { apply typed_setr; [done|]. rewrite W0. by destruct s. }
  apply typed_setr; [|rewrite W2; apply sign_ext24_range].
  apply typed_setr; [done|]. rewrite W1. by apply (typed_getr s n).
Qed.

(** The operations of the table: an undefined one takes 100 cycles more. *)
Definition alu_ok (s : bool) (op : dsp_core P -> result (dsp_core P)) : Prop :=
  forall n dsp, n <= 1000 -> typed s n dsp -> safe (typed s (n + 100)) (op dsp).

Lemma keeps_alu s op : keeps s op -> alu_ok s op.
Proof.
  intros Hk n dsp Hn HT. eapply safe_weaken; [by apply Hk|]. intros d. apply typed_weaken. lia.
Qed.
Lemma emu_undefined_ok s : alu_ok s emu_undefined.
Proof.
  intros n dsp Hn HT. eapply safe_bind; [by apply safe_check|]. intros _ _.
  apply typed_add_cycles; [done|lia|]. destruct HT. by constructor.
Qed.
Lemma emu_max_ok : alu_ok false emu_max.
Proof.
  apply keeps_alu. intros n dsp HT.
  assert (forall r r' dsp', typed false n dsp' -> 0 <= r < 64 -> width false r = 32 -> width false r' = 32 ->
    typed false n (setr r' (getr dsp' r) dsp')) as Hmove.
  { intros r r' dsp' HT' Hr Hw Hw'. apply typed_setr; [done|]. rewrite Hw'. by apply (typed_getr false n). }
  unfold emu_max. apply typed_sr_or_bit; [destruct (_ || _); cbn; lia|done|].
  apply typed_sr_clear, typed_if; [|done]. by repeat apply Hmove.
Qed.

Lemma alu_row_reg_ok s r d : 0 <= d <= 1 -> 4 <= r < 8 -> Forall (alu_ok s) (alu_row_reg r d).
Proof.
  intros Hd Hr. assert (width s r = dw s) as Hw.
  { assert (r = 4 \/ r = 5 \/ r = 6 \/ r = 7) as [-> | [-> | [-> | ->]]] by lia; done. }
  repeat apply Forall_cons_2; try apply Forall_nil_2; apply keeps_alu; intros n dsp HT.
  - by apply emu_add_typed.
  - by apply emu_tfr_reg_keeps; [|lia|..].
  - apply typed_finish_logic; [done..|apply mask24_dw].
  - apply typed_finish_logic; [done..|apply mask24_dw].
  - by apply emu_sub_typed.
  - by apply emu_cmp_typed.
  - apply typed_finish_logic; [done..|]. apply land_range; [by destruct s|]. by apply (typed_A1 s n).
  - by apply emu_cmp_typed.
Qed.
Lemma alu_row_mul_ok s r1 r2 d : 0 <= d <= 1 -> Forall (alu_ok s) (alu_row_mul r1 r2 d).
Proof.
  intros Hd. unfold alu_row_mul. repeat apply Forall_cons_2; try apply Forall_nil_2;
    [apply keeps_alu, emu_mpy_keeps|apply keeps_alu, emu_mpyr_keeps|apply keeps_alu, emu_mac_keeps| |
     apply keeps_alu, emu_mpy_keeps|apply keeps_alu, emu_mpyr_keeps|apply keeps_alu, emu_mac_keeps|
     apply keeps_alu, emu_macr_keeps]; try done.
  case_match; apply keeps_alu; [by apply emu_mac_keeps|by apply emu_macr_keeps].
Qed.

Ltac solve_alu :=
  lazymatch goal with
  | |- alu_ok _ emu_undefined => apply emu_undefined_ok
  | |- alu_ok _ emu_move => apply keeps_alu; intros n dsp HT; exact HT
  | |- alu_ok _ (emu_adc _ _ _) => by apply keeps_alu, emu_adc_keeps
  | |- alu_ok _ (emu_sbc _ _ _) => by apply keeps_alu, emu_sbc_keeps
  | |- alu_ok _ (emu_lsl _) => by apply keeps_alu, emu_lsl_keeps
  | |- alu_ok _ (emu_lsr _) => by apply keeps_alu, emu_lsr_keeps
  | |- alu_ok _ (emu_rol _) => by apply keeps_alu, emu_rol_keeps
  | |- alu_ok _ (emu_ror _) => by apply keeps_alu, emu_ror_keeps
  | |- alu_ok _ (emu_clr _) => by apply keeps_alu, emu_clr_keeps
  | |- alu_ok _ (emu_tfr_acc _) => by apply keeps_alu, emu_tfr_acc_keeps
  | |- alu_ok _ (emu_addl _) => apply keeps_alu, emu_shift_add_keeps; [done|apply asl56_out|apply add56_out]
  | |- alu_ok _ (emu_addr _) => apply keeps_alu, emu_shift_add_keeps; [done|apply asr56_out|apply add56_out]
  | |- alu_ok _ (emu_subl _) => apply keeps_alu, emu_shift_add_keeps; [done|apply asl56_out|apply sub56_out]
  | |- alu_ok _ (emu_subr _) => apply keeps_alu, emu_shift_add_keeps; [done|apply asr56_out|apply sub56_out]
  | |- alu_ok _ (emu_asl _) => apply keeps_alu; intros n dsp; apply emu_shift_typed; [done|apply asl56_out]
  | |- alu_ok _ (emu_asr _) => apply keeps_alu; intros n dsp; apply emu_shift_typed; [done|apply asr56_out]
  | |- alu_ok _ (emu_add_acc _) => apply keeps_alu; intros n dsp; by apply emu_add_typed
  | |- alu_ok _ (emu_sub_acc _) => apply keeps_alu; intros n dsp; by apply emu_sub_typed
  | |- alu_ok _ (emu_add_xy _ _ _) => apply keeps_alu; intros n dsp; by apply emu_add_typed
  | |- alu_ok _ (emu_sub_xy _ _ _) => apply keeps_alu; intros n dsp; by apply emu_sub_typed
  | |- alu_ok _ (emu_cmp_acc _) => apply keeps_alu; intros n dsp; apply emu_cmp_typed
  | |- alu_ok _ (emu_cmpm_acc _) => apply keeps_alu; intros n dsp; apply emu_cmp_typed
  | |- alu_ok _ (emu_tst _) =>
      apply keeps_alu; intros n dsp HT; by apply typed_sr_clear, typed_ccr_update
  | |- alu_ok _ (emu_rnd _) =>
      apply keeps_alu; intros n dsp HT; by apply typed_ccr_update, typed_set_acc, acc_wf_typed, rnd56_out
  | |- alu_ok _ (emu_not _) =>
      apply keeps_alu; intros n dsp HT; apply typed_finish_logic; [done|done|apply mask24_dw]
  | |- alu_ok ?s (emu_abs _) =>
      apply keeps_alu; intros n dsp HT;
      apply finish_neg_typed; [done|by apply abs56_out, (typed_get_acc s n)|apply is_min_01|done]
  | |- alu_ok ?s (emu_neg _) =>
      apply keeps_alu; intros n dsp HT;
      apply finish_neg_typed; [done|apply acc_wf_typed, sub56_out|apply is_min_01|done]
  end.

Lemma alu_plain_ok s : Forall (alu_ok s) (take 29 opcodes_alu) /\ Forall (alu_ok s) (drop 30 (take 64 opcodes_alu)).
Proof.
  split; cbn [opcodes_alu take drop app]; repeat apply Forall_cons_2; try apply Forall_nil_2; solve_alu.
Qed.

Lemma alu_rows_ok s : Forall (alu_ok s) (drop 64 opcodes_alu).
Proof.
  change (Forall (alu_ok s)
    (flat_map (fun r => alu_row_reg r 0 ++ alu_row_reg r 1) [DSP_REG_X0; DSP_REG_Y0; DSP_REG_X1; DSP_REG_Y1]
     ++ flat_map (fun '(r1, r2) => alu_row_mul r1 r2 0 ++ alu_row_mul r1 r2 1)
       [(DSP_REG_X0, DSP_REG_X0); (DSP_REG_Y0, DSP_REG_Y0); (DSP_REG_X1, DSP_REG_X0); (DSP_REG_Y1, DSP_REG_Y0);
        (DSP_REG_X0, DSP_REG_Y1); (DSP_REG_Y0, DSP_REG_X0); (DSP_REG_X1, DSP_REG_Y0); (DSP_REG_Y1, DSP_REG_X1)])).
  cbn [flat_map]. rewrite !Forall_app. repeat split; try by apply Forall_nil_2.
  all: first [by apply alu_row_mul_ok | by apply alu_row_reg_ok].
Qed.

Lemma alu_table_ok s i op : opcodes_alu !! i = Some op -> (s = true -> i <> 29%nat) -> alu_ok s op.
Proof.
  change (opcodes_alu (P := P)) with
    (take 29 opcodes_alu ++ emu_max :: drop 30 (take 64 opcodes_alu) ++ drop 64 opcodes_alu : list (alu_op (P := P))).
  destruct (alu_plain_ok s) as [H1 H2]. pose proof (alu_rows_ok s) as H3.
  assert (length (take 29 (opcodes_alu (P := P))) = 29%nat) as Hl by done.
  revert H1 H2 H3 Hl. generalize (take 29 (opcodes_alu (P := P))).
  generalize (drop 30 (take 64 (opcodes_alu (P := P)))), (drop 64 (opcodes_alu (P := P))).
  unfold alu_op. intros l2 l3 l1 H1 H2 H3 Hl Hi Hs. apply lookup_app_Some in Hi as [Hi|[Hge Hi]].
  { by eapply Forall_lookup_1 in Hi. }
  destruct (i - length l1)%nat as [|k] eqn:Hk; cbn in Hi.
  - assert (i = 29%nat) as -> by lia. injection Hi as <-. destruct s; [by destruct (Hs eq_refl)|apply emu_max_ok].
  - apply lookup_app_Some in Hi as [Hi|[_ Hi]]; by eapply Forall_lookup_1 in Hi.
Qed.

(** What the operation that goes with a parallel move relies on. *)
Definition not_max (s : bool) : Prop := forall i, I i -> s = true -> narrow_alu i.

Lemma run_alu_typed s n dsp : not_max s -> n <= 1000 -> typed s n dsp -> safe (typed s (n + 100)) (run_alu dsp).
Proof.
  intros HI Hn HT. pose proof (land_mask_range (cur_inst dsp) 8 ltac:(done)) as Hr. unfold run_alu.
  eapply safe_bind; [apply safe_fetch; by change (Z.of_nat (length (opcodes_alu (P := P)))) with (2 ^ 8)|].
  intros op Hop. cbv beta in Hop. apply (alu_table_ok s _ op Hop); [|done..]. intros Hs Heq.
  destruct (ty_inst _ _ _ _ _ HT) as [_ Hinst]. apply (HI _ Hinst Hs). lia.
Qed.

(** ** Addresses *)

Lemma typed_setR s n k v dsp : typed s n dsp -> 0 <= k < 8 -> 0 <= v < 2 ^ 24 ->
  typed s n (setr (DSP_REG_R0 + k) v dsp).
Proof. intros HT Hk Hv. apply typed_setr; [done|]. by destruct (width_R s k Hk) as (-> & _). Qed.
Lemma typed_R s n k dsp : typed s n dsp -> 0 <= k < 8 -> 0 <= getr dsp (DSP_REG_R0 + k) < 2 ^ 24.
Proof.
  intros HT Hk. apply (typed_getr s n); [done|unfold DSP_REG_R0; lia|by apply width_R].
Qed.
Lemma mask16_24 x : 0 <= Z.land x (BITMASK 16) < 2 ^ 24.
Proof. apply (range_weaken _ 16); [done|by apply land_mask_range]. Qed.

Lemma reverse_bits_range m : forall i revbits r v, 0 <= i -> i + Z.of_nat m <= revbits <= 24 ->
  0 <= v < 2 ^ 24 -> 0 <= reverse_bits m i revbits r v < 2 ^ 24.
Proof.
  induction m as [|m IH]; intros i revbits r v Hi Hr Hv; [done|]. cbn [reverse_bits]. apply IH; [lia..|].
  case_match; [|done]. apply lor_range; [done..|]. rewrite Z.shiftl_mul_pow2 by lia.
  split; [lia|]. rewrite Z.mul_1_l. apply Z.pow_lt_mono_r; lia.
Qed.
Lemma lowest_bit_range m : forall i v, i <= lowest_bit m i v <= i + Z.of_nat m.
Proof.
  induction m as [|m IH]; intros i v; cbn [lowest_bit]; [lia|].
  case_match; [lia|]. specialize (IH (i + 1) v). lia.
Qed.
Lemma bitreverse_typed s n dsp k : typed s n dsp -> 0 <= k < 8 -> typed s n (emu_update_rn_bitreverse dsp k).
Proof.
  intros HT Hk. apply typed_setR; [done..|]. unfold reversed.
  pose proof (lowest_bit_range 16 0 (getr dsp (DSP_REG_N0 + k))).
  apply reverse_bits_range; [done|lia|]. apply land_range; [done|].
  apply lor_range; [done|apply land_range; [done|by apply (typed_R s n)]|].
  apply (range_weaken _ (lowest_bit 16 0 (getr dsp (DSP_REG_N0 + k)) + 1)); [lia|].
  apply land_mask_range. lia.
Qed.

Lemma modulo_typed s n dsp k m : typed s n dsp -> 0 <= k < 8 -> m <= 32767 ->
  1 <= u16 (getr dsp (DSP_REG_M0 + k)) <= 32767 ->
  safe (typed s n) (emu_update_rn_modulo dsp k m).
Proof.
  intros HT Hk Hm HM. unfold emu_update_rn_modulo.
  assert (0 <= getr dsp (DSP_REG_M0 + k) < 2 ^ 16) as Hr.
  { apply (typed_getr s n); [done|unfold DSP_REG_M0; lia|by apply width_R]. }
  rewrite u16_id in HM by done. rewrite (u16_id (_ + 1)) by (unfold is_u16; lia).
  destruct (modulo_buffer_bits _ HM) as (-> & Hbits & Hsize). cbn [mbind result_mbind result_bind].
  destruct (Z.ltb_spec (getr dsp (DSP_REG_M0 + k) + 1) m) as [Hlt|Hge].
  - destruct (step_up_spec (Z.to_nat m) (2 ^ buffer_bits (getr dsp (DSP_REG_M0 + k)))
                (s16 (getr dsp (DSP_REG_R0 + k))) m) as (r' & m' & -> & Hm' & _); [lia..|].
    cbn [mbind result_mbind result_bind]. rewrite step_down_none by lia. cbn [mbind result_mbind result_bind].
    apply typed_setR; [done..|apply mask16_24].
  - cbn [mbind result_mbind result_bind]. apply typed_setR; [done..|apply mask16_24].
Qed.

Lemma s16_le x : s16 x <= 32767.
Proof.
  unfold s16, signed. pose proof (u16_range x) as Hx. unfold is_u16 in Hx.
  change (2 ^ (16 - 1)) with 32768. destruct (Z.ltb_spec (u16 x) 32768); lia.
Qed.
Lemma update_rn_typed s n dsp k m : typed s n dsp -> 0 <= k < 8 -> m <= 32767 ->
  safe (typed s n) (emu_update_rn dsp k m).
Proof.
  intros HT Hk Hm. unfold emu_update_rn. pose proof (u16_range (getr dsp (DSP_REG_M0 + k))) as Hr.
  unfold is_u16 in Hr. case_match; [|case_match; [|case_match]].
  - apply typed_setR; [done..|apply mask16_24].
  - by apply bitreverse_typed.
  - apply modulo_typed; [done..|lia].
  - done.
Qed.

Lemma check_top x : is_u32 x -> (Z.land x 0xFF000000 =? 0) = true -> 0 <= x < 2 ^ 24.
Proof.
  intros Hx H. apply Z.eqb_eq in H.
  rewrite (land_high x 24 8 ltac:(done) ltac:(done) : Z.land x 0xFF000000 = _) in H.
  unfold is_u32 in Hx. assert (0 <= x / 2 ^ 24 < 2 ^ 8) as Hd.
  { split; [apply Z.div_pos; lia|]. apply Z.div_lt_upper_bound; lia. }
  rewrite Z.mod_small in H by done. pose proof (Z.mul_div_le x (2 ^ 24) ltac:(lia)).
  pose proof (Z.mod_pos_bound x (2 ^ 24) ltac:(lia)). pose proof (Z.div_mod x (2 ^ 24) ltac:(lia)). lia.
Qed.
Lemma read_p_typed s n dsp a : typed s n dsp -> safe (fun v => 0 <= v < 2 ^ 24) (read_memory_p dsp a).
Proof.
  intros HT. unfold read_memory_p. eapply safe_bind; [by apply safe_check|]. intros _ _.
  eapply safe_bind; [by apply safe_check|]. intros _ _.
  eapply safe_bind; [by apply safe_check|]. intros [] Hc.
  apply check_top; [apply (ty_p _ _ _ _ _ HT)|done].
Qed.
Lemma next_word_typed s n dsp : typed s n dsp -> safe (fun v => 0 <= v < 2 ^ 24) (next_word dsp).
Proof. apply read_p_typed. Qed.

Lemma calc_ea_typed s n dsp ea : typed s n dsp -> n <= 1000 ->
  safe (fun '(d, a, _) => typed s (n + 2) d /\ 0 <= a < 2 ^ 24) (emu_calc_ea dsp ea).
Proof.
  intros HT Hn. unfold emu_calc_ea.
  pose proof (land_mask_range ea 3 ltac:(done)) as Hk. change (2 ^ 3) with 8 in Hk.
  set (k := Z.land ea (BITMASK 3)) in *.
  assert (forall d, typed s n d -> typed s (n + 2) (add_cycles 2 d)) as Hadd.
  { intros d. apply typed_add_cycles; lia. }
  assert (forall d m, typed s (n + 2) d -> m <= 32767 -> safe (typed s (n + 2)) (emu_update_rn d k m)) as Hup.
  { intros d m HTd Hm. by apply update_rn_typed. }
  assert (typed s (n + 2) dsp) as HT2 by (apply (typed_weaken s n); [lia|done]).
  pose proof (fun d (H : typed s (n + 2) d) => typed_R s (n + 2) k d H Hk) as HR.
  do 4 (case_match; [eapply safe_bind; [apply Hup; [done|first [apply s16_le|lia]]|]; intros d HTd; split; auto|]).
  case_match; [split; auto|]. case_match; [|case_match].
  - eapply safe_bind; [apply Hup; [by apply Hadd|apply s16_le]|]. intros d HTd. split; [|auto].
    apply typed_setR; [done..|]. by apply HR, Hadd.
  - eapply safe_bind; [by apply (read_p_typed s (n + 2)), Hadd|]. intros a Ha.
    split; [by apply typed_add_len, Hadd|done].
  - eapply safe_bind; [apply Hup; [by apply Hadd|lia]|]. intros d HTd. split; auto.
Qed.

(** ** Memory *)

Lemma dw24 s x : 0 <= x < 2 ^ 24 -> 0 <= x < 2 ^ dw s.
Proof. apply range_weaken. by destruct s. Qed.

Lemma read_memory_typed s n dsp sp a : typed s n dsp ->
  safe (fun '(d, v) => typed s n d /\ 0 <= v < 2 ^ dw s) (dsp56k_read_memory dsp sp a).
Proof.
  intros HT. unfold dsp56k_read_memory. eapply safe_bind; [by apply safe_check|]. intros _ _.
  destruct HT as [] eqn:E. repeat case_match; try (split; [done|auto; apply dw24; lia]); try done.
  - by apply typed_read.
  - eapply safe_bind; [by apply safe_check|]. intros _ _. split; auto.
  - eapply safe_bind; [by apply (read_p_typed s n)|]. intros v Hv. split; [done|by apply dw24].
Qed.

Lemma rd_wr_range lo hi m a v b : (forall c, lo <= rd m c < hi) -> lo <= v < hi -> lo <= rd (wr a v m) b < hi.
Proof.
  intros Hm Hv. destruct (Z.eq_dec a b) as [->|]; [by rewrite rd_wr_eq|by rewrite rd_wr_ne].
Qed.

Lemma write_memory_typed s n dsp sp a v : typed s n dsp -> is_u32 v ->
  safe (typed s n) (dsp56k_write_memory dsp sp a v).
Proof.
  intros HT Hv. unfold dsp56k_write_memory, write_memory_raw.
  eapply safe_bind; [by apply safe_check|]. intros [] Hc. apply check_top in Hc; [|done].
  pose proof (dw24 s _ Hc) as Hd.
  eapply safe_bind; [by apply safe_check|]. intros [] _.
  destruct (sp =? DSP_SPACE_X); [|destruct (sp =? DSP_SPACE_Y); [|destruct (sp =? DSP_SPACE_P); [|done]]].
  - case_match; [by apply typed_write|]. destruct HT.
    case_match; [|case_match; [|eapply safe_bind; [by apply safe_check|]; intros [] _]];
      constructor; try assumption; intros b; by apply rd_wr_range.
  - eapply safe_bind; [by apply safe_check|]. intros [] _. destruct HT.
    constructor; try assumption; intros b; by apply rd_wr_range.
  - eapply safe_bind; [by apply safe_check|]. intros [] _. destruct HT.
    constructor; try assumption; [intros b; apply rd_wr_range; [done|unfold is_u32 in Hv; lia]|].
    intros b e. cbn. destruct (Z.eq_dec a b) as [->|Hne]; [by rewrite lookup_delete_eq|].
    rewrite lookup_delete_ne, rd_wr_ne by done. match goal with H : pram_cache_ok _ |- _ => apply H end.
Qed.

(** ** The stack and the control registers *)

Lemma add_interrupt_typed s n dsp i : typed s n dsp -> 0 <= i < 4 ->
  safe (typed s n) (dsp56k_add_interrupt dsp i).
Proof.
  intros HT Hi. unfold dsp56k_add_interrupt.
  rewrite (proj2 (Z.leb_le 0 i)), (proj2 (Z.ltb_lt i 4)) by lia. cbn [andb negb].
  repeat case_match; try done. destruct HT. by constructor.
Qed.
(** The interrupt of a stack error, then an assertion when debugging. *)
Lemma stack_error_typed s n (b : bool) what dsp : typed s n dsp ->
  safe (typed s n)
    (if b then dsp ← dsp56k_add_interrupt dsp DSP_INTER_STACK_ERROR;
               _ ← check (negb (exception_debugging dsp)) what; Ok dsp
     else Ok dsp).
Proof.
  intros HT. destruct b; [|done]. eapply safe_bind; [by apply add_interrupt_typed|]. intros d HTd.
  eapply safe_bind; [by apply safe_check|]. by intros.
Qed.
Lemma typed_ssh_ssl s n dsp k : typed s n dsp ->
  typed s n (setr DSP_REG_SSL (rd (ssl_stack dsp) k) (setr DSP_REG_SSH (rd (ssh_stack dsp) k) dsp)).
Proof.
  intros HT. apply typed_setr; [|apply (ty_ssl _ _ _ _ _ HT)].
  apply typed_setr; [done|apply (ty_ssh _ _ _ _ _ HT)].
Qed.
Lemma typed_setsp s n v dsp : typed s n dsp -> typed s n (setr DSP_REG_SP (Z.land v (BITMASK 6)) dsp).
Proof. intros HT. apply typed_setr; [done|]. by apply (land_mask_range v 6). Qed.

Lemma stack_push_typed s n dsp p v o : typed s n dsp -> safe (typed s n) (dsp_stack_push dsp p v o).
Proof.
  intros HT. unfold dsp_stack_push.
  eapply safe_bind; [by apply stack_error_typed|]. intros d HTd. apply typed_ssh_ssl.
  pose proof (typed_setsp s n (Z.lor (Z.lor (Z.land (getr dsp DSP_REG_SP) (bit DSP_SP_UF))
    (Z.land (getr dsp DSP_REG_SP) (bit DSP_SP_SE))) (Z.land (getr dsp DSP_REG_SP) (BITMASK 4) + 1)) d HTd) as HT1.
  assert (forall x, is_u16 (Z.land x (BITMASK 16))) as H16 by (intros x; by apply land_mask_range).
  destruct HT1. case_match; [|].
  - case_match; constructor; try assumption; intros b; proj_red; by apply rd_wr_range; [|apply H16].
  - constructor; try assumption; intros b; proj_red; by apply rd_wr_range.
Qed.
Lemma stack_pop_typed s n dsp : typed s n dsp ->
  safe (fun '(d, p, v) => typed s n d /\ is_u16 p /\ is_u16 v) (dsp_stack_pop dsp).
Proof.
  intros HT. unfold dsp_stack_pop.
  eapply safe_bind; [by apply stack_error_typed|]. intros d HTd.
  match goal with |- context [setr DSP_REG_SP (Z.land ?v _) d] =>
    pose proof (typed_setsp s n v d HTd) as HT1; revert HT1; generalize (setr DSP_REG_SP (Z.land v (BITMASK 6)) d) end.
  intros d1 HT1. split; [by apply typed_ssh_ssl|].
  split; [apply (typed_getr s n d1 DSP_REG_SSH 16 HT1)|apply (typed_getr s n d1 DSP_REG_SSL 16 HT1)]; done.
Qed.

Lemma mask_le_width s r m : registers_mask !! Z.to_nat r = Some m -> 0 <= r -> 0 <= m <= width s r.
Proof.
  intros Hm Hr. assert (Z.to_nat r < 64)%nat as Hlt by (apply lookup_lt_Some in Hm; exact Hm).
  assert (forallb (fun k => match registers_mask !! k with
    | Some m => (0 <=? m) && (m <=? width true (Z.of_nat k)) && (m <=? width false (Z.of_nat k))
    | None => true end) (seq 0 64) = true) as Hall by reflexivity.
  rewrite forallb_forall in Hall. specialize (Hall (Z.to_nat r)). rewrite Hm, Z2Nat.id in Hall by done.
  assert (In (Z.to_nat r) (seq 0 64)) as Hin by (apply in_seq; lia). specialize (Hall Hin).
  rewrite !andb_true_iff, !Z.leb_le in Hall. destruct s; lia.
Qed.
Lemma set_masked_typed s n r v dsp : typed s n dsp -> 0 <= r < 64 ->
  safe (typed s n) (mask ← fetch registers_mask r; Ok (setr r (Z.land v (BITMASK mask)) dsp)).
Proof.
  intros HT Hr. eapply safe_bind; [apply safe_fetch; exact Hr|]. intros m Hm. cbv beta in Hm.
  destruct (mask_le_width s r m Hm) as [Hm0 Hmw]; [lia|]. apply typed_setr; [done|].
  apply (range_weaken _ m); [done|]. by apply land_mask_range.
Qed.

(** The three limbs of an accumulator loaded with a word. *)
Lemma typed_load_accu s n d v dsp : typed s n dsp -> 0 <= d <= 1 -> 0 <= v < 2 ^ dw s ->
  typed s n (load_accu d v dsp).
Proof.
  intros HT Hd Hv. destruct (width_acc s d Hd) as (W0 & W1 & W2). unfold load_accu.
  apply typed_setr; [|rewrite W2; apply sign_ext24_range].
  apply typed_setr; [|by rewrite W1]. apply typed_setr; [done|]. rewrite W0. by destruct s.
Qed.

Lemma write_reg_typed s n dsp r v : typed s n dsp -> 0 <= r < 64 -> 0 <= v < 2 ^ 32 ->
  (is_accu r = true -> 0 <= v < 2 ^ dw s) -> safe (typed s n) (dsp_write_reg dsp r v).
Proof.
  intros HT Hr Hv Hacc. unfold dsp_write_reg. unfold is_accu in Hacc.
  destruct (r =? DSP_REG_A); [by apply (typed_load_accu s n 0 v dsp HT), Hacc|].
  destruct (r =? DSP_REG_B); [by apply (typed_load_accu s n 1 v dsp HT), Hacc|].
  case_match.
  { apply typed_setr; [done|]. rewrite Z.land_comm. by apply (land_range 0xc7 v 8). }
  case_match.
  { apply typed_setr; [done|]. rewrite Z.land_comm. by apply (land_range 0xaf7f v 16). }
  case_match.
  { eapply (safe_bind _ (typed s n)).
    - case_match; [|by apply typed_setsp].
      eapply safe_bind; [by apply add_interrupt_typed|]. intros d HTd.
      eapply safe_bind; [by apply safe_check|]. intros [] _. apply typed_setr; [done|].
      rewrite Z.land_comm. by apply (land_range (Z.shiftl 3 DSP_SP_SE) v 6).
    - intros d HTd. by apply typed_ssh_ssl. }
  case_match; [by apply stack_push_typed|]. case_match; [|by apply set_masked_typed].
  assert (forall x, is_u16 (Z.land x (BITMASK 16))) as H16 by (intros x; by apply land_mask_range).
  apply typed_setr; [|apply H16]. destruct HT. constructor; try assumption.
  intros b. by apply rd_wr_range; [|apply H16].
Qed.

(** ** Parallel moves *)

Lemma width_dw s r : width s r <= dw s.
Proof. unfold width, ew, dw. destruct s; repeat case_match; lia. Qed.
Lemma typed_reg_dw s n dsp r : typed s n dsp -> 0 <= r < 64 -> 0 <= getr dsp r < 2 ^ dw s.
Proof.
  intros HT Hr. apply (range_weaken _ (width s r)); [apply width_dw|]. by apply (ty_regs _ _ _ _ _ HT).
Qed.
Lemma inst_bits_range dsp a k : 0 <= k -> 0 <= inst_bits dsp a k < 2 ^ k.
Proof. apply land_mask_range. Qed.
Lemma inst_bit_01 dsp a : 0 <= inst_bit dsp a <= 1.
Proof. apply bit_of_01. Qed.

Lemma inst_bit_cases dsp a : inst_bit dsp a = 0 \/ inst_bit dsp a = 1.
Proof. apply bit_of_range. Qed.

Lemma read_accu24_typed s n dsp r : typed s n dsp ->
  let '(d, v, _) := emu_pm_read_accu24 dsp r in typed s n d /\ 0 <= v < 2 ^ 24.
Proof.
  intros HT. unfold emu_pm_read_accu24.
  match goal with |- context [Z.land ?x (BITMASK 24)] =>
    pose proof (land_mask_range x 24 ltac:(done)) as Hv; revert Hv; generalize (Z.land x (BITMASK 24)) end.
  intros v Hv. assert (typed s n (sr_or (bit DSP_SR_L) dsp)) as HL by (apply typed_sr_or; [by apply bit_u16|done]).
  destruct (_ && _); [done|]. destruct (_ && _); [done|]. destruct (has _ _); (split; [exact HL|lia]).
Qed.
Lemma read_reg_typed s n dsp r : typed s n dsp -> 0 <= r < 64 ->
  let '(d, v) := read_reg dsp r in typed s n d /\ 0 <= v < 2 ^ dw s.
Proof.
  intros HT Hr. unfold read_reg. destruct (is_accu r); [|split; [done|by apply (typed_reg_dw s n)]].
  pose proof (read_accu24_typed s n dsp r HT) as H. destruct (emu_pm_read_accu24 dsp r) as [[d v] l].
  destruct H as [Hd Hv]. split; [done|by apply dw24].
Qed.
Lemma write_raw_typed s n r v dsp : typed s n dsp -> width s r = dw s -> 0 <= v < 2 ^ dw s ->
  typed s n (write_reg_raw r v dsp).
Proof.
  intros HT Hw Hv. unfold write_reg_raw. case_match; [by apply typed_load_accu|].
  case_match; [by apply typed_load_accu|]. apply typed_setr; [done|by rewrite Hw].
Qed.
Lemma write_reg_masked_typed s n r v dsp : typed s n dsp -> 0 <= r < 64 -> 0 <= v < 2 ^ dw s ->
  safe (typed s n) (write_reg_masked r v dsp).
Proof.
  intros HT Hr Hv. unfold write_reg_masked. case_match; [by apply typed_load_accu|].
  case_match; [by apply typed_load_accu|]. by apply set_masked_typed.
Qed.
Lemma reg_x_width s v : width s (reg_x v) = dw s /\ 0 <= reg_x v < 64.
Proof. unfold reg_x. repeat case_match; done. Qed.
Lemma reg_y_width s v : width s (reg_y v) = dw s /\ 0 <= reg_y v < 64.
Proof. unfold reg_y. repeat case_match; done. Qed.
Lemma read_long_typed s n dsp r : typed s n dsp ->
  let '(d, x, y) := read_long dsp r in typed s n d /\ 0 <= x < 2 ^ dw s /\ 0 <= y < 2 ^ dw s.
Proof.
  intros HT. unfold read_long.
  pose proof (fun d (H : typed s n d) r (Hr : 0 <= r < 64) => typed_reg_dw s n d r H Hr) as Hreg.
  do 4 (destruct (r =? _); [split; [done|split; by apply Hreg]|]).
  pose proof (read_accu24_typed s n dsp DSP_REG_A HT) as HA.
  pose proof (read_accu24_typed s n dsp DSP_REG_B HT) as HB.
  destruct (emu_pm_read_accu24 dsp DSP_REG_A) as [[dA vA] lA].
  destruct (emu_pm_read_accu24 dsp DSP_REG_B) as [[dB vB] lB].
  destruct HA as [HA HvA], HB as [HB HvB].
  assert (forall b c, 0 <= b < 2 ^ dw s -> 0 <= (if c : bool then (if has vA (bit 23) then 0 else 0xffffff) else b)
    < 2 ^ dw s) as Hlim by (intros b [] Hb; [apply dw24; destruct (has _ _); lia|done]).
  destruct (r =? 4); [|destruct (r =? 5); [|destruct (r =? 6)]].
  - split; [done|]. split; [by apply dw24|]. apply Hlim. by apply Hreg.
  - split; [done|]. split; [by apply dw24|]. destruct lB; [|by apply Hreg]. apply dw24. clear; destruct (has vB _); lia.
  - pose proof (read_accu24_typed s n dA DSP_REG_B HA) as H.
    destruct (emu_pm_read_accu24 dA DSP_REG_B) as [[d v] l]. destruct H as [Hd Hv].
    split; [done|]. split; by apply dw24.
  - pose proof (read_accu24_typed s n dB DSP_REG_A HB) as H.
    destruct (emu_pm_read_accu24 dB DSP_REG_A) as [[d v] l]. destruct H as [Hd Hv].
    split; [done|]. split; by apply dw24.
Qed.
Lemma write_long_typed s n dsp r x y : typed s n dsp -> 0 <= x < 2 ^ dw s -> 0 <= y < 2 ^ dw s ->
  typed s n (write_long r x y dsp).
Proof.
  intros HT Hx Hy. unfold write_long.
  do 4 (case_match; [by repeat apply typed_setr|]).
  case_match; [|case_match; [|case_match]].
  - apply typed_setr; [|apply (sign_ext24_range s)]. by repeat apply typed_setr.
  - apply typed_setr; [|apply (sign_ext24_range s)]. by repeat apply typed_setr.
  - by repeat apply typed_load_accu.
  - by repeat apply typed_load_accu.
Qed.

Definition pm_ok (s : bool) (op : dsp_core P -> result (dsp_core P)) : Prop :=
  forall n dsp, not_max s -> n <= 500 -> typed s n dsp -> safe (typed s (n + 104)) (op dsp).

Lemma typed_u32 s x : 0 <= x < 2 ^ dw s -> is_u32 x.
Proof. apply range_weaken. by destruct s. Qed.
Lemma typed_u32_24 x : 0 <= x < 2 ^ 24 -> is_u32 x.
Proof. by apply range_weaken. Qed.

Lemma pm_0_ok s : pm_ok s emu_pm_0.
Proof.
  intros n dsp HI Hn HT. unfold emu_pm_0. step calc_ea_typed; [lia|]. intros [[d1 a] im] [HT1 Ha].
  pose proof (read_accu24_typed s (n + 2) d1 (inst_bit dsp 16) HT1) as H.
  destruct (emu_pm_read_accu24 d1 _) as [[d2 v] l]. destruct H as [HT2 Hv].
  step (run_alu_typed s (n + 2)); [lia|]. intros d3 HT3.
  step write_memory_typed; [by apply typed_u32_24|]. intros d4 HT4.
  apply (typed_weaken s (n + 2 + 100)); [lia|]. apply typed_load_accu; [done|apply inst_bit_01|].
  apply (typed_reg_dw s (n + 2)); [done|]. pose proof (inst_bit_01 dsp 15).
  rewrite Z.shiftl_mul_pow2 by done. unfold DSP_REG_X0. lia.
Qed.

(** The value moved into a register: immediate or from memory, or read from a register. *)
Lemma move_source_typed s n (b retour : bool) sp a r dsp : typed s n dsp -> 0 <= a < 2 ^ 24 -> 0 <= r < 64 ->
  safe (fun '(d, v) => typed s n d /\ 0 <= v < 2 ^ dw s)
    (if b then if retour then Ok (dsp, a) else dsp56k_read_memory dsp sp a else Ok (read_reg dsp r)).
Proof.
  intros HT Ha Hr. destruct b.
  - destruct retour; [split; [done|by apply dw24]|by apply read_memory_typed].
  - pose proof (read_reg_typed s n dsp r HT Hr) as H. by destruct (read_reg dsp r).
Qed.

Lemma pm_1_ok s : pm_ok s emu_pm_1.
Proof.
  intros n dsp HI Hn HT. unfold emu_pm_1. step calc_ea_typed; [lia|]. intros [[d1 a] im] [HT1 Ha].
  set (r1 := if negb _ then reg_y _ else reg_x _).
  assert (width s r1 = dw s /\ 0 <= r1 < 64) as [Hw1 Hr1].
  { subst r1. case_match; [apply reg_y_width|apply reg_x_width]. }
  step (move_source_typed s (n + 2)). intros [d2 v1] [HT2 Hv1].
  match goal with |- context [emu_pm_read_accu24 d2 ?r] => pose proof (read_accu24_typed s (n + 2) d2 r HT2) as H;
    destruct (emu_pm_read_accu24 d2 r) as [[d3 v2] l] end. destruct H as [HT3 Hv2].
  step (run_alu_typed s (n + 2)); [lia|]. intros d4 HT4.
  eapply (safe_bind _ (typed s (n + 2 + 100))).
  { case_match; [|apply write_memory_typed; [done|by apply (typed_u32 s)]].
    apply typed_setr; [by apply write_raw_typed|by rewrite Hw1]. }
  intros d5 HT5. apply (typed_weaken s (n + 2 + 100)); [lia|]. apply typed_setr; [done|].
  destruct (negb _); [destruct (inst_bit_cases d5 18) as [-> | ->]|destruct (inst_bit_cases d5 16) as [-> | ->]];
    by apply (dw24 s).
Qed.

Lemma pm_2_2_ok s : pm_ok s emu_pm_2_2.
Proof.
  intros n dsp HI Hn HT. unfold emu_pm_2_2.
  pose proof (inst_bits_range dsp 13 5 ltac:(done)) as Hr. pose proof (inst_bits_range dsp 8 5 ltac:(done)) as Hr'.
  pose proof (read_reg_typed s n dsp (inst_bits dsp 13 5) HT ltac:(lia)) as H.
  destruct (read_reg dsp _) as [d1 v]. destruct H as [HT1 Hv].
  step (run_alu_typed s n); [lia|]. intros d2 HT2. eapply safe_weaken.
  - apply write_reg_masked_typed; [exact HT2|lia|done].
  - intros d. apply typed_weaken. lia.
Qed.
Lemma pm_3_ok s : pm_ok s emu_pm_3.
Proof.
  intros n dsp HI Hn HT. unfold emu_pm_3. step (run_alu_typed s n); [lia|]. intros d HTd.
  pose proof (inst_bits_range d 16 5 ltac:(done)) as Hr. pose proof (inst_bits_range d 8 8 ltac:(done)) as Hv.
  eapply safe_weaken.
  - apply write_reg_masked_typed; [exact HTd|lia|]. apply dw24.
    rewrite Z.shiftl_mul_pow2 by done. destruct (_ || _); lia.
  - intros d'. apply typed_weaken. lia.
Qed.
Lemma pm_2_ok s : pm_ok s emu_pm_2.
Proof.
  intros n dsp HI Hn HT. unfold emu_pm_2. case_match; [|case_match; [|case_match]].
  - eapply safe_weaken; [apply (run_alu_typed s n); [done|lia|done]|]. intros d. apply typed_weaken. lia.
  - step calc_ea_typed; [lia|]. intros [[d1 a] im] [HT1 Ha].
    eapply safe_weaken; [apply (run_alu_typed s (n + 2)); [done|lia|done]|]. intros d. apply typed_weaken. lia.
  - by apply pm_2_2_ok.
  - by apply pm_3_ok.
Qed.

Lemma pm_4x_ok s : pm_ok s emu_pm_4x.
Proof.
  intros n dsp HI Hn HT. unfold emu_pm_4x.
  pose proof (inst_bits_range dsp 8 6 ltac:(done)) as Hb.
  eapply (safe_bind _ (fun '(d, a) => typed s (n + 2) d /\ 0 <= a < 2 ^ 24)).
  { case_match; [step calc_ea_typed; [lia|]; by intros [[d a] im]|].
    split; [apply (typed_weaken s n); [lia|done]|lia]. }
  intros [d1 a] [HT1 Ha].
  eapply (safe_bind _ (fun '(d, x, y) => typed s (n + 2) d /\ 0 <= x < 2 ^ dw s /\ 0 <= y < 2 ^ dw s)).
  { case_match.
    - step (read_memory_typed s (n + 2)). intros [d x] [HTd Hx].
      step (read_memory_typed s (n + 2)). intros [d' y] [HTd' Hy]. done.
    - match goal with |- context [read_long d1 ?r] => pose proof (read_long_typed s (n + 2) d1 r HT1) as Hl end.
      by destruct (read_long d1 _) as [[d x] y]. }
  intros [[d2 x] y] (HT2 & Hx & Hy). step (run_alu_typed s (n + 2)); [lia|]. intros d3 HT3.
  assert (forall d, typed s (n + 2 + 100) d -> typed s (n + 104) d) as Hw by (intros d; apply typed_weaken; lia).
  case_match; [by apply Hw, write_long_typed|].
  step write_memory_typed; [by apply (typed_u32 s)|]. intros d4 HT4. eapply safe_weaken; [|exact Hw].
  apply write_memory_typed; [done|by apply (typed_u32 s)].
Qed.

Lemma pm_5_ok s : pm_ok s emu_pm_5.
Proof.
  intros n dsp HI Hn HT. unfold emu_pm_5.
  pose proof (inst_bits_range dsp 8 6 ltac:(done)) as Hb.
  eapply (safe_bind _ (fun '(d, a, _) => typed s (n + 2) d /\ 0 <= a < 2 ^ 24)).
  { case_match; [apply calc_ea_typed; [done|lia]|].
    split; [apply (typed_weaken s n); [lia|done]|lia]. }
  intros [[d1 a] im] [HT1 Ha]. set (r := Z.lor _ _).
  assert (0 <= r < 64) as Hr.
  { apply (lor_range _ _ 6); [done|pose proof (inst_bits_range d1 16 3 ltac:(done)); lia|].
    rewrite Z.land_comm. by apply (land_range _ _ 6). }
  step (move_source_typed s (n + 2)). intros [d2 v] [HT2 Hv].
  step (run_alu_typed s (n + 2)); [lia|]. intros d3 HT3.
  assert (forall d, typed s (n + 2 + 100) d -> typed s (n + 104) d) as Hw by (intros d; apply typed_weaken; lia).
  eapply safe_weaken; [|exact Hw]. case_match.
  - by apply write_reg_masked_typed.
  - apply write_memory_typed; [done|by apply (typed_u32 s)].
Qed.

Lemma pm_4_ok s : pm_ok s emu_pm_4.
Proof. intros n dsp HI Hn HT. unfold emu_pm_4. case_match; [by apply pm_4x_ok|by apply pm_5_ok]. Qed.

(** One of the two moves of the last kind: its source, and its destination. *)
Lemma move_dest_typed s n (b : bool) r v sp a dsp : typed s n dsp -> width s r = dw s -> 0 <= v < 2 ^ dw s ->
  safe (typed s n) (if b then Ok (write_reg_raw r v dsp) else dsp56k_write_memory dsp sp a v).
Proof.
  intros HT Hr Hv. destruct b; [by apply write_raw_typed|]. apply write_memory_typed; [done|by apply (typed_u32 s)].
Qed.

Lemma pm_8_ok s : pm_ok s emu_pm_8.
Proof.
  intros n dsp HI Hn HT. unfold emu_pm_8. step calc_ea_typed; [lia|]. intros [[d1 x] im] [HT1 Hx].
  step calc_ea_typed; [lia|]. intros [[d2 y] im'] [HT2 Hy].
  destruct (reg_x_width s (inst_bits d2 18 2)) as [Hw1 Hr1], (reg_y_width s (inst_bits d2 16 2)) as [Hw2 Hr2].
  step (move_source_typed s (n + 2 + 2) (inst_has d2 15) false). intros [d3 v1] [HT3 Hv1].
  step (move_source_typed s (n + 2 + 2) (inst_has d3 22) false). intros [d4 v2] [HT4 Hv2].
  step (run_alu_typed s (n + 2 + 2)); [lia|]. intros d5 HT5.
  step (move_dest_typed s (n + 2 + 2 + 100)). intros d6 HT6.
  eapply safe_weaken; [by apply (move_dest_typed s (n + 2 + 2 + 100))|]. intros d. apply typed_weaken. lia.
Qed.

Lemma run_parmove_ok s i : 0 <= i < 16 -> pm_ok s (run_parmove i).
Proof.
  intros Hi. assert (Forall (pm_ok s) opcodes_parmove) as Hall.
  { repeat apply Forall_cons_2; try apply Forall_nil_2;
      [exact (pm_0_ok s)|exact (pm_1_ok s)|exact (pm_2_ok s)|exact (pm_3_ok s)|exact (pm_4_ok s)| | | | ..];
      lazymatch goal with |- pm_ok _ emu_pm_5 => exact (pm_5_ok s) | |- pm_ok _ emu_pm_8 => exact (pm_8_ok s) end. }
  intros n dsp HI Hn HT. unfold run_parmove. eapply safe_bind; [by apply safe_fetch|].
  intros op Hop. cbv beta in Hop. eapply Forall_lookup_1 in Hop; [|done]. by apply Hop.
Qed.
End Soundness.
