(* ===== verification/DspSound.v ===== *)
(** * Type soundness of the DSP instruction set: instructions and execution
    (src/xemu/hw/xbox/mcpx/apu/dsp/interp/dsp_cpu.c, dsp_emu.c.inc)

    The instructions without a parallel move keep the types of DspTyped.v, and so does
    the execution of an instruction with what follows it: loops and interrupts. *)

From S2P Require Import Prelude DspArith DspCore DspDecode DspEmuAlu DspEmuMove DspEmuOps DspEmu DspTyped.

Section Instructions.
Context {P : Type} `{!DspPeripheral P}.
Context {periph_typed : bool -> P -> Prop} {periph_fault : fault -> Prop}.
Context `{!TypedPeripheral periph_typed periph_fault}.
Context {I : Z -> Prop}.
Implicit Types dsp : dsp_core P.
Local Abbreviation typed := (typed periph_typed I).
Local Abbreviation safe := (safe (allowed periph_fault)).
Local Abbreviation keeps := (keeps (periph_typed := periph_typed) (periph_fault := periph_fault) (I := I)).
Local Abbreviation alu_ok := (alu_ok (periph_typed := periph_typed) (periph_fault := periph_fault) (I := I)).

Definition op_ok (s : bool) (op : dsp_core P -> result (dsp_core P)) : Prop :=
  forall n dsp, n <= 500 -> typed s n dsp -> safe (typed s (n + 104)) (op dsp).

Lemma keeps_op s op : keeps s op -> op_ok s op.
Proof. intros H n dsp Hn HT. eapply safe_weaken; [by apply H|]. intros d. apply typed_weaken. lia. Qed.
Lemma alu_op_ok s op : alu_ok s op -> op_ok s op.
Proof. intros H n dsp Hn HT. eapply safe_weaken; [apply (H n); [lia|done]|]. intros d. apply typed_weaken. lia. Qed.
(** The cycles an instruction adds at its end. *)
Lemma typed_finish s n m k dsp : 2 <= m -> 0 <= k -> n <= m -> m + k < 2 ^ 16 -> typed s n dsp ->
  typed s (m + k) (add_cycles k dsp).
Proof. intros Hm Hk Hn Hmk HT. apply typed_add_cycles; [done..|]. by apply (typed_weaken s n). Qed.

Lemma long_word_typed s n dsp : typed s n dsp ->
  safe (fun '(d, x) => typed s n d /\ 0 <= x < 2 ^ 24) (long_word dsp).
Proof.
  intros HT. unfold long_word. step (next_word_typed s n). intros x Hx. split; [by apply typed_add_len|done].
Qed.

(** An instruction with a long operand that otherwise keeps the types. *)
Lemma long_keeps s (f : dsp_core P -> Z -> result (dsp_core P)) :
  (forall n dsp x, typed s n dsp -> 0 <= x < 2 ^ 24 -> safe (typed s n) (f dsp x)) ->
  keeps s (fun dsp => '(dsp, xxxx) ← long_word dsp; f dsp xxxx).
Proof. intros Hf n dsp HT. step (long_word_typed s n). intros [d x] [HTd Hx]. by apply Hf. Qed.

Lemma add_imm_keeps s : keeps s emu_add_imm.
Proof. intros n dsp HT. apply emu_add_typed; [apply inst_bit_01|done]. Qed.
Lemma add_long_keeps s : keeps s emu_add_long.
Proof.
  apply (long_keeps s (fun dsp x => emu_add_x x (inst_bit dsp 3) dsp)).
  intros n dsp x HT _. apply emu_add_typed; [apply inst_bit_01|done].
Qed.
Lemma sub_imm_keeps s : keeps s emu_sub_imm.
Proof. intros n dsp HT. apply emu_sub_typed; [apply inst_bit_01|done]. Qed.
Lemma sub_long_keeps s : keeps s emu_sub_long.
Proof.
  apply (long_keeps s (fun dsp x => emu_sub_x x (inst_bit dsp 3) dsp)).
  intros n dsp x HT _. apply emu_sub_typed; [apply inst_bit_01|done].
Qed.
Lemma and_x_typed s n x d dsp : typed s n dsp -> 0 <= d <= 1 -> safe (typed s n) (emu_and_x x d dsp).
Proof.
  intros HT Hd. apply typed_finish_logic; [done..|]. apply land_range; [by destruct s|]. by eapply (typed_A1 s n).
Qed.
Lemma and_imm_keeps s : keeps s emu_and_imm.
Proof. intros n dsp HT. apply and_x_typed; [done|apply inst_bit_01]. Qed.
Lemma and_long_keeps s : keeps s emu_and_long.
Proof.
  apply (long_keeps s (fun dsp x => emu_and_x x (inst_bit dsp 3) dsp)).
  intros n dsp x HT _. apply and_x_typed; [done|apply inst_bit_01].
Qed.
Lemma or_long_keeps s : keeps s emu_or_long.
Proof.
  apply (long_keeps s (fun dsp x => Ok (finish_logic (DSP_REG_A1 + inst_bit dsp 3)
    (Z.lor (getr dsp (DSP_REG_A1 + inst_bit dsp 3)) x) dsp))).
  intros n dsp x HT Hx. apply typed_finish_logic; [done|apply inst_bit_01|].
  apply lor_range; [by destruct s|eapply (typed_A1 s n); [done|apply inst_bit_01]|by apply dw24].
Qed.
Lemma andi_keeps s : keeps s emu_andi.
Proof.
  intros n dsp HT. unfold emu_andi. pose proof (typed_sr s n dsp HT) as Hsr.
  case_match; [|case_match; [|case_match]]; try done; (apply typed_setr; [done|]).
  - by apply (land_range _ _ 16).
  - by apply (land_range _ _ 16).
  - apply (land_range _ _ 8); [done|]. by apply (ty_regs _ _ _ _ _ HT).
Qed.
Lemma ori_keeps s : keeps s emu_ori.
Proof.
  intros n dsp HT. unfold emu_ori. pose proof (inst_bits_range dsp 8 8 ltac:(done)) as Hv.
  case_match; [|case_match; [|case_match]]; try done.
  - apply typed_sr_or; [|done]. rewrite Z.shiftl_mul_pow2 by done. unfold is_u16. lia.
  - apply typed_sr_or; [|done]. unfold is_u16. lia.
  - apply typed_setr; [done|]. apply (lor_range _ _ 8); [done| |done]. by apply (ty_regs _ _ _ _ _ HT).
Qed.
Lemma asl_imm_keeps s : keeps s emu_asl_imm.
Proof. intros n dsp. apply emu_shift_typed; [apply land_1_01|apply asl56_out]. Qed.
Lemma asr_imm_keeps s : keeps s emu_asr_imm.
Proof. intros n dsp. apply emu_shift_typed; [apply land_1_01|apply asr56_out]. Qed.
Lemma lsl_times_keeps s m d : 0 <= d <= 1 -> keeps s (emu_lsl_times m d).
Proof.
  intros Hd. induction m as [|m IH]; intros n dsp HT; [done|]. cbn [emu_lsl_times].
  step (emu_lsl_keeps s d Hd n). apply IH.
Qed.
Lemma lsl_imm_keeps s : keeps s emu_lsl_imm.
Proof. intros n dsp HT. apply lsl_times_keeps; [apply land_1_01|done]. Qed.
Lemma cmp_imm_keeps s : keeps s emu_cmp_imm.
Proof. intros n dsp. apply emu_cmp_typed. Qed.
Lemma cmp_long_keeps s : keeps s emu_cmp_long.
Proof.
  apply (long_keeps s (fun dsp x => emu_cmp (mkAcc 0 x 0) (get_acc dsp (inst_bit dsp 3)) dsp)).
  intros n dsp x HT _. by apply emu_cmp_typed.
Qed.
Lemma dec_keeps s : keeps s emu_dec.
Proof. intros n dsp. apply emu_sub_typed, land_1_01. Qed.
Lemma inc_keeps s : keeps s emu_inc.
Proof. intros n dsp. apply emu_add_typed, land_1_01. Qed.

Lemma cmpu_keeps s : keeps s emu_cmpu.
Proof.
  intros n dsp HT. unfold emu_cmpu. set (r := if _ =? 0 then _ else _).
  assert (0 <= r < 64) as Hr by (subst r; repeat case_match; done).
  pose proof (read_reg_typed s n dsp r HT Hr) as H. destruct (read_reg dsp r) as [d v]. destruct H as [HTd Hv].
  destruct (dsp_sub56 _ _) as [x sr] eqn:E. pose proof (sub56_out (src24 v) (get_acc dsp (Z.land (cur_inst dsp) 1))) as [_ Hsr].
  rewrite E in Hsr. apply typed_sr_or; [apply land_8_u16|].
  assert (typed s n (sr_or (Z.land sr (bit DSP_SR_C)) (sr_clear
    (Z.lor (Z.lor (Z.lor (bit DSP_SR_V) (bit DSP_SR_C)) (bit DSP_SR_Z)) (bit DSP_SR_N)) d))) as H1.
  { apply typed_sr_or; [by apply (land_range _ _ 16)|by apply typed_sr_clear]. }
  apply typed_if; [|done]. by apply typed_sr_or; [apply bit_u16|].
Qed.

Lemma reg_qq_range v : 0 <= reg_qq v < 64.
Proof. unfold reg_qq. repeat case_match; done. Qed.

Lemma div_keeps s : keeps s emu_div.
Proof.
  intros n dsp HT. unfold emu_div. step asl56_out. intros [v sr] [Hv Hsr].
  match goal with |- context [fst (?f ?x v)] => assert (acc_wf (fst (f x v))) as Hw
    by (destruct (negb _); [apply add56_out|apply sub56_out]); revert Hw; generalize (fst (f x v)) end.
  intros w Hw. pose proof (inst_bit_01 dsp 3) as Hd.
  repeat (apply typed_sr_or; [by apply (land_range _ _ 16)|]).
  apply typed_sr_or_bit; [|done|].
  { match goal with |- context [bit_of ?x 7] => pose proof (bit_of_01 x 7) end. lia. }
  apply typed_sr_clear, typed_set_acc; [done..|]. apply acc_wf_typed. destruct Hw as (H2 & H1 & H0).
  split; [done|]. split; [done|]. cbn [a0]. apply lor_range; [done..|].
  pose proof (bit_of_01 (getr dsp DSP_REG_SR) DSP_SR_C). unfold sr_bit. lia.
Qed.

Lemma mpyi_keeps s : keeps s emu_mpyi.
Proof.
  intros n dsp HT. unfold emu_mpyi. step (long_word_typed s n). intros [d x] [HTd Hx].
  step mul56_out. intros v Hv.
  apply typed_sr_clear, typed_ccr_update, typed_set_acc; [done|apply inst_bit_01|by apply acc_wf_typed].
Qed.

Lemma norm_keeps s : keeps s emu_norm.
Proof.
  intros n dsp HT. unfold emu_norm. pose proof (inst_bit_01 dsp 3) as Hd.
  pose proof (inst_bits_range dsp 8 3 ltac:(done)) as Hk.
  eapply (safe_bind _ (fun '(d, v, sr) => typed s n d /\ acc_typed s v /\ is_u16 sr)).
  { destruct (negb _); [|destruct (negb _)].
    - step asl56_out. intros [v sr] [Hv Hsr]. split; [|split; [by apply acc_wf_typed|done]].
      apply typed_setR; [done..|apply mask16_24].
    - step asr56_out. intros [v sr] [Hv Hsr]. split; [|split; [by apply acc_wf_typed|done]].
      apply typed_setR; [done..|apply mask16_24].
    - split; [done|]. split; [by eapply typed_get_acc|done]. }
  intros [[d v] sr] (HTd & Hv & Hsr). by apply typed_finish_add.
Qed.

Lemma tcc_keeps s : keeps s emu_tcc.
Proof.
  intros n dsp HT. unfold emu_tcc. case_match; [|done].
  pose proof (inst_bits_range dsp 3 4 ltac:(done)) as Hi.
  step safe_fetch. intros [r1 r2] Hr. cbv beta in Hr.
  assert (0 <= r1 < 16) as Hr1.
  { assert (Forall (fun p => 0 <= fst p < 16) registers_tcc) as Hall by (repeat constructor; done).
    by apply (Forall_lookup_1 _ _ _ _ Hall) in Hr. }
  match goal with |- context [set_acc ?d ?v dsp] =>
    assert (typed s n (set_acc d v dsp)) as HT1; [|revert HT1; generalize (set_acc d v dsp)] end.
  { apply typed_set_acc; [done|case_match; lia|]. case_match; [by eapply typed_get_acc|].
    case_match; [by eapply typed_get_acc|]. split; [apply sign_ext24_range|].
    split; [|by destruct s]. by eapply typed_reg_dw; [|lia]. }
  intros d HT1. case_match; [|done].
  pose proof (inst_bits_range d 8 3 ltac:(done)) as Hk. pose proof (land_mask_range (cur_inst d) 3 ltac:(done)) as Hk'.
  apply typed_setR; [done..|]. by eapply typed_R.
Qed.

(** *** Bits and branches *)

(** A place of an operand. *)
Definition loc_ok (s : bool) (loc : dsp_core P -> result (dsp_core P * Z)) : Prop :=
  forall n dsp, n <= 500 -> typed s n dsp ->
    safe (fun '(d, a) => typed s (n + 2) d /\ 0 <= a < 2 ^ 24) (loc dsp).
Lemma loc_aa_ok s : loc_ok s loc_aa.
Proof.
  intros n dsp Hn HT. pose proof (inst_bits_range dsp 8 6 ltac:(done)).
  split; [apply (typed_weaken s n); [lia|done]|lia].
Qed.
Lemma loc_pp_ok s : loc_ok s loc_pp.
Proof.
  intros n dsp Hn HT. pose proof (inst_bits_range dsp 8 6 ltac:(done)).
  split; [apply (typed_weaken s n); [lia|done]|lia].
Qed.
Lemma loc_ea_ok s : loc_ok s loc_ea.
Proof.
  intros n dsp Hn HT. unfold loc_ea. step calc_ea_typed; [lia|]. by intros [[d a] im].
Qed.

Lemma typed_set_carry s n b dsp : 0 <= b <= 1 -> typed s n dsp -> typed s n (set_carry b dsp).
Proof. intros Hb HT. apply typed_sr_or_bit; [done..|]. by apply typed_sr_clear. Qed.
Lemma numbit_range dsp : 0 <= numbit dsp < 32.
Proof. apply (land_mask_range _ 5). done. Qed.

(** What the bit operations make of a word of [w] bits. *)
Definition bit_fun_ok (f : Z -> Z -> Z) : Prop :=
  forall v n, 0 <= n < 32 -> is_u32 v -> is_u32 (f v n) /\ (0 <= v < 2 ^ 24 -> n < 24 -> 0 <= f v n < 2 ^ 24).
Lemma bit_lt n w : 0 <= n < w -> 0 <= bit n < 2 ^ w.
Proof.
  intros Hn. rewrite Z.shiftl_mul_pow2, Z.mul_1_l by lia. split; [lia|]. apply Z.pow_lt_mono_r; lia.
Qed.
Lemma bit_set_ok : bit_fun_ok bit_set.
Proof.
  intros v n Hn Hv. split; [apply lor_range; [done..|by apply bit_lt]|].
  intros Hv' Hn'. apply lor_range; [done..|apply bit_lt; lia].
Qed.
Lemma bit_clr_ok : bit_fun_ok bit_clr.
Proof. intros v n Hn Hv. split; [by apply land_range|]. intros Hv' _. by apply land_range. Qed.

Lemma bit_of_le x n : 0 <= n -> 0 <= x -> bit_of x n * 2 ^ n <= x.
Proof.
  intros Hn Hx. rewrite bit_of_div by done. pose proof (Z.mul_div_le x (2 ^ n) ltac:(lia)).
  pose proof (Z.mod_le (x / 2 ^ n) 2 ltac:(apply Z.div_pos; lia) ltac:(lia)). nia.
Qed.
Lemma bit_clear_lt x n w : 0 <= n < w -> 0 <= x < 2 ^ w -> bit_of x n = 0 -> x + 2 ^ n < 2 ^ w.
Proof.
  intros Hn Hx Hb. rewrite bit_of_div in Hb by lia.
  pose proof (Z.div_mod x (2 ^ n) ltac:(lia)) as Hdm. pose proof (Z.mod_pos_bound x (2 ^ n) ltac:(lia)).
  assert (2 ^ w = 2 ^ (w - n) * 2 ^ n) as Hw by (rewrite <- Z.pow_add_r by lia; f_equal; lia).
  assert (2 ^ (w - n) = 2 * 2 ^ (w - n - 1)) as Hw' by (rewrite <- Z.pow_succ_r by lia; f_equal; lia).
  assert (x / 2 ^ n < 2 ^ (w - n)) by (apply Z.div_lt_upper_bound; lia).
  pose proof (Z.div_mod (x / 2 ^ n) 2 ltac:(lia)).
  assert (x / 2 ^ n + 2 <= 2 ^ (w - n)) by lia. nia.
Qed.
Lemma bit_chg_ok : bit_fun_ok bit_chg.
Proof.
  intros v n Hn Hv. split; [unfold bit_chg; case_match; apply u32_range|]. intros Hv' Hn'. unfold bit_chg.
  rewrite Z.shiftl_mul_pow2, Z.mul_1_l by lia.
  destruct (bit_of_range v n) as [Hb|Hb]; rewrite Hb; cbn [Z.eqb].
  - pose proof (bit_clear_lt v n 24 ltac:(lia) Hv' Hb).
    rewrite u32_id; [lia|]. unfold is_u32. lia.
  - pose proof (bit_of_le v n ltac:(lia) ltac:(lia)) as Hle. rewrite Hb in Hle.
    rewrite u32_id; [lia|]. unfold is_u32. lia.
Qed.

Lemma bit_mem_ok s f loc : bit_fun_ok f -> loc_ok s loc -> op_ok s (bit_mem f loc).
Proof.
  intros Hf Hl n dsp Hn HT. unfold bit_mem. step (Hl n). intros [d1 a] [HT1 Ha].
  step read_memory_typed. intros [d2 v] [HT2 Hv].
  step write_memory_typed; [apply Hf; [apply numbit_range|by apply (typed_u32 s)]|]. intros d3 HT3.
  apply (typed_weaken s (n + 2 + 2)); [lia|]. apply typed_add_cycles; [done|lia|].
  by apply typed_set_carry; [apply bit_of_01|].
Qed.

(** Either the operation sets no bit, or the instruction names one of the 24. *)
Lemma bit_reg_ok s f : bit_fun_ok f ->
  (forall v n, 0 <= v < 2 ^ 24 -> 0 <= f v n < 2 ^ 24) \/ (forall i, I i -> s = true -> narrow_bit i) ->
  op_ok s (bit_reg f).
Proof.
  intros Hf HI n dsp Hn HT. unfold bit_reg.
  pose proof (inst_bits_range dsp 8 6 ltac:(done)) as Hr. change (2 ^ 6) with 64 in Hr.
  pose proof (read_reg_typed s n dsp _ HT Hr) as H.
  assert (cur_inst (fst (read_reg dsp (inst_bits dsp 8 6))) = cur_inst dsp) as Hci.
  { unfold read_reg, emu_pm_read_accu24. by repeat case_match; simplify_eq/=. }
  destruct (read_reg dsp _) as [d v]. destruct H as [HTd Hv]. cbn [fst] in Hci.
  assert (numbit d = numbit dsp) as Hnb by (unfold numbit; by rewrite Hci). rewrite Hnb.
  destruct (Hf v (numbit dsp) (numbit_range dsp) (typed_u32 s v Hv)) as [Hu32 H24].
  step (write_reg_typed s n); [|].
  - intros Hacc. destruct s; [|done]. destruct HI as [HI|HI]; [by apply HI|]. apply H24; [done|].
    by apply (HI (cur_inst dsp) (proj2 (ty_inst _ _ _ _ _ HT)) eq_refl).
  - intros d2 HT2. apply (typed_weaken s (n + 2)); [lia|]. apply typed_add_cycles; [done|lia|].
    by apply typed_set_carry; [apply bit_of_01|].
Qed.

Lemma btst_mem_ok s loc : loc_ok s loc -> op_ok s (emu_btst_mem loc).
Proof.
  intros Hl n dsp Hn HT. unfold emu_btst_mem. step (Hl n). intros [d1 a] [HT1 Ha].
  step read_memory_typed. intros [d2 v] [HT2 Hv].
  apply (typed_weaken s (n + 2 + 2)); [lia|]. apply typed_add_cycles; [done|lia|].
  by apply typed_set_carry; [apply bit_of_01|].
Qed.
Lemma btst_reg_ok s : op_ok s emu_btst_reg.
Proof.
  intros n dsp Hn HT. unfold emu_btst_reg. pose proof (inst_bits_range dsp 8 6 ltac:(done)) as Hr.
  pose proof (read_reg_typed s n dsp _ HT Hr) as H. destruct (read_reg dsp _) as [d v]. destruct H as [HTd Hv].
  apply (typed_weaken s (n + 2)); [lia|]. apply typed_add_cycles; [done|lia|].
  by apply typed_set_carry; [apply bit_of_01|].
Qed.

Lemma typed_branch s n x dsp : typed s n dsp -> typed s n (branch x dsp).
Proof.
  intros HT. apply typed_goto; [done|]. apply (range_weaken _ 24); [done|by apply land_mask_range].
Qed.
Lemma signextend_typed b v : 1 <= b <= 31 -> safe (fun x => is_u32 x) (dsp_signextend b v).
Proof. intros Hb. rewrite signextend_run by done. apply u32_range. Qed.

Lemma bcc_long_keeps s : keeps s emu_bcc_long.
Proof.
  apply (long_keeps s (fun dsp x => if emu_calc_cc dsp (Z.land (cur_inst dsp) (BITMASK 4)) then Ok (branch x dsp)
    else Ok dsp)).
  intros n dsp x HT _. case_match; [by apply typed_branch|done].
Qed.
Lemma bcc_imm_keeps s : keeps s emu_bcc_imm.
Proof.
  intros n dsp HT. unfold emu_bcc_imm. case_match; [|done]. step signextend_typed. intros x _. by apply typed_branch.
Qed.
Lemma bra_long_keeps s : keeps s emu_bra_long.
Proof. apply (long_keeps s (fun dsp x => Ok (branch x dsp))). intros n dsp x HT _. by apply typed_branch. Qed.
Lemma bra_imm_keeps s : keeps s emu_bra_imm.
Proof. intros n dsp HT. step signextend_typed. intros x _. by apply typed_branch. Qed.

Lemma push_return_keeps s : keeps s push_return.
Proof. intros n dsp HT. by apply stack_push_typed. Qed.
Lemma call_return_keeps s : keeps s call_return.
Proof.
  intros n dsp HT. unfold call_return. case_match; [by apply push_return_keeps|]. destruct HT. by constructor.
Qed.
Lemma finish4 s n dsp : n <= 500 -> typed s n dsp -> typed s (n + 104) (add_cycles 4 dsp).
Proof. intros Hn HT. apply (typed_weaken s (n + 4)); [lia|]. by apply typed_add_cycles; [|lia|]. Qed.
Lemma finish2 s n dsp : n <= 502 -> typed s n dsp -> typed s (n + 102) (add_cycles 2 dsp).
Proof. intros Hn HT. apply (typed_weaken s (n + 2)); [lia|]. by apply typed_add_cycles; [|lia|]. Qed.
Lemma finish2' s n dsp : n <= 500 -> typed s n dsp -> typed s (n + 104) (add_cycles 2 dsp).
Proof. intros Hn HT. apply (typed_weaken s (n + 102)); [lia|]. by apply finish2; [lia|]. Qed.

Lemma bsr_long_ok s : op_ok s emu_bsr_long.
Proof.
  intros n dsp Hn HT. unfold emu_bsr_long. step (long_word_typed s n). intros [d x] [HTd Hx].
  step (call_return_keeps s n). intros d1 HT1. by apply finish4, typed_branch.
Qed.
Lemma bsr_imm_ok s : op_ok s emu_bsr_imm.
Proof.
  intros n dsp Hn HT. unfold emu_bsr_imm. step (call_return_keeps s n). intros d1 HT1.
  step signextend_typed. intros x _. by apply finish2', typed_branch.
Qed.

Lemma add4 s n dsp : n <= 502 -> typed s n dsp -> typed s (n + 4) (add_cycles 4 dsp).
Proof. intros Hn HT. by apply typed_add_cycles; [|lia|]. Qed.

Lemma br_pp_ok s want : op_ok s (br_pp want).
Proof.
  intros n dsp Hn HT. unfold br_pp. step (long_word_typed s n). intros [d x] [HTd Hx].
  step (loc_pp_ok s n). intros [d1 a] [HT1 Ha]. step read_memory_typed. intros [d2 v] [HT2 Hv].
  apply (add4 s (n + 2)) in HT2; [|lia]. apply (typed_weaken s _ (n + 104)) in HT2; [|lia].
  case_match; [by apply typed_branch|done].
Qed.
Lemma br_reg_ok s want : op_ok s (br_reg want).
Proof.
  intros n dsp Hn HT. unfold br_reg. step (long_word_typed s n). intros [d x] [HTd Hx].
  pose proof (inst_bits_range d 8 6 ltac:(done)) as Hr.
  pose proof (read_reg_typed s n d _ HTd Hr) as H. destruct (read_reg d _) as [d2 v]. destruct H as [HT2 Hv].
  apply (add4 s n) in HT2; [|lia]. apply (typed_weaken s _ (n + 104)) in HT2; [|lia].
  destruct (eqb _ _); [by apply typed_branch|done].
Qed.

(** *** Jumps *)

Lemma inst12_u32 dsp : is_u32 (Z.land (cur_inst dsp) (BITMASK 12)).
Proof. apply (range_weaken _ 12); [done|by apply land_mask_range]. Qed.

Lemma jcc_imm_ok s : op_ok s emu_jcc_imm.
Proof.
  intros n dsp Hn HT. apply finish2'; [done|]. apply typed_if; [|done]. apply typed_goto; [done|apply inst12_u32].
Qed.
Lemma jcc_ea_ok s : op_ok s emu_jcc_ea.
Proof.
  intros n dsp Hn HT. unfold emu_jcc_ea. step (loc_ea_ok s n). intros [d a] [HTd Ha].
  replace (n + 104) with (n + 2 + 102) by lia. apply finish2; [lia|]. apply typed_if; [|done].
  apply typed_goto; [done|by apply typed_u32_24].
Qed.
Lemma jmp_imm_ok s : op_ok s emu_jmp_imm.
Proof. intros n dsp Hn HT. apply finish2'; [done|]. apply typed_goto; [done|apply inst12_u32]. Qed.
Lemma jmp_ea_ok s : op_ok s emu_jmp_ea.
Proof.
  intros n dsp Hn HT. unfold emu_jmp_ea. step (loc_ea_ok s n). intros [d a] [HTd Ha].
  replace (n + 104) with (n + 2 + 102) by lia. apply finish2; [lia|].
  apply typed_goto; [done|by apply typed_u32_24].
Qed.
(** A call under a condition. *)
Lemma cond_call_typed s n (b : bool) p dsp : typed s n dsp -> is_u32 p ->
  safe (typed s n) (if b then dsp ← push_return dsp; Ok (goto p dsp) else Ok dsp).
Proof.
  intros HT Hp. destruct b; [|done]. step (push_return_keeps s n). intros d HTd. by apply typed_goto.
Qed.
Lemma jscc_imm_ok s : op_ok s emu_jscc_imm.
Proof.
  intros n dsp Hn HT. unfold emu_jscc_imm. step (cond_call_typed s n); [apply inst12_u32|].
  intros d HTd. by apply finish2'.
Qed.
Lemma jscc_ea_ok s : op_ok s emu_jscc_ea.
Proof.
  intros n dsp Hn HT. unfold emu_jscc_ea. step (loc_ea_ok s n). intros [d a] [HTd Ha].
  step (cond_call_typed s (n + 2)); [by apply typed_u32_24|].
  intros d' HTd'. replace (n + 104) with (n + 2 + 102) by lia. by apply finish2; [lia|].
Qed.
Lemma jsr_imm_ok s : op_ok s emu_jsr_imm.
Proof.
  intros n dsp Hn HT. unfold emu_jsr_imm. step (call_return_keeps s n). intros d HTd.
  apply finish2'; [done|]. apply typed_goto; [done|apply inst12_u32].
Qed.
Lemma jsr_ea_ok s : op_ok s emu_jsr_ea.
Proof.
  intros n dsp Hn HT. unfold emu_jsr_ea. step (loc_ea_ok s n). intros [d a] [HTd Ha].
  step (call_return_keeps s (n + 2)). intros d' HTd'. replace (n + 104) with (n + 2 + 102) by lia.
  apply finish2; [lia|]. apply typed_goto; [done|by apply typed_u32_24].
Qed.

Lemma jump_bit_typed s n want call v a dsp : n <= 502 -> typed s n dsp -> is_u32 a ->
  safe (typed s (n + 4)) (jump_bit want call v a dsp).
Proof.
  intros Hn HT Ha. unfold jump_bit. pose proof (add4 s n dsp Hn HT) as HT4.
  case_match; [|by apply typed_add_len]. eapply (safe_bind _ (typed s (n + 4))).
  - destruct call; [by apply stack_push_typed|done].
  - intros d HTd. by apply typed_goto.
Qed.
Lemma jbit_mem_ok s want call loc : loc_ok s loc -> op_ok s (jbit_mem want call loc).
Proof.
  intros Hl n dsp Hn HT. unfold jbit_mem. step (Hl n). intros [d1 a] [HT1 Ha].
  step read_memory_typed. intros [d2 v] [HT2 Hv]. step (next_word_typed s (n + 2)). intros p Hp.
  eapply safe_weaken; [apply (jump_bit_typed s (n + 2)); [lia|done|by apply typed_u32_24]|].
  intros d. apply typed_weaken. lia.
Qed.
Lemma jbit_reg_ok s want call : op_ok s (jbit_reg want call).
Proof.
  intros n dsp Hn HT. unfold jbit_reg. step (next_word_typed s n). intros p Hp.
  pose proof (inst_bits_range dsp 8 6 ltac:(done)) as Hr.
  pose proof (read_reg_typed s n dsp _ HT Hr) as H. destruct (read_reg dsp _) as [d v]. destruct H as [HTd Hv].
  eapply safe_weaken; [apply (jump_bit_typed s n); [lia|done|by apply typed_u32_24]|].
  intros d'. apply typed_weaken. lia.
Qed.
Lemma jclr_ea_ok s : op_ok s emu_jclr_ea.
Proof.
  intros n dsp Hn HT. unfold emu_jclr_ea. step (next_word_typed s n). intros p Hp.
  step (loc_ea_ok s n). intros [d1 a] [HT1 Ha]. step read_memory_typed. intros [d2 v] [HT2 Hv].
  eapply safe_weaken; [apply (jump_bit_typed s (n + 2)); [lia|done|by apply typed_u32_24]|].
  intros d. apply typed_weaken. lia.
Qed.

(** *** Loops and control *)

Lemma typed_set_lc s n v dsp : typed s n dsp -> 0 <= v < 2 ^ dw s -> typed s n (set_lc v dsp).
Proof. intros HT Hv. by apply typed_setr. Qed.
Lemma typed_set_la s n v dsp : typed s n dsp -> typed s n (setr DSP_REG_LA (Z.land v (BITMASK 16)) dsp).
Proof. intros HT. apply typed_setr; [done|by apply (land_mask_range v 16)]. Qed.
Lemma mask16_dw s x : 0 <= Z.land x (BITMASK 16) < 2 ^ dw s.
Proof. apply dw24, mask16_24. Qed.
Lemma imm_count_range s dsp : 0 <= imm_count dsp < 2 ^ dw s.
Proof.
  apply dw24. unfold imm_count. pose proof (inst_bits_range dsp 8 8 ltac:(done)).
  pose proof (land_mask_range (cur_inst dsp) 4 ltac:(done)). rewrite Z.shiftl_mul_pow2 by done. lia.
Qed.
Lemma push_loop_keeps s : keeps s push_loop.
Proof. intros n dsp HT. by apply stack_push_typed. Qed.
Lemma enter_loop_keeps s : keeps s enter_loop.
Proof.
  intros n dsp HT. unfold enter_loop. step (push_return_keeps s n). intros d HTd.
  by apply typed_sr_or; [apply bit_u16|].
Qed.
Lemma do_la_keeps s : keeps s do_la.
Proof.
  intros n dsp HT. unfold do_la. step (push_loop_keeps s n). intros d HTd.
  step (next_word_typed s n). intros la _. by apply typed_add_len, typed_set_la.
Qed.
Lemma dor_la_keeps s : keeps s dor_la.
Proof.
  intros n dsp HT. unfold dor_la. step (long_word_typed s n). intros [d x] [HTd Hx].
  step (push_loop_keeps s n). intros d1 HT1. by apply enter_loop_keeps, typed_set_la.
Qed.
(** A count read from a register. *)
Lemma reg_count_typed s n dsp : typed s n dsp ->
  typed s n (let '(d, v) := read_reg dsp (inst_bits dsp 8 6) in set_lc (Z.land v (BITMASK 16)) d).
Proof.
  intros HT. pose proof (inst_bits_range dsp 8 6 ltac:(done)) as Hr.
  pose proof (read_reg_typed s n dsp _ HT Hr) as H. destruct (read_reg dsp _) as [d v]. destruct H as [HTd Hv].
  apply typed_set_lc; [done|apply mask16_dw].
Qed.

Lemma do_mem_ok s loc : loc_ok s loc -> op_ok s (do_mem loc).
Proof.
  intros Hl n dsp Hn HT. unfold do_mem. step (do_la_keeps s n). intros d1 HT1.
  step (enter_loop_keeps s n). intros d2 HT2. step (Hl n). intros [d3 a] [HT3 Ha].
  step read_memory_typed. intros [d4 v] [HT4 Hv].
  apply (typed_weaken s (n + 2 + 4)); [lia|]. apply add4; [lia|]. apply typed_set_lc; [done|apply mask16_dw].
Qed.
Lemma do_imm_ok s : op_ok s emu_do_imm.
Proof.
  intros n dsp Hn HT. unfold emu_do_imm. step (do_la_keeps s n). intros d1 HT1.
  step (enter_loop_keeps s n). intros d2 HT2. apply finish4; [done|]. apply typed_set_lc; [done|apply imm_count_range].
Qed.
Lemma do_reg_ok s : op_ok s emu_do_reg.
Proof.
  intros n dsp Hn HT. unfold emu_do_reg. step (do_la_keeps s n). intros d1 HT1.
  pose proof (reg_count_typed s n d1 HT1) as H. destruct (read_reg d1 _) as [d v].
  step (enter_loop_keeps s n). intros d2 HT2. by apply finish4.
Qed.
Lemma dor_imm_ok s : op_ok s emu_dor_imm.
Proof.
  intros n dsp Hn HT. unfold emu_dor_imm. step (dor_la_keeps s n). intros d1 HT1.
  apply finish4; [done|]. apply typed_set_lc; [done|apply imm_count_range].
Qed.
Lemma dor_reg_ok s : op_ok s emu_dor_reg.
Proof.
  intros n dsp Hn HT. unfold emu_dor_reg. step (dor_la_keeps s n). intros d1 HT1.
  pose proof (reg_count_typed s n d1 HT1) as H. destruct (read_reg d1 _) as [d v]. by apply finish4.
Qed.

Lemma leave_loop_keeps s : keeps s leave_loop.
Proof.
  intros n dsp HT. unfold leave_loop. step (stack_pop_typed s n). intros [[d p] sr] (HTd & Hp & Hsr).
  match goal with |- context [dsp_stack_pop ?x] => assert (typed s n x) as HT2 end.
  { apply typed_setr.
    - apply typed_setr; [done|]. rewrite Z.land_comm. by apply (land_range _ _ 16).
    - apply (lor_range _ _ 16); [done| |by apply (land_range _ _ 16)].
      rewrite getr_setr_eq, Z.land_comm. by apply (land_range _ _ 16). }
  step (stack_pop_typed s n). intros [[d2 la] lc] (HT3 & Hla & Hlc).
  apply typed_setr; [by apply typed_setr|]. apply dw24. unfold is_u16 in Hlc. lia.
Qed.

Lemma start_rep_typed s n dsp : typed s n dsp -> typed s n (start_rep dsp).
Proof.
  intros HT. assert (typed s n (setr DSP_REG_LCSAVE (getr dsp DSP_REG_LC) dsp)) as H.
  { apply typed_setr; [done|]. by apply (ty_regs _ _ _ _ _ HT DSP_REG_LC). }
  destruct H. by constructor.
Qed.
Lemma rep_mem_ok s loc : loc_ok s loc -> op_ok s (rep_mem loc).
Proof.
  intros Hl n dsp Hn HT. unfold rep_mem. step (Hl n); [by apply start_rep_typed|]. intros [d1 a] [HT1 Ha].
  step read_memory_typed. intros [d2 v] [HT2 Hv].
  replace (n + 104) with (n + 2 + 102) by lia. apply finish2; [lia|]. by apply typed_set_lc.
Qed.
Lemma rep_imm_ok s : op_ok s emu_rep_imm.
Proof.
  intros n dsp Hn HT. apply finish2'; [done|]. apply typed_set_lc; [by apply start_rep_typed|apply imm_count_range].
Qed.
Lemma rep_reg_ok s : op_ok s emu_rep_reg.
Proof.
  intros n dsp Hn HT. unfold emu_rep_reg.
  pose proof (reg_count_typed s n _ (start_rep_typed s n dsp HT)) as H.
  destruct (read_reg _ _) as [d v]. by apply finish2'.
Qed.

Lemma illegal_keeps s : keeps s emu_illegal.
Proof.
  intros n dsp HT. unfold emu_illegal. step add_interrupt_typed. intros d HTd.
  eapply safe_bind; [by apply safe_check|]. by intros.
Qed.
Lemma reset_ok s : op_ok s emu_reset.
Proof. intros n dsp Hn HT. by apply finish2'. Qed.
Lemma rti_ok s : op_ok s emu_rti.
Proof.
  intros n dsp Hn HT. unfold emu_rti. step (stack_pop_typed s n). intros [[d p] sr] (HTd & Hp & Hsr).
  apply finish2'; [done|].
  apply (typed_goto s n _ p) in HTd; [|apply (range_weaken _ 16); done].
  apply (typed_setr s n _ DSP_REG_SR sr) in HTd; [|done]. destruct HTd. by constructor.
Qed.
Lemma rts_ok s : op_ok s emu_rts.
Proof.
  intros n dsp Hn HT. unfold emu_rts. step (stack_pop_typed s n). intros [[d p] sr] (HTd & Hp & Hsr).
  apply finish2'; [done|]. apply typed_goto; [done|]. by apply (range_weaken _ 16).
Qed.

(** *** Moves *)

Lemma typed_set_RN s n (b : bool) k v dsp : typed s n dsp -> 0 <= k < 8 -> 0 <= v < 2 ^ 24 ->
  typed s n (setr ((if b then DSP_REG_N0 else DSP_REG_R0) + k) v dsp).
Proof.
  intros HT Hk Hv. apply typed_setr; [done|]. destruct (width_R s k Hk) as (W1 & W2 & _).
  destruct b; by rewrite ?W1, ?W2.
Qed.
Lemma lua_ok s : op_ok s emu_lua.
Proof.
  intros n dsp Hn HT. unfold emu_lua. pose proof (inst_bits_range dsp 8 3 ltac:(done)) as Hk.
  step calc_ea_typed; [lia|]. intros [[d a] im] [HTd Ha].
  replace (n + 104) with (n + 2 + 102) by lia. apply finish2; [lia|].
  apply typed_set_RN; [|apply (land_mask_range _ 3); done|by eapply typed_R].
  apply typed_setR; [done..|]. by eapply typed_R.
Qed.
Lemma lua_rel_ok s : op_ok s emu_lua_rel.
Proof.
  intros n dsp Hn HT. unfold emu_lua_rel. step signextend_typed. intros x _. apply finish2'; [done|].
  apply typed_set_RN; [done|by apply (land_mask_range _ 3)|by apply land_mask_range].
Qed.

Lemma write_masked_typed s n r v dsp : typed s n dsp -> 0 <= r < 64 -> 0 <= v < 2 ^ dw s ->
  safe (typed s n) (write_masked r v dsp).
Proof.
  intros HT Hr Hv. unfold write_masked. eapply safe_bind; [apply safe_fetch; exact Hr|]. intros m Hm.
  cbv beta in Hm. assert (0 <= Z.land v (BITMASK m) < 2 ^ dw s) as Hv' by (apply land_range; [by destruct s|done]).
  apply write_reg_typed; [done..| |done]. by apply (typed_u32 s).
Qed.
Lemma read_control_typed s n r dsp : typed s n dsp -> 0 <= r < 64 ->
  safe (fun '(d, v) => typed s n d /\ 0 <= v < 2 ^ dw s) (read_control dsp r).
Proof.
  intros HT Hr. unfold read_control. case_match; [|split; [done|by eapply typed_reg_dw]].
  step (stack_pop_typed s n). intros [[d p] v] (HTd & Hp & _). split; [done|]. apply dw24. unfold is_u16 in Hp. lia.
Qed.
Lemma read_any_typed s n r dsp : typed s n dsp -> 0 <= r < 64 ->
  safe (fun '(d, v) => typed s n d /\ 0 <= v < 2 ^ dw s) (read_any dsp r).
Proof.
  intros HT Hr. unfold read_any. destruct (r =? DSP_REG_SSH).
  - step (stack_pop_typed s n). intros [[d p] v] (HTd & Hp & _). split; [done|]. apply dw24. unfold is_u16 in Hp. lia.
  - pose proof (read_reg_typed s n dsp r HT Hr) as H. by destruct (read_reg dsp r).
Qed.
Lemma store_typed s n sp a v dsp : typed s n dsp -> 0 <= v < 2 ^ dw s ->
  safe (typed s n) (dsp56k_write_memory dsp sp a v).
Proof. intros HT Hv. apply write_memory_typed; [done|by apply (typed_u32 s)]. Qed.
Lemma inst6_range dsp : 0 <= Z.land (cur_inst dsp) (BITMASK 6) < 64.
Proof. by apply (land_mask_range _ 6). Qed.

Lemma movec_reg_keeps s : keeps s emu_movec_reg.
Proof.
  intros n dsp HT. unfold emu_movec_reg. pose proof (inst_bits_range dsp 8 6 ltac:(done)) as Hr2.
  pose proof (inst6_range dsp) as Hr1. destruct (inst_has dsp 15).
  - pose proof (read_reg_typed s n dsp _ HT Hr2) as H. destruct (read_reg dsp _) as [d v]. destruct H as [HTd Hv].
    by apply write_masked_typed.
  - step (read_control_typed s n). intros [d v] [HTd Hv].
    assert (forall k, 0 <= k <= 1 -> typed s n (setr (DSP_REG_A2 + k) (sign_ext24 v)
      (setr (DSP_REG_A1 + k) (Z.land v (BITMASK 24)) (setr (DSP_REG_A0 + k) 0 d)))) as Hload.
    { intros k Hk. destruct (width_acc s k Hk) as (W0 & W1 & W2).
      apply typed_setr; [|rewrite W2; apply sign_ext24_range].
      apply typed_setr; [|rewrite W1; apply mask24_dw]. apply typed_setr; [done|]. rewrite W0. by destruct s. }
    case_match; [by apply (Hload 0)|]. case_match; [by apply (Hload 1)|]. by apply set_masked_typed.
Qed.
Lemma movec_aa_keeps s : keeps s emu_movec_aa.
Proof.
  intros n dsp HT. unfold emu_movec_aa. pose proof (inst6_range dsp) as Hr. case_match.
  - step read_memory_typed. intros [d v] [HTd Hv]. by apply write_masked_typed.
  - step (read_control_typed s n). intros [d v] [HTd Hv]. by apply store_typed.
Qed.
Lemma movec_imm_keeps s : keeps s emu_movec_imm.
Proof.
  intros n dsp HT. apply write_masked_typed; [done|apply inst6_range|]. apply dw24.
  pose proof (inst_bits_range dsp 8 8 ltac:(done)). lia.
Qed.
(** The operand of an effective address: immediate or in memory. *)
Lemma ea_operand_typed s n (retour : bool) sp a dsp : typed s n dsp -> 0 <= a < 2 ^ 24 ->
  safe (fun '(d, v) => typed s n d /\ 0 <= v < 2 ^ dw s)
    (if retour then Ok (dsp, a) else dsp56k_read_memory dsp sp a).
Proof. intros HT Ha. destruct retour; [split; [done|by apply dw24]|by apply read_memory_typed]. Qed.
Lemma movec_ea_ok s : op_ok s emu_movec_ea.
Proof.
  intros n dsp Hn HT. unfold emu_movec_ea. pose proof (inst6_range dsp) as Hr.
  assert (forall d, typed s (n + 2) d -> typed s (n + 104) d) as Hw by (intros d; apply typed_weaken; lia).
  eapply safe_weaken; [|exact Hw]. case_match; (step calc_ea_typed; [lia|]); intros [[d a] im] [HTd Ha].
  - step (ea_operand_typed s (n + 2)). intros [d1 v] [HT1 Hv]. by apply write_masked_typed.
  - step (read_control_typed s (n + 2)). intros [d1 v] [HT1 Hv]. by apply store_typed.
Qed.

Lemma movem_typed s n a dsp : n <= 502 -> typed s n dsp -> safe (typed s (n + 4)) (movem a dsp).
Proof.
  intros Hn HT. unfold movem. pose proof (inst6_range dsp) as Hr.
  eapply (safe_bind _ (typed s n)); [|intros d HTd; by apply add4]. case_match.
  - step (read_p_typed s n). intros v Hv. apply write_masked_typed; [done..|by apply dw24].
  - step (read_any_typed s n). intros [d v] [HTd Hv]. by apply store_typed.
Qed.
Lemma movem_aa_ok s : op_ok s emu_movem_aa.
Proof.
  intros n dsp Hn HT. eapply safe_weaken; [apply (movem_typed s n); [lia|done]|]. intros d. apply typed_weaken. lia.
Qed.
Lemma movem_ea_ok s : op_ok s emu_movem_ea.
Proof.
  intros n dsp Hn HT. unfold emu_movem_ea. step (loc_ea_ok s n). intros [d a] [HTd Ha].
  eapply safe_weaken; [apply (movem_typed s (n + 2)); [lia|done]|]. intros d'. apply typed_weaken. lia.
Qed.

Lemma movep_0_ok s : op_ok s emu_movep_0.
Proof.
  intros n dsp Hn HT. unfold emu_movep_0. pose proof (inst_bits_range dsp 8 6 ltac:(done)) as Hr.
  eapply (safe_bind _ (typed s n)); [|intros d HTd; by apply finish2']. case_match.
  - step (read_any_typed s n). intros [d v] [HTd Hv]. by apply store_typed.
  - step read_memory_typed. intros [d v] [HTd Hv]. by apply write_masked_typed.
Qed.
Lemma movep_1_ok s : op_ok s emu_movep_1.
Proof.
  intros n dsp Hn HT. unfold emu_movep_1. step (loc_ea_ok s n). intros [d a] [HTd Ha].
  eapply (safe_bind _ (typed s (n + 2))).
  - case_match.
    + step (read_p_typed s (n + 2)). intros v Hv. apply store_typed; [done|by apply dw24].
    + step read_memory_typed. intros [d1 v] [HT1 Hv]. by apply store_typed.
  - intros d1 HT1. apply (typed_weaken s (n + 2 + 4)); [lia|]. by apply add4; [lia|].
Qed.
Lemma movep_ea_ok s sp a : op_ok s (movep_ea sp a).
Proof.
  intros n dsp Hn HT. unfold movep_ea. step calc_ea_typed; [lia|]. intros [[d ea] im] [HTd Ha].
  eapply (safe_bind _ (typed s (n + 2))).
  - case_match.
    + step (ea_operand_typed s (n + 2)). intros [d1 v] [HT1 Hv]. by apply store_typed.
    + step read_memory_typed. intros [d1 v] [HT1 Hv]. by apply store_typed.
  - intros d1 HT1. replace (n + 104) with (n + 2 + 102) by lia. by apply finish2; [lia|].
Qed.
Lemma move_disp_typed s n W sp a r dsp : typed s n dsp -> 0 <= r < 64 -> safe (typed s n) (move_disp W sp a r dsp).
Proof.
  intros HT Hr. unfold move_disp. destruct (W =? 0).
  - pose proof (read_reg_typed s n dsp r HT Hr) as H. destruct (read_reg dsp _) as [d v]. destruct H as [HTd Hv].
    by apply store_typed.
  - step read_memory_typed. intros [d v] [HTd Hv]. apply write_reg_typed; [done..|by apply (typed_u32 s)|done].
Qed.
Lemma move_x_long_keeps s : keeps s emu_move_x_long.
Proof.
  intros n dsp HT. unfold emu_move_x_long. step (long_word_typed s n). intros [d x] [HTd _].
  apply move_disp_typed; [done|apply inst6_range].
Qed.
Lemma move_xy_imm_keeps s sp : keeps s (emu_move_xy_imm sp).
Proof.
  intros n dsp HT. unfold emu_move_xy_imm. step signextend_typed. intros x _.
  apply move_disp_typed; [done|]. pose proof (land_mask_range (cur_inst dsp) 4 ltac:(done)). lia.
Qed.

(** *** The table *)

(** The handlers that may set a bit above 23 of an accumulator. *)
Definition wide_name (name : string) : bool :=
  String.eqb name "emu_bset_reg" || String.eqb name "emu_bchg_reg".
Definition entry_ok (s : bool) (e : string * (dsp_core P -> result (dsp_core P))) : Prop :=
  (wide_name (fst e) = true -> forall i, I i -> s = true -> narrow_bit i) -> op_ok s (snd e).

Ltac solve_entry :=
  let H := fresh in intros H; cbn [fst snd] in *;
  lazymatch goal with
  | |- op_ok _ emu_add_imm => apply keeps_op, add_imm_keeps
  | |- op_ok _ emu_add_long => apply keeps_op, add_long_keeps
  | |- op_ok _ emu_and_imm => apply keeps_op, and_imm_keeps
  | |- op_ok _ emu_and_long => apply keeps_op, and_long_keeps
  | |- op_ok _ emu_andi => apply keeps_op, andi_keeps
  | |- op_ok _ emu_asl_imm => apply keeps_op, asl_imm_keeps
  | |- op_ok _ emu_asr_imm => apply keeps_op, asr_imm_keeps
  | |- op_ok _ emu_bcc_long => apply keeps_op, bcc_long_keeps
  | |- op_ok _ emu_bcc_imm => apply keeps_op, bcc_imm_keeps
  | |- op_ok _ emu_bchg_ea => apply bit_mem_ok; [apply bit_chg_ok|apply loc_ea_ok]
  | |- op_ok _ emu_bchg_aa => apply bit_mem_ok; [apply bit_chg_ok|apply loc_aa_ok]
  | |- op_ok _ emu_bchg_pp => apply bit_mem_ok; [apply bit_chg_ok|apply loc_pp_ok]
  | |- op_ok _ emu_bchg_reg => apply bit_reg_ok; [apply bit_chg_ok|right; exact (H eq_refl)]
  | |- op_ok _ emu_bclr_ea => apply bit_mem_ok; [apply bit_clr_ok|apply loc_ea_ok]
  | |- op_ok _ emu_bclr_aa => apply bit_mem_ok; [apply bit_clr_ok|apply loc_aa_ok]
  | |- op_ok _ emu_bclr_pp => apply bit_mem_ok; [apply bit_clr_ok|apply loc_pp_ok]
  | |- op_ok _ emu_bclr_reg => apply bit_reg_ok; [apply bit_clr_ok|left; intros v n Hv; by apply land_range]
  | |- op_ok _ emu_bset_ea => apply bit_mem_ok; [apply bit_set_ok|apply loc_ea_ok]
  | |- op_ok _ emu_bset_aa => apply bit_mem_ok; [apply bit_set_ok|apply loc_aa_ok]
  | |- op_ok _ emu_bset_pp => apply bit_mem_ok; [apply bit_set_ok|apply loc_pp_ok]
  | |- op_ok _ emu_bset_reg => apply bit_reg_ok; [apply bit_set_ok|right; exact (H eq_refl)]
  | |- op_ok _ emu_btst_ea => apply btst_mem_ok, loc_ea_ok
  | |- op_ok _ emu_btst_aa => apply btst_mem_ok, loc_aa_ok
  | |- op_ok _ emu_btst_pp => apply btst_mem_ok, loc_pp_ok
  | |- op_ok _ emu_btst_reg => apply btst_reg_ok
  | |- op_ok _ emu_bra_long => apply keeps_op, bra_long_keeps
  | |- op_ok _ emu_bra_imm => apply keeps_op, bra_imm_keeps
  | |- op_ok _ emu_brclr_pp => apply br_pp_ok
  | |- op_ok _ emu_brclr_reg => apply br_reg_ok
  | |- op_ok _ emu_brset_pp => apply br_pp_ok
  | |- op_ok _ emu_brset_reg => apply br_reg_ok
  | |- op_ok _ emu_bsr_long => apply bsr_long_ok
  | |- op_ok _ emu_bsr_imm => apply bsr_imm_ok
  | |- op_ok _ emu_cmp_imm => apply keeps_op, cmp_imm_keeps
  | |- op_ok _ emu_cmp_long => apply keeps_op, cmp_long_keeps
  | |- op_ok _ emu_cmpu => apply keeps_op, cmpu_keeps
  | |- op_ok _ emu_dec => apply keeps_op, dec_keeps
  | |- op_ok _ emu_inc => apply keeps_op, inc_keeps
  | |- op_ok _ emu_div => apply keeps_op, div_keeps
  | |- op_ok _ emu_do_ea => apply do_mem_ok, loc_ea_ok
  | |- op_ok _ emu_do_aa => apply do_mem_ok, loc_aa_ok
  | |- op_ok _ emu_do_imm => apply do_imm_ok
  | |- op_ok _ emu_do_reg => apply do_reg_ok
  | |- op_ok _ emu_dor_imm => apply dor_imm_ok
  | |- op_ok _ emu_dor_reg => apply dor_reg_ok
  | |- op_ok _ emu_enddo => apply keeps_op, leave_loop_keeps
  | |- op_ok _ emu_illegal => apply keeps_op, illegal_keeps
  | |- op_ok _ emu_jcc_imm => apply jcc_imm_ok
  | |- op_ok _ emu_jcc_ea => apply jcc_ea_ok
  | |- op_ok _ emu_jclr_ea => apply jclr_ea_ok
  | |- op_ok _ emu_jclr_aa => apply jbit_mem_ok, loc_aa_ok
  | |- op_ok _ emu_jclr_pp => apply jbit_mem_ok, loc_pp_ok
  | |- op_ok _ emu_jclr_reg => apply jbit_reg_ok
  | |- op_ok _ emu_jset_ea => apply jbit_mem_ok, loc_ea_ok
  | |- op_ok _ emu_jset_aa => apply jbit_mem_ok, loc_aa_ok
  | |- op_ok _ emu_jset_pp => apply jbit_mem_ok, loc_pp_ok
  | |- op_ok _ emu_jset_reg => apply jbit_reg_ok
  | |- op_ok _ emu_jsclr_ea => apply jbit_mem_ok, loc_ea_ok
  | |- op_ok _ emu_jsclr_aa => apply jbit_mem_ok, loc_aa_ok
  | |- op_ok _ emu_jsclr_pp => apply jbit_mem_ok, loc_pp_ok
  | |- op_ok _ emu_jsclr_reg => apply jbit_reg_ok
  | |- op_ok _ emu_jsset_ea => apply jbit_mem_ok, loc_ea_ok
  | |- op_ok _ emu_jsset_aa => apply jbit_mem_ok, loc_aa_ok
  | |- op_ok _ emu_jsset_pp => apply jbit_mem_ok, loc_pp_ok
  | |- op_ok _ emu_jsset_reg => apply jbit_reg_ok
  | |- op_ok _ emu_jmp_imm => apply jmp_imm_ok
  | |- op_ok _ emu_jmp_ea => apply jmp_ea_ok
  | |- op_ok _ emu_jscc_imm => apply jscc_imm_ok
  | |- op_ok _ emu_jscc_ea => apply jscc_ea_ok
  | |- op_ok _ emu_jsr_imm => apply jsr_imm_ok
  | |- op_ok _ emu_jsr_ea => apply jsr_ea_ok
  | |- op_ok _ emu_lsl_imm => apply keeps_op, lsl_imm_keeps
  | |- op_ok _ emu_lua => apply lua_ok
  | |- op_ok _ emu_lua_rel => apply lua_rel_ok
  | |- op_ok _ emu_move_x_long => apply keeps_op, move_x_long_keeps
  | |- op_ok _ emu_move_x_imm => apply keeps_op, move_xy_imm_keeps
  | |- op_ok _ emu_move_y_imm => apply keeps_op, move_xy_imm_keeps
  | |- op_ok _ emu_movec_reg => apply keeps_op, movec_reg_keeps
  | |- op_ok _ emu_movec_aa => apply keeps_op, movec_aa_keeps
  | |- op_ok _ emu_movec_imm => apply keeps_op, movec_imm_keeps
  | |- op_ok _ emu_movec_ea => apply movec_ea_ok
  | |- op_ok _ emu_movem_aa => apply movem_aa_ok
  | |- op_ok _ emu_movem_ea => apply movem_ea_ok
  | |- op_ok _ emu_movep_0 => apply movep_0_ok
  | |- op_ok _ emu_movep_1 => apply movep_1_ok
  | |- op_ok _ emu_movep_23 => intros n dsp; apply movep_ea_ok
  | |- op_ok _ emu_movep_x_qq => intros n dsp; apply movep_ea_ok
  | |- op_ok _ emu_mpyi => apply keeps_op, mpyi_keeps
  | |- op_ok _ emu_norm => apply keeps_op, norm_keeps
  | |- op_ok _ emu_or_long => apply keeps_op, or_long_keeps
  | |- op_ok _ emu_ori => apply keeps_op, ori_keeps
  | |- op_ok _ emu_rep_aa => apply rep_mem_ok, loc_aa_ok
  | |- op_ok _ emu_rep_ea => apply rep_mem_ok, loc_ea_ok
  | |- op_ok _ emu_rep_imm => apply rep_imm_ok
  | |- op_ok _ emu_rep_reg => apply rep_reg_ok
  | |- op_ok _ emu_reset => apply reset_ok
  | |- op_ok _ emu_rti => apply rti_ok
  | |- op_ok _ emu_rts => apply rts_ok
  | |- op_ok _ emu_sub_imm => apply keeps_op, sub_imm_keeps
  | |- op_ok _ emu_sub_long => apply keeps_op, sub_long_keeps
  | |- op_ok _ emu_tcc => apply keeps_op, tcc_keeps
  | |- op_ok _ emu_nop => apply keeps_op; intros n dsp HT; exact HT
  | |- op_ok _ emu_stop => apply keeps_op; intros n dsp HT; exact HT
  | |- op_ok _ emu_wait => apply keeps_op; intros n dsp HT; exact HT
  end.

Lemma emu_table_ok s : Forall (entry_ok s) emu_table.
Proof. unfold emu_table. repeat apply Forall_cons_2; try apply Forall_nil_2; solve_entry. Qed.

(** Every function pointer of the opcode table is one of the handlers. *)
Lemma handlers_bound e name : In e nonparallel_opcodes -> emu_func e = Some name ->
  exists f, find (fun x => String.eqb (fst x) name) (emu_table (P := P)) = Some (name, f).
Proof.
  assert (Forall (fun e => match emu_func e with
    | Some name => exists f, find (fun x => String.eqb (fst x) name) (emu_table (P := P)) = Some (name, f)
    | None => True end) nonparallel_opcodes) as Hall.
  { unfold nonparallel_opcodes. repeat (apply Forall_cons_2; [first [exact Logic.I | eexists; reflexivity]|]).
    apply Forall_nil_2. }
  intros He Hname. rewrite List.Forall_forall in Hall. specialize (Hall e He). by rewrite Hname in Hall.
Qed.

Lemma emu_ok s e name : In e nonparallel_opcodes -> emu_func e = Some name ->
  (wide_name name = true -> forall i, I i -> s = true -> narrow_bit i) -> op_ok s (emu name).
Proof.
  intros He Hname Hwide n dsp Hn HT. unfold emu.
  destruct (handlers_bound e name He Hname) as [f Hf]. rewrite Hf.
  pose proof (emu_table_ok s) as Hall. rewrite List.Forall_forall in Hall.
  apply find_some in Hf as [Hin _]. by apply (Hall _ Hin Hwide).
Qed.

(** ** After the instruction *)

Lemma update_rep_typed s n dsp : typed s n dsp -> typed s n (update_rep dsp).
Proof.
  intros HT. unfold update_rep. case_match; [|done]. case_match.
  - assert (typed s n (setr DSP_REG_LC (Z.land (u32 (getr dsp DSP_REG_LC - 1)) (BITMASK 16)) dsp)) as H1.
    { apply typed_setr; [done|]. apply mask16_dw. }
    revert H1. generalize (setr DSP_REG_LC (Z.land (u32 (getr dsp DSP_REG_LC - 1)) (BITMASK 16)) dsp). intros d Hd.
    apply typed_if; [destruct Hd; by constructor|].
    assert (typed s n (d <| loop_rep := 0 |>)) as Hrep by (destruct Hd; by constructor).
    apply typed_setr; [done|]. by apply (ty_regs _ _ _ _ _ Hd DSP_REG_LCSAVE).
  - assert (typed s n (if getr dsp DSP_REG_LC =? 0 then setr DSP_REG_LC 0x010000 dsp else dsp)) as H1.
    { apply typed_if; [|done]. apply typed_setr; [done|]. apply (dw24 s 0x010000). lia. }
    destruct H1. by constructor.
Qed.

Lemma update_pc_keeps s : keeps s dsp_postexecute_update_pc.
Proof.
  intros n dsp HT. unfold dsp_postexecute_update_pc. apply update_rep_typed in HT.
  revert HT. generalize (update_rep dsp). intros d HT.
  assert (typed s n (d <| pc ::= fun p => u32 (p + cur_inst_len d) |>)) as H1.
  { destruct HT. constructor; try assumption. apply u32_range. }
  revert H1. generalize (d <| pc ::= fun p => u32 (p + cur_inst_len d) |>). intros d1 HT1.
  unfold update_do. case_match; [|done]. case_match; [|done].
  assert (typed s n (setr DSP_REG_LC (Z.land (u32 (getr d1 DSP_REG_LC - 1)) (BITMASK 16)) d1)) as H2.
  { apply typed_setr; [done|]. apply mask16_dw. }
  revert H2. generalize (setr DSP_REG_LC (Z.land (u32 (getr d1 DSP_REG_LC - 1)) (BITMASK 16)) d1). intros d2 HT2.
  destruct (_ =? 0); [by apply leave_loop_keeps|].
  pose proof (ty_regs _ _ _ _ _ HT2 DSP_REG_SSH ltac:(done)) as Hssh.
  destruct HT2. constructor; try assumption. by apply (range_weaken _ 16).
Qed.

Lemma enter_long_keeps s : keeps s enter_long_interrupt.
Proof.
  intros n dsp HT. unfold enter_long_interrupt.
  assert (typed s n (dsp <| interrupt_state := DSP_INTERRUPT_LONG |>)) as H1 by (destruct HT; by constructor).
  step stack_push_typed. intros d HTd. pose proof (typed_sr s n d HTd) as Hsr.
  apply typed_setr.
  - apply typed_setr; [done|]. by apply (land_range _ _ 16).
  - rewrite getr_setr_eq. apply (lor_range _ _ 16); [done|by apply (land_range _ _ 16)|].
    pose proof (ty_raise _ _ _ _ _ HTd) as Hr. rewrite Z.shiftl_mul_pow2 by done.
    change (interrupt_ipl_to_raise (setr _ _ d)) with (interrupt_ipl_to_raise d).
    change (2 ^ DSP_SR_I0) with 256. lia.
Qed.

Lemma arbitrate_range dsp sr l : forall i r, (i = 0xffff \/ 0 <= i < 4) -> Forall (fun k => 0 <= k < 4) l ->
  arbitrate dsp sr l i r = 0xffff \/ 0 <= arbitrate dsp sr l i r < 4.
Proof.
  induction l as [|k l IH]; intros i r Hi Hl; [done|]. apply Forall_cons_1 in Hl as [Hk Hl]. cbn [arbitrate].
  repeat case_match; auto.
Qed.

Lemma start_interrupt_keeps s : keeps s start_interrupt.
Proof.
  intros n dsp HT. unfold start_interrupt. case_match; [done|].
  set (i := arbitrate _ _ _ _ _).
  assert (i = 0xffff \/ 0 <= i < 4) as Hi.
  { apply arbitrate_range; [by left|]. repeat apply Forall_cons_2; try apply Forall_nil_2; lia. }
  destruct (Z.eqb_spec i 0xffff) as [Heq|Hne]; [done|]. destruct Hi as [|Hi]; [done|].
  step safe_fetch. intros v Hv. cbv beta in Hv.
  assert (is_u16 v) as Hv16.
  { assert (Forall is_u16 dsp_interrupt) as Hall by (repeat constructor; done).
    by apply (Forall_lookup_1 _ _ _ _ Hall) in Hv. }
  destruct HT. constructor; try assumption. proj_red.
  match goal with H : forall i, -1 <= rd (interrupt_ipl dsp) i <= 3 |- _ => specialize (H i) end.
  assert (forall x, 0 <= x <= 3 -> 0 <= u16 x <= 3) as Hu by (intros x Hx; rewrite u16_id; [|unfold is_u16]; lia).
  apply Hu. destruct (Z.ltb_spec 3 (rd (interrupt_ipl dsp) i + 1)); lia.
Qed.

Lemma pipeline_down_typed s n dsp : typed s n dsp -> typed s n (pipeline_down dsp).
Proof. intros []. by constructor. Qed.
(** The call of a long interrupt, if the fetched instruction is one. *)
Lemma maybe_long_typed s n (b : bool) dsp : typed s n dsp ->
  safe (typed s n) (if b then enter_long_interrupt dsp else Ok dsp).
Proof. intros HT. destruct b; [by apply enter_long_keeps|done]. Qed.

Lemma interrupts_keeps s : keeps s dsp_postexecute_interrupts.
Proof.
  intros n dsp HT. unfold dsp_postexecute_interrupts. case_match; [done|].
  case_match; [|by apply start_interrupt_keeps].
  case_match; [by apply pipeline_down_typed|]. case_match; [|case_match; [|case_match; [|case_match; [|case_match]]]].
  - assert (typed s n (dsp <| interrupt_save_pc := u16 (pc dsp) |> <| pc := interrupt_instr_fetch dsp |>)) as Hpc.
    { destruct HT. constructor; try assumption; [by apply (range_weaken _ 16)|apply u16_range]. }
    step (read_p_typed s n). intros v _. step (maybe_long_typed s n). intros d HTd. by apply pipeline_down_typed.
  - eapply (safe_bind _ (typed s n)); [|intros d HTd; by apply pipeline_down_typed].
    case_match; [|done]. step (read_p_typed s n). intros v _. by apply maybe_long_typed.
  - apply pipeline_down_typed, typed_if; [|done]. destruct HT. constructor; try assumption.
    by apply (range_weaken _ 16).
  - by apply pipeline_down_typed.
  - apply start_interrupt_keeps. destruct HT. constructor; try assumption; apply u16_range.
  - by apply start_interrupt_keeps.
Qed.
End Instructions.

(** ** One instruction *)

(** The instructions without the effect of [narrow_alu] and [narrow_bit]. *)
Definition narrow_inst (inst : Z) : bool :=
  if inst <? 0x100000 then
    match lookup_opcode_slow inst with
    | Ok e =>
        match nonparallel_opcodes !! e ≫= emu_func with
        | Some f =>
            negb (wide_name f && is_accu (Z.land (Z.shiftr inst 8) (BITMASK 6)) && (24 <=? Z.land inst (BITMASK 5)))
        | None => true
        end
    | Fault _ => true
    end
  else negb (Z.land inst (BITMASK 8) =? 0x1d).

Section Execution.
Context {P : Type} `{!DspPeripheral P}.
Context {periph_typed : bool -> P -> Prop} {periph_fault : fault -> Prop}.
Context `{!TypedPeripheral periph_typed periph_fault}.
Implicit Types dsp : dsp_core P.
Local Abbreviation typed := (typed periph_typed).
Local Abbreviation safe := (safe (allowed periph_fault)).

(** All of [typed] but the cycles of the last instruction. *)
Definition well_typed (s : bool) dsp : Prop := typed (fun _ => True) s 2 (dsp <| instr_cycle := 2 |>).

Lemma typed_any I s n dsp : typed I s n dsp -> well_typed s dsp /\ 2 <= instr_cycle dsp <= n.
Proof. intros []. split; [|done]. constructor; try assumption; [|cbn; lia].
  match goal with H : _ /\ I _ |- _ => by destruct H end.
Qed.

Lemma scan_ok op es : forall ms i, safe (fun e => (i <= e < i + length es)%nat) (scan_opcodes op i es ms).
Proof.
  induction es as [|e es IH]; intros ms i; [done|]. destruct ms as [|m ms]; [done|]. cbn [scan_opcodes].
  destruct (op_matches op e m); [cbn; lia|]. eapply safe_weaken; [apply IH|]. cbn. lia.
Qed.

Lemma decode_safe cache dsp : cache_ok cache -> pram_cache_ok dsp -> cur_inst dsp = rd (pram dsp) (pc dsp) ->
  safe (fun '(c, d, e) => cache_ok c /\ d = dsp <| pram_opcache ::= <[pc dsp := e]> |> /\
          lookup_opcode_slow (cur_inst dsp) = Ok e) (decode cache dsp).
Proof.
  intros Hc Hp Hi. destruct (lookup_opcode_slow (cur_inst dsp)) as [e|f] eqn:He.
  - destruct (decode_ok cache dsp e Hc Hp Hi He) as (c & Hc' & ->). done.
  - pose proof (scan_ok (cur_inst dsp) nonparallel_opcodes nonparallel_matches 0) as Hs.
    unfold lookup_opcode_slow in He. rewrite He in Hs. unfold decode.
    destruct (pram_opcache dsp !! pc dsp) as [e'|] eqn:Hlk.
    { apply Hp in Hlk. rewrite <- Hi in Hlk. unfold lookup_opcode_slow in Hlk. congruence. }
    by rewrite (lookup_opcode_fault cache _ f Hc He).
Qed.

(** An entry of the table, or the undefined instruction. *)
Lemma run_entry_ok s inst e n dsp : lookup_opcode_slow inst = Ok e -> inst < 0x100000 ->
  (s = true -> narrow_inst inst = true) -> n <= 500 -> typed (eq inst) s n dsp ->
  safe (typed (eq inst) s (n + 104)) (run_entry emu emu_undefined dsp e).
Proof.
  intros He Hlt Hs Hn HT. unfold run_entry.
  pose proof (scan_ok inst nonparallel_opcodes nonparallel_matches 0) as Hscan.
  unfold lookup_opcode_slow in He. rewrite He in Hscan. cbn [Prelude.safe] in Hscan.
  destruct (nonparallel_opcodes !! e) as [ent|] eqn:Hent.
  2: { apply lookup_ge_None in Hent. lia. }
  destruct (emu_func ent) as [f|] eqn:Hf; [|by apply alu_op_ok; [apply emu_undefined_ok|..]].
  apply (emu_ok s ent); [by apply list_elem_of_lookup_2, list_elem_of_In in Hent|done| |done..].
  intros Hw i <- Hs'. specialize (Hs Hs'). unfold narrow_inst in Hs.
  rewrite (proj2 (Z.ltb_lt _ _)) in Hs by done. unfold lookup_opcode_slow in Hs. rewrite He, Hent in Hs.
  cbn [mbind option_bind] in Hs. rewrite Hf, Hw in Hs. cbn [andb] in Hs.
  unfold narrow_bit. intros Ha. rewrite Ha in Hs. cbn [andb] in Hs. apply negb_true_iff, Z.leb_gt in Hs. done.
Qed.

Lemma execute_typed s cache dsp : well_typed s dsp -> cache_ok cache ->
  (s = true -> narrow_inst (rd (pram dsp) (pc dsp)) = true) ->
  safe (fun '(c, d) => cache_ok c /\ well_typed s d /\ 2 <= instr_cycle d <= 106)
    (execute_instruction cache dsp).
Proof.
  intros HT Hc Hnarrow. unfold execute_instruction, dsp56k_execute_instruction.
  pose proof (read_p_typed (periph_fault := periph_fault) s 2 _ (pc dsp) HT) as Hr.
  assert (safe (fun v => v = rd (pram dsp) (pc dsp)) (read_memory_p dsp (pc dsp))) as Hr'.
  { unfold read_memory_p, check. by repeat case_match. }
  change (read_memory_p (dsp <| instr_cycle := 2 |>) (pc dsp)) with (read_memory_p dsp (pc dsp)) in Hr.
  destruct (read_memory_p dsp (pc dsp)) as [inst|f]; [|exact Hr]. cbn [Prelude.safe] in Hr, Hr'.
  cbn [mbind result_mbind result_bind].
  set (d1 := dsp <| cur_inst := inst |> <| cur_inst_len := 1 |> <| instr_cycle := 2 |>).
  assert (typed (eq inst) s 2 d1) as HT1 by (destruct HT; constructor; by try assumption).
  change (cur_inst d1) with inst. subst inst.
  set (inst := rd (pram dsp) (pc dsp)) in *.
  eapply (safe_bind _ (fun '(c, d) => cache_ok c /\ typed (eq inst) s 106 d)).
  { destruct (Z.ltb_spec inst 0x100000) as [Hlt|Hge].
    - eapply safe_bind; [apply (decode_safe cache d1 Hc (ty_cache _ _ _ _ _ HT1)); done|].
      intros [[c d] e] (Hc' & -> & He). change (cur_inst d1) with inst in He.
      eapply safe_bind; [apply (run_entry_ok s inst e 2); [done..|]|by intros].
      destruct HT1. constructor; try assumption. intros a e'. cbn.
      destruct (Z.eq_dec (pc dsp) a) as [<-|Hne]; [rewrite lookup_insert_eq; by intros [= <-]|].
      rewrite lookup_insert_ne by done. match goal with H : pram_cache_ok _ |- _ => apply H end.
    - eapply safe_bind;
        [apply (run_parmove_ok (I := eq inst) s _ (land_mask_range _ 4 ltac:(done)) 2); [|done|exact HT1]|by intros].
      intros i <- Hs. specialize (Hnarrow Hs). unfold narrow_inst in Hnarrow.
      rewrite (proj2 (Z.ltb_ge _ _)) in Hnarrow by done.
      by apply negb_true_iff, Z.eqb_neq in Hnarrow. }
  intros [c d] [Hc' HTd]. step (update_pc_keeps s 106). intros d2 HT2.
  step (interrupts_keeps s 106). intros d3 HT3. split; [done|].
  apply (typed_any (eq inst)). destruct HT3. by constructor.
Qed.
End Execution.
Arguments well_typed {P} _ _ _.
