(* ===== verification/DspDma.v ===== *)
(** * The DMA engine of the audio DSPs
    (src/xemu/hw/xbox/mcpx/apu/dsp/dsp_dma.c, dsp_dma.h, dsp_dma_regs.h)

    The engine walks a linked list of descriptors in DSP memory and moves items
    between DSP memory and scratch memory or FIFOs of the guest.  The callbacks
    [mem_read], [mem_write], [scratch_rw] and [fifo_rw] are the class [DmaEnv]
    over the state [M] they act on; [DmaLaws] states what the theorems need of
    them.  The static intermediate buffer is part of the state. *)

From S2P Require Import Prelude DspArith DspCore.

Definition DMA_CONTROL_ACTION : Z := 0x7.
Definition DMA_CONTROL_ACTION_START : Z := 1.
Definition DMA_CONTROL_ACTION_STOP : Z := 2.
Definition DMA_CONTROL_ACTION_FREEZE : Z := 3.
Definition DMA_CONTROL_ACTION_UNFREEZE : Z := 4.
Definition DMA_CONTROL_FROZEN : Z := bit 3.
Definition DMA_CONTROL_RUNNING : Z := bit 4.
Definition DMA_CONTROL_STOPPED : Z := bit 5.

Definition NODE_POINTER_VAL : Z := 0x3fff.
Definition NODE_POINTER_EOL : Z := bit 14.
Definition NODE_CONTROL_DIRECTION : Z := bit 1.

Inductive DSPDMARegister :=
| DMA_CONFIGURATION
| DMA_CONTROL
| DMA_START_BLOCK
| DMA_NEXT_BLOCK.

Record DSPDMAState := mkDSPDMAState {
  configuration : Z;
  control : Z;
  start_block : Z;
  next_block : Z;
  dma_error : bool;
  eol : bool;
  dma_read_count : Z;
}.

#[export] Instance DSPDMAState_settable : Settable DSPDMAState :=
  settable! mkDSPDMAState < configuration ; control ; start_block ; next_block ; dma_error ;
    eol ; dma_read_count >.

(** The callbacks; [ptr] is the [len] bytes at the pointer, and the bytes there
    afterwards are returned.  [malloc n] is the [n] bytes of a fresh block. *)
Class DmaEnv (M : Type) := {
  mem_read : M -> Z -> Z -> result (M * Z);
  mem_write : M -> Z -> Z -> Z -> result M;
  scratch_rw : M -> list Z -> Z -> bool -> result (M * list Z);
  fifo_rw : M -> list Z -> Z -> bool -> result (M * list Z);
  malloc : Z -> list Z;
}.

(** [scratch_buf] is [None] as long as [scratch_buf_size] is -1. *)
Record dma_sys (M : Type) := mkDma {
  dma : DSPDMAState;
  scratch_buf : option (list Z);
  env : M;
}.
Arguments mkDma {M}.
Arguments dma {M} _.
Arguments scratch_buf {M} _.
Arguments env {M} _.

#[export] Instance dma_sys_settable M : Settable (dma_sys M) :=
  settable! (@mkDma M) < dma ; scratch_buf ; env >.

(** The fields of a descriptor's control word. *)
Record node_control := mkNodeControl {
  dsp_interleave : bool;
  direction : bool;
  unk2 : Z;
  buffer_offset_writeback : bool;
  buf_id : Z;
  format : Z;
  unk13 : bool;
}.

Definition decode_control (control : Z) : node_control :=
  mkNodeControl
    (negb (Z.land (Z.shiftr control 0) 1 =? 0))
    (has control NODE_CONTROL_DIRECTION)
    (Z.land (Z.shiftr control 2) 0x3)
    (negb (Z.land (Z.shiftr control 4) 1 =? 0))
    (Z.land (Z.shiftr control 5) 0xf)
    (Z.land (Z.shiftr control 10) 0x7)
    (negb (Z.land (Z.shiftr control 13) 1 =? 0)).

(** The space and the address of the descriptor at [addr]. *)
Definition block_location (addr : Z) : result (Z * Z) :=
  if addr <? 0x1800 then
    _ ← check (addr + 6 <? 0x1800) "addr+6 < 0x1800"; Ok (DSP_SPACE_X, addr)
  else if (0x1800 <=? addr) && (addr <? 0x2000) then
    _ ← check (addr + 6 <? 0x2000) "addr+6 < 0x2000"; Ok (DSP_SPACE_Y, addr - 0x1800)
  else if (0x2800 <=? addr) && (addr <? 0x3800) then
    _ ← check (addr + 6 <? 0x3800) "addr+6 < 0x3800"; Ok (DSP_SPACE_P, addr - 0x2800)
  else Fault (AssertFail "Dsp dma space address out of range").

(** The space and the address of the [count] items at [dsp_offset]. *)
Definition mem_location (dsp_offset count : Z) : result (Z * Z) :=
  let last := u32 (dsp_offset + count) in
  if dsp_offset <? 0x1800 then
    _ ← check (last <? 0x1800) "dsp_offset+count < 0x1800"; Ok (DSP_SPACE_X, dsp_offset)
  else if (0x1800 <=? dsp_offset) && (dsp_offset <? 0x2000) then
    _ ← check (last <? 0x2000) "dsp_offset+count < 0x2000";
    Ok (DSP_SPACE_Y, dsp_offset - 0x1800)
  else if (0x2800 <=? dsp_offset) && (dsp_offset <? 0x3800) then
    _ ← check (last <? 0x3800) "dsp_offset+count < 0x3800";
    Ok (DSP_SPACE_P, dsp_offset - 0x2800)
  else Fault (AssertFail "Dsp dma offset out of range").

(** [item_size] and [item_mask]. *)
Definition item_format (format : Z) : result (Z * Z) :=
  if format =? 0 then Ok (1, 0x000000ff)
  else if format =? 1 then Ok (2, 0x0000ffff)
  else if (format =? 2) || (format =? 6) then Ok (4, 0x00ffffff)
  else Fault (AssertFail "Unknown dsp dma format").

(** The store of one item into the buffer and its load. *)
Definition put_item (item_size off v : Z) (buf : list Z) : result (list Z) :=
  if item_size =? 2 then blit buf off (le_bytes 2 (Z.shiftr v 8))
  else if item_size =? 4 then blit buf off (le_bytes 4 v)
  else Fault (AssertFail "Invalid dsp dma item size").

Definition get_item (item_size item_mask off : Z) (buf : list Z) : result Z :=
  if item_size =? 2 then b ← slice buf off 2; Ok (Z.shiftl (u16 (le_word b)) 8)
  else if item_size =? 4 then b ← slice buf off 4; Ok (Z.land (u32 (le_word b)) item_mask)
  else Fault (AssertFail "Invalid dsp dma item size").

Section DspDma.
Context {M : Type} `{!DmaEnv M}.

(** [scratch_rw] on the [n] bytes of the buffer at [off]. *)
Definition scratch_rw_at (m : M) (buf : list Z) (off addr n : Z) (dir : bool) :
    result (M * list Z) :=
  ptr ← slice buf off n;
  '(m, ptr) ← scratch_rw m ptr addr dir;
  buf ← blit buf off ptr;
  Ok (m, buf).

(** The loop of [scratch_circular_copy]: returns [*scratch_offset] too. *)
Fixpoint circular_loop (fuel : nat) (scratch_base scratch_size : Z) (dir : bool)
    (m : M) (buf : list Z) (scratch_offset transfer_size buf_offset : Z) :
    result (M * list Z * Z) :=
  if 0 <? transfer_size then
    match fuel with
    | O => Fault OutOfFuel
    | S fuel =>
      let bytes_until_wrap := u32 (scratch_size - scratch_offset) in
      let chunk_size := Z.min transfer_size bytes_until_wrap in
      let scratch_addr := u32 (scratch_base + scratch_offset) in
      '(m, buf) ← scratch_rw_at m buf buf_offset scratch_addr chunk_size dir;
      let scratch_offset := u32 (scratch_offset + chunk_size) in
      let scratch_offset := if scratch_size <=? scratch_offset then 0 else scratch_offset in
      circular_loop fuel scratch_base scratch_size dir m buf scratch_offset
        (u32 (transfer_size - chunk_size)) (u32 (buf_offset + chunk_size))
    end
  else Ok (m, buf, scratch_offset).

(** Every round moves at least one byte when [scratch_size] is not 0. *)
Definition scratch_circular_copy (m : M) (scratch_base scratch_offset scratch_size
    transfer_size : Z) (buf : list Z) (dir : bool) : result (M * list Z * Z) :=
  let scratch_offset := if scratch_size <=? scratch_offset then 0 else scratch_offset in
  circular_loop (Z.to_nat transfer_size) scratch_base scratch_size dir m buf scratch_offset
    transfer_size 0.

(** The items read from DSP memory into the buffer, in channel-interleaved order
    or in memory order. *)
Definition pack_interleaved (mem_space mem_address item_size block_count channel_count : Z)
    (m : M) (buf : list Z) : result (M * list Z) :=
  for_loop (Z.to_nat block_count) 0 (fun i st =>
    for_loop (Z.to_nat channel_count) 0 (fun ch st =>
      let '(m, buf) := st in
      '(m, v) ← mem_read m mem_space (u32 (mem_address + ch * block_count + i));
      buf ← put_item item_size
              (u32 (i * item_size * channel_count) + ch * item_size) v buf;
      Ok (m, buf)) st) (m, buf).

Definition pack_linear (mem_space mem_address item_size count : Z) (m : M) (buf : list Z) :
    result (M * list Z) :=
  for_loop (Z.to_nat count) 0 (fun i st =>
    let '(m, buf) := st in
    '(m, v) ← mem_read m mem_space (u32 (mem_address + i));
    buf ← put_item item_size (i * item_size) v buf;
    Ok (m, buf)) (m, buf).

Definition unpack (mem_space mem_address item_size item_mask count : Z) (buf : list Z) (m : M) :
    result M :=
  for_loop (Z.to_nat count) 0 (fun i m =>
    v ← get_item item_size item_mask (i * item_size) buf;
    mem_write m mem_space (u32 (mem_address + i)) v) m.

(** The buffer, grown when [size] bytes do not fit. *)
Definition grow_buf (size : Z) (buf : option (list Z)) : list Z :=
  match buf with
  | None => malloc size
  | Some b => if Z.of_nat (length b) <? size then malloc size else b
  end.

(** A descriptor as read from DSP memory; [n_scratch_size] is the word plus 1. *)
Record node := mkNode {
  n_next : Z;
  n_control : Z;
  n_count : Z;
  n_dsp_offset : Z;
  n_scratch_offset : Z;
  n_scratch_base : Z;
  n_scratch_size : Z;
}.

Definition read_node (m : M) (block_space block_addr : Z) : result (M * node) :=
  '(m, next_block) ← mem_read m block_space block_addr;
  '(m, control) ← mem_read m block_space (block_addr + 1);
  '(m, count) ← mem_read m block_space (block_addr + 2);
  '(m, dsp_offset) ← mem_read m block_space (block_addr + 3);
  '(m, scratch_offset) ← mem_read m block_space (block_addr + 4);
  '(m, scratch_base) ← mem_read m block_space (block_addr + 5);
  '(m, scratch_size) ← mem_read m block_space (block_addr + 6);
  Ok (m, mkNode next_block control count dsp_offset scratch_offset scratch_base
           (u32 (scratch_size + 1))).

(** The bytes between the buffer and FIFO or scratch memory, [buf_id] being the
    FIFO, 0xE circular scratch or 0xF linear scratch. *)
Definition buffer_out (n : node) (buf_id transfer_size : Z) (m : M) (buf : list Z) :
    result (M * list Z * Z) :=
  if buf_id <? 4 then
    ptr ← slice buf 0 transfer_size;
    '(m, ptr) ← fifo_rw m ptr buf_id true;
    buf ← blit buf 0 ptr;
    Ok (m, buf, n_scratch_offset n)
  else if buf_id =? 0xE then
    scratch_circular_copy m (n_scratch_base n) (n_scratch_offset n) (n_scratch_size n)
      transfer_size buf true
  else if buf_id =? 0xF then
    '(m, buf) ← scratch_rw_at m buf 0 (u32 (n_scratch_base n + n_scratch_offset n))
                  transfer_size true;
    Ok (m, buf, n_scratch_offset n)
  else Fault (AssertFail "Unknown dsp dma buffer").

Definition buffer_in (n : node) (buf_id transfer_size : Z) (m : M) (buf : list Z) :
    result (M * list Z * Z) :=
  if buf_id =? 0xe then
    scratch_circular_copy m (n_scratch_base n) (n_scratch_offset n) (n_scratch_size n)
      transfer_size buf false
  else if buf_id =? 0xf then
    '(m, buf) ← scratch_rw_at m buf 0 (u32 (n_scratch_base n + n_scratch_offset n))
                  transfer_size false;
    Ok (m, buf, n_scratch_offset n)
  else Fault (AssertFail "Unhandled dsp dma buffer").

(** The transfer of one descriptor; returns the scratch offset it ends with. *)
Definition dma_transfer (n : node) (m : M) (buf : option (list Z)) :
    result (M * list Z * Z) :=
  let c := decode_control (n_control n) in
  let count := n_count n in
  _ ← check (unk2 c =? 0x0) "unk2 == 0x0";
  _ ← check (negb (unk13 c)) "unk13 == false";
  let channel_count := Z.land count 0xF + 1 in
  let block_count := Z.shiftr count 4 in
  '(item_size, item_mask) ← item_format (format c);
  '(mem_space, mem_address) ← mem_location (n_dsp_offset n) count;
  let transfer_size := u32 (count * item_size) in
  let buf := grow_buf transfer_size buf in
  if direction c then
    if dsp_interleave c then
      '(m, buf) ← pack_interleaved mem_space mem_address item_size block_count channel_count
                    m buf;
      buffer_out n (buf_id c) (u32 (block_count * item_size * channel_count)) m buf
    else
      '(m, buf) ← pack_linear mem_space mem_address item_size count m buf;
      buffer_out n (buf_id c) transfer_size m buf
  else
    _ ← check (negb (dsp_interleave c)) "!dsp_interleave";
    '(m, buf, scratch_offset) ← buffer_in n (buf_id c) transfer_size m buf;
    m ← unpack mem_space mem_address item_size item_mask count buf m;
    Ok (m, buf, scratch_offset).

(** One round of the loop of [dsp_dma_run]. *)
Definition dma_block (s : dma_sys M) : result (dma_sys M) :=
  let addr := Z.land (next_block (dma s)) NODE_POINTER_VAL in
  '(block_space, block_addr) ← block_location addr;
  '(m, n) ← read_node (env s) block_space block_addr;
  let d := (dma s) <| next_block := n_next n |> in
  let d := if has (next_block d) NODE_POINTER_EOL then d <| eol := true |> else d in
  '(m, buf, scratch_offset) ← dma_transfer n m (scratch_buf s);
  m ← (if buffer_offset_writeback (decode_control (n_control n))
       then mem_write m block_space (block_addr + 4) scratch_offset else Ok m);
  Ok (mkDma d (Some buf) m).

Fixpoint dma_loop (fuel : nat) (s : dma_sys M) : result (dma_sys M) :=
  if has (next_block (dma s)) NODE_POINTER_EOL then Ok s
  else match fuel with
       | O => Fault OutOfFuel
       | S fuel => s ← dma_block s; dma_loop fuel s
       end.

(** [fuel] bounds the number of descriptors; a cyclic list never ends. *)
Definition dsp_dma_run (fuel : nat) (s : dma_sys M) : result (dma_sys M) :=
  if negb (has (control (dma s)) DMA_CONTROL_RUNNING) ||
     has (control (dma s)) DMA_CONTROL_FROZEN then Ok s
  else dma_loop fuel s.

Definition dsp_dma_read (d : DSPDMAState) (reg : DSPDMARegister) : DSPDMAState * Z :=
  match reg with
  | DMA_CONFIGURATION => (d, configuration d)
  | DMA_CONTROL =>
    let d :=
      if has (control d) DMA_CONTROL_RUNNING then
        let d := d <| dma_read_count ::= fun c => u32 (c + 1) |> in
        if 2 <? dma_read_count d then
          d <| control ::= fun c => Z.lor (Z.ldiff c DMA_CONTROL_RUNNING) DMA_CONTROL_STOPPED |>
            <| dma_read_count := 0 |>
        else d
      else d in
    (d, control d)
  | DMA_START_BLOCK => (d, start_block d)
  | DMA_NEXT_BLOCK => (d, next_block d)
  end.

Definition control_action (d : DSPDMAState) (action : Z) : result DSPDMAState :=
  if action =? DMA_CONTROL_ACTION_START then
    Ok (d <| control ::= fun c => Z.ldiff (Z.lor c DMA_CONTROL_RUNNING) DMA_CONTROL_STOPPED |>
          <| dma_read_count := 0 |>)
  else if action =? DMA_CONTROL_ACTION_STOP then
    Ok (d <| control ::= fun c => Z.ldiff (Z.lor c DMA_CONTROL_STOPPED) DMA_CONTROL_RUNNING |>)
  else if action =? DMA_CONTROL_ACTION_FREEZE then
    Ok (d <| control ::= fun c => Z.lor c DMA_CONTROL_FROZEN |>)
  else if action =? DMA_CONTROL_ACTION_UNFREEZE then
    Ok (d <| control ::= fun c => Z.ldiff c DMA_CONTROL_FROZEN |>)
  else Fault (AssertFail "Invalid DMA_CONTROL action").

Definition dsp_dma_write (fuel : nat) (s : dma_sys M) (reg : DSPDMARegister) (v : Z) :
    result (dma_sys M) :=
  match reg with
  | DMA_CONFIGURATION => Ok (s <| dma ::= fun d => d <| configuration := v |> |>)
  | DMA_CONTROL =>
    d ← control_action (dma s) (Z.land v DMA_CONTROL_ACTION);
    dsp_dma_run fuel (s <| dma := d |>)
  | DMA_START_BLOCK => Ok (s <| dma ::= fun d => d <| start_block := v |> |>)
  | DMA_NEXT_BLOCK => Ok (s <| dma ::= fun d => d <| next_block := v |> |>)
  end.
End DspDma.

(** ** What the engine relies on

    [word] is the DSP memory, where two addresses can name the same storage
    ([slot]); [scratch_byte] is the scratch memory, of which [scratch_ok m a n] says that
    the [n] bytes at [a] are mapped. *)
Class DmaLaws (M : Type) `{!DmaEnv M} := {
  word : M -> Z -> Z -> Z;
  scratch_byte : M -> Z -> Z;
  slot : Z -> Z -> Z * Z;
  readable : Z -> Z -> Prop;
  writable : Z -> Z -> Prop;
  scratch_ok : M -> Z -> Z -> Prop;
  env_ok : M -> Prop;
  malloc_length n : 0 <= n -> Z.of_nat (length (malloc n)) = n;
  writable_readable sp a : writable sp a -> readable sp a;
  slot_inj sp a n : (forall i, 0 <= i < n -> writable sp (a + i)) ->
    forall i j, 0 <= i < n -> 0 <= j < n -> slot sp (a + i) = slot sp (a + j) -> i = j;
  mem_read_ok m sp a : env_ok m -> readable sp a -> mem_read m sp a = Ok (m, word m sp a);
  mem_write_ok m sp a v : env_ok m -> writable sp a -> 0 <= v < 2 ^ 24 ->
    exists m', mem_write m sp a v = Ok m' /\ env_ok m' /\
      (forall sp' a', readable sp' a' ->
         word m' sp' a' = if decide (slot sp' a' = slot sp a) then v else word m sp' a') /\
      (forall x, scratch_byte m' x = scratch_byte m x) /\
      (forall x n, scratch_ok m x n -> scratch_ok m' x n);
  scratch_sub m a n o k : scratch_ok m a n -> 0 <= o -> 0 <= k -> o + k <= n ->
    scratch_ok m (a + o) k;
  scratch_write_ok m l a : env_ok m -> scratch_ok m a (Z.of_nat (length l)) ->
    exists m', scratch_rw m l a true = Ok (m', l) /\ env_ok m' /\
      (forall sp' a', word m' sp' a' = word m sp' a') /\
      (forall x, scratch_ok m x 1 -> scratch_byte m' x =
         if (a <=? x) && (x <? a + Z.of_nat (length l)) then byte l (x - a) else scratch_byte m x) /\
      (forall x n, scratch_ok m x n -> scratch_ok m' x n);
  scratch_read_ok m l a : env_ok m -> scratch_ok m a (Z.of_nat (length l)) ->
    exists l', scratch_rw m l a false = Ok (m, l') /\ length l' = length l /\
      forall i, 0 <= i < Z.of_nat (length l) -> byte l' i = scratch_byte m (a + i);
}.

Lemma mod_shift a b size : 0 < size -> (a mod size + b) mod size = (a + b) mod size.
Proof. intros. by rewrite Z.add_mod_idemp_l by lia. Qed.

Lemma blit_self l off n x : slice l off n = Ok x -> blit l off x = Ok l.
Proof.
  intros Hs. apply slice_inv in Hs as (? & ? & ? & Hx & Hb).
  rewrite blit_ok by lia. f_equal. pose proof (blit_ok l off x) as Hok.
  specialize (Hok ltac:(lia) ltac:(lia)). apply blit_inv in Hok as (_ & _ & Hl & Hby).
  apply byte_ext; [done|]. intros i Hi. rewrite Hby by lia.
  destruct (_ && _) eqn:Hc; [|done]. rewrite andb_true_iff, Z.leb_le, Z.ltb_lt in Hc.
  rewrite Hb by lia. f_equal. lia.
Qed.

Section DmaTheorems.
Context {M : Type} `{HL : DmaLaws M}.
Implicit Types m : M.

(** [m'] is [m] up to scratch memory. *)
Definition words_kept m m' : Prop :=
  env_ok m' /\ (forall sp a, word m' sp a = word m sp a) /\
  (forall x n, scratch_ok m x n -> scratch_ok m' x n).

Lemma words_kept_refl m : env_ok m -> words_kept m m.
Proof. by unfold words_kept. Qed.

Lemma words_kept_trans m1 m2 m3 : words_kept m1 m2 -> words_kept m2 m3 -> words_kept m1 m3.
Proof.
  intros (_ & Hw & Hs) (? & Hw' & Hs'). split; [done|]. split; [|by auto].
  intros. by rewrite Hw', Hw.
Qed.

Lemma scratch_out_at m buf off a n :
  env_ok m -> scratch_ok m a n -> 0 <= off -> 0 <= n -> off + n <= Z.of_nat (length buf) ->
  exists m', scratch_rw_at m buf off a n true = Ok (m', buf) /\ words_kept m m' /\
    forall x, scratch_ok m x 1 -> scratch_byte m' x =
      if (a <=? x) && (x <? a + n) then byte buf (off + (x - a)) else scratch_byte m x.
Proof.
  intros Hok Hs Ho Hn Hl. unfold scratch_rw_at.
  pose proof (slice_ok buf off n Ho Hn Hl) as Hsl. set (x := take _ _) in Hsl. clearbody x.
  pose proof (slice_inv _ _ _ _ Hsl) as (_ & _ & _ & Hx & Hb).
  rewrite Hsl. cbn [mbind result_mbind result_bind].
  destruct (scratch_write_ok m x a) as (m' & -> & Hok' & Hw & Hc & Hk); [done|by rewrite Hx|].
  cbn [mbind result_mbind result_bind]. rewrite (blit_self _ _ _ _ Hsl).
  exists m'. split; [done|]. split; [done|]. intros y Hy. rewrite Hc, Hx by done.
  destruct (_ && _) eqn:Hin; [|done]. rewrite andb_true_iff, Z.leb_le, Z.ltb_lt in Hin.
  apply Hb. lia.
Qed.

Lemma scratch_in_at m buf off a n :
  env_ok m -> scratch_ok m a n -> 0 <= off -> 0 <= n -> off + n <= Z.of_nat (length buf) ->
  exists buf', scratch_rw_at m buf off a n false = Ok (m, buf') /\ length buf' = length buf /\
    forall i, 0 <= i -> byte buf' i =
      if (off <=? i) && (i <? off + n) then scratch_byte m (a + (i - off)) else byte buf i.
Proof.
  intros Hok Hs Ho Hn Hl. unfold scratch_rw_at.
  pose proof (slice_ok buf off n Ho Hn Hl) as Hsl. set (x := take _ _) in Hsl. clearbody x.
  pose proof (slice_inv _ _ _ _ Hsl) as (_ & _ & _ & Hx & _).
  rewrite Hsl. cbn [mbind result_mbind result_bind].
  destruct (scratch_read_ok m x a) as (l & -> & Hlen & Hb); [done|by rewrite Hx|].
  cbn [mbind result_mbind result_bind].
  pose proof (blit_ok buf off l Ho ltac:(lia)) as Hbl. rewrite Hbl.
  apply blit_inv in Hbl as (_ & _ & Hl' & Hby).
  eexists. split; [done|]. split; [done|]. intros i Hi. rewrite Hby, Hlen, Hx by done.
  destruct (_ && _) eqn:Hin; [|done]. rewrite andb_true_iff, Z.leb_le, Z.ltb_lt in Hin.
  apply Hb. lia.
Qed.

Lemma circular_in fuel base size m : forall buf off n bo,
  0 < size < 2 ^ 32 -> 0 <= base -> base + size <= 2 ^ 32 -> 0 <= off < size -> 0 <= n ->
  0 <= bo -> bo + n <= Z.of_nat (length buf) < 2 ^ 32 -> n <= Z.of_nat fuel ->
  env_ok m -> scratch_ok m base size ->
  exists buf', circular_loop fuel base size false m buf off n bo = Ok (m, buf', (off + n) mod size)
    /\ length buf' = length buf /\
    forall i, 0 <= i -> byte buf' i =
      if (bo <=? i) && (i <? bo + n) then scratch_byte m (base + (off + (i - bo)) mod size)
      else byte buf i.
Proof.
  induction fuel as [|fuel IH]; intros buf off n bo Hsz Hb Hbs Ho Hn Hbo Hl Hf Hok Hs;
    cbn [circular_loop]; destruct (Z.ltb_spec 0 n) as [Hpos|Hz]; [lia|..].
  1,3: replace n with 0 by lia; exists buf; rewrite Z.add_0_r, Z.mod_small by lia;
    split_and!; try done; intros i _; by destruct (Z.leb_spec bo i), (Z.ltb_spec i (bo + 0)); try lia.
  rewrite (u32_id (size - off)) by (unfold is_u32; lia).
  set (chunk := Z.min n (size - off)). assert (0 < chunk) by lia.
  rewrite (u32_id (base + off)), (u32_id (off + chunk)), (u32_id (n - chunk)),
    (u32_id (bo + chunk)) by (unfold is_u32; lia).
  destruct (scratch_in_at m buf bo (base + off) chunk) as (b1 & -> & Hl1 & Hb1);
    [done|apply (scratch_sub m base size); [done|lia..]|lia..|].
  cbn [mbind result_mbind result_bind]. rewrite wrap_mod by lia.
  destruct (IH b1 ((off + chunk) mod size) (n - chunk) (bo + chunk)) as (b2 & -> & Hl2 & Hb2);
    try done; try lia; [apply Z.mod_pos_bound; lia|].
  exists b2. rewrite mod_shift by lia. replace (off + chunk + (n - chunk)) with (off + n) by lia.
  split; [done|]. split; [congruence|]. intros i Hi. rewrite Hb2, Hb1, mod_shift by lia.
  replace (off + chunk + (i - (bo + chunk))) with (off + (i - bo)) by lia.
  destruct (Z.leb_spec (bo + chunk) i), (Z.ltb_spec i (bo + chunk + (n - chunk))),
    (Z.leb_spec bo i), (Z.ltb_spec i (bo + n)), (Z.ltb_spec i (bo + chunk));
    cbn [andb]; try lia; try done.
  rewrite Z.mod_small by lia. f_equal. lia.
Qed.

Lemma circular_out fuel base size : forall m buf off n bo,
  0 < size < 2 ^ 32 -> 0 <= base -> base + size <= 2 ^ 32 -> 0 <= off < size -> 0 <= n <= size ->
  0 <= bo -> bo + n <= Z.of_nat (length buf) < 2 ^ 32 -> n <= Z.of_nat fuel ->
  env_ok m -> scratch_ok m base size ->
  exists m', circular_loop fuel base size true m buf off n bo = Ok (m', buf, (off + n) mod size)
    /\ words_kept m m' /\
    forall j, 0 <= j < size -> scratch_byte m' (base + j) =
      if (j - off) mod size <? n then byte buf (bo + (j - off) mod size) else scratch_byte m (base + j).
Proof.
  induction fuel as [|fuel IH]; intros m buf off n bo Hsz Hb Hbs Ho Hn Hbo Hl Hf Hok Hs;
    cbn [circular_loop]; destruct (Z.ltb_spec 0 n) as [Hpos|Hz]; [lia|..].
  1,3: replace n with 0 by lia; exists m; rewrite Z.add_0_r, (Z.mod_small off) by lia;
    split_and!; try done; intros j _; pose proof (Z.mod_pos_bound (j - off) size);
    destruct (Z.ltb_spec ((j - off) mod size) 0); lia.
  rewrite (u32_id (size - off)) by (unfold is_u32; lia).
  set (chunk := Z.min n (size - off)). assert (0 < chunk) by lia.
  rewrite (u32_id (base + off)), (u32_id (off + chunk)), (u32_id (n - chunk)),
    (u32_id (bo + chunk)) by (unfold is_u32; lia).
  destruct (scratch_out_at m buf bo (base + off) chunk) as (m1 & -> & Hk1 & Hc1);
    [done|apply (scratch_sub m base size); [done|lia..]|lia..|].
  cbn [mbind result_mbind result_bind]. rewrite wrap_mod by lia.
  destruct (IH m1 buf ((off + chunk) mod size) (n - chunk) (bo + chunk)) as (m2 & -> & Hk2 & Hc2);
    try done; try lia; try (by apply Hk1); [apply Z.mod_pos_bound; lia|].
  exists m2. rewrite mod_shift by lia. replace (off + chunk + (n - chunk)) with (off + n) by lia.
  split; [done|]. split; [by eapply words_kept_trans|]. intros j Hj. rewrite Hc2, Hc1; cycle 1.
  { by apply (scratch_sub m base size); [|lia..]. }
  { done. }
  rewrite Zminus_mod_idemp_r.
  destruct (ring_distance j off chunk size) as (Hd & Hjd & ->); [lia..|].
  set (d := (j - off) mod size) in *.
  destruct (Z.leb_spec chunk d), (Z.ltb_spec d n), (Z.leb_spec (base + off) (base + j)),
    (Z.ltb_spec (base + j) (base + off + chunk)); cbn [andb];
    match goal with |- context [if ?a <? ?b then _ else _] => destruct (Z.ltb_spec a b) end;
    try lia; try done; f_equal; lia.
Qed.

(** Where byte [i] of a transfer lies in scratch memory, and when it fits. *)
Definition scratch_pos (n : node) (id i : Z) : Z :=
  if id =? 0xE then
    n_scratch_base n +
      ((if n_scratch_size n <=? n_scratch_offset n then 0 else n_scratch_offset n) + i)
      mod n_scratch_size n
  else n_scratch_base n + n_scratch_offset n + i.

Definition scratch_fits m (n : node) (id len : Z) : Prop :=
  0 <= len < 2 ^ 32 /\ 0 <= n_scratch_base n /\ 0 <= n_scratch_offset n /\
  ((id = 0xE /\ 0 < n_scratch_size n < 2 ^ 32 /\ len <= n_scratch_size n /\
    n_scratch_base n + n_scratch_size n <= 2 ^ 32 /\
    scratch_ok m (n_scratch_base n) (n_scratch_size n)) \/
   (id = 0xF /\ n_scratch_base n + n_scratch_offset n + len < 2 ^ 32 /\
    scratch_ok m (n_scratch_base n + n_scratch_offset n) len)).

Lemma buffer_out_ok m n id len buf :
  env_ok m -> scratch_fits m n id len -> len <= Z.of_nat (length buf) < 2 ^ 32 ->
  exists m' o, buffer_out n id len m buf = Ok (m', buf, o) /\ words_kept m m' /\
    forall i, 0 <= i < len -> scratch_byte m' (scratch_pos n id i) = byte buf i.
Proof.
  intros Hok (Hlen & Hb & Ho & [(-> & Hsz & Hn & Hbs & Hs)|(-> & Hbs & Hs)]) Hl;
    unfold buffer_out, scratch_pos; cbn [Z.ltb Z.compare Pos.compare Pos.compare_cont Z.eqb Pos.eqb].
  - unfold scratch_circular_copy. set (off := if _ <=? _ then _ else _).
    assert (0 <= off < n_scratch_size n) as Hoff.
    { subst off. destruct (Z.leb_spec (n_scratch_size n) (n_scratch_offset n)); lia. }
    destruct (circular_out (Z.to_nat len) (n_scratch_base n) (n_scratch_size n) m buf off len 0)
      as (m' & -> & Hk & Hc); try done; try lia.
    eexists _, _. split; [done|]. split; [done|]. intros i Hi. rewrite Hc by (apply Z.mod_pos_bound; lia).
    rewrite Zminus_mod_idemp_l. replace (off + i - off) with i by lia.
    destruct (Z.ltb_spec (i mod n_scratch_size n) len) as [_|Hge].
    + destruct (Z.eq_dec i (n_scratch_size n)); [lia|]. by rewrite Z.mod_small by lia.
    + rewrite Z.mod_small in Hge by lia. lia.
  - rewrite u32_id by (unfold is_u32; lia).
    destruct (scratch_out_at m buf 0 (n_scratch_base n + n_scratch_offset n) len)
      as (m' & -> & Hk & Hc); try done; try lia.
    cbn [mbind result_mbind result_bind]. eexists _, _. split; [done|]. split; [done|].
    intros i Hi. rewrite Hc by (by apply (scratch_sub m _ len); [|lia..]).
    destruct (Z.leb_spec (n_scratch_base n + n_scratch_offset n)
                (n_scratch_base n + n_scratch_offset n + i)); [|lia].
    destruct (Z.ltb_spec (n_scratch_base n + n_scratch_offset n + i)
                (n_scratch_base n + n_scratch_offset n + len)); [|lia].
    cbn [andb]. f_equal. lia.
Qed.

Lemma buffer_in_ok m n id len buf :
  env_ok m -> scratch_fits m n id len -> len <= Z.of_nat (length buf) < 2 ^ 32 ->
  exists buf' o, buffer_in n id len m buf = Ok (m, buf', o) /\ length buf' = length buf /\
    forall i, 0 <= i < len -> byte buf' i = scratch_byte m (scratch_pos n id i).
Proof.
  intros Hok (Hlen & Hb & Ho & [(-> & Hsz & Hn & Hbs & Hs)|(-> & Hbs & Hs)]) Hl;
    unfold buffer_in, scratch_pos; cbn [Z.eqb Pos.eqb].
  - unfold scratch_circular_copy. set (off := if _ <=? _ then _ else _).
    assert (0 <= off < n_scratch_size n) as Hoff.
    { subst off. destruct (Z.leb_spec (n_scratch_size n) (n_scratch_offset n)); lia. }
    destruct (circular_in (Z.to_nat len) (n_scratch_base n) (n_scratch_size n) m buf off len 0)
      as (buf' & -> & Hlb & Hc); try done; try lia.
    eexists _, _. split; [done|]. split; [done|]. intros i Hi. rewrite Hc by lia.
    destruct (Z.leb_spec 0 i), (Z.ltb_spec i (0 + len)); try lia. cbn [andb]. by rewrite Z.sub_0_r.
  - rewrite u32_id by (unfold is_u32; lia).
    destruct (scratch_in_at m buf 0 (n_scratch_base n + n_scratch_offset n) len)
      as (buf' & -> & Hlb & Hc); try done; try lia.
    cbn [mbind result_mbind result_bind]. eexists _, _. split; [done|]. split; [done|].
    intros i Hi. rewrite Hc by lia.
    destruct (Z.leb_spec 0 i), (Z.ltb_spec i (0 + len)); try lia. cbn [andb]. by rewrite Z.sub_0_r.
Qed.

(** The bytes of an item in the buffer and the word that comes back. *)
Definition item_bytes (size v : Z) : list Z :=
  if size =? 2 then le_bytes 2 (Z.shiftr v 8) else le_bytes 4 v.
Definition item_value (size v : Z) : Z :=
  if size =? 2 then Z.shiftl (Z.shiftr v 8 mod 2 ^ 16) 8 else v mod 2 ^ 24.

Definition holds_item (buf : list Z) (size off v : Z) : Prop :=
  forall k, 0 <= k < size -> byte buf (off + k) = byte (item_bytes size v) k.

Lemma length_item_bytes size v : size = 2 \/ size = 4 -> Z.of_nat (length (item_bytes size v)) = size.
Proof. by intros [-> | ->]. Qed.

Lemma put_item_ok size off v buf :
  size = 2 \/ size = 4 -> 0 <= off -> off + size <= Z.of_nat (length buf) ->
  exists buf', put_item size off v buf = Ok buf' /\ length buf' = length buf /\
    holds_item buf' size off v /\
    forall off' v', 0 <= off' -> off' + size <= off \/ off + size <= off' ->
      holds_item buf size off' v' -> holds_item buf' size off' v'.
Proof.
  intros Hs Ho Hl. pose proof (length_item_bytes size v Hs) as Hlen.
  assert (put_item size off v buf = blit buf off (item_bytes size v)) as ->
    by (by destruct Hs as [-> | ->]).
  pose proof (blit_ok buf off (item_bytes size v) Ho ltac:(lia)) as Hb. rewrite Hb.
  apply blit_inv in Hb as (_ & _ & Hl' & Hby). rewrite Hlen in Hby.
  eexists. split_and!; [done|done| |].
  - intros k Hk. rewrite Hby by lia.
    destruct (Z.leb_spec off (off + k)), (Z.ltb_spec (off + k) (off + size)); try lia.
    cbn [andb]. f_equal. lia.
  - intros off' v' Ho' Hd Hh k Hk. rewrite Hby by lia. rewrite <- (Hh k Hk).
    destruct (Z.leb_spec off (off' + k)), (Z.ltb_spec (off' + k) (off + size)); try lia; done.
Qed.

Lemma get_item_ok size mask off v buf :
  size = 2 \/ size = 4 /\ mask = 0xffffff -> 0 <= off -> off + size <= Z.of_nat (length buf) ->
  holds_item buf size off v -> get_item size mask off buf = Ok (item_value size v).
Proof.
  intros Hs Ho Hl Hh.
  assert (slice buf off size = Ok (item_bytes size v)) as Hsl.
  { rewrite slice_ok by lia. f_equal. pose proof (slice_ok buf off size Ho ltac:(lia) Hl) as Hx.
    apply slice_inv in Hx as (_ & _ & _ & Hx & Hb).
    assert (Z.of_nat (length (item_bytes size v)) = size) by (apply length_item_bytes; lia).
    apply byte_ext; [lia|]. intros i Hi. rewrite Hb by lia. apply Hh. lia. }
  destruct Hs as [Hs|[Hs Hm]]; subst; unfold get_item, item_value; cbn [Z.eqb Pos.eqb]; rewrite Hsl;
    cbn [mbind result_mbind result_bind]; unfold item_bytes; cbn [Z.eqb Pos.eqb];
    rewrite le_word_bytes; [unfold u16; by rewrite Z.mod_mod|].
  unfold u32. change (256 ^ Z.of_nat 4) with (2 ^ 32). rewrite Z.mod_mod by done.
  change 0xffffff with (Z.ones 24). rewrite Z.land_ones by lia. f_equal.
  rewrite <- (Z.mod_mod_divide v (2 ^ 32) (2 ^ 24)) at 1; [done|].
  by exists (2 ^ 8).
Qed.

Lemma item_value_range size v : size = 2 \/ size = 4 -> 0 <= item_value size v < 2 ^ 24.
Proof.
  intros [-> | ->]; unfold item_value; cbn [Z.eqb Pos.eqb]; [|apply Z.mod_pos_bound; lia].
  rewrite Z.shiftl_mul_pow2 by lia. pose proof (Z.mod_pos_bound (Z.shiftr v 8) (2 ^ 16)). lia.
Qed.

Lemma pack_linear_ok m sp a size count buf :
  env_ok m -> size = 2 \/ size = 4 -> 0 <= count -> 0 <= a -> a + count < 2 ^ 32 ->
  (forall i, 0 <= i < count -> readable sp (a + i)) ->
  count * size <= Z.of_nat (length buf) ->
  exists buf', pack_linear sp a size count m buf = Ok (m, buf') /\ length buf' = length buf /\
    forall j, 0 <= j < count -> holds_item buf' size (j * size) (word m sp (a + j)).
Proof.
  intros Hok Hs Hc Ha Hac Hr Hl. unfold pack_linear.
  destruct (for_loop_inv (fun i st => st.1 = m /\ length st.2 = length buf /\
      forall j, 0 <= j < i -> holds_item st.2 size (j * size) (word m sp (a + j)))
    (fun i st => let '(m, buf) := st in
      '(m, v) ← mem_read m sp (u32 (a + i)); buf ← put_item size (i * size) v buf; Ok (m, buf))
    (Z.to_nat count) 0 (m, buf)) as ([m' b'] & -> & Hm & Hlb & Hh).
  - split_and!; [done|done|lia].
  - intros i [m1 b1] Hi (Hm & Hlb & Hh). cbn in Hm, Hlb, Hh. subst m1.
    rewrite u32_id by (unfold is_u32; lia). rewrite mem_read_ok by (auto; apply Hr; lia).
    cbn [mbind result_mbind result_bind].
    destruct (put_item_ok size (i * size) (word m sp (a + i)) b1) as (b2 & -> & Hl2 & Hi2 & Ho2);
      [done|nia|nia|].
    cbn [mbind result_mbind result_bind]. eexists. split; [done|]. cbn. split_and!; [done|congruence|].
    intros j Hj. destruct (Z.eq_dec j i) as [->|]; [done|]. apply Ho2; [nia|nia|apply Hh; lia].
  - cbn in Hm, Hlb, Hh. subst m'. exists b'. split_and!; [done|done|]. intros. apply Hh. lia.
Qed.

Lemma unpack_ok m sp a size mask count buf (f : Z -> Z) :
  env_ok m -> 0 <= count -> 0 <= a -> a + count < 2 ^ 32 ->
  (forall i, 0 <= i < count -> writable sp (a + i)) ->
  (forall i, 0 <= i < count -> get_item size mask (i * size) buf = Ok (f i) /\ 0 <= f i < 2 ^ 24) ->
  exists m', unpack sp a size mask count buf m = Ok m' /\ env_ok m' /\
    (forall i, 0 <= i < count -> word m' sp (a + i) = f i) /\
    (forall sp' a', readable sp' a' -> (forall i, 0 <= i < count -> slot sp' a' <> slot sp (a + i)) ->
       word m' sp' a' = word m sp' a') /\
    (forall x, scratch_byte m' x = scratch_byte m x).
Proof.
  intros Hok Hc Ha Hac Hw Hg. unfold unpack.
  destruct (for_loop_inv (fun i m' => env_ok m' /\
      (forall j, 0 <= j < i -> word m' sp (a + j) = f j) /\
      (forall sp' a', readable sp' a' -> (forall j, 0 <= j < i -> slot sp' a' <> slot sp (a + j)) ->
         word m' sp' a' = word m sp' a') /\ (forall x, scratch_byte m' x = scratch_byte m x))
    (fun i m => v ← get_item size mask (i * size) buf; mem_write m sp (u32 (a + i)) v)
    (Z.to_nat count) 0 m) as (m' & -> & Hm).
  - split_and!; try done. intros. lia.
  - intros i m1 Hi (Hok1 & Hd & Hf & Hc1). destruct (Hg i ltac:(lia)) as [-> Hv].
    cbn [mbind result_mbind result_bind]. rewrite u32_id by (unfold is_u32; lia).
    destruct (mem_write_ok m1 sp (a + i) (f i)) as (m2 & -> & Hok2 & Hw2 & Hc2 & _);
      [done|apply Hw; lia|done|].
    exists m2. split_and!; [done|done| | |].
    + intros j Hj. rewrite Hw2 by (apply writable_readable, Hw; lia).
      destruct (decide _) as [He|Hne].
      * apply (slot_inj sp a count) in He; [by subst|done|lia..].
      * apply Hd. destruct (Z.eq_dec j i); [by subst|lia].
    + intros sp' a' Hr Hn. rewrite Hw2 by done. rewrite decide_False by (apply Hn; lia).
      apply Hf; [done|]. intros j Hj. apply Hn. lia.
    + intros x. by rewrite Hc2.
  - rewrite Z.add_0_l, Z2Nat.id in Hm by done. by exists m'.
Qed.

Lemma pack_interleaved_ok m sp a size bc cc buf :
  env_ok m -> size = 2 \/ size = 4 -> 0 <= bc -> 0 < cc -> 0 <= a -> a + cc * bc < 2 ^ 32 ->
  (forall i, 0 <= i < cc * bc -> readable sp (a + i)) ->
  bc * cc * size <= Z.of_nat (length buf) < 2 ^ 32 ->
  exists buf', pack_interleaved sp a size bc cc m buf = Ok (m, buf') /\ length buf' = length buf /\
    forall i ch, 0 <= i < bc -> 0 <= ch < cc ->
      holds_item buf' size ((i * cc + ch) * size) (word m sp (a + ch * bc + i)).
Proof.
  intros Hok Hs Hbc Hcc Ha Hac Hr Hl. unfold pack_interleaved.
  set (I := fun k (st : M * list Z) => st.1 = m /\ length st.2 = length buf /\
      forall i ch, 0 <= i -> 0 <= ch < cc -> i * cc + ch < k ->
        holds_item st.2 size ((i * cc + ch) * size) (word m sp (a + ch * bc + i))).
  match goal with |- context [for_loop (Z.to_nat bc) 0 ?body _] => set (outer := body) end.
  destruct (for_loop_inv (fun i => I (i * cc)) outer (Z.to_nat bc) 0 (m, buf))
    as ([m' b'] & -> & Hm & Hlb & Hh).
  - subst I. split_and!; [done|done|]. nia.
  - intros i st Hi HI. subst outer. cbv beta.
    destruct (for_loop_inv (fun ch => I (i * cc + ch)) (fun ch st =>
      let '(m, buf) := st in
      '(m, v) ← mem_read m sp (u32 (a + ch * bc + i));
      buf ← put_item size (u32 (i * size * cc) + ch * size) v buf;
      Ok (m, buf)) (Z.to_nat cc) 0 st) as (st' & -> & HI').
    + by rewrite Z.add_0_r.
    + intros ch [m1 b1] Hch (Hm & Hlb & Hh). cbn in Hm, Hlb, Hh. subst m1.
      rewrite (u32_id (a + _ + i)) by (unfold is_u32; nia).
      rewrite (u32_id (i * size * cc)) by (unfold is_u32; nia).
      replace (a + ch * bc + i) with (a + (ch * bc + i)) by lia.
      rewrite mem_read_ok by (auto; apply Hr; nia). cbn [mbind result_mbind result_bind].
      replace (i * size * cc + ch * size) with ((i * cc + ch) * size) by lia.
      destruct (put_item_ok size ((i * cc + ch) * size) (word m sp (a + (ch * bc + i))) b1)
        as (b2 & -> & Hl2 & Hi2 & Ho2); [done|nia|rewrite Hlb; nia|].
      cbn [mbind result_mbind result_bind]. eexists. split; [done|].
      split_and!; [done|cbn; congruence|]. cbn. intros i' ch' Hi' Hch' Hlt.
      destruct (Z.eq_dec (i' * cc + ch') (i * cc + ch)) as [He|].
      * assert (i' = i) by nia. assert (ch' = ch) by lia. subst.
        by replace (a + ch * bc + i) with (a + (ch * bc + i)) by lia.
      * apply Ho2; [nia|nia|]. apply Hh; lia.
    + exists st'. split; [done|].
      by replace ((i + 1) * cc) with (i * cc + (0 + Z.of_nat (Z.to_nat cc))) by lia.
  - cbn in Hm, Hlb, Hh. subst m'. exists b'. split_and!; [done|done|].
    intros i ch Hi Hch. apply Hh; nia.
Qed.

(** ** Whole transfers *)

(** A control word for scratch memory [id] and format [fmt]. *)
Definition control_word (interleave dir writeback : bool) (id fmt : Z) : Z :=
  Z.b2z interleave + 2 * Z.b2z dir + 16 * Z.b2z writeback + 32 * id + 1024 * fmt.

Definition scratch_id (id : Z) : Prop := id = 0xE \/ id = 0xF.
Definition item_fmt (fmt : Z) : Prop := fmt = 1 \/ fmt = 2 \/ fmt = 6.
Definition item_size_of (fmt : Z) : Z := if fmt =? 1 then 2 else 4.

Lemma decode_control_word il dir wb id fmt : scratch_id id -> item_fmt fmt ->
  decode_control (control_word il dir wb id fmt) = mkNodeControl il dir 0 wb id fmt false.
Proof. intros [-> | ->] [-> | [-> | ->]]; destruct il, dir, wb; reflexivity. Qed.

Definition buf_ok (buf : option (list Z)) : Prop :=
  match buf with None => True | Some b => Z.of_nat (length b) < 2 ^ 32 end.

Lemma grow_buf_ok size buf : 0 <= size < 2 ^ 32 -> buf_ok buf ->
  size <= Z.of_nat (length (grow_buf size buf)) < 2 ^ 32.
Proof.
  intros Hs Hb. unfold grow_buf. destruct buf as [b|]; simpl in Hb; [|rewrite malloc_length; lia].
  destruct (Z.ltb_spec (Z.of_nat (length b)) size); [rewrite malloc_length; lia|lia].
Qed.

(** The items of a descriptor: [count] words at [sp:a]. *)
Definition items_at (n : node) (fmt sp a : Z) : Prop :=
  mem_location (n_dsp_offset n) (n_count n) = Ok (sp, a) /\ 0 <= n_count n < 2 ^ 24 /\
  0 <= a /\ a + n_count n < 2 ^ 32 /\ item_fmt fmt.

Lemma item_format_ok fmt : item_fmt fmt -> exists mask,
  item_format fmt = Ok (item_size_of fmt, mask) /\
  (item_size_of fmt = 2 \/ item_size_of fmt = 4 /\ mask = 0xffffff).
Proof. intros [-> | [-> | ->]]; eexists; split; try reflexivity; tauto. Qed.

Lemma dma_transfer_out n m buf wb id fmt sp a :
  n_control n = control_word false true wb id fmt -> scratch_id id -> items_at n fmt sp a ->
  env_ok m -> buf_ok buf -> scratch_fits m n id (n_count n * item_size_of fmt) ->
  (forall i, 0 <= i < n_count n -> readable sp (a + i)) ->
  exists m' buf' o, dma_transfer n m buf = Ok (m', buf', o) /\ words_kept m m' /\
    buf_ok (Some buf') /\
    forall j k, 0 <= j < n_count n -> 0 <= k < item_size_of fmt ->
      scratch_byte m' (scratch_pos n id (j * item_size_of fmt + k)) =
      byte (item_bytes (item_size_of fmt) (word m sp (a + j))) k.
Proof.
  intros Hc Hid (Hloc & Hcnt & Ha & Hac & Hf) Hok Hb Hfit Hr. unfold dma_transfer.
  rewrite Hc, decode_control_word by done. cbn [unk2 unk13 Z.eqb negb check mbind result_mbind
    result_bind format direction dsp_interleave buf_id].
  destruct (item_format_ok fmt Hf) as (mask & -> & Hs). cbn [mbind result_mbind result_bind].
  rewrite Hloc. cbn [mbind result_mbind result_bind].
  set (size := item_size_of fmt) in *.
  assert (size = 2 \/ size = 4) as Hs' by tauto.
  rewrite u32_id by (unfold is_u32; nia).
  destruct (grow_buf_ok (n_count n * size) buf) as [Hg1 Hg2]; [nia|done|].
  destruct (pack_linear_ok m sp a size (n_count n) (grow_buf (n_count n * size) buf))
    as (b1 & -> & Hl1 & Hh); try done; try lia.
  cbn [mbind result_mbind result_bind].
  destruct (buffer_out_ok m n id (n_count n * size) b1) as (m' & o & -> & Hk & Hcell);
    [done|done|lia|].
  exists m', b1, o. split_and!; [done|done|cbn; lia|]. intros j k Hj Hk'.
  rewrite Hcell by nia. apply Hh; lia.
Qed.

Lemma dma_transfer_interleaved n m buf wb id fmt sp a :
  let cc := Z.land (n_count n) 0xF + 1 in
  let bc := Z.shiftr (n_count n) 4 in
  n_control n = control_word true true wb id fmt -> scratch_id id -> items_at n fmt sp a ->
  env_ok m -> buf_ok buf -> scratch_fits m n id (bc * cc * item_size_of fmt) ->
  (forall i, 0 <= i < n_count n -> readable sp (a + i)) ->
  exists m' buf' o, dma_transfer n m buf = Ok (m', buf', o) /\ words_kept m m' /\
    forall i ch k, 0 <= i < bc -> 0 <= ch < cc -> 0 <= k < item_size_of fmt ->
      scratch_byte m' (scratch_pos n id ((i * cc + ch) * item_size_of fmt + k)) =
      byte (item_bytes (item_size_of fmt) (word m sp (a + ch * bc + i))) k.
Proof.
  intros cc bc Hc Hid (Hloc & Hcnt & Ha & Hac & Hf) Hok Hb Hfit Hr. unfold dma_transfer.
  rewrite Hc, decode_control_word by done. cbn [unk2 unk13 Z.eqb negb check mbind result_mbind
    result_bind format direction dsp_interleave buf_id].
  destruct (item_format_ok fmt Hf) as (mask & -> & Hs). cbn [mbind result_mbind result_bind].
  rewrite Hloc. cbn [mbind result_mbind result_bind]. fold cc bc.
  set (size := item_size_of fmt) in *.
  assert (size = 2 \/ size = 4) as Hs' by tauto.
  assert (n_count n = 16 * bc + (cc - 1) /\ 0 <= cc - 1 < 16) as [Hbc Hcc].
  { subst bc cc. change 0xF with (Z.ones 4). rewrite Z.land_ones, Z.shiftr_div_pow2 by lia.
    change (2 ^ 4) with 16. pose proof (Z.mod_pos_bound (n_count n) 16).
    pose proof (Z.div_mod (n_count n) 16). lia. }
  clearbody bc cc. assert (0 <= bc) by lia.
  rewrite (u32_id (n_count n * size)) by (unfold is_u32; nia).
  rewrite (u32_id (bc * size * cc)) by (unfold is_u32; nia).
  replace (bc * size * cc) with (bc * cc * size) by lia.
  destruct (grow_buf_ok (n_count n * size) buf) as [Hg1 Hg2]; [nia|done|].
  destruct (pack_interleaved_ok m sp a size bc cc (grow_buf (n_count n * size) buf))
    as (b1 & -> & Hl1 & Hh); try done; try nia; [intros; apply Hr; nia|].
  cbn [mbind result_mbind result_bind].
  destruct (buffer_out_ok m n id (bc * cc * size) b1) as (m' & o & -> & Hk & Hcell);
    [done|done|nia|].
  exists m', b1, o. split_and!; [done|done|]. intros i ch k Hi Hch Hk'.
  rewrite Hcell by nia. by apply Hh.
Qed.

Lemma dma_transfer_in n m buf wb id fmt sp a (v : Z -> Z) :
  n_control n = control_word false false wb id fmt -> scratch_id id -> items_at n fmt sp a ->
  env_ok m -> buf_ok buf -> scratch_fits m n id (n_count n * item_size_of fmt) ->
  (forall i, 0 <= i < n_count n -> writable sp (a + i)) ->
  (forall j k, 0 <= j < n_count n -> 0 <= k < item_size_of fmt ->
      scratch_byte m (scratch_pos n id (j * item_size_of fmt + k)) =
      byte (item_bytes (item_size_of fmt) (v j)) k) ->
  exists m' buf' o, dma_transfer n m buf = Ok (m', buf', o) /\ env_ok m' /\
    forall j, 0 <= j < n_count n -> word m' sp (a + j) = item_value (item_size_of fmt) (v j).
Proof.
  intros Hc Hid (Hloc & Hcnt & Ha & Hac & Hf) Hok Hb Hfit Hw Hv. unfold dma_transfer.
  rewrite Hc, decode_control_word by done. cbn [unk2 unk13 Z.eqb negb check mbind result_mbind
    result_bind format direction dsp_interleave buf_id].
  destruct (item_format_ok fmt Hf) as (mask & -> & Hs). cbn [mbind result_mbind result_bind].
  rewrite Hloc. cbn [mbind result_mbind result_bind].
  set (size := item_size_of fmt) in *.
  assert (size = 2 \/ size = 4) as Hs' by tauto.
  rewrite u32_id by (unfold is_u32; nia).
  destruct (grow_buf_ok (n_count n * size) buf) as [Hg1 Hg2]; [nia|done|].
  destruct (buffer_in_ok m n id (n_count n * size) (grow_buf (n_count n * size) buf))
    as (b1 & o & -> & Hl1 & Hb1); [done|done|lia|].
  cbn [mbind result_mbind result_bind].
  destruct (unpack_ok m sp a size mask (n_count n) b1 (fun j => item_value size (v j)))
    as (m' & -> & Hok' & Hword & _); try done; try lia.
  { intros i Hi. split; [|by apply item_value_range].
    apply get_item_ok; [done|nia|rewrite Hl1; nia|]. intros k Hk. rewrite Hb1 by nia. by apply Hv. }
  by eexists _, _, _.
Qed.

(** The descriptor [n] is stored at [sp:a]. *)
Definition node_at m (sp a : Z) (n : node) : Prop :=
  (forall i, 0 <= i < 7 -> readable sp (a + i)) /\
  n = mkNode (word m sp a) (word m sp (a + 1)) (word m sp (a + 2)) (word m sp (a + 3))
        (word m sp (a + 4)) (word m sp (a + 5)) (u32 (word m sp (a + 6) + 1)).

Lemma read_node_ok m sp a n : env_ok m -> node_at m sp a n -> read_node m sp a = Ok (m, n).
Proof.
  intros Hok [Hr ->]. unfold read_node.
  pose proof (Hr 0 ltac:(lia)) as H0. rewrite Z.add_0_r in H0.
  repeat (rewrite mem_read_ok by (done || (apply Hr; lia)); cbn [mbind result_mbind result_bind]).
  done.
Qed.

Lemma node_at_kept m m' sp a n : words_kept m m' -> node_at m sp a n -> node_at m' sp a n.
Proof. intros (_ & Hw & _) [Hr Hn]. split; [done|]. by rewrite !Hw. Qed.

(** The head of the list is the descriptor [n], stored at [sp:a]. *)
Definition head_node (s : dma_sys M) (sp a : Z) (n : node) : Prop :=
  has (next_block (dma s)) NODE_POINTER_EOL = false /\
  block_location (Z.land (next_block (dma s)) NODE_POINTER_VAL) = Ok (sp, a) /\
  node_at (env s) sp a n.

Lemma dma_block_ok s sp a n m' buf' o :
  env_ok (env s) -> head_node s sp a n ->
  buffer_offset_writeback (decode_control (n_control n)) = false ->
  dma_transfer n (env s) (scratch_buf s) = Ok (m', buf', o) ->
  dma_block s = Ok (mkDma
    ((dma s) <| next_block := n_next n |>
       <| eol := has (n_next n) NODE_POINTER_EOL || eol (dma s) |>) (Some buf') m').
Proof.
  intros Hok (_ & Hloc & Hn) Hwb Ht. unfold dma_block.
  rewrite Hloc. cbn [mbind result_mbind result_bind].
  rewrite (read_node_ok _ _ _ _ Hok Hn). cbn [mbind result_mbind result_bind].
  rewrite Ht. cbn [mbind result_mbind result_bind]. rewrite Hwb. cbn [mbind result_mbind result_bind].
  destruct s as [[] ? ?]. cbn. by destruct (has (n_next n) NODE_POINTER_EOL).
Qed.

Lemma dma_loop_end fuel (s : dma_sys M) :
  has (next_block (dma s)) NODE_POINTER_EOL = true -> dma_loop fuel s = Ok s.
Proof. intros He. destruct fuel; simpl; by rewrite He. Qed.

(** A two-descriptor list that copies words of DSP memory out to scratch
    memory, linear or circular, and back in at another place runs to its end
    without a fault, raises the end-of-list flag, and leaves at the destination
    the source words, as far as the item format carries them: all 24 bits for
    formats 2 and 6, the upper 16 bits for format 1. *)
Theorem dma_roundtrip s fuel id fmt sp1 a1 n1 src_sp src sp2 a2 n2 dst_sp dst :
  (2 <= fuel)%nat -> env_ok (env s) -> buf_ok (scratch_buf s) ->
  has (control (dma s)) DMA_CONTROL_RUNNING = true ->
  has (control (dma s)) DMA_CONTROL_FROZEN = false ->
  scratch_id id ->
  head_node s sp1 a1 n1 ->
  n_control n1 = control_word false true false id fmt ->
  items_at n1 fmt src_sp src ->
  (forall i, 0 <= i < n_count n1 -> readable src_sp (src + i)) ->
  head_node (s <| dma ::= fun d => d <| next_block := n_next n1 |> |>) sp2 a2 n2 ->
  n_control n2 = control_word false false false id fmt ->
  items_at n2 fmt dst_sp dst ->
  (forall i, 0 <= i < n_count n2 -> writable dst_sp (dst + i)) ->
  has (n_next n2) NODE_POINTER_EOL = true ->
  n_count n2 = n_count n1 -> n_scratch_base n2 = n_scratch_base n1 ->
  n_scratch_offset n2 = n_scratch_offset n1 -> n_scratch_size n2 = n_scratch_size n1 ->
  scratch_fits (env s) n1 id (n_count n1 * item_size_of fmt) ->
  exists s', dsp_dma_run fuel s = Ok s' /\ eol (dma s') = true /\
    next_block (dma s') = n_next n2 /\
    forall i, 0 <= i < n_count n1 ->
      word (env s') dst_sp (dst + i) =
      item_value (item_size_of fmt) (word (env s) src_sp (src + i)).
Proof.
  intros Hfuel Hok Hb Hrun Hfz Hid Hh1 Hc1 Hi1 Hr Hh2 Hc2 Hi2 Hw Heol Hcnt Hbase Hoff Hsize Hfit.
  unfold dsp_dma_run. rewrite Hrun, Hfz. cbn [negb orb].
  destruct fuel as [|[|fuel]]; [lia..|]. cbn [dma_loop].
  rewrite (proj1 Hh1).
  destruct (dma_transfer_out n1 (env s) (scratch_buf s) false id fmt src_sp src)
    as (m1 & b1 & o1 & Ht1 & Hk & Hb1 & Hcell); try done.
  assert (forall n dir, n_control n = control_word false dir false id fmt ->
    buffer_offset_writeback (decode_control (n_control n)) = false) as Hwb.
  { intros n dir ->. by rewrite decode_control_word by (done || apply Hi1). }
  rewrite (dma_block_ok s sp1 a1 n1 m1 b1 o1) by eauto. cbn [mbind result_mbind result_bind].
  set (s1 := mkDma _ _ m1).
  assert (head_node s1 sp2 a2 n2) as Hh2'.
  { destruct Hh2 as (He & Hl & Hn). split_and!; [done|done|]. by apply (node_at_kept (env s)). }
  rewrite (proj1 Hh2').
  assert (forall i, scratch_pos n2 id i = scratch_pos n1 id i) as Hpos.
  { intros i. unfold scratch_pos. by rewrite Hbase, Hoff, Hsize. }
  destruct (dma_transfer_in n2 m1 (Some b1) false id fmt dst_sp dst
    (fun i => word (env s) src_sp (src + i))) as (m2 & b2 & o2 & Ht2 & Hok2 & Hword); try done.
  - apply Hk.
  - destruct Hfit as (? & ? & ? & Hf). unfold scratch_fits. rewrite Hcnt, Hbase, Hoff, Hsize.
    split_and!; [lia..|]. destruct Hk as (_ & _ & Hs).
    destruct Hf as [(? & ? & ? & ? & ?)|(? & ? & ?)]; [left|right]; split_and!; auto; lia.
  - intros j k Hj Hk'. rewrite Hpos. apply Hcell; lia.
  - rewrite (dma_block_ok s1 sp2 a2 n2 m2 b2 o2) by (eauto; apply Hk).
    cbn [mbind result_mbind result_bind].
    rewrite dma_loop_end by done. eexists. split; [done|]. cbn. rewrite Heol. split_and!; [done..|].
    intros i Hi. apply Hword. lia.
Qed.

(** An interleaved descriptor never writes outside the intermediate
    buffer, and puts sample [i] of channel [ch], read from the channel's own
    block of DSP memory, at place [i * channels + ch] of scratch memory. *)
Theorem dma_interleave_correct s fuel id fmt sp a n src_sp src :
  let cc := Z.land (n_count n) 0xF + 1 in
  let bc := Z.shiftr (n_count n) 4 in
  (1 <= fuel)%nat -> env_ok (env s) -> buf_ok (scratch_buf s) ->
  has (control (dma s)) DMA_CONTROL_RUNNING = true ->
  has (control (dma s)) DMA_CONTROL_FROZEN = false ->
  scratch_id id -> head_node s sp a n ->
  n_control n = control_word true true false id fmt ->
  items_at n fmt src_sp src ->
  (forall i, 0 <= i < n_count n -> readable src_sp (src + i)) ->
  scratch_fits (env s) n id (bc * cc * item_size_of fmt) ->
  has (n_next n) NODE_POINTER_EOL = true ->
  exists s', dsp_dma_run fuel s = Ok s' /\
    forall i ch k, 0 <= i < bc -> 0 <= ch < cc -> 0 <= k < item_size_of fmt ->
      scratch_byte (env s') (scratch_pos n id ((i * cc + ch) * item_size_of fmt + k)) =
      byte (item_bytes (item_size_of fmt) (word (env s) src_sp (src + ch * bc + i))) k.
Proof.
  intros cc bc Hfuel Hok Hb Hrun Hfz Hid Hh Hc Hi Hr Hfit Heol.
  unfold dsp_dma_run. rewrite Hrun, Hfz. cbn [negb orb].
  destruct fuel as [|fuel]; [lia|]. cbn [dma_loop]. rewrite (proj1 Hh).
  destruct (dma_transfer_interleaved n (env s) (scratch_buf s) false id fmt src_sp src)
    as (m1 & b1 & o1 & Ht & _ & Hcell); try done.
  rewrite (dma_block_ok s sp a n m1 b1 o1); try done; cycle 1.
  { rewrite Hc. by rewrite decode_control_word by (done || apply Hi). }
  cbn [mbind result_mbind result_bind].
  rewrite dma_loop_end by done. eexists. split; [done|]. exact Hcell.
Qed.

(** The circular copy to scratch memory terminates for every transfer that
    fits the ring, writes byte [i] of the buffer at [(offset + i) mod size] of
    the ring, leaves the rest of the ring alone and advances the offset modulo
    the ring size. *)
Theorem scratch_circular_copy_ring m base off size n buf :
  0 < size < 2 ^ 32 -> 0 <= base -> base + size <= 2 ^ 32 -> 0 <= off < size -> 0 <= n <= size ->
  n <= Z.of_nat (length buf) < 2 ^ 32 -> env_ok m -> scratch_ok m base size ->
  exists m', scratch_circular_copy m base off size n buf true = Ok (m', buf, (off + n) mod size) /\
    (forall i, 0 <= i < n -> scratch_byte m' (base + (off + i) mod size) = byte buf i) /\
    (forall i, n <= i < size ->
       scratch_byte m' (base + (off + i) mod size) = scratch_byte m (base + (off + i) mod size)).
Proof.
  intros Hsz Hb Hbs Ho Hn Hl Hok Hs. unfold scratch_circular_copy.
  rewrite (proj2 (Z.leb_gt _ _)) by lia.
  destruct (circular_out (Z.to_nat n) base size m buf off n 0) as (m' & -> & _ & Hc); try done; try lia.
  exists m'. split; [done|]. split; intros i Hi;
    rewrite Hc, Zminus_mod_idemp_l by (apply Z.mod_pos_bound; lia);
    replace (off + i - off) with i by lia; rewrite (Z.mod_small i) by lia;
    destruct (Z.ltb_spec i n); try lia; done.
Qed.
End DmaTheorems.

(** ** The control register *)

(** RUNNING and STOPPED are never both set, and a running engine has been
    polled at most twice. *)
Definition status_ok (d : DSPDMAState) : Prop :=
  0 <= control d /\
  has (control d) DMA_CONTROL_RUNNING && has (control d) DMA_CONTROL_STOPPED = false /\
  0 <= dma_read_count d <= 2.

(** The values of [n] consecutive reads of DMA_CONTROL. *)
Fixpoint poll (n : nat) (d : DSPDMAState) : list Z :=
  match n with
  | O => []
  | S n => let '(d, v) := dsp_dma_read d DMA_CONTROL in v :: poll n d
  end.

Lemma has_lor_bit c n m : 0 <= n -> 0 <= m ->
  has (Z.lor c (bit n)) (bit m) = (n =? m) || has c (bit m).
Proof.
  intros Hn Hm. rewrite !has_bit by done. rewrite Z.lor_spec, Z.shiftl_1_l, Z.pow2_bits_eqb by done.
  apply orb_comm.
Qed.

Lemma has_ldiff_bit c n m : 0 <= n -> 0 <= m ->
  has (Z.ldiff c (bit n)) (bit m) = negb (n =? m) && has c (bit m).
Proof.
  intros Hn Hm. rewrite !has_bit by done.
  rewrite Z.ldiff_spec, Z.shiftl_1_l, Z.pow2_bits_eqb by done. apply andb_comm.
Qed.

Ltac control_bits :=
  unfold DMA_CONTROL_RUNNING, DMA_CONTROL_STOPPED, DMA_CONTROL_FROZEN in *;
  rewrite ?has_lor_bit, ?has_ldiff_bit, ?has_lor_bit, ?has_ldiff_bit by lia;
  cbn [Z.eqb Pos.eqb orb andb negb].

Lemma dma_read_status d reg : status_ok d -> status_ok (fst (dsp_dma_read d reg)).
Proof.
  intros (Hc & Hx & Hn). destruct reg; try done. unfold dsp_dma_read.
  destruct (has (control d) DMA_CONTROL_RUNNING) eqn:Hr; cbn [fst]; [|split_and!; [done|by rewrite Hr|lia..]].
  destruct d as [cf c sb nb er eo k]. cbn in *.
  rewrite u32_id by (unfold is_u32; lia).
  destruct (Z.ltb_spec 2 (k + 1)); unfold status_ok; cbn.
  - split_and!; [|by control_bits|lia..]. apply Z.lor_nonneg. split; [|done].
    apply Z.ldiff_nonneg. by left.
  - rewrite Hr, ?u32_id by (unfold is_u32; lia). split_and!; [done|done|lia..].
Qed.

Lemma dma_read_running cf c sb nb er eo k :
  has c DMA_CONTROL_RUNNING = true -> 0 <= k <= 2 ->
  dsp_dma_read (mkDSPDMAState cf c sb nb er eo k) DMA_CONTROL =
  if k =? 2 then
    let c := Z.lor (Z.ldiff c DMA_CONTROL_RUNNING) DMA_CONTROL_STOPPED in
    (mkDSPDMAState cf c sb nb er eo 0, c)
  else (mkDSPDMAState cf c sb nb er eo (k + 1), c).
Proof.
  intros Hr Hk. unfold dsp_dma_read. cbn [control]. rewrite Hr. unfold setf.
  cbn [control dma_read_count]. rewrite u32_id by (unfold is_u32; lia).
  by destruct (Z.ltb_spec 2 (k + 1)), (Z.eqb_spec k 2); try lia.
Qed.

Lemma control_action_status d action d' :
  status_ok d -> control_action d action = Ok d' -> status_ok d'.
Proof.
  intros (Hc & Hx & Hn). unfold control_action. destruct d as [cf c sb nb er eo k]. cbn in *.
  repeat case_match; intros [= <-]; unfold status_ok; cbn;
    (split_and!; [apply Z.ldiff_nonneg || apply Z.lor_nonneg|by control_bits|lia..]);
    rewrite ?Z.lor_nonneg; (left || split); done.
Qed.

Lemma dma_block_control {M} `{!DmaEnv M} (s s' : dma_sys M) : dma_block s = Ok s' ->
  control (dma s') = control (dma s) /\ dma_read_count (dma s') = dma_read_count (dma s).
Proof.
  unfold dma_block. intros H.
  repeat match type of H with
  | mbind _ ?c = _ => let E := fresh "E" in
      destruct c as [r|f] eqn:E; cbn [mbind result_mbind result_bind] in H; [|done];
      try destruct r as [[? ?] ?]; try destruct r as [? ?]
  | Ok _ = Ok _ => injection H as <-
  end.
  cbn [dma]. by destruct (has _ _), (dma s).
Qed.

Lemma dma_run_control {M} `{!DmaEnv M} fuel (s s' : dma_sys M) : dsp_dma_run fuel s = Ok s' ->
  control (dma s') = control (dma s) /\ dma_read_count (dma s') = dma_read_count (dma s).
Proof.
  unfold dsp_dma_run. destruct (_ || _); [by intros [= <-]|].
  revert s. induction fuel as [|fuel IH]; intros s; cbn [dma_loop];
    destruct (has (next_block (dma s)) NODE_POINTER_EOL); try by intros [= <-].
  destruct (dma_block s) as [s1|] eqn:Hb; [|done]. cbn [mbind result_mbind result_bind].
  intros H. apply IH in H as [-> ->]. by apply dma_block_control.
Qed.

(** Whatever the DSP program writes to the DMA registers and however often
    it reads them, the status never shows RUNNING and STOPPED together. *)
Theorem dma_status_exclusive {M} `{!DmaEnv M} (s : dma_sys M) :
  status_ok (dma s) ->
  (forall reg, status_ok (fst (dsp_dma_read (dma s) reg))) /\
  (forall fuel reg v s', dsp_dma_write fuel s reg v = Ok s' -> status_ok (dma s')).
Proof.
  intros Hs. split; [intros; by apply dma_read_status|].
  intros fuel reg v s'. destruct reg; cbn [dsp_dma_write]; try by (intros [= <-]; destruct s as [[] ? ?]).
  destruct (control_action _ _) as [d|] eqn:Ha; [|done]. cbn [mbind result_mbind result_bind].
  intros Hr. apply dma_run_control in Hr as [Hc Hn]. cbn in Hc, Hn.
  apply control_action_status in Ha; [|done]. unfold status_ok in *. by rewrite Hc, Hn.
Qed.

(** A program that polls DMA_CONTROL for the end of a transfer sees it: the
    first two reads after a start show RUNNING, the third shows STOPPED and not
    RUNNING, and later reads stay that way. *)
Theorem dma_poll_terminates d n :
  0 <= control d -> has (control d) DMA_CONTROL_RUNNING = true -> dma_read_count d = 0 ->
  let stopped := Z.lor (Z.ldiff (control d) DMA_CONTROL_RUNNING) DMA_CONTROL_STOPPED in
  poll (3 + n) d = control d :: control d :: repeat stopped (S n) /\
  has stopped DMA_CONTROL_RUNNING = false /\ has stopped DMA_CONTROL_STOPPED = true.
Proof.
  intros Hc Hr Hk stopped.
  assert (has stopped DMA_CONTROL_RUNNING = false) as Hnr by (subst stopped; by control_bits).
  split_and!; [|done|subst stopped; by control_bits].
  destruct d as [cf c sb nb er eo k]. cbn in Hc, Hr, Hk. subst k.
  assert (forall n d, control d = stopped -> poll n d = repeat stopped n) as Hrep.
  { clear -Hnr. induction n as [|n IH]; intros d Hd; cbn [poll repeat dsp_dma_read]; [done|].
    rewrite Hd, Hnr. cbn. rewrite Hd. f_equal. by apply IH. }
  cbn [poll Nat.add repeat control].
  do 3 (rewrite dma_read_running by (done || lia); cbv [Z.eqb Z.add Pos.add Pos.eqb]).
  do 3 f_equal. by apply Hrep.
Qed.

(** ** Examples

    A memory of words and a scratch memory of bytes, both as functions. *)

Record flat := mkFlat { flat_word : Z -> Z -> Z; flat_cell : Z -> Z }.

Definition flat_write (m : flat) (sp a v : Z) : flat :=
  mkFlat (fun sp' a' => if decide ((sp', a') = (sp, a)) then v else flat_word m sp' a')
    (flat_cell m).

Definition flat_store (m : flat) (l : list Z) (a : Z) : flat :=
  mkFlat (flat_word m) (fun x =>
    if (a <=? x) && (x <? a + Z.of_nat (length l)) then byte l (x - a) else flat_cell m x).

#[export] Instance flat_env : DmaEnv flat := {
  mem_read m sp a := Ok (m, flat_word m sp a);
  mem_write m sp a v := Ok (flat_write m sp a v);
  scratch_rw m l a dir :=
    if dir then Ok (flat_store m l a, l)
    else Ok (m, map (fun i => flat_cell m (a + Z.of_nat i)) (seq 0 (length l)));
  fifo_rw m l _ _ := Ok (m, l);
  malloc n := repeat 0 (Z.to_nat n);
}.

#[export] Program Instance flat_laws : DmaLaws flat := {
  word := flat_word;
  scratch_byte := flat_cell;
  slot sp a := (sp, a);
  readable _ _ := True;
  writable _ _ := True;
  scratch_ok _ _ n := 0 <= n;
  env_ok _ := True;
}.
Next Obligation. intros. cbn. rewrite repeat_length. lia. Qed.
Next Obligation. done. Qed.
Next Obligation. intros sp a n _ i j _ _ [= H]. lia. Qed.
Next Obligation. done. Qed.
Next Obligation. intros m sp a v _ _ _. by exists (flat_write m sp a v). Qed.
Next Obligation. done. Qed.
Next Obligation. intros m l a _ _. by exists (flat_store m l a). Qed.
Next Obligation.
  intros m l a _ _. eexists. split; [done|]. split; [by rewrite length_map, length_seq|].
  intros i Hi. unfold byte.
  rewrite (nth_indep _ 0 (flat_cell m (a + Z.of_nat 0))) by (rewrite length_map, length_seq; lia).
  rewrite (map_nth (fun i => flat_cell m (a + Z.of_nat i))), seq_nth by lia. f_equal. lia.
Qed.

(** Two descriptors at X:0x10 and X:0x20 that copy the two words at X:0x100
    through a ring of 16 bytes to Y:5, and one at X:0x30 that interleaves them. *)
Definition flat0 : flat := mkFlat
  (fun sp a =>
     if sp =? 0 then
       match a with
       | 0x10 => 0x20 | 0x11 => 2 + 32 * 14 + 1024 * 2 | 0x12 => 2 | 0x13 => 0x100
       | 0x14 => 12 | 0x15 => 0x1000 | 0x16 => 15
       | 0x20 => 0x4000 | 0x21 => 32 * 14 + 1024 * 2 | 0x22 => 2 | 0x23 => 0x1805
       | 0x24 => 12 | 0x25 => 0x1000 | 0x26 => 15
       | 0x30 => 0x4000 | 0x31 => 3 + 32 * 15 + 1024 | 0x32 => 33 | 0x33 => 0x100
       | 0x34 => 0 | 0x35 => 0x1000 | 0x36 => 0
       | 0x100 => 0x123456 | 0x101 => 0xabcdef
       | _ => 0
       end
     else 0)
  (fun _ => 0).

Definition dma0 (next : Z) : dma_sys flat :=
  mkDma (mkDSPDMAState 0 DMA_CONTROL_RUNNING 0 next false false 0) None flat0.

Lemma dma_roundtrip_witness : exists s', dsp_dma_run 2 (dma0 0x10) = Ok s' /\
  eol (dma s') = true /\ flat_word (env s') DSP_SPACE_Y 5 = 0x123456 /\
  flat_word (env s') DSP_SPACE_Y 6 = 0xabcdef.
Proof.
  set (n1 := mkNode 0x20 (2 + 32 * 14 + 1024 * 2) 2 0x100 12 0x1000 16).
  set (n2 := mkNode 0x4000 (32 * 14 + 1024 * 2) 2 0x1805 12 0x1000 16).
  destruct (dma_roundtrip (dma0 0x10) 2 0xE 2 DSP_SPACE_X 0x10 n1 DSP_SPACE_X 0x100
    DSP_SPACE_X 0x20 n2 DSP_SPACE_Y 5) as (s' & Hr & He & _ & Hw);
    [lia|exact I|exact I|reflexivity|reflexivity|by left|split_and!; [reflexivity..|by split]
    |reflexivity|unfold items_at, item_fmt; cbn; repeat split; lia|done
    |split_and!; [reflexivity..|by split]
    |reflexivity|unfold items_at, item_fmt; cbn; repeat split; lia|done|reflexivity..
    |unfold scratch_fits; cbn; repeat split; lia|].
  - exists s'. split_and!; [done|done| |].
    + exact (Hw 0 ltac:(cbn; lia)).
    + exact (Hw 1 ltac:(cbn; lia)).
Defined.

Lemma dma_interleave_correct_witness : exists s', dsp_dma_run 1 (dma0 0x30) = Ok s' /\
  flat_cell (env s') 0x1000 = 0x34 /\ flat_cell (env s') 0x1001 = 0x12.
Proof.
  set (n := mkNode 0x4000 (3 + 32 * 15 + 1024) 33 0x100 0 0x1000 1).
  destruct (dma_interleave_correct (dma0 0x30) 1 0xF 1 DSP_SPACE_X 0x30 n DSP_SPACE_X 0x100)
    as (s' & Hr & Hc); try done; try lia; try (by right).
  - unfold items_at, item_fmt. cbn. repeat split; try lia.
  - change (scratch_fits flat0 n 0xF 8). unfold scratch_fits. cbn. repeat split; lia.
  - exists s'. split_and!; [done| |].
    + exact (Hc 0 0 0 ltac:(done) ltac:(done) ltac:(done)).
    + exact (Hc 0 0 1 ltac:(done) ltac:(done) ltac:(done)).
Defined.

Lemma scratch_circular_copy_ring_witness : exists m',
  scratch_circular_copy flat0 0x1000 3 4 2 [7; 8] true = Ok (m', [7; 8], 1) /\
  flat_cell m' 0x1003 = 7 /\ flat_cell m' 0x1000 = 8.
Proof.
  destruct (scratch_circular_copy_ring flat0 0x1000 3 4 2 [7; 8]) as (m' & Hr & Hc & _);
    try done; try (cbn; lia).
  exists m'. split_and!; [done| |].
  - exact (Hc 0 ltac:(lia)).
  - exact (Hc 1 ltac:(lia)).
Defined.

Lemma dma_status_exclusive_witness :
  status_ok (fst (dsp_dma_read (dma (dma0 0x10)) DMA_CONTROL)).
Proof.
  apply (dma_status_exclusive (dma0 0x10)). split_and!; [done|reflexivity|done..].
Defined.

Lemma dma_poll_terminates_witness : poll 4 (dma (dma0 0x10)) = [0x10; 0x10; 0x20; 0x20].
Proof. exact (proj1 (dma_poll_terminates (dma (dma0 0x10)) 1 ltac:(done) eq_refl eq_refl)). Defined.
