(* ===== verification/DspShell.v ===== *)
(** * The DSP devices around the interpreter
    (src/xemu/hw/xbox/mcpx/apu/dsp/dsp.c, dsp.h, dsp_c.c)

    The peripheral registers behind X:0xffff80, the operations of the C
    interpreter backend, and the synchronisation with the saved machine state.
    Builds for Android define XEMU_DISABLE_DSP_JIT: the C backend is the only
    one, and it is the one modelled.

    The C structures point at each other ([core->opaque], [dsp->backend]); here
    the rest of [DSPState] is the [opaque] field of the core, and a value of
    [dsp_core DSPRest] is a whole DSP.  The guest memory behind the DMA
    callbacks is a type class. *)

From Stdlib Require Import Ascii.
From S2P Require Import Prelude DspArith DspCore DspDecode DspDma.

Definition INTERRUPT_ABORT_FRAME : Z := bit 0.
Definition INTERRUPT_START_FRAME : Z := bit 1.
Definition INTERRUPT_DMA_EOL : Z := bit 7.

(** The saved state; [vm_ssh] and [vm_ssl] are [stack[0]] and [stack[1]]. *)
Record DspCoreState := mkVm {
  vm_pc : Z;
  vm_registers : mem;
  vm_ssh : mem;
  vm_ssl : mem;
  vm_xram : mem;
  vm_yram : mem;
  vm_pram : mem;
  vm_mixbuffer : mem;
  vm_periph : mem;
  vm_cycle_count : Z;
  vm_instr_cycle : Z;
  vm_halt_requested : bool;
  vm_is_gp : bool;
  vm_loop_rep : Z;
  vm_pc_on_rep : Z;
  vm_cur_inst : Z;
  vm_cur_inst_len : Z;
  vm_interrupt_state : Z;
  vm_interrupt_instr_fetch : Z;
  vm_interrupt_save_pc : Z;
  vm_interrupt_counter : Z;
  vm_interrupt_ipl_to_raise : Z;
  vm_interrupt_pipeline_count : Z;
  vm_interrupt_ipl : mem;
  vm_interrupt_is_pending : mem;
}.

Definition vm_zero : DspCoreState :=
  mkVm 0 ∅ ∅ ∅ ∅ ∅ ∅ ∅ ∅ 0 0 false false 0 0 0 0 0 0 0 0 0 0 ∅ ∅.

(** [DSPState] without the core; [static_buf] is the static buffer of
    [dsp_dma_run] and [guest] the state behind [rw_opaque]. *)
Record DSPRest (G : Type) := mkRest {
  vm : DspCoreState;
  dma_state : DSPDMAState;
  save_cycles : Z;
  interrupts : Z;
  dsp_is_gp : bool;
  static_buf : option (list Z);
  guest : G;
}.
Arguments mkRest {G}.
Arguments vm {G} _.
Arguments dma_state {G} _.
Arguments save_cycles {G} _.
Arguments interrupts {G} _.
Arguments dsp_is_gp {G} _.
Arguments static_buf {G} _.
Arguments guest {G} _.

#[export] Instance DSPRest_settable G : Settable (DSPRest G) :=
  settable! (@mkRest G) < vm ; dma_state ; save_cycles ; interrupts ; dsp_is_gp ; static_buf ;
    guest >.

(** The callbacks given to [dsp_init], and the allocator. *)
Class DspGuest (G : Type) := {
  guest_scratch_rw : G -> list Z -> Z -> bool -> result (G * list Z);
  guest_fifo_rw : G -> list Z -> Z -> bool -> result (G * list Z);
  guest_malloc : Z -> list Z;
}.

Section DspShell.
Context {G : Type} `{!DspGuest G}.
Abbreviation DSPState := (dsp_core (DSPRest G)).
Implicit Types dsp : dsp_core (DSPRest G).

Definition set_rest (f : DSPRest G -> DSPRest G) dsp : DSPState := dsp <| opaque ::= f |>.

(** ** DMA callbacks

    [c_dma_mem_read] and [c_dma_mem_write] with the peripherals [p]. *)
Definition c_dma_env (p : DspPeripheral (DSPRest G)) : DmaEnv DSPState := {|
  mem_read dsp space addr := dsp56k_read_memory dsp space addr;
  mem_write dsp space addr value := dsp56k_write_memory dsp space addr value;
  scratch_rw dsp ptr addr dir :=
    '(g, ptr) ← guest_scratch_rw (guest (opaque dsp)) ptr addr dir;
    Ok (set_rest (fun r => r <| guest := g |>) dsp, ptr);
  fifo_rw dsp ptr index dir :=
    '(g, ptr) ← guest_fifo_rw (guest (opaque dsp)) ptr index dir;
    Ok (set_rest (fun r => r <| guest := g |>) dsp, ptr);
  malloc := guest_malloc;
|}.

(** The DMA engine never reaches the peripherals ([dma_never_reenters] below), so
    the callbacks it runs with need not be the ones that started it. *)
Definition no_reentry : DspPeripheral (DSPRest G) := {|
  core_read_peripheral _ _ := Fault (AssertFail "peripheral access from DMA");
  core_write_peripheral _ _ _ := Fault (AssertFail "peripheral access from DMA");
|}.

(** ** Peripheral registers *)

Definition dsp_c_get_halt_requested dsp : bool := is_idle dsp.
Definition dsp_c_set_halt_requested dsp (halt : bool) : DSPState := dsp <| is_idle := halt |>.

Definition read_dma dsp (reg : DSPDMARegister) : DSPState * Z :=
  let '(d, v) := dsp_dma_read (dma_state (opaque dsp)) reg in
  (set_rest (fun r => r <| dma_state := d |>) dsp, v).

Definition read_peripheral dsp (address : Z) : DSPState * Z :=
  if address =? 0xFFFFB3 then (dsp, 0)
  else if address =? 0xFFFFC5 then
    let v := interrupts (opaque dsp) in
    (dsp, if eol (dma_state (opaque dsp)) then Z.lor v INTERRUPT_DMA_EOL else v)
  else if address =? 0xFFFFD4 then read_dma dsp DMA_NEXT_BLOCK
  else if address =? 0xFFFFD5 then read_dma dsp DMA_START_BLOCK
  else if address =? 0xFFFFD6 then read_dma dsp DMA_CONTROL
  else if address =? 0xFFFFD7 then read_dma dsp DMA_CONFIGURATION
  else (dsp, 0xababa).

(** [fuel] bounds the number of DMA descriptors. *)
Definition write_dma (p : DspPeripheral (DSPRest G)) (fuel : nat) dsp (reg : DSPDMARegister)
    (value : Z) : result DSPState :=
  s ← @dsp_dma_write _ (c_dma_env p) fuel
        (mkDma (dma_state (opaque dsp)) (static_buf (opaque dsp)) dsp) reg value;
  Ok (set_rest (fun r => r <| dma_state := dma s |> <| static_buf := scratch_buf s |>) (env s)).

Definition write_peripheral (fuel : nat) dsp (address value : Z) : result DSPState :=
  if address =? 0xFFFFC4 then
    Ok (if has value 1 then dsp_c_set_halt_requested dsp true else dsp)
  else if address =? 0xFFFFC5 then
    Ok (set_rest (fun r =>
          let r := r <| interrupts ::= fun i => Z.ldiff i value |> in
          if has value INTERRUPT_DMA_EOL
          then r <| dma_state ::= fun d => d <| eol := false |> |> else r) dsp)
  else if address =? 0xFFFFD4 then write_dma no_reentry fuel dsp DMA_NEXT_BLOCK value
  else if address =? 0xFFFFD5 then write_dma no_reentry fuel dsp DMA_START_BLOCK value
  else if address =? 0xFFFFD6 then write_dma no_reentry fuel dsp DMA_CONTROL value
  else if address =? 0xFFFFD7 then write_dma no_reentry fuel dsp DMA_CONFIGURATION value
  else Ok dsp.

(** [c_read_peripheral] and [c_write_peripheral]. *)
Definition c_peripheral (fuel : nat) : DspPeripheral (DSPRest G) := {|
  core_read_peripheral dsp address := Ok (read_peripheral dsp address);
  core_write_peripheral dsp address value := write_peripheral fuel dsp address value;
|}.

(** ** Operations of the C backend *)

Definition dsp_c_reset dsp : DSPState :=
  set_rest (fun r => r <| save_cycles := 0 |>) (dsp56k_reset_cpu dsp).

Definition dsp_start_frame_impl dsp : DSPState :=
  set_rest (fun r => r <| interrupts ::= fun i => Z.lor i INTERRUPT_START_FRAME |>) dsp.

(** [dsp_start_frame] with the static [g_gp_frame_count]. *)
Definition dsp_start_frame (g_gp_frame_count : Z) dsp : Z * DSPState :=
  (if dsp_is_gp (opaque dsp) then s32 (g_gp_frame_count + 1) else g_gp_frame_count,
   dsp_start_frame_impl dsp).

Definition space_id (space : ascii) : option Z :=
  if (space =? "X")%char then Some DSP_SPACE_X
  else if (space =? "Y")%char then Some DSP_SPACE_Y
  else if (space =? "P")%char then Some DSP_SPACE_P
  else None.

Definition dsp_c_read_memory (fuel : nat) dsp (space : ascii) (address : Z) :
    result (DSPState * Z) :=
  match space_id space with
  | Some id => @dsp56k_read_memory _ (c_peripheral fuel) dsp id address
  | None => Fault (AssertFail "Invalid dsp space when reading from memory")
  end.

Definition dsp_c_write_memory (fuel : nat) dsp (space : ascii) (address value : Z) :
    result DSPState :=
  match space_id space with
  | Some id => @dsp56k_write_memory _ (c_peripheral fuel) dsp id address value
  | None => Fault (AssertFail "Invalid dsp space when writing to memory")
  end.

Definition dsp_c_get_cycle_count dsp : Z := cycle_count dsp.
Definition dsp_c_set_cycle_count dsp (count : Z) : DSPState := dsp <| cycle_count := count |>.
Definition dsp_c_invalidate_opcache dsp : DSPState := dsp <| pram_opcache := ∅ |>.

(** The first [n] words of an array as bytes, and bytes stored as words. *)
Definition array_bytes (m : mem) (n : nat) : list Z :=
  concat (map (fun i => le_bytes 4 (rd m (Z.of_nat i))) (seq 0 n)).

Fixpoint store_array (n : nat) (i : Z) (bytes : list Z) (m : mem) : mem :=
  match n with
  | O => m
  | S n => store_array n (i + 1) (drop 4 bytes) (wr i (le_word (take 4 bytes)) m)
  end.

(** The loop over the first [n] program words. *)
Definition mask_program (n : nat) (m : mem) : mem :=
  foldl (fun m i =>
    if has (rd m (Z.of_nat i)) 0xff000000
    then wr (Z.of_nat i) (Z.land (rd m (Z.of_nat i)) 0x00ffffff) m else m) m (seq 0 n).

Definition dsp_c_bootstrap dsp : result DSPState :=
  '(g, bytes) ← guest_scratch_rw (guest (opaque dsp))
                  (array_bytes (pram dsp) (Z.to_nat 0x800)) 0 false;
  let dsp := set_rest (fun r => r <| guest := g |>) dsp in
  let dsp := dsp <| pram ::= store_array (Z.to_nat 0x800) 0 bytes |> in
  Ok (dsp <| pram ::= mask_program (Z.to_nat 0x800) |> <| pram_opcache := ∅ |>).

(** ** Saved state *)

(** The first four entries of an array of interrupt slots. *)
Definition copy4 (src dst : mem) : mem :=
  wr 3 (rd src 3) (wr 2 (rd src 2) (wr 1 (rd src 1) (wr 0 (rd src 0) dst))).

Definition dsp_c_sync_to_vm dsp : DSPState :=
  set_rest (fun r => r <| vm := mkVm (pc dsp) (registers dsp) (ssh_stack dsp) (ssl_stack dsp)
    (xram dsp) (yram dsp) (pram dsp) (mixbuffer dsp) (periph dsp) (cycle_count dsp)
    (instr_cycle dsp) (is_idle dsp) (is_gp dsp) (loop_rep dsp) (pc_on_rep dsp) (cur_inst dsp)
    (cur_inst_len dsp) (interrupt_state dsp) (interrupt_instr_fetch dsp)
    (interrupt_save_pc dsp) (interrupt_counter dsp) (interrupt_ipl_to_raise dsp)
    (interrupt_pipeline_count dsp)
    (copy4 (interrupt_ipl dsp) (vm_interrupt_ipl (vm r)))
    (copy4 (interrupt_is_pending dsp) (vm_interrupt_is_pending (vm r))) |>) dsp.

Definition dsp_c_sync_from_vm dsp : DSPState :=
  let v := vm (opaque dsp) in
  dsp <| pc := vm_pc v |> <| cycle_count := vm_cycle_count v |>
      <| instr_cycle := vm_instr_cycle v |> <| is_idle := vm_halt_requested v |>
      <| is_gp := vm_is_gp v |> <| loop_rep := vm_loop_rep v |>
      <| pc_on_rep := vm_pc_on_rep v |> <| cur_inst := vm_cur_inst v |>
      <| cur_inst_len := vm_cur_inst_len v |>
      <| registers := vm_registers v |> <| ssh_stack := vm_ssh v |> <| ssl_stack := vm_ssl v |>
      <| xram := vm_xram v |> <| yram := vm_yram v |> <| pram := vm_pram v |>
      <| mixbuffer := vm_mixbuffer v |> <| periph := vm_periph v |>
      <| interrupt_state := vm_interrupt_state v |>
      <| interrupt_instr_fetch := vm_interrupt_instr_fetch v |>
      <| interrupt_save_pc := vm_interrupt_save_pc v |>
      <| interrupt_counter := vm_interrupt_counter v |>
      <| interrupt_ipl_to_raise := vm_interrupt_ipl_to_raise v |>
      <| interrupt_pipeline_count := vm_interrupt_pipeline_count v |>
      <| interrupt_ipl ::= copy4 (vm_interrupt_ipl v) |>
      <| interrupt_is_pending ::= copy4 (vm_interrupt_is_pending v) |>
      <| pram_opcache := ∅ |>.

(** [memset(a, 0xCA, n * 4)] of an array of [n] words. *)
Definition memset_CA (n : Z) : mem :=
  foldr (fun i m => wr (Z.of_nat i) 0xCACACACA m) ∅ (seq 0 (Z.to_nat n)).

(** [g_new0(dsp_core_t, 1)] and the fields that [dsp_c_init] sets. *)
Definition dsp_c_init (r : DSPRest G) : DSPState :=
  let core := mkCore false false 0 0 0 ∅ ∅ ∅ ∅ ∅ ∅ ∅ ∅ ∅ 0 0 0 0 0 0 0 0 ∅ ∅ r 0 0 0 false in
  let core := dsp56k_reset_cpu core in
  let core := core <| pram := memset_CA DSP_PRAM_SIZE |> <| xram := memset_CA DSP_XRAM_SIZE |>
                   <| yram := memset_CA DSP_YRAM_SIZE |> in
  dsp_c_invalidate_opcache core.

(** [buf] and [g] are the state outside: the static buffer and the guest. *)
Definition dsp_init (buf : option (list Z)) (g : G) (gp : bool) : DSPState :=
  let v := mkVm 0 ∅ ∅ ∅ ∅ ∅ ∅ ∅ ∅ 0 0 false gp 0 0 0 0 0 0 0 0 0 0 ∅ ∅ in
  dsp_c_reset
    (dsp_c_init (mkRest v (mkDSPDMAState 0 0 0 0 false false 0) 0 0 gp buf g)).

(** [dsp_set_engine] of builds without the JIT. *)
Definition dsp_set_engine dsp (use_jit : bool) : DSPState :=
  if use_jit then dsp_c_sync_from_vm (dsp_c_init (opaque (dsp_c_sync_to_vm dsp))) else dsp.

(** ** Running *)

Section Run.
Variable execute : opcache -> DSPState -> result (opcache * DSPState).

Fixpoint run_loop (fuel : nat) (cache : opcache) dsp : result (opcache * DSPState) :=
  if 0 <? save_cycles (opaque dsp) then
    match fuel with
    | O => Fault OutOfFuel
    | S fuel =>
      '(cache, dsp) ← execute cache dsp;
      let dsp := set_rest (fun r => r <| save_cycles ::= fun c => s32 (c - instr_cycle dsp) |>) dsp in
      let dsp := dsp <| cycle_count ::= fun c => u32 (c + instr_cycle dsp) |> in
      if is_idle dsp then Ok (cache, dsp) else run_loop fuel cache dsp
    end
  else Ok (cache, dsp).

(** Every instruction takes a cycle at least: the cycle budget bounds the rounds. *)
Definition dsp_c_run (cache : opcache) dsp (cycles : Z) : result (opcache * DSPState) :=
  let dsp := set_rest (fun r => r <| save_cycles ::= fun c => s32 (c + cycles) |>) dsp in
  if save_cycles (opaque dsp) <=? 0 then Ok (cache, dsp)
  else run_loop (Z.to_nat (save_cycles (opaque dsp))) cache dsp.
End Run.
End DspShell.

(** ** Save, load and engine switch *)

Section DspShellTheorems.
Context {G : Type} `{!DspGuest G}.
Implicit Types dsp : dsp_core (DSPRest G).

(** What a saved machine holds of a DSP core. *)
Definition snapshot dsp : DspCoreState :=
  mkVm (pc dsp) (registers dsp) (ssh_stack dsp) (ssl_stack dsp)
    (xram dsp) (yram dsp) (pram dsp) (mixbuffer dsp) (periph dsp) (cycle_count dsp)
    (instr_cycle dsp) (is_idle dsp) (is_gp dsp) (loop_rep dsp) (pc_on_rep dsp) (cur_inst dsp)
    (cur_inst_len dsp) (interrupt_state dsp) (interrupt_instr_fetch dsp)
    (interrupt_save_pc dsp) (interrupt_counter dsp) (interrupt_ipl_to_raise dsp)
    (interrupt_pipeline_count dsp) (copy4 (interrupt_ipl dsp) ∅)
    (copy4 (interrupt_is_pending dsp) ∅).

Lemma rd_copy4 src dst i : 0 <= i < 4 -> rd (copy4 src dst) i = rd src i.
Proof.
  intros Hi. unfold copy4. assert (i = 0 \/ i = 1 \/ i = 2 \/ i = 3) as [->|[->|[->| ->]]] by lia;
    by repeat first [rewrite rd_wr_eq | rewrite rd_wr_ne by done].
Qed.

Lemma copy4_copy4 src m m' dst : copy4 (copy4 (copy4 src m) m') dst = copy4 src dst.
Proof. unfold copy4 at 1. rewrite !rd_copy4 by lia. done. Qed.

(** Evaluates the updates of a core given by its fields. *)
Ltac shell_red := cbv beta iota zeta delta [
  snapshot dsp_c_sync_from_vm dsp_c_sync_to_vm dsp_c_init dsp_c_invalidate_opcache dsp56k_reset_cpu
  set_rest setf is_gp is_idle cycle_count instr_cycle pc registers ssh_stack ssl_stack xram yram
  pram pram_opcache mixbuffer periph loop_rep pc_on_rep interrupt_state interrupt_instr_fetch
  interrupt_save_pc interrupt_counter interrupt_ipl_to_raise interrupt_pipeline_count interrupt_ipl
  interrupt_is_pending opaque num_inst cur_inst_len cur_inst exception_debugging vm dma_state
  save_cycles interrupts dsp_is_gp static_buf guest
  vm_pc vm_registers vm_ssh vm_ssl vm_xram vm_yram vm_pram vm_mixbuffer vm_periph
  vm_cycle_count vm_instr_cycle vm_halt_requested vm_is_gp vm_loop_rep vm_pc_on_rep vm_cur_inst
  vm_cur_inst_len vm_interrupt_state vm_interrupt_instr_fetch vm_interrupt_save_pc
  vm_interrupt_counter vm_interrupt_ipl_to_raise vm_interrupt_pipeline_count vm_interrupt_ipl
  vm_interrupt_is_pending].

(** Saving one DSP and loading the saved state into another restores every
    field of the core, whatever that other core held, and leaves no stale
    decoded instruction behind; switching the engine does the same in place and
    keeps the DMA engine, the interrupts and the guest. *)
Theorem sync_roundtrip dsp dsp2 :
  let loaded := dsp_c_sync_from_vm
    (set_rest (fun r => r <| vm := vm (opaque (dsp_c_sync_to_vm dsp)) |>) dsp2) in
  let switched := dsp_set_engine dsp true in
  snapshot loaded = snapshot dsp /\ pram_cache_ok loaded /\
  snapshot switched = snapshot dsp /\ pram_cache_ok switched /\
  opaque switched = opaque (dsp_c_sync_to_vm dsp).
Proof.
  cbv zeta. unfold dsp_set_engine. split_and!.
  - destruct dsp2. shell_red. by rewrite !copy4_copy4.
  - destruct dsp2. intros a e. shell_red. by rewrite lookup_empty.
  - shell_red. by rewrite !copy4_copy4.
  - intros a e. shell_red. by rewrite lookup_empty.
  - by shell_red.
Qed.

(** ** Interrupt register *)

(** X:0xffffc5 is a write-one-to-clear register: after a write of [v] it
    reads as before with the bits of [v] cleared, the end-of-list bit of the DMA
    engine included, and nothing else of the DSP changes. *)
Theorem interrupt_register_w1c fuel dsp v :
  exists d, write_peripheral fuel dsp 0xFFFFC5 v = Ok d /\
    snd (read_peripheral d 0xFFFFC5) = Z.ldiff (snd (read_peripheral dsp 0xFFFFC5)) v /\
    snapshot d = snapshot dsp /\ guest (opaque d) = guest (opaque dsp).
Proof.
  unfold write_peripheral, read_peripheral. cbn [Z.eqb Pos.eqb].
  eexists. split; [reflexivity|]. unfold set_rest. destruct dsp as [? ? ? ? ? ? ? ? ? ? ? ? ? ? ? ? ?
    ? ? ? ? ? ? ? [? [cf ct sb nb er eo rc] ? i ? ? ?] ? ? ? ?].
  cbv beta iota zeta delta [setf opaque interrupts dma_state eol snapshot snd].
  split_and!; [|by destruct (has v _)..].
  change INTERRUPT_DMA_EOL with (bit 7). rewrite has_bit by done.
  apply Z.bits_inj'. intros n Hn.
  destruct (Z.testbit v 7) eqn:Hv, eo; cbv beta iota;
    rewrite ?Z.lor_spec, ?Z.ldiff_spec, ?Z.lor_spec, ?Z.shiftl_1_l, ?Z.pow2_bits_eqb by done;
    destruct (Z.eqb_spec 7 n) as [<-|]; rewrite ?Hv;
    by repeat match goal with |- context [Z.testbit ?x ?k] => destruct (Z.testbit x k) end.
Qed.

(** ** Boot *)

Lemma rd_store_array n : forall i bytes m j, 0 <= i -> 0 <= j ->
  rd (store_array n i bytes m) j =
  if (i <=? j) && (j <? i + Z.of_nat n)
  then le_word (take 4 (drop (4 * Z.to_nat (j - i)) bytes)) else rd m j.
Proof.
  induction n as [|n IH]; intros i bytes m j Hi Hj; cbn [store_array].
  { destruct (Z.leb_spec i j), (Z.ltb_spec j (i + Z.of_nat 0)); try lia; done. }
  rewrite IH, drop_drop by lia. destruct (Z.eq_dec i j) as [->|Hne].
  - rewrite rd_wr_eq, Z.leb_refl. destruct (Z.leb_spec (j + 1) j); [lia|]. cbn [andb].
    rewrite (proj2 (Z.ltb_lt _ _)) by lia. by rewrite Z.sub_diag.
  - rewrite rd_wr_ne by done.
    destruct (Z.leb_spec (i + 1) j), (Z.leb_spec i j), (Z.ltb_spec j (i + 1 + Z.of_nat n)),
      (Z.ltb_spec j (i + Z.of_nat (S n))); try lia; try done.
    cbn [andb]. do 3 f_equal. lia.
Qed.

Lemma land_low24 v : 0 <= v < 2 ^ 32 ->
  (if has v 0xff000000 then Z.land v 0x00ffffff else v) = v mod 2 ^ 24.
Proof.
  intros Hv. change 0x00ffffff with (Z.ones 24). rewrite Z.land_ones by lia. unfold has.
  rewrite (land_high v 24 8 ltac:(done) ltac:(done) : Z.land v 0xff000000 = _).
  destruct (Z.eqb_spec ((v / 2 ^ 24) mod 2 ^ 8 * 2 ^ 24) 0) as [H0|]; [|done]. cbn [negb].
  rewrite Z.mod_small; [done|].
  assert ((v / 2 ^ 24) mod 2 ^ 8 = 0) as Hd by lia. rewrite Z.mod_small in Hd.
  - apply Z.div_small_iff in Hd; lia.
  - split; [apply Z.div_pos; lia|apply Z.div_lt_upper_bound; lia].
Qed.

Lemma rd_mask_program n m j : 0 <= j -> (forall i, 0 <= i < Z.of_nat n -> 0 <= rd m i < 2 ^ 32) ->
  rd (mask_program n m) j = if j <? Z.of_nat n then rd m j mod 2 ^ 24 else rd m j.
Proof.
  unfold mask_program. intros Hj. induction n as [|n IH]; intros Hr.
  { destruct (Z.ltb_spec j (Z.of_nat 0)); [lia|done]. }
  rewrite seq_S, foldl_app. cbn [foldl Nat.add].
  set (m1 := foldl _ m (seq 0 n)) in *.
  assert (forall k, Z.of_nat n <= k -> rd m1 k = rd m k) as Hhigh.
  { subst m1. clear. induction n as [|n IH]; intros k Hk; [done|].
    rewrite seq_S, foldl_app. cbn [foldl Nat.add]. case_match; [rewrite rd_wr_ne by lia|]; apply IH; lia. }
  specialize (IH ltac:(intros; apply Hr; lia)).
  destruct (Z.eq_dec j (Z.of_nat n)) as [->|Hne].
  - rewrite Hhigh by lia. rewrite (proj2 (Z.ltb_lt _ _)) by lia.
    rewrite <- land_low24 by (apply Hr; lia).
    destruct (has _ _); [by rewrite rd_wr_eq|by apply Hhigh].
  - transitivity (rd m1 j); [destruct (has _ _); [by rewrite rd_wr_ne by lia|done]|].
    rewrite IH. destruct (Z.ltb_spec j (Z.of_nat n)), (Z.ltb_spec j (Z.of_nat (S n))); try lia; done.
Qed.

(** Program word [i] of an image. *)
Definition image_word (bytes : list Z) (i : Z) : Z :=
  le_word (take 4 (drop (4 * Z.to_nat i) bytes)) mod 2 ^ 24.

Lemma boot_words n bytes m :
  Z.of_nat (length bytes) = 4 * Z.of_nat n -> Forall is_u8 bytes ->
  let m' := mask_program n (store_array n 0 bytes m) in
  (forall i, 0 <= i < Z.of_nat n -> rd m' i = image_word bytes i) /\
  (forall i, Z.of_nat n <= i -> rd m' i = rd m i).
Proof.
  intros Hlen Hby m'.
  assert (forall i, 0 <= i < Z.of_nat n ->
    rd (store_array n 0 bytes m) i = le_word (take 4 (drop (4 * Z.to_nat i) bytes)) /\
    0 <= rd (store_array n 0 bytes m) i < 2 ^ 32) as Hw.
  { intros i Hi. rewrite rd_store_array by lia.
    rewrite (proj2 (Z.leb_le _ _)), (proj2 (Z.ltb_lt _ _)), Z.sub_0_r by lia. cbn [andb].
    split; [done|]. pose proof (le_word_range (take 4 (drop (4 * Z.to_nat i) bytes))) as Hr.
    rewrite length_take_le in Hr by (rewrite length_drop; lia).
    apply Hr. by apply Forall_take, Forall_drop. }
  subst m'. split; intros i Hi; rewrite rd_mask_program by (lia || (intros; apply Hw; lia)).
  - rewrite (proj2 (Z.ltb_lt _ _)) by lia. unfold image_word. f_equal. by apply Hw.
  - rewrite (proj2 (Z.ltb_ge _ _)), rd_store_array by lia.
    by rewrite (proj2 (Z.leb_le _ _)), (proj2 (Z.ltb_ge _ _)) by lia.
Qed.

(** After the boot ROM has copied the program from scratch memory, every
    one of its 0x800 words can be fetched without tripping the interpreter's
    24-bit assertion, whatever the image holds in the top bytes; the fetch
    returns the low 24 bits of the image word; the program memory above is
    untouched; and no instruction decoded from the old program survives. *)
Theorem bootstrap_program_readable dsp g bytes :
  guest_scratch_rw (guest (opaque dsp)) (array_bytes (pram dsp) (Z.to_nat 0x800)) 0 false
    = Ok (g, bytes) ->
  Z.of_nat (length bytes) = 0x2000 -> Forall is_u8 bytes ->
  exists d, dsp_c_bootstrap dsp = Ok d /\
    (forall i, 0 <= i < 0x800 -> read_memory_p d i = Ok (image_word bytes i)) /\
    (forall i, 0x800 <= i -> rd (pram d) i = rd (pram dsp) i) /\
    pram_cache_ok d.
Proof.
  intros Hg Hlen Hby. unfold dsp_c_bootstrap. revert Hg.
  assert (Z.of_nat (Z.to_nat 0x800) = 0x800) as Hn by (by apply Z2Nat.id).
  generalize dependent (Z.to_nat 0x800). intros n Hn Hg.
  rewrite Hg. cbn [mbind result_mbind result_bind].
  destruct (boot_words n bytes (pram dsp)) as [Hlow Hhigh]; [lia|done|].
  eexists. split; [reflexivity|]. unfold set_rest. split_and!.
  - intros i Hi. unfold read_memory_p. proj_red. rewrite Hlow by lia.
    rewrite (top_byte_clear i), (top_byte_clear (image_word _ _)),
      (proj2 (Z.ltb_lt i DSP_PRAM_SIZE));
      [done|unfold DSP_PRAM_SIZE; lia|apply Z.mod_pos_bound; lia|lia].
  - intros i Hi. proj_red. apply Hhigh. lia.
  - intros a e. proj_red. by rewrite lookup_empty.
Qed.

(** ** Cycle budget *)

Section Budget.
Variable execute : opcache -> dsp_core (DSPRest G) -> result (opcache * dsp_core (DSPRest G)).
Variable I : opcache -> dsp_core (DSPRest G) -> Prop.

(** Instructions keep an invariant of the program, take between 1 and [maxc]
    cycles and leave the budget alone. *)
Definition executes_well (maxc : Z) : Prop :=
  forall cache dsp, I cache dsp -> exists cache' d, execute cache dsp = Ok (cache', d) /\
    1 <= instr_cycle d <= maxc /\ save_cycles (opaque d) = save_cycles (opaque dsp) /\
    cycle_count d = cycle_count dsp /\
    forall c k, I cache' (set_rest (fun r => r <| save_cycles := c |>) d <| cycle_count := k |>).

(** What [dsp_c_run] leaves: [used] cycles were counted. *)
Definition run_spent (maxc : Z) dsp (budget : Z) (d : dsp_core (DSPRest G)) : Prop :=
  exists used, save_cycles (opaque d) = budget - used /\ 0 <= used < budget + maxc /\
    cycle_count d = u32 (cycle_count dsp + used) /\
    (is_idle d = true \/ save_cycles (opaque d) <= 0).

Lemma run_loop_spent maxc fuel : executes_well maxc -> 0 < maxc < 2 ^ 16 -> forall cache dsp,
  I cache dsp -> 0 < save_cycles (opaque dsp) < 2 ^ 31 ->
  save_cycles (opaque dsp) <= Z.of_nat fuel ->
  exists cache' d, run_loop execute fuel cache dsp = Ok (cache', d) /\
    run_spent maxc dsp (save_cycles (opaque dsp)) d.
Proof.
  intros Hx Hmax. induction fuel as [|fuel IH]; intros cache dsp HI Hb Hf; [lia|].
  cbn [run_loop]. rewrite (proj2 (Z.ltb_lt _ _)) by lia.
  destruct (Hx cache dsp HI) as (cache1 & d1 & -> & Hc & Hs & Hcc & HI1).
  cbn [mbind result_mbind result_bind].
  set (b := save_cycles (opaque dsp)) in *. set (k := instr_cycle d1) in *.
  assert (s32 (b - k) = b - k) as Hs32 by (unfold s32; rewrite Z.mod_small; lia).
  set (d2 := _ <| cycle_count ::= _ |>).
  assert (save_cycles (opaque d2) = b - k) as Hs2.
  { subst d2. unfold set_rest. proj_red. by rewrite Hs. }
  assert (cycle_count d2 = u32 (cycle_count dsp + k)) as Hc2.
  { subst d2. unfold set_rest. proj_red. by rewrite Hcc. }
  assert (I cache1 d2) as HI2.
  { specialize (HI1 (b - k) (u32 (cycle_count dsp + k))).
    assert (d2 = set_rest (fun r => r <| save_cycles := b - k |>) d1
                   <| cycle_count := u32 (cycle_count dsp + k) |>) as ->; [|done].
    transitivity (d1 <| opaque := (opaque d1) <| save_cycles := s32 (save_cycles (opaque d1) - k) |> |>
                     <| cycle_count := u32 (cycle_count d1 + k) |>); [reflexivity|].
    by rewrite Hs, Hs32, Hcc. }
  clearbody d2. destruct (is_idle d2) eqn:Hidle.
  - exists cache1, d2. split; [done|]. exists k. rewrite Hs2. split_and!; auto; lia.
  - destruct (Z.le_gt_cases (b - k) 0) as [Hle|Hgt].
    + exists cache1, d2. split.
      * destruct fuel; cbn [run_loop]; rewrite Hs2, (proj2 (Z.ltb_ge _ _)) by lia; done.
      * exists k. rewrite Hs2. split_and!; auto; lia.
    + destruct (IH cache1 d2 HI2) as (cache' & d & Hr & used & Hu & Hu2 & Hcd & He); [lia..|].
      exists cache', d. split; [done|]. exists (k + used). rewrite Hs2 in *.
      split_and!; [lia..| |done]. rewrite Hcd, Hc2. unfold u32.
      rewrite Z.add_mod_idemp_l by lia. f_equal. lia.
Qed.

(** [dsp_c_run] always returns when instructions behave: it stops when the
    core asks to idle or the cycle budget is spent, overruns the budget by less
    than one instruction, carries the rest over, and counts exactly the cycles
    it took off the budget. *)
Theorem dsp_c_run_budget maxc cache dsp cycles :
  executes_well maxc -> 0 < maxc < 2 ^ 16 -> 0 <= cycles ->
  - 2 ^ 31 <= save_cycles (opaque dsp) -> save_cycles (opaque dsp) + cycles < 2 ^ 31 ->
  0 <= cycle_count dsp < 2 ^ 32 ->
  I cache (set_rest (fun r => r <| save_cycles ::= fun c => s32 (c + cycles) |>) dsp) ->
  exists cache' d, dsp_c_run execute cache dsp cycles = Ok (cache', d) /\
    (if 0 <? save_cycles (opaque dsp) + cycles
     then run_spent maxc dsp (save_cycles (opaque dsp) + cycles) d
     else cache' = cache /\ cycle_count d = cycle_count dsp /\
          save_cycles (opaque d) = save_cycles (opaque dsp) + cycles).
Proof.
  intros Hx Hmax Hc Hlo Hhi Hcc HI. unfold dsp_c_run.
  set (b := save_cycles (opaque dsp)) in *. set (d0 := set_rest _ dsp) in *.
  assert (save_cycles (opaque d0) = b + cycles) as Hb.
  { subst d0. unfold set_rest. proj_red. fold b. unfold s32. rewrite Z.mod_small; lia. }
  assert (cycle_count d0 = cycle_count dsp) as Hcc0 by (subst d0; unfold set_rest; by proj_red).
  rewrite Hb. destruct (Z.leb_spec (b + cycles) 0), (Z.ltb_spec 0 (b + cycles)); try lia.
  - by exists cache, d0.
  - destruct (run_loop_spent maxc (Z.to_nat (b + cycles)) Hx Hmax cache d0 HI)
      as (cache' & d & Hr & used & Hu & Hu2 & Hcd & He); [lia..|].
    exists cache', d. split; [done|]. exists used. rewrite <- Hcc0, <- Hb. done.
Qed.
End Budget.

(** ** DMA and peripherals *)

(** Memory words that are not close to 2^32: what [dsp56k_write_memory] stores
    and the 0xCACACACA of fresh memory. *)
Definition small_word (v : Z) : Prop := 0 <= v < 2 ^ 32 - 2 ^ 14.
Definition small_memory dsp : Prop :=
  forall i, small_word (rd (xram dsp) i) /\ small_word (rd (yram dsp) i) /\
    small_word (rd (pram dsp) i) /\ small_word (rd (mixbuffer dsp) i).

(** The accesses that do not reach the peripherals. *)
Definition quiet (space a : Z) : Prop := space = DSP_SPACE_X -> a < DSP_PERIPH_BASE.

Section Reentry.
Variables p1 p2 : DspPeripheral (DSPRest G).
Abbreviation e1 := (c_dma_env p1).
Abbreviation e2 := (c_dma_env p2).

Lemma read_quiet dsp sp a : quiet sp a -> small_memory dsp ->
  @mem_read _ e1 dsp sp a = @mem_read _ e2 dsp sp a /\
  forall d v, @mem_read _ e1 dsp sp a = Ok (d, v) -> d = dsp /\ small_word v.
Proof.
  intros Hq Hs. cbn [mem_read c_dma_env]. unfold dsp56k_read_memory, read_memory_p, check.
  unfold quiet in Hq. destruct (Z.eqb_spec sp DSP_SPACE_X) as [Hx|].
  - rewrite (proj2 (Z.leb_gt DSP_PERIPH_BASE a)) by auto.
    split; [done|]. intros d v. repeat case_match; cbn [mbind result_mbind result_bind]; intros Hrun;
      simplify_eq; (split; [done|]); try apply Hs. done.
  - split; [done|]. intros d v. repeat case_match; cbn [mbind result_mbind result_bind]; intros Hrun;
      simplify_eq; (split; [done|]); apply Hs.
Qed.

Lemma small_wr m i v : (forall j, small_word (rd m j)) -> small_word v ->
  forall j, small_word (rd (wr i v m) j).
Proof.
  intros Hm Hv j. destruct (Z.eq_dec i j) as [->|]; [by rewrite rd_wr_eq|by rewrite rd_wr_ne].
Qed.

Lemma checked_small v : is_u32 v -> Z.land v 0xFF000000 = 0 -> small_word v.
Proof.
  unfold is_u32, small_word. intros Hv H0.
  pose proof (land_low24 v Hv) as Hl. unfold has in Hl. rewrite H0 in Hl. cbn in Hl.
  pose proof (Z.mod_pos_bound v (2 ^ 24)). lia.
Qed.

Lemma write_quiet dsp sp a v : quiet sp a -> small_memory dsp -> is_u32 v ->
  @mem_write _ e1 dsp sp a v = @mem_write _ e2 dsp sp a v /\
  forall d, @mem_write _ e1 dsp sp a v = Ok d -> small_memory d.
Proof.
  intros Hq Hs Hv. cbn [mem_write c_dma_env]. unfold dsp56k_write_memory, write_memory_raw, check.
  destruct (Z.eqb_spec (Z.land v 0xFF000000) 0) as [H0|]; cbn [mbind result_mbind result_bind];
    [|by split].
  assert (small_word v) as Hsv by (by apply checked_small).
  assert (forall i, small_memory (dsp <| xram ::= wr i v |>)) as Hx.
  { intros i j. proj_red. split_and!; try apply Hs. apply small_wr; [apply Hs|done]. }
  assert (forall i, small_memory (dsp <| yram ::= wr i v |>)) as Hy.
  { intros i j. proj_red. split_and!; try apply Hs. apply small_wr; [apply Hs|done]. }
  assert (forall i, small_memory (dsp <| mixbuffer ::= wr i v |>)) as Hm.
  { intros i j. proj_red. split_and!; try apply Hs. apply small_wr; [apply Hs|done]. }
  assert (forall i, small_memory (dsp <| pram ::= wr i v |> <| pram_opcache ::= delete i |>)) as Hp.
  { intros i j. proj_red. split_and!; try apply Hs. apply small_wr; [apply Hs|done]. }
  unfold quiet in Hq. destruct (Z.eqb_spec sp DSP_SPACE_X) as [HX|].
  - rewrite (proj2 (Z.leb_gt DSP_PERIPH_BASE a)) by auto.
    split; [done|]. intros d. repeat case_match; cbn [mbind result_mbind result_bind]; intros Hrun;
      simplify_eq; auto.
  - split; [done|]. intros d. repeat case_match; cbn [mbind result_mbind result_bind]; intros Hrun;
      simplify_eq; auto.
Qed.

Lemma scratch_at_small m buf off a n dir m' buf' : small_memory m ->
  @scratch_rw_at _ e1 m buf off a n dir = Ok (m', buf') -> small_memory m'.
Proof.
  intros Hs. unfold scratch_rw_at. cbn [scratch_rw c_dma_env].
  destruct (slice buf off n) as [ptr|]; cbn [mbind result_mbind result_bind]; [|done].
  destruct (guest_scratch_rw _ _ _ _) as [[g l]|]; cbn [mbind result_mbind result_bind]; [|done].
  destruct (blit buf off l) as [b|]; cbn [mbind result_mbind result_bind]; [|done].
  intros [= <- _]. intros i. unfold set_rest. proj_red. apply Hs.
Qed.

Lemma circular_small fuel base size dir : forall m buf off n bo m' buf' o,
  small_memory m -> is_u32 off ->
  @circular_loop _ e1 fuel base size dir m buf off n bo = Ok (m', buf', o) ->
  small_memory m' /\ is_u32 o.
Proof.
  induction fuel as [|fuel IH]; intros m buf off n bo m' buf' o Hs Ho; cbn [circular_loop];
    destruct (0 <? n); try by intros [= <- _ <-].
  destruct (scratch_rw_at _ _ _ _ _ _) as [[m1 b1]|] eqn:E; cbn [mbind result_mbind result_bind]; [|done].
  apply scratch_at_small in E; [|done]. apply IH; [done|].
  destruct (_ <=? _); [done|apply u32_range].
Qed.

(** The memory after [buffer_out] and [buffer_in], and the offset they return. *)
Lemma buffer_small (out : bool) n id len m buf m' buf' o :
  small_memory m -> is_u32 (n_scratch_offset n) ->
  (if out then @buffer_out _ e1 else @buffer_in _ e1) n id len m buf = Ok (m', buf', o) ->
  small_memory m' /\ is_u32 o.
Proof.
  intros Hs Ho.
  assert (forall dir, @scratch_circular_copy _ e1 m (n_scratch_base n) (n_scratch_offset n)
    (n_scratch_size n) len buf dir = Ok (m', buf', o) -> small_memory m' /\ is_u32 o) as Hcirc.
  { intros dir. apply circular_small; [done|]. by destruct (_ <=? _). }
  assert (forall dir, ('(m, buf) ← @scratch_rw_at _ e1 m buf 0 (u32 (n_scratch_base n + n_scratch_offset n))
      len dir; Ok (m, buf, n_scratch_offset n)) = Ok (m', buf', o) -> small_memory m' /\ is_u32 o) as Hlin.
  { intros dir. destruct (scratch_rw_at _ _ _ _ _ _) as [[m1 b1]|] eqn:E; [|done].
    apply scratch_at_small in E; [|done]. by intros [= <- _ <-]. }
  destruct out; unfold buffer_out, buffer_in.
  - destruct (id <? 4).
    + destruct (slice buf 0 len) as [ptr|]; cbn [mbind result_mbind result_bind]; [|done].
      cbn [fifo_rw c_dma_env].
      destruct (guest_fifo_rw _ _ _ _) as [[g l]|]; cbn [mbind result_mbind result_bind]; [|done].
      destruct (blit buf 0 l) as [b|]; cbn [mbind result_mbind result_bind]; [|done].
      intros [= <- _ <-]. split; [|done]. intros i. unfold set_rest. proj_red. apply Hs.
    + destruct (id =? 0xE); [apply Hcirc|]. destruct (id =? 0xF); [apply Hlin|done].
  - destruct (id =? 0xE); [apply Hcirc|]. destruct (id =? 0xF); [apply Hlin|done].
Qed.

Lemma pack_linear_quiet m sp a size count buf : small_memory m ->
  (forall i, 0 <= i < count -> quiet sp (u32 (a + i))) ->
  @pack_linear _ e1 sp a size count m buf = @pack_linear _ e2 sp a size count m buf /\
  forall st, @pack_linear _ e1 sp a size count m buf = Ok st -> small_memory st.1.
Proof.
  intros Hs Hq. unfold pack_linear. apply for_loop_ext; [done|].
  intros j [m1 b1] Hj Hs1. destruct (read_quiet m1 sp (u32 (a + j))) as [<- Hr]; [apply Hq; lia|done|].
  split; [done|]. destruct (mem_read m1 sp (u32 (a + j))) as [[m2 v]|] eqn:E; [|done].
  destruct (Hr _ _ eq_refl) as [-> _]. cbn [mbind result_mbind result_bind].
  destruct (put_item _ _ _ _); [|done]. by intros s' [= <-].
Qed.

Lemma pack_interleaved_quiet m sp a size bc cc buf : small_memory m ->
  (forall i ch, 0 <= i < bc -> 0 <= ch < cc -> quiet sp (u32 (a + ch * bc + i))) ->
  @pack_interleaved _ e1 sp a size bc cc m buf = @pack_interleaved _ e2 sp a size bc cc m buf /\
  forall st, @pack_interleaved _ e1 sp a size bc cc m buf = Ok st -> small_memory st.1.
Proof.
  intros Hs Hq. unfold pack_interleaved. apply for_loop_ext; [done|].
  intros i st Hi Hst. apply for_loop_ext; [done|].
  intros j [m1 b1] Hj Hs1.
  destruct (read_quiet m1 sp (u32 (a + j * bc + i))) as [<- Hr]; [apply Hq; lia|done|].
  split; [done|]. destruct (mem_read m1 sp _) as [[m2 v]|] eqn:E; [|done].
  destruct (Hr _ _ eq_refl) as [-> _]. cbn [mbind result_mbind result_bind].
  destruct (put_item _ _ _ _); [|done]. by intros s' [= <-].
Qed.

Lemma get_item_u32 size mask off buf v :
  get_item size mask off buf = Ok v -> is_u32 v.
Proof.
  unfold get_item. repeat case_match; try done;
    (destruct (slice _ _ _) as [b|]; cbn [mbind result_mbind result_bind]; [|done]); intros [= <-].
  - rewrite Z.shiftl_mul_pow2 by lia. pose proof (u16_range (le_word b)). unfold is_u16, is_u32 in *. lia.
  - apply land_range; [done|apply u32_range].
Qed.

Lemma unpack_quiet m sp a size mask count buf : small_memory m ->
  (forall i, 0 <= i < count -> quiet sp (u32 (a + i))) ->
  @unpack _ e1 sp a size mask count buf m = @unpack _ e2 sp a size mask count buf m /\
  forall m', @unpack _ e1 sp a size mask count buf m = Ok m' -> small_memory m'.
Proof.
  intros Hs Hq. unfold unpack. apply for_loop_ext; [done|].
  intros j m1 Hj Hs1. destruct (get_item _ _ _ _) as [v|] eqn:E; cbn [mbind result_mbind result_bind]; [|done].
  apply get_item_u32 in E. apply write_quiet; [apply Hq; lia|done|done].
Qed.

Lemma mem_location_quiet off count sp a : small_word off -> small_word count ->
  mem_location off count = Ok (sp, a) ->
  forall i, 0 <= i < count -> quiet sp (u32 (a + i)).
Proof.
  unfold small_word, mem_location, check. intros Ho Hc Hl i Hi Hx.
  destruct (Z.ltb_spec off 0x1800).
  - rewrite u32_id in Hl by (unfold is_u32; lia).
    destruct (Z.ltb_spec (off + count) 0x1800); [|done]. injection Hl as <- <-.
    rewrite u32_id by (unfold is_u32; lia). unfold DSP_PERIPH_BASE. lia.
  - by repeat case_match; simplify_eq.
Qed.

Lemma dma_transfer_quiet n m buf : small_memory m -> small_word (n_count n) ->
  small_word (n_dsp_offset n) -> is_u32 (n_scratch_offset n) ->
  @dma_transfer _ e1 n m buf = @dma_transfer _ e2 n m buf /\
  forall m' b o, @dma_transfer _ e1 n m buf = Ok (m', b, o) -> small_memory m' /\ is_u32 o.
Proof.
  intros Hs Hc Ho Hso. unfold dma_transfer.
  destruct (check (unk2 _ =? _) _) as [[]|]; cbn [mbind result_mbind result_bind]; [|by split].
  destruct (check (negb (unk13 _)) _) as [[]|]; cbn [mbind result_mbind result_bind]; [|by split].
  destruct (item_format _) as [[size mask]|]; cbn [mbind result_mbind result_bind]; [|by split].
  destruct (mem_location _ _) as [[sp a]|] eqn:Hl; cbn [mbind result_mbind result_bind]; [|by split].
  pose proof (mem_location_quiet _ _ _ _ Ho Hc Hl) as Hq.
  change (@grow_buf _ e2) with (@grow_buf _ e1). set (b0 := grow_buf _ _).
  destruct (direction _); [destruct (dsp_interleave _)|].
  - destruct (pack_interleaved_quiet m sp a size (Z.shiftr (n_count n) 4)
      (Z.land (n_count n) 0xF + 1) b0) as [<- Hp]; [done| |].
    { intros i ch Hi Hch. rewrite <- Z.add_assoc. apply Hq. change 0xF with (Z.ones 4) in Hch.
      rewrite Z.land_ones, Z.shiftr_div_pow2 in * by lia. unfold small_word in Hc.
      pose proof (Z.mod_pos_bound (n_count n) (2 ^ 4)). pose proof (Z.div_mod (n_count n) (2 ^ 4)). nia. }
    split; [done|]. intros m' b o.
    destruct (pack_interleaved _ _ _ _ _ _ _) as [[m1 b1]|]; cbn [mbind result_mbind result_bind]; [|done].
    apply (buffer_small true); [by apply (Hp (m1, b1))|done].
  - destruct (pack_linear_quiet m sp a size (n_count n) b0) as [<- Hp]; [done|done|].
    split; [done|]. intros m' b o.
    destruct (pack_linear _ _ _ _ _ _) as [[m1 b1]|]; cbn [mbind result_mbind result_bind]; [|done].
    apply (buffer_small true); [by apply (Hp (m1, b1))|done].
  - destruct (check _ _) as [[]|]; cbn [mbind result_mbind result_bind]; [|by split].
    change (@buffer_in _ e2) with (@buffer_in _ e1).
    destruct (buffer_in _ _ _ _ _) as [[[m1 b1] o1]|] eqn:E; cbn [mbind result_mbind result_bind]; [|by split].
    apply (buffer_small false) in E as [Hs1 Ho1]; [|done|done].
    destruct (unpack_quiet m1 sp a size mask (n_count n) b1 Hs1 Hq) as [<- Hu].
    split; [done|]. intros m' b o.
    destruct (unpack _ _ _ _ _ _ _) as [m2|]; cbn [mbind result_mbind result_bind]; [|done].
    intros [= <- _ <-]. split; [by apply Hu|done].
Qed.

Lemma block_location_quiet addr sp a : 0 <= addr -> block_location addr = Ok (sp, a) ->
  forall i, 0 <= i <= 6 -> quiet sp (a + i).
Proof.
  unfold block_location, check. intros Ha Hl i Hi Hx.
  destruct (Z.ltb_spec addr 0x1800).
  - destruct (Z.ltb_spec (addr + 6) 0x1800); [|done]. injection Hl as <- <-.
    unfold DSP_PERIPH_BASE. lia.
  - by repeat case_match; simplify_eq.
Qed.

Lemma read_node_quiet m sp a : small_memory m -> (forall i, 0 <= i <= 6 -> quiet sp (a + i)) ->
  @read_node _ e1 m sp a = @read_node _ e2 m sp a /\
  forall m' n, @read_node _ e1 m sp a = Ok (m', n) -> m' = m /\
    small_word (n_count n) /\ small_word (n_dsp_offset n) /\ is_u32 (n_scratch_offset n) /\ 0 <= n_next n.
Proof.
  intros Hs Hq. unfold read_node.
  assert (quiet sp a) as H0 by (rewrite <- (Z.add_0_r a); apply Hq; lia).
  assert (forall v, small_word v -> is_u32 v) as Hw by (unfold small_word, is_u32; lia).
  repeat match goal with
  | |- context [@mem_read _ e2 m sp ?x] =>
      let Hr := fresh "Hr" in
      destruct (read_quiet m sp x) as [<- Hr]; [first [done | apply Hq; lia]|done|];
      destruct (@mem_read _ e1 m sp x) as [[? ?]|]; cbn [mbind result_mbind result_bind];
      [destruct (Hr _ _ eq_refl) as [-> ?]; clear Hr|by split]
  end.
  split; [done|]. intros m' n [= <- <-]. cbn. split_and!; auto. by match goal with H : small_word ?x |- 0 <= ?x => destruct H end.
Qed.

Lemma dma_block_quiet s : small_memory (env s) -> 0 <= next_block (dma s) ->
  @dma_block _ e1 s = @dma_block _ e2 s /\
  forall s', @dma_block _ e1 s = Ok s' -> small_memory (env s') /\ 0 <= next_block (dma s').
Proof.
  intros Hs Hn. unfold dma_block.
  destruct (block_location _) as [[sp a]|] eqn:Hl; cbn [mbind result_mbind result_bind]; [|by split].
  assert (forall i, 0 <= i <= 6 -> quiet sp (a + i)) as Hq.
  { intros i Hi. eapply block_location_quiet; [|exact Hl|done]. apply Z.land_nonneg. lia. }
  destruct (read_node_quiet (env s) sp a Hs Hq) as [<- Hr].
  destruct (read_node _ _ _) as [[m1 n]|]; cbn [mbind result_mbind result_bind]; [|by split].
  destruct (Hr _ _ eq_refl) as (-> & Hc & Ho & Hso & Hnx).
  destruct (dma_transfer_quiet n (env s) (scratch_buf s) Hs Hc Ho Hso) as [<- Ht].
  destruct (dma_transfer _ _ _) as [[[m2 b] o]|]; cbn [mbind result_mbind result_bind]; [|by split].
  destruct (Ht _ _ _ eq_refl) as [Hs2 Hou]. clear Ht Hr.
  assert (forall d, 0 <= next_block (if has (next_block (d <| next_block := n_next n |>)) NODE_POINTER_EOL
    then d <| next_block := n_next n |> <| eol := true |> else d <| next_block := n_next n |>)) as Hd
    by (intros []; cbn; by case_match).
  destruct (buffer_offset_writeback _).
  - destruct (write_quiet m2 sp (a + 4) o) as [<- Hw]; [apply Hq; lia|done|done|].
    split; [done|]. destruct (mem_write _ _ _ _) as [m3|]; cbn [mbind result_mbind result_bind]; [|done].
    intros s' [= <-]. split; [by apply Hw|apply Hd].
  - split; [done|]. intros s' [= <-]. split; [done|apply Hd].
Qed.

Lemma dma_loop_quiet fuel : forall s, small_memory (env s) -> 0 <= next_block (dma s) ->
  @dma_loop _ e1 fuel s = @dma_loop _ e2 fuel s.
Proof.
  induction fuel as [|fuel IH]; intros s Hs Hn; cbn [dma_loop]; [done|].
  destruct (dma_block_quiet s Hs Hn) as [<- Hb]. destruct (has _ _); [done|].
  destruct (dma_block s) as [s1|]; cbn [mbind result_mbind result_bind]; [|done].
  apply IH; by apply Hb.
Qed.
End Reentry.

End DspShellTheorems.

(** ** The DSP as the environment of its DMA engine *)

(** Scratch memory as bytes. *)
Class DspGuestLaws (G : Type) `{!DspGuest G} := {
  guest_byte : G -> Z -> Z;
  guest_mapped : G -> Z -> Z -> Prop;
  guest_malloc_length n : 0 <= n -> Z.of_nat (length (guest_malloc n)) = n;
  guest_mapped_sub g a n o k : guest_mapped g a n -> 0 <= o -> 0 <= k -> o + k <= n ->
    guest_mapped g (a + o) k;
  guest_write_ok g l a : guest_mapped g a (Z.of_nat (length l)) ->
    exists g', guest_scratch_rw g l a true = Ok (g', l) /\
      (forall x, guest_mapped g x 1 -> guest_byte g' x =
         if (a <=? x) && (x <? a + Z.of_nat (length l)) then byte l (x - a) else guest_byte g x) /\
      (forall x n, guest_mapped g x n -> guest_mapped g' x n);
  guest_read_ok g l a : guest_mapped g a (Z.of_nat (length l)) ->
    exists l', guest_scratch_rw g l a false = Ok (g, l') /\ length l' = length l /\
      forall i, 0 <= i < Z.of_nat (length l) -> byte l' i = guest_byte g (a + i);
}.

Section ShellLaws.
Context {G : Type} `{HG : DspGuestLaws G}.
Variable p : DspPeripheral (DSPRest G).
Implicit Types dsp : dsp_core (DSPRest G).

Definition shell_word dsp (sp a : Z) : Z :=
  match cell_of sp a with Some c => cell_value dsp c | None => 0 end.
Definition shell_slot (sp a : Z) : Z * Z :=
  match cell_of sp a with
  | Some (XCell a) => (0, a) | Some (YCell a) => (1, a) | Some (PCell a) => (2, a)
  | Some (MixCell a) => (3, a) | None => (-1, 0)
  end.
Definition shell_ram (sp a : Z) : Prop := 0 <= a < 2 ^ 24 /\ is_Some (cell_of sp a).
Definition program_ok dsp : Prop := forall i, Z.land (rd (pram dsp) i) 0xFF000000 = 0.

Lemma shell_slot_cell sp a sp' a' c c' :
  cell_of sp a = Some c -> cell_of sp' a' = Some c' ->
  shell_slot sp a = shell_slot sp' a' <-> c = c'.
Proof.
  intros Hc Hc'. unfold shell_slot. rewrite Hc, Hc'. destruct c, c'; split; intros; by simplify_eq.
Qed.

Lemma cell_of_X a c : 0 <= a -> cell_of DSP_SPACE_X a = Some c ->
  (a < 0xc00 /\ c = XCell a) \/ (0xc00 <= a < 0x1000 /\ c = MixCell (a - 0xc00)) \/
  (0x1400 <= a < 0x1800 /\ c = MixCell (a - 0x1400)).
Proof.
  unfold cell_of, in_mixbuffer, DSP_PERIPH_BASE, DSP_MIXBUFFER_BASE, DSP_MIXBUFFER_SIZE,
    DSP_XRAM_SIZE, DSP_SPACE_X. cbn [Z.eqb].
  change (0x1400 + 1024) with 0x1800. change (0xc00 + 1024) with 0x1000. change 4096 with 0x1000.
  intros Ha. destruct (Z.leb_spec 0xFFFF80 a); [done|].
  destruct (Z.leb_spec 0x1400 a), (Z.ltb_spec a 0x1800), (Z.leb_spec 0xc00 a), (Z.ltb_spec a 0x1000);
    cbn [andb]; intros Hc; simplify_eq; try lia;
    first [left; split; [lia|done] | right; left; split; [lia|done] | right; right; split; [lia|done]].
Qed.

Lemma cell_of_YP sp a c : sp <> DSP_SPACE_X -> cell_of sp a = Some c -> c = YCell a \/ c = PCell a.
Proof.
  intros Hsp. unfold cell_of. destruct (Z.eqb_spec sp DSP_SPACE_X); [done|].
  repeat case_match; intros Hc; simplify_eq; auto.
Qed.

Lemma shell_slot_inj sp a n : (forall i, 0 <= i < n -> shell_ram sp (a + i)) ->
  forall i j, 0 <= i < n -> 0 <= j < n -> shell_slot sp (a + i) = shell_slot sp (a + j) -> i = j.
Proof.
  intros Hr i j Hi Hj.
  destruct (Hr i Hi) as [Ha [c Hc]], (Hr j Hj) as [Hb [c' Hc']].
  rewrite (shell_slot_cell _ _ _ _ _ _ Hc Hc'). intros <-.
  destruct (Z.eq_dec sp DSP_SPACE_X) as [->|Hne].
  - assert (~ (0 <= 0x1000 - a < n)) as Hgap.
    { intros Hk. destruct (Hr _ Hk) as [_ [d Hd]]. replace (a + (0x1000 - a)) with 0x1000 in Hd by lia.
      apply cell_of_X in Hd as [[? _]|[[? _]|[? _]]]; lia. }
    apply cell_of_X in Hc, Hc'; [|lia..].
    destruct Hc as [[? ->]|[[? ->]|[? ->]]], Hc' as [[? Hx]|[[? Hx]|[? Hx]]]; simplify_eq; lia.
  - apply cell_of_YP in Hc, Hc'; [|done..].
    destruct Hc as [-> | ->], Hc' as [Hx|Hx]; simplify_eq; lia.
Qed.

Lemma shell_mem_read dsp sp a : program_ok dsp -> shell_ram sp a ->
  dsp56k_read_memory dsp sp a = Ok (dsp, shell_word dsp sp a).
Proof.
  intros Hp [Ha [c Hc]]. rewrite (read_cell _ _ _ _ Ha Hc). unfold shell_word. rewrite Hc.
  destruct c; try done. by rewrite Hp.
Qed.

Lemma write_keeps_opaque dsp sp a v d c : cell_of sp a = Some c ->
  dsp56k_write_memory dsp sp a v = Ok d -> opaque d = opaque dsp.
Proof.
  unfold cell_of, dsp56k_write_memory, write_memory_raw, check. intros Hc.
  repeat case_match; cbn [mbind result_mbind result_bind]; intros Hrun; simplify_eq; by proj_red.
Qed.

Lemma shell_mem_write dsp sp a v : program_ok dsp -> shell_ram sp a -> 0 <= v < 2 ^ 24 ->
  exists d, dsp56k_write_memory dsp sp a v = Ok d /\ program_ok d /\
    (forall sp' a', shell_ram sp' a' -> shell_word d sp' a' =
       if decide (shell_slot sp' a' = shell_slot sp a) then v else shell_word dsp sp' a') /\
    opaque d = opaque dsp.
Proof.
  intros Hp [Ha [c Hc]] Hv. destruct (write_cell dsp sp a v c Ha Hv Hc) as (d & Hw & Hd).
  exists d. split; [done|]. split_and!.
  - intros i. specialize (Hd (PCell i)). cbn in Hd. rewrite Hd. case_decide; [|done].
    by apply top_byte_clear.
  - intros sp' a' [_ [c' Hc']]. unfold shell_word. rewrite Hc', Hd.
    pose proof (shell_slot_cell _ _ _ _ _ _ Hc' Hc) as Hiff. repeat case_decide; tauto.
  - by apply (write_keeps_opaque _ _ _ _ _ _ Hc Hw).
Qed.

(** The guest part changes, the core does not. *)
Lemma shell_word_guest g dsp sp a : shell_word (set_rest (fun r => r <| guest := g |>) dsp) sp a
  = shell_word dsp sp a.
Proof. unfold shell_word. by destruct (cell_of sp a) as [[]|]. Qed.

#[export] Program Instance shell_dma_laws : @DmaLaws (dsp_core (DSPRest G)) (c_dma_env p) := {|
  word := shell_word;
  scratch_byte dsp := guest_byte (guest (opaque dsp));
  slot := shell_slot;
  readable := shell_ram;
  writable := shell_ram;
  scratch_ok dsp := guest_mapped (guest (opaque dsp));
  env_ok := program_ok;
|}.
Next Obligation. apply guest_malloc_length. Qed.
Next Obligation. done. Qed.
Next Obligation. apply shell_slot_inj. Qed.
Next Obligation. intros. by apply shell_mem_read. Qed.
Next Obligation.
  intros dsp sp a v Hp Hr Hv. destruct (shell_mem_write dsp sp a v Hp Hr Hv) as (d & Hw & Hd & Hword & Ho).
  exists d. cbn. rewrite Ho. by split_and!.
Qed.
Next Obligation. intros dsp a n o k. apply guest_mapped_sub. Qed.
Next Obligation.
  intros dsp l a Hp Hm. cbn in *. destruct (guest_write_ok _ l a Hm) as (g & Hw & Hb & Hk).
  rewrite Hw. cbn [mbind result_mbind result_bind]. eexists. split; [reflexivity|]. split_and!.
  - done.
  - intros. apply shell_word_guest.
  - done.
  - done.
Qed.
Next Obligation.
  intros dsp l a Hp Hm. cbn in *. destruct (guest_read_ok _ l a Hm) as (l' & Hr & Hl & Hb).
  rewrite Hr. cbn [mbind result_mbind result_bind]. exists l'. split_and!; [|done|done].
  by destruct dsp as [? ? ? ? ? ? ? ? ? ? ? ? ? ? ? ? ? ? ? ? ? ? ? ? [] ? ? ? ?].
Qed.
End ShellLaws.

(** ** Examples

    A guest whose scratch memory is a function from addresses to bytes. *)

#[export] Instance bytes_guest : DspGuest (Z -> Z) := {
  guest_scratch_rw g l a dir :=
    if dir then
      Ok (fun x => if (a <=? x) && (x <? a + Z.of_nat (length l)) then byte l (x - a) else g x, l)
    else Ok (g, map (fun i => g (a + Z.of_nat i)) (seq 0 (length l)));
  guest_fifo_rw g l _ _ := Ok (g, l);
  guest_malloc n := repeat 0 (Z.to_nat n);
}.

#[export] Program Instance bytes_guest_laws : DspGuestLaws (Z -> Z) := {
  guest_byte g := g;
  guest_mapped _ _ _ := True;
}.
Next Obligation. intros. cbn. rewrite repeat_length. lia. Qed.
Next Obligation. done. Qed.
Next Obligation. intros g l a _. cbn. by eexists. Qed.
Next Obligation.
  intros g l a _. cbn. eexists. split; [done|]. split; [by rewrite length_map, length_seq|].
  intros i Hi. unfold byte. rewrite (nth_indep _ 0 (g (a + Z.of_nat 0)))
    by (rewrite length_map, length_seq; lia).
  rewrite (map_nth (fun i => g (a + Z.of_nat i))), seq_nth by lia. f_equal. lia.
Qed.

(** A core that holds a NOP at address 0, already decoded. *)
Definition spin_entry : nat := match lookup_opcode_slow 0 with Ok e => e | _ => 0%nat end.

Definition spin (cc ic cl sv : Z) : dsp_core (DSPRest (Z -> Z)) :=
  mkCore true false cc ic 0 ∅ ∅ ∅ ∅ ∅ ∅ {[ 0 := spin_entry ]} ∅ ∅ 0 0 0 0xffff 0xffff 0 0 0 ∅ ∅
    (mkRest vm_zero (mkDSPDMAState 0 0 0 0 false false 0) sv 0 true None (fun _ => 0xff))
    0 cl 0 true.

(** A branch to itself instead of every instruction; the statistics counter
    [num_inst] is held at 0. *)
Definition spin_execute (cache : opcache) (d : dsp_core (DSPRest (Z -> Z))) :
    result (opcache * dsp_core (DSPRest (Z -> Z))) :=
  '(cache, d) ← dsp56k_execute_instruction (fun _ d => Ok (d <| cur_inst_len := 0 |>)) Ok
                  (fun _ => Ok) cache d;
  Ok (cache, d <| num_inst := 0 |>).

Lemma spin_executes_well :
  executes_well spin_execute
    (fun cache d => cache = ∅ /\ exists cc ic cl sv, d = spin cc ic cl sv) 2.
Proof.
  intros cache d (-> & cc & ic & cl & sv & ->).
  exists ∅, (spin cc 2 0 sv). split; [vm_compute; reflexivity|].
  split; [cbn; lia|]. split; [done|]. split; [done|].
  intros c k. split; [done|]. by exists k, 2, 0, c.
Qed.

Lemma dsp_c_run_budget_witness : exists cache d,
  dsp_c_run spin_execute ∅ (spin 0 0 0 0) 5 = Ok (cache, d) /\
  run_spent 2 (spin 0 0 0 0) 5 d.
Proof.
  apply (dsp_c_run_budget spin_execute
    (fun cache d => cache = ∅ /\ exists cc ic cl sv, d = spin cc ic cl sv) 2 ∅
    (spin 0 0 0 0) 5 spin_executes_well); try done.
  split; [done|]. by exists 0, 0, 0, 5.
Defined.

Lemma bootstrap_program_readable_witness : exists d,
  dsp_c_bootstrap (spin 0 0 0 0) = Ok d /\ read_memory_p d 7 = Ok 0xffffff.
Proof.
  destruct (@bootstrap_program_readable (Z -> Z) bytes_guest (spin 0 0 0 0) (fun _ => 0xff)
    (map (fun i => (fun _ => 0xff) (0 + Z.of_nat i))
       (seq 0 (length (array_bytes (pram (spin 0 0 0 0)) (Z.to_nat 0x800))))) eq_refl)
    as (d & Hd & Hr & _).
  - vm_compute. reflexivity.
  - apply Forall_map, Forall_true. intros. done.
  - exists d. split; [exact Hd|]. rewrite Hr by done. vm_compute. reflexivity.
Defined.

