(* ===== verification/DspRun.v ===== *)
(** * Running the DSP
    (src/xemu/hw/xbox/mcpx/apu/dsp/dsp.c, dsp_c.c, dsp_dma.c)

    The peripherals of dsp.c, DMA included, keep the types of DspTyped.v, so the
    theorem of DspSound.v holds of the real DSP, and its runs end. *)

From S2P Require Import Prelude DspArith DspCore DspDecode DspEmuAlu DspEmuMove DspEmuOps DspEmu.
From S2P Require Import DspTyped DspSound DspDma DspShell.

(** ** The DMA engine keeps what its callbacks keep *)

Section DmaKeeps.
Context {M : Type} `{!DmaEnv M}.
Variable T : M -> Prop.
Variable w : Z.
Hypothesis w_u32 : w <= 32.
Local Abbreviation safe := (safe (fun _ => True)).
Hypothesis read_keeps : forall m sp a, T m ->
  safe (fun '(m', v) => T m' /\ 0 <= v < 2 ^ w) (mem_read m sp a).
Hypothesis write_keeps : forall m sp a v, T m -> is_u32 v -> safe T (mem_write m sp a v).
Hypothesis scratch_keeps : forall m ptr a dir, T m -> safe (fun '(m', _) => T m') (scratch_rw m ptr a dir).
Hypothesis fifo_keeps : forall m ptr i dir, T m -> safe (fun '(m', _) => T m') (fifo_rw m ptr i dir).

Lemma safe_any {A} (c : result A) : safe (fun _ => True) c.
Proof. by destruct c. Qed.
Lemma safe_for {S} (Q : S -> Prop) body n : (forall i s, Q s -> safe Q (body i s)) ->
  forall i s, Q s -> safe Q (for_loop n i body s).
Proof.
  intros Hb. induction n as [|n IH]; intros i s Hs; [done|]. cbn [for_loop].
  eapply safe_bind; [by apply Hb|]. intros s' Hs'. by apply IH.
Qed.

Lemma scratch_at_keeps m buf off a n dir : T m -> safe (fun '(m', _) => T m') (scratch_rw_at m buf off a n dir).
Proof.
  intros HT. unfold scratch_rw_at. eapply safe_bind; [apply safe_any|]. intros ptr _.
  eapply safe_bind; [by apply scratch_keeps|]. intros [m' ptr'] HT'.
  eapply safe_bind; [apply safe_any|]. by intros.
Qed.
Lemma circular_keeps fuel base size dir : forall m buf off n bo, T m -> is_u32 off ->
  safe (fun '(m', _, o) => T m' /\ is_u32 o) (circular_loop fuel base size dir m buf off n bo).
Proof.
  induction fuel as [|fuel IH]; intros m buf off n bo HT Ho; cbn [circular_loop]; case_match; try done.
  eapply safe_bind; [by apply scratch_at_keeps|]. intros [m' buf'] HT'. apply IH; [done|].
  case_match; [done|apply u32_range].
Qed.
Lemma circular_copy_keeps m base off size n buf dir : T m -> is_u32 off ->
  safe (fun '(m', _, o) => T m' /\ is_u32 o) (scratch_circular_copy m base off size n buf dir).
Proof. intros HT Ho. apply circular_keeps; [done|]. by case_match. Qed.

Lemma buffer_out_keeps n id len m buf : T m -> is_u32 (n_scratch_offset n) ->
  safe (fun '(m', _, o) => T m' /\ is_u32 o) (buffer_out n id len m buf).
Proof.
  intros HT Ho. unfold buffer_out. case_match; [|case_match; [by apply circular_copy_keeps|case_match; [|done]]].
  - eapply safe_bind; [apply safe_any|]. intros ptr _.
    eapply safe_bind; [by apply fifo_keeps|]. intros [m' ptr'] HT'.
    eapply safe_bind; [apply safe_any|]. by intros.
  - eapply safe_bind; [by apply scratch_at_keeps|]. by intros [m' buf'].
Qed.
Lemma buffer_in_keeps n id len m buf : T m -> is_u32 (n_scratch_offset n) ->
  safe (fun '(m', _, o) => T m' /\ is_u32 o) (buffer_in n id len m buf).
Proof.
  intros HT Ho. unfold buffer_in. case_match; [by apply circular_copy_keeps|]. case_match; [|done].
  eapply safe_bind; [by apply scratch_at_keeps|]. by intros [m' buf'].
Qed.

(** One item from DSP memory to the buffer, and back. *)
Lemma pack_item_keeps sp a size off st : T (fst st) ->
  safe (fun st' => T (fst st'))
    (let '(m, buf) := st in
     '(m, v) ← mem_read m sp a; buf ← put_item size off v buf; Ok (m, buf)).
Proof.
  destruct st as [m buf]. intros HT. eapply safe_bind; [by apply read_keeps|]. intros [m' v] [HT' _].
  eapply safe_bind; [apply safe_any|]. by intros.
Qed.
Lemma unpack_keeps sp a size mask count buf m : T m -> (0 <= mask < 2 ^ 32) ->
  safe T (unpack sp a size mask count buf m).
Proof.
  intros HT Hmask. apply safe_for; [|done]. intros i m' HT'.
  eapply (safe_bind _ is_u32); [|intros v Hv; by apply write_keeps].
  unfold get_item. case_match; [|case_match; [|done]]; (eapply safe_bind; [apply safe_any|]); intros b _.
  - pose proof (u16_range (le_word b)) as Hb. unfold is_u16 in Hb. cbn [Prelude.safe].
    rewrite Z.shiftl_mul_pow2 by done. unfold is_u32. lia.
  - apply (land_range _ _ 32); [done|apply u32_range].
Qed.

Lemma dma_transfer_keeps n m buf : T m -> is_u32 (n_scratch_offset n) ->
  safe (fun '(m', _, o) => T m' /\ is_u32 o) (dma_transfer n m buf).
Proof.
  intros HT Ho. unfold dma_transfer.
  eapply safe_bind; [apply safe_any|]. intros _ _. eapply safe_bind; [apply safe_any|]. intros _ _.
  eapply (safe_bind _ (fun p => 0 <= snd p < 2 ^ 32)).
  { unfold item_format. repeat case_match; cbn; try done; lia. }
  intros [size mask] Hmask. eapply safe_bind; [apply safe_any|]. intros [sp a] _. case_match; [case_match|].
  - eapply safe_bind.
    + apply (safe_for (fun st => T (fst st))); [|exact HT]. intros i st HTs.
      apply (safe_for (fun st => T (fst st))); [|exact HTs]. intros ch st' HTs'. by apply pack_item_keeps.
    + intros [m' buf'] HT'. by apply buffer_out_keeps.
  - eapply safe_bind.
    + apply (safe_for (fun st => T (fst st))); [|exact HT]. intros i st HTs. by apply pack_item_keeps.
    + intros [m' buf'] HT'. by apply buffer_out_keeps.
  - eapply safe_bind; [apply safe_any|]. intros _ _.
    eapply safe_bind; [by apply buffer_in_keeps|]. intros [[m' buf'] o] [HT' Ho'].
    eapply safe_bind; [by apply unpack_keeps|]. by intros.
Qed.

Lemma read_node_keeps m sp a : T m ->
  safe (fun '(m', n) => T m' /\ is_u32 (n_scratch_offset n) /\ 0 <= n_next n < 2 ^ w) (read_node m sp a).
Proof.
  intros HT. unfold read_node.
  repeat (eapply safe_bind; [by apply read_keeps|];
          let m' := fresh "m" in let v := fresh "v" in intros [m' v] [? ?]).
  split; [done|]. split; [|done]. by apply (range_weaken _ w).
Qed.

(** The registers of the engine; a descriptor's link may be as wide as a memory word. *)
Definition dma_regs_typed (d : DSPDMAState) : Prop :=
  0 <= configuration d < 2 ^ 24 /\ 0 <= control d < 2 ^ 24 /\ 0 <= start_block d < 2 ^ 24 /\
  0 <= next_block d < 2 ^ w.
Definition dma_sys_typed (s : dma_sys M) : Prop := T (env s) /\ dma_regs_typed (dma s).

Lemma dma_block_keeps s : dma_sys_typed s -> safe dma_sys_typed (dma_block s).
Proof.
  intros [HT Hd]. unfold dma_block. eapply safe_bind; [apply safe_any|]. intros [sp a] _.
  eapply safe_bind; [by apply read_node_keeps|]. intros [m n] (HTm & Ho & Hn).
  eapply safe_bind; [by apply dma_transfer_keeps|]. intros [[m2 buf] o] [HT2 Ho2].
  eapply (safe_bind _ T).
  - case_match; [by apply write_keeps|done].
  - intros m3 HT3. split; [done|]. destruct Hd as (H1 & H2 & H3 & _), (dma s). by case_match.
Qed.
Lemma dma_loop_keeps fuel : forall s, dma_sys_typed s -> safe dma_sys_typed (dma_loop fuel s).
Proof.
  induction fuel as [|fuel IH]; intros s Hs; cbn [dma_loop]; case_match; try done.
  eapply safe_bind; [by apply dma_block_keeps|]. apply IH.
Qed.

Lemma ldiff_fits x y n : 0 <= n -> 0 <= x < 2 ^ n -> 0 <= Z.ldiff x y < 2 ^ n.
Proof. intros Hn Hx. rewrite Z.ldiff_land. by apply land_range. Qed.
Lemma control_action_keeps d action : dma_regs_typed d -> safe dma_regs_typed (control_action d action).
Proof.
  intros (H1 & H2 & H3 & H4). unfold control_action. destruct d. cbn in *.
  repeat case_match; try done; (split; [done|split; [|split; done]]); cbn;
    repeat first [apply ldiff_fits; [done|] | apply lor_range; [done| |done]]; done.
Qed.
Lemma dma_write_keeps fuel s reg v : dma_sys_typed s -> 0 <= v < 2 ^ 24 -> 24 <= w ->
  safe dma_sys_typed (dsp_dma_write fuel s reg v).
Proof.
  intros [HT Hd] Hv Hw. assert (0 <= v < 2 ^ w) by (by apply (range_weaken _ 24)).
  destruct reg; cbn [dsp_dma_write].
  - split; [done|]. destruct Hd as (H1 & H2 & H3 & H4), s as [[] ? ?]. done.
  - eapply safe_bind; [by apply control_action_keeps|]. intros d Hd'. unfold dsp_dma_run.
    case_match; [by split|]. by apply dma_loop_keeps.
  - split; [done|]. destruct Hd as (H1 & H2 & H3 & H4), s as [[] ? ?]. done.
  - split; [done|]. destruct Hd as (H1 & H2 & H3 & H4), s as [[] ? ?]. done.
Qed.
Lemma dma_read_keeps d reg : dma_regs_typed d -> 24 <= w ->
  let '(d', v) := dsp_dma_read d reg in dma_regs_typed d' /\ 0 <= v < 2 ^ w.
Proof.
  intros (H1 & H2 & H3 & H4) Hw. pose proof (fun x => range_weaken x 24 w Hw) as Hx. destruct d as [cf c sb nb er eo k], reg; cbn in *.
  - split; [done|by apply Hx].
  - assert (0 <= Z.lor (Z.ldiff c DMA_CONTROL_RUNNING) DMA_CONTROL_STOPPED < 2 ^ 24) as Hc.
    { apply lor_range; [done| |done]. by apply ldiff_fits. }
    case_match; [case_match|]; cbn; (split; [done|by apply Hx]).
  - split; [done|by apply Hx].
  - done.
Qed.
End DmaKeeps.

(** ** The peripherals of dsp.c *)

Section Shell.
Context {G : Type} `{!DspGuest G}.
Implicit Types dsp : dsp_core (DSPRest G).

(** The registers behind X:0xffff80; the run keeps [save_cycles] to itself. *)
Definition rest_typed (c : Z) (s : bool) (r : DSPRest G) : Prop :=
  dma_regs_typed (dw s) (dma_state r) /\ 0 <= interrupts r < 2 ^ 24 /\ save_cycles r = c.
(** The faults of the DMA engine, on whatever descriptors. *)
Definition dma_fault (fuel : nat) (f : fault) : Prop :=
  exists dsp reg v, write_dma no_reentry fuel dsp reg v = Fault f.

Lemma typed_rest c I s n dsp f : typed (rest_typed c) I s n dsp ->
  rest_typed c s (f (opaque dsp)) -> typed (rest_typed c) I s n (set_rest f dsp).
Proof. intros [] Hf. by constructor. Qed.

#[export] Instance no_reentry_typed c : @TypedPeripheral _ (rest_typed c) (fun _ => True) no_reentry.
Proof. by split. Qed.

Lemma safe_forget {A} F (Q : A -> Prop) (r : result A) : safe F Q r -> safe (fun _ => True) Q r.
Proof. by destruct r. Qed.

(** A write to a DMA register runs the engine on the memory of the DSP. *)
Lemma write_dma_typed c fuel I s n dsp reg v : typed (rest_typed c) I s n dsp -> 0 <= v < 2 ^ 24 ->
  safe (dma_fault fuel) (typed (rest_typed c) I s n) (write_dma no_reentry fuel dsp reg v).
Proof.
  intros HT Hv.
  assert (safe (fun _ => True) (typed (rest_typed c) I s n) (write_dma no_reentry fuel dsp reg v)) as Hsafe.
  { unfold write_dma. eapply safe_bind.
    - apply (@dma_write_keeps _ (c_dma_env no_reentry) (typed (rest_typed c) I s n) (dw s)); [by destruct s|..|done|by destruct s].
      + intros m sp a HTm. eapply safe_forget. by apply (@read_memory_typed _ no_reentry _ (fun _ => True) _ I s n).
      + intros m sp a x HTm Hx. eapply safe_forget. by apply (@write_memory_typed _ no_reentry _ (fun _ => True) _ I s n).
      + intros m ptr a dir HTm. eapply (safe_bind _ (fun _ => True)); [apply safe_any|]. intros [g ptr'] _.
        apply typed_rest; [done|]. by destruct (ty_opaque _ _ _ _ _ HTm).
      + intros m ptr a dir HTm. eapply (safe_bind _ (fun _ => True)); [apply safe_any|]. intros [g ptr'] _.
        apply typed_rest; [done|]. by destruct (ty_opaque _ _ _ _ _ HTm).
      + split; [done|]. by destruct (ty_opaque _ _ _ _ _ HT).
    - intros st [HTs Hd]. apply typed_rest; [done|].
      destruct (ty_opaque _ _ _ _ _ HTs) as (_ & Hi & Hc). done. }
  destruct (write_dma no_reentry fuel dsp reg v) eqn:E; [done|]. by exists dsp, reg, v.
Qed.

Lemma read_dma_typed c I s n dsp reg : typed (rest_typed c) I s n dsp ->
  let '(d, v) := read_dma dsp reg in typed (rest_typed c) I s n d /\ 0 <= v < 2 ^ dw s.
Proof.
  intros HT. unfold read_dma. destruct (ty_opaque _ _ _ _ _ HT) as (Hd & Hi & Hc).
  pose proof (dma_read_keeps (dw s) _ reg Hd ltac:(by destruct s)) as H.
  destruct (dsp_dma_read _ reg) as [d v]. destruct H as [Hd' Hv]. split; [|done]. by apply typed_rest.
Qed.

#[export] Instance c_peripheral_typed c fuel :
  @TypedPeripheral _ (rest_typed c) (dma_fault fuel) (c_peripheral fuel).
Proof.
  split.
  - intros I s n dsp a HT. cbn [core_read_peripheral c_peripheral Prelude.safe]. unfold read_peripheral.
    pose proof (fun reg => read_dma_typed c I s n dsp reg HT) as Hd.
    destruct (ty_opaque _ _ _ _ _ HT) as (_ & Hi & _).
    destruct (a =? _); [split; [done|by destruct s]|]. destruct (a =? _).
    { split; [done|]. apply dw24. destruct (eol _); [|done]. by apply lor_range. }
    do 4 (destruct (a =? _); [apply Hd|]). split; [done|by apply dw24].
  - intros I s n dsp a v HT Hv. cbn [core_write_peripheral c_peripheral]. unfold write_peripheral.
    assert (forall reg, safe (allowed (dma_fault fuel)) (typed (rest_typed c) I s n)
      (write_dma no_reentry fuel dsp reg v)) as Hdma.
    { intros reg. pose proof (write_dma_typed c fuel I s n dsp reg v HT Hv) as H.
      destruct (write_dma _ _ _ _ _) as [d|f]; [done|]. by destruct f. }
    destruct (a =? _); [cbn; case_match; [|done]; destruct HT; by constructor|].
    destruct (a =? _); [|do 4 (destruct (a =? _); [apply Hdma|]); done].
    apply typed_rest; [done|]. destruct (ty_opaque _ _ _ _ _ HT) as ((H1 & H2 & H3 & H4) & Hi & Hc).
    assert (0 <= Z.ldiff (interrupts (opaque dsp)) v < 2 ^ 24) by (by apply ldiff_fits).
    destruct (opaque dsp) as [? [] ? ? ? ? ?]. cbn in *. case_match; done.
Qed.

(** ** Running *)

(** The real instruction set in [dsp_c_run]; [fuel] bounds the descriptors of a DMA list. *)
Definition dsp_run (fuel : nat) : opcache -> dsp_core (DSPRest G) -> Z -> result (opcache * dsp_core (DSPRest G)) :=
  dsp_c_run (@execute_instruction _ (c_peripheral fuel)).

Definition dsp_well_typed (s : bool) dsp : Prop := well_typed (rest_typed (save_cycles (opaque dsp))) s dsp.

Lemma well_typed_counters c c' s dsp f : well_typed (rest_typed c) s dsp ->
  well_typed (rest_typed c') s (set_rest (fun r => r <| save_cycles := c' |>) dsp <| cycle_count ::= f |>).
Proof. intros [? ? ? ? ? ? ? ? ? ? ? ? ? ? ? (H1 & H2 & _)]. by constructor. Qed.

(** Where a run stops: idle, or with the budget spent and less than an instruction over. *)
Definition run_stopped dsp : Prop :=
  - 106 < save_cycles (opaque dsp) /\ (is_idle dsp = true \/ save_cycles (opaque dsp) <= 0).

Lemma run_loop_sound dfuel fuel : forall k cache dsp, dsp_well_typed false dsp -> cache_ok cache ->
  - 106 < save_cycles (opaque dsp) < 2 ^ 31 -> save_cycles (opaque dsp) <= Z.of_nat fuel ->
  let run := run_loop (@execute_instruction _ (c_peripheral dfuel)) in
  run (fuel + k)%nat cache dsp = run fuel cache dsp /\
  safe (allowed (dma_fault dfuel)) (fun '(c, d) => cache_ok c /\ dsp_well_typed false d /\ run_stopped d)
    (run fuel cache dsp).
Proof.
  induction fuel as [|fuel IH]; intros k cache dsp HT Hc Hb Hf; cbn zeta.
  - destruct k; cbn [run_loop Nat.add]; rewrite (proj2 (Z.ltb_ge _ _)) by lia; (split; [done|]); cbn; split_and!;
      try done; unfold run_stopped; split; auto; lia.
  - cbn [run_loop Nat.add]. destruct (Z.ltb_spec 0 (save_cycles (opaque dsp))) as [Hpos|Hneg].
    2: { split; [done|]. cbn. split_and!; try done. split; [lia|by right]. }
    pose proof (@execute_typed _ (c_peripheral dfuel) _ _ (c_peripheral_typed _ dfuel) false cache dsp HT Hc
      ltac:(done)) as Hx.
    destruct (@execute_instruction _ (c_peripheral dfuel) cache dsp) as [[c1 d1]|f]; [|by split].
    destruct Hx as (Hc1 & HT1 & Hcy). cbn [mbind result_mbind result_bind].
    assert (save_cycles (opaque d1) = save_cycles (opaque dsp)) as Hs by apply (ty_opaque _ _ _ _ _ HT1).
    assert (s32 (save_cycles (opaque d1) - instr_cycle d1) = save_cycles (opaque dsp) - instr_cycle d1) as H32.
    { rewrite Hs. unfold s32. rewrite Z.mod_small; lia. }
    set (d2 := _ <| cycle_count ::= _ |>).
    assert (save_cycles (opaque d2) = save_cycles (opaque dsp) - instr_cycle d1) as Hs2 by exact H32.
    assert (dsp_well_typed false d2) as HT2.
    { unfold dsp_well_typed. rewrite Hs2. rewrite <- H32. exact (well_typed_counters _ _ _ _ _ HT1). }
    clearbody d2. destruct (is_idle d2) eqn:Hidle.
    + split; [done|]. cbn. split_and!; try done. split; [lia|by left].
    + apply IH; [done..|lia|lia].
Qed.

(** C2. Type soundness of the instruction set.  A well-typed DSP holds in every register,
    memory word and counter a value of its width ([s] = true: 24-bit data words, 56-bit
    accumulators; [s] = false: data words of 32 bits, as in the memory of a fresh DSP).
    Executing any instruction either gives a well-typed DSP again, after 2 to 106 cycles,
    or stops at an assertion of the source, at an undefined shift or in the DMA engine:
    no handler is missing, no table is indexed out of bounds and no loop is endless. The
    24-bit statement excepts MAX, and BSET and BCHG of bits 24 to 31 of an accumulator. *)
Theorem instruction_set_sound fuel s cache dsp :
  dsp_well_typed s dsp -> cache_ok cache ->
  (s = true -> narrow_inst (rd (pram dsp) (pc dsp)) = true) ->
  match @execute_instruction _ (c_peripheral fuel) cache dsp with
  | Ok (cache', d) => cache_ok cache' /\ dsp_well_typed s d /\
      save_cycles (opaque d) = save_cycles (opaque dsp) /\ 2 <= instr_cycle d <= 106
  | Fault f => allowed (dma_fault fuel) f
  end.
Proof.
  intros HT Hc Hn.
  pose proof (@execute_typed _ (c_peripheral fuel) _ _ (c_peripheral_typed _ fuel) s cache dsp HT Hc Hn) as Hx.
  destruct (@execute_instruction _ (c_peripheral fuel) cache dsp) as [[c d]|f]; [|exact Hx].
  destruct Hx as (Hc' & HT' & Hcy).
  assert (save_cycles (opaque d) = save_cycles (opaque dsp)) as Hs by apply (ty_opaque _ _ _ _ _ HT').
  split; [done|]. split; [|done]. unfold dsp_well_typed. by rewrite Hs.
Qed.

(** C11. A run ends and is sound.  Whatever program is in the memory of a well-typed DSP,
    [dsp_c_run] with the real instruction set returns, unless it stops at an assertion,
    an undefined shift or in the DMA engine: the state is well-typed, and the core is
    idle or the cycle budget is spent, overrun by less than the 106 cycles of the longest
    instruction.  The bound on the rounds is never what ends it: more rounds give the
    same result. *)
Theorem dsp_run_sound fuel cache dsp cycles k :
  dsp_well_typed false dsp -> cache_ok cache -> 0 <= cycles ->
  - 106 < save_cycles (opaque dsp) -> save_cycles (opaque dsp) + cycles < 2 ^ 31 ->
  let budget := save_cycles (opaque dsp) + cycles in
  (0 < budget -> dsp_run fuel cache dsp cycles =
     run_loop (@execute_instruction _ (c_peripheral fuel)) (Z.to_nat budget + k) cache
       (set_rest (fun r => r <| save_cycles ::= fun c => s32 (c + cycles) |>) dsp)) /\
  match dsp_run fuel cache dsp cycles with
  | Ok (cache', d) => cache_ok cache' /\ dsp_well_typed false d /\ run_stopped d
  | Fault f => allowed (dma_fault fuel) f
  end.
Proof.
  intros HT Hc Hcy Hlo Hhi budget. unfold dsp_run, dsp_c_run.
  assert (s32 (save_cycles (opaque dsp) + cycles) = budget) as H32 by (unfold s32; rewrite Z.mod_small; lia).
  set (d0 := set_rest _ dsp).
  assert (save_cycles (opaque d0) = budget) as Hs0 by exact H32.
  assert (dsp_well_typed false d0) as HT0.
  { unfold dsp_well_typed. rewrite Hs0, <- H32. exact (well_typed_counters _ _ _ dsp (fun c => c) HT). }
  clearbody d0. rewrite Hs0.
  destruct (run_loop_sound fuel (Z.to_nat budget) k cache d0) as [Hmore Hsafe]; [done|done|lia|lia|].
  destruct (Z.leb_spec budget 0).
  - split; [lia|]. split_and!; [done..|]. split; [lia|right; lia].
  - split; [by intros _|].
    destruct (run_loop _ (Z.to_nat budget) cache d0) as [[c d]|f]; exact Hsafe.
Qed.

Lemma memset_range n a : 0 <= rd (memset_CA n) a < 2 ^ 32.
Proof.
  unfold memset_CA. generalize (seq 0 (Z.to_nat n)). intros l. induction l as [|i l IH]; cbn [foldr].
  - rewrite rd_empty. lia.
  - destruct (Z.eq_dec (Z.of_nat i) a) as [->|Hne]; [rewrite rd_wr_eq; lia|by rewrite rd_wr_ne].
Qed.
Lemma reset_registers r : 0 <= r < 64 ->
  0 <= rd (foldr (fun i m => wr (DSP_REG_M0 + i) 0x00ffff m) (wr DSP_REG_OMR 0x02 ∅) [0; 1; 2; 3; 4; 5; 6; 7]) r
    < 2 ^ width false r.
Proof.
  intros Hr. cbn [foldr].
  repeat match goal with |- context [rd (wr ?i _ _) r] =>
    let E := fresh in destruct (Z.eq_dec i r) as [E|E]; [rewrite <- E, rd_wr_eq; by cbn|rewrite rd_wr_ne by done; clear E] end.
  rewrite rd_empty. pose proof (width_nonneg false r). split; [done|]. lia.
Qed.

Lemma ipl_range i : -1 <= rd (wr 0 3 (wr 1 3 (wr 2 3 (wr 3 3 ∅)))) i <= 3.
Proof.
  repeat match goal with |- context [rd (wr ?k _ _) i] =>
    destruct (Z.eq_dec k i) as [<-|]; [rewrite rd_wr_eq; lia|rewrite rd_wr_ne by done] end.
  rewrite rd_empty. lia.
Qed.

Lemma reset_well_typed c dsp : well_typed (rest_typed c) false dsp ->
  well_typed (rest_typed c) false (dsp56k_reset_cpu dsp).
Proof.
  assert (forall a, 0 <= rd ∅ a < 2 ^ 16) as Hz by (intros a; by rewrite rd_empty).
  intros []. constructor; try assumption; try done; [exact reset_registers|exact ipl_range].
Qed.
Lemma memories_well_typed c x y p dsp : well_typed (rest_typed c) false dsp ->
  (forall a, 0 <= rd x a < 2 ^ 32) -> (forall a, 0 <= rd y a < 2 ^ 32) -> (forall a, 0 <= rd p a < 2 ^ 32) ->
  well_typed (rest_typed c) false
    (dsp_c_invalidate_opcache (dsp <| pram := p |> <| xram := x |> <| yram := y |>)).
Proof.
  intros [] Hx Hy Hp. constructor; try assumption. intros a e. cbn. rewrite lookup_empty. discriminate.
Qed.

Lemma save_well_typed c c' s dsp : well_typed (rest_typed c) s dsp ->
  dsp_well_typed s (set_rest (fun r => r <| save_cycles := c' |>) dsp).
Proof. intros [? ? ? ? ? ? ? ? ? ? ? ? ? ? ? (H1 & H2 & _)]. by constructor. Qed.
Lemma c_reset_well_typed c dsp : well_typed (rest_typed c) false dsp -> dsp_well_typed false (dsp_c_reset dsp).
Proof. intros HT. exact (save_well_typed c 0 false _ (reset_well_typed c dsp HT)). Qed.

Lemma init_rest buf (g : G) gp : exists v,
  opaque (dsp_init buf g gp) = mkRest v (mkDSPDMAState 0 0 0 0 false false 0) 0 0 gp buf g.
Proof. eexists. reflexivity. Qed.

(** A fresh DSP is well typed. *)
Theorem dsp_init_well_typed buf g gp : dsp_well_typed false (dsp_init buf g gp).
Proof.
  apply (c_reset_well_typed 0), memories_well_typed; [|apply memset_range..].
  apply reset_well_typed. constructor; try done.
  intros r Hr. change (0 <= rd ∅ r < 2 ^ width false r). rewrite rd_empty. pose proof (width_nonneg false r). lia.
Qed.
End Shell.

(** ** Witnesses *)

Lemma spin_well_typed : dsp_well_typed true (spin 0 0 0 0).
Proof.
  constructor; try done.
  - intros r Hr. change (0 <= rd ∅ r < 2 ^ width true r). rewrite rd_empty. pose proof (width_nonneg true r). lia.
  - intros a e. change (({[ 0 := spin_entry ]} : gmap Z nat) !! a = Some e ->
      lookup_opcode_slow (rd ∅ a) = Ok e). rewrite rd_empty. intros [<- <-]%lookup_singleton_Some.
    vm_compute. reflexivity.
Qed.

Lemma instruction_set_sound_witness : exists cache d,
  @execute_instruction _ (c_peripheral 3) ∅ (spin 0 0 0 0) = Ok (cache, d) /\ dsp_well_typed true d /\ pc d = 1.
Proof.
  pose proof (instruction_set_sound 3 true ∅ (spin 0 0 0 0) spin_well_typed) as H.
  destruct (@execute_instruction _ (c_peripheral 3) ∅ (spin 0 0 0 0)) as [[c d]|f] eqn:E.
  - exists c, d. split; [done|]. split; [|vm_compute in E; by injection E as _ <-].
    apply H; [|done]. intros tag op e Ht. by rewrite lookup_empty in Ht.
  - vm_compute in E. discriminate E.
Defined.

Lemma dsp_run_sound_witness : match dsp_run 3 ∅ (dsp_init None (fun _ : Z => 0xff) true) 1000 with
  | Ok (cache, d) => dsp_well_typed false d /\ run_stopped d
  | Fault f => allowed (dma_fault (G := Z -> Z) 3) f
  end.
Proof.
  pose proof (dsp_run_sound 3 ∅ (dsp_init None (fun _ : Z => 0xff) true) 1000 0) as H.
  destruct (init_rest None (fun _ : Z => 0xff) true) as [v Hv]. rewrite Hv in H. cbn [save_cycles] in H.
  destruct H as [_ H]; [apply dsp_init_well_typed| |done..|].
  - intros tag op e Ht. by rewrite lookup_empty in Ht.
  - destruct (dsp_run _ _ _ _) as [[c d]|f]; [by destruct H as (_ & H)|done].
Defined.
