(* ===== verification/GpEp.v ===== *)
(** * The audio processor: DSP windows, scratch memory, FIFOs and interrupts
    (src/xemu/hw/xbox/mcpx/apu/dsp/gp_ep.c, gp_ep.h, apu.c, apu_int.h, apu_regs.h)

    The global processor (GP) and the encode processor (EP) are two DSPs that
    share the audio registers and the guest RAM.  Their scratch memories and
    FIFOs live in guest RAM behind page tables ([scatter_gather_rw]); the
    theorems show that this is flat byte memory, which is what the DMA engine
    of DspDma.v relies on.  Also modelled: the register windows of the two
    processors, their reset and boot, the audio frame, and the interrupt and
    register interface of apu.c.  Voice processing (vp/), the host audio output
    and the frame thread with its throttle are not modelled. *)

From Stdlib Require Import Ascii.
From S2P Require Import Prelude DspArith DspCore DspDecode DspDma DspShell.

Definition TARGET_PAGE_SIZE : Z := 4096.

Definition NV_PAPU_ISTS : Z := 0x1000.
Definition NV_PAPU_ISTS_GINTSTS : Z := bit 0.
Definition NV_PAPU_ISTS_FETINTSTS : Z := bit 4.
Definition NV_PAPU_IEN : Z := 0x1004.
Definition NV_PAPU_FECTL : Z := 0x1100.
Definition NV_PAPU_FECTL_FEMETHMODE : Z := 0xE0.
Definition NV_PAPU_FECTL_FEMETHMODE_HALTED : Z := 0x80.
Definition NV_PAPU_FECTL_FEMETHMODE_TRAPPED : Z := 0xE0.
Definition NV_PAPU_FEMEMADDR : Z := 0x1324.
Definition NV_PAPU_FEMEMDATA : Z := 0x1334.
Definition NV_PAPU_SECTL : Z := 0x2000.
Definition NV_PAPU_XGSCNT : Z := 0x200C.
Definition NV_PAPU_GPSADDR : Z := 0x2040.
Definition NV_PAPU_GPFADDR : Z := 0x2044.
Definition NV_PAPU_EPSADDR : Z := 0x2048.
Definition NV_PAPU_EPFADDR : Z := 0x204C.
Definition NV_PAPU_GPSMAXSGE : Z := 0x20D4.
Definition NV_PAPU_GPFMAXSGE : Z := 0x20D8.
Definition NV_PAPU_EPSMAXSGE : Z := 0x20DC.
Definition NV_PAPU_EPFMAXSGE : Z := 0x20E0.
Definition NV_PAPU_GPOFBASE0 : Z := 0x3024.
Definition NV_PAPU_GPOFEND0 : Z := 0x3028.
Definition NV_PAPU_GPOFCUR0 : Z := 0x302C.
Definition NV_PAPU_GPIFBASE0 : Z := 0x3064.
Definition NV_PAPU_GPIFEND0 : Z := 0x3068.
Definition NV_PAPU_GPIFCUR0 : Z := 0x306C.
Definition NV_PAPU_EPOFBASE0 : Z := 0x4024.
Definition NV_PAPU_EPOFEND0 : Z := 0x4028.
Definition NV_PAPU_EPOFCUR0 : Z := 0x402C.
Definition NV_PAPU_EPIFBASE0 : Z := 0x4064.
Definition NV_PAPU_EPIFEND0 : Z := 0x4068.
Definition NV_PAPU_EPIFCUR0 : Z := 0x406C.
Definition NV_PAPU_GPOFBASE0_VALUE : Z := 0x00FFFFFF.
Definition NV_PAPU_GPOFEND0_VALUE : Z := 0x00FFFFFF.
Definition NV_PAPU_GPOFCUR0_VALUE : Z := 0x00FFFFFF.
Definition NV_PAPU_GPXMEM : Z := 0.
Definition NV_PAPU_GPMIXBUF : Z := 0x5000.
Definition NV_PAPU_GPYMEM : Z := 0x6000.
Definition NV_PAPU_GPPMEM : Z := 0xA000.
Definition NV_PAPU_GPRST : Z := 0xFFFC.
Definition NV_PAPU_GPRST_GPRST : Z := bit 0.
Definition NV_PAPU_GPRST_GPDSPRST : Z := bit 1.
Definition NV_PAPU_EPXMEM : Z := 0.
Definition NV_PAPU_EPYMEM : Z := 0x6000.
Definition NV_PAPU_EPPMEM : Z := 0xA000.
Definition NV_PAPU_EPRST : Z := 0xFFFC.
Definition GP_DSP_MIXBUF_BASE : Z := 0x1400.
Definition GP_OUTPUT_FIFO_COUNT : Z := 4.
Definition GP_INPUT_FIFO_COUNT : Z := 2.
Definition EP_OUTPUT_FIFO_COUNT : Z := 4.
Definition EP_INPUT_FIFO_COUNT : Z := 2.
Definition NUM_SAMPLES_PER_FRAME : Z := 32.
Definition NUM_MIXBINS : Z := 32.

Inductive McpxApuDebugMonitorPoint :=
| MCPX_APU_DEBUG_MON_AC97
| MCPX_APU_DEBUG_MON_VP
| MCPX_APU_DEBUG_MON_GP
| MCPX_APU_DEBUG_MON_EP
| MCPX_APU_DEBUG_MON_GP_OR_EP.

#[export] Instance monitor_point_eq_dec : EqDecision McpxApuDebugMonitorPoint.
Proof. solve_decision. Defined.

(** What the DMA callbacks of both DSPs act on: RAM bytes, the audio registers
    and the monitor with its frame buffer of 0x400 bytes. *)
Record ApuShared := mkShared {
  ram : mem;
  ram_size : Z;
  apu_regs : mem;
  mon_point : McpxApuDebugMonitorPoint;
  frame_buf : list Z;
}.

#[export] Instance ApuShared_settable : Settable ApuShared :=
  settable! mkShared < ram ; ram_size ; apu_regs ; mon_point ; frame_buf >.

(** [ldl_le_phys] of an address outside RAM, and the bytes of [malloc]. *)
Class ApuHost := {
  other_ldl : Z -> Z;
  host_malloc : Z -> list Z;
}.

Section GpEp.
Context {host : ApuHost}.
Implicit Types d : ApuShared.

Definition ldl_le_phys d (addr : Z) : Z :=
  if addr + 4 <=? ram_size d then le_word (load_bytes (ram d) addr 4) else other_ldl addr.

(** ** Page tables *)

(** [ptr] is the rest of the buffer, its length is [len]. *)
Fixpoint sg_loop (fuel : nat) d (sge_base max_sge page_entry offset_in_page bytes_to_copy : Z)
    (ptr : list Z) (dir : bool) : result (ApuShared * list Z) :=
  match ptr with
  | [] => Ok (d, [])
  | _ :: _ =>
    match fuel with
    | O => Fault OutOfFuel
    | S fuel =>
      _ ← check (page_entry <=? max_sge) "page_entry <= max_sge";
      let prd_address := ldl_le_phys d (sge_base + u32 (page_entry * 8 + 0)) in
      let paddr := u32 (prd_address + offset_in_page) in
      let bytes_to_copy :=
        if Z.of_nat (length ptr) <? bytes_to_copy then Z.of_nat (length ptr) else bytes_to_copy in
      _ ← check (paddr + bytes_to_copy <? ram_size d)
            "paddr + bytes_to_copy < memory_region_size(d->ram)";
      let n := Z.to_nat bytes_to_copy in
      let d' := if dir then d <| ram := store_bytes (ram d) paddr (take n ptr) |> else d in
      let chunk := if dir then take n ptr else load_bytes (ram d) paddr n in
      '(d', rest) ← sg_loop fuel d' sge_base max_sge (u32 (page_entry + 1)) 0 TARGET_PAGE_SIZE
                      (drop n ptr) dir;
      Ok (d', chunk ++ rest)
    end
  end.

(** Every round copies at least one byte. *)
Definition scatter_gather_rw d (sge_base max_sge : Z) (ptr : list Z) (addr : Z) (dir : bool) :
    result (ApuShared * list Z) :=
  sg_loop (length ptr) d sge_base max_sge (addr / TARGET_PAGE_SIZE) (addr mod TARGET_PAGE_SIZE)
    (TARGET_PAGE_SIZE - addr mod TARGET_PAGE_SIZE) ptr dir.

Definition reg d (a : Z) : Z := rd (apu_regs d) a.

Definition gp_scratch_rw d (ptr : list Z) (addr : Z) (dir : bool) :=
  scatter_gather_rw d (reg d NV_PAPU_GPSADDR) (reg d NV_PAPU_GPSMAXSGE) ptr addr dir.
Definition ep_scratch_rw d (ptr : list Z) (addr : Z) (dir : bool) :=
  scatter_gather_rw d (reg d NV_PAPU_EPSADDR) (reg d NV_PAPU_EPSMAXSGE) ptr addr dir.

(** ** FIFOs *)

(** Returns [cur] too.  A round copies at least a byte, except a first one that
    starts at [end] and wraps. *)
Fixpoint csg_loop (fuel : nat) d (sge_base max_sge base fifo_end cur : Z) (ptr : list Z)
    (dir : bool) : result (ApuShared * list Z * Z) :=
  match ptr with
  | [] => Ok (d, [], cur)
  | _ :: _ =>
    match fuel with
    | O => Fault OutOfFuel
    | S fuel =>
      let bytes_to_copy := u32 (fifo_end - cur) in
      let bytes_to_copy :=
        if Z.of_nat (length ptr) <? bytes_to_copy then Z.of_nat (length ptr) else bytes_to_copy in
      _ ← check ((base <=? cur) && (u32 (cur + bytes_to_copy) <=? fifo_end))
            "(cur >= base) && ((cur + bytes_to_copy) <= end)";
      let n := Z.to_nat bytes_to_copy in
      '(d, chunk) ← scatter_gather_rw d sge_base max_sge (take n ptr) cur dir;
      let cur := u32 (cur + bytes_to_copy) in
      cur ← (if fifo_end <=? cur then _ ← check (cur =? fifo_end) "cur == end"; Ok base
             else Ok cur);
      '(d, rest, cur) ← csg_loop fuel d sge_base max_sge base fifo_end cur (drop n ptr) dir;
      Ok (d, chunk ++ rest, cur)
    end
  end.

Definition circular_scatter_gather_rw d (sge_base max_sge : Z) (ptr : list Z)
    (base fifo_end cur : Z) (dir : bool) : result (ApuShared * list Z * Z) :=
  csg_loop (S (length ptr)) d sge_base max_sge base fifo_end cur ptr dir.

Definition gp_fifo_rw d (ptr : list Z) (index : Z) (dir : bool) : result (ApuShared * list Z) :=
  _ ← check (index <? (if dir then GP_OUTPUT_FIFO_COUNT else GP_INPUT_FIFO_COUNT))
        "index < FIFO_COUNT";
  let base := GET_MASK (reg d ((if dir then NV_PAPU_GPOFBASE0 else NV_PAPU_GPIFBASE0)
                               + 0x10 * index)) NV_PAPU_GPOFBASE0_VALUE in
  let fifo_end := GET_MASK (reg d ((if dir then NV_PAPU_GPOFEND0 else NV_PAPU_GPIFEND0)
                                   + 0x10 * index)) NV_PAPU_GPOFEND0_VALUE in
  let cur_reg := (if dir then NV_PAPU_GPOFCUR0 else NV_PAPU_GPIFCUR0) + 0x10 * index in
  let cur := GET_MASK (reg d cur_reg) NV_PAPU_GPOFCUR0_VALUE in
  _ ← check (cur <? fifo_end) "cur < end";
  let cur := if cur <? base then base else cur in
  '(d, ptr, cur) ← circular_scatter_gather_rw d (reg d NV_PAPU_GPFADDR) (reg d NV_PAPU_GPFMAXSGE)
                     ptr base fifo_end cur dir;
  Ok (d <| apu_regs ::= fun m => wr cur_reg (SET_MASK (rd m cur_reg) NV_PAPU_GPOFCUR0_VALUE cur) m |>,
      ptr).

(** Whether the samples went to the monitor. *)
Definition ep_sink_samples d (ptr : list Z) : result (ApuShared * bool) :=
  if bool_decide (mon_point d = MCPX_APU_DEBUG_MON_AC97) then Ok (d, false)
  else if bool_decide (mon_point d = MCPX_APU_DEBUG_MON_EP) ||
          bool_decide (mon_point d = MCPX_APU_DEBUG_MON_GP_OR_EP) then
    _ ← check (Z.of_nat (length ptr) =? 0x400) "len == sizeof(d->monitor.frame_buf)";
    Ok (d <| frame_buf := ptr |>, true)
  else Ok (d, true).

Definition ep_silence : list Z := repeat 0 (Z.to_nat 0x400).

(** The samples written to output FIFO 0: silence when the monitor took them. *)
Definition ep_out_samples d (ptr : list Z) : result (ApuShared * list Z) :=
  '(d, did_sink) ← ep_sink_samples d ptr;
  if did_sink : bool then
    _ ← check (Z.of_nat (length ptr) <=? 0x400) "len <= sizeof(ep_silence)";
    Ok (d, take (length ptr) ep_silence)
  else Ok (d, ptr).

Definition ep_fifo_rw d (ptr : list Z) (index : Z) (dir : bool) : result (ApuShared * list Z) :=
  _ ← check (index <? (if dir then EP_OUTPUT_FIFO_COUNT else EP_INPUT_FIFO_COUNT))
        "index < FIFO_COUNT";
  let base := GET_MASK (reg d ((if dir then NV_PAPU_EPOFBASE0 else NV_PAPU_EPIFBASE0)
                               + 0x10 * index)) NV_PAPU_GPOFBASE0_VALUE in
  let fifo_end := GET_MASK (reg d ((if dir then NV_PAPU_EPOFEND0 else NV_PAPU_EPIFEND0)
                                   + 0x10 * index)) NV_PAPU_GPOFEND0_VALUE in
  let cur_reg := (if dir then NV_PAPU_EPOFCUR0 else NV_PAPU_EPIFCUR0) + 0x10 * index in
  let cur := GET_MASK (reg d cur_reg) NV_PAPU_GPOFCUR0_VALUE in
  '(d, data) ← (if dir && (index =? 0) then ep_out_samples d ptr else Ok (d, ptr));
  cur ← (if fifo_end <=? cur then
           if u32 (fifo_end - base) =? 0 then Fault DivByZero
           else Ok (cur mod u32 (fifo_end - base))
         else Ok cur);
  let cur := if cur <? base then base else cur in
  '(d, data, cur) ← circular_scatter_gather_rw d (reg d NV_PAPU_EPFADDR)
                      (reg d NV_PAPU_EPFMAXSGE) data base fifo_end cur dir;
  let d := d <| apu_regs ::= fun m =>
             wr cur_reg (SET_MASK (rd m cur_reg) NV_PAPU_GPOFCUR0_VALUE cur) m |> in
  Ok (d, if dir then ptr else data).

Definition gp_guest : DspGuest ApuShared := {|
  guest_scratch_rw := gp_scratch_rw;
  guest_fifo_rw := gp_fifo_rw;
  guest_malloc := host_malloc;
|}.
Definition ep_guest : DspGuest ApuShared := {|
  guest_scratch_rw := ep_scratch_rw;
  guest_fifo_rw := ep_fifo_rw;
  guest_malloc := host_malloc;
|}.

(** ** The audio processor *)

(** [scratch_static] is the static buffer of the DMA engine and [op_cache] the
    static opcode cache; both are shared by the two DSPs, like [shared]. *)
Record MCPXAPUState := mkApu {
  shared : ApuShared;
  irq_line : bool;
  gp_dsp : dsp_core (DSPRest ApuShared);
  gp_regs : mem;
  gp_realtime : bool;
  ep_dsp : dsp_core (DSPRest ApuShared);
  ep_regs : mem;
  ep_realtime : bool;
  ep_frame_div : Z;
  scratch_static : option (list Z);
  op_cache : opcache;
  gp_frame_count : Z;
}.

#[export] Instance MCPXAPUState_settable : Settable MCPXAPUState :=
  settable! mkApu < shared ; irq_line ; gp_dsp ; gp_regs ; gp_realtime ; ep_dsp ; ep_regs ;
    ep_realtime ; ep_frame_div ; scratch_static ; op_cache ; gp_frame_count >.

(** Both DSPs point at the shared state; it is put into the core that runs and
    taken out again. *)
Definition enter_dsp (s : MCPXAPUState) (dsp : dsp_core (DSPRest ApuShared)) :=
  set_rest (fun r => r <| guest := shared s |> <| static_buf := scratch_static s |>) dsp.
Definition leave_gp (s : MCPXAPUState) (dsp : dsp_core (DSPRest ApuShared)) : MCPXAPUState :=
  s <| gp_dsp := dsp |> <| shared := guest (opaque dsp) |>
    <| scratch_static := static_buf (opaque dsp) |>.
Definition leave_ep (s : MCPXAPUState) (dsp : dsp_core (DSPRest ApuShared)) : MCPXAPUState :=
  s <| ep_dsp := dsp |> <| shared := guest (opaque dsp) |>
    <| scratch_static := static_buf (opaque dsp) |>.

Definition apu_reg (s : MCPXAPUState) (a : Z) : Z := reg (shared s) a.
Definition set_apu_reg (a v : Z) (s : MCPXAPUState) : MCPXAPUState :=
  s <| shared ::= fun d => d <| apu_regs ::= wr a v |> |>.

(** ** Interrupts and registers *)

Definition update_irq (s : MCPXAPUState) : MCPXAPUState :=
  let s := if has (apu_reg s NV_PAPU_FECTL) NV_PAPU_FECTL_FEMETHMODE_TRAPPED
           then set_apu_reg NV_PAPU_ISTS (Z.lor (apu_reg s NV_PAPU_ISTS) NV_PAPU_ISTS_FETINTSTS) s
           else s in
  if has (apu_reg s NV_PAPU_IEN) NV_PAPU_ISTS_GINTSTS &&
     has (Z.ldiff (apu_reg s NV_PAPU_ISTS) NV_PAPU_ISTS_GINTSTS) (apu_reg s NV_PAPU_IEN)
  then set_apu_reg NV_PAPU_ISTS (Z.lor (apu_reg s NV_PAPU_ISTS) NV_PAPU_ISTS_GINTSTS) s
         <| irq_line := true |>
  else set_apu_reg NV_PAPU_ISTS (Z.ldiff (apu_reg s NV_PAPU_ISTS) NV_PAPU_ISTS_GINTSTS) s
         <| irq_line := false |>.

Definition mcpx_apu_read (s : MCPXAPUState) (addr : Z) : Z :=
  if addr =? NV_PAPU_XGSCNT then u64 (u64 (ep_frame_div s) * NUM_SAMPLES_PER_FRAME)
  else if addr <? 0x20000 then apu_reg s addr else 0.

(** A store to an address outside RAM goes to another device. *)
Definition stl_le_phys (addr val : Z) (d : ApuShared) : ApuShared :=
  if addr + 4 <=? ram_size d then d <| ram := store_bytes (ram d) addr (le_bytes 4 val) |> else d.

Definition mcpx_apu_write (s : MCPXAPUState) (addr val : Z) : MCPXAPUState :=
  if addr =? NV_PAPU_ISTS then
    update_irq (set_apu_reg NV_PAPU_ISTS (Z.ldiff (apu_reg s NV_PAPU_ISTS) val) s)
  else if (addr =? NV_PAPU_FECTL) || (addr =? NV_PAPU_SECTL) then set_apu_reg addr (u32 val) s
  else if addr =? NV_PAPU_FEMEMDATA then
    set_apu_reg addr (u32 val)
      (s <| shared ::= stl_le_phys (apu_reg s NV_PAPU_FEMEMADDR) (u32 val) |>)
  else if addr <? 0x20000 then set_apu_reg addr (u32 val) s else s.

(** ** The windows of the two processors *)

(** Reset while a reset bit is low, boot when both have just been raised. *)
Definition proc_rst_write (g : DspGuest ApuShared) (dsp : dsp_core (DSPRest ApuShared))
    (oldval val : Z) : result (dsp_core (DSPRest ApuShared)) :=
  if negb (has val NV_PAPU_GPRST_GPRST) || negb (has val NV_PAPU_GPRST_GPDSPRST) then
    Ok (dsp_c_reset dsp)
  else if (negb (has oldval NV_PAPU_GPRST_GPRST) || negb (has oldval NV_PAPU_GPRST_GPDSPRST)) &&
          (has val NV_PAPU_GPRST_GPRST && has val NV_PAPU_GPRST_GPDSPRST) then
    dsp_c_bootstrap dsp
  else Ok dsp.

(** The DSP space and address behind an address of a window. *)
Definition gp_window (addr : Z) : option (ascii * Z) :=
  if (NV_PAPU_GPXMEM <=? addr) && (addr <=? NV_PAPU_GPXMEM + 0x1000 * 4 - 1) then
    Some ("X"%char, (addr - NV_PAPU_GPXMEM) / 4)
  else if (NV_PAPU_GPMIXBUF <=? addr) && (addr <=? NV_PAPU_GPMIXBUF + 0x400 * 4 - 1) then
    Some ("X"%char, GP_DSP_MIXBUF_BASE + (addr - NV_PAPU_GPMIXBUF) / 4)
  else if (NV_PAPU_GPYMEM <=? addr) && (addr <=? NV_PAPU_GPYMEM + 0x800 * 4 - 1) then
    Some ("Y"%char, (addr - NV_PAPU_GPYMEM) / 4)
  else if (NV_PAPU_GPPMEM <=? addr) && (addr <=? NV_PAPU_GPPMEM + 0x1000 * 4 - 1) then
    Some ("P"%char, (addr - NV_PAPU_GPPMEM) / 4)
  else None.

Definition ep_window (addr : Z) : option (ascii * Z) :=
  if (NV_PAPU_EPXMEM <=? addr) && (addr <=? NV_PAPU_EPXMEM + 0xC00 * 4 - 1) then
    Some ("X"%char, (addr - NV_PAPU_EPXMEM) / 4)
  else if (NV_PAPU_EPYMEM <=? addr) && (addr <=? NV_PAPU_EPYMEM + 0x100 * 4 - 1) then
    Some ("Y"%char, (addr - NV_PAPU_EPYMEM) / 4)
  else if (NV_PAPU_EPPMEM <=? addr) && (addr <=? NV_PAPU_EPPMEM + 0x1000 * 4 - 1) then
    Some ("P"%char, (addr - NV_PAPU_EPPMEM) / 4)
  else None.

(** [fuel] bounds the DMA descriptors of a peripheral write. *)
Definition gp_read (fuel : nat) (s : MCPXAPUState) (addr size : Z) : result (MCPXAPUState * Z) :=
  _ ← check (size =? 4) "size == 4";
  _ ← check (addr mod 4 =? 0) "addr % 4 == 0";
  match gp_window addr with
  | Some (space, a) =>
      '(dsp, r) ← @dsp_c_read_memory _ gp_guest fuel (enter_dsp s (gp_dsp s)) space a;
      Ok (leave_gp s dsp, r)
  | None => Ok (s, rd (gp_regs s) addr)
  end.

Definition gp_write (fuel : nat) (s : MCPXAPUState) (addr val size : Z) : result MCPXAPUState :=
  _ ← check (size =? 4) "size == 4";
  _ ← check (addr mod 4 =? 0) "addr % 4 == 0";
  match gp_window addr with
  | Some (space, a) =>
      dsp ← @dsp_c_write_memory _ gp_guest fuel (enter_dsp s (gp_dsp s)) space a (u32 val);
      Ok (leave_gp s dsp)
  | None =>
      if addr =? NV_PAPU_GPRST then
        dsp ← @proc_rst_write gp_guest (enter_dsp s (gp_dsp s)) (rd (gp_regs s) NV_PAPU_GPRST)
                (u32 val);
        Ok (leave_gp s dsp <| gp_regs ::= wr NV_PAPU_GPRST (u32 val) |>)
      else Ok (s <| gp_regs ::= wr addr (u32 val) |>)
  end.

Definition ep_read (fuel : nat) (s : MCPXAPUState) (addr size : Z) : result (MCPXAPUState * Z) :=
  _ ← check (size =? 4) "size == 4";
  _ ← check (addr mod 4 =? 0) "addr % 4 == 0";
  match ep_window addr with
  | Some (space, a) =>
      '(dsp, r) ← @dsp_c_read_memory _ ep_guest fuel (enter_dsp s (ep_dsp s)) space a;
      Ok (leave_ep s dsp, r)
  | None => Ok (s, rd (ep_regs s) addr)
  end.

Definition ep_write (fuel : nat) (s : MCPXAPUState) (addr val size : Z) : result MCPXAPUState :=
  _ ← check (size =? 4) "size == 4";
  _ ← check (addr mod 4 =? 0) "addr % 4 == 0";
  match ep_window addr with
  | Some (space, a) =>
      dsp ← @dsp_c_write_memory _ ep_guest fuel (enter_dsp s (ep_dsp s)) space a (u32 val);
      Ok (leave_ep s dsp)
  | None =>
      if addr =? NV_PAPU_EPRST then
        dsp ← @proc_rst_write ep_guest (enter_dsp s (ep_dsp s)) (rd (ep_regs s) NV_PAPU_EPRST)
                (u32 val);
        Ok (leave_ep s dsp <| ep_regs ::= wr NV_PAPU_EPRST (u32 val) |> <| ep_frame_div := 0 |>)
      else Ok (s <| ep_regs ::= wr addr (u32 val) |>)
  end.

(** ** The audio frame *)

Section Frame.
Variables gp_execute ep_execute :
  opcache -> dsp_core (DSPRest ApuShared) -> result (opcache * dsp_core (DSPRest ApuShared)).

(** [do dsp_run(dsp, 1000) while (!halt_requested && realtime)]: a program that
    never halts never leaves the loop, [rounds] bounds the calls. *)
Fixpoint run_until_halt (rounds : nat)
    (execute : opcache -> dsp_core (DSPRest ApuShared) -> result (opcache * dsp_core (DSPRest ApuShared)))
    (realtime : bool) (cache : opcache) (dsp : dsp_core (DSPRest ApuShared)) :
    result (opcache * dsp_core (DSPRest ApuShared)) :=
  '(cache, dsp) ← dsp_c_run execute cache dsp 1000;
  if negb (dsp_c_get_halt_requested dsp) && realtime then
    match rounds with
    | O => Fault OutOfFuel
    | S rounds => run_until_halt rounds execute realtime cache dsp
    end
  else Ok (cache, dsp).

Definition start_run (rounds : nat)
    (execute : opcache -> dsp_core (DSPRest ApuShared) -> result (opcache * dsp_core (DSPRest ApuShared)))
    (realtime : bool) (count : Z) (cache : opcache) (dsp : dsp_core (DSPRest ApuShared)) :
    result (Z * opcache * dsp_core (DSPRest ApuShared)) :=
  let '(count, dsp) := dsp_start_frame count dsp in
  let dsp := dsp_c_set_cycle_count (dsp_c_set_halt_requested dsp false) 0 in
  '(cache, dsp) ← run_until_halt rounds execute realtime cache dsp;
  Ok (count, cache, dsp).

(** The voice processor's output [mixbins], as 24-bit words, into the mix buffer. *)
Definition write_mixbins (fuel : nat) (mixbins : Z -> Z -> Z) (dsp : dsp_core (DSPRest ApuShared)) :
    result (dsp_core (DSPRest ApuShared)) :=
  for_loop (Z.to_nat NUM_MIXBINS) 0 (fun mixbin dsp =>
    for_loop (Z.to_nat NUM_SAMPLES_PER_FRAME) 0 (fun sample dsp =>
      @dsp_c_write_memory _ gp_guest fuel dsp "X"%char
        (GP_DSP_MIXBUF_BASE + mixbin * NUM_SAMPLES_PER_FRAME + sample) (mixbins mixbin sample)) dsp) dsp.

(** The GP's output into the frame buffer of the monitor. *)
Definition monitor_gp (fuel : nat) (s : MCPXAPUState) : result MCPXAPUState :=
  let off := Z.rem (ep_frame_div s) 8 * NUM_SAMPLES_PER_FRAME in
  for_loop (Z.to_nat NUM_SAMPLES_PER_FRAME) 0 (fun i s =>
    '(dsp, l) ← @dsp_c_read_memory _ gp_guest fuel (enter_dsp s (gp_dsp s)) "X"%char (0x1400 + i);
    buf ← blit (frame_buf (shared s)) (4 * (off + i)) (le_bytes 2 (Z.shiftr l 8));
    '(dsp, r) ← @dsp_c_read_memory _ gp_guest fuel dsp "X"%char (0x1400 + 1 * 0x20 + i);
    buf ← blit buf (4 * (off + i) + 2) (le_bytes 2 (Z.shiftr r 8));
    Ok (leave_gp s dsp <| shared ::= fun d => d <| frame_buf := buf |> |>)) s.

Definition released (regs : mem) (r : Z) : bool :=
  has (rd regs r) NV_PAPU_GPRST_GPRST && has (rd regs r) NV_PAPU_GPRST_GPDSPRST.

Definition mcpx_apu_dsp_frame (fuel rounds : nat) (s : MCPXAPUState) (mixbins : Z -> Z -> Z) :
    result MCPXAPUState :=
  dsp ← write_mixbins fuel mixbins (enter_dsp s (gp_dsp s));
  let s := leave_gp s dsp in
  let ep_enabled := released (ep_regs s) NV_PAPU_EPRST in
  s ← (if released (gp_regs s) NV_PAPU_GPRST then
         '(count, cache, dsp) ← start_run rounds gp_execute (gp_realtime s) (gp_frame_count s)
                                  (op_cache s) (enter_dsp s (gp_dsp s));
         let s := leave_gp s dsp <| gp_frame_count := count |> <| op_cache := cache |> in
         if bool_decide (mon_point (shared s) = MCPX_APU_DEBUG_MON_GP) ||
            (bool_decide (mon_point (shared s) = MCPX_APU_DEBUG_MON_GP_OR_EP) && negb ep_enabled)
         then monitor_gp fuel s else Ok s
       else Ok s);
  if released (ep_regs s) NV_PAPU_EPRST && (Z.rem (ep_frame_div s) 8 =? 0) then
    '(count, cache, dsp) ← start_run rounds ep_execute (ep_realtime s) (gp_frame_count s)
                             (op_cache s) (enter_dsp s (ep_dsp s));
    Ok (leave_ep s dsp <| gp_frame_count := count |> <| op_cache := cache |>)
  else Ok s.
End Frame.

(** ** Scatter-gather memory is flat memory *)

Section Pages.
Variables sge_base max_sge : Z.

(** The page a table entry points to, and the RAM byte behind a flat address. *)
Definition prd d (e : Z) : Z := ldl_le_phys d (sge_base + e * 8).
Definition phys d (x : Z) : Z := prd d (x / TARGET_PAGE_SIZE) + x mod TARGET_PAGE_SIZE.

(** The table lies in RAM, its pages lie in RAM, overlap neither each other nor
    the table. *)
Record table_ok d : Prop := {
  table_base : 0 <= sge_base;
  table_max : 0 <= max_sge < 2 ^ 20;
  table_in_ram : sge_base + 8 * (max_sge + 1) <= ram_size d <= 2 ^ 32;
  page_in_ram e : 0 <= e <= max_sge -> 0 <= prd d e /\ prd d e + TARGET_PAGE_SIZE < ram_size d;
  pages_disjoint e e' : 0 <= e <= max_sge -> 0 <= e' <= max_sge -> e <> e' ->
    prd d e + TARGET_PAGE_SIZE <= prd d e' \/ prd d e' + TARGET_PAGE_SIZE <= prd d e;
  page_off_table e : 0 <= e <= max_sge ->
    prd d e + TARGET_PAGE_SIZE <= sge_base \/ sge_base + 8 * (max_sge + 1) <= prd d e;
}.

Definition sg_mapped d (a n : Z) : Prop :=
  table_ok d /\ 0 <= a /\ 0 <= n /\ a + n <= TARGET_PAGE_SIZE * (max_sge + 1).

Definition sg_byte d (x : Z) : Z := rd (ram d) (phys d x).

(** [d'] is [d] after stores into pages. *)
Definition pages_stored d d' : Prop :=
  (forall e, 0 <= e <= max_sge -> prd d' e = prd d e) /\ ram_size d' = ram_size d /\
  apu_regs d' = apu_regs d.

Lemma table_ok_stored d d' : pages_stored d d' -> table_ok d -> table_ok d'.
Proof.
  intros (Hp & Hr & _) [H1 H2 H3 H4 H5 H6].
  split; rewrite ?Hr; auto; intros e; intros; rewrite !Hp by done; auto.
Qed.

Lemma phys_stored d d' x : pages_stored d d' -> 0 <= x < TARGET_PAGE_SIZE * (max_sge + 1) ->
  phys d' x = phys d x.
Proof.
  intros (Hp & _) Hx. unfold phys. rewrite Hp; [done|]. unfold TARGET_PAGE_SIZE in *.
  split; [apply Z.div_pos; lia|]. assert (x / 4096 < max_sge + 1); [|lia].
  apply Z.div_lt_upper_bound; lia.
Qed.

(** A store inside one page. *)
Lemma store_in_page d p o l :
  table_ok d -> 0 <= p <= max_sge -> 0 <= o -> o + Z.of_nat (length l) <= TARGET_PAGE_SIZE ->
  let d' := d <| ram := store_bytes (ram d) (prd d p + o) l |> in
  pages_stored d d' /\
  forall y, 0 <= y < TARGET_PAGE_SIZE * (max_sge + 1) -> sg_byte d' y =
    if (TARGET_PAGE_SIZE * p + o <=? y) && (y <? TARGET_PAGE_SIZE * p + o + Z.of_nat (length l))
    then byte l (y - (TARGET_PAGE_SIZE * p + o)) else sg_byte d y.
Proof.
  intros Ht Hp Ho Hl d'.
  assert (pages_stored d d') as Hst.
  { split; [|done]. intros e He. unfold prd, ldl_le_phys. subst d'. cbn [ram ram_size setf].
    destruct (_ <=? _); [|done]. f_equal. apply byte_ext; [by rewrite !length_load_bytes|].
    intros i Hi. rewrite length_load_bytes in Hi. rewrite !byte_load_bytes, rd_store_bytes by lia.
    pose proof (page_off_table d Ht p Hp). unfold TARGET_PAGE_SIZE in *.
    destruct (Z.leb_spec (prd d p + o) (sge_base + e * 8 + i)),
      (Z.ltb_spec (sge_base + e * 8 + i) (prd d p + o + Z.of_nat (length l))); cbn [andb]; try done; lia. }
  split; [done|]. intros y Hy. unfold sg_byte. rewrite (phys_stored d d') by done.
  subst d'. cbn [ram setf]. rewrite rd_store_bytes. unfold phys.
  assert (0 <= y / TARGET_PAGE_SIZE <= max_sge) as Hq.
  { unfold TARGET_PAGE_SIZE in *. split; [apply Z.div_pos; lia|].
    assert (y / 4096 < max_sge + 1); [apply Z.div_lt_upper_bound; lia|lia]. }
  pose proof (Z.div_mod y TARGET_PAGE_SIZE ltac:(done)) as Hdm.
  pose proof (Z.mod_pos_bound y TARGET_PAGE_SIZE ltac:(done)) as Hm.
  set (q := y / TARGET_PAGE_SIZE) in *. set (r := y mod TARGET_PAGE_SIZE) in *.
  destruct (Z.eq_dec q p) as [->|Hne].
  - destruct (Z.leb_spec (prd d p + o) (prd d p + r)), (Z.leb_spec (TARGET_PAGE_SIZE * p + o) y),
      (Z.ltb_spec (prd d p + r) (prd d p + o + Z.of_nat (length l))),
      (Z.ltb_spec y (TARGET_PAGE_SIZE * p + o + Z.of_nat (length l))); try lia; try done.
    cbn [andb]. f_equal. lia.
  - destruct (pages_disjoint d Ht q p Hq Hp Hne) as [Hd|Hd];
      destruct (Z.leb_spec (prd d p + o) (prd d q + r)),
        (Z.ltb_spec (prd d q + r) (prd d p + o + Z.of_nat (length l))); cbn [andb]; try lia;
      destruct (Z.leb_spec (TARGET_PAGE_SIZE * p + o) y),
        (Z.ltb_spec y (TARGET_PAGE_SIZE * p + o + Z.of_nat (length l))); cbn [andb]; try done;
      unfold TARGET_PAGE_SIZE in *; nia.
Qed.

(** One round of the loop at address [x] of a mapped range: the next address is
    the end of the range or the start of the next page. *)
Lemma sg_step d (fuel : nat) (x : Z) (ptr : list Z) (dir : bool) :
  sg_mapped d x (Z.of_nat (length ptr)) -> ptr <> [] ->
  let n := Z.to_nat (Z.min (Z.of_nat (length ptr)) (TARGET_PAGE_SIZE - x mod TARGET_PAGE_SIZE)) in
  let x' := x + Z.of_nat n in
  let d' := if dir then d <| ram := store_bytes (ram d) (phys d x) (take n ptr) |> else d in
  let chunk := if dir then take n ptr else load_bytes (ram d) (phys d x) n in
  (0 < n <= length ptr)%nat /\
  sg_loop (S fuel) d sge_base max_sge (x / TARGET_PAGE_SIZE) (x mod TARGET_PAGE_SIZE)
    (TARGET_PAGE_SIZE - x mod TARGET_PAGE_SIZE) ptr dir =
  match sg_loop fuel d' sge_base max_sge (x' / TARGET_PAGE_SIZE) (x' mod TARGET_PAGE_SIZE)
          (TARGET_PAGE_SIZE - x' mod TARGET_PAGE_SIZE) (drop n ptr) dir with
  | Ok (d'', rest) => Ok (d'', chunk ++ rest)
  | Fault f => Fault f
  end.
Proof.
  intros (Ht & Hx & _ & Hend) Hne n x' d' chunk.
  pose proof (Z.div_mod x TARGET_PAGE_SIZE ltac:(done)) as Hdm.
  pose proof (Z.mod_pos_bound x TARGET_PAGE_SIZE ltac:(done)) as Hm.
  assert (0 < Z.of_nat (length ptr)) as Hlen by (destruct ptr; [done|cbn [length]; lia]).
  assert (Z.of_nat n = Z.min (Z.of_nat (length ptr)) (TARGET_PAGE_SIZE - x mod TARGET_PAGE_SIZE)) as Hn
    by (subst n; rewrite Z2Nat.id by (unfold TARGET_PAGE_SIZE in *; lia); done).
  split; [unfold TARGET_PAGE_SIZE in *; lia|].
  set (p := x / TARGET_PAGE_SIZE) in *. set (o := x mod TARGET_PAGE_SIZE) in *.
  assert (0 <= p <= max_sge) as Hp by (unfold TARGET_PAGE_SIZE in *; lia).
  pose proof (table_max d Ht). pose proof (page_in_ram d Ht p Hp) as Hpage.
  pose proof (table_in_ram d Ht) as Hram.
  assert (forall m, sg_loop fuel m sge_base max_sge (u32 (p + 1)) 0 TARGET_PAGE_SIZE (drop n ptr) dir =
    sg_loop fuel m sge_base max_sge (x' / TARGET_PAGE_SIZE) (x' mod TARGET_PAGE_SIZE)
      (TARGET_PAGE_SIZE - x' mod TARGET_PAGE_SIZE) (drop n ptr) dir) as Hnext.
  { intros m. destruct (decide (n = length ptr)) as [Heq|Hlt].
    - rewrite drop_ge by lia. by destruct fuel.
    - replace x' with (0 + (p + 1) * TARGET_PAGE_SIZE)
        by (subst x'; unfold TARGET_PAGE_SIZE in *; lia).
      rewrite Z.div_add, Z.mod_add, u32_id by (unfold is_u32; lia || done). done. }
  destruct ptr as [|b ptr]; [done|]. cbn [sg_loop]. set (l := b :: ptr) in *.
  rewrite (proj2 (Z.leb_le p max_sge)) by lia. cbn [check mbind result_mbind result_bind].
  rewrite (u32_id (p * 8 + 0)) by (unfold is_u32; lia). rewrite Z.add_0_r. fold (prd d p).
  rewrite (u32_id (prd d p + o)) by (unfold is_u32, TARGET_PAGE_SIZE in *; lia).
  change (prd d p + o) with (phys d x).
  assert ((if Z.of_nat (length l) <? TARGET_PAGE_SIZE - o then Z.of_nat (length l)
           else TARGET_PAGE_SIZE - o) = Z.of_nat n) as ->
    by (rewrite Hn; destruct (Z.ltb_spec (Z.of_nat (length l)) (TARGET_PAGE_SIZE - o)); lia).
  rewrite (proj2 (Z.ltb_lt _ _)) by (unfold phys; fold p o; unfold TARGET_PAGE_SIZE in *; lia).
  cbn [check mbind result_mbind result_bind]. rewrite Nat2Z.id. fold d' chunk. by rewrite Hnext.
Qed.

Lemma sg_write fuel : forall d x ptr,
  sg_mapped d x (Z.of_nat (length ptr)) -> (length ptr <= fuel)%nat ->
  exists d', sg_loop fuel d sge_base max_sge (x / TARGET_PAGE_SIZE) (x mod TARGET_PAGE_SIZE)
    (TARGET_PAGE_SIZE - x mod TARGET_PAGE_SIZE) ptr true = Ok (d', ptr) /\ pages_stored d d' /\
    forall y, 0 <= y < TARGET_PAGE_SIZE * (max_sge + 1) -> sg_byte d' y =
      if (x <=? y) && (y <? x + Z.of_nat (length ptr)) then byte ptr (y - x) else sg_byte d y.
Proof.
  induction fuel as [|fuel IH]; intros d x ptr Hm Hf.
  { destruct ptr; [|cbn in Hf; lia]. exists d. split_and!; try done. intros y _.
    destruct (Z.leb_spec x y), (Z.ltb_spec y (x + Z.of_nat (length (@nil Z)))); try done. cbn in *; lia. }
  destruct (decide (ptr = [])) as [->|Hne].
  { exists d. split_and!; try done. intros y _.
    destruct (Z.leb_spec x y), (Z.ltb_spec y (x + Z.of_nat (length (@nil Z)))); try done. cbn in *; lia. }
  destruct (sg_step d fuel x ptr true Hm Hne) as [Hn ->].
  set (n := Z.to_nat _) in *.
  destruct Hm as (Ht & Hx & Hl & Hend).
  pose proof (Z.div_mod x TARGET_PAGE_SIZE ltac:(done)) as Hdm.
  pose proof (Z.mod_pos_bound x TARGET_PAGE_SIZE ltac:(done)) as Hmod.
  assert (length (take n ptr) = n) as Hlt by (rewrite length_take_le; lia).
  destruct (store_in_page d (x / TARGET_PAGE_SIZE) (x mod TARGET_PAGE_SIZE) (take n ptr))
    as [Hst Hby]; [done|unfold TARGET_PAGE_SIZE in *; lia|lia|rewrite Hlt; unfold TARGET_PAGE_SIZE in *; lia|].
  cbv beta zeta in Hst, Hby. fold (phys d x) in Hst, Hby. rewrite <- Hdm, Hlt in Hby.
  set (d1 := d <| ram := _ |>) in *.
  destruct (IH d1 (x + Z.of_nat n) (drop n ptr)) as (d' & -> & Hst' & Hby').
  { rewrite length_drop. split_and!; [by apply (table_ok_stored d)|lia..]. }
  { rewrite length_drop. lia. }
  exists d'. rewrite take_drop. split; [done|]. split.
  { destruct Hst as (Hp & ? & ?), Hst' as (Hp' & ? & ?). split; [|split; congruence].
    intros e He. by rewrite Hp', Hp. }
  intros y Hy. rewrite Hby', Hby, length_drop by done.
  destruct (Z.leb_spec (x + Z.of_nat n) y), (Z.leb_spec x y), (Z.ltb_spec y (x + Z.of_nat n)),
    (Z.ltb_spec y (x + Z.of_nat n + Z.of_nat (length ptr - n))),
    (Z.ltb_spec y (x + Z.of_nat (length ptr))); cbn [andb]; try lia; try done; unfold byte.
  - rewrite !nth_lookup, lookup_drop. do 2 f_equal. lia.
  - rewrite !nth_lookup, lookup_take_lt by lia. done.
Qed.

Lemma sg_read fuel : forall d x ptr,
  sg_mapped d x (Z.of_nat (length ptr)) -> (length ptr <= fuel)%nat ->
  exists l, sg_loop fuel d sge_base max_sge (x / TARGET_PAGE_SIZE) (x mod TARGET_PAGE_SIZE)
    (TARGET_PAGE_SIZE - x mod TARGET_PAGE_SIZE) ptr false = Ok (d, l) /\ length l = length ptr /\
    forall i, 0 <= i < Z.of_nat (length ptr) -> byte l i = sg_byte d (x + i).
Proof.
  induction fuel as [|fuel IH]; intros d x ptr Hm Hf.
  { destruct ptr; [|cbn in Hf; lia]. exists []. split_and!; try done. cbn. lia. }
  destruct (decide (ptr = [])) as [->|Hne].
  { exists []. split_and!; try done. cbn. lia. }
  destruct (sg_step d fuel x ptr false Hm Hne) as [Hn ->].
  set (n := Z.to_nat _) in *.
  destruct Hm as (Ht & Hx & Hl & Hend).
  destruct (IH d (x + Z.of_nat n) (drop n ptr)) as (l & -> & Hll & Hby).
  { rewrite length_drop. split_and!; [done|lia..]. }
  { rewrite length_drop. lia. }
  rewrite length_drop in Hll, Hby.
  exists (load_bytes (ram d) (phys d x) n ++ l). split; [done|]. split.
  { rewrite length_app, length_load_bytes. lia. }
  intros i Hi. destruct (Z.lt_ge_cases i (Z.of_nat n)) as [Hlt|Hge].
  - unfold byte. rewrite app_nth1 by (rewrite length_load_bytes; lia).
    change (nth (Z.to_nat i) ?l 0) with (byte l i). rewrite byte_load_bytes by lia.
    unfold sg_byte. f_equal. unfold phys.
    pose proof (Z.div_mod x TARGET_PAGE_SIZE ltac:(done)) as Hdm.
    pose proof (Z.mod_pos_bound x TARGET_PAGE_SIZE ltac:(done)) as Hmod.
    replace (x + i) with (x mod TARGET_PAGE_SIZE + i + x / TARGET_PAGE_SIZE * TARGET_PAGE_SIZE) by lia.
    rewrite Z.div_add, Z.mod_add by done.
    rewrite (Z.div_small (x mod TARGET_PAGE_SIZE + i)), (Z.mod_small (x mod TARGET_PAGE_SIZE + i))
      by (unfold TARGET_PAGE_SIZE in *; lia). rewrite Z.add_0_l. lia.
  - unfold byte. rewrite app_nth2 by (rewrite length_load_bytes; lia). rewrite length_load_bytes.
    specialize (Hby (i - Z.of_nat n) ltac:(lia)). unfold byte in Hby.
    replace (Z.to_nat (i - Z.of_nat n)) with (Z.to_nat i - n)%nat in Hby by lia.
    rewrite Hby. f_equal. lia.
Qed.

Lemma sg_mapped_sub d a n o k : sg_mapped d a n -> 0 <= o -> 0 <= k -> o + k <= n ->
  sg_mapped d (a + o) k.
Proof. intros (? & ? & ? & ?) ? ? ?. split_and!; [done|lia..]. Qed.

Lemma sg_mapped_stored d d' a n : pages_stored d d' -> sg_mapped d a n -> sg_mapped d' a n.
Proof. intros Hs (Ht & ?). split; [by apply (table_ok_stored d)|done]. Qed.

(** One round of [csg_loop] at [cur] of the ring from [base] to [fin]. *)
Lemma csg_step fuel base fin d cur (ptr : list Z) :
  0 <= base < fin -> fin < 2 ^ 32 -> base <= cur < fin -> ptr <> [] ->
  sg_mapped d base (fin - base) ->
  let k := Z.min (Z.of_nat (length ptr)) (fin - cur) in
  let cur1 := base + (cur - base + k) mod (fin - base) in
  exists d1, pages_stored d d1 /\
    (forall y, 0 <= y < TARGET_PAGE_SIZE * (max_sge + 1) -> sg_byte d1 y =
       if (cur <=? y) && (y <? cur + k) then byte ptr (y - cur) else sg_byte d y) /\
    csg_loop (S fuel) d sge_base max_sge base fin cur ptr true =
    match csg_loop fuel d1 sge_base max_sge base fin cur1 (drop (Z.to_nat k) ptr) true with
    | Ok (d2, rest, c) => Ok (d2, take (Z.to_nat k) ptr ++ rest, c)
    | Fault f => Fault f
    end.
Proof.
  intros Hb Hf Hc Hne Hm k cur1.
  assert (0 < Z.of_nat (length ptr)) as Hlen by (destruct ptr; [done|cbn [length]; lia]).
  assert (0 < k <= Z.of_nat (length ptr)) as Hk by lia.
  assert (length (take (Z.to_nat k) ptr) = Z.to_nat k) as Hlt by (rewrite length_take_le; lia).
  destruct (sg_write (length (take (Z.to_nat k) ptr)) d cur (take (Z.to_nat k) ptr))
    as (d1 & Hrun & Hst1 & Hby1); [|lia|].
  { rewrite Hlt, Z2Nat.id by lia. replace cur with (base + (cur - base)) by lia.
    apply (sg_mapped_sub d base (fin - base)); [done|lia..]. }
  rewrite Hlt, Z2Nat.id in Hby1 by lia.
  exists d1. split; [done|]. split.
  { intros y Hy. rewrite Hby1 by done. destruct (_ && _) eqn:Hin; [|done].
    rewrite andb_true_iff, Z.leb_le, Z.ltb_lt in Hin. unfold byte.
    by rewrite !nth_lookup, lookup_take_lt by lia. }
  destruct ptr as [|b0 ptr0]; [done|]. cbn [csg_loop]. set (ptr := b0 :: ptr0) in *.
  rewrite (u32_id (fin - cur)) by (unfold is_u32; lia).
  assert ((if Z.of_nat (length ptr) <? fin - cur then Z.of_nat (length ptr) else fin - cur) = k) as ->
    by (subst k; destruct (Z.ltb_spec (Z.of_nat (length ptr)) (fin - cur)); lia).
  rewrite (u32_id (cur + k)) by (unfold is_u32; lia).
  rewrite (proj2 (Z.leb_le base cur)), (proj2 (Z.leb_le (cur + k) fin)) by lia.
  cbn [andb check mbind result_mbind result_bind]. unfold scatter_gather_rw. rewrite Hrun.
  cbn [mbind result_mbind result_bind].
  assert ((if fin <=? cur + k then (_ ← check (cur + k =? fin) "cur == end"; Ok base) else Ok (cur + k))
    = Ok cur1) as ->; [|done].
  subst cur1. destruct (Z.leb_spec fin (cur + k)).
  - replace (cur + k) with fin by lia. rewrite Z.eqb_refl. cbn.
    replace (cur - base + k) with (fin - base) by lia. rewrite Z.mod_same by lia. f_equal. lia.
  - rewrite Z.mod_small by lia. f_equal. lia.
Qed.

(** The ring of a FIFO: [csg_loop] writes at [cur] and wraps from [fin] to [base]. *)
Lemma csg_write fuel base fin : forall d cur ptr,
  0 <= base < fin -> fin < 2 ^ 32 -> base <= cur < fin ->
  Z.of_nat (length ptr) <= fin - base -> (length ptr <= fuel)%nat ->
  sg_mapped d base (fin - base) ->
  exists d', csg_loop fuel d sge_base max_sge base fin cur ptr true =
      Ok (d', ptr, base + (cur - base + Z.of_nat (length ptr)) mod (fin - base)) /\
    pages_stored d d' /\
    forall j, 0 <= j < fin - base -> sg_byte d' (base + j) =
      if (j - (cur - base)) mod (fin - base) <? Z.of_nat (length ptr)
      then byte ptr ((j - (cur - base)) mod (fin - base)) else sg_byte d (base + j).
Proof.
  induction fuel as [|fuel IH]; intros d cur ptr Hb Hf Hc Hl Hfu Hm;
    (destruct (decide (ptr = [])) as [->|Hne]).
  1,3: exists d; cbn [csg_loop length]; rewrite Z.add_0_r, Z.mod_small by lia;
    replace (base + (cur - base)) with cur by lia; split_and!; try done; intros j _;
    pose proof (Z.mod_pos_bound (j - (cur - base)) (fin - base));
    destruct (Z.ltb_spec ((j - (cur - base)) mod (fin - base)) (Z.of_nat 0)); try done; lia.
  { destruct ptr; [done|]. cbn in Hfu. lia. }
  destruct (csg_step fuel base fin d cur ptr) as (d1 & Hst1 & Hby1 & ->); try done.
  assert (0 < Z.of_nat (length ptr)) as Hlen by (destruct ptr; [done|cbn [length]; lia]).
  set (size := fin - base) in *. set (k := Z.min _ _) in *.
  set (cur1 := base + (cur - base + k) mod size).
  assert (base <= cur1 < fin) as Hc1
    by (subst cur1; pose proof (Z.mod_pos_bound (cur - base + k) size ltac:(lia)); lia).
  destruct (IH d1 cur1 (drop (Z.to_nat k) ptr)) as (d' & -> & Hst & Hby);
    [done|done|done|rewrite length_drop; lia|rewrite length_drop; lia|by apply (sg_mapped_stored d)|].
  rewrite take_drop, length_drop in *. replace (cur1 - base) with ((cur - base + k) mod size) in *
    by (subst cur1; lia).
  exists d'. split; [|split].
  - do 3 f_equal. rewrite Z.add_mod_idemp_l by lia. f_equal. lia.
  - destruct Hst as (Hp & ? & ?), Hst1 as (Hp' & ? & ?). split; [|split; congruence].
    intros e He. by rewrite Hp, Hp'.
  - intros j Hj. rewrite Hby, Hby1 by (done || (destruct Hm as (? & ? & ? & ?); lia)).
    rewrite Zminus_mod_idemp_r.
    destruct (ring_distance j (cur - base) k size) as (Hq & Hjq & ->); [lia..|].
    set (q := (j - (cur - base)) mod size) in *.
    destruct (Z.leb_spec k q), (Z.ltb_spec q (Z.of_nat (length ptr))), (Z.leb_spec cur (base + j)),
      (Z.ltb_spec (base + j) (cur + k)); cbn [andb];
      match goal with |- context [if ?a <? ?b then _ else _] => destruct (Z.ltb_spec a b) end;
      try lia; try done; unfold byte; rewrite ?nth_lookup, ?lookup_drop; do 2 f_equal; lia.
Qed.

(** Scratch memory is flat memory: whatever pages the guest's table
    gives, writing a buffer at an address of the GP's scratch space and reading
    any mapped range afterwards returns the written bytes where the ranges
    overlap and the old bytes elsewhere; neither access faults, and the table
    and the registers are untouched. *)
Theorem scratch_memory_flat d l a m b :
  sg_mapped d a (Z.of_nat (length l)) -> sg_mapped d b (Z.of_nat (length m)) ->
  exists d' r, scatter_gather_rw d sge_base max_sge l a true = Ok (d', l) /\
    scatter_gather_rw d' sge_base max_sge m b false = Ok (d', r) /\
    length r = length m /\ pages_stored d d' /\
    forall i, 0 <= i < Z.of_nat (length m) -> byte r i =
      if (a <=? b + i) && (b + i <? a + Z.of_nat (length l)) then byte l (b + i - a)
      else sg_byte d (b + i).
Proof.
  intros Ha Hb. unfold scatter_gather_rw.
  destruct (sg_write (length l) d a l Ha) as (d' & Hw & Hst & Hby); [done|].
  destruct (sg_read (length m) d' b m) as (r & Hread & Hlr & Hr); [by apply (sg_mapped_stored d)|done|].
  exists d', r. split; [done|]. split; [done|]. split; [done|]. split; [done|].
  intros i Hi. rewrite Hr by done. apply Hby. destruct Hb as (? & ? & ? & ?). lia.
Qed.
End Pages.

(** ** What the DMA engine sees *)

Class ApuHostLaws := {
  host_malloc_length n : 0 <= n -> Z.of_nat (length (host_malloc n)) = n;
}.
Context {host_laws : ApuHostLaws}.

(** Scratch memory of a processor whose table address and size are in registers
    [ra] and [rm]. *)
Section GuestLaws.
Variables ra rm : Z.
Variable guest_inst : DspGuest ApuShared.
Hypothesis inst_scratch : forall d l a dir,
  guest_scratch_rw d l a dir = scatter_gather_rw d (reg d ra) (reg d rm) l a dir.
Hypothesis inst_malloc : forall n, guest_malloc n = host_malloc n.

Program Definition sg_guest_laws : @DspGuestLaws ApuShared guest_inst := {|
  guest_byte d := sg_byte (reg d ra) d;
  guest_mapped d := sg_mapped (reg d ra) (reg d rm) d;
|}.
Next Obligation. intros n Hn. rewrite inst_malloc. by apply host_malloc_length. Qed.
Next Obligation. intros d a n o k. apply sg_mapped_sub. Qed.
Next Obligation.
  intros d l a Hm. rewrite inst_scratch. unfold scatter_gather_rw.
  destruct (sg_write (reg d ra) (reg d rm) (length l) d a l Hm) as (d' & -> & Hst & Hby); [done|].
  exists d'. assert (forall r, reg d' r = reg d r) as Hreg.
  { intros r. unfold reg. by destruct Hst as (_ & _ & ->). }
  split; [done|]. split.
  - intros x Hx. rewrite Hreg. apply Hby. destruct Hx as (? & ? & ? & ?). lia.
  - intros x n Hx. rewrite !Hreg. by apply (sg_mapped_stored _ _ d).
Qed.
Next Obligation.
  intros d l a Hm. rewrite inst_scratch. unfold scatter_gather_rw.
  destruct (sg_read (reg d ra) (reg d rm) (length l) d a l Hm) as (r & -> & Hl & Hby); [done|].
  by exists r.
Qed.
End GuestLaws.

Definition gp_guest_laws : @DspGuestLaws ApuShared gp_guest :=
  sg_guest_laws NV_PAPU_GPSADDR NV_PAPU_GPSMAXSGE gp_guest
    (fun _ _ _ _ => eq_refl) (fun _ => eq_refl).
Definition ep_guest_laws : @DspGuestLaws ApuShared ep_guest :=
  sg_guest_laws NV_PAPU_EPSADDR NV_PAPU_EPSMAXSGE ep_guest
    (fun _ _ _ _ => eq_refl) (fun _ => eq_refl).

(** ** Windows *)

Lemma cell_X a : 0 <= a < 0x1000 \/ 0x1400 <= a < 0x1800 -> exists c, cell_of DSP_SPACE_X a = Some c.
Proof.
  intros Ha. unfold cell_of, in_mixbuffer, DSP_PERIPH_BASE, DSP_MIXBUFFER_BASE, DSP_MIXBUFFER_SIZE,
    DSP_XRAM_SIZE. cbn [Z.eqb]. rewrite (proj2 (Z.leb_gt 0xFFFF80 a)) by lia.
  destruct (Z.leb_spec 0x1400 a), (Z.ltb_spec a (0x1400 + 1024)); cbn [andb];
    first [by eexists | destruct (_ && _); [by eexists|]; rewrite (proj2 (Z.ltb_lt a 4096)) by lia; by eexists].
Qed.

Lemma window_div lo n addr : lo <= addr -> addr <= lo + n * 4 - 1 -> 0 <= (addr - lo) / 4 < n.
Proof. intros. split; [apply Z.div_pos; lia|apply Z.div_lt_upper_bound; lia]. Qed.

(** Every address of a window is a RAM cell of the DSP. *)
Lemma gp_window_cell addr space a : gp_window addr = Some (space, a) ->
  exists id c, space_id space = Some id /\ 0 <= a < 2 ^ 24 /\ cell_of id a = Some c.
Proof.
  unfold gp_window, GP_DSP_MIXBUF_BASE. intros Hw.
  repeat match type of Hw with
  | (if ?b then _ else _) = _ =>
      destruct b eqn:Hb; [rewrite andb_true_iff, !Z.leb_le in Hb; destruct Hb as [H1 H2];
        apply (window_div _ _ _ H1) in H2|clear Hb]
  end; try done; injection Hw as <- <-.
  - destruct (cell_X ((addr - NV_PAPU_GPXMEM) / 4)) as [c Hc]; [lia|].
    exists DSP_SPACE_X, c. split; [done|]. split; [lia|done].
  - destruct (cell_X (0x1400 + (addr - NV_PAPU_GPMIXBUF) / 4)) as [c Hc]; [lia|].
    exists DSP_SPACE_X, c. split; [done|]. split; [lia|done].
  - exists DSP_SPACE_Y, (YCell ((addr - NV_PAPU_GPYMEM) / 4)). split; [done|]. split; [lia|].
    unfold cell_of, DSP_YRAM_SIZE. cbn [Z.eqb DSP_SPACE_X DSP_SPACE_Y].
    by rewrite (proj2 (Z.ltb_lt _ _)) by lia.
  - exists DSP_SPACE_P, (PCell ((addr - NV_PAPU_GPPMEM) / 4)). split; [done|]. split; [lia|].
    unfold cell_of, DSP_PRAM_SIZE. cbn [Z.eqb Pos.eqb DSP_SPACE_X DSP_SPACE_Y DSP_SPACE_P].
    by rewrite (proj2 (Z.ltb_lt _ _)) by lia.
Qed.

(** The windows of the GP are its memory: a 24-bit value written to any
    word of the X, mix buffer, Y or P window is what the next read of that word
    returns, and a value with bits in the top byte stops the emulator in an
    assertion instead. *)
Theorem gp_window_roundtrip fuel s addr space a val :
  gp_window addr = Some (space, a) -> addr mod 4 = 0 -> 0 <= val < 2 ^ 32 ->
  (val < 2 ^ 24 -> exists s' s'', gp_write fuel s addr val 4 = Ok s' /\
     gp_read fuel s' addr 4 = Ok (s'', val)) /\
  (2 ^ 24 <= val -> gp_write fuel s addr val 4 = Fault (AssertFail "(value & 0xFF000000) == 0")).
Proof.
  intros Hw Ha Hv. destruct (gp_window_cell addr space a Hw) as (id & c & Hid & Hr & Hc).
  unfold gp_write, gp_read. rewrite Ha, Hw. cbn [Z.eqb Pos.eqb check mbind result_mbind result_bind].
  unfold dsp_c_write_memory, dsp_c_read_memory. rewrite Hid. rewrite u32_id by done. split; intros Hval.
  - destruct (@write_cell _ (@c_peripheral _ gp_guest fuel) (enter_dsp s (gp_dsp s)) id a val c)
      as (d & -> & Hd); [done|lia|done|]. cbn [mbind result_mbind result_bind].
    eexists _, _. split; [reflexivity|].
    rewrite (@read_cell _ (@c_peripheral _ gp_guest fuel) _ id a c) by done.
    assert (cell_value (enter_dsp (leave_gp s d) (gp_dsp (leave_gp s d))) c = val) as Hcv.
    { specialize (Hd c). rewrite decide_True in Hd by done. rewrite <- Hd. by destruct c. }
    destruct c; cbn [cell_value] in Hcv |- *; rewrite ?Hcv, ?top_byte_clear by lia; done.
  - unfold dsp56k_write_memory, write_memory_raw.
    assert (Z.land val 0xFF000000 <> 0) as Hne.
    { rewrite (land_high val 24 8 ltac:(done) ltac:(done) : Z.land val 0xFF000000 = _).
      assert (1 <= val / 2 ^ 24 < 2 ^ 8); [|rewrite Z.mod_small by lia; lia].
      split; [apply Z.div_le_lower_bound; lia|apply Z.div_lt_upper_bound; lia]. }
    by rewrite (proj2 (Z.eqb_neq _ _) Hne).
Qed.

(** ** Interrupts *)

Lemma apu_reg_set_eq a v s : apu_reg (set_apu_reg a v s) a = v.
Proof. apply rd_wr_eq. Qed.
Lemma apu_reg_set_ne a b v s : a <> b -> apu_reg (set_apu_reg a v s) b = apu_reg s b.
Proof. apply rd_wr_ne. Qed.

Lemma apu_reg_line b s r : apu_reg (s <| irq_line := b |>) r = apu_reg s r.
Proof. reflexivity. Qed.

Lemma has_exists_bit v m : 0 <= v -> 0 <= m ->
  has v m = true <-> exists n, 0 <= n /\ Z.testbit v n = true /\ Z.testbit m n = true.
Proof.
  intros Hv Hm. unfold has. rewrite negb_true_iff, Z.eqb_neq. split.
  - intros Hne. exists (Z.log2 (Z.land v m)). split; [apply Z.log2_nonneg|].
    assert (0 < Z.land v m) by (assert (0 <= Z.land v m) by (apply Z.land_nonneg; lia); lia).
    pose proof (Z.bit_log2 (Z.land v m) ltac:(done)) as Hb.
    by rewrite Z.land_spec, andb_true_iff in Hb.
  - intros (n & Hn & H1 & H2) H0. apply (f_equal (fun z => Z.testbit z n)) in H0.
    by rewrite Z.land_spec, H1, H2, Z.bits_0 in H0.
Qed.

Lemma has_bit0 v : has v NV_PAPU_ISTS_GINTSTS = Z.testbit v 0.
Proof. apply has_bit. done. Qed.

Lemma gint_bits v n : 1 <= n ->
  Z.testbit (Z.ldiff v NV_PAPU_ISTS_GINTSTS) n = Z.testbit v n /\
  Z.testbit (Z.lor v NV_PAPU_ISTS_GINTSTS) n = Z.testbit v n.
Proof.
  intros Hn. unfold NV_PAPU_ISTS_GINTSTS. rewrite Z.ldiff_spec, Z.lor_spec, Z.shiftl_1_l,
    Z.pow2_bits_false, orb_false_r by lia. by rewrite andb_true_r.
Qed.

Lemma gint_bit0 v : Z.testbit (Z.ldiff v NV_PAPU_ISTS_GINTSTS) 0 = false /\
  Z.testbit (Z.lor v NV_PAPU_ISTS_GINTSTS) 0 = true.
Proof. unfold NV_PAPU_ISTS_GINTSTS. rewrite Z.ldiff_spec, Z.lor_spec. by rewrite andb_false_r, orb_true_r. Qed.

(** The interrupt line of the audio processor is the OR of its enabled
    interrupt reasons: after [update_irq] it is high exactly when the global
    enable and some other bit are set in both ISTS and IEN, and the global bit
    of ISTS mirrors it. *)
Theorem apu_irq_level s :
  0 <= apu_reg s NV_PAPU_ISTS -> 0 <= apu_reg s NV_PAPU_IEN ->
  let s' := update_irq s in
  (irq_line s' = true <->
     Z.testbit (apu_reg s' NV_PAPU_IEN) 0 = true /\
     exists n, 1 <= n /\ Z.testbit (apu_reg s' NV_PAPU_ISTS) n = true /\
       Z.testbit (apu_reg s' NV_PAPU_IEN) n = true) /\
  Z.testbit (apu_reg s' NV_PAPU_ISTS) 0 = irq_line s'.
Proof.
  intros Hi He. unfold update_irq.
  set (s1 := if has (apu_reg s NV_PAPU_FECTL) _ then _ else s).
  assert (0 <= apu_reg s1 NV_PAPU_ISTS /\ 0 <= apu_reg s1 NV_PAPU_IEN) as [Hi1 He1].
  { subst s1. destruct (has _ _); [|done]. rewrite apu_reg_set_eq, apu_reg_set_ne by done.
    split; [apply Z.lor_nonneg; done|done]. }
  clearbody s1. rewrite has_bit0.
  assert (has (Z.ldiff (apu_reg s1 NV_PAPU_ISTS) NV_PAPU_ISTS_GINTSTS) (apu_reg s1 NV_PAPU_IEN) = true <->
    exists n, 1 <= n /\ Z.testbit (apu_reg s1 NV_PAPU_ISTS) n = true /\
      Z.testbit (apu_reg s1 NV_PAPU_IEN) n = true) as Hex.
  { rewrite has_exists_bit by (done || (apply Z.ldiff_nonneg; by left)). split.
    - intros (n & Hn & H1 & H2). destruct (Z.eq_dec n 0) as [->|].
      + by rewrite (proj1 (gint_bit0 _)) in H1.
      + exists n. rewrite (proj1 (gint_bits _ n ltac:(lia))) in H1. split; [lia|done].
    - intros (n & Hn & H1 & H2). exists n. rewrite (proj1 (gint_bits _ n Hn)). split; [lia|done]. }
  destruct (Z.testbit (apu_reg s1 NV_PAPU_IEN) 0 &&
    has (Z.ldiff (apu_reg s1 NV_PAPU_ISTS) NV_PAPU_ISTS_GINTSTS) (apu_reg s1 NV_PAPU_IEN)) eqn:Hc;
    rewrite !apu_reg_line, apu_reg_set_eq, apu_reg_set_ne by done.
  - apply andb_true_iff in Hc as [H1 (n & Hn & H2 & H3)%Hex]. split; [|apply gint_bit0].
    split; [intros _|done]. split; [done|]. exists n. by rewrite (proj2 (gint_bits _ n Hn)).
  - split; [|apply gint_bit0]. split; [done|]. intros [H1 (n & Hn & H2 & H3)].
    rewrite H1 in Hc. cbn [andb] in Hc. apply not_true_iff_false in Hc. destruct Hc. apply Hex.
    exists n. by rewrite (proj1 (gint_bits _ n Hn)) in H2.
Qed.

(** A front end that is only HALTED reports a trap: the code tests the
    bits of the TRAPPED mode instead of comparing the mode field, and HALTED is
    one of those bits. *)
Theorem halted_reports_trap s :
  GET_MASK (apu_reg s NV_PAPU_FECTL) NV_PAPU_FECTL_FEMETHMODE =
    GET_MASK NV_PAPU_FECTL_FEMETHMODE_HALTED NV_PAPU_FECTL_FEMETHMODE ->
  has (apu_reg (update_irq s) NV_PAPU_ISTS) NV_PAPU_ISTS_FETINTSTS = true.
Proof.
  intros Hm. unfold update_irq.
  assert (has (apu_reg s NV_PAPU_FECTL) NV_PAPU_FECTL_FEMETHMODE_TRAPPED = true) as ->.
  { unfold has, GET_MASK in *. apply negb_true_iff, Z.eqb_neq. intros H0.
    change NV_PAPU_FECTL_FEMETHMODE_TRAPPED with NV_PAPU_FECTL_FEMETHMODE in H0.
    by rewrite H0 in Hm. }
  destruct (_ && _); rewrite apu_reg_line, apu_reg_set_eq, apu_reg_set_eq; unfold NV_PAPU_ISTS_FETINTSTS,
    NV_PAPU_ISTS_GINTSTS; rewrite has_bit by done.
  - by rewrite !Z.lor_spec, orb_true_r.
  - by rewrite Z.ldiff_spec, Z.lor_spec, orb_true_r.
Qed.

(** ** FIFOs *)

Lemma get_mask24 v : GET_MASK v 0xFFFFFF = v mod 2 ^ 24.
Proof.
  unfold GET_MASK. change (ctz32 0xFFFFFF) with 0. rewrite Z.shiftr_0_r.
  change 0xFFFFFF with (Z.ones 24). by apply Z.land_ones.
Qed.

Lemma get_set_mask24 v x : 0 <= x < 2 ^ 24 -> GET_MASK (SET_MASK v 0xFFFFFF x) 0xFFFFFF = x.
Proof.
  intros Hx. unfold GET_MASK, SET_MASK. change (ctz32 0xFFFFFF) with 0.
  rewrite Z.shiftl_0_r, Z.shiftr_0_r, u32_id by (unfold is_u32; lia).
  rewrite Z.land_lor_distr_l, <- Z.land_assoc, Z.land_diag.
  change 0xFFFFFF with (Z.ones 24). rewrite (Z.land_ones x) by lia.
  by rewrite Z.land_ldiff, Z.lor_0_l, Z.mod_small.
Qed.

(** An output FIFO of the GP is a ring buffer in guest memory: a block
    that fits is written at the cursor and wraps at the end of the ring, the
    cursor register advances modulo the size of the ring, and no other register
    changes. *)
Theorem gp_fifo_write_ring d ptr index :
  let base := GET_MASK (reg d (NV_PAPU_GPOFBASE0 + 0x10 * index)) 0xFFFFFF in
  let fin := GET_MASK (reg d (NV_PAPU_GPOFEND0 + 0x10 * index)) 0xFFFFFF in
  let cur_reg := NV_PAPU_GPOFCUR0 + 0x10 * index in
  let cur := GET_MASK (reg d cur_reg) 0xFFFFFF in
  let start := Z.max cur base in
  let place i := base + (start - base + i) mod (fin - base) in
  0 <= index < 4 -> base < fin -> cur < fin -> Z.of_nat (length ptr) <= fin - base ->
  sg_mapped (reg d NV_PAPU_GPFADDR) (reg d NV_PAPU_GPFMAXSGE) d base (fin - base) ->
  exists d', gp_fifo_rw d ptr index true = Ok (d', ptr) /\
    GET_MASK (reg d' cur_reg) 0xFFFFFF = place (Z.of_nat (length ptr)) /\
    (forall r, r <> cur_reg -> reg d' r = reg d r) /\
    (forall i, 0 <= i < Z.of_nat (length ptr) ->
       sg_byte (reg d NV_PAPU_GPFADDR) d' (place i) = byte ptr i).
Proof.
  intros base fin cur_reg cur start place Hidx Hbf Hcf Hl Hm. unfold gp_fifo_rw.
  change NV_PAPU_GPOFBASE0_VALUE with 0xFFFFFF. change NV_PAPU_GPOFEND0_VALUE with 0xFFFFFF.
  change NV_PAPU_GPOFCUR0_VALUE with 0xFFFFFF. fold base fin cur_reg. fold cur.
  rewrite (proj2 (Z.ltb_lt index GP_OUTPUT_FIFO_COUNT)) by (unfold GP_OUTPUT_FIFO_COUNT; lia).
  rewrite (proj2 (Z.ltb_lt cur fin)) by lia. cbn [check mbind result_mbind result_bind].
  assert ((if cur <? base then base else cur) = start) as ->
    by (subst start; destruct (Z.ltb_spec cur base); lia).
  assert (forall v, 0 <= GET_MASK v 0xFFFFFF < 2 ^ 24) as Hrange
    by (intros v; rewrite get_mask24; apply Z.mod_pos_bound; lia).
  pose proof (Hrange (reg d (NV_PAPU_GPOFBASE0 + 0x10 * index))) as Hb. fold base in Hb.
  pose proof (Hrange (reg d (NV_PAPU_GPOFEND0 + 0x10 * index))) as Hf. fold fin in Hf.
  unfold circular_scatter_gather_rw.
  destruct (csg_write (reg d NV_PAPU_GPFADDR) (reg d NV_PAPU_GPFMAXSGE) (S (length ptr)) base fin d
    start ptr) as (d1 & -> & (_ & _ & Hregs) & Hby); [lia..|lia|done|].
  cbn [mbind result_mbind result_bind]. fold (place (Z.of_nat (length ptr))).
  assert (forall i, base <= place i < fin) as Hplace.
  { intros i. subst place. cbv beta. pose proof (Z.mod_pos_bound (start - base + i) (fin - base)). lia. }
  eexists. split; [reflexivity|]. unfold reg. cbn [apu_regs setf]. rewrite Hregs. split_and!.
  - rewrite rd_wr_eq. apply get_set_mask24. specialize (Hplace (Z.of_nat (length ptr))). lia.
  - intros r Hr. by rewrite rd_wr_ne.
  - intros i Hi. change (sg_byte (rd (apu_regs d) NV_PAPU_GPFADDR) _ (place i)) with
      (sg_byte (reg d NV_PAPU_GPFADDR) d1 (place i)). unfold place. rewrite Hby by (apply Z.mod_pos_bound; lia).
    rewrite Zminus_mod_idemp_l. replace (start - base + i - (start - base)) with i by lia.
    rewrite (Z.mod_small i) by lia. by rewrite (proj2 (Z.ltb_lt _ _)) by lia.
Qed.
End GpEp.

(** ** Examples

    A table with one page, at 0x2000 of a RAM of 64 KiB. *)

#[export] Instance plain_host : ApuHost := {
  other_ldl _ := 0;
  host_malloc n := repeat 0 (Z.to_nat n);
}.

Definition shared0 : ApuShared :=
  mkShared (store_bytes ∅ 0x100 (le_bytes 4 0x2000)) 0x10000
    (wr NV_PAPU_GPFADDR 0x100 (wr NV_PAPU_GPOFBASE0 0x10 (wr NV_PAPU_GPOFEND0 0x20
       (wr NV_PAPU_GPOFCUR0 0x1e ∅)))) MCPX_APU_DEBUG_MON_VP [].

Lemma table0_ok : table_ok 0x100 0 shared0.
Proof.
  split; [lia|lia|cbn [ram_size shared0]; lia| | |].
  - intros e He. assert (e = 0) as -> by lia. vm_compute. split; [discriminate|reflexivity].
  - intros e e' He He'. lia.
  - intros e He. assert (e = 0) as -> by lia. right. vm_compute. discriminate.
Qed.

Lemma scratch_memory_flat_witness : exists d' r,
  scatter_gather_rw shared0 0x100 0 [1; 2; 3] 0x7fe true = Ok (d', [1; 2; 3]) /\
  scatter_gather_rw d' 0x100 0 [0; 0] 0x7ff false = Ok (d', r) /\ byte r 0 = 2 /\ byte r 1 = 3.
Proof.
  destruct (scratch_memory_flat 0x100 0 shared0 [1; 2; 3] 0x7fe [0; 0] 0x7ff)
    as (d' & r & Hw & Hr & _ & _ & Hb).
  - split; [apply table0_ok|vm_compute; repeat split; discriminate].
  - split; [apply table0_ok|vm_compute; repeat split; discriminate].
  - exists d', r. split; [exact Hw|]. split; [exact Hr|].
    rewrite (Hb 0), (Hb 1) by (cbn; lia). split; reflexivity.
Defined.

Lemma gp_fifo_write_ring_witness : exists d',
  gp_fifo_rw shared0 [5; 6; 7] 0 true = Ok (d', [5; 6; 7]) /\
  GET_MASK (reg d' NV_PAPU_GPOFCUR0) 0xFFFFFF = 0x11 /\ sg_byte 0x100 d' 0x10 = 7.
Proof.
  destruct (gp_fifo_write_ring shared0 [5; 6; 7] 0) as (d' & Hr & Hc & _ & Hb);
    [lia|reflexivity|reflexivity|vm_compute; discriminate|split; [apply table0_ok|vm_compute; repeat split; discriminate]|].
  exists d'. split; [exact Hr|]. split; [exact Hc|]. exact (Hb 2 ltac:(cbn; lia)).
Defined.

Definition apu0 : MCPXAPUState :=
  let r := mkRest vm_zero (mkDSPDMAState 0 0 0 0 false false 0) 0 0 true None shared0 in
  let c := mkCore true false 0 0 0 ∅ ∅ ∅ ∅ ∅ ∅ ∅ ∅ ∅ 0 0 0 0 0 0 0 0 ∅ ∅ r 0 0 0 false in
  mkApu (shared0 <| apu_regs := wr NV_PAPU_FECTL 0x80 (wr NV_PAPU_IEN 0x11 ∅) |>) false
    c ∅ false c ∅ false 0 None ∅ 0.

Lemma gp_window_roundtrip_witness : exists s' s'',
  gp_write 0 apu0 0x5004 0x123456 4 = Ok s' /\ gp_read 0 s' 0x5004 4 = Ok (s'', 0x123456).
Proof.
  apply (gp_window_roundtrip 0 apu0 0x5004 "X"%char 0x1401 0x123456);
    [reflexivity|reflexivity|lia|lia].
Defined.

Lemma apu_irq_level_witness : Z.testbit (apu_reg (update_irq apu0) NV_PAPU_ISTS) 0 = true.
Proof. rewrite (proj2 (apu_irq_level apu0 ltac:(done) ltac:(done))). reflexivity. Defined.

Lemma halted_reports_trap_witness :
  has (apu_reg (update_irq apu0) NV_PAPU_ISTS) NV_PAPU_ISTS_FETINTSTS = true.
Proof. apply (halted_reports_trap apu0). reflexivity. Defined.
