(* ===== verification/Nv2a.v ===== *)
(** The register blocks of the NV2A graphics processor, except the command
    FIFO (file Pfifo): card control (pmc.c), timer (ptimer.c), CRT controller
    (pcrtc.c), bus (pbus.c), frame buffer (pfb.c), RAMDAC (pramdac.c), palette
    (prmdio.c), overlay (pvideo.c), VGA aliases (prmvio.c, prmcio.c), the
    channel window (user.c), the registers of the 3D engine (pgraph_read,
    pgraph_write, pgraph_context_switch of pgraph.c, rdi.c) and the device that
    dispatches to them (nv2a.c).

    [mmio_read] and [mmio_write] are an access of the guest to the 16 MB
    register window.  The theorems show that the window is partitioned by the
    block table, that no access leaves the arrays behind it, that the interrupt
    line is the one the unit registers ask for, what the two halves of the
    timer read, and how a palette is loaded. *)

From S2P Require Import Prelude.

(** ** Register numbers *)

Definition NV_PMC_BOOT_0 : Z := 0x000.
Definition NV_PMC_INTR_0 : Z := 0x100.
Definition NV_PMC_INTR_0_PFIFO : Z := bit 8.
Definition NV_PMC_INTR_0_PGRAPH : Z := bit 12.
Definition NV_PMC_INTR_0_PCRTC : Z := bit 24.
Definition NV_PMC_INTR_EN_0 : Z := 0x140.
Definition NV_PBUS_PCI_NV_0 : Z := 0x800.
Definition NV_PBUS_PCI_NV_1 : Z := 0x804.
Definition NV_PBUS_PCI_NV_2 : Z := 0x808.
Definition PCI_VENDOR_ID : Z := 0x00.
Definition PCI_COMMAND : Z := 0x04.
Definition PCI_CLASS_REVISION : Z := 0x08.
Definition NV_PFIFO_INTR_0 : Z := 0x100.
Definition NV_PFIFO_INTR_EN_0 : Z := 0x140.
Definition NV_PFIFO_RUNOUT_STATUS : Z := 0x400.
Definition NV_PFIFO_RUNOUT_STATUS_LOW_MARK : Z := bit 4.
Definition NV_PFIFO_MODE : Z := 0x504.
Definition NV_PFIFO_CACHE1_PUSH1 : Z := 0x1204.
Definition NV_PFIFO_CACHE1_PUSH1_CHID : Z := 0x1F.
Definition NV_PFIFO_CACHE1_STATUS : Z := 0x1214.
Definition NV_PFIFO_CACHE1_STATUS_LOW_MARK : Z := bit 4.
Definition NV_PFIFO_CACHE1_DMA_PUT : Z := 0x1240.
Definition NV_PFIFO_CACHE1_DMA_GET : Z := 0x1244.
Definition NV_PFIFO_CACHE1_REF : Z := 0x1248.
Definition NV_PGRAPH_DEBUG_3 : Z := 0x08C.
Definition NV_PGRAPH_DEBUG_3_HW_CONTEXT_SWITCH : Z := bit 2.
Definition NV_PGRAPH_INTR : Z := 0x100.
Definition NV_PGRAPH_INTR_CONTEXT_SWITCH : Z := bit 12.
Definition NV_PGRAPH_INTR_ERROR : Z := bit 20.
Definition NV_PGRAPH_INTR_EN : Z := 0x140.
Definition NV_PGRAPH_CTX_CONTROL : Z := 0x144.
Definition NV_PGRAPH_CTX_CONTROL_CHID : Z := bit 16.
Definition NV_PGRAPH_CTX_USER : Z := 0x148.
Definition NV_PGRAPH_CTX_USER_CHID : Z := 0x1F000000.
Definition NV_PGRAPH_TRAPPED_ADDR : Z := 0x704.
Definition NV_PGRAPH_TRAPPED_ADDR_CHID : Z := 0x01F00000.
Definition NV_PGRAPH_SURFACE : Z := 0x710.
Definition NV_PGRAPH_SURFACE_WRITE_3D : Z := 0x00700000.
Definition NV_PGRAPH_SURFACE_READ_3D : Z := 0x07000000.
Definition NV_PGRAPH_SURFACE_MODULO_3D : Z := 0x70000000.
Definition NV_PGRAPH_INCREMENT : Z := 0x71C.
Definition NV_PGRAPH_INCREMENT_READ_3D : Z := bit 1.
Definition NV_PGRAPH_FIFO : Z := 0x720.
Definition NV_PGRAPH_FIFO_ACCESS : Z := bit 0.
Definition NV_PGRAPH_RDI_INDEX : Z := 0x750.
Definition NV_PGRAPH_RDI_INDEX_ADDRESS : Z := 0x1FFC.
Definition NV_PGRAPH_RDI_INDEX_SELECT : Z := 0x01FF0000.
Definition NV_PGRAPH_RDI_DATA : Z := 0x754.
Definition NV_PGRAPH_CHANNEL_CTX_POINTER : Z := 0x784.
Definition NV_PGRAPH_CHANNEL_CTX_POINTER_INST : Z := 0xFFFF.
Definition NV_PGRAPH_CHANNEL_CTX_TRIGGER : Z := 0x788.
Definition NV_PGRAPH_CHANNEL_CTX_TRIGGER_READ_IN : Z := bit 0.
Definition RDI_INDEX_VTX_CONSTANTS0 : Z := 0x17.
Definition RDI_INDEX_VTX_CONSTANTS1 : Z := 0xCC.
Definition NV2A_VERTEXSHADER_CONSTANTS : Z := 192.
Definition NV_PCRTC_INTR_0 : Z := 0x100.
Definition NV_PCRTC_INTR_0_VBLANK : Z := bit 0.
Definition NV_PCRTC_INTR_EN_0 : Z := 0x140.
Definition NV_PCRTC_START : Z := 0x800.
Definition NV_PCRTC_RASTER : Z := 0x808.
Definition NV_PVIDEO_BUFFER : Z := 0x700.
Definition NV_PVIDEO_STOP : Z := 0x704.
Definition NV_PVIDEO_POINT_OUT : Z := 0x948.
Definition NV_PVIDEO_POINT_OUT_Y : Z := 0x0FFF0000.
Definition NV_PVIDEO_SIZE_OUT : Z := 0x950.
Definition NV_PVIDEO_SIZE_OUT_HEIGHT : Z := 0x0FFF0000.
Definition NV_PTIMER_INTR_0 : Z := 0x100.
Definition NV_PTIMER_INTR_EN_0 : Z := 0x140.
Definition NV_PTIMER_NUMERATOR : Z := 0x200.
Definition NV_PTIMER_DENOMINATOR : Z := 0x210.
Definition NV_PTIMER_TIME_0 : Z := 0x400.
Definition NV_PTIMER_TIME_1 : Z := 0x410.
Definition NV_PTIMER_ALARM_0 : Z := 0x420.
Definition NV_PFB_CSTATUS : Z := 0x20C.
Definition NV_PFB_WBC : Z := 0x410.
Definition NV_PFB_TILE_BASE_ADDRESS_AND_FLAGS (i : Z) : Z := 0x240 + i * 16.
Definition NV_PFB_TILE_FLAGS_VALID : Z := 1.
Definition NV_PFB_TILE_LIMIT (i : Z) : Z := 0x240 + i * 16 + 4.
Definition NV_PRAMDAC_NVPLL_COEFF : Z := 0x500.
Definition NV_PRAMDAC_MPLL_COEFF : Z := 0x504.
Definition NV_PRAMDAC_VPLL_COEFF : Z := 0x508.
Definition NV_PRAMDAC_PLL_TEST_COUNTER : Z := 0x514.
Definition NV_PRAMDAC_PLL_TEST_COUNTER_VPLL2_LOCK : Z := bit 27.
Definition NV_PRAMDAC_PLL_TEST_COUNTER_NVPLL_LOCK : Z := bit 29.
Definition NV_PRAMDAC_PLL_TEST_COUNTER_MPLL_LOCK : Z := bit 30.
Definition NV_PRAMDAC_PLL_TEST_COUNTER_VPLL_LOCK : Z := bit 31.
Definition NV_PRAMDAC_GENERAL_CONTROL : Z := 0x600.
Definition NV_PRAMDAC_GENERAL_CONTROL_ALT_MODE_SEL : Z := bit 12.
Definition NV_PRAMDAC_FP_VDISPLAY_END : Z := 0x800.
Definition NV_PRAMDAC_FP_VCRTC : Z := 0x808.
Definition NV_PRAMDAC_FP_VSYNC_END : Z := 0x810.
Definition NV_PRAMDAC_FP_VVALID_END : Z := 0x818.
Definition NV_PRAMDAC_FP_HDISPLAY_END : Z := 0x820.
Definition NV_PRAMDAC_FP_HCRTC : Z := 0x828.
Definition NV_PRAMDAC_FP_HVALID_END : Z := 0x838.
Definition NV_USER_DAC_WRITE_MODE_ADDRESS : Z := 0x3C8.
Definition NV_USER_DAC_PALETTE_DATA : Z := 0x3C9.
Definition NV_USER_DMA_PUT : Z := 0x40.
Definition NV_USER_DMA_GET : Z := 0x44.
Definition NV_USER_REF : Z := 0x48.
Definition NV_DMA_CLASS : Z := 0x00000FFF.
Definition NV_DMA_TARGET : Z := 0x00030000.
Definition NV_DMA_ADJUST : Z := 0xFFF00000.
Definition NV_DMA_ADDRESS : Z := 0xFFFFF000.
Definition NV2A_CRYSTAL_FREQ : Z := 16666666.
Definition NV2A_NUM_CHANNELS : Z := 32.
Definition NV_NUM_GPU_TILES : nat := 8.
Definition NANOSECONDS_PER_SECOND : Z := 1000000000.
Definition VGA_ATT_W : Z := 0x3C0.
Definition VGA_AR_ENABLE_DISPLAY : Z := 0x20.
Definition VGA_MIS_COLOR : Z := 0x01.

(** ** State *)

(** The pending and enabled interrupts every unit has. *)
Record IrqRegs := mkIrq { pending : Z; enabled : Z }.
#[export] Instance IrqRegs_settable : Settable IrqRegs := settable! mkIrq < pending ; enabled >.

Record PramDac := mkPramDac {
  core_clock_coeff : Z;
  core_clock_freq : Z;
  memory_clock_coeff : Z;
  video_clock_coeff : Z;
  general_control : Z;
  fp_vdisplay_end : Z;
  fp_vcrtc : Z;
  fp_vsync_end : Z;
  fp_vvalid_end : Z;
  fp_hdisplay_end : Z;
  fp_hcrtc : Z;
  fp_hvalid_end : Z;
}.
#[export] Instance PramDac_settable : Settable PramDac :=
  settable! mkPramDac < core_clock_coeff ; core_clock_freq ; memory_clock_coeff ;
    video_clock_coeff ; general_control ; fp_vdisplay_end ; fp_vcrtc ; fp_vsync_end ;
    fp_vvalid_end ; fp_hdisplay_end ; fp_hcrtc ; fp_hvalid_end >.

(** [NV2AState].  [G] is what the 3D engine keeps beyond its registers and
    [V] the VGA core; [virtual_ns] is the virtual clock, [irq_line] the PCI
    interrupt line.  Locks and threads are not part of the state: each
    operation is a critical section of the code. *)
Record NV2AState (G V : Type) := mkNV2A {
  pmc : IrqRegs;
  pfifo_irq : IrqRegs;
  pfifo_regs : mem;
  fifo_kick : bool;
  halt : bool;
  pvideo_regs : mem;
  ptimer_irq : IrqRegs;
  numerator : Z;
  denominator : Z;
  alarm_time : Z;
  pfb_regs : mem;
  pgraph_irq : IrqRegs;
  pgraph_regs : mem;
  regs_dirty : gset Z;
  waiting_for_nop : bool;
  waiting_for_flip : bool;
  waiting_for_context_switch : bool;
  vsh_constants : mem;
  pgraph_rest : G;
  pcrtc_irq : IrqRegs;
  pcrtc_start : Z;
  raster : Z;
  pramdac : PramDac;
  write_mode_address : Z;
  palette : mem;
  vram : mem;
  vram_size : Z;
  ramin : mem;
  ramin_size : Z;
  pci_config : mem;
  vga : V;
  irq_line : bool;
  virtual_ns : Z;
}.
Arguments mkNV2A {G V}.
Arguments pmc {G V} _.
Arguments pfifo_irq {G V} _.
Arguments pfifo_regs {G V} _.
Arguments fifo_kick {G V} _.
Arguments halt {G V} _.
Arguments pvideo_regs {G V} _.
Arguments ptimer_irq {G V} _.
Arguments numerator {G V} _.
Arguments denominator {G V} _.
Arguments alarm_time {G V} _.
Arguments pfb_regs {G V} _.
Arguments pgraph_irq {G V} _.
Arguments pgraph_regs {G V} _.
Arguments regs_dirty {G V} _.
Arguments waiting_for_nop {G V} _.
Arguments waiting_for_flip {G V} _.
Arguments waiting_for_context_switch {G V} _.
Arguments vsh_constants {G V} _.
Arguments pgraph_rest {G V} _.
Arguments pcrtc_irq {G V} _.
Arguments pcrtc_start {G V} _.
Arguments raster {G V} _.
Arguments pramdac {G V} _.
Arguments write_mode_address {G V} _.
Arguments palette {G V} _.
Arguments vram {G V} _.
Arguments vram_size {G V} _.
Arguments ramin {G V} _.
Arguments ramin_size {G V} _.
Arguments pci_config {G V} _.
Arguments vga {G V} _.
Arguments irq_line {G V} _.
Arguments virtual_ns {G V} _.

#[export] Instance NV2AState_settable G V : Settable (NV2AState G V) :=
  settable! (@mkNV2A G V) < pmc ; pfifo_irq ; pfifo_regs ; fifo_kick ; halt ; pvideo_regs ;
    ptimer_irq ; numerator ; denominator ; alarm_time ; pfb_regs ; pgraph_irq ; pgraph_regs ;
    regs_dirty ; waiting_for_nop ; waiting_for_flip ; waiting_for_context_switch ; vsh_constants ;
    pgraph_rest ; pcrtc_irq ; pcrtc_start ; raster ; pramdac ; write_mode_address ; palette ;
    vram ; vram_size ; ramin ; ramin_size ; pci_config ; vga ; irq_line ; virtual_ns >.

(** The VGA core the device embeds (hw/display/vga.c). *)
Class VgaOps (V : Type) := {
  vga_ioport_read : V -> Z -> V * Z;
  vga_ioport_write : V -> Z -> Z -> V;
  vga_invalidate_scanlines : V -> Z -> Z -> V;
  vga_gfx_update : V -> V;
  vga_common_reset : V -> V;
  vga_set_msr : V -> Z -> V;
  vga_ar_flip_flop : V -> Z;
  vga_cr : V -> Z -> Z;
}.

(** Element [a] of an array of [size] elements. *)
Definition reg_r (size : Z) (m : mem) (a : Z) : result Z :=
  if (0 <=? a) && (a <? size) then Ok (rd m a) else Fault OutOfBounds.
Definition reg_w (size a v : Z) (m : mem) : result mem :=
  if (0 <=? a) && (a <? size) then Ok (wr a v m) else Fault OutOfBounds.

(** [ldl_le_p] of four bytes of an array of [size] bytes. *)
Definition ldl_le_p (size : Z) (m : mem) (a : Z) : result Z :=
  if (0 <=? a) && (a + 4 <=? size) then Ok (le_word (load_bytes m a 4)) else Fault OutOfBounds.

(** The write of ones to an interrupt register, and of the enable mask. *)
Definition ack (val : Z) (i : IrqRegs) : IrqRegs := i <| pending ::= fun p => Z.ldiff p val |>.
Definition enable (val : Z) (i : IrqRegs) : IrqRegs := i <| enabled := u32 val |>.

Section Nv2a.
Context {G V : Type} {vga_ops : VgaOps V}.
Implicit Types d : NV2AState G V.

(** ** Interrupts (nv2a.c) *)

Definition unit_bit (u : IrqRegs) (m p : Z) : Z :=
  if has (pending u) (enabled u) then Z.lor p m else Z.ldiff p m.

Definition nv2a_update_irq d : NV2AState G V :=
  let p := unit_bit (pfifo_irq d) NV_PMC_INTR_0_PFIFO (pending (pmc d)) in
  let p := unit_bit (pcrtc_irq d) NV_PMC_INTR_0_PCRTC p in
  let p := unit_bit (pgraph_irq d) NV_PMC_INTR_0_PGRAPH p in
  d <| pmc ::= fun i => i <| pending := p |> |>
    <| irq_line := negb (p =? 0) && negb (enabled (pmc d) =? 0) |>.

(** ** Card control (pmc.c) *)

Definition pmc_read d (addr : Z) : Z :=
  if addr =? NV_PMC_BOOT_0 then 0x02A000A3
  else if addr =? NV_PMC_INTR_0 then pending (pmc d)
  else if addr =? NV_PMC_INTR_EN_0 then enabled (pmc d)
  else 0.

Definition pmc_write d (addr val : Z) : NV2AState G V :=
  if addr =? NV_PMC_INTR_0 then nv2a_update_irq (d <| pmc ::= ack val |>)
  else if addr =? NV_PMC_INTR_EN_0 then nv2a_update_irq (d <| pmc ::= enable val |>)
  else d.

(** ** Bus control (pbus.c): PCI configuration space as little-endian words *)

Definition pci_get_long d (a : Z) : Z := le_word (load_bytes (pci_config d) a 4).

Definition pbus_read d (addr : Z) : Z :=
  if addr =? NV_PBUS_PCI_NV_0 then pci_get_long d PCI_VENDOR_ID
  else if addr =? NV_PBUS_PCI_NV_1 then pci_get_long d PCI_COMMAND
  else if addr =? NV_PBUS_PCI_NV_2 then pci_get_long d PCI_CLASS_REVISION
  else 0.

Definition pbus_write d (addr val : Z) : NV2AState G V :=
  if addr =? NV_PBUS_PCI_NV_1 then
    d <| pci_config := store_bytes (pci_config d) PCI_COMMAND (le_bytes 4 (u32 val)) |>
  else d.

(** ** Timer (ptimer.c) *)

Definition muldiv64 (a b c : Z) : result Z :=
  if u32 c =? 0 then Fault DivByZero else Ok (u64 (u64 a * u32 b / u32 c)).

Definition ptimer_get_clock d : result Z :=
  t ← muldiv64 (virtual_ns d) (core_clock_freq (pramdac d)) NANOSECONDS_PER_SECOND;
  muldiv64 t (denominator d) (numerator d).

Definition ptimer_read d (addr : Z) : result Z :=
  if addr =? NV_PTIMER_INTR_0 then Ok (pending (ptimer_irq d))
  else if addr =? NV_PTIMER_INTR_EN_0 then Ok (enabled (ptimer_irq d))
  else if addr =? NV_PTIMER_NUMERATOR then Ok (numerator d)
  else if addr =? NV_PTIMER_DENOMINATOR then Ok (denominator d)
  else if addr =? NV_PTIMER_TIME_0 then
    t ← ptimer_get_clock d; Ok (Z.shiftl (Z.land t 0x7ffffff) 5)
  else if addr =? NV_PTIMER_TIME_1 then
    t ← ptimer_get_clock d; Ok (Z.land (Z.shiftr t 27) 0x1fffffff)
  else Ok 0.

Definition ptimer_write d (addr val : Z) : NV2AState G V :=
  if addr =? NV_PTIMER_INTR_0 then nv2a_update_irq (d <| ptimer_irq ::= ack val |>)
  else if addr =? NV_PTIMER_INTR_EN_0 then nv2a_update_irq (d <| ptimer_irq ::= enable val |>)
  else if addr =? NV_PTIMER_DENOMINATOR then d <| denominator := u32 val |>
  else if addr =? NV_PTIMER_NUMERATOR then d <| numerator := u32 val |>
  else if addr =? NV_PTIMER_ALARM_0 then d <| alarm_time := u32 val |>
  else d.

(** ** CRT controller (pcrtc.c) *)

Definition pcrtc_read d (addr : Z) : NV2AState G V * Z :=
  if addr =? NV_PCRTC_INTR_0 then (d, pending (pcrtc_irq d))
  else if addr =? NV_PCRTC_INTR_EN_0 then (d, enabled (pcrtc_irq d))
  else if addr =? NV_PCRTC_START then (d, pcrtc_start d)
  else if addr =? NV_PCRTC_RASTER then (d <| raster ::= fun r => u32 (r + 1) |>, raster d)
  else (d, 0).

Definition pcrtc_write d (addr val : Z) : NV2AState G V :=
  if addr =? NV_PCRTC_INTR_0 then nv2a_update_irq (d <| pcrtc_irq ::= ack val |>)
  else if addr =? NV_PCRTC_INTR_EN_0 then nv2a_update_irq (d <| pcrtc_irq ::= enable val |>)
  else if addr =? NV_PCRTC_START then d <| pcrtc_start := Z.land val 0x07FFFFFF |>
  else d.

Definition nv2a_vga_gfx_update d : NV2AState G V :=
  nv2a_update_irq
    (d <| vga ::= vga_gfx_update |>
       <| pcrtc_irq ::= fun i => i <| pending ::= fun p => Z.lor p NV_PCRTC_INTR_0_VBLANK |> |>
       <| raster := 0 |>).

(** ** Frame buffer (pfb.c) and clipping to a tile (nv2a.c) *)

Definition pfb_read d (addr : Z) : result Z :=
  if addr =? NV_PFB_CSTATUS then Ok (vram_size d)
  else if addr =? NV_PFB_WBC then Ok 0
  else reg_r 0x1000 (pfb_regs d) addr.

Definition pfb_write d (addr val : Z) : result (NV2AState G V) :=
  m ← reg_w 0x1000 addr (u32 val) (pfb_regs d); Ok (d <| pfb_regs := m |>).

Fixpoint clip_loop d (n : nat) (i blit_base_address len : Z) : Z :=
  match n with
  | O => len
  | S n =>
      let limit := rd (pfb_regs d) (NV_PFB_TILE_LIMIT i) in
      if negb (has (rd (pfb_regs d) (NV_PFB_TILE_BASE_ADDRESS_AND_FLAGS i)) NV_PFB_TILE_FLAGS_VALID)
      then clip_loop d n (i + 1) blit_base_address len
      else if (blit_base_address <? limit) && (limit <? u64 (blit_base_address + len))
      then u64 (u32 (limit + 1) - blit_base_address)
      else clip_loop d n (i + 1) blit_base_address len
  end.

Definition nv_clip_gpu_tile_blit d (blit_base_address len : Z) : Z :=
  clip_loop d NV_NUM_GPU_TILES 0 blit_base_address len.

(** ** RAMDAC (pramdac.c) *)

Definition pramdac_reg d (addr : Z) : Z :=
  let p := pramdac d in
  if addr =? NV_PRAMDAC_NVPLL_COEFF then core_clock_coeff p
  else if addr =? NV_PRAMDAC_MPLL_COEFF then memory_clock_coeff p
  else if addr =? NV_PRAMDAC_VPLL_COEFF then video_clock_coeff p
  else if addr =? NV_PRAMDAC_PLL_TEST_COUNTER then
    Z.lor (Z.lor (Z.lor NV_PRAMDAC_PLL_TEST_COUNTER_VPLL2_LOCK
                        NV_PRAMDAC_PLL_TEST_COUNTER_NVPLL_LOCK)
                 NV_PRAMDAC_PLL_TEST_COUNTER_MPLL_LOCK)
          NV_PRAMDAC_PLL_TEST_COUNTER_VPLL_LOCK
  else if addr =? NV_PRAMDAC_GENERAL_CONTROL then general_control p
  else if addr =? NV_PRAMDAC_FP_VDISPLAY_END then fp_vdisplay_end p
  else if addr =? NV_PRAMDAC_FP_VCRTC then fp_vcrtc p
  else if addr =? NV_PRAMDAC_FP_VSYNC_END then fp_vsync_end p
  else if addr =? NV_PRAMDAC_FP_VVALID_END then fp_vvalid_end p
  else if addr =? NV_PRAMDAC_FP_HDISPLAY_END then fp_hdisplay_end p
  else if addr =? NV_PRAMDAC_FP_HCRTC then fp_hcrtc p
  else if addr =? NV_PRAMDAC_FP_HVALID_END then fp_hvalid_end p
  else 0.

(** The shift count is computed in 64 unsigned bits. *)
Definition pramdac_read d (addr size : Z) : result Z :=
  let r := pramdac_reg d (Z.ldiff addr 3) in
  let n := u64 (u32 (32 - 8 * size) - 8 * Z.land addr 3) in
  if n <? 64 then Ok (Z.shiftr r n) else Fault BadShift.

(** The frequency of the core clock from its coefficients, in C's 32-bit
    arithmetic. *)
Definition nvpll_freq (val : Z) : Z :=
  let m := Z.land val 0xFF in
  let n := Z.shiftr (Z.land val 0xFF00) 8 in
  let p := Z.shiftr (Z.land val 0x00070000) 16 in
  if m =? 0 then 0 else u32 (NV2A_CRYSTAL_FREQ * n) / bit p / m.

Definition pramdac_write d (addr val : Z) : NV2AState G V :=
  if addr =? NV_PRAMDAC_NVPLL_COEFF then
    d <| pramdac ::= fun p => p <| core_clock_coeff := u32 val |>
                                <| core_clock_freq := nvpll_freq val |> |>
  else if addr =? NV_PRAMDAC_MPLL_COEFF then
    d <| pramdac ::= fun p => p <| memory_clock_coeff := u32 val |> |>
  else if addr =? NV_PRAMDAC_VPLL_COEFF then
    d <| pramdac ::= fun p => p <| video_clock_coeff := u32 val |> |>
  else if addr =? NV_PRAMDAC_GENERAL_CONTROL then
    d <| pramdac ::= fun p => p <| general_control := u32 val |> |>
  else if addr =? NV_PRAMDAC_FP_VDISPLAY_END then
    d <| pramdac ::= fun p => p <| fp_vdisplay_end := u32 val |> |>
  else if addr =? NV_PRAMDAC_FP_VCRTC then
    d <| pramdac ::= fun p => p <| fp_vcrtc := u32 val |> |>
  else if addr =? NV_PRAMDAC_FP_VSYNC_END then
    d <| pramdac ::= fun p => p <| fp_vsync_end := u32 val |> |>
  else if addr =? NV_PRAMDAC_FP_VVALID_END then
    d <| pramdac ::= fun p => p <| fp_vvalid_end := u32 val |> |>
  else if addr =? NV_PRAMDAC_FP_HDISPLAY_END then
    d <| pramdac ::= fun p => p <| fp_hdisplay_end := u32 val |> |>
  else if addr =? NV_PRAMDAC_FP_HCRTC then
    d <| pramdac ::= fun p => p <| fp_hcrtc := u32 val |> |>
  else if addr =? NV_PRAMDAC_FP_HVALID_END then
    d <| pramdac ::= fun p => p <| fp_hvalid_end := u32 val |> |>
  else d.

(** ** Palette (prmdio.c) *)

Definition prmdio_read d (addr : Z) : Z :=
  if addr =? NV_USER_DAC_WRITE_MODE_ADDRESS then write_mode_address d / 3 else 0.

Definition prmdio_write d (addr val : Z) : NV2AState G V :=
  if addr =? NV_USER_DAC_WRITE_MODE_ADDRESS then
    d <| write_mode_address := Z.land val 0xff * 3 |>
  else if addr =? NV_USER_DAC_PALETTE_DATA then
    d <| palette ::= wr (write_mode_address d mod (256 * 3)) (u8 val) |>
      <| write_mode_address ::= fun a => u16 (a + 1) |>
  else d.

(** ** Overlay (pvideo.c) *)

Definition pvideo_vga_invalidate d : NV2AState G V :=
  let y1 := GET_MASK (rd (pvideo_regs d) NV_PVIDEO_POINT_OUT) NV_PVIDEO_POINT_OUT_Y in
  let y2 := y1 + GET_MASK (rd (pvideo_regs d) NV_PVIDEO_SIZE_OUT) NV_PVIDEO_SIZE_OUT_HEIGHT in
  d <| vga ::= fun v => vga_invalidate_scanlines v y1 y2 |>.

Definition pvideo_read d (addr : Z) : result Z :=
  if addr =? NV_PVIDEO_STOP then Ok 0 else reg_r 0x1000 (pvideo_regs d) addr.

Definition pvideo_write d (addr val : Z) : result (NV2AState G V) :=
  if addr =? NV_PVIDEO_BUFFER then
    Ok (pvideo_vga_invalidate (d <| pvideo_regs ::= wr addr (u32 val) |>))
  else if addr =? NV_PVIDEO_STOP then
    let d := if has val 1 then d <| pvideo_regs ::= wr NV_PVIDEO_BUFFER 0 |> else d in
    Ok (pvideo_vga_invalidate d)
  else m ← reg_w 0x1000 addr (u32 val) (pvideo_regs d); Ok (d <| pvideo_regs := m |>).

(** ** VGA registers (prmvio.c, prmcio.c) and the display mode (nv2a.c) *)

Definition prmvio_read d (addr : Z) : NV2AState G V * Z :=
  let '(v, r) := vga_ioport_read (vga d) addr in (d <| vga := v |>, r).

Definition prmvio_write d (addr val : Z) : NV2AState G V :=
  d <| vga ::= fun v => vga_ioport_write v addr val |>.

Definition prmcio_read d (addr : Z) : NV2AState G V * Z :=
  let '(v, r) := vga_ioport_read (vga d) addr in (d <| vga := v |>, r).

Definition prmcio_write d (addr val : Z) : NV2AState G V :=
  let val := if (addr =? VGA_ATT_W) && (vga_ar_flip_flop (vga d) =? 0)
             then Z.lor val VGA_AR_ENABLE_DISPLAY else val in
  d <| vga ::= fun v => vga_ioport_write v addr val |>.

Definition nv2a_get_bpp d : result Z :=
  let depth := Z.land (vga_cr (vga d) 0x28) 3 in
  if depth =? 0 then Ok 0
  else if depth =? 2 then
    Ok (if has (general_control (pramdac d)) NV_PRAMDAC_GENERAL_CONTROL_ALT_MODE_SEL
        then 16 else 15)
  else if depth =? 3 then Ok 32
  else Fault (AssertFail "Unknown VGA depth").

(** ** Channel window (user.c) and the FIFO registers (pfifo.c) *)

Definition pfifo_kick d : NV2AState G V := d <| fifo_kick := true |>.

Definition pfifo_read d (addr : Z) : result Z :=
  if addr =? NV_PFIFO_INTR_0 then Ok (pending (pfifo_irq d))
  else if addr =? NV_PFIFO_INTR_EN_0 then Ok (enabled (pfifo_irq d))
  else if addr =? NV_PFIFO_RUNOUT_STATUS then Ok NV_PFIFO_RUNOUT_STATUS_LOW_MARK
  else reg_r 0x2000 (pfifo_regs d) addr.

Definition pfifo_write d (addr val : Z) : result (NV2AState G V) :=
  d ← (if addr =? NV_PFIFO_INTR_0 then Ok (nv2a_update_irq (d <| pfifo_irq ::= ack val |>))
       else if addr =? NV_PFIFO_INTR_EN_0 then
         Ok (nv2a_update_irq (d <| pfifo_irq ::= enable val |>))
       else m ← reg_w 0x2000 addr (u32 val) (pfifo_regs d); Ok (d <| pfifo_regs := m |>));
  Ok (pfifo_kick d).

(** The channel of an address, when it runs in DMA mode and is the current
    one; anything else is an assertion. *)
Definition user_channel d (addr : Z) : result unit :=
  let channel_id := Z.shiftr addr 16 in
  _ ← check (channel_id <? NV2A_NUM_CHANNELS) "channel_id < NV2A_NUM_CHANNELS";
  _ ← check (has (rd (pfifo_regs d) NV_PFIFO_MODE) (bit channel_id)) "Failed to enter DMA mode";
  check (channel_id =? GET_MASK (rd (pfifo_regs d) NV_PFIFO_CACHE1_PUSH1) NV_PFIFO_CACHE1_PUSH1_CHID)
    "channel_id == cur_channel_id".

Definition user_read d (addr : Z) : result Z :=
  _ ← user_channel d addr;
  let a := Z.land addr 0xFFFF in
  if a =? NV_USER_DMA_PUT then Ok (rd (pfifo_regs d) NV_PFIFO_CACHE1_DMA_PUT)
  else if a =? NV_USER_DMA_GET then Ok (rd (pfifo_regs d) NV_PFIFO_CACHE1_DMA_GET)
  else if a =? NV_USER_REF then Ok (rd (pfifo_regs d) NV_PFIFO_CACHE1_REF)
  else Ok 0.

Definition user_write d (addr val : Z) : result (NV2AState G V) :=
  _ ← user_channel d addr;
  let a := Z.land addr 0xFFFF in
  r ← (if a =? NV_USER_DMA_PUT then Ok NV_PFIFO_CACHE1_DMA_PUT
       else if a =? NV_USER_DMA_GET then Ok NV_PFIFO_CACHE1_DMA_GET
       else if a =? NV_USER_REF then Ok NV_PFIFO_CACHE1_REF
       else Fault (AssertFail "Unsupported NV_USER DMA register write offset"));
  Ok (pfifo_kick (d <| pfifo_regs ::= wr r (u32 val) |>)).

(** ** Registers of the 3D engine (pgraph.c, rdi.c) *)

Definition pgraph_reg_r d (r : Z) : result Z :=
  _ ← check (r mod 4 =? 0) "r % 4 == 0"; reg_r 0x2000 (pgraph_regs d) r.

(** The store of a register, which marks a register that changes as dirty. *)
Definition pgraph_set (r v : Z) d : NV2AState G V :=
  d <| regs_dirty ::= fun s => if rd (pgraph_regs d) r =? v then s else {[ r / 4 ]} ∪ s |>
    <| pgraph_regs ::= wr r v |>.

Definition pgraph_reg_w d (r v : Z) : result (NV2AState G V) :=
  _ ← check (r mod 4 =? 0) "r % 4 == 0";
  _ ← reg_r 0x2000 (pgraph_regs d) r; Ok (pgraph_set r (u32 v) d).

(** [PG_GET_MASK] and [PG_SET_MASK] of a register of the table. *)
Definition PG_GET_MASK d (r mask : Z) : Z := GET_MASK (rd (pgraph_regs d) r) mask.
Definition PG_SET_MASK (r mask v : Z) d : NV2AState G V :=
  pgraph_set r (SET_MASK (rd (pgraph_regs d) r) mask v) d.

Definition vtx_select (select : Z) : bool :=
  (select =? RDI_INDEX_VTX_CONSTANTS0) || (select =? RDI_INDEX_VTX_CONSTANTS1).

(** Component [3 - address % 4] of constant [address / 4]. *)
Definition pgraph_rdi_read d (select address : Z) : result Z :=
  if vtx_select select then
    _ ← check (address / 4 <? NV2A_VERTEXSHADER_CONSTANTS)
          "(address / 4) < NV2A_VERTEXSHADER_CONSTANTS";
    reg_r (4 * NV2A_VERTEXSHADER_CONSTANTS) (vsh_constants d)
      (4 * (address / 4) + (3 - address mod 4))
  else Fault (AssertFail "Unknown rdi read select").

(** The store of a constant follows an assertion that always fails. *)
Definition pgraph_rdi_write d (select : Z) : result (NV2AState G V) :=
  if vtx_select select then Fault (AssertFail "Untested vertex constants select") else Ok d.

Definition rdi_advance d (address : Z) : result (NV2AState G V) :=
  _ ← check (address <? GET_MASK NV_PGRAPH_RDI_INDEX_ADDRESS NV_PGRAPH_RDI_INDEX_ADDRESS)
        "address < GET_MASK(NV_PGRAPH_RDI_INDEX_ADDRESS)";
  Ok (PG_SET_MASK NV_PGRAPH_RDI_INDEX NV_PGRAPH_RDI_INDEX_ADDRESS (address + 1) d).

Definition pgraph_read d (addr : Z) : result (NV2AState G V * Z) :=
  if addr =? NV_PGRAPH_INTR then Ok (d, pending (pgraph_irq d))
  else if addr =? NV_PGRAPH_INTR_EN then Ok (d, enabled (pgraph_irq d))
  else if addr =? NV_PGRAPH_RDI_DATA then
    let address := PG_GET_MASK d NV_PGRAPH_RDI_INDEX NV_PGRAPH_RDI_INDEX_ADDRESS in
    r ← pgraph_rdi_read d (PG_GET_MASK d NV_PGRAPH_RDI_INDEX NV_PGRAPH_RDI_INDEX_SELECT) address;
    d ← rdi_advance d address; Ok (d, r)
  else r ← pgraph_reg_r d addr; Ok (d, r).

Definition pgraph_increment d : result (NV2AState G V) :=
  let modulo := PG_GET_MASK d NV_PGRAPH_SURFACE NV_PGRAPH_SURFACE_MODULO_3D in
  if modulo =? 0 then Fault DivByZero
  else Ok (PG_SET_MASK NV_PGRAPH_SURFACE NV_PGRAPH_SURFACE_READ_3D
             ((PG_GET_MASK d NV_PGRAPH_SURFACE NV_PGRAPH_SURFACE_READ_3D + 1) mod modulo) d).

Definition pgraph_write d (addr val : Z) : result (NV2AState G V) :=
  d ← (if addr =? NV_PGRAPH_INTR then
         let d := d <| pgraph_irq ::= ack val |> in
         let d := if has (pending (pgraph_irq d)) NV_PGRAPH_INTR_ERROR then d
                  else d <| waiting_for_nop := false |> in
         let d := if has (pending (pgraph_irq d)) NV_PGRAPH_INTR_CONTEXT_SWITCH then d
                  else d <| waiting_for_context_switch := false |> in
         Ok (pfifo_kick d)
       else if addr =? NV_PGRAPH_INTR_EN then Ok (d <| pgraph_irq ::= enable val |>)
       else if addr =? NV_PGRAPH_INCREMENT then
         if has val NV_PGRAPH_INCREMENT_READ_3D then
           d ← pgraph_increment d; Ok (pfifo_kick d)
         else Ok d
       else if addr =? NV_PGRAPH_RDI_DATA then
         d ← pgraph_rdi_write d (PG_GET_MASK d NV_PGRAPH_RDI_INDEX NV_PGRAPH_RDI_INDEX_SELECT);
         rdi_advance d (PG_GET_MASK d NV_PGRAPH_RDI_INDEX NV_PGRAPH_RDI_INDEX_ADDRESS)
       else if addr =? NV_PGRAPH_CHANNEL_CTX_TRIGGER then
         let context_address :=
           Z.shiftl (PG_GET_MASK d NV_PGRAPH_CHANNEL_CTX_POINTER NV_PGRAPH_CHANNEL_CTX_POINTER_INST) 4 in
         if has val NV_PGRAPH_CHANNEL_CTX_TRIGGER_READ_IN then
           _ ← check (context_address <? ramin_size d) "context_address < memory_region_size(&d->ramin)";
           context_user ← ldl_le_p (ramin_size d) (ramin d) context_address;
           Ok (pgraph_set NV_PGRAPH_CTX_USER context_user d)
         else Ok d
       else pgraph_reg_w d addr val);
  Ok (if addr =? NV_PGRAPH_FIFO then pfifo_kick d else d).

Definition pgraph_context_switch d (channel_id : Z) : result (NV2AState G V) :=
  if has (rd (pgraph_regs d) NV_PGRAPH_CTX_CONTROL) NV_PGRAPH_CTX_CONTROL_CHID &&
     (PG_GET_MASK d NV_PGRAPH_CTX_USER NV_PGRAPH_CTX_USER_CHID =? channel_id) then Ok d
  else
    let d := PG_SET_MASK NV_PGRAPH_TRAPPED_ADDR NV_PGRAPH_TRAPPED_ADDR_CHID channel_id d in
    _ ← check (PG_GET_MASK d NV_PGRAPH_DEBUG_3 NV_PGRAPH_DEBUG_3_HW_CONTEXT_SWITCH =? 0)
          "!PG_GET_MASK(NV_PGRAPH_DEBUG_3, NV_PGRAPH_DEBUG_3_HW_CONTEXT_SWITCH)";
    Ok (nv2a_update_irq
          (d <| waiting_for_context_switch := true |>
             <| pgraph_irq ::=
                  fun i => i <| pending ::= fun p => Z.lor p NV_PGRAPH_INTR_CONTEXT_SWITCH |> |>)).

(** ** DMA objects (nv2a.c) *)

Record DMAObject := mkDMAObject {
  dma_class : Z;
  dma_target : Z;
  dma_address : Z;
  dma_limit : Z;
}.

Definition nv_dma_load d (dma_obj_address : Z) : result DMAObject :=
  _ ← check (dma_obj_address <? ramin_size d) "dma_obj_address < memory_region_size(&d->ramin)";
  flags ← ldl_le_p (ramin_size d) (ramin d) dma_obj_address;
  limit ← ldl_le_p (ramin_size d) (ramin d) (dma_obj_address + 4);
  frame ← ldl_le_p (ramin_size d) (ramin d) (dma_obj_address + 8);
  Ok (mkDMAObject (GET_MASK flags NV_DMA_CLASS) (GET_MASK flags NV_DMA_TARGET)
        (Z.lor (Z.land frame NV_DMA_ADDRESS) (GET_MASK flags NV_DMA_ADJUST)) limit).

(** The offset in VRAM of the mapping and its length. *)
Definition nv_dma_map d (dma_obj_address : Z) : result (Z * Z) :=
  dma ← nv_dma_load d dma_obj_address;
  let address := Z.land (dma_address dma) 0x07FFFFFF in
  _ ← check (address <? vram_size d) "dma.address < memory_region_size(d->vram)";
  Ok (address, dma_limit dma).

(** ** Scan-out parameters (nv2a.c) *)

Record VGADisplayParams := mkParams {
  line_offset : Z;
  start_addr : Z;
  line_compare : Z;
}.

Definition nv2a_get_params d : VGADisplayParams :=
  let cr := vga_cr (vga d) in
  mkParams
    (Z.shiftl (Z.lor (Z.lor (cr 0x13) (Z.shiftl (Z.land (cr 0x19) 0xe0) 3))
                     (Z.shiftl (Z.land (cr 0x25) 0x20) 6)) 3)
    (pcrtc_start d / 4)
    (Z.lor (Z.lor (cr 0x18) (Z.shiftl (Z.land (cr 0x07) 0x10) 4))
           (Z.shiftl (Z.land (cr 0x09) 0x40) 3)).

(** ** Reset (nv2a.c)

    [flush] is what the renderer does to the state of the 3D engine before the
    registers are cleared. *)

Fixpoint grey_palette (n : nat) (m : mem) : mem :=
  match n with
  | O => m
  | S n =>
      let i := Z.of_nat n in
      wr (i * 3 + 2) i (wr (i * 3 + 1) i (wr (i * 3) i (grey_palette n m)))
  end.

Definition nv2a_reset (flush : G -> G) d : NV2AState G V :=
  d <| pgraph_rest ::= flush |>
    <| pfifo_regs := wr NV_PFIFO_CACHE1_STATUS NV_PFIFO_CACHE1_STATUS_LOW_MARK ∅ |>
    <| pgraph_regs := ∅ |>
    <| pvideo_regs := ∅ |>
    <| pcrtc_start := 0 |>
    <| pramdac ::= fun p => p <| core_clock_coeff := 0x00011C01 |>
                              <| core_clock_freq := 233333324 |>
                              <| memory_clock_coeff := 0 |>
                              <| video_clock_coeff := 0x0003C20D |> |>
    <| vga ::= fun v => vga_set_msr (vga_common_reset v) VGA_MIS_COLOR |>
    <| waiting_for_nop := false |>
    <| waiting_for_flip := false |>
    <| waiting_for_context_switch := false |>
    <| pmc ::= fun i => i <| pending := 0 |> |>
    <| pfifo_irq ::= fun i => i <| pending := 0 |> |>
    <| ptimer_irq ::= fun i => i <| pending := 0 |> |>
    <| pcrtc_irq ::= fun i => i <| pending := 0 |> |>
    <| palette ::= grey_palette 256 |>
    <| fifo_kick := true |>.

(** ** The register window (nv2a.c) *)

Inductive block :=
| PMC | PBUS | PFIFO | PRMA | PVIDEO | PTIMER | PCOUNTER | PVPE | PTV | PRMFB | PRMVIO
| PFB | PSTRAPS | PGRAPH | PCRTC | PRMCIO | PRAMDAC | PRMDIO | USER.

Definition blocktable : list (block * Z * Z) :=
  [ (PMC, 0x000000, 0x001000); (PBUS, 0x001000, 0x001000); (PFIFO, 0x002000, 0x002000);
    (PRMA, 0x007000, 0x001000); (PVIDEO, 0x008000, 0x001000); (PTIMER, 0x009000, 0x001000);
    (PCOUNTER, 0x00a000, 0x001000); (PVPE, 0x00b000, 0x001000); (PTV, 0x00d000, 0x001000);
    (PRMFB, 0x0a0000, 0x020000); (PRMVIO, 0x0c0000, 0x001000); (PFB, 0x100000, 0x001000);
    (PSTRAPS, 0x101000, 0x001000); (PGRAPH, 0x400000, 0x002000); (PCRTC, 0x600000, 0x001000);
    (PRMCIO, 0x601000, 0x001000); (PRAMDAC, 0x680000, 0x001000); (PRMDIO, 0x681000, 0x001000);
    (USER, 0x800000, 0x800000) ].

Definition RAMIN_OFFSET : Z := 0x700000.
Definition MMIO_SIZE : Z := 0x1000000.

(** What an address of the window decodes to: a register block with the
    offset in it, the instance memory, or nothing. *)
Inductive target := InBlock (b : block) (offset : Z) | InRamin (offset : Z) | Unassigned.

Definition in_range (off size addr : Z) : bool := (off <=? addr) && (addr <? off + size).

Definition mmio_decode d (addr : Z) : target :=
  match list_find (fun e : block * Z * Z => Is_true (in_range e.1.2 e.2 addr)) blocktable with
  | Some (_, (b, off, _)) => InBlock b (addr - off)
  | None => if in_range RAMIN_OFFSET (ramin_size d) addr then InRamin (addr - RAMIN_OFFSET)
            else Unassigned
  end.

Definition pure (d : NV2AState G V) (r : Z) : result (NV2AState G V * Z) := Ok (d, r).
Definition query d (r : result Z) : result (NV2AState G V * Z) := v ← r; Ok (d, v).

(** The [read] and [write] callbacks of a block; the blocks of stubs.c read 0
    and ignore writes. *)
Definition block_read d (b : block) (addr size : Z) : result (NV2AState G V * Z) :=
  match b with
  | PMC => pure d (pmc_read d addr)
  | PBUS => pure d (pbus_read d addr)
  | PFIFO => query d (pfifo_read d addr)
  | PVIDEO => query d (pvideo_read d addr)
  | PTIMER => query d (ptimer_read d addr)
  | PRMVIO => Ok (prmvio_read d addr)
  | PFB => query d (pfb_read d addr)
  | PGRAPH => pgraph_read d addr
  | PCRTC => Ok (pcrtc_read d addr)
  | PRMCIO => Ok (prmcio_read d addr)
  | PRAMDAC => query d (pramdac_read d addr size)
  | PRMDIO => pure d (prmdio_read d addr)
  | USER => query d (user_read d addr)
  | PRMA | PCOUNTER | PVPE | PTV | PRMFB | PSTRAPS => pure d 0
  end.

Definition block_write d (b : block) (addr val : Z) : result (NV2AState G V) :=
  match b with
  | PMC => Ok (pmc_write d addr val)
  | PBUS => Ok (pbus_write d addr val)
  | PFIFO => pfifo_write d addr val
  | PVIDEO => pvideo_write d addr val
  | PTIMER => Ok (ptimer_write d addr val)
  | PRMVIO => Ok (prmvio_write d addr val)
  | PFB => pfb_write d addr val
  | PGRAPH => pgraph_write d addr val
  | PCRTC => Ok (pcrtc_write d addr val)
  | PRMCIO => Ok (prmcio_write d addr val)
  | PRAMDAC => Ok (pramdac_write d addr val)
  | PRMDIO => Ok (prmdio_write d addr val)
  | USER => user_write d addr val
  | PRMA | PCOUNTER | PVPE | PTV | PRMFB | PSTRAPS => Ok d
  end.

(** An aligned access of [size] 1, 2 or 4 bytes; what a block returns is cut
    to the access size. *)
Definition mmio_read d (addr size : Z) : result (NV2AState G V * Z) :=
  match mmio_decode d addr with
  | InBlock b a => '(d, r) ← block_read d b a size; Ok (d, r mod 2 ^ (8 * size))
  | InRamin a => Ok (d, le_word (load_bytes (ramin d) a (Z.to_nat size)))
  | Unassigned => Ok (d, 0)
  end.

Definition mmio_write d (addr val size : Z) : result (NV2AState G V) :=
  match mmio_decode d addr with
  | InBlock b a => block_write d b a (val mod 2 ^ (8 * size))
  | InRamin a => Ok (d <| ramin := store_bytes (ramin d) a (le_bytes (Z.to_nat size) val) |>)
  | Unassigned => Ok d
  end.

(** What the guest and the display do to the device. *)
Inductive access := MmioRead (addr size : Z) | MmioWrite (addr val size : Z) | Vblank.

Definition access_step d (x : access) : result (NV2AState G V) :=
  match x with
  | MmioRead addr size => '(d, _) ← mmio_read d addr size; Ok d
  | MmioWrite addr val size => mmio_write d addr val size
  | Vblank => Ok (nv2a_vga_gfx_update d)
  end.

Fixpoint access_steps d (l : list access) : result (NV2AState G V) :=
  match l with [] => Ok d | x :: l => d ← access_step d x; access_steps d l end.

(** ** The register window *)

Lemma in_range_spec off size addr : Is_true (in_range off size addr) <-> off <= addr < off + size.
Proof. unfold in_range. rewrite Is_true_true, andb_true_iff, Z.leb_le, Z.ltb_lt. done. Qed.

(** [disjoint_from e l]: block [e] overlaps none of [l]. *)
Definition disjoint_from (e : block * Z * Z) (l : list (block * Z * Z)) : bool :=
  forallb (fun e' : block * Z * Z =>
    (e.1.2 + e.2 <=? e'.1.2) || (e'.1.2 + e'.2 <=? e.1.2)) l.

Fixpoint all_disjoint (l : list (block * Z * Z)) : bool :=
  match l with [] => true | e :: l => disjoint_from e l && all_disjoint l end.

Lemma disjoint_not_in e l addr : disjoint_from e l = true -> in_range e.1.2 e.2 addr = true ->
  forall e', e' ∈ l -> in_range e'.1.2 e'.2 addr = false.
Proof.
  unfold disjoint_from, in_range. rewrite forallb_forall, andb_true_iff, Z.leb_le, Z.ltb_lt.
  intros Hd Ha e' He. apply list_elem_of_In, Hd in He.
  rewrite orb_true_iff, !Z.leb_le in He. rewrite andb_false_iff, Z.leb_gt, Z.ltb_ge. lia.
Qed.

Lemma find_block l b off size addr :
  all_disjoint l = true -> (b, off, size) ∈ l -> in_range off size addr = true ->
  exists i, list_find (fun e : block * Z * Z => Is_true (in_range e.1.2 e.2 addr)) l =
    Some (i, (b, off, size)).
Proof.
  induction l as [|e l IH]; intros Hd Hin Hr; [by apply not_elem_of_nil in Hin|].
  cbn [all_disjoint] in Hd. apply andb_true_iff in Hd as [Hd1 Hd2]. cbn [list_find].
  apply elem_of_cons in Hin as [<-|Hin].
  - exists 0%nat. rewrite decide_True; [done|]. by apply Is_true_true.
  - destruct (IH Hd2 Hin Hr) as [i ->].
    destruct (decide _) as [Ht|_]; [|by exists (S i)].
    exfalso. apply Is_true_true in Ht.
    pose proof (disjoint_not_in e l addr Hd1 Ht _ Hin) as Hn. cbn in Hn. congruence.
Qed.

Lemma decode_block d b off size a : (b, off, size) ∈ blocktable -> 0 <= a < size ->
  mmio_decode d (off + a) = InBlock b a.
Proof.
  intros Hin Ha. unfold mmio_decode.
  destruct (find_block blocktable b off size (off + a)) as [i ->];
    [vm_compute; done|done| |f_equal; lia].
  apply Is_true_true, in_range_spec. lia.
Qed.

Lemma decode_ramin d a : ramin_size d = 0x100000 -> 0 <= a < 0x100000 ->
  mmio_decode d (RAMIN_OFFSET + a) = InRamin a.
Proof.
  intros Hr Ha. unfold mmio_decode.
  assert (in_range RAMIN_OFFSET 0x100000 (RAMIN_OFFSET + a) = true) as Ht
    by (apply Is_true_true, in_range_spec; lia).
  destruct (list_find _ _) as [[i [[b' off'] size']]|] eqn:Hf.
  - exfalso. apply list_find_Some in Hf as (Hl & Hp & _).
    apply list_elem_of_lookup_2 in Hl.
    assert (disjoint_from (PRMA, RAMIN_OFFSET, 0x100000) blocktable = true) as Hd by (vm_compute; done).
    pose proof (disjoint_not_in _ _ (RAMIN_OFFSET + a) Hd Ht _ Hl) as Hn.
    by rewrite Hn in Hp.
  - rewrite Hr, Ht. f_equal. lia.
Qed.

(** The register window is the block table: an address of a block reaches
    that block at its offset, whatever the order of the table, because the
    blocks are disjoint, lie inside the 16 MB window and leave room for the
    1 MB of instance memory, which decodes to itself. *)
Theorem mmio_window_partition d b off size a :
  ramin_size d = 0x100000 ->
  ((b, off, size) ∈ blocktable -> 0 <= a < size ->
     mmio_decode d (off + a) = InBlock b a /\ off + a < MMIO_SIZE) /\
  (0 <= a < 0x100000 -> mmio_decode d (RAMIN_OFFSET + a) = InRamin a).
Proof.
  intros Hr. split; [|by apply decode_ramin].
  intros Hin Ha. split; [by eapply decode_block|].
  assert (forallb (fun e : block * Z * Z => e.1.2 + e.2 <=? MMIO_SIZE) blocktable = true) as Hf
    by (vm_compute; done).
  rewrite forallb_forall in Hf. apply list_elem_of_In, Hf, Z.leb_le in Hin. cbn in Hin. lia.
Qed.

(** ** Memory safety *)

(** The faults of a guest access that the code intends: assertions, and the
    two divisions by a register. *)
Definition contained {A : Type} (r : result A) : Prop :=
  match r with
  | Fault OutOfBounds | Fault BadShift | Fault NullPointer | Fault OutOfFuel => False
  | _ => True
  end.

Lemma contained_bind {A B : Type} (r : result A) (k : A -> result B) :
  contained r -> (forall x, r = Ok x -> contained (k x)) -> contained (x ← r; k x).
Proof. destruct r as [x|[]]; cbn; auto. Qed.

Lemma contained_check b what : contained (check b what).
Proof. by destruct b. Qed.

Lemma contained_query d r : contained r -> contained (query d r).
Proof. intros Hr. unfold query. by apply contained_bind. Qed.

Lemma contained_reg_r size m a : 0 <= a < size -> contained (reg_r size m a).
Proof. intros Ha. unfold reg_r. by rewrite (proj2 (Z.leb_le _ _)), (proj2 (Z.ltb_lt _ _)) by lia. Qed.

Lemma contained_reg_w size a v m : 0 <= a < size -> contained (reg_w size a v m).
Proof. intros Ha. unfold reg_w. by rewrite (proj2 (Z.leb_le _ _)), (proj2 (Z.ltb_lt _ _)) by lia. Qed.

Lemma contained_muldiv a b c : contained (muldiv64 a b c).
Proof. unfold muldiv64. by destruct (_ =? _). Qed.

Create HintDb contained.
#[local] Hint Resolve contained_check contained_query contained_reg_r contained_reg_w
  contained_muldiv : contained.
#[local] Hint Extern 1 (contained (mbind _ _)) => apply contained_bind; [|intros ? ?] : contained.
#[local] Hint Extern 1 (contained (Ok _)) => exact I : contained.
#[local] Hint Extern 1 (contained (Fault (AssertFail _))) => exact I : contained.
#[local] Hint Extern 1 (contained (Fault DivByZero)) => exact I : contained.
#[local] Hint Extern 2 (contained (if ?b then _ else _)) => destruct b : contained.

Lemma GET_MASK_nonneg v mask : 0 <= mask -> 0 <= GET_MASK v mask.
Proof.
  intros Hm. unfold GET_MASK. apply Z.shiftr_nonneg, Z.land_nonneg. by right.
Qed.

Lemma pgraph_rdi_contained d select address : 0 <= address ->
  contained (pgraph_rdi_read d select address).
Proof.
  intros Ha. unfold pgraph_rdi_read. destruct (vtx_select select); [|done].
  apply contained_bind; [auto with contained|]. intros [] Hc. unfold check in Hc.
  destruct (Z.ltb_spec (address / 4) NV2A_VERTEXSHADER_CONSTANTS); [|done].
  apply contained_reg_r. unfold NV2A_VERTEXSHADER_CONSTANTS in *.
  pose proof (Z.mod_pos_bound address 4). pose proof (Z.div_pos address 4). lia.
Qed.

Lemma context_word_contained d : ramin_size d = 0x100000 ->
  contained (ldl_le_p (ramin_size d) (ramin d)
    (Z.shiftl (PG_GET_MASK d NV_PGRAPH_CHANNEL_CTX_POINTER NV_PGRAPH_CHANNEL_CTX_POINTER_INST) 4)).
Proof.
  intros Hr. unfold ldl_le_p, PG_GET_MASK, GET_MASK, NV_PGRAPH_CHANNEL_CTX_POINTER_INST.
  change (ctz32 0xFFFF) with 0. change 0xFFFF with (Z.ones 16).
  rewrite Z.shiftr_0_r, Z.land_ones, Z.shiftl_mul_pow2, Hr by lia.
  pose proof (Z.mod_pos_bound (rd (pgraph_regs d) NV_PGRAPH_CHANNEL_CTX_POINTER) (2 ^ 16)).
  by rewrite !(proj2 (Z.leb_le _ _)) by lia.
Qed.

Lemma pgraph_contained d addr val : ramin_size d = 0x100000 -> 0 <= addr < 0x2000 ->
  contained (pgraph_read d addr) /\ contained (pgraph_write d addr val).
Proof.
  intros Hr Ha. split.
  - unfold pgraph_read, pgraph_reg_r, rdi_advance. pose proof (fun select =>
      pgraph_rdi_contained d select _ (GET_MASK_nonneg (rd (pgraph_regs d) NV_PGRAPH_RDI_INDEX)
        NV_PGRAPH_RDI_INDEX_ADDRESS ltac:(done))). fold (PG_GET_MASK d) in *.
    unfold PG_GET_MASK in *. auto 8 with contained.
  - pose proof (context_word_contained d Hr).
    unfold pgraph_write, pgraph_increment, pgraph_rdi_write, pgraph_reg_w, rdi_advance.
    auto 12 with contained.
Qed.

Lemma pramdac_contained d addr size : size = 1 \/ size = 2 \/ size = 4 -> addr mod size = 0 ->
  0 <= addr -> contained (pramdac_read d addr size).
Proof.
  intros Hs Ha H0. unfold pramdac_read. change 3 with (Z.ones 2). rewrite Z.land_ones by lia.
  pose proof (Z.mod_pos_bound addr (2 ^ 2)). pose proof (Z.div_mod addr (2 ^ 2)).
  pose proof (Z.div_mod addr size).
  enough (u64 (u32 (32 - 8 * size) - 8 * (addr mod 2 ^ 2)) < 64) as Hlt
    by by rewrite (proj2 (Z.ltb_lt _ _) Hlt).
  destruct Hs as [->|[->| ->]]; unfold u32; rewrite (Z.mod_small (32 - _)) by lia;
    unfold u64; rewrite Z.mod_small by lia; lia.
Qed.

Lemma block_contained d b addr val size :
  ramin_size d = 0x100000 -> size = 1 \/ size = 2 \/ size = 4 -> addr mod size = 0 ->
  (exists off n, (b, off, n) ∈ blocktable /\ 0 <= addr < n) ->
  contained (block_read d b addr size) /\ contained (block_write d b addr val).
Proof.
  intros Hr Hs Ha (off & n & Hin & Hn).
  pose proof (pramdac_contained d addr size Hs Ha (proj1 Hn)).
  unfold blocktable in Hin. rewrite !elem_of_cons, elem_of_nil in Hin.
  destruct_or! Hin; try done; injection Hin as -> -> ->;
    unfold block_read, block_write, pure, pfifo_read, pfifo_write, pvideo_read, pvideo_write,
      ptimer_read, ptimer_get_clock, pfb_read, pfb_write, user_read, user_write, user_channel;
    (split; [try by apply (pgraph_contained d addr val)|try by apply (pgraph_contained d addr val)]);
    auto 20 with contained.
Qed.

Lemma decode_in_block d addr b a : mmio_decode d addr = InBlock b a ->
  exists off n, (b, off, n) ∈ blocktable /\ 0 <= a < n /\ addr = off + a.
Proof.
  unfold mmio_decode. destruct (list_find _ _) as [[i [[b' off] n]]|] eqn:Hf.
  - intros [= -> <-]. apply list_find_Some in Hf as (Hl & Hp & _).
    apply in_range_spec in Hp. cbn in Hp. exists off, n.
    split; [by eapply list_elem_of_lookup_2|]. lia.
  - by destruct (in_range _ _ _).
Qed.

Lemma block_offset_aligned b off n size : size = 1 \/ size = 2 \/ size = 4 ->
  (b, off, n) ∈ blocktable -> off mod size = 0.
Proof.
  intros Hs Hin.
  assert (forallb (fun e : block * Z * Z =>
    (e.1.2 mod 1 =? 0) && (e.1.2 mod 2 =? 0) && (e.1.2 mod 4 =? 0)) blocktable = true) as Hf
    by (vm_compute; done).
  rewrite forallb_forall in Hf. apply list_elem_of_In, Hf in Hin. cbn [fst snd] in Hin.
  rewrite !andb_true_iff, !Z.eqb_eq in Hin. destruct Hs as [->|[->| ->]]; tauto.
Qed.


(** ** The interrupt line *)

Definition requests (u : IrqRegs) : bool := has (pending u) (enabled u).

(** The registers the line depends on. *)
Definition irq_view d := (pmc d, pfifo_irq d, pcrtc_irq d, pgraph_irq d, irq_line d).

Definition units_only (p : Z) : Prop :=
  forall n, 0 <= n -> Z.testbit p n = true -> n = 8 \/ n = 12 \/ n = 24.

Record irq_ok d : Prop := {
  ok_units : units_only (pending (pmc d));
  ok_pfifo : Z.testbit (pending (pmc d)) 8 = requests (pfifo_irq d);
  ok_pgraph : Z.testbit (pending (pmc d)) 12 = requests (pgraph_irq d);
  ok_pcrtc : Z.testbit (pending (pmc d)) 24 = requests (pcrtc_irq d);
  ok_line : irq_line d = negb (pending (pmc d) =? 0) && negb (enabled (pmc d) =? 0);
}.

Lemma irq_ok_view d d' : irq_view d' = irq_view d -> irq_ok d -> irq_ok d'.
Proof.
  unfold irq_view. intros [= H1 H2 H3 H4 H5] [].
  by split; rewrite ?H1, ?H2, ?H3, ?H4, ?H5.
Qed.

Lemma unit_bit_spec u m p n : 0 <= m -> 0 <= n ->
  Z.testbit (unit_bit u (bit m) p) n = if n =? m then requests u else Z.testbit p n.
Proof.
  intros Hm Hn. unfold unit_bit, requests. rewrite Z.shiftl_1_l.
  destruct (has _ _); rewrite ?Z.lor_spec, ?Z.ldiff_spec;
    destruct (Z.eqb_spec n m) as [->|Hne];
    rewrite ?Z.pow2_bits_true, ?Z.pow2_bits_false by congruence;
    by rewrite ?orb_true_r, ?orb_false_r, ?andb_false_r, ?andb_true_r.
Qed.

Lemma units_nonzero p : units_only p ->
  negb (p =? 0) = Z.testbit p 8 || Z.testbit p 12 || Z.testbit p 24.
Proof.
  intros Hu. destruct (Z.eqb_spec p 0) as [->|Hne]; [done|]. cbn [negb].
  destruct (Z.testbit p 8) eqn:H8, (Z.testbit p 12) eqn:H12, (Z.testbit p 24) eqn:H24; try done.
  destruct Hne. apply Z.bits_inj'. intros n Hn. rewrite Z.bits_0.
  destruct (Z.testbit p n) eqn:Hp; [|done].
  destruct (Hu n Hn Hp) as [->|[->| ->]]; congruence.
Qed.

Lemma update_irq_ok d : units_only (pending (pmc d)) -> irq_ok (nv2a_update_irq d).
Proof.
  intros Hu.
  assert (forall n, 0 <= n -> Z.testbit (pending (pmc (nv2a_update_irq d))) n =
    if n =? 12 then requests (pgraph_irq d) else
    if n =? 24 then requests (pcrtc_irq d) else
    if n =? 8 then requests (pfifo_irq d) else Z.testbit (pending (pmc d)) n) as Hb.
  { intros n Hn. change (pending (pmc (nv2a_update_irq d))) with
      (unit_bit (pgraph_irq d) (bit 12) (unit_bit (pcrtc_irq d) (bit 24)
         (unit_bit (pfifo_irq d) (bit 8) (pending (pmc d))))).
    by rewrite !unit_bit_spec by lia. }
  split; [|by rewrite Hb by lia..|reflexivity].
  intros n Hn Ht. rewrite Hb in Ht by done.
  destruct (Z.eqb_spec n 12), (Z.eqb_spec n 24), (Z.eqb_spec n 8); try lia. by apply Hu.
Qed.

Lemma units_ack p val : units_only p -> units_only (Z.ldiff p val).
Proof. intros Hu n Hn. rewrite Z.ldiff_spec, andb_true_iff. intros [Ht _]. by apply Hu. Qed.

Lemma update_ack_ok d val : irq_ok d -> irq_ok (nv2a_update_irq (d <| pmc ::= ack val |>)).
Proof. intros []. apply update_irq_ok. by apply units_ack. Qed.

(** Updates of the other interrupt registers keep [units_only]. *)
Lemma update_units_ok d d' : pending (pmc d') = pending (pmc d) -> irq_ok d ->
  irq_ok (nv2a_update_irq d').
Proof. intros Hp []. apply update_irq_ok. by rewrite Hp. Qed.

(** Case analysis on the conditions of a handler that returned [d']. *)
Ltac handler_cases H :=
  repeat match type of H with
  | (if ?b then _ else _) = Ok _ => destruct b
  | mbind _ ?r = Ok _ => let E := fresh "E" in destruct r eqn:E; cbn [mbind result_mbind result_bind] in H
  | Fault _ = Ok _ => discriminate H
  | Ok _ = Ok _ => injection H; clear H; intros; subst
  end.

Lemma pgraph_read_irq d addr d' r : pgraph_read d addr = Ok (d', r) -> irq_view d' = irq_view d.
Proof.
  unfold pgraph_read. intros H. handler_cases H; try done.
  unfold rdi_advance in E0. by handler_cases E0.
Qed.

Lemma block_read_irq d b addr size d' r :
  block_read d b addr size = Ok (d', r) -> irq_view d' = irq_view d.
Proof.
  destruct b; cbn [block_read]; unfold pure, query; intros H; try by handler_cases H.
  - unfold prmvio_read in H. destruct (vga_ioport_read _ _). by injection H as <- _.
  - by eapply pgraph_read_irq.
  - unfold pcrtc_read in H. repeat destruct (_ =? _) in H; by injection H as <- _.
  - unfold prmcio_read in H. destruct (vga_ioport_read _ _). by injection H as <- _.
Qed.

Lemma pgraph_write_irq d addr val d' : addr <> NV_PGRAPH_INTR -> addr <> NV_PGRAPH_INTR_EN ->
  pgraph_write d addr val = Ok d' -> irq_view d' = irq_view d.
Proof.
  intros H1 H2. unfold pgraph_write.
  rewrite (proj2 (Z.eqb_neq _ _) H1), (proj2 (Z.eqb_neq _ _) H2).
  destruct (if addr =? NV_PGRAPH_INCREMENT then _ else _) as [d1|] eqn:Hd; [|done].
  cbn [mbind result_mbind result_bind]. intros [= <-].
  assert (irq_view d1 = irq_view d) as <- by
    (unfold pgraph_increment, rdi_advance, pgraph_rdi_write, pgraph_reg_w in Hd;
     handler_cases Hd; try done; handler_cases E; done).
  by destruct (addr =? NV_PGRAPH_FIFO).
Qed.

Lemma block_write_irq d b addr val d' :
  (b = PGRAPH -> addr <> NV_PGRAPH_INTR /\ addr <> NV_PGRAPH_INTR_EN) ->
  irq_ok d -> block_write d b addr val = Ok d' -> irq_ok d'.
Proof.
  intros Hq Hok. pose proof (update_ack_ok d val Hok).
  assert (forall d1, pending (pmc d1) = pending (pmc d) -> irq_ok (nv2a_update_irq d1)) as Hup
    by (intros; by eapply update_units_ok).
  destruct b; cbn [block_write]; intros H0;
    try (injection H0 as <-);
    try (by apply (irq_ok_view d)).
  - unfold pmc_write. repeat destruct (_ =? _); by auto.
  - unfold pbus_write. destruct (_ =? _); by apply (irq_ok_view d).
  - unfold pfifo_write in H0. destruct (addr =? NV_PFIFO_INTR_0);
      [|destruct (addr =? NV_PFIFO_INTR_EN_0)]; cbn [mbind result_mbind result_bind] in H0;
      handler_cases H0.
    + by apply (irq_ok_view (nv2a_update_irq (d <| pfifo_irq ::= ack val |>))); [|apply Hup].
    + by apply (irq_ok_view (nv2a_update_irq (d <| pfifo_irq ::= enable val |>))); [|apply Hup].
    + by apply (irq_ok_view d); [|done]; handler_cases E.
  - unfold pvideo_write in H0. destruct (has val 1); handler_cases H0; by apply (irq_ok_view d).
  - unfold ptimer_write. repeat destruct (_ =? _); auto; by apply (irq_ok_view d).
  - unfold pfb_write in H0. handler_cases H0. by apply (irq_ok_view d).
  - destruct (Hq eq_refl). apply (irq_ok_view d); [by eapply pgraph_write_irq|done].
  - unfold pcrtc_write. repeat destruct (_ =? _); auto; by apply (irq_ok_view d).
  - unfold pramdac_write. repeat destruct (_ =? _); by apply (irq_ok_view d).
  - unfold prmdio_write. repeat destruct (_ =? _); by apply (irq_ok_view d).
  - unfold user_write in H0. handler_cases H0; by apply (irq_ok_view d).
Qed.

(** The two registers of the 3D engine whose writes do not recompute the line. *)
Definition keeps_line (x : access) : bool :=
  match x with
  | MmioWrite addr _ _ =>
      negb (addr =? 0x400000 + NV_PGRAPH_INTR) && negb (addr =? 0x400000 + NV_PGRAPH_INTR_EN)
  | _ => true
  end.

Lemma access_step_irq d x d' :
  keeps_line x = true -> irq_ok d -> access_step d x = Ok d' -> irq_ok d'.
Proof.
  intros Hk Hok. destruct x as [addr size|addr val size|]; cbn [access_step].
  - unfold mmio_read. destruct (mmio_decode d addr) as [b a| |]; try by intros [= <-].
    destruct (block_read d b a size) as [[d1 r]|] eqn:Hb; [|done]. intros [= <-].
    apply (irq_ok_view d); [by eapply block_read_irq|done].
  - unfold mmio_write. destruct (mmio_decode d addr) as [b a| |] eqn:Hd;
      [|intros [= <-]; by apply (irq_ok_view d)..].
    apply block_write_irq; [|done]. intros ->.
    apply decode_in_block in Hd as (off & n & Hin & _ & ->).
    assert (forallb (fun e : block * Z * Z =>
      match e.1.1 with PGRAPH => e.1.2 =? 0x400000 | _ => true end) blocktable = true) as Hf by done.
    rewrite forallb_forall in Hf. apply list_elem_of_In, Hf, Z.eqb_eq in Hin. cbn in Hin. subst off.
    cbn [keeps_line] in Hk. rewrite andb_true_iff, !negb_true_iff, !Z.eqb_neq in Hk. lia.
  - intros [= <-]. by apply (update_units_ok d).
Qed.

Lemma access_steps_irq l d d' :
  forallb keeps_line l = true -> irq_ok d -> access_steps d l = Ok d' -> irq_ok d'.
Proof.
  revert d. induction l as [|x l IH]; intros d Hk Hok; cbn [access_steps].
  - by intros [= <-].
  - cbn in Hk. apply andb_true_iff in Hk as [Hx Hk].
    destruct (access_step d x) as [d1|] eqn:Hs; [|done]. cbn. apply IH; [done|].
    by eapply access_step_irq.
Qed.

(** C21. The PCI interrupt line is the one the unit registers ask for: after
    any sequence of register accesses and vertical blanks, other than writes to
    the two interrupt registers of the 3D engine, the line is high exactly when
    interrupts are enabled in the card control and one of the FIFO, the 3D
    engine and the CRT controller has a pending interrupt it enables; PMC_INTR_0
    shows these units and no other bit. *)
Theorem nv2a_irq_line_exact l d d' :
  forallb keeps_line l = true -> irq_ok d -> access_steps d l = Ok d' ->
  irq_line d' = negb (enabled (pmc d') =? 0) &&
    (requests (pfifo_irq d') || requests (pgraph_irq d') || requests (pcrtc_irq d')) /\
  forall n, 0 <= n -> Z.testbit (pmc_read d' NV_PMC_INTR_0) n =
    ((n =? 8) && requests (pfifo_irq d')) || ((n =? 12) && requests (pgraph_irq d')) ||
    ((n =? 24) && requests (pcrtc_irq d')).
Proof.
  intros Hk Hok Hs. destruct (access_steps_irq l d d' Hk Hok Hs) as [Hu H8 H12 H24 Hl]. split.
  - by rewrite Hl, (units_nonzero _ Hu), H8, H12, H24, andb_comm.
  - intros n Hn. change (pmc_read d' NV_PMC_INTR_0) with (pending (pmc d')).
    destruct (Z.eqb_spec n 8) as [->|?]; [by rewrite H8; cbn; rewrite !orb_false_r|].
    destruct (Z.eqb_spec n 12) as [->|?]; [by rewrite H12; cbn; rewrite !orb_false_r|].
    destruct (Z.eqb_spec n 24) as [->|?]; [by rewrite H24|].
    destruct (Z.testbit _ n) eqn:Hb; [|done]. destruct (Hu n Hn Hb) as [|[|]]; lia.
Qed.

(** The two excepted registers leave the line behind: when the 3D engine
    holds the line, acknowledging its interrupt clears the request, but
    PMC_INTR_0 still shows the engine and the line stays high until another
    access recomputes it. *)
Theorem pgraph_ack_leaves_line d val :
  irq_ok d -> requests (pgraph_irq d) = true -> enabled (pmc d) <> 0 ->
  Z.land (pending (pgraph_irq d)) (Z.lnot val) = 0 ->
  exists d', pgraph_write d NV_PGRAPH_INTR val = Ok d' /\
    requests (pgraph_irq d') = false /\ irq_line d' = true /\
    has (pmc_read d' NV_PMC_INTR_0) NV_PMC_INTR_0_PGRAPH = true /\
    (requests (pfifo_irq d) = false -> requests (pcrtc_irq d) = false ->
     irq_line (pmc_write d' NV_PMC_INTR_EN_0 (enabled (pmc d))) = false).
Proof.
  intros [Hu H8 H12 H24 Hl] Hreq Hen Hval.
  set (d1 := d <| pgraph_irq ::= ack val |>).
  set (d2 := if has (pending (pgraph_irq d1)) NV_PGRAPH_INTR_ERROR then d1
             else d1 <| waiting_for_nop := false |>).
  set (d3 := if has (pending (pgraph_irq d2)) NV_PGRAPH_INTR_CONTEXT_SWITCH then d2
             else d2 <| waiting_for_context_switch := false |>).
  assert (irq_view (pfifo_kick d3) = irq_view d1) as Hv.
  { subst d3 d2. by repeat destruct (has _ _). }
  exists (pfifo_kick d3). split; [reflexivity|].
  revert Hv. generalize (pfifo_kick d3) as d4. intros d4 Hv.
  injection Hv as V1 V2 V3 V4 V5. rewrite V4, V5.
  assert (requests (pgraph_irq d1) = false) as Hno.
  { unfold requests, has. change (pending (pgraph_irq d1)) with (Z.ldiff (pending (pgraph_irq d)) val).
    by rewrite Z.ldiff_land, Hval. }
  split; [done|]. split; [|split].
  - change (irq_line d1) with (irq_line d). rewrite Hl, (units_nonzero _ Hu), H12, Hreq.
    rewrite orb_true_r. by apply Z.eqb_neq in Hen as ->.
  - change (pmc_read _ _) with (pending (pmc d4)). rewrite V1.
    unfold NV_PMC_INTR_0_PGRAPH. rewrite has_bit by done. by rewrite <- Hreq, <- H12.
  - intros Hf Hc.
    assert (irq_ok (pmc_write d4 NV_PMC_INTR_EN_0 (enabled (pmc d)))) as [Hu' K8 K12 K24 ->].
    { apply update_irq_ok. change (units_only (pending (pmc d4))). by rewrite V1. }
    rewrite (units_nonzero _ Hu'), K8, K12, K24.
    change (pfifo_irq (pmc_write _ _ _)) with (pfifo_irq d4).
    change (pgraph_irq (pmc_write _ _ _)) with (pgraph_irq d4).
    change (pcrtc_irq (pmc_write _ _ _)) with (pcrtc_irq d4).
    enough (requests (pfifo_irq d4) = false /\ requests (pgraph_irq d4) = false /\
            requests (pcrtc_irq d4) = false) as (-> & -> & ->) by done.
    by rewrite V2, V3, V4.
Qed.

(** ** Timer, palette and RAMDAC *)

(** The two halves of the timer are one counter: shifted together, TIME_1
    and TIME_0 give the low 56 bits of the elapsed core clock cycles scaled by
    denominator and numerator, in units of 1/32; with numerator 0, its value at
    power on, a read of the time divides by zero. *)
Theorem ptimer_time_correct d :
  let freq := core_clock_freq (pramdac d) in
  let cycles := virtual_ns d * freq / NANOSECONDS_PER_SECOND in
  0 <= virtual_ns d < 2 ^ 63 -> is_u32 freq -> cycles < 2 ^ 64 ->
  is_u32 (numerator d) -> is_u32 (denominator d) ->
  (numerator d = 0 -> ptimer_read d NV_PTIMER_TIME_0 = Fault DivByZero) /\
  (numerator d <> 0 -> exists lo hi,
     ptimer_read d NV_PTIMER_TIME_0 = Ok lo /\ ptimer_read d NV_PTIMER_TIME_1 = Ok hi /\
     is_u32 lo /\ is_u32 hi /\
     hi * 2 ^ 32 + lo = 32 * ((cycles * denominator d / numerator d) mod 2 ^ 56)).
Proof.
  intros freq cycles Hns Hf Hc Hnum Hden.
  assert (muldiv64 (virtual_ns d) freq NANOSECONDS_PER_SECOND = Ok cycles) as Hm.
  { unfold muldiv64. change (u32 NANOSECONDS_PER_SECOND) with NANOSECONDS_PER_SECOND.
    rewrite (u64_id (virtual_ns d)), (u32_id freq) by (done || (unfold is_u64; lia)).
    cbn [Z.eqb NANOSECONDS_PER_SECOND]. fold cycles. rewrite u64_id; [done|].
    split; [|done]. unfold is_u32 in Hf. apply Z.div_pos; [nia|done]. }
  set (t := cycles * denominator d / numerator d).
  assert (ptimer_get_clock d =
    if numerator d =? 0 then Fault DivByZero else Ok (u64 t)) as Hclk.
  { unfold ptimer_get_clock. fold freq. rewrite Hm. cbn [mbind result_mbind result_bind].
    unfold muldiv64. rewrite !(u32_id _ Hden), !(u32_id _ Hnum), (u64_id cycles); [done|].
    split; [|done]. unfold is_u32 in Hf. apply Z.div_pos; [nia|done]. }
  unfold ptimer_read. rewrite Hclk. cbn [Z.eqb Pos.eqb NV_PTIMER_INTR_0 NV_PTIMER_INTR_EN_0
    NV_PTIMER_NUMERATOR NV_PTIMER_DENOMINATOR NV_PTIMER_TIME_0 NV_PTIMER_TIME_1].
  split; [by intros ->|]. intros Hne%Z.eqb_neq. rewrite Hne. cbn [mbind result_mbind result_bind].
  eexists _, _. split; [done|]. split; [done|].
  change 0x7ffffff with (Z.ones 27). change 0x1fffffff with (Z.ones 29).
  rewrite !Z.land_ones, Z.shiftl_mul_pow2, Z.shiftr_div_pow2 by done.
  assert (u64 t mod 2 ^ 56 = t mod 2 ^ 56) as <- by (apply Z.mod_mod_divide; by exists (2 ^ 8)).
  generalize (u64 t). intros x.
  pose proof (Z.mod_pos_bound x (2 ^ 27)). pose proof (Z.mod_pos_bound (x / 2 ^ 27) (2 ^ 29)).
  change (2 ^ 56) with (2 ^ 27 * 2 ^ 29). rewrite Z.rem_mul_r by done. unfold is_u32. lia.
Qed.

Definition palette_load d (a : Z) (l : list Z) : NV2AState G V :=
  fold_left (fun d v => prmdio_write d NV_USER_DAC_PALETTE_DATA v) l
    (prmdio_write d NV_USER_DAC_WRITE_MODE_ADDRESS a).

Lemma palette_stores l : forall d w, write_mode_address d = w -> 0 <= w ->
  w + Z.of_nat (length l) < 2 ^ 16 -> Z.of_nat (length l) <= 768 ->
  let d' := fold_left (fun d v => prmdio_write d NV_USER_DAC_PALETTE_DATA v) l d in
  write_mode_address d' = w + Z.of_nat (length l) /\
  forall j, 0 <= j < 768 -> rd (palette d') j =
    let q := (j - w) mod 768 in if q <? Z.of_nat (length l) then u8 (byte l q) else rd (palette d) j.
Proof.
  induction l as [|v l IH]; intros d w Hw H0 Hlt Hlen; cbn [fold_left length].
  - split; [lia|]. intros j Hj. cbv zeta. pose proof (Z.mod_pos_bound (j - w) 768).
    by rewrite (proj2 (Z.ltb_ge _ _)) by lia.
  - cbn [length] in Hlt, Hlen.
    destruct (IH (prmdio_write d NV_USER_DAC_PALETTE_DATA v) (w + 1)) as [Ha Hp]; [|lia..|].
    { change (u16 (write_mode_address d + 1) = w + 1). rewrite Hw. apply u16_id. unfold is_u16. lia. }
    split; [rewrite Ha; lia|]. intros j Hj. rewrite (Hp j Hj). cbv zeta.
    change (palette (prmdio_write d NV_USER_DAC_PALETTE_DATA v)) with
      (wr (write_mode_address d mod 768) (u8 v) (palette d)). rewrite Hw.
    pose proof (Z.div_mod w 768 ltac:(done)) as Hdm. pose proof (Z.mod_pos_bound w 768 ltac:(done)) as Hb.
    destruct (ring_distance j (w mod 768) 1 768) as (Hq & Hjq & Hs); [lia..|].
    rewrite Zminus_mod_idemp_r in Hq, Hjq, Hs.
    replace ((j - (w mod 768 + 1)) mod 768) with ((j - (w + 1)) mod 768) in Hs
      by (rewrite !Z.sub_add_distr; symmetry;
          rewrite <- (Zminus_mod_idemp_l (j - w mod 768)), Zminus_mod_idemp_r;
          by rewrite Zminus_mod_idemp_l).
    rewrite Hs. destruct (Z.eq_dec ((j - w) mod 768) 0) as [E|E].
    + rewrite E in *. change (1 <=? 0) with false. cbv iota.
      rewrite (proj2 (Z.ltb_ge (0 - 1 + 768) _)) by lia.
      replace j with (w mod 768) by lia. rewrite rd_wr_eq. cbn. by rewrite (proj2 (Z.ltb_lt _ _)) by lia.
    + rewrite rd_wr_ne by lia. rewrite (proj2 (Z.leb_le 1 _)) by lia.
      destruct (Z.ltb_spec ((j - w) mod 768 - 1) (Z.of_nat (length l))),
        (Z.ltb_spec ((j - w) mod 768) (Z.of_nat (S (length l)))); try lia.
      unfold byte. replace (Z.to_nat ((j - w) mod 768)) with (S (Z.to_nat ((j - w) mod 768 - 1))) by lia.
      done.
Qed.

(** A palette is loaded by its first index and a stream of components:
    after at most 256 colours written from index [a] on, each component is where
    the hardware's auto-increment puts it, wrapping after the last colour, every
    other one is kept, and the index register shows the next colour. *)
Theorem palette_load_correct d a l :
  0 <= a < 256 -> Z.of_nat (length l) <= 768 ->
  prmdio_read (palette_load d a l) NV_USER_DAC_WRITE_MODE_ADDRESS =
    a + Z.of_nat (length l) / 3 /\
  forall j, 0 <= j < 768 -> rd (palette (palette_load d a l)) j =
    let q := (j - 3 * a) mod 768 in
    if q <? Z.of_nat (length l) then u8 (byte l q) else rd (palette d) j.
Proof.
  intros Ha Hl.
  destruct (palette_stores l (prmdio_write d NV_USER_DAC_WRITE_MODE_ADDRESS a) (3 * a)) as [H1 H2];
    [|lia..|].
  { change (Z.land a (Z.ones 8) * 3 = 3 * a). rewrite Z.land_ones, Z.mod_small by lia. lia. }
  split; [|exact H2].
  change (write_mode_address (palette_load d a l) / 3 = a + Z.of_nat (length l) / 3).
  unfold palette_load. rewrite H1, Z.mul_comm, Z.add_comm, Z.div_add by done. lia.
Qed.

Lemma pramdac_read_at d w k size : w mod 4 = 0 -> 0 <= k < 4 -> 0 <= size ->
  8 * size + 8 * k <= 32 ->
  pramdac_read d (w + k) size = Ok (pramdac_reg d w / 2 ^ (32 - 8 * size - 8 * k)).
Proof.
  intros Hw Hk Hs Hle. unfold pramdac_read. pose proof (Z.div_mod w 4 ltac:(done)) as Hdm.
  assert (Z.ldiff (w + k) (Z.ones 2) = w) as E1.
  { rewrite Z.ldiff_ones_r, Z.shiftl_mul_pow2, Z.shiftr_div_pow2 by done. change (2 ^ 2) with 4.
    rewrite <- (Z.div_unique (w + k) 4 (w / 4) k); lia. }
  assert (Z.land (w + k) (Z.ones 2) = k) as E2.
  { rewrite Z.land_ones by done. symmetry. apply (Z.mod_unique _ _ (w / 4)); lia. }
  change (Z.ones 2) with 3 in E1, E2. rewrite E1, E2.
  rewrite (u32_id (32 - 8 * size)) by (unfold is_u32; lia).
  rewrite u64_id by (unfold is_u64; lia). rewrite (proj2 (Z.ltb_lt _ _)) by lia.
  by rewrite Z.shiftr_div_pow2 by lia.
Qed.

(** A byte read of a RAMDAC register returns the bytes in the wrong order:
    the byte at offset [k] is byte [3 - k] of the word a 32-bit read returns. *)
Theorem pramdac_bytes_reversed d w k r :
  0 <= w < 0x1000 -> w mod 4 = 0 -> 0 <= k < 4 ->
  mmio_read d (0x680000 + w) 4 = Ok (d, r) ->
  mmio_read d (0x680000 + (w + k)) 1 = Ok (d, r / 2 ^ (8 * (3 - k)) mod 2 ^ 8).
Proof.
  intros Hw Hal Hk. unfold mmio_read.
  assert ((PRAMDAC, 0x680000, 0x1000) ∈ blocktable) as Hin
    by (unfold blocktable; rewrite !elem_of_cons; tauto).
  pose proof (Z.div_mod w 4 ltac:(done)) as Hdm.
  assert (w / 4 < 0x400) by (apply Z.div_lt_upper_bound; lia).
  rewrite !(decode_block d _ _ _ _ Hin) by lia. cbn [block_read]. unfold query.
  rewrite (pramdac_read_at d w k 1) by lia. rewrite <- (Z.add_0_r w) at 1.
  rewrite (pramdac_read_at d w 0 4) by lia. cbn [mbind result_mbind result_bind].
  generalize (pramdac_reg d w). intros v. change (2 ^ (32 - 8 * 4 - 8 * 0)) with 1.
  rewrite Z.div_1_r. intros [= <-]. do 2 f_equal.
  replace (32 - 8 * 1 - 8 * k) with (8 * (3 - k)) by lia. change (8 * 1) with 8.
  change (2 ^ (8 * 4)) with (2 ^ 32). replace 32 with (8 * (3 - k) + (8 + 8 * k)) by lia.
  rewrite (Z.pow_add_r 2), Z.rem_mul_r by lia.
  rewrite (Z.mul_comm (2 ^ (8 * (3 - k)))), Z.div_add by lia.
  rewrite (Z.div_small (v mod _)) by (apply Z.mod_pos_bound; lia).
  rewrite Z.add_0_l, (Z.pow_add_r 2 8) by lia.
  apply eq_sym, Z.mod_mod_divide. by exists (2 ^ (8 * k)); rewrite Z.mul_comm.
Qed.

End Nv2a.

(** ** Examples *)

(** A VGA core with no state, and a device after power on with the interrupts
    of the 3D engine enabled. *)
Definition no_vga : VgaOps unit := {|
  vga_ioport_read := fun v _ => (v, 0);
  vga_ioport_write := fun v _ _ => v;
  vga_invalidate_scanlines := fun v _ _ => v;
  vga_gfx_update := fun v => v;
  vga_common_reset := fun v => v;
  vga_set_msr := fun v _ => v;
  vga_ar_flip_flop := fun _ => 0;
  vga_cr := fun _ _ => 0;
|}.

Definition nv2a0 : NV2AState unit unit :=
  mkNV2A (mkIrq 0 1) (mkIrq 0 0) ∅ false false ∅ (mkIrq 0 0) 1 2 0 ∅ (mkIrq 0 0xFFFFFFFF) ∅
    ∅ false false false ∅ tt (mkIrq 0 1) 0 0
    (mkPramDac 0x00011C01 233333324 0 0x0003C20D 0 0 0 0 0 0 0 0) 0 ∅
    ∅ 0x4000000 ∅ 0x100000 ∅ tt false 1000000000.

Lemma nv2a0_irq_ok : irq_ok nv2a0.
Proof. split; try done. intros n Hn. by rewrite Z.bits_0. Qed.

Lemma mmio_window_partition_witness : mmio_decode nv2a0 0x600800 = InBlock PCRTC 0x800.
Proof.
  apply (mmio_window_partition nv2a0 PCRTC 0x600000 0x1000 0x800);
    [done|unfold blocktable; rewrite !elem_of_cons; tauto|lia].
Defined.


(** A vertical blank raises the line, the acknowledgement lowers it. *)
Lemma nv2a_irq_line_exact_witness : exists d1 d2,
  @access_steps _ _ no_vga nv2a0 [Vblank] = Ok d1 /\ irq_line d1 = true /\
  @access_steps _ _ no_vga nv2a0 [Vblank; MmioWrite 0x600100 1 4] = Ok d2 /\ irq_line d2 = false.
Proof.
  eexists _, _. split; [reflexivity|]. split; [|split; [reflexivity|]].
  - destruct (@nv2a_irq_line_exact _ _ no_vga [Vblank] nv2a0 _ eq_refl nv2a0_irq_ok eq_refl) as [-> _].
    vm_compute. reflexivity.
  - destruct (@nv2a_irq_line_exact _ _ no_vga [Vblank; MmioWrite 0x600100 1 4] nv2a0 _ eq_refl
      nv2a0_irq_ok eq_refl) as [-> _]. vm_compute. reflexivity.
Defined.

Definition nv2a_switching : NV2AState unit unit :=
  nv2a_update_irq (nv2a0 <| pgraph_irq := mkIrq 0x1000 0xFFFFFFFF |>).

Lemma nv2a_switching_ok : irq_ok nv2a_switching.
Proof. apply update_irq_ok. intros n Hn. change (pending _) with 0. by rewrite Z.bits_0. Qed.

Lemma pgraph_ack_leaves_line_witness : exists d,
  pgraph_write nv2a_switching NV_PGRAPH_INTR 0x1000 = Ok d /\
  requests (pgraph_irq d) = false /\ irq_line d = true.
Proof.
  destruct (pgraph_ack_leaves_line nv2a_switching 0x1000 nv2a_switching_ok)
    as (d & H1 & H2 & H3 & _); [reflexivity|discriminate|reflexivity|].
  exists d. split; [exact H1|]. split; [exact H2|exact H3].
Defined.

(** One second at 233333324 Hz, doubled. *)
Lemma ptimer_time_correct_witness : exists lo hi,
  ptimer_read nv2a0 NV_PTIMER_TIME_0 = Ok lo /\ ptimer_read nv2a0 NV_PTIMER_TIME_1 = Ok hi /\
  hi * 2 ^ 32 + lo = 32 * 466666648.
Proof.
  destruct (ptimer_time_correct nv2a0) as [_ H].
  1,2,4,5: unfold is_u32; cbn [virtual_ns nv2a0 pramdac core_clock_freq numerator denominator]; lia.
  1: vm_compute; reflexivity.
  destruct H as (lo & hi & H1 & H2 & _ & _ & H3); [discriminate|].
  exists lo, hi. split; [exact H1|]. split; [exact H2|]. rewrite H3. vm_compute. reflexivity.
Defined.

Lemma palette_load_correct_witness :
  rd (palette (palette_load nv2a0 255 [1; 2; 3; 4])) 0 = 4 /\
  rd (palette (palette_load nv2a0 255 [1; 2; 3; 4])) 767 = 3.
Proof.
  destruct (palette_load_correct nv2a0 255 [1; 2; 3; 4]) as [_ H]; [lia|cbn; lia|].
  split; [rewrite (H 0)|rewrite (H 767)]; try lia; reflexivity.
Defined.

(** The lock bits of the PLL test counter, in its top byte, read 0 there. *)
Lemma pramdac_bytes_reversed_witness :
  @mmio_read _ _ no_vga nv2a0 (0x680000 + 0x514) 4 = Ok (nv2a0, 0xE8000000) /\
  @mmio_read _ _ no_vga nv2a0 (0x680000 + (0x514 + 3)) 1 = Ok (nv2a0, 0).
Proof.
  split; [reflexivity|].
  rewrite (@pramdac_bytes_reversed _ _ no_vga nv2a0 0x514 3 0xE8000000);
    [reflexivity|lia|reflexivity|lia|reflexivity].
Defined.
