(* ===== verification/Pfifo.v ===== *)
(** The command FIFO of the NV2A (pfifo.c): the hash table of objects in
    instance memory, the puller that hands methods to the 3D engine and the
    DMA pusher that decodes the push buffer in video memory.

    The 3D engine is behind the class [PgraphEngine].  The push buffer has an
    abstract semantics, [feed], that turns words into method calls one at a
    time; the pusher, which hands over batches and keeps its state in bit
    fields of a register, is shown to deliver exactly the calls of the words it
    consumed, to stop with a state from which it can resume, and to consume
    everything when the engine does not stall. *)

From S2P Require Import Prelude Nv2a.

(** ** Register numbers *)

Definition NV_PFIFO_RAMHT : Z := 0x210.
Definition NV_PFIFO_RAMHT_BASE_ADDRESS : Z := 0x1F0.
Definition NV_PFIFO_RAMHT_SIZE : Z := 0x30000.
Definition NV_PFIFO_CACHE1_PUSH0 : Z := 0x1200.
Definition NV_PFIFO_CACHE1_PUSH0_ACCESS : Z := bit 0.
Definition NV_PFIFO_CACHE1_PUSH1_MODE : Z := 0x100.
Definition NV_PFIFO_CACHE1_PUSH1_MODE_DMA : Z := 1.
Definition NV_PFIFO_CACHE1_DMA_PUSH : Z := 0x1220.
Definition NV_PFIFO_CACHE1_DMA_PUSH_ACCESS : Z := bit 0.
Definition NV_PFIFO_CACHE1_DMA_PUSH_STATUS : Z := bit 12.
Definition NV_PFIFO_CACHE1_DMA_STATE : Z := 0x1228.
Definition NV_PFIFO_CACHE1_DMA_STATE_METHOD_TYPE : Z := bit 0.
Definition NV_PFIFO_CACHE1_DMA_STATE_METHOD : Z := 0x1FFC.
Definition NV_PFIFO_CACHE1_DMA_STATE_SUBCHANNEL : Z := 0xE000.
Definition NV_PFIFO_CACHE1_DMA_STATE_METHOD_COUNT : Z := 0x1FFC0000.
Definition NV_PFIFO_CACHE1_DMA_STATE_ERROR : Z := 0xE0000000.
Definition NV_PFIFO_CACHE1_DMA_STATE_ERROR_CALL : Z := 1.
Definition NV_PFIFO_CACHE1_DMA_STATE_ERROR_RETURN : Z := 3.
Definition NV_PFIFO_CACHE1_DMA_INSTANCE : Z := 0x122C.
Definition NV_PFIFO_CACHE1_DMA_INSTANCE_ADDRESS : Z := 0xFFFF.
Definition NV_PFIFO_CACHE1_DMA_SUBROUTINE : Z := 0x124C.
Definition NV_PFIFO_CACHE1_DMA_SUBROUTINE_STATE : Z := bit 0.
Definition NV_PFIFO_CACHE1_PULL0 : Z := 0x1250.
Definition NV_PFIFO_CACHE1_PULL0_ACCESS : Z := bit 0.
Definition NV_PFIFO_CACHE1_PULL1 : Z := 0x1254.
Definition NV_PFIFO_CACHE1_PULL1_ENGINE : Z := 3.
Definition NV_PFIFO_CACHE1_ENGINE : Z := 0x1280.
Definition NV_PFIFO_CACHE1_DMA_DCOUNT : Z := 0x12A0.
Definition NV_PFIFO_CACHE1_DMA_GET_JMP_SHADOW : Z := 0x12A4.
Definition NV_PFIFO_CACHE1_DMA_RSVD_SHADOW : Z := 0x12A8.
Definition NV_PFIFO_CACHE1_DMA_DATA_SHADOW : Z := 0x12AC.
Definition NV_PFIFO_CACHE1_METHOD_TYPE : Z := bit 0.
Definition NV_PFIFO_CACHE1_METHOD_ADDRESS : Z := 0x1FFC.
Definition NV_PFIFO_CACHE1_METHOD_SUBCHANNEL : Z := 0xE000.
Definition NV_RAMHT_INSTANCE : Z := 0xFFFF.
Definition NV_RAMHT_ENGINE : Z := 0x30000.
Definition NV_RAMHT_CHID : Z := 0x1F000000.
Definition NV_RAMHT_STATUS : Z := 0x80000000.
Definition ENGINE_GRAPHICS : Z := 1.

(** An entry of the object table. *)
Record RAMHTEntry := mkEntry {
  ht_handle : Z;
  ht_instance : Z;
  ht_engine : Z;
  ht_channel_id : Z;
  ht_valid : bool;
}.

(** The 3D engine (pgraph.c): [pgraph_method d subchannel method parameter
    parameters num_words_available max_lookahead_words inc], where
    [parameters] is the offset in video memory of the current word, returns
    the number of words processed, or a negative number. *)
Class PgraphEngine (G V : Type) := {
  pgraph_method : NV2AState G V -> Z -> Z -> Z -> Z -> Z -> Z -> bool -> result (NV2AState G V * Z);
  pgraph_process_pending : NV2AState G V -> NV2AState G V;
  pgraph_process_pending_reports : NV2AState G V -> NV2AState G V;
}.

Section Pfifo.
Context {G V : Type} {engine : PgraphEngine G V}.
Implicit Types d : NV2AState G V.

Definition preg d (r : Z) : Z := rd (pfifo_regs d) r.
Definition set_preg (r v : Z) d : NV2AState G V := d <| pfifo_regs ::= wr r v |>.

(** [SET_MASK] of a FIFO register. *)
Definition mask_preg (r mask v : Z) d : NV2AState G V := set_preg r (SET_MASK (preg d r) mask v) d.

(** ** Objects *)

(** [while (handle) ...]; three rounds consume 32 bits, since [bits >= 11]. *)
Fixpoint hash_loop (fuel : nat) (bits handle hash : Z) : result Z :=
  if handle =? 0 then Ok hash
  else match fuel with
       | O => Fault OutOfFuel
       | S fuel => hash_loop fuel bits (Z.shiftr handle bits)
                     (Z.lxor hash (Z.land handle (bit bits - 1)))
       end.

Definition ramht_size d : Z := bit (GET_MASK (preg d NV_PFIFO_RAMHT) NV_PFIFO_RAMHT_SIZE + 12).

Definition ramht_hash d (handle : Z) : result Z :=
  let bits := ctz32 (ramht_size d) - 1 in
  hash ← hash_loop 3 bits handle 0;
  let channel_id := GET_MASK (preg d NV_PFIFO_CACHE1_PUSH1) NV_PFIFO_CACHE1_PUSH1_CHID in
  Ok (Z.lxor hash (u32 (Z.shiftl channel_id (bits - 4)))).

Definition ramht_lookup d (handle : Z) : result RAMHTEntry :=
  hash ← ramht_hash d handle;
  _ ← check (u32 (hash * 8) <? ramht_size d) "hash * 8 < ramht_size";
  let ramht_address :=
    Z.shiftl (GET_MASK (preg d NV_PFIFO_RAMHT) NV_PFIFO_RAMHT_BASE_ADDRESS) 12 in
  _ ← check (ramht_address + u32 (hash * 8) <? ramin_size d)
        "ramht_address + hash * 8 < memory_region_size(&d->ramin)";
  let entry_ptr := ramht_address + u32 (hash * 8) in
  entry_handle ← ldl_le_p (ramin_size d) (ramin d) entry_ptr;
  entry_context ← ldl_le_p (ramin_size d) (ramin d) (entry_ptr + 4);
  Ok (mkEntry entry_handle
        (Z.shiftl (Z.land entry_context NV_RAMHT_INSTANCE) 4)
        (Z.shiftr (Z.land entry_context NV_RAMHT_ENGINE) 16)
        (Z.shiftr (Z.land entry_context NV_RAMHT_CHID) 24)
        (has entry_context NV_RAMHT_STATUS)).

(** ** Puller *)

Definition can_fifo_access d : bool := has (rd (pgraph_regs d) NV_PGRAPH_FIFO) NV_PGRAPH_FIFO_ACCESS.

Definition is_flip_stall_complete d : bool :=
  let s := rd (pgraph_regs d) NV_PGRAPH_SURFACE in
  negb (GET_MASK s NV_PGRAPH_SURFACE_READ_3D =? GET_MASK s NV_PGRAPH_SURFACE_WRITE_3D).

Definition pfifo_stall_for_flip d : NV2AState G V * bool :=
  if waiting_for_flip d then
    if is_flip_stall_complete d then (d <| waiting_for_flip := false |>, false) else (d, true)
  else (d, false).

Definition pfifo_puller_should_stall d : NV2AState G V * bool :=
  let '(d, flip) := pfifo_stall_for_flip d in
  (d, flip || waiting_for_nop d || waiting_for_context_switch d || negb (can_fifo_access d)).

(** [assert(!"...")] of a method below 0x100. *)
Definition unrecognized : result (NV2AState G V * Z) :=
  Fault (AssertFail "Unrecognized pfifo puller method").

Definition pfifo_run_puller d (method_entry parameter parameters num_words_available
    max_lookahead_words : Z) : result (NV2AState G V * Z) :=
  let '(d, stall) := pfifo_puller_should_stall d in
  if stall then Ok (d, -1)
  else if (GET_MASK (preg d NV_PFIFO_CACHE1_PULL0) NV_PFIFO_CACHE1_PULL0_ACCESS =? 0) ||
          has (preg d NV_PFIFO_CACHE1_STATUS) NV_PFIFO_CACHE1_STATUS_LOW_MARK then Ok (d, -1)
  else
    let method := Z.land method_entry 0x1FFC in
    let subchannel := GET_MASK method_entry NV_PFIFO_CACHE1_METHOD_SUBCHANNEL in
    let inc := GET_MASK method_entry NV_PFIFO_CACHE1_METHOD_TYPE =? 0 in
    '(d, num_proc) ←
      (if method =? 0 then
         entry ← ramht_lookup d parameter;
         _ ← check (ht_valid entry) "entry.valid";
         _ ← check (ht_engine entry =? ENGINE_GRAPHICS) "entry.engine == ENGINE_GRAPHICS";
         _ ← check (subchannel <? 8) "subchannel < 8";
         let d := mask_preg NV_PFIFO_CACHE1_ENGINE (Z.shiftl 3 (4 * subchannel)) (ht_engine entry) d in
         let d := mask_preg NV_PFIFO_CACHE1_PULL1 NV_PFIFO_CACHE1_PULL1_ENGINE (ht_engine entry) d in
         if can_fifo_access d then
           d ← pgraph_context_switch d (ht_channel_id entry);
           if waiting_for_context_switch d then Ok (d, -1)
           else pgraph_method d subchannel 0 (u32 (ht_instance entry)) parameters
                  num_words_available max_lookahead_words inc
         else Ok (d, -1)
       else if 0x100 <=? method then
         parameter ← (if (0x180 <=? method) && (method <? 0x200) then
                        entry ← ramht_lookup d parameter;
                        _ ← check (ht_valid entry) "entry.valid";
                        Ok (u32 (ht_instance entry))
                      else Ok parameter);
         let eng := GET_MASK (preg d NV_PFIFO_CACHE1_ENGINE) (Z.shiftl 3 (4 * subchannel)) in
         _ ← check (eng =? ENGINE_GRAPHICS) "engine == ENGINE_GRAPHICS";
         let d := mask_preg NV_PFIFO_CACHE1_PULL1 NV_PFIFO_CACHE1_PULL1_ENGINE eng d in
         if can_fifo_access d then
           pgraph_method d subchannel method parameter parameters
             num_words_available max_lookahead_words inc
         else Ok (d, -1)
       else unrecognized);
    Ok (if 0 <? num_proc
        then set_preg NV_PFIFO_CACHE1_STATUS
               (Z.lor (preg d NV_PFIFO_CACHE1_STATUS) NV_PFIFO_CACHE1_STATUS_LOW_MARK) d
        else d, num_proc).

(** ** Pusher *)

Definition pfifo_pusher_should_stall d : bool := negb (can_fifo_access d) || waiting_for_nop d.

Definition dma_state d : Z := preg d NV_PFIFO_CACHE1_DMA_STATE.
Definition dma_error d : Z := GET_MASK (dma_state d) NV_PFIFO_CACHE1_DMA_STATE_ERROR.
Definition set_state (mask v : Z) d : NV2AState G V := mask_preg NV_PFIFO_CACHE1_DMA_STATE mask v d.

(** The entry a method word makes for the puller. *)
Definition method_entry (method type subchannel : Z) : Z :=
  SET_MASK (SET_MASK (SET_MASK 0 NV_PFIFO_CACHE1_METHOD_ADDRESS (Z.shiftr method 2))
    NV_PFIFO_CACHE1_METHOD_TYPE type) NV_PFIFO_CACHE1_METHOD_SUBCHANNEL subchannel.

(** A data word of a methods command; [None] is the [break] of a stalled
    puller, which keeps DMA_GET. *)
Definition push_data d (word word_ptr dma_get_v num_words_available : Z) :
    result (NV2AState G V * option Z) :=
  let state := dma_state d in
  let method_type := GET_MASK state NV_PFIFO_CACHE1_DMA_STATE_METHOD_TYPE in
  let method_subchannel := GET_MASK state NV_PFIFO_CACHE1_DMA_STATE_SUBCHANNEL in
  let method := Z.shiftl (GET_MASK state NV_PFIFO_CACHE1_DMA_STATE_METHOD) 2 in
  let method_count := GET_MASK state NV_PFIFO_CACHE1_DMA_STATE_METHOD_COUNT in
  let d := set_preg NV_PFIFO_CACHE1_DMA_DATA_SHADOW word d in
  _ ← check (Z.land method 3 =? 0) "(method & 3) == 0";
  let d := set_preg NV_PFIFO_CACHE1_STATUS
             (Z.ldiff (preg d NV_PFIFO_CACHE1_STATUS) NV_PFIFO_CACHE1_STATUS_LOW_MARK) d in
  '(d, n) ← pfifo_run_puller d (method_entry method method_type method_subchannel) word word_ptr
              (Z.min method_count num_words_available) num_words_available;
  if n <? 0 then Ok (d, None)
  else
    let d := if method_type =? 0
             then set_state NV_PFIFO_CACHE1_DMA_STATE_METHOD (Z.shiftr (u32 (method + 4 * n)) 2) d
             else d in
    let d := set_state NV_PFIFO_CACHE1_DMA_STATE_METHOD_COUNT
               (method_count - Z.min method_count n) d in
    let d := set_preg NV_PFIFO_CACHE1_DMA_DCOUNT (u32 (preg d NV_PFIFO_CACHE1_DMA_DCOUNT + n)) d in
    Ok (d, Some (u32 (dma_get_v + (n - 1) * 4))).

(** A methods header: four fields of DMA_STATE. *)
Definition push_header d (word type : Z) : NV2AState G V :=
  let d := set_state NV_PFIFO_CACHE1_DMA_STATE_METHOD (Z.shiftr (Z.land word 0x1fff) 2) d in
  let d := set_state NV_PFIFO_CACHE1_DMA_STATE_SUBCHANNEL (Z.land (Z.shiftr word 13) 7) d in
  let d := set_state NV_PFIFO_CACHE1_DMA_STATE_METHOD_COUNT (Z.land (Z.shiftr word 18) 0x7ff) d in
  let d := set_state NV_PFIFO_CACHE1_DMA_STATE_METHOD_TYPE type d in
  set_preg NV_PFIFO_CACHE1_DMA_DCOUNT 0 d.

(** The first word of a command. *)
Definition push_command d (word dma_get_v : Z) : result (NV2AState G V * option Z) :=
  let subroutine := preg d NV_PFIFO_CACHE1_DMA_SUBROUTINE in
  let subroutine_state := GET_MASK subroutine NV_PFIFO_CACHE1_DMA_SUBROUTINE_STATE in
  let d := set_preg NV_PFIFO_CACHE1_DMA_RSVD_SHADOW word d in
  if Z.land word 0xe0000003 =? 0x20000000 then
    Ok (set_preg NV_PFIFO_CACHE1_DMA_GET_JMP_SHADOW dma_get_v d, Some (Z.land word 0x1fffffff))
  else if Z.land word 3 =? 1 then
    Ok (set_preg NV_PFIFO_CACHE1_DMA_GET_JMP_SHADOW dma_get_v d, Some (Z.land word 0xfffffffc))
  else if Z.land word 3 =? 2 then
    if negb (subroutine_state =? 0) then
      Ok (set_state NV_PFIFO_CACHE1_DMA_STATE_ERROR NV_PFIFO_CACHE1_DMA_STATE_ERROR_CALL d, None)
    else
      let d := set_preg NV_PFIFO_CACHE1_DMA_SUBROUTINE dma_get_v d in
      Ok (mask_preg NV_PFIFO_CACHE1_DMA_SUBROUTINE NV_PFIFO_CACHE1_DMA_SUBROUTINE_STATE 1 d,
          Some (Z.land word 0xfffffffc))
  else if word =? 0x00020000 then
    if subroutine_state =? 0 then
      Ok (set_state NV_PFIFO_CACHE1_DMA_STATE_ERROR NV_PFIFO_CACHE1_DMA_STATE_ERROR_RETURN d,
          Some dma_get_v)
    else
      Ok (mask_preg NV_PFIFO_CACHE1_DMA_SUBROUTINE NV_PFIFO_CACHE1_DMA_SUBROUTINE_STATE 0 d,
          Some (Z.land subroutine 0xfffffffc))
  else if Z.land word 0xe0030003 =? 0 then Ok (push_header d word 0, Some dma_get_v)
  else if Z.land word 0xe0030003 =? 0x40000000 then Ok (push_header d word 1, Some dma_get_v)
  else Fault (AssertFail "Reserved pb command").

(** One round of the pusher's loop; the boolean says whether it goes on. *)
Definition pusher_step d (dma dma_len : Z) : result (NV2AState G V * bool) :=
  let dma_get_v := preg d NV_PFIFO_CACHE1_DMA_GET in
  let dma_put_v := preg d NV_PFIFO_CACHE1_DMA_PUT in
  if pfifo_pusher_should_stall d || (dma_get_v =? dma_put_v) then Ok (d, false)
  else
    _ ← check (dma_get_v <? dma_len) "Dma value is out of range in PFIFO pusher";
    let num_bytes := u32 (dma_put_v - dma_get_v) in
    _ ← check (num_bytes mod 4 =? 0) "num_words_available % 4 == 0";
    word ← ldl_le_p (vram_size d) (vram d) (dma + dma_get_v);
    let get := u32 (dma_get_v + 4) in
    '(d, next) ←
      (if GET_MASK (dma_state d) NV_PFIFO_CACHE1_DMA_STATE_METHOD_COUNT =? 0
       then push_command d word get
       else push_data d word (dma + dma_get_v) get (num_bytes / 4));
    match next with
    | None => Ok (d, false)
    | Some get => let d := set_preg NV_PFIFO_CACHE1_DMA_GET get d in Ok (d, dma_error d =? 0)
    end.

Fixpoint pusher_loop (fuel : nat) d (dma dma_len : Z) : result (NV2AState G V) :=
  match fuel with
  | O => Fault OutOfFuel
  | S fuel =>
      '(d, go) ← pusher_step d dma dma_len;
      if (go : bool) then pusher_loop fuel d dma dma_len else Ok d
  end.

Definition pfifo_run_pusher (fuel : nat) d : result (NV2AState G V) :=
  let push1 := preg d NV_PFIFO_CACHE1_PUSH1 in
  let dma_push := preg d NV_PFIFO_CACHE1_DMA_PUSH in
  if (GET_MASK (preg d NV_PFIFO_CACHE1_PUSH0) NV_PFIFO_CACHE1_PUSH0_ACCESS =? 0) ||
     (GET_MASK dma_push NV_PFIFO_CACHE1_DMA_PUSH_ACCESS =? 0) ||
     negb (GET_MASK dma_push NV_PFIFO_CACHE1_DMA_PUSH_STATUS =? 0) then Ok d
  else
    let channel_id := GET_MASK push1 NV_PFIFO_CACHE1_PUSH1_CHID in
    _ ← check (has (preg d NV_PFIFO_MODE) (bit channel_id)) "channel_modes & (1 << channel_id)";
    _ ← check (GET_MASK push1 NV_PFIFO_CACHE1_PUSH1_MODE =? NV_PFIFO_CACHE1_PUSH1_MODE_DMA)
          "NV_PFIFO_CACHE1_PUSH1_MODE_DMA";
    _ ← check (dma_error d =? 0) "NV_PFIFO_CACHE1_DMA_STATE_ERROR_NONE";
    let dma_instance := Z.shiftl (GET_MASK (preg d NV_PFIFO_CACHE1_DMA_INSTANCE)
                                    NV_PFIFO_CACHE1_DMA_INSTANCE_ADDRESS) 4 in
    '(dma, dma_len) ← nv_dma_map d dma_instance;
    d ← pusher_loop fuel d dma dma_len;
    _ ← check (dma_error d =? 0) "Error reported in PFIFO dma state";
    Ok d.

(** One round of the FIFO thread, up to its wait. *)
Definition pfifo_thread_round (fuel : nat) d : result (NV2AState G V) :=
  let d := pgraph_process_pending (d <| fifo_kick := false |>) in
  d ← (if halt d then Ok d else pfifo_run_pusher fuel d);
  Ok (pgraph_process_pending_reports d).

(** ** The push buffer, abstractly

    Between commands [pb_count] is 0; inside one, [pb_count] data words are
    left, and the next one is for method [4 * pb_method]. *)

Record pb := mkPb { pb_method : Z; pb_subch : Z; pb_count : Z; pb_inc : bool }.

Definition call : Type := Z * Z * Z.

Definition next_method (inc : bool) (m : Z) : Z := if inc then (m + 1) mod 2 ^ 11 else m.

(** A header word or a data word; jumps, calls and returns are not part of a
    straight push buffer. *)
Definition feed (s : pb) (w : Z) : option (pb * list call) :=
  if pb_count s =? 0 then
    let hdr inc := mkPb (w / 2 ^ 2 mod 2 ^ 11) (w / 2 ^ 13 mod 2 ^ 3) (w / 2 ^ 18 mod 2 ^ 11) inc in
    if Z.land w 0xe0030003 =? 0 then Some (hdr true, [])
    else if Z.land w 0xe0030003 =? 0x40000000 then Some (hdr false, [])
    else None
  else Some (mkPb (next_method (pb_inc s) (pb_method s)) (pb_subch s) (pb_count s - 1) (pb_inc s),
             [(pb_subch s, 4 * pb_method s, w)]).

Fixpoint feed_all (s : pb) (ws : list Z) : option (pb * list call) :=
  match ws with
  | [] => Some (s, [])
  | w :: ws =>
      match feed s w with
      | Some (s, c) =>
          match feed_all s ws with Some (s', cs) => Some (s', c ++ cs) | None => None end
      | None => None
      end
  end.

(** The calls of a batch of data words. *)
Fixpoint calls (subch m : Z) (inc : bool) (ws : list Z) : list call :=
  match ws with
  | [] => []
  | w :: ws => (subch, 4 * m, w) :: calls subch (next_method inc m) inc ws
  end.

Fixpoint advance (n : nat) (inc : bool) (m : Z) : Z :=
  match n with O => m | S n => advance n inc (next_method inc m) end.

(** Methods that take no object. *)
Definition plain (c : call) : Prop := 0x100 <= c.1.2 < 0x180 \/ 0x200 <= c.1.2.

(** The state of the pusher as the abstract state. *)
Definition pb_of d : pb :=
  mkPb (GET_MASK (dma_state d) NV_PFIFO_CACHE1_DMA_STATE_METHOD)
       (GET_MASK (dma_state d) NV_PFIFO_CACHE1_DMA_STATE_SUBCHANNEL)
       (GET_MASK (dma_state d) NV_PFIFO_CACHE1_DMA_STATE_METHOD_COUNT)
       (GET_MASK (dma_state d) NV_PFIFO_CACHE1_DMA_STATE_METHOD_TYPE =? 0).

(** The words [ws] lie at offset [a] of video memory. *)
Definition words_at d (a : Z) (ws : list Z) : Prop :=
  forall i w, ws !! i = Some w -> ldl_le_p (vram_size d) (vram d) (a + 4 * Z.of_nat i) = Ok w.

(** What the pusher relies on: an engine that is offered a batch of plain
    methods processes some of it, at least one word, as the calls one after the
    other; it may stall, but it does not touch the FIFO's registers or the push
    buffer. *)
Class EngineLaws (log : G -> list call) := {
  method_batch : forall d subch m inc ws w ptr avail look,
    0 <= subch < 8 -> 0 <= m < 2 ^ 11 -> plain (subch, 4 * m, w) ->
    words_at d ptr (w :: ws) -> 0 < avail <= Z.of_nat (length (w :: ws)) ->
    exists d' n, pgraph_method d subch (4 * m) w ptr avail look inc = Ok (d', n) /\
      0 < n <= avail /\
      log (pgraph_rest d') = log (pgraph_rest d) ++ calls subch m inc (take (Z.to_nat n) (w :: ws)) /\
      pfifo_regs d' = pfifo_regs d /\ vram d' = vram d /\ vram_size d' = vram_size d;
}.

(** The subchannels are bound to the 3D engine, the puller is on, and no error
    is recorded. *)
Record fifo_ready d : Prop := {
  ready_pull : GET_MASK (preg d NV_PFIFO_CACHE1_PULL0) NV_PFIFO_CACHE1_PULL0_ACCESS <> 0;
  ready_engine : forall subch, 0 <= subch < 8 ->
    GET_MASK (preg d NV_PFIFO_CACHE1_ENGINE) (Z.shiftl 3 (4 * subch)) = ENGINE_GRAPHICS;
  ready_error : dma_error d = 0;
}.

(** ** Register lemmas *)

Lemma preg_set_eq r v d : preg (set_preg r v d) r = v.
Proof. apply rd_wr_eq. Qed.
Lemma preg_set_ne r r' v d : r <> r' -> preg (set_preg r v d) r' = preg d r'.
Proof. apply rd_wr_ne. Qed.
Lemma preg_mask_eq r mask v d : preg (mask_preg r mask v d) r = SET_MASK (preg d r) mask v.
Proof. apply rd_wr_eq. Qed.
Lemma preg_mask_ne r r' mask v d : r <> r' -> preg (mask_preg r mask v d) r' = preg d r'.
Proof. apply rd_wr_ne. Qed.
Lemma state_set_state mask v d : dma_state (set_state mask v d) = SET_MASK (dma_state d) mask v.
Proof. apply rd_wr_eq. Qed.

Lemma method_field : bitfield NV_PFIFO_CACHE1_DMA_STATE_METHOD 2 11.
Proof. by split_and!. Qed.
Lemma subchannel_field : bitfield NV_PFIFO_CACHE1_DMA_STATE_SUBCHANNEL 13 3.
Proof. by split_and!. Qed.
Lemma count_field : bitfield NV_PFIFO_CACHE1_DMA_STATE_METHOD_COUNT 18 11.
Proof. by split_and!. Qed.
Lemma type_field : bitfield NV_PFIFO_CACHE1_DMA_STATE_METHOD_TYPE 0 1.
Proof. by split_and!. Qed.

(** [regs] computes FIFO registers of updated states, [fields] the fields of
    an updated register. *)
Ltac regs := repeat first
  [ rewrite preg_set_eq | rewrite preg_mask_eq | rewrite preg_set_ne by done
  | rewrite preg_mask_ne by done ].
Ltac fields := repeat first
  [ rewrite (GET_SET_same _ _ _ _ _ method_field) | rewrite (GET_SET_same _ _ _ _ _ subchannel_field)
  | rewrite (GET_SET_same _ _ _ _ _ count_field) | rewrite (GET_SET_same _ _ _ _ _ type_field)
  | rewrite GET_SET_other by done ].

Lemma method_entry_fields method type subch :
  0 <= method < 2 ^ 11 -> 0 <= subch < 2 ^ 3 -> 0 <= type < 2 ->
  let e := method_entry (4 * method) type subch in
  Z.land e 0x1FFC = 4 * method /\ GET_MASK e NV_PFIFO_CACHE1_METHOD_SUBCHANNEL = subch /\
  GET_MASK e NV_PFIFO_CACHE1_METHOD_TYPE = type.
Proof.
  intros Hm Hs Ht e. subst e. unfold method_entry.
  replace (Z.shiftr (4 * method) 2) with method
    by (rewrite Z.shiftr_div_pow2, Z.mul_comm by done; symmetry; by apply Z.div_mul).
  split_and!.
  - match goal with |- Z.land ?e _ = _ =>
      assert (GET_MASK e NV_PFIFO_CACHE1_DMA_STATE_METHOD = method) as Hg by
        (fields; by apply Z.mod_small);
      rewrite (GET_MASK_field _ _ _ _ method_field) in Hg;
      change 0x1FFC with (Z.shiftl (Z.ones 11) 2); rewrite land_high by done; lia end.
  - change NV_PFIFO_CACHE1_METHOD_SUBCHANNEL with NV_PFIFO_CACHE1_DMA_STATE_SUBCHANNEL.
    fields. by apply Z.mod_small.
  - change NV_PFIFO_CACHE1_METHOD_TYPE with NV_PFIFO_CACHE1_DMA_STATE_METHOD_TYPE.
    rewrite GET_SET_other by done. fields. by apply Z.mod_small.
Qed.

(** ** Abstract runs *)

Lemma feed_all_app s l1 l2 s1 c1 : feed_all s l1 = Some (s1, c1) ->
  feed_all s (l1 ++ l2) =
    match feed_all s1 l2 with Some (s2, c2) => Some (s2, c1 ++ c2) | None => None end.
Proof.
  revert s c1. induction l1 as [|w l1 IH]; intros s c1; cbn [feed_all app].
  - intros [= -> <-]. by destruct (feed_all s1 l2) as [[]|].
  - destruct (feed s w) as [[s0 c0]|]; [|done].
    destruct (feed_all s0 l1) as [[s' c']|] eqn:Hf; [|done]. intros [= -> <-].
    rewrite (IH _ _ Hf). destruct (feed_all s1 l2) as [[]|]; [|done]. by rewrite app_assoc.
Qed.

Lemma feed_batch l : forall m subch c inc, Z.of_nat (length l) <= c ->
  feed_all (mkPb m subch c inc) l =
    Some (mkPb (advance (length l) inc m) subch (c - Z.of_nat (length l)) inc, calls subch m inc l).
Proof.
  induction l as [|w l IH]; intros m subch c inc Hc; cbn [feed_all calls advance length].
  - by rewrite Z.sub_0_r.
  - cbn [length] in Hc. unfold feed. cbn [pb_count pb_method pb_subch pb_inc].
    rewrite (proj2 (Z.eqb_neq c 0)) by lia. rewrite IH by lia. do 3 f_equal. lia.
Qed.

Lemma advance_mod n inc m : 0 <= m < 2 ^ 11 ->
  advance n inc m = if inc then (m + Z.of_nat n) mod 2 ^ 11 else m.
Proof.
  revert m. induction n as [|n IH]; intros m Hm; cbn [advance].
  - destruct inc; [|done]. by rewrite Z.add_0_r, Z.mod_small.
  - unfold next_method in *. destruct inc; rewrite IH; try done; [|by apply Z.mod_pos_bound].
    rewrite Zplus_mod_idemp_l. f_equal. lia.
Qed.

(** ** One round of the pusher *)

Section Delivery.
Context {log : G -> list call} {laws : EngineLaws log}.

(** The pusher or the puller refuses to go on. *)
Definition stalled d : Prop :=
  pfifo_pusher_should_stall d = true \/ (pfifo_puller_should_stall d).2 = true.

(** The parts of the state a FIFO operation keeps. *)
Definition same_memory d d' : Prop :=
  vram d' = vram d /\ vram_size d' = vram_size d.

Lemma words_same d d' a ws : same_memory d d' -> words_at d a ws -> words_at d' a ws.
Proof. intros [H1 H2] Hw i w Hi. rewrite H1, H2. by apply Hw. Qed.

Lemma words_drop d a ws k : words_at d a ws -> words_at d (a + 4 * Z.of_nat k) (drop k ws).
Proof.
  intros Hw i w Hi. rewrite lookup_drop in Hi. apply Hw in Hi. rewrite <- Hi. f_equal. lia.
Qed.

(** The puller on a batch of plain methods. *)
Lemma puller_batch d m type subch w ws ptr avail look :
  fifo_ready d -> has (preg d NV_PFIFO_CACHE1_STATUS) NV_PFIFO_CACHE1_STATUS_LOW_MARK = false ->
  0 <= m < 2 ^ 11 -> 0 <= subch < 2 ^ 3 -> 0 <= type < 2 -> plain (subch, 4 * m, w) ->
  words_at d ptr (w :: ws) -> 0 < avail <= Z.of_nat (length (w :: ws)) ->
  exists d' n, pfifo_run_puller d (method_entry (4 * m) type subch) w ptr avail look = Ok (d', n) /\
    same_memory d d' /\
    (forall r, r <> NV_PFIFO_CACHE1_PULL1 -> r <> NV_PFIFO_CACHE1_STATUS -> preg d' r = preg d r) /\
    (n = -1 /\ pgraph_rest d' = pgraph_rest d /\ (pfifo_puller_should_stall d').2 = true \/
     0 < n <= avail /\ log (pgraph_rest d') =
       log (pgraph_rest d) ++ calls subch m (type =? 0) (take (Z.to_nat n) (w :: ws))).
Proof.
  intros [Hpull Heng _] Hlow Hm Hs Ht Hp Hw Ha. unfold pfifo_run_puller.
  destruct (pfifo_puller_should_stall d) as [d1 stall] eqn:Hst.
  assert (pfifo_regs d1 = pfifo_regs d /\ same_memory d d1 /\ pgraph_rest d1 = pgraph_rest d /\
    pfifo_puller_should_stall d1 = (d1, stall)) as (Hr1 & Hm1 & Hl1 & Hst1).
  { revert Hst. unfold pfifo_puller_should_stall, pfifo_stall_for_flip.
    destruct (waiting_for_flip d) eqn:Hf; [destruct (is_flip_stall_complete d) eqn:Hc|];
      intros [= <- <-]; rewrite ?Hf, ?Hc; done. }
  assert (forall r, preg d1 r = preg d r) as Hp1 by (intros r; unfold preg; by rewrite Hr1).
  destruct stall.
  { exists d1, (-1). split; [done|]. split; [done|]. split; [done|]. left. by rewrite Hst1. }
  rewrite !Hp1, Hlow, (proj2 (Z.eqb_neq _ 0) Hpull). cbn [orb].
  destruct (method_entry_fields m type subch Hm Hs Ht) as (-> & -> & ->).
  rewrite (proj2 (Z.eqb_neq (4 * m) 0)) by (unfold plain in Hp; cbn in Hp; lia).
  rewrite (proj2 (Z.leb_le 0x100 (4 * m))) by (unfold plain in Hp; cbn in Hp; lia).
  replace ((0x180 <=? 4 * m) && (4 * m <? 0x200)) with false
    by (symmetry; apply andb_false_iff; rewrite Z.leb_gt, Z.ltb_ge; unfold plain in Hp; cbn in Hp; lia).
  cbn [mbind result_mbind result_bind]. rewrite Heng by lia. cbn [check Z.eqb Pos.eqb ENGINE_GRAPHICS].
  cbn [mbind result_mbind result_bind].
  set (d2 := mask_preg NV_PFIFO_CACHE1_PULL1 _ _ d1).
  assert (can_fifo_access d2 = true) as ->.
  { revert Hst1. unfold pfifo_puller_should_stall. destruct (pfifo_stall_for_flip d1).
    intros [= -> H]. destruct (can_fifo_access d1) eqn:E; [exact E|]. by rewrite orb_true_r in H. }
  destruct (method_batch d2 subch m (type =? 0) ws w ptr avail look) as
    (d3 & n & -> & Hn & Hlog & Hr3 & Hv3 & Hv3'); [lia|done|done| |done|].
  { apply (words_same d); [|done]. exact Hm1. }
  cbn [mbind result_mbind result_bind]. rewrite (proj2 (Z.ltb_lt 0 n)) by lia.
  eexists _, n. split; [done|]. destruct Hm1 as [V1 V2]. split; [|split].
  - split; [transitivity (vram d1); [exact Hv3|exact V1]|].
    transitivity (vram_size d1); [exact Hv3'|exact V2].
  - intros r H1 H2. rewrite preg_set_ne by done.
    transitivity (preg d2 r); [unfold preg; by rewrite Hr3|].
    unfold d2. rewrite preg_mask_ne by done. apply Hp1.
  - right. split; [done|]. change (pgraph_rest (set_preg _ _ d3)) with (pgraph_rest d3).
    rewrite Hlog. change (pgraph_rest d2) with (pgraph_rest d1). by rewrite Hl1.
Qed.

(** [k] words of the push buffer consumed: their calls delivered, the rest of
    the state ready for the next word. *)
Definition consumed d d' (ws : list Z) (k : nat) : Prop :=
  (k <= length ws)%nat /\ same_memory d d' /\ fifo_ready d' /\
  preg d' NV_PFIFO_CACHE1_DMA_PUT = preg d NV_PFIFO_CACHE1_DMA_PUT /\
  preg d' NV_PFIFO_CACHE1_DMA_GET = preg d NV_PFIFO_CACHE1_DMA_GET + 4 * Z.of_nat k /\
  exists cs, feed_all (pb_of d) (take k ws) = Some (pb_of d', cs) /\
    log (pgraph_rest d') = log (pgraph_rest d) ++ cs.

Lemma consumed_trans d d1 d2 ws k1 k2 :
  consumed d d1 ws k1 -> consumed d1 d2 (drop k1 ws) k2 -> consumed d d2 ws (k1 + k2).
Proof.
  intros (L1 & [M1 M1'] & _ & P1 & G1 & c1 & F1 & E1) (L2 & [M2 M2'] & R2 & P2 & G2 & c2 & F2 & E2).
  rewrite length_drop in L2. split; [lia|]. split; [split; congruence|]. split; [done|].
  split; [congruence|]. split; [rewrite G2, G1; lia|].
  exists (c1 ++ c2). split; [|by rewrite E2, E1, app_assoc].
  rewrite <- take_take_drop, (feed_all_app _ _ _ _ _ F1), F2. done.
Qed.

(** A state whose FIFO registers are kept but for those named is as ready. *)
Lemma ready_kept d d' : fifo_ready d ->
  preg d' NV_PFIFO_CACHE1_PULL0 = preg d NV_PFIFO_CACHE1_PULL0 ->
  preg d' NV_PFIFO_CACHE1_ENGINE = preg d NV_PFIFO_CACHE1_ENGINE -> dma_error d' = dma_error d ->
  fifo_ready d'.
Proof. intros [] H1 H2 H3. split; rewrite ?H1, ?H2, ?H3; done. Qed.

(** A methods header is none of the other commands. *)
Lemma header_command d w type get :
  Z.land w 0xe0030003 = Z.shiftl type 30 -> type = 0 \/ type = 1 ->
  push_command d w get =
    Ok (push_header (set_preg NV_PFIFO_CACHE1_DMA_RSVD_SHADOW w d) w type, Some get).
Proof.
  intros Hl Ht. unfold push_command.
  assert (Z.land w 0xe0000003 = Z.land (Z.shiftl type 30) 0xe0000003) as ->
    by by rewrite <- Hl, <- Z.land_assoc.
  assert (Z.land w 3 = Z.land (Z.shiftl type 30) 3) as -> by by rewrite <- Hl, <- Z.land_assoc.
  assert (w <> 0x00020000) as Hne by (intros ->; by destruct Ht as [->| ->]).
  rewrite (proj2 (Z.eqb_neq _ _) Hne), Hl. by destruct Ht as [->| ->].
Qed.

Lemma header_state d w type :
  let d' := push_header d w type in
  pb_of d' = mkPb (w / 2 ^ 2 mod 2 ^ 11) (w / 2 ^ 13 mod 2 ^ 3) (w / 2 ^ 18 mod 2 ^ 11)
               (type mod 2 ^ 1 =? 0) /\
  dma_error d' = dma_error d /\
  (forall r, r <> NV_PFIFO_CACHE1_DMA_STATE -> r <> NV_PFIFO_CACHE1_DMA_DCOUNT ->
     preg d' r = preg d r).
Proof.
  intros d'.
  assert (dma_state d' = SET_MASK (SET_MASK (SET_MASK (SET_MASK (dma_state d)
    NV_PFIFO_CACHE1_DMA_STATE_METHOD (Z.shiftr (Z.land w 0x1fff) 2))
    NV_PFIFO_CACHE1_DMA_STATE_SUBCHANNEL (Z.land (Z.shiftr w 13) 7))
    NV_PFIFO_CACHE1_DMA_STATE_METHOD_COUNT (Z.land (Z.shiftr w 18) 0x7ff))
    NV_PFIFO_CACHE1_DMA_STATE_METHOD_TYPE type) as Hst
    by (unfold d', push_header, dma_state, set_state; by regs).
  split_and!.
  - unfold pb_of. rewrite Hst. fields.
    change 0x1fff with (Z.ones 13). change 7 with (Z.ones 3). change 0x7ff with (Z.ones 11).
    rewrite !Z.land_ones, !Z.shiftr_div_pow2, !Z.mod_mod by done. f_equal.
    rewrite <- (Z.mod_mod (w / 2 ^ 2) (2 ^ 11)) by done. f_equal.
    change (2 ^ 13) with (2 ^ 2 * 2 ^ 11). rewrite Z.rem_mul_r, Z.mul_comm, Z.div_add by done.
    by rewrite (Z.div_small (w mod _)) by (by apply Z.mod_pos_bound).
  - unfold dma_error. rewrite Hst. by rewrite !GET_SET_other by done.
  - intros r H1 H2. unfold d', push_header, set_state.
    rewrite preg_set_ne by done. by rewrite !preg_mask_ne by done.
Qed.

Lemma header_consumed d w ws type :
  fifo_ready d -> pb_count (pb_of d) = 0 ->
  Z.land w 0xe0030003 = Z.shiftl type 30 -> type = 0 \/ type = 1 ->
  consumed d (set_preg NV_PFIFO_CACHE1_DMA_GET (preg d NV_PFIFO_CACHE1_DMA_GET + 4)
    (push_header (set_preg NV_PFIFO_CACHE1_DMA_RSVD_SHADOW w d) w type)) (w :: ws) 1.
Proof.
  intros Hready Hc Hl Ht.
  set (d1 := set_preg NV_PFIFO_CACHE1_DMA_RSVD_SHADOW w d).
  destruct (header_state d1 w type) as (Hpb & He & Hr). set (d2 := push_header d1 w type) in *.
  set (d3 := set_preg NV_PFIFO_CACHE1_DMA_GET _ d2).
  assert (dma_state d3 = dma_state d2) as Hds by (apply preg_set_ne; done).
  split; [cbn; lia|]. split; [done|]. split; [|split_and!].
  - apply (ready_kept d); [done|..].
    1,2: unfold d3; rewrite preg_set_ne, Hr by done; unfold d1; by regs.
    unfold dma_error at 1. rewrite Hds. fold (dma_error d2). rewrite He. unfold d1, dma_error, dma_state.
    by regs.
  - unfold d3. rewrite preg_set_ne, Hr by done. unfold d1. by regs.
  - unfold d3. by regs.
  - exists []. split; [|by rewrite app_nil_r]. cbn [take feed_all].
    assert (pb_of d3 = pb_of d2) as -> by (unfold pb_of; by rewrite Hds).
    rewrite Hpb. unfold feed. rewrite Hc, Hl. by destruct Ht as [->| ->].
Qed.

(** The registers after a batch of [n] words. *)
Lemma batch_state d m c type n :
  0 <= m < 2 ^ 11 -> 0 < n <= c -> c < 2 ^ 11 -> 0 <= type < 2 ->
  GET_MASK (dma_state d) NV_PFIFO_CACHE1_DMA_STATE_METHOD = m ->
  GET_MASK (dma_state d) NV_PFIFO_CACHE1_DMA_STATE_METHOD_TYPE = type ->
  let d' := set_state NV_PFIFO_CACHE1_DMA_STATE_METHOD_COUNT (c - Z.min c n)
    (if type =? 0 then set_state NV_PFIFO_CACHE1_DMA_STATE_METHOD (Z.shiftr (u32 (4 * m + 4 * n)) 2) d
     else d) in
  pb_of d' = mkPb (advance (Z.to_nat n) (type =? 0) m)
    (GET_MASK (dma_state d) NV_PFIFO_CACHE1_DMA_STATE_SUBCHANNEL) (c - n) (type =? 0) /\
  dma_error d' = dma_error d /\
  forall r, r <> NV_PFIFO_CACHE1_DMA_STATE -> preg d' r = preg d r.
Proof.
  intros Hm Hn Hc Ht Em Et d'.
  assert (Z.shiftr (u32 (4 * m + 4 * n)) 2 = m + n) as Hs.
  { rewrite u32_id, Z.shiftr_div_pow2 by (done || (unfold is_u32; lia)).
    replace (4 * m + 4 * n) with ((m + n) * 2 ^ 2) by lia. by apply Z.div_mul. }
  subst d'. rewrite Hs, Z.min_r, advance_mod, Z2Nat.id by lia.
  split_and!.
  - unfold pb_of. rewrite state_set_state. fields. rewrite (Z.mod_small (c - n)) by lia.
    destruct (Z.eqb_spec type 0) as [E|E]; [rewrite state_set_state; fields|];
      rewrite ?Em, Et; [by rewrite E|by rewrite (proj2 (Z.eqb_neq _ _) E)].
  - unfold dma_error. rewrite state_set_state, GET_SET_other by done.
    destruct (type =? 0); [|done]. by rewrite state_set_state, GET_SET_other by done.
  - intros r Hr. unfold set_state. rewrite preg_mask_ne by done.
    destruct (type =? 0); [|done]. by rewrite preg_mask_ne by done.
Qed.

(** A batch of [n] words, as words consumed: [d2] is the state the puller left,
    [d3] the one with the fields of DMA_STATE moved on. *)
Lemma batch_consumed d d2 d3 w ws n :
  let s := pb_of d in
  fifo_ready d2 -> same_memory d d2 -> dma_error d3 = dma_error d2 ->
  pgraph_rest d3 = pgraph_rest d2 -> same_memory d2 d3 ->
  (forall r, r <> NV_PFIFO_CACHE1_DMA_STATE -> preg d3 r = preg d2 r) ->
  preg d2 NV_PFIFO_CACHE1_DMA_GET = preg d NV_PFIFO_CACHE1_DMA_GET ->
  preg d2 NV_PFIFO_CACHE1_DMA_PUT = preg d NV_PFIFO_CACHE1_DMA_PUT ->
  0 < n <= pb_count s -> n <= Z.of_nat (length (w :: ws)) ->
  0 <= preg d NV_PFIFO_CACHE1_DMA_GET ->
  preg d NV_PFIFO_CACHE1_DMA_GET + 4 * Z.of_nat (length (w :: ws)) < 2 ^ 32 ->
  pb_of d3 = mkPb (advance (Z.to_nat n) (pb_inc s) (pb_method s)) (pb_subch s) (pb_count s - n)
    (pb_inc s) ->
  log (pgraph_rest d2) = log (pgraph_rest d) ++
    calls (pb_subch s) (pb_method s) (pb_inc s) (take (Z.to_nat n) (w :: ws)) ->
  let v := u32 (preg d3 NV_PFIFO_CACHE1_DMA_DCOUNT + n) in
  let g := u32 (preg d NV_PFIFO_CACHE1_DMA_GET + 4 + (n - 1) * 4) in
  consumed d (set_preg NV_PFIFO_CACHE1_DMA_GET g (set_preg NV_PFIFO_CACHE1_DMA_DCOUNT v d3))
    (w :: ws) (Z.to_nat n).
Proof.
  intros s Hready [M1 M2] He Hrest [M3 M4] Hr Hget Hput Hn Hlen H0 Hlt Hpb Hlog v g.
  set (d4 := set_preg NV_PFIFO_CACHE1_DMA_DCOUNT v d3).
  set (d5 := set_preg NV_PFIFO_CACHE1_DMA_GET g d4).
  assert (dma_state d5 = dma_state d3) as Hst by (unfold dma_state, d5, d4; by regs).
  split; [lia|]. split; [split; [transitivity (vram d2)|transitivity (vram_size d2)]; done|].
  split; [|split_and!].
  - apply (ready_kept d2); [done|..].
    1,2: unfold d5, d4; by rewrite !preg_set_ne, Hr by done.
    unfold dma_error at 1. rewrite Hst. exact He.
  - unfold d5, d4. by rewrite !preg_set_ne, Hr by done.
  - unfold d5, g. rewrite preg_set_eq, u32_id by (unfold is_u32; lia). lia.
  - exists (calls (pb_subch s) (pb_method s) (pb_inc s) (take (Z.to_nat n) (w :: ws))). split.
    + assert (pb_of d5 = pb_of d3) as -> by (unfold pb_of; by rewrite Hst).
      rewrite Hpb. fold s. assert (s = mkPb (pb_method s) (pb_subch s) (pb_count s) (pb_inc s)) as Hs
        by (by destruct s). rewrite Hs at 1.
      rewrite feed_batch by (rewrite length_take; lia). rewrite length_take.
      rewrite Nat.min_l, Z2Nat.id by lia. done.
    + change (pgraph_rest d5) with (pgraph_rest d3). by rewrite Hrest.
Qed.

Lemma data_step d w ws ptr num :
  fifo_ready d -> pb_count (pb_of d) <> 0 -> words_at d ptr (w :: ws) ->
  num = Z.of_nat (length (w :: ws)) -> 0 <= preg d NV_PFIFO_CACHE1_DMA_GET ->
  preg d NV_PFIFO_CACHE1_DMA_GET + 4 * num < 2 ^ 32 ->
  plain (pb_subch (pb_of d), 4 * pb_method (pb_of d), w) ->
  exists d' o, push_data d w ptr (preg d NV_PFIFO_CACHE1_DMA_GET + 4) num = Ok (d', o) /\
    match o with
    | None => consumed d d' (w :: ws) 0 /\ stalled d'
    | Some g => exists n, (0 < n)%nat /\ consumed d (set_preg NV_PFIFO_CACHE1_DMA_GET g d') (w :: ws) n
    end.
Proof.
  intros Hready Hc Hw Hnum H0 Hlt Hp. unfold push_data.
  cbn [pb_of pb_count pb_subch pb_method] in Hc, Hp.
  set (state := dma_state d) in *.
  set (m := GET_MASK state NV_PFIFO_CACHE1_DMA_STATE_METHOD) in *.
  set (subch := GET_MASK state NV_PFIFO_CACHE1_DMA_STATE_SUBCHANNEL) in *.
  set (c := GET_MASK state NV_PFIFO_CACHE1_DMA_STATE_METHOD_COUNT) in *.
  set (type := GET_MASK state NV_PFIFO_CACHE1_DMA_STATE_METHOD_TYPE) in *.
  pose proof (GET_MASK_range state _ _ _ method_field : 0 <= m < 2 ^ 11) as Hm.
  pose proof (GET_MASK_range state _ _ _ subchannel_field : 0 <= subch < 2 ^ 3) as Hs.
  pose proof (GET_MASK_range state _ _ _ count_field : 0 <= c < 2 ^ 11) as Hcr.
  pose proof (GET_MASK_range state _ _ _ type_field : 0 <= type < 2 ^ 1) as Ht.
  assert (Z.shiftl m 2 = 4 * m) as -> by (rewrite Z.shiftl_mul_pow2; lia).
  assert (Z.land (4 * m) 3 = 0) as ->
    by (change 3 with (Z.ones 2); rewrite Z.land_ones, Z.mul_comm by done; by apply Z.mod_mul).
  cbn [Z.eqb check mbind result_mbind result_bind].
  set (d1 := set_preg NV_PFIFO_CACHE1_STATUS _ (set_preg _ w d)).
  assert (forall r, r <> NV_PFIFO_CACHE1_STATUS -> r <> NV_PFIFO_CACHE1_DMA_DATA_SHADOW ->
    preg d1 r = preg d r) as Hd1 by (intros r ? ?; unfold d1; by rewrite !preg_set_ne by done).
  destruct (puller_batch d1 m type subch w ws ptr (Z.min c num) num) as
    (d2 & n & -> & Hmem & Hr2 & Hcase); [|unfold d1; rewrite preg_set_eq|done|done|lia|done|done| |].
  { apply (ready_kept d); [done|by apply Hd1..|]. unfold dma_error, dma_state. by rewrite Hd1. }
  { unfold has. by rewrite Z.land_ldiff. }
  { cbn [length] in *. lia. }
  cbn [mbind result_mbind result_bind].
  assert (forall r, r <> NV_PFIFO_CACHE1_PULL1 -> r <> NV_PFIFO_CACHE1_STATUS ->
    r <> NV_PFIFO_CACHE1_DMA_DATA_SHADOW -> preg d2 r = preg d r) as Hd2
    by (intros r ? ? ?; rewrite Hr2, Hd1 by done; done).
  assert (dma_state d2 = state) as Hst by by apply Hd2.
  assert (fifo_ready d2) as Hready2.
  { apply (ready_kept d); [done|by apply Hd2..|]. unfold dma_error. by rewrite Hst. }
  destruct Hcase as [(-> & Hrest & Hstall)|[Hn Hlog]].
  - exists d2, None. split; [done|]. split; [|by right].
    split; [lia|]. split; [done|]. split; [done|]. split; [by apply Hd2|].
    split; [rewrite Hd2 by done; lia|]. exists []. rewrite Hrest, app_nil_r. split; [|done].
    unfold pb_of. by rewrite Hst.
  - rewrite (proj2 (Z.ltb_ge n 0)) by lia.
    destruct (batch_state d2 m c type n) as (Hpb & He & Hr3); [lia..|by rewrite Hst|by rewrite Hst|].
    set (d3 := set_state _ _ _) in *.
    eexists _, (Some _). split; [done|]. exists (Z.to_nat n). split; [lia|].
    apply (batch_consumed d d2 d3 w ws n); try done.
    1,2: unfold d3, set_state; by destruct (type =? 0).
    1,2: by apply Hd2.
    + change (0 < n <= c). lia.
    + lia.
    + lia.
    + rewrite Hpb, Hst. done.
Qed.

(** One round on a straight push buffer: it consumes words or it stalls. *)
Lemma pusher_round d dma dma_len ws s' cs :
  let get := preg d NV_PFIFO_CACHE1_DMA_GET in
  let put := preg d NV_PFIFO_CACHE1_DMA_PUT in
  fifo_ready d -> 0 <= get -> put < 2 ^ 32 -> put = get + 4 * Z.of_nat (length ws) ->
  put <= dma_len -> words_at d (dma + get) ws -> Forall is_u32 ws ->
  feed_all (pb_of d) ws = Some (s', cs) -> Forall plain cs ->
  exists d' go k, pusher_step d dma dma_len = Ok (d', go) /\ consumed d d' ws k /\
    if (go : bool) then (0 < k)%nat else k = length ws \/ stalled d'.
Proof.
  intros get put Hready H0 Hmax Hput Hlen Hw Hu Hfeed Hplain. unfold pusher_step. fold get put.
  destruct (pfifo_pusher_should_stall d || (get =? put)) eqn:Hstop.
  { exists d, false, 0%nat. split; [done|]. split.
    - split; [lia|]. split; [done|]. split; [done|]. split; [done|]. split; [lia|].
      exists []. by rewrite app_nil_r.
    - apply orb_true_iff in Hstop as [Hs|Heq%Z.eqb_eq]; [right; by left|left; lia]. }
  apply orb_false_iff in Hstop as [_ Hne%Z.eqb_neq].
  destruct ws as [|w ws]; [cbn in Hput; lia|]. cbn [length] in Hput.
  rewrite (proj2 (Z.ltb_lt get dma_len)) by lia. cbn [check mbind result_mbind result_bind].
  rewrite (u32_id (put - get)) by (unfold is_u32; lia).
  replace (put - get) with (Z.of_nat (length (w :: ws)) * 4) by (cbn [length]; lia).
  rewrite Z.mod_mul, Z.div_mul by done. cbn [Z.eqb check mbind result_mbind result_bind].
  pose proof (Hw 0%nat w eq_refl) as Hw0. rewrite Z.add_0_r in Hw0. rewrite Hw0.
  cbn [mbind result_mbind result_bind]. rewrite (u32_id (get + 4)) by (unfold is_u32; lia).
  change (GET_MASK (dma_state d) NV_PFIFO_CACHE1_DMA_STATE_METHOD_COUNT) with (pb_count (pb_of d)).
  cbn [feed_all] in Hfeed. unfold feed in Hfeed.
  destruct (Z.eqb_spec (pb_count (pb_of d)) 0) as [Hc|Hc].
  - assert (exists type, Z.land w 0xe0030003 = Z.shiftl type 30 /\ (type = 0 \/ type = 1)) as
      (type & Hl & Ht).
    { destruct (Z.eqb_spec (Z.land w 0xe0030003) 0) as [E|_]; [exists 0; auto|].
      destruct (Z.eqb_spec (Z.land w 0xe0030003) 0x40000000) as [E|_]; [exists 1; auto|done]. }
    rewrite (header_command d w type _ Hl Ht). cbn [mbind result_mbind result_bind].
    pose proof (header_consumed d w ws type Hready Hc Hl Ht) as Hcons. fold get in Hcons.
    eexists _, _, 1%nat. split; [done|]. split; [exact Hcons|].
    destruct Hcons as (_ & _ & Hr & _). rewrite (ready_error _ Hr). cbn [Z.eqb]. lia.
  - destruct (data_step d w ws (dma + get) (Z.of_nat (length (w :: ws)))) as (d' & o & Hd & Ho);
      try done.
    { cbn [length]. fold get. lia. }
    { destruct (feed_all _ ws) as [[s1 c1]|]; [|done]. injection Hfeed as _ <-. by inversion Hplain. }
    fold get in Hd. rewrite Hd. cbn [mbind result_mbind result_bind]. destruct o as [g|].
    + destruct Ho as (n & Hn & Hcons). eexists _, _, n. split; [done|]. split; [exact Hcons|].
      destruct Hcons as (_ & _ & Hr & _). rewrite (ready_error _ Hr). cbn [Z.eqb]. lia.
    + destruct Ho as [Hcons Hst]. exists d', false, 0%nat. auto.
Qed.

Lemma feed_drop s ws k s1 c1 s' cs :
  feed_all s (take k ws) = Some (s1, c1) -> feed_all s ws = Some (s', cs) ->
  exists c2, feed_all s1 (drop k ws) = Some (s', c2) /\ cs = c1 ++ c2.
Proof.
  intros Hk Hw. rewrite <- (take_drop k ws), (feed_all_app _ _ _ _ _ Hk) in Hw.
  destruct (feed_all s1 (drop k ws)) as [[s2 c2]|]; [|done]. injection Hw as -> <-. by exists c2.
Qed.

Lemma pusher_delivers_loop fuel : forall d dma dma_len ws s' cs,
  let get := preg d NV_PFIFO_CACHE1_DMA_GET in
  let put := preg d NV_PFIFO_CACHE1_DMA_PUT in
  (length ws < fuel)%nat ->
  fifo_ready d -> 0 <= get -> put < 2 ^ 32 -> put = get + 4 * Z.of_nat (length ws) ->
  put <= dma_len -> words_at d (dma + get) ws -> Forall is_u32 ws ->
  feed_all (pb_of d) ws = Some (s', cs) -> Forall plain cs ->
  exists d' k, pusher_loop fuel d dma dma_len = Ok d' /\ consumed d d' ws k /\
    (k = length ws \/ stalled d').
Proof.
  induction fuel as [|fuel IH]; intros d dma dma_len ws s' cs get put Hfuel Hready H0 Hmax Hput
    Hlen Hw Hu Hfeed Hplain; [lia|]. cbn [pusher_loop].
  destruct (pusher_round d dma dma_len ws s' cs) as (d1 & go & k & -> & Hcons & Hgo); try done.
  cbn [mbind result_mbind result_bind]. destruct go; [|by exists d1, k].
  pose proof Hcons as (Hk & Hmem & Hr1 & Hput1 & Hget1 & c1 & Hf1 & _).
  destruct (feed_drop _ _ _ _ _ _ _ Hf1 Hfeed) as (c2 & Hf2 & ->). fold get put in Hget1, Hput1.
  destruct (IH d1 dma dma_len (drop k ws) s' c2) as (d2 & k2 & -> & Hc2 & Hend); try done.
  - rewrite length_drop. lia.
  - rewrite Hget1. lia.
  - rewrite Hput1. done.
  - rewrite Hput1, Hget1, length_drop. lia.
  - rewrite Hput1. done.
  - rewrite Hget1, Z.add_assoc. apply (words_same d); [done|]. by apply words_drop.
  - by apply Forall_drop.
  - by apply Forall_app in Hplain as [_ ?].
  - exists d2, (k + k2)%nat. split; [done|]. split; [by eapply consumed_trans|].
    destruct Hend as [->|?]; [left|by right]. rewrite length_drop. lia.
Qed.

(** The conditions under which the pusher looks at the push buffer at all. *)
Definition pusher_enabled d : Prop :=
  GET_MASK (preg d NV_PFIFO_CACHE1_PUSH0) NV_PFIFO_CACHE1_PUSH0_ACCESS <> 0 /\
  GET_MASK (preg d NV_PFIFO_CACHE1_DMA_PUSH) NV_PFIFO_CACHE1_DMA_PUSH_ACCESS <> 0 /\
  GET_MASK (preg d NV_PFIFO_CACHE1_DMA_PUSH) NV_PFIFO_CACHE1_DMA_PUSH_STATUS = 0 /\
  has (preg d NV_PFIFO_MODE)
    (bit (GET_MASK (preg d NV_PFIFO_CACHE1_PUSH1) NV_PFIFO_CACHE1_PUSH1_CHID)) = true /\
  GET_MASK (preg d NV_PFIFO_CACHE1_PUSH1) NV_PFIFO_CACHE1_PUSH1_MODE =
    NV_PFIFO_CACHE1_PUSH1_MODE_DMA.


End Delivery.

(** ** Subroutines *)

(** The pusher is about to read [w] as the first word of a command. *)
Definition fetches d (dma dma_len w : Z) : Prop :=
  let get := preg d NV_PFIFO_CACHE1_DMA_GET in
  let put := preg d NV_PFIFO_CACHE1_DMA_PUT in
  pfifo_pusher_should_stall d = false /\ get <> put /\ get < dma_len /\
  u32 (put - get) mod 4 = 0 /\ ldl_le_p (vram_size d) (vram d) (dma + get) = Ok w /\
  GET_MASK (dma_state d) NV_PFIFO_CACHE1_DMA_STATE_METHOD_COUNT = 0 /\ dma_error d = 0.

Lemma fetches_step d dma dma_len w : fetches d dma dma_len w ->
  pusher_step d dma dma_len =
    '(d', next) ← push_command d w (u32 (preg d NV_PFIFO_CACHE1_DMA_GET + 4));
    match next with
    | None => Ok (d', false)
    | Some get => let d' := set_preg NV_PFIFO_CACHE1_DMA_GET get d' in Ok (d', dma_error d' =? 0)
    end.
Proof.
  intros (H1 & H2 & H3 & H4 & H5 & H6 & _). unfold pusher_step.
  rewrite H1, (proj2 (Z.eqb_neq _ _) H2), (proj2 (Z.ltb_lt _ _) H3), H4. cbn [orb Z.eqb check].
  cbn [mbind result_mbind result_bind]. by rewrite H5, H6.
Qed.

Lemma call_is_call w : Z.land w 3 = 2 -> Z.land w 0xe0000003 <> 0x20000000.
Proof.
  intros Hw Hn. apply (f_equal (fun v => Z.land v 3)) in Hn.
  rewrite <- Z.land_assoc in Hn. change (Z.land 0xe0000003 3) with 3 in Hn. by rewrite Hw in Hn.
Qed.

Lemma subroutine_field : bitfield NV_PFIFO_CACHE1_DMA_SUBROUTINE_STATE 0 1.
Proof. by split_and!. Qed.

Lemma error_field : bitfield NV_PFIFO_CACHE1_DMA_STATE_ERROR 29 3.
Proof. by split_and!. Qed.

(** The saved address survives the flag in its low bit. *)
Lemma return_address v : 0 <= v < 2 ^ 32 -> v mod 4 = 0 ->
  Z.land (SET_MASK v NV_PFIFO_CACHE1_DMA_SUBROUTINE_STATE 1) 0xfffffffc = v.
Proof.
  intros Hv Hal. assert (bitfield 0xfffffffc 2 30) as Hf by by split_and!.
  rewrite (land_GET_MASK _ _ _ _ Hf), GET_SET_other, (GET_MASK_field _ _ _ _ Hf) by done.
  pose proof (Z.div_mod v 4 ltac:(done)) as Hdm. change (2 ^ 2) with 4.
  rewrite Z.mod_small; [lia|]. split; [apply Z.div_pos; lia|apply Z.div_lt_upper_bound; lia].
Qed.

Lemma return_command d get : 
  GET_MASK (preg d NV_PFIFO_CACHE1_DMA_SUBROUTINE) NV_PFIFO_CACHE1_DMA_SUBROUTINE_STATE = 1 ->
  push_command d 0x00020000 get =
    Ok (mask_preg NV_PFIFO_CACHE1_DMA_SUBROUTINE NV_PFIFO_CACHE1_DMA_SUBROUTINE_STATE 0
          (set_preg NV_PFIFO_CACHE1_DMA_RSVD_SHADOW 0x00020000 d),
        Some (Z.land (preg d NV_PFIFO_CACHE1_DMA_SUBROUTINE) 0xfffffffc)).
Proof.
  intros Hs. unfold push_command. rewrite Hs.
  change (Z.land 0x00020000 0xe0000003 =? 0x20000000) with false.
  by change (Z.land 0x00020000 3) with 0.
Qed.

(** Calls return: a CALL command saves the address of the next word and
    continues at its target; whatever ran in between, as long as it kept the
    subroutine register, a RETURN continues after the call and leaves no
    subroutine active, and a second CALL before it stops the pusher with the
    CALL error instead of losing the return address. *)
Theorem pusher_call_return d dma dma_len w :
  let get := preg d NV_PFIFO_CACHE1_DMA_GET in
  fetches d dma dma_len w -> Z.land w 3 = 2 -> get mod 4 = 0 -> 0 <= get < 2 ^ 32 - 4 ->
  GET_MASK (preg d NV_PFIFO_CACHE1_DMA_SUBROUTINE) NV_PFIFO_CACHE1_DMA_SUBROUTINE_STATE = 0 ->
  exists d1, pusher_step d dma dma_len = Ok (d1, true) /\
    preg d1 NV_PFIFO_CACHE1_DMA_GET = Z.land w 0xfffffffc /\
    forall d2,
      preg d2 NV_PFIFO_CACHE1_DMA_SUBROUTINE = preg d1 NV_PFIFO_CACHE1_DMA_SUBROUTINE ->
      (fetches d2 dma dma_len 0x00020000 ->
       exists d3, pusher_step d2 dma dma_len = Ok (d3, true) /\
         preg d3 NV_PFIFO_CACHE1_DMA_GET = get + 4 /\
         GET_MASK (preg d3 NV_PFIFO_CACHE1_DMA_SUBROUTINE)
           NV_PFIFO_CACHE1_DMA_SUBROUTINE_STATE = 0) /\
      (forall w', fetches d2 dma dma_len w' -> Z.land w' 3 = 2 ->
       exists d3, pusher_step d2 dma dma_len = Ok (d3, false) /\
         dma_error d3 = NV_PFIFO_CACHE1_DMA_STATE_ERROR_CALL).
Proof.
  intros get Hf Hw Hal Hget Hsub. rewrite (fetches_step _ _ _ _ Hf). unfold push_command.
  rewrite (proj2 (Z.eqb_neq _ _) (call_is_call w Hw)), Hw, Hsub. fold get.
  rewrite (u32_id (get + 4)) by (unfold is_u32; lia).
  cbn [Z.eqb Pos.eqb negb mbind result_mbind result_bind].
  set (d0 := set_preg NV_PFIFO_CACHE1_DMA_SUBROUTINE (get + 4) _).
  eexists _. split; [|split; [by rewrite preg_set_eq|]].
  { do 2 f_equal. apply Z.eqb_eq. destruct Hf as (_ & _ & _ & _ & _ & _ & He).
    unfold dma_error, dma_state. unfold d0. regs. exact He. }
  intros d2 Hd2. rewrite preg_set_ne, preg_mask_eq in Hd2 by done. unfold d0 in Hd2.
  rewrite preg_set_eq in Hd2.
  assert (GET_MASK (preg d2 NV_PFIFO_CACHE1_DMA_SUBROUTINE) NV_PFIFO_CACHE1_DMA_SUBROUTINE_STATE = 1)
    as Hst by by rewrite Hd2, (GET_SET_same _ _ _ _ _ subroutine_field).
  split.
  - intros Hf2. rewrite (fetches_step _ _ _ _ Hf2), (return_command _ _ Hst).
    cbn [mbind result_mbind result_bind]. eexists _. split; [|split].
    + do 2 f_equal. apply Z.eqb_eq. destruct Hf2 as (_ & _ & _ & _ & _ & _ & He).
      unfold dma_error, dma_state. regs. exact He.
    + rewrite preg_set_eq, Hd2. apply return_address; [lia|].
      by rewrite Z.add_mod, Hal.
    + regs. by rewrite (GET_SET_same _ _ _ _ _ subroutine_field).
  - intros w' Hf2 Hw'. rewrite (fetches_step _ _ _ _ Hf2). unfold push_command.
    rewrite (proj2 (Z.eqb_neq _ _) (call_is_call w' Hw')), Hw', Hst.
    cbn [Z.eqb Pos.eqb negb mbind result_mbind result_bind].
    eexists _. split; [done|]. unfold dma_error. rewrite state_set_state.
    by rewrite (GET_SET_same _ _ _ _ _ error_field).
Qed.

(** ** The object table *)

Lemma hash_loop_range fuel : forall bits handle hash, 0 < bits ->
  0 <= handle < 2 ^ (Z.of_nat fuel * bits) -> 0 <= hash < 2 ^ bits ->
  exists h, hash_loop fuel bits handle hash = Ok h /\ 0 <= h < 2 ^ bits.
Proof.
  induction fuel as [|fuel IH]; intros bits handle hash Hb Hh H0; cbn [hash_loop].
  - change (2 ^ (Z.of_nat 0 * bits)) with 1 in Hh.
    rewrite (proj2 (Z.eqb_eq handle 0)) by lia. eauto.
  - destruct (handle =? 0); [by eauto|]. apply IH; [done| |].
    + rewrite Z.shiftr_div_pow2 by lia. split; [apply Z.div_pos; lia|].
      apply Z.div_lt_upper_bound; [lia|]. rewrite <- Z.pow_add_r by lia.
      replace (bits + Z.of_nat fuel * bits) with (Z.of_nat (S fuel) * bits) by lia. lia.
    + apply lxor_range; [lia|done|]. rewrite Z.shiftl_1_l, Z.sub_1_r, <- Z.ones_equiv.
      rewrite Z.land_ones by lia. apply Z.mod_pos_bound. lia.
Qed.

Lemma ramht_size_cases d : exists s, 0 <= s < 4 /\
  s = GET_MASK (preg d NV_PFIFO_RAMHT) NV_PFIFO_RAMHT_SIZE /\
  ramht_size d = 2 ^ (s + 12) /\ ctz32 (ramht_size d) = s + 12.
Proof.
  assert (bitfield NV_PFIFO_RAMHT_SIZE 16 2) as Hf by by split_and!.
  pose proof (GET_MASK_range (preg d NV_PFIFO_RAMHT) _ _ _ Hf) as Hr.
  unfold ramht_size. set (s := GET_MASK _ _) in *. exists s. split; [lia|]. split; [done|].
  rewrite Z.shiftl_1_l. split; [done|].
  assert (s = 0 \/ s = 1 \/ s = 2 \/ s = 3) as [->|[->|[->| ->]]] by lia; reflexivity.
Qed.

Lemma channel_range d : 0 <= GET_MASK (preg d NV_PFIFO_CACHE1_PUSH1) NV_PFIFO_CACHE1_PUSH1_CHID < 32.
Proof.
  assert (bitfield NV_PFIFO_CACHE1_PUSH1_CHID 0 5) as Hf by by split_and!.
  exact (GET_MASK_range _ _ _ _ Hf).
Qed.

(** The hash of an object handle is computed in three rounds at most and
    is below the size of the table in bytes, but an entry has 8 bytes: a hash
    in the upper 7/8 of that range stops the emulator in an assertion.  With
    the 4 KB table and channel 0 every handle from 512 to 2047 does. *)
Theorem ramht_hash_bounds d handle : is_u32 handle ->
  let overrun := Fault (AssertFail "hash * 8 < ramht_size") in
  (exists h, ramht_hash d handle = Ok h /\ 0 <= h < ramht_size d /\
     (ramht_size d <= 8 * h -> ramht_lookup d handle = overrun)) /\
  (GET_MASK (preg d NV_PFIFO_RAMHT) NV_PFIFO_RAMHT_SIZE = 0 ->
   GET_MASK (preg d NV_PFIFO_CACHE1_PUSH1) NV_PFIFO_CACHE1_PUSH1_CHID = 0 ->
   512 <= handle < 2048 -> ramht_lookup d handle = overrun).
Proof.
  intros Hh overrun. destruct (ramht_size_cases d) as (s & Hs & Es & Hsize & Hctz).
  pose proof (channel_range d) as Hch.
  assert (forall h, ramht_hash d handle = Ok h -> 0 <= h < ramht_size d ->
    ramht_size d <= 8 * h -> ramht_lookup d handle = overrun) as Hover.
  { intros h E Hr Hle. unfold ramht_lookup. rewrite E. cbn [mbind result_mbind result_bind].
    assert (2 ^ (s + 12) <= 2 ^ 15) by (apply Z.pow_le_mono_r; lia).
    rewrite !(u32_id (h * 8)) by (unfold is_u32; lia).
    by rewrite (proj2 (Z.ltb_ge (h * 8) (ramht_size d))) by lia. }
  set (ch := GET_MASK (preg d NV_PFIFO_CACHE1_PUSH1) NV_PFIFO_CACHE1_PUSH1_CHID) in *.
  assert (exists h, ramht_hash d handle = Ok h /\ 0 <= h < ramht_size d) as (h & E & Hr).
  { unfold ramht_hash. rewrite Hctz, Hsize. fold ch.
    destruct (hash_loop_range 3 (s + 12 - 1) handle 0) as (h & -> & Hr); [lia| |lia|].
    { assert (2 ^ 32 <= 2 ^ (Z.of_nat 3 * (s + 12 - 1))) by (apply Z.pow_le_mono_r; lia).
      unfold is_u32 in Hh. lia. }
    cbn [mbind result_mbind result_bind]. eexists. split; [done|].
    assert (2 ^ (s + 12) = 2 * 2 ^ (s + 12 - 1)) as E2
      by (rewrite <- Z.pow_succ_r by lia; f_equal; lia).
    assert (2 ^ (s + 12 - 1) = 2 ^ 4 * 2 ^ (s + 12 - 1 - 4)) as E3
      by (rewrite <- Z.pow_add_r by lia; f_equal; lia).
    assert (2 ^ (s + 12) <= 2 ^ 15) by (apply Z.pow_le_mono_r; lia).
    rewrite Z.shiftl_mul_pow2, u32_id by (lia || (unfold is_u32; nia)).
    apply lxor_range; [lia|lia|nia]. }
  split; [exists h; split; [done|]; split; [done|]; by apply Hover|].
  intros Hz Hc Hhandle. rewrite Hz in Es. subst s.
  assert (ramht_hash d handle = Ok handle) as E'.
  { unfold ramht_hash. rewrite Hctz. fold ch. rewrite Hc. change (0 + 12 - 1) with 11.
    cbn [hash_loop]. rewrite (proj2 (Z.eqb_neq handle 0)) by lia.
    rewrite Z.shiftr_div_pow2, Z.div_small by lia. rewrite Z.shiftl_1_l, Z.sub_1_r, <- Z.ones_equiv.
    rewrite Z.land_ones, Z.mod_small by lia. cbn [hash_loop Z.eqb mbind result_mbind result_bind].
    by rewrite Z.lxor_0_l, Z.shiftl_0_l, Z.lxor_0_r. }
  apply (Hover handle E'); rewrite Hsize; change (2 ^ (0 + 12)) with 4096; lia.
Qed.

End Pfifo.

(** ** Examples *)

(** An engine that records every word it is offered and never stalls. *)
Definition recorder_method (d : NV2AState (list call) unit) (subch method parameter ptr avail look : Z)
    (inc : bool) : result (NV2AState (list call) unit * Z) :=
  Ok (d <| pgraph_rest ::= fun l => l ++ [(subch, method, parameter)] |>, 1).

Definition recorder : PgraphEngine (list call) unit := {|
  pgraph_method := recorder_method;
  pgraph_process_pending := fun d => d;
  pgraph_process_pending_reports := fun d => d;
|}.

Lemma recorder_laws : @EngineLaws _ _ recorder (fun l => l).
Proof.
  constructor. intros d subch m inc ws w ptr avail look _ _ _ _ Ha.
  eexists _, 1. split; [reflexivity|]. split; [lia|]. done.
Qed.

(** A push buffer at offset 0x1000 of video memory: NV097 methods 0x1FC0 (two
    data words, incrementing) and 0x1800 (two data words, the same method). *)
Definition example_words : list Z := [0x00089FC0; 11; 22; 0x40081800; 33; 44].

Definition fifo0 : NV2AState (list call) unit :=
  mkNV2A (mkIrq 0 1) (mkIrq 0 0)
    (list_to_map [ (NV_PFIFO_CACHE1_PUSH0, 1); (NV_PFIFO_CACHE1_DMA_PUSH, 1); (NV_PFIFO_MODE, 1);
       (NV_PFIFO_CACHE1_PUSH1, 0x100); (NV_PFIFO_CACHE1_PULL0, 1);
       (NV_PFIFO_CACHE1_ENGINE, 0x11111111); (NV_PFIFO_CACHE1_DMA_PUT, 24) ])
    false false ∅ (mkIrq 0 0) 1 1 0 ∅ (mkIrq 0 0) (wr NV_PGRAPH_FIFO 1 ∅)
    ∅ false false false ∅ [] (mkIrq 0 1) 0 0 (mkPramDac 0 0 0 0 0 0 0 0 0 0 0 0) 0 ∅
    (store_bytes ∅ 0x1000 (concat (map (le_bytes 4) example_words))) 0x4000000
    (store_bytes ∅ 4 (le_bytes 4 0x10000 ++ le_bytes 4 0x1000)) 0x100000 ∅ tt false 0.


(** The same run, evaluated. *)
Lemma pusher_example : exists d', @pfifo_run_pusher _ _ recorder 7 fifo0 = Ok d' /\
  pgraph_rest d' = [(4, 0x1FC0, 11); (4, 0x1FC4, 22); (0, 0x1800, 33); (0, 0x1800, 44)].
Proof. eexists. split; vm_compute; reflexivity. Qed.

(** A call at offset 0 to offset 0x2000. *)
Definition fifo_call : NV2AState (list call) unit :=
  fifo0 <| vram := store_bytes ∅ 0x1000 (le_bytes 4 0x2002) |>.

Lemma pusher_call_return_witness : exists d1,
  @pusher_step _ _ recorder fifo_call 0x1000 0x10000 = Ok (d1, true) /\
  preg d1 NV_PFIFO_CACHE1_DMA_GET = 0x2000.
Proof.
  destruct (@pusher_call_return _ _ recorder fifo_call 0x1000 0x10000 0x2002) as (d1 & H1 & H2 & _).
  - unfold fetches. split_and!; vm_compute; congruence.
  - reflexivity.
  - vm_compute. reflexivity.
  - vm_compute. split; [discriminate|reflexivity].
  - vm_compute. reflexivity.
  - exists d1. split; [exact H1|]. rewrite H2. reflexivity.
Defined.

Lemma ramht_hash_bounds_witness :
  ramht_lookup fifo0 512 = Fault (AssertFail "hash * 8 < ramht_size").
Proof.
  destruct (ramht_hash_bounds fifo0 512) as [_ H]; [unfold is_u32; lia|].
  apply H; [vm_compute; reflexivity|vm_compute; reflexivity|lia].
Defined.
