(* ===== verification/PgraphRegs.v ===== *)
(** The numbers of nv2a_regs.h the 3D engine uses: registers, methods, their
    fields and the values of their parameters. *)

From S2P Require Import Prelude Nv2a.

(** ** Sizes and attribute numbers (nv2a_regs.h, nv2a_int.h) *)

Definition NV2A_VERTEXSHADER_ATTRIBUTES : Z := 0x10.
Definition NV2A_MAX_BATCH_LENGTH : Z := 0x7FFFF.
Definition NV2A_MAX_TRANSFORM_PROGRAM_LENGTH : Z := 0x88.
Definition NV2A_VERTEX_ATTR_POSITION : Z := 0.
Definition NV2A_VERTEX_ATTR_FOG : Z := 5.
Definition NV2A_VERTEX_ATTR_WEIGHT : Z := 1.
Definition NV2A_VERTEX_ATTR_NORMAL : Z := 2.
Definition NV2A_VERTEX_ATTR_TEXTURE0 : Z := 9.
Definition NV2A_VERTEX_ATTR_TEXTURE1 : Z := 0xA.
Definition NV2A_VERTEX_ATTR_TEXTURE2 : Z := 0xB.
Definition NV2A_VERTEX_ATTR_TEXTURE3 : Z := 0xC.
Definition NV2A_VERTEX_ATTR_DIFFUSE : Z := 3.
Definition NV2A_VERTEX_ATTR_SPECULAR : Z := 4.
Definition NV2A_MAX_TEXTURES : Z := 4.
Definition NV2A_LTCTXA_COUNT : Z := 0x1A.
Definition NV2A_LTCTXB_COUNT : Z := 0x34.
Definition NV2A_LTC1_COUNT : Z := 0x14.
Definition NV2A_MAX_LIGHTS : Z := 8.

(** ** Classes and their methods: beta, pattern, 2D surfaces, image blit *)

Definition NV_KELVIN_PRIMITIVE : Z := 0x97.
Definition NV_SET_OBJECT : Z := 0x0.
Definition NV_BETA : Z := 0x12.
Definition NV012_SET_OBJECT : Z := 0x0.
Definition NV012_SET_BETA : Z := 0x300.
Definition NV_CONTEXT_PATTERN : Z := 0x44.
Definition NV044_SET_MONOCHROME_COLOR0 : Z := 0x310.
Definition NV_CONTEXT_SURFACES_2D : Z := 0x62.
Definition NV062_SET_OBJECT : Z := 0x0.
Definition NV062_SET_CONTEXT_DMA_IMAGE_SOURCE : Z := 0x184.
Definition NV062_SET_CONTEXT_DMA_IMAGE_DESTIN : Z := 0x188.
Definition NV062_SET_COLOR_FORMAT : Z := 0x300.
Definition NV062_SET_PITCH : Z := 0x304.
Definition NV062_SET_OFFSET_SOURCE : Z := 0x308.
Definition NV062_SET_OFFSET_DESTIN : Z := 0x30C.
Definition NV_IMAGE_BLIT : Z := 0x9F.
Definition NV09F_SET_OBJECT : Z := 0x0.
Definition NV09F_SET_CONTEXT_SURFACES : Z := 0x19C.
Definition NV09F_SET_OPERATION : Z := 0x2FC.
Definition NV09F_CONTROL_POINT_IN : Z := 0x300.
Definition NV09F_CONTROL_POINT_OUT : Z := 0x304.
Definition NV09F_SIZE : Z := 0x308.

(** ** Registers of the 3D engine and their fields *)

Definition NV_PGRAPH_CONTROL_3 : Z := 0x1958.
Definition NV_PGRAPH_CONTROL_3_SHADEMODE : Z := 0x80.
Definition NV_PGRAPH_CONTROL_3_SHADEMODE_SMOOTH : Z := 0x1.
Definition NV_PGRAPH_CTX_CACHE1 : Z := 0x160.
Definition NV_PGRAPH_CTX_CACHE2 : Z := 0x180.
Definition NV_PGRAPH_CTX_CACHE3 : Z := 0x1A0.
Definition NV_PGRAPH_CTX_CACHE4 : Z := 0x1C0.
Definition NV_PGRAPH_CTX_CACHE5 : Z := 0x1E0.
Definition NV_PGRAPH_CTX_SWITCH1 : Z := 0x14C.
Definition NV_PGRAPH_CTX_SWITCH2 : Z := 0x150.
Definition NV_PGRAPH_CTX_SWITCH3 : Z := 0x154.
Definition NV_PGRAPH_CTX_SWITCH4 : Z := 0x158.
Definition NV_PGRAPH_CTX_SWITCH5 : Z := 0x15C.
Definition NV_PGRAPH_CTX_SWITCH1_GRCLASS : Z := 0xFF.
Definition NV_PGRAPH_PATT_COLOR0 : Z := 0xB10.
Definition NV_PGRAPH_TRAPPED_ADDR_SUBCH : Z := 0x70000.
Definition NV_PGRAPH_TRAPPED_ADDR_MTHD : Z := 0x1FFF.
Definition NV_PGRAPH_TRAPPED_DATA_LOW : Z := 0x708.
Definition NV_PGRAPH_NSOURCE : Z := 0x108.
Definition NV_PGRAPH_NSOURCE_NOTIFICATION : Z := 0x1.
Definition NV_PGRAPH_COMBINEALPHAI0 : Z := 0x18C0.
Definition NV_PGRAPH_COMBINESPECFOG0 : Z := 0x1944.
Definition NV_PGRAPH_COMBINESPECFOG1 : Z := 0x1948.
Definition NV_PGRAPH_TEXADDRESS0 : Z := 0x19BC.
Definition NV_PGRAPH_CONTROL_0 : Z := 0x194C.
Definition NV_PGRAPH_CONTROL_0_STENCIL_WRITE_ENABLE : Z := 0x2000000.
Definition NV_PGRAPH_SETUPRASTER : Z := 0x1990.
Definition NV_PGRAPH_SETUPRASTER_Z_FORMAT : Z := 0x20000000.
Definition NV_PGRAPH_CONTROL_0_Z_PERSPECTIVE_ENABLE : Z := 0x800000.
Definition NV_PGRAPH_CSV0_C : Z := 0xFB8.
Definition NV_PGRAPH_CSV0_C_SEPARATE_SPECULAR : Z := 0x40000.
Definition NV_PGRAPH_CSV0_C_LOCALEYE : Z := 0x40000000.
Definition NV_PGRAPH_CSV0_C_ALPHA_FROM_MATERIAL_SPECULAR : Z := 0x20000.
Definition NV_PGRAPH_CSV0_C_EMISSION : Z := 0x6000000.
Definition NV_PGRAPH_CSV0_C_AMBIENT : Z := 0x1800000.
Definition NV_PGRAPH_CSV0_C_DIFFUSE : Z := 0x600000.
Definition NV_PGRAPH_CSV0_C_SPECULAR : Z := 0x180000.
Definition NV_PGRAPH_CONTROL_3_FOG_MODE_LINEAR : Z := 0x0.
Definition NV_PGRAPH_CONTROL_3_FOG_MODE_EXP : Z := 0x1.
Definition NV_PGRAPH_CONTROL_3_FOG_MODE_EXP2 : Z := 0x3.
Definition NV_PGRAPH_CONTROL_3_FOG_MODE_EXP_ABS : Z := 0x5.
Definition NV_PGRAPH_CONTROL_3_FOG_MODE_EXP2_ABS : Z := 0x7.
Definition NV_PGRAPH_CONTROL_3_FOG_MODE_LINEAR_ABS : Z := 0x4.
Definition NV_PGRAPH_CONTROL_3_FOG_MODE : Z := 0x70000.
Definition NV_PGRAPH_CSV0_D_FOGGENMODE_SPEC_ALPHA : Z := 0x0.
Definition NV_PGRAPH_CSV0_D_FOGGENMODE_RADIAL : Z := 0x1.
Definition NV_PGRAPH_CSV0_D_FOGGENMODE_PLANAR : Z := 0x2.
Definition NV_PGRAPH_CSV0_D_FOGGENMODE_ABS_PLANAR : Z := 0x3.
Definition NV_PGRAPH_CSV0_D_FOGGENMODE_FOG_X : Z := 0x4.
Definition NV_PGRAPH_CSV0_D : Z := 0xFB4.
Definition NV_PGRAPH_CSV0_D_FOGGENMODE : Z := 0x1C00000.
Definition NV_PGRAPH_CONTROL_3_FOGENABLE : Z := 0x100.
Definition NV_PGRAPH_FOGCOLOR : Z := 0x1980.
Definition NV_PGRAPH_FOGCOLOR_RED : Z := 0xFF0000.
Definition NV_PGRAPH_FOGCOLOR_GREEN : Z := 0xFF00.
Definition NV_PGRAPH_FOGCOLOR_BLUE : Z := 0xFF.
Definition NV_PGRAPH_FOGCOLOR_ALPHA : Z := 0xFF000000.
Definition NV_PGRAPH_SETUPRASTER_WINDOWCLIPTYPE : Z := 0x80000000.
Definition NV_PGRAPH_WINDOWCLIPX0 : Z := 0x1A44.
Definition NV_PGRAPH_WINDOWCLIPY0 : Z := 0x1A64.
Definition NV_PGRAPH_CONTROL_0_ALPHATESTENABLE : Z := 0x1000.
Definition NV_PGRAPH_BLEND : Z := 0x1804.
Definition NV_PGRAPH_BLEND_EN : Z := 0x8.
Definition NV_PGRAPH_SETUPRASTER_CULLENABLE : Z := 0x10000000.
Definition NV_PGRAPH_CONTROL_0_ZENABLE : Z := 0x4000.
Definition NV_PGRAPH_CONTROL_0_DITHERENABLE : Z := 0x400000.
Definition NV_PGRAPH_CSV0_C_LIGHTING : Z := 0x80000000.
Definition NV_PGRAPH_CSV0_D_POINTPARAMSENABLE : Z := 0x2000000.
Definition NV_PGRAPH_CONTROL_3_POINTPARAMSENABLE : Z := 0x200.
Definition NV_PGRAPH_SETUPRASTER_POINTSMOOTHENABLE : Z := 0x200.
Definition NV_PGRAPH_SETUPRASTER_LINESMOOTHENABLE : Z := 0x400.
Definition NV_PGRAPH_SETUPRASTER_POLYSMOOTHENABLE : Z := 0x800.
Definition NV_PGRAPH_CSV0_D_SKIN : Z := 0x1C000000.
Definition NV_PGRAPH_CONTROL_1 : Z := 0x1950.
Definition NV_PGRAPH_CONTROL_1_STENCIL_TEST_ENABLE : Z := 0x1.
Definition NV_PGRAPH_SETUPRASTER_POFFSETPOINTENABLE : Z := 0x40.
Definition NV_PGRAPH_SETUPRASTER_POFFSETLINEENABLE : Z := 0x80.
Definition NV_PGRAPH_SETUPRASTER_POFFSETFILLENABLE : Z := 0x100.
Definition NV_PGRAPH_CONTROL_0_ALPHAFUNC : Z := 0xF00.
Definition NV_PGRAPH_CONTROL_0_ALPHAREF : Z := 0xFF.
Definition NV_PGRAPH_BLEND_SFACTOR_ZERO : Z := 0x0.
Definition NV_PGRAPH_BLEND_SFACTOR_ONE : Z := 0x1.
Definition NV_PGRAPH_BLEND_SFACTOR_SRC_COLOR : Z := 0x2.
Definition NV_PGRAPH_BLEND_SFACTOR_ONE_MINUS_SRC_COLOR : Z := 0x3.
Definition NV_PGRAPH_BLEND_SFACTOR_SRC_ALPHA : Z := 0x4.
Definition NV_PGRAPH_BLEND_SFACTOR_ONE_MINUS_SRC_ALPHA : Z := 0x5.
Definition NV_PGRAPH_BLEND_SFACTOR_DST_ALPHA : Z := 0x6.
Definition NV_PGRAPH_BLEND_SFACTOR_ONE_MINUS_DST_ALPHA : Z := 0x7.
Definition NV_PGRAPH_BLEND_SFACTOR_DST_COLOR : Z := 0x8.
Definition NV_PGRAPH_BLEND_SFACTOR_ONE_MINUS_DST_COLOR : Z := 0x9.
Definition NV_PGRAPH_BLEND_SFACTOR_SRC_ALPHA_SATURATE : Z := 0xA.
Definition NV_PGRAPH_BLEND_SFACTOR_CONSTANT_COLOR : Z := 0xC.
Definition NV_PGRAPH_BLEND_SFACTOR_ONE_MINUS_CONSTANT_COLOR : Z := 0xD.
Definition NV_PGRAPH_BLEND_SFACTOR_CONSTANT_ALPHA : Z := 0xE.
Definition NV_PGRAPH_BLEND_SFACTOR_ONE_MINUS_CONSTANT_ALPHA : Z := 0xF.
Definition NV_PGRAPH_BLEND_SFACTOR : Z := 0xF0.
Definition NV_PGRAPH_BLEND_DFACTOR_ZERO : Z := 0x0.
Definition NV_PGRAPH_BLEND_DFACTOR_ONE : Z := 0x1.
Definition NV_PGRAPH_BLEND_DFACTOR_SRC_COLOR : Z := 0x2.
Definition NV_PGRAPH_BLEND_DFACTOR_ONE_MINUS_SRC_COLOR : Z := 0x3.
Definition NV_PGRAPH_BLEND_DFACTOR_SRC_ALPHA : Z := 0x4.
Definition NV_PGRAPH_BLEND_DFACTOR_ONE_MINUS_SRC_ALPHA : Z := 0x5.
Definition NV_PGRAPH_BLEND_DFACTOR_DST_ALPHA : Z := 0x6.
Definition NV_PGRAPH_BLEND_DFACTOR_ONE_MINUS_DST_ALPHA : Z := 0x7.
Definition NV_PGRAPH_BLEND_DFACTOR_DST_COLOR : Z := 0x8.
Definition NV_PGRAPH_BLEND_DFACTOR_ONE_MINUS_DST_COLOR : Z := 0x9.
Definition NV_PGRAPH_BLEND_DFACTOR_SRC_ALPHA_SATURATE : Z := 0xA.
Definition NV_PGRAPH_BLEND_DFACTOR_CONSTANT_COLOR : Z := 0xC.
Definition NV_PGRAPH_BLEND_DFACTOR_ONE_MINUS_CONSTANT_COLOR : Z := 0xD.
Definition NV_PGRAPH_BLEND_DFACTOR_CONSTANT_ALPHA : Z := 0xE.
Definition NV_PGRAPH_BLEND_DFACTOR_ONE_MINUS_CONSTANT_ALPHA : Z := 0xF.
Definition NV_PGRAPH_BLEND_DFACTOR : Z := 0xF00.
Definition NV_PGRAPH_BLENDCOLOR : Z := 0x1808.
Definition NV_PGRAPH_BLEND_EQN : Z := 0x7.
Definition NV_PGRAPH_CONTROL_0_ZFUNC : Z := 0xF0000.
Definition NV_PGRAPH_CONTROL_0_ALPHA_WRITE_ENABLE : Z := 0x4000000.
Definition NV_PGRAPH_CONTROL_0_RED_WRITE_ENABLE : Z := 0x8000000.
Definition NV_PGRAPH_CONTROL_0_GREEN_WRITE_ENABLE : Z := 0x10000000.
Definition NV_PGRAPH_CONTROL_0_BLUE_WRITE_ENABLE : Z := 0x20000000.
Definition NV_PGRAPH_CONTROL_0_ZWRITEENABLE : Z := 0x1000000.
Definition NV_PGRAPH_CONTROL_1_STENCIL_MASK_WRITE : Z := 0xFF000000.
Definition NV_PGRAPH_CONTROL_1_STENCIL_FUNC : Z := 0xF0.
Definition NV_PGRAPH_CONTROL_1_STENCIL_REF : Z := 0xFF00.
Definition NV_PGRAPH_CONTROL_1_STENCIL_MASK_READ : Z := 0xFF0000.
Definition NV_PGRAPH_CONTROL_2_STENCIL_OP_V_KEEP : Z := 0x1.
Definition NV_PGRAPH_CONTROL_2_STENCIL_OP_V_ZERO : Z := 0x2.
Definition NV_PGRAPH_CONTROL_2_STENCIL_OP_V_REPLACE : Z := 0x3.
Definition NV_PGRAPH_CONTROL_2_STENCIL_OP_V_INCRSAT : Z := 0x4.
Definition NV_PGRAPH_CONTROL_2_STENCIL_OP_V_DECRSAT : Z := 0x5.
Definition NV_PGRAPH_CONTROL_2_STENCIL_OP_V_INVERT : Z := 0x6.
Definition NV_PGRAPH_CONTROL_2_STENCIL_OP_V_INCR : Z := 0x7.
Definition NV_PGRAPH_CONTROL_2_STENCIL_OP_V_DECR : Z := 0x8.
Definition NV_PGRAPH_CONTROL_2 : Z := 0x1954.
Definition NV_PGRAPH_CONTROL_2_STENCIL_OP_FAIL : Z := 0xF.
Definition NV_PGRAPH_CONTROL_2_STENCIL_OP_ZFAIL : Z := 0xF0.
Definition NV_PGRAPH_CONTROL_2_STENCIL_OP_ZPASS : Z := 0xF00.
Definition NV_PGRAPH_CONTROL_3_SHADEMODE_FLAT : Z := 0x0.
Definition NV_PGRAPH_CONTROL_3_PROVOKING_VERTEX : Z := 0x1.
Definition NV_PGRAPH_ZOFFSETFACTOR : Z := 0x1AA8.
Definition NV_PGRAPH_ZOFFSETBIAS : Z := 0x1AA4.
Definition NV_PGRAPH_SETUPRASTER_FRONTFACEMODE_POINT : Z := 0x1.
Definition NV_PGRAPH_SETUPRASTER_FRONTFACEMODE_LINE : Z := 0x2.
Definition NV_PGRAPH_SETUPRASTER_FRONTFACEMODE_FILL : Z := 0x0.
Definition NV_PGRAPH_SETUPRASTER_FRONTFACEMODE : Z := 0x3.
Definition NV_PGRAPH_SETUPRASTER_BACKFACEMODE : Z := 0xC.
Definition NV_PGRAPH_ZCLIPMIN : Z := 0x1A90.
Definition NV_PGRAPH_ZCLIPMAX : Z := 0x1ABC.
Definition NV_PGRAPH_SETUPRASTER_CULLCTRL_FRONT : Z := 0x1.
Definition NV_PGRAPH_SETUPRASTER_CULLCTRL_BACK : Z := 0x2.
Definition NV_PGRAPH_SETUPRASTER_CULLCTRL_FRONT_AND_BACK : Z := 0x3.
Definition NV_PGRAPH_SETUPRASTER_CULLCTRL : Z := 0x600000.
Definition NV_PGRAPH_SETUPRASTER_FRONTFACE : Z := 0x800000.
Definition NV_PGRAPH_CSV0_C_NORMALIZATION_ENABLE : Z := 0x8000000.
Definition NV_PGRAPH_CSV0_C_SPECULAR_ENABLE : Z := 0x10000.
Definition NV_PGRAPH_CSV0_D_LIGHTS : Z := 0xFFFF.
Definition NV_PGRAPH_CSV1_A_T0_S_DISABLE : Z := 0x0.
Definition NV_PGRAPH_CSV1_A_T0_S_EYE_LINEAR : Z := 0x1.
Definition NV_PGRAPH_CSV1_A_T0_S_OBJECT_LINEAR : Z := 0x2.
Definition NV_PGRAPH_CSV1_A_T0_S_SPHERE_MAP : Z := 0x3.
Definition NV_PGRAPH_CSV1_A_T0_S_REFLECTION_MAP : Z := 0x5.
Definition NV_PGRAPH_CSV1_A_T0_S_NORMAL_MAP : Z := 0x4.
Definition NV_PGRAPH_CSV1_A : Z := 0xFC0.
Definition NV_PGRAPH_CSV1_B : Z := 0xFBC.
Definition NV_PGRAPH_CSV1_A_T1_S : Z := 0x700000.
Definition NV_PGRAPH_CSV1_A_T0_S : Z := 0x70.
Definition NV_PGRAPH_CSV1_A_T1_T : Z := 0x3800000.
Definition NV_PGRAPH_CSV1_A_T0_T : Z := 0x380.
Definition NV_PGRAPH_CSV1_A_T1_R : Z := 0x1C000000.
Definition NV_PGRAPH_CSV1_A_T0_R : Z := 0x1C00.
Definition NV_PGRAPH_CSV1_A_T1_Q : Z := 0xE0000000.
Definition NV_PGRAPH_CSV1_A_T0_Q : Z := 0xE000.
Definition NV_PGRAPH_POINTSIZE : Z := 0x198C.
Definition NV_PGRAPH_FOGPARAM0 : Z := 0x1984.
Definition NV_PGRAPH_CSV0_D_TEXGEN_REF : Z := 0x100000.
Definition NV_PGRAPH_COMBINEFACTOR0 : Z := 0x1880.
Definition NV_PGRAPH_COMBINEFACTOR1 : Z := 0x18A0.
Definition NV_PGRAPH_COMBINEALPHAO0 : Z := 0x18E0.
Definition NV_PGRAPH_COMBINECOLORI0 : Z := 0x1900.
Definition NV_PGRAPH_COLORKEYCOLOR0 : Z := 0x1870.
Definition NV_PGRAPH_CHEOPS_OFFSET : Z := 0xFC4.
Definition NV_PGRAPH_CHEOPS_OFFSET_PROG_LD_PTR : Z := 0xFF.
Definition NV_PGRAPH_CHEOPS_OFFSET_CONST_LD_PTR : Z := 0xFF00.
Definition NV_PGRAPH_BLEND_LOGICOP_ENABLE : Z := 0x10000.
Definition NV_PGRAPH_BLEND_LOGICOP : Z := 0xF000.
Definition NV_PGRAPH_TEXOFFSET0 : Z := 0x1A24.
Definition NV_PGRAPH_TEXFMT0 : Z := 0x1A04.
Definition NV_PGRAPH_TEXFMT0_CONTEXT_DMA : Z := 0x2.
Definition NV_PGRAPH_TEXFMT0_CUBEMAPENABLE : Z := 0x4.
Definition NV_PGRAPH_TEXFMT0_BORDER_SOURCE : Z := 0x8.
Definition NV_PGRAPH_TEXFMT0_DIMENSIONALITY : Z := 0xC0.
Definition NV_PGRAPH_TEXFMT0_COLOR : Z := 0x7F00.
Definition NV_PGRAPH_TEXFMT0_MIPMAP_LEVELS : Z := 0xF0000.
Definition NV_PGRAPH_TEXFMT0_BASE_SIZE_U : Z := 0xF00000.
Definition NV_PGRAPH_TEXFMT0_BASE_SIZE_V : Z := 0xF000000.
Definition NV_PGRAPH_TEXFMT0_BASE_SIZE_P : Z := 0xF0000000.
Definition NV_PGRAPH_TEXCTL0_0 : Z := 0x19CC.
Definition NV_PGRAPH_TEXCTL1_0 : Z := 0x19DC.
Definition NV_PGRAPH_TEXFILTER0 : Z := 0x19F4.
Definition NV_PGRAPH_TEXIMAGERECT0 : Z := 0x1A14.
Definition NV_PGRAPH_TEXPALETTE0 : Z := 0x1A34.
Definition NV_PGRAPH_TEXPALETTE0_CONTEXT_DMA : Z := 0x1.
Definition NV_PGRAPH_TEXPALETTE0_LENGTH : Z := 0xC.
Definition NV_PGRAPH_TEXPALETTE0_OFFSET : Z := 0xFFFFFFC0.
Definition NV_PGRAPH_BORDERCOLOR0 : Z := 0x180C.
Definition NV_PGRAPH_BUMPMAT00 : Z := 0x181C.
Definition NV_PGRAPH_BUMPMAT01 : Z := 0x1828.
Definition NV_PGRAPH_BUMPMAT11 : Z := 0x1840.
Definition NV_PGRAPH_BUMPMAT10 : Z := 0x1834.
Definition NV_PGRAPH_BUMPSCALE1 : Z := 0x1858.
Definition NV_PGRAPH_BUMPOFFSET1 : Z := 0x184C.
Definition NV_PGRAPH_EYEVEC0 : Z := 0x1AAC.
Definition NV_PGRAPH_SEMAPHOREOFFSET : Z := 0x19A0.
Definition NV_PGRAPH_ZCOMPRESSOCCLUDE : Z := 0x1A84.
Definition NV_PGRAPH_ZCOMPRESSOCCLUDE_ZCLAMP_EN : Z := 0x10.
Definition NV_PGRAPH_ZCOMPRESSOCCLUDE_ZCLAMP_EN_CULL : Z := 0x0.
Definition NV_PGRAPH_ZCOMPRESSOCCLUDE_ZCLAMP_EN_CLAMP : Z := 0x1.
Definition NV_PGRAPH_ANTIALIASING : Z := 0x1800.
Definition NV_PGRAPH_ANTIALIASING_ENABLE : Z := 0x1.
Definition NV_PGRAPH_ZSTENCILCLEARVALUE : Z := 0x1A88.
Definition NV_PGRAPH_COLORCLEARVALUE : Z := 0x186C.
Definition NV_PGRAPH_CLEARRECTX : Z := 0x1864.
Definition NV_PGRAPH_CLEARRECTY : Z := 0x1868.
Definition NV_PGRAPH_SPECFOGFACTOR0 : Z := 0x19AC.
Definition NV_PGRAPH_SHADERCLIPMODE : Z := 0x1994.
Definition NV_PGRAPH_COMBINECOLORO0 : Z := 0x1920.
Definition NV_PGRAPH_COMBINECTL : Z := 0x1940.
Definition NV_PGRAPH_SHADOWZSLOPETHRESHOLD : Z := 0x19A8.
Definition NV_PGRAPH_SHADOWCTL : Z := 0x19A4.
Definition NV_PGRAPH_SHADOWCTL_SHADOW_ZFUNC : Z := 0x7.
Definition NV_PGRAPH_SHADERPROG : Z := 0x199C.
Definition NV_PGRAPH_SHADERCTL : Z := 0x1998.
Definition NV_PGRAPH_CSV0_D_MODE : Z := 0xC0000000.
Definition NV_PGRAPH_CSV0_D_RANGE_MODE : Z := 0x40000.
Definition NV_PGRAPH_CSV0_C_CHEOPS_PROGRAM_START : Z := 0xFF00.
Definition NV_PGRAPH_TEXCTL0_0_ENABLE : Z := 0x40000000.

(** ** Rows of the transform and lighting contexts *)

Definition NV_IGRAPH_XF_LTCTXA_CM_COL : Z := 0x13.
Definition NV_IGRAPH_XF_XFCTX_PMAT0 : Z := 0x4.
Definition NV_IGRAPH_XF_XFCTX_MMAT0 : Z := 0x8.
Definition NV_IGRAPH_XF_XFCTX_IMMAT0 : Z := 0xC.
Definition NV_IGRAPH_XF_XFCTX_CMAT0 : Z := 0x0.
Definition NV_IGRAPH_XF_XFCTX_T0MAT : Z := 0x44.
Definition NV_IGRAPH_XF_LTCTXA_FOG_K : Z := 0x15.
Definition NV_IGRAPH_XF_XFCTX_TG0MAT : Z := 0x40.
Definition NV_IGRAPH_XF_XFCTX_FOG : Z := 0x39.
Definition NV_IGRAPH_XF_LTCTXA_FR_AMB : Z := 0x11.
Definition NV_IGRAPH_XF_XFCTX_VPOFF : Z := 0x3B.
Definition NV_IGRAPH_XF_XFCTX_EYEP : Z := 0x38.
Definition NV_IGRAPH_XF_XFCTX_VPSCL : Z := 0x3A.
Definition NV_IGRAPH_XF_LTCTXB_L0_BAMB : Z := 0x3.
Definition NV_IGRAPH_XF_LTCTXB_L0_BDIF : Z := 0x4.
Definition NV_IGRAPH_XF_LTCTXB_L0_BSPC : Z := 0x5.
Definition NV_IGRAPH_XF_LTCTXB_L0_AMB : Z := 0x0.
Definition NV_IGRAPH_XF_LTCTXB_L0_DIF : Z := 0x1.
Definition NV_IGRAPH_XF_LTCTXB_L0_SPC : Z := 0x2.
Definition NV_IGRAPH_XF_LTC1_r0 : Z := 0x4.
Definition NV_IGRAPH_XF_LTCTXA_L0_K : Z := 0x0.
Definition NV_IGRAPH_XF_LTCTXA_L0_SPT : Z := 0x1.
Definition NV_IGRAPH_XF_LTCTXA_EYED : Z := 0x10.

(** ** Methods of the 3D class, their fields and values *)

Definition NV097_ARRAY_ELEMENT16 : Z := 0x1800.
Definition NV097_DRAW_ARRAYS : Z := 0x1810.
Definition NV097_SET_BEGIN_END : Z := 0x17FC.
Definition NV097_SET_BEGIN_END_OP_END : Z := 0x0.
Definition NV097_SET_SURFACE_CLIP_HORIZONTAL_X : Z := 0xFFFF.
Definition NV097_SET_SURFACE_CLIP_HORIZONTAL_WIDTH : Z := 0xFFFF0000.
Definition NV097_SET_SURFACE_CLIP_VERTICAL_Y : Z := 0xFFFF.
Definition NV097_SET_SURFACE_CLIP_VERTICAL_HEIGHT : Z := 0xFFFF0000.
Definition NV097_SET_SURFACE_FORMAT_COLOR : Z := 0xF.
Definition NV097_SET_SURFACE_FORMAT_ZETA : Z := 0xF0.
Definition NV097_SET_SURFACE_FORMAT_ANTI_ALIASING : Z := 0xF000.
Definition NV097_SET_SURFACE_FORMAT_WIDTH : Z := 0xFF0000.
Definition NV097_SET_SURFACE_FORMAT_HEIGHT : Z := 0xFF000000.
Definition NV097_SET_SURFACE_FORMAT_TYPE : Z := 0xF00.
Definition NV097_SET_SURFACE_PITCH_COLOR : Z := 0xFFFF.
Definition NV097_SET_SURFACE_PITCH_ZETA : Z := 0xFFFF0000.
Definition NV097_SET_COMBINER_ALPHA_ICW : Z := 0x260.
Definition NV097_SET_TEXTURE_ADDRESS : Z := 0x1B08.
Definition NV097_SET_CONTROL0_STENCIL_WRITE_ENABLE : Z := 0x1.
Definition NV097_SET_CONTROL0_Z_FORMAT : Z := 0x1000.
Definition NV097_SET_CONTROL0_Z_PERSPECTIVE_ENABLE : Z := 0x10000.
Definition NV097_SET_LIGHT_CONTROL_SEPARATE_SPECULAR : Z := 0x1.
Definition NV097_SET_LIGHT_CONTROL_LOCALEYE : Z := 0x10000.
Definition NV097_SET_LIGHT_CONTROL_ALPHA_FROM_MATERIAL_SPECULAR : Z := 0x20000.
Definition NV097_SET_FOG_MODE_V_LINEAR : Z := 0x2601.
Definition NV097_SET_FOG_MODE_V_EXP : Z := 0x800.
Definition NV097_SET_FOG_MODE_V_EXP2 : Z := 0x801.
Definition NV097_SET_FOG_MODE_V_EXP_ABS : Z := 0x802.
Definition NV097_SET_FOG_MODE_V_EXP2_ABS : Z := 0x803.
Definition NV097_SET_FOG_MODE_V_LINEAR_ABS : Z := 0x804.
Definition NV097_SET_FOG_GEN_MODE_V_SPEC_ALPHA : Z := 0x0.
Definition NV097_SET_FOG_GEN_MODE_V_RADIAL : Z := 0x1.
Definition NV097_SET_FOG_GEN_MODE_V_PLANAR : Z := 0x2.
Definition NV097_SET_FOG_GEN_MODE_V_ABS_PLANAR : Z := 0x3.
Definition NV097_SET_FOG_GEN_MODE_V_FOG_X : Z := 0x6.
Definition NV097_SET_FOG_COLOR_RED : Z := 0xFF.
Definition NV097_SET_FOG_COLOR_GREEN : Z := 0xFF00.
Definition NV097_SET_FOG_COLOR_BLUE : Z := 0xFF0000.
Definition NV097_SET_FOG_COLOR_ALPHA : Z := 0xFF000000.
Definition NV097_SET_WINDOW_CLIP_HORIZONTAL : Z := 0x2C0.
Definition NV097_SET_WINDOW_CLIP_VERTICAL : Z := 0x2E0.
Definition NV097_SET_BLEND_FUNC_SFACTOR_V_ZERO : Z := 0x0.
Definition NV097_SET_BLEND_FUNC_SFACTOR_V_ONE : Z := 0x1.
Definition NV097_SET_BLEND_FUNC_SFACTOR_V_SRC_COLOR : Z := 0x300.
Definition NV097_SET_BLEND_FUNC_SFACTOR_V_ONE_MINUS_SRC_COLOR : Z := 0x301.
Definition NV097_SET_BLEND_FUNC_SFACTOR_V_SRC_ALPHA : Z := 0x302.
Definition NV097_SET_BLEND_FUNC_SFACTOR_V_ONE_MINUS_SRC_ALPHA : Z := 0x303.
Definition NV097_SET_BLEND_FUNC_SFACTOR_V_DST_ALPHA : Z := 0x304.
Definition NV097_SET_BLEND_FUNC_SFACTOR_V_ONE_MINUS_DST_ALPHA : Z := 0x305.
Definition NV097_SET_BLEND_FUNC_SFACTOR_V_DST_COLOR : Z := 0x306.
Definition NV097_SET_BLEND_FUNC_SFACTOR_V_ONE_MINUS_DST_COLOR : Z := 0x307.
Definition NV097_SET_BLEND_FUNC_SFACTOR_V_SRC_ALPHA_SATURATE : Z := 0x308.
Definition NV097_SET_BLEND_FUNC_SFACTOR_V_CONSTANT_COLOR : Z := 0x8001.
Definition NV097_SET_BLEND_FUNC_SFACTOR_V_ONE_MINUS_CONSTANT_COLOR : Z := 0x8002.
Definition NV097_SET_BLEND_FUNC_SFACTOR_V_CONSTANT_ALPHA : Z := 0x8003.
Definition NV097_SET_BLEND_FUNC_SFACTOR_V_ONE_MINUS_CONSTANT_ALPHA : Z := 0x8004.
Definition NV097_SET_BLEND_FUNC_DFACTOR_V_ZERO : Z := 0x0.
Definition NV097_SET_BLEND_FUNC_DFACTOR_V_ONE : Z := 0x1.
Definition NV097_SET_BLEND_FUNC_DFACTOR_V_SRC_COLOR : Z := 0x300.
Definition NV097_SET_BLEND_FUNC_DFACTOR_V_ONE_MINUS_SRC_COLOR : Z := 0x301.
Definition NV097_SET_BLEND_FUNC_DFACTOR_V_SRC_ALPHA : Z := 0x302.
Definition NV097_SET_BLEND_FUNC_DFACTOR_V_ONE_MINUS_SRC_ALPHA : Z := 0x303.
Definition NV097_SET_BLEND_FUNC_DFACTOR_V_DST_ALPHA : Z := 0x304.
Definition NV097_SET_BLEND_FUNC_DFACTOR_V_ONE_MINUS_DST_ALPHA : Z := 0x305.
Definition NV097_SET_BLEND_FUNC_DFACTOR_V_DST_COLOR : Z := 0x306.
Definition NV097_SET_BLEND_FUNC_DFACTOR_V_ONE_MINUS_DST_COLOR : Z := 0x307.
Definition NV097_SET_BLEND_FUNC_DFACTOR_V_SRC_ALPHA_SATURATE : Z := 0x308.
Definition NV097_SET_BLEND_FUNC_DFACTOR_V_CONSTANT_COLOR : Z := 0x8001.
Definition NV097_SET_BLEND_FUNC_DFACTOR_V_ONE_MINUS_CONSTANT_COLOR : Z := 0x8002.
Definition NV097_SET_BLEND_FUNC_DFACTOR_V_CONSTANT_ALPHA : Z := 0x8003.
Definition NV097_SET_BLEND_FUNC_DFACTOR_V_ONE_MINUS_CONSTANT_ALPHA : Z := 0x8004.
Definition NV097_SET_BLEND_EQUATION_V_FUNC_SUBTRACT : Z := 0x800A.
Definition NV097_SET_BLEND_EQUATION_V_FUNC_REVERSE_SUBTRACT : Z := 0x800B.
Definition NV097_SET_BLEND_EQUATION_V_FUNC_ADD : Z := 0x8006.
Definition NV097_SET_BLEND_EQUATION_V_MIN : Z := 0x8007.
Definition NV097_SET_BLEND_EQUATION_V_MAX : Z := 0x8008.
Definition NV097_SET_BLEND_EQUATION_V_FUNC_REVERSE_SUBTRACT_SIGNED : Z := 0xF005.
Definition NV097_SET_BLEND_EQUATION_V_FUNC_ADD_SIGNED : Z := 0xF006.
Definition NV097_SET_COLOR_MASK_ALPHA_WRITE_ENABLE : Z := 0x1000000.
Definition NV097_SET_COLOR_MASK_RED_WRITE_ENABLE : Z := 0x10000.
Definition NV097_SET_COLOR_MASK_GREEN_WRITE_ENABLE : Z := 0x100.
Definition NV097_SET_COLOR_MASK_BLUE_WRITE_ENABLE : Z := 0x1.
Definition NV097_SET_STENCIL_OP_V_KEEP : Z := 0x1E00.
Definition NV097_SET_STENCIL_OP_V_ZERO : Z := 0x0.
Definition NV097_SET_STENCIL_OP_V_REPLACE : Z := 0x1E01.
Definition NV097_SET_STENCIL_OP_V_INCRSAT : Z := 0x1E02.
Definition NV097_SET_STENCIL_OP_V_DECRSAT : Z := 0x1E03.
Definition NV097_SET_STENCIL_OP_V_INVERT : Z := 0x150A.
Definition NV097_SET_STENCIL_OP_V_INCR : Z := 0x8507.
Definition NV097_SET_STENCIL_OP_V_DECR : Z := 0x8508.
Definition NV097_SET_SHADE_MODE_V_FLAT : Z := 0x1D00.
Definition NV097_SET_SHADE_MODE_V_SMOOTH : Z := 0x1D01.
Definition NV097_SET_FRONT_POLYGON_MODE_V_POINT : Z := 0x1B00.
Definition NV097_SET_FRONT_POLYGON_MODE_V_LINE : Z := 0x1B01.
Definition NV097_SET_FRONT_POLYGON_MODE_V_FILL : Z := 0x1B02.
Definition NV097_SET_CULL_FACE_V_FRONT : Z := 0x404.
Definition NV097_SET_CULL_FACE_V_BACK : Z := 0x405.
Definition NV097_SET_CULL_FACE_V_FRONT_AND_BACK : Z := 0x408.
Definition NV097_SET_FRONT_FACE_V_CW : Z := 0x900.
Definition NV097_SET_FRONT_FACE_V_CCW : Z := 0x901.
Definition NV097_SET_MATERIAL_EMISSION : Z := 0x3A8.
Definition NV097_SET_TEXGEN_S_DISABLE : Z := 0x0.
Definition NV097_SET_TEXGEN_S_EYE_LINEAR : Z := 0x2400.
Definition NV097_SET_TEXGEN_S_OBJECT_LINEAR : Z := 0x2401.
Definition NV097_SET_TEXGEN_S_SPHERE_MAP : Z := 0x2402.
Definition NV097_SET_TEXGEN_S_REFLECTION_MAP : Z := 0x8512.
Definition NV097_SET_TEXGEN_S_NORMAL_MAP : Z := 0x8511.
Definition NV097_SET_TEXGEN_S : Z := 0x3C0.
Definition NV097_SET_TEXGEN_T : Z := 0x3C4.
Definition NV097_SET_TEXGEN_R : Z := 0x3C8.
Definition NV097_SET_TEXGEN_Q : Z := 0x3CC.
Definition NV097_SET_TEXTURE_MATRIX_ENABLE : Z := 0x420.
Definition NV097_SET_POINT_SIZE_V_MAX : Z := 0x1FF.
Definition NV097_SET_PROJECTION_MATRIX : Z := 0x440.
Definition NV097_SET_MODEL_VIEW_MATRIX : Z := 0x480.
Definition NV097_SET_INVERSE_MODEL_VIEW_MATRIX : Z := 0x580.
Definition NV097_SET_COMPOSITE_MATRIX : Z := 0x680.
Definition NV097_SET_TEXTURE_MATRIX : Z := 0x6C0.
Definition NV097_SET_FOG_PARAMS : Z := 0x9C0.
Definition NV097_SET_TEXGEN_PLANE_S : Z := 0x840.
Definition NV097_SET_FOG_PLANE : Z := 0x9D0.
Definition NV097_SET_SPECULAR_PARAMS : Z := 0x9E0.
Definition NV097_SET_SCENE_AMBIENT_COLOR : Z := 0xA10.
Definition NV097_SET_VIEWPORT_OFFSET : Z := 0xA20.
Definition NV097_SET_POINT_PARAMS : Z := 0xA30.
Definition NV097_SET_EYE_POSITION : Z := 0xA50.
Definition NV097_SET_COMBINER_FACTOR0 : Z := 0xA60.
Definition NV097_SET_COMBINER_FACTOR1 : Z := 0xA80.
Definition NV097_SET_COMBINER_ALPHA_OCW : Z := 0xAA0.
Definition NV097_SET_COMBINER_COLOR_ICW : Z := 0xAC0.
Definition NV097_SET_COLOR_KEY_COLOR : Z := 0xAE0.
Definition NV097_SET_VIEWPORT_SCALE : Z := 0xAF0.
Definition NV097_SET_TRANSFORM_PROGRAM : Z := 0xB00.
Definition NV097_SET_TRANSFORM_CONSTANT : Z := 0xB80.
Definition NV097_SET_VERTEX3F : Z := 0x1500.
Definition NV097_SET_BACK_LIGHT_AMBIENT_COLOR : Z := 0xC00.
Definition NV097_SET_BACK_LIGHT_DIFFUSE_COLOR : Z := 0xC0C.
Definition NV097_SET_BACK_LIGHT_SPECULAR_COLOR : Z := 0xC18.
Definition NV097_SET_LIGHT_AMBIENT_COLOR : Z := 0x1000.
Definition NV097_SET_LIGHT_DIFFUSE_COLOR : Z := 0x100C.
Definition NV097_SET_LIGHT_SPECULAR_COLOR : Z := 0x1018.
Definition NV097_SET_LIGHT_LOCAL_RANGE : Z := 0x1024.
Definition NV097_SET_LIGHT_INFINITE_HALF_VECTOR : Z := 0x1028.
Definition NV097_SET_LIGHT_INFINITE_DIRECTION : Z := 0x1034.
Definition NV097_SET_LIGHT_SPOT_FALLOFF : Z := 0x1040.
Definition NV097_SET_LIGHT_SPOT_DIRECTION : Z := 0x104C.
Definition NV097_SET_LIGHT_LOCAL_POSITION : Z := 0x105C.
Definition NV097_SET_LIGHT_LOCAL_ATTENUATION : Z := 0x1068.
Definition NV097_SET_VERTEX4F : Z := 0x1518.
Definition NV097_SET_NORMAL3S : Z := 0x1540.
Definition NV097_SET_TEXCOORD0_4S : Z := 0x15B0.
Definition NV097_SET_TEXCOORD1_4S : Z := 0x15D8.
Definition NV097_SET_TEXCOORD2_4S : Z := 0x1600.
Definition NV097_SET_TEXCOORD3_4S : Z := 0x1630.
Definition NV097_SET_DIFFUSE_COLOR3F : Z := 0x1560.
Definition NV097_SET_SPECULAR_COLOR3F : Z := 0x1580.
Definition NV097_SET_NORMAL3F : Z := 0x1530.
Definition NV097_SET_DIFFUSE_COLOR4F : Z := 0x1550.
Definition NV097_SET_SPECULAR_COLOR4F : Z := 0x1570.
Definition NV097_SET_TEXCOORD0_4F : Z := 0x15A0.
Definition NV097_SET_TEXCOORD1_4F : Z := 0x15C8.
Definition NV097_SET_TEXCOORD2_4F : Z := 0x15F0.
Definition NV097_SET_TEXCOORD3_4F : Z := 0x1620.
Definition NV097_SET_WEIGHT4F : Z := 0x16C0.
Definition NV097_SET_WEIGHT2F : Z := 0x16A0.
Definition NV097_SET_WEIGHT3F : Z := 0x16B0.
Definition NV097_SET_TEXCOORD0_2F : Z := 0x1590.
Definition NV097_SET_TEXCOORD1_2F : Z := 0x15B8.
Definition NV097_SET_TEXCOORD2_2F : Z := 0x15E0.
Definition NV097_SET_TEXCOORD3_2F : Z := 0x1608.
Definition NV097_SET_DIFFUSE_COLOR4UB : Z := 0x156C.
Definition NV097_SET_SPECULAR_COLOR4UB : Z := 0x158C.
Definition NV097_SET_VERTEX_DATA_ARRAY_FORMAT : Z := 0x1760.
Definition NV097_SET_VERTEX_DATA_ARRAY_FORMAT_TYPE : Z := 0xF.
Definition NV097_SET_VERTEX_DATA_ARRAY_FORMAT_SIZE : Z := 0xF0.
Definition NV097_SET_VERTEX_DATA_ARRAY_FORMAT_STRIDE : Z := 0xFFFFFF00.
Definition NV097_SET_VERTEX_DATA_ARRAY_FORMAT_TYPE_UB_D3D : Z := 0x0.
Definition NV097_SET_VERTEX_DATA_ARRAY_FORMAT_TYPE_UB_OGL : Z := 0x4.
Definition NV097_SET_VERTEX_DATA_ARRAY_FORMAT_TYPE_S1 : Z := 0x1.
Definition NV097_SET_VERTEX_DATA_ARRAY_FORMAT_TYPE_F : Z := 0x2.
Definition NV097_SET_VERTEX_DATA_ARRAY_FORMAT_TYPE_S32K : Z := 0x5.
Definition NV097_SET_VERTEX_DATA_ARRAY_FORMAT_TYPE_CMP : Z := 0x6.
Definition NV097_SET_VERTEX_DATA_ARRAY_OFFSET : Z := 0x1720.
Definition NV097_GET_REPORT_TYPE : Z := 0xFF000000.
Definition NV097_GET_REPORT_TYPE_ZPASS_PIXEL_CNT : Z := 0x1.
Definition NV097_SET_EYE_DIRECTION : Z := 0x17E0.
Definition NV097_SET_BEGIN_END_OP_POLYGON : Z := 0xA.
Definition NV097_SET_TEXTURE_OFFSET : Z := 0x1B00.
Definition NV097_SET_TEXTURE_FORMAT : Z := 0x1B04.
Definition NV097_SET_TEXTURE_FORMAT_CONTEXT_DMA : Z := 0x3.
Definition NV097_SET_TEXTURE_FORMAT_CUBEMAP_ENABLE : Z := 0x4.
Definition NV097_SET_TEXTURE_FORMAT_BORDER_SOURCE : Z := 0x8.
Definition NV097_SET_TEXTURE_FORMAT_DIMENSIONALITY : Z := 0xF0.
Definition NV097_SET_TEXTURE_FORMAT_COLOR : Z := 0xFF00.
Definition NV097_SET_TEXTURE_FORMAT_MIPMAP_LEVELS : Z := 0xF0000.
Definition NV097_SET_TEXTURE_FORMAT_BASE_SIZE_U : Z := 0xF00000.
Definition NV097_SET_TEXTURE_FORMAT_BASE_SIZE_V : Z := 0xF000000.
Definition NV097_SET_TEXTURE_FORMAT_BASE_SIZE_P : Z := 0xF0000000.
Definition NV097_SET_TEXTURE_CONTROL0 : Z := 0x1B0C.
Definition NV097_SET_TEXTURE_CONTROL1 : Z := 0x1B10.
Definition NV097_SET_TEXTURE_FILTER : Z := 0x1B14.
Definition NV097_SET_TEXTURE_IMAGE_RECT : Z := 0x1B1C.
Definition NV097_SET_TEXTURE_PALETTE : Z := 0x1B20.
Definition NV097_SET_TEXTURE_PALETTE_CONTEXT_DMA : Z := 0x1.
Definition NV097_SET_TEXTURE_PALETTE_LENGTH : Z := 0xC.
Definition NV097_SET_TEXTURE_PALETTE_OFFSET : Z := 0xFFFFFFC0.
Definition NV097_SET_TEXTURE_BORDER_COLOR : Z := 0x1B24.
Definition NV097_SET_TEXTURE_SET_BUMP_ENV_MAT : Z := 0x1B28.
Definition NV097_SET_TEXTURE_SET_BUMP_ENV_SCALE : Z := 0x1B38.
Definition NV097_SET_TEXTURE_SET_BUMP_ENV_OFFSET : Z := 0x1B3C.
Definition NV097_DRAW_ARRAYS_START_INDEX : Z := 0xFFFFFF.
Definition NV097_DRAW_ARRAYS_COUNT : Z := 0xFF000000.
Definition NV097_SET_EYE_VECTOR : Z := 0x181C.
Definition NV097_SET_VERTEX_DATA2F_M : Z := 0x1880.
Definition NV097_SET_VERTEX_DATA4F_M : Z := 0x1A00.
Definition NV097_SET_VERTEX_DATA2S : Z := 0x1900.
Definition NV097_SET_VERTEX_DATA4UB : Z := 0x1940.
Definition NV097_SET_VERTEX_DATA4S_M : Z := 0x1980.
Definition NV097_SET_ZMIN_MAX_CONTROL_ZCLAMP_EN : Z := 0xF0.
Definition NV097_SET_ZMIN_MAX_CONTROL_ZCLAMP_EN_CULL : Z := 0x0.
Definition NV097_SET_ZMIN_MAX_CONTROL_ZCLAMP_EN_CLAMP : Z := 0x1.
Definition NV097_SET_ANTI_ALIASING_CONTROL_ENABLE : Z := 0x1.
Definition NV097_SET_SPECULAR_FOG_FACTOR : Z := 0x1E20.
Definition NV097_SET_SPECULAR_PARAMS_BACK : Z := 0x1E28.
Definition NV097_SET_COMBINER_COLOR_OCW : Z := 0x1E40.
Definition NV097_SET_TRANSFORM_DATA : Z := 0x1E80.
Definition NV097_SET_TRANSFORM_EXECUTION_MODE_MODE : Z := 0x3.
Definition NV097_SET_TRANSFORM_EXECUTION_MODE_RANGE_MODE : Z := 0xFFFFFFFC.
Definition NV097_SET_SURFACE_FORMAT_COLOR_LE_X1R5G5B5_Z1R5G5B5 : Z := 0x1.
Definition NV097_SET_SURFACE_FORMAT_COLOR_LE_X1R5G5B5_O1R5G5B5 : Z := 0x2.
Definition NV097_SET_SURFACE_FORMAT_COLOR_LE_R5G6B5 : Z := 0x3.
Definition NV097_SET_SURFACE_FORMAT_COLOR_LE_X8R8G8B8_Z8R8G8B8 : Z := 0x4.
Definition NV097_SET_SURFACE_FORMAT_COLOR_LE_X8R8G8B8_O8R8G8B8 : Z := 0x5.
Definition NV097_SET_SURFACE_FORMAT_COLOR_LE_X1A7R8G8B8_Z1A7R8G8B8 : Z := 0x6.
Definition NV097_SET_SURFACE_FORMAT_COLOR_LE_X1A7R8G8B8_O1A7R8G8B8 : Z := 0x7.
Definition NV097_SET_SURFACE_FORMAT_COLOR_LE_A8R8G8B8 : Z := 0x8.
Definition NV097_SET_SURFACE_FORMAT_COLOR_LE_B8 : Z := 0x9.
Definition NV097_SET_SURFACE_FORMAT_COLOR_LE_G8B8 : Z := 0xA.
Definition NV097_SET_SURFACE_FORMAT_ZETA_Z16 : Z := 0x1.
Definition NV097_SET_SURFACE_FORMAT_ZETA_Z24S8 : Z := 0x2.
Definition NV097_GET_REPORT_OFFSET : Z := 0xFFFFFF.
Definition NV097_SET_SURFACE_FORMAT_ANTI_ALIASING_CENTER_1 : Z := 0x0.
Definition NV097_SET_SURFACE_FORMAT_ANTI_ALIASING_CENTER_CORNER_2 : Z := 0x1.
Definition NV097_SET_SURFACE_FORMAT_ANTI_ALIASING_SQUARE_OFFSET_4 : Z := 0x2.
Definition NV097_SET_OBJECT : Z := 0x0.
Definition NV097_NO_OPERATION : Z := 0x100.
Definition NV097_WAIT_FOR_IDLE : Z := 0x110.
Definition NV097_SET_FLIP_READ : Z := 0x120.
Definition NV097_SET_FLIP_WRITE : Z := 0x124.
Definition NV097_SET_FLIP_MODULO : Z := 0x128.
Definition NV097_FLIP_INCREMENT_WRITE : Z := 0x12C.
Definition NV097_FLIP_STALL : Z := 0x130.
Definition NV097_SET_CONTEXT_DMA_NOTIFIES : Z := 0x180.
Definition NV097_SET_CONTEXT_DMA_A : Z := 0x184.
Definition NV097_SET_CONTEXT_DMA_B : Z := 0x188.
Definition NV097_SET_CONTEXT_DMA_STATE : Z := 0x190.
Definition NV097_SET_CONTEXT_DMA_COLOR : Z := 0x194.
Definition NV097_SET_CONTEXT_DMA_ZETA : Z := 0x198.
Definition NV097_SET_CONTEXT_DMA_VERTEX_A : Z := 0x19C.
Definition NV097_SET_CONTEXT_DMA_VERTEX_B : Z := 0x1A0.
Definition NV097_SET_CONTEXT_DMA_SEMAPHORE : Z := 0x1A4.
Definition NV097_SET_CONTEXT_DMA_REPORT : Z := 0x1A8.
Definition NV097_SET_SURFACE_CLIP_HORIZONTAL : Z := 0x200.
Definition NV097_SET_SURFACE_CLIP_VERTICAL : Z := 0x204.
Definition NV097_SET_SURFACE_FORMAT : Z := 0x208.
Definition NV097_SET_SURFACE_PITCH : Z := 0x20C.
Definition NV097_SET_SURFACE_COLOR_OFFSET : Z := 0x210.
Definition NV097_SET_SURFACE_ZETA_OFFSET : Z := 0x214.
Definition NV097_SET_COMBINER_SPECULAR_FOG_CW0 : Z := 0x288.
Definition NV097_SET_COMBINER_SPECULAR_FOG_CW1 : Z := 0x28C.
Definition NV097_SET_CONTROL0 : Z := 0x290.
Definition NV097_SET_LIGHT_CONTROL : Z := 0x294.
Definition NV097_SET_COLOR_MATERIAL : Z := 0x298.
Definition NV097_SET_FOG_MODE : Z := 0x29C.
Definition NV097_SET_FOG_GEN_MODE : Z := 0x2A0.
Definition NV097_SET_FOG_ENABLE : Z := 0x2A4.
Definition NV097_SET_FOG_COLOR : Z := 0x2A8.
Definition NV097_SET_WINDOW_CLIP_TYPE : Z := 0x2B4.
Definition NV097_SET_ALPHA_TEST_ENABLE : Z := 0x300.
Definition NV097_SET_BLEND_ENABLE : Z := 0x304.
Definition NV097_SET_CULL_FACE_ENABLE : Z := 0x308.
Definition NV097_SET_DEPTH_TEST_ENABLE : Z := 0x30C.
Definition NV097_SET_DITHER_ENABLE : Z := 0x310.
Definition NV097_SET_LIGHTING_ENABLE : Z := 0x314.
Definition NV097_SET_POINT_PARAMS_ENABLE : Z := 0x318.
Definition NV097_SET_POINT_SMOOTH_ENABLE : Z := 0x31C.
Definition NV097_SET_LINE_SMOOTH_ENABLE : Z := 0x320.
Definition NV097_SET_POLY_SMOOTH_ENABLE : Z := 0x324.
Definition NV097_SET_SKIN_MODE : Z := 0x328.
Definition NV097_SET_STENCIL_TEST_ENABLE : Z := 0x32C.
Definition NV097_SET_POLY_OFFSET_POINT_ENABLE : Z := 0x330.
Definition NV097_SET_POLY_OFFSET_LINE_ENABLE : Z := 0x334.
Definition NV097_SET_POLY_OFFSET_FILL_ENABLE : Z := 0x338.
Definition NV097_SET_ALPHA_FUNC : Z := 0x33C.
Definition NV097_SET_ALPHA_REF : Z := 0x340.
Definition NV097_SET_BLEND_FUNC_SFACTOR : Z := 0x344.
Definition NV097_SET_BLEND_FUNC_DFACTOR : Z := 0x348.
Definition NV097_SET_BLEND_COLOR : Z := 0x34C.
Definition NV097_SET_BLEND_EQUATION : Z := 0x350.
Definition NV097_SET_DEPTH_FUNC : Z := 0x354.
Definition NV097_SET_COLOR_MASK : Z := 0x358.
Definition NV097_SET_DEPTH_MASK : Z := 0x35C.
Definition NV097_SET_STENCIL_MASK : Z := 0x360.
Definition NV097_SET_STENCIL_FUNC : Z := 0x364.
Definition NV097_SET_STENCIL_FUNC_REF : Z := 0x368.
Definition NV097_SET_STENCIL_FUNC_MASK : Z := 0x36C.
Definition NV097_SET_STENCIL_OP_FAIL : Z := 0x370.
Definition NV097_SET_STENCIL_OP_ZFAIL : Z := 0x374.
Definition NV097_SET_STENCIL_OP_ZPASS : Z := 0x378.
Definition NV097_SET_SHADE_MODE : Z := 0x37C.
Definition NV097_SET_PROVOKING_VERTEX : Z := 0x9FC.
Definition NV097_SET_POLYGON_OFFSET_SCALE_FACTOR : Z := 0x384.
Definition NV097_SET_POLYGON_OFFSET_BIAS : Z := 0x388.
Definition NV097_SET_FRONT_POLYGON_MODE : Z := 0x38C.
Definition NV097_SET_BACK_POLYGON_MODE : Z := 0x390.
Definition NV097_SET_CLIP_MIN : Z := 0x394.
Definition NV097_SET_CLIP_MAX : Z := 0x398.
Definition NV097_SET_CULL_FACE : Z := 0x39C.
Definition NV097_SET_FRONT_FACE : Z := 0x3A0.
Definition NV097_SET_NORMALIZATION_ENABLE : Z := 0x3A4.
Definition NV097_SET_MATERIAL_ALPHA : Z := 0x3B4.
Definition NV097_SET_SPECULAR_ENABLE : Z := 0x3B8.
Definition NV097_SET_LIGHT_ENABLE_MASK : Z := 0x3BC.
Definition NV097_SET_POINT_SIZE : Z := 0x43C.
Definition NV097_SET_TEXGEN_VIEW_MODEL : Z := 0x9CC.
Definition NV097_SET_TEXCOORD0_2S : Z := 0x1598.
Definition NV097_SET_TEXCOORD1_2S : Z := 0x15C0.
Definition NV097_SET_TEXCOORD2_2S : Z := 0x15E8.
Definition NV097_SET_TEXCOORD3_2S : Z := 0x1610.
Definition NV097_SET_FOG_COORD : Z := 0x1698.
Definition NV097_SET_WEIGHT1F : Z := 0x169C.
Definition NV097_SET_LOGIC_OP_ENABLE : Z := 0x17BC.
Definition NV097_SET_LOGIC_OP : Z := 0x17C0.
Definition NV097_CLEAR_REPORT_VALUE : Z := 0x17C8.
Definition NV097_SET_ZPASS_PIXEL_COUNT_ENABLE : Z := 0x17CC.
Definition NV097_GET_REPORT : Z := 0x17D0.
Definition NV097_ARRAY_ELEMENT32 : Z := 0x1808.
Definition NV097_INLINE_ARRAY : Z := 0x1818.
Definition NV097_SET_SEMAPHORE_OFFSET : Z := 0x1D6C.
Definition NV097_BACK_END_WRITE_SEMAPHORE_RELEASE : Z := 0x1D70.
Definition NV097_SET_ZMIN_MAX_CONTROL : Z := 0x1D78.
Definition NV097_SET_ANTI_ALIASING_CONTROL : Z := 0x1D7C.
Definition NV097_SET_ZSTENCIL_CLEAR_VALUE : Z := 0x1D8C.
Definition NV097_SET_COLOR_CLEAR_VALUE : Z := 0x1D90.
Definition NV097_CLEAR_SURFACE : Z := 0x1D94.
Definition NV097_SET_CLEAR_RECT_HORIZONTAL : Z := 0x1D98.
Definition NV097_SET_CLEAR_RECT_VERTICAL : Z := 0x1D9C.
Definition NV097_SET_SHADER_CLIP_PLANE_MODE : Z := 0x17F8.
Definition NV097_SET_COMBINER_CONTROL : Z := 0x1E60.
Definition NV097_SET_SHADOW_ZSLOPE_THRESHOLD : Z := 0x1E68.
Definition NV097_SET_SHADOW_DEPTH_FUNC : Z := 0x1E6C.
Definition NV097_SET_SHADER_STAGE_PROGRAM : Z := 0x1E70.
Definition NV097_SET_DOT_RGBMAPPING : Z := 0x1E74.
Definition NV097_SET_SHADER_OTHER_STAGE_INPUT : Z := 0x1E78.
Definition NV097_LAUNCH_TRANSFORM_PROGRAM : Z := 0x1E90.
Definition NV097_SET_TRANSFORM_EXECUTION_MODE : Z := 0x1E94.
Definition NV097_SET_TRANSFORM_PROGRAM_CXT_WRITE_EN : Z := 0x1E98.
Definition NV097_SET_TRANSFORM_PROGRAM_LOAD : Z := 0x1E9C.
Definition NV097_SET_TRANSFORM_PROGRAM_START : Z := 0x1EA0.
Definition NV097_SET_TRANSFORM_CONSTANT_LOAD : Z := 0x1EA4.
