(* ===== verification/PgraphState.v ===== *)
(** The state of the 3D engine (pgraph.h) beyond its registers, and the parts of
    the code its methods call: the renderer behind its table of operations, the
    emulator of vertex programs, the inline vertex buffers of vertex.c.

    Numbers that arrive as parameters are kept as their 32-bit patterns, floats
    included.  An array is a finite map with the bound its accesses are checked
    against; an array of vectors of four is indexed by row and column. *)

From Stdlib Require Import SpecFloat.
From S2P Require Import Prelude CFloat Nv2a PgraphRegs.

(** ** State *)

(** [VertexAttribute]. *)

Record VertexAttribute := mkAttr {
  attr_dma_select : bool;
  attr_offset : Z;
  inline_value : list Z;
  attr_format : Z;
  attr_size : Z;
  attr_count : Z;
  attr_stride : Z;
  inline_buffer : mem;
  inline_buffer_populated : bool;
}.
#[export] Instance VertexAttribute_settable : Settable VertexAttribute :=
  settable! mkAttr < attr_dma_select ; attr_offset ; inline_value ; attr_format ; attr_size ; attr_count ;
    attr_stride ; inline_buffer ; inline_buffer_populated >.

(** [Surface] and [SurfaceShape]. *)

Record Surface := mkSurface {
  draw_dirty : bool;
  buffer_dirty : bool;
  write_enabled_cache : bool;
  surface_pitch : Z;
  surface_offset : Z;
}.
#[export] Instance Surface_settable : Settable Surface :=
  settable! mkSurface < draw_dirty ; buffer_dirty ; write_enabled_cache ; surface_pitch ; surface_offset >.

Record SurfaceShape := mkShape {
  z_format : Z;
  color_format : Z;
  zeta_format : Z;
  log_width : Z;
  log_height : Z;
  clip_x : Z;
  clip_y : Z;
  clip_width : Z;
  clip_height : Z;
  anti_aliasing : Z;
}.
#[export] Instance SurfaceShape_settable : Settable SurfaceShape :=
  settable! mkShape < z_format ; color_format ; zeta_format ; log_width ; log_height ; clip_x ; clip_y ;
    clip_width ; clip_height ; anti_aliasing >.

(** [ContextSurfaces2DState], [ImageBlitState] and [BetaState]. *)

Record ContextSurfaces2D := mkSurfaces2D {
  surfaces_object : Z;
  dma_image_source : Z;
  dma_image_dest : Z;
  surfaces_format : Z;
  source_pitch : Z;
  dest_pitch : Z;
  source_offset : Z;
  dest_offset : Z;
}.
#[export] Instance ContextSurfaces2D_settable : Settable ContextSurfaces2D :=
  settable! mkSurfaces2D < surfaces_object ; dma_image_source ; dma_image_dest ; surfaces_format ; source_pitch ;
    dest_pitch ; source_offset ; dest_offset >.

Record ImageBlit := mkBlit {
  blit_object : Z;
  context_surfaces : Z;
  operation : Z;
  in_x : Z;
  in_y : Z;
  out_x : Z;
  out_y : Z;
  blit_width : Z;
  blit_height : Z;
}.
#[export] Instance ImageBlit_settable : Settable ImageBlit :=
  settable! mkBlit < blit_object ; context_surfaces ; operation ; in_x ; in_y ; out_x ; out_y ; blit_width ;
    blit_height >.

Record Beta := mkBeta {
  beta_object : Z;
  beta_factor : Z;
}.
#[export] Instance Beta_settable : Settable Beta :=
  settable! mkBeta < beta_object ; beta_factor >.

(** The lighting context: constant arrays and the properties of the lights. *)

Record Lighting := mkLighting {
  ltctxa : mem;
  ltctxa_dirty : gset Z;
  ltctxb : mem;
  ltctxb_dirty : gset Z;
  ltc1 : mem;
  ltc1_dirty : gset Z;
  material_alpha : Z;
  light_infinite_half_vector : mem;
  light_infinite_direction : mem;
  light_local_position : mem;
  light_local_attenuation : mem;
  specular_params : list Z;
  specular_power : spec_float;
  specular_params_back : list Z;
  specular_power_back : spec_float;
  point_params : list Z;
}.
#[export] Instance Lighting_settable : Settable Lighting :=
  settable! mkLighting < ltctxa ; ltctxa_dirty ; ltctxb ; ltctxb_dirty ; ltc1 ; ltc1_dirty ; material_alpha ;
    light_infinite_half_vector ; light_infinite_direction ; light_local_position ;
    light_local_attenuation ; specular_params ; specular_power ; specular_params_back ;
    specular_power_back ; point_params >.

(** What a draw collects between BEGIN and END. *)

Record Drawing := mkDrawing {
  primitive_mode : Z;
  vertex_attributes : list VertexAttribute;
  inline_array_length : Z;
  inline_array : mem;
  inline_elements_length : Z;
  inline_elements : mem;
  inline_buffer_length : Z;
  draw_arrays_length : Z;
  draw_arrays_min_start : Z;
  draw_arrays_max_count : Z;
  draw_arrays_start : mem;
  draw_arrays_count : mem;
  draw_arrays_prevent_connect : bool;
}.
#[export] Instance Drawing_settable : Settable Drawing :=
  settable! mkDrawing < primitive_mode ; vertex_attributes ; inline_array_length ; inline_array ;
    inline_elements_length ; inline_elements ; inline_buffer_length ; draw_arrays_length ;
    draw_arrays_min_start ; draw_arrays_max_count ; draw_arrays_start ; draw_arrays_count ;
    draw_arrays_prevent_connect >.

(** [PGRAPHState] without its registers and [vsh_constants], which [NV2AState]
    has; [R] is the state of the renderer. *)

Record PGRAPHState (R : Type) := mkPGRAPH {
  frame_time : Z;
  context_surfaces_2d : ContextSurfaces2D;
  image_blit : ImageBlit;
  kelvin_object : Z;
  beta : Beta;
  dma_color : Z;
  dma_zeta : Z;
  surface_color : Surface;
  surface_zeta : Surface;
  surface_type : Z;
  surface_shape : SurfaceShape;
  dma_a : Z;
  dma_b : Z;
  texture_dirty : gset Z;
  texture_matrix_enable : gmap Z bool;
  dma_state_object : Z;
  dma_notifies : Z;
  dma_semaphore : Z;
  dma_report : Z;
  zpass_pixel_count_enable : bool;
  dma_vertex_a : Z;
  dma_vertex_b : Z;
  enable_vertex_program_write : bool;
  vertex_state_shader_v0 : list Z;
  program_data : mem;
  program_data_dirty : bool;
  vsh_constants_dirty : gset Z;
  lighting : Lighting;
  compressed_attrs : Z;
  uniform_attrs : Z;
  swizzle_attrs : Z;
  surface_scale_factor : Z;
  drawing : Drawing;
  renderer_state : R;
}.
Arguments mkPGRAPH {R}.
Arguments frame_time {R} _.
Arguments context_surfaces_2d {R} _.
Arguments image_blit {R} _.
Arguments kelvin_object {R} _.
Arguments beta {R} _.
Arguments dma_color {R} _.
Arguments dma_zeta {R} _.
Arguments surface_color {R} _.
Arguments surface_zeta {R} _.
Arguments surface_type {R} _.
Arguments surface_shape {R} _.
Arguments dma_a {R} _.
Arguments dma_b {R} _.
Arguments texture_dirty {R} _.
Arguments texture_matrix_enable {R} _.
Arguments dma_state_object {R} _.
Arguments dma_notifies {R} _.
Arguments dma_semaphore {R} _.
Arguments dma_report {R} _.
Arguments zpass_pixel_count_enable {R} _.
Arguments dma_vertex_a {R} _.
Arguments dma_vertex_b {R} _.
Arguments enable_vertex_program_write {R} _.
Arguments vertex_state_shader_v0 {R} _.
Arguments program_data {R} _.
Arguments program_data_dirty {R} _.
Arguments vsh_constants_dirty {R} _.
Arguments lighting {R} _.
Arguments compressed_attrs {R} _.
Arguments uniform_attrs {R} _.
Arguments swizzle_attrs {R} _.
Arguments surface_scale_factor {R} _.
Arguments drawing {R} _.
Arguments renderer_state {R} _.
#[export] Instance PGRAPHState_settable R : Settable (PGRAPHState R) :=
  settable! (@mkPGRAPH R) < frame_time ; context_surfaces_2d ; image_blit ; kelvin_object ; beta ; dma_color ;
    dma_zeta ; surface_color ; surface_zeta ; surface_type ; surface_shape ; dma_a ; dma_b ;
    texture_dirty ; texture_matrix_enable ; dma_state_object ; dma_notifies ; dma_semaphore ;
    dma_report ; zpass_pixel_count_enable ; dma_vertex_a ; dma_vertex_b ;
    enable_vertex_program_write ; vertex_state_shader_v0 ; program_data ; program_data_dirty ;
    vsh_constants_dirty ; lighting ; compressed_attrs ; uniform_attrs ; swizzle_attrs ;
    surface_scale_factor ; drawing ; renderer_state >.

(** ** Renderers and vertex programs *)

(** The operations of a renderer's table the methods use. *)
Inductive render_op :=
  | SurfaceUpdate (upload color_write zeta_write : bool)
  | FlipStall
  | DrawBegin
  | DrawEnd
  | FlushDraw
  | ClearSurface (parameter : Z)
  | ClearReportValue
  | GetReport (parameter : Z)
  | BlitImage
  | ProcessPendingReports.

Class Renderer (R V : Type) :=
  render : render_op -> NV2AState (PGRAPHState R) V -> result (NV2AState (PGRAPHState R) V).

(** The vertex program emulator (nv2a_vsh_emulator): a program, the value of
    [v0] and the constants give the new constants and the rows written, or the
    program does not parse. *)
Class VshEmulator := nv2a_vsh_execute : list Z -> list Z -> mem -> option (mem * gset Z).

(** ** Arrays *)

(** Element [row][col] of an array of [rows] vectors of [w]. *)
Definition put (rows w row col v : Z) (m : mem) : result mem :=
  if (0 <=? row) && (row <? rows) && (0 <=? col) && (col <? w) then Ok (wr (w * row + col) v m)
  else Fault OutOfBounds.

(** Flag [i] of [n], set. *)
Definition mark (n i : Z) (s : gset Z) : result (gset Z) :=
  if (0 <=? i) && (i <? n) then Ok ({[ i ]} ∪ s) else Fault OutOfBounds.

Section Pgraph.
Context {R V : Type}.
Implicit Types d : NV2AState (PGRAPHState R) V.

Definition upd (h : PGRAPHState R -> PGRAPHState R) d : NV2AState (PGRAPHState R) V :=
  d <| pgraph_rest ::= h |>.
Definition upd_drawing (h : Drawing -> Drawing) d : NV2AState (PGRAPHState R) V :=
  upd (fun g => g <| drawing ::= h |>) d.
Definition upd_lighting (h : Lighting -> Lighting) d : NV2AState (PGRAPHState R) V :=
  upd (fun g => g <| lighting ::= h |>) d.

(** [PG_SET_MASK] of a register that is computed. *)
Definition pg_set_mask d (reg mask value : Z) : result (NV2AState (PGRAPHState R) V) :=
  rv ← pgraph_reg_r d reg; pgraph_reg_w d reg (SET_MASK rv mask value).

(** ** Vertex attributes (vertex.c) *)

Definition drawing_of d : Drawing := drawing (pgraph_rest d).
Definition attributes d : list VertexAttribute := vertex_attributes (drawing_of d).

Definition set_attribute (i : Z) (a : VertexAttribute) d : NV2AState (PGRAPHState R) V :=
  upd_drawing (fun w => w <| vertex_attributes ::= <[ Z.to_nat i := a ]> |>) d.

(** The copy of a value into vertex [i] of an inline buffer, which has
    [NV2A_MAX_BATCH_LENGTH] of them. *)
Definition put_vertex (i : Z) (value : list Z) (buf : mem) : result mem :=
  if (0 <=? i) && (i <? NV2A_MAX_BATCH_LENGTH) then Ok (store_bytes buf (4 * i) value)
  else Fault OutOfBounds.

Definition pgraph_allocate_inline_buffer_vertices d (attr : Z) : result (NV2AState (PGRAPHState R) V) :=
  attribute ← fetch (attributes d) attr;
  let length := inline_buffer_length (drawing_of d) in
  if inline_buffer_populated attribute || (length =? 0) then Ok d
  else
    buf ← for_loop (Z.to_nat length) 0
            (fun i buf => put_vertex i (inline_value attribute) buf) (inline_buffer attribute);
    Ok (set_attribute attr (attribute <| inline_buffer_populated := true |>
                                      <| inline_buffer := buf |>) d).

(** One attribute of a finished vertex. *)
Definition finish_attribute (length : Z) (attribute : VertexAttribute) : result VertexAttribute :=
  if inline_buffer_populated attribute then
    buf ← put_vertex length (inline_value attribute) (inline_buffer attribute);
    Ok (attribute <| inline_buffer := buf |>)
  else Ok attribute.

Fixpoint finish_attributes (length : Z) (l : list VertexAttribute) : result (list VertexAttribute) :=
  match l with
  | [] => Ok []
  | a :: l => a ← finish_attribute length a; l ← finish_attributes length l; Ok (a :: l)
  end.

Definition pgraph_finish_inline_buffer_vertex d : result (NV2AState (PGRAPHState R) V) :=
  let length := inline_buffer_length (drawing_of d) in
  _ ← check (length <? NV2A_MAX_BATCH_LENGTH) "pg->inline_buffer_length < NV2A_MAX_BATCH_LENGTH";
  l ← finish_attributes length (attributes d);
  Ok (upd_drawing (fun w => w <| vertex_attributes := l |> <| inline_buffer_length := length + 1 |>) d).

Definition pgraph_reset_draw_arrays d : NV2AState (PGRAPHState R) V :=
  upd_drawing (fun w => w <| draw_arrays_length := 0 |>
                          <| draw_arrays_min_start := u32 (-1) |>
                          <| draw_arrays_max_count := 0 |>
                          <| draw_arrays_prevent_connect := false |>) d.

Definition pgraph_reset_inline_buffers d : NV2AState (PGRAPHState R) V :=
  pgraph_reset_draw_arrays
    (upd_drawing (fun w => w <| inline_elements_length := 0 |>
                             <| inline_array_length := 0 |>
                             <| inline_buffer_length := 0 |>) d).

End Pgraph.
