(* ===== verification/PgraphMethods.v ===== *)
(** The methods of the 3D class (pgraph.c, methods.h.inc): one handler per
    method or range of methods, in tables that follow the order of the source.

    A row of a table gives the addresses of methods.h.inc, the way pgraph.c
    defines the handler ([DEF_METHOD], [DEF_METHOD_INC], [DEF_METHOD_NON_INC])
    and its body.  Handlers that only store the parameter in a register or in a
    field of one are written in their row. *)

From Stdlib Require Import SpecFloat.
From S2P Require Import Prelude CFloat Nv2a PgraphRegs PgraphState.

(** How a handler takes the words of a command: one at a time, a run of
    increasing methods up to [end_addr], or all words of one method. *)
Inductive dispatch := One | Increasing (end_addr : Z) | Same.

Section Methods.
Context {R V : Type} {renderer : Renderer R V} {vsh : VshEmulator}.

Abbreviation nv2a := (NV2AState (PGRAPHState R) V).
Implicit Types d : nv2a.

(** [handler d subchannel method parameter]. *)
Definition handler : Type := nv2a -> Z -> Z -> Z -> result nv2a.

Record Method := mkMethod { m_addrs : list Z; m_dispatch : dispatch; m_handler : handler }.

Definition addresses (base count stride : Z) : list Z :=
  map (fun i => base + stride * Z.of_nat i) (seq 0 (Z.to_nat count)).

(** [DEF_METHOD], [DEF_METHOD_RANGE], [DEF_METHOD_CASE_4] and
    [DEF_METHOD_CASE_4_OFFSET] of methods.h.inc. *)
Definition DEF_METHOD (name : Z) (h : handler) : Method := mkMethod [name] One h.
Definition DEF_METHOD_NON_INC (name : Z) (h : handler) : Method := mkMethod [name] Same h.
Definition DEF_METHOD_RANGE (name range : Z) (h : handler) : Method :=
  mkMethod (addresses name range 4) (Increasing (name + 4 * range)) h.
Definition DEF_METHOD_CASE_4_OFFSET (name offset stride : Z) (h : handler) : Method :=
  mkMethod (addresses (name + offset) 4 stride) One h.
Definition DEF_METHOD_CASE_4 (name stride : Z) (h : handler) : Method :=
  DEF_METHOD_CASE_4_OFFSET name 0 stride h.

(** Bodies that store the parameter: [PG_SET_MASK(reg, mask, parameter)],
    [pgraph_reg_w(pg, reg, parameter)], the same with a register per slot, and
    an assignment to the state. *)
Definition store_field (reg mask : Z) : handler :=
  fun d _ _ parameter => pg_set_mask d reg mask parameter.
Definition store_reg (reg : Z) : handler :=
  fun d _ _ parameter => pgraph_reg_w d reg parameter.
Definition store_reg_slot (base stride reg : Z) : handler :=
  fun d _ method parameter =>
    let slot := (method - base) / stride in pgraph_reg_w d (reg + slot * 4) parameter.
Definition assign (h : Z -> PGRAPHState R -> PGRAPHState R) : handler :=
  fun d _ _ parameter => Ok (upd (h parameter) d).

(** The case of a [switch] whose cases choose a value. *)
Definition select (cases : list (Z * Z)) (x : Z) : option Z :=
  snd <$> List.find (fun c => fst c =? x) cases.

(** [d->pgraph.renderer->ops.surface_update(d, false, true, true)]. *)
Definition surface_update d : result nv2a := render (SurfaceUpdate false true true) d.

(** ** Flips and objects *)

Definition no_operation : handler := fun d subchannel method parameter =>
  if parameter =? 0 then Ok d
  else
    let channel_id := PG_GET_MASK d NV_PGRAPH_CTX_USER NV_PGRAPH_CTX_USER_CHID in
    _ ← check (negb (has (pending (pgraph_irq d)) NV_PGRAPH_INTR_ERROR))
          "!(pg->pending_interrupts & NV_PGRAPH_INTR_ERROR)";
    d ← pg_set_mask d NV_PGRAPH_TRAPPED_ADDR NV_PGRAPH_TRAPPED_ADDR_CHID channel_id;
    d ← pg_set_mask d NV_PGRAPH_TRAPPED_ADDR NV_PGRAPH_TRAPPED_ADDR_SUBCH subchannel;
    d ← pg_set_mask d NV_PGRAPH_TRAPPED_ADDR NV_PGRAPH_TRAPPED_ADDR_MTHD method;
    d ← pgraph_reg_w d NV_PGRAPH_TRAPPED_DATA_LOW parameter;
    d ← pgraph_reg_w d NV_PGRAPH_NSOURCE NV_PGRAPH_NSOURCE_NOTIFICATION;
    Ok (nv2a_update_irq
          (d <| pgraph_irq ::= fun i => i <| pending ::= fun p => Z.lor p NV_PGRAPH_INTR_ERROR |> |>
             <| waiting_for_nop := true |>)).

Definition flip_increment_write : handler := fun d _ _ _ =>
  let modulo := PG_GET_MASK d NV_PGRAPH_SURFACE NV_PGRAPH_SURFACE_MODULO_3D in
  if modulo =? 0 then Fault DivByZero
  else
    d ← pg_set_mask d NV_PGRAPH_SURFACE NV_PGRAPH_SURFACE_WRITE_3D
          ((PG_GET_MASK d NV_PGRAPH_SURFACE NV_PGRAPH_SURFACE_WRITE_3D + 1) mod modulo);
    Ok (upd (fun g => g <| frame_time ::= fun t => s32 (t + 1) |>) d).

Definition flip_stall : handler := fun d _ _ _ =>
  d ← surface_update d;
  d ← render FlipStall d;
  Ok (d <| waiting_for_flip := true |>).

Definition set_context_dma_color : handler := fun d _ _ parameter =>
  d ← surface_update d;
  Ok (upd (fun g => g <| dma_color := parameter |>
                      <| surface_color ::= fun s => s <| buffer_dirty := true |> |>) d).

Definition set_context_dma_zeta : handler := fun d _ _ parameter =>
  Ok (upd (fun g => g <| dma_zeta := parameter |>
                      <| surface_zeta ::= fun s => s <| buffer_dirty := true |> |>) d).

Definition set_context_dma_report : handler := fun d _ _ parameter =>
  d ← render ProcessPendingReports d;
  Ok (upd (fun g => g <| dma_report := parameter |>) d).

Definition object_methods : list Method := [
  DEF_METHOD NV097_SET_OBJECT (assign (fun p g => g <| kelvin_object := p |>));
  DEF_METHOD NV097_NO_OPERATION no_operation;
  DEF_METHOD NV097_WAIT_FOR_IDLE (fun d _ _ _ => surface_update d);
  DEF_METHOD NV097_SET_FLIP_READ (store_field NV_PGRAPH_SURFACE NV_PGRAPH_SURFACE_READ_3D);
  DEF_METHOD NV097_SET_FLIP_WRITE (store_field NV_PGRAPH_SURFACE NV_PGRAPH_SURFACE_WRITE_3D);
  DEF_METHOD NV097_SET_FLIP_MODULO (store_field NV_PGRAPH_SURFACE NV_PGRAPH_SURFACE_MODULO_3D);
  DEF_METHOD NV097_FLIP_INCREMENT_WRITE flip_increment_write;
  DEF_METHOD NV097_FLIP_STALL flip_stall;
  DEF_METHOD NV097_SET_CONTEXT_DMA_NOTIFIES (assign (fun p g => g <| dma_notifies := p |>));
  DEF_METHOD NV097_SET_CONTEXT_DMA_A (assign (fun p g => g <| dma_a := p |>));
  DEF_METHOD NV097_SET_CONTEXT_DMA_B (assign (fun p g => g <| dma_b := p |>));
  DEF_METHOD NV097_SET_CONTEXT_DMA_STATE (assign (fun p g => g <| dma_state_object := p |>));
  DEF_METHOD NV097_SET_CONTEXT_DMA_COLOR set_context_dma_color;
  DEF_METHOD NV097_SET_CONTEXT_DMA_ZETA set_context_dma_zeta;
  DEF_METHOD NV097_SET_CONTEXT_DMA_VERTEX_A (assign (fun p g => g <| dma_vertex_a := p |>));
  DEF_METHOD NV097_SET_CONTEXT_DMA_VERTEX_B (assign (fun p g => g <| dma_vertex_b := p |>));
  DEF_METHOD NV097_SET_CONTEXT_DMA_SEMAPHORE (assign (fun p g => g <| dma_semaphore := p |>));
  DEF_METHOD NV097_SET_CONTEXT_DMA_REPORT set_context_dma_report ].

(** ** Surfaces *)

Definition set_surface_clip_horizontal : handler := fun d _ _ parameter =>
  d ← surface_update d;
  Ok (upd (fun g => g <| surface_shape ::= fun s =>
        s <| clip_x := GET_MASK parameter NV097_SET_SURFACE_CLIP_HORIZONTAL_X |>
          <| clip_width := GET_MASK parameter NV097_SET_SURFACE_CLIP_HORIZONTAL_WIDTH |> |>) d).

Definition set_surface_clip_vertical : handler := fun d _ _ parameter =>
  d ← surface_update d;
  Ok (upd (fun g => g <| surface_shape ::= fun s =>
        s <| clip_y := GET_MASK parameter NV097_SET_SURFACE_CLIP_VERTICAL_Y |>
          <| clip_height := GET_MASK parameter NV097_SET_SURFACE_CLIP_VERTICAL_HEIGHT |> |>) d).

Definition set_surface_format : handler := fun d _ _ parameter =>
  d ← surface_update d;
  let d := upd (fun g => g <| surface_shape ::= fun s =>
    s <| color_format := GET_MASK parameter NV097_SET_SURFACE_FORMAT_COLOR |>
      <| zeta_format := GET_MASK parameter NV097_SET_SURFACE_FORMAT_ZETA |>
      <| anti_aliasing := GET_MASK parameter NV097_SET_SURFACE_FORMAT_ANTI_ALIASING |>
      <| log_width := GET_MASK parameter NV097_SET_SURFACE_FORMAT_WIDTH |>
      <| log_height := GET_MASK parameter NV097_SET_SURFACE_FORMAT_HEIGHT |> |>) d in
  let type := GET_MASK parameter NV097_SET_SURFACE_FORMAT_TYPE in
  Ok (if type =? surface_type (pgraph_rest d) then d
      else upd (fun g => g <| surface_type := type |>
                           <| surface_color ::= fun s => s <| buffer_dirty := true |> |>
                           <| surface_zeta ::= fun s => s <| buffer_dirty := true |> |>) d).

(** [s.buffer_dirty |= (s.pitch != pitch); s.pitch = pitch], and the same of
    the offset. *)
Definition set_pitch (pitch : Z) (s : Surface) : Surface :=
  s <| buffer_dirty ::= fun b => b || negb (surface_pitch s =? pitch) |> <| surface_pitch := pitch |>.
Definition set_offset (offset : Z) (s : Surface) : Surface :=
  s <| buffer_dirty ::= fun b => b || negb (surface_offset s =? offset) |> <| surface_offset := offset |>.

Definition set_surface_pitch : handler := fun d _ _ parameter =>
  d ← surface_update d;
  Ok (upd (fun g =>
    g <| surface_color ::= set_pitch (GET_MASK parameter NV097_SET_SURFACE_PITCH_COLOR) |>
      <| surface_zeta ::= set_pitch (GET_MASK parameter NV097_SET_SURFACE_PITCH_ZETA) |>) d).

Definition set_surface_color_offset : handler := fun d _ _ parameter =>
  d ← surface_update d; Ok (upd (fun g => g <| surface_color ::= set_offset parameter |>) d).

Definition set_surface_zeta_offset : handler := fun d _ _ parameter =>
  d ← surface_update d; Ok (upd (fun g => g <| surface_zeta ::= set_offset parameter |>) d).

Definition set_control0 : handler := fun d _ _ parameter =>
  d ← surface_update d;
  d ← pg_set_mask d NV_PGRAPH_CONTROL_0 NV_PGRAPH_CONTROL_0_STENCIL_WRITE_ENABLE
        (Z.b2z (has parameter NV097_SET_CONTROL0_STENCIL_WRITE_ENABLE));
  d ← pg_set_mask d NV_PGRAPH_SETUPRASTER NV_PGRAPH_SETUPRASTER_Z_FORMAT
        (GET_MASK parameter NV097_SET_CONTROL0_Z_FORMAT);
  pg_set_mask d NV_PGRAPH_CONTROL_0 NV_PGRAPH_CONTROL_0_Z_PERSPECTIVE_ENABLE
    (Z.b2z (has parameter NV097_SET_CONTROL0_Z_PERSPECTIVE_ENABLE)).

Definition surface_methods : list Method := [
  DEF_METHOD NV097_SET_SURFACE_CLIP_HORIZONTAL set_surface_clip_horizontal;
  DEF_METHOD NV097_SET_SURFACE_CLIP_VERTICAL set_surface_clip_vertical;
  DEF_METHOD NV097_SET_SURFACE_FORMAT set_surface_format;
  DEF_METHOD NV097_SET_SURFACE_PITCH set_surface_pitch;
  DEF_METHOD NV097_SET_SURFACE_COLOR_OFFSET set_surface_color_offset;
  DEF_METHOD NV097_SET_SURFACE_ZETA_OFFSET set_surface_zeta_offset;
  DEF_METHOD_RANGE NV097_SET_COMBINER_ALPHA_ICW 8
    (store_reg_slot NV097_SET_COMBINER_ALPHA_ICW 4 NV_PGRAPH_COMBINEALPHAI0);
  DEF_METHOD NV097_SET_COMBINER_SPECULAR_FOG_CW0 (store_reg NV_PGRAPH_COMBINESPECFOG0);
  DEF_METHOD NV097_SET_COMBINER_SPECULAR_FOG_CW1 (store_reg NV_PGRAPH_COMBINESPECFOG1);
  DEF_METHOD_CASE_4 NV097_SET_TEXTURE_ADDRESS 64
    (store_reg_slot NV097_SET_TEXTURE_ADDRESS 64 NV_PGRAPH_TEXADDRESS0);
  DEF_METHOD NV097_SET_CONTROL0 set_control0 ].

(** ** Fixed-function state *)

Definition set_light_control : handler := fun d _ _ parameter =>
  d ← pg_set_mask d NV_PGRAPH_CSV0_C NV_PGRAPH_CSV0_C_SEPARATE_SPECULAR
        (Z.b2z (has parameter NV097_SET_LIGHT_CONTROL_SEPARATE_SPECULAR));
  d ← pg_set_mask d NV_PGRAPH_CSV0_C NV_PGRAPH_CSV0_C_LOCALEYE
        (Z.b2z (has parameter NV097_SET_LIGHT_CONTROL_LOCALEYE));
  pg_set_mask d NV_PGRAPH_CSV0_C NV_PGRAPH_CSV0_C_ALPHA_FROM_MATERIAL_SPECULAR
    (Z.b2z (has parameter NV097_SET_LIGHT_CONTROL_ALPHA_FROM_MATERIAL_SPECULAR)).

Definition set_color_material : handler := fun d _ _ parameter =>
  d ← pg_set_mask d NV_PGRAPH_CSV0_C NV_PGRAPH_CSV0_C_EMISSION (Z.land (Z.shiftr parameter 0) 3);
  d ← pg_set_mask d NV_PGRAPH_CSV0_C NV_PGRAPH_CSV0_C_AMBIENT (Z.land (Z.shiftr parameter 2) 3);
  d ← pg_set_mask d NV_PGRAPH_CSV0_C NV_PGRAPH_CSV0_C_DIFFUSE (Z.land (Z.shiftr parameter 4) 3);
  pg_set_mask d NV_PGRAPH_CSV0_C NV_PGRAPH_CSV0_C_SPECULAR (Z.land (Z.shiftr parameter 6) 3).

(** The [switch] statements that stop on an unknown value. *)
Definition select_or_stop (cases : list (Z * Z)) (x : Z) (what : string) : result Z :=
  match select cases x with Some v => Ok v | None => Fault (AssertFail what) end.

Definition set_fog_mode : handler := fun d _ _ parameter =>
  mode ← select_or_stop
    [ (NV097_SET_FOG_MODE_V_LINEAR, NV_PGRAPH_CONTROL_3_FOG_MODE_LINEAR);
      (NV097_SET_FOG_MODE_V_EXP, NV_PGRAPH_CONTROL_3_FOG_MODE_EXP);
      (NV097_SET_FOG_MODE_V_EXP2, NV_PGRAPH_CONTROL_3_FOG_MODE_EXP2);
      (NV097_SET_FOG_MODE_V_EXP_ABS, NV_PGRAPH_CONTROL_3_FOG_MODE_EXP_ABS);
      (NV097_SET_FOG_MODE_V_EXP2_ABS, NV_PGRAPH_CONTROL_3_FOG_MODE_EXP2_ABS);
      (NV097_SET_FOG_MODE_V_LINEAR_ABS, NV_PGRAPH_CONTROL_3_FOG_MODE_LINEAR_ABS) ]
    parameter "Invalid or unimplemented fog mode";
  pg_set_mask d NV_PGRAPH_CONTROL_3 NV_PGRAPH_CONTROL_3_FOG_MODE mode.

Definition set_fog_gen_mode : handler := fun d _ _ parameter =>
  mode ← select_or_stop
    [ (NV097_SET_FOG_GEN_MODE_V_SPEC_ALPHA, NV_PGRAPH_CSV0_D_FOGGENMODE_SPEC_ALPHA);
      (NV097_SET_FOG_GEN_MODE_V_RADIAL, NV_PGRAPH_CSV0_D_FOGGENMODE_RADIAL);
      (NV097_SET_FOG_GEN_MODE_V_PLANAR, NV_PGRAPH_CSV0_D_FOGGENMODE_PLANAR);
      (NV097_SET_FOG_GEN_MODE_V_ABS_PLANAR, NV_PGRAPH_CSV0_D_FOGGENMODE_ABS_PLANAR);
      (NV097_SET_FOG_GEN_MODE_V_FOG_X, NV_PGRAPH_CSV0_D_FOGGENMODE_FOG_X) ]
    parameter "Invalid fog gen mode";
  pg_set_mask d NV_PGRAPH_CSV0_D NV_PGRAPH_CSV0_D_FOGGENMODE mode.

(** The register has its channels in another order than the parameter. *)
Definition set_fog_color : handler := fun d _ _ parameter =>
  let red := GET_MASK parameter NV097_SET_FOG_COLOR_RED in
  let green := GET_MASK parameter NV097_SET_FOG_COLOR_GREEN in
  let blue := GET_MASK parameter NV097_SET_FOG_COLOR_BLUE in
  let alpha := GET_MASK parameter NV097_SET_FOG_COLOR_ALPHA in
  d ← pg_set_mask d NV_PGRAPH_FOGCOLOR NV_PGRAPH_FOGCOLOR_RED red;
  d ← pg_set_mask d NV_PGRAPH_FOGCOLOR NV_PGRAPH_FOGCOLOR_GREEN green;
  d ← pg_set_mask d NV_PGRAPH_FOGCOLOR NV_PGRAPH_FOGCOLOR_BLUE blue;
  pg_set_mask d NV_PGRAPH_FOGCOLOR NV_PGRAPH_FOGCOLOR_ALPHA alpha.

(** [for (; slot < 8; ++slot)]: a clip rectangle and all those after it. *)
Definition set_window_clip (base reg : Z) : handler := fun d _ method parameter =>
  let slot := (method - base) / 4 in
  for_loop (Z.to_nat (8 - slot)) slot (fun slot d => pgraph_reg_w d (reg + slot * 4) parameter) d.

Definition fixed_methods : list Method := [
  DEF_METHOD NV097_SET_LIGHT_CONTROL set_light_control;
  DEF_METHOD NV097_SET_COLOR_MATERIAL set_color_material;
  DEF_METHOD NV097_SET_FOG_MODE set_fog_mode;
  DEF_METHOD NV097_SET_FOG_GEN_MODE set_fog_gen_mode;
  DEF_METHOD NV097_SET_FOG_ENABLE (store_field NV_PGRAPH_CONTROL_3 NV_PGRAPH_CONTROL_3_FOGENABLE);
  DEF_METHOD NV097_SET_FOG_COLOR set_fog_color;
  DEF_METHOD NV097_SET_WINDOW_CLIP_TYPE
    (store_field NV_PGRAPH_SETUPRASTER NV_PGRAPH_SETUPRASTER_WINDOWCLIPTYPE);
  DEF_METHOD_RANGE NV097_SET_WINDOW_CLIP_HORIZONTAL 8
    (set_window_clip NV097_SET_WINDOW_CLIP_HORIZONTAL NV_PGRAPH_WINDOWCLIPX0);
  DEF_METHOD_RANGE NV097_SET_WINDOW_CLIP_VERTICAL 8
    (set_window_clip NV097_SET_WINDOW_CLIP_VERTICAL NV_PGRAPH_WINDOWCLIPY0) ].

Definition set_point_params_enable : handler := fun d _ _ parameter =>
  d ← pg_set_mask d NV_PGRAPH_CSV0_D NV_PGRAPH_CSV0_D_POINTPARAMSENABLE parameter;
  pg_set_mask d NV_PGRAPH_CONTROL_3 NV_PGRAPH_CONTROL_3_POINTPARAMSENABLE parameter.

Definition enable_methods : list Method := [
  DEF_METHOD NV097_SET_ALPHA_TEST_ENABLE (store_field NV_PGRAPH_CONTROL_0 NV_PGRAPH_CONTROL_0_ALPHATESTENABLE);
  DEF_METHOD NV097_SET_BLEND_ENABLE (store_field NV_PGRAPH_BLEND NV_PGRAPH_BLEND_EN);
  DEF_METHOD NV097_SET_CULL_FACE_ENABLE (store_field NV_PGRAPH_SETUPRASTER NV_PGRAPH_SETUPRASTER_CULLENABLE);
  DEF_METHOD NV097_SET_DEPTH_TEST_ENABLE (store_field NV_PGRAPH_CONTROL_0 NV_PGRAPH_CONTROL_0_ZENABLE);
  DEF_METHOD NV097_SET_DITHER_ENABLE (store_field NV_PGRAPH_CONTROL_0 NV_PGRAPH_CONTROL_0_DITHERENABLE);
  DEF_METHOD NV097_SET_LIGHTING_ENABLE (store_field NV_PGRAPH_CSV0_C NV_PGRAPH_CSV0_C_LIGHTING);
  DEF_METHOD NV097_SET_POINT_PARAMS_ENABLE set_point_params_enable;
  DEF_METHOD NV097_SET_POINT_SMOOTH_ENABLE
    (store_field NV_PGRAPH_SETUPRASTER NV_PGRAPH_SETUPRASTER_POINTSMOOTHENABLE);
  DEF_METHOD NV097_SET_LINE_SMOOTH_ENABLE
    (store_field NV_PGRAPH_SETUPRASTER NV_PGRAPH_SETUPRASTER_LINESMOOTHENABLE);
  DEF_METHOD NV097_SET_POLY_SMOOTH_ENABLE
    (store_field NV_PGRAPH_SETUPRASTER NV_PGRAPH_SETUPRASTER_POLYSMOOTHENABLE);
  DEF_METHOD NV097_SET_SKIN_MODE (store_field NV_PGRAPH_CSV0_D NV_PGRAPH_CSV0_D_SKIN);
  DEF_METHOD NV097_SET_STENCIL_TEST_ENABLE
    (store_field NV_PGRAPH_CONTROL_1 NV_PGRAPH_CONTROL_1_STENCIL_TEST_ENABLE);
  DEF_METHOD NV097_SET_POLY_OFFSET_POINT_ENABLE
    (store_field NV_PGRAPH_SETUPRASTER NV_PGRAPH_SETUPRASTER_POFFSETPOINTENABLE);
  DEF_METHOD NV097_SET_POLY_OFFSET_LINE_ENABLE
    (store_field NV_PGRAPH_SETUPRASTER NV_PGRAPH_SETUPRASTER_POFFSETLINEENABLE);
  DEF_METHOD NV097_SET_POLY_OFFSET_FILL_ENABLE
    (store_field NV_PGRAPH_SETUPRASTER NV_PGRAPH_SETUPRASTER_POFFSETFILLENABLE);
  DEF_METHOD NV097_SET_ALPHA_FUNC (fun d _ _ parameter =>
    pg_set_mask d NV_PGRAPH_CONTROL_0 NV_PGRAPH_CONTROL_0_ALPHAFUNC (Z.land parameter 0xF));
  DEF_METHOD NV097_SET_ALPHA_REF (store_field NV_PGRAPH_CONTROL_0 NV_PGRAPH_CONTROL_0_ALPHAREF) ].

(** ** Blending, depth and stencil *)

(** The switches that discard an unknown value. *)
Definition select_or_discard (cases : list (Z * Z)) (reg mask : Z) : handler := fun d _ _ parameter =>
  match select cases parameter with Some v => pg_set_mask d reg mask v | None => Ok d end.

Definition set_blend_func_sfactor : handler := select_or_discard
  [ (NV097_SET_BLEND_FUNC_SFACTOR_V_ZERO, NV_PGRAPH_BLEND_SFACTOR_ZERO);
    (NV097_SET_BLEND_FUNC_SFACTOR_V_ONE, NV_PGRAPH_BLEND_SFACTOR_ONE);
    (NV097_SET_BLEND_FUNC_SFACTOR_V_SRC_COLOR, NV_PGRAPH_BLEND_SFACTOR_SRC_COLOR);
    (NV097_SET_BLEND_FUNC_SFACTOR_V_ONE_MINUS_SRC_COLOR, NV_PGRAPH_BLEND_SFACTOR_ONE_MINUS_SRC_COLOR);
    (NV097_SET_BLEND_FUNC_SFACTOR_V_SRC_ALPHA, NV_PGRAPH_BLEND_SFACTOR_SRC_ALPHA);
    (NV097_SET_BLEND_FUNC_SFACTOR_V_ONE_MINUS_SRC_ALPHA, NV_PGRAPH_BLEND_SFACTOR_ONE_MINUS_SRC_ALPHA);
    (NV097_SET_BLEND_FUNC_SFACTOR_V_DST_ALPHA, NV_PGRAPH_BLEND_SFACTOR_DST_ALPHA);
    (NV097_SET_BLEND_FUNC_SFACTOR_V_ONE_MINUS_DST_ALPHA, NV_PGRAPH_BLEND_SFACTOR_ONE_MINUS_DST_ALPHA);
    (NV097_SET_BLEND_FUNC_SFACTOR_V_DST_COLOR, NV_PGRAPH_BLEND_SFACTOR_DST_COLOR);
    (NV097_SET_BLEND_FUNC_SFACTOR_V_ONE_MINUS_DST_COLOR, NV_PGRAPH_BLEND_SFACTOR_ONE_MINUS_DST_COLOR);
    (NV097_SET_BLEND_FUNC_SFACTOR_V_SRC_ALPHA_SATURATE, NV_PGRAPH_BLEND_SFACTOR_SRC_ALPHA_SATURATE);
    (NV097_SET_BLEND_FUNC_SFACTOR_V_CONSTANT_COLOR, NV_PGRAPH_BLEND_SFACTOR_CONSTANT_COLOR);
    (NV097_SET_BLEND_FUNC_SFACTOR_V_ONE_MINUS_CONSTANT_COLOR,
       NV_PGRAPH_BLEND_SFACTOR_ONE_MINUS_CONSTANT_COLOR);
    (NV097_SET_BLEND_FUNC_SFACTOR_V_CONSTANT_ALPHA, NV_PGRAPH_BLEND_SFACTOR_CONSTANT_ALPHA);
    (NV097_SET_BLEND_FUNC_SFACTOR_V_ONE_MINUS_CONSTANT_ALPHA,
       NV_PGRAPH_BLEND_SFACTOR_ONE_MINUS_CONSTANT_ALPHA) ]
  NV_PGRAPH_BLEND NV_PGRAPH_BLEND_SFACTOR.

Definition set_blend_func_dfactor : handler := select_or_discard
  [ (NV097_SET_BLEND_FUNC_DFACTOR_V_ZERO, NV_PGRAPH_BLEND_DFACTOR_ZERO);
    (NV097_SET_BLEND_FUNC_DFACTOR_V_ONE, NV_PGRAPH_BLEND_DFACTOR_ONE);
    (NV097_SET_BLEND_FUNC_DFACTOR_V_SRC_COLOR, NV_PGRAPH_BLEND_DFACTOR_SRC_COLOR);
    (NV097_SET_BLEND_FUNC_DFACTOR_V_ONE_MINUS_SRC_COLOR, NV_PGRAPH_BLEND_DFACTOR_ONE_MINUS_SRC_COLOR);
    (NV097_SET_BLEND_FUNC_DFACTOR_V_SRC_ALPHA, NV_PGRAPH_BLEND_DFACTOR_SRC_ALPHA);
    (NV097_SET_BLEND_FUNC_DFACTOR_V_ONE_MINUS_SRC_ALPHA, NV_PGRAPH_BLEND_DFACTOR_ONE_MINUS_SRC_ALPHA);
    (NV097_SET_BLEND_FUNC_DFACTOR_V_DST_ALPHA, NV_PGRAPH_BLEND_DFACTOR_DST_ALPHA);
    (NV097_SET_BLEND_FUNC_DFACTOR_V_ONE_MINUS_DST_ALPHA, NV_PGRAPH_BLEND_DFACTOR_ONE_MINUS_DST_ALPHA);
    (NV097_SET_BLEND_FUNC_DFACTOR_V_DST_COLOR, NV_PGRAPH_BLEND_DFACTOR_DST_COLOR);
    (NV097_SET_BLEND_FUNC_DFACTOR_V_ONE_MINUS_DST_COLOR, NV_PGRAPH_BLEND_DFACTOR_ONE_MINUS_DST_COLOR);
    (NV097_SET_BLEND_FUNC_DFACTOR_V_SRC_ALPHA_SATURATE, NV_PGRAPH_BLEND_DFACTOR_SRC_ALPHA_SATURATE);
    (NV097_SET_BLEND_FUNC_DFACTOR_V_CONSTANT_COLOR, NV_PGRAPH_BLEND_DFACTOR_CONSTANT_COLOR);
    (NV097_SET_BLEND_FUNC_DFACTOR_V_ONE_MINUS_CONSTANT_COLOR,
       NV_PGRAPH_BLEND_DFACTOR_ONE_MINUS_CONSTANT_COLOR);
    (NV097_SET_BLEND_FUNC_DFACTOR_V_CONSTANT_ALPHA, NV_PGRAPH_BLEND_DFACTOR_CONSTANT_ALPHA);
    (NV097_SET_BLEND_FUNC_DFACTOR_V_ONE_MINUS_CONSTANT_ALPHA,
       NV_PGRAPH_BLEND_DFACTOR_ONE_MINUS_CONSTANT_ALPHA) ]
  NV_PGRAPH_BLEND NV_PGRAPH_BLEND_DFACTOR.

Definition set_blend_equation : handler := select_or_discard
  [ (NV097_SET_BLEND_EQUATION_V_FUNC_SUBTRACT, 0);
    (NV097_SET_BLEND_EQUATION_V_FUNC_REVERSE_SUBTRACT, 1);
    (NV097_SET_BLEND_EQUATION_V_FUNC_ADD, 2);
    (NV097_SET_BLEND_EQUATION_V_MIN, 3);
    (NV097_SET_BLEND_EQUATION_V_MAX, 4);
    (NV097_SET_BLEND_EQUATION_V_FUNC_REVERSE_SUBTRACT_SIGNED, 5);
    (NV097_SET_BLEND_EQUATION_V_FUNC_ADD_SIGNED, 6) ]
  NV_PGRAPH_BLEND NV_PGRAPH_BLEND_EQN.

Definition set_depth_func : handler := fun d _ _ parameter =>
  if (0x200 <=? parameter) && (parameter <=? 0x207)
  then pg_set_mask d NV_PGRAPH_CONTROL_0 NV_PGRAPH_CONTROL_0_ZFUNC (Z.land parameter 0xF)
  else Ok d.

Definition pgraph_color_write_enabled d : bool :=
  has (rd (pgraph_regs d) NV_PGRAPH_CONTROL_0)
    (Z.lor (Z.lor (Z.lor NV_PGRAPH_CONTROL_0_ALPHA_WRITE_ENABLE NV_PGRAPH_CONTROL_0_RED_WRITE_ENABLE)
       NV_PGRAPH_CONTROL_0_GREEN_WRITE_ENABLE) NV_PGRAPH_CONTROL_0_BLUE_WRITE_ENABLE).

Definition pgraph_zeta_write_enabled d : bool :=
  has (rd (pgraph_regs d) NV_PGRAPH_CONTROL_0)
    (Z.lor NV_PGRAPH_CONTROL_0_ZWRITEENABLE NV_PGRAPH_CONTROL_0_STENCIL_WRITE_ENABLE).

Definition set_color_mask : handler := fun d _ _ parameter =>
  let enabled := pgraph_color_write_enabled d in
  let d := upd (fun g => g <| surface_color ::= fun s =>
                  s <| write_enabled_cache ::= fun b => b || enabled |> |>) d in
  d ← pg_set_mask d NV_PGRAPH_CONTROL_0 NV_PGRAPH_CONTROL_0_ALPHA_WRITE_ENABLE
        (Z.b2z (has parameter NV097_SET_COLOR_MASK_ALPHA_WRITE_ENABLE));
  d ← pg_set_mask d NV_PGRAPH_CONTROL_0 NV_PGRAPH_CONTROL_0_RED_WRITE_ENABLE
        (Z.b2z (has parameter NV097_SET_COLOR_MASK_RED_WRITE_ENABLE));
  d ← pg_set_mask d NV_PGRAPH_CONTROL_0 NV_PGRAPH_CONTROL_0_GREEN_WRITE_ENABLE
        (Z.b2z (has parameter NV097_SET_COLOR_MASK_GREEN_WRITE_ENABLE));
  pg_set_mask d NV_PGRAPH_CONTROL_0 NV_PGRAPH_CONTROL_0_BLUE_WRITE_ENABLE
    (Z.b2z (has parameter NV097_SET_COLOR_MASK_BLUE_WRITE_ENABLE)).

Definition set_depth_mask : handler := fun d _ _ parameter =>
  let enabled := pgraph_zeta_write_enabled d in
  let d := upd (fun g => g <| surface_zeta ::= fun s =>
                  s <| write_enabled_cache ::= fun b => b || enabled |> |>) d in
  pg_set_mask d NV_PGRAPH_CONTROL_0 NV_PGRAPH_CONTROL_0_ZWRITEENABLE parameter.

Definition kelvin_map_stencil_op (parameter : Z) : result Z :=
  select_or_stop
    [ (NV097_SET_STENCIL_OP_V_KEEP, NV_PGRAPH_CONTROL_2_STENCIL_OP_V_KEEP);
      (NV097_SET_STENCIL_OP_V_ZERO, NV_PGRAPH_CONTROL_2_STENCIL_OP_V_ZERO);
      (NV097_SET_STENCIL_OP_V_REPLACE, NV_PGRAPH_CONTROL_2_STENCIL_OP_V_REPLACE);
      (NV097_SET_STENCIL_OP_V_INCRSAT, NV_PGRAPH_CONTROL_2_STENCIL_OP_V_INCRSAT);
      (NV097_SET_STENCIL_OP_V_DECRSAT, NV_PGRAPH_CONTROL_2_STENCIL_OP_V_DECRSAT);
      (NV097_SET_STENCIL_OP_V_INVERT, NV_PGRAPH_CONTROL_2_STENCIL_OP_V_INVERT);
      (NV097_SET_STENCIL_OP_V_INCR, NV_PGRAPH_CONTROL_2_STENCIL_OP_V_INCR);
      (NV097_SET_STENCIL_OP_V_DECR, NV_PGRAPH_CONTROL_2_STENCIL_OP_V_DECR) ]
    parameter "Invalid kelvin map stencil operation".

Definition set_stencil_op (mask : Z) : handler := fun d _ _ parameter =>
  op ← kelvin_map_stencil_op parameter; pg_set_mask d NV_PGRAPH_CONTROL_2 mask op.

Definition set_shade_mode : handler := select_or_discard
  [ (NV097_SET_SHADE_MODE_V_FLAT, NV_PGRAPH_CONTROL_3_SHADEMODE_FLAT);
    (NV097_SET_SHADE_MODE_V_SMOOTH, NV_PGRAPH_CONTROL_3_SHADEMODE_SMOOTH) ]
  NV_PGRAPH_CONTROL_3 NV_PGRAPH_CONTROL_3_SHADEMODE.

Definition set_provoking_vertex : handler := fun d _ _ parameter =>
  _ ← check (Z.land parameter (u32 (Z.lnot 1)) =? 0) "(parameter & ~1) == 0";
  pg_set_mask d NV_PGRAPH_CONTROL_3 NV_PGRAPH_CONTROL_3_PROVOKING_VERTEX parameter.

Definition blend_methods : list Method := [
  DEF_METHOD NV097_SET_BLEND_FUNC_SFACTOR set_blend_func_sfactor;
  DEF_METHOD NV097_SET_BLEND_FUNC_DFACTOR set_blend_func_dfactor;
  DEF_METHOD NV097_SET_BLEND_COLOR (store_reg NV_PGRAPH_BLENDCOLOR);
  DEF_METHOD NV097_SET_BLEND_EQUATION set_blend_equation;
  DEF_METHOD NV097_SET_DEPTH_FUNC set_depth_func;
  DEF_METHOD NV097_SET_COLOR_MASK set_color_mask;
  DEF_METHOD NV097_SET_DEPTH_MASK set_depth_mask;
  DEF_METHOD NV097_SET_STENCIL_MASK (store_field NV_PGRAPH_CONTROL_1 NV_PGRAPH_CONTROL_1_STENCIL_MASK_WRITE);
  DEF_METHOD NV097_SET_STENCIL_FUNC (fun d _ _ parameter =>
    pg_set_mask d NV_PGRAPH_CONTROL_1 NV_PGRAPH_CONTROL_1_STENCIL_FUNC (Z.land parameter 0xF));
  DEF_METHOD NV097_SET_STENCIL_FUNC_REF (store_field NV_PGRAPH_CONTROL_1 NV_PGRAPH_CONTROL_1_STENCIL_REF);
  DEF_METHOD NV097_SET_STENCIL_FUNC_MASK
    (store_field NV_PGRAPH_CONTROL_1 NV_PGRAPH_CONTROL_1_STENCIL_MASK_READ);
  DEF_METHOD NV097_SET_STENCIL_OP_FAIL (set_stencil_op NV_PGRAPH_CONTROL_2_STENCIL_OP_FAIL);
  DEF_METHOD NV097_SET_STENCIL_OP_ZFAIL (set_stencil_op NV_PGRAPH_CONTROL_2_STENCIL_OP_ZFAIL);
  DEF_METHOD NV097_SET_STENCIL_OP_ZPASS (set_stencil_op NV_PGRAPH_CONTROL_2_STENCIL_OP_ZPASS);
  DEF_METHOD NV097_SET_SHADE_MODE set_shade_mode;
  DEF_METHOD NV097_SET_PROVOKING_VERTEX set_provoking_vertex;
  DEF_METHOD NV097_SET_POLYGON_OFFSET_SCALE_FACTOR (store_reg NV_PGRAPH_ZOFFSETFACTOR);
  DEF_METHOD NV097_SET_POLYGON_OFFSET_BIAS (store_reg NV_PGRAPH_ZOFFSETBIAS) ].

(** ** Polygons and materials *)

Definition kelvin_map_polygon_mode (parameter : Z) : result Z :=
  select_or_stop
    [ (NV097_SET_FRONT_POLYGON_MODE_V_POINT, NV_PGRAPH_SETUPRASTER_FRONTFACEMODE_POINT);
      (NV097_SET_FRONT_POLYGON_MODE_V_LINE, NV_PGRAPH_SETUPRASTER_FRONTFACEMODE_LINE);
      (NV097_SET_FRONT_POLYGON_MODE_V_FILL, NV_PGRAPH_SETUPRASTER_FRONTFACEMODE_FILL) ]
    parameter "Invalid kelvin map polygon mode".

Definition set_polygon_mode (mask : Z) : handler := fun d _ _ parameter =>
  mode ← kelvin_map_polygon_mode parameter; pg_set_mask d NV_PGRAPH_SETUPRASTER mask mode.

Definition set_cull_face : handler := fun d _ _ parameter =>
  face ← select_or_stop
    [ (NV097_SET_CULL_FACE_V_FRONT, NV_PGRAPH_SETUPRASTER_CULLCTRL_FRONT);
      (NV097_SET_CULL_FACE_V_BACK, NV_PGRAPH_SETUPRASTER_CULLCTRL_BACK);
      (NV097_SET_CULL_FACE_V_FRONT_AND_BACK, NV_PGRAPH_SETUPRASTER_CULLCTRL_FRONT_AND_BACK) ]
    parameter "Invalid cull face parameter";
  pg_set_mask d NV_PGRAPH_SETUPRASTER NV_PGRAPH_SETUPRASTER_CULLCTRL face.

Definition set_front_face : handler := select_or_discard
  [ (NV097_SET_FRONT_FACE_V_CW, 0); (NV097_SET_FRONT_FACE_V_CCW, 1) ]
  NV_PGRAPH_SETUPRASTER NV_PGRAPH_SETUPRASTER_FRONTFACE.

(** A component of a row of the lighting context, whose dirty flag it sets. *)
Definition set_ltctxa (row col v : Z) d : result nv2a :=
  m ← put NV2A_LTCTXA_COUNT 4 row col v (ltctxa (lighting (pgraph_rest d)));
  s ← mark NV2A_LTCTXA_COUNT row (ltctxa_dirty (lighting (pgraph_rest d)));
  Ok (upd_lighting (fun l => l <| ltctxa := m |> <| ltctxa_dirty := s |>) d).
Definition set_ltctxb (row col v : Z) d : result nv2a :=
  m ← put NV2A_LTCTXB_COUNT 4 row col v (ltctxb (lighting (pgraph_rest d)));
  s ← mark NV2A_LTCTXB_COUNT row (ltctxb_dirty (lighting (pgraph_rest d)));
  Ok (upd_lighting (fun l => l <| ltctxb := m |> <| ltctxb_dirty := s |>) d).
Definition set_ltc1 (row col v : Z) d : result nv2a :=
  m ← put NV2A_LTC1_COUNT 4 row col v (ltc1 (lighting (pgraph_rest d)));
  s ← mark NV2A_LTC1_COUNT row (ltc1_dirty (lighting (pgraph_rest d)));
  Ok (upd_lighting (fun l => l <| ltc1 := m |> <| ltc1_dirty := s |>) d).

(** The same of a row of the transform constants. *)
Definition set_vsh_constant (row col v : Z) d : result nv2a :=
  m ← put NV2A_VERTEXSHADER_CONSTANTS 4 row col v (vsh_constants d);
  s ← mark NV2A_VERTEXSHADER_CONSTANTS row (vsh_constants_dirty (pgraph_rest d));
  Ok (upd (fun g => g <| vsh_constants_dirty := s |>) (d <| vsh_constants := m |>)).

Definition set_ltctxa_slot (base row : Z) : handler := fun d _ method parameter =>
  set_ltctxa row ((method - base) / 4) parameter d.
Definition set_constant_slot (base row : Z) : handler := fun d _ method parameter =>
  set_vsh_constant row ((method - base) / 4) parameter d.

Definition polygon_methods : list Method := [
  DEF_METHOD NV097_SET_FRONT_POLYGON_MODE (set_polygon_mode NV_PGRAPH_SETUPRASTER_FRONTFACEMODE);
  DEF_METHOD NV097_SET_BACK_POLYGON_MODE (set_polygon_mode NV_PGRAPH_SETUPRASTER_BACKFACEMODE);
  DEF_METHOD NV097_SET_CLIP_MIN (store_reg NV_PGRAPH_ZCLIPMIN);
  DEF_METHOD NV097_SET_CLIP_MAX (store_reg NV_PGRAPH_ZCLIPMAX);
  DEF_METHOD NV097_SET_CULL_FACE set_cull_face;
  DEF_METHOD NV097_SET_FRONT_FACE set_front_face;
  DEF_METHOD NV097_SET_NORMALIZATION_ENABLE
    (store_field NV_PGRAPH_CSV0_C NV_PGRAPH_CSV0_C_NORMALIZATION_ENABLE);
  DEF_METHOD_RANGE NV097_SET_MATERIAL_EMISSION 3
    (set_ltctxa_slot NV097_SET_MATERIAL_EMISSION NV_IGRAPH_XF_LTCTXA_CM_COL);
  DEF_METHOD NV097_SET_MATERIAL_ALPHA
    (assign (fun p g => g <| lighting ::= fun l => l <| material_alpha := p |> |>));
  DEF_METHOD NV097_SET_SPECULAR_ENABLE (store_field NV_PGRAPH_CSV0_C NV_PGRAPH_CSV0_C_SPECULAR_ENABLE);
  DEF_METHOD NV097_SET_LIGHT_ENABLE_MASK (store_field NV_PGRAPH_CSV0_D NV_PGRAPH_CSV0_D_LIGHTS) ].

(** ** Texture coordinates and matrices *)

Definition kelvin_map_texgen (parameter channel : Z) : result Z :=
  _ ← check (channel <? 4) "channel < 4";
  _ ← check (negb (parameter =? NV097_SET_TEXGEN_S_SPHERE_MAP) || (channel <? 2)) "channel < 2";
  _ ← check (negb ((parameter =? NV097_SET_TEXGEN_S_REFLECTION_MAP) ||
                   (parameter =? NV097_SET_TEXGEN_S_NORMAL_MAP)) || (channel <? 3)) "channel < 3";
  select_or_stop
    [ (NV097_SET_TEXGEN_S_DISABLE, NV_PGRAPH_CSV1_A_T0_S_DISABLE);
      (NV097_SET_TEXGEN_S_EYE_LINEAR, NV_PGRAPH_CSV1_A_T0_S_EYE_LINEAR);
      (NV097_SET_TEXGEN_S_OBJECT_LINEAR, NV_PGRAPH_CSV1_A_T0_S_OBJECT_LINEAR);
      (NV097_SET_TEXGEN_S_SPHERE_MAP, NV_PGRAPH_CSV1_A_T0_S_SPHERE_MAP);
      (NV097_SET_TEXGEN_S_REFLECTION_MAP, NV_PGRAPH_CSV1_A_T0_S_REFLECTION_MAP);
      (NV097_SET_TEXGEN_S_NORMAL_MAP, NV_PGRAPH_CSV1_A_T0_S_NORMAL_MAP) ]
    parameter "Invalid kelvin map texgen parameter".

(** SET_TEXGEN_S, T, R and Q: coordinate [channel] of a texture, whose field is
    [mask0] or [mask1] of one of two registers. *)
Definition set_texgen (base mask0 mask1 channel : Z) : handler := fun d _ method parameter =>
  let slot := (method - base) / 16 in
  let reg := if slot <? 2 then NV_PGRAPH_CSV1_A else NV_PGRAPH_CSV1_B in
  let mask := if slot mod 2 =? 0 then mask0 else mask1 in
  texgen ← kelvin_map_texgen parameter channel; pg_set_mask d reg mask texgen.

Definition set_texture_matrix_enable : handler := fun d _ method parameter =>
  let slot := (method - NV097_SET_TEXTURE_MATRIX_ENABLE) / 4 in
  if (0 <=? slot) && (slot <? NV2A_MAX_TEXTURES) then
    Ok (upd (fun g => g <| texture_matrix_enable ::= <[ slot := negb (parameter =? 0) ]> |>) d)
  else Fault OutOfBounds.

Definition set_point_size : handler := fun d _ _ parameter =>
  if NV097_SET_POINT_SIZE_V_MAX <? parameter then Ok d
  else pgraph_reg_w d NV_PGRAPH_POINTSIZE parameter.

(** A 4x4 matrix of the transform constants, and one of four such matrices
    eight rows apart. *)
Definition set_matrix (base row0 : Z) : handler := fun d _ method parameter =>
  let slot := (method - base) / 4 in
  set_vsh_constant (row0 + slot / 4) (slot mod 4) parameter d.

Definition set_matrices (base row0 : Z) : handler := fun d _ method parameter =>
  let slot := (method - base) / 4 in
  let matnum := slot / 16 in
  let entry := slot mod 16 in
  set_vsh_constant (row0 + matnum * 8 + entry / 4) (entry mod 4) parameter d.

Definition set_fog_params : handler := fun d _ method parameter =>
  let slot := (method - NV097_SET_FOG_PARAMS) / 4 in
  d ← (if slot <? 2 then pgraph_reg_w d (NV_PGRAPH_FOGPARAM0 + slot * 4) parameter else Ok d);
  set_ltctxa NV_IGRAPH_XF_LTCTXA_FOG_K slot parameter d.

Definition matrix_methods : list Method := [
  DEF_METHOD_CASE_4 NV097_SET_TEXGEN_S 16
    (set_texgen NV097_SET_TEXGEN_S NV_PGRAPH_CSV1_A_T0_S NV_PGRAPH_CSV1_A_T1_S 0);
  DEF_METHOD_CASE_4 NV097_SET_TEXGEN_T 16
    (set_texgen NV097_SET_TEXGEN_T NV_PGRAPH_CSV1_A_T0_T NV_PGRAPH_CSV1_A_T1_T 1);
  DEF_METHOD_CASE_4 NV097_SET_TEXGEN_R 16
    (set_texgen NV097_SET_TEXGEN_R NV_PGRAPH_CSV1_A_T0_R NV_PGRAPH_CSV1_A_T1_R 2);
  DEF_METHOD_CASE_4 NV097_SET_TEXGEN_Q 16
    (set_texgen NV097_SET_TEXGEN_Q NV_PGRAPH_CSV1_A_T0_Q NV_PGRAPH_CSV1_A_T1_Q 3);
  DEF_METHOD_RANGE NV097_SET_TEXTURE_MATRIX_ENABLE 4 set_texture_matrix_enable;
  DEF_METHOD NV097_SET_POINT_SIZE set_point_size;
  DEF_METHOD_RANGE NV097_SET_PROJECTION_MATRIX 16
    (set_matrix NV097_SET_PROJECTION_MATRIX NV_IGRAPH_XF_XFCTX_PMAT0);
  DEF_METHOD_RANGE NV097_SET_MODEL_VIEW_MATRIX (16 * 4)
    (set_matrices NV097_SET_MODEL_VIEW_MATRIX NV_IGRAPH_XF_XFCTX_MMAT0);
  DEF_METHOD_RANGE NV097_SET_INVERSE_MODEL_VIEW_MATRIX (16 * 4)
    (set_matrices NV097_SET_INVERSE_MODEL_VIEW_MATRIX NV_IGRAPH_XF_XFCTX_IMMAT0);
  DEF_METHOD_RANGE NV097_SET_COMPOSITE_MATRIX 16
    (set_matrix NV097_SET_COMPOSITE_MATRIX NV_IGRAPH_XF_XFCTX_CMAT0);
  DEF_METHOD_RANGE NV097_SET_TEXTURE_MATRIX (16 * 4)
    (set_matrices NV097_SET_TEXTURE_MATRIX NV_IGRAPH_XF_XFCTX_T0MAT);
  DEF_METHOD_RANGE NV097_SET_FOG_PARAMS 3 set_fog_params;
  DEF_METHOD_RANGE NV097_SET_TEXGEN_PLANE_S (4 * 4 * 4)
    (set_matrices NV097_SET_TEXGEN_PLANE_S NV_IGRAPH_XF_XFCTX_TG0MAT);
  DEF_METHOD NV097_SET_TEXGEN_VIEW_MODEL (store_field NV_PGRAPH_CSV0_D NV_PGRAPH_CSV0_D_TEXGEN_REF);
  DEF_METHOD_RANGE NV097_SET_FOG_PLANE 4 (set_constant_slot NV097_SET_FOG_PLANE NV_IGRAPH_XF_XFCTX_FOG) ].

(** ** Specular power *)

(** [curve_coefficients] and [kCoefficient0StepPoints], as the patterns of the
    [float]s nearest to the decimal numbers of the source. *)
Definition curve_coefficients : list (Z * Z * Z) := [
  (0x3F80038E, 0xC11D6AEF, 0x425B50FD); (0x3F997E38, 0xC052BA05, 0x40F99980);
  (0x410A747F, 0x41E9840B, 0x422E5818); (0xC404D3B2, 0x42EACC04, 0x42E24F9C);
  (0xC09534F2, 0x3F9C4D4C, 0x3F9BD27C); (0xC2F8DED8, 0x420D9AD9, 0x420DA1E9);
  (0x4B22D9B0, 0x4BA488CA, 0x4B263DCA); (0xCC4643AA, 0xCCC6BEE8, 0xCC47396C);
  (0x496D5EE5, 0x49F74CD1, 0x4980C590) ].
Definition kCoefficient0StepPoints : list Z := [
  0xBCB8C314; 0xBED7D3F6; 0xBF2DC04D; 0xBF56C33A; 0xBF76358B; 0xBF7DA350; 0xBF7EAF0D; 0xBF7F1EA0;
  0xBF7FE250 ].

Definition reconstruct_quadratic (c0 : spec_float) (k : Z * Z * Z) : spec_float :=
  let '(a, b, c) := k in
  f_add (f_add (float_of_bits a) (f_mul (float_of_bits b) c0))
    (f_mul (f_mul (float_of_bits c) c0) c0).

Definition reconstruct_saturation_growth_rate (c0 : spec_float) (k : Z * Z * Z) : spec_float :=
  let '(a, b, c) := k in
  f_div (f_mul (float_of_bits a) c0) (f_add (float_of_bits b) (f_mul (float_of_bits c) c0)).

(** [reconstruct_func_map]. *)
Definition reconstruct_func_map : list (spec_float -> Z * Z * Z -> spec_float) := [
  reconstruct_quadratic; reconstruct_quadratic; reconstruct_quadratic;
  reconstruct_saturation_growth_rate; reconstruct_saturation_growth_rate;
  reconstruct_saturation_growth_rate;
  reconstruct_quadratic; reconstruct_quadratic; reconstruct_quadratic ].

(** The first step point below [c] chooses the curve; 0 below them all. *)
Fixpoint reconstruct_step (c : spec_float) (steps : list Z)
    (curves : list ((spec_float -> Z * Z * Z -> spec_float) * (Z * Z * Z))) : spec_float :=
  match steps, curves with
  | s :: steps, (f, k) :: curves =>
      if SFltb (float_of_bits s) c then f c k else reconstruct_step c steps curves
  | _, _ => f_zero
  end.

Definition reconstruct_power (c : spec_float) : spec_float :=
  reconstruct_step c kCoefficient0StepPoints (combine reconstruct_func_map curve_coefficients).

Definition reconstruct_specular_power (params : list Z) : spec_float :=
  let p i := float_of_bits (nth i params 0) in
  if SFltb f_zero (p 1%nat) && SFltb (p 2%nat) f_one then
    f_sub (p 2%nat) (f_mul (p 0%nat) (f_of_Z 2))
  else
    let c0 := p 0%nat in
    let c3 := p 3%nat in
    if SFltb f_zero c0 || SFltb f_zero c3 then float_of_bits 0x38D1B717
    else
      let power := reconstruct_power c0 in
      let half_power := reconstruct_power c3 in
      if SFeqb power f_zero || (SFltb power half_power && SFltb c0 (float_of_bits 0xBDCCCCCD))
      then f_mul half_power (f_of_Z 2)
      else power.

Definition set_specular_params : handler := fun d _ method parameter =>
  let slot := (method - NV097_SET_SPECULAR_PARAMS) / 4 in
  params ← blit (specular_params (lighting (pgraph_rest d))) slot [parameter];
  let d := upd_lighting (fun l => l <| specular_params := params |>) d in
  Ok (if slot =? 5
      then upd_lighting (fun l => l <| specular_power := reconstruct_specular_power params |>) d
      else d).

Definition set_specular_params_back : handler := fun d _ method parameter =>
  let slot := (method - NV097_SET_SPECULAR_PARAMS_BACK) / 4 in
  params ← blit (specular_params_back (lighting (pgraph_rest d))) slot [parameter];
  let d := upd_lighting (fun l => l <| specular_params_back := params |>) d in
  Ok (if slot =? 5
      then upd_lighting (fun l => l <| specular_power_back := reconstruct_specular_power params |>) d
      else d).

(** ** Lighting, combiners, programs and constants *)

Definition set_point_params : handler := fun d _ method parameter =>
  let slot := (method - NV097_SET_POINT_PARAMS) / 4 in
  params ← blit (point_params (lighting (pgraph_rest d))) slot [parameter];
  Ok (upd_lighting (fun l => l <| point_params := params |>) d).

Definition set_transform_program : handler := fun d _ method parameter =>
  let slot := (method - NV097_SET_TRANSFORM_PROGRAM) / 4 in
  let program_load := PG_GET_MASK d NV_PGRAPH_CHEOPS_OFFSET NV_PGRAPH_CHEOPS_OFFSET_PROG_LD_PTR in
  _ ← check (program_load <? NV2A_MAX_TRANSFORM_PROGRAM_LENGTH)
        "program_load < NV2A_MAX_TRANSFORM_PROGRAM_LENGTH";
  m ← put NV2A_MAX_TRANSFORM_PROGRAM_LENGTH 4 program_load (slot mod 4) parameter
        (program_data (pgraph_rest d));
  let d := upd (fun g => g <| program_data := m |> <| program_data_dirty := true |>) d in
  if slot mod 4 =? 3
  then pg_set_mask d NV_PGRAPH_CHEOPS_OFFSET NV_PGRAPH_CHEOPS_OFFSET_PROG_LD_PTR (program_load + 1)
  else Ok d.

Definition set_transform_constant : handler := fun d _ method parameter =>
  let slot := (method - NV097_SET_TRANSFORM_CONSTANT) / 4 in
  let const_load := PG_GET_MASK d NV_PGRAPH_CHEOPS_OFFSET NV_PGRAPH_CHEOPS_OFFSET_CONST_LD_PTR in
  _ ← check (const_load <? NV2A_VERTEXSHADER_CONSTANTS) "const_load < NV2A_VERTEXSHADER_CONSTANTS";
  d ← (if parameter =? rd (vsh_constants d) (4 * const_load + slot mod 4) then
         m ← put NV2A_VERTEXSHADER_CONSTANTS 4 const_load (slot mod 4) parameter (vsh_constants d);
         Ok (d <| vsh_constants := m |>)
       else set_vsh_constant const_load (slot mod 4) parameter d);
  if slot mod 4 =? 3
  then pg_set_mask d NV_PGRAPH_CHEOPS_OFFSET NV_PGRAPH_CHEOPS_OFFSET_CONST_LD_PTR (const_load + 1)
  else Ok d.

(** A case [name ... name + 8] of the switches on the part of a light. *)
Definition part_in (part name last : Z) : bool := (name <=? part * 4) && (part * 4 <=? name + last).

(** [NV097_SET_BACK_LIGHT_*]. *)
Definition set_back_light : handler := fun d _ method parameter =>
  let slot := (method - NV097_SET_BACK_LIGHT_AMBIENT_COLOR) / 4 in
  let part := NV097_SET_BACK_LIGHT_AMBIENT_COLOR / 4 + slot mod 16 in
  let slot := slot / 16 in
  _ ← check (slot <? 8) "slot < 8";
  if part_in part NV097_SET_BACK_LIGHT_AMBIENT_COLOR 8 then
    set_ltctxb (NV_IGRAPH_XF_LTCTXB_L0_BAMB + slot * 6)
      (part - NV097_SET_BACK_LIGHT_AMBIENT_COLOR / 4) parameter d
  else if part_in part NV097_SET_BACK_LIGHT_DIFFUSE_COLOR 8 then
    set_ltctxb (NV_IGRAPH_XF_LTCTXB_L0_BDIF + slot * 6)
      (part - NV097_SET_BACK_LIGHT_DIFFUSE_COLOR / 4) parameter d
  else if part_in part NV097_SET_BACK_LIGHT_SPECULAR_COLOR 8 then
    set_ltctxb (NV_IGRAPH_XF_LTCTXB_L0_BSPC + slot * 6)
      (part - NV097_SET_BACK_LIGHT_SPECULAR_COLOR / 4) parameter d
  else Fault (AssertFail "Invalid back light type").

(** The other properties of a light. *)
Definition set_light : handler := fun d _ method parameter =>
  let slot := (method - NV097_SET_LIGHT_AMBIENT_COLOR) / 4 in
  let part := NV097_SET_LIGHT_AMBIENT_COLOR / 4 + slot mod 32 in
  let slot := slot / 32 in
  let l := lighting (pgraph_rest d) in
  _ ← check (slot <? 8) "slot < 8";
  if part_in part NV097_SET_LIGHT_AMBIENT_COLOR 8 then
    set_ltctxb (NV_IGRAPH_XF_LTCTXB_L0_AMB + slot * 6) (part - NV097_SET_LIGHT_AMBIENT_COLOR / 4)
      parameter d
  else if part_in part NV097_SET_LIGHT_DIFFUSE_COLOR 8 then
    set_ltctxb (NV_IGRAPH_XF_LTCTXB_L0_DIF + slot * 6) (part - NV097_SET_LIGHT_DIFFUSE_COLOR / 4)
      parameter d
  else if part_in part NV097_SET_LIGHT_SPECULAR_COLOR 8 then
    set_ltctxb (NV_IGRAPH_XF_LTCTXB_L0_SPC + slot * 6) (part - NV097_SET_LIGHT_SPECULAR_COLOR / 4)
      parameter d
  else if part * 4 =? NV097_SET_LIGHT_LOCAL_RANGE then
    set_ltc1 (NV_IGRAPH_XF_LTC1_r0 + slot) 0 parameter d
  else if part_in part NV097_SET_LIGHT_INFINITE_HALF_VECTOR 8 then
    m ← put NV2A_MAX_LIGHTS 3 slot (part - NV097_SET_LIGHT_INFINITE_HALF_VECTOR / 4) parameter
          (light_infinite_half_vector l);
    Ok (upd_lighting (fun l => l <| light_infinite_half_vector := m |>) d)
  else if part_in part NV097_SET_LIGHT_INFINITE_DIRECTION 8 then
    m ← put NV2A_MAX_LIGHTS 3 slot (part - NV097_SET_LIGHT_INFINITE_DIRECTION / 4) parameter
          (light_infinite_direction l);
    Ok (upd_lighting (fun l => l <| light_infinite_direction := m |>) d)
  else if part_in part NV097_SET_LIGHT_SPOT_FALLOFF 8 then
    set_ltctxa (NV_IGRAPH_XF_LTCTXA_L0_K + slot * 2) (part - NV097_SET_LIGHT_SPOT_FALLOFF / 4)
      parameter d
  else if part_in part NV097_SET_LIGHT_SPOT_DIRECTION 12 then
    set_ltctxa (NV_IGRAPH_XF_LTCTXA_L0_SPT + slot * 2) (part - NV097_SET_LIGHT_SPOT_DIRECTION / 4)
      parameter d
  else if part_in part NV097_SET_LIGHT_LOCAL_POSITION 8 then
    m ← put NV2A_MAX_LIGHTS 3 slot (part - NV097_SET_LIGHT_LOCAL_POSITION / 4) parameter
          (light_local_position l);
    Ok (upd_lighting (fun l => l <| light_local_position := m |>) d)
  else if part_in part NV097_SET_LIGHT_LOCAL_ATTENUATION 8 then
    m ← put NV2A_MAX_LIGHTS 3 slot (part - NV097_SET_LIGHT_LOCAL_ATTENUATION / 4) parameter
          (light_local_attenuation l);
    Ok (upd_lighting (fun l => l <| light_local_attenuation := m |>) d)
  else Fault (AssertFail "Invalid light source prop or unhandled back light prop").

Definition light_methods : list Method := [
  DEF_METHOD_RANGE NV097_SET_SPECULAR_PARAMS 6 set_specular_params;
  DEF_METHOD_RANGE NV097_SET_SCENE_AMBIENT_COLOR 3
    (set_ltctxa_slot NV097_SET_SCENE_AMBIENT_COLOR NV_IGRAPH_XF_LTCTXA_FR_AMB);
  DEF_METHOD_RANGE NV097_SET_VIEWPORT_OFFSET 4
    (set_constant_slot NV097_SET_VIEWPORT_OFFSET NV_IGRAPH_XF_XFCTX_VPOFF);
  DEF_METHOD_RANGE NV097_SET_POINT_PARAMS 8 set_point_params;
  DEF_METHOD_RANGE NV097_SET_EYE_POSITION 4
    (set_constant_slot NV097_SET_EYE_POSITION NV_IGRAPH_XF_XFCTX_EYEP);
  DEF_METHOD_RANGE NV097_SET_COMBINER_FACTOR0 8
    (store_reg_slot NV097_SET_COMBINER_FACTOR0 4 NV_PGRAPH_COMBINEFACTOR0);
  DEF_METHOD_RANGE NV097_SET_COMBINER_FACTOR1 8
    (store_reg_slot NV097_SET_COMBINER_FACTOR1 4 NV_PGRAPH_COMBINEFACTOR1);
  DEF_METHOD_RANGE NV097_SET_COMBINER_ALPHA_OCW 8
    (store_reg_slot NV097_SET_COMBINER_ALPHA_OCW 4 NV_PGRAPH_COMBINEALPHAO0);
  DEF_METHOD_RANGE NV097_SET_COMBINER_COLOR_ICW 8
    (store_reg_slot NV097_SET_COMBINER_COLOR_ICW 4 NV_PGRAPH_COMBINECOLORI0);
  DEF_METHOD_RANGE NV097_SET_COLOR_KEY_COLOR 4
    (store_reg_slot NV097_SET_COLOR_KEY_COLOR 4 NV_PGRAPH_COLORKEYCOLOR0);
  DEF_METHOD_RANGE NV097_SET_VIEWPORT_SCALE 4
    (set_constant_slot NV097_SET_VIEWPORT_SCALE NV_IGRAPH_XF_XFCTX_VPSCL);
  DEF_METHOD_RANGE NV097_SET_TRANSFORM_PROGRAM 32 set_transform_program;
  DEF_METHOD_RANGE NV097_SET_TRANSFORM_CONSTANT 32 set_transform_constant;
  DEF_METHOD_RANGE NV097_SET_BACK_LIGHT_AMBIENT_COLOR (8 * 16) set_back_light;
  DEF_METHOD_RANGE NV097_SET_LIGHT_AMBIENT_COLOR (8 * 32) set_light ].

(** ** Vertex attributes *)

(** [attribute->inline_value[...] = ...], one assignment after the other, after
    the inline buffer of the attribute is allocated. *)
Fixpoint assign_values (l : list (Z * Z)) (value : list Z) : result (list Z) :=
  match l with
  | [] => Ok value
  | (i, v) :: l => value ← blit value i [v]; assign_values l value
  end.

Definition set_inline_values (attr : Z) (l : list (Z * Z)) d : result nv2a :=
  d ← pgraph_allocate_inline_buffer_vertices d attr;
  attribute ← fetch (attributes d) attr;
  value ← assign_values l (inline_value attribute);
  Ok (set_attribute attr (attribute <| inline_value := value |>) d).

(** [(float)(int16_t)x], [MAX(-1.0f, (float)x / 32767.0f)], [x / 255.0f] and
    [x / 255.0], as patterns. *)
Definition short_float (x : Z) : Z := bits_of_float (f_of_Z (s16 x)).
Definition f_max (a b : spec_float) : spec_float := if SFltb b a then a else b.
Definition short_norm (x : Z) : Z :=
  bits_of_float (f_max f_minus_one (f_div (f_of_Z (s16 x)) (f_of_Z 32767))).
Definition byte_norm (x : Z) : Z := bits_of_float (f_div (f_of_Z x) (f_of_Z 255)).
Definition byte_norm_d (x : Z) : Z := bits_of_float (d_to_f (d_div (d_of_Z x) (d_of_Z 255))).

Definition bits_zero : Z := bits_of_float f_zero.
Definition bits_one : Z := bits_of_float f_one.

Definition low16 (parameter : Z) : Z := Z.land parameter 0xFFFF.
Definition high16 (parameter : Z) : Z := Z.shiftr parameter 16.
Definition byte_of (parameter i : Z) : Z := Z.land (Z.shiftr parameter (8 * i)) 0xFF.

Definition set_vertex3f : handler := fun d _ method parameter =>
  let slot := (method - NV097_SET_VERTEX3F) / 4 in
  d ← set_inline_values NV2A_VERTEX_ATTR_POSITION [(slot, parameter); (3, bits_one)] d;
  if slot =? 2 then pgraph_finish_inline_buffer_vertex d else Ok d.

Definition set_vertex4f : handler := fun d _ method parameter =>
  let slot := (method - NV097_SET_VERTEX4F) / 4 in
  d ← set_inline_values NV2A_VERTEX_ATTR_POSITION [(slot, parameter)] d;
  if slot =? 3 then pgraph_finish_inline_buffer_vertex d else Ok d.

Definition set_fog_coord : handler := fun d _ _ parameter =>
  set_inline_values NV2A_VERTEX_ATTR_FOG
    [(0, parameter); (1, parameter); (2, parameter); (3, parameter)] d.

Definition set_weight1f : handler := fun d _ _ parameter =>
  set_inline_values NV2A_VERTEX_ATTR_WEIGHT
    [(0, parameter); (1, bits_zero); (2, bits_zero); (3, bits_one)] d.

Definition set_normal3s : handler := fun d _ method parameter =>
  let slot := (method - NV097_SET_NORMAL3S) / 4 in
  let part := slot mod 2 in
  set_inline_values NV2A_VERTEX_ATTR_NORMAL
    [(part * 2 + 0, short_norm (low16 parameter)); (part * 2 + 1, short_norm (high16 parameter))] d.

Definition SET_VERTEX_ATTRIBUTE_4S (command attr : Z) : handler := fun d _ method parameter =>
  let slot := (method - command) / 4 in
  let part := slot mod 2 in
  set_inline_values attr
    [(part * 2 + 0, short_float (low16 parameter)); (part * 2 + 1, short_float (high16 parameter))] d.

Definition SET_VERTEX_ATRIBUTE_TEX_2S (attr : Z) : handler := fun d _ _ parameter =>
  set_inline_values attr
    [(0, short_float (low16 parameter)); (1, short_float (high16 parameter)); (2, bits_zero);
     (3, bits_one)] d.

Definition SET_VERTEX_COLOR_3F (command attr : Z) : handler := fun d _ method parameter =>
  let slot := (method - command) / 4 in
  set_inline_values attr [(slot, parameter); (3, bits_one)] d.

Definition SET_VERTEX_ATTRIBUTE_F (command attr : Z) : handler := fun d _ method parameter =>
  let slot := (method - command) / 4 in set_inline_values attr [(slot, parameter)] d.

Definition SET_VERTEX_ATRIBUTE_TEX_2F (command attr : Z) : handler := fun d _ method parameter =>
  let slot := (method - command) / 4 in
  set_inline_values attr [(slot, parameter); (2, bits_zero); (3, bits_one)] d.

Definition SET_VERTEX_ATTRIBUTE_4UB (attr : Z) : handler := fun d _ _ parameter =>
  set_inline_values attr
    [(0, byte_norm (byte_of parameter 0)); (1, byte_norm (byte_of parameter 1));
     (2, byte_norm (byte_of parameter 2)); (3, byte_norm (byte_of parameter 3))] d.

Definition vertex_methods : list Method := [
  DEF_METHOD_RANGE NV097_SET_VERTEX3F 3 set_vertex3f;
  DEF_METHOD_RANGE NV097_SET_VERTEX4F 4 set_vertex4f;
  DEF_METHOD NV097_SET_FOG_COORD set_fog_coord;
  DEF_METHOD NV097_SET_WEIGHT1F set_weight1f;
  DEF_METHOD_RANGE NV097_SET_NORMAL3S 3 set_normal3s;
  DEF_METHOD_RANGE NV097_SET_TEXCOORD0_4S 2
    (SET_VERTEX_ATTRIBUTE_4S NV097_SET_TEXCOORD0_4S NV2A_VERTEX_ATTR_TEXTURE0);
  DEF_METHOD_RANGE NV097_SET_TEXCOORD1_4S 2
    (SET_VERTEX_ATTRIBUTE_4S NV097_SET_TEXCOORD1_4S NV2A_VERTEX_ATTR_TEXTURE1);
  DEF_METHOD_RANGE NV097_SET_TEXCOORD2_4S 2
    (SET_VERTEX_ATTRIBUTE_4S NV097_SET_TEXCOORD2_4S NV2A_VERTEX_ATTR_TEXTURE2);
  DEF_METHOD_RANGE NV097_SET_TEXCOORD3_4S 2
    (SET_VERTEX_ATTRIBUTE_4S NV097_SET_TEXCOORD3_4S NV2A_VERTEX_ATTR_TEXTURE3);
  DEF_METHOD_RANGE NV097_SET_TEXCOORD0_2S 1 (SET_VERTEX_ATRIBUTE_TEX_2S NV2A_VERTEX_ATTR_TEXTURE0);
  DEF_METHOD_RANGE NV097_SET_TEXCOORD1_2S 1 (SET_VERTEX_ATRIBUTE_TEX_2S NV2A_VERTEX_ATTR_TEXTURE1);
  DEF_METHOD_RANGE NV097_SET_TEXCOORD2_2S 1 (SET_VERTEX_ATRIBUTE_TEX_2S NV2A_VERTEX_ATTR_TEXTURE2);
  DEF_METHOD_RANGE NV097_SET_TEXCOORD3_2S 1 (SET_VERTEX_ATRIBUTE_TEX_2S NV2A_VERTEX_ATTR_TEXTURE3);
  DEF_METHOD_RANGE NV097_SET_DIFFUSE_COLOR3F 3
    (SET_VERTEX_COLOR_3F NV097_SET_DIFFUSE_COLOR3F NV2A_VERTEX_ATTR_DIFFUSE);
  DEF_METHOD_RANGE NV097_SET_SPECULAR_COLOR3F 3
    (SET_VERTEX_COLOR_3F NV097_SET_SPECULAR_COLOR3F NV2A_VERTEX_ATTR_SPECULAR);
  DEF_METHOD_RANGE NV097_SET_NORMAL3F 3
    (SET_VERTEX_ATTRIBUTE_F NV097_SET_NORMAL3F NV2A_VERTEX_ATTR_NORMAL);
  DEF_METHOD_RANGE NV097_SET_DIFFUSE_COLOR4F 4
    (SET_VERTEX_ATTRIBUTE_F NV097_SET_DIFFUSE_COLOR4F NV2A_VERTEX_ATTR_DIFFUSE);
  DEF_METHOD_RANGE NV097_SET_SPECULAR_COLOR4F 4
    (SET_VERTEX_ATTRIBUTE_F NV097_SET_SPECULAR_COLOR4F NV2A_VERTEX_ATTR_SPECULAR);
  DEF_METHOD_RANGE NV097_SET_TEXCOORD0_4F 4
    (SET_VERTEX_ATTRIBUTE_F NV097_SET_TEXCOORD0_4F NV2A_VERTEX_ATTR_TEXTURE0);
  DEF_METHOD_RANGE NV097_SET_TEXCOORD1_4F 4
    (SET_VERTEX_ATTRIBUTE_F NV097_SET_TEXCOORD1_4F NV2A_VERTEX_ATTR_TEXTURE1);
  DEF_METHOD_RANGE NV097_SET_TEXCOORD2_4F 4
    (SET_VERTEX_ATTRIBUTE_F NV097_SET_TEXCOORD2_4F NV2A_VERTEX_ATTR_TEXTURE2);
  DEF_METHOD_RANGE NV097_SET_TEXCOORD3_4F 4
    (SET_VERTEX_ATTRIBUTE_F NV097_SET_TEXCOORD3_4F NV2A_VERTEX_ATTR_TEXTURE3);
  DEF_METHOD_RANGE NV097_SET_WEIGHT4F 4
    (SET_VERTEX_ATTRIBUTE_F NV097_SET_WEIGHT4F NV2A_VERTEX_ATTR_WEIGHT);
  DEF_METHOD_RANGE NV097_SET_WEIGHT2F 2
    (SET_VERTEX_ATRIBUTE_TEX_2F NV097_SET_WEIGHT2F NV2A_VERTEX_ATTR_WEIGHT);
  DEF_METHOD_RANGE NV097_SET_WEIGHT3F 3
    (SET_VERTEX_COLOR_3F NV097_SET_WEIGHT3F NV2A_VERTEX_ATTR_WEIGHT);
  DEF_METHOD_RANGE NV097_SET_TEXCOORD0_2F 2
    (SET_VERTEX_ATRIBUTE_TEX_2F NV097_SET_TEXCOORD0_2F NV2A_VERTEX_ATTR_TEXTURE0);
  DEF_METHOD_RANGE NV097_SET_TEXCOORD1_2F 2
    (SET_VERTEX_ATRIBUTE_TEX_2F NV097_SET_TEXCOORD1_2F NV2A_VERTEX_ATTR_TEXTURE1);
  DEF_METHOD_RANGE NV097_SET_TEXCOORD2_2F 2
    (SET_VERTEX_ATRIBUTE_TEX_2F NV097_SET_TEXCOORD2_2F NV2A_VERTEX_ATTR_TEXTURE2);
  DEF_METHOD_RANGE NV097_SET_TEXCOORD3_2F 2
    (SET_VERTEX_ATRIBUTE_TEX_2F NV097_SET_TEXCOORD3_2F NV2A_VERTEX_ATTR_TEXTURE3);
  DEF_METHOD_RANGE NV097_SET_DIFFUSE_COLOR4UB 1 (SET_VERTEX_ATTRIBUTE_4UB NV2A_VERTEX_ATTR_DIFFUSE);
  DEF_METHOD_RANGE NV097_SET_SPECULAR_COLOR4UB 1 (SET_VERTEX_ATTRIBUTE_4UB NV2A_VERTEX_ATTR_SPECULAR) ].

(** The element size of a format of a vertex array, and the assertions on its
    number of components. *)
Definition array_format_size (format count : Z) : result Z :=
  if format =? NV097_SET_VERTEX_DATA_ARRAY_FORMAT_TYPE_UB_D3D then
    _ ← check (count =? 4) "attr->count == 4"; Ok 1
  else if format =? NV097_SET_VERTEX_DATA_ARRAY_FORMAT_TYPE_UB_OGL then Ok 1
  else if format =? NV097_SET_VERTEX_DATA_ARRAY_FORMAT_TYPE_S1 then Ok 2
  else if format =? NV097_SET_VERTEX_DATA_ARRAY_FORMAT_TYPE_F then Ok 4
  else if format =? NV097_SET_VERTEX_DATA_ARRAY_FORMAT_TYPE_S32K then Ok 2
  else if format =? NV097_SET_VERTEX_DATA_ARRAY_FORMAT_TYPE_CMP then
    _ ← check (count =? 1) "attr->count == 1"; Ok 4
  else Fault (AssertFail "Unknown vertex type").

Definition set_vertex_data_array_format : handler := fun d _ method parameter =>
  let slot := (method - NV097_SET_VERTEX_DATA_ARRAY_FORMAT) / 4 in
  attr ← fetch (attributes d) slot;
  let format := GET_MASK parameter NV097_SET_VERTEX_DATA_ARRAY_FORMAT_TYPE in
  let count := GET_MASK parameter NV097_SET_VERTEX_DATA_ARRAY_FORMAT_SIZE in
  let stride := GET_MASK parameter NV097_SET_VERTEX_DATA_ARRAY_FORMAT_STRIDE in
  size ← array_format_size format count;
  let d := set_attribute slot (attr <| attr_format := format |> <| attr_count := count |>
                                    <| attr_stride := stride |> <| attr_size := size |>) d in
  Ok (upd (fun g => g <| compressed_attrs ::= fun c =>
        if format =? NV097_SET_VERTEX_DATA_ARRAY_FORMAT_TYPE_CMP then u16 (Z.lor c (bit slot))
        else Z.ldiff c (bit slot) |>) d).

Definition set_vertex_data_array_offset : handler := fun d _ method parameter =>
  let slot := (method - NV097_SET_VERTEX_DATA_ARRAY_OFFSET) / 4 in
  attr ← fetch (attributes d) slot;
  Ok (set_attribute slot (attr <| attr_dma_select := has parameter 0x80000000 |>
                               <| attr_offset := Z.land parameter 0x7fffffff |>) d).

Definition get_report : handler := fun d _ _ parameter =>
  _ ← check (GET_MASK parameter NV097_GET_REPORT_TYPE =? NV097_GET_REPORT_TYPE_ZPASS_PIXEL_CNT)
        "type == NV097_GET_REPORT_TYPE_ZPASS_PIXEL_CNT";
  render (GetReport parameter) d.

(** [PRIM_TYPE_INVALID], the mode outside BEGIN and END. *)
Definition PRIM_TYPE_INVALID : Z := 0.

Definition set_begin_end : handler := fun d _ _ parameter =>
  if parameter =? NV097_SET_BEGIN_END_OP_END then
    if primitive_mode (drawing_of d) =? PRIM_TYPE_INVALID then Ok (pgraph_reset_inline_buffers d)
    else
      d ← render DrawEnd d;
      Ok (upd_drawing (fun w => w <| primitive_mode := PRIM_TYPE_INVALID |>)
            (pgraph_reset_inline_buffers d))
  else if negb (primitive_mode (drawing_of d) =? PRIM_TYPE_INVALID) then Ok d
  else
    _ ← check (parameter <=? NV097_SET_BEGIN_END_OP_POLYGON)
          "parameter <= NV097_SET_BEGIN_END_OP_POLYGON";
    render DrawBegin
      (pgraph_reset_inline_buffers (upd_drawing (fun w => w <| primitive_mode := parameter |>) d)).

Definition array_methods : list Method := [
  DEF_METHOD_RANGE NV097_SET_VERTEX_DATA_ARRAY_FORMAT 16 set_vertex_data_array_format;
  DEF_METHOD_RANGE NV097_SET_VERTEX_DATA_ARRAY_OFFSET 16 set_vertex_data_array_offset;
  DEF_METHOD NV097_SET_LOGIC_OP_ENABLE (store_field NV_PGRAPH_BLEND NV_PGRAPH_BLEND_LOGICOP_ENABLE);
  DEF_METHOD NV097_SET_LOGIC_OP (fun d _ _ parameter =>
    pg_set_mask d NV_PGRAPH_BLEND NV_PGRAPH_BLEND_LOGICOP (Z.land parameter 0xF));
  DEF_METHOD NV097_CLEAR_REPORT_VALUE (fun d _ _ _ => render ClearReportValue d);
  DEF_METHOD NV097_SET_ZPASS_PIXEL_COUNT_ENABLE
    (assign (fun p g => g <| zpass_pixel_count_enable := negb (p =? 0) |>));
  DEF_METHOD NV097_GET_REPORT get_report;
  DEF_METHOD_RANGE NV097_SET_EYE_DIRECTION 3
    (set_ltctxa_slot NV097_SET_EYE_DIRECTION NV_IGRAPH_XF_LTCTXA_EYED);
  DEF_METHOD NV097_SET_BEGIN_END set_begin_end ].

(** ** Textures *)

Definition mark_texture (slot : Z) d : result nv2a :=
  s ← mark NV2A_MAX_TEXTURES slot (texture_dirty (pgraph_rest d));
  Ok (upd (fun g => g <| texture_dirty := s |>) d).

(** A register of a texture that takes the parameter as it is. *)
Definition set_texture_reg (base reg : Z) : handler := fun d _ method parameter =>
  let slot := (method - base) / 64 in
  d ← pgraph_reg_w d (reg + slot * 4) parameter;
  mark_texture slot d.

Definition set_texture_format : handler := fun d _ method parameter =>
  let slot := (method - NV097_SET_TEXTURE_FORMAT) / 64 in
  let dma_select := GET_MASK parameter NV097_SET_TEXTURE_FORMAT_CONTEXT_DMA =? 2 in
  let cubemap := negb (GET_MASK parameter NV097_SET_TEXTURE_FORMAT_CUBEMAP_ENABLE =? 0) in
  let border_source := GET_MASK parameter NV097_SET_TEXTURE_FORMAT_BORDER_SOURCE in
  let dimensionality := GET_MASK parameter NV097_SET_TEXTURE_FORMAT_DIMENSIONALITY in
  let color_format := GET_MASK parameter NV097_SET_TEXTURE_FORMAT_COLOR in
  let levels := GET_MASK parameter NV097_SET_TEXTURE_FORMAT_MIPMAP_LEVELS in
  let log_width := GET_MASK parameter NV097_SET_TEXTURE_FORMAT_BASE_SIZE_U in
  let log_height := GET_MASK parameter NV097_SET_TEXTURE_FORMAT_BASE_SIZE_V in
  let log_depth := GET_MASK parameter NV097_SET_TEXTURE_FORMAT_BASE_SIZE_P in
  let reg := NV_PGRAPH_TEXFMT0 + slot * 4 in
  d ← pg_set_mask d reg NV_PGRAPH_TEXFMT0_CONTEXT_DMA (Z.b2z dma_select);
  d ← pg_set_mask d reg NV_PGRAPH_TEXFMT0_CUBEMAPENABLE (Z.b2z cubemap);
  d ← pg_set_mask d reg NV_PGRAPH_TEXFMT0_BORDER_SOURCE border_source;
  d ← pg_set_mask d reg NV_PGRAPH_TEXFMT0_DIMENSIONALITY dimensionality;
  d ← pg_set_mask d reg NV_PGRAPH_TEXFMT0_COLOR color_format;
  d ← pg_set_mask d reg NV_PGRAPH_TEXFMT0_MIPMAP_LEVELS levels;
  d ← pg_set_mask d reg NV_PGRAPH_TEXFMT0_BASE_SIZE_U log_width;
  d ← pg_set_mask d reg NV_PGRAPH_TEXFMT0_BASE_SIZE_V log_height;
  d ← pg_set_mask d reg NV_PGRAPH_TEXFMT0_BASE_SIZE_P log_depth;
  mark_texture slot d.

Definition set_texture_palette : handler := fun d _ method parameter =>
  let slot := (method - NV097_SET_TEXTURE_PALETTE) / 64 in
  let dma_select := GET_MASK parameter NV097_SET_TEXTURE_PALETTE_CONTEXT_DMA =? 1 in
  let length := GET_MASK parameter NV097_SET_TEXTURE_PALETTE_LENGTH in
  let offset := GET_MASK parameter NV097_SET_TEXTURE_PALETTE_OFFSET in
  let reg := NV_PGRAPH_TEXPALETTE0 + slot * 4 in
  d ← pg_set_mask d reg NV_PGRAPH_TEXPALETTE0_CONTEXT_DMA (Z.b2z dma_select);
  d ← pg_set_mask d reg NV_PGRAPH_TEXPALETTE0_LENGTH length;
  d ← pg_set_mask d reg NV_PGRAPH_TEXPALETTE0_OFFSET offset;
  mark_texture slot d.

(** The matrices of textures 1 to 3; texture 0 has none. *)
Definition set_texture_set_bump_env_mat : handler := fun d _ method parameter =>
  let slot := (method - NV097_SET_TEXTURE_SET_BUMP_ENV_MAT) / 4 in
  if slot <? 16 then Ok d
  else
    let slot := slot - 16 in
    base ← fetch [NV_PGRAPH_BUMPMAT00; NV_PGRAPH_BUMPMAT01; NV_PGRAPH_BUMPMAT11; NV_PGRAPH_BUMPMAT10]
             (slot mod 4);
    pgraph_reg_w d (base + slot / 4) parameter.

Definition set_bump_env (base reg : Z) : handler := fun d _ method parameter =>
  let slot := (method - base) / 64 in
  if slot =? 0 then Ok d else pgraph_reg_w d (reg + (slot - 1) * 4) parameter.

Definition texture_methods : list Method := [
  DEF_METHOD_CASE_4 NV097_SET_TEXTURE_OFFSET 64
    (set_texture_reg NV097_SET_TEXTURE_OFFSET NV_PGRAPH_TEXOFFSET0);
  DEF_METHOD_CASE_4 NV097_SET_TEXTURE_FORMAT 64 set_texture_format;
  DEF_METHOD_CASE_4 NV097_SET_TEXTURE_CONTROL0 64
    (set_texture_reg NV097_SET_TEXTURE_CONTROL0 NV_PGRAPH_TEXCTL0_0);
  DEF_METHOD_CASE_4 NV097_SET_TEXTURE_CONTROL1 64
    (set_texture_reg NV097_SET_TEXTURE_CONTROL1 NV_PGRAPH_TEXCTL1_0);
  DEF_METHOD_CASE_4 NV097_SET_TEXTURE_FILTER 64
    (set_texture_reg NV097_SET_TEXTURE_FILTER NV_PGRAPH_TEXFILTER0);
  DEF_METHOD_CASE_4 NV097_SET_TEXTURE_IMAGE_RECT 64
    (set_texture_reg NV097_SET_TEXTURE_IMAGE_RECT NV_PGRAPH_TEXIMAGERECT0);
  DEF_METHOD_CASE_4 NV097_SET_TEXTURE_PALETTE 64 set_texture_palette;
  DEF_METHOD_CASE_4 NV097_SET_TEXTURE_BORDER_COLOR 64
    (store_reg_slot NV097_SET_TEXTURE_BORDER_COLOR 64 NV_PGRAPH_BORDERCOLOR0);
  DEF_METHOD_CASE_4 NV097_SET_TEXTURE_SET_BUMP_ENV_MAT 64 set_texture_set_bump_env_mat;
  DEF_METHOD_CASE_4_OFFSET NV097_SET_TEXTURE_SET_BUMP_ENV_MAT 4 64 set_texture_set_bump_env_mat;
  DEF_METHOD_CASE_4_OFFSET NV097_SET_TEXTURE_SET_BUMP_ENV_MAT 8 64 set_texture_set_bump_env_mat;
  DEF_METHOD_CASE_4_OFFSET NV097_SET_TEXTURE_SET_BUMP_ENV_MAT 12 64 set_texture_set_bump_env_mat;
  DEF_METHOD_CASE_4 NV097_SET_TEXTURE_SET_BUMP_ENV_SCALE 64
    (set_bump_env NV097_SET_TEXTURE_SET_BUMP_ENV_SCALE NV_PGRAPH_BUMPSCALE1);
  DEF_METHOD_CASE_4 NV097_SET_TEXTURE_SET_BUMP_ENV_OFFSET 64
    (set_bump_env NV097_SET_TEXTURE_SET_BUMP_ENV_OFFSET NV_PGRAPH_BUMPOFFSET1) ].

(** ** Draws *)

(** [pg->inline_elements[pg->inline_elements_length++] = v]. *)
Definition push_element (v : Z) d : result nv2a :=
  let n := inline_elements_length (drawing_of d) in
  m ← reg_w NV2A_MAX_BATCH_LENGTH n v (inline_elements (drawing_of d));
  Ok (upd_drawing (fun w => w <| inline_elements := m |> <| inline_elements_length := n + 1 |>) d).

(** The elements [start], [start + 1], ... of a range. *)
Definition push_range (start count : Z) d : result nv2a :=
  for_loop (Z.to_nat count) 0 (fun i d => push_element (u32 (start + i)) d) d.

(** Sizes of [draw_arrays_start] and [draw_arrays_count]. *)
Definition MAX_DRAW_ARRAYS : Z := 1250.

Definition pgraph_expand_draw_arrays d : result nv2a :=
  let w := drawing_of d in
  start ← reg_r MAX_DRAW_ARRAYS (draw_arrays_start w) (draw_arrays_length w - 1);
  count ← reg_r MAX_DRAW_ARRAYS (draw_arrays_count w) (draw_arrays_length w - 1);
  d ← (if 1 <? draw_arrays_length w
       then d ← render FlushDraw d; Ok (pgraph_reset_inline_buffers d)
       else Ok d);
  _ ← check (u32 (inline_elements_length (drawing_of d) + u32 count) <? NV2A_MAX_BATCH_LENGTH)
        "(pg->inline_elements_length + count) < NV2A_MAX_BATCH_LENGTH";
  d ← push_range start (u32 count) d;
  Ok (pgraph_reset_draw_arrays d).

(** The expansion of a pending DRAW_ARRAYS before an element, and the check of
    the length that follows. *)
Definition begin_element d : result nv2a :=
  d ← (if draw_arrays_length (drawing_of d) =? 0 then Ok d else pgraph_expand_draw_arrays d);
  _ ← check (inline_elements_length (drawing_of d) <? NV2A_MAX_BATCH_LENGTH)
        "pg->inline_elements_length < NV2A_MAX_BATCH_LENGTH";
  Ok d.

Definition array_element16 : handler := fun d _ _ parameter =>
  d ← begin_element d;
  d ← push_element (low16 parameter) d;
  push_element (high16 parameter) d.

Definition array_element32 : handler := fun d _ _ parameter =>
  d ← begin_element d; push_element parameter d.

(** A new entry of the arrays to draw. *)
Definition push_draw_array (start count : Z) d : result nv2a :=
  let n := draw_arrays_length (drawing_of d) in
  s ← reg_w MAX_DRAW_ARRAYS n start (draw_arrays_start (drawing_of d));
  c ← reg_w MAX_DRAW_ARRAYS n count (draw_arrays_count (drawing_of d));
  Ok (upd_drawing (fun w => w <| draw_arrays_start := s |> <| draw_arrays_count := c |>
                              <| draw_arrays_length := n + 1 |>
                              <| draw_arrays_prevent_connect := false |>) d).

Definition draw_arrays : handler := fun d _ _ parameter =>
  let start := GET_MASK parameter NV097_DRAW_ARRAYS_START_INDEX in
  let count := GET_MASK parameter NV097_DRAW_ARRAYS_COUNT + 1 in
  let w := drawing_of d in
  if negb (inline_elements_length w =? 0) then
    _ ← check (u32 (inline_elements_length w + count) <? NV2A_MAX_BATCH_LENGTH)
          "(pg->inline_elements_length + count) < NV2A_MAX_BATCH_LENGTH";
    _ ← check (negb (draw_arrays_prevent_connect w)) "!pg->draw_arrays_prevent_connect";
    push_range start count d
  else
    let d := upd_drawing (fun w =>
      w <| draw_arrays_min_start := Z.min (draw_arrays_min_start w) start |>
        <| draw_arrays_max_count := Z.max (draw_arrays_max_count w) (start + count) |>) d in
    _ ← check (draw_arrays_length w <? MAX_DRAW_ARRAYS)
          "pg->draw_arrays_length < ARRAY_SIZE(pg->draw_arrays_start)";
    if negb (draw_arrays_prevent_connect w) && (0 <? draw_arrays_length w) then
      last_start ← reg_r MAX_DRAW_ARRAYS (draw_arrays_start w) (draw_arrays_length w - 1);
      last_count ← reg_r MAX_DRAW_ARRAYS (draw_arrays_count w) (draw_arrays_length w - 1);
      if start =? u32 (last_start + last_count) then
        c ← reg_w MAX_DRAW_ARRAYS (draw_arrays_length w - 1) (s32 (last_count + count))
              (draw_arrays_count w);
        Ok (upd_drawing (fun w => w <| draw_arrays_count := c |>) d)
      else push_draw_array start count d
    else push_draw_array start count d.

Definition inline_array_word : handler := fun d _ _ parameter =>
  let n := inline_array_length (drawing_of d) in
  _ ← check (n <? NV2A_MAX_BATCH_LENGTH) "pg->inline_array_length < NV2A_MAX_BATCH_LENGTH";
  m ← reg_w NV2A_MAX_BATCH_LENGTH n parameter (inline_array (drawing_of d));
  Ok (upd_drawing (fun w => w <| inline_array := m |> <| inline_array_length := n + 1 |>) d).

Definition set_vertex_data2f_m : handler := fun d _ method parameter =>
  let slot := (method - NV097_SET_VERTEX_DATA2F_M) / 4 in
  let part := slot mod 2 in
  let slot := slot / 2 in
  d ← set_inline_values slot [(part, parameter); (2, bits_zero); (3, bits_one)] d;
  if (slot =? 0) && (part =? 1) then pgraph_finish_inline_buffer_vertex d else Ok d.

Definition set_vertex_data4f_m : handler := fun d _ method parameter =>
  let slot := (method - NV097_SET_VERTEX_DATA4F_M) / 4 in
  let part := slot mod 4 in
  let slot := slot / 4 in
  d ← set_inline_values slot [(part, parameter)] d;
  if (slot =? 0) && (part =? 3) then pgraph_finish_inline_buffer_vertex d else Ok d.

Definition set_vertex_data2s : handler := fun d _ method parameter =>
  let slot := (method - NV097_SET_VERTEX_DATA2S) / 4 in
  d ← set_inline_values slot
        [(0, short_float (low16 parameter)); (1, short_float (high16 parameter)); (2, bits_zero);
         (3, bits_one)] d;
  if slot =? 0 then pgraph_finish_inline_buffer_vertex d else Ok d.

Definition set_vertex_data4ub : handler := fun d _ method parameter =>
  let slot := (method - NV097_SET_VERTEX_DATA4UB) / 4 in
  d ← set_inline_values slot
        [(0, byte_norm_d (byte_of parameter 0)); (1, byte_norm_d (byte_of parameter 1));
         (2, byte_norm_d (byte_of parameter 2)); (3, byte_norm_d (byte_of parameter 3))] d;
  if slot =? 0 then pgraph_finish_inline_buffer_vertex d else Ok d.

Definition set_vertex_data4s_m : handler := fun d _ method parameter =>
  let slot := (method - NV097_SET_VERTEX_DATA4S_M) / 4 in
  let part := slot mod 2 in
  let slot := slot / 2 in
  d ← set_inline_values slot
        [(part * 2 + 0, short_float (low16 parameter)); (part * 2 + 1, short_float (high16 parameter))] d;
  if (slot =? 0) && (part =? 1) then pgraph_finish_inline_buffer_vertex d else Ok d.

Definition draw_methods : list Method := [
  DEF_METHOD_NON_INC NV097_ARRAY_ELEMENT16 array_element16;
  DEF_METHOD_NON_INC NV097_ARRAY_ELEMENT32 array_element32;
  DEF_METHOD NV097_DRAW_ARRAYS draw_arrays;
  DEF_METHOD_NON_INC NV097_INLINE_ARRAY inline_array_word;
  DEF_METHOD_RANGE NV097_SET_EYE_VECTOR 3 (store_reg_slot NV097_SET_EYE_VECTOR 4 NV_PGRAPH_EYEVEC0);
  DEF_METHOD_RANGE NV097_SET_VERTEX_DATA2F_M 32 set_vertex_data2f_m;
  DEF_METHOD_RANGE NV097_SET_VERTEX_DATA4F_M 64 set_vertex_data4f_m;
  DEF_METHOD_RANGE NV097_SET_VERTEX_DATA2S 16 set_vertex_data2s;
  DEF_METHOD_RANGE NV097_SET_VERTEX_DATA4UB 16 set_vertex_data4ub;
  DEF_METHOD_RANGE NV097_SET_VERTEX_DATA4S_M 32 set_vertex_data4s_m ].

(** ** Semaphores, clears and shaders *)

(** A little-endian store of [n] bytes in video memory, [stl_le_p] of four. *)
Definition st_le_p (n : nat) (a v : Z) d : result nv2a :=
  if (0 <=? a) && (a + Z.of_nat n <=? vram_size d)
  then Ok (d <| vram ::= fun m => store_bytes m a (le_bytes n v) |>)
  else Fault OutOfBounds.
Definition stl_le_p : Z -> Z -> nv2a -> result nv2a := st_le_p 4.

Definition back_end_write_semaphore_release : handler := fun d _ _ parameter =>
  d ← surface_update d;
  let semaphore_offset := rd (pgraph_regs d) NV_PGRAPH_SEMAPHOREOFFSET in
  '(semaphore_data, semaphore_dma_len) ← nv_dma_map d (dma_semaphore (pgraph_rest d));
  _ ← check (semaphore_offset <? semaphore_dma_len) "semaphore_offset < semaphore_dma_len";
  stl_le_p (semaphore_data + semaphore_offset) parameter d.

Definition set_zmin_max_control : handler := fun d _ _ parameter =>
  v ← select_or_stop
    [ (NV097_SET_ZMIN_MAX_CONTROL_ZCLAMP_EN_CULL, NV_PGRAPH_ZCOMPRESSOCCLUDE_ZCLAMP_EN_CULL);
      (NV097_SET_ZMIN_MAX_CONTROL_ZCLAMP_EN_CLAMP, NV_PGRAPH_ZCOMPRESSOCCLUDE_ZCLAMP_EN_CLAMP) ]
    (GET_MASK parameter NV097_SET_ZMIN_MAX_CONTROL_ZCLAMP_EN) "Invalid zclamp value";
  pg_set_mask d NV_PGRAPH_ZCOMPRESSOCCLUDE NV_PGRAPH_ZCOMPRESSOCCLUDE_ZCLAMP_EN v.

Definition set_shadow_zslope_threshold : handler := fun d _ _ parameter =>
  d ← pgraph_reg_w d NV_PGRAPH_SHADOWZSLOPETHRESHOLD parameter;
  _ ← check (parameter =? 0x7F800000) "parameter == 0x7F800000";
  Ok d.

Definition set_transform_data : handler := fun d _ method parameter =>
  let slot := (method - NV097_SET_TRANSFORM_DATA) / 4 in
  v0 ← blit (vertex_state_shader_v0 (pgraph_rest d)) slot [parameter];
  Ok (upd (fun g => g <| vertex_state_shader_v0 := v0 |>) d).

(** The program starts at a row of [program_data] and may use all rows after
    it. *)
Definition launch_transform_program : handler := fun d _ _ parameter =>
  _ ← check (parameter <? NV2A_MAX_TRANSFORM_PROGRAM_LENGTH)
        "program_start < NV2A_MAX_TRANSFORM_PROGRAM_LENGTH";
  let program := load_bytes (program_data (pgraph_rest d)) (4 * parameter)
                   (Z.to_nat (4 * (NV2A_MAX_TRANSFORM_PROGRAM_LENGTH - parameter))) in
  match nv2a_vsh_execute program (vertex_state_shader_v0 (pgraph_rest d)) (vsh_constants d) with
  | None => Fault (AssertFail "result == NV2AVPR_SUCCESS")
  | Some (constants, rows) =>
      Ok (upd (fun g => g <| vsh_constants_dirty ::= fun s => rows ∪ s |>)
            (d <| vsh_constants := constants |>))
  end.

Definition set_transform_execution_mode : handler := fun d _ _ parameter =>
  d ← pg_set_mask d NV_PGRAPH_CSV0_D NV_PGRAPH_CSV0_D_MODE
        (GET_MASK parameter NV097_SET_TRANSFORM_EXECUTION_MODE_MODE);
  pg_set_mask d NV_PGRAPH_CSV0_D NV_PGRAPH_CSV0_D_RANGE_MODE
    (GET_MASK parameter NV097_SET_TRANSFORM_EXECUTION_MODE_RANGE_MODE).

(** A load pointer or start row that is checked against its limit. *)
Definition set_limited (limit reg mask : Z) (what : string) : handler := fun d _ _ parameter =>
  _ ← check (parameter <? limit) what; pg_set_mask d reg mask parameter.

Definition shader_methods : list Method := [
  DEF_METHOD NV097_SET_SEMAPHORE_OFFSET (store_reg NV_PGRAPH_SEMAPHOREOFFSET);
  DEF_METHOD NV097_BACK_END_WRITE_SEMAPHORE_RELEASE back_end_write_semaphore_release;
  DEF_METHOD NV097_SET_ZMIN_MAX_CONTROL set_zmin_max_control;
  DEF_METHOD NV097_SET_ANTI_ALIASING_CONTROL (fun d _ _ parameter =>
    pg_set_mask d NV_PGRAPH_ANTIALIASING NV_PGRAPH_ANTIALIASING_ENABLE
      (GET_MASK parameter NV097_SET_ANTI_ALIASING_CONTROL_ENABLE));
  DEF_METHOD NV097_SET_ZSTENCIL_CLEAR_VALUE (store_reg NV_PGRAPH_ZSTENCILCLEARVALUE);
  DEF_METHOD NV097_SET_COLOR_CLEAR_VALUE (store_reg NV_PGRAPH_COLORCLEARVALUE);
  DEF_METHOD NV097_CLEAR_SURFACE (fun d _ _ parameter => render (ClearSurface parameter) d);
  DEF_METHOD NV097_SET_CLEAR_RECT_HORIZONTAL (store_reg NV_PGRAPH_CLEARRECTX);
  DEF_METHOD NV097_SET_CLEAR_RECT_VERTICAL (store_reg NV_PGRAPH_CLEARRECTY);
  DEF_METHOD_RANGE NV097_SET_SPECULAR_FOG_FACTOR 2
    (store_reg_slot NV097_SET_SPECULAR_FOG_FACTOR 4 NV_PGRAPH_SPECFOGFACTOR0);
  DEF_METHOD_RANGE NV097_SET_SPECULAR_PARAMS_BACK 6 set_specular_params_back;
  DEF_METHOD NV097_SET_SHADER_CLIP_PLANE_MODE (store_reg NV_PGRAPH_SHADERCLIPMODE);
  DEF_METHOD_RANGE NV097_SET_COMBINER_COLOR_OCW 8
    (store_reg_slot NV097_SET_COMBINER_COLOR_OCW 4 NV_PGRAPH_COMBINECOLORO0);
  DEF_METHOD NV097_SET_COMBINER_CONTROL (store_reg NV_PGRAPH_COMBINECTL);
  DEF_METHOD NV097_SET_SHADOW_ZSLOPE_THRESHOLD set_shadow_zslope_threshold;
  DEF_METHOD NV097_SET_SHADOW_DEPTH_FUNC (store_field NV_PGRAPH_SHADOWCTL NV_PGRAPH_SHADOWCTL_SHADOW_ZFUNC);
  DEF_METHOD NV097_SET_SHADER_STAGE_PROGRAM (store_reg NV_PGRAPH_SHADERPROG);
  DEF_METHOD NV097_SET_DOT_RGBMAPPING (fun d _ _ parameter =>
    pg_set_mask d NV_PGRAPH_SHADERCTL 0xFFF (GET_MASK parameter 0xFFF));
  DEF_METHOD NV097_SET_SHADER_OTHER_STAGE_INPUT (fun d _ _ parameter =>
    pg_set_mask d NV_PGRAPH_SHADERCTL 0xFFFF000 (GET_MASK parameter 0xFFFF000));
  DEF_METHOD_RANGE NV097_SET_TRANSFORM_DATA 4 set_transform_data;
  DEF_METHOD NV097_LAUNCH_TRANSFORM_PROGRAM launch_transform_program;
  DEF_METHOD NV097_SET_TRANSFORM_EXECUTION_MODE set_transform_execution_mode;
  DEF_METHOD NV097_SET_TRANSFORM_PROGRAM_CXT_WRITE_EN
    (assign (fun p g => g <| enable_vertex_program_write := negb (p =? 0) |>));
  DEF_METHOD NV097_SET_TRANSFORM_PROGRAM_LOAD
    (set_limited NV2A_MAX_TRANSFORM_PROGRAM_LENGTH NV_PGRAPH_CHEOPS_OFFSET
       NV_PGRAPH_CHEOPS_OFFSET_PROG_LD_PTR "parameter < NV2A_MAX_TRANSFORM_PROGRAM_LENGTH");
  DEF_METHOD NV097_SET_TRANSFORM_PROGRAM_START
    (set_limited NV2A_MAX_TRANSFORM_PROGRAM_LENGTH NV_PGRAPH_CSV0_C
       NV_PGRAPH_CSV0_C_CHEOPS_PROGRAM_START "parameter < NV2A_MAX_TRANSFORM_PROGRAM_LENGTH");
  DEF_METHOD NV097_SET_TRANSFORM_CONSTANT_LOAD
    (set_limited NV2A_VERTEXSHADER_CONSTANTS NV_PGRAPH_CHEOPS_OFFSET
       NV_PGRAPH_CHEOPS_OFFSET_CONST_LD_PTR "parameter < NV2A_VERTEXSHADER_CONSTANTS") ].

(** [pgraph_kelvin_methods]. *)
Definition pgraph_kelvin_methods : list Method :=
  object_methods ++ surface_methods ++ fixed_methods ++ enable_methods ++ blend_methods ++
  polygon_methods ++ matrix_methods ++ light_methods ++ vertex_methods ++ array_methods ++
  texture_methods ++ draw_methods ++ shader_methods.

End Methods.
