(* ===== verification/PgraphDispatch.v ===== *)
(** Methods of the graphics classes (pgraph.c): the choice of a handler of the
    3D class and the words of a command it takes at once, the methods of the 2D
    classes, [pgraph_method], which the FIFO calls, the null renderer
    (null/renderer.c) and the state [pgraph_init] makes. *)

From Stdlib Require Import SpecFloat.
From S2P Require Import Prelude CFloat Nv2a Pfifo PgraphRegs PgraphState PgraphMethods.

Section Dispatch.
Context {R V : Type} {renderer : Renderer R V} {vsh : VshEmulator}.

Abbreviation nv2a := (NV2AState (PGRAPHState R) V).
Implicit Types d : nv2a.

(** ** Handlers of the 3D class *)

(** The entry of [pgraph_kelvin_methods] of an address; its index is the
    address divided by four. *)
Definition kelvin_method (method : Z) : option (@Method R V) :=
  List.find (fun m => existsb (fun a => a / 4 =? method / 4) (m_addrs m)) pgraph_kelvin_methods.

(** [ldl_le_p(parameters + i)]. *)
Definition parameter_at d (parameters i : Z) : result Z :=
  ldl_le_p (vram_size d) (vram d) (parameters + 4 * i).

(** The loop of [pgraph_method_inc] and, with [step] 0, of
    [pgraph_method_non_inc]. *)
Definition method_loop (h : @handler R V) (step count : Z) d (subchannel method parameters : Z) : result nv2a :=
  for_loop (Z.to_nat count) 0
    (fun i d => parameter ← parameter_at d parameters i; h d subchannel (method + step * i) parameter) d.

Definition pgraph_method_inc (h : handler) (end_addr : Z) d
    (subchannel method parameter parameters num_words_available : Z) (inc : bool) : result (nv2a * Z) :=
  if negb inc then d ← h d subchannel method parameter; Ok (d, 1)
  else
    let count := Z.min num_words_available ((end_addr - method) / 4) in
    d ← method_loop h 4 count d subchannel method parameters; Ok (d, count).

Definition pgraph_method_non_inc (h : handler) d
    (subchannel method parameter parameters num_words_available : Z) (inc : bool) : result (nv2a * Z) :=
  if inc then d ← h d subchannel method parameter; Ok (d, 1)
  else
    d ← method_loop h 0 num_words_available d subchannel method parameters; Ok (d, num_words_available).

(** A handler with its way of taking words, which gives
    [num_words_consumed]. *)
Definition run_method (m : Method) d (subchannel method parameter parameters num_words_available : Z)
    (inc : bool) : result (nv2a * Z) :=
  match m_dispatch m with
  | One => d ← m_handler m d subchannel method parameter; Ok (d, 1)
  | Increasing end_addr =>
      pgraph_method_inc (m_handler m) end_addr d subchannel method parameter parameters
        num_words_available inc
  | Same =>
      pgraph_method_non_inc (m_handler m) d subchannel method parameter parameters
        num_words_available inc
  end.

(** [LAM(i, mthd)] and [LAMP(i, mthd, prm)]. *)
Definition LAM d (parameters i mthd : Z) : result bool :=
  w ← parameter_at d parameters (i * 2 + 1); Ok (Z.land w 0x31fff =? mthd).
Definition LAMP d (parameters i mthd prm : Z) : result bool :=
  b ← LAM d parameters i mthd;
  if (b : bool) then w ← parameter_at d parameters (i * 2 + 2); Ok (w =? prm) else Ok false.

(** The condition for squashing END, BEGIN of the same primitive and a
    DRAW_ARRAYS that follow a DRAW_ARRAYS. *)
Definition squash d (method parameters max_lookahead_words : Z) : result bool :=
  let w := drawing_of d in
  if (method =? NV097_DRAW_ARRAYS) && (7 <=? max_lookahead_words) && (inline_elements_length w =? 0) &&
     (draw_arrays_length w <? MAX_DRAW_ARRAYS - 1) then
    b ← LAMP d parameters 0 NV097_SET_BEGIN_END NV097_SET_BEGIN_END_OP_END;
    if (b : bool) then
      b ← LAMP d parameters 1 NV097_SET_BEGIN_END (primitive_mode w);
      if (b : bool) then LAM d parameters 2 NV097_DRAW_ARRAYS else Ok false
    else Ok false
  else Ok false.

Definition kelvin d (subchannel method parameter parameters num_words_available max_lookahead_words : Z)
    (inc : bool) : result (nv2a * Z) :=
  match kelvin_method method with
  | None => Ok (d, 1)
  | Some m =>
      '(d, num_words_consumed) ←
        run_method m d subchannel method parameter parameters num_words_available inc;
      b ← squash d method parameters max_lookahead_words;
      Ok (if (b : bool)
          then (upd_drawing (fun w => w <| draw_arrays_prevent_connect := true |>) d,
                num_words_consumed + 4)
          else (d, num_words_consumed))
  end.

(** ** The 2D classes *)

Definition beta_method d (method parameter : Z) : nv2a :=
  if method =? NV012_SET_OBJECT then upd (fun g => g <| beta ::= fun b => b <| beta_object := parameter |> |>) d
  else if method =? NV012_SET_BETA then
    let v := if has parameter 0x80000000 then 0 else Z.land parameter 0x7f800000 in
    upd (fun g => g <| beta ::= fun b => b <| beta_factor := v |> |>) d
  else d.

Definition pattern_method d (method parameter : Z) : result nv2a :=
  if method =? NV044_SET_MONOCHROME_COLOR0 then pgraph_reg_w d NV_PGRAPH_PATT_COLOR0 parameter else Ok d.

Definition upd_surfaces_2d (h : ContextSurfaces2D -> ContextSurfaces2D) d : nv2a :=
  upd (fun g => g <| context_surfaces_2d ::= h |>) d.

Definition surfaces_2d_method d (method parameter : Z) : nv2a :=
  if method =? NV062_SET_OBJECT then upd_surfaces_2d (fun s => s <| surfaces_object := parameter |>) d
  else if method =? NV062_SET_CONTEXT_DMA_IMAGE_SOURCE then
    upd_surfaces_2d (fun s => s <| dma_image_source := parameter |>) d
  else if method =? NV062_SET_CONTEXT_DMA_IMAGE_DESTIN then
    upd_surfaces_2d (fun s => s <| dma_image_dest := parameter |>) d
  else if method =? NV062_SET_COLOR_FORMAT then
    upd_surfaces_2d (fun s => s <| surfaces_format := parameter |>) d
  else if method =? NV062_SET_PITCH then
    upd_surfaces_2d (fun s => s <| source_pitch := low16 parameter |> <| dest_pitch := high16 parameter |>) d
  else if method =? NV062_SET_OFFSET_SOURCE then
    upd_surfaces_2d (fun s => s <| source_offset := Z.land parameter 0x07FFFFFF |>) d
  else if method =? NV062_SET_OFFSET_DESTIN then
    upd_surfaces_2d (fun s => s <| dest_offset := Z.land parameter 0x07FFFFFF |>) d
  else d.

Definition upd_blit (h : ImageBlit -> ImageBlit) d : nv2a := upd (fun g => g <| image_blit ::= h |>) d.

Definition blit_method d (method parameter : Z) : result nv2a :=
  if method =? NV09F_SET_OBJECT then Ok (upd_blit (fun b => b <| blit_object := parameter |>) d)
  else if method =? NV09F_SET_CONTEXT_SURFACES then
    Ok (upd_blit (fun b => b <| context_surfaces := parameter |>) d)
  else if method =? NV09F_SET_OPERATION then Ok (upd_blit (fun b => b <| operation := parameter |>) d)
  else if method =? NV09F_CONTROL_POINT_IN then
    Ok (upd_blit (fun b => b <| in_x := low16 parameter |> <| in_y := high16 parameter |>) d)
  else if method =? NV09F_CONTROL_POINT_OUT then
    Ok (upd_blit (fun b => b <| out_x := low16 parameter |> <| out_y := high16 parameter |>) d)
  else if method =? NV09F_SIZE then
    let d := upd_blit (fun b => b <| blit_width := low16 parameter |> <| blit_height := high16 parameter |>) d in
    let b := image_blit (pgraph_rest d) in
    if negb (blit_width b =? 0) && negb (blit_height b =? 0) then render BlitImage d else Ok d
  else Ok d.

(** ** [pgraph_method] *)

(** SET_OBJECT: the words of the object go into the cache of its subchannel. *)
Definition set_object d (subchannel parameter : Z) : result nv2a :=
  _ ← check (parameter <? ramin_size d) "parameter < memory_region_size(&d->ramin)";
  ctx_1 ← ldl_le_p (ramin_size d) (ramin d) parameter;
  ctx_2 ← ldl_le_p (ramin_size d) (ramin d) (parameter + 4);
  ctx_3 ← ldl_le_p (ramin_size d) (ramin d) (parameter + 8);
  ctx_4 ← ldl_le_p (ramin_size d) (ramin d) (parameter + 12);
  d ← pgraph_reg_w d (NV_PGRAPH_CTX_CACHE1 + subchannel * 4) ctx_1;
  d ← pgraph_reg_w d (NV_PGRAPH_CTX_CACHE2 + subchannel * 4) ctx_2;
  d ← pgraph_reg_w d (NV_PGRAPH_CTX_CACHE3 + subchannel * 4) ctx_3;
  d ← pgraph_reg_w d (NV_PGRAPH_CTX_CACHE4 + subchannel * 4) ctx_4;
  pgraph_reg_w d (NV_PGRAPH_CTX_CACHE5 + subchannel * 4) parameter.

Definition copy_reg (to from : Z) d : result nv2a := v ← pgraph_reg_r d from; pgraph_reg_w d to v.

Definition load_context d (subchannel : Z) : result nv2a :=
  d ← copy_reg NV_PGRAPH_CTX_SWITCH1 (NV_PGRAPH_CTX_CACHE1 + subchannel * 4) d;
  d ← copy_reg NV_PGRAPH_CTX_SWITCH2 (NV_PGRAPH_CTX_CACHE2 + subchannel * 4) d;
  d ← copy_reg NV_PGRAPH_CTX_SWITCH3 (NV_PGRAPH_CTX_CACHE3 + subchannel * 4) d;
  d ← copy_reg NV_PGRAPH_CTX_SWITCH4 (NV_PGRAPH_CTX_CACHE4 + subchannel * 4) d;
  copy_reg NV_PGRAPH_CTX_SWITCH5 (NV_PGRAPH_CTX_CACHE5 + subchannel * 4) d.

(** The part before the switch on the class. *)
Definition enter_method d (subchannel method parameter : Z) : result nv2a :=
  _ ← check (negb (PG_GET_MASK d NV_PGRAPH_CTX_CONTROL NV_PGRAPH_CTX_CONTROL_CHID =? 0)) "channel_valid";
  _ ← check (subchannel <? 8) "subchannel < 8";
  d ← (if method =? NV_SET_OBJECT then set_object d subchannel parameter else Ok d);
  load_context d subchannel.

Definition graphics_class d : Z := PG_GET_MASK d NV_PGRAPH_CTX_SWITCH1 NV_PGRAPH_CTX_SWITCH1_GRCLASS.

Definition pgraph_method d (subchannel method parameter parameters num_words_available
    max_lookahead_words : Z) (inc : bool) : result (nv2a * Z) :=
  d ← enter_method d subchannel method parameter;
  _ ← check ((subchannel =? 0) || negb (graphics_class d =? 0x97)) "graphics_class != 0x97";
  let class := graphics_class d in
  if class =? NV_BETA then Ok (beta_method d method parameter, 1)
  else if class =? NV_CONTEXT_PATTERN then d ← pattern_method d method parameter; Ok (d, 1)
  else if class =? NV_CONTEXT_SURFACES_2D then Ok (surfaces_2d_method d method parameter, 1)
  else if class =? NV_IMAGE_BLIT then d ← blit_method d method parameter; Ok (d, 1)
  else if class =? NV_KELVIN_PRIMITIVE then
    kelvin d subchannel method parameter parameters num_words_available max_lookahead_words inc
  else Ok (d, 1).

(** The engine the FIFO drives; [process] and [reports] are the renderer's work
    outside of methods. *)
Definition pgraph_engine (process reports : nv2a -> nv2a) : PgraphEngine (PGRAPHState R) V :=
  {| Pfifo.pgraph_method := pgraph_method;
     Pfifo.pgraph_process_pending := process;
     Pfifo.pgraph_process_pending_reports := reports |}.

(** ** Reports *)

Definition pgraph_write_zpass_pixel_cnt_report d (parameter count : Z) : result nv2a :=
  let timestamp := 0x0011223344556677 in
  let done := 0 in
  '(report_data, report_dma_len) ← nv_dma_map d (dma_report (pgraph_rest d));
  let offset := GET_MASK parameter NV097_GET_REPORT_OFFSET in
  _ ← check (offset <? report_dma_len) "offset < report_dma_len";
  d ← st_le_p 8 (report_data + offset) timestamp d;
  d ← st_le_p 4 (report_data + offset + 8) count d;
  st_le_p 4 (report_data + offset + 12) done d.

(** ** Initial state *)

Definition new_attribute : VertexAttribute := mkAttr false 0 [0; 0; 0; 0] 0 0 0 0 ∅ false.

(** A device is allocated with all its fields zero. *)
Definition pgraph_zero (r : R) : PGRAPHState R :=
  mkPGRAPH 0 (mkSurfaces2D 0 0 0 0 0 0 0 0) (mkBlit 0 0 0 0 0 0 0 0 0) 0 (mkBeta 0 0) 0 0
    (mkSurface false false false 0 0) (mkSurface false false false 0 0) 0
    (mkShape 0 0 0 0 0 0 0 0 0 0) 0 0 ∅ ∅ 0 0 0 0 false 0 0 false [0; 0; 0; 0] ∅ false ∅
    (mkLighting ∅ ∅ ∅ ∅ ∅ ∅ 0 ∅ ∅ ∅ ∅ [0; 0; 0; 0; 0; 0] f_zero [0; 0; 0; 0; 0; 0] f_zero
       [0; 0; 0; 0; 0; 0; 0; 0])
    0 0 0 0
    (mkDrawing 0 (repeat new_attribute 16) 0 ∅ 0 ∅ 0 0 0 0 ∅ ∅ false) r.

(** The inline buffers are fresh memory, read only where it has been written. *)
Definition pgraph_init d : nv2a :=
  let d := upd (fun g => g <| frame_time := 0 |>
                           <| lighting ::= fun l => l <| material_alpha := bits_zero |> |>) d in
  let d := PG_SET_MASK NV_PGRAPH_CONTROL_3 NV_PGRAPH_CONTROL_3_SHADEMODE
             NV_PGRAPH_CONTROL_3_SHADEMODE_SMOOTH d in
  let d := upd_drawing (fun w =>
    w <| primitive_mode := PRIM_TYPE_INVALID |>
      <| vertex_attributes ::= fmap (fun a => a <| inline_buffer := ∅ |> <| inline_buffer_populated := false |>) |>) d in
  d <| regs_dirty := ∅ |>.

End Dispatch.

(** ** The null renderer (null/renderer.c) *)

Definition pgraph_null_get_report {V} (d : NV2AState (PGRAPHState unit) V) (parameter : Z) :=
  pgraph_write_zpass_pixel_cnt_report d parameter 0.

Definition pgraph_null_renderer {V} : Renderer unit V := fun op d =>
  match op with GetReport parameter => pgraph_null_get_report d parameter | _ => Ok d end.
