(* ===== verification/PgraphSafe.v ===== *)
(** Memory safety of the methods of the 3D class, and the coherence of what a
    renderer caches.

    The invariant [inv] bounds every array index a method computes and says
    that a renderer's copy of a register, of the transform constants, of the
    lighting context or of the vertex program may differ from the current value
    only where the dirty flags say so.  Every handler of the table keeps it, and
    stops only in ways that are listed in [allowed]; so does [pgraph_method] on
    any batch of words. *)

From S2P Require Import Prelude CFloat Nv2a Pfifo PgraphRegs PgraphState PgraphMethods PgraphDispatch.

(** ** The invariant *)

(** What a renderer has copied at its last update. *)
Record Cache := mkCache {
  cached_regs : mem;
  cached_constants : mem;
  cached_ltctxa : mem;
  cached_ltctxb : mem;
  cached_ltc1 : mem;
  cached_program : mem;
}.

(** Cells that differ from the copy are in rows, of [w] cells, that are marked. *)
Definition stale_marked (w : Z) (now cached : mem) (dirty : gset Z) : Prop :=
  forall i, rd now i <> rd cached i -> i / w ∈ dirty.

(** A range of DRAW_ARRAYS. *)
Definition range_ok (start count : Z) : Prop := 0 <= start /\ 0 < count /\ start + count < 2 ^ 24 + 256.

Record drawing_ok (w : Drawing) : Prop := {
  ok_attributes : length (vertex_attributes w) = 16%nat;
  ok_values : Forall (fun a => length (inline_value a) = 4%nat) (vertex_attributes w);
  ok_array : 0 <= inline_array_length w <= NV2A_MAX_BATCH_LENGTH;
  ok_elements : 0 <= inline_elements_length w <= NV2A_MAX_BATCH_LENGTH;
  ok_buffer : 0 <= inline_buffer_length w <= NV2A_MAX_BATCH_LENGTH;
  ok_draws : 0 <= draw_arrays_length w <= MAX_DRAW_ARRAYS;
  ok_ranges : forall i, 0 <= i < draw_arrays_length w ->
    range_ok (rd (draw_arrays_start w) i) (rd (draw_arrays_count w) i);
}.

Record lighting_ok (l : Lighting) : Prop := {
  ok_specular : length (specular_params l) = 6%nat;
  ok_specular_back : length (specular_params_back l) = 6%nat;
  ok_point : length (point_params l) = 8%nat;
}.

Section Inv.
Context {R V : Type} (cache : R -> Cache) (size : Z).

Abbreviation nv2a := (NV2AState (PGRAPHState R) V).
Implicit Types d : nv2a.

Definition cache_of d : Cache := cache (renderer_state (pgraph_rest d)).

(** Registers and constants are cells; rows of the lighting context and of the
    constants have four. *)
Record coherent d : Prop := {
  coh_regs : stale_marked 4 (pgraph_regs d) (cached_regs (cache_of d)) (regs_dirty d);
  coh_constants : stale_marked 4 (vsh_constants d) (cached_constants (cache_of d))
    (vsh_constants_dirty (pgraph_rest d));
  coh_ltctxa : stale_marked 4 (ltctxa (lighting (pgraph_rest d))) (cached_ltctxa (cache_of d))
    (ltctxa_dirty (lighting (pgraph_rest d)));
  coh_ltctxb : stale_marked 4 (ltctxb (lighting (pgraph_rest d))) (cached_ltctxb (cache_of d))
    (ltctxb_dirty (lighting (pgraph_rest d)));
  coh_ltc1 : stale_marked 4 (ltc1 (lighting (pgraph_rest d))) (cached_ltc1 (cache_of d))
    (ltc1_dirty (lighting (pgraph_rest d)));
  coh_program : program_data_dirty (pgraph_rest d) = false ->
    forall i, rd (program_data (pgraph_rest d)) i = rd (cached_program (cache_of d)) i;
}.

Record inv d : Prop := {
  inv_drawing : drawing_ok (drawing_of d);
  inv_lighting : lighting_ok (lighting (pgraph_rest d));
  inv_v0 : length (vertex_state_shader_v0 (pgraph_rest d)) = 4%nat;
  inv_vram : vram_size d = size;
  inv_coherent : coherent d;
}.

End Inv.

(** ** Cells and marks *)

Lemma stale_same w now cached dirty dirty' :
  stale_marked w now cached dirty -> dirty ⊆ dirty' -> stale_marked w now cached dirty'.
Proof. intros H Hs i Hi. apply Hs, H, Hi. Qed.

Lemma stale_wr w now cached dirty dirty' i v :
  stale_marked w now cached dirty -> dirty ⊆ dirty' -> i / w ∈ dirty' ->
  stale_marked w (wr i v now) cached dirty'.
Proof.
  intros H Hs Hi j Hj. destruct (decide (i = j)) as [<-|Hne]; [done|].
  rewrite rd_wr_ne in Hj by done. apply Hs, H, Hj.
Qed.

(** A store that keeps the value of its cell. *)
Lemma stale_wr_same w now cached dirty i v :
  stale_marked w now cached dirty -> v = rd now i -> stale_marked w (wr i v now) cached dirty.
Proof.
  intros H -> j Hj. apply H. destruct (decide (i = j)) as [<-|Hne]; [by rewrite rd_wr_eq in Hj|].
  by rewrite rd_wr_ne in Hj.
Qed.

Lemma div_row w row col : 0 <= col < w -> (w * row + col) / w = row.
Proof. intros H. rewrite Z.mul_comm, Z.div_add_l, (Z.div_small col) by lia. lia. Qed.

(** [for_loop] with faults. *)
Lemma safe_for_loop {S : Type} F (I : S -> Prop) body n : forall i s,
  I s -> (forall j s, i <= j < i + Z.of_nat n -> I s -> safe F I (body j s)) ->
  safe F I (for_loop n i body s).
Proof.
  induction n as [|n IH]; intros i s H0 Hb; cbn [for_loop]; [done|].
  eapply safe_bind; [apply Hb; [lia|done]|]. intros s1 H1. apply IH; [done|].
  intros j t Hj. apply Hb. lia.
Qed.

Lemma safe_put F rows w row col v m :
  0 <= row < rows -> 0 <= col < w ->
  safe F (fun m' => m' = wr (w * row + col) v m) (put rows w row col v m).
Proof.
  intros Hr Hc. unfold put.
  rewrite (proj2 (Z.leb_le 0 row)), (proj2 (Z.ltb_lt row rows)), (proj2 (Z.leb_le 0 col)),
    (proj2 (Z.ltb_lt col w)) by lia. done.
Qed.

Lemma safe_mark F n i s : 0 <= i < n -> safe F (fun s' => s' = {[ i ]} ∪ s) (mark n i s).
Proof.
  intros Hi. unfold mark. rewrite (proj2 (Z.leb_le 0 i)), (proj2 (Z.ltb_lt i n)) by lia. done.
Qed.

Lemma safe_reg_w_cell F n i v m : 0 <= i < n -> safe F (fun m' => m' = wr i v m) (reg_w n i v m).
Proof.
  intros Hi. unfold reg_w. rewrite (proj2 (Z.leb_le 0 i)), (proj2 (Z.ltb_lt i n)) by lia. done.
Qed.

Lemma safe_reg_r_cell F n i m : 0 <= i < n -> safe F (fun v => v = rd m i) (reg_r n m i).
Proof.
  intros Hi. unfold reg_r. rewrite (proj2 (Z.leb_le 0 i)), (proj2 (Z.ltb_lt i n)) by lia. done.
Qed.

Lemma safe_blit_at F l i x : 0 <= i -> i + Z.of_nat (length x) <= Z.of_nat (length l) ->
  safe F (fun l' => length l' = length l) (blit l i x).
Proof. intros H1 H2. rewrite blit_ok by done. cbn. by rewrite length_inserts. Qed.

(** Addresses of a row of the table. *)
Lemma addresses_in a base count stride : a ∈ addresses base count stride ->
  exists i, 0 <= i < count /\ a = base + stride * i.
Proof.
  unfold addresses. intros (i & -> & Hi)%list_elem_of_fmap. apply elem_of_seq in Hi.
  exists (Z.of_nat i). lia.
Qed.

Lemma slot_of base stride i : 0 < stride -> (base + stride * i - base) / stride = i.
Proof. intros H. replace (base + stride * i - base) with (i * stride) by lia. apply Z.div_mul. lia. Qed.

Lemma elem_range a base count : a ∈ addresses base count 4 -> 0 <= (a - base) / 4 < count.
Proof. intros (i & Hi & ->)%addresses_in. rewrite slot_of by lia. lia. Qed.

Section Safe.
Context {R V : Type} {renderer : Renderer R V} {vsh : VshEmulator}.
Context (cache : R -> Cache) (size : Z) (render_fault : render_op -> fault -> Prop).

Abbreviation nv2a := (NV2AState (PGRAPHState R) V).
Abbreviation inv := (inv (V := V) cache size).
Implicit Types d : nv2a.

(** ** What the methods rely on and how they may stop *)

Definition is_assert (f : fault) : Prop := exists what, f = AssertFail what.

(** A renderer keeps the invariant: its own work leaves the arrays of the draw
    within their bounds, and it clears a mark only when it has made the copy. *)
Class RendererLaws : Prop := {
  render_inv : forall op d, inv d -> safe (fun f => is_assert f \/ render_fault op f) inv (render op d);
}.

(** The emulator of vertex programs reports the rows it writes. *)
Class VshLaws : Prop := {
  vsh_rows : forall program v0 c c' rows, nv2a_vsh_execute program v0 c = Some (c', rows) ->
    forall i, rd c' i <> rd c i -> i / 4 ∈ rows;
}.

(** The methods that use an operation of the renderer; many update the surface. *)
Definition issues (method : Z) (op : render_op) : Prop :=
  match op with
  | SurfaceUpdate _ _ _ => True
  | FlipStall => method = NV097_FLIP_STALL
  | DrawBegin | DrawEnd => method = NV097_SET_BEGIN_END
  | FlushDraw => method = NV097_ARRAY_ELEMENT16 \/ method = NV097_ARRAY_ELEMENT32
  | ClearSurface _ => method = NV097_CLEAR_SURFACE
  | ClearReportValue => method = NV097_CLEAR_REPORT_VALUE
  | GetReport _ => method = NV097_GET_REPORT
  | BlitImage => method = NV09F_SIZE
  | ProcessPendingReports => method = NV097_SET_CONTEXT_DMA_REPORT
  end.

(** Assertions, faults of the renderer, a flip with a modulus of 0, the second
    element of ARRAY_ELEMENT16 in a full array, and a semaphore outside of
    instance or video memory. *)
Definition allowed (method : Z) (f : fault) : Prop :=
  is_assert f \/ (exists op, issues method op /\ render_fault op f) \/
  (method = NV097_FLIP_INCREMENT_WRITE /\ f = DivByZero) \/
  (method = NV097_ARRAY_ELEMENT16 /\ f = OutOfBounds) \/
  (method = NV097_BACK_END_WRITE_SEMAPHORE_RELEASE /\ f = OutOfBounds).

Lemma allowed_assert method what : allowed method (AssertFail what).
Proof. left. by exists what. Qed.

(** The handler of a row, at each of its addresses. *)
Definition handler_ok (a : Z) (h : handler) : Prop :=
  forall d subchannel parameter, inv d -> safe (allowed a) inv (h d subchannel a parameter).
Definition row_ok (m : Method) : Prop := forall a, a ∈ m_addrs m -> handler_ok a (m_handler m).

(** ** Updates *)

(** The state of the engine but for what the invariant is about. *)
Definition frame (g g' : PGRAPHState R) : Prop :=
  drawing g' = drawing g /\ lighting g' = lighting g /\
  vertex_state_shader_v0 g' = vertex_state_shader_v0 g /\
  vsh_constants_dirty g' = vsh_constants_dirty g /\ program_data g' = program_data g /\
  program_data_dirty g' = program_data_dirty g /\ renderer_state g' = renderer_state g.

Lemma coherent_upd h d : coherent cache d -> frame (pgraph_rest d) (h (pgraph_rest d)) ->
  coherent cache (upd h d).
Proof.
  intros [H1 H2 H3 H4 H5 H6] (Ed & El & Ev & Ec & Ep & Epd & Er).
  constructor; unfold cache_of; cbn -[rd]; rewrite ?El, ?Ec, ?Ep, ?Epd, ?Er; done.
Qed.

Lemma inv_upd h d : inv d -> frame (pgraph_rest d) (h (pgraph_rest d)) -> inv (upd h d).
Proof.
  intros [Hd Hl Hv Hs Hc] Hf. pose proof Hf as (Ed & El & Ev & Ec & Ep & Epd & Er).
  constructor.
  - unfold drawing_of. cbn. by rewrite Ed.
  - cbn. by rewrite El.
  - cbn. by rewrite Ev.
  - done.
  - by apply coherent_upd.
Qed.

Lemma inv_upd_drawing h d : inv d -> drawing_ok (h (drawing_of d)) -> inv (upd_drawing h d).
Proof.
  intros [Hd Hl Hv Hs [H1 H2 H3 H4 H5 H6]] H. constructor; try assumption. by constructor.
Qed.

(** The parts of the lighting state with no copy. *)
Definition light_frame (l l' : Lighting) : Prop :=
  ltctxa l' = ltctxa l /\ ltctxa_dirty l' = ltctxa_dirty l /\ ltctxb l' = ltctxb l /\
  ltctxb_dirty l' = ltctxb_dirty l /\ ltc1 l' = ltc1 l /\ ltc1_dirty l' = ltc1_dirty l.

Lemma inv_upd_lighting h d : inv d -> lighting_ok (h (lighting (pgraph_rest d))) ->
  light_frame (lighting (pgraph_rest d)) (h (lighting (pgraph_rest d))) -> inv (upd_lighting h d).
Proof.
  intros [Hd Hl Hv Hs [H1 H2 H3 H4 H5 H6]] H (E1 & E2 & E3 & E4 & E5 & E6).
  constructor; try done.
  constructor; try done; unfold cache_of; cbn -[rd]; rewrite ?E1, ?E2, ?E3, ?E4, ?E5, ?E6; done.
Qed.

Lemma inv_pgraph_set r v d : inv d -> inv (pgraph_set r v d).
Proof.
  intros [Hd Hl Hv Hs [H1 H2 H3 H4 H5 H6]]. constructor; try done. constructor; try done.
  unfold cache_of. cbn -[rd wr]. destruct (rd (pgraph_regs d) r =? v) eqn:E.
  - apply stale_wr_same; [done|]. by apply Z.eqb_eq in E.
  - eapply stale_wr; [exact H1|set_solver|set_solver].
Qed.

(** ** Registers *)

Definition reg_ok (r : Z) : Prop := r mod 4 = 0 /\ 0 <= r < 0x2000.

Lemma safe_pgraph_reg_w a r v d : reg_ok r -> inv d -> safe (allowed a) inv (pgraph_reg_w d r v).
Proof.
  intros [Hm Hr] H. unfold pgraph_reg_w. rewrite Hm. cbn [check Z.eqb mbind result_mbind result_bind].
  eapply safe_bind; [by apply safe_reg_r_cell|]. intros _ _. by apply inv_pgraph_set.
Qed.

Lemma safe_pg_set_mask a r mask v d : reg_ok r -> inv d -> safe (allowed a) inv (pg_set_mask d r mask v).
Proof.
  intros Hr H. unfold pg_set_mask, pgraph_reg_r. rewrite (proj1 Hr).
  cbn [check Z.eqb mbind result_mbind result_bind].
  eapply safe_bind; [apply safe_reg_r_cell, Hr|]. intros rv _. by apply safe_pgraph_reg_w.
Qed.

Lemma reg_ok_slot r i n : r mod 4 = 0 -> 0 <= r -> r + 4 * n <= 0x2000 -> 0 <= i < n -> reg_ok (r + i * 4).
Proof. intros Hm H0 Hn Hi. split; [|lia]. by rewrite Z.mod_add. Qed.

Lemma safe_render a op d {laws : RendererLaws} : issues a op -> inv d ->
  safe (allowed a) inv (render op d).
Proof.
  intros Ha H. pose proof (render_inv op d H) as Hs. destruct (render op d); [done|].
  destruct Hs as [Hs|Hs]; [by left|]. right. left. by exists op.
Qed.

(** ** Steps of handlers *)

Context {rlaws : RendererLaws} {vlaws : VshLaws}.

Lemma safe_asserted {A} a (Q : A -> Prop) b what (k : unit -> result A) :
  (b = true -> safe (allowed a) Q (k tt)) -> safe (allowed a) Q (check b what ≫= k).
Proof.
  intros H. eapply safe_bind; [apply safe_check, allowed_assert|]. intros [] Hb. by apply H.
Qed.

Lemma safe_select {A} a (Q : A -> Prop) cases x what (k : Z -> result A) :
  (forall v, safe (allowed a) Q (k v)) -> safe (allowed a) Q (select_or_stop cases x what ≫= k).
Proof.
  intros H. unfold select_or_stop. destruct (select cases x); [apply H|apply allowed_assert].
Qed.

(** The state outside of the engine. *)
Lemma inv_same d d' : inv d -> pgraph_regs d' = pgraph_regs d -> regs_dirty d' = regs_dirty d ->
  vsh_constants d' = vsh_constants d -> pgraph_rest d' = pgraph_rest d -> vram_size d' = vram_size d ->
  inv d'.
Proof.
  intros [Hd Hl Hv Hs [H1 H2 H3 H4 H5 H6]] E1 E2 E3 E4 E5.
  constructor; [..|constructor]; unfold drawing_of, cache_of in *; by rewrite ?E1, ?E2, ?E3, ?E4, ?E5.
Qed.

Ltac reg := solve [assumption | split; [reflexivity | split; [discriminate|reflexivity]]].

Ltac head_of t := lazymatch t with ?f _ => head_of f | _ => t end.
Ltac sstep :=
  lazymatch goal with
  | |- safe _ _ (check _ _ ≫= _) => apply safe_asserted; intros ?
  | |- safe _ _ (select_or_stop _ _ _ ≫= _) => apply safe_select; intros ?
  | |- safe _ _ (kelvin_map_stencil_op _ ≫= _) => unfold kelvin_map_stencil_op
  | |- safe _ _ (kelvin_map_polygon_mode _ ≫= _) => unfold kelvin_map_polygon_mode
  | |- safe _ _ (kelvin_map_texgen _ _ ≫= _) => unfold kelvin_map_texgen
  | |- safe _ _ ((_ ≫= _) ≫= _) => rewrite result_bind_assoc
  | |- safe _ _ (pg_set_mask _ _ _ _) => apply safe_pg_set_mask; [reg|]
  | |- safe _ _ (pgraph_reg_w _ _ _) => apply safe_pgraph_reg_w; [reg|]
  | |- safe _ _ (surface_update _) => apply safe_render; [exact rlaws|exact I|]
  | |- safe _ _ (render _ _) => apply safe_render; [exact rlaws|first [reflexivity|exact I]|]
  | |- safe _ _ (_ ≫= _) => eapply safe_bind; [|intros ? ?]
  | |- safe _ _ (Ok _) => cbn [safe]
  | |- inv (upd _ _) => apply inv_upd; [|repeat split]
  | |- inv (if ?b then _ else _) => destruct b
  | |- inv (upd_drawing _ _) => fail
  | |- inv (upd_lighting _ _) => fail
  | |- inv _ => match goal with H : inv ?d |- _ => apply (inv_same d _ H); reflexivity end
  | |- safe _ _ (if ?b then _ else _) => destruct b eqn:?
  | |- safe _ _ (match select _ _ with _ => _ end) => destruct (select _ _)
  | |- safe _ _ (let _ := _ in _) => cbv zeta
  | |- safe _ _ (for_loop _ _ _ _) => fail
  | |- safe _ _ (put _ _ _ _ _ _) => fail
  | |- safe _ _ (blit _ _ _) => fail
  | |- safe _ _ (fetch _ _) => fail
  | |- safe _ _ ?c => let h := head_of c in unfold h
  end.
Ltac ssteps := repeat first [match goal with H : inv ?d |- inv ?d => exact H end | sstep].

(** ** Rows *)

Lemma row_one name h : handler_ok name h -> row_ok (DEF_METHOD name h).
Proof. by intros H a ->%list_elem_of_singleton. Qed.
Lemma row_same name h : handler_ok name h -> row_ok (DEF_METHOD_NON_INC name h).
Proof. by intros H a ->%list_elem_of_singleton. Qed.
Lemma row_range name n h : (forall i, 0 <= i < n -> handler_ok (name + 4 * i) h) ->
  row_ok (DEF_METHOD_RANGE name n h).
Proof. intros H a (i & Hi & ->)%addresses_in. by apply H. Qed.
Lemma row_case_4_offset name offset stride h :
  (forall i, 0 <= i < 4 -> handler_ok (name + offset + stride * i) h) ->
  row_ok (DEF_METHOD_CASE_4_OFFSET name offset stride h).
Proof. intros H a (i & Hi & ->)%addresses_in. by apply H. Qed.
Lemma row_case_4 name stride h : (forall i, 0 <= i < 4 -> handler_ok (name + stride * i) h) ->
  row_ok (DEF_METHOD_CASE_4 name stride h).
Proof. intros H. apply row_case_4_offset. intros i Hi. rewrite Z.add_0_r. by apply H. Qed.

Lemma ok_store_field a reg mask : reg_ok reg -> handler_ok a (store_field reg mask).
Proof. intros Hr d s p Hd. by apply safe_pg_set_mask. Qed.
Lemma ok_store_reg a reg : reg_ok reg -> handler_ok a (store_reg reg).
Proof. intros Hr d s p Hd. by apply safe_pgraph_reg_w. Qed.
Lemma ok_assign a h : (forall p g, frame g (h p g)) -> handler_ok a (assign h).
Proof. intros Hf d s p Hd. cbn. by apply inv_upd. Qed.

Lemma ok_slot base stride reg n i : 0 < stride ->
  reg mod 4 = 0 -> 0 <= reg -> reg + 4 * n <= 0x2000 -> 0 <= i < n ->
  handler_ok (base + stride * i) (store_reg_slot base stride reg).
Proof.
  intros Hs Hm H0 Hn Hi d s p Hd. unfold store_reg_slot. rewrite slot_of by done.
  apply safe_pgraph_reg_w; [by apply (reg_ok_slot _ _ n)|done].
Qed.

(** Lemmas on handlers, and arithmetic on numbers of the tables. *)
Create HintDb pgraph.
#[local] Hint Extern 0 (_ <= _ < _) => solve [assumption | lia | split; [discriminate|reflexivity]] : pgraph.
#[local] Hint Extern 0 (_ <= _) => solve [lia | discriminate] : pgraph.
#[local] Hint Extern 0 (_ = _) => reflexivity : pgraph.

Ltac plain :=
  lazymatch goal with
  | |- row_ok (DEF_METHOD _ _) => apply row_one
  | |- row_ok (DEF_METHOD_NON_INC _ _) => apply row_same
  | |- row_ok (DEF_METHOD_RANGE _ _ _) => apply row_range; intros ? ?
  | |- row_ok (DEF_METHOD_CASE_4 _ _ _) => apply row_case_4; intros ? ?
  | |- row_ok (DEF_METHOD_CASE_4_OFFSET _ _ _ _) => apply row_case_4_offset; intros ? ?
  end;
  lazymatch goal with
  | |- handler_ok _ (store_field _ _) => apply ok_store_field; reg
  | |- handler_ok _ (store_reg _) => apply ok_store_reg; reg
  | |- handler_ok _ (assign _) => first [solve [apply ok_assign; intros; repeat split] | auto with pgraph]
  | |- handler_ok _ (store_reg_slot _ _ _) =>
      eapply ok_slot; [reflexivity | reflexivity | discriminate | | eassumption]; discriminate
  | |- handler_ok _ _ =>
      first [solve [eauto with pgraph] | solve [intros d s p Hd; ssteps] | idtac]
  end.

(** The rows of a table, but for those that need more than the steps. *)
Ltac rows := repeat first [exact (Forall_nil_2 _) | apply Forall_cons_2]; try plain.

Lemma ok_flip_increment_write : handler_ok NV097_FLIP_INCREMENT_WRITE flip_increment_write.
Proof. intros d s p Hd. ssteps. cbn [safe]. unfold allowed. tauto. Qed.
#[local] Hint Resolve ok_flip_increment_write : pgraph.

Lemma object_rows : Forall row_ok object_methods.
Proof. unfold object_methods. rows. Qed.

Lemma surface_rows : Forall row_ok surface_methods.
Proof. unfold surface_methods. rows. Qed.

Lemma ok_window_clip base reg i :
  reg mod 4 = 0 -> 0 <= reg -> reg + 4 * 8 <= 0x2000 -> 0 <= i < 8 ->
  handler_ok (base + 4 * i) (set_window_clip base reg).
Proof.
  intros Hm H0 Hn Hi d s p Hd. unfold set_window_clip. rewrite slot_of by done.
  apply safe_for_loop; [done|]. intros j d1 Hj Hd1.
  apply safe_pgraph_reg_w; [apply (reg_ok_slot _ _ 8); lia|done].
Qed.
#[local] Hint Resolve ok_window_clip : pgraph.

Lemma fixed_rows : Forall row_ok fixed_methods.
Proof. unfold fixed_methods. rows. Qed.

Lemma enable_rows : Forall row_ok enable_methods.
Proof. unfold enable_methods. rows. Qed.

Lemma blend_rows : Forall row_ok blend_methods.
Proof. unfold blend_methods. rows. Qed.

(** ** Rows of the constants and of the lighting context *)

Lemma safe_set_ltctxa a row col v d : 0 <= row < NV2A_LTCTXA_COUNT -> 0 <= col < 4 -> inv d ->
  safe (allowed a) inv (set_ltctxa row col v d).
Proof.
  intros Hr Hc H. destruct H as [Hd [] Hv Hs [H1 H2 H3 H4 H5 H6]]. unfold set_ltctxa.
  eapply safe_bind; [by apply safe_put|]. intros m ->.
  eapply safe_bind; [by apply safe_mark|]. intros s ->. cbn [safe].
  constructor; try assumption; [by constructor|]. constructor; try assumption.
  eapply stale_wr; [exact H3|set_solver|]. rewrite div_row by done. set_solver.
Qed.

Lemma safe_set_ltctxb a row col v d : 0 <= row < NV2A_LTCTXB_COUNT -> 0 <= col < 4 -> inv d ->
  safe (allowed a) inv (set_ltctxb row col v d).
Proof.
  intros Hr Hc H. destruct H as [Hd [] Hv Hs [H1 H2 H3 H4 H5 H6]]. unfold set_ltctxb.
  eapply safe_bind; [by apply safe_put|]. intros m ->.
  eapply safe_bind; [by apply safe_mark|]. intros s ->. cbn [safe].
  constructor; try assumption; [by constructor|]. constructor; try assumption.
  eapply stale_wr; [exact H4|set_solver|]. rewrite div_row by done. set_solver.
Qed.

Lemma safe_set_ltc1 a row col v d : 0 <= row < NV2A_LTC1_COUNT -> 0 <= col < 4 -> inv d ->
  safe (allowed a) inv (set_ltc1 row col v d).
Proof.
  intros Hr Hc H. destruct H as [Hd [] Hv Hs [H1 H2 H3 H4 H5 H6]]. unfold set_ltc1.
  eapply safe_bind; [by apply safe_put|]. intros m ->.
  eapply safe_bind; [by apply safe_mark|]. intros s ->. cbn [safe].
  constructor; try assumption; [by constructor|]. constructor; try assumption.
  eapply stale_wr; [exact H5|set_solver|]. rewrite div_row by done. set_solver.
Qed.

Lemma safe_set_vsh_constant a row col v d : 0 <= row < NV2A_VERTEXSHADER_CONSTANTS -> 0 <= col < 4 ->
  inv d -> safe (allowed a) inv (set_vsh_constant row col v d).
Proof.
  intros Hr Hc [Hd Hl Hv Hs [H1 H2 H3 H4 H5 H6]]. unfold set_vsh_constant.
  eapply safe_bind; [by apply safe_put|]. intros m ->.
  eapply safe_bind; [by apply safe_mark|]. intros s ->. cbn [safe].
  constructor; try assumption. constructor; try assumption.
  eapply stale_wr; [exact H2|set_solver|]. rewrite div_row by done. set_solver.
Qed.

Lemma ok_ltctxa_slot base row i : 0 <= row < NV2A_LTCTXA_COUNT -> 0 <= i < 4 ->
  handler_ok (base + 4 * i) (set_ltctxa_slot base row).
Proof.
  intros Hr Hi d s p Hd. unfold set_ltctxa_slot. rewrite slot_of by done. by apply safe_set_ltctxa.
Qed.

Lemma ok_constant_slot base row i : 0 <= row < NV2A_VERTEXSHADER_CONSTANTS -> 0 <= i < 4 ->
  handler_ok (base + 4 * i) (set_constant_slot base row).
Proof.
  intros Hr Hi d s p Hd. unfold set_constant_slot. rewrite slot_of by done.
  by apply safe_set_vsh_constant.
Qed.

(** Rows and columns of a slot of a matrix. *)
Lemma slot_entry i n : 0 <= i < 4 * n -> 0 <= i / 4 < n /\ 0 <= i mod 4 < 4.
Proof. intros H. Z.to_euclidean_division_equations. lia. Qed.

Lemma ok_matrix base row0 i : 0 <= row0 -> row0 + 4 <= NV2A_VERTEXSHADER_CONSTANTS -> 0 <= i < 16 ->
  handler_ok (base + 4 * i) (set_matrix base row0).
Proof.
  intros H0 Hn Hi d s p Hd. unfold set_matrix. rewrite slot_of by done.
  pose proof (slot_entry i 4 Hi). apply safe_set_vsh_constant; [lia|lia|done].
Qed.

Lemma ok_matrices base row0 i : 0 <= row0 -> row0 + 28 <= NV2A_VERTEXSHADER_CONSTANTS ->
  0 <= i < 64 -> handler_ok (base + 4 * i) (set_matrices base row0).
Proof.
  intros H0 Hn Hi d s p Hd. unfold set_matrices. rewrite slot_of by done.
  pose proof (Z.mod_pos_bound i 16 ltac:(lia)). pose proof (slot_entry (i mod 16) 4 ltac:(lia)).
  apply safe_set_vsh_constant; [|lia|done].
  assert (0 <= i / 16 < 4) by (Z.to_euclidean_division_equations; lia). lia.
Qed.

#[local] Hint Resolve ok_ltctxa_slot ok_constant_slot ok_matrix ok_matrices : pgraph.

Lemma ok_material_alpha a :
  handler_ok a (assign (fun p g => g <| lighting ::= fun l => l <| material_alpha := p |> |>)).
Proof.
  intros d s p Hd. apply (inv_upd_lighting (fun l => l <| material_alpha := p |>));
    [done| |repeat split]. by destruct (inv_lighting _ _ _ Hd).
Qed.
#[local] Hint Resolve ok_material_alpha : pgraph.

Lemma polygon_rows : Forall row_ok polygon_methods.
Proof. unfold polygon_methods. rows. Qed.

Lemma ok_texgen a base mask0 mask1 channel : handler_ok a (set_texgen base mask0 mask1 channel).
Proof. intros d s p Hd. unfold set_texgen. destruct (_ <? 2); ssteps. Qed.

Lemma ok_texture_matrix_enable i : 0 <= i < 4 ->
  handler_ok (NV097_SET_TEXTURE_MATRIX_ENABLE + 4 * i) set_texture_matrix_enable.
Proof.
  intros Hi d s p Hd. unfold set_texture_matrix_enable. rewrite slot_of by done.
  rewrite (proj2 (Z.leb_le 0 i)), (proj2 (Z.ltb_lt i NV2A_MAX_TEXTURES)) by (unfold NV2A_MAX_TEXTURES; lia).
  cbn [andb]. ssteps.
Qed.

Lemma ok_fog_params i : 0 <= i < 3 -> handler_ok (NV097_SET_FOG_PARAMS + 4 * i) set_fog_params.
Proof.
  intros Hi d s p Hd. unfold set_fog_params. rewrite slot_of by done.
  eapply (safe_bind _ inv).
  - destruct (i <? 2); [|done]. apply safe_pgraph_reg_w; [by apply (reg_ok_slot _ _ 3)|done].
  - intros d1 H1. apply safe_set_ltctxa; [by split|lia|done].
Qed.
#[local] Hint Resolve ok_texgen ok_texture_matrix_enable ok_fog_params : pgraph.

Lemma matrix_rows : Forall row_ok matrix_methods.
Proof. unfold matrix_methods. rows. Qed.

(** ** Lights, programs and constants *)

(** A list of the lighting state, one of whose elements is assigned. *)
Lemma ok_specular_params i : 0 <= i < 6 -> handler_ok (NV097_SET_SPECULAR_PARAMS + 4 * i) set_specular_params.
Proof.
  intros Hi d s p Hd. unfold set_specular_params. rewrite slot_of by done.
  destruct (inv_lighting _ _ _ Hd) as [H1 H2 H3].
  eapply safe_bind; [apply safe_blit_at; cbn [length]; lia|]. intros l Hl. cbn [safe].
  destruct (i =? 5); repeat (apply inv_upd_lighting; [|constructor; cbn; congruence|repeat split]); done.
Qed.

Lemma ok_specular_params_back i : 0 <= i < 6 ->
  handler_ok (NV097_SET_SPECULAR_PARAMS_BACK + 4 * i) set_specular_params_back.
Proof.
  intros Hi d s p Hd. unfold set_specular_params_back. rewrite slot_of by done.
  destruct (inv_lighting _ _ _ Hd) as [H1 H2 H3].
  eapply safe_bind; [apply safe_blit_at; cbn [length]; lia|]. intros l Hl. cbn [safe].
  destruct (i =? 5); repeat (apply inv_upd_lighting; [|constructor; cbn; congruence|repeat split]); done.
Qed.

Lemma ok_point_params i : 0 <= i < 8 -> handler_ok (NV097_SET_POINT_PARAMS + 4 * i) set_point_params.
Proof.
  intros Hi d s p Hd. unfold set_point_params. rewrite slot_of by done.
  destruct (inv_lighting _ _ _ Hd) as [H1 H2 H3].
  eapply safe_bind; [apply safe_blit_at; cbn [length]; lia|]. intros l Hl. cbn [safe].
  apply inv_upd_lighting; [done|constructor; cbn; congruence|repeat split].
Qed.

Lemma prog_ld_field : bitfield NV_PGRAPH_CHEOPS_OFFSET_PROG_LD_PTR 0 8.
Proof. by vm_compute. Qed.
Lemma const_ld_field : bitfield NV_PGRAPH_CHEOPS_OFFSET_CONST_LD_PTR 8 8.
Proof. by vm_compute. Qed.

Lemma inv_program m d : inv d -> inv (upd (fun g => g <| program_data := m |> <| program_data_dirty := true |>) d).
Proof.
  intros [Hd Hl Hv Hs [H1 H2 H3 H4 H5 H6]]. constructor; try assumption. constructor; try assumption.
  discriminate.
Qed.

Lemma ok_transform_program a : handler_ok a set_transform_program.
Proof.
  intros d s p Hd. unfold set_transform_program. apply safe_asserted. intros Hlt.
  pose proof (GET_MASK_range (rd (pgraph_regs d) NV_PGRAPH_CHEOPS_OFFSET) _ _ _ prog_ld_field).
  pose proof (Z.mod_pos_bound ((a - NV097_SET_TRANSFORM_PROGRAM) / 4) 4 ltac:(lia)).
  unfold PG_GET_MASK in *. eapply safe_bind; [apply safe_put; lia|]. intros m _.
  pose proof (inv_program m d Hd). destruct (_ =? 3); ssteps.
Qed.

Lemma ok_transform_constant a : handler_ok a set_transform_constant.
Proof.
  intros d s p Hd. unfold set_transform_constant. apply safe_asserted. intros Hlt.
  pose proof (GET_MASK_range (rd (pgraph_regs d) NV_PGRAPH_CHEOPS_OFFSET) _ _ _ const_ld_field) as Hload.
  pose proof (Z.mod_pos_bound ((a - NV097_SET_TRANSFORM_CONSTANT) / 4) 4 ltac:(lia)) as Hcol.
  unfold PG_GET_MASK in *. eapply (safe_bind _ inv); [|intros d1 Hd1; destruct (_ =? 3); ssteps].
  destruct (p =? _) eqn:E; [|apply safe_set_vsh_constant; [lia|lia|done]].
  eapply safe_bind; [apply safe_put; lia|]. intros m ->. cbn [safe].
  destruct Hd as [Hd Hl Hv Hs [H1 H2 H3 H4 H5 H6]]. constructor; try assumption. constructor; try assumption.
  apply stale_wr_same; [done|]. by apply Z.eqb_eq in E.
Qed.

(** The component of a part of a light, and the row of a light. *)
Lemma part_col part name last : name mod 4 = 0 -> last mod 4 = 0 -> part_in part name last = true ->
  0 <= part - name / 4 <= last / 4.
Proof.
  unfold part_in. intros H1 H2 [H3 H4]%andb_prop. Z.to_euclidean_division_equations. lia.
Qed.

Lemma light_row base k count slot : 0 <= base -> 0 <= k -> base + 7 * k < count -> 0 <= slot < 8 ->
  0 <= base + slot * k < count.
Proof. nia. Qed.

Ltac col := let H := fresh in
  match goal with E : part_in ?p ?n ?l = true |- _ => pose proof (part_col p n l eq_refl eq_refl E) as H;
    change (8 / 4) with 2 in H; change (12 / 4) with 3 in H; lia end.
Ltac part := lazymatch goal with |- context [if part_in ?p ?n ?l then _ else _] =>
  destruct (part_in p n l) eqn:? end.
Ltac row := apply light_row; [discriminate|discriminate|reflexivity|done].

Lemma light_slot k n i : 0 < k -> 0 <= i < n * k -> 0 <= i / k < n.
Proof. intros Hk Hi. split; [apply Z.div_pos; lia|apply Z.div_lt_upper_bound; lia]. Qed.

Lemma ok_back_light i : 0 <= i < 8 * 16 ->
  handler_ok (NV097_SET_BACK_LIGHT_AMBIENT_COLOR + 4 * i) set_back_light.
Proof.
  intros Hi d s p Hd. unfold set_back_light. rewrite slot_of by done.
  pose proof (light_slot 16 8 i ltac:(lia) Hi) as Hs. apply safe_asserted. intros _.
  repeat (part; [apply safe_set_ltctxb; [row|col|done]|]).
  apply allowed_assert.
Qed.

(** The arrays of the lights that are not part of the context. *)
Lemma safe_light_array a slot col v m (h : mem -> Lighting -> Lighting) d :
  0 <= slot < 8 -> 0 <= col <= 2 -> inv d ->
  (forall m, lighting_ok (h m (lighting (pgraph_rest d)))) ->
  (forall m, light_frame (lighting (pgraph_rest d)) (h m (lighting (pgraph_rest d)))) ->
  safe (allowed a) inv (m ← put NV2A_MAX_LIGHTS 3 slot col v m; Ok (upd_lighting (h m) d)).
Proof.
  intros Hs Hc Hd H1 H2. eapply safe_bind; [apply safe_put; [exact Hs|lia]|]. intros m' _. cbn [safe].
  by apply inv_upd_lighting.
Qed.

Lemma ok_light i : 0 <= i < 8 * 32 -> handler_ok (NV097_SET_LIGHT_AMBIENT_COLOR + 4 * i) set_light.
Proof.
  intros Hi d s p Hd. unfold set_light. rewrite slot_of by done.
  pose proof (light_slot 32 8 i ltac:(lia) Hi) as Hs. destruct (inv_lighting _ _ _ Hd).
  apply safe_asserted. intros _.
  repeat (part; [apply safe_set_ltctxb; [row|col|done]|]).
  destruct (_ =? NV097_SET_LIGHT_LOCAL_RANGE).
  { apply safe_set_ltc1; [|done|done]. rewrite <-(Z.mul_1_r (i / 32)). row. }
  repeat (part;
    [first [apply safe_set_ltctxa; [row|col|done]
           |apply safe_light_array; [done|col|done|by constructor|repeat split]]|]).
  apply allowed_assert.
Qed.
#[local] Hint Resolve ok_specular_params ok_specular_params_back ok_point_params ok_transform_program
  ok_transform_constant ok_back_light ok_light : pgraph.

Lemma light_rows : Forall row_ok light_methods.
Proof. unfold light_methods. rows. Qed.

(** ** Vertices *)

Lemma inv_attributes d : inv d -> length (attributes d) = 16%nat.
Proof. intros H. apply ok_attributes, H. Qed.

Lemma attribute_value d i x : inv d -> attributes d !! i = Some x -> length (inline_value x) = 4%nat.
Proof.
  intros H Hx. pose proof (ok_values _ (inv_drawing _ _ _ H)) as Hf.
  rewrite Forall_lookup in Hf. by apply (Hf i).
Qed.

Lemma inv_set_attribute i x d : inv d -> length (inline_value x) = 4%nat -> inv (set_attribute i x d).
Proof.
  intros H Hx. apply inv_upd_drawing; [done|]. destruct (inv_drawing _ _ _ H). constructor; try done.
  - cbn. by rewrite length_insert.
  - cbn. by apply Forall_insert.
Qed.

Lemma safe_put_vertex a i value buf : 0 <= i < NV2A_MAX_BATCH_LENGTH ->
  safe (allowed a) (fun _ => True) (put_vertex i value buf).
Proof.
  intros Hi. unfold put_vertex.
  by rewrite (proj2 (Z.leb_le 0 i)), (proj2 (Z.ltb_lt i NV2A_MAX_BATCH_LENGTH)) by lia.
Qed.

Lemma safe_fetch_attribute {A} a (Q : A -> Prop) attr d (k : VertexAttribute -> result A) :
  0 <= attr < 16 -> inv d ->
  (forall x, length (inline_value x) = 4%nat -> safe (allowed a) Q (k x)) ->
  safe (allowed a) Q (fetch (attributes d) attr ≫= k).
Proof.
  intros Ha Hd Hk. eapply safe_bind; [apply safe_fetch; rewrite inv_attributes by done; lia|].
  intros x Hx. apply Hk. by apply (attribute_value d _ x Hd Hx).
Qed.

Lemma safe_allocate a attr d : 0 <= attr < 16 -> inv d ->
  safe (allowed a) inv (pgraph_allocate_inline_buffer_vertices d attr).
Proof.
  intros Ha Hd. apply safe_fetch_attribute; [done|done|]. intros x Hx. cbv zeta.
  destruct (_ || _); [done|].
  eapply safe_bind.
  - apply (safe_for_loop _ (fun _ => True)); [done|]. intros j buf Hj _. apply safe_put_vertex.
    pose proof (ok_buffer _ (inv_drawing _ _ _ Hd)). lia.
  - intros buf _. cbn [safe]. by apply inv_set_attribute.
Qed.

Lemma safe_assign_values a l : forall value, length value = 4%nat -> Forall (fun iv => 0 <= iv.1 < 4) l ->
  safe (allowed a) (fun v => length v = 4%nat) (assign_values l value).
Proof.
  induction l as [|[i v] l IH]; intros value Hv Hl; [done|]. inversion Hl as [|? ? H1 H2]; subst.
  cbn [assign_values fst] in *. eapply safe_bind; [apply safe_blit_at; cbn [length]; lia|].
  intros v' Hv'. apply IH; [congruence|done].
Qed.

Lemma safe_inline a attr l d : 0 <= attr < 16 -> Forall (fun iv => 0 <= iv.1 < 4) l -> inv d ->
  safe (allowed a) inv (set_inline_values attr l d).
Proof.
  intros Ha Hl Hd. eapply safe_bind; [by apply safe_allocate|]. intros d1 H1.
  apply safe_fetch_attribute; [done|done|]. intros x Hx.
  eapply safe_bind; [by apply safe_assign_values|]. intros v Hv. cbn [safe].
  by apply inv_set_attribute.
Qed.

Lemma safe_finish_attributes a length l : 0 <= length < NV2A_MAX_BATCH_LENGTH ->
  safe (allowed a) (fun l' => Forall2 (fun x x' => inline_value x' = inline_value x) l l')
    (finish_attributes length l).
Proof.
  intros Hn. induction l as [|x l IH]; [constructor|]. cbn [finish_attributes].
  eapply (safe_bind _ (fun x' => inline_value x' = inline_value x)).
  - unfold finish_attribute. destruct (inline_buffer_populated x); [|done].
    eapply safe_bind; [by apply safe_put_vertex|]. by intros buf _.
  - intros x' Hx'. eapply safe_bind; [exact IH|]. intros l' Hl'. by constructor.
Qed.

Lemma safe_finish a d : inv d -> safe (allowed a) inv (pgraph_finish_inline_buffer_vertex d).
Proof.
  intros Hd. unfold pgraph_finish_inline_buffer_vertex. apply safe_asserted. intros Hlt%Z.ltb_lt.
  destruct (inv_drawing _ _ _ Hd).
  eapply safe_bind; [apply safe_finish_attributes; lia|]. intros l Hl. cbn [safe].
  apply inv_upd_drawing; [done|]. constructor; try done; cbn; [..|lia].
  - by rewrite <-(Forall2_length _ _ _ Hl).
  - apply Forall_forall. intros x' (i & Hi)%list_elem_of_lookup.
    destruct (Forall2_lookup_r _ _ _ _ _ Hl Hi) as (x & Hx & ->). by apply (attribute_value d i).
Qed.
(** The indices a handler assigns: constants, a slot, or a pair of halves. *)
Ltac indices := solve [repeat (apply Forall_cons_2; [cbn [fst]; lia|]); exact (Forall_nil_2 _)].
Ltac inline := apply safe_inline; [done || lia|indices|done].
Ltac inline_finish b :=
  eapply (safe_bind _ inv); [inline|]; intros ? ?; destruct b; [by apply safe_finish|done].

Lemma ok_vertex3f i : 0 <= i < 3 -> handler_ok (NV097_SET_VERTEX3F + 4 * i) set_vertex3f.
Proof. intros Hi d s p Hd. unfold set_vertex3f. rewrite slot_of by done. inline_finish (i =? 2). Qed.

Lemma ok_vertex4f i : 0 <= i < 4 -> handler_ok (NV097_SET_VERTEX4F + 4 * i) set_vertex4f.
Proof. intros Hi d s p Hd. unfold set_vertex4f. rewrite slot_of by done. inline_finish (i =? 3). Qed.

Lemma ok_fog_coord a : handler_ok a set_fog_coord.
Proof. intros d s p Hd. unfold set_fog_coord. inline. Qed.

Lemma ok_weight1f a : handler_ok a set_weight1f.
Proof. intros d s p Hd. unfold set_weight1f. inline. Qed.

Lemma ok_normal3s i : handler_ok (NV097_SET_NORMAL3S + 4 * i) set_normal3s.
Proof.
  intros d s p Hd. unfold set_normal3s. rewrite slot_of by done.
  pose proof (Z.mod_pos_bound i 2 ltac:(lia)). inline.
Qed.

Lemma ok_attribute_4s command attr i : 0 <= attr < 16 ->
  handler_ok (command + 4 * i) (SET_VERTEX_ATTRIBUTE_4S command attr).
Proof.
  intros Ha d s p Hd. unfold SET_VERTEX_ATTRIBUTE_4S. rewrite slot_of by done.
  pose proof (Z.mod_pos_bound i 2 ltac:(lia)). inline.
Qed.

Lemma ok_tex_2s a attr : 0 <= attr < 16 -> handler_ok a (SET_VERTEX_ATRIBUTE_TEX_2S attr).
Proof. intros Ha d s p Hd. unfold SET_VERTEX_ATRIBUTE_TEX_2S. inline. Qed.

Lemma ok_color_3f command attr i : 0 <= attr < 16 -> 0 <= i < 4 ->
  handler_ok (command + 4 * i) (SET_VERTEX_COLOR_3F command attr).
Proof. intros Ha Hi d s p Hd. unfold SET_VERTEX_COLOR_3F. rewrite slot_of by done. inline. Qed.

Lemma ok_attribute_f command attr i : 0 <= attr < 16 -> 0 <= i < 4 ->
  handler_ok (command + 4 * i) (SET_VERTEX_ATTRIBUTE_F command attr).
Proof. intros Ha Hi d s p Hd. unfold SET_VERTEX_ATTRIBUTE_F. rewrite slot_of by done. inline. Qed.

Lemma ok_tex_2f command attr i : 0 <= attr < 16 -> 0 <= i < 4 ->
  handler_ok (command + 4 * i) (SET_VERTEX_ATRIBUTE_TEX_2F command attr).
Proof. intros Ha Hi d s p Hd. unfold SET_VERTEX_ATRIBUTE_TEX_2F. rewrite slot_of by done. inline. Qed.

Lemma ok_attribute_4ub a attr : 0 <= attr < 16 -> handler_ok a (SET_VERTEX_ATTRIBUTE_4UB attr).
Proof. intros Ha d s p Hd. unfold SET_VERTEX_ATTRIBUTE_4UB. inline. Qed.

#[local] Hint Resolve ok_vertex3f ok_vertex4f ok_fog_coord ok_weight1f ok_normal3s ok_attribute_4s ok_tex_2s
  ok_color_3f ok_attribute_f ok_tex_2f ok_attribute_4ub : pgraph.

Lemma vertex_rows : Forall row_ok vertex_methods.
Proof. unfold vertex_methods. rows. Qed.

(** ** Vertex arrays and draws *)

Lemma safe_array_format a (Q : nv2a -> Prop) format count (k : Z -> result nv2a) :
  (forall size, safe (allowed a) Q (k size)) -> safe (allowed a) Q (array_format_size format count ≫= k).
Proof.
  intros Hk. unfold array_format_size.
  repeat (case_match; [first [apply Hk | rewrite result_bind_assoc; apply safe_asserted; intros _; apply Hk]|]).
  apply allowed_assert.
Qed.

Lemma ok_array_format i : 0 <= i < 16 ->
  handler_ok (NV097_SET_VERTEX_DATA_ARRAY_FORMAT + 4 * i) set_vertex_data_array_format.
Proof.
  intros Hi d s p Hd. unfold set_vertex_data_array_format. rewrite slot_of by done.
  apply safe_fetch_attribute; [done|done|]. intros x Hx. apply safe_array_format. intros n. cbn [safe].
  apply inv_upd; [by apply inv_set_attribute|repeat split].
Qed.

Lemma ok_array_offset i : 0 <= i < 16 ->
  handler_ok (NV097_SET_VERTEX_DATA_ARRAY_OFFSET + 4 * i) set_vertex_data_array_offset.
Proof.
  intros Hi d s p Hd. unfold set_vertex_data_array_offset. rewrite slot_of by done.
  apply safe_fetch_attribute; [done|done|]. intros x Hx. cbn [safe]. by apply inv_set_attribute.
Qed.

Lemma drawing_ok_reset_arrays w : drawing_ok w ->
  drawing_ok (w <| draw_arrays_length := 0 |> <| draw_arrays_min_start := u32 (-1) |>
                <| draw_arrays_max_count := 0 |> <| draw_arrays_prevent_connect := false |>).
Proof. intros []. constructor; cbn; try done; unfold MAX_DRAW_ARRAYS; lia. Qed.

Lemma inv_reset_draw_arrays d : inv d -> inv (pgraph_reset_draw_arrays d).
Proof. intros H. apply inv_upd_drawing; [done|]. apply drawing_ok_reset_arrays, H. Qed.

Lemma inv_reset_inline_buffers d : inv d -> inv (pgraph_reset_inline_buffers d).
Proof.
  intros H. apply inv_reset_draw_arrays, inv_upd_drawing; [done|]. destruct (inv_drawing _ _ _ H).
  constructor; cbn; try done; unfold NV2A_MAX_BATCH_LENGTH; lia.
Qed.

Lemma inv_primitive_mode m d : inv d -> inv (upd_drawing (fun w => w <| primitive_mode := m |>) d).
Proof. intros H. apply inv_upd_drawing; [done|]. by destruct (inv_drawing _ _ _ H). Qed.

Lemma ok_begin_end : handler_ok NV097_SET_BEGIN_END set_begin_end.
Proof.
  intros d s p Hd. unfold set_begin_end. destruct (p =? _).
  - destruct (_ =? _); [by apply inv_reset_inline_buffers|].
    eapply safe_bind; [by apply safe_render|]. intros d1 H1. cbn [safe].
    by apply inv_primitive_mode, inv_reset_inline_buffers.
  - destruct (negb _); [done|]. apply safe_asserted. intros _.
    apply safe_render; [exact rlaws|done|]. by apply inv_reset_inline_buffers, inv_primitive_mode.
Qed.
#[local] Hint Resolve ok_array_format ok_array_offset ok_begin_end : pgraph.

Lemma array_rows : Forall row_ok array_methods.
Proof. unfold array_methods. rows. Qed.

(** ** Textures *)

Lemma safe_mark_texture a slot d : 0 <= slot < 4 -> inv d -> safe (allowed a) inv (mark_texture slot d).
Proof.
  intros Hs Hd. eapply safe_bind; [by apply safe_mark|]. intros t _. cbn [safe].
  apply inv_upd; [done|repeat split].
Qed.

Lemma ok_texture_reg base reg i : reg mod 4 = 0 -> 0 <= reg -> reg + 4 * 4 <= 0x2000 -> 0 <= i < 4 ->
  handler_ok (base + 64 * i) (set_texture_reg base reg).
Proof.
  intros Hm H0 Hn Hi d s p Hd. unfold set_texture_reg. rewrite slot_of by done.
  eapply safe_bind; [apply safe_pgraph_reg_w; [by apply (reg_ok_slot _ _ 4)|done]|].
  intros d1 H1. by apply safe_mark_texture.
Qed.

Lemma ok_texture_format i : 0 <= i < 4 -> handler_ok (NV097_SET_TEXTURE_FORMAT + 64 * i) set_texture_format.
Proof.
  intros Hi d s p Hd. unfold set_texture_format. rewrite slot_of by done. cbv zeta.
  assert (reg_ok (NV_PGRAPH_TEXFMT0 + i * 4)) by (by apply (reg_ok_slot _ _ 4)).
  repeat (eapply (safe_bind _ inv); [by apply safe_pg_set_mask|]; intros ? ?).
  by apply safe_mark_texture.
Qed.

Lemma ok_texture_palette i : 0 <= i < 4 -> handler_ok (NV097_SET_TEXTURE_PALETTE + 64 * i) set_texture_palette.
Proof.
  intros Hi d s p Hd. unfold set_texture_palette. rewrite slot_of by done. cbv zeta.
  assert (reg_ok (NV_PGRAPH_TEXPALETTE0 + i * 4)) by (by apply (reg_ok_slot _ _ 4)).
  repeat (eapply (safe_bind _ inv); [by apply safe_pg_set_mask|]; intros ? ?).
  by apply safe_mark_texture.
Qed.

(** Word [o] of the matrix of texture [i]. *)
Lemma ok_bump_env_mat i o : 0 <= i < 4 -> 0 <= o < 4 ->
  handler_ok (NV097_SET_TEXTURE_SET_BUMP_ENV_MAT + 4 * o + 64 * i) set_texture_set_bump_env_mat.
Proof.
  intros Hi Ho d s p Hd. unfold set_texture_set_bump_env_mat.
  replace ((NV097_SET_TEXTURE_SET_BUMP_ENV_MAT + 4 * o + 64 * i - NV097_SET_TEXTURE_SET_BUMP_ENV_MAT) / 4)
    with (o + 16 * i) by (rewrite <-(Z.div_mul (o + 16 * i) 4) by lia; f_equal; lia).
  destruct (_ <? 16) eqn:E; [done|]. apply Z.ltb_ge in E. cbv zeta.
  replace ((o + 16 * i - 16) mod 4) with o by (Z.to_euclidean_division_equations; lia).
  replace ((o + 16 * i - 16) / 4) with ((i - 1) * 4) by (Z.to_euclidean_division_equations; lia).
  eapply safe_bind; [apply safe_fetch; cbn [length]; lia|]. intros base Hb.
  apply safe_pgraph_reg_w; [|done].
  assert (o = 0 \/ o = 1 \/ o = 2 \/ o = 3) as [-> | [-> | [-> | ->]]] by lia; injection Hb as <-;
    by apply (reg_ok_slot _ _ 3); [| | |lia].
Qed.

Lemma ok_bump_env_mat_0 i : 0 <= i < 4 ->
  handler_ok (NV097_SET_TEXTURE_SET_BUMP_ENV_MAT + 64 * i) set_texture_set_bump_env_mat.
Proof. intros Hi. rewrite <-(Z.add_0_r NV097_SET_TEXTURE_SET_BUMP_ENV_MAT). by apply (ok_bump_env_mat i 0). Qed.

Lemma ok_bump_env base reg i : reg mod 4 = 0 -> 0 <= reg -> reg + 4 * 3 <= 0x2000 -> 0 <= i < 4 ->
  handler_ok (base + 64 * i) (set_bump_env base reg).
Proof.
  intros Hm H0 Hn Hi d s p Hd. unfold set_bump_env. rewrite slot_of by done. cbv zeta.
  destruct (i =? 0) eqn:E; [done|]. apply Z.eqb_neq in E.
  apply safe_pgraph_reg_w; [apply (reg_ok_slot _ _ 3); lia|done].
Qed.
#[local] Hint Resolve ok_texture_reg ok_texture_format ok_texture_palette ok_bump_env_mat_0 ok_bump_env : pgraph.

Lemma texture_rows : Forall row_ok texture_methods.
Proof.
  unfold texture_methods. rows; [by apply (ok_bump_env_mat i 1)|by apply (ok_bump_env_mat i 2)|].
  by apply (ok_bump_env_mat i 3).
Qed.

(** ** Elements and ranges *)

Definition elements d : Z := inline_elements_length (drawing_of d).

Lemma safe_push a v d : inv d -> elements d < NV2A_MAX_BATCH_LENGTH ->
  safe (allowed a) (fun d' => inv d' /\ elements d' = elements d + 1) (push_element v d).
Proof.
  intros Hd Hn. unfold push_element. fold (elements d). destruct (inv_drawing _ _ _ Hd) as [H1 H2 H3 H4].
  fold (elements d) in H4. eapply safe_bind; [apply safe_reg_w_cell; lia|]. intros m _. cbn [safe].
  split; [|done]. apply inv_upd_drawing; [done|]. constructor; try done. cbn. lia.
Qed.

Lemma safe_push_range a start count d : inv d -> elements d + count <= NV2A_MAX_BATCH_LENGTH ->
  safe (allowed a) inv (push_range start count d).
Proof.
  intros Hd Hn. unfold push_range.
  assert (elements d + Z.of_nat (Z.to_nat count) <= NV2A_MAX_BATCH_LENGTH) as Hc.
  { pose proof (ok_elements _ (inv_drawing _ _ _ Hd)). unfold elements in *. lia. }
  revert Hc. generalize (Z.to_nat count) as n. clear Hn. intros n. generalize 0. revert d Hd.
  induction n as [|n IH]; intros d Hd i Hc; cbn [for_loop]; [done|].
  eapply safe_bind; [apply safe_push; [done|lia]|]. intros d1 [H1 E1]. apply IH; [done|lia].
Qed.

Lemma last_range d : inv d -> 0 < draw_arrays_length (drawing_of d) ->
  range_ok (rd (draw_arrays_start (drawing_of d)) (draw_arrays_length (drawing_of d) - 1))
    (rd (draw_arrays_count (drawing_of d)) (draw_arrays_length (drawing_of d) - 1)).
Proof. intros Hd Hn. apply (ok_ranges _ (inv_drawing _ _ _ Hd)). lia. Qed.

Lemma u32_sum n count : 0 <= n <= NV2A_MAX_BATCH_LENGTH -> 0 <= count < 2 ^ 24 + 256 ->
  u32 (n + u32 count) = n + count.
Proof. unfold NV2A_MAX_BATCH_LENGTH. intros H1 H2. rewrite !u32_id; unfold is_u32; rewrite ?u32_id; unfold is_u32; lia. Qed.

Lemma safe_expand a d : issues a FlushDraw -> inv d -> 0 < draw_arrays_length (drawing_of d) ->
  safe (allowed a) inv (pgraph_expand_draw_arrays d).
Proof.
  intros Ha Hd Hn. pose proof (last_range d Hd Hn) as (Hs & Hc & Hsum).
  pose proof (ok_draws _ (inv_drawing _ _ _ Hd)). unfold pgraph_expand_draw_arrays. cbv zeta.
  eapply safe_bind; [apply safe_reg_r_cell; lia|]. intros start ->.
  eapply safe_bind; [apply safe_reg_r_cell; lia|]. intros count ->.
  eapply (safe_bind _ inv).
  { destruct (1 <? _); [|done]. eapply safe_bind; [by apply safe_render|]. intros d1 H1. cbn [safe].
    by apply inv_reset_inline_buffers. }
  intros d1 H1. pose proof (ok_elements _ (inv_drawing _ _ _ H1)).
  apply safe_asserted. rewrite u32_sum by lia. intros Hlt%Z.ltb_lt.
  eapply safe_bind; [|intros d2 H2; cbn [safe]; by apply inv_reset_draw_arrays].
  apply safe_push_range; [done|]. unfold elements. rewrite u32_id by (unfold is_u32; lia). lia.
Qed.

Lemma safe_begin_element a d : issues a FlushDraw -> inv d ->
  safe (allowed a) (fun d' => inv d' /\ elements d' < NV2A_MAX_BATCH_LENGTH) (begin_element d).
Proof.
  intros Ha Hd. unfold begin_element. eapply (safe_bind _ inv).
  - destruct (_ =? 0) eqn:E; [done|]. apply Z.eqb_neq in E.
    pose proof (ok_draws _ (inv_drawing _ _ _ Hd)). apply safe_expand; [done|done|lia].
  - intros d1 H1. apply safe_asserted. intros Hlt%Z.ltb_lt. by split.
Qed.

Lemma ok_array_element32 : handler_ok NV097_ARRAY_ELEMENT32 array_element32.
Proof.
  intros d s p Hd. unfold array_element32. eapply safe_bind; [apply safe_begin_element; [by right|done]|].
  intros d1 [H1 Hn]. eapply safe_weaken; [by apply safe_push|]. by intros d2 [].
Qed.

(** The second element may find the array full. *)
Lemma push_full a v d : inv d -> a = NV097_ARRAY_ELEMENT16 -> safe (allowed a) inv (push_element v d).
Proof.
  intros Hd Ha. destruct (Z.lt_ge_cases (elements d) NV2A_MAX_BATCH_LENGTH) as [Hlt|Hge].
  - eapply safe_weaken; [by apply safe_push|]. by intros d2 [].
  - unfold push_element, reg_w. fold (elements d). rewrite (proj2 (Z.ltb_ge _ _) Hge), andb_false_r.
    cbn. unfold allowed. tauto.
Qed.

Lemma ok_array_element16 : handler_ok NV097_ARRAY_ELEMENT16 array_element16.
Proof.
  intros d s p Hd. unfold array_element16. eapply safe_bind; [apply safe_begin_element; [by left|done]|].
  intros d1 [H1 Hn]. eapply safe_bind; [by apply safe_push|]. intros d2 [H2 _]. by apply push_full.
Qed.

Lemma start_index_field : bitfield NV097_DRAW_ARRAYS_START_INDEX 0 24.
Proof. by vm_compute. Qed.
Lemma draw_count_field : bitfield NV097_DRAW_ARRAYS_COUNT 24 8.
Proof. by vm_compute. Qed.

(** The ranges after one is stored at index [i], at the end or before it. *)
Lemma drawing_ok_ranges w i w' : drawing_ok w -> 0 <= i <= draw_arrays_length w ->
  draw_arrays_length w' = Z.max (draw_arrays_length w) (i + 1) -> draw_arrays_length w' <= MAX_DRAW_ARRAYS ->
  range_ok (rd (draw_arrays_start w') i) (rd (draw_arrays_count w') i) ->
  (forall j, i <> j -> rd (draw_arrays_start w') j = rd (draw_arrays_start w) j /\
                       rd (draw_arrays_count w') j = rd (draw_arrays_count w) j) ->
  vertex_attributes w' = vertex_attributes w -> inline_array_length w' = inline_array_length w ->
  inline_elements_length w' = inline_elements_length w ->
  inline_buffer_length w' = inline_buffer_length w -> drawing_ok w'.
Proof.
  intros [Ha Hv Harr He Hb Hl Hrs] Hi E1 Hn Hr Hj E4 E5 E6 E7. constructor; rewrite ?E4, ?E5, ?E6, ?E7; try done; [lia|].
  intros j Hlt. destruct (decide (i = j)) as [<-|Hne]; [done|].
  destruct (Hj j Hne) as [-> ->]. apply Hrs. lia.
Qed.

Lemma safe_push_draw_array a start count d : inv d -> range_ok start count ->
  draw_arrays_length (drawing_of d) < MAX_DRAW_ARRAYS ->
  safe (allowed a) inv (push_draw_array start count d).
Proof.
  intros Hd Hr Hn. pose proof (ok_draws _ (inv_drawing _ _ _ Hd)). unfold push_draw_array. cbv zeta.
  eapply safe_bind; [apply safe_reg_w_cell; lia|]. intros m ->.
  eapply safe_bind; [apply safe_reg_w_cell; lia|]. intros m ->. cbn [safe].
  apply inv_upd_drawing; [done|].
  eapply (drawing_ok_ranges _ (draw_arrays_length (drawing_of d)) _ (inv_drawing _ _ _ Hd));
    cbn -[wr rd]; try done; try lia.
  - by rewrite !rd_wr_eq.
  - intros j Hj. by rewrite !rd_wr_ne.
Qed.

Lemma ok_draw_arrays a : handler_ok a draw_arrays.
Proof.
  intros d s p Hd. unfold draw_arrays.
  pose proof (GET_MASK_range p _ _ _ start_index_field) as Hs.
  pose proof (GET_MASK_range p _ _ _ draw_count_field) as Hc.
  set (start := GET_MASK p _) in *. set (count := GET_MASK p _ + 1) in *. cbv zeta.
  assert (range_ok start count) as Hr by (unfold range_ok; lia).
  pose proof (ok_elements _ (inv_drawing _ _ _ Hd)) as He.
  destruct (negb _).
  { apply safe_asserted. rewrite u32_id by (unfold is_u32, NV2A_MAX_BATCH_LENGTH in *; lia).
    intros Hlt%Z.ltb_lt. apply safe_asserted. intros _. apply safe_push_range; [done|]. unfold elements. lia. }
  set (d1 := upd_drawing _ d).
  assert (inv d1) as H1 by (apply inv_upd_drawing; [done|]; by destruct (inv_drawing _ _ _ Hd)).
  apply safe_asserted. intros Hn%Z.ltb_lt. pose proof (ok_draws _ (inv_drawing _ _ _ Hd)) as Hl.
  destruct (_ && _) eqn:E; [|by apply safe_push_draw_array].
  apply andb_prop in E as [_ Hpos%Z.ltb_lt]. pose proof (last_range d Hd Hpos) as (Hls & Hlc & Hlsum).
  eapply safe_bind; [apply safe_reg_r_cell; lia|]. intros last_start ->.
  eapply safe_bind; [apply safe_reg_r_cell; lia|]. intros last_count ->.
  destruct (start =? _) eqn:E; [|by apply safe_push_draw_array].
  apply Z.eqb_eq in E. rewrite u32_id in E by (unfold is_u32; lia).
  eapply safe_bind; [apply safe_reg_w_cell; lia|]. intros m ->. cbn [safe].
  apply inv_upd_drawing; [done|].
  eapply (drawing_ok_ranges _ (draw_arrays_length (drawing_of d) - 1) _ (inv_drawing _ _ _ Hd));
    cbn -[wr rd]; fold (drawing_of d); try done; try lia.
  - rewrite rd_wr_eq. unfold range_ok. rewrite s32_id by lia. lia.
  - intros j Hj. by rewrite !rd_wr_ne.
Qed.

(** ** Vertex data, semaphores and shaders *)

Lemma ok_inline_array a : handler_ok a inline_array_word.
Proof.
  intros d s p Hd. unfold inline_array_word. cbv zeta. apply safe_asserted. intros Hlt%Z.ltb_lt.
  destruct (inv_drawing _ _ _ Hd). eapply safe_bind; [apply safe_reg_w_cell; lia|]. intros m _. cbn [safe].
  apply inv_upd_drawing; [done|]. constructor; try done. cbn. lia.
Qed.

Lemma ok_vertex_data2f i : 0 <= i < 32 -> handler_ok (NV097_SET_VERTEX_DATA2F_M + 4 * i) set_vertex_data2f_m.
Proof.
  intros Hi d s p Hd. unfold set_vertex_data2f_m. rewrite slot_of by done. cbv zeta.
  pose proof (Z.mod_pos_bound i 2 ltac:(lia)). pose proof (light_slot 2 16 i ltac:(lia) ltac:(lia)).
  inline_finish ((i / 2 =? 0) && (i mod 2 =? 1)).
Qed.

Lemma ok_vertex_data4f i : 0 <= i < 64 -> handler_ok (NV097_SET_VERTEX_DATA4F_M + 4 * i) set_vertex_data4f_m.
Proof.
  intros Hi d s p Hd. unfold set_vertex_data4f_m. rewrite slot_of by done. cbv zeta.
  pose proof (Z.mod_pos_bound i 4 ltac:(lia)). pose proof (light_slot 4 16 i ltac:(lia) ltac:(lia)).
  inline_finish ((i / 4 =? 0) && (i mod 4 =? 3)).
Qed.

Lemma ok_vertex_data2s i : 0 <= i < 16 -> handler_ok (NV097_SET_VERTEX_DATA2S + 4 * i) set_vertex_data2s.
Proof.
  intros Hi d s p Hd. unfold set_vertex_data2s. rewrite slot_of by done. inline_finish (i =? 0).
Qed.

Lemma ok_vertex_data4ub i : 0 <= i < 16 -> handler_ok (NV097_SET_VERTEX_DATA4UB + 4 * i) set_vertex_data4ub.
Proof.
  intros Hi d s p Hd. unfold set_vertex_data4ub. rewrite slot_of by done. inline_finish (i =? 0).
Qed.

Lemma ok_vertex_data4s i : 0 <= i < 32 -> handler_ok (NV097_SET_VERTEX_DATA4S_M + 4 * i) set_vertex_data4s_m.
Proof.
  intros Hi d s p Hd. unfold set_vertex_data4s_m. rewrite slot_of by done. cbv zeta.
  pose proof (Z.mod_pos_bound i 2 ltac:(lia)). pose proof (light_slot 2 16 i ltac:(lia) ltac:(lia)).
  inline_finish ((i / 2 =? 0) && (i mod 2 =? 1)).
Qed.
#[local] Hint Resolve ok_array_element16 ok_array_element32 ok_draw_arrays ok_inline_array ok_vertex_data2f
  ok_vertex_data4f ok_vertex_data2s ok_vertex_data4ub ok_vertex_data4s : pgraph.

Lemma draw_rows : Forall row_ok draw_methods.
Proof. unfold draw_methods. rows. Qed.

(** Reads of objects and stores in video memory stop at its end. *)
Lemma semaphore_fault {A} (Q : A -> Prop) (c : result A) :
  (forall x, c = Ok x -> Q x) -> (forall f, c = Fault f -> is_assert f \/ f = OutOfBounds) ->
  safe (allowed NV097_BACK_END_WRITE_SEMAPHORE_RELEASE) Q c.
Proof.
  intros H1 H2. destruct c as [x|f]; [by apply H1|]. destruct (H2 f eq_refl); cbn; unfold allowed; tauto.
Qed.

Lemma ldl_fault n m a f : ldl_le_p n m a = Fault f -> is_assert f \/ f = OutOfBounds.
Proof. unfold ldl_le_p. case_match; intros [= <-]. by right. Qed.

Lemma dma_map_fault d obj f : nv_dma_map d obj = Fault f -> is_assert f \/ f = OutOfBounds.
Proof.
  unfold nv_dma_map, nv_dma_load, check. intros H.
  repeat (match type of H with context [ldl_le_p ?n ?m ?a] => destruct (ldl_le_p n m a) eqn:? end ||
          case_match; cbn in H); simplify_eq; try (by left; eexists); by eapply ldl_fault.
Qed.

Lemma ok_semaphore_release :
  handler_ok NV097_BACK_END_WRITE_SEMAPHORE_RELEASE back_end_write_semaphore_release.
Proof.
  intros d s p Hd. unfold back_end_write_semaphore_release.
  eapply safe_bind; [by apply safe_render|]. intros d1 H1.
  eapply (safe_bind _ (fun _ => True)); [apply semaphore_fault; [done|apply dma_map_fault]|].
  intros [data len] _. apply safe_asserted. intros _.
  apply semaphore_fault; unfold stl_le_p, st_le_p; intros x; case_match; intros [= <-]; [|by right].
  apply (inv_same d1); done.
Qed.

Lemma ok_transform_data i : 0 <= i < 4 -> handler_ok (NV097_SET_TRANSFORM_DATA + 4 * i) set_transform_data.
Proof.
  intros Hi d s p Hd. unfold set_transform_data. rewrite slot_of by done.
  destruct Hd as [Hd Hl Hv Hs [H1 H2 H3 H4 H5 H6]].
  eapply safe_bind; [apply safe_blit_at; cbn [length]; lia|]. intros v0 Hv0. cbn [safe].
  constructor; try assumption; [by cbn; rewrite Hv0|]. by constructor.
Qed.

Lemma ok_launch a : handler_ok a launch_transform_program.
Proof.
  intros d s p Hd. unfold launch_transform_program. apply safe_asserted. intros _.
  destruct (nv2a_vsh_execute _ _ _) as [[c rows]|] eqn:E; [|apply allowed_assert]. cbn [safe].
  destruct Hd as [Hd Hl Hv Hs [H1 H2 H3 H4 H5 H6]]. constructor; try assumption. constructor; try assumption.
  intros i Hi. cbn -[rd] in *. destruct (decide (rd c i = rd (vsh_constants d) i)) as [Hc|Hc].
  - apply elem_of_union_r, H2. by rewrite <-Hc.
  - apply elem_of_union_l. by apply (vsh_rows _ _ _ _ _ E).
Qed.
#[local] Hint Resolve ok_semaphore_release ok_transform_data ok_launch : pgraph.

Lemma shader_rows : Forall row_ok shader_methods.
Proof. unfold shader_methods. rows. Qed.

Lemma kelvin_rows : Forall row_ok pgraph_kelvin_methods.
Proof.
  unfold pgraph_kelvin_methods. rewrite !Forall_app. split_and!.
  - apply object_rows.
  - apply surface_rows.
  - apply fixed_rows.
  - apply enable_rows.
  - apply blend_rows.
  - apply polygon_rows.
  - apply matrix_rows.
  - apply light_rows.
  - apply vertex_rows.
  - apply array_rows.
  - apply texture_rows.
  - apply draw_rows.
  - apply shader_rows.
Qed.

(** ** The table *)

(** Addresses are multiples of four; a row that takes a run of methods lists
    them in order and ends where its last one does, and none of its methods is
    one with a fault of its own. *)
Definition exceptional : list Z :=
  [ NV097_FLIP_INCREMENT_WRITE; NV097_ARRAY_ELEMENT16; NV097_BACK_END_WRITE_SEMAPHORE_RELEASE;
    NV097_FLIP_STALL; NV097_SET_BEGIN_END; NV097_ARRAY_ELEMENT32; NV097_CLEAR_SURFACE;
    NV097_CLEAR_REPORT_VALUE; NV097_GET_REPORT; NV09F_SIZE; NV097_SET_CONTEXT_DMA_REPORT ].
Definition row_shape (m : @Method R V) : bool :=
  forallb (fun a => a mod 4 =? 0) (m_addrs m) &&
  match m_dispatch m with
  | Increasing end_addr =>
      let base := hd 0 (m_addrs m) in
      bool_decide (m_addrs m = addresses base ((end_addr - base) / 4) 4) &&
      forallb (fun a => negb (bool_decide (a ∈ exceptional))) (m_addrs m)
  | _ => true
  end.

Lemma kelvin_shape : forallb row_shape pgraph_kelvin_methods = true.
Proof. vm_compute. reflexivity. Qed.

Lemma kelvin_method_row method m : method mod 4 = 0 -> kelvin_method method = Some m ->
  m ∈ pgraph_kelvin_methods /\ method ∈ m_addrs m /\ row_shape m = true.
Proof.
  intros Hm H. apply find_some in H as [Hin (a & Ha & E)%existsb_exists].
  pose proof (proj1 (forallb_forall _ _) kelvin_shape m Hin) as Hs.
  split; [by apply list_elem_of_In|]. split; [|done].
  unfold row_shape in Hs. apply andb_prop in Hs as [Hall _].
  pose proof (proj1 (forallb_forall _ _) Hall a Ha) as H4. apply Z.eqb_eq in H4, E.
  replace method with a; [by apply list_elem_of_In|].
  rewrite (Z.div_mod a 4), (Z.div_mod method 4) by lia. lia.
Qed.

(** The run of methods of a row from one of its addresses. *)
Lemma row_run m end_addr a i : row_shape m = true -> m_dispatch m = Increasing end_addr -> a ∈ m_addrs m ->
  0 <= i < (end_addr - a) / 4 -> a + 4 * i ∈ m_addrs m /\ a + 4 * i ∉ exceptional.
Proof.
  unfold row_shape. intros [_ Hs]%andb_prop E Ha Hi. rewrite E in Hs.
  apply andb_prop in Hs as [Heq%bool_decide_eq_true Hex].
  set (base := hd 0 (m_addrs m)) in *. rewrite Heq in Ha. apply addresses_in in Ha as (k & Hk & ->).
  assert (base + 4 * k + 4 * i ∈ m_addrs m) as Hin.
  { rewrite Heq. unfold addresses. apply list_elem_of_fmap. exists (Z.to_nat (k + i)). split; [lia|].
    apply elem_of_seq. Z.to_euclidean_division_equations. lia. }
  split; [done|]. pose proof (proj1 (forallb_forall _ _) Hex _ (proj1 (list_elem_of_In _ _) Hin)).
  by apply negb_true_iff, bool_decide_eq_false in H.
Qed.

Lemma allowed_run a method f : a ∉ exceptional -> allowed a f -> allowed method f.
Proof.
  unfold exceptional, allowed. rewrite !not_elem_of_cons. intros Hn.
  intros [H|[(op & Hi & Hf)|[[-> _]|[[-> _]|[-> _]]]]]; [by left| |tauto..].
  right. left. exists op. split; [|done]. destruct op; cbn in *; try done; tauto.
Qed.

(** ** Batches *)

Lemma safe_parameter a ptr i d : inv d -> 0 <= ptr + 4 * i -> ptr + 4 * i + 4 <= size ->
  safe (allowed a) (fun _ => True) (parameter_at d ptr i).
Proof.
  intros Hd H0 H1. unfold parameter_at, ldl_le_p. rewrite (inv_vram _ _ _ Hd).
  by rewrite (proj2 (Z.leb_le _ _) H0), (proj2 (Z.leb_le _ _) H1).
Qed.

Lemma safe_method_loop a h step count d subch method ptr : inv d -> 0 <= ptr -> ptr + 4 * count <= size ->
  (forall i, 0 <= i < count ->
     forall d parameter, inv d -> safe (allowed a) inv (h d subch (method + step * i) parameter)) ->
  safe (allowed a) inv (method_loop h step count d subch method ptr).
Proof.
  intros Hd H0 Hn Hh. apply safe_for_loop; [done|]. intros i d1 Hi H1.
  eapply safe_bind; [apply safe_parameter; [done|lia|lia]|]. intros p _. apply Hh; [lia|done].
Qed.

(** The words a handler takes. *)
Definition taken (avail n : Z) : Prop := (0 < avail -> 0 < n) /\ (n <= avail \/ n = 1).

Lemma safe_one a h d subch method parameter avail : handler_ok a h -> inv d -> method = a ->
  safe (allowed a) (fun dn => inv dn.1 /\ taken avail dn.2)
    (d ← h d subch method parameter; Ok (d, 1)).
Proof.
  intros Hh Hd ->. eapply safe_bind; [by apply Hh|]. intros d1 H1. cbn. split; [done|]. split; [lia|by right].
Qed.

Lemma safe_run_method m d subch method parameter ptr avail inc :
  m ∈ pgraph_kelvin_methods -> method ∈ m_addrs m -> row_shape m = true -> inv d ->
  0 <= ptr -> 0 <= avail -> ptr + 4 * avail <= size ->
  safe (allowed method) (fun dn => inv dn.1 /\ taken avail dn.2)
    (run_method m d subch method parameter ptr avail inc).
Proof.
  intros Hm Ha Hs Hd H0 Hav Hn.
  pose proof (proj1 (Forall_forall _ _) kelvin_rows m Hm) as Hrow. pose proof (Hrow method Ha) as Hh.
  unfold run_method. destruct (m_dispatch m) as [|end_addr|] eqn:E; [by apply safe_one|..].
  - unfold pgraph_method_inc. destruct inc; [|by apply safe_one]. cbn [negb]. cbv zeta.
    eapply safe_bind; [|intros d1 H1; cbn; split; [done|]].
    + apply safe_method_loop; [done|done|lia|]. intros i Hi d1 p H1.
      destruct (row_run m end_addr method i Hs E Ha ltac:(lia)) as [Hin Hex].
      pose proof (Hrow _ Hin d1 subch p H1) as Hsafe.
      destruct (m_handler m d1 subch (method + 4 * i) p); [done|]. by apply (allowed_run _ _ _ Hex).
    + assert (0 < (end_addr - method) / 4) as Hpos; [|split; lia].
      unfold row_shape in Hs. rewrite E in Hs. apply andb_prop in Hs as [_ [Heq%bool_decide_eq_true _]%andb_prop].
      rewrite Heq in Ha. apply addresses_in in Ha as (k & Hk & ->). Z.to_euclidean_division_equations. lia.
  - unfold pgraph_method_non_inc. destruct inc; [by apply safe_one|].
    eapply safe_bind; [|intros d1 H1; cbn; split; [done|split; lia]].
    apply safe_method_loop; [done|done|lia|]. intros i Hi d1 p H1. rewrite Z.mul_0_l, Z.add_0_r. by apply Hh.
Qed.

Lemma safe_squash a d method ptr look : inv d -> 0 <= ptr -> (7 <= look -> ptr + 28 <= size) ->
  safe (allowed a) (fun b => b = true -> 7 <= look /\ method = NV097_DRAW_ARRAYS) (squash d method ptr look).
Proof.
  intros Hd H0 Hn. unfold squash. cbv zeta.
  destruct (_ && _ && _ && _) eqn:E; [|done]. rewrite !andb_true_iff in E.
  destruct E as [[[E1%Z.eqb_eq E2%Z.leb_le] _] _].
  assert (forall i, 1 <= i < 7 -> safe (allowed a) (fun _ => True) (parameter_at d ptr i)) as Hp
    by (intros i Hi; apply safe_parameter; [done|lia|lia]).
  assert (forall i mthd, 0 <= i < 3 -> safe (allowed a) (fun _ => True) (LAM d ptr i mthd)) as Hlam
    by (intros i mthd Hi; eapply safe_bind; [apply Hp; lia|done]).
  assert (forall i mthd prm, 0 <= i < 3 -> safe (allowed a) (fun _ => True) (LAMP d ptr i mthd prm)) as Hlamp.
  { intros i mthd prm Hi. eapply safe_bind; [by apply Hlam|]. intros [] _; [|done].
    eapply safe_bind; [apply Hp; lia|done]. }
  eapply safe_bind; [by apply Hlamp|]. intros [] _; [|done].
  eapply safe_bind; [by apply Hlamp|]. intros [] _; [|done].
  eapply safe_weaken; [by apply Hlam|]. done.
Qed.

Lemma draw_arrays_one m : kelvin_method NV097_DRAW_ARRAYS = Some m -> m_dispatch m = One.
Proof.
  assert (m_dispatch <$> kelvin_method (R := R) (V := V) NV097_DRAW_ARRAYS = Some One) as H by reflexivity.
  intros E. rewrite E in H. by injection H.
Qed.

Lemma run_one_count m d subch method parameter ptr avail inc d' n : m_dispatch m = One ->
  run_method m d subch method parameter ptr avail inc = Ok (d', n) -> n = 1.
Proof.
  intros E. unfold run_method. rewrite E. destruct (m_handler _ _ _ _ _); cbn; [|done]. by intros [= _ <-].
Qed.

Lemma inv_prevent_connect b d : inv d -> inv (upd_drawing (fun w => w <| draw_arrays_prevent_connect := b |>) d).
Proof. intros H. apply inv_upd_drawing; [done|]. by destruct (inv_drawing _ _ _ H). Qed.

Lemma safe_kelvin d subch method parameter ptr avail look inc :
  method mod 4 = 0 -> inv d -> 0 <= ptr -> 0 < avail <= look -> ptr + 4 * look <= size ->
  safe (allowed method) (fun dn => inv dn.1 /\ 0 < dn.2 <= look)
    (kelvin d subch method parameter ptr avail look inc).
Proof.
  intros Hm Hd H0 Hav Hn. unfold kelvin.
  destruct (kelvin_method method) as [m|] eqn:E; [|cbn; split; [done|lia]].
  destruct (kelvin_method_row _ _ Hm E) as (Hin & Ha & Hs).
  pose proof (safe_run_method m d subch method parameter ptr avail inc Hin Ha Hs Hd H0 ltac:(lia) ltac:(lia)) as Hr.
  destruct (run_method _ _ _ _ _ _ _ _) as [[d1 n]|f] eqn:Er; [|done].
  destruct Hr as [H1 [Hp Hle]]. cbn [mbind result_mbind result_bind fst snd] in *.
  eapply safe_bind; [apply (safe_squash _ d1 method ptr look); [done|done|lia]|].
  intros [] Hb; cbn [safe fst snd]; [|split; [done|lia]].
  split; [by apply inv_prevent_connect|]. destruct (Hb eq_refl) as [Hlook ->].
  rewrite (run_one_count _ _ _ _ _ _ _ _ _ _ (draw_arrays_one m E) Er). lia.
Qed.

(** ** Objects and classes *)

Lemma safe_ldl a n m p : 0 <= p -> p + 4 <= n -> safe (allowed a) (fun _ => True) (ldl_le_p n m p).
Proof. intros H0 H1. unfold ldl_le_p. by rewrite (proj2 (Z.leb_le _ _) H0), (proj2 (Z.leb_le _ _) H1). Qed.

Lemma safe_set_object a d subch parameter : inv d -> 0 <= subch < 8 -> 0 <= parameter ->
  parameter mod 16 = 0 -> ramin_size d mod 16 = 0 -> safe (allowed a) inv (set_object d subch parameter).
Proof.
  intros Hd Hs H0 Hp Hr. unfold set_object. apply safe_asserted. intros Hlt%Z.ltb_lt.
  assert (parameter + 16 <= ramin_size d) as Hle by (Z.to_euclidean_division_equations; lia).
  do 4 (eapply safe_bind; [apply safe_ldl; lia|]; intros ? _).
  do 4 (eapply (safe_bind _ inv); [apply safe_pgraph_reg_w; [by apply (reg_ok_slot _ _ 8)|done]|]; intros ? ?).
  apply safe_pgraph_reg_w; [by apply (reg_ok_slot _ _ 8)|done].
Qed.

Lemma safe_copy_reg a to from d : reg_ok to -> reg_ok from -> inv d -> safe (allowed a) inv (copy_reg to from d).
Proof.
  intros Ht Hf Hd. unfold copy_reg, pgraph_reg_r. rewrite (proj1 Hf).
  cbn [check Z.eqb mbind result_mbind result_bind].
  eapply safe_bind; [apply safe_reg_r_cell, Hf|]. intros v _. by apply safe_pgraph_reg_w.
Qed.

Lemma safe_load_context a d subch : inv d -> 0 <= subch < 8 -> safe (allowed a) inv (load_context d subch).
Proof.
  intros Hd Hs. unfold load_context.
  do 4 (eapply (safe_bind _ inv);
    [apply safe_copy_reg; [by split|by apply (reg_ok_slot _ _ 8)|done]|]; intros ? ?).
  apply safe_copy_reg; [by split|by apply (reg_ok_slot _ _ 8)|done].
Qed.

Lemma safe_enter a d subch method parameter : inv d -> 0 <= subch ->
  (method = NV_SET_OBJECT -> 0 <= parameter /\ parameter mod 16 = 0 /\ ramin_size d mod 16 = 0) ->
  safe (allowed a) inv (enter_method d subch method parameter).
Proof.
  intros Hd Hs Hp. unfold enter_method. apply safe_asserted. intros _.
  apply safe_asserted. intros Hlt%Z.ltb_lt. eapply (safe_bind _ inv); [|intros d1 H1; by apply safe_load_context].
  destruct (method =? NV_SET_OBJECT) eqn:E; [|done]. apply Z.eqb_eq in E.
  destruct (Hp E) as (H1 & H2 & H3). by apply safe_set_object.
Qed.

Lemma safe_blit_method d method parameter : inv d ->
  safe (allowed method) inv (blit_method d method parameter).
Proof.
  intros Hd. unfold blit_method, upd_blit. cbv zeta. ssteps.
  apply safe_render; [exact rlaws|by apply Z.eqb_eq|]. ssteps.
Qed.

(** C0. [pgraph_method] is memory-safe and keeps the invariant.  Called on the words the pusher offers, it
    stops only at an assertion, at a fault of the renderer, or at one of the three listed accesses; otherwise
    every array index stays within its array, it takes at least one word and no more than it may look at, and
    a register, constant, lighting row or program that differs from what the renderer has copied is marked
    dirty. *)
Theorem pgraph_method_safe d subch method parameter ptr avail look inc :
  inv d -> 0 <= subch -> method mod 4 = 0 -> 0 <= ptr -> 0 < avail <= look -> ptr + 4 * look <= size ->
  (method = NV_SET_OBJECT -> 0 <= parameter /\ parameter mod 16 = 0 /\ ramin_size d mod 16 = 0) ->
  safe (allowed method) (fun dn => inv dn.1 /\ 0 < dn.2 <= look)
    (pgraph_method d subch method parameter ptr avail look inc).
Proof.
  intros Hd Hs Hm H0 Hav Hn Hp. unfold pgraph_method.
  eapply safe_bind; [by apply safe_enter|]. intros d1 H1. apply safe_asserted. intros _. cbv zeta.
  assert (forall d2, inv d2 -> inv (d2, 1).1 /\ 0 < (d2, 1).2 <= look) as Hone by (intros d2 H2; cbn; split; [done|lia]).
  destruct (_ =? NV_BETA); [apply Hone; unfold beta_method; repeat case_match; ssteps|].
  destruct (_ =? NV_CONTEXT_PATTERN).
  { eapply (safe_bind _ inv); [|intros d2 H2; by apply Hone]. unfold pattern_method. ssteps. }
  destruct (_ =? NV_CONTEXT_SURFACES_2D).
  { apply Hone. unfold surfaces_2d_method, upd_surfaces_2d. ssteps. }
  destruct (_ =? NV_IMAGE_BLIT).
  { eapply (safe_bind _ inv); [by apply safe_blit_method|]. intros d2 H2. by apply Hone. }
  destruct (_ =? NV_KELVIN_PRIMITIVE); [by apply safe_kelvin|by apply Hone].
Qed.

End Safe.

(** ** The null renderer and the state after initialisation *)

(** A copy of everything, as a renderer would make it. *)
Definition snapshot {R V} (d : NV2AState (PGRAPHState R) V) : Cache :=
  mkCache (pgraph_regs d) (vsh_constants d) (ltctxa (lighting (pgraph_rest d)))
    (ltctxb (lighting (pgraph_rest d))) (ltc1 (lighting (pgraph_rest d))) (program_data (pgraph_rest d)).

Lemma snapshot_coherent {R V} (d : NV2AState (PGRAPHState R) V) : coherent (fun _ => snapshot d) d.
Proof. constructor; try done; intros i Hi; by destruct Hi. Qed.

Lemma pgraph_init_inv {R V} (d : NV2AState (PGRAPHState R) V) r : pgraph_rest d = pgraph_zero r ->
  inv (fun _ => snapshot (pgraph_init d)) (vram_size d) (pgraph_init d).
Proof.
  intros E. constructor; [| | |done|apply snapshot_coherent];
    unfold pgraph_init, drawing_of; cbn -[u32]; rewrite E; cbn -[u32].
  - constructor; cbn -[u32]; try done; [repeat constructor|lia].
  - by constructor.
  - done.
Qed.

#[export] Instance null_renderer_laws {V} (cache : unit -> Cache) size :
  RendererLaws (V := V) (renderer := pgraph_null_renderer) cache size
    (fun op f => f = OutOfBounds /\ exists parameter, op = GetReport parameter).
Proof.
  constructor. intros op d Hd. destruct op; try exact Hd. cbn.
  unfold pgraph_null_get_report, pgraph_write_zpass_pixel_cnt_report.
  destruct (nv_dma_map d _) as [[data len]|f] eqn:E; cbn [mbind result_mbind result_bind].
  2:{ apply dma_map_fault in E as [E|E]; [by left|right]. by eauto. }
  unfold check. destruct (_ <? len); cbn [mbind result_mbind result_bind]; [|left; by eexists].
  assert (forall n a v d, inv cache size d ->
    safe (fun f => is_assert f \/ f = OutOfBounds /\ exists p, GetReport parameter = GetReport p)
      (inv cache size) (st_le_p (V := V) n a v d)) as Hst.
  { intros n a v d1 H1. unfold st_le_p. destruct (_ && _); [|right; by eauto].
    by apply (inv_same cache size d1). }
  do 2 (eapply safe_bind; [by apply Hst|]; intros ? ?). by apply Hst.
Qed.

(** A program emulator that parses every program and writes no constant. *)
Definition vsh_none : VshEmulator := fun _ _ c => Some (c, ∅).
#[export] Instance vsh_none_laws : VshLaws (vsh := vsh_none).
Proof. constructor. intros program v0 c c' rows [= <- <-] i Hi. by destruct Hi. Qed.

(** A device whose channel is bound and whose subchannel 0 holds a 3D object. *)
Definition pgraph_board : NV2AState (PGRAPHState unit) unit :=
  mkNV2A (mkIrq 0 1) (mkIrq 0 0) ∅ false false ∅ (mkIrq 0 0) 1 2 0 ∅ (mkIrq 0 0xFFFFFFFF)
    (wr NV_PGRAPH_CTX_CACHE1 NV_KELVIN_PRIMITIVE (wr NV_PGRAPH_CTX_CONTROL NV_PGRAPH_CTX_CONTROL_CHID ∅))
    ∅ false false false ∅ (pgraph_zero tt) (mkIrq 0 1) 0 0
    (mkPramDac 0x00011C01 233333324 0 0x0003C20D 0 0 0 0 0 0 0 0) 0 ∅
    ∅ 0x4000000 ∅ 0x100000 ∅ tt false 1000000000.
Definition pgraph_device : NV2AState (PGRAPHState unit) unit := pgraph_init pgraph_board.

Lemma pgraph_method_safe_witness :
  safe (allowed (fun op f => f = OutOfBounds /\ exists p, op = GetReport p) NV097_SET_VERTEX3F)
    (fun dn => inv (fun _ => snapshot pgraph_device) 0x4000000 dn.1 /\ 0 < dn.2 <= 8)
    (pgraph_method (renderer := pgraph_null_renderer) (vsh := vsh_none) pgraph_device
       0 NV097_SET_VERTEX3F 0 0x1000 3 8 true).
Proof.
  apply (pgraph_method_safe (renderer := pgraph_null_renderer) (vsh := vsh_none)
    (fun _ => snapshot pgraph_device) 0x4000000 (fun op f => f = OutOfBounds /\ exists p, op = GetReport p) pgraph_device);
    [|done|done|done|lia|lia|done].
  exact (pgraph_init_inv pgraph_board tt eq_refl).
Defined.
