(* ===== verification/PgraphDraw.v ===== *)
(** What the methods of the 3D class collect for a draw.

    The inline vertex buffers hold, for every finished vertex, the values all
    attributes had when it was finished, although a buffer is only filled once
    its attribute changes.  Ranges of DRAW_ARRAYS denote the sequence of their
    vertex indices: joining contiguous ranges keeps it, and so does squashing
    repeated BEGIN, DRAW_ARRAYS, END.  A batch of words is handled as the words
    one by one.  The transform constants a program uploads are those that can be
    read back. *)

From S2P Require Import Prelude CFloat Nv2a Pfifo PgraphRegs PgraphState PgraphMethods PgraphDispatch PgraphSafe.

Section Draw.
Context {R V : Type} {renderer : Renderer R V} {vsh : VshEmulator}.

Abbreviation nv2a := (NV2AState (PGRAPHState R) V).
Implicit Types d : nv2a.

(** ** Inline vertices *)

(** The value of an attribute in vertex [i], the finished vertices, and the
    values the next vertex takes. *)
Definition vertex_at (i : nat) (a : VertexAttribute) : list Z :=
  if inline_buffer_populated a then load_bytes (inline_buffer a) (4 * Z.of_nat i) 4 else inline_value a.
Definition vertices d : list (list (list Z)) :=
  (fun i => vertex_at i <$> attributes d) <$> seq 0 (Z.to_nat (inline_buffer_length (drawing_of d))).
Definition current d : list (list Z) := inline_value <$> attributes d.

(** The two things the handlers do: assign components of an attribute, and
    finish a vertex. *)
Inductive vertex_op := Assign (attr : Z) (l : list (Z * Z)) | Finish.

Definition run_vertex_op (o : vertex_op) d : result nv2a :=
  match o with
  | Assign attr l => set_inline_values attr l d
  | Finish => pgraph_finish_inline_buffer_vertex d
  end.

Fixpoint run_vertex_ops (l : list vertex_op) d : result nv2a :=
  match l with [] => Ok d | o :: l => d ← run_vertex_op o d; run_vertex_ops l d end.

(** Their meaning: a list of complete vertices and the current values. *)
Definition spec_vertex_op (o : vertex_op) (s : list (list (list Z)) * list (list Z)) :
    list (list (list Z)) * list (list Z) :=
  match o with
  | Assign attr l =>
      (s.1, alter (fun v => fold_left (fun v iv => <[ Z.to_nat iv.1 := iv.2 ]> v) l v) (Z.to_nat attr) s.2)
  | Finish => (s.1 ++ [s.2], s.2)
  end.

(** What holds of the attributes and the number of vertices. *)
Definition vertex_ok d : Prop :=
  0 <= inline_buffer_length (drawing_of d) /\
  Forall (fun a => length (inline_value a) = 4%nat) (attributes d).

Lemma put_vertex_inv i value buf buf' : put_vertex i value buf = Ok buf' ->
  0 <= i /\ buf' = store_bytes buf (4 * i) value.
Proof.
  unfold put_vertex. destruct (0 <=? i) eqn:E; [|done]. cbn [andb]. destruct (_ <? _); [|done].
  intros [= <-]. apply Z.leb_le in E. done.
Qed.

(** A buffer with vertex [i] written. *)
Lemma load_put_same buf i value : length value = 4%nat ->
  load_bytes (store_bytes buf (4 * i) value) (4 * i) 4 = value.
Proof. intros H. rewrite <-H. apply load_store_same. Qed.
Lemma load_put_other buf i j value : length value = 4%nat -> i <> j ->
  load_bytes (store_bytes buf (4 * i) value) (4 * j) 4 = load_bytes buf (4 * j) 4.
Proof. intros H Hne. apply load_store_disjoint. rewrite H. lia. Qed.

Lemma fill_vertices value n : length value = 4%nat -> forall j buf buf',
  for_loop n j (fun i buf => put_vertex i value buf) buf = Ok buf' ->
  (forall i, j <= i < j + Z.of_nat n -> load_bytes buf' (4 * i) 4 = value) /\
  (forall i, i < j -> load_bytes buf' (4 * i) 4 = load_bytes buf (4 * i) 4).
Proof.
  intros Hv. induction n as [|n IH]; intros j buf buf'; cbn [for_loop].
  - intros [= <-]. split; [lia|done].
  - destruct (put_vertex j value buf) as [b|] eqn:E; [|done]. cbn [mbind result_mbind result_bind].
    apply put_vertex_inv in E as [_ ->]. intros [H1 H2]%IH. split.
    + intros i Hi. destruct (decide (i = j)) as [->|]; [|apply H1; lia].
      rewrite H2 by lia. by apply load_put_same.
    + intros i Hi. rewrite H2 by lia. apply load_put_other; [done|lia].
Qed.

Lemma vertices_insert d d' k x x' : attributes d !! k = Some x -> attributes d' = <[ k := x' ]> (attributes d) ->
  inline_buffer_length (drawing_of d') = inline_buffer_length (drawing_of d) ->
  (forall i, Z.of_nat i < inline_buffer_length (drawing_of d) -> vertex_at i x' = vertex_at i x) ->
  vertices d' = vertices d.
Proof.
  intros Hx Ha Hn Hv. unfold vertices. rewrite Ha, Hn. apply list_fmap_ext. intros j i Hi.
  apply lookup_seq in Hi as [-> Hi]. rewrite list_fmap_insert. apply list_insert_id.
  rewrite list_lookup_fmap, Hx. cbn. f_equal. symmetry. apply Hv. lia.
Qed.

Lemma fetch_inv {A} (l : list A) i x : fetch l i = Ok x -> 0 <= i /\ l !! Z.to_nat i = Some x.
Proof.
  unfold fetch. destruct (i <? 0) eqn:E; [done|]. apply Z.ltb_ge in E.
  destruct (l !! Z.to_nat i) eqn:El; [|done]. intros [= <-]. done.
Qed.

Lemma attributes_set k x d : attributes (set_attribute k x d) = <[ Z.to_nat k := x ]> (attributes d).
Proof. done. Qed.

Lemma vertex_ok_set k x d : vertex_ok d -> length (inline_value x) = 4%nat -> vertex_ok (set_attribute k x d).
Proof. intros [H1 H2] Hx. split; [done|]. rewrite attributes_set. by apply Forall_insert. Qed.

(** Before an attribute changes, the vertices finished so far have their own
    copy of its value. *)
Lemma allocate_spec d attr d' : vertex_ok d -> pgraph_allocate_inline_buffer_vertices d attr = Ok d' ->
  vertex_ok d' /\ vertices d' = vertices d /\ current d' = current d /\
  inline_buffer_length (drawing_of d') = inline_buffer_length (drawing_of d) /\
  exists x, attributes d' !! Z.to_nat attr = Some x /\
    (inline_buffer_populated x = true \/ inline_buffer_length (drawing_of d') = 0).
Proof.
  intros Hok. unfold pgraph_allocate_inline_buffer_vertices.
  destruct (fetch _ attr) as [x|] eqn:Ex; [|done]. cbn [mbind result_mbind result_bind].
  apply fetch_inv in Ex as [H0 Hx]. destruct (_ || _) eqn:E.
  { intros [= <-]. split_and!; try done. exists x. split; [done|].
    apply orb_prop in E as [E|E%Z.eqb_eq]; [by left|by right]. }
  apply orb_false_iff in E as [Ep El]. pose proof (proj1 (Forall_lookup _ _) (proj2 Hok) _ _ Hx) as Hlen.
  destruct (for_loop _ _ _ _) as [buf|] eqn:Eb; [|done]. cbn [mbind result_mbind result_bind].
  intros [= <-]. apply (fill_vertices _ _ Hlen) in Eb as [Hb _].
  set (x' := x <| inline_buffer_populated := true |> <| inline_buffer := buf |>).
  split_and!; try done.
  - by apply vertex_ok_set.
  - apply (vertices_insert d _ (Z.to_nat attr) x x'); [done|done|done|]. intros i Hi.
    unfold vertex_at. rewrite Ep. cbn. apply Hb. destruct Hok. lia.
  - unfold current. rewrite attributes_set, list_fmap_insert. apply list_insert_id.
    by rewrite list_lookup_fmap, Hx.
  - exists x'. split; [|by left]. rewrite attributes_set. apply list_lookup_insert_eq.
    by apply lookup_lt_Some in Hx.
Qed.

Lemma assign_values_spec l : forall value value', assign_values l value = Ok value' ->
  value' = fold_left (fun v iv => <[ Z.to_nat iv.1 := iv.2 ]> v) l value /\ length value' = length value.
Proof.
  induction l as [|[i v] l IH]; intros value value'; cbn [assign_values fold_left fst snd]; [by intros [= <-]|].
  destruct (blit value i [v]) as [v1|] eqn:E; [|done]. cbn [mbind result_mbind result_bind].
  unfold blit in E. destruct (_ && _); [|done]. injection E as <-. intros [-> ->]%IH.
  split; [done|]. by rewrite length_insert.
Qed.

Lemma assign_spec d attr l d' : vertex_ok d -> set_inline_values attr l d = Ok d' ->
  vertex_ok d' /\ (vertices d', current d') = spec_vertex_op (Assign attr l) (vertices d, current d).
Proof.
  intros Hok. unfold set_inline_values.
  destruct (pgraph_allocate_inline_buffer_vertices d attr) as [d1|] eqn:E1; [|done].
  cbn [mbind result_mbind result_bind].
  destruct (allocate_spec d attr d1 Hok E1) as (Hok1 & Hv & Hc & _ & x & Hx & Hpop).
  destruct (fetch _ attr) as [y|] eqn:Ey; [|done]. cbn [mbind result_mbind result_bind].
  apply fetch_inv in Ey as [_ Hy]. rewrite Hx in Hy. injection Hy as <-.
  destruct (assign_values _ _) as [value|] eqn:Ev; [|done]. cbn [mbind result_mbind result_bind].
  apply assign_values_spec in Ev as [-> Hlen]. intros [= <-].
  split. { apply vertex_ok_set; [done|]. cbn. rewrite Hlen. by apply (proj1 (Forall_lookup _ _) (proj2 Hok1) _ _ Hx). }
  cbn [spec_vertex_op fst snd]. f_equal.
  - rewrite <-Hv. eapply (vertices_insert d1 _ _ x); [done|done|done|]. intros i Hi.
    unfold vertex_at. cbn. destruct Hpop as [->|Hz]; [done|]. lia.
  - rewrite <-Hc. unfold current. rewrite attributes_set, list_fmap_insert. cbn.
    apply list_eq. intros i. destruct (decide (i = Z.to_nat attr)) as [->|Hne].
    + rewrite list_lookup_insert_eq by (rewrite length_fmap; by apply lookup_lt_Some in Hx).
      by rewrite list_lookup_alter_eq, list_lookup_fmap, Hx.
    + by rewrite list_lookup_insert_ne, list_lookup_alter_ne by done.
Qed.

(** A finished vertex in every buffer in use. *)
Lemma finish_attributes_spec n l l' : finish_attributes (Z.of_nat n) l = Ok l' ->
  Forall (fun a => length (inline_value a) = 4%nat) l ->
  inline_value <$> l' = inline_value <$> l /\ vertex_at n <$> l' = inline_value <$> l /\
  forall i, (i < n)%nat -> vertex_at i <$> l' = vertex_at i <$> l.
Proof.
  revert l'. induction l as [|a l IH]; intros l'; cbn [finish_attributes]; [by intros [= <-]|].
  destruct (finish_attribute _ a) as [a'|] eqn:Ea; [|done]. cbn [mbind result_mbind result_bind].
  destruct (finish_attributes _ l) as [l1|] eqn:El; [|done]. cbn [mbind result_mbind result_bind].
  intros [= <-] [Ha Hl]%Forall_cons. destruct (IH l1 eq_refl Hl) as (H1 & H2 & H3).
  assert (inline_value a' = inline_value a /\ vertex_at n a' = inline_value a /\
          forall i, (i < n)%nat -> vertex_at i a' = vertex_at i a) as (G1 & G2 & G3).
  { unfold finish_attribute in Ea. destruct (inline_buffer_populated a) eqn:Ep.
    - destruct (put_vertex _ _ _) as [buf|] eqn:Eb; [|done]. injection Ea as <-.
      apply put_vertex_inv in Eb as [_ ->]. unfold vertex_at. cbn. rewrite Ep. split_and!; [done| |].
      + by apply load_put_same.
      + intros i Hi. apply load_put_other; [done|lia].
    - injection Ea as <-. unfold vertex_at. rewrite Ep. done. }
  rewrite !fmap_cons, G1, G2, H1, H2. split_and!; [done|done|]. intros i Hi.
  by rewrite !fmap_cons, G3, H3.
Qed.

Lemma finish_spec d d' : vertex_ok d -> pgraph_finish_inline_buffer_vertex d = Ok d' ->
  vertex_ok d' /\ (vertices d', current d') = spec_vertex_op Finish (vertices d, current d).
Proof.
  intros [H0 Hf]. unfold pgraph_finish_inline_buffer_vertex. cbv zeta.
  destruct (check _ _); [|done]. cbn [mbind result_mbind result_bind].
  destruct (finish_attributes _ _) as [l|] eqn:El; [|done]. cbn [mbind result_mbind result_bind].
  set (d1 := upd_drawing _ d). intros [= <-]. assert (attributes d1 = l) as Ha by done.
  assert (inline_buffer_length (drawing_of d1) = inline_buffer_length (drawing_of d) + 1) as Hn by done.
  rewrite <-(Z2Nat.id _ H0) in El. destruct (finish_attributes_spec _ _ _ El Hf) as (H1 & H2 & H3).
  split; [split; [lia|]|].
  - assert (Forall (fun v => length v = 4%nat) (inline_value <$> l)) as Hl by (rewrite H1; by apply Forall_fmap).
    rewrite Ha. by apply Forall_fmap in Hl.
  - unfold spec_vertex_op, current, vertices. rewrite Ha, Hn, H1. cbn [fst snd]. f_equal.
    rewrite Z2Nat.inj_add, seq_app, fmap_app by lia. change (Z.to_nat 1) with 1%nat. cbn [seq Nat.add].
    rewrite fmap_cons, fmap_nil, H2. f_equal.
    apply list_fmap_ext. intros j i [-> Hi]%lookup_seq. cbn. apply H3. lia.
Qed.

(** C0. The inline vertex buffers hold what was drawn.  Whatever components the handlers assign and whenever
    they finish a vertex, the buffers, some of which are filled only when their attribute first changes,
    denote the list of vertices with, for each of them, the values all attributes had when it was
    finished. *)
Theorem inline_vertices_refine l : forall d d', vertex_ok d -> run_vertex_ops l d = Ok d' ->
  vertex_ok d' /\
  (vertices d', current d') = fold_left (fun s o => spec_vertex_op o s) l (vertices d, current d).
Proof.
  induction l as [|o l IH]; intros d d' Hok; cbn [run_vertex_ops fold_left]; [by intros [= <-]|].
  destruct (run_vertex_op o d) as [d1|] eqn:E; [|done]. cbn [mbind result_mbind result_bind].
  assert (vertex_ok d1 /\ (vertices d1, current d1) = spec_vertex_op o (vertices d, current d)) as [H1 <-].
  { destruct o; [by eapply assign_spec|by eapply finish_spec]. }
  by apply IH.
Qed.

(** ** Ranges of DRAW_ARRAYS *)

(** The ranges that wait to be drawn, the range of a parameter, and the
    indices of the vertices of some ranges. *)
Definition pending_ranges (w : Drawing) : list (Z * Z) :=
  (fun i => (rd (draw_arrays_start w) i, rd (draw_arrays_count w) i)) <$> seqZ 0 (draw_arrays_length w).
Definition range_of (parameter : Z) : Z * Z :=
  (GET_MASK parameter NV097_DRAW_ARRAYS_START_INDEX, GET_MASK parameter NV097_DRAW_ARRAYS_COUNT + 1).
Definition indices (l : list (Z * Z)) : list Z := mjoin ((fun r => seqZ r.1 r.2) <$> l).

(** A new range: contiguous with the last one it makes that one longer, unless
    this is prevented. *)
Definition extend (prevent : bool) (l : list (Z * Z)) (r : Z * Z) : list (Z * Z) :=
  match prevent, last l with
  | false, Some (s, c) => if r.1 =? s + c then removelast l ++ [(s, c + r.2)] else l ++ [r]
  | _, _ => l ++ [r]
  end.

Lemma range_of_ok parameter : range_ok (range_of parameter).1 (range_of parameter).2.
Proof.
  pose proof (GET_MASK_range parameter _ _ _ start_index_field).
  pose proof (GET_MASK_range parameter _ _ _ draw_count_field). unfold range_ok, range_of. cbn [fst snd]. lia.
Qed.

Lemma fmap_seqZ_snoc {A} (f : Z -> A) n : 0 <= n -> f <$> seqZ 0 (n + 1) = (f <$> seqZ 0 n) ++ [f n].
Proof. intros H. rewrite seqZ_app, fmap_app by lia. done. Qed.

Lemma pending_snoc w n : 0 <= n -> draw_arrays_length w = n + 1 -> pending_ranges w =
  ((fun i => (rd (draw_arrays_start w) i, rd (draw_arrays_count w) i)) <$> seqZ 0 n) ++
  [(rd (draw_arrays_start w) n, rd (draw_arrays_count w) n)].
Proof. intros H0 E. unfold pending_ranges. by rewrite E, fmap_seqZ_snoc. Qed.

(** The part of the state the other methods between BEGIN and END keep. *)
Definition same_draw d d' : Prop :=
  primitive_mode (drawing_of d') = primitive_mode (drawing_of d) /\
  inline_elements_length (drawing_of d') = inline_elements_length (drawing_of d) /\
  renderer_state (pgraph_rest d') = renderer_state (pgraph_rest d).

Lemma push_draw_array_spec d start count : drawing_ok (drawing_of d) ->
  draw_arrays_length (drawing_of d) < MAX_DRAW_ARRAYS -> range_ok start count ->
  exists d', push_draw_array start count d = Ok d' /\ same_draw d d' /\ drawing_ok (drawing_of d') /\
    draw_arrays_prevent_connect (drawing_of d') = false /\
    pending_ranges (drawing_of d') = pending_ranges (drawing_of d) ++ [(start, count)].
Proof.
  intros Hok Hn Hr. pose proof (ok_draws _ Hok). unfold push_draw_array, reg_w. cbv zeta.
  rewrite (proj2 (Z.leb_le _ _)), (proj2 (Z.ltb_lt _ _)) by lia. cbn [andb mbind result_mbind result_bind].
  eexists. split; [done|]. split_and!; [done| |done|].
  - eapply (drawing_ok_ranges _ (draw_arrays_length (drawing_of d)) _ Hok); cbn -[wr rd]; try done; try lia.
    + by rewrite !rd_wr_eq.
    + intros j Hj. by rewrite !rd_wr_ne.
  - erewrite (pending_snoc _ (draw_arrays_length (drawing_of d))); [|lia|done].
    cbn -[wr rd seqZ]. rewrite !rd_wr_eq. f_equal. unfold pending_ranges. apply list_fmap_ext.
    intros k i Hi. apply lookup_seqZ in Hi as [-> Hi]. by rewrite !rd_wr_ne by lia.
Qed.
Lemma draw_arrays_spec d subch a parameter : drawing_ok (drawing_of d) ->
  inline_elements_length (drawing_of d) = 0 -> draw_arrays_length (drawing_of d) < MAX_DRAW_ARRAYS ->
  exists d', draw_arrays d subch a parameter = Ok d' /\ same_draw d d' /\ drawing_ok (drawing_of d') /\
    draw_arrays_prevent_connect (drawing_of d') = false /\
    pending_ranges (drawing_of d') =
      extend (draw_arrays_prevent_connect (drawing_of d)) (pending_ranges (drawing_of d)) (range_of parameter).
Proof.
  intros Hok He Hn. pose proof (range_of_ok parameter) as Hr. unfold draw_arrays.
  change (GET_MASK parameter NV097_DRAW_ARRAYS_START_INDEX) with (range_of parameter).1.
  change (GET_MASK parameter NV097_DRAW_ARRAYS_COUNT + 1) with (range_of parameter).2.
  destruct (range_of parameter) as [start count]. cbn [fst snd] in *. cbv zeta. rewrite He. cbn [negb Z.eqb].
  set (d1 := upd_drawing _ d). assert (drawing_ok (drawing_of d1)) as Hok1 by (by destruct Hok).
  rewrite (proj2 (Z.ltb_lt _ _) Hn). cbn [check mbind result_mbind result_bind].
  destruct (push_draw_array_spec d1 start count Hok1 Hn Hr) as (d2 & E2 & Hpush).
  pose proof (ok_draws _ Hok) as Hl. destruct (draw_arrays_prevent_connect (drawing_of d)) eqn:Ep;
    cbn [negb andb].
  { exists d2. split; [done|]. unfold extend. exact Hpush. }
  destruct (0 <? draw_arrays_length (drawing_of d)) eqn:Epos.
  2:{ apply Z.ltb_ge in Epos. exists d2. split; [done|]. unfold extend.
      change (pending_ranges (drawing_of d1)) with (pending_ranges (drawing_of d)) in Hpush.
      assert (pending_ranges (drawing_of d) = []) as Hnil; [|by rewrite Hnil in *].
      unfold pending_ranges. by replace (draw_arrays_length (drawing_of d)) with 0 by lia. }
  apply Z.ltb_lt in Epos. set (n := draw_arrays_length (drawing_of d)) in *.
  pose proof (ok_ranges _ Hok (n - 1) ltac:(unfold n; lia)) as (Hs & Hc & Hsum).
  unfold reg_r. rewrite (proj2 (Z.leb_le _ _)), (proj2 (Z.ltb_lt _ _)) by lia.
  cbn [andb mbind result_mbind result_bind].
  set (s := rd (draw_arrays_start (drawing_of d)) (n - 1)) in *.
  set (c := rd (draw_arrays_count (drawing_of d)) (n - 1)) in *. rewrite u32_id by (unfold is_u32; lia).
  pose proof (pending_snoc (drawing_of d) (n - 1) ltac:(lia) ltac:(unfold n; lia)) as Hp. fold s c in Hp.
  rewrite Hp. unfold extend. rewrite last_snoc. cbn [fst snd].
  destruct (start =? s + c) eqn:E; [|exists d2; by rewrite <-Hp]. apply Z.eqb_eq in E.
  unfold reg_w. rewrite (proj2 (Z.leb_le _ _)), (proj2 (Z.ltb_lt _ _)) by lia.
  cbn [andb mbind result_mbind result_bind]. eexists. split; [done|]. rewrite s32_id by (unfold range_ok in Hr; lia).
  split_and!; [done| |done|].
  - eapply (drawing_ok_ranges _ (n - 1) _ Hok); cbn -[wr rd]; fold (drawing_of d) n s c; try done; try lia.
    + rewrite rd_wr_eq. unfold range_ok. fold s. unfold range_ok in Hr. lia.
    + intros j Hj. by rewrite rd_wr_ne.
  - rewrite removelast_last. erewrite (pending_snoc _ (n - 1)); [|lia|cbn; fold (drawing_of d) n; lia].
    cbn -[wr rd seqZ]. fold (drawing_of d) s. rewrite rd_wr_eq. f_equal. apply list_fmap_ext.
    intros k i Hi. apply lookup_seqZ in Hi as [-> Hi]. by rewrite rd_wr_ne by lia.
Qed.

(** Joining ranges keeps the vertices. *)
Lemma extend_indices prevent l r : 0 <= r.2 -> Forall (fun r => 0 <= r.2) l ->
  indices (extend prevent l r) = indices l ++ seqZ r.1 r.2.
Proof.
  intros H0 Hl. unfold indices.
  assert (forall l r, mjoin ((fun r : Z * Z => seqZ r.1 r.2) <$> l ++ [r]) =
                      mjoin ((fun r : Z * Z => seqZ r.1 r.2) <$> l) ++ seqZ r.1 r.2) as Hsnoc.
  { intros k q. rewrite fmap_app, join_app. cbn. by rewrite app_nil_r. }
  unfold extend. destruct prevent; [apply Hsnoc|].
  destruct (last l) as [[s c]|] eqn:E; [|apply Hsnoc].
  apply last_Some in E as (l' & ->). destruct (r.1 =? s + c) eqn:Er; [|apply Hsnoc]. apply Z.eqb_eq in Er.
  rewrite removelast_last, !Hsnoc. cbn [fst snd]. apply Forall_app in Hl as [_ [Hc _]%Forall_cons].
  rewrite seqZ_app, Er, app_assoc by (cbn in *; lia). done.
Qed.

(** ** Squashed draws *)

(** A renderer that draws the pending ranges one after the other at END and
    when it is told to flush. *)
Class DrawLog (log : R -> list (Z * (Z * Z))) : Prop := {
  draw_begin_keeps : forall d, exists d', render DrawBegin d = Ok d' /\ drawing_of d' = drawing_of d /\
    log (renderer_state (pgraph_rest d')) = log (renderer_state (pgraph_rest d));
  draw_end_draws : forall d, inline_elements_length (drawing_of d) = 0 ->
    exists d', render DrawEnd d = Ok d' /\ drawing_of d' = drawing_of d /\
      log (renderer_state (pgraph_rest d')) = log (renderer_state (pgraph_rest d)) ++
        (pair (primitive_mode (drawing_of d)) <$> pending_ranges (drawing_of d));
  flush_draws : forall d, inline_elements_length (drawing_of d) = 0 ->
    exists d', render FlushDraw d = Ok d' /\ drawing_of d' = drawing_of d /\
      log (renderer_state (pgraph_rest d')) = log (renderer_state (pgraph_rest d)) ++
        (pair (primitive_mode (drawing_of d)) <$> pending_ranges (drawing_of d));
}.

(** BEGIN, DRAW_ARRAYS and END for each of some parameters. *)
Fixpoint triplets (mode : Z) (ws : list Z) d : result nv2a :=
  match ws with
  | [] => Ok d
  | w :: ws =>
      d ← set_begin_end d 0 NV097_SET_BEGIN_END mode;
      d ← draw_arrays d 0 NV097_DRAW_ARRAYS w;
      d ← set_begin_end d 0 NV097_SET_BEGIN_END NV097_SET_BEGIN_END_OP_END;
      triplets mode ws d
  end.

(** The DRAW_ARRAYS of a run of which all but the last take the END and the
    BEGIN after them: five words instead of one. *)
Inductive squashed : list Z -> nv2a -> nv2a -> Prop :=
| squashed_last w d d' ptr avail look inc :
    kelvin d 0 NV097_DRAW_ARRAYS w ptr avail look inc = Ok (d', 1) -> squashed [w] d d'
| squashed_more w ws d d1 d' ptr avail look inc :
    kelvin d 0 NV097_DRAW_ARRAYS w ptr avail look inc = Ok (d1, 5) -> squashed ws d1 d' ->
    squashed (w :: ws) d d'.

Lemma kelvin_draw_arrays d subch w ptr avail look inc d' n :
  kelvin d subch NV097_DRAW_ARRAYS w ptr avail look inc = Ok (d', n) ->
  exists d1, draw_arrays d subch NV097_DRAW_ARRAYS w = Ok d1 /\
    (n = 1 /\ d' = d1 \/
     n = 5 /\ d' = upd_drawing (fun w => w <| draw_arrays_prevent_connect := true |>) d1 /\
       draw_arrays_length (drawing_of d1) < MAX_DRAW_ARRAYS - 1).
Proof.
  unfold kelvin. change (kelvin_method NV097_DRAW_ARRAYS) with (Some (DEF_METHOD (R := R) (V := V) NV097_DRAW_ARRAYS draw_arrays)).
  cbn [run_method m_dispatch m_handler DEF_METHOD].
  destruct (draw_arrays d subch NV097_DRAW_ARRAYS w) as [d1|]; [|done]. cbn [mbind result_mbind result_bind].
  destruct (squash d1 _ ptr look) as [b|] eqn:E; [|done]. cbn [mbind result_mbind result_bind].
  intros H. exists d1. split; [done|]. destruct b; injection H as <- <-; [right|by left].
  split_and!; [done|done|]. unfold squash in E.
  destruct (draw_arrays_length (drawing_of d1) <? MAX_DRAW_ARRAYS - 1) eqn:El; [by apply Z.ltb_lt|].
  rewrite andb_false_r in E. discriminate.
Qed.

Lemma pending_length w : 0 <= draw_arrays_length w -> Z.of_nat (length (pending_ranges w)) = draw_arrays_length w.
Proof. intros H. unfold pending_ranges. rewrite length_fmap, length_seqZ. lia. Qed.

Lemma same_draw_trans d1 d2 d3 : same_draw d1 d2 -> same_draw d2 d3 -> same_draw d1 d3.
Proof. intros (A1 & A2 & A3) (B1 & B2 & B3). split_and!; congruence. Qed.

Lemma squashed_spec ws d d' : squashed ws d d' -> drawing_ok (drawing_of d) ->
  inline_elements_length (drawing_of d) = 0 -> draw_arrays_length (drawing_of d) < MAX_DRAW_ARRAYS ->
  pending_ranges (drawing_of d) = [] \/ draw_arrays_prevent_connect (drawing_of d) = true ->
  same_draw d d' /\ drawing_ok (drawing_of d') /\
  pending_ranges (drawing_of d') = pending_ranges (drawing_of d) ++ (range_of <$> ws).
Proof.
  assert (forall prevent l r, l = [] \/ prevent = true -> extend prevent l r = l ++ [r]) as Hext.
  { intros [] l r [->|?]; done. }
  induction 1 as [w d d' ptr avail look inc E|w ws d d1 d' ptr avail look inc E Hs IH]; intros Hok He Hn Hp;
    destruct (kelvin_draw_arrays _ _ _ _ _ _ _ _ _ E) as (d2 & E2 & Hcase);
    destruct (draw_arrays_spec d 0 NV097_DRAW_ARRAYS w Hok He Hn) as (d3 & E3 & Hsame & Hok3 & _ & Hpend);
    rewrite E2 in E3; injection E3 as <-; rewrite Hext in Hpend by done.
  - destruct Hcase as [[_ ->]|[? _]]; [|lia]. split_and!; done.
  - destruct Hcase as [[? _]|(_ & -> & Hlt)]; [lia|].
    destruct IH as (H1 & H2 & H3); [by destruct Hok3|by rewrite <-He; apply Hsame|cbn; unfold drawing_of in *; lia|by right|].
    split_and!; [by eapply same_draw_trans|done|]. rewrite H3.
    change (pending_ranges (drawing_of (upd_drawing _ d2))) with (pending_ranges (drawing_of d2)).
    by rewrite Hpend, <-app_assoc.
Qed.
(** BEGIN of a draw, and END of one whose ranges are pending. *)
Section Log.
Context {log : R -> list (Z * (Z * Z))} {dlog : DrawLog log}.

Definition drawn d : list (Z * (Z * Z)) := log (renderer_state (pgraph_rest d)).

Lemma begin_spec mode d : drawing_ok (drawing_of d) -> primitive_mode (drawing_of d) = PRIM_TYPE_INVALID ->
  mode <> NV097_SET_BEGIN_END_OP_END -> mode <= NV097_SET_BEGIN_END_OP_POLYGON ->
  exists d', set_begin_end d 0 NV097_SET_BEGIN_END mode = Ok d' /\ drawing_ok (drawing_of d') /\
    primitive_mode (drawing_of d') = mode /\ inline_elements_length (drawing_of d') = 0 /\
    draw_arrays_length (drawing_of d') = 0 /\ drawn d' = drawn d.
Proof.
  intros Hok Hp Hm Hle. unfold set_begin_end. rewrite (proj2 (Z.eqb_neq _ _) Hm), Hp, Z.eqb_refl. cbn [negb].
  rewrite (proj2 (Z.leb_le _ _) Hle). cbn [check mbind result_mbind result_bind].
  destruct (draw_begin_keeps (pgraph_reset_inline_buffers
    (upd_drawing (fun w => w <| primitive_mode := mode |>) d))) as (d' & E & Hd & Hl).
  exists d'. rewrite Hd. unfold drawn. rewrite Hl. split_and!; try done.
  destruct Hok. constructor; cbn; try done; unfold MAX_DRAW_ARRAYS, NV2A_MAX_BATCH_LENGTH; lia.
Qed.

Lemma end_spec d : drawing_ok (drawing_of d) -> primitive_mode (drawing_of d) <> PRIM_TYPE_INVALID ->
  inline_elements_length (drawing_of d) = 0 ->
  exists d', set_begin_end d 0 NV097_SET_BEGIN_END NV097_SET_BEGIN_END_OP_END = Ok d' /\
    drawing_ok (drawing_of d') /\ primitive_mode (drawing_of d') = PRIM_TYPE_INVALID /\
    drawn d' = drawn d ++ (pair (primitive_mode (drawing_of d)) <$> pending_ranges (drawing_of d)).
Proof.
  intros Hok Hp He. unfold set_begin_end. rewrite Z.eqb_refl, (proj2 (Z.eqb_neq _ _) Hp).
  destruct (draw_end_draws d He) as (d' & -> & Hd & Hl). cbn [mbind result_mbind result_bind].
  eexists. split; [done|]. unfold drawn. cbn -[u32]. rewrite Hl. split_and!; try done.
  change (drawing (pgraph_rest d')) with (drawing_of d'). rewrite Hd.
  destruct Hok. constructor; cbn; try done; unfold MAX_DRAW_ARRAYS, NV2A_MAX_BATCH_LENGTH; lia.
Qed.

Lemma pending_none w : draw_arrays_length w = 0 -> pending_ranges w = [].
Proof. intros E. unfold pending_ranges. by rewrite E. Qed.

Lemma triplets_spec mode ws : mode <> NV097_SET_BEGIN_END_OP_END -> mode <> PRIM_TYPE_INVALID ->
  mode <= NV097_SET_BEGIN_END_OP_POLYGON -> forall d, drawing_ok (drawing_of d) ->
  primitive_mode (drawing_of d) = PRIM_TYPE_INVALID ->
  exists d', triplets mode ws d = Ok d' /\ drawn d' = drawn d ++ (pair mode <$> (range_of <$> ws)).
Proof.
  intros Hend Hinv Hle. induction ws as [|w ws IH]; intros d Hok Hp; cbn [triplets].
  { exists d. by rewrite app_nil_r. }
  destruct (begin_spec mode d Hok Hp Hend Hle) as (d1 & -> & Hok1 & Hp1 & He1 & Hl1 & Hd1).
  cbn [mbind result_mbind result_bind].
  destruct (draw_arrays_spec d1 0 NV097_DRAW_ARRAYS w Hok1 He1) as (d2 & -> & (Hm & He & Hr) & Hok2 & _ & Hpend).
  { rewrite Hl1. reflexivity. }
  cbn [mbind result_mbind result_bind]. rewrite (pending_none _ Hl1) in Hpend.
  destruct (end_spec d2 Hok2) as (d3 & -> & Hok3 & Hp3 & Hd3); [by rewrite Hm, Hp1|by rewrite He|].
  cbn [mbind result_mbind result_bind]. destruct (IH d3 Hok3 Hp3) as (d4 & -> & Hd4). exists d4. split; [done|].
  rewrite Hd4, Hd3, Hm, Hp1, Hpend, fmap_cons, fmap_cons. unfold drawn in *. rewrite Hr, Hd1.
  replace (extend _ [] (range_of w)) with [range_of w] by (by destruct (draw_arrays_prevent_connect _)).
  by rewrite <-app_assoc.
Qed.

(** C0. Squashing draws nothing else.  A BEGIN, DRAW_ARRAYS commands of which all but the last also took the
    END and BEGIN after them, and an END make the renderer draw exactly the primitives that the same
    parameters in triplets of their own do, range by range and in order, even where ranges are
    contiguous. *)
Theorem squash_draws mode ws d d1 d2 :
  mode <> NV097_SET_BEGIN_END_OP_END -> mode <> PRIM_TYPE_INVALID -> mode <= NV097_SET_BEGIN_END_OP_POLYGON ->
  drawing_ok (drawing_of d) -> primitive_mode (drawing_of d) = PRIM_TYPE_INVALID ->
  set_begin_end d 0 NV097_SET_BEGIN_END mode = Ok d1 -> squashed ws d1 d2 ->
  exists d3 d', set_begin_end d2 0 NV097_SET_BEGIN_END NV097_SET_BEGIN_END_OP_END = Ok d3 /\
    triplets mode ws d = Ok d' /\ drawn d3 = drawn d' /\
    drawn d3 = drawn d ++ (pair mode <$> (range_of <$> ws)).
Proof.
  intros Hend Hinv Hle Hok Hp E Hs.
  destruct (begin_spec mode d Hok Hp Hend Hle) as (e1 & E1 & Hok1 & Hp1 & He1 & Hl1 & Hd1).
  rewrite E1 in E. injection E as ->.
  destruct (squashed_spec ws d1 d2 Hs Hok1 He1) as ((Hm & He & Hr) & Hok2 & Hpend).
  { rewrite Hl1. reflexivity. } { left. by apply pending_none. }
  destruct (end_spec d2 Hok2) as (d3 & E3 & _ & _ & Hd3); [by rewrite Hm, Hp1|by rewrite He|].
  destruct (triplets_spec mode ws Hend Hinv Hle d Hok Hp) as (d' & E' & Hd').
  exists d3, d'. assert (drawn d3 = drawn d ++ (pair mode <$> (range_of <$> ws))) as H.
  { rewrite Hd3, Hm, Hp1, Hpend, (pending_none _ Hl1). unfold drawn in *. by rewrite Hr, Hd1. }
  split_and!; [done|done|by rewrite Hd'|done].
Qed.

End Log.

(** ** Batches *)

(** No two rows share an entry of the table. *)
Definition entries (m : @Method R V) : list Z := (fun a => a / 4) <$> m_addrs m.

Lemma kelvin_entries_distinct : NoDup (mjoin (entries <$> pgraph_kelvin_methods)).
Proof. apply (bool_decide_eq_true (NoDup _)). vm_compute. reflexivity. Qed.

Lemma find_row l m a : NoDup (mjoin (entries <$> l)) -> m ∈ l -> a ∈ m_addrs m ->
  List.find (fun m : Method => existsb (fun b => b / 4 =? a / 4) (m_addrs m)) l = Some m.
Proof.
  induction l as [|x l IH]; intros Hnd Hm Ha; [by apply not_elem_of_nil in Hm|].
  rewrite fmap_cons in Hnd. cbn [mjoin list_join] in Hnd. apply NoDup_app in Hnd as (_ & Hdis & Hnd).
  cbn [List.find]. destruct (existsb _ (m_addrs x)) eqn:E.
  - apply elem_of_cons in Hm as [->|Hm]; [done|]. exfalso.
    apply existsb_exists in E as (b & Hb & Heq%Z.eqb_eq). apply (Hdis (a / 4)).
    + apply list_elem_of_fmap. exists b. split; [done|]. by apply list_elem_of_In.
    + apply list_elem_of_join. exists (entries m). split; [by apply list_elem_of_fmap; exists a|].
      apply list_elem_of_fmap. by exists m.
  - apply elem_of_cons in Hm as [->|Hm]; [|by apply IH]. exfalso.
    assert (existsb (fun b => b / 4 =? a / 4) (m_addrs x) = true) as Ht; [|congruence].
    apply existsb_exists. exists a. split; [by apply list_elem_of_In|apply Z.eqb_refl].
Qed.

(** One word of a command, and a number of them one by one, each read when it
    is its turn. *)
Definition kelvin_call d (subch method w : Z) : result nv2a :=
  match kelvin_method method with Some m => m_handler m d subch method w | None => Ok d end.

Fixpoint one_by_one (n : nat) d (subch m : Z) (inc : bool) (ptr : Z) : result nv2a :=
  match n with
  | O => Ok d
  | S n => w ← parameter_at d ptr 0; d ← kelvin_call d subch (4 * m) w;
           one_by_one n d subch (next_method inc m) inc (ptr + 4)
  end.

(** The number of words a method takes. *)
Definition batch (method avail : Z) (inc : bool) : Z :=
  match kelvin_method (R := R) (V := V) method with
  | Some m =>
      match m_dispatch m, inc with
      | Increasing end_addr, true => Z.min avail ((end_addr - method) / 4)
      | Same, false => avail
      | _, _ => 1
      end
  | None => 1
  end.

Lemma loop_one_by_one row h step stride inc n subch : stride = 4 * step -> forall d m k ptr,
  (forall i, k <= i < k + Z.of_nat n -> kelvin_method (4 * (m + step * i)) = Some row) -> m_handler row = h ->
  (forall i, k <= i < k + Z.of_nat n -> next_method inc (m + step * i) = m + step * (i + 1) \/
     i + 1 = k + Z.of_nat n) ->
  for_loop n k (fun i d => w ← parameter_at d ptr i; h d subch (4 * m + stride * i) w) d =
  one_by_one n d subch (m + step * k) inc (ptr + 4 * k).
Proof.
  intros ->. induction n as [|n IH]; intros d m k ptr Hrow Hh Hnext; cbn [for_loop one_by_one]; [done|].
  replace (parameter_at d (ptr + 4 * k) 0) with (parameter_at d ptr k) by (unfold parameter_at; f_equal; lia).
  destruct (parameter_at d ptr k) as [w|]; cbn [mbind result_mbind result_bind]; [|done].
  unfold kelvin_call. rewrite (Hrow k), Hh by lia. replace (4 * (m + step * k)) with (4 * m + 4 * step * k) by lia.
  destruct (h _ _ _ _) as [d1|]; cbn [mbind result_mbind result_bind]; [|done].
  destruct n as [|n]; [done|]. destruct (Hnext k ltac:(lia)) as [->|]; [|lia].
  replace (ptr + 4 * k + 4) with (ptr + 4 * (k + 1)) by lia.
  apply IH; [|done|]; intros i Hi; [apply Hrow; lia|]. destruct (Hnext i ltac:(lia)) as [H|H]; [left; exact H|right; lia].
Qed.

Lemma next_run m i : 0 <= m + i -> m + i + 1 < 2 ^ 11 -> next_method true (m + i) = m + (i + 1).
Proof. intros H0 H1. unfold next_method. rewrite Z.mod_small; lia. Qed.

(** The table ends at 0x2000. *)
Lemma kelvin_bound : forallb (fun m : @Method R V => forallb (fun a => a <? 0x2000) (m_addrs m))
  pgraph_kelvin_methods = true.
Proof. vm_compute. reflexivity. Qed.

Lemma kelvin_row_bound m a : m ∈ pgraph_kelvin_methods -> a ∈ m_addrs m -> a < 0x2000.
Proof.
  intros Hm Ha. pose proof (proj1 (forallb_forall _ _) kelvin_bound m (proj1 (list_elem_of_In _ _) Hm)) as H.
  apply Z.ltb_lt. by apply (proj1 (forallb_forall _ _) H a), list_elem_of_In.
Qed.

(** A handler given the word at [ptr]. *)
Lemma call_one row d subch m w inc ptr : kelvin_method (4 * m) = Some row -> parameter_at d ptr 0 = Ok w ->
  m_handler row d subch (4 * m) w = one_by_one 1 d subch m inc ptr.
Proof.
  intros E Hw. cbn [one_by_one]. rewrite Hw. cbn [mbind result_mbind result_bind]. unfold kelvin_call. rewrite E.
  symmetry. apply result_bind_ret.
Qed.

Lemma run_one_by_one row d subch m w ptr avail inc : 0 <= m -> kelvin_method (4 * m) = Some row ->
  parameter_at d ptr 0 = Ok w -> 0 < avail ->
  run_method row d subch (4 * m) w ptr avail inc =
  (d' ← one_by_one (Z.to_nat (batch (4 * m) avail inc)) d subch m inc ptr; Ok (d', batch (4 * m) avail inc)).
Proof.
  intros H0 E Hw Hav. destruct (kelvin_method_row (4 * m) row) as (Hin & Ha & Hs); [by rewrite Z.mul_comm, Z.mod_mul|done|].
  unfold batch. rewrite E. unfold run_method. destruct (m_dispatch row) as [|end_addr|] eqn:Ed.
  - change (Z.to_nat 1) with 1%nat. by rewrite (call_one row d subch m w inc ptr E Hw).
  - unfold pgraph_method_inc. destruct inc; cbn [negb];
      [|change (Z.to_nat 1) with 1%nat; by rewrite (call_one row d subch m w false ptr E Hw)].
    cbv zeta. set (n := Z.min avail ((end_addr - 4 * m) / 4)). unfold method_loop.
    assert (forall i, 0 <= i < 0 + Z.of_nat (Z.to_nat n) -> 4 * (m + 1 * i) ∈ m_addrs row) as Hrun.
    { intros i Hi. replace (4 * (m + 1 * i)) with (4 * m + 4 * i) by lia.
      apply (row_run row end_addr (4 * m) i Hs Ed Ha). lia. }
    rewrite (loop_one_by_one row (m_handler row) 1 4 true (Z.to_nat n) subch eq_refl d m 0 ptr).
    + by rewrite Z.mul_0_r, !Z.add_0_r.
    + intros i Hi. apply find_row; [apply kelvin_entries_distinct|done|by apply Hrun].
    + done.
    + intros i Hi. destruct (Z.eq_dec (i + 1) (0 + Z.of_nat (Z.to_nat n))) as [|Hne]; [by right|left].
      rewrite !Z.mul_1_l. apply next_run; [lia|].
      pose proof (kelvin_row_bound row _ Hin (Hrun (i + 1) ltac:(lia))). lia.
  - unfold pgraph_method_non_inc. destruct inc;
      [change (Z.to_nat 1) with 1%nat; by rewrite (call_one row d subch m w true ptr E Hw)|].
    unfold method_loop. rewrite (loop_one_by_one row (m_handler row) 0 0 false (Z.to_nat avail) subch eq_refl d m 0 ptr).
    + by rewrite Z.mul_0_r, !Z.add_0_r.
    + intros i Hi. by rewrite Z.mul_0_l, Z.add_0_r.
    + done.
    + intros i Hi. left. unfold next_method. lia.
Qed.

Lemma squash_other d method ptr look : method <> NV097_DRAW_ARRAYS -> squash d method ptr look = Ok false.
Proof. intros H. unfold squash. by rewrite (proj2 (Z.eqb_neq _ _) H). Qed.

(** C0. A batch is its words one by one.  On an object of the 3D class, [pgraph_method] offered several words
    of a command has the effect of the handlers of the addresses the command gives to the words, each
    called with its own word, for the number of words it reports; the table gives every address of a batch
    the same handler, and no address two. *)
Theorem pgraph_method_one_by_one d d0 m w ptr avail look inc :
  0 <= m -> enter_method d 0 (4 * m) w = Ok d0 -> graphics_class d0 = NV_KELVIN_PRIMITIVE ->
  parameter_at d0 ptr 0 = Ok w -> 0 < avail ->
  pgraph_method d 0 (4 * m) w ptr avail look inc =
    (let n := batch (4 * m) avail inc in
     d' ← one_by_one (Z.to_nat n) d0 0 m inc ptr;
     b ← squash d' (4 * m) ptr look;
     Ok (if (b : bool)
         then (upd_drawing (fun w => w <| draw_arrays_prevent_connect := true |>) d', n + 4) else (d', n))).
Proof.
  intros H0 E Hc Hw Hav. unfold pgraph_method. rewrite E. cbn [mbind result_mbind result_bind].
  rewrite Hc. cbn [Z.eqb negb orb check mbind result_mbind result_bind]. cbv zeta. unfold kelvin.
  change (NV_KELVIN_PRIMITIVE =? NV_BETA) with false. change (NV_KELVIN_PRIMITIVE =? NV_CONTEXT_PATTERN) with false.
  change (NV_KELVIN_PRIMITIVE =? NV_CONTEXT_SURFACES_2D) with false.
  change (NV_KELVIN_PRIMITIVE =? NV_IMAGE_BLIT) with false. change (NV_KELVIN_PRIMITIVE =? NV_KELVIN_PRIMITIVE) with true.
  destruct (kelvin_method (4 * m)) as [row|] eqn:Em.
  - rewrite (run_one_by_one row d0 0 m w ptr avail inc H0 Em Hw Hav).
    by destruct (one_by_one _ _ _ _ _ _).
  - unfold batch. rewrite Em. change (Z.to_nat 1) with 1%nat. cbn [one_by_one]. rewrite Hw.
    cbn [mbind result_mbind result_bind]. unfold kelvin_call. rewrite Em. cbn [mbind result_mbind result_bind].
    rewrite squash_other; [done|]. intros Hda. rewrite Hda in Em.
    change (kelvin_method NV097_DRAW_ARRAYS) with (Some (DEF_METHOD (R := R) (V := V) NV097_DRAW_ARRAYS draw_arrays)) in Em.
    discriminate.
Qed.

(** ** Transform constants *)

Lemma GET_MASK_u32 v mask n k : bitfield mask n k -> GET_MASK (u32 v) mask = GET_MASK v mask.
Proof.
  intros (Hn & Hk & Hle & -> & _). unfold GET_MASK, u32. f_equal. rewrite <-(Z.land_ones v 32), <-Z.land_assoc by lia.
  f_equal. apply Z.bits_inj'. intros m Hm. rewrite Z.land_spec, Z.shiftl_spec by lia.
  destruct (Z.lt_ge_cases m (n + k)).
  - by rewrite Z.ones_spec_low by lia.
  - by rewrite (Z.ones_spec_high k), andb_false_r by lia.
Qed.

(** The load pointer of the constants, and the upload of words from slot [j] of
    SET_TRANSFORM_CONSTANT on. *)
Definition const_load d : Z := PG_GET_MASK d NV_PGRAPH_CHEOPS_OFFSET NV_PGRAPH_CHEOPS_OFFSET_CONST_LD_PTR.

Fixpoint upload (j : Z) (ws : list Z) d : result nv2a :=
  match ws with
  | [] => Ok d
  | w :: ws => d ← set_transform_constant d 0 (NV097_SET_TRANSFORM_CONSTANT + 4 * j) w; upload (j + 1) ws d
  end.

Lemma load_ptr_set v d : exists d', pg_set_mask d NV_PGRAPH_CHEOPS_OFFSET NV_PGRAPH_CHEOPS_OFFSET_CONST_LD_PTR v = Ok d' /\
  const_load d' = v mod 2 ^ 8 /\ vsh_constants d' = vsh_constants d.
Proof.
  eexists. split; [reflexivity|]. split; [|done]. unfold const_load, PG_GET_MASK. cbn -[SET_MASK GET_MASK rd wr u32].
  by rewrite rd_wr_eq, (GET_MASK_u32 _ _ _ _ const_ld_field), (GET_SET_same _ _ _ _ _ const_ld_field).
Qed.

(** One word. *)
Lemma set_constant_spec d j w : 0 <= j -> const_load d < NV2A_VERTEXSHADER_CONSTANTS ->
  exists d', set_transform_constant d 0 (NV097_SET_TRANSFORM_CONSTANT + 4 * j) w = Ok d' /\
    (forall i, rd (vsh_constants d') i = if i =? 4 * const_load d + j mod 4 then w else rd (vsh_constants d) i) /\
    const_load d' = const_load d + (if j mod 4 =? 3 then 1 else 0).
Proof.
  intros Hj Hq. pose proof (GET_MASK_range (rd (pgraph_regs d) NV_PGRAPH_CHEOPS_OFFSET) _ _ _ const_ld_field) as Hr.
  pose proof (Z.mod_pos_bound j 4 ltac:(lia)) as Hc. unfold set_transform_constant. rewrite slot_of by done.
  fold (const_load d). change (GET_MASK _ _) with (const_load d) in Hr. cbv zeta.
  rewrite (proj2 (Z.ltb_lt _ _) Hq). cbn [check mbind result_mbind result_bind].
  assert (exists d1, (if w =? rd (vsh_constants d) (4 * const_load d + j mod 4)
      then m ← put NV2A_VERTEXSHADER_CONSTANTS 4 (const_load d) (j mod 4) w (vsh_constants d); Ok (d <| vsh_constants := m |>)
      else set_vsh_constant (const_load d) (j mod 4) w d) = Ok d1 /\
    vsh_constants d1 = wr (4 * const_load d + j mod 4) w (vsh_constants d) /\ pgraph_regs d1 = pgraph_regs d)
    as (d1 & -> & Hm & Hregs).
  { unfold set_vsh_constant, put, mark.
    rewrite (proj2 (Z.leb_le 0 (const_load d))), (proj2 (Z.ltb_lt _ _) Hq), (proj2 (Z.leb_le 0 (j mod 4))),
      (proj2 (Z.ltb_lt (j mod 4) 4)) by lia. cbn [andb mbind result_mbind result_bind].
    destruct (w =? _); eexists; split; [done|done|done|done]. }
  cbn [mbind result_mbind result_bind].
  assert (const_load d1 = const_load d) as Hl by (unfold const_load, PG_GET_MASK; by rewrite Hregs).
  assert (forall i, rd (vsh_constants d1) i = if i =? 4 * const_load d + j mod 4 then w else rd (vsh_constants d) i) as Hrd.
  { intros i. rewrite Hm. destruct (i =? _) eqn:E; [apply Z.eqb_eq in E as ->; by rewrite rd_wr_eq|].
    apply Z.eqb_neq in E. by rewrite rd_wr_ne. }
  destruct (j mod 4 =? 3); [|exists d1; split_and!; [done|done|lia]].
  destruct (load_ptr_set (const_load d + 1) d1) as (d2 & -> & Hl2 & Hc2). exists d2.
  split_and!; [done|by rewrite Hc2|]. rewrite Hl2, Z.mod_small; [done|]. unfold NV2A_VERTEXSHADER_CONSTANTS in Hq. lia.
Qed.

Lemma upload_spec k ws : 0 <= k -> forall j d, 0 <= j -> const_load d = k + j / 4 ->
  4 * k + j + Z.of_nat (length ws) <= 4 * NV2A_VERTEXSHADER_CONSTANTS ->
  exists d', upload j ws d = Ok d' /\
    forall i, rd (vsh_constants d') i =
      if (4 * k + j <=? i) && (i <? 4 * k + j + Z.of_nat (length ws)) then byte ws (i - (4 * k + j))
      else rd (vsh_constants d) i.
Proof.
  intros Hk. induction ws as [|w ws IH]; intros j d Hj Hl Hn; cbn [upload length] in *.
  { exists d. split; [done|]. intros i.
    destruct (Z.leb_spec (4 * k + j) i), (Z.ltb_spec i (4 * k + j + Z.of_nat 0)); done || lia. }
  assert (const_load d < NV2A_VERTEXSHADER_CONSTANTS) as Hq.
  { rewrite Hl. Z.to_euclidean_division_equations. lia. }
  destruct (set_constant_spec d j w Hj Hq) as (d1 & -> & Hc1 & Hl1). cbn [mbind result_mbind result_bind].
  destruct (IH (j + 1) d1) as (d' & E' & Hc'); [lia| |lia|].
  { rewrite Hl1, Hl. destruct (j mod 4 =? 3) eqn:E;
      [apply Z.eqb_eq in E|apply Z.eqb_neq in E]; Z.to_euclidean_division_equations; lia. }
  exists d'. split; [done|]. intros i. rewrite Hc', Hc1, Hl.
  replace (4 * (k + j / 4) + j mod 4) with (4 * k + j) by (Z.to_euclidean_division_equations; lia).
  destruct (Z.eqb_spec i (4 * k + j)) as [->|Hne].
  - rewrite Z.sub_diag. destruct (Z.leb_spec (4 * k + (j + 1)) (4 * k + j)); [lia|].
    rewrite Z.leb_refl, (proj2 (Z.ltb_lt _ (4 * k + j + Z.of_nat (S (length ws))))) by lia. done.
  - destruct (Z.leb_spec (4 * k + (j + 1)) i), (Z.leb_spec (4 * k + j) i),
      (Z.ltb_spec i (4 * k + (j + 1) + Z.of_nat (length ws))),
      (Z.ltb_spec i (4 * k + j + Z.of_nat (S (length ws)))); try lia; try done. cbn [andb].
    unfold byte. replace (Z.to_nat (i - (4 * k + j))) with (S (Z.to_nat (i - (4 * k + (j + 1))))) by lia. done.
Qed.

(** C0. Transform constants read back as uploaded.  The words of a SET_TRANSFORM_CONSTANT command after a
    SET_TRANSFORM_CONSTANT_LOAD fill the rows from the load pointer on, and the register window on the
    constants returns each of them at its place; the other constants are as they were. *)
Theorem constants_read_back d k ws select :
  0 <= k < NV2A_VERTEXSHADER_CONSTANTS ->
  4 * k + Z.of_nat (length ws) <= 4 * NV2A_VERTEXSHADER_CONSTANTS ->
  vtx_select select = true ->
  exists d1 d', set_limited NV2A_VERTEXSHADER_CONSTANTS NV_PGRAPH_CHEOPS_OFFSET
      NV_PGRAPH_CHEOPS_OFFSET_CONST_LD_PTR "parameter < NV2A_VERTEXSHADER_CONSTANTS"
      d 0 NV097_SET_TRANSFORM_CONSTANT_LOAD k = Ok d1 /\ upload 0 ws d1 = Ok d' /\
    forall row col, 0 <= row < NV2A_VERTEXSHADER_CONSTANTS -> 0 <= col < 4 ->
      pgraph_rdi_read d' select (4 * row + (3 - col)) =
        Ok (if (4 * k <=? 4 * row + col) && (4 * row + col <? 4 * k + Z.of_nat (length ws))
            then byte ws (4 * row + col - 4 * k) else rd (vsh_constants d) (4 * row + col)).
Proof.
  intros Hk Hn Hs. unfold set_limited. rewrite (proj2 (Z.ltb_lt _ _) (proj2 Hk)).
  cbn [check mbind result_mbind result_bind].
  destruct (load_ptr_set k d) as (d1 & E1 & Hl1 & Hc1).
  destruct (upload_spec k ws (proj1 Hk) 0 d1) as (d' & E' & Hc'); [done| |lia|].
  { change (0 / 4) with 0. rewrite Hl1, Z.mod_small; [lia|]. unfold NV2A_VERTEXSHADER_CONSTANTS in Hk. lia. }
  exists d1, d'. split_and!; [done|done|]. intros row col Hrow Hcol. unfold pgraph_rdi_read. rewrite Hs.
  replace ((4 * row + (3 - col)) / 4) with row by (Z.to_euclidean_division_equations; lia).
  replace ((4 * row + (3 - col)) mod 4) with (3 - col) by (Z.to_euclidean_division_equations; lia).
  rewrite (proj2 (Z.ltb_lt _ _) (proj2 Hrow)). cbn [check mbind result_mbind result_bind].
  replace (3 - (3 - col)) with col by lia. unfold reg_r.
  rewrite (proj2 (Z.leb_le 0 _)), (proj2 (Z.ltb_lt _ (4 * NV2A_VERTEXSHADER_CONSTANTS))) by lia. cbn [andb].
  rewrite Hc', Hc1, Z.add_0_r. done.
Qed.

(** ** Elements after ranges *)

Definition element_list (w : Drawing) : list Z := rd (inline_elements w) <$> seqZ 0 (inline_elements_length w).

Lemma push_element_spec v d : drawing_ok (drawing_of d) ->
  inline_elements_length (drawing_of d) < NV2A_MAX_BATCH_LENGTH ->
  exists d', push_element v d = Ok d' /\ drawing_ok (drawing_of d') /\
    element_list (drawing_of d') = element_list (drawing_of d) ++ [v] /\
    inline_elements_length (drawing_of d') = inline_elements_length (drawing_of d) + 1 /\
    renderer_state (pgraph_rest d') = renderer_state (pgraph_rest d) /\
    pending_ranges (drawing_of d') = pending_ranges (drawing_of d).
Proof.
  intros Hok Hn. pose proof (ok_elements _ Hok) as He. unfold push_element, reg_w. cbv zeta.
  rewrite (proj2 (Z.leb_le _ _)), (proj2 (Z.ltb_lt _ _)) by lia. cbn [andb mbind result_mbind result_bind].
  eexists. split; [done|]. split_and!; [| |done..].
  - destruct Hok. constructor; try done. cbn. fold (drawing_of d). lia.
  - unfold element_list. cbn -[rd wr seqZ]. fold (drawing_of d). rewrite fmap_seqZ_snoc, rd_wr_eq by lia.
    f_equal. apply list_fmap_ext. intros k i Hi. apply lookup_seqZ in Hi as [-> Hi]. by rewrite rd_wr_ne by lia.
Qed.

Lemma push_range_spec start count : 0 <= count -> forall d, drawing_ok (drawing_of d) ->
  inline_elements_length (drawing_of d) + count <= NV2A_MAX_BATCH_LENGTH ->
  exists d', push_range start count d = Ok d' /\ drawing_ok (drawing_of d') /\
    element_list (drawing_of d') = element_list (drawing_of d) ++ (u32 <$> seqZ start count) /\
    inline_elements_length (drawing_of d') = inline_elements_length (drawing_of d) + count /\
    renderer_state (pgraph_rest d') = renderer_state (pgraph_rest d).
Proof.
  intros Hc. unfold push_range.
  assert (forall n i d, drawing_ok (drawing_of d) ->
    inline_elements_length (drawing_of d) + Z.of_nat n <= NV2A_MAX_BATCH_LENGTH ->
    exists d', for_loop n i (fun i d => push_element (u32 (start + i)) d) d = Ok d' /\ drawing_ok (drawing_of d') /\
      element_list (drawing_of d') = element_list (drawing_of d) ++ (u32 <$> seqZ (start + i) (Z.of_nat n)) /\
      inline_elements_length (drawing_of d') = inline_elements_length (drawing_of d) + Z.of_nat n /\
      renderer_state (pgraph_rest d') = renderer_state (pgraph_rest d)) as H.
  { induction n as [|n IH]; intros i d Hok Hn; cbn [for_loop].
    { exists d. split_and!; try done; [|lia]. by rewrite app_nil_r. }
    destruct (push_element_spec (u32 (start + i)) d Hok ltac:(lia)) as (d1 & -> & Hok1 & Hl1 & Hn1 & Hr1 & _).
    cbn [mbind result_mbind result_bind]. destruct (IH (i + 1) d1 Hok1 ltac:(lia)) as (d' & E & Hok' & Hl' & Hn' & Hr').
    exists d'. split_and!; [done|done| |lia|congruence].
    rewrite Hl', Hl1, <-app_assoc. f_equal. rewrite (seqZ_cons (start + i)), fmap_cons by lia.
    replace (Z.pred (Z.of_nat (S n))) with (Z.of_nat n) by lia. replace (Z.succ (start + i)) with (start + (i + 1)) by lia. done. }
  intros d Hok Hn. destruct (H (Z.to_nat count) 0 d Hok ltac:(lia)) as (d' & E & H1 & H2 & H3 & H4).
  exists d'. rewrite Z.add_0_r in H2. rewrite Z2Nat.id in H2, H3 by lia. done.
Qed.

(** ARRAY_ELEMENT16 asserts that there is room for one element and stores two. *)
Lemma array_element16_overruns d subch a p : drawing_ok (drawing_of d) ->
  inline_elements_length (drawing_of d) = NV2A_MAX_BATCH_LENGTH - 1 -> draw_arrays_length (drawing_of d) = 0 ->
  array_element16 d subch a p = Fault OutOfBounds.
Proof.
  intros Hok He Hl. unfold array_element16, begin_element. rewrite Hl. cbn [Z.eqb mbind result_mbind result_bind].
  rewrite (proj2 (Z.ltb_lt _ _)) by lia. cbn [check mbind result_mbind result_bind].
  destruct (push_element_spec (low16 p) d Hok ltac:(lia)) as (d1 & -> & _ & _ & Hn & _).
  cbn [mbind result_mbind result_bind]. unfold push_element, reg_w.
  by rewrite Hn, He, (proj2 (Z.ltb_ge _ _)), andb_false_r by lia.
Qed.

Section Elements.
Context {log : R -> list (Z * (Z * Z))} {dlog : DrawLog log}.

Lemma expand_spec d l s c : drawing_ok (drawing_of d) -> inline_elements_length (drawing_of d) = 0 ->
  pending_ranges (drawing_of d) = l ++ [(s, c)] -> c < NV2A_MAX_BATCH_LENGTH ->
  exists d', pgraph_expand_draw_arrays d = Ok d' /\ drawing_ok (drawing_of d') /\
    element_list (drawing_of d') = seqZ s c /\ inline_elements_length (drawing_of d') = c /\
    draw_arrays_length (drawing_of d') = 0 /\
    drawn (log := log) d' = drawn (log := log) d ++
      (if bool_decide (l = []) then [] else pair (primitive_mode (drawing_of d)) <$> (l ++ [(s, c)])).
Proof.
  intros Hok He Hp Hc. pose proof (ok_draws _ Hok) as Hl. pose proof (pending_length _ (proj1 Hl)) as Hlen.
  rewrite Hp, length_app in Hlen. cbn [length] in Hlen. set (n := draw_arrays_length (drawing_of d)) in *.
  pose proof (pending_snoc (drawing_of d) (n - 1) ltac:(lia) ltac:(unfold n; lia)) as Hs. rewrite Hp in Hs.
  apply app_inj_tail in Hs as [Hpre [= Hss Hcc]].
  pose proof (ok_ranges _ Hok (n - 1) ltac:(unfold n; lia)) as (Hs0 & Hc0 & Hsum). rewrite <-Hss, <-Hcc in *.
  unfold pgraph_expand_draw_arrays, reg_r. cbv zeta. fold n.
  rewrite (proj2 (Z.leb_le 0 (n - 1))), (proj2 (Z.ltb_lt (n - 1) MAX_DRAW_ARRAYS)) by lia. cbn [andb mbind result_mbind result_bind].
  rewrite <-Hss, <-Hcc.
  assert (exists d1, (if 1 <? n then d ← render FlushDraw d; Ok (pgraph_reset_inline_buffers d) else Ok d) = Ok d1 /\
    drawing_ok (drawing_of d1) /\ inline_elements_length (drawing_of d1) = 0 /\
    drawn (log := log) d1 = drawn (log := log) d ++
      (if bool_decide (l = []) then [] else pair (primitive_mode (drawing_of d)) <$> (l ++ [(s, c)])))
    as (d1 & -> & Hok1 & He1 & Hd1).
  { destruct (Z.ltb_spec 1 n) as [Hlt|Hge].
    - rewrite bool_decide_eq_false_2 by (intros ->; cbn in *; lia).
      destruct (flush_draws d He) as (d1 & -> & Hd & Hg). cbn [mbind result_mbind result_bind].
      eexists. split; [done|]. unfold drawn. cbn -[u32]. rewrite Hg, Hp. split_and!; try done.
      change (drawing (pgraph_rest d1)) with (drawing_of d1). rewrite Hd.
      destruct Hok. constructor; cbn; try done; unfold MAX_DRAW_ARRAYS, NV2A_MAX_BATCH_LENGTH; lia.
    - rewrite bool_decide_eq_true_2 by (apply length_zero_iff_nil; lia). exists d. by rewrite app_nil_r. }
  cbn [mbind result_mbind result_bind]. rewrite He1, (u32_id c), Z.add_0_l, (u32_id c) by (unfold is_u32; lia).
  rewrite (proj2 (Z.ltb_lt _ _) Hc). cbn [check mbind result_mbind result_bind].
  destruct (push_range_spec s c ltac:(lia) d1 Hok1 ltac:(lia)) as (d2 & -> & Hok2 & Hl2 & Hn2 & Hr2).
  cbn [mbind result_mbind result_bind]. eexists. split; [done|].
  unfold element_list at 2 in Hl2. rewrite He1 in Hl2, Hn2. cbn -[u32 seqZ] in Hl2.
  split_and!; [by apply drawing_ok_reset_arrays| |done|done|].
  - change (element_list (drawing_of (pgraph_reset_draw_arrays d2))) with (element_list (drawing_of d2)).
    rewrite Hl2. change (fmap u32 (seqZ s c) = seqZ s c). apply list_eq. intros i. rewrite list_lookup_fmap.
    destruct (seqZ s c !! i) as [x|] eqn:E; [|done]. cbn. f_equal. apply lookup_seqZ in E as [-> Hi].
    apply u32_id. unfold is_u32. lia.
  - rewrite <-Hd1. unfold drawn. cbn -[u32]. by rewrite Hr2.
Qed.

(** C0. An element after DRAW_ARRAYS.  With one range pending, ARRAY_ELEMENT32 turns it into its indices and
    adds the element.  With more of them, the code draws every pending range, the last one included, and
    still keeps the indices of the last one for the draw that follows: that range is drawn twice. *)
Theorem array_element_after_ranges d subch a p l s c :
  drawing_ok (drawing_of d) -> inline_elements_length (drawing_of d) = 0 ->
  pending_ranges (drawing_of d) = l ++ [(s, c)] -> c < NV2A_MAX_BATCH_LENGTH ->
  exists d', array_element32 d subch a p = Ok d' /\ pending_ranges (drawing_of d') = [] /\
    element_list (drawing_of d') = seqZ s c ++ [p] /\
    drawn (log := log) d' = drawn (log := log) d ++
      (if bool_decide (l = []) then [] else pair (primitive_mode (drawing_of d)) <$> (l ++ [(s, c)])).
Proof.
  intros Hok He Hp Hc. pose proof (ok_draws _ Hok) as Hl. pose proof (pending_length _ (proj1 Hl)) as Hlen.
  rewrite Hp, length_app in Hlen. cbn [length] in Hlen.
  destruct (expand_spec d l s c Hok He Hp Hc) as (d1 & E1 & Hok1 & Hl1 & Hn1 & Ha1 & Hd1).
  unfold array_element32, begin_element. rewrite (proj2 (Z.eqb_neq _ 0)), E1 by lia.
  cbn [mbind result_mbind result_bind]. rewrite Hn1, (proj2 (Z.ltb_lt _ _) Hc).
  cbn [check mbind result_mbind result_bind].
  destruct (push_element_spec p d1 Hok1 ltac:(lia)) as (d2 & -> & _ & Hl2 & _ & Hr2 & Hp2).
  exists d2. split_and!; [done| | |].
  - by rewrite Hp2, (pending_none _ Ha1).
  - by rewrite Hl2, Hl1.
  - rewrite <-Hd1. unfold drawn. by rewrite Hr2.
Qed.

End Elements.

End Draw.

(** ** Examples *)

(** The state of a run that ends well. *)
Definition final {A} (fallback : A) (c : result A) : A := match c with Ok a => a | Fault _ => fallback end.
Lemma final_ok {A} (fallback : A) c : (match c with Ok _ => true | Fault _ => false end) = true ->
  c = Ok (final fallback c).
Proof. by destruct c. Qed.
Lemma final_count {A} (fallback : A) (c : result (A * Z)) n :
  (match c with Ok (_, k) => k =? n | Fault _ => false end) = true -> c = Ok ((final (fallback, 0) c).1, n).
Proof. destruct c as [[a k]|]; [|done]. by intros ->%Z.eqb_eq. Qed.

Definition two_vertices : list vertex_op :=
  [ Assign 3 [(0, 7); (1, 7); (2, 7); (3, 7)]; Assign 0 [(0, 1); (1, 2); (2, 3); (3, 4)]; Finish;
    Assign 3 [(2, 9)]; Finish ].

Lemma inline_vertices_refine_witness : exists d', run_vertex_ops two_vertices pgraph_device = Ok d' /\
  (vertices d', current d') =
    fold_left (fun s o => spec_vertex_op o s) two_vertices (vertices pgraph_device, current pgraph_device).
Proof.
  exists (final pgraph_device (run_vertex_ops two_vertices pgraph_device)).
  assert (run_vertex_ops two_vertices pgraph_device =
    Ok (final pgraph_device (run_vertex_ops two_vertices pgraph_device))) as E by (apply final_ok; vm_compute; reflexivity).
  split; [exact E|]. apply (inline_vertices_refine two_vertices pgraph_device); [|exact E].
  split; [cbn; lia|]. vm_compute. repeat constructor.
Defined.

(** A renderer that records what it draws. *)
Definition recorder : Renderer (list (Z * (Z * Z))) unit := fun op d =>
  match op with
  | DrawEnd | FlushDraw =>
      Ok (upd (fun g => g <| renderer_state ::= fun l =>
        l ++ (pair (primitive_mode (drawing_of d)) <$> pending_ranges (drawing_of d)) |>) d)
  | _ => Ok d
  end.
#[export] Instance recorder_log : DrawLog (renderer := recorder) (fun l => l).
Proof. constructor; intros d; intros; eexists; (split; [reflexivity|]); done. Qed.

(** Video memory with the words of a command at 0x1000. *)
Definition with_words (ws : list Z) : mem := store_bytes ∅ 0x1000 (concat (map (le_bytes 4) ws)).

Definition recording_device (ws : list Z) : NV2AState (PGRAPHState (list (Z * (Z * Z)))) unit :=
  pgraph_init
    (mkNV2A (mkIrq 0 1) (mkIrq 0 0) ∅ false false ∅ (mkIrq 0 0) 1 2 0 ∅ (mkIrq 0 0xFFFFFFFF) ∅
       ∅ false false false ∅ (pgraph_zero []) (mkIrq 0 1) 0 0
       (mkPramDac 0x00011C01 233333324 0 0x0003C20D 0 0 0 0 0 0 0 0) 0 ∅
       (with_words ws) 0x4000000 ∅ 0x100000 ∅ tt false 1000000000).

(** DRAW_ARRAYS of the vertices 0 to 2, END, BEGIN and a DRAW_ARRAYS of 3 to 5. *)
Definition squash_words : list Z := [0x02000000; 0x417FC; 0; 0x417FC; 5; 0x41810; 0x02000003].
Definition begun := final (recording_device squash_words)
  (set_begin_end (renderer := recorder) (recording_device squash_words) 0 NV097_SET_BEGIN_END 5).
Definition first_draw := kelvin (renderer := recorder) (vsh := vsh_none) begun 0 NV097_DRAW_ARRAYS 0x02000000 0x1000 1 7 true.
Definition second_draw := kelvin (renderer := recorder) (vsh := vsh_none) (final (begun, 0) first_draw).1 0
  NV097_DRAW_ARRAYS 0x02000003 0x1018 1 1 true.

Lemma recording_ok ws : drawing_ok (drawing_of (recording_device ws)).
Proof. constructor; cbn; try done; [repeat constructor|lia]. Qed.

Lemma squash_draws_witness : exists d3 d',
  set_begin_end (renderer := recorder) (final (begun, 0) second_draw).1 0 NV097_SET_BEGIN_END
    NV097_SET_BEGIN_END_OP_END = Ok d3 /\
  triplets (renderer := recorder) 5 [0x02000000; 0x02000003] (recording_device squash_words) = Ok d' /\
  drawn (log := fun l => l) d3 = drawn (log := fun l => l) d' /\
  drawn (log := fun l => l) d3 = [(5, (0, 3)); (5, (3, 3))].
Proof.
  assert (set_begin_end (renderer := recorder) (recording_device squash_words) 0 NV097_SET_BEGIN_END 5 = Ok begun) as E
    by (unfold begun; apply final_ok; vm_compute; reflexivity).
  assert (squashed (renderer := recorder) (vsh := vsh_none) [0x02000000; 0x02000003] begun
    (final (begun, 0) second_draw).1) as Hs.
  { apply (squashed_more _ _ _ (final (begun, 0) first_draw).1 _ 0x1000 1 7 true).
    - unfold first_draw. apply final_count. vm_compute. reflexivity.
    - apply (squashed_last _ _ _ 0x1018 1 1 true). unfold second_draw. apply final_count. vm_compute. reflexivity. }
  destruct (squash_draws (renderer := recorder) (vsh := vsh_none) (log := fun l => l) 5 [0x02000000; 0x02000003]
    (recording_device squash_words) begun (final (begun, 0) second_draw).1) as (d3 & d' & H1 & H2 & H3 & H4);
    [discriminate|discriminate|discriminate|apply recording_ok|reflexivity|exact E|exact Hs|].
  exists d3, d'. split; [exact H1|]. split; [exact H2|]. split; [exact H3|]. rewrite H4. vm_compute. reflexivity.
Defined.

(** Three words of SET_VERTEX3F at once. *)
Definition entered := final pgraph_device (enter_method pgraph_device 0 NV097_SET_VERTEX3F 0).

Lemma pgraph_method_one_by_one_witness :
  pgraph_method (renderer := pgraph_null_renderer) (vsh := vsh_none) pgraph_device 0 (4 * 0x540) 0 0x1000 3 8 true =
    (let n := 3 in
     d' ← one_by_one (renderer := pgraph_null_renderer) (vsh := vsh_none) (Z.to_nat n) entered 0 0x540 true 0x1000;
     b ← squash d' (4 * 0x540) 0x1000 8;
     Ok (if (b : bool)
         then (upd_drawing (fun w => w <| draw_arrays_prevent_connect := true |>) d', n + 4) else (d', n))).
Proof.
  apply (pgraph_method_one_by_one (renderer := pgraph_null_renderer) (vsh := vsh_none) pgraph_device entered 0x540).
  - discriminate.
  - apply final_ok. vm_compute. reflexivity.
  - vm_compute. reflexivity.
  - vm_compute. reflexivity.
  - reflexivity.
Defined.

Lemma constants_read_back_witness : exists d1 d',
  set_limited NV2A_VERTEXSHADER_CONSTANTS NV_PGRAPH_CHEOPS_OFFSET
    NV_PGRAPH_CHEOPS_OFFSET_CONST_LD_PTR "parameter < NV2A_VERTEXSHADER_CONSTANTS"
    pgraph_device 0 NV097_SET_TRANSFORM_CONSTANT_LOAD 96 = Ok d1 /\ upload 0 [1; 2; 3; 4; 5] d1 = Ok d' /\
  pgraph_rdi_read d' RDI_INDEX_VTX_CONSTANTS0 (4 * 96 + (3 - 1)) = Ok 2.
Proof.
  destruct (constants_read_back pgraph_device 96 [1; 2; 3; 4; 5] RDI_INDEX_VTX_CONSTANTS0) as (d1 & d' & E1 & E2 & H);
    [split; [discriminate|reflexivity]|discriminate|reflexivity|].
  exists d1, d'. split; [exact E1|]. split; [exact E2|].
  rewrite (H 96 1); [reflexivity|split; [discriminate|reflexivity]|split; [discriminate|reflexivity]].
Defined.

(** Two ranges that are not contiguous. *)
Definition two_ranges : NV2AState (PGRAPHState (list (Z * (Z * Z)))) unit :=
  upd_drawing (fun w => w <| primitive_mode := 5 |> <| draw_arrays_length := 2 |>
    <| draw_arrays_start := wr 1 10 (wr 0 0 ∅) |> <| draw_arrays_count := wr 1 3 (wr 0 3 ∅) |>)
    (recording_device []).

Lemma two_ranges_ok : drawing_ok (drawing_of two_ranges).
Proof.
  destruct (recording_ok []). constructor; try assumption.
  - split; discriminate.
  - intros i Hi. assert (i = 0 \/ i = 1) as [-> | ->] by (cbn in Hi; lia); repeat split; discriminate.
Qed.

Lemma array_element_after_ranges_witness : exists d',
  array_element32 (renderer := recorder) two_ranges 0 NV097_ARRAY_ELEMENT32 20 = Ok d' /\
  pending_ranges (drawing_of d') = [] /\ element_list (drawing_of d') = [10; 11; 12; 20] /\
  drawn (log := fun l => l) d' = [(5, (0, 3)); (5, (10, 3))].
Proof.
  destruct (array_element_after_ranges (renderer := recorder) (log := fun l => l) two_ranges 0 NV097_ARRAY_ELEMENT32
    20 [(0, 3)] 10 3) as (d' & H1 & H2 & H3 & H4).
  - apply two_ranges_ok.
  - vm_compute. reflexivity.
  - vm_compute. reflexivity.
  - reflexivity.
  - exists d'. split; [exact H1|]. split; [exact H2|]. split; [rewrite H3|rewrite H4]; vm_compute; reflexivity.
Defined.
