(* ===== verification/Nvnet.v ===== *)
(** The Ethernet controller of the MCPX (nvnet.c): its byte-addressed register
    file, the descriptor rings in guest memory, reception with its address
    filter, transmission of frames gathered from several descriptors, the PHY
    behind the MDIO registers, link negotiation, reset and the migration of old
    snapshots.

    Guest memory is behind the class [PciDma]; the packets given to the network
    back end are the list [sent].  The theorems show that reception fills the
    ring in order, that a frame is sent as the concatenation of its fragments,
    that the transmit buffer never overflows, and that the interrupt line is the
    one the status and mask registers ask for. *)

From S2P Require Import Prelude.

(** ** Registers *)

Definition MMIO_SIZE : Z := 0x400.
Definition PHY_ADDR : Z := 1.
Definition AUTONEG_DURATION_MS : Z := 250.
Definition NVNET_IRQ_STATUS : Z := 0x000.
Definition NVNET_IRQ_STATUS_RX : Z := 0x02.
Definition NVNET_IRQ_STATUS_TX : Z := 0x10.
Definition NVNET_IRQ_STATUS_MIIEVENT : Z := 0x40.
Definition NVNET_IRQ_MASK : Z := 0x004.
Definition NVNET_TRANSMITTER_CONTROL : Z := 0x084.
Definition NVNET_TRANSMITTER_CONTROL_START : Z := 1.
Definition NVNET_PACKET_FILTER : Z := 0x08C.
Definition NVNET_PACKET_FILTER_MYADDR : Z := 0x20.
Definition NVNET_RECEIVER_CONTROL : Z := 0x094.
Definition NVNET_RECEIVER_CONTROL_START : Z := 1.
Definition NVNET_MAC_ADDR_A : Z := 0x0A8.
Definition NVNET_MAC_ADDR_B : Z := 0x0AC.
Definition NVNET_MULTICAST_ADDR_A : Z := 0x0B0.
Definition NVNET_MULTICAST_ADDR_B : Z := 0x0B4.
Definition NVNET_MULTICAST_MASK_A : Z := 0x0B8.
Definition NVNET_MULTICAST_MASK_B : Z := 0x0BC.
Definition NVNET_TX_RING_PHYS_ADDR : Z := 0x100.
Definition NVNET_RX_RING_PHYS_ADDR : Z := 0x104.
Definition NVNET_RING_SIZE : Z := 0x108.
Definition NVNET_RING_SIZE_TX : Z := 0x0000FFFF.
Definition NVNET_RING_SIZE_RX : Z := 0xFFFF0000.
Definition NVNET_TX_RING_CURRENT_DESC_PHYS_ADDR : Z := 0x11C.
Definition NVNET_RX_RING_CURRENT_DESC_PHYS_ADDR : Z := 0x120.
Definition NVNET_UNKNOWN_SETUP_REG5 : Z := 0x130.
Definition NVNET_UNKNOWN_SETUP_REG5_BIT31 : Z := bit 31.
Definition NVNET_TX_RING_NEXT_DESC_PHYS_ADDR : Z := 0x134.
Definition NVNET_RX_RING_NEXT_DESC_PHYS_ADDR : Z := 0x138.
Definition NVNET_TX_RX_CONTROL : Z := 0x144.
Definition NVNET_TX_RX_CONTROL_KICK : Z := 0x01.
Definition NVNET_TX_RX_CONTROL_BIT1 : Z := 0x02.
Definition NVNET_TX_RX_CONTROL_BIT2 : Z := 0x04.
Definition NVNET_TX_RX_CONTROL_IDLE : Z := 0x08.
Definition NVNET_TX_RX_CONTROL_RESET : Z := 0x10.
Definition NVNET_MII_STATUS : Z := 0x180.
Definition NVNET_MII_STATUS_LINKCHANGE : Z := 0x08.
Definition NVNET_ADAPTER_CONTROL : Z := 0x188.
Definition NVNET_ADAPTER_CONTROL_LINKUP : Z := 0x04.
Definition NVNET_MDIO_ADDR : Z := 0x190.
Definition NVNET_MDIO_ADDR_INUSE : Z := 0x8000.
Definition NVNET_MDIO_ADDR_WRITE : Z := 0x400.
Definition NVNET_MDIO_ADDR_PHYADDR : Z := 0x3E0.
Definition NVNET_MDIO_ADDR_PHYREG : Z := 0x1F.
Definition NVNET_MDIO_DATA : Z := 0x194.
Definition NV_TX_LASTPACKET : Z := bit 0.
Definition NV_TX_RETRYERROR : Z := bit 3.
Definition NV_TX_DEFERRED : Z := bit 10.
Definition NV_TX_CARRIERLOST : Z := bit 11.
Definition NV_TX_LATECOLLISION : Z := bit 12.
Definition NV_TX_UNDERFLOW : Z := bit 13.
Definition NV_TX_ERROR : Z := bit 14.
Definition NV_TX_VALID : Z := bit 15.
Definition NV_RX_DESCRIPTORVALID : Z := bit 0.
Definition NV_RX_BIT4 : Z := bit 4.
Definition NV_RX_AVAIL : Z := bit 15.
Definition RX_ALLOC_BUFSIZE : Z := 1628.
Definition TX_ALLOC_BUFSIZE : Z := 1628.
Definition MII_BMCR : Z := 0.
Definition MII_BMCR_AUTOEN : Z := bit 12.
Definition MII_BMCR_FD : Z := bit 8.
Definition MII_BMSR : Z := 1.
Definition MII_BMSR_AN_COMP : Z := bit 5.
Definition MII_BMSR_AUTONEG : Z := bit 3.
Definition MII_BMSR_LINK_ST : Z := bit 2.
Definition MII_ANAR : Z := 4.
Definition MII_ANLPAR : Z := 5.
Definition MII_ANLPAR_ACK : Z := bit 14.
(** 10, 10FD, TX, TXFD and T4. *)
Definition MII_ABILITIES : Z := 0x3E0.
Definition PHY_REGS : Z := 6.

(** ** State *)

(** Guest memory as the device reaches it. *)
Class PciDma (M : Type) := {
  pci_dma_read : M -> Z -> Z -> list Z;
  pci_dma_write : M -> Z -> list Z -> M;
}.

Record NvNetState (M : Type) := mkNvNet {
  regs : mem;
  phy_regs : mem;
  tx_dma_buf_offset : Z;
  tx_dma_buf : list Z;
  rx_dma_buf : list Z;
  autoneg_timer : option Z;
  tx_ring_index : Z;
  rx_ring_index : Z;
  guest : M;
  sent : list (list Z);
  link_down : bool;
  irq_line : bool;
  now_ms : Z;
}.
Arguments mkNvNet {M}.
Arguments regs {M} _.
Arguments phy_regs {M} _.
Arguments tx_dma_buf_offset {M} _.
Arguments tx_dma_buf {M} _.
Arguments rx_dma_buf {M} _.
Arguments autoneg_timer {M} _.
Arguments tx_ring_index {M} _.
Arguments rx_ring_index {M} _.
Arguments guest {M} _.
Arguments sent {M} _.
Arguments link_down {M} _.
Arguments irq_line {M} _.
Arguments now_ms {M} _.

#[export] Instance NvNetState_settable M : Settable (NvNetState M) :=
  settable! (@mkNvNet M) < regs ; phy_regs ; tx_dma_buf_offset ; tx_dma_buf ; rx_dma_buf ;
    autoneg_timer ; tx_ring_index ; rx_ring_index ; guest ; sent ; link_down ; irq_line ; now_ms >.

Record RingDesc := mkDesc { buffer_addr : Z; desc_length : Z; desc_flags : Z }.
#[export] Instance RingDesc_settable : Settable RingDesc :=
  settable! mkDesc < buffer_addr ; desc_length ; desc_flags >.

(** A little-endian 32-bit register of the file. *)
Definition r32 (m : mem) (addr : Z) : Z := le_word (load_bytes m addr 4).
Definition w32 (addr val : Z) (m : mem) : mem := store_bytes m addr (le_bytes 4 val).

Section Nvnet.
Context {M : Type} {dma : PciDma M}.
Implicit Types s : NvNetState M.

(** ** Register file *)

Definition access_ok (addr size : Z) : result unit :=
  _ ← check (addr <? MMIO_SIZE) "addr < MMIO_SIZE";
  _ ← check (Z.land addr (size - 1) =? 0) "(addr & (size - 1)) == 0";
  check ((size =? 4) || (size =? 2) || (size =? 1)) "Unsupported register access".

Definition get_reg_ext s (addr size : Z) : result Z :=
  _ ← access_ok addr size; Ok (le_word (load_bytes (regs s) addr (Z.to_nat size))).

Definition set_reg_ext s (addr val size : Z) : result (NvNetState M) :=
  _ ← access_ok addr size;
  Ok (s <| regs := store_bytes (regs s) addr (le_bytes (Z.to_nat size) val) |>).

(** The four-byte accesses of the device itself, at register addresses. *)
Definition get_reg s (addr : Z) : Z := r32 (regs s) addr.
Definition set_reg s (addr val : Z) : NvNetState M := s <| regs ::= w32 addr val |>.
Definition or_reg s (addr val : Z) : NvNetState M := set_reg s addr (Z.lor (get_reg s addr) val).
(** [and_reg(s, addr, ~val)]. *)
Definition andn_reg s (addr val : Z) : NvNetState M := set_reg s addr (Z.ldiff (get_reg s addr) val).

Definition set_reg_with_mask s (addr val w_mask : Z) : NvNetState M :=
  set_reg s addr (Z.lor (Z.land (get_reg s addr) (Z.lor val (Z.lnot w_mask))) (Z.land val w_mask)).

(** ** Interrupts *)

Definition update_irq s : NvNetState M :=
  s <| irq_line := has (get_reg s NVNET_IRQ_MASK) (get_reg s NVNET_IRQ_STATUS) |>.

Definition set_intr_status s (status : Z) : NvNetState M :=
  update_irq (or_reg s NVNET_IRQ_STATUS status).

Definition set_mii_intr_status s (status : Z) : NvNetState M :=
  set_intr_status (or_reg s NVNET_MII_STATUS status) NVNET_IRQ_STATUS_MIIEVENT.

Definition send_packet s (buf : list Z) : NvNetState M := s <| sent ::= fun l => l ++ [buf] |>.

(** ** Rings *)

Definition get_tx_ring_size s : Z := u16 (GET_MASK (get_reg s NVNET_RING_SIZE) NVNET_RING_SIZE_TX + 1).
Definition get_rx_ring_size s : Z := u16 (GET_MASK (get_reg s NVNET_RING_SIZE) NVNET_RING_SIZE_RX + 1).

Definition reset_descriptor_ring_pointers s : NvNetState M :=
  let base := get_reg s NVNET_TX_RING_PHYS_ADDR in
  let s := set_reg s NVNET_TX_RING_CURRENT_DESC_PHYS_ADDR base in
  let s := set_reg s NVNET_TX_RING_NEXT_DESC_PHYS_ADDR base in
  let base := get_reg s NVNET_RX_RING_PHYS_ADDR in
  let s := set_reg s NVNET_RX_RING_CURRENT_DESC_PHYS_ADDR base in
  set_reg s NVNET_RX_RING_NEXT_DESC_PHYS_ADDR base.

Definition link_up s : bool := has (rd (phy_regs s) MII_BMSR) MII_BMSR_LINK_ST.
Definition dma_enabled s : bool := negb (has (get_reg s NVNET_TX_RX_CONTROL) NVNET_TX_RX_CONTROL_BIT2).
Definition set_dma_idle s (idle : bool) : NvNetState M :=
  if idle then or_reg s NVNET_TX_RX_CONTROL NVNET_TX_RX_CONTROL_IDLE
  else andn_reg s NVNET_TX_RX_CONTROL NVNET_TX_RX_CONTROL_IDLE.
Definition rx_enabled s : bool := has (get_reg s NVNET_RECEIVER_CONTROL) NVNET_RECEIVER_CONTROL_START.

(** The current descriptor of a ring of [size] descriptors at [base], and the
    next one; the same code for both rings. *)
Definition current_desc (base size next : Z) : Z :=
  let max := u32 (base + size * 8) in
  if (next <? base) || (max <? next + 8) then base else next.

Definition next_desc (base size cur : Z) : Z :=
  let max := u32 (base + size * 8) in
  let next := u32 (cur + 8) in
  if max <=? next then base else next.

Definition update_current_rx_ring_desc_addr s : NvNetState M * Z :=
  let cur := current_desc (get_reg s NVNET_RX_RING_PHYS_ADDR) (get_rx_ring_size s)
               (get_reg s NVNET_RX_RING_NEXT_DESC_PHYS_ADDR) in
  (set_reg s NVNET_RX_RING_CURRENT_DESC_PHYS_ADDR cur, cur).

Definition advance_next_rx_ring_desc_addr s : NvNetState M :=
  set_reg s NVNET_RX_RING_NEXT_DESC_PHYS_ADDR
    (next_desc (get_reg s NVNET_RX_RING_PHYS_ADDR) (get_rx_ring_size s)
       (get_reg s NVNET_RX_RING_CURRENT_DESC_PHYS_ADDR)).

Definition update_current_tx_ring_desc_addr s : NvNetState M * Z :=
  let cur := current_desc (get_reg s NVNET_TX_RING_PHYS_ADDR) (get_tx_ring_size s)
               (get_reg s NVNET_TX_RING_NEXT_DESC_PHYS_ADDR) in
  (set_reg s NVNET_TX_RING_CURRENT_DESC_PHYS_ADDR cur, cur).

Definition advance_next_tx_ring_desc_addr s : NvNetState M :=
  set_reg s NVNET_TX_RING_NEXT_DESC_PHYS_ADDR
    (next_desc (get_reg s NVNET_TX_RING_PHYS_ADDR) (get_tx_ring_size s)
       (get_reg s NVNET_TX_RING_CURRENT_DESC_PHYS_ADDR)).

Definition desc_of_bytes (l : list Z) : RingDesc :=
  mkDesc (le_word (take 4 l)) (le_word (take 2 (drop 4 l))) (le_word (take 2 (drop 6 l))).
Definition bytes_of_desc (desc : RingDesc) : list Z :=
  le_bytes 4 (buffer_addr desc) ++ le_bytes 2 (desc_length desc) ++ le_bytes 2 (desc_flags desc).

Definition load_ring_desc s (desc_addr : Z) : RingDesc :=
  desc_of_bytes (pci_dma_read (guest s) desc_addr 8).
Definition store_ring_desc s (desc_addr : Z) (desc : RingDesc) : NvNetState M :=
  s <| guest ::= fun m => pci_dma_write m desc_addr (bytes_of_desc desc) |>.

(** ** Reception *)

Definition rx_buf_available s : NvNetState M * bool :=
  let '(s, cur) := update_current_rx_ring_desc_addr s in
  (s, has (desc_flags (load_ring_desc s cur)) NV_RX_AVAIL).

Definition nvnet_can_receive s : NvNetState M * bool :=
  let rx_en := rx_enabled s in
  let dma_en := dma_enabled s in
  let link_en := link_up s in
  let '(s, buf_avail) := rx_buf_available s in
  (s, rx_en && dma_en && link_en && buf_avail).

Definition dma_packet_to_guest s (buf : list Z) : result (NvNetState M * Z) :=
  let size := Z.of_nat (length buf) in
  let '(s, can) := nvnet_can_receive s in
  if negb can then Ok (s, -1)
  else
    let s := set_dma_idle s false in
    let '(s, cur) := update_current_rx_ring_desc_addr s in
    let desc := load_ring_desc s cur in
    '(s, rval) ←
      (if has (desc_flags desc) NV_RX_AVAIL then
         _ ← check (size <=? desc_length desc + 1) "(desc.length + 1) >= size";
         let s := s <| guest ::= fun m => pci_dma_write m (buffer_addr desc) buf |> in
         let desc := desc <| desc_length := u16 size |>
                          <| desc_flags := Z.lor NV_RX_BIT4 NV_RX_DESCRIPTORVALID |> in
         let s := store_ring_desc s cur desc in
         let s := set_intr_status s NVNET_IRQ_STATUS_RX in
         Ok (advance_next_rx_ring_desc_addr s, size)
       else Ok (s, -1));
    Ok (set_dma_idle s true, rval).

(** The six bytes of an address register pair. *)
Definition addr_bytes s (a b : Z) : list Z :=
  take 6 (le_bytes 4 (get_reg s a) ++ le_bytes 4 (get_reg s b)).

Definition is_broadcast_ether_addr (l : list Z) : bool :=
  Z.land (Z.land (Z.land (Z.land (Z.land (byte l 0) (byte l 1)) (byte l 2)) (byte l 3)) (byte l 4))
    (byte l 5) =? 0xff.

Definition receive_filter s (buf : list Z) : bool :=
  if Z.of_nat (length buf) <? 6 then false
  else if is_broadcast_ether_addr buf then true
  else if negb (has (get_reg s NVNET_PACKET_FILTER) NVNET_PACKET_FILTER_MYADDR) then true
  else
    let mcast := addr_bytes s NVNET_MULTICAST_ADDR_A NVNET_MULTICAST_ADDR_B in
    let mask := addr_bytes s NVNET_MULTICAST_MASK_A NVNET_MULTICAST_MASK_B in
    (negb (is_broadcast_ether_addr mcast) &&
       bool_decide (zip_with Z.land (take 6 buf) mask = mcast)) ||
    bool_decide (take 6 buf = addr_bytes s NVNET_MAC_ADDR_A NVNET_MAC_ADDR_B).

(** [nvnet_receive] and [nvnet_receive_iov]: a packet longer than the buffer or
    refused by the filter is dropped, but counts as received. *)
Definition nvnet_receive s (buf : list Z) : result (NvNetState M * Z) :=
  let size := Z.of_nat (length buf) in
  if RX_ALLOC_BUFSIZE <? size then Ok (s, size)
  else
    rx ← blit (rx_dma_buf s) 0 buf;
    let s := s <| rx_dma_buf := rx |> in
    if negb (receive_filter s buf) then Ok (s, size)
    else dma_packet_to_guest s buf.

(** ** Transmission *)

Definition tx_enabled s : bool :=
  has (get_reg s NVNET_TRANSMITTER_CONTROL) NVNET_TRANSMITTER_CONTROL_START.
Definition can_transmit s : bool := tx_enabled s && dma_enabled s && link_up s.

Definition tx_done_flags : Z :=
  Z.lor (Z.lor (Z.lor (Z.lor (Z.lor (Z.lor NV_TX_VALID NV_TX_RETRYERROR) NV_TX_DEFERRED)
    NV_TX_CARRIERLOST) NV_TX_LATECOLLISION) NV_TX_UNDERFLOW) NV_TX_ERROR.

(** The loop over at most [n] descriptors; the boolean is [packet_sent]. *)
Fixpoint tx_loop (n : nat) s : result (NvNetState M * bool) :=
  match n with
  | O => Ok (s, false)
  | S n =>
      let '(s, cur) := update_current_tx_ring_desc_addr s in
      let desc := load_ring_desc s cur in
      let length := u16 (desc_length desc + 1) in
      if negb (has (desc_flags desc) NV_TX_VALID) then Ok (s, false)
      else
        _ ← check (tx_dma_buf_offset s + length <=? TX_ALLOC_BUFSIZE)
              "(s->tx_dma_buf_offset + length) <= sizeof(s->tx_dma_buf)";
        buf ← blit (tx_dma_buf s) (tx_dma_buf_offset s)
                (pci_dma_read (guest s) (buffer_addr desc) length);
        let s := s <| tx_dma_buf := buf |> <| tx_dma_buf_offset ::= fun o => o + length |> in
        let is_last_packet := has (desc_flags desc) NV_TX_LASTPACKET in
        let s := if is_last_packet
                 then send_packet s (take (Z.to_nat (tx_dma_buf_offset s)) (tx_dma_buf s))
                        <| tx_dma_buf_offset := 0 |>
                 else s in
        let s := store_ring_desc s cur (desc <| desc_flags ::= fun f => Z.ldiff f tx_done_flags |>) in
        let s := advance_next_tx_ring_desc_addr s in
        if is_last_packet then Ok (s, true) else tx_loop n s
  end.

Definition dma_packet_from_guest s : result (NvNetState M) :=
  if negb (can_transmit s) then Ok s
  else
    let s := set_dma_idle s false in
    '(s, packet_sent) ← tx_loop (Z.to_nat (get_tx_ring_size s)) s;
    let s := set_dma_idle s true in
    Ok (if (packet_sent : bool) then set_intr_status s NVNET_IRQ_STATUS_TX else s).

(** ** Link and PHY *)

Definition phy_or (r v : Z) s : NvNetState M := s <| phy_regs ::= fun p => wr r (Z.lor (rd p r) v) p |>.
Definition phy_andn (r v : Z) s : NvNetState M :=
  s <| phy_regs ::= fun p => wr r (Z.ldiff (rd p r) v) p |>.

Definition update_regs_on_link_down s : NvNetState M :=
  let s := phy_andn MII_BMSR MII_BMSR_LINK_ST s in
  let s := phy_andn MII_BMSR MII_BMSR_AN_COMP s in
  let s := phy_andn MII_ANLPAR MII_ANLPAR_ACK s in
  andn_reg s NVNET_ADAPTER_CONTROL NVNET_ADAPTER_CONTROL_LINKUP.

Definition set_link_down s : NvNetState M :=
  set_mii_intr_status (update_regs_on_link_down s) NVNET_MII_STATUS_LINKCHANGE.

Definition update_regs_on_link_up s : NvNetState M :=
  or_reg (phy_or MII_BMSR MII_BMSR_LINK_ST s) NVNET_ADAPTER_CONTROL NVNET_ADAPTER_CONTROL_LINKUP.

Definition set_link_up s : NvNetState M :=
  set_mii_intr_status (update_regs_on_link_up s) NVNET_MII_STATUS_LINKCHANGE.

Definition restart_autoneg s : NvNetState M :=
  s <| autoneg_timer := Some (now_ms s + AUTONEG_DURATION_MS) |>.

Definition autoneg_done s : NvNetState M :=
  set_link_up (phy_or MII_BMSR MII_BMSR_AN_COMP (phy_or MII_ANLPAR MII_ANLPAR_ACK s)).

(** The timer callback; a timer that fired is no longer armed. *)
Definition autoneg_timer_cb s : NvNetState M :=
  let s := s <| autoneg_timer := None |> in
  if link_down s then s else autoneg_done s.

Definition have_autoneg s : bool := has (rd (phy_regs s) MII_BMCR) MII_BMCR_AUTOEN.
Definition autoneg_pending s : bool :=
  have_autoneg s && negb (has (rd (phy_regs s) MII_BMSR) MII_BMSR_AN_COMP).

(** The back end has set [link_down]. *)
Definition nvnet_set_link_status s : NvNetState M :=
  if link_down s then set_link_down s
  else if autoneg_pending s then restart_autoneg s else set_link_up s.

Definition phy_reg_read s (reg : Z) : Z := if reg <? PHY_REGS then u16 (rd (phy_regs s) reg) else 0.
Definition phy_reg_write s (reg value : Z) : NvNetState M :=
  if reg <? PHY_REGS then s <| phy_regs ::= wr reg (u16 value) |> else s.

Definition mdio_read s : NvNetState M :=
  let a := get_reg s NVNET_MDIO_ADDR in
  let mdio_data := if GET_MASK a NVNET_MDIO_ADDR_PHYADDR =? PHY_ADDR
                   then phy_reg_read s (GET_MASK a NVNET_MDIO_ADDR_PHYREG) else u32 (-1) in
  andn_reg (set_reg s NVNET_MDIO_DATA mdio_data) NVNET_MDIO_ADDR NVNET_MDIO_ADDR_INUSE.

Definition mdio_write s : NvNetState M :=
  let a := get_reg s NVNET_MDIO_ADDR in
  let mdio_data := get_reg s NVNET_MDIO_DATA in
  let s := if GET_MASK a NVNET_MDIO_ADDR_PHYADDR =? PHY_ADDR
           then phy_reg_write s (GET_MASK a NVNET_MDIO_ADDR_PHYREG) mdio_data else s in
  andn_reg s NVNET_MDIO_ADDR NVNET_MDIO_ADDR_INUSE.

(** ** Guest accesses *)

Definition nvnet_mmio_read s (addr size : Z) : result Z := get_reg_ext s addr size.

Definition nvnet_mmio_write s (addr val size : Z) : result (NvNetState M) :=
  _ ← check (Z.land addr 3 =? 0) "Unaligned MMIO write";
  if addr =? NVNET_MDIO_ADDR then
    _ ← check (size =? 4) "size == 4";
    s ← set_reg_ext s addr val size;
    Ok (if has val NVNET_MDIO_ADDR_WRITE then mdio_write s else mdio_read s)
  else if addr =? NVNET_TX_RX_CONTROL then
    let s := set_reg_with_mask s addr val (Z.lnot NVNET_TX_RX_CONTROL_IDLE) in
    s ← (if has val NVNET_TX_RX_CONTROL_KICK then dma_packet_from_guest s else Ok s);
    let s := if has val NVNET_TX_RX_CONTROL_RESET
             then reset_descriptor_ring_pointers s <| tx_dma_buf_offset := 0 |> else s in
    Ok (if has val NVNET_TX_RX_CONTROL_BIT1 then set_reg s NVNET_IRQ_STATUS 0
        else if val =? 0 then set_reg s NVNET_UNKNOWN_SETUP_REG5 NVNET_UNKNOWN_SETUP_REG5_BIT31
        else s)
  else if (addr =? NVNET_IRQ_STATUS) || (addr =? NVNET_MII_STATUS) then
    v ← get_reg_ext s addr size;
    s ← set_reg_ext s addr (Z.ldiff v val) size;
    Ok (update_irq s)
  else if addr =? NVNET_IRQ_MASK then
    s ← set_reg_ext s addr val size; Ok (update_irq s)
  else set_reg_ext s addr val size.

(** ** Reset and migration *)

Definition reset_phy_regs s : NvNetState M :=
  s <| phy_regs := list_to_map
         [ (MII_BMCR, Z.lor MII_BMCR_FD MII_BMCR_AUTOEN);
           (MII_BMSR, Z.lor (Z.lor MII_BMSR_AUTONEG MII_BMSR_AN_COMP) MII_BMSR_LINK_ST);
           (MII_ANAR, MII_ABILITIES); (MII_ANLPAR, MII_ABILITIES) ] |>.

Definition nvnet_reset s : NvNetState M :=
  let s := or_reg (s <| regs := ∅ |>) NVNET_TX_RX_CONTROL NVNET_TX_RX_CONTROL_IDLE in
  let s := reset_phy_regs s in
  let s := s <| tx_dma_buf := repeat 0 (Z.to_nat TX_ALLOC_BUFSIZE) |>
             <| rx_dma_buf := repeat 0 (Z.to_nat RX_ALLOC_BUFSIZE) |>
             <| tx_dma_buf_offset := 0 |>
             <| autoneg_timer := None |> in
  let s := if link_down s then update_regs_on_link_down s else s in
  s <| tx_ring_index := 0 |> <| rx_ring_index := 0 |>.

(** [tx_ring_index % get_tx_ring_size(s)]. *)
Definition ring_index (i size : Z) : result Z :=
  if size =? 0 then Fault DivByZero else Ok (i mod size).

Definition nvnet_post_load s (version_id : Z) : result (NvNetState M) :=
  s ← (if version_id <? 2 then
         let s := reset_phy_regs s in
         i ← ring_index (tx_ring_index s) (get_tx_ring_size s);
         let s := set_reg s NVNET_TX_RING_NEXT_DESC_PHYS_ADDR
                    (u32 (get_reg s NVNET_TX_RING_PHYS_ADDR + i * 8)) <| tx_ring_index := 0 |> in
         i ← ring_index (rx_ring_index s) (get_rx_ring_size s);
         Ok (set_reg s NVNET_RX_RING_NEXT_DESC_PHYS_ADDR
               (u32 (get_reg s NVNET_RX_RING_PHYS_ADDR + i * 8)) <| rx_ring_index := 0 |>)
       else Ok s);
  let s := s <| link_down := negb (link_up s) |> in
  Ok (if autoneg_pending s then restart_autoneg (s <| link_down := false |>) else s).

(** ** Everything that can happen to the device *)

Inductive event :=
| GuestRead (addr size : Z)
| GuestWrite (addr val size : Z)
| Packet (buf : list Z)
| LinkStatus (down : bool)
| AutonegTimer.

Definition event_step s (e : event) : result (NvNetState M) :=
  match e with
  | GuestRead addr size => _ ← nvnet_mmio_read s addr size; Ok s
  | GuestWrite addr val size => nvnet_mmio_write s addr val size
  | Packet buf => '(s, _) ← nvnet_receive s buf; Ok s
  | LinkStatus down => Ok (nvnet_set_link_status (s <| link_down := down |>))
  | AutonegTimer => Ok (autoneg_timer_cb s)
  end.

Fixpoint event_steps s (l : list event) : result (NvNetState M) :=
  match l with [] => Ok s | e :: l => s ← event_step s e; event_steps s l end.

(** ** Register lemmas *)

Lemma r32_w32_same m a v : r32 (w32 a v m) a = u32 v.
Proof. apply load_le_same. Qed.

Lemma r32_w32_other m a b v : b + 4 <= a \/ a + 4 <= b -> r32 (w32 a v m) b = r32 m b.
Proof.
  intros H. unfold r32, w32. rewrite load_store_disjoint; [done|]. rewrite length_le_bytes. lia.
Qed.

(** The registers are bytes. *)
Definition bytes_ok (m : mem) : Prop := forall a, is_u8 (rd m a).

Lemma r32_u32 m a : bytes_ok m -> is_u32 (r32 m a).
Proof.
  intros Hr. unfold r32, is_u32. change (2 ^ 32) with (256 ^ Z.of_nat 4).
  rewrite <- (length_load_bytes m a 4) at 2. apply le_word_range.
  unfold load_bytes. apply Forall_map, Forall_forall. intros i _. apply Hr.
Qed.

Lemma le_bytes_ok n v : Forall is_u8 (le_bytes n v).
Proof.
  revert v. induction n as [|n IH]; intros v; cbn [le_bytes]; constructor; [|done].
  apply u8_range.
Qed.

Lemma bytes_ok_store m a (l : list Z) : bytes_ok m -> Forall is_u8 l -> bytes_ok (store_bytes m a l).
Proof.
  intros Hm Hl x. rewrite rd_store_bytes. destruct (_ && _) eqn:E; [|apply Hm].
  rewrite andb_true_iff, Z.leb_le, Z.ltb_lt in E. unfold byte.
  apply (Forall_nth _ 0); [done|]. lia.
Qed.

Lemma bytes_ok_w32 m a v : bytes_ok m -> bytes_ok (w32 a v m).
Proof. intros Hm. apply bytes_ok_store; [done|]. apply le_bytes_ok. Qed.

Create HintDb nvnet.
#[local] Hint Resolve r32_u32 bytes_ok_w32 : nvnet.

(** Registers of an updated state. *)
Lemma get_set_same s a v : get_reg (set_reg s a v) a = u32 v.
Proof. apply r32_w32_same. Qed.
Lemma get_set_other s a b v : b + 4 <= a \/ a + 4 <= b -> get_reg (set_reg s a v) b = get_reg s b.
Proof. apply r32_w32_other. Qed.
Lemma get_guest s f a : get_reg (s <| guest ::= f |>) a = get_reg s a.
Proof. reflexivity. Qed.
Lemma get_store s b d a : get_reg (store_ring_desc s b d) a = get_reg s a.
Proof. reflexivity. Qed.
Lemma get_update_irq s a : get_reg (update_irq s) a = get_reg s a.
Proof. reflexivity. Qed.
Lemma get_rx_buf s l a : get_reg (s <| rx_dma_buf := l |>) a = get_reg s a.
Proof. reflexivity. Qed.

Ltac literal_apart := first [left; vm_compute; congruence | right; vm_compute; congruence].
Ltac rg := repeat first
  [ rewrite get_set_same | rewrite get_set_other by literal_apart | rewrite get_guest
  | rewrite get_store | rewrite get_update_irq | rewrite get_rx_buf ].

(** ** Guest memory and descriptors *)

(** What [pci_dma_read] and [pci_dma_write] do in ranges of guest RAM. *)
Class PciDmaLaws := {
  guest_byte : M -> Z -> Z;
  guest_ram : Z -> Z -> Prop;
  dma_read_length : forall m a n, length (pci_dma_read m a n) = Z.to_nat n;
  dma_read_byte : forall m a n i, guest_ram a n -> 0 <= i < n ->
    byte (pci_dma_read m a n) i = guest_byte m (a + i);
  dma_write_byte : forall m a l x, guest_ram a (Z.of_nat (length l)) ->
    guest_byte (pci_dma_write m a l) x =
      if (a <=? x) && (x <? a + Z.of_nat (length l)) then byte l (x - a) else guest_byte m x;
}.

Definition desc_ok (d : RingDesc) : Prop :=
  is_u32 (buffer_addr d) /\ is_u16 (desc_length d) /\ is_u16 (desc_flags d).

Lemma length_bytes_of_desc d : length (bytes_of_desc d) = 8%nat.
Proof. unfold bytes_of_desc. by rewrite !length_app, !length_le_bytes. Qed.

Lemma desc_roundtrip d : desc_ok d -> desc_of_bytes (bytes_of_desc d) = d.
Proof.
  intros (H1 & H2 & H3). unfold desc_of_bytes, bytes_of_desc.
  rewrite take_app_length' by (by rewrite length_le_bytes).
  rewrite (drop_app_length' (le_bytes 4 _)) by (by rewrite length_le_bytes).
  rewrite take_app_length' by (by rewrite length_le_bytes).
  change 6%nat with (4 + 2)%nat. rewrite <- drop_drop, (drop_app_length' (le_bytes 4 _)) by (by rewrite length_le_bytes).
  rewrite drop_app_length' by (by rewrite length_le_bytes).
  rewrite (firstn_all2 (n := 2) (le_bytes 2 (desc_flags d))) by (by rewrite length_le_bytes).
  rewrite !le_word_bytes. destruct d as [b l f]. cbn [buffer_addr desc_length desc_flags] in *.
  f_equal; by apply Z.mod_small.
Qed.

Section Delivery.
Context {laws : PciDmaLaws}.

Definition apart (a n b k : Z) : Prop := a + n <= b \/ b + k <= a.

Lemma read_write_same m a l : guest_ram a (Z.of_nat (length l)) ->
  pci_dma_read (pci_dma_write m a l) a (Z.of_nat (length l)) = l.
Proof.
  intros Hr. apply byte_ext; rewrite dma_read_length; [lia|]. intros i Hi.
  rewrite dma_read_byte, dma_write_byte by (done || lia).
  rewrite (proj2 (Z.leb_le _ _)), (proj2 (Z.ltb_lt _ _)) by lia. cbn [andb]. f_equal. lia.
Qed.

(** Reads depend only on the bytes of their range. *)
Lemma read_ext m m' a n : guest_ram a n ->
  (forall x, a <= x < a + n -> guest_byte m' x = guest_byte m x) ->
  pci_dma_read m' a n = pci_dma_read m a n.
Proof.
  intros Hr Hx. apply byte_ext; rewrite !dma_read_length; [done|]. intros i Hi.
  rewrite !dma_read_byte by (done || lia). apply Hx. lia.
Qed.

(** ** Ring arithmetic *)

Lemma current_desc_in base n i : 0 <= base -> 0 <= i < n -> base + 8 * n < 2 ^ 32 ->
  current_desc base n (base + 8 * i) = base + 8 * i.
Proof.
  intros Hb Hi Hn. unfold current_desc. rewrite u32_id by (unfold is_u32; lia).
  rewrite (proj2 (Z.ltb_ge (base + 8 * i) base)) by lia.
  by rewrite (proj2 (Z.ltb_ge (base + n * 8) (base + 8 * i + 8))) by lia.
Qed.

Lemma next_desc_in base n i : 0 <= base -> 0 <= i < n -> base + 8 * n < 2 ^ 32 ->
  next_desc base n (base + 8 * i) = base + 8 * ((i + 1) mod n).
Proof.
  intros Hb Hi Hn. unfold next_desc. rewrite !u32_id by (unfold is_u32; lia).
  rewrite <- wrap_mod by lia.
  destruct (Z.leb_spec (base + n * 8) (base + 8 * i + 8)), (Z.leb_spec n (i + 1)); lia.
Qed.

(** ** Reception *)

(** The receive ring: [n] descriptors at [base], the next one to fill is [i],
    and reception is on. *)
Record rx_ring s (base n i : Z) : Prop := {
  rx_base : get_reg s NVNET_RX_RING_PHYS_ADDR = base;
  rx_size : get_rx_ring_size s = n;
  rx_next : get_reg s NVNET_RX_RING_NEXT_DESC_PHYS_ADDR = base + 8 * i;
  rx_index : 0 <= i < n;
  rx_fits : 0 <= base /\ base + 8 * n < 2 ^ 32;
  rx_ram : forall j, 0 <= j < n -> guest_ram (base + 8 * j) 8;
  rx_on : rx_enabled s = true /\ dma_enabled s = true /\ link_up s = true;
  rx_bytes : bytes_ok (regs s);
  rx_buf : length (rx_dma_buf s) = Z.to_nat RX_ALLOC_BUFSIZE;
}.

(** The registers reception changes. *)
Definition rx_regs : list Z :=
  [NVNET_TX_RX_CONTROL; NVNET_RX_RING_CURRENT_DESC_PHYS_ADDR; NVNET_RX_RING_NEXT_DESC_PHYS_ADDR;
   NVNET_IRQ_STATUS].

(** A register that is none of them, at a multiple of four. *)
Definition other_reg (r : Z) : Prop := r mod 4 = 0 /\ r ∉ rx_regs.

Lemma other_reg_apart r a : other_reg r -> a ∈ rx_regs -> r + 4 <= a \/ a + 4 <= r.
Proof.
  intros [Hr Hn] Ha. assert (a mod 4 = 0) as Ha4.
  { unfold rx_regs in Ha. rewrite !elem_of_cons, elem_of_nil in Ha. destruct_or! Ha; subst; done. }
  assert (r <> a) by congruence.
  pose proof (Z.div_mod r 4 ltac:(done)). pose proof (Z.div_mod a 4 ltac:(done)). lia.
Qed.

Definition rx_filled (b len : Z) : RingDesc := mkDesc b len (Z.lor NV_RX_BIT4 NV_RX_DESCRIPTORVALID).

(** The current descriptor, in any state with the ring's registers. *)
Lemma update_current_rx s base n i :
  get_reg s NVNET_RX_RING_PHYS_ADDR = base -> get_rx_ring_size s = n ->
  get_reg s NVNET_RX_RING_NEXT_DESC_PHYS_ADDR = base + 8 * i ->
  0 <= i < n -> 0 <= base -> base + 8 * n < 2 ^ 32 ->
  update_current_rx_ring_desc_addr s =
    (set_reg s NVNET_RX_RING_CURRENT_DESC_PHYS_ADDR (base + 8 * i), base + 8 * i).
Proof.
  intros Hb Hs Hn Hi H0 Hfit. unfold update_current_rx_ring_desc_addr.
  by rewrite Hb, Hs, Hn, current_desc_in.
Qed.

Lemma rx_size_reg s s' : get_reg s' NVNET_RING_SIZE = get_reg s NVNET_RING_SIZE ->
  get_rx_ring_size s' = get_rx_ring_size s.
Proof. intros H. unfold get_rx_ring_size. by rewrite H. Qed.

(** The state after a packet has been put in slot [i]. *)
Definition rx_done s (cur b : Z) (buf : list Z) : NvNetState M :=
  let s1 := set_reg s NVNET_RX_RING_CURRENT_DESC_PHYS_ADDR cur in
  let s2 := set_reg (set_dma_idle s1 false) NVNET_RX_RING_CURRENT_DESC_PHYS_ADDR cur in
  let s3 := s2 <| guest ::= fun m => pci_dma_write m b buf |> in
  let s4 := store_ring_desc s3 cur (rx_filled b (Z.of_nat (length buf))) in
  let s5 := set_intr_status s4 NVNET_IRQ_STATUS_RX in
  set_dma_idle (advance_next_rx_ring_desc_addr s5) true.

Lemma dma_packet_done s base n i buf b c f :
  rx_ring s base n i -> load_ring_desc s (base + 8 * i) = mkDesc b c f ->
  has f NV_RX_AVAIL = true -> Z.of_nat (length buf) <= c + 1 ->
  Z.of_nat (length buf) <= RX_ALLOC_BUFSIZE ->
  dma_packet_to_guest s buf = Ok (rx_done s (base + 8 * i) b buf, Z.of_nat (length buf)).
Proof.
  intros [Hbase Hsize Hnext Hi [Hb0 Hfit] Hram (Hon1 & Hon2 & Hon3) Hbytes Hbuf] Hdesc Hav Hc Hlen.
  unfold dma_packet_to_guest, nvnet_can_receive, rx_buf_available.
  rewrite (update_current_rx s base n i) by done. rewrite Hon1, Hon2, Hon3. cbn [andb].
  change (load_ring_desc (set_reg s _ _) (base + 8 * i)) with (load_ring_desc s (base + 8 * i)).
  rewrite Hdesc. cbn [desc_flags]. rewrite Hav. cbn [negb].
  rewrite (update_current_rx _ base n i); try done; unfold set_dma_idle, andn_reg;
    [|by rg|by rewrite <- Hsize; apply rx_size_reg; rg|by rg].
  change (load_ring_desc (set_reg _ _ _) (base + 8 * i)) with (load_ring_desc s (base + 8 * i)).
  rewrite Hdesc. cbn [desc_flags desc_length buffer_addr]. rewrite Hav.
  rewrite (proj2 (Z.leb_le _ (c + 1))) by lia. cbn [check mbind result_mbind result_bind].
  rewrite (u16_id (Z.of_nat (length buf))) by (unfold RX_ALLOC_BUFSIZE in Hlen; unfold is_u16; lia).
  reflexivity.
Qed.

Lemma u32_lor x y : is_u32 x -> is_u32 y -> u32 (Z.lor x y) = Z.lor x y.
Proof.
  intros Hx Hy. unfold u32. rewrite <- Z.land_ones by done. rewrite Z.land_lor_distr_l.
  rewrite !Z.land_ones by done. by rewrite !Z.mod_small.
Qed.

Lemma has_lor_same x m : 0 < m -> has (Z.lor x m) m = true.
Proof.
  intros Hm. unfold has. rewrite Z.land_lor_distr_l, Z.land_diag. apply negb_true_iff, Z.eqb_neq.
  intros H0. apply Z.lor_eq_0_iff in H0. lia.
Qed.

Lemma rx_done_bytes s cur b buf : bytes_ok (regs s) -> bytes_ok (regs (rx_done s cur b buf)).
Proof.
  intros Hr. unfold rx_done, set_dma_idle, or_reg, andn_reg, advance_next_rx_ring_desc_addr,
    set_intr_status, or_reg, update_irq, store_ring_desc, set_reg.
  cbn [regs setf]. auto 10 with nvnet.
Qed.

Lemma rx_done_other s cur b buf r : other_reg r -> get_reg (rx_done s cur b buf) r = get_reg s r.
Proof.
  intros Hr. unfold rx_done, set_dma_idle, or_reg, andn_reg, advance_next_rx_ring_desc_addr,
    set_intr_status, or_reg.
  repeat first [ rewrite get_set_other by (apply other_reg_apart; [done|];
                   unfold rx_regs; rewrite !elem_of_cons; tauto)
               | rewrite get_guest | rewrite get_store | rewrite get_update_irq ].
  done.
Qed.

Lemma rx_done_control s cur b buf : bytes_ok (regs s) ->
  get_reg (rx_done s cur b buf) NVNET_TX_RX_CONTROL =
    Z.lor (Z.ldiff (get_reg s NVNET_TX_RX_CONTROL) NVNET_TX_RX_CONTROL_IDLE) NVNET_TX_RX_CONTROL_IDLE.
Proof.
  intros Hr. unfold rx_done at 1. unfold set_dma_idle at 1, or_reg at 1. rewrite get_set_same.
  unfold advance_next_rx_ring_desc_addr, set_intr_status, or_reg, set_dma_idle, andn_reg. rg.
  assert (is_u32 (get_reg s NVNET_TX_RX_CONTROL)) as Hu by (apply r32_u32; done).
  rewrite (u32_id (Z.ldiff _ _)) by (by apply ldiff_range).
  apply u32_lor; [by apply ldiff_range|done].
Qed.

Lemma rx_done_status s cur b buf : bytes_ok (regs s) ->
  get_reg (rx_done s cur b buf) NVNET_IRQ_STATUS =
    Z.lor (get_reg s NVNET_IRQ_STATUS) NVNET_IRQ_STATUS_RX.
Proof.
  intros Hr. unfold rx_done, set_dma_idle, or_reg, andn_reg, advance_next_rx_ring_desc_addr,
    set_intr_status, or_reg. rg. apply u32_lor; [by apply r32_u32|done].
Qed.

Lemma rx_done_line s cur b buf : bytes_ok (regs s) ->
  irq_line (rx_done s cur b buf) =
    has (get_reg s NVNET_IRQ_MASK) (Z.lor (get_reg s NVNET_IRQ_STATUS) NVNET_IRQ_STATUS_RX).
Proof.
  intros Hr. set (s2 := set_reg (set_dma_idle (set_reg s NVNET_RX_RING_CURRENT_DESC_PHYS_ADDR cur) false)
    NVNET_RX_RING_CURRENT_DESC_PHYS_ADDR cur).
  change (irq_line (rx_done s cur b buf)) with
    (has (get_reg (or_reg s2 NVNET_IRQ_STATUS NVNET_IRQ_STATUS_RX) NVNET_IRQ_MASK)
         (get_reg (or_reg s2 NVNET_IRQ_STATUS NVNET_IRQ_STATUS_RX) NVNET_IRQ_STATUS)).
  unfold or_reg, s2, set_dma_idle, andn_reg. rg. by rewrite u32_lor by (done || by apply r32_u32).
Qed.

Lemma other_base : other_reg NVNET_RX_RING_PHYS_ADDR.
Proof. split; [done|]. unfold rx_regs. rewrite !elem_of_cons, elem_of_nil. intuition discriminate. Qed.
Lemma other_size : other_reg NVNET_RING_SIZE.
Proof. split; [done|]. unfold rx_regs. rewrite !elem_of_cons, elem_of_nil. intuition discriminate. Qed.
Lemma other_rctl : other_reg NVNET_RECEIVER_CONTROL.
Proof. split; [done|]. unfold rx_regs. rewrite !elem_of_cons, elem_of_nil. intuition discriminate. Qed.
Lemma other_mask : other_reg NVNET_IRQ_MASK.
Proof. split; [done|]. unfold rx_regs. rewrite !elem_of_cons, elem_of_nil. intuition discriminate. Qed.

Lemma rx_done_next s base n i b buf : rx_ring s base n i ->
  get_reg (rx_done s (base + 8 * i) b buf) NVNET_RX_RING_NEXT_DESC_PHYS_ADDR =
    base + 8 * ((i + 1) mod n).
Proof.
  intros [Hbase Hsize Hnext Hi [Hb0 Hfit] Hram _ _ _]. unfold rx_done at 1.
  unfold set_dma_idle at 1, or_reg at 1. rg. unfold advance_next_rx_ring_desc_addr at 1.
  rewrite get_set_same.
  unfold set_intr_status, or_reg, set_dma_idle, andn_reg. rg.
  rewrite (rx_size_reg s), Hsize, Hbase by by rg.
  rewrite (u32_id (base + 8 * i)) by (unfold is_u32; lia). rewrite next_desc_in by done.
  pose proof (Z.mod_pos_bound (i + 1) n). apply u32_id. unfold is_u32. lia.
Qed.

Lemma rx_ring_done s base n i b buf :
  rx_ring s base n i -> rx_ring (rx_done s (base + 8 * i) b buf) base n ((i + 1) mod n).
Proof.
  intros Hr. pose proof (rx_done_next s base n i b buf Hr) as Hnext'.
  destruct Hr as [Hbase Hsize Hnext Hi [Hb0 Hfit] Hram (Hon1 & Hon2 & Hon3) Hbytes Hbuf].
  split; try done.
  - by rewrite rx_done_other by apply other_base.
  - rewrite <- Hsize. apply rx_size_reg. by apply rx_done_other, other_size.
  - apply Z.mod_pos_bound. lia.
  - split; [|split; [|done]].
    + unfold rx_enabled. by rewrite rx_done_other by apply other_rctl.
    + unfold dma_enabled. rewrite rx_done_control by done. revert Hon2. unfold dma_enabled, has.
      rewrite Z.land_lor_distr_l, Z.ldiff_land, <- Z.land_assoc.
      change (Z.land NVNET_TX_RX_CONTROL_IDLE NVNET_TX_RX_CONTROL_BIT2) with 0.
      by rewrite Z.lor_0_r.
  - by apply rx_done_bytes.
Qed.

(** ** A burst of packets *)

(** A packet for a buffer: its address, its capacity minus one and the packet. *)
Definition job : Type := Z * Z * list Z.
Definition job_size (x : job) : Z := Z.of_nat (length x.2).

(** Descriptor [i] of the ring offers the buffer of [x]. *)
Definition offers s (base i : Z) (x : job) : Prop :=
  exists f, load_ring_desc s (base + 8 * i) = mkDesc x.1.1 x.1.2 f /\ has f NV_RX_AVAIL = true.

(** The packet passes the filter and fits; its buffer is RAM outside the ring. *)
Record acceptable s (base n : Z) (x : job) : Prop := {
  acc_filter : receive_filter s x.2 = true;
  acc_fits : job_size x <= x.1.2 + 1 /\ job_size x <= RX_ALLOC_BUFSIZE;
  acc_ram : guest_ram x.1.1 (job_size x) /\ is_u32 x.1.1;
  acc_apart : apart x.1.1 (job_size x) base (8 * n);
}.

Fixpoint buffers_apart (l : list job) : Prop :=
  match l with
  | [] => True
  | x :: l => Forall (fun y => apart x.1.1 (job_size x) y.1.1 (job_size y)) l /\ buffers_apart l
  end.

Fixpoint receive_all s (pkts : list (list Z)) : result (NvNetState M * list Z) :=
  match pkts with
  | [] => Ok (s, [])
  | p :: pkts =>
      '(s, r) ← nvnet_receive s p;
      '(s, rs) ← receive_all s pkts;
      Ok (s, r :: rs)
  end.

Lemma filter_kept s s' p : (forall r, other_reg r -> get_reg s' r = get_reg s r) ->
  receive_filter s' p = receive_filter s p.
Proof.
  intros Hr. unfold receive_filter, addr_bytes.
  rewrite !Hr; [done|..]; (split; [done|]); unfold rx_regs; rewrite !elem_of_cons, elem_of_nil;
    intuition discriminate.
Qed.

Lemma slot_range n i : 0 < n -> 0 <= i mod n < n.
Proof. intros. by apply Z.mod_pos_bound. Qed.

(** Distinct positions within one turn of the ring. *)
Lemma slot_distinct n i j : 0 <= i < n -> 0 < j < n -> (i + j) mod n <> i.
Proof.
  intros Hi Hj H. destruct (Z.lt_ge_cases (i + j) n).
  - rewrite Z.mod_small in H; lia.
  - rewrite <- (Z.mod_unique_pos (i + j) n 1 (i + j - n)) in H; lia.
Qed.

(** What one packet does to guest memory. *)
Record stored s s' (base i : Z) (x : job) : Prop := {
  st_buffer : apart x.1.1 (job_size x) (base + 8 * i) 8 ->
    pci_dma_read (guest s') x.1.1 (job_size x) = x.2;
  st_desc : load_ring_desc s' (base + 8 * i) = rx_filled x.1.1 (job_size x);
  st_frame : forall a, ~ (base + 8 * i <= a < base + 8 * i + 8) ->
    ~ (x.1.1 <= a < x.1.1 + job_size x) -> guest_byte (guest s') a = guest_byte (guest s) a;
}.

Lemma stored_writes s s' base i (x : job) : guest_ram (base + 8 * i) 8 ->
  guest_ram x.1.1 (job_size x) -> is_u32 x.1.1 -> job_size x <= RX_ALLOC_BUFSIZE ->
  guest s' = pci_dma_write (pci_dma_write (guest s) x.1.1 x.2) (base + 8 * i)
    (bytes_of_desc (rx_filled x.1.1 (job_size x))) ->
  stored s s' base i x.
Proof.
  intros Hr1 Hr2 Hb Hlen Hg. unfold RX_ALLOC_BUFSIZE, job_size in *.
  set (d := rx_filled x.1.1 (Z.of_nat (length x.2))) in *.
  assert (Z.of_nat (length (bytes_of_desc d)) = 8) as Hl by by rewrite length_bytes_of_desc.
  split; unfold job_size.
  - intros Ha. rewrite Hg. rewrite (read_ext (pci_dma_write (guest s) x.1.1 x.2)); [|done|].
    + by apply read_write_same.
    + intros a Ha'. rewrite dma_write_byte by by rewrite Hl. rewrite Hl. unfold apart in Ha.
      destruct (Z.leb_spec (base + 8 * i) a), (Z.ltb_spec a (base + 8 * i + 8)); done || lia.
  - unfold load_ring_desc. rewrite Hg, <- Hl, read_write_same by by rewrite Hl.
    apply desc_roundtrip. split; [done|]. split; [|done]. unfold is_u16. cbn. lia.
  - intros a H1 H2. rewrite Hg, !dma_write_byte by (done || by rewrite Hl). rewrite Hl.
    destruct (Z.leb_spec (base + 8 * i) a), (Z.ltb_spec a (base + 8 * i + 8)); try lia;
      destruct (Z.leb_spec x.1.1 a), (Z.ltb_spec a (x.1.1 + Z.of_nat (length x.2))); done || lia.
Qed.

Lemma receive_job s base n i (x : job) :
  rx_ring s base n i -> acceptable s base n x -> offers s base i x ->
  exists s', nvnet_receive s x.2 = Ok (s', job_size x) /\ rx_ring s' base n ((i + 1) mod n) /\
    stored s s' base i x /\ (forall r, other_reg r -> get_reg s' r = get_reg s r) /\
    get_reg s' NVNET_IRQ_STATUS = Z.lor (get_reg s NVNET_IRQ_STATUS) NVNET_IRQ_STATUS_RX /\
    irq_line s' = has (get_reg s' NVNET_IRQ_MASK) (get_reg s' NVNET_IRQ_STATUS).
Proof.
  intros Hr [Hfilt [Hc Hlen] [Hram Hb] _] (f & Hd & Hav). pose proof Hr as [_ _ _ Hi _ Hslots _ Hbytes Hbuf].
  unfold nvnet_receive. fold (job_size x). rewrite (proj2 (Z.ltb_ge RX_ALLOC_BUFSIZE _)) by lia.
  unfold job_size in *. rewrite blit_ok by lia. cbn [mbind result_mbind result_bind].
  set (s0 := s <| rx_dma_buf := _ |>).
  change (receive_filter s0 x.2) with (receive_filter s x.2). rewrite Hfilt. cbn [negb].
  assert (rx_ring s0 base n i) as Hr0.
  { destruct Hr. split; try done. unfold s0. cbn [rx_dma_buf setf]. by rewrite length_inserts. }
  rewrite (dma_packet_done s0 base n i x.2 x.1.1 x.1.2 f Hr0) by done.
  eexists. split; [done|]. split; [by apply rx_ring_done|]. split; [|split; [|split]].
  - apply stored_writes; try done. by apply Hslots.
  - intros r Hother. by rewrite rx_done_other by done.
  - exact (rx_done_status s0 _ _ _ Hbytes).
  - rewrite (rx_done_other s0 _ _ _ _ other_mask), (rx_done_status s0) by done.
    by apply rx_done_line.
Qed.

(** A burst of packets [l] put in the slots from [i] on. *)
Record burst s s' (base n i : Z) (l : list job) : Prop := {
  burst_slots : forall j x, l !! j = Some x ->
    pci_dma_read (guest s') x.1.1 (job_size x) = x.2 /\
    load_ring_desc s' (base + 8 * ((i + Z.of_nat j) mod n)) = rx_filled x.1.1 (job_size x);
  burst_frame : forall a,
    (forall j, 0 <= j < Z.of_nat (length l) ->
       let slot := base + 8 * ((i + j) mod n) in ~ (slot <= a < slot + 8)) ->
    Forall (fun x : job => ~ (x.1.1 <= a < x.1.1 + job_size x)) l ->
    guest_byte (guest s') a = guest_byte (guest s) a;
}.

(** Later slots keep their offers. *)
Lemma offers_kept s s' base n i k x y : stored s s' base i x -> acceptable s base n x ->
  0 <= i < n -> 0 <= k < n -> k <> i -> guest_ram (base + 8 * k) 8 ->
  offers s base k y -> offers s' base k y.
Proof.
  intros [_ _ Hf] [_ _ _ Ha] Hi Hk Hne Hram (f & Hd & Hav). exists f. split; [|done].
  rewrite <- Hd. unfold load_ring_desc. f_equal. apply read_ext; [done|].
  intros a Hin. apply Hf; [lia|]. unfold apart in Ha. lia.
Qed.

Lemma acceptable_kept s s' base n x : (forall r, other_reg r -> get_reg s' r = get_reg s r) ->
  acceptable s base n x -> acceptable s' base n x.
Proof. intros Hr []. split; try done. by rewrite (filter_kept s). Qed.

(** The receive interrupt is pending and the line shows it. *)
Definition rx_raised s : Prop :=
  has (get_reg s NVNET_IRQ_STATUS) NVNET_IRQ_STATUS_RX = true /\
  irq_line s = has (get_reg s NVNET_IRQ_MASK) (get_reg s NVNET_IRQ_STATUS).

Lemma burst_cons s s1 s' base n i x l :
  0 <= i < n -> Z.of_nat (length l) < n -> (forall j, 0 <= j < n -> guest_ram (base + 8 * j) 8) ->
  stored s s1 base i x -> burst s1 s' base n ((i + 1) mod n) l ->
  acceptable s base n x -> Forall (acceptable s base n) l ->
  Forall (fun y => apart x.1.1 (job_size x) y.1.1 (job_size y)) l ->
  burst s s' base n i (x :: l).
Proof.
  intros Hi Hlen Hslots [Hbuf Hdesc Hfr] [Hb Hf] [_ _ [Hram _] Hx] Hacc Hap. unfold apart in *.
  assert (forall j, 0 <= j < Z.of_nat (length l) -> 0 <= (i + 1 + j) mod n < n /\
    (i + 1 + j) mod n <> i) as Hslot.
  { intros j Hj. split; [apply slot_range; lia|]. rewrite <- Z.add_assoc. apply slot_distinct; lia. }
  assert (forall a, ~ (base <= a < base + 8 * n) ->
    Forall (fun y : job => ~ (y.1.1 <= a < y.1.1 + job_size y)) l ->
    guest_byte (guest s') a = guest_byte (guest s1) a) as Hout.
  { intros a Ha Hl. apply Hf; [|done]. intros j Hj. cbv zeta.
    rewrite Zplus_mod_idemp_l. destruct (Hslot j Hj). lia. }
  split.
  - intros [|j] y Hy; cbn in Hy.
    + injection Hy as <-. rewrite Z.add_0_r, Z.mod_small by done. split.
      * transitivity (pci_dma_read (guest s1) x.1.1 (job_size x)); [|apply Hbuf; lia].
        apply read_ext; [done|]. intros a Ha. apply Hout; [lia|].
        eapply Forall_impl; [exact Hap|]. cbn beta. intros y Hy. lia.
      * rewrite <- Hdesc. unfold load_ring_desc. f_equal. apply read_ext; [by apply Hslots|].
        intros a Ha. apply Hf.
        -- intros j Hj. cbv zeta. rewrite Zplus_mod_idemp_l. destruct (Hslot j Hj). lia.
        -- eapply Forall_impl; [exact Hacc|]. intros y [_ _ _ Hy]. unfold apart in Hy. lia.
    + apply Hb in Hy. rewrite Zplus_mod_idemp_l in Hy.
      by replace (i + Z.of_nat (S j)) with (i + 1 + Z.of_nat j) by lia.
  - intros a Ha Hl. apply Forall_cons in Hl as [Hl1 Hl2]. cbn [length] in Ha. rewrite Hf; [|..|done].
    + apply Hfr; [|done]. pose proof (Ha 0 ltac:(lia)) as H0. cbn zeta in H0.
      by rewrite Z.add_0_r, Z.mod_small in H0 by done.
    + intros j Hj. cbv zeta. rewrite Zplus_mod_idemp_l. rewrite <- Z.add_assoc.
      apply Ha. lia.
Qed.

Lemma receive_burst l : forall s base n i,
  rx_ring s base n i -> Z.of_nat (length l) <= n ->
  (forall j x, l !! j = Some x -> offers s base ((i + Z.of_nat j) mod n) x) ->
  Forall (acceptable s base n) l -> buffers_apart l ->
  exists s', receive_all s (map snd l) = Ok (s', map job_size l) /\
    rx_ring s' base n ((i + Z.of_nat (length l)) mod n) /\ burst s s' base n i l /\
    (l <> [] \/ rx_raised s -> rx_raised s').
Proof.
  induction l as [|x l IH]; intros s base n i Hr Hlen Hoff Hacc Hap; cbn [receive_all map].
  - exists s. split; [done|]. rewrite Z.add_0_r, Z.mod_small by apply Hr.
    split; [done|]. split; [by split|]. by intros [|].
  - pose proof Hr as [_ _ _ Hi _ Hslots _ _ _]. cbn [length] in Hlen.
    apply Forall_cons in Hacc as [Hx Hacc]. destruct Hap as [Hap Hap'].
    destruct (receive_job s base n i x) as (s1 & -> & Hr1 & Hst & Hregs & Hirq & Hline); [done|done| |].
    { rewrite <- (Z.mod_small i n) by done. rewrite <- (Z.add_0_r i). by apply (Hoff 0%nat). }
    cbn [mbind result_mbind result_bind].
    assert (forall j, (0 <= j < Z.of_nat (length l)) ->
      0 <= (i + (j + 1)) mod n < n /\ (i + (j + 1)) mod n <> i) as Hslot.
    { intros j Hj. split; [apply slot_range; lia|apply slot_distinct; lia]. }
    destruct (IH s1 base n ((i + 1) mod n)) as (s' & -> & Hr' & [Hb Hf] & Hend); try done; [lia| | |].
    + intros j y Hj. rewrite Zplus_mod_idemp_l.
      assert (Z.of_nat j < Z.of_nat (length l)) by (apply lookup_lt_Some in Hj; lia).
      replace (i + 1 + Z.of_nat j) with (i + (Z.of_nat j + 1)) by lia.
      destruct (Hslot (Z.of_nat j)) as [Hk Hne]; [lia|].
      apply (offers_kept s s1 base n i _ x); try done; [by apply Hslots|].
      replace (Z.of_nat j + 1) with (Z.of_nat (S j)) by lia. by apply Hoff.
    + eapply Forall_impl; [exact Hacc|]. intros y. by apply acceptable_kept.
    + exists s'. split; [done|]. split; [|split].
      * rewrite Zplus_mod_idemp_l in Hr'. cbn [length].
        by replace (i + Z.of_nat (S (length l))) with (i + 1 + Z.of_nat (length l)) by lia.
      * by apply (burst_cons s s1); try lia.
      * intros _. apply Hend. right. split; [rewrite Hirq; by apply has_lor_same|done].
Qed.

(** C22. Reception fills the ring in order: a burst of packets that pass the
    filter and fit the buffers the guest has posted is accepted packet by
    packet; the j-th packet ends up in the buffer of the j-th descriptor from
    the current one on, wrapping at the end of the ring, and its descriptor is
    handed back with the length and without the ownership flag.  No other byte
    of guest memory changes, the next descriptor moves past the burst and the
    receive interrupt is raised. *)
Theorem rx_ring_in_order s base n i l :
  rx_ring s base n i -> Z.of_nat (length l) <= n -> l <> [] ->
  (forall j x, l !! j = Some x -> offers s base ((i + Z.of_nat j) mod n) x) ->
  Forall (acceptable s base n) l -> buffers_apart l ->
  exists s', receive_all s (map snd l) = Ok (s', map job_size l) /\
    get_reg s' NVNET_RX_RING_NEXT_DESC_PHYS_ADDR = base + 8 * ((i + Z.of_nat (length l)) mod n) /\
    burst s s' base n i l /\ rx_raised s'.
Proof.
  intros Hr Hlen Hne Hoff Hacc Hap.
  destruct (receive_burst l s base n i) as (s' & H1 & H2 & H3 & H4); try done.
  exists s'. split; [done|]. split; [apply H2|]. split; [done|]. apply H4. by left.
Qed.

(** ** Transmission *)

(** The transmit ring, with a transmit buffer of which the first
    [tx_dma_buf_offset] bytes are the fragments collected so far. *)
Record tx_ring s (base n i : Z) : Prop := {
  tx_base : get_reg s NVNET_TX_RING_PHYS_ADDR = base;
  tx_size : get_tx_ring_size s = n;
  tx_next : get_reg s NVNET_TX_RING_NEXT_DESC_PHYS_ADDR = base + 8 * i;
  tx_index : 0 <= i < n;
  tx_fits : 0 <= base /\ base + 8 * n < 2 ^ 32;
  tx_ram : forall j, 0 <= j < n -> guest_ram (base + 8 * j) 8;
  tx_buf : length (tx_dma_buf s) = Z.to_nat TX_ALLOC_BUFSIZE;
  tx_off : 0 <= tx_dma_buf_offset s <= TX_ALLOC_BUFSIZE;
}.

Definition collected s : list Z := take (Z.to_nat (tx_dma_buf_offset s)) (tx_dma_buf s).

Definition frag_size (d : RingDesc) : Z := u16 (desc_length d + 1).
Definition frag_data s (d : RingDesc) : list Z := pci_dma_read (guest s) (buffer_addr d) (frag_size d).
Definition is_last (d : RingDesc) : bool := has (desc_flags d) NV_TX_LASTPACKET.
Definition done_desc (d : RingDesc) : RingDesc :=
  d <| desc_flags ::= fun f => Z.ldiff f tx_done_flags |>.

(** The state after one valid descriptor, with the transmit buffer [buf]. *)
Definition tx_after s (cur : Z) (d : RingDesc) (buf : list Z) : NvNetState M :=
  let s := set_reg s NVNET_TX_RING_CURRENT_DESC_PHYS_ADDR cur in
  let s := s <| tx_dma_buf := buf |> <| tx_dma_buf_offset ::= fun o => o + frag_size d |> in
  let s := if is_last d then send_packet s (collected s) <| tx_dma_buf_offset := 0 |> else s in
  advance_next_tx_ring_desc_addr (store_ring_desc s cur (done_desc d)).

Lemma blit_take buf off (x : list Z) buf' : blit buf off x = Ok buf' ->
  take (Z.to_nat (off + Z.of_nat (length x))) buf' = take (Z.to_nat off) buf ++ x /\
  length buf' = length buf.
Proof.
  intros H. apply blit_inv in H as (H0 & H1 & H2 & Hb). split; [|done].
  apply byte_ext; rewrite ?length_app, !length_take; [lia|]. intros i Hi.
  assert (forall l k, 0 <= i < Z.of_nat k -> byte (take k l) i = byte l i) as Htake
    by (intros l k Hk; unfold byte; rewrite !nth_lookup, lookup_take_lt by lia; done).
  rewrite Htake by lia. rewrite Hb, byte_app by lia. rewrite length_take.
  destruct (Z.ltb_spec i (Z.of_nat (Z.to_nat off `min` length buf))).
  - rewrite (proj2 (Z.leb_gt off i)) by lia. cbn [andb]. by rewrite Htake by lia.
  - rewrite (proj2 (Z.leb_le off i)), (proj2 (Z.ltb_lt i _)) by lia. cbn [andb]. f_equal. lia.
Qed.

Lemma tx_size_reg s s' : get_reg s' NVNET_RING_SIZE = get_reg s NVNET_RING_SIZE ->
  get_tx_ring_size s' = get_tx_ring_size s.
Proof. intros H. unfold get_tx_ring_size. by rewrite H. Qed.

Lemma get_regs s s' a : regs s' = regs s -> get_reg s' a = get_reg s a.
Proof. intros H. unfold get_reg. by rewrite H. Qed.

Lemma tx_ring_advance s s' base n i :
  tx_ring s base n i ->
  regs s' = regs (set_reg s NVNET_TX_RING_CURRENT_DESC_PHYS_ADDR (base + 8 * i)) ->
  length (tx_dma_buf s') = Z.to_nat TX_ALLOC_BUFSIZE ->
  0 <= tx_dma_buf_offset s' <= TX_ALLOC_BUFSIZE ->
  tx_ring (advance_next_tx_ring_desc_addr s') base n ((i + 1) mod n).
Proof.
  intros [Hbase Hsize Hnext Hi [H0 Hfit] Hram _ _] Hr Hb Ho.
  assert (forall a, get_reg s' a =
    get_reg (set_reg s NVNET_TX_RING_CURRENT_DESC_PHYS_ADDR (base + 8 * i)) a) as Hget
    by (intros a; by apply get_regs).
  assert (get_tx_ring_size s' = n) as Hsize'.
  { rewrite <- Hsize. apply tx_size_reg. rewrite Hget. by rg. }
  split; try done; unfold advance_next_tx_ring_desc_addr.
  - rewrite get_set_other by literal_apart. rewrite Hget. by rg.
  - rewrite <- Hsize'. apply tx_size_reg. by rg.
  - rewrite get_set_same, Hsize', !Hget. rg. rewrite Hbase.
    rewrite (u32_id (base + 8 * i)) by (unfold is_u32; lia). rewrite next_desc_in by done.
    pose proof (slot_range n (i + 1) ltac:(lia)). apply u32_id. unfold is_u32. lia.
  - apply slot_range. lia.
Qed.

Lemma tx_step s base n i m d :
  tx_ring s base n i -> load_ring_desc s (base + 8 * i) = d -> has (desc_flags d) NV_TX_VALID = true ->
  tx_dma_buf_offset s + frag_size d <= TX_ALLOC_BUFSIZE ->
  exists buf, let s' := tx_after s (base + 8 * i) d buf in
    tx_loop (S m) s = (if is_last d then Ok (s', true) else tx_loop m s') /\
    tx_ring s' base n ((i + 1) mod n) /\
    guest s' = pci_dma_write (guest s) (base + 8 * i) (bytes_of_desc (done_desc d)) /\
    sent s' = (if is_last d then sent s ++ [collected s ++ frag_data s d] else sent s) /\
    tx_dma_buf_offset s' = (if is_last d then 0 else tx_dma_buf_offset s + frag_size d) /\
    (is_last d = false -> collected s' = collected s ++ frag_data s d).
Proof.
  intros [Hbase Hsize Hnext Hi [H0 Hfit] Hram Hbuf Hoff] Hd Hv Hle. cbn [tx_loop].
  unfold update_current_tx_ring_desc_addr. rewrite Hbase, Hsize, Hnext, current_desc_in by done.
  change (load_ring_desc (set_reg s _ _) (base + 8 * i)) with (load_ring_desc s (base + 8 * i)).
  rewrite Hd, Hv. cbn [negb]. fold (frag_size d). fold (is_last d).
  change (tx_dma_buf_offset (set_reg s _ _)) with (tx_dma_buf_offset s).
  change (tx_dma_buf (set_reg s _ _)) with (tx_dma_buf s).
  change (guest (set_reg s _ _)) with (guest s). fold (frag_data s d).
  rewrite (proj2 (Z.leb_le _ TX_ALLOC_BUFSIZE)) by lia. cbn [check mbind result_mbind result_bind].
  assert (Z.of_nat (length (frag_data s d)) = frag_size d) as Hl.
  { unfold frag_data. rewrite dma_read_length. pose proof (u16_range (desc_length d + 1)).
    unfold frag_size, is_u16 in *. lia. }
  destruct (blit (tx_dma_buf s) (tx_dma_buf_offset s) (frag_data s d)) as [buf|] eqn:Hblit;
    [|rewrite blit_ok in Hblit by lia; done].
  exists buf. cbv zeta. cbn [mbind result_mbind result_bind].
  destruct (blit_take _ _ _ _ Hblit) as [Htake Hlen]. rewrite Hl in Htake.
  split; [reflexivity|].
  assert (tx_ring s base n i) as Hring by by split.
  pose proof (u16_range (desc_length d + 1)). fold (frag_size d) in *. unfold is_u16 in *.
  unfold tx_after. destruct (is_last d).
  - split; [|split; [reflexivity|split; [|done]]].
    + apply (tx_ring_advance s); [done|reflexivity|by rewrite <- Hbuf|done].
    + cbn. unfold collected. cbn. by rewrite Htake.
  - split; [|split; [reflexivity|split; [done|split; [done|]]]].
    + apply (tx_ring_advance s); [done|reflexivity|by rewrite <- Hbuf|cbn; lia].
    + intros _. unfold collected. cbn. by rewrite Htake.
Qed.

(** ** A frame of several fragments *)

Fixpoint frame_flags (l : list RingDesc) : Prop :=
  match l with
  | [] => False
  | [d] => is_last d = true
  | d :: l => is_last d = false /\ frame_flags l
  end.

(** The fragments [l] are in the ring from slot [i] on, valid, in RAM and
    outside the ring. *)
Record tx_frame s (base n i : Z) (l : list RingDesc) : Prop := {
  fr_slots : forall j d, l !! j = Some d -> load_ring_desc s (base + 8 * ((i + Z.of_nat j) mod n)) = d;
  fr_valid : Forall (fun d => desc_ok d /\ has (desc_flags d) NV_TX_VALID = true /\
    guest_ram (buffer_addr d) (frag_size d) /\
    apart (buffer_addr d) (frag_size d) base (8 * n)) l;
}.

Definition frame_size (l : list RingDesc) : Z := foldr (fun d k => frag_size d + k) 0 l.
Definition frame_data s (l : list RingDesc) : list Z := concat (map (frag_data s) l).

Lemma done_desc_ok d : desc_ok d -> desc_ok (done_desc d).
Proof. intros (? & ? & ?). split; [done|]. split; [done|]. by apply ldiff_range. Qed.

(** The write of one descriptor: it reads back, the rest of memory is kept. *)
Lemma desc_written s s' a d : guest_ram a 8 -> desc_ok d ->
  guest s' = pci_dma_write (guest s) a (bytes_of_desc d) ->
  load_ring_desc s' a = d /\
  forall x, ~ (a <= x < a + 8) -> guest_byte (guest s') x = guest_byte (guest s) x.
Proof.
  intros Hr Hd Hg. assert (Z.of_nat (length (bytes_of_desc d)) = 8) as Hl
    by by rewrite length_bytes_of_desc. split.
  - unfold load_ring_desc. rewrite Hg, <- Hl, read_write_same by by rewrite Hl. by apply desc_roundtrip.
  - intros x Hx. rewrite Hg, dma_write_byte by by rewrite Hl. rewrite Hl.
    destruct (Z.leb_spec a x), (Z.ltb_spec x (a + 8)); done || lia.
Qed.

(** The rest of a frame after its first fragment. *)
Lemma tx_frame_tail s s1 base n i d l :
  0 <= i < n -> Z.of_nat (length l) < n -> (forall j, 0 <= j < n -> guest_ram (base + 8 * j) 8) ->
  (forall x, ~ (base + 8 * i <= x < base + 8 * i + 8) ->
     guest_byte (guest s1) x = guest_byte (guest s) x) ->
  tx_frame s base n i (d :: l) ->
  tx_frame s1 base n ((i + 1) mod n) l /\ frame_data s1 l = frame_data s l.
Proof.
  intros Hi Hlen Hram Hx [Hs Hv]. apply Forall_cons in Hv as [_ Hv]. split; [split; [|done]|].
  - intros j e Hj. assert (Z.of_nat j < Z.of_nat (length l)) by (apply lookup_lt_Some in Hj; lia).
    rewrite <- (Hs (S j) e Hj). rewrite Zplus_mod_idemp_l.
    replace (i + 1 + Z.of_nat j) with (i + Z.of_nat (S j)) by lia.
    pose proof (slot_range n (i + Z.of_nat (S j)) ltac:(lia)).
    pose proof (slot_distinct n i (Z.of_nat (S j)) Hi ltac:(lia)).
    unfold load_ring_desc. f_equal. apply read_ext; [by apply Hram|]. intros x Hin. apply Hx. lia.
  - unfold frame_data. f_equal. apply map_ext_Forall. eapply Forall_impl; [exact Hv|]. cbn beta.
    intros e (_ & _ & Hr & Ha). unfold frag_data. apply read_ext; [done|]. intros x Hin.
    apply Hx. unfold apart in Ha. lia.
Qed.

Lemma frag_size_nonneg d : 0 <= frag_size d.
Proof. apply u16_range. Qed.

Lemma frame_size_nonneg l : 0 <= frame_size l.
Proof.
  induction l as [|d l IH]; cbn [frame_size foldr]; [done|].
  pose proof (frag_size_nonneg d). unfold frame_size in IH. lia.
Qed.

Lemma tx_frame_loop l : forall s base n i m,
  tx_ring s base n i -> Z.of_nat (length l) <= n -> (length l <= m)%nat -> frame_flags l ->
  tx_frame s base n i l -> tx_dma_buf_offset s + frame_size l <= TX_ALLOC_BUFSIZE ->
  exists s', tx_loop m s = Ok (s', true) /\ tx_ring s' base n ((i + Z.of_nat (length l)) mod n) /\
    sent s' = sent s ++ [collected s ++ frame_data s l] /\ tx_dma_buf_offset s' = 0 /\
    (forall j d, l !! j = Some d ->
       load_ring_desc s' (base + 8 * ((i + Z.of_nat j) mod n)) = done_desc d) /\
    (forall x, (forall j, 0 <= j < Z.of_nat (length l) ->
        ~ (base + 8 * ((i + j) mod n) <= x < base + 8 * ((i + j) mod n) + 8)) ->
     guest_byte (guest s') x = guest_byte (guest s) x).
Proof.
  induction l as [|d l IH]; intros s base n i m Hr Hn Hm Hflags Hfr Hsz; [done|].
  pose proof Hr as [_ _ _ Hi _ Hram _ _]. cbn [length] in Hn, Hm.
  destruct m as [|m]; [lia|]. pose proof Hfr as [Hs Hv]. apply Forall_cons in Hv as [(Hok & Hvalid & _ & _) _].
  pose proof (frame_size_nonneg l) as Hl0. cbn [frame_size foldr] in Hsz. fold (frame_size l) in Hsz.
  assert (load_ring_desc s (base + 8 * i) = d) as Hd.
  { rewrite <- (Hs 0%nat d eq_refl), Z.add_0_r, Z.mod_small by done. done. }
  destruct (tx_step s base n i m d Hr Hd Hvalid) as (buf & Hloop & Hr1 & Hg & Hsent & Hoff & Hcol); [lia|].
  set (s1 := tx_after s (base + 8 * i) d buf) in *.
  destruct (desc_written s s1 (base + 8 * i) (done_desc d)) as [Hw Hx];
    [by apply Hram|by apply done_desc_ok|done|].
  rewrite Hloop. destruct l as [|e l].
  - cbn [frame_flags] in Hflags. rewrite Hflags in *. exists s1. split; [done|]. split; [done|].
    split; [by rewrite Hsent; cbn [frame_data map concat]; rewrite app_nil_r|]. split; [done|]. split.
    + intros [|j] e He; [|done]. injection He as <-. by rewrite Z.add_0_r, Z.mod_small.
    + intros x Ha. apply Hx. specialize (Ha 0 ltac:(cbn; lia)).
      by rewrite Z.add_0_r, Z.mod_small in Ha.
  - destruct Hflags as [Hnl Hflags]. rewrite Hnl in *. specialize (Hcol eq_refl).
    destruct (tx_frame_tail s s1 base n i d (e :: l)) as [Hfr1 Hdata]; try done; [cbn [length] in *; lia|].
    destruct (IH s1 base n ((i + 1) mod n) m) as (s' & H1 & H2 & H3 & H4 & H5 & H6); try done;
      [cbn [length] in *; lia..|].
    exists s'. split; [done|]. rewrite Zplus_mod_idemp_l in H2.
    split; [by replace (i + Z.of_nat (length (d :: e :: l))) with (i + 1 + Z.of_nat (length (e :: l)))
      by (cbn [length]; lia)|].
    split; [|split; [done|split]].
    + rewrite H3, Hsent, Hcol, Hdata, <- app_assoc. done.
    + intros [|j] y Hy; cbn in Hy.
      * injection Hy as <-. rewrite <- Hw, Z.add_0_r, Z.mod_small by done.
        unfold load_ring_desc. f_equal. apply read_ext; [by apply Hram|]. intros x Hin. apply H6.
        intros j Hj. rewrite Zplus_mod_idemp_l.
        pose proof (slot_range n (i + 1 + j) ltac:(lia)).
        pose proof (slot_distinct n i (1 + j) Hi ltac:(cbn [length] in *; lia)).
        rewrite Z.add_assoc in *. lia.
      * rewrite <- (H5 j y Hy), Zplus_mod_idemp_l. do 4 f_equal. lia.
    + intros x Ha. rewrite H6.
      * apply Hx. specialize (Ha 0 ltac:(cbn [length]; lia)). by rewrite Z.add_0_r, Z.mod_small in Ha.
      * intros j Hj. rewrite Zplus_mod_idemp_l, <- Z.add_assoc. apply Ha. cbn [length] in *. lia.
Qed.

Lemma tx_ring_control s base n i v : tx_ring s base n i ->
  tx_ring (set_reg s NVNET_TX_RX_CONTROL v) base n i.
Proof.
  intros [Hbase Hsize Hnext Hi Hf Hram Hb Ho]. split; try done; [by rg| |by rg].
  rewrite <- Hsize. apply tx_size_reg. by rg.
Qed.


(** The two sizes the guest can get wrong stop the emulator: a packet
    longer than the buffer of an available descriptor, and fragments that
    together exceed the transmit buffer, end in an assertion. *)
Theorem oversize_asserts s base n i :
  (forall buf b c f, rx_ring s base n i -> receive_filter s buf = true ->
     load_ring_desc s (base + 8 * i) = mkDesc b c f -> has f NV_RX_AVAIL = true ->
     c + 1 < Z.of_nat (length buf) <= RX_ALLOC_BUFSIZE ->
     nvnet_receive s buf = Fault (AssertFail "(desc.length + 1) >= size")) /\
  (forall d, tx_ring s base n i -> can_transmit s = true ->
     load_ring_desc s (base + 8 * i) = d -> has (desc_flags d) NV_TX_VALID = true ->
     TX_ALLOC_BUFSIZE < tx_dma_buf_offset s + frag_size d ->
     dma_packet_from_guest s =
       Fault (AssertFail "(s->tx_dma_buf_offset + length) <= sizeof(s->tx_dma_buf)")).
Proof.
  split.
  - intros buf b c f [Hbase Hsize Hnext Hi [Hb0 Hfit] Hram (Hon1 & Hon2 & Hon3) Hbytes Hbuf] Hf Hd Hav Hlen.
    unfold nvnet_receive. rewrite (proj2 (Z.ltb_ge RX_ALLOC_BUFSIZE _)) by lia.
    rewrite blit_ok by lia. cbn [mbind result_mbind result_bind]. set (s0 := s <| rx_dma_buf := _ |>).
    change (receive_filter s0 buf) with (receive_filter s buf). rewrite Hf. cbn [negb].
    unfold dma_packet_to_guest, nvnet_can_receive, rx_buf_available.
    rewrite (update_current_rx s0 base n i) by done.
    change (rx_enabled s0) with (rx_enabled s). change (dma_enabled s0) with (dma_enabled s).
    change (link_up s0) with (link_up s). rewrite Hon1, Hon2, Hon3. cbn [andb].
    change (load_ring_desc (set_reg s0 _ _) (base + 8 * i)) with (load_ring_desc s (base + 8 * i)).
    rewrite Hd. cbn [desc_flags]. rewrite Hav. cbn [negb].
    rewrite (update_current_rx _ base n i); try done; unfold set_dma_idle, andn_reg;
      [|by rg|by rewrite <- Hsize; apply rx_size_reg; rg|by rg].
    change (load_ring_desc (set_reg _ _ _) (base + 8 * i)) with (load_ring_desc s (base + 8 * i)).
    rewrite Hd. cbn [desc_flags desc_length buffer_addr]. rewrite Hav.
    by rewrite (proj2 (Z.leb_gt _ (c + 1))) by lia.
  - intros d Hr Hcan Hd Hv Hsz. unfold dma_packet_from_guest. rewrite Hcan. cbn [negb].
    set (s0 := set_dma_idle s false).
    assert (tx_ring s0 base n i) as Hr0 by by apply tx_ring_control.
    destruct Hr0 as [Hbase Hsize Hnext Hi [H0 Hfit] _ _ _]. rewrite Hsize.
    destruct (Z.to_nat n) as [|m] eqn:Em; [lia|]. cbn [tx_loop].
    unfold update_current_tx_ring_desc_addr. rewrite Hbase, Hsize, Hnext, current_desc_in by done.
    change (load_ring_desc (set_reg s0 _ _) (base + 8 * i)) with (load_ring_desc s (base + 8 * i)).
    rewrite Hd, Hv. cbn [negb]. fold (frag_size d).
    change (tx_dma_buf_offset (set_reg s0 _ _)) with (tx_dma_buf_offset s).
    by rewrite (proj2 (Z.leb_gt _ TX_ALLOC_BUFSIZE)) by lia.
Qed.

(** ** Invariants *)

(** The register file holds bytes, the two packet buffers have their size, and
    the transmit offset lies in its buffer. *)
Record nvnet_ok s : Prop := {
  ok_bytes : bytes_ok (regs s);
  ok_tx : length (tx_dma_buf s) = Z.to_nat TX_ALLOC_BUFSIZE;
  ok_rx : length (rx_dma_buf s) = Z.to_nat RX_ALLOC_BUFSIZE;
  ok_off : 0 <= tx_dma_buf_offset s <= TX_ALLOC_BUFSIZE;
}.

Definition line_ok s : Prop :=
  irq_line s = has (get_reg s NVNET_IRQ_MASK) (get_reg s NVNET_IRQ_STATUS).

(** From [s] to [s'] the invariant is kept, and so is the agreement of the
    interrupt line with its registers. *)
Definition keeps s s' : Prop := nvnet_ok s -> nvnet_ok s' /\ (line_ok s -> line_ok s').

Lemma keeps_refl s : keeps s s.
Proof. by intros Hs. Qed.
Lemma keeps_trans s1 s2 s3 : keeps s1 s2 -> keeps s2 s3 -> keeps s1 s3.
Proof. intros H12 H23 H1. destruct (H12 H1) as [H2 L2]. destruct (H23 H2) as [H3 L3]. auto. Qed.

(** Changes outside the register file, the buffers and the line. *)
Lemma keeps_view s s' : regs s' = regs s -> tx_dma_buf s' = tx_dma_buf s ->
  rx_dma_buf s' = rx_dma_buf s -> tx_dma_buf_offset s' = tx_dma_buf_offset s ->
  irq_line s' = irq_line s -> keeps s s'.
Proof.
  intros H1 H2 H3 H4 H5 []. split; [by split; rewrite ?H1, ?H2, ?H3, ?H4|].
  unfold line_ok. by rewrite H5, !(get_regs s s') by done.
Qed.

Lemma keeps_store s a (l : list Z) : 8 <= a -> Forall is_u8 l ->
  keeps s (s <| regs := store_bytes (regs s) a l |>).
Proof.
  intros Ha Hl []. split; [split; try done; by apply bytes_ok_store|].
  unfold line_ok. intros HL. transitivity (irq_line s); [done|]. rewrite HL. unfold get_reg, r32.
  change (regs (s <| regs := store_bytes (regs s) a l |>)) with (store_bytes (regs s) a l).
  by rewrite !load_store_disjoint by (left; unfold NVNET_IRQ_MASK, NVNET_IRQ_STATUS; lia).
Qed.

Lemma keeps_set s a v : 8 <= a -> keeps s (set_reg s a v).
Proof. intros Ha. apply keeps_store; [done|]. apply le_bytes_ok. Qed.

Lemma update_irq_line s : nvnet_ok s -> nvnet_ok (update_irq s) /\ line_ok (update_irq s).
Proof. by intros []. Qed.

Lemma keeps_intr s v : keeps s (set_intr_status s v).
Proof.
  intros Hs. destruct (update_irq_line (or_reg s NVNET_IRQ_STATUS v)) as [H1 H2]; [|by split].
  destruct Hs. split; try done. by apply bytes_ok_w32.
Qed.

(** One step backwards through a chain of updates. *)
Ltac keeps_step :=
  match goal with
  | |- keeps ?x ?x => apply keeps_refl
  | |- keeps _ (set_intr_status _ _) => eapply keeps_trans; [|apply keeps_intr]
  | |- keeps _ (set_reg _ _ _) => eapply keeps_trans; [|apply keeps_set; vm_compute; congruence]
  | |- keeps _ (or_reg _ _ _) => eapply keeps_trans; [|apply keeps_set; vm_compute; congruence]
  | |- keeps _ (andn_reg _ _ _) => eapply keeps_trans; [|apply keeps_set; vm_compute; congruence]
  | |- keeps _ _ => by apply keeps_view
  end.
Ltac keeps_chain := repeat keeps_step.

Lemma keeps_idle s b : keeps s (set_dma_idle s b).
Proof. destruct b; cbn [set_dma_idle]; keeps_chain. Qed.

Lemma keeps_current_rx s : keeps s (update_current_rx_ring_desc_addr s).1.
Proof. unfold update_current_rx_ring_desc_addr, update_current_tx_ring_desc_addr. cbn [fst]. keeps_chain. Qed.
Lemma keeps_current_tx s : keeps s (update_current_tx_ring_desc_addr s).1.
Proof. unfold update_current_rx_ring_desc_addr, update_current_tx_ring_desc_addr. cbn [fst]. keeps_chain. Qed.
Lemma keeps_advance_rx s : keeps s (advance_next_rx_ring_desc_addr s).
Proof. unfold advance_next_rx_ring_desc_addr. keeps_chain. Qed.
Lemma keeps_advance_tx s : keeps s (advance_next_tx_ring_desc_addr s).
Proof. unfold advance_next_tx_ring_desc_addr. keeps_chain. Qed.

Lemma keeps_link_up s : keeps s (set_link_up s).
Proof.
  unfold set_link_up, set_mii_intr_status, update_regs_on_link_up.
  keeps_chain.
Qed.

Lemma keeps_link_down s : keeps s (set_link_down s).
Proof.
  unfold set_link_down, set_mii_intr_status, update_regs_on_link_down.
  keeps_chain.
Qed.

Lemma keeps_set_link s : keeps s (nvnet_set_link_status s).
Proof.
  unfold nvnet_set_link_status. case_match; [apply keeps_link_down|].
  case_match; [by apply keeps_view|apply keeps_link_up].
Qed.

Lemma keeps_autoneg s : keeps s (autoneg_timer_cb s).
Proof.
  unfold autoneg_timer_cb, autoneg_done. case_match; [by apply keeps_view|].
  eapply keeps_trans; [|apply keeps_link_up]. by apply keeps_view.
Qed.

Lemma keeps_reset_ring s : keeps s (reset_descriptor_ring_pointers s).
Proof.
  unfold reset_descriptor_ring_pointers. cbv zeta.
  keeps_chain.
Qed.

Lemma keeps_mdio_read s : keeps s (mdio_read s).
Proof. unfold mdio_read. cbv zeta. keeps_chain. Qed.

Lemma keeps_mdio_write s : keeps s (mdio_write s).
Proof.
  unfold mdio_write, phy_reg_write. cbv zeta. eapply keeps_trans; [|apply keeps_set; vm_compute; congruence].
  repeat case_match; keeps_chain.
Qed.

(** A computation that keeps the invariant and the line, and whose only faults
    are the assertions of the code. *)
Definition keeps_r {A} s (st : A -> NvNetState M) (r : result A) : Prop :=
  match r with
  | Ok x => keeps s (st x)
  | Fault (AssertFail _) => True
  | Fault _ => ~ nvnet_ok s
  end.

Lemma keeps_r_bind {A B} s (st : A -> NvNetState M) (st' : B -> NvNetState M) r (k : A -> result B) :
  keeps_r s st r -> (forall x, r = Ok x -> keeps_r (st x) st' (k x)) -> keeps_r s st' (r ≫= k).
Proof.
  destruct r as [x|e]; cbn; [|by destruct e]. intros H1 H2. specialize (H2 x eq_refl).
  unfold keeps_r in *. destruct (k x) as [y|[]]; try done; [by eapply keeps_trans|..];
    intros Hs; by apply H2, H1.
Qed.

Lemma keeps_r_check {A} s (st : A -> NvNetState M) b m (k : result A) :
  (b = true -> keeps_r s st k) -> keeps_r s st (_ ← check b m; k).
Proof. intros Hk. destruct b; cbn; auto. Qed.

Lemma keeps_r_from {A} s s' (st : A -> NvNetState M) r :
  keeps s s' -> keeps_r s' st r -> keeps_r s st r.
Proof.
  intros H1. unfold keeps_r. destruct r as [y|[]]; try done; [by eapply keeps_trans|..];
    intros H2 Hs; by apply H2, H1.
Qed.

Lemma keeps_r_ok {A} s (st : A -> NvNetState M) x : keeps s (st x) -> keeps_r s st (Ok x).
Proof. done. Qed.

Lemma keeps_to_guest s buf : keeps_r s fst (dma_packet_to_guest s buf).
Proof.
  unfold dma_packet_to_guest, nvnet_can_receive, rx_buf_available.
  destruct (update_current_rx_ring_desc_addr s) as [s1 cur] eqn:Hc. cbv beta iota zeta.
  assert (keeps s s1) as Hk by (pose proof (keeps_current_rx s) as Hk; by rewrite Hc in Hk).
  case_match; [exact Hk|].
  destruct (update_current_rx_ring_desc_addr (set_dma_idle s1 false)) as [s2 cur2] eqn:Hc2.
  assert (keeps s s2) as Hk2.
  { pose proof (keeps_current_rx (set_dma_idle s1 false)) as Hk2. rewrite Hc2 in Hk2.
    eapply keeps_trans; [exact Hk|]. eapply keeps_trans; [apply keeps_idle|exact Hk2]. }
  apply (keeps_r_bind _ fst); [|intros [s3 v] _; apply keeps_idle].
  case_match; [|exact Hk2]. apply keeps_r_check. intros _. apply keeps_r_ok.
  cbn [fst]. eapply keeps_trans; [|apply keeps_advance_rx]. keeps_step.
  eapply keeps_trans; [exact Hk2|]. by apply keeps_view.
Qed.

Lemma keeps_receive s buf : keeps_r s fst (nvnet_receive s buf).
Proof.
  unfold nvnet_receive. destruct (Z.ltb_spec RX_ALLOC_BUFSIZE (Z.of_nat (length buf))) as [|Hle];
    [apply keeps_refl|].
  apply (keeps_r_bind _ (fun rx => s <| rx_dma_buf := rx |>)).
  - destruct (blit (rx_dma_buf s) 0 buf) as [rx|f] eqn:Hb.
    + intros []. apply blit_take in Hb as [_ Hb]. split; [split; try done; by etrans; [exact Hb|]|done].
    + unfold blit in Hb. case_match eqn:Hif; [done|]. injection Hb as <-. intros [? ? ? ?].
      apply andb_false_iff in Hif as [?|?]; unfold RX_ALLOC_BUFSIZE in *; lia.
  - intros rx _. case_match; [apply keeps_refl|apply keeps_to_guest].
Qed.

Lemma keeps_offset0 s l : keeps s (send_packet s l <| tx_dma_buf_offset := 0 |>).
Proof. intros []. split; [by split|done]. Qed.

Lemma keeps_tx_loop n : forall s, keeps_r s fst (tx_loop n s).
Proof.
  induction n as [|n IH]; intros s; [apply keeps_refl|]. cbn [tx_loop].
  destruct (update_current_tx_ring_desc_addr s) as [s1 cur] eqn:Hc.
  assert (keeps s s1) as Hk by (pose proof (keeps_current_tx s) as Hk; by rewrite Hc in Hk).
  eapply keeps_r_from; [exact Hk|]. clear s Hc Hk. rename s1 into s.
  case_match; [apply keeps_refl|]. apply keeps_r_check. intros Hsz.
  apply Z.leb_le in Hsz. set (d := load_ring_desc s cur) in *.
  assert (0 <= u16 (desc_length d + 1)) by (unfold u16; apply Z.mod_pos_bound; lia).
  set (len := u16 (desc_length d + 1)) in *.
  apply (keeps_r_bind _ (fun buf => s <| tx_dma_buf := buf |>
           <| tx_dma_buf_offset ::= fun o => o + len |>)).
  - destruct (blit _ _ _) as [buf|f] eqn:Hb.
    + intros [? ? ? ?]. apply blit_take in Hb as [_ Hb].
      split; [split; try done; [by etrans; [exact Hb|]|cbn; lia]|done].
    + unfold blit in Hb. case_match eqn:Hif; [done|]. injection Hb as <-. intros [? ? ? ?].
      rewrite dma_read_length in Hif.
      rewrite Z2Nat.id in Hif by done. clearbody len.
      apply andb_false_iff in Hif as [Hif|Hif]; apply Z.leb_gt in Hif; unfold TX_ALLOC_BUFSIZE in *; lia.
  - intros buf _. set (s1 := s <| tx_dma_buf := buf |> <| tx_dma_buf_offset ::= _ |>).
    clearbody s1. assert (forall s2 d', keeps s1 s2 -> keeps s1 (advance_next_tx_ring_desc_addr
      (store_ring_desc s2 cur d'))) as Hadv.
    { intros s2 d' H2. eapply keeps_trans; [|apply keeps_advance_tx].
      eapply keeps_trans; [exact H2|]. by apply keeps_view. }
    case_match; [apply keeps_r_ok, Hadv, keeps_offset0|].
    eapply keeps_r_from; [|apply IH]. apply Hadv, keeps_refl.
Qed.

Lemma keeps_from_guest s : keeps_r s id (dma_packet_from_guest s).
Proof.
  unfold dma_packet_from_guest. case_match; [apply keeps_refl|].
  eapply keeps_r_from; [apply (keeps_idle s false)|].
  eapply keeps_r_bind; [apply keeps_tx_loop|]. intros [s1 b] _. apply keeps_r_ok. cbn [fst].
  destruct b; cbn [id]; [keeps_step|]; apply keeps_idle.
Qed.

(** A write that stores zero in the interrupt status without updating the line. *)
Definition clears_quietly (e : event) : Prop :=
  match e with
  | GuestWrite addr val _ => addr = NVNET_TX_RX_CONTROL /\ has val NVNET_TX_RX_CONTROL_BIT1 = true
  | _ => False
  end.

Definition event_ok (e : event) : Prop :=
  match e with GuestRead addr _ | GuestWrite addr _ _ => 0 <= addr | _ => True end.

Definition sound s (quiet : Prop) (r : result (NvNetState M)) : Prop :=
  match r with
  | Ok s' => nvnet_ok s' /\ (~ quiet -> line_ok s -> line_ok s')
  | Fault (AssertFail _) => True
  | Fault _ => False
  end.

Lemma keeps_sound s q r : nvnet_ok s -> keeps_r s id r -> sound s q r.
Proof. intros Hs. destruct r as [s'|[]]; cbn; try done. intros Hk. destruct (Hk Hs). auto. Qed.

Lemma access_cases a size : access_ok a size = Ok () \/ exists m, access_ok a size = Fault (AssertFail m).
Proof.
  unfold access_ok, check. destruct (a <? MMIO_SIZE); [|right; by eexists].
  destruct (Z.land a (size - 1) =? 0); [|right; by eexists].
  destruct (_ || _ || _)%bool; [by left|right; by eexists].
Qed.

Lemma keeps_set_ext s a v size : 8 <= a -> keeps_r s id (set_reg_ext s a v size).
Proof.
  intros Ha. unfold set_reg_ext. destruct (access_cases a size) as [->|[m ->]]; [|done].
  apply keeps_store; [done|apply le_bytes_ok].
Qed.

Lemma sound_set_ext_irq s q a v size : nvnet_ok s ->
  sound s q (s ← set_reg_ext s a v size; Ok (update_irq s)).
Proof.
  intros Hs. unfold set_reg_ext. destruct (access_cases a size) as [->|[m ->]]; [|done].
  destruct Hs. split; [|done]. split; try done. apply bytes_ok_store; [done|apply le_bytes_ok].
Qed.

Lemma keeps_control s val : keeps_r s id
  (s ← (if has val NVNET_TX_RX_CONTROL_KICK then
          dma_packet_from_guest (set_reg_with_mask s NVNET_TX_RX_CONTROL val
                                   (Z.lnot NVNET_TX_RX_CONTROL_IDLE))
        else Ok (set_reg_with_mask s NVNET_TX_RX_CONTROL val (Z.lnot NVNET_TX_RX_CONTROL_IDLE)));
   Ok (if has val NVNET_TX_RX_CONTROL_RESET
       then reset_descriptor_ring_pointers s <| tx_dma_buf_offset := 0 |> else s)).
Proof.
  eapply keeps_r_from; [apply (keeps_set s NVNET_TX_RX_CONTROL); vm_compute; congruence|].
  apply (keeps_r_bind _ id).
  - case_match; [apply keeps_from_guest|apply keeps_refl].
  - intros s1 _. apply keeps_r_ok. cbn [id]. case_match; [|apply keeps_refl].
    eapply keeps_trans; [apply keeps_reset_ring|]. intros []. split; [by split|done].
Qed.

Lemma control_sound s val size : nvnet_ok s ->
  sound s (clears_quietly (GuestWrite NVNET_TX_RX_CONTROL val size))
    (let s := set_reg_with_mask s NVNET_TX_RX_CONTROL val (Z.lnot NVNET_TX_RX_CONTROL_IDLE) in
     s ← (if has val NVNET_TX_RX_CONTROL_KICK then dma_packet_from_guest s else Ok s);
     let s := if has val NVNET_TX_RX_CONTROL_RESET
              then reset_descriptor_ring_pointers s <| tx_dma_buf_offset := 0 |> else s in
     Ok (if has val NVNET_TX_RX_CONTROL_BIT1 then set_reg s NVNET_IRQ_STATUS 0
         else if val =? 0 then set_reg s NVNET_UNKNOWN_SETUP_REG5 NVNET_UNKNOWN_SETUP_REG5_BIT31
         else s)).
Proof.
  intros Hs. pose proof (keeps_control s val) as Hk. cbv zeta.
  set (r := if has val NVNET_TX_RX_CONTROL_KICK then _ else _) in *. clearbody r.
  destruct r as [s1|f]; cbn [mbind result_mbind result_bind] in *; [|by apply keeps_sound].
  set (s2 := if has val NVNET_TX_RX_CONTROL_RESET then _ else _) in *. clearbody s2.
  destruct (Hk Hs) as [H2 L2]. cbn [id] in *. destruct (has val NVNET_TX_RX_CONTROL_BIT1) eqn:Hb.
  - split; [|by intros []]. destruct H2. split; try done. by apply bytes_ok_w32.
  - destruct (val =? 0); [|by split].
    destruct (keeps_set s2 NVNET_UNKNOWN_SETUP_REG5 NVNET_UNKNOWN_SETUP_REG5_BIT31) as [? HL];
      [vm_compute; congruence|done|]. split; [done|]. intros _ Hl. by apply HL, L2.
Qed.

Lemma write_sound s addr val size : nvnet_ok s -> 0 <= addr ->
  sound s (clears_quietly (GuestWrite addr val size)) (nvnet_mmio_write s addr val size).
Proof.
  intros Hs Ha. unfold nvnet_mmio_write, check. destruct (Z.eqb_spec (Z.land addr 3) 0) as [H3|]; [|done].
  cbn [mbind result_mbind result_bind].
  destruct (Z.eqb_spec addr NVNET_MDIO_ADDR) as [->|].
  { destruct (size =? 4); [|done]. cbn [mbind result_mbind result_bind]. apply keeps_sound; [done|].
    eapply keeps_r_bind; [apply keeps_set_ext; vm_compute; congruence|]. intros s1 _.
    apply keeps_r_ok. case_match; [apply keeps_mdio_write|apply keeps_mdio_read]. }
  destruct (Z.eqb_spec addr NVNET_TX_RX_CONTROL) as [->|].
  { by apply control_sound. }
  destruct (Z.eqb_spec addr NVNET_IRQ_STATUS) as [->|]; cbn [orb].
  { unfold get_reg_ext. destruct (access_cases NVNET_IRQ_STATUS size) as [->|[m ->]]; [|done].
    by apply sound_set_ext_irq. }
  destruct (Z.eqb_spec addr NVNET_MII_STATUS) as [->|]; cbn [orb].
  { unfold get_reg_ext. destruct (access_cases NVNET_MII_STATUS size) as [->|[m ->]]; [|done].
    by apply sound_set_ext_irq. }
  destruct (Z.eqb_spec addr NVNET_IRQ_MASK) as [->|]; [by apply sound_set_ext_irq|].
  apply keeps_sound; [done|]. apply keeps_set_ext.
  change 3 with (Z.ones 2) in H3. rewrite Z.land_ones in H3 by done.
  apply Z.div_exact in H3; [|done]. unfold NVNET_IRQ_STATUS, NVNET_IRQ_MASK in *. lia.
Qed.

Lemma step_sound s e : nvnet_ok s -> event_ok e -> sound s (clears_quietly e) (event_step s e).
Proof.
  intros Hs He. destruct e as [addr size|addr val size|buf|down|]; cbn [event_step].
  - unfold nvnet_mmio_read, get_reg_ext. destruct (access_cases addr size) as [->|[m ->]]; by cbn.
  - by apply write_sound.
  - apply keeps_sound; [done|]. eapply keeps_r_bind; [apply keeps_receive|].
    intros [s1 v] _. apply keeps_refl.
  - apply keeps_sound; [done|]. apply keeps_r_ok. eapply keeps_trans; [|apply keeps_set_link].
    by apply keeps_view.
  - apply keeps_sound; [done|]. apply keeps_r_ok. apply keeps_autoneg.
Qed.


(** ** The MDIO port *)

Definition mdio_cmd (r : Z) : Z := Z.lor NVNET_MDIO_ADDR_INUSE (Z.lor 0x20 r).

Lemma mdio_cmd_fields r : 0 <= r < PHY_REGS ->
  GET_MASK (u32 (mdio_cmd r)) NVNET_MDIO_ADDR_PHYADDR = PHY_ADDR /\
  GET_MASK (u32 (mdio_cmd r)) NVNET_MDIO_ADDR_PHYREG = r /\
  GET_MASK (u32 (Z.lor (mdio_cmd r) NVNET_MDIO_ADDR_WRITE)) NVNET_MDIO_ADDR_PHYADDR = PHY_ADDR /\
  GET_MASK (u32 (Z.lor (mdio_cmd r) NVNET_MDIO_ADDR_WRITE)) NVNET_MDIO_ADDR_PHYREG = r /\
  has (mdio_cmd r) NVNET_MDIO_ADDR_WRITE = false /\
  has (Z.lor (mdio_cmd r) NVNET_MDIO_ADDR_WRITE) NVNET_MDIO_ADDR_WRITE = true /\
  has (Z.ldiff (u32 (mdio_cmd r)) NVNET_MDIO_ADDR_INUSE) NVNET_MDIO_ADDR_INUSE = false.
Proof.
  unfold PHY_REGS. intros Hr.
  assert (r = 0 \/ r = 1 \/ r = 2 \/ r = 3 \/ r = 4 \/ r = 5) as Hc by lia.
  destruct Hc as [->|[->|[->|[->|[-> | ->]]]]]; vm_compute; done.
Qed.

Lemma mdio_write_done s r : 0 <= r < PHY_REGS ->
  nvnet_mmio_write s NVNET_MDIO_ADDR (Z.lor (mdio_cmd r) NVNET_MDIO_ADDR_WRITE) 4 =
  let s1 := set_reg s NVNET_MDIO_ADDR (Z.lor (mdio_cmd r) NVNET_MDIO_ADDR_WRITE) in
  Ok (andn_reg (s1 <| phy_regs ::= wr r (u16 (get_reg s NVNET_MDIO_DATA)) |>)
        NVNET_MDIO_ADDR NVNET_MDIO_ADDR_INUSE).
Proof.
  intros Hr. destruct (mdio_cmd_fields r Hr) as (_ & _ & H1 & H2 & _ & H3 & _).
  change (nvnet_mmio_write s NVNET_MDIO_ADDR (Z.lor (mdio_cmd r) NVNET_MDIO_ADDR_WRITE) 4) with
    (Ok (if has (Z.lor (mdio_cmd r) NVNET_MDIO_ADDR_WRITE) NVNET_MDIO_ADDR_WRITE
         then mdio_write (set_reg s NVNET_MDIO_ADDR (Z.lor (mdio_cmd r) NVNET_MDIO_ADDR_WRITE))
         else mdio_read (set_reg s NVNET_MDIO_ADDR (Z.lor (mdio_cmd r) NVNET_MDIO_ADDR_WRITE)))).
  rewrite H3. unfold mdio_write, phy_reg_write. rewrite get_set_same, H1, H2, Z.eqb_refl.
  rewrite (proj2 (Z.ltb_lt r PHY_REGS)) by lia.
  by rewrite (get_set_other _ NVNET_MDIO_ADDR NVNET_MDIO_DATA) by (right; vm_compute; congruence).
Qed.

Lemma mdio_read_done s r : 0 <= r < PHY_REGS ->
  nvnet_mmio_write s NVNET_MDIO_ADDR (mdio_cmd r) 4 =
  Ok (andn_reg (set_reg (set_reg s NVNET_MDIO_ADDR (mdio_cmd r)) NVNET_MDIO_DATA
        (u16 (rd (phy_regs s) r))) NVNET_MDIO_ADDR NVNET_MDIO_ADDR_INUSE).
Proof.
  intros Hr. destruct (mdio_cmd_fields r Hr) as (H1 & H2 & _ & _ & H3 & _).
  change (nvnet_mmio_write s NVNET_MDIO_ADDR (mdio_cmd r) 4) with
    (Ok (if has (mdio_cmd r) NVNET_MDIO_ADDR_WRITE
         then mdio_write (set_reg s NVNET_MDIO_ADDR (mdio_cmd r))
         else mdio_read (set_reg s NVNET_MDIO_ADDR (mdio_cmd r)))).
  rewrite H3. unfold mdio_read, phy_reg_read. rewrite get_set_same, H1, H2, Z.eqb_refl.
  by rewrite (proj2 (Z.ltb_lt r PHY_REGS)) by lia.
Qed.

(** The MDIO port reaches the PHY: a value the guest writes to one of the
    six PHY registers through the data and address registers is the value it
    reads back from that register through them, and the port ends not in use;
    the other PHY registers are untouched. *)
Theorem mdio_roundtrip s r v : 0 <= r < PHY_REGS -> is_u16 v ->
  exists s', event_steps s
    [ GuestWrite NVNET_MDIO_DATA v 4;
      GuestWrite NVNET_MDIO_ADDR (Z.lor (mdio_cmd r) NVNET_MDIO_ADDR_WRITE) 4;
      GuestWrite NVNET_MDIO_DATA 0 4;
      GuestWrite NVNET_MDIO_ADDR (mdio_cmd r) 4 ] = Ok s' /\
  nvnet_mmio_read s' NVNET_MDIO_DATA 4 = Ok v /\
  has (get_reg s' NVNET_MDIO_ADDR) NVNET_MDIO_ADDR_INUSE = false /\
  (forall r', r' <> r -> phy_reg_read s' r' = phy_reg_read s r').
Proof.
  intros Hr Hv. cbn [event_steps event_step].
  assert (forall s w, nvnet_mmio_write s NVNET_MDIO_DATA w 4 = Ok (set_reg s NVNET_MDIO_DATA w)) as Hd
    by done.
  rewrite Hd. cbn [mbind result_mbind result_bind]. rewrite mdio_write_done by done.
  cbv zeta. cbn [mbind result_mbind result_bind]. rewrite Hd. cbn [mbind result_mbind result_bind].
  rewrite mdio_read_done by done. cbn [mbind result_mbind result_bind].
  set (s1 := set_reg s NVNET_MDIO_DATA v).
  set (s2 := set_reg (andn_reg _ _ _) NVNET_MDIO_DATA 0).
  eexists. split; [done|].
  assert (phy_regs s2 = wr r (u16 (get_reg s1 NVNET_MDIO_DATA)) (phy_regs s)) as Hp by done.
  unfold s1 in Hp. rewrite get_set_same in Hp. clearbody s2. split; [|split].
  - unfold nvnet_mmio_read.
    change (get_reg_ext ?x NVNET_MDIO_DATA 4) with (Ok (get_reg x NVNET_MDIO_DATA)). f_equal.
    unfold andn_reg. rewrite get_set_other by (right; vm_compute; congruence).
    rewrite get_set_same, Hp, rd_wr_eq. unfold is_u16, u16, u32 in *.
    by repeat rewrite (Z.mod_small v) by lia.
  - unfold andn_reg. rewrite get_set_same, get_set_other by (left; vm_compute; congruence).
    rewrite get_set_same. destruct (mdio_cmd_fields r Hr) as (_ & _ & _ & _ & _ & _ & H).
    rewrite <- H. f_equal. apply Z.mod_small, (ldiff_range _ _ 32); [done|].
    apply Z.mod_pos_bound. done.
  - intros r' Hne. unfold phy_reg_read.
    transitivity (if r' <? PHY_REGS then u16 (rd (phy_regs s2) r') else 0); [done|].
    by rewrite Hp, rd_wr_ne by congruence.
Qed.

(** The write the theorem above sets apart: the status is cleared, the line
    keeps the level it had. *)
Lemma control_bit1_leaves_line s :
  exists s', nvnet_mmio_write s NVNET_TX_RX_CONTROL NVNET_TX_RX_CONTROL_BIT1 4 = Ok s' /\
    get_reg s' NVNET_IRQ_STATUS = 0 /\ irq_line s' = irq_line s.
Proof.
  exists (set_reg (set_reg_with_mask s NVNET_TX_RX_CONTROL NVNET_TX_RX_CONTROL_BIT1
                     (Z.lnot NVNET_TX_RX_CONTROL_IDLE)) NVNET_IRQ_STATUS 0).
  split; [done|]. split; [by rewrite get_set_same|done].
Qed.

End Delivery.
End Nvnet.

(** ** An example: a controller on flat memory *)

#[export] Instance flat_dma : PciDma mem :=
  { pci_dma_read m a n := load_bytes m a (Z.to_nat n); pci_dma_write := store_bytes }.

#[export] Instance flat_laws : PciDmaLaws (M := mem).
Proof.
  refine {| guest_byte := rd; guest_ram := fun _ _ => True |}.
  - intros m a n. apply length_load_bytes.
  - intros m a n i _ Hi. apply byte_load_bytes. lia.
  - intros m a l x _. apply rd_store_bytes.
Defined.

Definition flat_ram : mem :=
  store_bytes (store_bytes (store_bytes ∅
    0x1000 (bytes_of_desc (mkDesc 0x3000 63 NV_RX_AVAIL) ++ bytes_of_desc (mkDesc 0x3100 63 NV_RX_AVAIL)))
    0x2000 (bytes_of_desc (mkDesc 0x4000 1 NV_TX_VALID) ++
            bytes_of_desc (mkDesc 0x4010 2 (Z.lor NV_TX_VALID NV_TX_LASTPACKET))))
    0x4000 [1; 2].

(** Two rings of two descriptors; the next receive descriptor is the second one. *)
Definition nic0 : NvNetState mem :=
  let s := nvnet_reset (mkNvNet ∅ ∅ 0 [] [] None 0 0 flat_ram [] false false 0) in
  let s := set_reg s NVNET_RX_RING_PHYS_ADDR 0x1000 in
  let s := set_reg s NVNET_RX_RING_NEXT_DESC_PHYS_ADDR 0x1008 in
  let s := set_reg s NVNET_TX_RING_PHYS_ADDR 0x2000 in
  let s := set_reg s NVNET_TX_RING_NEXT_DESC_PHYS_ADDR 0x2000 in
  let s := set_reg s NVNET_RING_SIZE 0x10001 in
  let s := set_reg s NVNET_RECEIVER_CONTROL NVNET_RECEIVER_CONTROL_START in
  let s := set_reg s NVNET_TRANSMITTER_CONTROL NVNET_TRANSMITTER_CONTROL_START in
  set_reg s NVNET_IRQ_MASK (Z.lor NVNET_IRQ_STATUS_RX NVNET_IRQ_STATUS_TX).

Definition nic0_jobs : list job :=
  [(0x3100, 63, [1; 2; 3; 4; 5; 6; 7; 8]); (0x3000, 63, [9; 8; 7; 6; 5; 4; 3; 2; 1])].

Definition nic0_frags : list RingDesc :=
  [mkDesc 0x4000 1 NV_TX_VALID; mkDesc 0x4010 2 (Z.lor NV_TX_VALID NV_TX_LASTPACKET)].

Lemma nic0_bytes : bytes_ok (regs nic0).
Proof. unfold nic0. cbv zeta. do 9 apply bytes_ok_w32. intros a. change (is_u8 (rd ∅ a)). by rewrite rd_empty. Qed.

Lemma nic0_rx : rx_ring nic0 0x1000 2 1.
Proof. split; try apply nic0_bytes; vm_compute; by repeat split. Qed.

Lemma nic0_tx : tx_ring nic0 0x2000 2 0.
Proof. split; vm_compute; by repeat split. Qed.

Lemma nic0_frame : tx_frame nic0 0x2000 2 0 nic0_frags.
Proof.
  split.
  - intros [|[|j]] d Hd; [| |by destruct j]; injection Hd as <-; by vm_compute.
  - apply Forall_cons. split; [|apply Forall_singleton];
      (split; [by vm_compute|]; split; [by vm_compute|]; split; [done|]; right; vm_compute; congruence).
Qed.

Lemma rx_ring_in_order_witness :
  exists s', receive_all nic0 (map snd nic0_jobs) = Ok (s', [8; 9]) /\
    get_reg s' NVNET_RX_RING_NEXT_DESC_PHYS_ADDR = 0x1008 /\
    burst nic0 s' 0x1000 2 1 nic0_jobs /\ rx_raised s'.
Proof.
  apply (@rx_ring_in_order mem flat_dma flat_laws nic0 0x1000 2 1 nic0_jobs);
    [apply nic0_rx|vm_compute; congruence|done| | |].
  - intros [|[|j]] x Hx; [| |by destruct j]; injection Hx as <-; exists NV_RX_AVAIL; split; by vm_compute.
  - apply Forall_cons. split; [|apply Forall_singleton]; split; vm_compute; try (by repeat split);
      right; congruence.
  - split; [|by repeat constructor]. apply Forall_singleton. right. vm_compute. congruence.
Defined.


Lemma oversize_asserts_witness :
  nvnet_receive nic0 (repeat 0xaa 100) = Fault (AssertFail "(desc.length + 1) >= size").
Proof.
  apply (proj1 (@oversize_asserts mem flat_dma flat_laws nic0 0x1000 2 1) _ 0x3100 63 NV_RX_AVAIL);
    [apply nic0_rx|..]; vm_compute; done || (split; congruence).
Defined.

Lemma nic0_ok : nvnet_ok nic0.
Proof. split; [apply nic0_bytes|..]; vm_compute; done || (split; congruence). Qed.

Definition nic0_events : list event :=
  [GuestWrite NVNET_TX_RX_CONTROL NVNET_TX_RX_CONTROL_KICK 4; Packet (repeat 0xaa 60);
   GuestWrite NVNET_IRQ_STATUS 0x10 4].


Lemma mdio_roundtrip_witness :
  exists s', event_steps nic0
    [ GuestWrite NVNET_MDIO_DATA 0x1e1 4;
      GuestWrite NVNET_MDIO_ADDR (Z.lor (mdio_cmd MII_ANAR) NVNET_MDIO_ADDR_WRITE) 4;
      GuestWrite NVNET_MDIO_DATA 0 4;
      GuestWrite NVNET_MDIO_ADDR (mdio_cmd MII_ANAR) 4 ] = Ok s' /\
  nvnet_mmio_read s' NVNET_MDIO_DATA 4 = Ok 0x1e1.
Proof.
  destruct (@mdio_roundtrip mem flat_dma nic0 MII_ANAR 0x1e1) as (s' & H1 & H2 & _);
    [by vm_compute|by vm_compute|by exists s'].
Defined.
