(* ===== verification/Swizzle.v ===== *)
(** Swizzled (Z-ordered) textures: the masks, the copies between linear and
    swizzled layout and the rectangle wrappers of pgraph/swizzle.c and
    pgraph/swizzle.h.

    A buffer passed by pointer is a list of bytes; a copy outside it is a fault.
    The theorems show that the loops of mask arithmetic place the pixel (x, y, z)
    at the position whose bits interleave those of x, y and z, that the two
    copies are inverse to each other, and when the loop that computes the masks
    ends. *)

From S2P Require Import Prelude.

(** ** Masks *)

(** One of the three conditionals of the loop: the mask, the next bit of the
    swizzled offset and whether the dimension was left alone. *)
Definition mask_dim (bit dim mask mask_bit : Z) : Z * Z * bool :=
  if bit <? dim then (Z.lor mask mask_bit, u32 (Z.shiftl mask_bit 1), false)
  else (mask, mask_bit, true).

Fixpoint mask_loop (fuel : nat) (width height depth x y z bit mask_bit : Z) : result (Z * Z * Z * Z) :=
  match fuel with
  | O => Fault OutOfFuel
  | S fuel =>
      let '(x, mask_bit, done_x) := mask_dim bit width x mask_bit in
      let '(y, mask_bit, done_y) := mask_dim bit height y mask_bit in
      let '(z, mask_bit, done_z) := mask_dim bit depth z mask_bit in
      let bit := u32 (Z.shiftl bit 1) in
      if done_x && done_y && done_z then Ok (x, y, z, mask_bit)
      else mask_loop fuel width height depth x y z bit mask_bit
  end.

(** After 32 rounds [bit] is zero and stays so. *)
Definition MASK_ROUNDS : nat := 33.

Definition generate_swizzle_masks (width height depth : Z) : result (Z * Z * Z) :=
  '(x, y, z, mask_bit) ← mask_loop MASK_ROUNDS width height depth 0 0 0 1 1;
  _ ← check (Z.lxor (Z.lxor x y) z =? u32 (mask_bit - 1)) "(x ^ y ^ z) == (mask_bit - 1)";
  Ok (x, y, z).

(** ** Copies *)

(** [(off - mask) & mask] in unsigned arithmetic, assigned to an [int]. *)
Definition off_step (off mask : Z) : Z := s32 (Z.land (u32 (off - mask)) mask).

Section Box.
(** The copy of one pixel between an offset in the linear buffer and one in the
    swizzled buffer; the state is the destination. *)
Variable copy : Z -> Z -> list Z -> result (list Z).
Variables (width height depth row_pitch slice_pitch bytes_per_pixel : Z).
Variables (mask_x mask_y mask_z : Z).

Definition row_loop (lin swz : Z) (dst : list Z) : result (list Z * Z) :=
  for_loop (Z.to_nat width) 0 (fun x '(dst, off_x) =>
    dst ← copy (lin + u32 (x * bytes_per_pixel)) (swz + u32 (off_x * bytes_per_pixel)) dst;
    Ok (dst, off_step off_x mask_x)) (dst, 0).

Definition slice_loop (lin off_z : Z) (dst : list Z) : result (list Z * Z) :=
  for_loop (Z.to_nat height) 0 (fun y '(dst, off_y) =>
    '(dst, _) ← row_loop (lin + u32 (y * row_pitch)) (u32 ((off_y + off_z) * bytes_per_pixel)) dst;
    Ok (dst, off_step off_y mask_y)) (dst, 0).

Definition box_loop (dst : list Z) : result (list Z * Z) :=
  for_loop (Z.to_nat depth) 0 (fun z '(dst, off_z) =>
    '(dst, _) ← slice_loop (z * slice_pitch) off_z dst;
    Ok (dst, off_step off_z mask_z)) (dst, 0).
End Box.

(** [memcpy] of a pixel. *)
Definition copy_pixel (src : list Z) (n from to : Z) (dst : list Z) : result (list Z) :=
  px ← slice src from n; blit dst to px.

Definition swizzle_box_internal (src_buf : list Z) (width height depth : Z) (dst_buf : list Z)
    (row_pitch slice_pitch bytes_per_pixel : Z) : result (list Z) :=
  '(mask_x, mask_y, mask_z) ← generate_swizzle_masks width height depth;
  '(dst, _) ← box_loop (fun lin swz => copy_pixel src_buf bytes_per_pixel lin swz)
    width height depth row_pitch slice_pitch bytes_per_pixel mask_x mask_y mask_z dst_buf;
  Ok dst.

Definition unswizzle_box_internal (src_buf : list Z) (width height depth : Z) (dst_buf : list Z)
    (row_pitch slice_pitch bytes_per_pixel : Z) : result (list Z) :=
  '(mask_x, mask_y, mask_z) ← generate_swizzle_masks width height depth;
  '(dst, _) ← box_loop (fun lin swz => copy_pixel src_buf bytes_per_pixel swz lin)
    width height depth row_pitch slice_pitch bytes_per_pixel mask_x mask_y mask_z dst_buf;
  Ok dst.

(** The versions for fixed [bytes_per_pixel] are the same code. *)
Definition swizzle_box := swizzle_box_internal.
Definition unswizzle_box := unswizzle_box_internal.

Definition swizzle_rect (src_buf : list Z) (width height : Z) (dst_buf : list Z)
    (pitch bytes_per_pixel : Z) : result (list Z) :=
  swizzle_box src_buf width height 1 dst_buf pitch 0 bytes_per_pixel.
Definition unswizzle_rect (src_buf : list Z) (width height : Z) (dst_buf : list Z)
    (pitch bytes_per_pixel : Z) : result (list Z) :=
  unswizzle_box src_buf width height 1 dst_buf pitch 0 bytes_per_pixel.

(** ** Reference: interleaved bits

    [zorder n a b c x y z] interleaves [a] bits of x, [b] bits of y and [c] bits
    of z, lowest bit first; [n] bounds the number of bits of each. *)

Definition put_bit (a : nat) (v r : Z) : Z :=
  match a with O => r | S _ => v mod 2 + 2 * r end.

Fixpoint zorder (n a b c : nat) (x y z : Z) : Z :=
  match n with
  | O => 0
  | S n => put_bit a x (put_bit b y (put_bit c z
             (zorder n (pred a) (pred b) (pred c) (x / 2) (y / 2) (z / 2))))
  end.

(** *** Bits of a number *)

Lemma put_bit_S a v r : put_bit (S a) v r = 2 * r + Z.b2z (Z.odd v).
Proof. cbn [put_bit]. rewrite Zmod_odd. destruct (Z.odd v); cbn; lia. Qed.

Lemma land_2b r r' p q :
  Z.land (2 * r + Z.b2z p) (2 * r' + Z.b2z q) = 2 * Z.land r r' + Z.b2z (p && q).
Proof.
  apply Z.bits_inj'. intros n Hn. destruct (Z.eq_dec n 0) as [->|].
  - by rewrite Z.land_spec, !Z.testbit_0_r.
  - replace n with (Z.succ (n - 1)) by lia. by rewrite Z.land_spec, !Z.testbit_succ_r, Z.land_spec by lia.
Qed.

Lemma lxor_2b r r' p q :
  Z.lxor (2 * r + Z.b2z p) (2 * r' + Z.b2z q) = 2 * Z.lxor r r' + Z.b2z (xorb p q).
Proof.
  apply Z.bits_inj'. intros n Hn. destruct (Z.eq_dec n 0) as [->|].
  - by rewrite Z.lxor_spec, !Z.testbit_0_r.
  - replace n with (Z.succ (n - 1)) by lia. by rewrite Z.lxor_spec, !Z.testbit_succ_r, Z.lxor_spec by lia.
Qed.

(** *** Walking through the positions of a mask

    Subtracting the mask and masking moves [d], the position of one coordinate,
    to [d'], that of its successor. *)
Definition walks (d m d' : Z) : Prop := Z.land (d - m) m = d' /\ Z.land d m = d.

Lemma walks_inert b d m d' : walks d m d' ->
  walks (put_bit b 0 d) (put_bit b 0 m) (put_bit b 0 d').
Proof.
  destruct b as [|b]; [done|]. intros [H1 H2]. rewrite !put_bit_S. cbn [Z.odd Z.b2z]. split.
  - replace (2 * d + 0 - (2 * m + 0)) with (2 * (d - m) + Z.b2z false) by (cbn; lia).
    change (2 * m + 0) with (2 * m + Z.b2z false). by rewrite land_2b, H1.
  - change 0 with (Z.b2z false). by rewrite land_2b, H2.
Qed.

Lemma walks_active a (f : Z -> Z) m : (forall x, walks (f x) m (f (x + 1))) -> forall x,
  walks (put_bit (S a) x (f (x / 2))) (put_bit (S a) (-1) m) (put_bit (S a) (x + 1) (f ((x + 1) / 2))).
Proof.
  intros Hf x. destruct (Hf (x / 2)) as [H1 H2]. rewrite !put_bit_S.
  assert (x = 2 * (x / 2) + Z.b2z (Z.odd x)) as Hx.
  { rewrite (Z.div_mod x 2) at 1 by lia. rewrite Zmod_odd. by destruct (Z.odd x). }
  set (k := x / 2) in *. change (Z.odd (-1)) with true. destruct (Z.odd x) eqn:Ho; cbn [Z.b2z] in *.
  - replace (x + 1) with (2 * (k + 1)) by lia. rewrite (Z.mul_comm 2 (k + 1)), Z.div_mul, Z.odd_mul by lia.
    rewrite andb_false_r. split.
    + replace (2 * f k + 1 - (2 * m + 1)) with (2 * (f k - m) + Z.b2z false) by (cbn; lia).
      change (2 * m + 1) with (2 * m + Z.b2z true). by rewrite land_2b, H1.
    + change 1 with (Z.b2z true). by rewrite land_2b, H2.
  - rewrite Z.odd_add, Ho. replace ((x + 1) / 2) with k by (apply (Z.div_unique _ 2 _ 1); lia).
    split.
    + replace (2 * f k + 0 - (2 * m + 1)) with (2 * (f k - m - 1) + Z.b2z true) by (cbn; lia).
      change (2 * m + 1) with (2 * m + Z.b2z true). rewrite land_2b. cbn [andb xorb Z.odd Z.b2z].
      do 2 f_equal. replace (f k - m - 1) with (f k + Z.lnot m) by (unfold Z.lnot; lia).
      rewrite Z.add_nocarry_lxor.
      * apply Z.bits_inj'. intros n Hn. rewrite <- H2 at 2.
        rewrite !Z.land_spec, Z.lxor_spec, Z.lnot_spec by done.
        rewrite <- H2 at 1. rewrite Z.land_spec. by destruct (Z.testbit (f k) n), (Z.testbit m n).
      * rewrite <- H2, <- Z.land_assoc, Z.land_lnot_diag. apply Z.land_0_r.
    + change 0 with (Z.b2z false). change 1 with (Z.b2z true). by rewrite land_2b, H2.
Qed.

(** A coordinate without bits, or zero, contributes nothing. *)
Lemma zorder_zero n : forall a b c x y z,
  a = O \/ x = 0 -> b = O \/ y = 0 -> c = O \/ z = 0 -> zorder n a b c x y z = 0.
Proof.
  induction n as [|n IH]; intros a b c x y z Hx Hy Hz; [done|]. cbn [zorder].
  rewrite IH; [|destruct Hx as [->| ->], Hy as [->| ->], Hz as [->| ->]; cbn; auto..].
  unfold put_bit. destruct Hx as [->| ->], Hy as [->| ->], Hz as [->| ->]; by repeat case_match.
Qed.

Lemma walk_x n : forall a b c x,
  walks (zorder n a b c x 0 0) (zorder n a b c (-1) 0 0) (zorder n a b c (x + 1) 0 0).
Proof.
  induction n as [|n IH]; intros a b c x; [by split|]. destruct a as [|a].
  { rewrite !zorder_zero by auto. by split. }
  cbn [zorder pred]. apply (walks_active a (fun x => put_bit b 0 (put_bit c 0
    (zorder n a (pred b) (pred c) x 0 0)))). intros k. apply walks_inert, walks_inert, IH.
Qed.

Lemma walk_y n : forall a b c y,
  walks (zorder n a b c 0 y 0) (zorder n a b c 0 (-1) 0) (zorder n a b c 0 (y + 1) 0).
Proof.
  induction n as [|n IH]; intros a b c y; [by split|]. destruct b as [|b].
  { rewrite !zorder_zero by auto. by split. }
  cbn [zorder pred]. apply walks_inert, (walks_active b (fun y => put_bit c 0
    (zorder n (pred a) b (pred c) 0 y 0))). intros k. apply walks_inert, IH.
Qed.

Lemma walk_z n : forall a b c z,
  walks (zorder n a b c 0 0 z) (zorder n a b c 0 0 (-1)) (zorder n a b c 0 0 (z + 1)).
Proof.
  induction n as [|n IH]; intros a b c z; [by split|]. destruct c as [|c].
  { rewrite !zorder_zero by auto. by split. }
  cbn [zorder pred]. apply walks_inert, walks_inert, (walks_active c (fun z =>
    (zorder n (pred a) (pred b) c 0 0 z))). intros k. apply IH.
Qed.

Lemma zorder_add n : forall a b c x y z,
  zorder n a b c x y z = zorder n a b c x 0 0 + zorder n a b c 0 y 0 + zorder n a b c 0 0 z.
Proof.
  induction n as [|n IH]; intros a b c x y z; [done|]. cbn [zorder]. rewrite IH.
  change (0 / 2) with 0. unfold put_bit. change (0 mod 2) with 0. repeat case_match; lia.
Qed.

Lemma put_lxor a v w r r' : Z.odd v = false \/ Z.odd w = false ->
  Z.lxor (put_bit a v r) (put_bit a w r') = put_bit a (v + w) (Z.lxor r r').
Proof.
  intros H. destruct a; [done|]. rewrite !put_bit_S, lxor_2b, Z.odd_add. done.
Qed.

Lemma zorder_lxor n : forall a b c x y z,
  Z.lxor (Z.lxor (zorder n a b c x 0 0) (zorder n a b c 0 y 0)) (zorder n a b c 0 0 z) =
  zorder n a b c x y z.
Proof.
  induction n as [|n IH]; intros a b c x y z; [done|]. cbn [zorder].
  rewrite !put_lxor, ?Z.add_0_r, ?Z.add_0_l, IH by auto. done.
Qed.

Lemma put_range a v r k : 0 <= r < 2 ^ Z.of_nat k ->
  0 <= put_bit a v r < 2 ^ Z.of_nat (Nat.min a 1 + k).
Proof.
  intros Hr. destruct a; [done|]. cbn [put_bit]. pose proof (Z.mod_pos_bound v 2).
  replace (Nat.min (S a) 1 + k)%nat with (S k) by lia. rewrite Nat2Z.inj_succ, Z.pow_succ_r; lia.
Qed.

Lemma zorder_range n : forall a b c x y z, (a <= n)%nat -> (b <= n)%nat -> (c <= n)%nat ->
  0 <= zorder n a b c x y z < 2 ^ Z.of_nat (a + b + c).
Proof.
  induction n as [|n IH]; intros a b c x y z Ha Hb Hc.
  { replace (a + b + c)%nat with O by lia. cbn. lia. }
  cbn [zorder]. replace (a + b + c)%nat with
    (Nat.min a 1 + (Nat.min b 1 + (Nat.min c 1 + (pred a + pred b + pred c))))%nat by lia.
  apply put_range, put_range, put_range, IH; lia.
Qed.

Lemma zorder_ones n : forall a b c, (a <= n)%nat -> (b <= n)%nat -> (c <= n)%nat ->
  zorder n a b c (-1) (-1) (-1) = 2 ^ Z.of_nat (a + b + c) - 1.
Proof.
  assert (forall k j, put_bit k (-1) (2 ^ Z.of_nat j - 1) = 2 ^ Z.of_nat (Nat.min k 1 + j) - 1) as Hput.
  { intros [|k] j; [done|]. cbn [put_bit]. replace (Nat.min (S k) 1 + j)%nat with (S j) by lia.
    rewrite Nat2Z.inj_succ, Z.pow_succ_r by lia. change (-1 mod 2) with 1. lia. }
  induction n as [|n IH]; intros a b c Ha Hb Hc; [destruct a, b, c; done || lia|].
  cbn [zorder]. change (-1 / 2) with (-1). rewrite IH, !Hput by lia. do 3 f_equal. lia.
Qed.

Lemma put_inj a v w r r' : put_bit a v r = put_bit a w r' ->
  (a <> O -> v mod 2 = w mod 2) /\ r = r'.
Proof.
  destruct a; cbn [put_bit]; [done|]. pose proof (Z.mod_pos_bound v 2).
  pose proof (Z.mod_pos_bound w 2). lia.
Qed.

Lemma coord_inj a x x' : 0 <= x < 2 ^ Z.of_nat a -> 0 <= x' < 2 ^ Z.of_nat a ->
  (a <> O -> x mod 2 = x' mod 2) -> x / 2 = x' / 2 -> x = x'.
Proof.
  intros Hx Hx' Hm Hd. destruct a; [cbn in *; lia|].
  rewrite (Z.div_mod x 2), (Z.div_mod x' 2), Hd, Hm by lia. done.
Qed.

Lemma coord_half a x : 0 <= x < 2 ^ Z.of_nat a -> 0 <= x / 2 < 2 ^ Z.of_nat (pred a).
Proof.
  intros Hx. destruct a as [|a]; [cbn in *; by replace x with 0 by lia|]. cbn [pred].
  rewrite Nat2Z.inj_succ, Z.pow_succ_r in Hx by lia. split; [apply Z.div_pos; lia|].
  apply Z.div_lt_upper_bound; lia.
Qed.

Lemma zorder_inj n : forall a b c x y z x' y' z', (a <= n)%nat -> (b <= n)%nat -> (c <= n)%nat ->
  0 <= x < 2 ^ Z.of_nat a -> 0 <= x' < 2 ^ Z.of_nat a ->
  0 <= y < 2 ^ Z.of_nat b -> 0 <= y' < 2 ^ Z.of_nat b ->
  0 <= z < 2 ^ Z.of_nat c -> 0 <= z' < 2 ^ Z.of_nat c ->
  zorder n a b c x y z = zorder n a b c x' y' z' -> x = x' /\ y = y' /\ z = z'.
Proof.
  induction n as [|n IH]; intros a b c x y z x' y' z' Ha Hb Hc Hx Hx' Hy Hy' Hz Hz'.
  { destruct a, b, c; lia. }
  cbn [zorder]. intros He. apply put_inj in He as [Hmx He]. apply put_inj in He as [Hmy He].
  apply put_inj in He as [Hmz He]. apply IH in He as (? & ? & ?); try lia; try by apply coord_half.
  split_and!; by eapply coord_inj.
Qed.

Lemma put_surj a k p : 0 <= p < 2 ^ Z.of_nat (Nat.min a 1 + k) ->
  exists v r, (0 <= v < 2 ^ Z.of_nat (Nat.min a 1)) /\ 0 <= r < 2 ^ Z.of_nat k /\ put_bit a v r = p.
Proof.
  intros Hp. destruct a as [|a]; [by exists 0, p|].
  replace (Nat.min (S a) 1 + k)%nat with (S k) in Hp by lia.
  rewrite Nat2Z.inj_succ, Z.pow_succ_r in Hp by lia.
  exists (p mod 2), (p / 2). replace (Nat.min (S a) 1) with 1%nat by lia.
  split; [apply Z.mod_pos_bound; lia|]. split; [split; [apply Z.div_pos|apply Z.div_lt_upper_bound]; lia|].
  cbn [put_bit]. rewrite Z.mod_mod by lia. pose proof (Z.div_mod p 2). lia.
Qed.

(** The coordinate with lowest bit [v] and the others those of [x]. *)
Lemma coord_cons a v x r : 0 <= v < 2 ^ Z.of_nat (Nat.min a 1) -> 0 <= x < 2 ^ Z.of_nat (pred a) ->
  0 <= v + 2 * x < 2 ^ Z.of_nat a /\ (v + 2 * x) / 2 = x /\ put_bit a (v + 2 * x) r = put_bit a v r.
Proof.
  intros Hv Hx. destruct a as [|a].
  { cbn in *. by replace v with 0 by lia; replace x with 0 by lia. }
  replace (Nat.min (S a) 1) with 1%nat in Hv by lia. cbn in Hv, Hx.
  split; [rewrite Nat2Z.inj_succ, Z.pow_succ_r; lia|]. split.
  - symmetry. apply (Z.div_unique _ 2 _ v); lia.
  - cbn [put_bit]. by rewrite (Z.mul_comm 2), Z.mod_add by lia.
Qed.

Lemma zorder_surj n : forall a b c p, (a <= n)%nat -> (b <= n)%nat -> (c <= n)%nat ->
  0 <= p < 2 ^ Z.of_nat (a + b + c) ->
  exists x y z, 0 <= x < 2 ^ Z.of_nat a /\ 0 <= y < 2 ^ Z.of_nat b /\ 0 <= z < 2 ^ Z.of_nat c /\
    zorder n a b c x y z = p.
Proof.
  induction n as [|n IH]; intros a b c p Ha Hb Hc Hp.
  { exists 0, 0, 0. destruct a, b, c; try lia. cbn in *. lia. }
  replace (a + b + c)%nat with
    (Nat.min a 1 + (Nat.min b 1 + (Nat.min c 1 + (pred a + pred b + pred c))))%nat in Hp by lia.
  apply put_surj in Hp as (u & p1 & Hu & Hp & <-). apply put_surj in Hp as (v & p2 & Hv & Hp & <-).
  apply put_surj in Hp as (w & p3 & Hw & Hp & <-).
  destruct (IH (pred a) (pred b) (pred c) p3) as (x & y & z & Hx & Hy & Hz & <-); [lia..|done|].
  exists (u + 2 * x), (v + 2 * y), (w + 2 * z). cbn [zorder].
  destruct (coord_cons a u x (put_bit b v (put_bit c w (zorder n (pred a) (pred b) (pred c) x y z))))
    as (? & -> & Ha'); [done..|].
  destruct (coord_cons b v y (put_bit c w (zorder n (pred a) (pred b) (pred c) x y z)))
    as (? & -> & Hb'); [done..|].
  destruct (coord_cons c w z (zorder n (pred a) (pred b) (pred c) x y z)) as (? & -> & Hc'); [done..|].
  split_and!; try done; try lia. by rewrite Hc', Hb', Ha'.
Qed.

(** ** The masks *)

(** At round [i], [a] bits of the dimension [w] are still to be placed. *)
Definition dim_left (i : nat) (w : Z) (a : nat) : Prop :=
  match a with O => w <= 2 ^ Z.of_nat i | S _ => w = 2 ^ Z.of_nat (i + a) end.

Lemma dim_left_next i w a : dim_left i w a -> dim_left (S i) w (pred a).
Proof.
  destruct a as [|[|a]]; cbn [dim_left pred]; intros Hw.
  - rewrite Nat2Z.inj_succ, Z.pow_succ_r; lia.
  - by replace (S i) with (i + 1)%nat by lia; rewrite Hw.
  - by replace (S i + S a)%nat with (i + S (S a))%nat by lia.
Qed.

Lemma shift_bit k : (k < 31)%nat -> u32 (Z.shiftl (2 ^ Z.of_nat k) 1) = 2 ^ Z.of_nat (S k).
Proof.
  intros Hk. rewrite Z.shiftl_mul_pow2, Nat2Z.inj_succ, Z.pow_succ_r, Z.mul_comm by lia.
  change (2 ^ 1) with 2. apply Z.mod_small. split; [lia|].
  change (2 ^ 32) with (2 * 2 ^ 31). apply Z.mul_lt_mono_pos_l; [lia|]. apply Z.pow_lt_mono_r; lia.
Qed.

Lemma lor_new_bit m k : 0 <= m < 2 ^ Z.of_nat k -> Z.lor m (2 ^ Z.of_nat k) = m + 2 ^ Z.of_nat k.
Proof.
  intros Hm. rewrite <- Z.lxor_lor, <- Z.add_nocarry_lxor; [done|..].
  all: apply Z.bits_inj'; intros j Hj; rewrite Z.land_spec, Z.pow2_bits_eqb, Z.bits_0 by lia.
  all: destruct (Z.eqb_spec (Z.of_nat k) j) as [<-|]; [|apply andb_false_r].
  all: by rewrite (testbit_above m (Z.of_nat k)) by lia.
Qed.

Lemma mask_dim_spec i w a m j k : dim_left i w a -> 0 <= m < 2 ^ Z.of_nat j -> (j <= k)%nat ->
  (k + Nat.min a 1 <= 31)%nat ->
  mask_dim (2 ^ Z.of_nat i) w m (2 ^ Z.of_nat k) =
    (m + 2 ^ Z.of_nat k * put_bit a (-1) 0, 2 ^ Z.of_nat (k + Nat.min a 1), bool_decide (a = O)) /\
  0 <= m + 2 ^ Z.of_nat k * put_bit a (-1) 0 < 2 ^ Z.of_nat (k + Nat.min a 1).
Proof.
  intros Hw Hm Hj Hk. unfold mask_dim. assert (2 ^ Z.of_nat j <= 2 ^ Z.of_nat k) by (apply Z.pow_le_mono_r; lia).
  destruct a as [|a]; cbn [dim_left] in Hw.
  - rewrite (proj2 (Z.ltb_ge _ _)) by done. cbn [put_bit Nat.min]. rewrite Nat.add_0_r, Z.mul_0_r, Z.add_0_r.
    split; [done|lia].
  - rewrite Hw, (proj2 (Z.ltb_lt _ _)) by (apply Z.pow_lt_mono_r; lia).
    replace (k + Nat.min (S a) 1)%nat with (S k) in * by lia.
    rewrite shift_bit, lor_new_bit by lia. change (put_bit (S a) (-1) 0) with 1. rewrite Z.mul_1_r.
    split; [done|]. rewrite Nat2Z.inj_succ, Z.pow_succ_r; lia.
Qed.

Lemma put_split a v r : put_bit a v r = put_bit a v 0 + 2 ^ Z.of_nat (Nat.min a 1) * r.
Proof.
  destruct a; cbn [put_bit]; [cbn; lia|]. replace (Nat.min (S a) 1) with 1%nat by lia. cbn. lia.
Qed.

Lemma put_zero a : put_bit a 0 0 = 0.
Proof. by destruct a. Qed.

Lemma pow_nat_add j k : 2 ^ Z.of_nat (j + k) = 2 ^ Z.of_nat j * 2 ^ Z.of_nat k.
Proof. rewrite Nat2Z.inj_add. apply Z.pow_add_r; lia. Qed.

Lemma mask_loop_spec n : forall fuel i a b c k w h d x y z, (n < fuel)%nat ->
  (a <= n)%nat -> (b <= n)%nat -> (c <= n)%nat -> (i + n <= 31)%nat -> (k + a + b + c <= 31)%nat ->
  dim_left i w a -> dim_left i h b -> dim_left i d c ->
  0 <= x < 2 ^ Z.of_nat k -> 0 <= y < 2 ^ Z.of_nat k -> 0 <= z < 2 ^ Z.of_nat k ->
  mask_loop fuel w h d x y z (2 ^ Z.of_nat i) (2 ^ Z.of_nat k) =
  Ok (x + 2 ^ Z.of_nat k * zorder n a b c (-1) 0 0, y + 2 ^ Z.of_nat k * zorder n a b c 0 (-1) 0,
      z + 2 ^ Z.of_nat k * zorder n a b c 0 0 (-1), 2 ^ Z.of_nat (k + a + b + c)).
Proof.
  induction n as [n IH] using lt_wf_ind. intros fuel i a b c k w h d x y z Hf Ha Hb Hc Hi Hk Hw Hh Hd Hx Hy Hz.
  destruct fuel as [|fuel]; [lia|]. cbn [mask_loop].
  destruct (mask_dim_spec i w a x k k) as [-> Hx1]; [done..|lia|]. set (kx := (k + Nat.min a 1)%nat) in *.
  destruct (mask_dim_spec i h b y k kx) as [-> Hy1]; [done|done|lia..|]. set (ky := (kx + Nat.min b 1)%nat) in *.
  destruct (mask_dim_spec i d c z k ky) as [-> Hz1]; [done|done|lia..|]. set (kz := (ky + Nat.min c 1)%nat) in *.
  assert (forall j v, (j <= kz)%nat -> 0 <= v < 2 ^ Z.of_nat j -> 0 <= v < 2 ^ Z.of_nat kz) as Hup.
  { intros j v Hj Hv. split; [lia|]. eapply Z.lt_le_trans; [apply Hv|]. apply Z.pow_le_mono_r; lia. }
  destruct (bool_decide (a = O) && bool_decide (b = O) && bool_decide (c = O)) eqn:Hdone.
  - rewrite !andb_true_iff, !bool_decide_eq_true in Hdone. destruct Hdone as [[-> ->] ->].
    unfold kz, ky, kx. cbn [put_bit Nat.min]. rewrite !zorder_zero by auto.
    rewrite !Z.mul_0_r, !Z.add_0_r. do 2 f_equal.
  - destruct n as [|n]; [destruct a, b, c; [done|lia..]|]. rewrite shift_bit by lia.
    rewrite (IH n ltac:(lia) fuel (S i) (pred a) (pred b) (pred c) kz); try lia;
      try (by apply dim_left_next); try (by apply (Hup kx); [lia|]); try (by apply (Hup ky); [lia|]).
    cbn [zorder]. change (0 / 2) with 0. change (-1 / 2) with (-1).
    replace (kz + pred a + pred b + pred c)%nat with (k + a + b + c)%nat by lia.
    unfold kz, ky, kx. rewrite !pow_nat_add.
    rewrite !(put_split a _ (put_bit _ _ _)), !(put_split b _ (put_bit _ _ _)), !(put_split c _ (zorder _ _ _ _ _ _ _)), !put_zero.
    apply (f_equal Ok). apply (f_equal2 pair); [|done]. repeat apply (f_equal2 pair); ring.
Qed.

Lemma off_step_walks d m d' : walks d m d' -> 0 <= m < 2 ^ 31 -> 0 <= d' < 2 ^ 31 -> off_step d m = d'.
Proof.
  intros [H _] Hm Hd. unfold off_step, u32. rewrite <- (Z.land_ones _ 32), <- Z.land_assoc by done.
  rewrite (Z.land_comm (Z.ones 32)), (Z.land_ones m 32), (Z.mod_small m) by (done || lia).
  rewrite H. unfold s32. rewrite Z.mod_small by lia. lia.
Qed.

(** ** Boxes whose sides are powers of two *)

Section PowerBox.
Context (a b c : nat) (row_pitch slice_pitch bpp : Z).

Abbreviation w := (2 ^ Z.of_nat a).
Abbreviation h := (2 ^ Z.of_nat b).
Abbreviation d := (2 ^ Z.of_nat c).

(** The position of a pixel in the swizzled and its offset in the linear buffer. *)
Definition zpos (x y z : Z) : Z := zorder 31 a b c x y z.
Definition swz_off (x y z : Z) : Z := zpos x y z * bpp.
Definition lin_off (x y z : Z) : Z := z * slice_pitch + y * row_pitch + x * bpp.

Definition in_box (x y z : Z) : Prop := 0 <= x < w /\ 0 <= y < h /\ 0 <= z < d.

(** Sizes that fit 32 bits and rows and slices that do not overlap. *)
Record layout : Prop := {
  lay_bits : (a + b + c <= 31)%nat;
  lay_bpp : 0 < bpp;
  lay_swz : 2 ^ Z.of_nat (a + b + c) * bpp <= 2 ^ 32;
  lay_row : w * bpp <= row_pitch;
  lay_rows : h * row_pitch <= 2 ^ 32;
  lay_slice : 0 <= slice_pitch /\ (c <> O -> h * row_pitch <= slice_pitch);
}.

Context (lay : layout).

Lemma bits_le : (a <= 31)%nat /\ (b <= 31)%nat /\ (c <= 31)%nat.
Proof. destruct lay. lia. Qed.

Lemma zpos_range x y z : 0 <= zpos x y z < 2 ^ Z.of_nat (a + b + c) /\ zpos x y z < 2 ^ 31.
Proof.
  destruct bits_le as (Ha & Hb & Hc). pose proof (zorder_range 31 a b c x y z Ha Hb Hc) as Hr.
  split; [done|]. unfold zpos. eapply Z.lt_le_trans; [apply Hr|].
  apply Z.pow_le_mono_r; [lia|]. destruct lay. lia.
Qed.

Lemma masks_spec : generate_swizzle_masks w h d = Ok (zpos (-1) 0 0, zpos 0 (-1) 0, zpos 0 0 (-1)).
Proof.
  destruct bits_le as (Ha & Hb & Hc). destruct lay as [Hbits _ _ _ _ _]. unfold generate_swizzle_masks.
  assert (forall k, dim_left 0 (2 ^ Z.of_nat k) k) as Hdim by by intros [|k].
  assert (0 <= 0 < 2 ^ Z.of_nat 0) as H0 by (cbn; lia).
  pose proof (mask_loop_spec 31 MASK_ROUNDS 0 a b c 0 w h d 0 0 0) as Hm.
  change (2 ^ Z.of_nat 0) with 1 in Hm. rewrite Hm by (done || unfold MASK_ROUNDS; lia). clear Hm.
  cbn [mbind result_mbind result_bind]. rewrite !Z.mul_1_l, !Z.add_0_l.
  rewrite zorder_lxor, zorder_ones by done.
  unfold u32. rewrite Z.mod_small, Z.eqb_refl; [done|].
  assert (2 ^ Z.of_nat (a + b + c) <= 2 ^ 31) by (apply Z.pow_le_mono_r; lia). cbn [Nat.add]. lia.
Qed.

Lemma zpos_int x y z : 0 <= zpos x y z < 2 ^ 31.
Proof. pose proof (zpos_range x y z). lia. Qed.

Lemma step_x x : off_step (zpos x 0 0) (zpos (-1) 0 0) = zpos (x + 1) 0 0.
Proof. apply off_step_walks; [exact (walk_x 31 a b c x)|apply zpos_int..]. Qed.
Lemma step_y y : off_step (zpos 0 y 0) (zpos 0 (-1) 0) = zpos 0 (y + 1) 0.
Proof. apply off_step_walks; [exact (walk_y 31 a b c y)|apply zpos_int..]. Qed.
Lemma step_z z : off_step (zpos 0 0 z) (zpos 0 0 (-1)) = zpos 0 0 (z + 1).
Proof. apply off_step_walks; [exact (walk_z 31 a b c z)|apply zpos_int..]. Qed.

Lemma zpos_zero : zpos 0 0 0 = 0.
Proof. apply zorder_zero; auto. Qed.

(** All writes of a copy that writes [f x y z] for the pixel (x, y, z). *)
Definition box_writes (f : Z -> Z -> Z -> Z * list Z) : list (Z * list Z) :=
  concat (map (fun z => concat (map (fun y => concat (map (fun x => [f x y z])
    (seqZ 0 w))) (seqZ 0 h))) (seqZ 0 d)).

Lemma elem_of_box_writes f p : p ∈ box_writes f <-> exists x y z, in_box x y z /\ p = f x y z.
Proof.
  unfold box_writes, in_box. rewrite elem_of_concat_map. split.
  - intros (z & Hz & H). apply elem_of_concat_map in H as (y & Hy & H).
    apply elem_of_concat_map in H as (x & Hx & H). apply list_elem_of_singleton in H as ->.
    apply elem_of_seqZ in Hx, Hy, Hz. exists x, y, z. split; [lia|done].
  - intros (x & y & z & (Hx & Hy & Hz) & ->). exists z. rewrite elem_of_seqZ. split; [lia|].
    apply elem_of_concat_map. exists y. rewrite elem_of_seqZ. split; [lia|].
    apply elem_of_concat_map. exists x. rewrite elem_of_seqZ. split; [lia|]. by apply list_elem_of_singleton.
Qed.

(** The sizes of the offsets that are computed in 32 bits. *)
Lemma offsets_small x y z : in_box x y z ->
  u32 (x * bpp) = x * bpp /\ u32 (y * row_pitch) = y * row_pitch /\
  u32 ((zpos 0 y 0 + zpos 0 0 z) * bpp) + u32 (zpos x 0 0 * bpp) = swz_off x y z.
Proof.
  intros (Hx & Hy & Hz). destruct lay as [Hbits Hbpp Hswz Hrow Hrows Hslice].
  assert (0 < w /\ 0 < h) as [Hw Hh] by (split; apply Z.pow_pos_nonneg; lia).
  assert (w * bpp <= 2 ^ 32).
  { etrans; [|exact Hswz]. apply Z.mul_le_mono_nonneg_r; [lia|]. apply Z.pow_le_mono_r; lia. }
  pose proof (zpos_range 0 y z). pose proof (zpos_range x 0 0). unfold u32, swz_off.
  replace (zpos 0 y 0 + zpos 0 0 z) with (zpos 0 y z).
  2:{ unfold zpos. rewrite (zorder_add 31 a b c 0 y z), (zorder_zero 31 a b c 0 0 0) by auto. lia. }
  replace (zpos x y z) with (zpos 0 y z + zpos x 0 0).
  2:{ unfold zpos. rewrite (zorder_add 31 a b c x y z), (zorder_add 31 a b c 0 y z).
      rewrite (zorder_zero 31 a b c 0 0 0) by auto. lia. }
  rewrite !Z.mod_small; [lia|nia..].
Qed.

(** The loops perform the writes of all pixels. *)
Section Loops.
Context (copy : Z -> Z -> list Z -> result (list Z)) (f : Z -> Z -> Z -> Z * list Z).
Context (Hcopy : forall x y z dst, in_box x y z ->
  copy (lin_off x y z) (swz_off x y z) dst = blit dst (f x y z).1 (f x y z).2).

Lemma side_nat k : Z.of_nat (Z.to_nat (2 ^ Z.of_nat k)) = 2 ^ Z.of_nat k.
Proof. apply Z2Nat.id, Z.pow_nonneg. lia. Qed.

Lemma row_stores y z dst : 0 <= y < h -> 0 <= z < d ->
  row_loop copy w bpp (zpos (-1) 0 0) (z * slice_pitch + u32 (y * row_pitch))
    (u32 ((zpos 0 y 0 + zpos 0 0 z) * bpp)) dst =
  (dst ← stores (concat (map (fun x => [f x y z]) (seqZ 0 w))) dst; Ok (dst, zpos w 0 0)).
Proof.
  intros Hy Hz. unfold row_loop. replace (dst, 0) with (dst, zpos 0 0 0) by by rewrite zpos_zero.
  rewrite (loop_stores (fun x => zpos x 0 0) (fun x => [f x y z])).
  - by rewrite side_nat, Z.add_0_l.
  - rewrite side_nat. intros x dst0 Hx. assert (in_box x y z) as Hin by (unfold in_box; lia).
    destruct (offsets_small x y z Hin) as (H1 & H2 & H3). rewrite H3, H1, H2.
    fold (lin_off x y z). rewrite Hcopy, step_x by done. cbn [stores]. by destruct (blit _ _ _).
Qed.

Lemma slice_stores z dst : 0 <= z < d ->
  slice_loop copy w h row_pitch bpp (zpos (-1) 0 0) (zpos 0 (-1) 0) (z * slice_pitch) (zpos 0 0 z) dst =
  (dst ← stores (concat (map (fun y => concat (map (fun x => [f x y z]) (seqZ 0 w))) (seqZ 0 h))) dst;
   Ok (dst, zpos 0 h 0)).
Proof.
  intros Hz. unfold slice_loop. replace (dst, 0) with (dst, zpos 0 0 0) by by rewrite zpos_zero.
  rewrite (loop_stores (fun y => zpos 0 y 0) (fun y => concat (map (fun x => [f x y z]) (seqZ 0 w)))).
  - by rewrite side_nat, Z.add_0_l.
  - rewrite side_nat. intros y dst0 Hy. rewrite row_stores, step_y by lia. by destruct (stores _ _).
Qed.

Lemma box_stores dst :
  box_loop copy w h d row_pitch slice_pitch bpp (zpos (-1) 0 0) (zpos 0 (-1) 0) (zpos 0 0 (-1)) dst =
  (dst ← stores (box_writes f) dst; Ok (dst, zpos 0 0 d)).
Proof.
  unfold box_loop. replace (dst, 0) with (dst, zpos 0 0 0) by by rewrite zpos_zero.
  rewrite (loop_stores (fun z => zpos 0 0 z) (fun z => concat (map (fun y =>
    concat (map (fun x => [f x y z]) (seqZ 0 w))) (seqZ 0 h)))).
  - by rewrite side_nat, Z.add_0_l.
  - rewrite side_nat. intros z dst0 Hz. rewrite slice_stores, step_z by lia. by destruct (stores _ _).
Qed.
End Loops.

(** *** No two pixels overlap *)

Lemma digit_inj k q q' r r' : 0 <= r < k -> 0 <= r' < k -> q * k + r = q' * k + r' -> q = q' /\ r = r'.
Proof. intros Hr Hr' He. assert (q = q') by nia. subst. lia. Qed.

Lemma lin_inj x y z x' y' z' i j : in_box x y z -> in_box x' y' z' -> 0 <= i < bpp -> 0 <= j < bpp ->
  lin_off x y z + i = lin_off x' y' z' + j -> x = x' /\ y = y' /\ z = z' /\ i = j.
Proof.
  intros (Hx & Hy & Hz) (Hx' & Hy' & Hz') Hi Hj. destruct lay as [_ Hbpp _ Hrow _ [Hs0 Hs]].
  unfold lin_off. intros He.
  assert (0 <= x * bpp + i < row_pitch /\ 0 <= x' * bpp + j < row_pitch) as [Hu Hu'] by nia.
  assert (0 <= y * row_pitch + (x * bpp + i) < h * row_pitch /\
          0 <= y' * row_pitch + (x' * bpp + j) < h * row_pitch) as [Hv Hv'] by nia.
  assert (z = z' /\ y * row_pitch + (x * bpp + i) = y' * row_pitch + (x' * bpp + j)) as [-> He2].
  { destruct (decide (c = O)) as [->|Hc]; [change (2 ^ Z.of_nat 0) with 1 in *; assert (z = 0) by lia;
      assert (z' = 0) by lia; subst; lia|]. specialize (Hs Hc). apply (digit_inj slice_pitch); lia. }
  apply digit_inj in He2 as [-> He2]; [|done..]. apply digit_inj in He2 as [-> ->]; done.
Qed.

Lemma swz_inj x y z x' y' z' i j : in_box x y z -> in_box x' y' z' -> 0 <= i < bpp -> 0 <= j < bpp ->
  swz_off x y z + i = swz_off x' y' z' + j -> x = x' /\ y = y' /\ z = z' /\ i = j.
Proof.
  intros (Hx & Hy & Hz) (Hx' & Hy' & Hz') Hi Hj He. apply digit_inj in He as [He ->]; [|done..].
  destruct bits_le as (Ha & Hb & Hc). apply zorder_inj in He as (-> & -> & ->); done.
Qed.

Lemma swz_bound x y z : 0 <= swz_off x y z /\ swz_off x y z + bpp <= 2 ^ Z.of_nat (a + b + c) * bpp.
Proof. pose proof (zpos_range x y z). destruct lay. unfold swz_off. nia. Qed.

Lemma swz_cover k : 0 <= k < 2 ^ Z.of_nat (a + b + c) * bpp ->
  exists x y z i, in_box x y z /\ 0 <= i < bpp /\ k = swz_off x y z + i.
Proof.
  intros Hk. destruct bits_le as (Ha & Hb & Hc). destruct lay as [_ Hbpp _ _ _ _].
  destruct (zorder_surj 31 a b c (k / bpp)) as (x & y & z & Hx & Hy & Hz & He); [done..| |].
  { split; [apply Z.div_pos; lia|]. apply Z.div_lt_upper_bound; lia. }
  exists x, y, z, (k mod bpp). split; [done|]. split; [apply Z.mod_pos_bound; lia|].
  unfold swz_off, zpos. rewrite He, Z.mul_comm. apply Z.div_mod. lia.
Qed.

Lemma lin_nonneg x y z : in_box x y z -> 0 <= lin_off x y z.
Proof.
  intros (Hx & Hy & Hz). destruct lay as [_ Hbpp _ Hrow _ [Hs0 _]]. unfold lin_off.
  assert (0 < w) by (apply Z.pow_pos_nonneg; lia). nia.
Qed.

(** A linear buffer that holds every pixel. *)
Definition holds_linear (l : list Z) : Prop :=
  forall x y z, in_box x y z -> lin_off x y z + bpp <= Z.of_nat (length l).
Definition holds_swizzled (l : list Z) : Prop :=
  2 ^ Z.of_nat (a + b + c) * bpp <= Z.of_nat (length l).

(** A pixel read from [src] at an offset that lies in it. *)
Lemma copy_pixel_ok src from to dst : 0 <= from -> from + bpp <= Z.of_nat (length src) ->
  copy_pixel src bpp from to dst = blit dst to (take (Z.to_nat bpp) (drop (Z.to_nat from) src)).
Proof. intros H1 H2. unfold copy_pixel. rewrite slice_ok; [done|destruct lay; lia..]. Qed.

Lemma pixel_bytes src from i : 0 <= from -> from + bpp <= Z.of_nat (length src) ->
  let px := take (Z.to_nat bpp) (drop (Z.to_nat from) src) in
  Z.of_nat (length px) = bpp /\ (0 <= i < bpp -> byte px i = byte src (from + i)).
Proof.
  intros H1 H2 px. destruct lay as [_ Hbpp _ _ _ _].
  assert (slice src from bpp = Ok px) as Hs by (apply slice_ok; lia).
  apply slice_inv in Hs as (_ & _ & _ & Hl & Hb). split; [done|]. apply Hb.
Qed.

(** The loops, for pixels copied from [from x y z] to [to x y z]. *)
Lemma box_copy (copy : Z -> Z -> list Z -> result (list Z)) (from to : Z -> Z -> Z -> Z) src dst :
  (forall x y z, copy (lin_off x y z) (swz_off x y z) = copy_pixel src bpp (from x y z) (to x y z)) ->
  (forall x y z, in_box x y z -> 0 <= from x y z /\ from x y z + bpp <= Z.of_nat (length src)) ->
  (forall x y z, in_box x y z -> 0 <= to x y z /\ to x y z + bpp <= Z.of_nat (length dst)) ->
  (forall x y z x' y' z' i j, in_box x y z -> in_box x' y' z' -> 0 <= i < bpp -> 0 <= j < bpp ->
     to x y z + i = to x' y' z' + j -> x = x' /\ y = y' /\ z = z' /\ i = j) ->
  exists dst' off, box_loop copy w h d row_pitch slice_pitch bpp (zpos (-1) 0 0) (zpos 0 (-1) 0)
      (zpos 0 0 (-1)) dst = Ok (dst', off) /\ length dst' = length dst /\
    (forall x y z i, in_box x y z -> 0 <= i < bpp -> byte dst' (to x y z + i) = byte src (from x y z + i)) /\
    (forall k, 0 <= k -> (forall x y z, in_box x y z -> ~ (to x y z <= k < to x y z + bpp)) ->
       byte dst' k = byte dst k).
Proof.
  intros Hcopy Hfrom Hto Hinj.
  set (f x y z := (to x y z, take (Z.to_nat bpp) (drop (Z.to_nat (from x y z)) src))).
  assert (forall x y z, in_box x y z -> Z.of_nat (length (f x y z).2) = bpp) as Hlen.
  { intros x y z Hin. apply (pixel_bytes src (from x y z) 0); by apply Hfrom. }
  assert (forall x y z i, in_box x y z -> 0 <= i < bpp ->
    byte (f x y z).2 i = byte src (from x y z + i)) as Hbyte.
  { intros x y z i Hin Hi. apply (pixel_bytes src (from x y z) i); [by apply Hfrom..|done]. }
  rewrite (box_stores copy f).
  2:{ intros x y z dst0 Hin. rewrite Hcopy. apply copy_pixel_ok; by apply Hfrom. }
  destruct (stores_spec (box_writes f) dst) as (dst' & -> & Hl & Hb & Hk).
  - intros p q i j (x & y & z & Hin & ->)%elem_of_box_writes (x' & y' & z' & Hin' & ->)%elem_of_box_writes.
    rewrite !Hlen by done. intros Hi Hj He.
    destruct (Hinj x y z x' y' z' i j Hin Hin' Hi Hj He) as (-> & -> & -> & ->). done.
  - apply Forall_forall. intros p (x & y & z & Hin & ->)%elem_of_box_writes. rewrite Hlen by done.
    by apply Hto.
  - eexists dst', _. split; [done|]. split; [done|]. split.
    + intros x y z i Hin Hi. rewrite <- Hbyte by done. apply (Hb (f x y z) i); [|by rewrite Hlen].
      apply elem_of_box_writes. by exists x, y, z.
    + intros k Hk0 Hne. apply Hk; [done|]. intros p (x & y & z & Hin & ->)%elem_of_box_writes.
      rewrite Hlen by done. by apply Hne.
Qed.

Lemma swizzle_run src dst : holds_linear src -> holds_swizzled dst ->
  exists dst', swizzle_box src w h d dst row_pitch slice_pitch bpp = Ok dst' /\ length dst' = length dst /\
    (forall x y z i, in_box x y z -> 0 <= i < bpp ->
       byte dst' (swz_off x y z + i) = byte src (lin_off x y z + i)) /\
    (forall k, 2 ^ Z.of_nat (a + b + c) * bpp <= k -> byte dst' k = byte dst k).
Proof.
  intros Hsrc Hdst. unfold swizzle_box, swizzle_box_internal. rewrite masks_spec.
  cbn [mbind result_mbind result_bind].
  destruct (box_copy (fun lin swz => copy_pixel src bpp lin swz) lin_off swz_off src dst)
    as (dst' & off & -> & Hl & Hb & Hk); [done|..].
  - intros x y z Hin. split; [by apply lin_nonneg|by apply Hsrc].
  - intros x y z _. pose proof (swz_bound x y z). unfold holds_swizzled in Hdst. lia.
  - apply swz_inj.
  - exists dst'. split; [done|]. split; [done|]. split; [done|]. intros k Hk0. apply Hk.
    + destruct lay. pose proof (Z.pow_nonneg 2 (Z.of_nat (a + b + c))). nia.
    + intros x y z _. pose proof (swz_bound x y z). lia.
Qed.

Lemma unswizzle_run src dst : holds_swizzled src -> holds_linear dst ->
  exists dst', unswizzle_box src w h d dst row_pitch slice_pitch bpp = Ok dst' /\ length dst' = length dst /\
    (forall x y z i, in_box x y z -> 0 <= i < bpp ->
       byte dst' (lin_off x y z + i) = byte src (swz_off x y z + i)) /\
    (forall k, 0 <= k -> (forall x y z, in_box x y z -> ~ (lin_off x y z <= k < lin_off x y z + bpp)) ->
       byte dst' k = byte dst k).
Proof.
  intros Hsrc Hdst. unfold unswizzle_box, unswizzle_box_internal. rewrite masks_spec.
  cbn [mbind result_mbind result_bind].
  destruct (box_copy (fun lin swz => copy_pixel src bpp swz lin) swz_off lin_off src dst)
    as (dst' & off & -> & Hl & Hb & Hk); [done|..].
  - intros x y z _. pose proof (swz_bound x y z). unfold holds_swizzled in Hsrc. lia.
  - intros x y z Hin. split; [by apply lin_nonneg|by apply Hdst].
  - apply lin_inj.
  - by exists dst'.
Qed.

(** C26. Swizzling puts every pixel where its interleaved coordinate bits say:
    for a box with sides that are powers of two, [swizzle_box] copies the pixel
    (x, y, z) of the linear buffer to pixel [zorder x y z] of the swizzled one,
    and [unswizzle_box] copies it back from there.  Every access stays inside
    the buffers, and nothing but the pixels is written. *)
Theorem swizzle_interleaves lin swz : holds_linear lin -> holds_swizzled swz ->
  (exists swz', swizzle_box lin w h d swz row_pitch slice_pitch bpp = Ok swz' /\
     length swz' = length swz /\
     (forall x y z i, in_box x y z -> 0 <= i < bpp ->
        byte swz' (zorder 31 a b c x y z * bpp + i) =
        byte lin (z * slice_pitch + y * row_pitch + x * bpp + i)) /\
     (forall k, 2 ^ Z.of_nat (a + b + c) * bpp <= k -> byte swz' k = byte swz k)) /\
  (exists lin', unswizzle_box swz w h d lin row_pitch slice_pitch bpp = Ok lin' /\
     length lin' = length lin /\
     (forall x y z i, in_box x y z -> 0 <= i < bpp ->
        byte lin' (z * slice_pitch + y * row_pitch + x * bpp + i) =
        byte swz (zorder 31 a b c x y z * bpp + i)) /\
     (forall k, 0 <= k -> (forall x y z, in_box x y z -> ~ (lin_off x y z <= k < lin_off x y z + bpp)) ->
        byte lin' k = byte lin k)).
Proof. intros Hl Hs. split; [by apply swizzle_run|by apply unswizzle_run]. Qed.

(** The two copies are inverse to each other: unswizzling what was
    swizzled, into any buffer, gives back every byte of every pixel, and
    swizzling what was unswizzled, into any buffer, gives back the whole
    swizzled texture. *)
Theorem swizzle_roundtrip lin lin2 swz swz2 :
  holds_linear lin -> holds_linear lin2 -> holds_swizzled swz -> holds_swizzled swz2 ->
  (exists swz' lin', swizzle_box lin w h d swz2 row_pitch slice_pitch bpp = Ok swz' /\
     unswizzle_box swz' w h d lin2 row_pitch slice_pitch bpp = Ok lin' /\
     forall x y z i, in_box x y z -> 0 <= i < bpp ->
       byte lin' (lin_off x y z + i) = byte lin (lin_off x y z + i)) /\
  (exists lin' swz', unswizzle_box swz w h d lin2 row_pitch slice_pitch bpp = Ok lin' /\
     swizzle_box lin' w h d swz2 row_pitch slice_pitch bpp = Ok swz' /\
     forall k, 0 <= k < 2 ^ Z.of_nat (a + b + c) * bpp -> byte swz' k = byte swz k).
Proof.
  intros Hl Hl2 Hs Hs2. split.
  - destruct (swizzle_run lin swz2 Hl Hs2) as (swz' & H1 & Hlen & Hb & _).
    destruct (unswizzle_run swz' lin2) as (lin' & H2 & _ & Hb' & _);
      [unfold holds_swizzled; by rewrite Hlen|done|].
    exists swz', lin'. split; [done|]. split; [done|]. intros x y z i Hin Hi. by rewrite Hb', Hb.
  - destruct (unswizzle_run swz lin2 Hs Hl2) as (lin' & H1 & Hlen & Hb & _).
    destruct (swizzle_run lin' swz2) as (swz' & H2 & _ & Hb' & _);
      [intros x y z Hin; rewrite Hlen; by apply Hl2|done|].
    exists lin', swz'. split; [done|]. split; [done|]. intros k Hk.
    destruct (swz_cover k Hk) as (x & y & z & i & Hin & Hi & ->). by rewrite Hb', Hb.
Qed.
End PowerBox.

(** ** When the masks are computed *)

Lemma mask_dim_done bit w m mb : (mask_dim bit w m mb).2 = negb (bit <? w).
Proof. unfold mask_dim. by case_match. Qed.

(** The value of [bit] in round [i]. *)
Definition round_bit (i : nat) : Z := if (i <? 32)%nat then 2 ^ Z.of_nat i else 0.

Lemma round_bit_next i : u32 (Z.shiftl (round_bit i) 1) = round_bit (S i).
Proof.
  unfold round_bit. destruct (Nat.ltb_spec i 32), (Nat.ltb_spec (S i) 32); try lia; [|by replace i with 31%nat by lia|done].
  apply shift_bit. lia.
Qed.

Lemma mask_loop_round fuel w h d x y z i mb : exists x' y' z' mb',
  mask_loop (S fuel) w h d x y z (round_bit i) mb =
    if negb (round_bit i <? w) && negb (round_bit i <? h) && negb (round_bit i <? d)
    then Ok (x', y', z', mb') else mask_loop fuel w h d x' y' z' (round_bit (S i)) mb'.
Proof.
  cbn [mask_loop]. rewrite round_bit_next.
  pose proof (mask_dim_done (round_bit i) w x mb) as Hx.
  destruct (mask_dim (round_bit i) w x mb) as [[x' mbx] dx].
  pose proof (mask_dim_done (round_bit i) h y mbx) as Hy.
  destruct (mask_dim (round_bit i) h y mbx) as [[y' mby] dy].
  pose proof (mask_dim_done (round_bit i) d z mby) as Hz.
  destruct (mask_dim (round_bit i) d z mby) as [[z' mbz] dz].
  cbn in Hx, Hy, Hz. rewrite Hx, Hy, Hz. by exists x', y', z', mbz.
Qed.

Lemma mask_loop_ends w h d : w <= 2 ^ 31 -> h <= 2 ^ 31 -> d <= 2 ^ 31 -> forall fuel i x y z mb,
  (i < 32 <= fuel + i)%nat -> exists r, mask_loop fuel w h d x y z (round_bit i) mb = Ok r.
Proof.
  intros Hw Hh Hd. induction fuel as [|fuel IH]; intros i x y z mb Hi; [lia|].
  destruct (mask_loop_round fuel w h d x y z i mb) as (x' & y' & z' & mb' & ->).
  destruct (decide (i = 31%nat)) as [->|]; [|case_match; [by eexists|apply IH; lia]].
  change (round_bit 31) with (2 ^ 31). rewrite !(proj2 (Z.ltb_ge _ _)) by done. by eexists.
Qed.

Lemma mask_loop_forever w h d : 2 ^ 31 < w \/ 2 ^ 31 < h \/ 2 ^ 31 < d -> forall fuel i x y z mb,
  mask_loop fuel w h d x y z (round_bit i) mb = Fault OutOfFuel.
Proof.
  intros Hbig. induction fuel as [|fuel IH]; intros i x y z mb; [done|].
  destruct (mask_loop_round fuel w h d x y z i mb) as (x' & y' & z' & mb' & ->).
  assert (round_bit i <= 2 ^ 31).
  { unfold round_bit. destruct (Nat.ltb_spec i 32); [apply Z.pow_le_mono_r; lia|done]. }
  destruct (Z.ltb_spec (round_bit i) w), (Z.ltb_spec (round_bit i) h), (Z.ltb_spec (round_bit i) d);
    try lia; apply IH.
Qed.

(** The loop that computes the masks ends exactly for boxes whose sides
    are at most 2^31, and then within the 33 rounds it is given: for a larger
    side [bit] overflows to zero and the condition stays true forever. *)
Theorem swizzle_masks_terminate w h d x y z mb :
  (w <= 2 ^ 31 /\ h <= 2 ^ 31 /\ d <= 2 ^ 31 ->
   exists r, mask_loop MASK_ROUNDS w h d x y z 1 mb = Ok r) /\
  (2 ^ 31 < w \/ 2 ^ 31 < h \/ 2 ^ 31 < d ->
   forall fuel, mask_loop fuel w h d x y z 1 mb = Fault OutOfFuel).
Proof.
  change 1 with (round_bit 0). split.
  - intros (Hw & Hh & Hd). apply mask_loop_ends; unfold MASK_ROUNDS; lia.
  - intros Hbig fuel. by apply mask_loop_forever.
Qed.

(** ** Examples *)

(** A texture of 4 x 2 pixels of two bytes, in rows of 10 bytes. *)
Lemma layout0 : layout 2 1 0 10 0 2.
Proof. split; vm_compute; try done; try lia; by split. Qed.

Definition linear0 : list Z := map Z.of_nat (seq 0 20).
Definition swizzled0 : list Z := repeat 0 16.

Lemma linear0_holds : holds_linear 2 1 0 10 0 2 linear0.
Proof. intros x y z (Hx & Hy & Hz). unfold lin_off. cbn in *. lia. Qed.

Lemma swizzle_interleaves_witness : exists s,
  swizzle_rect linear0 4 2 swizzled0 10 2 = Ok s /\ byte s (zorder 31 2 1 0 3 1 0 * 2) = 16.
Proof.
  assert (in_box 2 1 0 3 1 0) as Hin by by vm_compute. assert (0 <= 0 < 2) as H0 by lia.
  destruct (swizzle_interleaves 2 1 0 10 0 2 layout0 linear0 swizzled0 linear0_holds)
    as [(s & H1 & _ & H2 & _) _]; [by vm_compute|].
  exists s. split; [exact H1|]. clear H1. specialize (H2 3 1 0 0 Hin H0).
  rewrite Z.add_0_r in H2. exact H2.
Defined.

Lemma swizzle_roundtrip_witness : exists s l,
  swizzle_rect linear0 4 2 swizzled0 10 2 = Ok s /\
  unswizzle_rect s 4 2 (repeat 0 20) 10 2 = Ok l /\ byte l 11 = 11.
Proof.
  assert (in_box 2 1 0 0 1 0) as Hin by by vm_compute. assert (0 <= 1 < 2) as H0 by lia.
  destruct (swizzle_roundtrip 2 1 0 10 0 2 layout0 linear0 (repeat 0 20) swizzled0 swizzled0)
    as [(s & l & H1 & H2 & H3) _]; [apply linear0_holds|apply linear0_holds|by vm_compute..|].
  exists s, l. split; [exact H1|]. split; [exact H2|].
  exact (H3 0 1 0 1 Hin H0).
Defined.

Lemma swizzle_masks_terminate_witness :
  (exists r, mask_loop MASK_ROUNDS 8 32 1 0 0 0 1 1 = Ok r) /\
  (forall fuel, mask_loop fuel (2 ^ 31 + 1) 1 1 0 0 0 1 1 = Fault OutOfFuel).
Proof.
  split; [apply (proj1 (swizzle_masks_terminate 8 32 1 0 0 0 1)); by vm_compute|].
  apply (proj2 (swizzle_masks_terminate (2 ^ 31 + 1) 1 1 0 0 0 1)). left. by vm_compute.
Defined.
