(* ===== verification/S3tc.v ===== *)
(** Decompression of S3TC (DXT1, DXT3 and DXT5) textures of pgraph/s3tc.c.

    The compressed data and the converted texture are lists of bytes, with an
    access outside a list a fault; words are read little-endian, as on the hosts
    the emulator runs on.  The memory [g_malloc] returns is a parameter: the
    theorems show that every byte of the result is written, with the colour an
    independent definition of the formats gives, and that no access leaves the
    two buffers. *)

From S2P Require Import Prelude.

Inductive S3TC_DECOMPRESS_FORMAT :=
| S3TC_DECOMPRESS_FORMAT_DXT1
| S3TC_DECOMPRESS_FORMAT_DXT3
| S3TC_DECOMPRESS_FORMAT_DXT5.

(** ** Colours of a block *)

(** The arrays r, g, b and a; of a only the first four elements are set here. *)
Record Colors := mkColors { col_r : list Z; col_g : list Z; col_b : list Z; col_a : list Z }.

Definition decode_bc1_colors (c0 c1 : Z) (transparent : bool) : Colors :=
  let r0 := u8 (Z.shiftr (Z.land c0 0xF800) 8 * 0xFF / 0xF8) in
  let g0 := u8 (Z.shiftr (Z.land c0 0x07E0) 3 * 0xFF / 0xFC) in
  let b0 := u8 (Z.shiftl (Z.land c0 0x001F) 3 * 0xFF / 0xF8) in
  let r1 := u8 (Z.shiftr (Z.land c1 0xF800) 8 * 0xFF / 0xF8) in
  let g1 := u8 (Z.shiftr (Z.land c1 0x07E0) 3 * 0xFF / 0xFC) in
  let b1 := u8 (Z.shiftl (Z.land c1 0x001F) 3 * 0xFF / 0xF8) in
  if transparent then
    mkColors [r0; r1; u8 ((r0 + r1) / 2); 0]
             [g0; g1; u8 ((g0 + g1) / 2); 0]
             [b0; b1; u8 ((b0 + b1) / 2); 0]
             [255; 255; 255; 0]
  else
    mkColors [r0; r1; u8 ((2 * r0 + r1) / 3); u8 ((r0 + 2 * r1) / 3)]
             [g0; g1; u8 ((2 * g0 + g1) / 3); u8 ((g0 + 2 * g1) / 3)]
             [b0; b1; u8 ((2 * b0 + b1) / 3); u8 ((b0 + 2 * b1) / 3)]
             [255; 255; 255; 255].

Definition write_block_to_texture (converted_data : list Z) (indices i j width height z_pos_factor : Z)
    (c : Colors) (separate_alpha : bool) : result (list Z) :=
  let x0 := i * 4 in
  let y0 := j * 4 in
  let x1 := x0 + 4 in
  let y1 := y0 + 4 in
  for_loop (Z.to_nat (Z.min y1 height - y0)) y0 (fun y converted_data =>
    let y_index := 4 * (y - y0) in
    let z_plus_y_pos_factor := z_pos_factor + y * width in
    for_loop (Z.to_nat (Z.min x1 width - x0)) x0 (fun x converted_data =>
      let xy_index := y_index + x - x0 in
      let index := Z.land (Z.shiftr indices (2 * xy_index)) 0x03 in
      let alpha_index := if separate_alpha then xy_index else index in
      let p := (z_plus_y_pos_factor + x) * 4 in
      r ← fetch (col_r c) index;
      g ← fetch (col_g c) index;
      b ← fetch (col_b c) index;
      a ← fetch (col_a c) alpha_index;
      blit converted_data p [r; g; b; a]) converted_data) converted_data.

(** [((uint16_t * )block_data)[i]] and its like. *)
Definition word16 (block : list Z) (i : Z) : Z := le_word (take 2 (drop (Z.to_nat (2 * i)) block)).
Definition word32 (block : list Z) (i : Z) : Z := le_word (take 4 (drop (Z.to_nat (4 * i)) block)).
Definition word64 (block : list Z) (i : Z) : Z := le_word (take 8 (drop (Z.to_nat (8 * i)) block)).

Definition decompress_dxt1_block (block_data converted_data : list Z) (i j width height z_pos_factor : Z)
    : result (list Z) :=
  let c0 := word16 block_data 0 in
  let c1 := word16 block_data 1 in
  let c := decode_bc1_colors c0 c1 (c0 <=? c1) in
  let indices := word32 block_data 1 in
  write_block_to_texture converted_data indices i j width height z_pos_factor c false.

Definition dxt3_alpha (alpha a_i : Z) : Z :=
  u8 (Z.shiftl (Z.land (Z.shiftr alpha (4 * a_i)) 0x0F) 4 * 0xFF / 0xF0).

Definition set_alpha (c : Colors) (f : Z -> Z) : Colors :=
  mkColors (col_r c) (col_g c) (col_b c) (map f (seqZ 0 16)).

Definition decompress_dxt3_block (block_data converted_data : list Z) (i j width height z_pos_factor : Z)
    : result (list Z) :=
  let c0 := word16 block_data 4 in
  let c1 := word16 block_data 5 in
  let c := decode_bc1_colors c0 c1 false in
  let alpha := word64 block_data 0 in
  let c := set_alpha c (dxt3_alpha alpha) in
  let indices := word32 block_data 3 in
  write_block_to_texture converted_data indices i j width height z_pos_factor c true.

Definition dxt5_palette (a0 a1 : Z) : list Z :=
  if a1 <? a0 then
    [a0; a1; u8 ((6 * a0 + 1 * a1) / 7); u8 ((5 * a0 + 2 * a1) / 7); u8 ((4 * a0 + 3 * a1) / 7);
     u8 ((3 * a0 + 4 * a1) / 7); u8 ((2 * a0 + 5 * a1) / 7); u8 ((1 * a0 + 6 * a1) / 7)]
  else
    [a0; a1; u8 ((4 * a0 + 1 * a1) / 5); u8 ((3 * a0 + 2 * a1) / 5); u8 ((2 * a0 + 3 * a1) / 5);
     u8 ((1 * a0 + 4 * a1) / 5); 0; 255].

Definition dxt5_alpha (alpha : Z) (a_palette : list Z) (a_i : Z) : Z :=
  byte a_palette (Z.land (Z.shiftr alpha (16 + 3 * a_i)) 0x07).

Definition decompress_dxt5_block (block_data converted_data : list Z) (i j width height z_pos_factor : Z)
    : result (list Z) :=
  let c0 := word16 block_data 4 in
  let c1 := word16 block_data 5 in
  let c := decode_bc1_colors c0 c1 false in
  let alpha := word64 block_data 0 in
  let a0 := byte block_data 0 in
  let a1 := byte block_data 1 in
  let c := set_alpha c (dxt5_alpha alpha (dxt5_palette a0 a1)) in
  let indices := word32 block_data 3 in
  write_block_to_texture converted_data indices i j width height z_pos_factor c true.

(** ** Textures *)

(** The branches of the two loops: the block of the format at its index. *)
Definition block_size (color_format : S3TC_DECOMPRESS_FORMAT) : Z :=
  match color_format with S3TC_DECOMPRESS_FORMAT_DXT1 => 8 | _ => 16 end.

Definition decompress_block (color_format : S3TC_DECOMPRESS_FORMAT) (data : list Z) (index : Z)
    (converted_data : list Z) (i j width height z_pos_factor : Z) : result (list Z) :=
  block ← slice data (block_size color_format * index) (block_size color_format);
  match color_format with
  | S3TC_DECOMPRESS_FORMAT_DXT1 =>
      decompress_dxt1_block block converted_data i j width height z_pos_factor
  | S3TC_DECOMPRESS_FORMAT_DXT3 =>
      decompress_dxt3_block block converted_data i j width height z_pos_factor
  | S3TC_DECOMPRESS_FORMAT_DXT5 =>
      decompress_dxt5_block block converted_data i j width height z_pos_factor
  end.

Definition num_blocks (n : Z) : Z := Z.land (u32 (n + 3)) (Z.lnot 3) / 4.

(** The memory the allocator hands out. *)
Class Allocator := g_malloc : Z -> list Z.

Section Decompress.
Context {alloc : Allocator}.

Definition s3tc_decompress_3d (color_format : S3TC_DECOMPRESS_FORMAT) (data : list Z)
    (width height depth : Z) : result (list Z) :=
  _ ← check (0 <? width) "width > 0";
  _ ← check (0 <? height) "height > 0";
  _ ← check (0 <? depth) "depth > 0";
  let num_blocks_x := num_blocks width in
  let num_blocks_y := num_blocks height in
  let num_blocks_z := u32 (depth + 3) / 4 in
  let converted_data := g_malloc (u32 (width * height * depth * 4)) in
  '(converted_data, _) ← for_loop (Z.to_nat num_blocks_z) 0 (fun k '(converted_data, (cur_depth, sub_block_index)) =>
    let residual_depth := depth - cur_depth in
    let block_depth := Z.min residual_depth 4 in
    '(converted_data, sub_block_index) ←
      for_loop (Z.to_nat num_blocks_y) 0 (fun j st =>
        for_loop (Z.to_nat num_blocks_x) 0 (fun i st =>
          for_loop (Z.to_nat block_depth) 0 (fun slice '(converted_data, sub_block_index) =>
            let z_pos_factor := (cur_depth + slice) * width * height in
            converted_data ← decompress_block color_format data sub_block_index converted_data
                               i j width height z_pos_factor;
            Ok (converted_data, sub_block_index + 1)) st) st) (converted_data, sub_block_index);
    Ok (converted_data, (cur_depth + block_depth, sub_block_index))) (converted_data, (0, 0));
  Ok converted_data.

Definition s3tc_decompress_2d (color_format : S3TC_DECOMPRESS_FORMAT) (data : list Z)
    (width height : Z) : result (list Z) :=
  _ ← check (0 <? width) "width > 0";
  _ ← check (0 <? height) "height > 0";
  let num_blocks_x := num_blocks width in
  let num_blocks_y := num_blocks height in
  let converted_data := g_malloc (u32 (width * height * 4)) in
  for_loop (Z.to_nat num_blocks_y) 0 (fun j converted_data =>
    for_loop (Z.to_nat num_blocks_x) 0 (fun i converted_data =>
      let block_index := j * num_blocks_x + i in
      decompress_block color_format data block_index converted_data i j width height 0)
      converted_data) converted_data.
End Decompress.

(** ** Reference: the formats

    A colour of [n] bits stands for a fraction of 255; the palette of a block
    has two colours and two mixtures of them, or one mixture and transparent
    black; the code of texel [t] has two bits. *)

Definition expand (n v : Z) : Z := v * 255 / (2 ^ n - 1).

Definition rgb565 (c : Z) : list Z :=
  [expand 5 (c / 2 ^ 11); expand 6 (c / 2 ^ 5 mod 2 ^ 6); expand 5 (c mod 2 ^ 5)].

Definition mix (p q : Z) (l l' : list Z) : list Z :=
  zip_with (fun u v => (p * u + q * v) / (p + q)) l l'.

Definition bc1_color (c0 c1 : Z) (transparent : bool) (code : Z) : list Z :=
  if code =? 0 then rgb565 c0
  else if code =? 1 then rgb565 c1
  else if transparent then (if code =? 2 then mix 1 1 (rgb565 c0) (rgb565 c1) else [0; 0; 0])
  else if code =? 2 then mix 2 1 (rgb565 c0) (rgb565 c1)
  else mix 1 2 (rgb565 c0) (rgb565 c1).

Definition alpha_mix (a0 a1 code : Z) : Z :=
  if code =? 0 then a0
  else if code =? 1 then a1
  else if a1 <? a0 then ((8 - code) * a0 + (code - 1) * a1) / 7
  else if code <? 6 then ((6 - code) * a0 + (code - 1) * a1) / 5
  else if code =? 6 then 0 else 255.

Definition texel (color_format : S3TC_DECOMPRESS_FORMAT) (block : list Z) (t : Z) : list Z :=
  match color_format with
  | S3TC_DECOMPRESS_FORMAT_DXT1 =>
      let c0 := word16 block 0 in
      let c1 := word16 block 1 in
      let code := word32 block 1 / 4 ^ t mod 4 in
      bc1_color c0 c1 (c0 <=? c1) code ++ [if (c0 <=? c1) && (code =? 3) then 0 else 255]
  | S3TC_DECOMPRESS_FORMAT_DXT3 =>
      bc1_color (word16 block 4) (word16 block 5) false (word32 block 3 / 4 ^ t mod 4) ++
      [17 * (word64 block 0 / 16 ^ t mod 16)]
  | S3TC_DECOMPRESS_FORMAT_DXT5 =>
      bc1_color (word16 block 4) (word16 block 5) false (word32 block 3 / 4 ^ t mod 4) ++
      [alpha_mix (byte block 0) (byte block 1) (word64 block 0 / 2 ^ 16 / 8 ^ t mod 8)]
  end.

(** ** Palettes *)

Lemma expand_range n v : 0 < n -> 0 <= v < 2 ^ n -> is_u8 (expand n v).
Proof.
  intros Hn Hv. unfold expand, is_u8. assert (2 <= 2 ^ n) by (change 2 with (2 ^ 1) at 1; apply Z.pow_le_mono_r; lia).
  split; [apply Z.div_pos; lia|]. apply Z.div_lt_upper_bound; [lia|]. change (2 ^ 8) with 256. nia.
Qed.

Lemma mix_range u v : is_u8 u -> is_u8 v ->
  is_u8 ((u + v) / 2) /\ is_u8 ((2 * u + v) / 3) /\ is_u8 ((u + 2 * v) / 3).
Proof.
  unfold is_u8. change (2 ^ 8) with 256. intros Hu Hv. Z.to_euclidean_division_equations. lia.
Qed.

(** The three shift-and-mask expressions are the expansions of the fields. *)
Lemma red_expand c : is_u16 c -> Z.shiftr (Z.land c 0xF800) 8 * 0xFF / 0xF8 = expand 5 (c / 2 ^ 11).
Proof.
  intros Hc. change 0xF800 with (Z.shiftl (Z.ones 5) 11). rewrite land_high, Z.shiftr_div_pow2 by done.
  change (2 ^ 11) with (2 ^ 3 * 2 ^ 8) at 2. rewrite Z.mul_assoc, Z.div_mul by done.
  rewrite (Z.mod_small (c / 2 ^ 11)).
  - unfold expand. change 0xF8 with ((2 ^ 5 - 1) * 8). rewrite <- Z.mul_assoc, (Z.mul_comm (2 ^ 3)), Z.mul_assoc.
    by apply Z.div_mul_cancel_r.
  - unfold is_u16 in Hc. split; [apply Z.div_pos; lia|]. apply Z.div_lt_upper_bound; lia.
Qed.

Lemma green_expand c : Z.shiftr (Z.land c 0x07E0) 3 * 0xFF / 0xFC = expand 6 (c / 2 ^ 5 mod 2 ^ 6).
Proof.
  change 0x07E0 with (Z.shiftl (Z.ones 6) 5). rewrite land_high, Z.shiftr_div_pow2 by done.
  change (2 ^ 5) with (2 ^ 2 * 2 ^ 3) at 2. rewrite Z.mul_assoc, Z.div_mul by done.
  unfold expand. change 0xFC with ((2 ^ 6 - 1) * 4). rewrite <- Z.mul_assoc, (Z.mul_comm (2 ^ 2)), Z.mul_assoc.
  by apply Z.div_mul_cancel_r.
Qed.

Lemma blue_expand c : Z.shiftl (Z.land c 0x001F) 3 * 0xFF / 0xF8 = expand 5 (c mod 2 ^ 5).
Proof.
  change 0x1F with (Z.ones 5). rewrite Z.land_ones, Z.shiftl_mul_pow2 by done.
  unfold expand. change 0xF8 with ((2 ^ 5 - 1) * 8). rewrite <- Z.mul_assoc, (Z.mul_comm (2 ^ 3)), Z.mul_assoc.
  by apply Z.div_mul_cancel_r.
Qed.

Lemma rgb565_range c : is_u16 c ->
  is_u8 (expand 5 (c / 2 ^ 11)) /\ is_u8 (expand 6 (c / 2 ^ 5 mod 2 ^ 6)) /\ is_u8 (expand 5 (c mod 2 ^ 5)).
Proof.
  intros Hc. unfold is_u16 in Hc. split_and!; apply expand_range; try lia.
  - split; [apply Z.div_pos; lia|]. apply Z.div_lt_upper_bound; lia.
  - apply Z.mod_pos_bound; lia.
  - apply Z.mod_pos_bound; lia.
Qed.

(** The arrays hold the palette. *)
Lemma colors_correct c0 c1 transparent code : is_u16 c0 -> is_u16 c1 -> 0 <= code < 4 ->
  let c := decode_bc1_colors c0 c1 transparent in
  exists r g b, fetch (col_r c) code = Ok r /\ fetch (col_g c) code = Ok g /\
    fetch (col_b c) code = Ok b /\ bc1_color c0 c1 transparent code = [r; g; b] /\
    fetch (col_a c) code = Ok (if transparent && (code =? 3) then 0 else 255).
Proof.
  intros H0 H1 Hc. cbv zeta. unfold decode_bc1_colors.
  rewrite !red_expand, !green_expand, !blue_expand by done.
  destruct (rgb565_range c0 H0) as (Hr0 & Hg0 & Hb0). destruct (rgb565_range c1 H1) as (Hr1 & Hg1 & Hb1).
  unfold bc1_color, rgb565, mix. cbn [zip_with].
  set (r0 := expand 5 (c0 / 2 ^ 11)) in *. set (r1 := expand 5 (c1 / 2 ^ 11)) in *.
  set (g0 := expand 6 (c0 / 2 ^ 5 mod 2 ^ 6)) in *. set (g1 := expand 6 (c1 / 2 ^ 5 mod 2 ^ 6)) in *.
  set (b0 := expand 5 (c0 mod 2 ^ 5)) in *. set (b1 := expand 5 (c1 mod 2 ^ 5)) in *.
  clearbody r0 r1 g0 g1 b0 b1.
  destruct (mix_range r0 r1 Hr0 Hr1) as (Hr & Hr' & Hr''). destruct (mix_range g0 g1 Hg0 Hg1) as (Hg & Hg' & Hg'').
  destruct (mix_range b0 b1 Hb0 Hb1) as (Hb & Hb' & Hb''). rewrite ?Z.mul_1_l.
  assert (code = 0 \/ code = 1 \/ code = 2 \/ code = 3) as [->|[->|[->| ->]]] by lia;
    destruct transparent; cbn [col_r col_g col_b col_a Z.eqb Pos.eqb andb]; rewrite !u8_id by done;
    do 3 eexists; by split_and!.
Qed.

(** The code of a texel and its alpha code. *)
Lemma code_bits v n k t : 0 < n -> 0 <= k -> 0 <= t ->
  Z.land (Z.shiftr v (k + n * t)) (Z.ones n) = v / 2 ^ k / (2 ^ n) ^ t mod 2 ^ n.
Proof.
  intros Hn Hk Ht. rewrite Z.land_ones, Z.shiftr_div_pow2, Z.pow_add_r by nia.
  rewrite <- Z.pow_mul_r by lia. rewrite Z.div_div; [done|apply Z.pow_nonzero|apply Z.pow_pos_nonneg]; nia.
Qed.

Lemma dxt3_alpha_correct alpha t : 0 <= t -> dxt3_alpha alpha t = 17 * (alpha / 16 ^ t mod 16).
Proof.
  intros Ht. unfold dxt3_alpha. change 0x0F with (Z.ones 4).
  rewrite <- (Z.add_0_l (4 * t)), code_bits, Z.div_1_r, Z.shiftl_mul_pow2 by done.
  change (2 ^ 4) with 16. set (v := alpha / 16 ^ t mod 16).
  assert (0 <= v < 16) by (apply Z.mod_pos_bound; lia). clearbody v.
  replace (v * 16 * 0xFF) with (17 * v * 0xF0) by lia. rewrite Z.div_mul by done.
  apply u8_id. unfold is_u8. lia.
Qed.

Lemma dxt5_alpha_correct alpha a0 a1 t : is_u8 a0 -> is_u8 a1 -> 0 <= t ->
  dxt5_alpha alpha (dxt5_palette a0 a1) t = alpha_mix a0 a1 (alpha / 2 ^ 16 / 8 ^ t mod 8).
Proof.
  intros H0 H1 Ht. unfold dxt5_alpha. change 0x07 with (Z.ones 3). rewrite code_bits by done.
  change (2 ^ 3) with 8. set (k := _ mod 8). assert (0 <= k < 8) as Hk by (apply Z.mod_pos_bound; lia).
  clearbody k. unfold alpha_mix, dxt5_palette.
  assert (k = 0 \/ k = 1 \/ k = 2 \/ k = 3 \/ k = 4 \/ k = 5 \/ k = 6 \/ k = 7) as Hc by lia.
  unfold is_u8 in *. change (2 ^ 8) with 256 in *.
  destruct (a1 <? a0); destruct Hc as [->|[->|[->|[->|[->|[->|[->| ->]]]]]]]; cbn -[u8 Z.mul Z.div Z.add];
    try reflexivity; apply u8_id; unfold is_u8; change (2 ^ 8) with 256;
    Z.to_euclidean_division_equations; lia.
Qed.

(** ** The writes of a block *)

(** The writes of the block (i, j) whose texel [t] is [f t]. *)
Definition block_writes (f : Z -> list Z) (i j width height z_pos_factor : Z) : list (Z * list Z) :=
  concat (map (fun y => concat (map (fun x =>
    [((z_pos_factor + y * width + x) * 4, f (4 * (y - j * 4) + x - i * 4))])
    (seqZ (i * 4) (Z.of_nat (Z.to_nat (Z.min (i * 4 + 4) width - i * 4))))))
    (seqZ (j * 4) (Z.of_nat (Z.to_nat (Z.min (j * 4 + 4) height - j * 4))))).

(** The arrays and codes give texel [t] as [f t]. *)
Definition paints (c : Colors) (indices : Z) (separate_alpha : bool) (f : Z -> list Z) : Prop :=
  forall t, 0 <= t < 16 ->
    let index := Z.land (Z.shiftr indices (2 * t)) 0x03 in
    exists r g b a, fetch (col_r c) index = Ok r /\ fetch (col_g c) index = Ok g /\
      fetch (col_b c) index = Ok b /\ fetch (col_a c) (if separate_alpha then t else index) = Ok a /\
      f t = [r; g; b; a].

Lemma write_block_stores c indices sep f i j width height zpf dst : paints c indices sep f ->
  write_block_to_texture dst indices i j width height zpf c sep =
  stores (block_writes f i j width height zpf) dst.
Proof.
  intros Hp. unfold write_block_to_texture, block_writes. cbv zeta.
  rewrite (for_stores (fun y => concat (map (fun x =>
    [((zpf + y * width + x) * 4, f (4 * (y - j * 4) + x - i * 4))])
    (seqZ (i * 4) (Z.of_nat (Z.to_nat (Z.min (i * 4 + 4) width - i * 4))))))); [done|].
  intros y d1 Hy. apply (for_stores (fun x => [((zpf + y * width + x) * 4, f (4 * (y - j * 4) + x - i * 4))])).
  intros x d2 Hx. destruct (Hp (4 * (y - j * 4) + x - i * 4)) as (r & g & b & a & -> & -> & -> & -> & ->); [lia|].
  cbn [mbind result_mbind result_bind stores]. by destruct (blit _ _ _).
Qed.

Lemma fetch_map_seq (f : Z -> Z) n t : 0 <= t < n -> fetch (map f (seqZ 0 n)) t = Ok (f t).
Proof.
  intros Ht. apply fetch_ok; [lia|]. change (map f (seqZ 0 n)) with (f <$> seqZ 0 n).
  rewrite list_lookup_fmap, lookup_seqZ_lt by lia. cbn. f_equal. f_equal. lia.
Qed.

Lemma word_range (block : list Z) k n : Forall is_u8 block ->
  0 <= le_word (take n (drop k block)) < 256 ^ Z.of_nat n.
Proof.
  intros Hb. assert (Forall is_u8 (take n (drop k block))) as Hf by by apply Forall_take, Forall_drop.
  apply le_word_range in Hf. split; [lia|]. eapply Z.lt_le_trans; [apply Hf|].
  apply Z.pow_le_mono_r; [lia|]. rewrite length_take. lia.
Qed.

Lemma byte_u8 (l : list Z) i : Forall is_u8 l -> is_u8 (byte l i).
Proof.
  intros Hl. unfold byte. rewrite nth_lookup. destruct (l !! Z.to_nat i) eqn:E; [|done].
  rewrite Forall_lookup in Hl. by eapply Hl.
Qed.

(** A block of any format writes its texels. *)
Lemma decompress_block_stores fmt data index dst i j width height zpf : 0 <= index ->
  Forall is_u8 data -> block_size fmt * (index + 1) <= Z.of_nat (length data) ->
  decompress_block fmt data index dst i j width height zpf =
  stores (block_writes (texel fmt (take (Z.to_nat (block_size fmt))
    (drop (Z.to_nat (block_size fmt * index)) data))) i j width height zpf) dst.
Proof.
  intros Hi Hu Hlen. assert (0 < block_size fmt) by by destruct fmt. unfold decompress_block.
  rewrite slice_ok by nia. set (block := take _ _). cbn [mbind result_mbind result_bind].
  assert (Forall is_u8 block) as Hb by by apply Forall_take, Forall_drop. clearbody block.
  assert (forall k, is_u16 (word16 block k)) as H16 by (intros k; apply (word_range block _ 2 Hb)).
  assert (forall v t, 0 <= t -> Z.land (Z.shiftr v (2 * t)) 0x03 = v / 4 ^ t mod 4) as Hcode.
  { intros v t Ht. rewrite <- (Z.add_0_l (2 * t)). change 0x03 with (Z.ones 2).
    by rewrite code_bits, Z.div_1_r by done. }
  assert (forall v, 0 <= v mod 4 < 4) as H4 by (intros v; apply Z.mod_pos_bound; lia).
  destruct fmt; apply write_block_stores; intros t Ht; cbv zeta; rewrite Hcode by lia; cbn [texel]; unfold set_alpha.
  - destruct (colors_correct (word16 block 0) (word16 block 1) (word16 block 0 <=? word16 block 1) _ (H16 _) (H16 _) (H4 (word32 block 1 / 4 ^ t)))
      as (r & g & b & Hr & Hg & Hbl & -> & Ha). do 4 eexists. split_and!; done.
  - destruct (colors_correct (word16 block 4) (word16 block 5) false _ (H16 _) (H16 _) (H4 (word32 block 3 / 4 ^ t)))
      as (r & g & b & Hr & Hg & Hbl & -> & Ha). cbn [col_r col_g col_b col_a].
    rewrite fetch_map_seq, dxt3_alpha_correct by lia. do 4 eexists. split_and!; done.
  - destruct (colors_correct (word16 block 4) (word16 block 5) false _ (H16 _) (H16 _) (H4 (word32 block 3 / 4 ^ t)))
      as (r & g & b & Hr & Hg & Hbl & -> & Ha). cbn [col_r col_g col_b col_a].
    rewrite fetch_map_seq, dxt5_alpha_correct by (lia || by apply byte_u8). do 4 eexists. split_and!; done.
Qed.

Lemma elem_of_block_writes f i j w h zpf p : p ∈ block_writes f i j w h zpf <->
  exists x y, i * 4 <= x < Z.min (i * 4 + 4) w /\ j * 4 <= y < Z.min (j * 4 + 4) h /\
    p = ((zpf + y * w + x) * 4, f (4 * (y - j * 4) + x - i * 4)).
Proof.
  unfold block_writes. rewrite elem_of_concat_map. split.
  - intros (y & Hy & H). apply elem_of_concat_map in H as (x & Hx & H).
    apply list_elem_of_singleton in H as ->. apply elem_of_seqZ in Hx, Hy.
    exists x, y. split; [lia|]. split; [lia|done].
  - intros (x & y & Hx & Hy & ->). exists y. rewrite elem_of_seqZ. split; [lia|].
    apply elem_of_concat_map. exists x. rewrite elem_of_seqZ. split; [lia|]. by apply list_elem_of_singleton.
Qed.

Lemma num_blocks_spec n : 0 <= n -> n + 3 < 2 ^ 32 -> num_blocks n = (n + 3) / 4.
Proof.
  intros H0 H1. unfold num_blocks. rewrite u32_id by (unfold is_u32; lia).
  change (Z.lnot 3) with (Z.lnot (Z.ones 2)). rewrite <- Z.ldiff_land, Z.ldiff_ones_r by lia.
  rewrite Z.shiftl_mul_pow2, Z.shiftr_div_pow2 by lia. by apply Z.div_mul.
Qed.

Lemma texel_length fmt block t : length (texel fmt block t) = 4%nat.
Proof.
  assert (forall c0 c1 b code, length (bc1_color c0 c1 b code) = 3%nat) as Hc.
  { intros. unfold bc1_color. by repeat case_match. }
  destruct fmt; cbn [texel]; by rewrite length_app, Hc.
Qed.

(** ** Whole textures *)

Section Texture.
Context (w h d : Z) (Hw : 0 < w) (Hh : 0 < h) (Hd : 0 < d).

Definition in_texture (x y z : Z) : Prop := 0 <= x < w /\ 0 <= y < h /\ 0 <= z < d.

Lemma pixel_inj x y z x' y' z' : in_texture x y z -> in_texture x' y' z' ->
  z * w * h + y * w + x = z' * w * h + y' * w + x' -> x = x' /\ y = y' /\ z = z'.
Proof.
  intros (Hx & Hy & Hz) (Hx' & Hy' & Hz') He.
  assert (0 <= y * w + x < w * h /\ 0 <= y' * w + x' < w * h) as [H1 H2] by nia.
  assert (z = z') as -> by nia. assert (y = y') as -> by nia. lia.
Qed.

Lemma pixel_range x y z : in_texture x y z -> 0 <= z * w * h + y * w + x < w * h * d.
Proof.
  intros (Hx & Hy & Hz). assert (0 <= y * w + x < w * h) by nia. nia.
Qed.

(** Writes that paint every texel paint the texture, whatever was there. *)
Lemma paint_all (T : Z -> Z -> Z -> list Z) l dst :
  (forall p, p ∈ l <-> exists x y z, in_texture x y z /\ p = ((z * w * h + y * w + x) * 4, T x y z)) ->
  (forall x y z, length (T x y z) = 4%nat) -> Z.of_nat (length dst) = w * h * d * 4 ->
  exists dst', stores l dst = Ok dst' /\ length dst' = length dst /\
    forall x y z, in_texture x y z -> slice dst' ((z * w * h + y * w + x) * 4) 4 = Ok (T x y z).
Proof.
  intros Hl HT Hdst. destruct (stores_spec l dst) as (dst' & H1 & Hlen & Hb & _).
  - intros p q i j Hp Hq. apply Hl in Hp as (x & y & z & Hin & ->). apply Hl in Hq as (x' & y' & z' & Hin' & ->).
    cbn [fst snd]. rewrite !HT. intros Hi Hj He.
    destruct (pixel_inj x y z x' y' z' Hin Hin') as (-> & -> & ->); [lia|]. f_equal. lia.
  - apply Forall_forall. intros p Hp. apply Hl in Hp as (x & y & z & Hin & ->). cbn [fst snd]. rewrite HT.
    pose proof (pixel_range x y z Hin). lia.
  - exists dst'. split; [done|]. split; [done|]. intros x y z Hin.
    apply slice_bytes; [pose proof (pixel_range x y z Hin); lia..|by rewrite HT|].
    intros i Hi. apply (Hb (_, T x y z) i); [|cbn; rewrite HT; lia].
    apply Hl. by exists x, y, z.
Qed.
End Texture.

(** Block [n] of the data. *)
Definition block_at (fmt : S3TC_DECOMPRESS_FORMAT) (data : list Z) (n : Z) : list Z :=
  take (Z.to_nat (block_size fmt)) (drop (Z.to_nat (block_size fmt * n)) data).

(** The number of blocks along a side, and the texel of a pixel in its block. *)
Definition blocks (n : Z) : Z := (n + 3) / 4.
Definition texel_index (x y : Z) : Z := 4 * (y mod 4) + x mod 4.

(** Blocks of a volume are stored by layers of up to four slices, and the
    slices of a layer together for each block. *)
Definition volume_block (w h d x y z : Z) : Z :=
  let layer := 4 * (z / 4) in
  blocks w * blocks h * layer + (y / 4 * blocks w + x / 4) * Z.min (d - layer) 4 + z mod 4.

Class AllocatorLaws (alloc : Allocator) : Prop :=
  malloc_length : forall n, 0 <= n -> Z.of_nat (length (g_malloc n)) = n.

Section Correct.
Context {alloc : Allocator} {laws : AllocatorLaws alloc}.
Context (fmt : S3TC_DECOMPRESS_FORMAT) (data : list Z) (Hdata : Forall is_u8 data).

Lemma size_pos : 0 < block_size fmt.
Proof. by destruct fmt. Qed.

Lemma block_index_range w h i j : 0 <= i < blocks w -> 0 <= j < blocks h ->
  0 <= j * blocks w + i < blocks w * blocks h.
Proof. nia. Qed.

Definition writes2d (w h : Z) : list (Z * list Z) :=
  concat (map (fun j => concat (map (fun i =>
    block_writes (texel fmt (block_at fmt data (j * blocks w + i))) i j w h 0)
    (seqZ 0 (blocks w)))) (seqZ 0 (blocks h))).

Lemma elem_of_writes2d w h p : 0 < w -> 0 < h -> p ∈ writes2d w h <->
  exists x y z, in_texture w h 1 x y z /\ p = ((z * w * h + y * w + x) * 4,
    texel fmt (block_at fmt data (y / 4 * blocks w + x / 4)) (texel_index x y)).
Proof.
  intros Hw Hh. unfold writes2d, in_texture, texel_index. rewrite elem_of_concat_map. split.
  - intros (j & Hj & H). apply elem_of_concat_map in H as (i & Hi & H).
    apply elem_of_block_writes in H as (x & y & Hx & Hy & ->). apply elem_of_seqZ in Hi, Hj.
    exists x, y, 0. split; [lia|].
    assert (x / 4 = i) as <- by (symmetry; apply (Z.div_unique _ _ _ (x - 4 * i)); lia).
    assert (y / 4 = j) as <- by (symmetry; apply (Z.div_unique _ _ _ (y - 4 * j)); lia).
    f_equal. f_equal. rewrite (Z.mod_eq x 4), (Z.mod_eq y 4) by lia. lia.
  - intros (x & y & z & (Hx & Hy & Hz) & ->). assert (z = 0) as -> by lia. exists (y / 4).
    unfold blocks. rewrite elem_of_seqZ. split; [Z.to_euclidean_division_equations; lia|].
    apply elem_of_concat_map. exists (x / 4). rewrite elem_of_seqZ.
    split; [Z.to_euclidean_division_equations; lia|]. apply elem_of_block_writes. exists x, y.
    split; [Z.to_euclidean_division_equations; lia|]. split; [Z.to_euclidean_division_equations; lia|].
    f_equal. f_equal. rewrite (Z.mod_eq x 4), (Z.mod_eq y 4) by lia. lia.
Qed.

Lemma decompress_2d_stores w h dst : 0 < w -> 0 < h -> w + 3 < 2 ^ 32 -> h + 3 < 2 ^ 32 ->
  block_size fmt * (blocks w * blocks h) <= Z.of_nat (length data) ->
  for_loop (Z.to_nat (num_blocks h)) 0 (fun j dst =>
    for_loop (Z.to_nat (num_blocks w)) 0 (fun i dst =>
      decompress_block fmt data (j * num_blocks w + i) dst i j w h 0) dst) dst =
  stores (writes2d w h) dst.
Proof.
  intros Hw Hh Hw32 Hh32 Hlen. rewrite !num_blocks_spec by lia. fold (blocks w) (blocks h).
  assert (0 <= blocks w /\ 0 <= blocks h) as [Hbw Hbh] by (split; apply Z.div_pos; lia).
  rewrite (for_stores (fun j => concat (map (fun i =>
    block_writes (texel fmt (block_at fmt data (j * blocks w + i))) i j w h 0) (seqZ 0 (blocks w))))).
  - by rewrite Z2Nat.id.
  - intros j d1 Hj.
    rewrite (for_stores (fun i => block_writes (texel fmt (block_at fmt data (j * blocks w + i))) i j w h 0)).
    + by rewrite Z2Nat.id.
    + intros i d2 Hi. pose proof (block_index_range w h i j) as Hr. pose proof size_pos.
      apply decompress_block_stores; [lia|done|]. nia.
Qed.

Section Volume.
Context (w h d : Z) (Hw : 0 < w) (Hh : 0 < h) (Hd : 0 < d).

Definition block_depth (k : Z) : Z := Z.min (d - 4 * k) 4.
Definition layer_start (k : Z) : Z := blocks w * blocks h * (4 * k).
Definition volume_writes (k j i s : Z) : list (Z * list Z) :=
  block_writes (texel fmt (block_at fmt data (layer_start k + (j * blocks w + i) * block_depth k + s)))
    i j w h ((4 * k + s) * w * h).

Definition writes3d : list (Z * list Z) :=
  concat (map (fun k => concat (map (fun j => concat (map (fun i => concat (map (fun s =>
    volume_writes k j i s) (seqZ 0 (block_depth k)))) (seqZ 0 (blocks w)))) (seqZ 0 (blocks h))))
    (seqZ 0 (blocks d))).

Lemma elem_of_writes3d p : p ∈ writes3d <->
  exists x y z, in_texture w h d x y z /\ p = ((z * w * h + y * w + x) * 4,
    texel fmt (block_at fmt data (volume_block w h d x y z)) (texel_index x y)).
Proof.
  unfold writes3d, in_texture, texel_index, volume_block, volume_writes, layer_start, block_depth.
  rewrite elem_of_concat_map. split.
  - intros (k & Hk & H). apply elem_of_concat_map in H as (j & Hj & H).
    apply elem_of_concat_map in H as (i & Hi & H). apply elem_of_concat_map in H as (s & Hs & H).
    apply elem_of_block_writes in H as (x & y & Hx & Hy & ->). apply elem_of_seqZ in Hi, Hj, Hk, Hs.
    exists x, y, (4 * k + s). split; [lia|].
    assert (x / 4 = i) as <- by (symmetry; apply (Z.div_unique _ _ _ (x - 4 * i)); lia).
    assert (y / 4 = j) as <- by (symmetry; apply (Z.div_unique _ _ _ (y - 4 * j)); lia).
    assert ((4 * k + s) / 4 = k) as -> by (symmetry; apply (Z.div_unique _ _ _ s); lia).
    assert ((4 * k + s) mod 4 = s) as -> by (symmetry; apply (Z.mod_unique _ _ k); lia).
    f_equal. f_equal. rewrite (Z.mod_eq x 4), (Z.mod_eq y 4) by lia. lia.
  - intros (x & y & z & (Hx & Hy & Hz) & ->).
    pose proof (Z.div_mod z 4 ltac:(lia)) as Ez. pose proof (Z.mod_pos_bound z 4 ltac:(lia)).
    pose proof (Z.div_mod x 4 ltac:(lia)) as Ex. pose proof (Z.mod_pos_bound x 4 ltac:(lia)).
    pose proof (Z.div_mod y 4 ltac:(lia)) as Ey. pose proof (Z.mod_pos_bound y 4 ltac:(lia)).
    assert (forall u n, 0 <= u < n -> u / 4 ∈ seqZ 0 (blocks n)) as Hin.
    { intros u n Hu. apply elem_of_seqZ. unfold blocks. Z.to_euclidean_division_equations. lia. }
    exists (z / 4). split; [by apply Hin|]. apply elem_of_concat_map.
    exists (y / 4). split; [by apply Hin|]. apply elem_of_concat_map.
    exists (x / 4). split; [by apply Hin|]. apply elem_of_concat_map.
    exists (z mod 4). split; [apply elem_of_seqZ; lia|]. apply elem_of_block_writes. exists x, y.
    split; [lia|]. split; [lia|]. rewrite <- Ez. f_equal. f_equal. lia.
Qed.

Context (Hw32 : w + 3 < 2 ^ 32) (Hh32 : h + 3 < 2 ^ 32) (Hd32 : d + 3 < 2 ^ 32).
Context (Hlen : block_size fmt * (blocks w * blocks h * d) <= Z.of_nat (length data)).

Lemma blocks_pos : 0 <= blocks w /\ 0 <= blocks h /\ 0 <= blocks d.
Proof. split_and!; apply Z.div_pos; lia. Qed.

Lemma volume_index k j i s : 0 <= k < blocks d -> 0 <= j < blocks h -> 0 <= i < blocks w ->
  0 <= s < block_depth k ->
  0 <= layer_start k + (j * blocks w + i) * block_depth k + s < blocks w * blocks h * d.
Proof.
  intros Hk Hj Hi Hs. pose proof (block_index_range w h i j Hi Hj) as Hb.
  unfold layer_start, block_depth in *. set (n := j * blocks w + i) in *. set (m := blocks w * blocks h) in *.
  set (b := Z.min (d - 4 * k) 4) in *. clearbody n m. assert (4 * k + b <= d) by lia. clearbody b. nia.
Qed.

(** The slices of one block. *)
Lemma slices_stores k j i dst : 0 <= k < blocks d -> 0 <= j < blocks h -> 0 <= i < blocks w ->
  for_loop (Z.to_nat (block_depth k)) 0 (fun slice '(dst, sub) =>
    dst ← decompress_block fmt data sub dst i j w h ((4 * k + slice) * w * h); Ok (dst, sub + 1))
    (dst, layer_start k + (j * blocks w + i) * block_depth k) =
  (dst ← stores (concat (map (volume_writes k j i) (seqZ 0 (block_depth k)))) dst;
   Ok (dst, layer_start k + (j * blocks w + (i + 1)) * block_depth k)).
Proof.
  intros Hk Hj Hi. assert (0 < block_depth k) as Hbd.
  { unfold block_depth, blocks in *. Z.to_euclidean_division_equations. lia. }
  pose proof (loop_stores (fun s => layer_start k + (j * blocks w + i) * block_depth k + s)
    (volume_writes k j i) (fun slice '(dst, sub) =>
      dst ← decompress_block fmt data sub dst i j w h ((4 * k + slice) * w * h); Ok (dst, sub + 1))
    (Z.to_nat (block_depth k)) 0 dst) as Hl.
  rewrite Z2Nat.id, Z.add_0_l, Z.add_0_r in Hl by lia. rewrite Hl.
  - destruct (stores _ _); [|done]. cbn. do 2 f_equal. lia.
  - intros s d1 Hs. pose proof (volume_index k j i s Hk Hj Hi Hs). pose proof size_pos.
    rewrite decompress_block_stores by (done || nia). unfold volume_writes, block_at.
    by rewrite Z.add_assoc.
Qed.

(** One step of the slice loop, and the blocks of a row and of a layer. *)
Definition slice_step (cur_depth i j slice : Z) (st : list Z * Z) : result (list Z * Z) :=
  let '(dst, sub) := st in
  dst ← decompress_block fmt data sub dst i j w h ((cur_depth + slice) * w * h); Ok (dst, sub + 1).

Lemma block_row_stores k j dst : 0 <= k < blocks d -> 0 <= j < blocks h ->
  for_loop (Z.to_nat (blocks w)) 0 (fun i st =>
    for_loop (Z.to_nat (block_depth k)) 0 (slice_step (4 * k) i j) st)
    (dst, layer_start k + j * blocks w * block_depth k) =
  (dst ← stores (concat (map (fun i => concat (map (volume_writes k j i) (seqZ 0 (block_depth k))))
     (seqZ 0 (blocks w)))) dst;
   Ok (dst, layer_start k + (j + 1) * blocks w * block_depth k)).
Proof.
  intros Hk Hj. destruct blocks_pos as (Hbw & _).
  pose proof (loop_stores (fun i => layer_start k + (j * blocks w + i) * block_depth k)
    (fun i => concat (map (volume_writes k j i) (seqZ 0 (block_depth k))))
    (fun i st => for_loop (Z.to_nat (block_depth k)) 0 (slice_step (4 * k) i j) st)
    (Z.to_nat (blocks w)) 0 dst) as Hl.
  rewrite Z2Nat.id, Z.add_0_l, Z.add_0_r in Hl by lia. rewrite Hl.
  - by replace ((j + 1) * blocks w) with (j * blocks w + blocks w) by lia.
  - intros i d1 Hi. by apply slices_stores.
Qed.

Lemma layer_stores k dst : 0 <= k < blocks d ->
  for_loop (Z.to_nat (blocks h)) 0 (fun j st =>
    for_loop (Z.to_nat (blocks w)) 0 (fun i st =>
      for_loop (Z.to_nat (block_depth k)) 0 (slice_step (4 * k) i j) st) st) (dst, layer_start k) =
  (dst ← stores (concat (map (fun j => concat (map (fun i =>
     concat (map (volume_writes k j i) (seqZ 0 (block_depth k)))) (seqZ 0 (blocks w))))
     (seqZ 0 (blocks h)))) dst;
   Ok (dst, layer_start k + blocks w * blocks h * block_depth k)).
Proof.
  intros Hk. destruct blocks_pos as (_ & Hbh & _).
  pose proof (loop_stores (fun j => layer_start k + j * blocks w * block_depth k)
    (fun j => concat (map (fun i => concat (map (volume_writes k j i) (seqZ 0 (block_depth k))))
      (seqZ 0 (blocks w))))
    (fun j st => for_loop (Z.to_nat (blocks w)) 0 (fun i st =>
      for_loop (Z.to_nat (block_depth k)) 0 (slice_step (4 * k) i j) st) st)
    (Z.to_nat (blocks h)) 0 dst) as Hl.
  rewrite Z2Nat.id, Z.add_0_l, !Z.mul_0_l, Z.add_0_r in Hl by lia. rewrite Hl.
  - by rewrite (Z.mul_comm (blocks h)).
  - intros j d1 Hj. by apply block_row_stores.
Qed.

Lemma volume_stores dst : exists st,
  for_loop (Z.to_nat (u32 (d + 3) / 4)) 0 (fun k '(dst, (cur_depth, sub)) =>
    '(dst, sub) ← for_loop (Z.to_nat (num_blocks h)) 0 (fun j st =>
       for_loop (Z.to_nat (num_blocks w)) 0 (fun i st =>
         for_loop (Z.to_nat (Z.min (d - cur_depth) 4)) 0 (slice_step cur_depth i j) st) st) (dst, sub);
    Ok (dst, (cur_depth + Z.min (d - cur_depth) 4, sub))) (dst, (0, 0)) =
  (dst ← stores writes3d dst; Ok (dst, st)).
Proof.
  destruct blocks_pos as (_ & _ & Hbd). rewrite u32_id, !num_blocks_spec by (unfold is_u32; lia).
  fold (blocks w) (blocks h) (blocks d).
  pose proof (loop_stores (fun k => (Z.min (4 * k) d, blocks w * blocks h * Z.min (4 * k) d))
    (fun k => concat (map (fun j => concat (map (fun i =>
       concat (map (volume_writes k j i) (seqZ 0 (block_depth k)))) (seqZ 0 (blocks w))))
       (seqZ 0 (blocks h))))
    (fun k '(dst, (cur_depth, sub)) =>
      '(dst, sub) ← for_loop (Z.to_nat (blocks h)) 0 (fun j st =>
         for_loop (Z.to_nat (blocks w)) 0 (fun i st =>
           for_loop (Z.to_nat (Z.min (d - cur_depth) 4)) 0 (slice_step cur_depth i j) st) st) (dst, sub);
      Ok (dst, (cur_depth + Z.min (d - cur_depth) 4, sub))) (Z.to_nat (blocks d)) 0 dst) as Hl.
  rewrite Z2Nat.id, Z.add_0_l, Z.mul_0_r, Z.min_l, Z.mul_0_r in Hl by lia. rewrite Hl; [by eexists|].
  intros k d1 Hk. assert (4 * k < d) by (unfold blocks in Hk; Z.to_euclidean_division_equations; lia).
  rewrite (Z.min_l (4 * k)) by lia. fold (block_depth k) (layer_start k). rewrite layer_stores by done.
  rewrite result_bind_assoc. apply result_bind_ext. intros d2. cbn [mbind result_mbind result_bind].
  unfold layer_start, block_depth. do 2 f_equal. assert (4 * k + Z.min (d - 4 * k) 4 = Z.min (4 * (k + 1)) d) as <- by lia. f_equal. lia.
Qed.
End Volume.

(** C27. Two-dimensional S3TC textures are decompressed completely and
    correctly: whatever memory the allocator returns, every pixel (x, y) of the
    result is the texel the format defines for its 4 x 4 block, for sides that
    are no multiple of four too; no byte outside the compressed data is read
    and none outside the result is written. *)
Theorem s3tc_2d_correct w h : 0 < w -> 0 < h -> w * h * 4 < 2 ^ 32 -> w + 3 < 2 ^ 32 -> h + 3 < 2 ^ 32 ->
  block_size fmt * (blocks w * blocks h) <= Z.of_nat (length data) ->
  exists out, s3tc_decompress_2d fmt data w h = Ok out /\ Z.of_nat (length out) = w * h * 4 /\
    forall x y, 0 <= x < w -> 0 <= y < h ->
      slice out ((y * w + x) * 4) 4 =
      Ok (texel fmt (block_at fmt data (y / 4 * blocks w + x / 4)) (texel_index x y)).
Proof.
  intros Hw Hh H32 Hw32 Hh32 Hlen. unfold s3tc_decompress_2d, check.
  rewrite !(proj2 (Z.ltb_lt _ _)) by done. cbn [mbind result_mbind result_bind].
  rewrite decompress_2d_stores, u32_id by (done || unfold is_u32; nia).
  pose proof (malloc_length (w * h * 4) ltac:(nia)) as Hm.
  destruct (paint_all w h 1 Hw Hh (fun x y _ => texel fmt (block_at fmt data (y / 4 * blocks w + x / 4))
    (texel_index x y)) (writes2d w h) (g_malloc (w * h * 4))) as (out & -> & Hl & Hs).
  - intros p. by apply elem_of_writes2d.
  - intros x y _. apply texel_length.
  - lia.
  - exists out. split; [done|]. split; [lia|]. intros x y Hx Hy. by apply (Hs x y 0).
Qed.

(** The same for volumes, whose blocks are stored by layers of up to four
    slices: every pixel (x, y, z) is the texel of the block [volume_block]
    names. *)
Theorem s3tc_3d_correct w h d : 0 < w -> 0 < h -> 0 < d -> w * h * d * 4 < 2 ^ 32 ->
  w + 3 < 2 ^ 32 -> h + 3 < 2 ^ 32 -> d + 3 < 2 ^ 32 ->
  block_size fmt * (blocks w * blocks h * d) <= Z.of_nat (length data) ->
  exists out, s3tc_decompress_3d fmt data w h d = Ok out /\ Z.of_nat (length out) = w * h * d * 4 /\
    forall x y z, 0 <= x < w -> 0 <= y < h -> 0 <= z < d ->
      slice out (((z * h + y) * w + x) * 4) 4 =
      Ok (texel fmt (block_at fmt data (volume_block w h d x y z)) (texel_index x y)).
Proof.
  intros Hw Hh Hd H32 Hw32 Hh32 Hd32 Hlen. unfold s3tc_decompress_3d, check.
  rewrite !(proj2 (Z.ltb_lt _ _)) by done. cbn [mbind result_mbind result_bind].
  destruct (volume_stores w h d Hw Hh Hd Hw32 Hh32 Hd32 Hlen (g_malloc (u32 (w * h * d * 4)))) as [st Hst].
  unfold slice_step in Hst. rewrite Hst. clear Hst. assert (0 <= w * h * d * 4) by (repeat apply Z.mul_nonneg_nonneg; lia).
  rewrite u32_id by (unfold is_u32; lia). pose proof (malloc_length (w * h * d * 4) ltac:(lia)) as Hm.
  destruct (paint_all w h d Hw Hh (fun x y z => texel fmt (block_at fmt data (volume_block w h d x y z))
    (texel_index x y)) (writes3d w h d) (g_malloc (w * h * d * 4))) as (out & -> & Hl & Hs).
  - intros p. by apply elem_of_writes3d.
  - intros x y z. apply texel_length.
  - lia.
  - exists out. split; [done|]. split; [lia|]. intros x y z Hx Hy Hz.
    replace (((z * h + y) * w + x) * 4) with ((z * w * h + y * w + x) * 4) by lia. by apply Hs.
Qed.
End Correct.

(** ** Examples *)

#[export] Instance filled_alloc : Allocator := fun n => repeat 0xCD (Z.to_nat n).
#[export] Instance filled_laws : AllocatorLaws filled_alloc.
Proof. intros n Hn. unfold g_malloc, filled_alloc. rewrite repeat_length. lia. Qed.

Definition s3tc_data (n : nat) : list Z := map (fun i => (37 * Z.of_nat i) mod 251) (seq 0 n).

Lemma s3tc_data_u8 n : Forall is_u8 (s3tc_data n).
Proof.
  apply Forall_forall. intros v Hv. apply list_elem_of_In, in_map_iff in Hv as (i & <- & _).
  unfold is_u8. pose proof (Z.mod_pos_bound (37 * Z.of_nat i) 251). lia.
Qed.

Lemma s3tc_2d_correct_witness : exists out,
  s3tc_decompress_2d S3TC_DECOMPRESS_FORMAT_DXT1 (s3tc_data 16) 5 3 = Ok out /\
  slice out ((2 * 5 + 4) * 4) 4 =
    Ok (texel S3TC_DECOMPRESS_FORMAT_DXT1 (drop 8 (s3tc_data 16)) 8).
Proof.
  destruct (@s3tc_2d_correct filled_alloc filled_laws S3TC_DECOMPRESS_FORMAT_DXT1 (s3tc_data 16)
    (s3tc_data_u8 16) 5 3) as (out & H1 & _ & H2); [lia|lia|lia|lia|lia|vm_compute; congruence|].
  exists out. split; [exact H1|]. clear H1. specialize (H2 4 2 ltac:(lia) ltac:(lia)). exact H2.
Defined.

Lemma s3tc_3d_correct_witness : exists out,
  s3tc_decompress_3d S3TC_DECOMPRESS_FORMAT_DXT5 (s3tc_data 160) 5 3 5 = Ok out /\
  slice out (((4 * 3 + 2) * 5 + 4) * 4) 4 =
    Ok (texel S3TC_DECOMPRESS_FORMAT_DXT5 (drop 144 (s3tc_data 160)) 8).
Proof.
  destruct (@s3tc_3d_correct filled_alloc filled_laws S3TC_DECOMPRESS_FORMAT_DXT5 (s3tc_data 160)
    (s3tc_data_u8 160) 5 3 5) as (out & H1 & _ & H2); [lia|lia|lia|lia|lia|lia|lia|vm_compute; congruence|].
  exists out. split; [exact H1|]. clear H1. specialize (H2 4 2 4 ltac:(lia) ltac:(lia) ltac:(lia)). exact H2.
Defined.
