(* ===== verification/Lpc47m157.v ===== *)
(** The LPC47M157 Super I/O chip (hw/xbox/lpc47m157.c): its configuration mode
    with the index and data ports, the register banks of its logical devices,
    and the two serial ports that are mapped and unmapped when the guest leaves
    configuration mode or a snapshot is loaded.

    The port space of the ISA bus is visible as [mapped], the base addresses at
    which each serial port is registered.  The theorems show that the serial
    ports always are where the configuration says, what a snapshot restores, and
    which accesses leave the register arrays. *)

From S2P Require Import Prelude.

Definition MAX_DEVICE : Z := 0xC.
Definition DEVICE_SERIAL_PORT_1 : Z := 0x4.
Definition CONFIG_PORT : Z := 0x00.
Definition INDEX_PORT : Z := CONFIG_PORT.
Definition DATA_PORT : Z := 0x01.
Definition ENTER_CONFIG_KEY : Z := 0x55.
Definition EXIT_CONFIG_KEY : Z := 0xAA.
Definition MAX_CONFIG_REG : Z := 0x30.
Definition MAX_DEVICE_REGS : Z := 0xFF.
Definition CONFIG_DEVICE_NUMBER : Z := 0x07.
Definition CONFIG_PORT_LOW : Z := 0x26.
Definition CONFIG_PORT_HIGH : Z := 0x27.
Definition CONFIG_DEVICE_ACTIVATE : Z := 0x30.
Definition CONFIG_DEVICE_BASE_ADDRESS_HIGH : Z := 0x60.
Definition CONFIG_DEVICE_BASE_ADDRESS_LOW : Z := 0x61.
Definition CONFIG_DEVICE_INTERRUPT : Z := 0x70.

(** [mapped] lists the port regions registered for the port on the ISA bus, and
    [line] is the interrupt it is wired to. *)
Record Serial := mkSerial {
  active : bool;
  serial_iobase : Z;
  serial_irq : Z;
  mapped : list Z;
  line : option Z;
}.
#[export] Instance Serial_settable : Settable Serial :=
  settable! mkSerial < active ; serial_iobase ; serial_irq ; mapped ; line >.

(** The serial ports are two fields of an array; device registers are a
    two-dimensional array. *)
Record LPC47M157State := mkLpc {
  sysopt : bool;
  iobase : Z;
  configuration_mode : bool;
  selected_reg : Z;
  config_regs : mem;
  device_regs : Z -> mem;
  serial0 : Serial;
  serial1 : Serial;
}.
#[export] Instance Lpc_settable : Settable LPC47M157State :=
  settable! mkLpc < sysopt ; iobase ; configuration_mode ; selected_reg ; config_regs ; device_regs ;
    serial0 ; serial1 >.

(** ** The serial ports *)

(** What the registers of a logical device ask for. *)
Definition dev_iobase (dev : mem) : Z :=
  Z.lor (Z.shiftl (rd dev CONFIG_DEVICE_BASE_ADDRESS_HIGH) 8) (rd dev CONFIG_DEVICE_BASE_ADDRESS_LOW).
Definition dev_irq (dev : mem) : Z := Z.land (rd dev CONFIG_DEVICE_INTERRUPT) 0x0f.
Definition dev_active (dev : mem) : bool := negb (rd dev CONFIG_DEVICE_ACTIVATE =? 0).

(** One round of the loop; unregistering removes the region, registering adds
    one. *)
Definition update_serial (dev : mem) (serial : Serial) : Serial :=
  let base := dev_iobase dev in
  let irq := dev_irq dev in
  let serial :=
    if active serial && (negb (dev_active dev) || negb (serial_iobase serial =? base)
                         || negb (serial_irq serial =? irq))
    then serial <| mapped ::= tail |> <| line := None |> <| active := false |>
    else serial in
  if negb (active serial) && dev_active dev
  then serial <| line := if irq =? 0 then None else Some irq |>
              <| mapped ::= cons base |>
              <| serial_iobase := base |> <| serial_irq := irq |> <| active := true |>
  else serial.

Definition update_devices (s : LPC47M157State) : LPC47M157State :=
  let s := s <| serial0 ::= update_serial (device_regs s DEVICE_SERIAL_PORT_1) |> in
  s <| serial1 ::= update_serial (device_regs s (DEVICE_SERIAL_PORT_1 + 1)) |>.

(** ** Ports *)

Definition fn_set (f : Z -> mem) (d : Z) (m : mem) : Z -> mem := fun e => if e =? d then m else f e.

(** [dev[reg]] with the bound of the array. *)
Definition dev_read (dev : mem) (reg : Z) : result Z :=
  if reg <? MAX_DEVICE_REGS then Ok (rd dev reg) else Fault OutOfBounds.
Definition dev_write (dev : mem) (reg v : Z) : result mem :=
  if reg <? MAX_DEVICE_REGS then Ok (wr reg v dev) else Fault OutOfBounds.

(** The region accepts accesses of one byte: [val] is a byte. *)
Definition lpc47m157_io_write (s : LPC47M157State) (addr val : Z) : result LPC47M157State :=
  if (addr =? CONFIG_PORT) && ((val =? ENTER_CONFIG_KEY) || (val =? EXIT_CONFIG_KEY)) then
    if val =? ENTER_CONFIG_KEY then Ok (s <| configuration_mode := true |>)
    else
      let s := if configuration_mode s then update_devices s else s in
      Ok (s <| configuration_mode := false |>)
  else if configuration_mode s then
    if addr =? INDEX_PORT then Ok (s <| selected_reg := val |>)
    else if addr =? DATA_PORT then
      if selected_reg s <? MAX_CONFIG_REG
      then Ok (s <| config_regs ::= wr (selected_reg s) val |>)
      else
        let number := rd (config_regs s) CONFIG_DEVICE_NUMBER in
        _ ← check (number <? MAX_DEVICE) "s->config_regs[CONFIG_DEVICE_NUMBER] < MAX_DEVICE";
        dev ← dev_write (device_regs s number) (selected_reg s) val;
        Ok (s <| device_regs := fn_set (device_regs s) number dev |>)
    else Fault (AssertFail "lpc47m157 IO write failed")
  else Ok s.

Definition lpc47m157_io_read (s : LPC47M157State) (addr : Z) : result Z :=
  if configuration_mode s then
    if addr =? DATA_PORT then
      if selected_reg s <? MAX_CONFIG_REG then Ok (rd (config_regs s) (selected_reg s))
      else
        let number := rd (config_regs s) CONFIG_DEVICE_NUMBER in
        _ ← check (number <? MAX_DEVICE) "s->config_regs[CONFIG_DEVICE_NUMBER] < MAX_DEVICE";
        dev_read (device_regs s number) (selected_reg s)
    else if addr =? INDEX_PORT then Ok 0
    else Fault (AssertFail "lpc47m157 IO failed to read")
  else Ok 0.

(** ** Realize and migration *)

Definition no_serial : Serial := mkSerial false 0 0 [] None.

(** The state of a new object, then [lpc47m157_realize]; its region is
    registered at [iobase]. *)
Definition lpc47m157_realize (sysopt : bool) : LPC47M157State :=
  let iobase := if sysopt then 0x4e else 0x2e in
  mkLpc sysopt iobase false 0
    (wr CONFIG_PORT_HIGH (Z.shiftr iobase 8) (wr CONFIG_PORT_LOW (Z.land iobase 0xff) ∅))
    (fun _ => ∅) no_serial no_serial.

(** The fields [vmstate_lpc47m157] saves, the state of the serial chips aside:
    which ports are active, and where, is not among them. *)
Record Snapshot := mkSnapshot {
  snap_sysopt : bool;
  snap_iobase : Z;
  snap_mode : bool;
  snap_selected : Z;
  snap_config : mem;
  snap_device : Z -> mem;
}.

Definition vmstate_save (s : LPC47M157State) : Snapshot :=
  mkSnapshot (sysopt s) (iobase s) (configuration_mode s) (selected_reg s) (config_regs s) (device_regs s).

Definition lpc47m157_post_load (s : LPC47M157State) : LPC47M157State := update_devices s.

(** Loading a snapshot into a device, [post_load] included. *)
Definition vmstate_load (s : LPC47M157State) (v : Snapshot) : LPC47M157State :=
  lpc47m157_post_load
    (s <| sysopt := snap_sysopt v |> <| iobase := snap_iobase v |> <| configuration_mode := snap_mode v |>
       <| selected_reg := snap_selected v |> <| config_regs := snap_config v |>
       <| device_regs := snap_device v |>).

(** ** Everything the guest can do *)

Inductive access :=
| PortRead (addr : Z)
| PortWrite (addr val : Z)
| LoadSnapshot (v : Snapshot).

Definition access_step (s : LPC47M157State) (a : access) : result LPC47M157State :=
  match a with
  | PortRead addr => _ ← lpc47m157_io_read s addr; Ok s
  | PortWrite addr val => lpc47m157_io_write s addr val
  | LoadSnapshot v => Ok (vmstate_load s v)
  end.

Fixpoint access_steps (s : LPC47M157State) (l : list access) : result LPC47M157State :=
  match l with [] => Ok s | a :: l => s ← access_step s a; access_steps s l end.

(** The region has two ports and takes bytes; the registers of a snapshot are
    bytes, the selected one included, as in every snapshot the device saves. *)
Definition lpc_access_ok (a : access) : Prop :=
  match a with
  | PortRead addr => 0 <= addr < 2
  | PortWrite addr val => 0 <= addr < 2 /\ is_u8 val
  | LoadSnapshot v => is_u8 (snap_selected v) /\ forall r, is_u8 (rd (snap_config v) r)
  end.

(** ** Serial ports follow the configuration *)

(** A port is registered once, at the base it remembers, while it is active. *)
Definition serial_ok (p : Serial) : Prop :=
  if active p then mapped p = [serial_iobase p] /\
    line p = (if serial_irq p =? 0 then None else Some (serial_irq p))
  else mapped p = [] /\ line p = None.

(** What the configuration of its device asks for. *)
Definition serial_as (dev : mem) (p : Serial) : Prop :=
  active p = dev_active dev /\
  (dev_active dev = true -> mapped p = [dev_iobase dev] /\
     line p = (if dev_irq dev =? 0 then None else Some (dev_irq dev))) /\
  (dev_active dev = false -> mapped p = [] /\ line p = None).

Lemma update_serial_as dev p : serial_ok p -> serial_ok (update_serial dev p) /\
  serial_as dev (update_serial dev p).
Proof.
  unfold serial_ok, serial_as, update_serial. destruct p as [act base irq m l].
  set (B := dev_iobase dev). set (Q := dev_irq dev). set (A := dev_active dev). clearbody B Q A.
  destruct act; intros [Hm Hl]; cbn in Hm, Hl; subst m l.
  - destruct A; [|cbn; split_and!; by intros].
    destruct (Z.eqb_spec base B) as [->|Hb]; [destruct (Z.eqb_spec irq Q) as [->|Hq]|]; cbn.
    + rewrite Z.eqb_refl. cbn. rewrite Z.eqb_refl. cbn. split_and!; by intros.
    + rewrite Z.eqb_refl. cbn. rewrite (proj2 (Z.eqb_neq irq Q)) by done. cbn. split_and!; by intros.
    + rewrite (proj2 (Z.eqb_neq base B)) by done. cbn. split_and!; by intros.
  - destruct A; cbn; split_and!; by intros.
Qed.

Definition lpc_inv (s : LPC47M157State) : Prop :=
  serial_ok (serial0 s) /\ serial_ok (serial1 s) /\ is_u8 (selected_reg s) /\
  (forall r, is_u8 (rd (config_regs s) r)).

Lemma update_devices_as s : serial_ok (serial0 s) -> serial_ok (serial1 s) ->
  (serial_ok (serial0 (update_devices s)) /\ serial_ok (serial1 (update_devices s))) /\
  serial_as (device_regs s DEVICE_SERIAL_PORT_1) (serial0 (update_devices s)) /\
  serial_as (device_regs s (DEVICE_SERIAL_PORT_1 + 1)) (serial1 (update_devices s)).
Proof.
  intros H0 H1.
  destruct (update_serial_as (device_regs s DEVICE_SERIAL_PORT_1) (serial0 s) H0) as [H0' A0].
  destruct (update_serial_as (device_regs s (DEVICE_SERIAL_PORT_1 + 1)) (serial1 s) H1) as [H1' A1].
  by split.
Qed.

Lemma update_devices_inv s : lpc_inv s -> lpc_inv (update_devices s) /\
  serial_as (device_regs s DEVICE_SERIAL_PORT_1) (serial0 (update_devices s)) /\
  serial_as (device_regs s (DEVICE_SERIAL_PORT_1 + 1)) (serial1 (update_devices s)).
Proof.
  intros (H0 & H1 & H2 & H3). destruct (update_devices_as s H0 H1) as [[A B] C]. split; [by split_and!|done].
Qed.

Lemma load_inv s v : lpc_inv s -> lpc_access_ok (LoadSnapshot v) -> lpc_inv (vmstate_load s v).
Proof. intros (H0 & H1 & _) [H2 H3]. by apply update_devices_inv. Qed.

Lemma load_as s v (s' := vmstate_load s v) : serial_ok (serial0 s) -> serial_ok (serial1 s) ->
  serial_as (device_regs s' DEVICE_SERIAL_PORT_1) (serial0 s') /\
  serial_as (device_regs s' (DEVICE_SERIAL_PORT_1 + 1)) (serial1 s').
Proof.
  intros H0 H1. unfold s', vmstate_load, lpc47m157_post_load.
  match goal with |- context [update_devices ?t] => exact (proj2 (update_devices_as t H0 H1)) end.
Qed.

(** Register 0xFF of a logical device lies one past the end of its array. *)
Definition past_end (s : LPC47M157State) (a : access) : Prop :=
  configuration_mode s = true /\ selected_reg s = MAX_DEVICE_REGS /\
  match a with PortRead addr | PortWrite addr _ => addr = DATA_PORT | LoadSnapshot _ => False end.

Lemma write_inv s addr val : lpc_inv s -> 0 <= addr < 2 -> is_u8 val ->
  match lpc47m157_io_write s addr val with
  | Ok s' => lpc_inv s'
  | Fault (AssertFail _) => MAX_DEVICE <= rd (config_regs s) CONFIG_DEVICE_NUMBER
  | Fault OutOfBounds => past_end s (PortWrite addr val)
  | Fault _ => False
  end.
Proof.
  intros Hs Ha Hv. pose proof Hs as (H0 & H1 & H2 & H3). unfold lpc47m157_io_write.
  destruct ((addr =? CONFIG_PORT) && _) eqn:Ek.
  { destruct (val =? ENTER_CONFIG_KEY); [by split_and!|].
    destruct (configuration_mode s); [apply (update_devices_inv s Hs)|by split_and!]. }
  destruct (configuration_mode s) eqn:Em; [|done].
  destruct (Z.eqb_spec addr INDEX_PORT) as [->|Hi]; [by split_and!|].
  destruct (Z.eqb_spec addr DATA_PORT) as [->|Hd]; [|unfold INDEX_PORT, CONFIG_PORT, DATA_PORT in *; lia].
  destruct (Z.ltb_spec (selected_reg s) MAX_CONFIG_REG) as [Hr|Hr].
  { split_and!; try done. intros r. cbn. destruct (Z.eq_dec (selected_reg s) r) as [<-|];
      [by rewrite rd_wr_eq|by rewrite rd_wr_ne]. }
  unfold check. destruct (Z.ltb_spec (rd (config_regs s) CONFIG_DEVICE_NUMBER) MAX_DEVICE) as [Hn|Hn]; [|done].
  cbn [mbind result_mbind result_bind]. unfold dev_write.
  destruct (Z.ltb_spec (selected_reg s) MAX_DEVICE_REGS) as [Hl|Hl]; cbn [mbind result_mbind result_bind]; [by split_and!|].
  split; [done|]. split; [|done]. unfold is_u8, MAX_DEVICE_REGS in *. lia.
Qed.

Lemma read_inv s addr : lpc_inv s -> 0 <= addr < 2 ->
  match lpc47m157_io_read s addr with
  | Ok _ => True
  | Fault (AssertFail _) => MAX_DEVICE <= rd (config_regs s) CONFIG_DEVICE_NUMBER
  | Fault OutOfBounds => past_end s (PortRead addr)
  | Fault _ => False
  end.
Proof.
  intros (_ & _ & H2 & _) Ha. unfold lpc47m157_io_read. destruct (configuration_mode s) eqn:Em; [|done].
  destruct (Z.eqb_spec addr DATA_PORT) as [->|Hd].
  2:{ destruct (Z.eqb_spec addr INDEX_PORT) as [->|Hi]; [done|]. unfold INDEX_PORT, CONFIG_PORT, DATA_PORT in *. lia. }
  destruct (Z.ltb_spec (selected_reg s) MAX_CONFIG_REG) as [Hr|Hr]; [done|].
  unfold check. destruct (Z.ltb_spec (rd (config_regs s) CONFIG_DEVICE_NUMBER) MAX_DEVICE) as [Hn|Hn]; [|done].
  cbn [mbind result_mbind result_bind]. unfold dev_read.
  destruct (Z.ltb_spec (selected_reg s) MAX_DEVICE_REGS) as [Hl|Hl]; [done|].
  split; [done|]. split; [|done]. unfold is_u8, MAX_DEVICE_REGS in *. lia.
Qed.

(** The states of a device from its realization on. *)
Inductive reachable : LPC47M157State -> Prop :=
| reach_start b : reachable (lpc47m157_realize b)
| reach_step s a s' : reachable s -> lpc_access_ok a -> access_step s a = Ok s' -> reachable s'.

Lemma lpc_reachable_inv s : reachable s -> lpc_inv s.
Proof.
  induction 1 as [b|s a s' _ IH Hok Hst].
  - split_and!; try done. intros r. cbn [config_regs lpc47m157_realize].
    destruct (Z.eq_dec CONFIG_PORT_HIGH r) as [<-|]; [rewrite rd_wr_eq; by destruct b|rewrite rd_wr_ne by done].
    destruct (Z.eq_dec CONFIG_PORT_LOW r) as [<-|]; [rewrite rd_wr_eq; by destruct b|rewrite rd_wr_ne by done].
    by rewrite rd_empty.
  - destruct a as [addr|addr val|v]; cbn [access_step] in Hst.
    + destruct (lpc47m157_io_read s addr); cbn in Hst; by simplify_eq.
    + destruct Hok as [Ha Hv]. pose proof (write_inv s addr val IH Ha Hv) as Hw. by rewrite Hst in Hw.
    + injection Hst as <-. by apply load_inv.
Qed.

(** At any time a serial port is registered on the ISA bus exactly once
    when it is active, at the base address and with the interrupt it remembers,
    and not at all when it is inactive; when the guest leaves configuration mode,
    or a snapshot is loaded, both ports are where their registers say, although
    the snapshot does not record which ports are active.  A snapshot of the
    device, loaded into any other, restores what the guest sees. *)
Theorem serial_ports_follow_config s : reachable s ->
  serial_ok (serial0 s) /\ serial_ok (serial1 s) /\
  (forall s', (configuration_mode s = true /\ lpc47m157_io_write s CONFIG_PORT EXIT_CONFIG_KEY = Ok s' \/
               exists v, lpc_access_ok (LoadSnapshot v) /\ vmstate_load s v = s') ->
     serial_as (device_regs s' DEVICE_SERIAL_PORT_1) (serial0 s') /\
     serial_as (device_regs s' (DEVICE_SERIAL_PORT_1 + 1)) (serial1 s')) /\
  (forall t, vmstate_save (vmstate_load t (vmstate_save s)) = vmstate_save s /\
             forall addr, lpc47m157_io_read (vmstate_load t (vmstate_save s)) addr = lpc47m157_io_read s addr).
Proof.
  intros Hr%lpc_reachable_inv. pose proof Hr as (H0 & H1 & _). split; [done|]. split; [done|].
  split; [|done]. destruct (update_devices_inv s Hr) as (_ & A0 & A1).
  intros s' [[Hm Hw]|(v & Hv & <-)]; [|by apply load_as].
  unfold lpc47m157_io_write in Hw. rewrite Hm in Hw. cbn in Hw. injection Hw as <-. done.
Qed.

(** Of the accesses a guest can make, only two kinds stop the emulator:
    a device register is accessed while the device number register holds a
    number that is no device, which fails an assertion, or register 0xFF of a
    device is accessed, which lies past the end of its array.  The second does
    happen: from the state after realization, five byte writes reach it. *)
Theorem lpc_accesses_contained s a : reachable s -> lpc_access_ok a ->
  match access_step s a with
  | Ok _ => True
  | Fault (AssertFail _) => MAX_DEVICE <= rd (config_regs s) CONFIG_DEVICE_NUMBER
  | Fault OutOfBounds => past_end s a
  | Fault _ => False
  end /\
  access_steps (lpc47m157_realize false)
    [PortWrite CONFIG_PORT ENTER_CONFIG_KEY; PortWrite INDEX_PORT CONFIG_DEVICE_NUMBER;
     PortWrite DATA_PORT 0xB; PortWrite INDEX_PORT 0xFF; PortWrite DATA_PORT 1] = Fault OutOfBounds.
Proof.
  intros Hr%lpc_reachable_inv Hok. split; [|done]. destruct a as [addr|addr val|v]; cbn [access_step].
  - pose proof (read_inv s addr Hr Hok). by destruct (lpc47m157_io_read s addr) as [|[]].
  - destruct Hok as [Ha Hv]. pose proof (write_inv s addr val Hr Ha Hv).
    by destruct (lpc47m157_io_write s addr val) as [|[]].
  - done.
Qed.

Lemma reachable_steps l : forall s s', reachable s -> Forall lpc_access_ok l -> access_steps s l = Ok s' -> reachable s'.
Proof.
  induction l as [|a l IH]; intros s s' Hr Hl Hs; [by injection Hs as <-|].
  apply Forall_cons in Hl as [Ha Hl]. cbn [access_steps] in Hs.
  destruct (access_step s a) as [s1|] eqn:E; [|done]. cbn [mbind result_mbind result_bind] in Hs.
  apply (IH s1); [by apply (reach_step s a)|done|done].
Qed.

(** ** Examples *)

(** The guest enables the first serial port at 0x3f8 with interrupt 4. *)
Definition enable_com1 : list access :=
  [PortWrite CONFIG_PORT ENTER_CONFIG_KEY;
   PortWrite INDEX_PORT CONFIG_DEVICE_NUMBER; PortWrite DATA_PORT DEVICE_SERIAL_PORT_1;
   PortWrite INDEX_PORT CONFIG_DEVICE_BASE_ADDRESS_HIGH; PortWrite DATA_PORT 0x03;
   PortWrite INDEX_PORT CONFIG_DEVICE_BASE_ADDRESS_LOW; PortWrite DATA_PORT 0xf8;
   PortWrite INDEX_PORT CONFIG_DEVICE_INTERRUPT; PortWrite DATA_PORT 4;
   PortWrite INDEX_PORT CONFIG_DEVICE_ACTIVATE; PortWrite DATA_PORT 1].

Definition lpc0 : LPC47M157State :=
  match access_steps (lpc47m157_realize false) enable_com1 with Ok s => s | Fault _ => lpc47m157_realize false end.

Lemma enable_com1_ok : Forall lpc_access_ok enable_com1.
Proof. unfold enable_com1. repeat (apply Forall_cons; split; [by vm_compute|]). apply Forall_nil_2. Qed.

Lemma lpc0_reachable : reachable lpc0.
Proof.
  unfold lpc0. destruct (access_steps (lpc47m157_realize false) enable_com1) as [s|] eqn:E; [|constructor].
  apply (reachable_steps enable_com1 (lpc47m157_realize false)); [constructor|apply enable_com1_ok|exact E].
Qed.

Lemma serial_ports_follow_config_witness :
  exists s', lpc47m157_io_write lpc0 CONFIG_PORT EXIT_CONFIG_KEY = Ok s' /\
    mapped (serial0 s') = [0x3f8] /\ line (serial0 s') = Some 4 /\ mapped (serial1 s') = [].
Proof.
  destruct (serial_ports_follow_config lpc0 lpc0_reachable) as (_ & _ & H & _).
  eexists. split; [reflexivity|]. destruct (H _ (or_introl (conj eq_refl eq_refl))) as [(_ & H0 & _) (_ & _ & H1)].
  destruct (H0 eq_refl) as [Hm Hl]. destruct (H1 eq_refl) as [Hm1 _].
  split; [exact Hm|]. split; [exact Hl|exact Hm1].
Defined.

Lemma lpc_accesses_contained_witness : exists s', access_step lpc0 (PortWrite DATA_PORT 7) = Ok s'.
Proof.
  destruct (lpc_accesses_contained lpc0 (PortWrite DATA_PORT 7) lpc0_reachable) as [H _]; [by vm_compute|].
  destruct (access_step lpc0 (PortWrite DATA_PORT 7)) as [s'|f]; [by exists s'|].
  destruct f; try done. destruct H as (_ & H & _). by vm_compute in H.
Defined.
