(* ===== verification/UsbCore.v ===== *)
(** USB packets and the control pipe (hw/usb/core.c, the calls through the device
    class of hw/usb/bus.c).

    A control transfer is a SETUP packet, a data stage of any number of packets
    and a status stage; [setup_state], [setup_len] and [setup_index] of the
    device carry it from packet to packet.  The device behind it is the type
    class [USBDeviceClass]; [UsbContract] is what the control pipe relies on.

    The buffers of a packet are its scatter-gather list, concatenated.  Packets
    are not combined ([combined] is null, as [usb_packet_setup] leaves it), and
    the queues of packets a device answers later are not modelled.

    The theorems show that the control pipe stays inside its 4096-byte buffer
    whatever packets the guest sends, and that a transfer delivers its data, in
    both directions, however it is cut into packets. *)

From S2P Require Import Prelude.

Definition USB_TOKEN_SETUP : Z := 0x2d.
Definition USB_TOKEN_IN : Z := 0x69.
Definition USB_TOKEN_OUT : Z := 0xe1.
Definition USB_RET_SUCCESS : Z := 0.
Definition USB_RET_STALL : Z := -3.
Definition USB_RET_ASYNC : Z := -6.
Definition USB_DIR_IN : Z := 0x80.
Definition SIZEOF_DATA_BUF : Z := 4096.

Inductive setup_stage :=
| SETUP_STATE_IDLE
| SETUP_STATE_SETUP
| SETUP_STATE_DATA
| SETUP_STATE_ACK
| SETUP_STATE_PARAM.

(** [ep_nr] is the number of the endpoint the packet is for. *)
Record USBPacket := mkPacket {
  pid : Z;
  ep_nr : Z;
  iov : list Z;
  parameter : Z;
  actual_length : Z;
  status : Z;
}.
#[export] Instance USBPacket_settable : Settable USBPacket :=
  settable! mkPacket < pid ; ep_nr ; iov ; parameter ; actual_length ; status >.

Definition iov_size (p : USBPacket) : Z := Z.of_nat (length (iov p)).

(** [usb_packet_setup] and [usb_packet_addbuf]. *)
Definition usb_packet_setup (pid ep : Z) (buf : list Z) : USBPacket :=
  mkPacket pid ep buf 0 0 USB_RET_SUCCESS.

(** [usb_packet_copy(p, buf + off, bytes)]; the conversion of a C int to
    [size_t] is the wrap-around of [bytes]. *)
Definition usb_packet_copy (p : USBPacket) (buf : list Z) (off bytes : Z) : result (USBPacket * list Z) :=
  let bytes := u64 bytes in
  _ ← check (0 <=? actual_length p) "p->actual_length >= 0";
  _ ← check (u64 (actual_length p + bytes) <=? iov_size p) "p->actual_length + bytes <= iov->size";
  if (pid p =? USB_TOKEN_SETUP) || (pid p =? USB_TOKEN_OUT) then
    x ← slice (iov p) (actual_length p) bytes;
    buf ← blit buf off x;
    Ok (p <| actual_length := actual_length p + bytes |>, buf)
  else if pid p =? USB_TOKEN_IN then
    x ← slice buf off bytes;
    v ← blit (iov p) (actual_length p) x;
    Ok (p <| iov := v |> <| actual_length := actual_length p + bytes |>, buf)
  else Fault (AssertFail "usb_packet_copy: invalid pid").

(** A packet as a host controller hands it over. *)
Definition packet_ok (p : USBPacket) : Prop :=
  Forall is_u8 (iov p) /\ iov_size p < 2 ^ 31 /\ actual_length p = 0.

Lemma copy_out p buf off n : pid p = USB_TOKEN_SETUP \/ pid p = USB_TOKEN_OUT -> actual_length p = 0 ->
  0 <= n <= iov_size p -> iov_size p < 2 ^ 31 -> 0 <= off -> off + n <= Z.of_nat (length buf) ->
  usb_packet_copy p buf off n =
    Ok (p <| actual_length := n |>, list_inserts (Z.to_nat off) (take (Z.to_nat n) (iov p)) buf).
Proof.
  intros Hpid Ha Hn Hs Ho Hb. unfold usb_packet_copy, iov_size in *. destruct p as [pd ep v par al st].
  cbn in Hpid, Ha, Hn, Hs |- *. subst al.
  assert (u64 n = n) as -> by (apply u64_id; unfold is_u64; lia).
  unfold check. rewrite Z.add_0_l, (u64_id n), (proj2 (Z.leb_le n _)) by (unfold is_u64; lia). cbn [mbind result_mbind result_bind].
  assert (((pd =? USB_TOKEN_SETUP) || (pd =? USB_TOKEN_OUT)) = true) as -> by (by destruct Hpid as [-> | ->]).
  rewrite slice_ok, drop_0 by lia. cbn [mbind result_mbind result_bind].
  rewrite blit_ok by (rewrite ?length_take; lia). done.
Qed.

Lemma copy_in p buf off n : pid p = USB_TOKEN_IN -> actual_length p = 0 ->
  0 <= n <= iov_size p -> iov_size p < 2 ^ 31 -> 0 <= off -> off + n <= Z.of_nat (length buf) ->
  usb_packet_copy p buf off n =
    Ok (p <| iov ::= list_inserts 0 (take (Z.to_nat n) (drop (Z.to_nat off) buf)) |>
          <| actual_length := n |>, buf).
Proof.
  intros Hpid Ha Hn Hs Ho Hb. unfold usb_packet_copy, iov_size in *. destruct p as [pd ep v par al st].
  cbn in Hpid, Ha, Hn, Hs |- *. subst al pd.
  assert (u64 n = n) as -> by (apply u64_id; unfold is_u64; lia).
  unfold check. rewrite Z.add_0_l, (u64_id n), (proj2 (Z.leb_le n _)) by (unfold is_u64; lia). cbn [mbind result_mbind result_bind].
  cbn [Z.eqb orb USB_TOKEN_SETUP USB_TOKEN_OUT USB_TOKEN_IN Pos.eqb].
  rewrite slice_ok by lia. cbn [mbind result_mbind result_bind].
  rewrite blit_ok by (rewrite ?length_take, ?length_drop; lia). done.
Qed.

(** ** Devices *)

(** The class of a device; either handler may be null. [D] is the state of the
    device, what [USBDevice] has besides the control pipe included. *)
Class USBDeviceClass (D : Type) := {
  handle_control : option (D -> USBPacket -> Z -> Z -> Z -> Z -> list Z -> result (D * USBPacket * list Z));
  handle_data : option (D -> USBPacket -> result (D * USBPacket));
}.

Record USBDevice (D : Type) := mkDevice {
  setup_buf : list Z;
  data_buf : list Z;
  setup_state : setup_stage;
  setup_len : Z;
  setup_index : Z;
  dev_state : D;
}.
Arguments mkDevice {D} _ _ _ _ _ _.
Arguments setup_buf {D} _.
Arguments data_buf {D} _.
Arguments setup_state {D} _.
Arguments setup_len {D} _.
Arguments setup_index {D} _.
Arguments dev_state {D} _.

#[export] Instance USBDevice_settable D : Settable (USBDevice D) :=
  settable! (@mkDevice D) < setup_buf ; data_buf ; setup_state ; setup_len ; setup_index ; dev_state >.

Definition be_pair (l : list Z) (i j : Z) : Z := Z.lor (Z.shiftl (byte l i) 8) (byte l j).
Definition setup_request (b : list Z) : Z := be_pair b 0 1.
Definition setup_value (b : list Z) : Z := be_pair b 3 2.
Definition setup_windex (b : list Z) : Z := be_pair b 5 4.
Definition setup_length (b : list Z) : Z := be_pair b 7 6.
Definition dir_in (b : list Z) : bool := has (byte b 0) USB_DIR_IN.

Lemma be_pair_range l i j : Forall is_u8 l -> is_u16 (be_pair l i j).
Proof.
  intros H. assert (forall k, is_u8 (byte l k)) as Hb.
  { intros k. unfold byte. destruct (nth_in_or_default (Z.to_nat k) l 0) as [Hin | ->]; [|done].
    rewrite Forall_forall in H. by apply H, list_elem_of_In. }
  pose proof (Hb i). pose proof (Hb j). unfold be_pair, is_u8, is_u16 in *.
  rewrite Z.lor_comm, lor_shiftl by lia. lia.
Qed.

Section Core.
Context {D : Type} `{!USBDeviceClass D}.
Implicit Types (s : USBDevice D) (p : USBPacket).

(** [usb_device_handle_control] with the buffer of the device. *)
Definition usb_device_handle_control s p (request value index length : Z) : result (USBDevice D * USBPacket) :=
  match handle_control with
  | None => Ok (s, p)
  | Some h =>
      '(d, p, data) ← h (dev_state s) p request value index length (data_buf s);
      Ok (s <| dev_state := d |> <| data_buf := data |>, p)
  end.

Definition usb_device_handle_data s p : result (USBDevice D * USBPacket) :=
  match handle_data with
  | None => Ok (s, p)
  | Some h => '(d, p) ← h (dev_state s) p; Ok (s <| dev_state := d |>, p)
  end.

(** The request in [setup_buf], for the device. *)
Definition control_request s p : result (USBDevice D * USBPacket) :=
  let b := setup_buf s in
  usb_device_handle_control s p (setup_request b) (setup_value b) (setup_windex b) (setup_len s).

Definition do_token_setup s p : result (USBDevice D * USBPacket) :=
  if negb (iov_size p =? 8) then Ok (s, p <| status := USB_RET_STALL |>)
  else
    '(p, b) ← usb_packet_copy p (setup_buf s) 0 (iov_size p);
    let s := s <| setup_buf := b |> <| setup_index := 0 |> in
    let p := p <| actual_length := 0 |> in
    if SIZEOF_DATA_BUF <? setup_length b then Ok (s, p <| status := USB_RET_STALL |>)
    else
      let s := s <| setup_len := setup_length b |> in
      if dir_in b then
        '(s, p) ← control_request s p;
        let s := if status p =? USB_RET_ASYNC then s <| setup_state := SETUP_STATE_SETUP |> else s in
        if negb (status p =? USB_RET_SUCCESS) then Ok (s, p)
        else
          let s := if actual_length p <? setup_len s then s <| setup_len := actual_length p |> else s in
          Ok (s <| setup_state := SETUP_STATE_DATA |>, p <| actual_length := 8 |>)
      else
        let s := s <| setup_state := if setup_len s =? 0 then SETUP_STATE_ACK else SETUP_STATE_DATA |> in
        Ok (s, p <| actual_length := 8 |>).

(** The data stage, the same in both directions: at most the rest of the
    transfer, at most what the packet holds. *)
Definition data_stage s p : result (USBDevice D * USBPacket) :=
  let len := setup_len s - setup_index s in
  let len := if iov_size p <? u64 len then iov_size p else len in
  '(p, b) ← usb_packet_copy p (data_buf s) (setup_index s) len;
  let s := s <| data_buf := b |> <| setup_index := setup_index s + len |> in
  let s := if setup_len s <=? setup_index s then s <| setup_state := SETUP_STATE_ACK |> else s in
  Ok (s, p).

Definition do_token_in s p : result (USBDevice D * USBPacket) :=
  _ ← check (ep_nr p =? 0) "p->ep->nr == 0";
  match setup_state s with
  | SETUP_STATE_ACK =>
      if negb (dir_in (setup_buf s)) then
        '(s, p) ← control_request s p;
        if status p =? USB_RET_ASYNC then Ok (s, p)
        else Ok (s <| setup_state := SETUP_STATE_IDLE |>, p <| actual_length := 0 |>)
      else Ok (s, p)
  | SETUP_STATE_DATA =>
      if dir_in (setup_buf s) then data_stage s p
      else Ok (s <| setup_state := SETUP_STATE_IDLE |>, p <| status := USB_RET_STALL |>)
  | _ => Ok (s, p <| status := USB_RET_STALL |>)
  end.

Definition do_token_out s p : result (USBDevice D * USBPacket) :=
  _ ← check (ep_nr p =? 0) "p->ep->nr == 0";
  match setup_state s with
  | SETUP_STATE_ACK =>
      if dir_in (setup_buf s) then Ok (s <| setup_state := SETUP_STATE_IDLE |>, p) else Ok (s, p)
  | SETUP_STATE_DATA =>
      if negb (dir_in (setup_buf s)) then data_stage s p
      else Ok (s <| setup_state := SETUP_STATE_IDLE |>, p <| status := USB_RET_STALL |>)
  | _ => Ok (s, p <| status := USB_RET_STALL |>)
  end.

(** The parameter of a packet is the whole setup packet. *)
Definition do_parameter s p : result (USBDevice D * USBPacket) :=
  let b := le_bytes 8 (parameter p) in
  let s := s <| setup_buf := b |> <| setup_state := SETUP_STATE_PARAM |> <| setup_index := 0 |> in
  if SIZEOF_DATA_BUF <? setup_length b then Ok (s, p <| status := USB_RET_STALL |>)
  else
    let s := s <| setup_len := setup_length b |> in
    '(p, d) ← if pid p =? USB_TOKEN_OUT then usb_packet_copy p (data_buf s) 0 (setup_len s)
              else Ok (p, data_buf s);
    '(s, p) ← control_request (s <| data_buf := d |>) p;
    if status p =? USB_RET_ASYNC then Ok (s, p)
    else
      let s := if actual_length p <? setup_len s then s <| setup_len := actual_length p |> else s in
      if pid p =? USB_TOKEN_IN then
        '(p, d) ← usb_packet_copy (p <| actual_length := 0 |>) (data_buf s) 0 (setup_len s);
        Ok (s <| data_buf := d |>, p)
      else Ok (s, p).

Definition usb_process_one s p : result (USBDevice D * USBPacket) :=
  let p := p <| status := USB_RET_SUCCESS |> in
  if ep_nr p =? 0 then
    if negb (parameter p =? 0) then do_parameter s p
    else if pid p =? USB_TOKEN_SETUP then do_token_setup s p
    else if pid p =? USB_TOKEN_IN then do_token_in s p
    else if pid p =? USB_TOKEN_OUT then do_token_out s p
    else Ok (s, p <| status := USB_RET_STALL |>)
  else usb_device_handle_data s p.

(** The packets of a host, one after the other, each as it comes back. *)
Fixpoint process_all s (l : list USBPacket) : result (USBDevice D * list USBPacket) :=
  match l with
  | [] => Ok (s, [])
  | p :: l =>
      '(s, p) ← usb_process_one s p;
      '(s, l) ← process_all s l;
      Ok (s, p :: l)
  end.
End Core.

(** ** The control pipe stays in its buffer *)

(** A packet a handler gave back. *)
Definition returned (p p' : USBPacket) : Prop :=
  pid p' = pid p /\ ep_nr p' = ep_nr p /\ length (iov p') = length (iov p) /\ 0 <= actual_length p'.

(** A copy within the buffer only fails when the packet is too small for it. *)
Lemma copy_total p buf off n : actual_length p = 0 -> 0 <= n < 2 ^ 31 -> iov_size p < 2 ^ 31 -> 0 <= off ->
  off + n <= Z.of_nat (length buf) ->
  match usb_packet_copy p buf off n with
  | Ok (p', buf') => returned p p' /\ length buf' = length buf
  | Fault f => exists what, f = AssertFail what
  end.
Proof.
  intros Ha Hn Hs Ho Hb. destruct (Z.leb_spec n (iov_size p)) as [Hle|Hgt].
  - assert ((pid p = USB_TOKEN_SETUP \/ pid p = USB_TOKEN_OUT) \/ pid p = USB_TOKEN_IN \/
      (pid p =? USB_TOKEN_SETUP) || (pid p =? USB_TOKEN_OUT) = false /\ (pid p =? USB_TOKEN_IN) = false)
      as [Hp|[Hp|[Hp Hp']]] by (rewrite orb_false_iff, !Z.eqb_neq; lia).
    + rewrite copy_out by (done || lia). split; [by split_and!; try done; cbn; lia|]. apply length_inserts.
    + rewrite copy_in by (done || lia). split; [|done]. split_and!; try done; cbn; [apply length_inserts|lia].
    + unfold usb_packet_copy, check. rewrite Hp, Hp', Ha. cbn [mbind result_mbind result_bind Z.leb Z.compare].
      destruct (_ <=? _); cbn; by eexists.
  - unfold usb_packet_copy, check. rewrite Ha, Z.add_0_l, !(u64_id n) by (unfold is_u64; lia).
    cbn [mbind result_mbind result_bind Z.leb Z.compare]. rewrite (proj2 (Z.leb_gt n _)) by done. by eexists.
Qed.

(** What the control pipe relies on: a handler keeps the packet and the size of
    the buffer, and reports no negative length.  [dev_ok] is the invariant of the
    device, and [control_fails] and [data_fails] say which faults its handlers
    may end in. *)
Class UsbContract (D : Type) `{!USBDeviceClass D} := {
  dev_ok : D -> Prop;
  control_fails : fault -> Prop;
  data_fails : fault -> Prop;
  control_ok h d p r v i n data : handle_control = Some h -> dev_ok d -> 0 <= actual_length p ->
    0 <= n <= SIZEOF_DATA_BUF -> Z.of_nat (length data) = SIZEOF_DATA_BUF ->
    match h d p r v i n data with
    | Ok (d', p', data') => dev_ok d' /\ returned p p' /\ length data' = length data
    | Fault f => control_fails f
    end;
  data_ok h d p : handle_data = Some h -> dev_ok d -> packet_ok p ->
    match h d p with
    | Ok (d', p') => dev_ok d' /\ returned p p'
    | Fault f => data_fails f
    end;
}.

Section Safety.
Context {D : Type} `{UsbContract D}.
Implicit Types (s : USBDevice D) (p : USBPacket).

Record usb_inv s : Prop := {
  inv_setup : length (setup_buf s) = 8%nat;
  inv_data : Z.of_nat (length (data_buf s)) = SIZEOF_DATA_BUF;
  inv_index : 0 <= setup_index s <= setup_len s;
  inv_len : setup_len s <= SIZEOF_DATA_BUF;
  inv_dev : dev_ok (dev_state s);
}.

Lemma control_request_inv s p : usb_inv s -> 0 <= actual_length p ->
  match control_request s p with
  | Ok (s', p') => usb_inv s' /\ returned p p' /\ setup_index s' = setup_index s
  | Fault f => control_fails f
  end.
Proof.
  intros [H1 H2 H3 H4 H5] Ha. unfold control_request, usb_device_handle_control.
  destruct handle_control as [h|] eqn:Eh; [|by split_and!].
  pose proof (control_ok h (dev_state s) p (setup_request (setup_buf s)) (setup_value (setup_buf s))
    (setup_windex (setup_buf s)) (setup_len s) (data_buf s) Eh H5 Ha) as Hc.
  destruct (h _ _ _ _ _ _ _) as [[[d p'] data']|f]; cbn [mbind result_mbind result_bind];
    [|apply Hc; [lia|done]].
  destruct Hc as (Hd & Hr & Hl); [lia|done|]. split; [|done].
  split; cbn; try done; lia.
Qed.

Lemma data_stage_inv s p : usb_inv s -> packet_ok p -> pid p = USB_TOKEN_IN \/ pid p = USB_TOKEN_OUT ->
  exists s' p', data_stage s p = Ok (s', p') /\ usb_inv s' /\ returned p p'.
Proof.
  intros [H1 H2 H3 H4 H5] (Hv & Hs & Ha) Hpid. unfold data_stage.
  set (len := if iov_size p <? _ then _ else _).
  assert (0 <= len <= iov_size p /\ len <= setup_len s - setup_index s) as [Hl Hl'].
  { unfold len. rewrite u64_id by (unfold is_u64, SIZEOF_DATA_BUF in *; lia).
    unfold iov_size. destruct (Z.ltb_spec (Z.of_nat (length (iov p))) (setup_len s - setup_index s)); lia. }
  clearbody len. destruct Hpid as [Hp|Hp].
  - rewrite copy_in by (try done; lia). cbn [mbind result_mbind result_bind].
    eexists _, _. split; [reflexivity|]. split; [|by split_and!; try done; cbn; [apply length_inserts|lia]].
    cbn. destruct (_ <=? _); split; cbn; try done; lia.
  - rewrite copy_out by (try (by right); lia || done). cbn [mbind result_mbind result_bind].
    eexists _, _. split; [reflexivity|]. split; [|by split_and!; try done; cbn; lia].
    cbn. destruct (_ <=? _); split; cbn; rewrite ?length_inserts; try done; lia.
Qed.

(** The faults a packet can end in: those of the device, and for a packet with a
    parameter the assertion that its buffer holds the transfer. *)
Definition packet_fails p (f : fault) : Prop :=
  if ep_nr p =? 0 then control_fails f \/ parameter p <> 0 /\ exists what, f = AssertFail what
  else data_fails f.

Definition step_ok s p (r : result (USBDevice D * USBPacket)) : Prop :=
  match r with
  | Ok (s', p') => usb_inv s' /\ returned p p'
  | Fault f => packet_fails p f
  end.

Lemma step_ok_request s p (k : USBDevice D * USBPacket -> result (USBDevice D * USBPacket)) :
  usb_inv s -> 0 <= actual_length p -> ep_nr p = 0 ->
  (forall s' p', usb_inv s' -> returned p p' -> setup_index s' = setup_index s -> step_ok s p (k (s', p'))) ->
  step_ok s p (control_request s p ≫= k).
Proof.
  intros Hs Ha He Hk. pose proof (control_request_inv s p Hs Ha) as Hc.
  destruct (control_request s p) as [[s' p']|f]; cbn [mbind result_mbind result_bind].
  - destruct Hc as (H1 & H2 & H3). by apply Hk.
  - unfold step_ok, packet_fails. rewrite He. by left.
Qed.

Lemma inv_state s st : usb_inv s -> usb_inv (s <| setup_state := st |>).
Proof. by intros []. Qed.

(** The length is cut to what the device has, at the start of a transfer. *)
Lemma inv_shrink s n : usb_inv s -> setup_index s = 0 -> 0 <= n ->
  usb_inv (if n <? setup_len s then s <| setup_len := n |> else s).
Proof.
  intros Hs Hi Hn. destruct (Z.ltb_spec n (setup_len s)) as [Hl|]; [|done].
  destruct Hs. split; cbn; try done; lia.
Qed.

Lemma do_token_setup_ok s p : usb_inv s -> packet_ok p -> ep_nr p = 0 -> pid p = USB_TOKEN_SETUP ->
  step_ok s p (do_token_setup s p).
Proof.
  intros Hs (Hv & Hsz & Ha) He Hp. pose proof Hs as [H1 H2 H3 H4 H5]. unfold do_token_setup.
  destruct (Z.eqb_spec (iov_size p) 8) as [H8|_]; [|split; [done|by split_and!; cbn; rewrite ?Ha]].
  rewrite copy_out by (try (by left); lia || done). cbn [negb mbind result_mbind result_bind].
  assert (list_inserts (Z.to_nat 0) (take (Z.to_nat (iov_size p)) (iov p)) (setup_buf s) = iov p) as ->.
  { unfold iov_size in H8 |- *. rewrite take_ge, inserts_split, drop_ge, app_nil_r by lia. done. }
  pose proof (be_pair_range (iov p) 7 6 Hv) as Hr. fold (setup_length (iov p)) in Hr. unfold is_u16 in Hr.
  assert (length (iov p) = 8%nat) as Hl by (unfold iov_size in H8; lia).
  destruct (Z.ltb_spec SIZEOF_DATA_BUF (setup_length (iov p))) as [Hb|Hb].
  { split; [|by split_and!]. by split; cbn; try done; lia. }
  destruct (dir_in (iov p)).
  - change (step_ok s p) with (step_ok (s <| setup_buf := iov p |> <| setup_index := 0 |>
      <| setup_len := setup_length (iov p) |>) (p <| actual_length := iov_size p |> <| actual_length := 0 |>)).
    apply step_ok_request; [by split; cbn; try done; lia|done|done|].
    intros s' p' Hi Hr' H0. destruct (status p' =? USB_RET_ASYNC), (negb (status p' =? USB_RET_SUCCESS));
      cbv zeta; (split; [|done || by destruct Hr' as (? & ? & ? & ?)]);
      repeat apply inv_state; try done; apply inv_shrink; try apply inv_state; try done; by apply Hr'.
  - by split; [split; cbn; try done; lia|split_and!].
Qed.

Lemma do_parameter_ok s p : usb_inv s -> packet_ok p -> ep_nr p = 0 -> parameter p <> 0 ->
  step_ok s p (do_parameter s p).
Proof.
  intros Hs (Hv & Hsz & Ha) He Hp. pose proof Hs as [H1 H2 H3 H4 H5]. unfold do_parameter.
  set (b := le_bytes 8 (parameter p)).
  assert (length b = 8%nat) as Hl8 by apply length_le_bytes.
  pose proof (be_pair_range b 7 6 (le_bytes_u8 _ _)) as Hr. fold (setup_length b) in Hr. unfold is_u16 in Hr.
  clearbody b. destruct (Z.ltb_spec SIZEOF_DATA_BUF (setup_length b)) as [Hb|Hb].
  { split; [|by split_and!; cbn; rewrite ?Ha]. by split; cbn; try done; lia. }
  set (s1 := s <| setup_buf := b |> <| setup_state := SETUP_STATE_PARAM |> <| setup_index := 0 |>
    <| setup_len := setup_length b |>).
  assert (forall what, step_ok s p (Fault (AssertFail what))) as Hf.
  { intros what. cbn. unfold packet_fails. rewrite He. right. split; [done|by eexists]. }
  assert (match (if pid p =? USB_TOKEN_OUT then usb_packet_copy p (data_buf s1) 0 (setup_len s1) else Ok (p, data_buf s1))
    with Ok (p1, d) => returned p p1 /\ length d = length (data_buf s) | Fault f => exists what, f = AssertFail what end) as Hc.
  { destruct (_ =? _); [|split; [by split_and!; try done; lia|done]].
    apply copy_total; try done; cbn; unfold SIZEOF_DATA_BUF in *; lia. }
  fold s1. destruct (if pid p =? USB_TOKEN_OUT then _ else _) as [[p1 d]|f]; cbn [mbind result_mbind result_bind];
    [|destruct Hc as [what ->]; apply Hf].
  destruct Hc as [(R1 & R2 & R3 & R4) Hd].
  assert (usb_inv (s1 <| data_buf := d |>)) as Hs1 by (split; cbn; try done; lia).
  pose proof (control_request_inv _ p1 Hs1 R4) as Hc.
  destruct (control_request _ p1) as [[s2 p2]|f]; cbn [mbind result_mbind result_bind];
    [|cbn; unfold packet_fails; rewrite He; by left].
  destruct Hc as (Hs2 & (Q1 & Q2 & Q3 & Q4) & Hi). cbn in Hi.
  destruct (status p2 =? USB_RET_ASYNC); [split; [done|]; split_and!; congruence|].
  pose proof (inv_shrink s2 (actual_length p2) Hs2 Hi Q4) as Hs3.
  set (s3 := if actual_length p2 <? setup_len s2 then _ else _) in *. clearbody s3. cbv zeta.
  destruct (pid p2 =? USB_TOKEN_IN); [|split; [done|]; split_and!; congruence].
  pose proof Hs3 as [I1 I2 I3 I4 I5].
  assert (setup_len s3 < 2 ^ 31) as Hlt by (unfold SIZEOF_DATA_BUF in *; lia).
  assert (length (iov p2) = length (iov p)) as Hlp by congruence.
  pose proof (copy_total (p2 <| actual_length := 0 |>) (data_buf s3) 0 (setup_len s3) eq_refl ltac:(lia)
    ltac:(unfold iov_size in *; cbn; lia) ltac:(lia) ltac:(lia)) as Hc.
  destruct (usb_packet_copy _ _ _ _) as [[p3 d3]|f]; cbn [mbind result_mbind result_bind].
  - destruct Hc as [(P1 & P2 & P3 & P4) Hl]. cbn in P1, P2, P3.
    split; [split; cbn; rewrite ?Hl; done|split_and!; congruence].
  - destruct Hc as [what ->]. apply Hf.
Qed.

Lemma do_token_in_ok s p : usb_inv s -> packet_ok p -> ep_nr p = 0 -> pid p = USB_TOKEN_IN ->
  step_ok s p (do_token_in s p).
Proof.
  intros Hs Hok He Hp. unfold do_token_in, check. rewrite He. cbn [Z.eqb mbind result_mbind result_bind].
  assert (0 <= actual_length p) as Ha by (destruct Hok as (_ & _ & ->); done).
  assert (returned p (p <| status := USB_RET_STALL |>)) as Hst by by split_and!.
  assert (returned p p) as Hrefl by by split_and!.
  destruct (setup_state s); try (by split); destruct (dir_in (setup_buf s)); cbn [negb]; try (by split).
  - destruct (data_stage_inv s p Hs Hok (or_introl Hp)) as (s' & p' & -> & H1 & H2). by split.
  - by split; [apply inv_state|].
  - apply step_ok_request; [done..|]. intros s' p' Hs' Hr' _.
    destruct (status p' =? USB_RET_ASYNC); [by split|]. split; [by apply inv_state|].
    by destruct Hr' as (? & ? & ? & ?).
Qed.

Lemma do_token_out_ok s p : usb_inv s -> packet_ok p -> ep_nr p = 0 -> pid p = USB_TOKEN_OUT ->
  step_ok s p (do_token_out s p).
Proof.
  intros Hs Hok He Hp. unfold do_token_out, check. rewrite He. cbn [Z.eqb mbind result_mbind result_bind].
  assert (0 <= actual_length p) as Ha by (destruct Hok as (_ & _ & ->); done).
  assert (returned p (p <| status := USB_RET_STALL |>)) as Hst by by split_and!.
  assert (returned p p) as Hrefl by by split_and!.
  destruct (setup_state s); try (by split); destruct (dir_in (setup_buf s)); cbn [negb]; try (by split).
  - by split; [apply inv_state|].
  - destruct (data_stage_inv s p Hs Hok (or_intror Hp)) as (s' & p' & -> & H1 & H2). by split.
  - by split; [apply inv_state|].
Qed.

End Safety.

(** ** Transfers deliver their data *)

Section Transfers.
Context {D : Type} `{!USBDeviceClass D}.
Implicit Types (s : USBDevice D) (c : list Z).

Definition SETUP (setup : list Z) : USBPacket := usb_packet_setup USB_TOKEN_SETUP 0 setup.
Definition OUT c : USBPacket := usb_packet_setup USB_TOKEN_OUT 0 c.
Definition IN c : USBPacket := usb_packet_setup USB_TOKEN_IN 0 c.

(** A packet that was transferred in full, and what the host received in one. *)
Definition complete (p : USBPacket) : USBPacket := p <| actual_length := iov_size p |>.
Definition received (p : USBPacket) : list Z := take (Z.to_nat (actual_length p)) (iov p).

(** How far the data stage is. *)
Definition stage_at (n i : Z) : setup_stage := if n <=? i then SETUP_STATE_ACK else SETUP_STATE_DATA.

Lemma process_app l1 l2 s : process_all s (l1 ++ l2) =
  ('(s, ps) ← process_all s l1; '(s, qs) ← process_all s l2; Ok (s, ps ++ qs)).
Proof.
  revert s. induction l1 as [|p l1 IH]; intros s; cbn [process_all app].
  - cbn [mbind result_mbind result_bind]. by destruct (process_all s l2) as [[]|].
  - destruct (usb_process_one s p) as [[s1 p1]|]; cbn [mbind result_mbind result_bind]; [|done].
    rewrite IH. destruct (process_all s1 l1) as [[s2 ps]|]; cbn [mbind result_mbind result_bind]; [|done].
    by destruct (process_all s2 l2) as [[]|].
Qed.

Lemma process_setup s c : usb_process_one s (SETUP c) = do_token_setup s (SETUP c).
Proof. done. Qed.
Lemma process_in s c : usb_process_one s (IN c) = do_token_in s (IN c).
Proof. done. Qed.
Lemma process_out s c : usb_process_one s (OUT c) = do_token_out s (OUT c).
Proof. done. Qed.

Lemma out_packet c d pre rest b n (i := Z.of_nat (length pre)) :
  dir_in b = false -> i + Z.of_nat (length c) <= n -> n <= SIZEOF_DATA_BUF ->
  Z.of_nat (length (pre ++ rest)) = SIZEOF_DATA_BUF ->
  usb_process_one (mkDevice b (pre ++ rest) (stage_at n i) n i d) (OUT c) =
    Ok (mkDevice b ((pre ++ c) ++ drop (length c) rest) (stage_at n (i + Z.of_nat (length c))) n
          (i + Z.of_nat (length c)) d, complete (OUT c)).
Proof.
  intros Hdir Hn Hmax Hlen. rewrite length_app in Hlen. rewrite process_out. unfold do_token_out, check.
  change (ep_nr (OUT c) =? 0) with true. cbn [mbind result_mbind result_bind setup_state setup_buf].
  unfold stage_at at 1. destruct (Z.leb_spec n i) as [Hi|Hi].
  - assert (c = []) as -> by (destruct c; [done|cbn in Hn; lia]). rewrite Hdir, drop_0, app_nil_r.
    cbn [length]. rewrite Z.add_0_r. unfold stage_at. by rewrite (proj2 (Z.leb_le n i)).
  - rewrite Hdir. cbn [negb]. unfold data_stage. cbn [setup_len setup_index data_buf].
    change (iov_size (OUT c)) with (Z.of_nat (length c)).
    rewrite u64_id by (unfold is_u64, SIZEOF_DATA_BUF in *; lia).
    assert ((if Z.of_nat (length c) <? n - i then Z.of_nat (length c) else n - i) = Z.of_nat (length c)) as ->
      by (destruct (Z.ltb_spec (Z.of_nat (length c)) (n - i)); lia).
    rewrite copy_out by (try (by right); change (iov_size (OUT c)) with (Z.of_nat (length c));
      rewrite ?length_app; try done; unfold SIZEOF_DATA_BUF in *; lia).
    cbn [mbind result_mbind result_bind]. change (iov (OUT c)) with c. unfold i.
    rewrite !Nat2Z.id, take_ge, inserts_split by (rewrite ?length_app; lia).
    rewrite take_app_length, drop_app_ge by lia.
    replace (length pre + length c - length pre)%nat with (length c) by lia. rewrite <- app_assoc.
    unfold stage_at. cbv zeta. proj_red.
    rewrite (proj2 (Z.leb_gt n (Z.of_nat (length pre)))) by lia. cbn [setup_len].
    by destruct (_ <=? _).
Qed.

Lemma out_stage cs : forall d pre rest b n (i := Z.of_nat (length pre)),
  dir_in b = false -> i + Z.of_nat (length (concat cs)) <= n -> n <= SIZEOF_DATA_BUF ->
  Z.of_nat (length (pre ++ rest)) = SIZEOF_DATA_BUF ->
  process_all (mkDevice b (pre ++ rest) (stage_at n i) n i d) (map OUT cs) =
    Ok (mkDevice b ((pre ++ concat cs) ++ drop (length (concat cs)) rest)
          (stage_at n (i + Z.of_nat (length (concat cs)))) n (i + Z.of_nat (length (concat cs))) d,
        map (fun c => complete (OUT c)) cs).
Proof.
  induction cs as [|c cs IH]; intros d pre rest b n i Hdir Hn Hmax Hlen; cbn [map process_all concat] in *.
  - by rewrite drop_0, app_nil_r, Z.add_0_r.
  - rewrite length_app, Nat2Z.inj_add in Hn.
    rewrite out_packet by (try done; fold i; lia). cbn [mbind result_mbind result_bind]. fold i.
    assert (i + Z.of_nat (length c) = Z.of_nat (length (pre ++ c))) as Hi by (rewrite length_app; lia).
    rewrite Hi, IH; [|done|rewrite <- Hi; lia|done|
      rewrite !length_app, length_drop in *; lia].
    cbn [mbind result_mbind result_bind]. rewrite <- Hi, !length_app, drop_drop, <- !app_assoc.
    by rewrite Nat2Z.inj_add, !Z.add_assoc.
Qed.

Lemma setup_copy s setup : length (setup_buf s) = 8%nat -> length setup = 8%nat ->
  usb_packet_copy (SETUP setup) (setup_buf s) 0 (iov_size (SETUP setup)) = Ok (complete (SETUP setup), setup).
Proof.
  intros H1 H2. assert (iov_size (SETUP setup) = 8) as Hs by (unfold iov_size; cbn; lia).
  rewrite copy_out by (try (by left); rewrite ?Hs; try done; lia). change (iov (SETUP setup)) with setup.
  rewrite Hs, take_ge, inserts_split, drop_ge, app_nil_r by lia. unfold complete. by rewrite Hs.
Qed.

Lemma setup_out s setup n : length (setup_buf s) = 8%nat -> length setup = 8%nat -> dir_in setup = false ->
  setup_length setup = n -> 0 <= n <= SIZEOF_DATA_BUF ->
  usb_process_one s (SETUP setup) =
    Ok (mkDevice setup (data_buf s) (stage_at n 0) n 0 (dev_state s), complete (SETUP setup)).
Proof.
  intros H1 H2 Hdir Hl Hn. rewrite process_setup. unfold do_token_setup.
  assert (iov_size (SETUP setup) = 8) as Hs by (unfold iov_size; cbn; lia).
  rewrite Hs at 1. cbn [Z.eqb negb Pos.eqb]. rewrite setup_copy by done. cbn [mbind result_mbind result_bind].
  rewrite Hl, (proj2 (Z.ltb_ge _ _)), Hdir by lia. unfold complete, stage_at. rewrite Hs. proj_red.
  assert ((n =? 0) = (n <=? 0)) as -> by (destruct (Z.eqb_spec n 0), (Z.leb_spec n 0); lia). done.
Qed.

Lemma control_out_run s setup cs h d' p' buf' (n := Z.of_nat (length (concat cs))) :
  length (setup_buf s) = 8%nat -> Z.of_nat (length (data_buf s)) = SIZEOF_DATA_BUF ->
  length setup = 8%nat -> dir_in setup = false -> setup_length setup = n -> n <= SIZEOF_DATA_BUF ->
  handle_control = Some h ->
  h (dev_state s) (IN []) (setup_request setup) (setup_value setup) (setup_windex setup) n
    (concat cs ++ drop (length (concat cs)) (data_buf s)) = Ok (d', p', buf') ->
  status p' <> USB_RET_ASYNC ->
  process_all s (SETUP setup :: map OUT cs ++ [IN []]) =
    Ok (mkDevice setup buf' SETUP_STATE_IDLE n n d',
        complete (SETUP setup) :: map (fun c => complete (OUT c)) cs ++ [p' <| actual_length := 0 |>]).
Proof.
  intros H1 H2 H3 Hdir Hl Hmax Hh Hc Hst. cbn [process_all]. rewrite (setup_out s setup n) by (done || lia).
  cbn [mbind result_mbind result_bind]. rewrite process_app.
  pose proof (out_stage cs (dev_state s) [] (data_buf s) setup n Hdir ltac:(unfold n; cbn [length]; lia) Hmax H2) as Ho.
  cbn [app length] in Ho. change (Z.of_nat 0) with 0 in Ho. rewrite Ho, Z.add_0_l. fold n.
  cbn [mbind result_mbind result_bind process_all]. rewrite process_in. unfold do_token_in, check.
  change (ep_nr (IN []) =? 0) with true. cbn [mbind result_mbind result_bind setup_state setup_buf].
  unfold stage_at. rewrite Z.leb_refl, Hdir. cbn [negb]. unfold control_request, usb_device_handle_control.
  cbn [setup_buf setup_len dev_state data_buf]. rewrite Hh, Hc. cbn [mbind result_mbind result_bind].
  by rewrite (proj2 (Z.eqb_neq _ _)).
Qed.

Lemma in_packet c b buf st n i d (k := Z.min (Z.of_nat (length c)) (n - i)) :
  dir_in b = true -> Z.of_nat (length c) < 2 ^ 31 -> Z.of_nat (length buf) = SIZEOF_DATA_BUF ->
  0 <= i <= n -> n <= SIZEOF_DATA_BUF -> st = SETUP_STATE_DATA \/ st = SETUP_STATE_ACK /\ i = n ->
  exists p', usb_process_one (mkDevice b buf st n i d) (IN c) =
      Ok (mkDevice b buf (stage_at n (i + k)) n (i + k) d, p') /\
    received p' = take (Z.to_nat k) (drop (Z.to_nat i) buf).
Proof.
  intros Hdir Hc Hb Hi Hn Hst. rewrite process_in. unfold do_token_in, check.
  change (ep_nr (IN c) =? 0) with true. cbn [mbind result_mbind result_bind setup_state setup_buf].
  destruct Hst as [-> | [-> ->]].
  - rewrite Hdir. unfold data_stage. cbn [setup_len setup_index data_buf].
    change (iov_size (IN c)) with (Z.of_nat (length c)).
    rewrite u64_id by (unfold is_u64, SIZEOF_DATA_BUF in *; lia).
    assert ((if Z.of_nat (length c) <? n - i then Z.of_nat (length c) else n - i) = k) as ->
      by (unfold k; destruct (Z.ltb_spec (Z.of_nat (length c)) (n - i)); lia).
    assert (0 <= k /\ k <= Z.of_nat (length c) /\ k <= n - i) as (Hk & Hk1 & Hk2) by lia. clearbody k.
    rewrite copy_in by (change (iov_size (IN c)) with (Z.of_nat (length c)); try done; lia).
    cbn [mbind result_mbind result_bind]. eexists. split.
    + unfold stage_at. proj_red. cbn [setup_len]. by destruct (_ <=? _).
    + unfold received. proj_red. change (iov (IN c)) with c.
      rewrite inserts_split, take_0 by (rewrite length_take, length_drop; lia). cbn [app].
      apply take_app_length'. rewrite length_take, length_drop. lia.
  - rewrite Hdir. cbn [negb]. assert (k = 0) as -> by lia. rewrite Z.add_0_r.
    exists (IN c). split; [|done]. unfold stage_at. by rewrite Z.leb_refl.
Qed.

Lemma in_stage cs : forall b buf st n i d,
  dir_in b = true -> Forall (fun c => Z.of_nat (length c) < 2 ^ 31) cs ->
  Z.of_nat (length buf) = SIZEOF_DATA_BUF -> 0 <= i <= n -> n <= SIZEOF_DATA_BUF ->
  st = SETUP_STATE_DATA \/ st = SETUP_STATE_ACK /\ i = n ->
  exists ps st' (k := Z.min (Z.of_nat (length (concat cs))) (n - i)),
    process_all (mkDevice b buf st n i d) (map IN cs) = Ok (mkDevice b buf st' n (i + k) d, ps) /\
    concat (map received ps) = take (Z.to_nat k) (drop (Z.to_nat i) buf) /\
    (cs <> [] \/ st = SETUP_STATE_ACK -> n <= i + k -> st' = SETUP_STATE_ACK).
Proof.
  induction cs as [|c cs IH]; intros b buf st n i d Hdir Hcs Hb Hi Hn Hst; cbn [map process_all concat].
  - exists [], st. cbn [length concat map]. replace (Z.min (Z.of_nat 0) (n - i)) with 0 by lia.
    rewrite Z.add_0_r. split; [done|]. split; [done|]. by intros [|].
  - apply Forall_cons in Hcs as [Hc Hcs].
    destruct (in_packet c b buf st n i d Hdir Hc Hb Hi Hn Hst) as (p' & -> & Hr).
    set (k1 := Z.min (Z.of_nat (length c)) (n - i)) in *. cbn [mbind result_mbind result_bind].
    assert (stage_at n (i + k1) = SETUP_STATE_DATA \/ stage_at n (i + k1) = SETUP_STATE_ACK /\ i + k1 = n) as Hst'.
    { unfold stage_at. destruct (Z.leb_spec n (i + k1)); [right; split; [done|lia]|by left]. }
    destruct (IH b buf (stage_at n (i + k1)) n (i + k1) d Hdir Hcs Hb ltac:(lia) Hn Hst') as (ps & st' & -> & Hps & Hack).
    cbn [mbind result_mbind result_bind]. exists (p' :: ps), st'. cbn [map concat]. rewrite Hr, Hps, length_app, Nat2Z.inj_add.
    split_and!.
    + do 3 f_equal. lia.
    + replace (Z.to_nat (i + k1)) with (Z.to_nat i + Z.to_nat k1)%nat by lia. rewrite <- drop_drop.
      rewrite take_take_drop. f_equal. lia.
    + intros _ Hle. apply Hack; [|lia]. destruct cs as [|c' cs]; [right|by left].
      cbn [concat length] in Hle. unfold stage_at. rewrite (proj2 (Z.leb_le _ _)) by lia. done.
Qed.

Lemma setup_in s setup h d' p' buf' : length (setup_buf s) = 8%nat -> length setup = 8%nat ->
  dir_in setup = true -> setup_length setup <= SIZEOF_DATA_BUF -> handle_control = Some h ->
  h (dev_state s) (SETUP setup) (setup_request setup) (setup_value setup) (setup_windex setup)
    (setup_length setup) (data_buf s) = Ok (d', p', buf') ->
  status p' = USB_RET_SUCCESS ->
  usb_process_one s (SETUP setup) =
    Ok (mkDevice setup buf' SETUP_STATE_DATA (Z.min (actual_length p') (setup_length setup)) 0 d',
        p' <| actual_length := 8 |>).
Proof.
  intros H1 H2 Hdir Hl Hh Hc Hst. rewrite process_setup. unfold do_token_setup.
  assert (iov_size (SETUP setup) = 8) as Hs by (unfold iov_size; cbn; lia).
  rewrite Hs at 1. cbn [Z.eqb negb Pos.eqb]. rewrite setup_copy by done. cbn [mbind result_mbind result_bind].
  rewrite (proj2 (Z.ltb_ge _ _)), Hdir by lia. unfold control_request, usb_device_handle_control.
  rewrite Hh. change (complete (SETUP setup) <| actual_length := 0 |>) with (SETUP setup). proj_red.
  cbn [setup_buf setup_len dev_state data_buf]. rewrite Hc. cbn [mbind result_mbind result_bind].
  rewrite Hst. cbn [Z.eqb negb USB_RET_SUCCESS USB_RET_ASYNC]. proj_red.
  destruct (Z.ltb_spec (actual_length p') (setup_length setup)) as [Hlt|Hge].
  - rewrite Z.min_l by lia. done.
  - rewrite Z.min_r by lia. done.
Qed.

Lemma control_in_run s setup cs h d' p' buf' (n := Z.min (actual_length p') (setup_length setup)) :
  length (setup_buf s) = 8%nat -> Z.of_nat (length buf') = SIZEOF_DATA_BUF ->
  length setup = 8%nat -> Forall is_u8 setup -> dir_in setup = true -> setup_length setup <= SIZEOF_DATA_BUF ->
  handle_control = Some h ->
  h (dev_state s) (SETUP setup) (setup_request setup) (setup_value setup) (setup_windex setup)
    (setup_length setup) (data_buf s) = Ok (d', p', buf') ->
  status p' = USB_RET_SUCCESS -> 0 <= actual_length p' ->
  cs <> [] -> Forall (fun c => Z.of_nat (length c) < 2 ^ 31) cs -> n <= Z.of_nat (length (concat cs)) ->
  exists s' p0 ps pz, process_all s (SETUP setup :: map IN cs ++ [OUT []]) = Ok (s', p0 :: ps ++ [pz]) /\
    concat (map received ps) = take (Z.to_nat n) buf' /\ status pz = USB_RET_SUCCESS /\
    setup_state s' = SETUP_STATE_IDLE /\ dev_state s' = d'.
Proof.
  intros H1 H2 H3 Hu Hdir Hmax Hh Hc Hst Ha Hne Hcs Hroom. cbn [process_all].
  pose proof (be_pair_range setup 7 6 Hu) as Hr. fold (setup_length setup) in Hr. unfold is_u16 in Hr.
  rewrite (setup_in s setup h d' p' buf') by done. cbn [mbind result_mbind result_bind]. fold n.
  rewrite process_app.
  destruct (in_stage cs setup buf' SETUP_STATE_DATA n 0 d' Hdir Hcs H2 ltac:(lia) ltac:(lia) (or_introl eq_refl))
    as (ps & st' & -> & Hps & Hack).
  cbn [mbind result_mbind result_bind process_all]. rewrite Hack by (try (by left); lia).
  rewrite process_out. unfold do_token_out, check. change (ep_nr (OUT []) =? 0) with true.
  cbn [mbind result_mbind result_bind setup_state setup_buf]. rewrite Hdir. cbn [mbind result_mbind result_bind].
  eexists _, _, ps, _. split; [reflexivity|]. rewrite Hps. split; [|done].
  rewrite drop_0. f_equal. lia.
Qed.

(** C18. A control transfer delivers its data, however the host cuts the data
    stage into packets.  To the device: the handler is called exactly once, with
    the request of the setup packet and the data in order, every packet is taken
    in full and the pipe is idle again.  From the device: what the host receives
    is the answer, cut to the length it asked for, and once the packets have
    room for it the status stage succeeds and the pipe is idle. *)
Theorem control_transfers_deliver s setup cs h d' p' buf' :
  length (setup_buf s) = 8%nat -> Z.of_nat (length (data_buf s)) = SIZEOF_DATA_BUF ->
  length setup = 8%nat -> Forall is_u8 setup -> setup_length setup <= SIZEOF_DATA_BUF ->
  Forall (fun c => Z.of_nat (length c) < 2 ^ 31) cs -> handle_control = Some h ->
  (dir_in setup = false -> setup_length setup = Z.of_nat (length (concat cs)) ->
   h (dev_state s) (IN []) (setup_request setup) (setup_value setup) (setup_windex setup) (setup_length setup)
     (concat cs ++ drop (length (concat cs)) (data_buf s)) = Ok (d', p', buf') ->
   status p' <> USB_RET_ASYNC ->
   process_all s (SETUP setup :: map OUT cs ++ [IN []]) =
     Ok (mkDevice setup buf' SETUP_STATE_IDLE (setup_length setup) (setup_length setup) d',
         complete (SETUP setup) :: map (fun c => complete (OUT c)) cs ++ [p' <| actual_length := 0 |>])) /\
  (dir_in setup = true -> cs <> [] -> Z.min (actual_length p') (setup_length setup) <= Z.of_nat (length (concat cs)) ->
   h (dev_state s) (SETUP setup) (setup_request setup) (setup_value setup) (setup_windex setup)
     (setup_length setup) (data_buf s) = Ok (d', p', buf') ->
   status p' = USB_RET_SUCCESS -> 0 <= actual_length p' -> Z.of_nat (length buf') = SIZEOF_DATA_BUF ->
   exists s' p0 ps pz, process_all s (SETUP setup :: map IN cs ++ [OUT []]) = Ok (s', p0 :: ps ++ [pz]) /\
     concat (map received ps) = take (Z.to_nat (Z.min (actual_length p') (setup_length setup))) buf' /\
     status pz = USB_RET_SUCCESS /\ setup_state s' = SETUP_STATE_IDLE /\ dev_state s' = d').
Proof.
  intros H1 H2 H3 Hu Hmax Hcs Hh. split.
  - intros Hdir Hl Hc Hst. rewrite Hl in Hmax, Hc |- *. by apply (control_out_run s setup cs h d' p' buf').
  - intros Hdir Hne Hroom Hc Hst Ha Hb. by apply (control_in_run s setup cs h d' p' buf').
Qed.
End Transfers.
