(* ===== verification/AxisFloat.v ===== *)
(** The conversion of an axis value of the Android front end, a single-precision
    number, to the 16-bit position xemu keeps ([android_axis_to_xemu] of
    ui/xemu-android-stubs.c).

    The theorem shows that the conversion is defined and in range for every
    number, infinities included, and undefined for NaN. *)

From Stdlib Require Import SpecFloat.
From S2P Require Import Prelude CFloat.

Definition f_32767 : spec_float := S754_finite false (32767 * 2 ^ 9) (-9).

(** The integer part of a finite number. *)
Definition f_trunc (m : positive) (e : Z) : Z := if 0 <=? e then Zpos m * 2 ^ e else Zpos m / 2 ^ (- e).

(** The cast [(int16_t)f], undefined for a value that does not fit. *)
Definition int16_of_float (f : spec_float) : result Z :=
  match f with
  | S754_zero _ => Ok 0
  | S754_finite sign m e =>
      let v := if sign then - f_trunc m e else f_trunc m e in
      if (-32768 <=? v) && (v <=? 32767) then Ok v else Fault BadCast
  | _ => Fault BadCast
  end.

Definition android_axis_to_xemu (ax : Z) (value : spec_float) : result Z :=
  if (ax =? 0) || (ax =? 1) then
    let value := if SFltb value f_zero then f_zero else if SFltb f_one value then f_one else value in
    int16_of_float (f_mul value f_32767)
  else
    let value := if SFltb value f_minus_one then f_minus_one else if SFltb f_one value then f_one else value in
    if SFleb value f_minus_one then Ok (-32768) else int16_of_float (f_mul value f_32767).

(** ** Rounding does not leave the range *)

Lemma digits_range m : 2 ^ (Zpos (digits2_pos m) - 1) <= Zpos m < 2 ^ Zpos (digits2_pos m).
Proof.
  induction m as [m IH|m IH|]; cbn [digits2_pos]; [| |done];
    rewrite Pos2Z.inj_succ, Z.sub_succ_l; unfold Z.pred in *;
    set (d := Zpos (digits2_pos m)) in *; assert (1 <= d) as Hd by (unfold d; lia); clearbody d;
    (replace (Z.succ (d - 1)) with (Z.succ (d - 1)) by lia);
    rewrite !Z.pow_succ_r by lia; lia.
Qed.

(** What [k] single shifts leave: the quotient, and whether something was lost. *)
Definition shifted (m k : Z) (r : shr_record) : Prop :=
  shr_m r = m / 2 ^ k /\ (shr_r r || shr_s r = false <-> m mod 2 ^ k = 0).

Lemma shr_1_shifted m k r : 0 <= m -> 0 <= k -> shifted m k r -> shifted m (k + 1) (shr_1 r).
Proof.
  intros Hm Hk [Hq He]. destruct r as [q b s]. cbn in Hq, He. subst q.
  assert (0 < 2 ^ k) as H2 by lia. assert (0 <= m / 2 ^ k) as Hq by (apply Z.div_pos; lia).
  pose proof (Z.div_mod m (2 ^ k) ltac:(lia)) as Hdm.
  unfold shifted. rewrite Z.pow_add_r, <- Z.div_div by lia. change (2 ^ 1) with 2.
  rewrite Z.rem_mul_r by lia.
  pose proof (Z.mod_pos_bound m (2 ^ k) H2) as Hx.
  set (q := m / 2 ^ k) in *. set (x := m mod 2 ^ k) in *. clearbody q x. set (y := 2 ^ k) in *. clearbody y.
  assert (forall bit : bool, (bit || (b || s) = false <-> x + y * Z.b2z bit = 0)) as Hbit.
  { intros []; cbn [orb Z.b2z]; [split; [done|lia]|]. rewrite He. lia. }
  destruct q as [|[q|q|]|]; [..|lia]; cbn [shr_1 shr_m shr_r shr_s];
    [specialize (Hbit false)|specialize (Hbit true)|specialize (Hbit false)|specialize (Hbit true)];
    rewrite Zmod_odd; (split; [rewrite <- Z.div2_div; done|exact Hbit]).
Qed.

Lemma iter_shifted p : forall m k r, 0 <= m -> 0 <= k -> shifted m k r -> shifted m (k + Zpos p) (SpecFloat.iter_pos shr_1 p r).
Proof.
  induction p as [p IH|p IH|]; intros m k r Hm Hk Hr; cbn [SpecFloat.iter_pos].
  - replace (k + Zpos p~1) with (k + 1 + Zpos p + Zpos p) by lia. apply IH; [done|lia|]. apply IH; [done|lia|].
    by apply shr_1_shifted.
  - replace (k + Zpos p~0) with (k + Zpos p + Zpos p) by lia. apply IH; [done|lia|]. by apply IH.
  - by apply shr_1_shifted.
Qed.

(** Rounding to the format, for a number below 2^15 with many bits: [m] and [e]
    with [m * 2^e <= 32767]. *)
Lemma shr_fexp_bound m e : 0 <= m -> e <= 0 -> m <= 32767 * 2 ^ (- e) ->
  exists r e', shr_fexp 24 128 m e loc_Exact = (r, e') /\ e <= e' <= Z.max e (-9) /\ shifted m (e' - e) r.
Proof.
  intros Hm He Hb. unfold shr_fexp. cbn [shr_record_of_loc].
  assert (shifted m 0 (Build_shr_record m false false)) as H0.
  { split; cbn; [by rewrite Z.div_1_r|by rewrite Z.mod_1_r]. }
  set (n := fexp 24 128 (Zdigits2 m + e) - e). destruct n as [|p|p] eqn:En; cbn [shr].
  - exists (Build_shr_record m false false), e. by rewrite Z.sub_diag; split_and!; try lia.
  - eexists _, _. split; [done|]. split.
    + unfold n, fexp, emin in En. destruct m as [|m|]; [cbn in En; lia| |lia]. cbn [Zdigits2] in En.
      pose proof (digits_range m) as [Hd _]. set (d := Zpos (digits2_pos m)) in *.
      assert (d - 1 < 15 - e) as Hlt; [|lia].
      apply (Z.pow_lt_mono_r_iff 2); [lia|lia|]. replace (15 - e) with (15 + - e) by lia.
      rewrite Z.pow_add_r by lia. change (2 ^ 15) with 32768. nia.
    + replace (e + Zpos p - e) with (0 + Zpos p) by lia. by apply iter_shifted.
  - exists (Build_shr_record m false false), e. by rewrite Z.sub_diag; split_and!; try lia.
Qed.

Lemma round_bound sign m e : 0 <= m -> e <= -9 -> m <= 32767 * 2 ^ (- e) ->
  exists x, int16_of_float (binary_round_aux 24 128 sign m e loc_Exact) = Ok x /\ -32767 <= x <= 32767 /\
    (sign = false -> 0 <= x).
Proof.
  intros Hm He Hb. unfold binary_round_aux.
  destruct (shr_fexp_bound m e Hm ltac:(lia) Hb) as (r1 & e1 & -> & He1 & Hq & Hx).
  set (q := round_nearest_even _ _).
  assert (0 <= q <= 32767 * 2 ^ (- e1)) as Hqb.
  { assert (m / 2 ^ (e1 - e) <= q <= m / 2 ^ (e1 - e) + 1 /\ (shr_r r1 || shr_s r1 = false -> q = m / 2 ^ (e1 - e))) as [Hq1 Hq2].
    { rewrite <- Hq. unfold q. destruct r1 as [k [] []]; cbn; repeat case_match; split; try done; lia. }
    assert (0 < 2 ^ (e1 - e)) as H2 by lia. pose proof (Z.div_pos m _ Hm H2) as Hp.
    pose proof (Z.div_mod m (2 ^ (e1 - e)) ltac:(lia)) as Hdm. pose proof (Z.mod_pos_bound m _ H2) as Hmod.
    replace (2 ^ (- e)) with (2 ^ (- e1) * 2 ^ (e1 - e)) in Hb by (rewrite <- Z.pow_add_r by lia; f_equal; lia).
    split; [lia|]. destruct (Z.eq_dec (m mod 2 ^ (e1 - e)) 0) as [E|E].
    - rewrite (Hq2 (proj2 Hx E)). nia.
    - nia. }
  clearbody q. destruct (shr_fexp_bound q e1 ltac:(lia) ltac:(lia) ltac:(lia)) as (r2 & e2 & -> & He2 & Hq2 & _).
  assert (0 <= shr_m r2 <= 32767 * 2 ^ (- e2)) as Hr2.
  { rewrite Hq2. assert (0 < 2 ^ (e2 - e1)) as H2 by lia. split; [apply Z.div_pos; lia|].
    apply Z.div_le_upper_bound; [done|]. rewrite (Z.mul_comm (2 ^ _)), <- Z.mul_assoc, <- Z.pow_add_r by lia.
    replace (- e2 + (e2 - e1)) with (- e1) by lia. lia. }
  destruct (shr_m r2) as [|k|k]; [by exists 0|..|lia].
  rewrite (proj2 (Z.leb_le e2 _)) by lia. cbn [int16_of_float]. unfold f_trunc.
  rewrite (proj2 (Z.leb_gt 0 e2)) by lia.
  assert (0 <= Zpos k / 2 ^ (- e2) <= 32767) as Hk.
  { split; [apply Z.div_pos; lia|]. apply Z.div_le_upper_bound; lia. }
  set (x := Zpos k / 2 ^ (- e2)) in *. clearbody x.
  exists (if sign then - x else x). destruct sign; rewrite !(proj2 (Z.leb_le _ _)) by lia; split_and!; try done; lia.
Qed.

(** A finite number of magnitude at most one, times 32767. *)
Definition small (f : spec_float) : Prop :=
  match f with
  | S754_zero _ => True
  | S754_finite _ m e => e <= -23 /\ Zpos m <= 2 ^ (- e)
  | _ => False
  end.

Definition negative (f : spec_float) : bool := match f with S754_finite s _ _ => s | _ => false end.

Lemma mul_bound f : small f -> exists x, int16_of_float (f_mul f f_32767) = Ok x /\ -32767 <= x <= 32767 /\
  (negative f = false -> 0 <= x).
Proof.
  destruct f as [s| | |s m e]; [by exists 0|done..|]. intros [He Hm].
  change (f_mul (S754_finite s m e) f_32767) with
    (binary_round_aux 24 128 (xorb s false) (Zpos (m * (32767 * 2 ^ 9))) (e + -9) loc_Exact).
  rewrite xorb_false_r. apply round_bound; [lia|lia|].
  replace (- (e + -9)) with (- e + 9) by lia. rewrite Z.pow_add_r, Pos2Z.inj_mul by lia.
  change (2 ^ 9) with 512. change (Zpos (32767 * 2 ^ 9)) with (32767 * 512). lia.
Qed.

(** Numbers between minus one and one. *)
Lemma clamp_small f : valid_binary 24 128 f = true -> f <> S754_nan ->
  SFltb f f_minus_one = false -> SFltb f_one f = false -> small f.
Proof.
  intros Hv Hn Hlo Hhi. destruct f as [s|[]| |s m e]; try done.
  unfold valid_binary, bounded in Hv. apply andb_true_iff in Hv as [Hc _]. apply Z.eqb_eq in Hc.
  pose proof (digits_range m) as [_ Hd]. set (d := Zpos (digits2_pos m)) in *.
  assert (d <= 24) as Hd24 by (unfold fexp, emin in Hc; lia).
  assert (Zpos m < 2 ^ 24) as Hm.
  { apply (Z.lt_le_trans _ (2 ^ d)); [done|]. apply Z.pow_le_mono_r; lia. }
  assert (e < -23 \/ e = -23 /\ Zpos m <= 2 ^ 23) as [He|[-> He]].
  { clear Hc Hd. change (2 ^ 23) with (Zpos (2 ^ 23)). destruct s; [unfold SFltb, f_minus_one in Hlo; cbn [SFcompare] in Hlo|
      unfold SFltb, f_one in Hhi; cbn [SFcompare] in Hhi].
    - set (b := (2 ^ 23)%positive) in *. clearbody b. destruct (Z.compare_spec e (-23)) as [-> |He|He]; [|by left|done].
      right. split; [done|]. change (Pos.compare_cont Eq m b) with (Pos.compare m b) in Hlo.
      destruct (Pos.compare_spec m b); cbn in Hlo; try done; lia.
    - set (b := (2 ^ 23)%positive) in *. clearbody b. destruct (Z.compare_spec (-23) e) as [<-|He|He]; [|done|by left].
      right. split; [done|]. change (Pos.compare_cont Eq b m) with (Pos.compare b m) in Hhi.
      destruct (Pos.compare_spec b m); cbn in Hhi; try done; lia. }
  - split; [lia|]. apply (Z.le_trans _ (2 ^ 24)); [lia|]. apply Z.pow_le_mono_r; lia.
  - split; [lia|]. done.
Qed.

(** The conversion of an axis is defined and in range for every number,
    infinities included: a trigger gives 0 to 32767 and a stick -32768 to 32767,
    with the end points where they belong.  A NaN reaches the cast to an integer,
    which is undefined. *)
Theorem axis_conversion_range ax v : valid_binary 24 128 v = true -> v <> S754_nan ->
  (exists x, android_axis_to_xemu ax v = Ok x /\ -32768 <= x <= 32767 /\ (ax = 0 \/ ax = 1 -> 0 <= x)) /\
  android_axis_to_xemu ax f_one = Ok 32767 /\ android_axis_to_xemu ax f_zero = Ok 0 /\
  android_axis_to_xemu ax f_minus_one = Ok (if (ax =? 0) || (ax =? 1) then 0 else -32768) /\
  android_axis_to_xemu ax S754_nan = Fault BadCast.
Proof.
  intros Hv Hn. split; [|by unfold android_axis_to_xemu; destruct (_ || _); vm_compute].
  unfold android_axis_to_xemu. destruct ((ax =? 0) || (ax =? 1)) eqn:Ex.
  - set (w := if SFltb v f_zero then _ else _).
    assert (small w /\ negative w = false) as [Hs Hneg].
    { unfold w. destruct (SFltb v f_zero) eqn:E0; [done|]. destruct (SFltb f_one v) eqn:E1; [by split|].
      assert (negative v = false) as Hneg by (destruct v as [|[]| |[]]; done).
      split; [|done]. apply clamp_small; try done. by destruct v as [[]|[]| |[]]. }
    destruct (mul_bound w Hs) as (x & -> & Hx & Hp). exists x. split; [done|]. split; [lia|by auto].
  - set (w := if SFltb v f_minus_one then _ else _).
    assert (small w) as Hs.
    { unfold w. destruct (SFltb v f_minus_one) eqn:E0; [done|]. destruct (SFltb f_one v) eqn:E1; [done|]. by apply clamp_small. }
    apply orb_false_iff in Ex as [E0%Z.eqb_neq E1%Z.eqb_neq].
    assert (ax = 0 \/ ax = 1 -> False) as Hax by lia.
    destruct (SFleb w f_minus_one); [exists (-32768); split; [done|]; split; [done|by intros ?%Hax]|].
    destruct (mul_bound w Hs) as (x & -> & Hx & Hp). exists x. split; [done|]. split; [lia|by intros ?%Hax].
Qed.

Lemma axis_conversion_range_witness :
  exists x, android_axis_to_xemu 2 (S754_infinity true) = Ok x /\ -32768 <= x <= 32767.
Proof.
  destruct (axis_conversion_range 2 (S754_infinity true)) as [(x & H1 & H2 & _) _]; [reflexivity|discriminate|].
  by exists x.
Defined.
