(* ===== verification/XidGamepad.v ===== *)
(** Controller input from the Android front end to the guest: the key map of
    AndroidInputMapper.java, the dispatch of key events in MainActivity.java, the
    native entry points of android_backend.cpp, the input store of
    ui/xemu-android-stubs.c and the USB gamepad of hw/xbox/xid.c and
    hw/xbox/xid-gamepad.c, behind the control pipe of [UsbCore].

    Key codes are names.  Axis values are the single-precision numbers of
    [SpecFloat].  The standard requests of [usb_desc_handle_control] are a
    parameter; which requests it answers is not.  The pause overlay and the names
    of the controllers are left out.

    The theorems show that the report the guest reads is what is pressed, end to
    end, how an output report reaches the motors, which packets stop the
    emulator, and that a guest can make the device copy an output report past its
    end. *)

From Stdlib Require Import SpecFloat.
From S2P Require Import Prelude CFloat UsbCore AxisFloat.

(** ** Keys *)

Inductive KeyEvent :=
| KEYCODE_BUTTON_A | KEYCODE_BUTTON_B | KEYCODE_BUTTON_X | KEYCODE_BUTTON_Y
| KEYCODE_DPAD_LEFT | KEYCODE_DPAD_UP | KEYCODE_DPAD_RIGHT | KEYCODE_DPAD_DOWN
| KEYCODE_BUTTON_SELECT | KEYCODE_BUTTON_START | KEYCODE_BUTTON_L1 | KEYCODE_BUTTON_R1
| KEYCODE_BUTTON_THUMBL | KEYCODE_BUTTON_THUMBR | KEYCODE_BUTTON_L2 | KEYCODE_BUTTON_R2
| KEYCODE_OTHER.

#[export] Instance KeyEvent_eq_dec : EqDecision KeyEvent.
Proof. solve_decision. Defined.

Definition mapKey (keyCode : KeyEvent) : Z :=
  match keyCode with
  | KEYCODE_BUTTON_A => 0 | KEYCODE_BUTTON_B => 1 | KEYCODE_BUTTON_X => 2 | KEYCODE_BUTTON_Y => 3
  | KEYCODE_DPAD_LEFT => 4 | KEYCODE_DPAD_UP => 5 | KEYCODE_DPAD_RIGHT => 6 | KEYCODE_DPAD_DOWN => 7
  | KEYCODE_BUTTON_SELECT => 8 | KEYCODE_BUTTON_START => 9 | KEYCODE_BUTTON_L1 => 10
  | KEYCODE_BUTTON_R1 => 11 | KEYCODE_BUTTON_THUMBL => 12 | KEYCODE_BUTTON_THUMBR => 13
  | _ => -1
  end.

Definition mapTriggerKey (keyCode : KeyEvent) : Z :=
  match keyCode with KEYCODE_BUTTON_L2 => 0 | KEYCODE_BUTTON_R2 => 1 | _ => -1 end.

(** ** The input store *)

Definition CONTROLLER_BUTTON_A : Z := bit 0.
Definition CONTROLLER_BUTTON_B : Z := bit 1.
Definition CONTROLLER_BUTTON_X : Z := bit 2.
Definition CONTROLLER_BUTTON_Y : Z := bit 3.
Definition CONTROLLER_BUTTON_DPAD_LEFT : Z := bit 4.
Definition CONTROLLER_BUTTON_DPAD_UP : Z := bit 5.
Definition CONTROLLER_BUTTON_DPAD_RIGHT : Z := bit 6.
Definition CONTROLLER_BUTTON_DPAD_DOWN : Z := bit 7.
Definition CONTROLLER_BUTTON_BACK : Z := bit 8.
Definition CONTROLLER_BUTTON_START : Z := bit 9.
Definition CONTROLLER_BUTTON_WHITE : Z := bit 10.
Definition CONTROLLER_BUTTON_BLACK : Z := bit 11.
Definition CONTROLLER_BUTTON_LSTICK : Z := bit 12.
Definition CONTROLLER_BUTTON_RSTICK : Z := bit 13.
Definition CONTROLLER_AXIS__COUNT : Z := 6.

Definition android_button_map : list Z :=
  [CONTROLLER_BUTTON_A; CONTROLLER_BUTTON_B; CONTROLLER_BUTTON_X; CONTROLLER_BUTTON_Y;
   CONTROLLER_BUTTON_DPAD_LEFT; CONTROLLER_BUTTON_DPAD_UP; CONTROLLER_BUTTON_DPAD_RIGHT;
   CONTROLLER_BUTTON_DPAD_DOWN; CONTROLLER_BUTTON_BACK; CONTROLLER_BUTTON_START;
   CONTROLLER_BUTTON_WHITE; CONTROLLER_BUTTON_BLACK; CONTROLLER_BUTTON_LSTICK;
   CONTROLLER_BUTTON_RSTICK].

(** The fields of [ControllerState] the devices use. *)
Record ControllerState := mkController {
  buttons : Z;
  axis : list Z;
  rumble_l : Z;
  rumble_r : Z;
}.
#[export] Instance Controller_settable : Settable ControllerState :=
  settable! mkController < buttons ; axis ; rumble_l ; rumble_r >.

(** [bound_controllers] holds pointers into [android_controllers]: indices. *)
Record AndroidInput := mkInput {
  android_input_initialized : bool;
  android_buttons : Z;
  android_axis : list Z;
  android_controllers : list ControllerState;
  bound_controllers : list (option nat);
}.
#[export] Instance AndroidInput_settable : Settable AndroidInput :=
  settable! mkInput < android_input_initialized ; android_buttons ; android_axis ;
    android_controllers ; bound_controllers >.

Definition no_axis : list Z := repeat 0 6.
Definition empty_controller : ControllerState := mkController 0 no_axis 0 0.

Definition xemu_input_init (h : AndroidInput) : AndroidInput :=
  if android_input_initialized h then h
  else h <| android_controllers := repeat empty_controller 4 |>
         <| bound_controllers := [Some 0%nat; Some 1%nat; Some 2%nat; Some 3%nat] |>
         <| android_input_initialized := true |>.

(** A controller is passed by pointer, which may be null. *)
Definition xemu_input_update_controller (h : AndroidInput) (state : option nat) : AndroidInput :=
  match state with
  | None => h
  | Some c =>
      h <| android_controllers ::= alter (fun st =>
             if (c =? 0)%nat then st <| buttons := android_buttons h |> <| axis := android_axis h |>
             else st <| buttons := 0 |> <| axis := no_axis |>) c |>
  end.

Definition xemu_input_get_bound (h : AndroidInput) (index : Z) : AndroidInput * option nat :=
  if (index <? 0) || (4 <=? index) then (h, None)
  else
    let h := xemu_input_init h in
    (h, default None (bound_controllers h !! Z.to_nat index)).

Definition xemu_input_bind (h : AndroidInput) (index : Z) (state : option nat) : AndroidInput :=
  if (0 <=? index) && (index <? 4) then h <| bound_controllers ::= <[Z.to_nat index := state]> |> else h.

Definition xemu_android_input_set_button (h : AndroidInput) (button : Z) (pressed : bool) : AndroidInput :=
  if (button <? 0) || (Z.of_nat (length android_button_map) <=? button) then h
  else
    let mask := nth (Z.to_nat button) android_button_map 0 in
    h <| android_buttons ::= fun b => if pressed then Z.lor b mask else Z.ldiff b mask |>.

Definition xemu_android_input_reset (h : AndroidInput) : AndroidInput :=
  h <| android_buttons := 0 |> <| android_axis := no_axis |>.

(** ** Entry points *)

Definition xemu_android_input_set_axis (h : AndroidInput) (ax : Z) (value : spec_float) : result AndroidInput :=
  if (ax <? 0) || (CONTROLLER_AXIS__COUNT <=? ax) then Ok h
  else v ← android_axis_to_xemu ax value; Ok (h <| android_axis ::= <[Z.to_nat ax := v]> |>).

(** [g_axes] has eight elements and [g_buttons] sixteen; nothing reads them. *)
Definition nativeSetAxis (h : AndroidInput) (ax : Z) (value : spec_float) : result AndroidInput :=
  if (0 <=? ax) && (ax <? 8) then xemu_android_input_set_axis h ax value else Ok h.

Definition nativeSetButton (h : AndroidInput) (button : Z) (pressed : bool) : AndroidInput :=
  if (0 <=? button) && (button <? 16) then xemu_android_input_set_button h button pressed else h.

(** A key goes down or up while the emulation runs; [controller] says that it
    comes from a game controller.  The answer is whether the event was consumed;
    if not, it is left to the activity. *)
Definition dispatchKeyEvent (emulationPaused controller : bool) (h : AndroidInput) (keyCode : KeyEvent)
    (pressed : bool) : result (AndroidInput * bool) :=
  if emulationPaused && controller then Ok (h, true)
  else
    let triggerAxis := mapTriggerKey keyCode in
    if (0 <=? triggerAxis) && controller then
      h ← nativeSetAxis h triggerAxis (if pressed then f_one else f_zero); Ok (h, true)
    else
      let button := mapKey keyCode in
      if (0 <=? button) && controller then Ok (nativeSetButton h button pressed, true)
      else Ok (h, false).

(** ** The gamepad *)

Definition ClassInterfaceRequest : Z := 0xa100.
Definition ClassInterfaceOutRequest : Z := 0x2100.
Definition VendorInterfaceRequest : Z := 0xc100.
Definition ClassDeviceRequest : Z := 0xa000.
Definition EndpointOutRequest : Z := 0x0200.
Definition HID_GET_REPORT : Z := 0x01.
Definition HID_SET_REPORT : Z := 0x09.
Definition XID_GET_CAPABILITIES : Z := 0x01.
Definition USB_REQ_CLEAR_FEATURE : Z := 0x01.
Definition USB_REQ_GET_DESCRIPTOR : Z := 0x06.
Definition USB_DT_XID : Z := 0x42.
Definition XID_DEVICETYPE_GAMEPAD : Z := 0x01.
Definition XID_DEVICESUBTYPE_GAMEPAD : Z := 0x01.
Definition XID_DEVICESUBTYPE_GAMEPAD_S : Z := 0x02.
Definition GAMEPAD_A : Z := 0.
Definition GAMEPAD_B : Z := 1.
Definition GAMEPAD_X : Z := 2.
Definition GAMEPAD_Y : Z := 3.
Definition GAMEPAD_BLACK : Z := 4.
Definition GAMEPAD_WHITE : Z := 5.
Definition GAMEPAD_LEFT_TRIGGER : Z := 6.
Definition GAMEPAD_RIGHT_TRIGGER : Z := 7.
Definition GAMEPAD_DPAD_UP : Z := 8.
Definition GAMEPAD_DPAD_DOWN : Z := 9.
Definition GAMEPAD_DPAD_LEFT : Z := 10.
Definition GAMEPAD_DPAD_RIGHT : Z := 11.
Definition GAMEPAD_START : Z := 12.
Definition GAMEPAD_BACK : Z := 13.
Definition GAMEPAD_LEFT_THUMB : Z := 14.
Definition GAMEPAD_RIGHT_THUMB : Z := 15.
Definition BUTTON_MASK (button : Z) : Z := Z.shiftl 1 (button - GAMEPAD_DPAD_UP).
Definition GAMEPAD_IN_ENDPOINT_ID : Z := 2.
Definition GAMEPAD_OUT_ENDPOINT_ID : Z := 2.

(** The packed structs with their bytes as the guest sees them. *)
Record XIDDesc := mkDesc {
  desc_bLength : Z;
  bDescriptorType : Z;
  bcdXid : Z;
  bType : Z;
  bSubType : Z;
  bMaxInputReportSize : Z;
  bMaxOutputReportSize : Z;
  wAlternateProductIds : list Z;
}.
Definition desc_bytes (d : XIDDesc) : list Z :=
  [desc_bLength d; bDescriptorType d] ++ le_bytes 2 (bcdXid d) ++
  [bType d; bSubType d; bMaxInputReportSize d; bMaxOutputReportSize d] ++
  concat (map (le_bytes 2) (wAlternateProductIds d)).

Record XIDGamepadReport := mkReport {
  bReportId : Z;
  bLength : Z;
  wButtons : Z;
  bAnalogButtons : list Z;
  sThumbLX : Z;
  sThumbLY : Z;
  sThumbRX : Z;
  sThumbRY : Z;
}.
#[export] Instance Report_settable : Settable XIDGamepadReport :=
  settable! mkReport < bReportId ; bLength ; wButtons ; bAnalogButtons ; sThumbLX ; sThumbLY ;
    sThumbRX ; sThumbRY >.
Definition report_bytes (r : XIDGamepadReport) : list Z :=
  [bReportId r; bLength r] ++ le_bytes 2 (wButtons r) ++ bAnalogButtons r ++ le_bytes 2 (sThumbLX r) ++
  le_bytes 2 (sThumbLY r) ++ le_bytes 2 (sThumbRX r) ++ le_bytes 2 (sThumbRY r).

Record XIDGamepadOutputReport := mkOutput {
  report_id : Z;
  out_length : Z;
  left_actuator_strength : Z;
  right_actuator_strength : Z;
}.
Definition SIZEOF_OUT_STATE : Z := 6.
Definition output_bytes (r : XIDGamepadOutputReport) : list Z :=
  [report_id r; out_length r] ++ le_bytes 2 (left_actuator_strength r) ++ le_bytes 2 (right_actuator_strength r).
Definition output_of_bytes (l : list Z) : XIDGamepadOutputReport :=
  mkOutput (byte l 0) (byte l 1) (byte l 2 + 256 * byte l 3) (byte l 4 + 256 * byte l 5).

Record USBXIDGamepadState := mkXid {
  xid_desc : XIDDesc;
  in_state : XIDGamepadReport;
  in_state_capabilities : XIDGamepadReport;
  out_state : XIDGamepadOutputReport;
  out_state_capabilities : XIDGamepadOutputReport;
  device_index : Z;
}.
#[export] Instance Xid_settable : Settable USBXIDGamepadState :=
  settable! mkXid < xid_desc ; in_state ; in_state_capabilities ; out_state ; out_state_capabilities ;
    device_index >.

Definition desc_xid_xbox_gamepad : XIDDesc :=
  mkDesc 0x10 USB_DT_XID 0x100 XID_DEVICETYPE_GAMEPAD XID_DEVICESUBTYPE_GAMEPAD 20 6
    [0xFFFF; 0xFFFF; 0xFFFF; 0xFFFF].
Definition desc_xid_xbox_gamepad_s : XIDDesc :=
  mkDesc 0x10 USB_DT_XID 0x100 XID_DEVICETYPE_GAMEPAD XID_DEVICESUBTYPE_GAMEPAD_S 20 6
    [0xFFFF; 0xFFFF; 0xFFFF; 0xFFFF].

(** Both realize functions: the fields not assigned are zero in a new object. *)
Definition realize_with (desc : XIDDesc) (index : Z) : USBXIDGamepadState :=
  mkXid desc
    (mkReport 0 20 0 (repeat 0 8) 0 0 0 0)
    (mkReport 0 20 0xFFFF (repeat 0xFF 8) (-1) (-1) (-1) (-1))
    (mkOutput 0 6 0 0)
    (mkOutput 0 6 0xFFFF 0xFFFF) index.
Definition usb_xbox_gamepad_realize : Z -> USBXIDGamepadState := realize_with desc_xid_xbox_gamepad.
Definition usb_xbox_gamepad_s_realize : Z -> USBXIDGamepadState := realize_with desc_xid_xbox_gamepad_s.

(** *** Reports *)

Definition button_map_analog : list (Z * Z) :=
  [(GAMEPAD_A, CONTROLLER_BUTTON_A); (GAMEPAD_B, CONTROLLER_BUTTON_B); (GAMEPAD_X, CONTROLLER_BUTTON_X);
   (GAMEPAD_Y, CONTROLLER_BUTTON_Y); (GAMEPAD_BLACK, CONTROLLER_BUTTON_BLACK);
   (GAMEPAD_WHITE, CONTROLLER_BUTTON_WHITE)].

Definition button_map_binary : list (Z * Z) :=
  [(GAMEPAD_BACK, CONTROLLER_BUTTON_BACK); (GAMEPAD_START, CONTROLLER_BUTTON_START);
   (GAMEPAD_LEFT_THUMB, CONTROLLER_BUTTON_LSTICK); (GAMEPAD_RIGHT_THUMB, CONTROLLER_BUTTON_RSTICK);
   (GAMEPAD_DPAD_UP, CONTROLLER_BUTTON_DPAD_UP); (GAMEPAD_DPAD_DOWN, CONTROLLER_BUTTON_DPAD_DOWN);
   (GAMEPAD_DPAD_LEFT, CONTROLLER_BUTTON_DPAD_LEFT); (GAMEPAD_DPAD_RIGHT, CONTROLLER_BUTTON_DPAD_RIGHT)].

(** The loops of [update_input] over the buttons of a controller. *)
Definition analog_buttons (b : Z) (l : list Z) : list Z :=
  fold_left (fun l e => <[Z.to_nat e.1 := if has b e.2 then 0xff else 0]> l) button_map_analog l.
Definition binary_buttons (b : Z) : Z :=
  fold_left (fun w e => if has b e.2 then Z.lor w (BUTTON_MASK e.1) else w) button_map_binary 0.

Definition report_of (st : ControllerState) (r : XIDGamepadReport) : XIDGamepadReport :=
  let ax i := nth i (axis st) 0 in
  r <| wButtons := binary_buttons (buttons st) |>
    <| bAnalogButtons := <[Z.to_nat GAMEPAD_RIGHT_TRIGGER := u8 (Z.shiftr (ax 1%nat) 7)]>
         (<[Z.to_nat GAMEPAD_LEFT_TRIGGER := u8 (Z.shiftr (ax 0%nat) 7)]>
            (analog_buttons (buttons st) (bAnalogButtons r))) |>
    <| sThumbLX := ax 2%nat |> <| sThumbLY := ax 3%nat |> <| sThumbRX := ax 4%nat |> <| sThumbRY := ax 5%nat |>.

(** [xemu_input_get_test_mode] is 0 on Android. *)
Definition update_input (s : USBXIDGamepadState) (h : AndroidInput) : result (USBXIDGamepadState * AndroidInput) :=
  let '(h, state) := xemu_input_get_bound h (device_index s) in
  match state with
  | None => Fault (AssertFail "state")
  | Some c =>
      let h := xemu_input_update_controller h state in
      match android_controllers h !! c with
      | Some st => Ok (s <| in_state ::= report_of st |>, h)
      | None => Fault OutOfBounds
      end
  end.

Definition update_output (s : USBXIDGamepadState) (h : AndroidInput) : result AndroidInput :=
  let '(h, state) := xemu_input_get_bound h (device_index s) in
  match state with
  | None => Fault (AssertFail "state")
  | Some c =>
      Ok (h <| android_controllers ::= alter (fun st =>
            st <| rumble_l := left_actuator_strength (out_state s) |>
               <| rumble_r := right_actuator_strength (out_state s) |>) c |>)
  end.

(** *** The handlers

    The device with the host's input store, which all gamepads share, and what
    else [USBDevice] has. *)
Record Gamepad (C : Type) := mkGamepad {
  xid : USBXIDGamepadState;
  host : AndroidInput;
  usb : C;
}.
Arguments mkGamepad {C} _ _ _.
Arguments xid {C} _.
Arguments host {C} _.
Arguments usb {C} _.
#[export] Instance Gamepad_settable C : Settable (Gamepad C) :=
  settable! (@mkGamepad C) < xid ; host ; usb >.

(** The requests [usb_desc_handle_control] has a case for. *)
Definition desc_requests : list Z :=
  [0x0005; 0x8006; 0x8008; 0x0009; 0x8000; 0x0001; 0x0003; 0x0030; 0x0031; 0x810a; 0x010b; 0xc051; 0xc151].

(** What the cases of [usb_desc_handle_control] do to the rest of [USBDevice]. *)
Class UsbDesc (C : Type) := {
  desc_case : C -> USBPacket -> Z -> Z -> Z -> Z -> list Z -> result (C * USBPacket * list Z * Z);
}.

Section Gamepad.
Context {C : Type} `{!UsbDesc C}.
Implicit Types (g : Gamepad C) (p : USBPacket) (data : list Z).

Definition usb_desc_handle_control (c : C) p (request value index length : Z) data
    : result (C * USBPacket * list Z * Z) :=
  if bool_decide (request ∈ desc_requests) then desc_case c p request value index length data
  else Ok (c, p, data, -1).

(** [memcpy(data, src, n)]. *)
Definition copy_to data (src : list Z) (n : Z) : result (list Z) := x ← slice src 0 n; blit data 0 x.

Definition stall p : USBPacket := p <| status := USB_RET_STALL |>.

Definition get_report g p (value length : Z) data : result (Gamepad C * USBPacket * list Z) :=
  '(s, h) ← update_input (xid g) (host g);
  let g := g <| xid := s |> <| host := h |> in
  if value =? 0x0100 then
    if length <=? bLength (in_state s) then
      data ← copy_to data (report_bytes (in_state s)) (bLength (in_state s));
      Ok (g, p <| actual_length := length |>, data)
    else Ok (g, stall p, data)
  else Fault (AssertFail "USB XID failed to GET_REPORT").

Definition set_report g p (value length : Z) data : result (Gamepad C * USBPacket * list Z) :=
  let s := xid g in
  if value =? 0x0200 then
    '(s, p) ←
      if length =? out_length (out_state s) then
        x ← slice data 0 SIZEOF_OUT_STATE;
        let s := s <| out_state := output_of_bytes x |> in
        _ ← check (out_length (out_state s) =? SIZEOF_OUT_STATE) "s->out_state.length == sizeof(s->out_state)";
        Ok (s, p <| actual_length := length |>)
      else Ok (s, stall p);
    h ← update_output s (host g);
    Ok (g <| xid := s |> <| host := h |>, p, data)
  else Fault (AssertFail "USB XID failed to SET_REPORT").

Definition get_xid_descriptor g p (value length : Z) data : result (Gamepad C * USBPacket * list Z) :=
  let d := xid_desc (xid g) in
  if value =? 0x4200 then
    _ ← check (desc_bLength d <=? length) "s->xid_desc->bLength <= length";
    data ← copy_to data (desc_bytes d) (desc_bLength d);
    Ok (g, p <| actual_length := desc_bLength d |>, data)
  else Fault (AssertFail "USB XID failed to GET_DESCRIPTOR").

Definition get_capabilities g p (value length : Z) data : result (Gamepad C * USBPacket * list Z) :=
  let answer (src : list Z) (max : Z) :=
    let length := if max <? length then max else length in
    data ← copy_to data src length;
    Ok (g, p <| actual_length := length |>, data) in
  if value =? 0x0100 then
    answer (report_bytes (in_state_capabilities (xid g))) (bLength (in_state_capabilities (xid g)))
  else if value =? 0x0200 then
    answer (output_bytes (out_state_capabilities (xid g))) (out_length (out_state_capabilities (xid g)))
  else Fault (AssertFail "USB XID failed to GET_CAPABILITIES").

Definition usb_xid_handle_control g p (request value index length : Z) data
    : result (Gamepad C * USBPacket * list Z) :=
  '(c, p, data, ret) ← usb_desc_handle_control (usb g) p request value index length data;
  let g := g <| usb := c |> in
  if 0 <=? ret then Ok (g, p, data)
  else if request =? Z.lor ClassInterfaceRequest HID_GET_REPORT then get_report g p value length data
  else if request =? Z.lor ClassInterfaceOutRequest HID_SET_REPORT then set_report g p value length data
  else if request =? Z.lor VendorInterfaceRequest USB_REQ_GET_DESCRIPTOR then
    get_xid_descriptor g p value length data
  else if request =? Z.lor VendorInterfaceRequest XID_GET_CAPABILITIES then get_capabilities g p value length data
  else if (request =? Z.lor ClassDeviceRequest USB_REQ_GET_DESCRIPTOR)
          || (request =? Z.lor EndpointOutRequest USB_REQ_CLEAR_FEATURE) then
    data ← blit data 0 (repeat 0 (Z.to_nat length));
    Ok (g, stall p, data)
  else Fault (AssertFail "USB XID stalled on request").

Definition usb_xid_gamepad_handle_data g p : result (Gamepad C * USBPacket) :=
  if pid p =? USB_TOKEN_IN then
    if ep_nr p =? GAMEPAD_IN_ENDPOINT_ID then
      '(s, h) ← update_input (xid g) (host g);
      '(p, _) ← usb_packet_copy p (report_bytes (in_state s)) 0 (bLength (in_state s));
      Ok (g <| xid := s |> <| host := h |>, p)
    else Fault (AssertFail "Invalid GAMEPAD_IN_ENDPOINT_ID")
  else if pid p =? USB_TOKEN_OUT then
    if ep_nr p =? GAMEPAD_OUT_ENDPOINT_ID then
      '(p, b) ← usb_packet_copy p (output_bytes (out_state (xid g))) 0 (out_length (out_state (xid g)));
      let s := xid g <| out_state := output_of_bytes b |> in
      h ← update_output s (host g);
      Ok (g <| xid := s |> <| host := h |>, p)
    else Fault (AssertFail "Invalid GAMEPAD_OUT_ENDPOINT_ID")
  else Fault (AssertFail "Invalid USB pid").

#[export] Instance xid_class : USBDeviceClass (Gamepad C) := {
  handle_control := Some usb_xid_handle_control;
  handle_data := Some usb_xid_gamepad_handle_data;
}.
End Gamepad.

(** ** What is held *)

Inductive input_event :=
| Key (k : KeyEvent) (pressed : bool)
| Axis (ax : Z) (value : spec_float).

(** An event of a game controller while the emulation runs. *)
Definition deliver (h : AndroidInput) (e : input_event) : result AndroidInput :=
  match e with
  | Key k pressed => '(h, _) ← dispatchKeyEvent false true h k pressed; Ok h
  | Axis ax value => nativeSetAxis h ax value
  end.

Fixpoint deliver_all (h : AndroidInput) (l : list input_event) : result AndroidInput :=
  match l with [] => Ok h | e :: l => h ← deliver h e; deliver_all h l end.

(** The last event of a key decides whether it is held, and the last event of an
    axis where it stands; the lower shoulder keys move the trigger axes. *)
Definition held (l : list input_event) (k : KeyEvent) : bool :=
  fold_left (fun b e => match e with Key k' p => if decide (k' = k) then p else b | _ => b end) l false.

Definition moves (e : input_event) (ax : Z) : option Z :=
  match e with
  | Key k p => if mapTriggerKey k =? ax then Some (if p then 32767 else 0) else None
  | Axis a v => if a =? ax then match android_axis_to_xemu a v with Ok x => Some x | Fault _ => None end else None
  end.
Definition position (l : list input_event) (ax : Z) : Z :=
  fold_left (fun v e => default v (moves e ax)) l 0.

Definition shows (l : list input_event) (h : AndroidInput) : Prop :=
  (forall k, 0 <= mapKey k -> Z.testbit (android_buttons h) (mapKey k) = held l k) /\
  android_axis h = map (position l) [0; 1; 2; 3; 4; 5].

Lemma mapKey_range k : -1 <= mapKey k < 14.
Proof. destruct k; cbn; lia. Qed.

Lemma mapKey_inj k k' : 0 <= mapKey k -> mapKey k = mapKey k' -> k = k'.
Proof. destruct k, k'; cbn; try done; lia. Qed.

Lemma nativeSetButton_bits h k p k' : 0 <= mapKey k -> 0 <= mapKey k' ->
  Z.testbit (android_buttons (nativeSetButton h (mapKey k) p)) (mapKey k') =
    if decide (k = k') then p else Z.testbit (android_buttons h) (mapKey k').
Proof.
  intros Hk Hk'. pose proof (mapKey_range k). unfold nativeSetButton, xemu_android_input_set_button.
  rewrite (proj2 (Z.leb_le 0 _)), (proj2 (Z.ltb_lt (mapKey k) 16)), (proj2 (Z.ltb_ge _ 0)) by lia.
  change (Z.of_nat (length android_button_map)) with 14. rewrite (proj2 (Z.leb_gt 14 _)) by lia. cbn [andb orb].
  assert (nth (Z.to_nat (mapKey k)) android_button_map 0 = 2 ^ mapKey k) as -> by (destruct k; done || (cbn in Hk; lia)).
  proj_red. destruct p; [rewrite Z.lor_spec|rewrite Z.ldiff_spec]; rewrite Z.pow2_bits_eqb by lia;
    (destruct (decide (k = k')) as [->|Hne]; [rewrite Z.eqb_refl|rewrite (proj2 (Z.eqb_neq _ _)) by
      (intros E; by apply Hne, mapKey_inj)]); destruct (Z.testbit _ _); done.
Qed.

Lemma trigger_one ax : ax = 0 \/ ax = 1 -> android_axis_to_xemu ax f_one = Ok 32767 /\
  android_axis_to_xemu ax f_zero = Ok 0.
Proof. intros [-> | ->]; by vm_compute. Qed.

Lemma set_axis_shows l e h ax v x : shows l h -> 0 <= ax < 6 -> android_axis_to_xemu ax v = Ok x ->
  moves e ax = Some x -> (forall a, a <> ax -> moves e a = None) -> (forall k, held (l ++ [e]) k = held l k \/ mapKey k < 0) ->
  exists h', nativeSetAxis h ax v = Ok h' /\ shows (l ++ [e]) h'.
Proof.
  intros [Hb Ha] Hax Hv Hm Ho Hk. unfold nativeSetAxis, xemu_android_input_set_axis.
  rewrite (proj2 (Z.leb_le 0 _)), (proj2 (Z.ltb_lt ax 8)), (proj2 (Z.ltb_ge _ 0)) by lia.
  unfold CONTROLLER_AXIS__COUNT. rewrite (proj2 (Z.leb_gt 6 _)), Hv by lia. cbn [andb orb mbind result_mbind result_bind].
  eexists. split; [done|]. split.
  - intros k Hp. proj_red. destruct (Hk k) as [-> |]; [by apply Hb|lia].
  - proj_red. rewrite Ha.
    assert (forall a, position (l ++ [e]) a = if a =? ax then x else position l a) as Hpos.
    { intros a. unfold position. rewrite fold_left_app. cbn [fold_left].
      destruct (Z.eqb_spec a ax) as [-> |Hne]; [by rewrite Hm|by rewrite Ho]. }
    cbn [map]. rewrite !Hpos.
    assert (ax = 0 \/ ax = 1 \/ ax = 2 \/ ax = 3 \/ ax = 4 \/ ax = 5) as [-> |[-> |[-> |[-> |[-> | ->]]]]] by lia; done.
Qed.

Lemma position_still l e : (forall a, 0 <= a < 6 -> moves e a = None) ->
  map (position (l ++ [e])) [0; 1; 2; 3; 4; 5] = map (position l) [0; 1; 2; 3; 4; 5].
Proof.
  intros Hm. assert (forall a, 0 <= a < 6 -> position (l ++ [e]) a = position l a) as Hpos.
  { intros a Hr. unfold position. rewrite fold_left_app. cbn [fold_left]. by rewrite Hm. }
  cbn [map]. by rewrite !Hpos by lia.
Qed.

Lemma nativeSetButton_axis h b p : android_axis (nativeSetButton h b p) = android_axis h.
Proof. unfold nativeSetButton, xemu_android_input_set_button. by repeat case_match. Qed.

Lemma shows_still l e h : shows l h -> (forall k, 0 <= mapKey k -> held (l ++ [e]) k = held l k) ->
  (forall a, 0 <= a < 6 -> moves e a = None) -> shows (l ++ [e]) h.
Proof.
  intros [Hb Ha] Hk Hm. split; [intros k Hp; rewrite Hk by done; by apply Hb|]. by rewrite position_still.
Qed.

Lemma held_snoc l k p k' : held (l ++ [Key k p]) k' = if decide (k = k') then p else held l k'.
Proof. unfold held. by rewrite fold_left_app. Qed.
Lemma held_axis l a v k : held (l ++ [Axis a v]) k = held l k.
Proof. unfold held. by rewrite fold_left_app. Qed.

Lemma key_shows l k p h : shows l h -> exists h', deliver h (Key k p) = Ok h' /\ shows (l ++ [Key k p]) h'.
Proof.
  intros Hs. cbn [deliver]. unfold dispatchKeyEvent. cbn [andb]. rewrite !andb_true_r.
  destruct (Z.leb_spec 0 (mapTriggerKey k)) as [Ht|Ht].
  - assert (mapTriggerKey k = 0 \/ mapTriggerKey k = 1) as Hax by (destruct k; cbn in *; lia).
    destruct (trigger_one _ Hax) as [H1 H0].
    destruct (set_axis_shows l (Key k p) h (mapTriggerKey k) (if p then f_one else f_zero) (if p then 32767 else 0))
      as (h' & -> & Hs'); [done|lia|by destruct p|..].
    + cbn. by rewrite Z.eqb_refl.
    + intros a Ha. cbn. by rewrite (proj2 (Z.eqb_neq _ _)) by congruence.
    + intros k'. rewrite held_snoc. destruct (decide (k = k')) as [<-|]; [right|by left]. destruct k; cbn in *; lia.
    + by exists h'.
  - assert (forall a, 0 <= a < 6 -> moves (Key k p) a = None) as Hm.
    { intros a Ha. cbn. by rewrite (proj2 (Z.eqb_neq _ _)) by lia. }
    destruct (Z.leb_spec 0 (mapKey k)) as [Hk|Hk]; cbn [mbind result_mbind result_bind]; eexists; (split; [done|]).
    + destruct Hs as [Hb Ha]. split; [|by rewrite nativeSetButton_axis, position_still].
      intros k' Hk'. rewrite held_snoc, nativeSetButton_bits by done. destruct (decide (k = k')); [done|by apply Hb].
    + apply shows_still; [done| |done]. intros k' Hk'. rewrite held_snoc.
      destruct (decide (k = k')) as [<-|]; [lia|done].
Qed.

Lemma deliver_shows l e h h' : shows l h -> deliver h e = Ok h' -> shows (l ++ [e]) h'.
Proof.
  intros Hs Hd. destruct e as [k p|a v].
  - destruct (key_shows l k p h Hs) as (h1 & E & H1). congruence.
  - cbn [deliver] in Hd. destruct (decide (0 <= a < 6)) as [Hr|Hr].
    + destruct (android_axis_to_xemu a v) as [x|f] eqn:E.
      * destruct (set_axis_shows l (Axis a v) h a v x) as (h1 & E1 & H1); [done..| | | |congruence].
        -- cbn. by rewrite Z.eqb_refl, E.
        -- intros b Hb. cbn. by rewrite (proj2 (Z.eqb_neq _ _)) by congruence.
        -- intros k. left. apply held_axis.
      * unfold nativeSetAxis, xemu_android_input_set_axis, CONTROLLER_AXIS__COUNT in Hd.
        rewrite (proj2 (Z.leb_le 0 _)), (proj2 (Z.ltb_lt a 8)), (proj2 (Z.ltb_ge _ 0)), (proj2 (Z.leb_gt 6 _)), E in Hd by lia.
        done.
    + assert (h' = h) as ->.
      { unfold nativeSetAxis, xemu_android_input_set_axis, CONTROLLER_AXIS__COUNT in Hd.
        destruct (Z.leb_spec 0 a), (Z.ltb_spec a 8); cbn [andb] in Hd; try congruence.
        rewrite (proj2 (Z.leb_le 6 a)), orb_true_r in Hd by lia. congruence. }
      apply shows_still; [done|intros; apply held_axis|].
      intros b Hb. cbn. by rewrite (proj2 (Z.eqb_neq _ _)) by lia.
Qed.

Lemma deliver_all_shows l2 : forall l1 h h', shows l1 h -> deliver_all h l2 = Ok h' -> shows (l1 ++ l2) h'.
Proof.
  induction l2 as [|e l2 IH]; intros l1 h h' Hs Hd; cbn [deliver_all] in Hd; [injection Hd as <-; by rewrite app_nil_r|].
  destruct (deliver h e) as [h1|] eqn:E; [|done]. rewrite cons_middle, app_assoc.
  apply (IH _ h1); [by apply (deliver_shows _ _ h)|done].
Qed.

Lemma reset_shows h : shows [] (xemu_android_input_reset h).
Proof. split; [intros k _; by rewrite Z.bits_0|done]. Qed.

(** Events of the front end leave the controllers and their ports alone. *)
Definition wiring (h : AndroidInput) : bool * list ControllerState * list (option nat) :=
  (android_input_initialized h, android_controllers h, bound_controllers h).

Lemma set_axis_wiring h ax v h' : nativeSetAxis h ax v = Ok h' -> wiring h' = wiring h.
Proof.
  unfold nativeSetAxis, xemu_android_input_set_axis.
  destruct ((0 <=? ax) && (ax <? 8)); [|by intros [= <-]]. destruct ((ax <? 0) || _); [by intros [= <-]|].
  destruct (android_axis_to_xemu ax v); [|done]. cbn [mbind result_mbind result_bind]. by intros [= <-].
Qed.

Lemma set_button_wiring h b p : wiring (nativeSetButton h b p) = wiring h.
Proof. unfold nativeSetButton, xemu_android_input_set_button. by repeat case_match. Qed.

Lemma deliver_wiring h e h' : deliver h e = Ok h' -> wiring h' = wiring h.
Proof.
  destruct e as [k p|a v]; cbn [deliver]; [|apply set_axis_wiring]. unfold dispatchKeyEvent. cbn [andb].
  destruct (_ && _); [|destruct (_ && _); cbn; intros [= <-]; [apply set_button_wiring|done]].
  destruct (nativeSetAxis _ _ _) as [h1|] eqn:E; cbn; [|done]. intros [= <-]. by apply set_axis_wiring in E.
Qed.

Lemma deliver_all_wiring l : forall h h', deliver_all h l = Ok h' -> wiring h' = wiring h.
Proof.
  induction l as [|e l IH]; intros h h' Hd; cbn [deliver_all] in Hd; [by injection Hd as <-|].
  destruct (deliver h e) as [h1|] eqn:E; [|done]. apply IH in Hd. rewrite Hd. by apply (deliver_wiring h e).
Qed.

(** Ports hold controllers that exist. *)
Definition host_ok (h : AndroidInput) : Prop :=
  android_input_initialized h = true ->
  length (android_controllers h) = 4%nat /\ length (bound_controllers h) = 4%nat /\
  Forall (fun o => match o with Some c => (c < 4)%nat | None => True end) (bound_controllers h).

Lemma get_bound_ok h i : host_ok h -> match xemu_input_get_bound h i with
  | (h', o) => host_ok h' /\ (forall c, o = Some c -> is_Some (android_controllers h' !! c)) /\
      android_buttons h' = android_buttons h /\ android_axis h' = android_axis h
  end.
Proof.
  intros Hh. unfold xemu_input_get_bound. destruct (_ || _); [done|].
  assert (host_ok (xemu_input_init h) /\ android_input_initialized (xemu_input_init h) = true /\
    android_buttons (xemu_input_init h) = android_buttons h /\ android_axis (xemu_input_init h) = android_axis h)
    as (Hi & Hin & Hb & Ha).
  { unfold xemu_input_init. destruct (android_input_initialized h) eqn:E; [done|].
    split_and!; try done. intros _. split_and!; try done. repeat constructor; cbn; lia. }
  split; [done|]. split; [|done]. intros c Hc. destruct (Hi Hin) as (H1 & H2 & H3).
  destruct (bound_controllers _ !! _) as [o|] eqn:E; [|done]. cbn in Hc. subst o.
  apply lookup_lt_is_Some. rewrite H1. by apply (Forall_lookup_1 _ _ _ _ H3 E).
Qed.

Lemma update_controller_ok h c st : host_ok h -> android_controllers h !! c = Some st ->
  host_ok (xemu_input_update_controller h (Some c)) /\
  exists st', android_controllers (xemu_input_update_controller h (Some c)) !! c = Some st' /\
    (c = O -> buttons st' = android_buttons h /\ axis st' = android_axis h).
Proof.
  intros Hh Hc. cbn [xemu_input_update_controller]. split.
  - intros Hi. destruct (Hh Hi) as (H1 & H2 & H3). proj_red. by rewrite length_alter.
  - proj_red. rewrite list_lookup_alter, Hc, decide_True by done. eexists. split; [done|]. by intros ->.
Qed.

Definition gamepad_ok (s : USBXIDGamepadState) : Prop :=
  bReportId (in_state s) = 0 /\ bLength (in_state s) = 20 /\ length (bAnalogButtons (in_state s)) = 8%nat /\
  in_state_capabilities s = mkReport 0 20 0xFFFF (repeat 0xFF 8) (-1) (-1) (-1) (-1) /\
  out_state_capabilities s = mkOutput 0 6 0xFFFF 0xFFFF /\
  (xid_desc s = desc_xid_xbox_gamepad \/ xid_desc s = desc_xid_xbox_gamepad_s) /\
  is_u8 (out_length (out_state s)).

Lemma length_analog b l : length (analog_buttons b l) = length l.
Proof. unfold analog_buttons. cbn. by rewrite !length_insert. Qed.

Lemma length_report_of st r : length (bAnalogButtons (report_of st r)) = length (bAnalogButtons r).
Proof. unfold report_of. proj_red. by rewrite !length_insert, length_analog. Qed.

Lemma update_input_ok s h : gamepad_ok s -> host_ok h ->
  match update_input s h with
  | Ok (s', h') => gamepad_ok s' /\ host_ok h' /\ out_state s' = out_state s /\ device_index s' = device_index s
  | Fault f => f = AssertFail "state" /\ (xemu_input_get_bound h (device_index s)).2 = None
  end.
Proof.
  intros Hs Hh. unfold update_input. pose proof (get_bound_ok h (device_index s) Hh) as Hb.
  destruct (xemu_input_get_bound h (device_index s)) as [h1 [c|]]; [|done]. destruct Hb as (Hh1 & Hc & _).
  destruct (Hc c eq_refl) as [st Hst]. destruct (update_controller_ok h1 c st Hh1 Hst) as (Hh2 & st' & -> & _).
  destruct Hs as (G1 & G2 & G3 & G4 & G5 & G6 & G7). split_and!; try done.
  unfold gamepad_ok. proj_red. by rewrite length_report_of.
Qed.

Lemma length_report s : gamepad_ok s -> length (report_bytes (in_state s)) = 20%nat.
Proof.
  intros (_ & _ & H & _). unfold report_bytes. rewrite !length_app, !length_le_bytes, H. done.
Qed.

(** ** The report *)

Definition full (b : bool) : Z := if b then 0xff else 0.

(** The twenty bytes of a gamepad report, from what is held and where the axes
    stand. *)
Definition expected_report (l : list input_event) : list Z :=
  let d k := Z.b2z (held l k) in
  [0; 20;
   d KEYCODE_DPAD_UP + 2 * d KEYCODE_DPAD_DOWN + 4 * d KEYCODE_DPAD_LEFT + 8 * d KEYCODE_DPAD_RIGHT +
     16 * d KEYCODE_BUTTON_START + 32 * d KEYCODE_BUTTON_SELECT + 64 * d KEYCODE_BUTTON_THUMBL +
     128 * d KEYCODE_BUTTON_THUMBR; 0;
   full (held l KEYCODE_BUTTON_A); full (held l KEYCODE_BUTTON_B); full (held l KEYCODE_BUTTON_X);
   full (held l KEYCODE_BUTTON_Y); full (held l KEYCODE_BUTTON_R1); full (held l KEYCODE_BUTTON_L1);
   u8 (Z.shiftr (position l 0) 7); u8 (Z.shiftr (position l 1) 7)] ++
  le_bytes 2 (position l 2) ++ le_bytes 2 (position l 3) ++ le_bytes 2 (position l 4) ++ le_bytes 2 (position l 5).

Lemma shows_has l h k mask : shows l h -> 0 <= mapKey k -> mask = bit (mapKey k) ->
  has (android_buttons h) mask = held l k.
Proof. intros [Hb _] Hk ->. rewrite has_bit by done. by apply Hb. Qed.

Lemma binary_expected l h : shows l h -> binary_buttons (android_buttons h) =
  Z.b2z (held l KEYCODE_DPAD_UP) + 2 * Z.b2z (held l KEYCODE_DPAD_DOWN) + 4 * Z.b2z (held l KEYCODE_DPAD_LEFT) +
  8 * Z.b2z (held l KEYCODE_DPAD_RIGHT) + 16 * Z.b2z (held l KEYCODE_BUTTON_START) +
  32 * Z.b2z (held l KEYCODE_BUTTON_SELECT) + 64 * Z.b2z (held l KEYCODE_BUTTON_THUMBL) +
  128 * Z.b2z (held l KEYCODE_BUTTON_THUMBR).
Proof.
  intros Hs. pose proof (fun k mask => shows_has l h k mask Hs) as H. unfold binary_buttons, button_map_binary. cbn [fold_left fst snd].
  rewrite (H KEYCODE_BUTTON_SELECT CONTROLLER_BUTTON_BACK), (H KEYCODE_BUTTON_START CONTROLLER_BUTTON_START),
    (H KEYCODE_BUTTON_THUMBL CONTROLLER_BUTTON_LSTICK), (H KEYCODE_BUTTON_THUMBR CONTROLLER_BUTTON_RSTICK),
    (H KEYCODE_DPAD_UP CONTROLLER_BUTTON_DPAD_UP), (H KEYCODE_DPAD_DOWN CONTROLLER_BUTTON_DPAD_DOWN),
    (H KEYCODE_DPAD_LEFT CONTROLLER_BUTTON_DPAD_LEFT), (H KEYCODE_DPAD_RIGHT CONTROLLER_BUTTON_DPAD_RIGHT) by done.
  destruct (held l KEYCODE_DPAD_UP), (held l KEYCODE_DPAD_DOWN), (held l KEYCODE_DPAD_LEFT), (held l KEYCODE_DPAD_RIGHT),
    (held l KEYCODE_BUTTON_START), (held l KEYCODE_BUTTON_SELECT), (held l KEYCODE_BUTTON_THUMBL),
    (held l KEYCODE_BUTTON_THUMBR); reflexivity.
Qed.

Lemma analog_expected l h r : shows l h -> length r = 8%nat -> exists t, length t = 2%nat /\
  analog_buttons (android_buttons h) r =
    [full (held l KEYCODE_BUTTON_A); full (held l KEYCODE_BUTTON_B); full (held l KEYCODE_BUTTON_X);
     full (held l KEYCODE_BUTTON_Y); full (held l KEYCODE_BUTTON_R1); full (held l KEYCODE_BUTTON_L1)] ++ t.
Proof.
  intros Hs Hr. pose proof (fun k mask => shows_has l h k mask Hs) as H. unfold analog_buttons, button_map_analog. cbn [fold_left fst snd].
  rewrite (H KEYCODE_BUTTON_A CONTROLLER_BUTTON_A), (H KEYCODE_BUTTON_B CONTROLLER_BUTTON_B),
    (H KEYCODE_BUTTON_X CONTROLLER_BUTTON_X), (H KEYCODE_BUTTON_Y CONTROLLER_BUTTON_Y),
    (H KEYCODE_BUTTON_R1 CONTROLLER_BUTTON_BLACK), (H KEYCODE_BUTTON_L1 CONTROLLER_BUTTON_WHITE) by done.
  do 8 (destruct r as [|? r]; [done|]). destruct r; [|done]. eexists. split; [|reflexivity]. done.
Qed.

Lemma report_expected l h st r : shows l h -> length (bAnalogButtons r) = 8%nat -> bReportId r = 0 ->
  bLength r = 20 -> buttons st = android_buttons h -> axis st = android_axis h ->
  report_bytes (report_of st r) = expected_report l.
Proof.
  intros Hs Hr Hid Hlen Hb Ha. unfold report_bytes, report_of, expected_report. proj_red.
  rewrite Hid, Hlen, Hb, (binary_expected l h Hs). destruct (analog_expected l h _ Hs Hr) as (t & Ht & ->).
  destruct t as [|t1 [|t2 [|]]]; try done. rewrite Ha, (proj2 Hs). cbn [map nth].
  set (v := (_ + 128 * _)%Z). assert (0 <= v < 256) as Hv.
  { assert (forall b, 0 <= Z.b2z b <= 1) as R by (intros []; cbn; lia).
    unfold v. repeat match goal with |- context [Z.b2z ?b] => generalize (R b); generalize (Z.b2z b); intros ? ? end.
    lia. }
  clearbody v. cbn [le_bytes app]. rewrite Z.mod_small, Z.div_small by lia. done.
Qed.

Lemma wiring_ok h h' : wiring h' = wiring h -> host_ok h -> host_ok h'.
Proof. destruct h, h'. unfold wiring, host_ok. cbn. by intros [= -> -> ->]. Qed.

Lemma wiring_port h h' i : wiring h' = wiring h -> (xemu_input_get_bound h' i).2 = (xemu_input_get_bound h i).2.
Proof.
  destruct h as [n b a c o], h' as [n' b' a' c' o']. unfold wiring, xemu_input_get_bound. cbn.
  intros [= -> -> ->]. destruct (_ || _); [done|]. by destruct n.
Qed.

Lemma update_input_shows x h l : gamepad_ok x -> device_index x = 0 -> host_ok h ->
  (xemu_input_get_bound h 0).2 = Some 0%nat -> shows l h ->
  exists x' h', update_input x h = Ok (x', h') /\ bLength (in_state x') = 20 /\
    report_bytes (in_state x') = expected_report l.
Proof.
  intros (G1 & G2 & G3 & _) Hi Hh Hport Hs. unfold update_input. rewrite Hi.
  pose proof (get_bound_ok h 0 Hh) as Hb. destruct (xemu_input_get_bound h 0) as [h1 o]. cbn in Hport. subst o.
  destruct Hb as (Hh1 & Hc & Hbt & Hax). destruct (Hc _ eq_refl) as [st Hst].
  destruct (update_controller_ok h1 0 st Hh1 Hst) as (_ & st' & -> & Hst').
  destruct (Hst' eq_refl) as [B A]. eexists _, _. split; [done|]. split; [done|].
  apply (report_expected l h); congruence.
Qed.

Section Device.
Context {C : Type} `{!UsbDesc C}.
Implicit Types (s : USBDevice (Gamepad C)) (g : Gamepad C) (p : USBPacket).

End Device.

(** ** What can go wrong *)

(** The cases of [usb_desc_handle_control] keep the packet and the buffer. *)
Class UsbDescContract (C : Type) `{!UsbDesc C} :=
  desc_case_ok : forall c p r v i n data, 0 <= actual_length p -> 0 <= n <= SIZEOF_DATA_BUF ->
    Z.of_nat (length data) = SIZEOF_DATA_BUF ->
    match desc_case c p r v i n data with
    | Ok (c', p', data', _) => returned p p' /\ length data' = length data
    | Fault f => exists what, f = AssertFail what
    end.

Definition asserts (f : fault) : Prop := exists what, f = AssertFail what.

Definition whole_ok {C} (g : Gamepad C) : Prop := gamepad_ok (xid g) /\ host_ok (host g).

Lemma update_output_ok s h : host_ok h -> match update_output s h with
  | Ok h' => host_ok h'
  | Fault f => asserts f
  end.
Proof.
  intros Hh. unfold update_output. pose proof (get_bound_ok h (device_index s) Hh) as Hb.
  destruct (xemu_input_get_bound h (device_index s)) as [h1 [c|]]; [|by eexists].
  destruct Hb as (Hh1 & _). intros Hi. destruct (Hh1 Hi) as (H1 & H2 & H3). proj_red. by rewrite length_alter.
Qed.

Section Contract.
Context {C : Type} `{UsbDescContract C}.
Implicit Types (g : Gamepad C) (p : USBPacket).

Definition answered p (data : list Z) (r : result (Gamepad C * USBPacket * list Z)) : Prop :=
  match r with
  | Ok (g', p', data') => whole_ok g' /\ returned p p' /\ length data' = length data
  | Fault f => asserts f
  end.

Lemma copy_to_ok data src n : 0 <= n <= Z.of_nat (length src) -> n <= Z.of_nat (length data) ->
  exists d, copy_to data src n = Ok d /\ length d = length data.
Proof.
  intros Hn Hd. unfold copy_to. rewrite slice_ok by lia. cbn [mbind result_mbind result_bind].
  rewrite blit_ok by (rewrite ?length_take, ?length_drop; lia). eexists. split; [done|]. apply length_inserts.
Qed.

Lemma get_report_ok g p value n data : whole_ok g -> 0 <= n -> 0 <= actual_length p -> Z.of_nat (length data) = SIZEOF_DATA_BUF ->
  answered p data (get_report g p value n data).
Proof.
  intros [Hx Hh] Hn Ha Hd. unfold get_report. pose proof (update_input_ok (xid g) (host g) Hx Hh) as Hu.
  destruct (update_input (xid g) (host g)) as [[x h]|f]; cbn [mbind result_mbind result_bind];
    [|destruct Hu as [-> _]; by eexists]. destruct Hu as (Hx' & Hh' & _).
  destruct (value =? 0x0100); [|by eexists]. destruct (_ <=? _); [|by split_and!].
  pose proof (length_report x Hx') as Hl. pose proof Hx' as (_ & Hb & _).
  destruct (copy_to_ok data (report_bytes (in_state x)) (bLength (in_state x))) as (d & -> & Hd');
    [rewrite Hb, Hl; lia|rewrite Hb; unfold SIZEOF_DATA_BUF in *; lia|]. by split_and!.
Qed.

Lemma set_report_ok g p value n data : whole_ok g -> 0 <= n -> 0 <= actual_length p -> Z.of_nat (length data) = SIZEOF_DATA_BUF ->
  answered p data (set_report g p value n data).
Proof.
  intros [Hx Hh] Hn Ha Hd. unfold set_report. destruct (value =? 0x0200); [|by eexists].
  assert (forall x, gamepad_ok x -> forall q, returned p q ->
    answered p data (h ← update_output x (host g); Ok (g <| xid := x |> <| host := h |>, q, data))) as Hend.
  { intros x Hx' q Hq. pose proof (update_output_ok x (host g) Hh) as Hu. by destruct (update_output x (host g)). }
  destruct (_ =? _); [|by apply Hend].
  rewrite slice_ok by (unfold SIZEOF_DATA_BUF, SIZEOF_OUT_STATE in *; lia). cbn [mbind result_mbind result_bind].
  unfold check. proj_red. destruct (Z.eqb_spec (out_length (output_of_bytes (take (Z.to_nat SIZEOF_OUT_STATE) (drop (Z.to_nat 0) data)))) SIZEOF_OUT_STATE) as [E|];
    [|by eexists]. cbn [mbind result_mbind result_bind]. apply Hend; [|by split_and!].
  destruct Hx as (G1 & G2 & G3 & G4 & G5 & G6 & G7). split_and!; try done. proj_red. by rewrite E.
Qed.

Lemma returned_len p n : 0 <= n -> returned p (p <| actual_length := n |>).
Proof. intros Hn. by split_and!. Qed.

Lemma get_xid_descriptor_ok g p value n data : whole_ok g -> n <= SIZEOF_DATA_BUF -> 0 <= actual_length p ->
  Z.of_nat (length data) = SIZEOF_DATA_BUF -> answered p data (get_xid_descriptor g p value n data).
Proof.
  intros Hg Hn Ha Hd. unfold get_xid_descriptor. destruct (value =? 0x4200); [|by eexists].
  assert (desc_bLength (xid_desc (xid g)) = 16 /\ length (desc_bytes (xid_desc (xid g))) = 16%nat) as [Hb Hl].
  { destruct Hg as [(_ & _ & _ & _ & _ & [-> | ->] & _) _]; done. }
  unfold check. destruct (Z.leb_spec (desc_bLength (xid_desc (xid g))) n); [|by eexists].
  cbn [mbind result_mbind result_bind]. destruct (copy_to_ok data (desc_bytes (xid_desc (xid g))) (desc_bLength (xid_desc (xid g))))
    as (d & -> & Hd'); [rewrite Hb, Hl; lia|lia|]. split_and!; try done. apply returned_len. by rewrite Hb.
Qed.

Lemma get_capabilities_ok g p value n data : whole_ok g -> 0 <= n <= SIZEOF_DATA_BUF -> 0 <= actual_length p ->
  Z.of_nat (length data) = SIZEOF_DATA_BUF -> answered p data (get_capabilities g p value n data).
Proof.
  intros Hg Hn Ha Hd. unfold get_capabilities. pose proof Hg as [(_ & _ & _ & -> & -> & _) _].
  assert (forall src max, 0 <= max <= Z.of_nat (length src) -> answered p data
    (d ← copy_to data src (if max <? n then max else n);
     Ok (g, p <| actual_length := if max <? n then max else n |>, d))) as Hans.
  { intros src max Hm. set (k := if max <? n then max else n).
    assert (0 <= k <= max /\ k <= n) as [Hk Hk'] by (unfold k; destruct (Z.ltb_spec max n); lia). clearbody k.
    destruct (copy_to_ok data src k) as (d & -> & Hd'); [lia..|]. split_and!; try done. apply returned_len; lia. }
  destruct (value =? 0x0100); [by apply Hans|]. destruct (value =? 0x0200); [by apply Hans|]. by eexists.
Qed.

Lemma handle_control_ok g p r v i n data : whole_ok g -> 0 <= actual_length p -> 0 <= n <= SIZEOF_DATA_BUF ->
  Z.of_nat (length data) = SIZEOF_DATA_BUF -> answered p data (usb_xid_handle_control g p r v i n data).
Proof.
  intros Hg Ha Hn Hd. unfold usb_xid_handle_control.
  assert (match usb_desc_handle_control (usb g) p r v i n data with
    | Ok (_, p', data', _) => returned p p' /\ length data' = length data | Fault f => asserts f end) as Hc.
  { unfold usb_desc_handle_control. destruct (bool_decide _); [by apply desc_case_ok|by split_and!]. }
  destruct (usb_desc_handle_control _ _ _ _ _ _ _) as [[[[c q] d] ret]|f]; cbn [mbind result_mbind result_bind]; [|done].
  destruct Hc as [Hq Hl]. assert (whole_ok (g <| usb := c |>)) as Hg' by done. set (g' := g <| usb := c |>) in *. clearbody g'.
  assert (forall res, answered q d res -> answered p data res) as Hback.
  { intros [[[g2 p2] d2]|]; [|done]. intros (W & (R1 & R2 & R3 & R4) & L). destruct Hq as (Q1 & Q2 & Q3 & Q4).
    split; [done|]. split; [split_and!; congruence|congruence]. }
  destruct (0 <=? ret); [by split|]. apply Hback. destruct Hq as (_ & _ & _ & Hq).
  destruct (r =? _); [apply get_report_ok; try done; lia|]. destruct (r =? _); [apply set_report_ok; try done; lia|].
  destruct (r =? _); [apply get_xid_descriptor_ok; try done; lia|].
  destruct (r =? _); [apply get_capabilities_ok; try done; lia|]. destruct (_ || _); [|by eexists].
  rewrite blit_ok by (rewrite ?repeat_length; lia). cbn [mbind result_mbind result_bind].
  split_and!; try done. apply length_inserts.
Qed.

(** How a packet on a data endpoint ends. *)
Definition data_end g p (f : fault) : Prop :=
  asserts f \/ f = OutOfBounds /\ pid p = USB_TOKEN_OUT /\ ep_nr p = GAMEPAD_OUT_ENDPOINT_ID /\
    SIZEOF_OUT_STATE < out_length (out_state (xid g)) <= iov_size p.

(** A copy that is longer than its destination is stopped by nothing but the
    size of the packet. *)
Lemma copy_beyond p buf n : actual_length p = 0 -> pid p = USB_TOKEN_OUT -> 0 <= n < 2 ^ 31 ->
  Z.of_nat (length buf) < n ->
  usb_packet_copy p buf 0 n =
    if n <=? iov_size p then Fault OutOfBounds
    else Fault (AssertFail "p->actual_length + bytes <= iov->size").
Proof.
  intros Ha Hp Hn Hb. unfold usb_packet_copy, check. rewrite Ha, Hp, Z.add_0_l, !(u64_id n) by (unfold is_u64; lia).
  cbn [mbind result_mbind result_bind Z.leb Z.compare]. destruct (Z.leb_spec n (iov_size p)) as [Hl|Hl]; [|done].
  cbn [mbind result_mbind result_bind]. rewrite slice_ok by (unfold iov_size in Hl; lia).
  cbn [Z.eqb orb USB_TOKEN_SETUP USB_TOKEN_OUT Pos.eqb mbind result_mbind result_bind]. unfold blit.
  rewrite length_take, drop_0, Nat.min_l by (unfold iov_size in Hl; lia).
  rewrite (proj2 (Z.leb_gt (0 + _) _)), andb_false_r by lia. done.
Qed.

(** The length byte after a copy is a byte. *)
Lemma copied_length x r : Forall is_u8 x -> is_u8 (out_length r) -> (length x <= 6)%nat ->
  is_u8 (out_length (output_of_bytes (list_inserts 0 x (output_bytes r)))).
Proof.
  intros Hx Hr Hl. rewrite inserts_split by (cbn; lia). destruct x as [|a [|b x]]; [done..|].
  cbn. by apply Forall_cons in Hx as [_ [Hb _]%Forall_cons].
Qed.

Lemma handle_in_ok g p : whole_ok g -> packet_ok p ->
  match ('(s, h) ← update_input (xid g) (host g);
         '(p, _) ← usb_packet_copy p (report_bytes (in_state s)) 0 (bLength (in_state s));
         Ok (g <| xid := s |> <| host := h |>, p)) with
  | Ok (g', p') => whole_ok g' /\ returned p p'
  | Fault f => asserts f
  end.
Proof.
  intros [Hx Hh] (Hv & Hs & Ha). pose proof (update_input_ok (xid g) (host g) Hx Hh) as Hu.
  destruct (update_input (xid g) (host g)) as [[x h]|f]; cbn [mbind result_mbind result_bind];
    [|destruct Hu as [-> _]; by eexists]. destruct Hu as (Hx' & Hh' & _). pose proof Hx' as (_ & Hb & _).
  pose proof (copy_total p (report_bytes (in_state x)) 0 20 Ha ltac:(lia) Hs ltac:(lia)
    ltac:(rewrite (length_report x Hx'); lia)) as Hc.
  rewrite Hb. destruct (usb_packet_copy _ _ _ _) as [[p' b]|f]; [|done]. by destruct Hc.
Qed.

Lemma handle_data_ok g p : whole_ok g -> packet_ok p ->
  match usb_xid_gamepad_handle_data g p with
  | Ok (g', p') => whole_ok g' /\ returned p p'
  | Fault f => data_end g p f
  end.
Proof.
  intros Hg Hp. unfold usb_xid_gamepad_handle_data.
  destruct (Z.eqb_spec (pid p) USB_TOKEN_IN) as [Hin|Hin].
  { destruct (ep_nr p =? GAMEPAD_IN_ENDPOINT_ID); [|left; by eexists].
    pose proof (handle_in_ok g p Hg Hp) as Hd. destruct (_ ← _; _) as [|f]; [done|by left]. }
  destruct (Z.eqb_spec (pid p) USB_TOKEN_OUT) as [Ho|Ho]; [|left; by eexists].
  destruct (Z.eqb_spec (ep_nr p) GAMEPAD_OUT_ENDPOINT_ID) as [He|He]; [|left; by eexists].
  destruct Hp as (Hv & Hs & Ha). destruct Hg as [Hx Hh].
  assert (is_u8 (out_length (out_state (xid g)))) as Hlen by apply Hx.
  set (n := out_length (out_state (xid g))) in *. unfold is_u8 in Hlen.
  destruct (Z.leb_spec n SIZEOF_OUT_STATE) as [Hn|Hn].
  2:{ rewrite copy_beyond by (try done; cbn in *; unfold SIZEOF_OUT_STATE in *; lia).
      destruct (Z.leb_spec n (iov_size p)); [right; by split_and!|left; by eexists]. }
  destruct (Z.leb_spec n (iov_size p)) as [Hi|Hi].
  2:{ pose proof (copy_total p (output_bytes (out_state (xid g))) 0 n Ha ltac:(lia) Hs ltac:(lia) Hn) as Hc.
      unfold usb_packet_copy, check in *. rewrite Ha, Z.add_0_l, !(u64_id n) in * by (unfold is_u64; lia).
      rewrite (proj2 (Z.leb_gt n _)) in * by lia. left. by eexists. }
  rewrite copy_out by (try (by right); done || (cbn; unfold SIZEOF_OUT_STATE in *; lia)).
  cbn [mbind result_mbind result_bind].
  pose proof (copied_length (take (Z.to_nat n) (iov p)) (out_state (xid g)) (Forall_take _ _ _ Hv) Hlen
    ltac:(rewrite length_take; unfold SIZEOF_OUT_STATE in Hn; lia)) as Hc.
  change (Z.to_nat 0) with 0%nat. set (o := output_of_bytes _) in *. clearbody o.
  pose proof (update_output_ok (xid g <| out_state := o |>) (host g) Hh) as Hu.
  destruct (update_output _ _) as [h'|f]; cbn [mbind result_mbind result_bind]; [|by left].
  split; [|apply returned_len; lia]. split; [|done].
  destruct Hx as (G1 & G2 & G3 & G4 & G5 & G6 & G7). by split_and!.
Qed.

#[export, refine] Instance xid_contract : UsbContract (Gamepad C) := {
  dev_ok := whole_ok;
  control_fails := asserts;
  data_fails f := asserts f \/ f = OutOfBounds;
}.
Proof.
  - intros h d p r v i n data [= <-] Hd Ha Hn Hl. by apply handle_control_ok.
  - intros h d p [= <-] Hd Hp. pose proof (handle_data_ok d p Hd Hp) as Hk.
    destruct (usb_xid_gamepad_handle_data d p) as [|f]; [done|]. destruct Hk as [|[-> _]]; [by left|by right].
Defined.

(** *** Motors *)

Lemma update_output_drives x h c : host_ok h -> (xemu_input_get_bound h (device_index x)).2 = Some c ->
  exists h' st, update_output x h = Ok h' /\ android_controllers h' !! c = Some st /\
    rumble_l st = left_actuator_strength (out_state x) /\ rumble_r st = right_actuator_strength (out_state x).
Proof.
  intros Hh Hport. unfold update_output. pose proof (get_bound_ok h (device_index x) Hh) as Hb.
  destruct (xemu_input_get_bound h (device_index x)) as [h1 o]. cbn in Hport. subst o.
  destruct Hb as (_ & Hc & _). destruct (Hc c eq_refl) as [st Hst].
  eexists _, _. split; [done|]. proj_red. rewrite list_lookup_alter, Hst, decide_True by done. by split.
Qed.

Lemma set_report_run g index id ll lh rl rh rest h'
    (x' := xid g <| out_state := mkOutput id 6 (ll + 256 * lh) (rl + 256 * rh) |>) :
  out_length (out_state (xid g)) = SIZEOF_OUT_STATE -> update_output x' (host g) = Ok h' ->
  usb_xid_handle_control g (IN []) 0x2109 0x0200 index 6 ([id; 6; ll; lh; rl; rh] ++ rest) =
    Ok (g <| xid := x' |> <| host := h' |>, IN [] <| actual_length := 6 |>, [id; 6; ll; lh; rl; rh] ++ rest).
Proof.
  intros Ho Hu. unfold usb_xid_handle_control, usb_desc_handle_control.
  assert (bool_decide (0x2109 ∈ desc_requests) = false) as -> by by vm_compute.
  cbn [mbind result_mbind result_bind]. change (0 <=? -1) with false. cbv beta iota zeta.
  unfold set_report. cbn [Z.eqb Pos.eqb Z.lor Pos.lor ClassInterfaceRequest ClassInterfaceOutRequest HID_GET_REPORT HID_SET_REPORT].
  change (xid (g <| usb := usb g |>)) with (xid g). rewrite Ho. cbn [Z.eqb Pos.eqb SIZEOF_OUT_STATE].
  rewrite slice_ok by (unfold SIZEOF_OUT_STATE; rewrite ?length_app; cbn [length]; lia).
  transitivity (h ← update_output x' (host g);
    Ok (g <| xid := x' |> <| host := h |>, IN [] <| actual_length := 6 |>, [id; 6; ll; lh; rl; rh] ++ rest));
    [reflexivity|]. by rewrite Hu.
Qed.

(** An output report sets the motors: a control transfer with SET_REPORT,
    its six bytes cut into packets in any way, sets the strengths of the two
    motors of the controller in the gamepad's port to the two words of the
    report; all packets succeed, the pipe is idle again and the gamepad expects
    six bytes again. *)
Theorem set_report_drives_motors (s : USBDevice (Gamepad C)) (i0 i1 id ll lh rl rh : Z) (cs : list (list Z)) c
    (x := xid (dev_state s)) :
  length (setup_buf s) = 8%nat -> Z.of_nat (length (data_buf s)) = SIZEOF_DATA_BUF ->
  whole_ok (dev_state s) -> out_length (out_state x) = SIZEOF_OUT_STATE ->
  (xemu_input_get_bound (host (dev_state s)) (device_index x)).2 = Some c ->
  concat cs = [id; 6; ll; lh; rl; rh] ->
  exists s' ps st, process_all s (SETUP [0x21; 0x09; 0x00; 0x02; i0; i1; 6; 0] :: map OUT cs ++ [IN []]) = Ok (s', ps) /\
    Forall (fun p => status p = USB_RET_SUCCESS) ps /\ setup_state s' = SETUP_STATE_IDLE /\
    android_controllers (host (dev_state s')) !! c = Some st /\
    rumble_l st = ll + 256 * lh /\ rumble_r st = rl + 256 * rh /\
    out_length (out_state (xid (dev_state s'))) = SIZEOF_OUT_STATE.
Proof.
  intros H1 H2 [Hx Hh] Ho Hport Hcs. set (g := dev_state s) in *.
  set (x' := x <| out_state := mkOutput id 6 (ll + 256 * lh) (rl + 256 * rh) |>).
  destruct (update_output_drives x' (host g) c Hh Hport) as (h' & st & Hu & Hst & Hl & Hr).
  eexists _, _, st. split.
  - apply (control_out_run s [0x21; 0x09; 0x00; 0x02; i0; i1; 6; 0] cs usb_xid_handle_control
      (g <| xid := x' |> <| host := h' |>) (IN [] <| actual_length := 6 |>) (concat cs ++ drop 6 (data_buf s)));
      rewrite ?Hcs; try done. by apply set_report_run.
  - split_and!; try done. apply Forall_cons. split; [done|]. apply Forall_app. split; [|by repeat constructor].
    apply Forall_forall. intros p (cz & -> & _)%list_elem_of_fmap. done.
Qed.
End Contract.

(** ** The output report can overflow *)

(** A packet for the interrupt endpoint that takes output reports. *)
Definition OUT2 (c : list Z) : USBPacket := usb_packet_setup USB_TOKEN_OUT GAMEPAD_OUT_ENDPOINT_ID c.

(** The store before anything happened, and a gamepad that was just plugged in. *)
Definition input0 : AndroidInput := mkInput false 0 no_axis (repeat empty_controller 4) (repeat None 4).
Definition fresh_gamepad {C} (index : Z) (c : C) : USBDevice (Gamepad C) :=
  mkDevice (repeat 0 8) (repeat 0 4096) SETUP_STATE_IDLE 0 0
    (mkGamepad (usb_xbox_gamepad_realize index) input0 c).

Section Overflow.
Context {C : Type} `{UsbDescContract C}.

Lemma data_in_bounds (g : Gamepad C) p : whole_ok g -> packet_ok p ->
  usb_xid_gamepad_handle_data g p = Fault OutOfBounds ->
  pid p = USB_TOKEN_OUT /\ ep_nr p = GAMEPAD_OUT_ENDPOINT_ID /\ SIZEOF_OUT_STATE < out_length (out_state (xid g)) <= iov_size p.
Proof.
  intros Hg Hp Hf. pose proof (handle_data_ok g p Hg Hp) as Hd. rewrite Hf in Hd.
  destruct Hd as [[what Hw]|[_ Hd]]; done.
Qed.

Lemma data_overflows (g : Gamepad C) p : whole_ok g -> packet_ok p ->
  pid p = USB_TOKEN_OUT -> ep_nr p = GAMEPAD_OUT_ENDPOINT_ID ->
  SIZEOF_OUT_STATE < out_length (out_state (xid g)) <= iov_size p -> usb_xid_gamepad_handle_data g p = Fault OutOfBounds.
Proof.
  intros [Hx _] (_ & Hs & Ha) Hp He Hn. unfold usb_xid_gamepad_handle_data. rewrite Hp, He.
  change (USB_TOKEN_OUT =? USB_TOKEN_IN) with false. rewrite !Z.eqb_refl.
  rewrite copy_beyond by (try done; cbn; unfold SIZEOF_OUT_STATE in *; lia).
  by rewrite (proj2 (Z.leb_le _ _)) by lia.
Qed.

(** The output report can overflow: a packet to the gamepad is copied past
    the end of the six-byte report exactly when it is an output packet and the
    length byte of the report before it says more than six and no more than the
    packet holds; and since that byte comes from the guest, two packets to a
    gamepad that was just plugged in are enough. *)
Theorem output_report_overflows (g : Gamepad C) p c n : whole_ok g -> packet_ok p -> SIZEOF_OUT_STATE < n < 256 ->
  (usb_xid_gamepad_handle_data g p = Fault OutOfBounds <->
   pid p = USB_TOKEN_OUT /\ ep_nr p = GAMEPAD_OUT_ENDPOINT_ID /\
   SIZEOF_OUT_STATE < out_length (out_state (xid g)) <= iov_size p) /\
  process_all (fresh_gamepad 0 c) [OUT2 [0; n; 0; 0; 0; 0]; OUT2 (repeat 0 (Z.to_nat n))] = Fault OutOfBounds.
Proof.
  intros Hg Hp Hn. split.
  - split; [by apply data_in_bounds|]. intros (? & ? & ?). by apply data_overflows.
  - set (x := usb_xbox_gamepad_realize 0 <| out_state := mkOutput 0 n 0 0 |>).
    assert (exists h, host_ok h /\ usb_process_one (fresh_gamepad 0 c) (OUT2 [0; n; 0; 0; 0; 0]) =
      Ok (fresh_gamepad 0 c <| dev_state := mkGamepad x h c |>, OUT2 [0; n; 0; 0; 0; 0] <| actual_length := 6 |>))
      as (h & Hh & E).
    { eexists. split; [|reflexivity]. intros _. split; [done|]. split; [done|]. by repeat constructor; cbn; lia. }
    cbn [process_all]. rewrite E. cbn [mbind result_mbind result_bind].
    change (usb_process_one ?s (OUT2 ?l)) with (usb_device_handle_data s (OUT2 l)).
    unfold usb_device_handle_data. cbn [handle_data xid_class]. proj_red. rewrite data_overflows; try done.
    + split; [|done]. split_and!; try done; [by left|]. unfold is_u8. cbn. unfold SIZEOF_OUT_STATE in *. lia.
    + split; [|split; [|done]]; [apply Forall_forall; intros z ->%list_elem_of_In%repeat_spec; done|unfold iov_size; cbn; rewrite repeat_length; lia].
    + unfold iov_size. cbn. rewrite repeat_length. lia.
Qed.
End Overflow.

(** ** Examples *)

(** A device that knows no standard request but SET_ADDRESS. *)
#[export] Instance address_desc : UsbDesc Z := {
  desc_case c p r v i n data := Ok (if r =? 0x0005 then v else c, p, data, if r =? 0x0005 then 0 else -1);
}.
#[export] Instance address_contract : UsbDescContract Z.
Proof. intros c p r v i n data Ha _ _. by split_and!. Qed.

Lemma input0_ok : host_ok input0.
Proof. done. Qed.

Lemma fresh_ok index : 0 <= index < 256 -> whole_ok (dev_state (fresh_gamepad index 0)).
Proof. intros Hi. split; [|done]. split_and!; try done. by left. Qed.

(** The guest's view after A and left are pressed, the left trigger is pulled,
    A is released and X is pressed. *)
Definition presses : list input_event :=
  [Key KEYCODE_BUTTON_A true; Key KEYCODE_DPAD_LEFT true; Key KEYCODE_BUTTON_L2 true;
   Key KEYCODE_BUTTON_A false; Key KEYCODE_BUTTON_X true; Axis 2 f_minus_one].

Definition pressed_input : AndroidInput :=
  match deliver_all (xemu_android_input_reset input0) presses with Ok h => h | Fault _ => input0 end.


Lemma set_report_drives_motors_witness :
  exists s' ps st, process_all (fresh_gamepad 1 0)
      [SETUP [0x21; 0x09; 0x00; 0x02; 0; 0; 6; 0]; OUT [0; 6; 0x34; 0x12]; OUT [0xff; 0xff]; IN []] = Ok (s', ps) /\
    android_controllers (host (dev_state s')) !! 1%nat = Some st /\ rumble_l st = 0x1234 /\ rumble_r st = 0xffff.
Proof.
  edestruct (set_report_drives_motors (fresh_gamepad 1 0) 0 0 0 0x34 0x12 0xff 0xff
    [[0; 6; 0x34; 0x12]; [0xff; 0xff]] 1%nat) as (s' & ps & st & H1 & _ & _ & H2 & H3 & H4 & _).
  - reflexivity.
  - vm_compute. reflexivity.
  - apply fresh_ok. lia.
  - reflexivity.
  - reflexivity.
  - reflexivity.
  - exists s', ps, st. split; [exact H1|]. split; [exact H2|]. split; [exact H3|exact H4].
Defined.

Lemma output_report_overflows_witness :
  process_all (fresh_gamepad 0 0) [OUT2 [0; 32; 0; 0; 0; 0]; OUT2 (repeat 0 32)] = Fault OutOfBounds.
Proof.
  apply (output_report_overflows (dev_state (fresh_gamepad 0 0)) (OUT2 []) 0 32).
  - apply fresh_ok. lia.
  - split; [constructor|done].
  - done.
Defined.


(** The guest asks for the capabilities in two packets. *)
Lemma control_transfers_deliver_witness :
  exists s' p0 ps pz, process_all (fresh_gamepad 0 0)
      (SETUP [0xc1; 0x01; 0x00; 0x02; 0; 0; 20; 0] :: map IN [[9; 9; 9; 9]; [9; 9; 9; 9]] ++ [OUT []]) =
      Ok (s', p0 :: ps ++ [pz]) /\
    concat (map received ps) = [0; 6; 255; 255; 255; 255] /\ setup_state s' = SETUP_STATE_IDLE.
Proof.
  edestruct (control_transfers_deliver (fresh_gamepad 0 0) [0xc1; 0x01; 0x00; 0x02; 0; 0; 20; 0]
    [[9; 9; 9; 9]; [9; 9; 9; 9]] usb_xid_handle_control (dev_state (fresh_gamepad 0 0))
    (SETUP [0xc1; 0x01; 0x00; 0x02; 0; 0; 20; 0] <| actual_length := 6 |>)
    ([0; 6; 255; 255; 255; 255] ++ repeat 0 4090)) as [_ H].
  - reflexivity.
  - vm_compute. reflexivity.
  - reflexivity.
  - by repeat constructor.
  - done.
  - by repeat constructor.
  - reflexivity.
  - destruct H as (s' & p0 & ps & pz & H1 & H2 & _ & H3 & _).
    + reflexivity.
    + discriminate.
    + done.
    + vm_compute. reflexivity.
    + reflexivity.
    + done.
    + vm_compute. reflexivity.
    + exists s', p0, ps, pz. split; [exact H1|]. split; [|exact H3]. rewrite H2. vm_compute. reflexivity.
Defined.
