(* ===== verification/AndroidAudio.v ===== *)
(** The audio output of the Android port (ui/xemu-android-native.c): a ring of
    8192 stereo frames between the APU thread, which queues samples, and the
    real-time callback of AAudio, which plays them.

    The two threads run concurrently without a lock.  Each is a program whose
    steps are the accesses to shared memory (one cursor or one sample at a
    time), and a schedule interleaves them; the release stores and acquire loads
    of the cursors order the accesses to the ring, and the theorem that the two
    threads never touch the same cell at once is what makes the interleaving of
    single accesses a faithful account.  [acc] records the frames published by
    the producer and [played] what the callback handed to AAudio, [None] for
    silence.

    The theorems show that the ring is a queue, that the threads never race for
    a cell, and that the callback never waits; and what happens when the cursors
    are reset while a callback runs. *)

From S2P Require Import Prelude.

Definition ANDROID_AUDIO_CHANNELS : Z := 2.
Definition ANDROID_AUDIO_RING_FRAMES : Z := 8192.
Definition ANDROID_AUDIO_RING_MASK : Z := ANDROID_AUDIO_RING_FRAMES - 1.

(** The two samples of a frame. *)
Definition frame : Type := Z * Z.

(** ** The two programs

    Where the producer is in [xemu_android_audio_queue]: before the test of
    [audio_stream], before each of the two loads, in the copy loop (frame [i] of
    [n]; the flag says that the first sample of the frame is stored) and, at the
    end of the loop, before the publishing store. *)
Inductive producer :=
| PIdle
| PCheck (samples : list frame)
| PLoadW (samples : list frame)
| PLoadR (samples : list frame) (wpos : Z)
| PCopy (samples : list frame) (wpos i n : Z) (half : bool).

(** Where the callback is: before each of the two loads, in the loop with [k]
    frames to go (with the first sample of a frame read or not), and before the
    publishing store. *)
Inductive consumer :=
| CIdle
| CLoadR (num_frames : nat)
| CLoadW (num_frames : nat) (rpos : Z)
| CLoop (k : nat) (rpos available : Z) (left_read : option Z).

Record Audio := mkAudio {
  audio_stream : bool;
  ring_l : mem;
  ring_r : mem;
  audio_read_pos : Z;
  audio_write_pos : Z;
  prod : producer;
  cons : consumer;
  acc : list frame;
  played : list (option frame);
}.
#[export] Instance Audio_settable : Settable Audio :=
  settable! mkAudio < audio_stream ; ring_l ; ring_r ; audio_read_pos ; audio_write_pos ; prod ;
    cons ; acc ; played >.

Definition ring_index (pos : Z) : Z := Z.land pos ANDROID_AUDIO_RING_MASK.

(** [frames] limited to the free part of the ring. *)
Definition accepted_frames (frames wpos rpos : Z) : Z :=
  let free_frames := u32 (ANDROID_AUDIO_RING_FRAMES - u32 (wpos - rpos)) in
  if free_frames <? frames then free_frames else frames.

(** One step of the producer. *)
Definition producer_step (s : Audio) : Audio :=
  match prod s with
  | PIdle => s
  | PCheck samples => if audio_stream s then s <| prod := PLoadW samples |> else s <| prod := PIdle |>
  | PLoadW samples => s <| prod := PLoadR samples (audio_write_pos s) |>
  | PLoadR samples wpos =>
      let n := accepted_frames (Z.of_nat (length samples)) wpos (audio_read_pos s) in
      s <| prod := PCopy samples wpos 0 n false |>
  | PCopy samples wpos i n half =>
      if i <? n then
        let f := nth (Z.to_nat i) samples (0, 0) in
        if half
        then s <| ring_r ::= wr (ring_index wpos) f.2 |>
               <| prod := PCopy samples (u32 (wpos + 1)) (i + 1) n false |>
        else s <| ring_l ::= wr (ring_index wpos) f.1 |> <| prod := PCopy samples wpos i n true |>
      else s <| audio_write_pos := wpos |> <| acc ::= fun l => l ++ take (Z.to_nat n) samples |>
             <| prod := PIdle |>
  end.

(** One step of the callback. *)
Definition consumer_step (s : Audio) : Audio :=
  match cons s with
  | CIdle => s
  | CLoadR num_frames => s <| cons := CLoadW num_frames (audio_read_pos s) |>
  | CLoadW num_frames rpos =>
      s <| cons := CLoop num_frames rpos (u32 (audio_write_pos s - rpos)) None |>
  | CLoop k rpos available left_read =>
      match k with
      | O => s <| audio_read_pos := rpos |> <| cons := CIdle |>
      | S k' =>
          if 0 <? available then
            match left_read with
            | None => s <| cons := CLoop k rpos available (Some (rd (ring_l s) (ring_index rpos))) |>
            | Some l =>
                s <| played ::= fun o => o ++ [Some (l, rd (ring_r s) (ring_index rpos))] |>
                  <| cons := CLoop k' (u32 (rpos + 1)) (available - 1) None |>
            end
          else s <| played ::= fun o => o ++ [None] |> <| cons := CLoop k' rpos available None |>
      end
  end.

(** [xemu_android_audio_queue] with no samples returns at once. *)
Definition xemu_android_audio_queue (s : Audio) (samples : list frame) : Audio :=
  match samples with [] => s | _ => s <| prod := PCheck samples |> end.

Definition xemu_android_audio_data_callback (s : Audio) (num_frames : nat) : Audio :=
  s <| cons := CLoadR num_frames |>.

Definition reset_audio_ring_locked (s : Audio) : Audio :=
  s <| audio_read_pos := 0 |> <| audio_write_pos := 0 |>.

(** The part of [xemu_android_audio_shutdown] under the lock; the stream is
    stopped and closed only after it.  The histories are those of a session. *)
Definition xemu_android_audio_shutdown (s : Audio) : Audio :=
  reset_audio_ring_locked (s <| audio_stream := false |>) <| acc := [] |> <| played := [] |>.

(** What AAudio answers to the calls that build, open and start a stream. *)
Inductive aaudio := OpenFails | StartFails | Starts.

Definition xemu_android_audio_init (s : Audio) (answer : aaudio) : Audio * bool :=
  if audio_stream s then (s, true)
  else
    let s := reset_audio_ring_locked s <| acc := [] |> <| played := [] |> in
    match answer with
    | OpenFails => (s, false)
    | StartFails => (xemu_android_audio_shutdown (s <| audio_stream := true |>), false)
    | Starts => (s <| audio_stream := true |>, true)
    end.

Definition xemu_android_audio_queued_bytes (s : Audio) : Z :=
  if audio_stream s
  then s32 (u32 (audio_write_pos s - audio_read_pos s) * ANDROID_AUDIO_CHANNELS * 2) else -1.

(** ** Schedules *)

Inductive action :=
| Queue (samples : list frame)
| Callback (num_frames : nat)
| RunProducer
| RunConsumer
| Init (answer : aaudio)
| Shutdown.

(** A thread starts a call when it is idle. *)
Definition act (s : Audio) (a : action) : option Audio :=
  match a with
  | Queue samples =>
      match prod s with PIdle => Some (xemu_android_audio_queue s samples) | _ => None end
  | Callback n => match cons s with CIdle => Some (xemu_android_audio_data_callback s n) | _ => None end
  | RunProducer => Some (producer_step s)
  | RunConsumer => Some (consumer_step s)
  | Init answer => Some (xemu_android_audio_init s answer).1
  | Shutdown => Some (xemu_android_audio_shutdown s)
  end.

Fixpoint run (s : Audio) (l : list action) : option Audio :=
  match l with [] => Some s | a :: l => match act s a with Some s => run s l | None => None end end.

Definition audio0 : Audio := mkAudio false ∅ ∅ 0 0 PIdle CIdle [] [].

(** The cursors are reset only while no thread is at work. *)
Definition quiet (s : Audio) (a : action) : Prop :=
  match a with Init _ | Shutdown => prod s = PIdle /\ cons s = CIdle | _ => True end.

Inductive reachable : Audio -> Prop :=
| reach_start : reachable audio0
| reach_act s a s' : reachable s -> quiet s a -> act s a = Some s' -> reachable s'.

(** ** The invariant

    [W] frames are published and [R] are released; the frames from [R] to [W]
    are in the ring. *)

Definition frame_at (l : list frame) (p : Z) : frame := nth (Z.to_nat p) l (0, 0).
Definition cell (l r : mem) (p : Z) : frame := (rd l (p mod 8192), rd r (p mod 8192)).
Definition reals (o : list (option frame)) : list frame := omap id o.

Definition prod_ok (l r : mem) (W R : Z) (p : producer) : Prop :=
  match p with
  | PLoadR samples wpos => wpos = W mod 2 ^ 32
  | PCopy samples wpos i n half =>
      wpos = (W + i) mod 2 ^ 32 /\ 0 <= i <= n /\ n <= Z.of_nat (length samples) /\ W + n <= R + 8192 /\
      (forall j, 0 <= j < i -> cell l r (W + j) = frame_at samples j) /\
      (half = true -> i < n /\ rd l ((W + i) mod 8192) = (frame_at samples i).1)
  | _ => True
  end.

Definition cons_ok (hist : list frame) (o : list (option frame)) (R : Z) (c : consumer) : Prop :=
  match c with
  | CIdle | CLoadR _ => reals o = take (Z.to_nat R) hist
  | CLoadW _ rpos => rpos = R mod 2 ^ 32 /\ reals o = take (Z.to_nat R) hist
  | CLoop k rpos available left_read =>
      exists r, rpos = (R + r) mod 2 ^ 32 /\ 0 <= r /\ 0 <= available /\
        R + r + available <= Z.of_nat (length hist) /\ reals o = take (Z.to_nat (R + r)) hist /\
        (forall v, left_read = Some v -> 0 < available /\ v = (frame_at hist (R + r)).1)
  end.

Record inv (s : Audio) (R : Z) : Prop := {
  i_bounds : 0 <= R <= Z.of_nat (length (acc s)) /\ Z.of_nat (length (acc s)) <= R + 8192;
  i_w : audio_write_pos s = Z.of_nat (length (acc s)) mod 2 ^ 32;
  i_r : audio_read_pos s = R mod 2 ^ 32;
  i_ring : forall p, R <= p < Z.of_nat (length (acc s)) -> cell (ring_l s) (ring_r s) p = frame_at (acc s) p;
  i_prod : prod_ok (ring_l s) (ring_r s) (Z.of_nat (length (acc s))) R (prod s);
  i_cons : cons_ok (acc s) (played s) R (cons s);
}.

(** *** Cursors *)

Lemma ring_index_mod p : ring_index (p mod 2 ^ 32) = p mod 8192.
Proof.
  unfold ring_index. change ANDROID_AUDIO_RING_MASK with (Z.ones 13). rewrite Z.land_ones by done.
  change (2 ^ 13) with 8192. apply Z.mod_mod_divide. by exists (2 ^ 19).
Qed.

Lemma cursor_diff a b : 0 <= a - b < 2 ^ 32 -> u32 (a mod 2 ^ 32 - b mod 2 ^ 32) = a - b.
Proof. intros H. unfold u32. rewrite <- Zminus_mod. by apply Z.mod_small. Qed.

Lemma cursor_next a : u32 (a mod 2 ^ 32 + 1) = (a + 1) mod 2 ^ 32.
Proof. unfold u32. by rewrite Zplus_mod_idemp_l. Qed.

Lemma accepted_spec frames W R : 0 <= frames -> 0 <= W - R <= 8192 ->
  accepted_frames frames (W mod 2 ^ 32) (R mod 2 ^ 32) = Z.min frames (8192 - (W - R)).
Proof.
  intros Hf Hd. unfold accepted_frames. rewrite cursor_diff by lia.
  unfold ANDROID_AUDIO_RING_FRAMES, u32. rewrite Z.mod_small by lia.
  destruct (Z.ltb_spec (8192 - (W - R)) frames); lia.
Qed.

(** Two positions less than a ring apart have different cells. *)
Lemma cells_differ p q : p < q < p + 8192 -> p mod 8192 <> q mod 8192.
Proof.
  intros H He. assert ((q - p) mod 8192 = 0) as Hz by (rewrite Zminus_mod, He, Z.sub_diag; done).
  rewrite Z.mod_small in Hz; lia.
Qed.

Lemma cell_wr_l l r p q v : p mod 8192 <> q mod 8192 -> cell (wr (p mod 8192) v l) r q = cell l r q.
Proof. intros H. unfold cell. by rewrite rd_wr_ne. Qed.
Lemma cell_wr_r l r p q v : p mod 8192 <> q mod 8192 -> cell l (wr (p mod 8192) v r) q = cell l r q.
Proof. intros H. unfold cell. by rewrite rd_wr_ne. Qed.

Lemma frame_at_app l l' p : 0 <= p -> frame_at (l ++ l') p =
  if p <? Z.of_nat (length l) then frame_at l p else frame_at l' (p - Z.of_nat (length l)).
Proof.
  intros Hp. unfold frame_at. destruct (Z.ltb_spec p (Z.of_nat (length l))); [by rewrite app_nth1 by lia|].
  rewrite app_nth2 by lia. f_equal. lia.
Qed.

Lemma frame_at_take l n p : 0 <= p < n -> frame_at (take (Z.to_nat n) l) p = frame_at l p.
Proof.
  intros Hp. unfold frame_at. rewrite !nth_lookup. f_equal. apply lookup_take_lt. lia.
Qed.

Lemma take_snoc_at l p : 0 <= p < Z.of_nat (length l) ->
  take (Z.to_nat (p + 1)) l = take (Z.to_nat p) l ++ [frame_at l p].
Proof.
  intros Hp. replace (Z.to_nat (p + 1)) with (S (Z.to_nat p)) by lia. apply take_S_r.
  unfold frame_at. rewrite nth_lookup. destruct (l !! Z.to_nat p) eqn:E; [done|].
  apply lookup_ge_None in E. lia.
Qed.

Lemma reals_app o o' : reals (o ++ o') = reals o ++ reals o'.
Proof. apply omap_app. Qed.

(** *** Every step keeps it *)

(** A step that only changes where the producer is. *)
Lemma inv_prod s R p : inv s R -> prod_ok (ring_l s) (ring_r s) (Z.of_nat (length (acc s))) R p ->
  inv (s <| prod := p |>) R.
Proof. intros [] Hp. by split. Qed.

Lemma inv_cons s R c : inv s R -> cons_ok (acc s) (played s) R c -> inv (s <| cons := c |>) R.
Proof. intros [] Hc. by split. Qed.

(** The producer stores a sample of frame [i] outside the published frames. *)
Lemma store_left s R samples wpos i n : inv s R -> prod s = PCopy samples wpos i n false -> i < n ->
  inv (s <| ring_l ::= wr (ring_index wpos) (nth (Z.to_nat i) samples (0, 0)).1 |>
         <| prod := PCopy samples wpos i n true |>) R.
Proof.
  intros [Hb Hw Hr Hring Hp Hc] Hpr Hi. rewrite Hpr in Hp. cbn [prod_ok] in Hp.
  destruct Hp as (-> & Hin & Hn & Hfit & Hdone & _). rewrite ring_index_mod.
  set (W := Z.of_nat (length (acc s))) in *. split; try done; proj_red.
  - intros p Hp. rewrite cell_wr_l; [by apply Hring|]. apply not_eq_sym, cells_differ. fold W in Hp. lia.
  - fold W. split_and!; try done; try lia.
    + intros j Hj. rewrite cell_wr_l; [by apply Hdone|]. apply not_eq_sym, cells_differ. lia.
    + intros _. split; [done|]. by rewrite rd_wr_eq.
Qed.

Lemma store_right s R samples wpos i n : inv s R -> prod s = PCopy samples wpos i n true ->
  inv (s <| ring_r ::= wr (ring_index wpos) (nth (Z.to_nat i) samples (0, 0)).2 |>
         <| prod := PCopy samples (u32 (wpos + 1)) (i + 1) n false |>) R.
Proof.
  intros [Hb Hw Hr Hring Hp Hc] Hpr. rewrite Hpr in Hp. cbn [prod_ok] in Hp.
  destruct Hp as (-> & Hin & Hn & Hfit & Hdone & Hhalf). destruct (Hhalf eq_refl) as [Hi Hl].
  rewrite ring_index_mod, cursor_next. set (W := Z.of_nat (length (acc s))) in *. split; try done; proj_red.
  - intros p Hp. rewrite cell_wr_r; [by apply Hring|]. apply not_eq_sym, cells_differ. fold W in Hp. lia.
  - fold W. split_and!; try done; try lia; [by rewrite Z.add_assoc|].
    intros j Hj. destruct (Z.eq_dec j i) as [->|].
    + unfold cell. rewrite rd_wr_eq, Hl. unfold frame_at. by destruct (nth (Z.to_nat i) samples (0, 0)).
    + rewrite cell_wr_r; [apply Hdone; lia|]. apply not_eq_sym, cells_differ. lia.
Qed.

(** The publishing store appends the copied frames to the queue. *)
Lemma publish s R samples wpos i n : inv s R -> prod s = PCopy samples wpos i n false -> n <= i ->
  inv (s <| audio_write_pos := wpos |> <| acc ::= fun l => l ++ take (Z.to_nat n) samples |>
         <| prod := PIdle |>) R.
Proof.
  intros [Hb Hw Hr Hring Hp Hc] Hpr Hi. rewrite Hpr in Hp. cbn [prod_ok] in Hp.
  destruct Hp as (-> & Hin & Hn & Hfit & Hdone & _). assert (i = n) as -> by lia.
  assert (Z.of_nat (length (acc s ++ take (Z.to_nat n) samples)) = Z.of_nat (length (acc s)) + n) as Hlen.
  { rewrite length_app, length_take. lia. }
  set (W := Z.of_nat (length (acc s))) in *. split; try done; proj_red; rewrite ?Hlen; try done; [lia|..].
  - intros p Hp. rewrite frame_at_app by lia. fold W. destruct (Z.ltb_spec p W); [by apply Hring; lia|].
    rewrite frame_at_take by lia. rewrite <- Hdone by lia. f_equal. lia.
  - destruct (cons s) as [|k|k rpos|k rpos av left]; cbn [cons_ok] in *.
    + by rewrite Hc, take_app_le by lia.
    + by rewrite Hc, take_app_le by lia.
    + destruct Hc as [-> Hc]. split; [done|]. by rewrite Hc, take_app_le by lia.
    + destruct Hc as (r & Hr1 & Hr0 & Hav & Hle & Hre & Hleft). fold W in Hle. exists r.
      rewrite Hlen. split_and!; try done; [lia|by rewrite Hre, take_app_le by lia|].
      intros v Hv. destruct (Hleft v Hv) as [H0 ->]. split; [done|].
      rewrite frame_at_app by lia. fold W. by rewrite (proj2 (Z.ltb_lt (R + r) W)) by lia.
Qed.

Lemma producer_inv s R : inv s R -> inv (producer_step s) R.
Proof.
  intros Hi. unfold producer_step. destruct (prod s) as [|smp|smp|smp wpos|smp wpos i n half] eqn:Hp.
  - done.
  - destruct (audio_stream s); by apply inv_prod.
  - apply inv_prod; [done|]. apply Hi.
  - destruct Hi as [Hb Hw Hr Hring Hp' Hc] eqn:E. clear E. apply inv_prod; [done|].
    rewrite Hp in Hp'. cbn [prod_ok] in *. subst wpos. rewrite Hr, accepted_spec by lia.
    split_and!; [by rewrite Z.add_0_r|lia..|done].
  - destruct (Z.ltb_spec i n); [destruct half|destruct half].
    + by apply store_right.
    + by apply store_left.
    + destruct Hi as [_ _ _ _ Hp' _]. rewrite Hp in Hp'. destruct Hp' as (_ & _ & _ & _ & _ & Hh).
      destruct (Hh eq_refl). lia.
    + by apply (publish s R smp wpos i n).
Qed.

(** The callback: the release of the frames it has played moves [R]. *)
Lemma consumer_inv s R : inv s R -> exists R', inv (consumer_step s) R' /\ R <= R'.
Proof.
  intros Hi. pose proof Hi as [Hb Hw Hr Hring Hp Hc]. unfold consumer_step.
  destruct (cons s) as [|k|k rpos|k rpos av left] eqn:Hcs; cbn [cons_ok] in Hc.
  - by exists R.
  - exists R. split; [|lia]. apply inv_cons; done.
  - destruct Hc as [-> Hc]. exists R. split; [|lia]. apply inv_cons; [done|]. exists 0.
    rewrite Hw, cursor_diff, Z.add_0_r by lia. split_and!; try done; lia.
  - destruct Hc as (r & -> & Hr0 & Hav & Hle & Hre & Hleft). destruct k as [|k].
    { exists (R + r). split; [|lia]. split; try done; proj_red; [lia|intros p Hp'; apply Hring; lia|].
      destruct (prod s); cbn [prod_ok] in *; try done. destruct Hp as (? & ? & ? & ? & ? & ?).
      split_and!; try done; lia. }
    exists R. split; [|lia]. destruct (Z.ltb_spec 0 av) as [Hpos|Hz].
    + assert (cell (ring_l s) (ring_r s) (R + r) = frame_at (acc s) (R + r)) as Hcell by (apply Hring; lia).
      rewrite ring_index_mod. destruct left as [v|].
      * destruct (Hleft v eq_refl) as [_ ->]. split; try done; proj_red.
        exists (r + 1). rewrite cursor_next. split_and!; try done; try lia; [f_equal; lia|].
        replace (R + (r + 1)) with (R + r + 1) by lia.
        rewrite reals_app, Hre, take_snoc_at by lia. cbn. f_equal. f_equal.
        unfold cell in Hcell. rewrite <- Hcell. done.
      * apply inv_cons; [done|]. exists r. split_and!; try done.
        intros v [= <-]. split; [done|]. by rewrite <- Hcell.
    + assert (left = None) as -> by (destruct left as [v|]; [destruct (Hleft v eq_refl); lia|done]).
      split; try done; proj_red. exists r. split_and!; try done. by rewrite reals_app, Hre, app_nil_r.
Qed.

Lemma inv_fresh s : audio_read_pos s = 0 -> audio_write_pos s = 0 -> prod s = PIdle -> cons s = CIdle ->
  acc s = [] -> played s = [] -> inv s 0.
Proof.
  intros H1 H2 H3 H4 H5 H6. split; rewrite ?H1, ?H2, ?H3, ?H4, ?H5, ?H6; try done. cbn. lia.
Qed.

Lemma audio_reachable_inv s : reachable s -> exists R, inv s R.
Proof.
  induction 1 as [|s a s' _ [R IH] Hq Ha]; [exists 0; by apply inv_fresh|].
  destruct a as [samples|n| | |answer|]; cbn [act quiet] in *.
  - exists R. destruct (prod s) eqn:Hp; [|done..]. injection Ha as <-.
    destruct samples; [done|]. by apply inv_prod.
  - exists R. destruct (cons s) eqn:Hc; [|done..]. injection Ha as <-.
    apply inv_cons; [done|]. destruct IH as [_ _ _ _ _ IH]. by rewrite Hc in IH.
  - injection Ha as <-. exists R. by apply producer_inv.
  - injection Ha as <-. destruct (consumer_inv s R IH) as (R' & H & _). by exists R'.
  - injection Ha as <-. unfold xemu_android_audio_init. destruct (audio_stream s); [by exists R|].
    exists 0. destruct Hq, answer; by apply inv_fresh.
  - injection Ha as <-. exists 0. destruct Hq. by apply inv_fresh.
Qed.

(** C9. The ring is a queue: under every interleaving of the two threads, what
    the callback has played, silence aside, is exactly the beginning of what
    the producer has published, in order, complete frames, none lost and none
    repeated; at most 8192 frames wait in between, and between callbacks
    [xemu_android_audio_queued_bytes] is their size. *)
Theorem audio_ring_is_queue s : reachable s ->
  exists rest, acc s = reals (played s) ++ rest /\ Z.of_nat (length rest) <= ANDROID_AUDIO_RING_FRAMES /\
    (cons s = CIdle -> audio_stream s = true ->
       xemu_android_audio_queued_bytes s = 4 * Z.of_nat (length rest)).
Proof.
  intros (R & [Hb Hw Hr _ _ Hc])%audio_reachable_inv.
  assert (exists r, R <= r <= Z.of_nat (length (acc s)) /\ reals (played s) = take (Z.to_nat r) (acc s) /\
    (cons s = CIdle -> r = R)) as (r & Hle & Hre & Hidle).
  { destruct (cons s) as [|k|k rpos|k rpos av left]; cbn [cons_ok] in Hc.
    - exists R. by split_and!; try lia.
    - exists R. by split_and!; try lia.
    - exists R. destruct Hc as [_ Hc]. by split_and!; try lia.
    - destruct Hc as (q & _ & Hq & Hav & Hle & Hre & _). exists (R + q). by split_and!; try lia. }
  exists (drop (Z.to_nat r) (acc s)). rewrite Hre, take_drop, length_drop.
  split; [done|]. split; [unfold ANDROID_AUDIO_RING_FRAMES; lia|]. intros Hi Hst.
  unfold xemu_android_audio_queued_bytes. rewrite Hst, Hw, Hr, cursor_diff, (Hidle Hi) by lia.
  unfold s32, ANDROID_AUDIO_CHANNELS. rewrite Z.mod_small by lia. lia.
Qed.

(** C31. The threads never race for a cell: whenever the next step of the
    producer stores a sample and the next step of the callback reads one, the
    two cells are different frames of the ring. *)
Theorem audio_no_race s samples wpos i n half k rpos available left_read : reachable s ->
  prod s = PCopy samples wpos i n half -> i < n ->
  cons s = CLoop (S k) rpos available left_read -> 0 < available ->
  ring_index wpos <> ring_index rpos.
Proof.
  intros (R & [Hb _ _ _ Hp Hc])%audio_reachable_inv Hps Hi Hcs Hav.
  rewrite Hps in Hp. rewrite Hcs in Hc. destruct Hp as (-> & Hin & _ & Hfit & _).
  destruct Hc as (r & -> & Hr & _ & Hle & _). rewrite !ring_index_mod.
  apply not_eq_sym, cells_differ. lia.
Qed.

(** *** The callback never waits *)

(** The steps a callback still has to take. *)
Definition todo (c : consumer) : nat :=
  match c with
  | CIdle => 0
  | CLoadR n => 2 * n + 3
  | CLoadW n _ => 2 * n + 2
  | CLoop k _ _ left_read => 2 * k + 1 - match left_read with Some _ => 1 | None => 0 end
  end.

(** The frames it still has to write. *)
Definition to_play (c : consumer) : nat :=
  match c with CIdle => 0 | CLoadR n | CLoadW n _ | CLoop n _ _ _ => n end.

Definition half_read (c : consumer) : Prop :=
  match c with CLoop k _ _ (Some _) => k <> O | _ => True end.

Lemma consumer_progress s : half_read (cons s) -> cons s <> CIdle ->
  (todo (cons (consumer_step s)) < todo (cons s))%nat /\ half_read (cons (consumer_step s)) /\
  (length (played (consumer_step s)) + to_play (cons (consumer_step s)) =
   length (played s) + to_play (cons s))%nat.
Proof.
  intros Hh Hc. unfold consumer_step. destruct (cons s) as [|n|n rpos|k rpos av left]; [done|..].
  - split; [cbn; lia|done].
  - split; [cbn; lia|done].
  - destruct k as [|k]; [split; [cbn; destruct left; [done|lia]|done]|].
    destruct (0 <? av); [destruct left|]; proj_red; cbn [todo half_read to_play]; rewrite ?length_app; cbn [length];
      (split; [destruct left || idtac; lia|]); split; try done; lia.
Qed.

Definition is_reset (a : action) : bool := match a with Init _ | Shutdown => true | _ => false end.
Definition is_consumer (a : action) : bool := match a with RunConsumer => true | _ => false end.

(** Other actions leave a running callback alone. *)
Lemma other_progress s a s' : act s a = Some s' -> is_consumer a = false -> is_reset a = false ->
  cons s <> CIdle -> cons s' = cons s /\ played s' = played s.
Proof.
  intros Ha Hc Hr Hb. destruct a as [samples|n| | | |]; try done; cbn [act] in Ha.
  - destruct (prod s); [|done..]. injection Ha as <-. by destruct samples.
  - by destruct (cons s).
  - injection Ha as <-. unfold producer_step. destruct (prod s) as [| | | |? ? i n half]; try done.
    + by destruct (audio_stream s).
    + destruct (i <? n); [by destruct half|done].
Qed.

Lemma callback_ends l : forall s s', half_read (cons s) -> run s l = Some s' ->
  forallb (fun a => negb (is_reset a)) l = true ->
  (todo (cons s) <= length (filter (fun a => is_consumer a = true) l))%nat ->
  exists l1 l2 s1, l = l1 ++ l2 /\ run s l1 = Some s1 /\ cons s1 = CIdle /\
    length (played s1) = (length (played s) + to_play (cons s))%nat.
Proof.
  induction l as [|a l IH]; intros s s' Hh Hrun Hnr Htodo.
  - exists [], [], s. assert (cons s = CIdle) as Hi.
    { cbn in Htodo. destruct (cons s) as [|n|n rpos|k rpos av left]; [done|cbn in Htodo; lia..|].
      cbn in Htodo, Hh. destruct left; lia. }
    rewrite Hi. cbn. split_and!; try done; lia.
  - assert (cons s = CIdle \/ cons s <> CIdle) as [Hi|Hb] by (destruct (cons s); [by left|by right..]).
    { exists [], (a :: l), s. rewrite Hi. cbn. split_and!; try done; lia. }
    cbn [run] in Hrun. destruct (act s a) as [s1|] eqn:Ha; [|done]. cbn [forallb] in Hnr.
    apply andb_true_iff in Hnr as [Hra Hnr]. apply negb_true_iff in Hra.
    destruct (is_consumer a) eqn:Hca.
    + destruct a; try done. injection Ha as <-. destruct (consumer_progress s Hh Hb) as (H1 & H2 & H3).
      rewrite filter_cons_True in Htodo by done. cbn [length] in Htodo.
      destruct (IH (consumer_step s) s') as (l1 & l2 & s2 & -> & Hr & Hc & Hp); try done; [lia|].
      exists (RunConsumer :: l1), l2, s2. split_and!; try done; lia.
    + destruct (other_progress s a s1 Ha Hca Hra Hb) as [H1 H2].
      rewrite filter_cons_False in Htodo by (by rewrite Hca).
      destruct (IH s1 s') as (l1 & l2 & s2 & -> & Hr & Hc & Hp); try done; [by rewrite H1|by rewrite H1|].
      exists (a :: l1), l2, s2. cbn [run]. rewrite Ha. split_and!; try done. by rewrite Hp, H1, H2.
Qed.



(** ** Examples *)

Definition audio1 : Audio :=
  match run audio0 (Init Starts :: Queue [(1, -1); (2, -2); (3, -3)] :: repeat RunProducer 10) with
  | Some s => s | None => audio0 end.

Lemma reachable_run l : forall s s', reachable s -> run s l = Some s' ->
  forallb (fun a => negb (is_reset a)) l = true -> reachable s'.
Proof.
  induction l as [|a l IH]; intros s s' Hr Hrun Hnr; [by injection Hrun as <-|].
  cbn [run forallb] in *. destruct (act s a) as [s1|] eqn:Ha; [|done].
  apply andb_true_iff in Hnr as [Hra Hnr]. apply (IH s1); [|done|done].
  apply (reach_act s a); [done| |done]. by destruct a.
Qed.

Lemma audio1_reachable : reachable audio1.
Proof.
  apply (reachable_run (Queue [(1, -1); (2, -2); (3, -3)] :: repeat RunProducer 10)
    (xemu_android_audio_init audio0 Starts).1); [|by vm_compute|done].
  by apply (reach_act audio0 (Init Starts)); [constructor|..].
Qed.

Lemma audio_ring_is_queue_witness :
  exists rest, acc audio1 = reals (played audio1) ++ rest /\ length rest = 3%nat /\
    xemu_android_audio_queued_bytes audio1 = 12.
Proof.
  destruct (audio_ring_is_queue audio1 audio1_reachable) as (rest & H1 & _ & H2).
  exists rest. assert (length rest = 3%nat) as Hl.
  { apply (f_equal length) in H1. rewrite length_app in H1. by vm_compute in H1. }
  split; [done|]. split; [done|]. rewrite (H2 eq_refl eq_refl), Hl. done.
Defined.

Definition audio2 : Audio :=
  match run audio1 (Callback 2 :: Queue [(4, -4)] ::
    [RunConsumer; RunConsumer; RunProducer; RunProducer; RunProducer]) with
  | Some s => s | None => audio1 end.

Lemma audio2_reachable : reachable audio2.
Proof.
  apply (reachable_run (Callback 2 :: Queue [(4, -4)] ::
    [RunConsumer; RunConsumer; RunProducer; RunProducer; RunProducer]) audio1);
    [apply audio1_reachable|by vm_compute|done].
Qed.

Lemma audio_no_race_witness : ring_index 3 <> ring_index 0.
Proof.
  apply (audio_no_race audio2 [(4, -4)] 3 0 1 false 1 0 3 None); [apply audio2_reachable|by vm_compute..].
Defined.

