(* ===== verification/Sha1.v ===== *)
(** The SHA-1 of the EEPROM generator (src/xemu/util/sha1.c, sha1.h).

    The context collects bytes in a 64-byte block that is processed when it is
    full; the theorem relates it to the definition of the hash in FIPS 180-4,
    with the message padded and split into blocks, from any intermediate state
    and any count of bits already hashed, which is how the generator uses it. *)

From S2P Require Import Prelude.

Record SHA1Context := mkSha1 {
  intermediate : list Z;
  msg_blk : list Z;
  msg_blk_index : Z;
  ctx_length : Z;
  computed : bool;
}.
#[export] Instance SHA1Context_settable : Settable SHA1Context :=
  settable! mkSha1 < intermediate ; msg_blk ; msg_blk_index ; ctx_length ; computed >.

Definition sha1_rotate (bits val : Z) : Z := Z.lor (u32 (Z.shiftl val bits)) (Z.shiftr val (32 - bits)).

Definition sha1_fill (ctx : SHA1Context) (a b c d e : Z) : SHA1Context :=
  ctx <| intermediate := [a; b; c; d; e] |>.

(** Word [i] of the block, big-endian. *)
Definition be_word (blk : list Z) (i : nat) : Z :=
  let b j := nth (4 * i + j) blk 0 in
  Z.lor (Z.shiftl (b 0%nat) 24) (Z.lor (Z.shiftl (b 1%nat) 16) (Z.lor (Z.shiftl (b 2%nat) 8) (b 3%nat))).

(** The array [w]: the words of the block, then 64 more from earlier ones. *)
Definition w_next (w : list Z) : list Z :=
  let i := length w in
  let at_ k := nth (i - k) w 0 in
  w ++ [sha1_rotate 1 (Z.lxor (Z.lxor (Z.lxor (at_ 3%nat) (at_ 8%nat)) (at_ 14%nat)) (at_ 16%nat))].
Definition w_array (blk : list Z) : list Z := Nat.iter 64 w_next (map (be_word blk) (seq 0 16)).

Definition sha1_regs : Type := Z * Z * Z * Z * Z.

Definition sha1_round (w : list Z) (r : sha1_regs) (i : nat) : sha1_regs :=
  let '(a, b, c, d, e) := r in
  let temp := u32 (u32 (sha1_rotate 5 a + nth i w 0) + e) in
  let add := match (i / 20)%nat with
    | 0%nat => u32 (0x5A827999 + Z.lor (Z.land b c) (Z.land (u32 (Z.lnot b)) d))
    | 1%nat => u32 (0x6ED9EBA1 + Z.lxor (Z.lxor b c) d)
    | 2%nat => u32 (0x8F1BBCDC + Z.lor (Z.lor (Z.land b c) (Z.land b d)) (Z.land c d))
    | 3%nat => u32 (0xCA62C1D6 + Z.lxor (Z.lxor b c) d)
    | _ => 0
    end in
  (u32 (temp + add), a, sha1_rotate 30 b, c, d).

Definition sha1_process (ctx : SHA1Context) : SHA1Context :=
  let h i := nth i (intermediate ctx) 0 in
  let w := w_array (msg_blk ctx) in
  let '(a, b, c, d, e) :=
    fold_left (sha1_round w) (seq 0 80) (h 0%nat, h 1%nat, h 2%nat, h 3%nat, h 4%nat) in
  ctx <| intermediate := [u32 (h 0%nat + a); u32 (h 1%nat + b); u32 (h 2%nat + c); u32 (h 3%nat + d); u32 (h 4%nat + e)] |>
      <| msg_blk_index := 0 |>.

(** [ctx->msg_blk[ctx->msg_blk_index++] = v]. *)
Definition put (v : Z) (ctx : SHA1Context) : result SHA1Context :=
  if msg_blk_index ctx <? 64
  then Ok (ctx <| msg_blk := <[Z.to_nat (msg_blk_index ctx) := v]> (msg_blk ctx) |>
               <| msg_blk_index := u32 (msg_blk_index ctx + 1) |>)
  else Fault OutOfBounds.

Fixpoint put_zeros (n : nat) (ctx : SHA1Context) : result SHA1Context :=
  match n with O => Ok ctx | S n => ctx ← put 0 ctx; put_zeros n ctx end.

(** [while (ctx->msg_blk_index < limit)] stores a zero, which advances the index. *)
Definition zero_until (limit : Z) (ctx : SHA1Context) : result SHA1Context :=
  put_zeros (Z.to_nat (limit - msg_blk_index ctx)) ctx.

Definition be_bytes4 (v : Z) : list Z := [u8 (Z.shiftr v 24); u8 (Z.shiftr v 16); u8 (Z.shiftr v 8); u8 v].

(** The end of [sha1_pad]: zeros up to the length, the length, the last block. *)
Definition pad_tail (ctx : SHA1Context) : result SHA1Context :=
  ctx ← zero_until 56 ctx;
  b ← blit (msg_blk ctx) 56 [0; 0; 0; 0];
  b ← blit b 60 (be_bytes4 (ctx_length ctx));
  Ok (sha1_process (ctx <| msg_blk := b |>)).

Definition sha1_pad (ctx : SHA1Context) : result SHA1Context :=
  ctx ← put 0x80 ctx;
  ctx ← (if 56 <? msg_blk_index ctx then ctx ← zero_until 64 ctx; Ok (sha1_process ctx) else Ok ctx);
  pad_tail ctx.

(** The loop of [sha1_input]; [data] reads byte [i] of the input, which may lie in
    the context itself. *)
Fixpoint input_loop (data : SHA1Context -> Z -> Z) (i : Z) (n : nat) (ctx : SHA1Context) : result SHA1Context :=
  match n with
  | O => Ok ctx
  | S n =>
      ctx ← put (data ctx i) ctx;
      input_loop data (i + 1) n (if msg_blk_index ctx =? 64 then sha1_process ctx else ctx)
  end.

Definition sha1_input (ctx : SHA1Context) (data : SHA1Context -> Z -> Z) (len : Z) : result SHA1Context :=
  input_loop data 0 (Z.to_nat len) (ctx <| ctx_length := u32 (ctx_length ctx + u64 (Z.shiftl len 3)) |>).

(** The twenty bytes [sha1_result] stores. *)
Definition result_bytes (ctx : SHA1Context) : list Z :=
  map (fun i => u8 (Z.shiftr (nth (i / 4) (intermediate ctx) 0) (8 * (3 - Z.of_nat (i mod 4))))) (seq 0 20).

Definition sha1_result (ctx : SHA1Context) : result (SHA1Context * list Z) :=
  ctx ← (if computed ctx then Ok ctx
         else ctx ← sha1_pad ctx; Ok (ctx <| ctx_length := 0 |> <| computed := true |>));
  Ok (ctx, result_bytes ctx).

Definition sha1_reset (ctx : SHA1Context) : SHA1Context :=
  sha1_fill ctx 0x67452301 0xEFCDAB89 0x98BADCFE 0x10325476 0xC3D2E1F0
    <| msg_blk_index := 0 |> <| computed := false |> <| ctx_length := 0 |>.

(** ** The definition of the standard *)

Definition ROTL (n x : Z) : Z := Z.lor (u32 (Z.shiftl x n)) (Z.shiftr x (32 - n)).
Definition Ch (x y z : Z) : Z := Z.lxor (Z.land x y) (Z.land (u32 (Z.lnot x)) z).
Definition Parity (x y z : Z) : Z := Z.lxor (Z.lxor x y) z.
Definition Maj (x y z : Z) : Z := Z.lxor (Z.lxor (Z.land x y) (Z.land x z)) (Z.land y z).

Definition f_t (t : nat) : Z -> Z -> Z -> Z :=
  if decide (t < 20)%nat then Ch else if decide (t < 40)%nat then Parity
  else if decide (t < 60)%nat then Maj else Parity.
Definition K_t (t : nat) : Z :=
  if decide (t < 20)%nat then 0x5a827999 else if decide (t < 40)%nat then 0x6ed9eba1
  else if decide (t < 60)%nat then 0x8f1bbcdc else 0xca62c1d6.

(** The message schedule; [n] exceeds [t]. *)
Fixpoint W_up_to (M : list Z) (n t : nat) : Z :=
  match n with
  | O => 0
  | S n =>
      if decide (t < 16)%nat then be_word M t
      else ROTL 1 (Z.lxor (Z.lxor (Z.lxor (W_up_to M n (t - 3)) (W_up_to M n (t - 8))) (W_up_to M n (t - 14)))
                     (W_up_to M n (t - 16)))
  end.
Definition W (M : list Z) (t : nat) : Z := W_up_to M (S t) t.

Definition step_t (M : list Z) (r : sha1_regs) (t : nat) : sha1_regs :=
  let '(a, b, c, d, e) := r in
  (u32 (ROTL 5 a + f_t t b c d + e + K_t t + W M t), a, ROTL 30 b, c, d).

Definition compress (H M : list Z) : list Z :=
  let h i := nth i H 0 in
  let '(a, b, c, d, e) := fold_left (step_t M) (seq 0 80) (h 0%nat, h 1%nat, h 2%nat, h 3%nat, h 4%nat) in
  [u32 (h 0%nat + a); u32 (h 1%nat + b); u32 (h 2%nat + c); u32 (h 3%nat + d); u32 (h 4%nat + e)].

(** One bit, zeros to eight bytes short of a block, the number of bits. *)
Definition padding (m : nat) (bits : Z) : list Z :=
  0x80 :: repeat 0 ((119 - m mod 64) mod 64) ++ rev (le_bytes 8 bits).

Fixpoint split64 (n : nat) (l : list Z) : list (list Z) :=
  match n with O => [] | S n => take 64 l :: split64 n (drop 64 l) end.

Definition hash_from (H : list Z) (bits : Z) (m : list Z) : list Z :=
  let l := m ++ padding (length m) bits in
  concat (map be_bytes4 (fold_left compress (split64 (length l / 64) l) H)).

Definition SHA1 (m : list Z) : list Z :=
  hash_from [0x67452301; 0xEFCDAB89; 0x98BADCFE; 0x10325476; 0xC3D2E1F0] (8 * Z.of_nat (length m)) m.

(** ** One block *)

Lemma W_enough M n : forall t, (t < n)%nat -> W_up_to M n t = W M t.
Proof.
  induction n as [n IH] using lt_wf_ind. intros t Ht. destruct n as [|n]; [lia|]. unfold W. cbn [W_up_to].
  destruct (decide (t < 16)%nat); [done|]. by rewrite !(IH n), !(IH t) by lia.
Qed.

Lemma W_first M t : (t < 16)%nat -> W M t = be_word M t.
Proof. intros Ht. unfold W. cbn [W_up_to]. by rewrite decide_True. Qed.

Lemma W_next M t : (16 <= t)%nat ->
  W M t = ROTL 1 (Z.lxor (Z.lxor (Z.lxor (W M (t - 3)) (W M (t - 8))) (W M (t - 14))) (W M (t - 16))).
Proof. intros Ht. unfold W at 1. cbn [W_up_to]. rewrite decide_False, !W_enough by lia. done. Qed.

Lemma w_next_upto M w : (16 <= length w)%nat -> (forall t, (t < length w)%nat -> nth t w 0 = W M t) ->
  length (w_next w) = S (length w) /\ forall t, (t < S (length w))%nat -> nth t (w_next w) 0 = W M t.
Proof.
  intros Hl Hn. unfold w_next. rewrite length_app. cbn [length]. split; [lia|]. intros t Ht.
  destruct (decide (t < length w)%nat) as [Hlt|Hlt]; [rewrite app_nth1 by lia; by apply Hn|].
  assert (t = length w) as -> by lia. rewrite app_nth2, Nat.sub_diag by lia. cbn [nth].
  rewrite !Hn by lia. by rewrite (W_next M (length w)).
Qed.

Lemma w_array_upto M w0 k : length w0 = 16%nat -> (forall t, (t < 16)%nat -> nth t w0 0 = W M t) ->
  length (Nat.iter k w_next w0) = (16 + k)%nat /\
  forall t, (t < 16 + k)%nat -> nth t (Nat.iter k w_next w0) 0 = W M t.
Proof.
  intros H0 Hn. induction k as [|k [IHl IHn]]; [by rewrite Nat.add_0_r|]. rewrite Nat.iter_succ.
  destruct (w_next_upto M (Nat.iter k w_next w0)) as [Hl' Hn']; rewrite ?IHl; [lia|done|].
  rewrite IHl in Hl', Hn'. rewrite <- plus_n_Sm. by split.
Qed.

Lemma w_array_spec M t : (t < 80)%nat -> nth t (w_array M) 0 = W M t.
Proof.
  intros Ht. apply (w_array_upto M _ 64); [by rewrite length_map, length_seq| |lia].
  clear t Ht. intros t Ht. rewrite W_first by done.
  rewrite (nth_indep _ 0 (be_word M 0)) by (rewrite length_map, length_seq; lia).
  by rewrite map_nth, seq_nth by lia.
Qed.

Ltac bitwise := apply Z.bits_inj'; intros m Hm; rewrite ?Z.lor_spec, ?Z.lxor_spec, ?Z.land_spec, ?Z.lor_spec, ?Z.lxor_spec, ?Z.land_spec.

Lemma choose_or b c d : Z.lor (Z.land b c) (Z.land (u32 (Z.lnot b)) d) = Ch b c d.
Proof.
  unfold Ch, u32. bitwise. rewrite Z.testbit_mod_pow2, Z.lnot_spec by lia.
  by destruct (Z.testbit b m), (Z.testbit c m), (Z.testbit d m), (m <? 32).
Qed.

Lemma majority_or b c d : Z.lor (Z.lor (Z.land b c) (Z.land b d)) (Z.land c d) = Maj b c d.
Proof. unfold Maj. bitwise. by destruct (Z.testbit b m), (Z.testbit c m), (Z.testbit d m). Qed.

Lemma add32 x w e k f : u32 (u32 (u32 (x + w) + e) + u32 (k + f)) = u32 (x + f + e + k + w).
Proof.
  unfold u32. rewrite Zplus_mod_idemp_l, Zplus_mod_idemp_r. rewrite <- Z.add_assoc, Zplus_mod_idemp_l. f_equal. lia.
Qed.

Lemma sha1_round_spec M r i : (i < 80)%nat -> sha1_round (w_array M) r i = step_t M r i.
Proof.
  intros Hi. destruct r as [[[[a b] c] d] e]. unfold sha1_round, step_t. rewrite w_array_spec by done.
  assert (forall q, (20 * q <= i < 20 * q + 20)%nat -> (i / 20 = q)%nat) as Hq.
  { intros q Hb. symmetry. apply (Nat.div_unique i 20 q (i - 20 * q)); lia. }
  unfold f_t, K_t. destruct (decide (i < 20)%nat); [rewrite (Hq 0%nat), choose_or, add32 by lia; done|].
  destruct (decide (i < 40)%nat); [rewrite (Hq 1%nat), add32 by lia; done|].
  destruct (decide (i < 60)%nat); [rewrite (Hq 2%nat), majority_or, add32 by lia; done|].
  rewrite (Hq 3%nat), add32 by lia. done.
Qed.

Lemma fold_left_ext {A B} (f g : A -> B -> A) l : (forall a x, x ∈ l -> f a x = g a x) ->
  forall a, fold_left f l a = fold_left g l a.
Proof.
  induction l as [|x l IH]; intros Hfg a; [done|]. cbn [fold_left].
  rewrite (Hfg a x) by (left). apply IH. intros b y Hy. apply Hfg. by right.
Qed.

Lemma sha1_process_spec ctx : sha1_process ctx =
  ctx <| intermediate := compress (intermediate ctx) (msg_blk ctx) |> <| msg_blk_index := 0 |>.
Proof.
  unfold sha1_process, compress. rewrite (fold_left_ext (sha1_round (w_array (msg_blk ctx))) (step_t (msg_blk ctx))).
  - by destruct (fold_left _ _ _) as [[[[a b] c] d] e].
  - intros r i Hi. apply sha1_round_spec. apply elem_of_seq in Hi. lia.
Qed.

(** ** The block fills up *)

(** [p] is what the block holds so far. *)
Record pending (ctx : SHA1Context) (p : list Z) : Prop := {
  p_size : length (msg_blk ctx) = 64%nat;
  p_index : msg_blk_index ctx = Z.of_nat (length p);
  p_room : (length p <= 64)%nat;
  p_bytes : take (length p) (msg_blk ctx) = p;
}.

(** The rest of the context. *)
Definition same_rest (ctx ctx' : SHA1Context) : Prop :=
  intermediate ctx' = intermediate ctx /\ ctx_length ctx' = ctx_length ctx /\ computed ctx' = computed ctx.

Lemma put_pending ctx p v : pending ctx p -> (length p < 64)%nat ->
  exists ctx', put v ctx = Ok ctx' /\ pending ctx' (p ++ [v]) /\ same_rest ctx ctx'.
Proof.
  intros [Hs Hi Hr Hb] Hl. unfold put. rewrite (proj2 (Z.ltb_lt _ _)) by lia. eexists. split; [done|].
  split; [|done]. split; proj_red.
  - by rewrite length_insert.
  - rewrite Hi, length_app. cbn [length]. rewrite u32_id by (unfold is_u32; lia). lia.
  - rewrite length_app. cbn. lia.
  - rewrite length_app, Hi, Nat2Z.id. cbn [length]. rewrite Nat.add_1_r.
    rewrite (take_S_r _ _ v) by (apply list_lookup_insert_eq; lia). by rewrite take_insert_ge, Hb by lia.
Qed.

Lemma put_zeros_pending n : forall ctx p, pending ctx p -> (length p + n <= 64)%nat ->
  exists ctx', put_zeros n ctx = Ok ctx' /\ pending ctx' (p ++ repeat 0 n) /\ same_rest ctx ctx'.
Proof.
  induction n as [|n IH]; intros ctx p Hp Hl; cbn [put_zeros repeat]; [exists ctx; by rewrite app_nil_r|].
  destruct (put_pending ctx p 0 Hp ltac:(lia)) as (c1 & -> & H1 & E1). cbn [mbind result_mbind result_bind].
  destruct (IH c1 (p ++ [0]) H1) as (c2 & -> & H2 & E2); [rewrite length_app; cbn; lia|].
  exists c2. rewrite <- app_assoc in H2. split; [done|]. split; [done|]. unfold same_rest in *. split_and!; naive_solver congruence.
Qed.

Lemma zero_until_pending limit ctx p : pending ctx p -> Z.of_nat (length p) <= limit <= 64 ->
  exists ctx', zero_until limit ctx = Ok ctx' /\ same_rest ctx ctx' /\
    pending ctx' (p ++ repeat 0 (Z.to_nat limit - length p)).
Proof.
  intros Hp Hl. unfold zero_until. rewrite (p_index _ _ Hp).
  replace (Z.to_nat (limit - Z.of_nat (length p))) with (Z.to_nat limit - length p)%nat by lia.
  destruct (put_zeros_pending (Z.to_nat limit - length p) ctx p Hp) as (c & -> & H & E); [lia|]. by exists c.
Qed.

(** A full block is hashed. *)
Lemma process_pending ctx p : pending ctx p -> length p = 64%nat ->
  intermediate (sha1_process ctx) = compress (intermediate ctx) p /\
  ctx_length (sha1_process ctx) = ctx_length ctx /\ computed (sha1_process ctx) = computed ctx /\
  pending (sha1_process ctx) [].
Proof.
  intros [Hs Hi Hr Hb] Hl. rewrite sha1_process_spec. rewrite Hl, <- Hs, take_ge in Hb by done.
  replace (compress (intermediate ctx) (msg_blk ctx)) with (compress (intermediate ctx) p) by (by rewrite Hb).
  generalize (compress (intermediate ctx) p). intros K. proj_red. split; [done|]. split; [done|]. split; [done|]. split; proj_red; [done..|cbn; lia|done].
Qed.

(** ** The message *)

(** The context has hashed [blks] from [H] and holds [p]. *)
Definition absorbed (H : list Z) (blks : list (list Z)) (p : list Z) (ctx : SHA1Context) : Prop :=
  intermediate ctx = fold_left compress blks H /\ Forall (fun b => length b = 64%nat) blks /\
  pending ctx p /\ (length p < 64)%nat.

Lemma feed H blks p ctx v : absorbed H blks p ctx -> exists ctx1 blks' p', put v ctx = Ok ctx1 /\
  (let ctx' := if msg_blk_index ctx1 =? 64 then sha1_process ctx1 else ctx1 in
   absorbed H blks' p' ctx' /\ ctx_length ctx' = ctx_length ctx /\ computed ctx' = computed ctx) /\
  concat blks' ++ p' = (concat blks ++ p) ++ [v].
Proof.
  intros (Hi & Hb & Hp & Hl). destruct (put_pending ctx p v Hp Hl) as (c & -> & Hp' & E1 & E2 & E3).
  pose proof (p_index _ _ Hp') as Hidx. assert (length (p ++ [v]) = S (length p)) as Hlen by (rewrite length_app; cbn; lia).
  destruct (Z.eqb_spec (Z.of_nat (length (p ++ [v]))) 64) as [E|E].
  - destruct (process_pending c (p ++ [v]) Hp' ltac:(lia)) as (F1 & F2 & F3 & Hp'').
    exists c, (blks ++ [p ++ [v]]), []. rewrite Hidx, E, Z.eqb_refl. split; [done|]. split; [|by rewrite concat_app, app_nil_r; cbn; rewrite app_nil_r, app_assoc].
    set (c' := sha1_process c) in *. clearbody c'. cbn zeta. split; [|split; congruence].
    split; [rewrite fold_left_app; cbn [fold_left]; congruence|].
    split; [|split; [done|cbn; lia]]. apply Forall_app. split; [done|]. rewrite Forall_singleton. lia.
  - exists c, blks, (p ++ [v]). rewrite Hidx, (proj2 (Z.eqb_neq _ _)) by done. split; [done|]. split; [|by rewrite app_assoc]. cbn zeta.
    split; [|split; congruence]. split; [congruence|]. split; [done|]. split; [done|].
    pose proof (p_room _ _ Hp'). lia.
Qed.

Definition const_data (m : list Z) : SHA1Context -> Z -> Z := fun _ i => byte m i.

Lemma input_absorbs H pre : forall n m blks p ctx, absorbed H blks p ctx -> length m = n ->
  exists ctx' blks' p', input_loop (const_data (pre ++ m)) (Z.of_nat (length pre)) n ctx = Ok ctx' /\
    absorbed H blks' p' ctx' /\ concat blks' ++ p' = (concat blks ++ p) ++ m /\
    ctx_length ctx' = ctx_length ctx /\ computed ctx' = computed ctx.
Proof.
  intros n m. revert n pre. induction m as [|v m IH]; intros n pre blks p ctx Ha <-; cbn [input_loop length].
  - exists ctx, blks, p. by rewrite app_nil_r.
  - assert (const_data (pre ++ v :: m) ctx (Z.of_nat (length pre)) = v) as ->.
    { unfold const_data, byte. rewrite Nat2Z.id, app_nth2, Nat.sub_diag by lia. done. }
    destruct (feed H blks p ctx v Ha) as (c & b1 & p1 & -> & (Ha' & L1 & C1) & Hc).
    cbn [mbind result_mbind result_bind].
    destruct (IH (length m) (pre ++ [v]) b1 p1 _ Ha' eq_refl) as (c' & b2 & p2 & E & H2 & Hc2 & L2 & C2).
    rewrite <- app_assoc, length_app in E. cbn [app length] in E. rewrite Nat.add_1_r, Nat2Z.inj_succ in E.
    exists c', b2, p2. split; [exact E|]. split; [done|]. split; [by rewrite Hc2, Hc, <- !app_assoc|]. split; congruence.
Qed.

Lemma be_bytes4_word v : 0 <= v < 2 ^ 32 -> rev (le_bytes 8 v) = [0; 0; 0; 0] ++ be_bytes4 v.
Proof.
  intros Hv. assert (v / 256 / 256 / 256 / 256 = 0) as Hz by (rewrite !Z.div_div by lia; apply Z.div_small; lia).
  unfold be_bytes4, u8. rewrite !Z.shiftr_div_pow2 by lia.
  replace (v / 2 ^ 24) with (v / 256 / 256 / 256) by (rewrite !Z.div_div by lia; done).
  replace (v / 2 ^ 16) with (v / 256 / 256) by (rewrite !Z.div_div by lia; done).
  change (2 ^ 8) with 256. cbn [le_bytes rev app]. rewrite Hz. done.
Qed.

(** The zeros, the length and the last block. *)
Lemma tail_absorbs ctx q : pending ctx q -> (length q <= 56)%nat ->
  exists ctx', pad_tail ctx = Ok ctx' /\
    intermediate ctx' = compress (intermediate ctx) (q ++ repeat 0 (56 - length q) ++ [0; 0; 0; 0] ++ be_bytes4 (ctx_length ctx)) /\
    length (msg_blk ctx') = 64%nat.
Proof.
  intros Hq Hl. unfold pad_tail. destruct (zero_until_pending 56 ctx q Hq ltac:(lia)) as (c & -> & (I & L & _) & Hc).
  cbn [mbind result_mbind result_bind]. change (Z.to_nat 56) with 56%nat in Hc.
  set (z := q ++ repeat 0 (56 - length q)) in *.
  assert (length z = 56%nat) as Hz by (unfold z; rewrite length_app, repeat_length; lia).
  destruct Hc as [Hs Hi Hr Hb]. rewrite Hz in Hb.
  rewrite blit_ok by (cbn; lia). cbn [mbind result_mbind result_bind].
  rewrite blit_ok by (rewrite ?length_inserts; cbn; lia). cbn [mbind result_mbind result_bind].
  set (b := list_inserts _ _ _). assert (b = z ++ [0; 0; 0; 0] ++ be_bytes4 (ctx_length c)) as Hbz.
  { unfold b. change (Z.to_nat 60) with 60%nat. change (Z.to_nat 56) with 56%nat.
    rewrite (inserts_split (msg_blk c) [0; 0; 0; 0] 56), Hb by (cbn; lia).
    rewrite inserts_split by (rewrite !length_app, length_drop, Hs, Hz; cbn; lia). rewrite take_app_ge, Hz by lia. change (60 - 56)%nat with 4%nat.
    rewrite (take_app_length' [0; 0; 0; 0]) by done.
    rewrite (drop_ge (z ++ _)) by (rewrite !length_app, length_drop, Hs, Hz; cbn; lia). by rewrite app_nil_r, <- app_assoc. }
  clearbody b. subst b. rewrite sha1_process_spec. generalize compress. intros K.
  eexists. split; [done|]. proj_red. rewrite I, L.
  split; [unfold z; by rewrite <- !app_assoc|]. rewrite length_app, Hz. done.
Qed.

(** What follows a message that left [p] in the block, and the blocks it makes. *)
Lemma pad_absorbs ctx p : pending ctx p -> (length p < 64)%nat ->
  exists ctx' blks, sha1_pad ctx = Ok ctx' /\ intermediate ctx' = fold_left compress blks (intermediate ctx) /\
    Forall (fun b => length b = 64%nat) blks /\ blks <> [] /\ length (msg_blk ctx') = 64%nat /\
    concat blks = p ++ 0x80 :: repeat 0 ((119 - length p) mod 64) ++ [0; 0; 0; 0] ++ be_bytes4 (ctx_length ctx).
Proof.
  intros Hp Hl. unfold sha1_pad. destruct (put_pending ctx p 0x80 Hp Hl) as (c1 & -> & Hp1 & I1 & L1 & _).
  cbn [mbind result_mbind result_bind]. rewrite (p_index _ _ Hp1).
  assert (length (p ++ [128]) = S (length p)) as Hl1 by (rewrite length_app; cbn; lia). rewrite Hl1.
  destruct (Z.ltb_spec 56 (Z.of_nat (S (length p)))) as [Hbig|Hsmall].
  - destruct (zero_until_pending 64 c1 (p ++ [128]) Hp1 ltac:(lia)) as (c2 & -> & (I2 & L2 & _) & Hp2).
    cbn [mbind result_mbind result_bind]. set (b1 := (p ++ [128]) ++ repeat 0 _) in *.
    assert (length b1 = 64%nat) as Hb1 by (unfold b1; rewrite length_app, repeat_length, Hl1; lia).
    destruct (process_pending c2 b1 Hp2 Hb1) as (I3 & L3 & _ & Hp3). set (c3 := sha1_process c2) in *. clearbody c3.
    destruct (tail_absorbs c3 [] Hp3 ltac:(cbn; lia)) as (c4 & -> & I4 & M4). cbn [app length Nat.sub] in I4.
    exists c4, [b1; repeat 0 56 ++ [0; 0; 0; 0] ++ be_bytes4 (ctx_length c3)]. cbn [fold_left concat].
    split; [done|]. split; [by rewrite I4, I3, I2, I1|]. split; [by repeat constructor|]. split; [done|]. split; [done|].
    rewrite L3, L2, L1, app_nil_r. unfold b1. rewrite Hl1. change (Z.to_nat 64) with 64%nat.
    replace ((119 - length p) mod 64)%nat with ((64 - S (length p)) + 56)%nat by (rewrite Nat.mod_small; lia).
    by rewrite repeat_app, <- !app_assoc.
  - cbn [mbind result_mbind result_bind].
    destruct (tail_absorbs c1 (p ++ [128]) Hp1 ltac:(lia)) as (c4 & -> & I4 & M4).
    eexists c4, [_]. cbn [fold_left concat]. split; [done|]. split; [by rewrite I4, I1|].
    split; [constructor; [rewrite (length_app (p ++ [128])), Hl1, !length_app, repeat_length; cbn; lia|constructor]|]. split; [done|]. split; [done|].
    rewrite L1, Hl1, app_nil_r, <- app_assoc. cbn [app].
    replace ((119 - length p) mod 64)%nat with (56 - S (length p))%nat; [done|].
    replace (119 - length p)%nat with (55 - length p + 1 * 64)%nat by lia. rewrite Nat.Div0.mod_add, Nat.mod_small; lia.
Qed.

(** ** The digest *)

Lemma split64_concat blks : Forall (fun b => length b = 64%nat) blks ->
  split64 (length (concat blks) / 64) (concat blks) = blks.
Proof.
  intros Hb. replace (length (concat blks) / 64)%nat with (length blks).
  - induction Hb as [|b blks Hb _ IH]; [done|]. cbn [length split64 concat].
    by rewrite take_app_length', drop_app_length', IH by done.
  - apply Nat.div_unique_exact; [done|]. induction Hb as [|b blks Hb _ IH]; [done|].
    cbn [length concat]. rewrite length_app, Hb, IH. lia.
Qed.

Lemma compress_len H b : length (compress H b) = 5%nat.
Proof. unfold compress. by destruct (fold_left (step_t b) _ _) as [[[[? ?] ?] ?] ?]. Qed.

Lemma compress_length blks H : blks <> [] -> length (fold_left compress blks H) = 5%nat.
Proof.
  intros Hne. destruct (exists_last Hne) as (l & b & ->). rewrite fold_left_app.
  generalize (compress_len (fold_left compress l H) b). generalize compress. intros K HK. exact HK.
Qed.

Lemma result_bytes_spec ctx : length (intermediate ctx) = 5%nat ->
  result_bytes ctx = concat (map be_bytes4 (intermediate ctx)).
Proof.
  unfold result_bytes. destruct (intermediate ctx) as [|a [|b [|c [|d [|e [|]]]]]]; done.
Qed.

(** The digest of a context that was just set up: the bytes [m] from the state it
    was given, with [m] and what it was told before counted in the length. *)
Lemma sha1_digest ctx m : length (msg_blk ctx) = 64%nat -> msg_blk_index ctx = 0 -> computed ctx = false ->
  0 <= ctx_length ctx -> ctx_length ctx + 8 * Z.of_nat (length m) < 2 ^ 32 ->
  exists ctx', (c ← sha1_input ctx (const_data m) (Z.of_nat (length m)); sha1_result c) =
      Ok (ctx', hash_from (intermediate ctx) (ctx_length ctx + 8 * Z.of_nat (length m)) m) /\
    length (msg_blk ctx') = 64%nat.
Proof.
  intros Hs Hi Hc H0 Hlen. unfold sha1_input. rewrite Nat2Z.id, Z.shiftl_mul_pow2 by lia.
  rewrite u64_id, u32_id by (unfold is_u64, is_u32; lia).
  set (bits := ctx_length ctx + 8 * Z.of_nat (length m)) in *.
  replace (ctx_length ctx + Z.of_nat (length m) * 2 ^ 3) with bits by (unfold bits; lia).
  destruct (input_absorbs (intermediate ctx) [] (length m) m [] [] (ctx <| ctx_length := bits |>))
    as (c1 & blks & p & E & (I1 & B1 & P1 & L1) & Hcat & Len1 & C1); [|done|].
  { split; [done|]. split; [done|]. split; [split; [done..|cbn; lia|done]|cbn; lia]. }
  cbn [app length] in E. change (Z.of_nat 0) with 0 in E. rewrite E. cbn [mbind result_mbind result_bind].
  cbn [concat app] in Hcat. unfold sha1_result. rewrite C1. proj_red. rewrite Hc.
  destruct (pad_absorbs c1 p P1 L1) as (c2 & blks2 & -> & I2 & B2 & Hne & M2 & Hcat2).
  cbn [mbind result_mbind result_bind]. exists (c2 <| ctx_length := 0 |> <| computed := true |>). split; [f_equal; f_equal|exact M2].
  change (ctx_length (ctx <| ctx_length := bits |>)) with bits in Len1.
  assert (m ++ padding (length m) bits = concat (blks ++ blks2)) as Hall.
  { rewrite concat_app, Hcat2, <- Hcat, <- app_assoc. f_equal. f_equal. unfold padding.
    rewrite Len1, be_bytes4_word by lia. f_equal. f_equal. f_equal. rewrite length_app.
    assert (length (concat blks) mod 64 = 0)%nat as Hm.
    { clear - B1. induction B1 as [|b blks Hb _ IH]; [done|]. cbn [concat]. rewrite length_app, Hb.
      by rewrite Nat.Div0.add_mod, IH. }
    rewrite Nat.Div0.add_mod, Hm, Nat.add_0_l, Nat.Div0.mod_mod, (Nat.mod_small (length p)) by lia. done. }
  rewrite result_bytes_spec by (proj_red; rewrite I2; by apply compress_length). proj_red.
  unfold hash_from. rewrite Hall, split64_concat by (by apply Forall_app). by rewrite fold_left_app, I2, I1.
Qed.

(** Input from the context's own block: as the bytes are stored where they are
    read, the block does not change. *)
Definition own_block : SHA1Context -> Z -> Z := fun ctx i => byte (msg_blk ctx) i.

Lemma input_own_block n : forall ctx i, msg_blk_index ctx = i -> 0 <= i -> i + Z.of_nat n < 64 ->
  length (msg_blk ctx) = 64%nat ->
  input_loop own_block i n ctx = input_loop (const_data (msg_blk ctx)) i n ctx.
Proof.
  induction n as [|n IH]; intros ctx i Hi H0 Hn Hl; cbn [input_loop]; [done|].
  change (own_block ctx i) with (byte (msg_blk ctx) i). change (const_data (msg_blk ctx) ctx i) with (byte (msg_blk ctx) i).
  unfold put. rewrite Hi, (proj2 (Z.ltb_lt i 64)) by lia.
  cbn [mbind result_mbind result_bind]. proj_red. rewrite u32_id by (unfold is_u32; lia).
  rewrite (proj2 (Z.eqb_neq _ 64)) by lia.
  assert (<[Z.to_nat i := byte (msg_blk ctx) i]> (msg_blk ctx) = msg_blk ctx) as ->.
  { apply list_insert_id. unfold byte. rewrite nth_lookup.
    destruct (lookup_lt_is_Some_2 (msg_blk ctx) (Z.to_nat i)) as [x Hx]; [lia|]. by rewrite Hx. }
  rewrite IH; [done..|proj_red; lia|lia|done].
Qed.

(** C29. The hash is that of the standard: from a reset context, hashing any
    message of less than 2^29 bytes gives the SHA-1 of FIPS 180-4. *)
Theorem sha1_is_fips ctx m : length (msg_blk ctx) = 64%nat -> 8 * Z.of_nat (length m) < 2 ^ 32 ->
  exists ctx', (c ← sha1_input (sha1_reset ctx) (const_data m) (Z.of_nat (length m)); sha1_result c) = Ok (ctx', SHA1 m).
Proof.
  intros Hs Hl. destruct (sha1_digest (sha1_reset ctx) m) as (c & E & _); try done. by exists c.
Qed.

Lemma sha1_is_fips_witness : exists ctx',
  (c ← sha1_input (sha1_reset (mkSha1 [] (repeat 0 64) 0 0 false)) (const_data [97; 98; 99]) 3; sha1_result c) =
    Ok (ctx', SHA1 [97; 98; 99]).
Proof. exact (sha1_is_fips (mkSha1 [] (repeat 0 64) 0 0 false) [97; 98; 99] eq_refl eq_refl). Defined.

(** The digest of the three letters abc, computed by the code. *)
Example sha1_abc :
  (c ← sha1_input (sha1_reset (mkSha1 [] (repeat 0 64) 0 0 false)) (const_data [97; 98; 99]) 3;
   '(_, d) ← sha1_result c; Ok d) =
  Ok [0xA9; 0x99; 0x3E; 0x36; 0x47; 0x06; 0x81; 0x6A; 0xBA; 0x3E;
      0x25; 0x71; 0x78; 0x50; 0xC2; 0x6C; 0x9C; 0xD0; 0xD8; 0x9D].
Proof. vm_compute. reflexivity. Qed.
