(* ===== verification/Rc4.v ===== *)
(** RC4 (util/rc4.c, util/rc4.h).

    The cipher the EEPROM generator encrypts the security section with: the key
    schedule [rc4_init], the generator [rc4_crypt] and the exchange both make.  A
    [RC4Context] is its array [s] of 256 bytes; a function that changes the context
    returns the new array.

    The array stays a permutation of the bytes, so that no index leaves it; what is
    exclusive-ored to the data depends on the key alone, so that encrypting twice
    with the same key gives the data back. *)

From S2P Require Import Prelude.

Local Open Scope Z_scope.

(** ** The code *)

Definition rc4_swap (s : list Z) (first second : Z) : result (list Z) :=
  temp ← fetch s first;
  x ← fetch s second;
  s ← blit s first [x];
  blit s second [temp].

(** One turn of the second loop of [rc4_init]. *)
Definition schedule_step (data : list Z) (len i : Z) (js : Z * list Z) : result (Z * list Z) :=
  let '(j, s) := js in
  if len =? 0 then Fault DivByZero
  else
    si ← fetch s i;
    d ← fetch data (i mod len);
    let j := (j + si + d) mod 256 in
    s ← rc4_swap s i j;
    Ok (j, s).

Definition rc4_init (s data : list Z) (len : Z) : result (list Z) :=
  s ← for_loop 256 0 (fun i s => blit s i [u8 i]) s;
  '(_, s) ← for_loop 256 0 (schedule_step data len) (0, s);
  Ok s.

(** One turn of the loop of [rc4_crypt] on [(i, j, ctx->s, data)]. *)
Definition crypt_step (k : Z) (st : Z * Z * list Z * list Z) : result (Z * Z * list Z * list Z) :=
  let '(i, j, s, data) := st in
  let i := (i + 1) mod 256 in
  si ← fetch s i;
  let j := (j + si) mod 256 in
  s ← rc4_swap s i j;
  si ← fetch s i;
  sj ← fetch s j;
  x ← fetch s ((si + sj) mod 256);
  d ← fetch data k;
  data ← blit data k [Z.lxor d x];
  Ok (i, j, s, data).

Definition rc4_crypt (s data : list Z) (len : Z) : result (list Z * list Z) :=
  '(_, _, s, data) ← for_loop (Z.to_nat len) 0 crypt_step (0, 0, s, data);
  Ok (s, data).

(** ** The state *)

(** The array holds each byte once. *)
Record sbox (s : list Z) : Prop := {
  sb_length : length s = 256%nat;
  sb_nodup : NoDup s;
  sb_bytes : Forall is_u8 s;
}.

Definition swapped (s : list Z) (i j : Z) : list Z :=
  <[Z.to_nat j := byte s i]> (<[Z.to_nat i := byte s j]> s).

Lemma rc4_swap_ok s i j : 0 <= i < Z.of_nat (length s) -> 0 <= j < Z.of_nat (length s) ->
  rc4_swap s i j = Ok (swapped s i j).
Proof.
  intros Hi Hj. unfold rc4_swap. rewrite !fetch_byte by done. cbn [mbind result_mbind result_bind].
  rewrite blit_one by done. cbn [mbind result_mbind result_bind]. by rewrite blit_one by (by rewrite length_insert).
Qed.

Lemma swapped_lookup s i j k x : 0 <= i < Z.of_nat (length s) -> 0 <= j < Z.of_nat (length s) ->
  swapped s i j !! k = Some x ->
  s !! (if decide (k = Z.to_nat j) then Z.to_nat i else if decide (k = Z.to_nat i) then Z.to_nat j else k) = Some x.
Proof.
  intros Hi Hj. unfold swapped. rewrite !list_lookup_insert, length_insert.
  repeat case_decide; try lia; try naive_solver; intros [= <-]; by apply byte_lookup.
Qed.

Lemma sbox_swapped s i j : sbox s -> 0 <= i < 256 -> 0 <= j < 256 -> sbox (swapped s i j).
Proof.
  intros [Hl Hn Hb] Hi Hj. split.
  - unfold swapped. by rewrite !length_insert.
  - apply NoDup_alt. intros k l x Hk Hx.
    apply swapped_lookup in Hk, Hx; [|lia..]. pose proof (NoDup_lookup _ _ _ _ Hn Hk Hx) as E.
    repeat case_decide; lia.
  - apply Forall_lookup. intros k x Hk. apply swapped_lookup in Hk; [|lia..].
    exact (Forall_lookup_1 _ _ _ _ Hb Hk).
Qed.

(** Each of the 256 bytes occurs. *)
Lemma sbox_permutation s : sbox s -> s ≡ₚ map Z.of_nat (seq 0 256).
Proof.
  intros [Hl Hn Hb]. apply submseteq_length_Permutation.
  - apply NoDup_submseteq; [done|]. intros x Hx. rewrite Forall_forall in Hb. specialize (Hb x Hx). unfold is_u8 in Hb.
    apply list_elem_of_fmap. exists (Z.to_nat x). rewrite elem_of_seq. lia.
  - rewrite length_map, length_seq. lia.
Qed.

(** ** The key schedule *)

Definition identity_box : list Z := map Z.of_nat (seq 0 256).

(** The first loop fills the array whatever it held. *)
Lemma init_fill s : length s = 256%nat -> for_loop 256 0 (fun i s => blit s i [u8 i]) s = Ok identity_box.
Proof.
  intros Hl. destruct (for_loop_inv (fun i t => 0 <= i /\ length t = 256%nat /\ forall k, 0 <= k < i -> byte t k = k)
    (fun i s => blit s i [u8 i]) 256 0 s) as (t & -> & _ & Lt & Ht).
  - split; [lia|]. split; [done|lia].
  - intros i t Hi (_ & Lt & Ht). rewrite blit_one by lia. eexists. split; [done|].
    split; [lia|]. rewrite length_insert. split; [done|]. intros k Hk.
    unfold byte. rewrite nth_lookup, list_lookup_insert. case_decide as D.
    + cbn. rewrite u8_id by (unfold is_u8; lia). lia.
    + rewrite <- nth_lookup. apply Ht. lia.
  - f_equal. apply byte_ext; [by rewrite Lt|]. intros k Hk. rewrite Ht by lia. unfold byte, identity_box.
    rewrite (nth_indep _ 0 (Z.of_nat 0)) by (rewrite length_map, length_seq; lia).
    rewrite map_nth, seq_nth by lia. lia.
Qed.

Lemma sbox_identity : sbox identity_box.
Proof.
  split; [done| |].
  - apply NoDup_fmap_2; [|apply NoDup_seq]. intros x y. lia.
  - apply Forall_fmap, Forall_seq. intros j Hj. unfold compose, is_u8. lia.
Qed.

(** The schedule never leaves the array nor the key, and ends in a permutation. *)
Lemma rc4_init_ok s key : length s = 256%nat -> key <> [] ->
  exists s', rc4_init s key (Z.of_nat (length key)) = Ok s' /\ sbox s' /\
    forall t, length t = 256%nat -> rc4_init t key (Z.of_nat (length key)) = Ok s'.
Proof.
  intros Hl Hk. assert (0 < Z.of_nat (length key)) as Hpos by (destruct key; [done|cbn; lia]).
  destruct (for_loop_inv (fun _ js => sbox (snd js)) (schedule_step key (Z.of_nat (length key))) 256 0 (0, identity_box))
    as ([j s'] & E & Hs').
  - apply sbox_identity.
  - intros i [j t] Hi Ht. cbn [snd] in Ht. unfold schedule_step. rewrite (proj2 (Z.eqb_neq _ 0)) by lia.
    pose proof (sb_length _ Ht) as Lt.
    rewrite (fetch_byte t i) by lia. cbn [mbind result_mbind result_bind].
    rewrite fetch_byte by (apply Z.mod_pos_bound; lia). cbn [mbind result_mbind result_bind].
    set (j' := (_ + _) mod 256). assert (0 <= j' < 256) by (apply Z.mod_pos_bound; lia).
    rewrite rc4_swap_ok by lia. cbn [mbind result_mbind result_bind]. eexists. split; [done|].
    apply sbox_swapped; [done|lia..].
  - assert (forall t, length t = 256%nat -> rc4_init t key (Z.of_nat (length key)) = Ok s') as Hi.
    { intros t Ht. unfold rc4_init. rewrite init_fill by done. cbn [mbind result_mbind result_bind]. by rewrite E. }
    exists s'. split; [by apply Hi|by split].
Qed.

(** ** The key stream *)

(** The bytes the generator gives from [i], [j] and the array, and what it leaves. *)
Fixpoint keystream (n : nat) (i j : Z) (s : list Z) : list Z :=
  match n with
  | O => []
  | S n =>
      let i := (i + 1) mod 256 in
      let j := (j + byte s i) mod 256 in
      let s := swapped s i j in
      byte s ((byte s i + byte s j) mod 256) :: keystream n i j s
  end.

Definition xor_bytes (l k : list Z) : list Z := zip_with Z.lxor l k.

Lemma length_keystream n : forall i j s, length (keystream n i j s) = n.
Proof. induction n as [|n IH]; intros i j s; cbn [keystream length]; [done|by rewrite IH]. Qed.

Lemma crypt_step_ok s i j done_ d rest : sbox s ->
  let i' := (i + 1) mod 256 in
  let j' := (j + byte s i') mod 256 in
  let s' := swapped s i' j' in
  crypt_step (Z.of_nat (length done_)) (i, j, s, done_ ++ d :: rest) =
    Ok (i', j', s', done_ ++ Z.lxor d (byte s' ((byte s' i' + byte s' j') mod 256)) :: rest).
Proof.
  intros Hs i' j' s'. unfold crypt_step. pose proof (sb_length _ Hs) as Ls.
  assert (0 <= i' < 256) by (apply Z.mod_pos_bound; lia). assert (0 <= j' < 256) by (apply Z.mod_pos_bound; lia).
  fold i'. rewrite (fetch_byte s) by lia. cbn [mbind result_mbind result_bind]. fold j'.
  rewrite rc4_swap_ok by lia. cbn [mbind result_mbind result_bind]. fold s'.
  pose proof (sb_length _ (sbox_swapped s i' j' Hs ltac:(lia) ltac:(lia))) as Ls'. fold s' in Ls'.
  rewrite !(fetch_byte s') by (try apply Z.mod_pos_bound; lia). cbn [mbind result_mbind result_bind].
  rewrite (fetch_byte s') by (rewrite Ls'; apply Z.mod_pos_bound; lia). cbn [mbind result_mbind result_bind].
  set (L := done_ ++ d :: rest). assert (0 <= Z.of_nat (length done_) < Z.of_nat (length L)) as HL
    by (unfold L; rewrite length_app; cbn; lia).
  rewrite fetch_byte by done. cbn [mbind result_mbind result_bind].
  rewrite blit_one by done. cbn [mbind result_mbind result_bind]. unfold L, byte at 1.
  rewrite Nat2Z.id, nth_middle, insert_app_r_alt, Nat.sub_diag by lia. done.
Qed.

Lemma crypt_loop_ok rest : forall done_ i j s, sbox s ->
  exists i' j' s', for_loop (length rest) (Z.of_nat (length done_)) crypt_step (i, j, s, done_ ++ rest) =
      Ok (i', j', s', done_ ++ xor_bytes rest (keystream (length rest) i j s)) /\ sbox s'.
Proof.
  induction rest as [|d rest IH]; intros done_ i j s Hs; cbn [for_loop length].
  - by exists i, j, s.
  - rewrite crypt_step_ok by done. cbn [mbind result_mbind result_bind keystream].
    set (i' := (i + 1) mod 256). set (j' := (j + byte s i') mod 256). set (s' := swapped s i' j').
    set (d' := Z.lxor d _).
    assert (sbox s') as Hs' by (apply sbox_swapped; [done|apply Z.mod_pos_bound; lia..]).
    destruct (IH (done_ ++ [d']) i' j' s' Hs') as (i2 & j2 & s2 & E & H2). exists i2, j2, s2. split; [|done].
    rewrite length_app, <- !app_assoc in E. cbn [length app] in E. by rewrite Nat2Z.inj_add in E.
Qed.

(** [rc4_crypt] never leaves its arrays: it exclusive-ors the key stream, which the
    data has no part in. *)
Lemma rc4_crypt_ok s data : sbox s ->
  exists s', rc4_crypt s data (Z.of_nat (length data)) =
    Ok (s', xor_bytes data (keystream (length data) 0 0 s)) /\ sbox s'.
Proof.
  intros Hs. destruct (crypt_loop_ok data [] 0 0 s Hs) as (i & j & s' & E & H).
  exists s'. split; [|done]. unfold rc4_crypt. rewrite Nat2Z.id. cbn [app length] in E.
  change (Z.of_nat 0) with 0 in E. by rewrite E.
Qed.

Lemma xor_bytes_twice l k : length k = length l -> xor_bytes (xor_bytes l k) k = l.
Proof.
  revert k. induction l as [|a l IH]; intros [|b k] [=]; [done|]. unfold xor_bytes in *. cbn [zip_with].
  by rewrite IH, Z.lxor_assoc, Z.lxor_nilpotent, Z.lxor_0_r.
Qed.

Lemma length_xor_bytes l k : length k = length l -> length (xor_bytes l k) = length l.
Proof. intros H. unfold xor_bytes. rewrite length_zip_with. lia. Qed.

(** RC4 is its own inverse: under any key, encrypting any data succeeds and
    encrypting the result under the same key gives the data back; on the way the
    array is a permutation of the 256 bytes. *)
Theorem rc4_roundtrip s t key data : key <> [] -> length s = 256%nat -> length t = 256%nat ->
  exists box s' t' out, rc4_init s key (Z.of_nat (length key)) = Ok box /\
    rc4_init t key (Z.of_nat (length key)) = Ok box /\ box ≡ₚ map Z.of_nat (seq 0 256) /\
    rc4_crypt box data (Z.of_nat (length data)) = Ok (s', out) /\
    rc4_crypt box out (Z.of_nat (length data)) = Ok (t', data).
Proof.
  intros Hk Hs Ht. destruct (rc4_init_ok s key Hs Hk) as (box & E & Hb & Hi).
  destruct (rc4_crypt_ok box data Hb) as (s' & Ec & _).
  pose proof (length_keystream (length data) 0 0 box) as Lk.
  destruct (rc4_crypt_ok box (xor_bytes data (keystream (length data) 0 0 box)) Hb) as (t' & Ed & _).
  rewrite length_xor_bytes, xor_bytes_twice in Ed by done.
  exists box, s', t', (xor_bytes data (keystream (length data) 0 0 box)).
  split; [done|]. split; [by apply Hi|]. split; [by apply sbox_permutation|]. by split.
Qed.

Lemma rc4_roundtrip_witness : exists box s' t' out, rc4_init (repeat 0 256) [75; 101; 121] 3 = Ok box /\
    rc4_init (repeat 7 256) [75; 101; 121] 3 = Ok box /\ box ≡ₚ map Z.of_nat (seq 0 256) /\
    rc4_crypt box [80; 108; 97] 3 = Ok (s', out) /\ rc4_crypt box out 3 = Ok (t', [80; 108; 97]).
Proof. by apply (rc4_roundtrip (repeat 0 256) (repeat 7 256) [75; 101; 121] [80; 108; 97]). Defined.

(** The published example: the key Key and the text Plaintext. *)
Example rc4_key_plaintext :
  (s ← rc4_init (repeat 0 256) [75; 101; 121] 3;
   '(_, out) ← rc4_crypt s [80; 108; 97; 105; 110; 116; 101; 120; 116] 9; Ok out) =
  Ok [0xBB; 0xF3; 0x16; 0xE8; 0xD9; 0x40; 0xAF; 0x0A; 0xD3].
Proof. vm_compute. reflexivity. Qed.
