(* ===== verification/EepromGen.v ===== *)
(** The EEPROM generator (hw/xbox/eeprom_generation.c, eeprom_generation.h).

    [xbox_eeprom_generate] makes the 256-byte image the console's EEPROM is emulated
    with when the user has none: random keys, a serial number, a MAC address, two
    checksums, and a security section that is hashed with SHA-1 from the constants of
    a kernel version and encrypted with RC4 under a second hash of the first.

    The structure [XboxEEPROM] is packed and its fields are read across their ends
    (the hash of the confounder covers the disk key and the region), so it is the
    list of its bytes; the offsets are those of the fields.  The random generator,
    [qcrypto_random_bytes], and the file are arguments: they are not under src/ or
    belong to the host. *)

From S2P Require Import Prelude Sha1 Rc4.

Local Open Scope Z_scope.

Inductive XboxEEPROMVersion :=
  | XBOX_EEPROM_VERSION_D | XBOX_EEPROM_VERSION_R1 | XBOX_EEPROM_VERSION_R2 | XBOX_EEPROM_VERSION_R3.

(** Offsets of the fields of [XboxEEPROM]. *)
Definition O_hash : Z := 0.
Definition O_confounder : Z := 20.
Definition O_hdd_key : Z := 28.
Definition O_region : Z := 44.
Definition O_checksum : Z := 48.
Definition O_serial : Z := 52.
Definition O_mac : Z := 64.
Definition O_online_key : Z := 72.
Definition O_video_standard : Z := 88.
Definition O_user_checksum : Z := 96.
Definition O_user_section : Z := 100.

(** ** Checksum *)

Definition crc_step (data : list Z) (i : Z) (hl : Z * Z) : result (Z * Z) :=
  let '(high, low) := hl in
  w ← slice data (4 * i) 4;
  let val := le_word w in
  let sum := Z.lor (u64 (Z.shiftl high 32)) low in
  Ok (u32 (Z.shiftr (u64 (sum + val)) 32), u32 (low + val)).

Definition xbox_eeprom_crc (data : list Z) (len : Z) : result Z :=
  '(high, low) ← for_loop (Z.to_nat (len / 4)) 0 (crc_step data) (0, 0);
  Ok (u32 (Z.lnot (u32 (high + low)))).

(** ** Hash *)

Definition xbox_sha1_fill (ctx : SHA1Context) (ver : XboxEEPROMVersion) (first : bool) : SHA1Context :=
  match ver with
  | XBOX_EEPROM_VERSION_D =>
      if first then sha1_fill ctx 0x85F9E51A 0xE04613D2 0x6D86A50C 0x77C32E3C 0x4BD717A4
      else sha1_fill ctx 0x5D7A9C6B 0xE1922BEB 0xB82CCDBC 0x3137AB34 0x486B52B3
  | XBOX_EEPROM_VERSION_R2 =>
      if first then sha1_fill ctx 0x39B06E79 0xC9BD25E8 0xDBC6B498 0x40B4389D 0x86BBD7ED
      else sha1_fill ctx 0x9B49BED3 0x84B430FC 0x6B8749CD 0xEBFE5FE5 0xD96E7393
  | XBOX_EEPROM_VERSION_R3 =>
      if first then sha1_fill ctx 0x8058763A 0xF97D4E0E 0x865A9762 0x8A3D920D 0x08995B2C
      else sha1_fill ctx 0x01075307 0xA2F1E037 0x1186EEEA 0x88DA9992 0x168A5609
  | XBOX_EEPROM_VERSION_R1 =>
      if first then sha1_fill ctx 0x72127625 0x336472B9 0xBE609BEA 0xF55E226B 0x99958DAC
      else sha1_fill ctx 0x76441D41 0x4DE82659 0x2E8EF85E 0xB256FACA 0xC4FE2DE8
  end.

Definition xbox_sha1_reset (ctx : SHA1Context) (ver : XboxEEPROMVersion) (first : bool) : SHA1Context :=
  xbox_sha1_fill (ctx <| msg_blk_index := 0 |> <| computed := false |> <| ctx_length := 512 |>) ver first.

(** The second pass reads the first digest from the context's own block. *)
Definition xbox_sha1_compute (ctx : SHA1Context) (ver : XboxEEPROMVersion) (data : list Z) (len : Z) :
    result (SHA1Context * list Z) :=
  ctx ← sha1_input (xbox_sha1_reset ctx ver true) (const_data data) len;
  '(ctx, digest) ← sha1_result ctx;
  b ← blit (msg_blk ctx) 0 digest;
  ctx ← sha1_input (xbox_sha1_reset (ctx <| msg_blk := b |>) ver false) own_block 20;
  sha1_result ctx.

(** ** The image *)

Definition default_user_section : list Z :=
  [0x00; 0x00; 0x00; 0x00; 0x47; 0x4D; 0x54; 0x00; 0x42; 0x53; 0x54; 0x00;
   0x00; 0x00; 0x00; 0x00; 0x00; 0x00; 0x00; 0x00; 0x0A; 0x05; 0x00; 0x02; 0x03; 0x05; 0x00; 0x01; 0x00; 0x00;
   0x00; 0x00; 0x00; 0x00; 0x00; 0x00; 0x00; 0x00; 0x00; 0x00; 0xC4; 0xFF; 0xFF; 0xFF].

(** [e.serial[i] = '0' + (e.serial[i] % 10)]. *)
Definition serial_digit (v : Z) : Z := u8 (48 + v mod 10).
Definition serial_step (i : Z) (e : list Z) : result (list Z) :=
  v ← fetch e (O_serial + i);
  blit e (O_serial + i) [serial_digit v].

Section Generate.
(** The bytes [qcrypto_random_bytes] gives its n-th caller. *)
Context (random : nat -> Z -> list Z).

(** What the generator puts in the structure before the checksums. *)
Definition fill_image : result (list Z) :=
  let e := repeat 0 256 in
  e ← blit e O_region (le_bytes 4 1);
  e ← blit e O_video_standard (le_bytes 4 0x00400100);
  e ← blit e O_confounder (random 0%nat 8);
  e ← blit e O_hdd_key (random 1%nat 16);
  e ← blit e O_online_key (random 2%nat 16);
  e ← blit e O_mac [0x00; 0x50; 0xF2];
  e ← blit e (O_mac + 3) (random 3%nat 3);
  e ← blit e O_serial (random 4%nat 12);
  e ← for_loop 12 0 serial_step e;
  e ← blit e O_user_section default_user_section;
  blit e (O_user_section + 0x2C) (le_bytes 4 1).

Definition put_checksums (e : list Z) : result (list Z) :=
  d ← slice e O_serial 0x2C;
  c ← xbox_eeprom_crc d 0x2C;
  e ← blit e O_checksum (le_bytes 4 c);
  d ← slice e O_user_section 0x5C;
  c ← xbox_eeprom_crc d 0x5C;
  blit e O_user_checksum (le_bytes 4 c).

(** [sctx] and [rctx] are what the stack holds in the two contexts. *)
Definition encrypt_section (ver : XboxEEPROMVersion) (sctx : SHA1Context) (rctx : list Z) (e : list Z) :
    result (list Z) :=
  d ← slice e O_confounder 0x1C;
  '(sctx, hash) ← xbox_sha1_compute sctx ver d 0x1C;
  e ← blit e O_hash hash;
  h ← slice e O_hash 20;
  '(sctx, seed) ← xbox_sha1_compute sctx ver h 20;
  rctx ← rc4_init rctx seed 20;
  d ← slice e O_confounder 0x1C;
  '(rctx, d) ← rc4_crypt rctx d 0x1C;
  blit e O_confounder d.

Definition generate_image (ver : XboxEEPROMVersion) (sctx : SHA1Context) (rctx : list Z) : result (list Z) :=
  e ← fill_image;
  e ← put_checksums e;
  encrypt_section ver sctx rctx e.

(** [fopen] is whether the file could be opened, [fwrite] how many items it took
    and what the file holds afterwards. *)
Definition xbox_eeprom_generate (ver : XboxEEPROMVersion) (sctx : SHA1Context) (rctx : list Z)
    (fopen : bool) (fwrite : list Z -> Z * list Z) : result (bool * option (list Z)) :=
  e ← generate_image ver sctx rctx;
  if fopen then let '(n, file) := fwrite e in Ok (n =? 1, Some file) else Ok (false, None).
End Generate.

(** ** The image as the list of its fields *)

Lemma blit_field k F y off x : F !! k = Some y -> off = Z.of_nat (length (concat (take k F))) ->
  length x = length y -> blit (concat F) off x = Ok (concat (<[k := x]> F)).
Proof.
  intros Hk -> Hx. rewrite insert_take_drop by (by apply lookup_lt_Some in Hk).
  rewrite <- (take_drop_middle F k y Hk) at 1. rewrite !concat_app. cbn [concat]. by apply blit_app.
Qed.

Lemma slice_fields k n F off len : off = Z.of_nat (length (concat (take k F))) ->
  len = Z.of_nat (length (concat (take n (drop k F)))) ->
  slice (concat F) off len = Ok (concat (take n (drop k F))).
Proof.
  intros -> ->. assert (concat F = concat (take k F) ++ concat (take n (drop k F)) ++ concat (drop n (drop k F))) as ->.
  { by rewrite <- !concat_app, !take_drop. }
  apply slice_app.
Qed.

Lemma serial_step_ok pre v post i : Z.of_nat (length pre) = O_serial + i ->
  serial_step i (pre ++ v :: post) = Ok (pre ++ serial_digit v :: post).
Proof.
  intros Hi. unfold serial_step. rewrite <- Hi, (fetch_ok _ _ v); [|lia|rewrite Nat2Z.id; by apply list_lookup_middle].
  cbn [mbind result_mbind result_bind]. by apply (blit_app pre [v] post [_]).
Qed.

(** The loop over the serial number. *)
Lemma serial_loop l : forall pre post i, Z.of_nat (length pre) = O_serial + i ->
  for_loop (length l) i serial_step (pre ++ l ++ post) = Ok (pre ++ map serial_digit l ++ post).
Proof.
  induction l as [|v l IH]; intros pre post i Hi; [done|]. cbn [length for_loop map app].
  rewrite serial_step_ok by done. cbn [mbind result_mbind result_bind].
  change (serial_digit v :: l ++ post) with ([serial_digit v] ++ (l ++ post)). rewrite app_assoc, IH.
  - by rewrite <- app_assoc.
  - rewrite length_app. cbn. lia.
Qed.

Lemma serial_field k F l n : F !! k = Some l -> length (concat (take k F)) = Z.to_nat O_serial -> length l = n ->
  for_loop n 0 serial_step (concat F) = Ok (concat (<[k := map serial_digit l]> F)).
Proof.
  intros Hk Hl <-. rewrite insert_take_drop by (by apply lookup_lt_Some in Hk).
  rewrite <- (take_drop_middle F k l Hk) at 1. rewrite !concat_app. cbn [concat].
  apply serial_loop. unfold O_serial in *. lia.
Qed.

(** A block that is one of the fields. *)
Ltac len := cbn [take drop concat]; rewrite ?app_nil_r, ?length_app, ?length_map, ?repeat_length, ?length_le_bytes; cbn [length];
  repeat match goal with H : length _ = _ |- _ => rewrite H end; try reflexivity.
Ltac field k := erewrite (blit_field k); [|reflexivity|by len|by len];
  cbn [mbind result_mbind result_bind]; cbn [insert list_insert].

(** ** The checksum *)

(** The sum of the words of a section, and the checksum of that sum. *)
Fixpoint word_sum (n : nat) (l : list Z) : Z :=
  match n with O => 0 | S n => le_word (take 4 l) + word_sum n (drop 4 l) end.
Definition checksum_of (S : Z) : Z := 2 ^ 32 - 1 - (S / 2 ^ 32 + S mod 2 ^ 32) mod 2 ^ 32.

Lemma section_word_range l : Forall is_u8 l -> 0 <= le_word (take 4 l) < 2 ^ 32.
Proof.
  intros Hl. pose proof (le_word_range (take 4 l) (Forall_take _ _ _ Hl)) as H. rewrite length_take in H.
  split; [lia|]. apply (Z.lt_le_trans _ _ _ (proj2 H)). change (2 ^ 32) with (256 ^ 4). apply Z.pow_le_mono_r; lia.
Qed.

Lemma crc_step_ok pre l i S : Z.of_nat (length pre) = 4 * i -> Forall is_u8 l -> (4 <= length l)%nat ->
  0 <= S -> S + 2 ^ 32 <= 2 ^ 64 ->
  crc_step (pre ++ l) i (S / 2 ^ 32, S mod 2 ^ 32) =
    Ok ((S + le_word (take 4 l)) / 2 ^ 32, (S + le_word (take 4 l)) mod 2 ^ 32).
Proof.
  intros Hi Hl H4 H0 HS. pose proof (section_word_range l Hl) as Hw. unfold crc_step. rewrite <- Hi.
  rewrite <- (take_drop 4 l) at 1. replace 4 with (Z.of_nat (length (take 4 l))) by (rewrite length_take; lia).
  rewrite slice_app. cbn [mbind result_mbind result_bind]. set (v := le_word (take 4 l)) in *.
  assert (S / 2 ^ 32 < 2 ^ 32) by (apply Z.div_lt_upper_bound; lia).
  pose proof (Z.mod_pos_bound S (2 ^ 32) ltac:(lia)). pose proof (Z.div_mod S (2 ^ 32) ltac:(lia)).
  assert (0 <= S / 2 ^ 32) by (apply Z.div_pos; lia).
  assert (Z.lor (u64 (Z.shiftl (S / 2 ^ 32) 32)) (S mod 2 ^ 32) = S) as ->.
  { rewrite u64_id by (unfold is_u64; rewrite Z.shiftl_mul_pow2 by lia; lia).
    rewrite Z.lor_comm, lor_shiftl by lia. lia. }
  rewrite u64_id, Z.shiftr_div_pow2 by (unfold is_u64; lia). do 2 f_equal.
  - apply u32_id. split; [apply Z.div_pos; lia|apply Z.div_lt_upper_bound; lia].
  - unfold u32. by rewrite Zplus_mod_idemp_l.
Qed.

Lemma crc_loop n : forall pre l i S, Z.of_nat (length pre) = 4 * i -> Forall is_u8 l -> (4 * n <= length l)%nat ->
  0 <= S -> S + Z.of_nat n * 2 ^ 32 <= 2 ^ 64 ->
  for_loop n i (crc_step (pre ++ l)) (S / 2 ^ 32, S mod 2 ^ 32) =
    Ok ((S + word_sum n l) / 2 ^ 32, (S + word_sum n l) mod 2 ^ 32).
Proof.
  induction n as [|n IH]; intros pre l i S Hi Hl Hn H0 HS; cbn [for_loop word_sum]; [by rewrite Z.add_0_r|].
  rewrite crc_step_ok by (try done; lia). cbn [mbind result_mbind result_bind].
  pose proof (section_word_range l Hl). rewrite <- (take_drop 4 l) at 1. rewrite app_assoc, IH.
  - by rewrite Z.add_assoc.
  - rewrite length_app, length_take. lia.
  - by apply Forall_drop.
  - rewrite length_drop. lia.
  - lia.
  - lia.
Qed.

(** [xbox_eeprom_crc] of a section of whole words. *)
Lemma xbox_eeprom_crc_ok data n : Forall is_u8 data -> length data = (4 * n)%nat -> Z.of_nat n <= 2 ^ 32 ->
  xbox_eeprom_crc data (4 * Z.of_nat n) = Ok (checksum_of (word_sum n data)).
Proof.
  intros Hd Hl Hn. unfold xbox_eeprom_crc. rewrite Z.mul_comm, Z.div_mul, Nat2Z.id by lia.
  pose proof (crc_loop n [] data 0 0 eq_refl Hd ltac:(lia) ltac:(lia) ltac:(lia)) as E.
  rewrite Z.add_0_l in E. change (0 / 2 ^ 32, 0 mod 2 ^ 32) with (0, 0) in E. cbn [app] in E. rewrite E.
  cbn [mbind result_mbind result_bind]. unfold checksum_of. f_equal. set (h := _ + _).
  pose proof (u32_range h) as Hr. unfold is_u32 in Hr. unfold u32 at 1, Z.lnot.
  change (h mod 2 ^ 32) with (u32 h). symmetry. apply (Z.mod_unique _ _ (-1)); lia.
Qed.

(** A section followed by its checksum has the checksum 0, unless the carries
    themselves carry. *)
Lemma checksum_verifies S : 0 <= S -> S / 2 ^ 32 + S mod 2 ^ 32 < 2 ^ 32 -> checksum_of (S + checksum_of S) = 0.
Proof.
  intros H0 Hc. unfold checksum_of. pose proof (Z.div_mod S (2 ^ 32) ltac:(lia)) as E.
  pose proof (Z.mod_pos_bound S (2 ^ 32) ltac:(lia)). assert (0 <= S / 2 ^ 32) by (apply Z.div_pos; lia).
  set (h := S / 2 ^ 32) in *. set (l := S mod 2 ^ 32) in *. rewrite (Z.mod_small (h + l)) by lia.
  replace (S + (2 ^ 32 - 1 - (h + l))) with (h * 2 ^ 32 + (2 ^ 32 - 1 - h)) by lia.
  rewrite Z.div_add_l, (Z.div_small (2 ^ 32 - 1 - h)), (Z.add_comm (h * 2 ^ 32)), Z.mod_add, (Z.mod_small (2 ^ 32 - 1 - h)) by lia.
  rewrite Z.mod_small; lia.
Qed.

(** ** The hash *)

Definition xbox_iv (ver : XboxEEPROMVersion) (first : bool) : list Z :=
  intermediate (xbox_sha1_fill (mkSha1 [] [] 0 0 false) ver first).

(** The hash of the format: two passes of SHA-1, each from the state one secret block
    left, so that 512 more bits than the message count. *)
Definition xbox_hash (ver : XboxEEPROMVersion) (m : list Z) : list Z :=
  hash_from (xbox_iv ver false) (512 + 8 * 20) (hash_from (xbox_iv ver true) (512 + 8 * Z.of_nat (length m)) m).

Lemma length_hash_from H bits m : length (hash_from H bits m) = 20%nat.
Proof.
  unfold hash_from. set (l := m ++ _).
  assert (split64 (length l / 64) l <> []) as Hne.
  { assert (64 <= length l)%nat as Hl.
    { unfold l, padding. rewrite length_app. cbn [length]. rewrite length_app, repeat_length, length_rev, length_le_bytes.
      pose proof (Nat.mod_upper_bound (length m) 64 ltac:(lia)). pose proof (Nat.Div0.mod_le (length m) 64).
      destruct (decide (length m mod 64 <= 55)%nat).
      - replace (119 - length m mod 64)%nat with (55 - length m mod 64 + 1 * 64)%nat by lia.
        rewrite Nat.Div0.mod_add, Nat.mod_small by lia. lia.
      - rewrite (Nat.mod_small (119 - _)) by lia. lia. }
    destruct (length l / 64)%nat eqn:E; [|done]. apply Nat.div_small_iff in E; lia. }
  pose proof (compress_length _ H Hne) as L. revert L. generalize (fold_left compress (split64 (length l / 64) l) H).
  intros h L. destruct h as [|a [|b [|c [|d [|e [|]]]]]]; done.
Qed.

Lemma input_loop_ext n : forall d d' i ctx, (forall c k, i <= k < i + Z.of_nat n -> d c k = d' c k) ->
  input_loop d i n ctx = input_loop d' i n ctx.
Proof.
  induction n as [|n IH]; intros d d' i ctx Hd; cbn [input_loop]; [done|]. rewrite Hd by lia.
  apply result_bind_ext. intros c. apply IH. intros. apply Hd. lia.
Qed.

Lemma xbox_sha1_reset_spec ctx ver first :
  intermediate (xbox_sha1_reset ctx ver first) = xbox_iv ver first /\
  msg_blk (xbox_sha1_reset ctx ver first) = msg_blk ctx /\ msg_blk_index (xbox_sha1_reset ctx ver first) = 0 /\
  computed (xbox_sha1_reset ctx ver first) = false /\ ctx_length (xbox_sha1_reset ctx ver first) = 512.
Proof. by destruct ver, first. Qed.

(** The digest that lies at the start of the block is read back from there. *)
Lemma sha1_input_own ctx d rest : msg_blk_index ctx = 0 -> msg_blk ctx = d ++ rest -> length (msg_blk ctx) = 64%nat ->
  (length d < 64)%nat ->
  sha1_input ctx own_block (Z.of_nat (length d)) = sha1_input ctx (const_data d) (Z.of_nat (length d)).
Proof.
  intros Hi Hb Hs Hd. unfold sha1_input. rewrite Nat2Z.id. set (c := ctx <| ctx_length := _ |>).
  rewrite input_own_block by (try done; lia). apply input_loop_ext. intros ? k Hk. unfold const_data.
  change (msg_blk c) with (msg_blk ctx). rewrite Hb, byte_app by lia. by rewrite (proj2 (Z.ltb_lt _ _)) by lia.
Qed.

Lemma sha1_pass ctx ver first m : length (msg_blk ctx) = 64%nat -> 8 * Z.of_nat (length m) < 2 ^ 31 ->
  exists c ctx', sha1_input (xbox_sha1_reset ctx ver first) (const_data m) (Z.of_nat (length m)) = Ok c /\
    sha1_result c = Ok (ctx', hash_from (xbox_iv ver first) (512 + 8 * Z.of_nat (length m)) m) /\
    length (msg_blk ctx') = 64%nat.
Proof.
  intros Hs Hm. destruct (xbox_sha1_reset_spec ctx ver first) as (I1 & M1 & X1 & C1 & L1).
  destruct (sha1_digest (xbox_sha1_reset ctx ver first) m) as (c1 & E1 & B1); rewrite ?M1, ?L1; try done; try lia.
  rewrite I1, L1 in E1.
  revert E1. destruct (sha1_input _ _ _) as [c|]; cbn [mbind result_mbind result_bind]; [|done]. by exists c, c1.
Qed.

(** The two passes give the hash of the format. *)
Lemma xbox_sha1_compute_ok ctx ver m : length (msg_blk ctx) = 64%nat -> 8 * Z.of_nat (length m) < 2 ^ 31 ->
  exists ctx', xbox_sha1_compute ctx ver m (Z.of_nat (length m)) = Ok (ctx', xbox_hash ver m) /\
    length (msg_blk ctx') = 64%nat.
Proof.
  intros Hs Hm. unfold xbox_sha1_compute, xbox_hash. destruct (sha1_pass ctx ver true m Hs Hm) as (c & c1 & -> & E1 & B1).
  cbn [mbind result_mbind result_bind]. rewrite E1. cbn [mbind result_mbind result_bind].
  generalize (length_hash_from (xbox_iv ver true) (512 + 8 * Z.of_nat (length m)) m).
  generalize (hash_from (xbox_iv ver true) (512 + 8 * Z.of_nat (length m)) m). intros d Ld.
  rewrite blit_ok by lia. cbn [mbind result_mbind result_bind].
  rewrite inserts_split by lia. cbn [Z.to_nat take app]. set (c2 := c1 <| msg_blk := _ |>).
  assert (msg_blk c2 = d ++ drop (0 + length d) (msg_blk c1)) as M2 by done.
  assert (length (msg_blk c2) = 64%nat) as S2 by (rewrite M2, length_app, length_drop, Ld; lia).
  clearbody c2. destruct (xbox_sha1_reset_spec c2 ver false) as (_ & M3 & X3 & _).
  pose proof (sha1_input_own (xbox_sha1_reset c2 ver false) d (drop (0 + length d) (msg_blk c1))
    X3 ltac:(by rewrite M3) ltac:(by rewrite M3) ltac:(lia)) as Eo.
  destruct (sha1_pass c2 ver false d S2 ltac:(lia)) as (c3 & c4 & Ei & E4 & B4).
  rewrite Ei, Ld in Eo. change (Z.of_nat 20) with 20 in Eo. rewrite Eo.
  cbn [mbind result_mbind result_bind]. rewrite E4, Ld. by exists c4.
Qed.

(** ** The security section *)

(** The section is replaced by its hash and its encryption under the hash of the
    hash, which the same key decrypts. *)
Lemma encrypt_section_ok ver sctx rctx h p rest : length (msg_blk sctx) = 64%nat -> length rctx = 256%nat ->
  length h = 20%nat -> length p = 28%nat ->
  exists box enc s' s'', encrypt_section ver sctx rctx (h ++ p ++ rest) = Ok (xbox_hash ver p ++ enc ++ rest) /\
    length enc = 28%nat /\ (forall t, length t = 256%nat -> rc4_init t (xbox_hash ver (xbox_hash ver p)) 20 = Ok box) /\
    rc4_crypt box p 28 = Ok (s', enc) /\ rc4_crypt box enc 28 = Ok (s'', p).
Proof.
  intros Hs Hr Hh Hp. unfold encrypt_section.
  assert (forall h' : list Z, length h' = 20%nat -> slice (h' ++ p ++ rest) O_confounder 0x1C = Ok p) as Sp.
  { intros h' Hh'. pose proof (slice_app h' p rest) as E. by rewrite Hh', Hp in E. }
  rewrite Sp by done. cbn [mbind result_mbind result_bind].
  destruct (xbox_sha1_compute_ok sctx ver p Hs ltac:(lia)) as (s1 & E1 & B1). rewrite Hp in E1.
  change (Z.of_nat 28) with 0x1C in E1. rewrite E1. cbn [mbind result_mbind result_bind].
  assert (length (xbox_hash ver p) = 20%nat) as L1 by apply length_hash_from.
  pose proof (blit_app [] h (p ++ rest) (xbox_hash ver p) ltac:(lia)) as Eb. cbn [app length] in Eb.
  change (Z.of_nat 0) with O_hash in Eb. rewrite Eb. cbn [mbind result_mbind result_bind].
  destruct (xbox_sha1_compute_ok s1 ver (xbox_hash ver p) B1 ltac:(lia)) as (s2 & E2 & _). rewrite L1 in E2.
  pose proof (slice_app [] (xbox_hash ver p) (p ++ rest)) as Es. rewrite L1 in Es.
  cbn [app length] in Es. change (Z.of_nat 0) with O_hash in Es. change (Z.of_nat 20) with 20 in *.
  rewrite Es. cbn [mbind result_mbind result_bind]. rewrite E2. cbn [mbind result_mbind result_bind].
  assert (length (xbox_hash ver (xbox_hash ver p)) = 20%nat) as L2 by apply length_hash_from.
  destruct (rc4_init_ok rctx (xbox_hash ver (xbox_hash ver p)) Hr) as (box & E3 & Hbox & Hall); [intros E0; by rewrite E0 in L2|].
  rewrite L2 in E3, Hall. change (Z.of_nat 20) with 20 in *. rewrite E3. cbn [mbind result_mbind result_bind].
  rewrite (Sp _ L1). cbn [mbind result_mbind result_bind].
  destruct (rc4_crypt_ok box p Hbox) as (s3 & E4 & _). set (enc := xor_bytes p _) in *.
  pose proof (length_keystream (length p) 0 0 box) as Lk.
  assert (length enc = 28%nat) as Le by (rewrite <- Hp; by apply length_xor_bytes).
  destruct (rc4_crypt_ok box enc Hbox) as (s4 & E5 & _). rewrite Le, <- Hp in E5. unfold enc in E5 at 2.
  rewrite xor_bytes_twice, Hp in E5 by done. rewrite Hp in E4. change (Z.of_nat 28) with 0x1C in *. rewrite E4. cbn [mbind result_mbind result_bind].
  pose proof (blit_app (xbox_hash ver p) p rest enc ltac:(lia)) as Ef. rewrite L1 in Ef.
  change (Z.of_nat 20) with O_confounder in Ef. rewrite Ef. by exists box, enc, s3, s4.
Qed.

(** ** What is generated *)

Section Generated.
Context (random : nat -> Z -> list Z).

(** The generator fills the buffer it is given. *)
Context (random_length : forall k n, 0 <= n -> Z.of_nat (length (random k n)) = n).

(** The fields before the checksums are known. *)
Definition fields : list (list Z) :=
  [repeat 0 20; random 0%nat 8; random 1%nat 16; le_bytes 4 1; repeat 0 4; map serial_digit (random 4%nat 12);
   [0x00; 0x50; 0xF2]; random 3%nat 3; repeat 0 2; random 2%nat 16; le_bytes 4 0x00400100; repeat 0 4; repeat 0 4;
   default_user_section; le_bytes 4 1; repeat 0 44; repeat 0 64].

Lemma random_lengths : length (random 0%nat 8) = 8%nat /\ length (random 1%nat 16) = 16%nat /\
  length (random 2%nat 16) = 16%nat /\ length (random 3%nat 3) = 3%nat /\ length (random 4%nat 12) = 12%nat.
Proof. split_and!; apply Nat2Z.inj, random_length; lia. Qed.

Lemma fill_image_fields : fill_image random = Ok (concat fields).
Proof.
  destruct random_lengths as (R0 & R1 & R2 & R3 & R4). unfold fill_image.
  replace (repeat 0 256) with (concat [repeat 0 20; repeat 0 8; repeat 0 16; repeat 0 4; repeat 0 4; repeat 0 12;
    repeat 0 3; repeat 0 3; repeat 0 2; repeat 0 16; repeat 0 4; repeat 0 4; repeat 0 4; repeat 0 44; repeat 0 4;
    repeat 0 44; repeat 0 64]) by (vm_compute; reflexivity).
  field 3%nat. field 10%nat. field 1%nat. field 2%nat. field 9%nat. field 6%nat. field 7%nat. field 5%nat.
  erewrite (serial_field 5); [|reflexivity|by len|exact R4].
  cbn [mbind result_mbind result_bind]. cbn [insert list_insert]. field 13%nat. field 14%nat. done.
Qed.

(** The sections the checksums cover, and the image with both checksums. *)
Definition factory : list Z := concat (take 7 (drop 5 fields)).
Definition user : list Z := concat (take 3 (drop 13 fields)).
Definition plain : list Z := random 0%nat 8 ++ random 1%nat 16 ++ le_bytes 4 1.
Definition sealed : list (list Z) :=
  <[12%nat := le_bytes 4 (checksum_of (word_sum 23 user))]> (<[4%nat := le_bytes 4 (checksum_of (word_sum 11 factory))]> fields).

Context (random_u8 : forall k n, Forall is_u8 (random k n)).

Lemma serial_u8 l : Forall is_u8 (map serial_digit l).
Proof. apply Forall_fmap, Forall_true. intros x. apply u8_range. Qed.

Lemma sections_u8 : Forall is_u8 factory /\ Forall is_u8 user.
Proof.
  unfold factory, user, fields. cbn [take drop concat]. rewrite !app_nil_r, !Forall_app.
  split_and!; try apply random_u8; try apply serial_u8; try apply le_bytes_u8;
    repeat constructor; unfold is_u8; lia.
Qed.

Lemma put_checksums_ok : put_checksums (concat fields) = Ok (concat sealed).
Proof.
  destruct random_lengths as (R0 & R1 & R2 & R3 & R4). destruct sections_u8 as [F8 U8]. unfold put_checksums.
  rewrite (slice_fields 5 7) by (unfold fields; by len). cbn [mbind result_mbind result_bind].
  change (concat (take 7 (drop 5 fields))) with factory. change 0x2C with (4 * Z.of_nat 11).
  rewrite xbox_eeprom_crc_ok by (try done; unfold factory, fields; by len). cbn [mbind result_mbind result_bind].
  unfold fields at 1. field 4%nat.
  rewrite (slice_fields 13 3) by (by len). cbn [mbind result_mbind result_bind take drop].
  change (concat [default_user_section; le_bytes 4 1; repeat 0 44]) with user. change 0x5C with (4 * Z.of_nat 23).
  rewrite xbox_eeprom_crc_ok by (try done; unfold user, fields; by len). cbn [mbind result_mbind result_bind].
  field 12%nat. done.
Qed.

Lemma generate_image_ok ver sctx rctx : length (msg_blk sctx) = 64%nat -> length rctx = 256%nat ->
  exists box enc s' s'',
    generate_image random ver sctx rctx = Ok (xbox_hash ver plain ++ enc ++ concat (drop 4 sealed)) /\
    length enc = 28%nat /\ (forall t, length t = 256%nat -> rc4_init t (xbox_hash ver (xbox_hash ver plain)) 20 = Ok box) /\
    rc4_crypt box plain 28 = Ok (s', enc) /\ rc4_crypt box enc 28 = Ok (s'', plain).
Proof.
  intros Hs Hr. destruct random_lengths as (R0 & R1 & R2 & R3 & R4). unfold generate_image.
  rewrite fill_image_fields. cbn [mbind result_mbind result_bind]. rewrite put_checksums_ok.
  cbn [mbind result_mbind result_bind].
  assert (concat sealed = repeat 0 20 ++ plain ++ concat (drop 4 sealed)) as ->.
  { unfold sealed, fields, plain. cbn [insert list_insert drop concat]. by rewrite <- !app_assoc. }
  apply encrypt_section_ok; [done..|]. unfold plain. by len.
Qed.
End Generated.

(** ** The reader of an image *)

(** What a reader of the image does with the same routines: it takes the key from the
    stored hash, decrypts the section, and compares hash and checksums. *)
Definition read_eeprom (ver : XboxEEPROMVersion) (sctx : SHA1Context) (rctx img : list Z) : result (option (list Z)) :=
  hash ← slice img O_hash 20;
  enc ← slice img O_confounder 0x1C;
  '(sctx, seed) ← xbox_sha1_compute sctx ver hash 20;
  rctx ← rc4_init rctx seed 20;
  '(_, p) ← rc4_crypt rctx enc 0x1C;
  '(_, h) ← xbox_sha1_compute sctx ver p 0x1C;
  c ← slice img O_checksum 4;
  d ← slice img O_serial 0x2C;
  crc ← xbox_eeprom_crc d 0x2C;
  uc ← slice img O_user_checksum 4;
  ud ← slice img O_user_section 0x5C;
  ucrc ← xbox_eeprom_crc ud 0x5C;
  Ok (if bool_decide (h = hash) && (le_word c =? crc) && (le_word uc =? ucrc) then Some p else None).

Section Reader.
Context (random : nat -> Z -> list Z).
Context (random_length : forall k n, 0 <= n -> Z.of_nat (length (random k n)) = n).
Context (random_u8 : forall k n, Forall is_u8 (random k n)).

Lemma serial_digits l : Forall (fun d => 48 <= d <= 57) (map serial_digit l).
Proof.
  apply Forall_fmap, Forall_true. intros x. unfold compose, serial_digit.
  pose proof (Z.mod_pos_bound x 10 ltac:(lia)). rewrite u8_id; unfold is_u8; lia.
Qed.

Lemma checksum_range S : 0 <= checksum_of S < 2 ^ 32.
Proof. unfold checksum_of. pose proof (Z.mod_pos_bound (S / 2 ^ 32 + S mod 2 ^ 32) (2 ^ 32) ltac:(lia)). lia. Qed.

(** The parts of a generated image. *)
Lemma image_slices h enc img : length h = 20%nat -> length enc = 28%nat ->
  img = h ++ enc ++ concat (drop 4 (sealed random)) ->
  slice img O_hash 20 = Ok h /\ slice img O_confounder 0x1C = Ok enc /\
  slice img O_checksum 4 = Ok (le_bytes 4 (checksum_of (word_sum 11 (factory random)))) /\
  slice img O_serial 0x2C = Ok (factory random) /\
  slice img O_user_checksum 4 = Ok (le_bytes 4 (checksum_of (word_sum 23 (user random)))) /\
  slice img O_user_section 0x5C = Ok (user random) /\
  slice img O_serial 12 = Ok (map serial_digit (random 4%nat 12)) /\
  slice img O_mac 6 = Ok ([0x00; 0x50; 0xF2] ++ random 3%nat 3) /\ length img = 256%nat.
Proof.
  intros Hh He Himg. destruct (random_lengths random random_length) as (R0 & R1 & R2 & R3 & R4).
  unfold sealed, fields in Himg. cbn [insert list_insert drop] in Himg.
  match type of Himg with _ = _ ++ _ ++ concat ?T => assert (img = concat (h :: enc :: T)) as -> by done end. clear Himg.
  rewrite (slice_fields 0 1 _ O_hash 20), (slice_fields 1 1 _ O_confounder 0x1C), (slice_fields 2 1 _ O_checksum 4),
    (slice_fields 3 7 _ O_serial 0x2C), (slice_fields 10 1 _ O_user_checksum 4),
    (slice_fields 11 3 _ O_user_section 0x5C), (slice_fields 3 1 _ O_serial 12), (slice_fields 4 2 _ O_mac 6) by (by len).
  cbn [take drop]. repeat split; try (cbn [concat]; by rewrite ?app_nil_r). by len.
Qed.

(** The two checksums of such an image. *)
Lemma section_crcs :
  xbox_eeprom_crc (factory random) 0x2C = Ok (checksum_of (word_sum 11 (factory random))) /\
  xbox_eeprom_crc (user random) 0x5C = Ok (checksum_of (word_sum 23 (user random))).
Proof.
  destruct (random_lengths random random_length) as (R0 & R1 & R2 & R3 & R4).
  destruct (sections_u8 random random_u8) as [F8 U8].
  split; [apply (xbox_eeprom_crc_ok _ 11)|apply (xbox_eeprom_crc_ok _ 23)];
    try done; unfold factory, user, fields; by len.
Qed.

Lemma read_eeprom_ok ver sctx rctx box enc s'' : length (msg_blk sctx) = 64%nat -> length rctx = 256%nat ->
  length enc = 28%nat ->
  (forall t, length t = 256%nat -> rc4_init t (xbox_hash ver (xbox_hash ver (plain random))) 20 = Ok box) ->
  rc4_crypt box enc 28 = Ok (s'', plain random) ->
  read_eeprom ver sctx rctx (xbox_hash ver (plain random) ++ enc ++ concat (drop 4 (sealed random))) = Ok (Some (plain random)).
Proof.
  intros Hs Hr He Hbox Hd. destruct (random_lengths random random_length) as (R0 & R1 & R2 & R3 & R4).
  assert (length (plain random) = 28%nat) as Lp by (unfold plain; by len).
  assert (length (xbox_hash ver (plain random)) = 20%nat) as L1 by apply length_hash_from.
  destruct (image_slices _ enc _ L1 He eq_refl) as (S0 & S1 & S2 & S3 & S4 & S5 & _). destruct section_crcs as [C1 C2].
  set (img := _ ++ enc ++ _) in *. clearbody img. unfold read_eeprom. rewrite S0. cbn [mbind result_mbind result_bind].
  rewrite S1. cbn [mbind result_mbind result_bind].
  destruct (xbox_sha1_compute_ok sctx ver (xbox_hash ver (plain random)) Hs ltac:(lia)) as (s1 & E1 & B1). rewrite L1 in E1.
  change (Z.of_nat 20) with 20 in E1. rewrite E1. cbn [mbind result_mbind result_bind].
  rewrite Hbox by done. cbn [mbind result_mbind result_bind]. rewrite Hd. cbn [mbind result_mbind result_bind].
  destruct (xbox_sha1_compute_ok s1 ver (plain random) B1 ltac:(lia)) as (s2 & E2 & _). rewrite Lp in E2.
  change (Z.of_nat 28) with 0x1C in E2. rewrite E2. cbn [mbind result_mbind result_bind].
  rewrite S2. cbn [mbind result_mbind result_bind]. rewrite S3. cbn [mbind result_mbind result_bind].
  rewrite C1. cbn [mbind result_mbind result_bind]. rewrite S4. cbn [mbind result_mbind result_bind].
  rewrite S5. cbn [mbind result_mbind result_bind]. rewrite C2. cbn [mbind result_mbind result_bind].
  rewrite !le_word_bytes. change (256 ^ Z.of_nat 4) with (2 ^ 32). rewrite !(Z.mod_small (checksum_of _)) by apply checksum_range.
  by rewrite bool_decide_true, !Z.eqb_refl.
Qed.
End Reader.

(** C28. A generated EEPROM is a valid one: whatever the random bytes, the kernel
    version and the stack hold, the generator makes 256 bytes from which the reader
    recovers confounder, disk key and region 1, hash and both checksums in order,
    with the vendor's MAC prefix and a serial number of digits; it returns true just
    when the file took them. *)
Theorem xbox_eeprom_generate_valid random ver sctx rctx fopen fwrite :
  (forall k n, 0 <= n -> Z.of_nat (length (random k n)) = n) -> (forall k n, Forall is_u8 (random k n)) ->
  length (msg_blk sctx) = 64%nat -> length rctx = 256%nat ->
  exists img, xbox_eeprom_generate random ver sctx rctx fopen fwrite =
      Ok (fopen && (fst (fwrite img) =? 1), if fopen then Some (snd (fwrite img)) else None) /\
    length img = 256%nat /\
    (forall s r, length (msg_blk s) = 64%nat -> length r = 256%nat ->
       read_eeprom ver s r img = Ok (Some (random 0%nat 8 ++ random 1%nat 16 ++ [1; 0; 0; 0]))) /\
    slice img O_mac 6 = Ok ([0x00; 0x50; 0xF2] ++ random 3%nat 3) /\
    exists serial, slice img O_serial 12 = Ok serial /\ Forall (fun d => 48 <= d <= 57) serial.
Proof.
  intros Hl H8 Hs Hr. destruct (generate_image_ok random Hl H8 ver sctx rctx Hs Hr) as (box & enc & s' & s'' & E & Le & Hb & _ & Hd).
  destruct (image_slices random Hl (xbox_hash ver (plain random)) enc _ (length_hash_from _ _ _) Le eq_refl) as (_ & _ & _ & _ & _ & _ & Ss & Sm & Li).
  exists (xbox_hash ver (plain random) ++ enc ++ concat (drop 4 (sealed random))). unfold xbox_eeprom_generate. rewrite E. cbn [mbind result_mbind result_bind].
  split; [destruct fopen; [by destruct (fwrite _)|done]|]. split; [exact Li|]. split.
  - intros s r Hs' Hr'. by apply (read_eeprom_ok random Hl H8 ver s r box enc s'').
  - split; [exact Sm|]. eexists. split; [exact Ss|]. apply serial_digits.
Qed.

(** Retail 1.0 console, with counting bytes for random ones. *)
Definition counting (k : nat) (n : Z) : list Z := map (fun i => u8 (Z.of_nat (17 * k + i))) (seq 0 (Z.to_nat n)).

Lemma xbox_eeprom_generate_valid_witness : exists img,
  xbox_eeprom_generate counting XBOX_EEPROM_VERSION_R1 (mkSha1 [] (repeat 0 64) 0 0 false) (repeat 0 256) true (fun l => (1, l)) =
    Ok (true, Some img) /\ length img = 256%nat.
Proof.
  destruct (xbox_eeprom_generate_valid counting XBOX_EEPROM_VERSION_R1 (mkSha1 [] (repeat 0 64) 0 0 false) (repeat 0 256)
    true (fun l => (1, l))) as (img & E & L & _).
  - intros k n Hn. unfold counting. rewrite length_map, length_seq. lia.
  - intros k n. unfold counting. apply Forall_fmap, Forall_true. intros x. apply u8_range.
  - reflexivity.
  - reflexivity.
  - exists img. split; [exact E|exact L].
Defined.
