(* ===== verification/Adpcm.v ===== *)
(** The ADPCM decoder of the voice processor (hw/xbox/mcpx/apu/vp/adpcm.h).

    [adpcm_decode_block] decodes a block of four-bit ADPCM: a header of four bytes
    for each channel, then chunks of eight samples for each channel in turn, to
    interleaved 16-bit samples.  The function's pointers are offsets that the loops
    carry along as the code does, so that an access outside the buffers faults.

    The reference is the decoder of one channel over its own sequence of four-bit
    codes.  The theorem says that the code gives each channel's samples at their
    places, and touches nothing else. *)

From S2P Require Import Prelude.

Local Open Scope Z_scope.

(** ** The code *)

Definition step_table : list Z :=
  [7; 8; 9; 10; 11; 12; 13; 14;
   16; 17; 19; 21; 23; 25; 28; 31;
   34; 37; 41; 45; 50; 55; 60; 66;
   73; 80; 88; 97; 107; 118; 130; 143;
   157; 173; 190; 209; 230; 253; 279; 307;
   337; 371; 408; 449; 494; 544; 598; 658;
   724; 796; 876; 963; 1060; 1166; 1282; 1411;
   1552; 1707; 1878; 2066; 2272; 2499; 2749; 3024;
   3327; 3660; 4026; 4428; 4871; 5358; 5894; 6484;
   7132; 7845; 8630; 9493; 10442; 11487; 12635; 13899;
   15289; 16818; 18500; 20350; 22385; 24623; 27086; 29794;
   32767].

Definition index_table : list Z := [-1; -1; -1; -1; 2; 4; 6; 8].

Definition CLIP (data min max : Z) : Z := if max <? data then max else if data <? min then min else data.

(** One sample: the four tests of a byte's half on [pcmdata[ch]], [index[ch]]. *)
Definition decode_half (b m1 m2 m4 m8 code : Z) (st : Z * Z) : result (Z * Z) :=
  let '(pcm, index) := st in
  step ← fetch step_table index;
  let delta := Z.shiftr step 3 in
  let delta := if has b m1 then delta + Z.shiftr step 2 else delta in
  let delta := if has b m2 then delta + Z.shiftr step 1 else delta in
  let delta := if has b m4 then delta + step else delta in
  let delta := if has b m8 then - delta else delta in
  let pcm := pcm + delta in
  d ← fetch index_table code;
  let index := s8 (index + d) in
  Ok (CLIP pcm (-32768) 32767, CLIP index 0 88).

(** The variables of the function: the output, [pcmdata], [index], and the offsets
    [outbuf] and [inbuf] have moved by. *)
Record dec := mkDec { outbuf : list Z; pcmdata : list Z; index : list Z; out_at : Z; in_at : Z }.
#[export] Instance dec_settable : Settable dec := settable! mkDec < outbuf ; pcmdata ; index ; out_at ; in_at >.

(** A turn of the loop over the headers; the flag tells that it returned early. *)
Definition header_step (inbuf : list Z) (ch : Z) (st : dec * bool) : result (dec * bool) :=
  let '(d, returned) := st in
  if returned then Ok (d, true)
  else
    b0 ← fetch inbuf (in_at d);
    b1 ← fetch inbuf (in_at d + 1);
    let v := s16 (Z.lor b0 (Z.shiftl b1 8)) in
    pcm ← blit (pcmdata d) ch [v];
    out ← blit (outbuf d) (out_at d) [v];
    b2 ← fetch inbuf (in_at d + 2);
    idx ← blit (index d) ch [s8 b2];
    b3 ← fetch inbuf (in_at d + 3);
    let d := d <| outbuf := out |> <| out_at := out_at d + 1 |> <| pcmdata := pcm |> <| index := idx |> in
    if (s8 b2 <? 0) || (88 <? s8 b2) || negb (b3 =? 0) then Ok (d, true)
    else Ok (d <| in_at := in_at d + 4 |>, false).

(** A byte: two samples of channel [ch]. *)
Definition byte_step (inbuf : list Z) (channels ch i : Z) (d : dec) : result dec :=
  b ← fetch inbuf (in_at d);
  p ← fetch (pcmdata d) ch;
  x ← fetch (index d) ch;
  '(p, x) ← decode_half b 1 2 4 8 (Z.land b 0x7) (p, x);
  out ← blit (outbuf d) (out_at d + i * 2 * channels) [s16 p];
  '(p, x) ← decode_half b 0x10 0x20 0x40 0x80 (Z.land (Z.shiftr b 4) 0x7) (p, x);
  out ← blit out (out_at d + (i * 2 + 1) * channels) [s16 p];
  pcm ← blit (pcmdata d) ch [p];
  idx ← blit (index d) ch [x];
  Ok (d <| outbuf := out |> <| pcmdata := pcm |> <| index := idx |> <| in_at := in_at d + 1 |>).

Definition channel_step (inbuf : list Z) (channels ch : Z) (d : dec) : result dec :=
  d ← for_loop 4 0 (byte_step inbuf channels ch) d;
  Ok (d <| out_at := out_at d + 1 |>).

Definition chunk_step (inbuf : list Z) (channels : Z) (d : dec) : result dec :=
  d ← for_loop (Z.to_nat channels) 0 (channel_step inbuf channels) d;
  Ok (d <| out_at := out_at d + channels * 7 |>).

(** [pcmdata] and [index] start as the stack holds them; a negative [chunks] would
    run the output over. *)
Definition adpcm_decode_block (out inbuf : list Z) (inbufsize channels : Z) (pcm0 index0 : list Z) :
    result (Z * list Z) :=
  if inbufsize <? u32 (u32 channels * 4) then Ok (0, out)
  else
    st ← for_loop (Z.to_nat channels) 0 (header_step inbuf) (mkDec out pcm0 index0 0 0, false);
    let '(d, returned) := st in
    if (returned : bool) then Ok (0, outbuf d)
    else if channels =? 0 then Fault DivByZero
    else
      let chunks := s32 ((inbufsize - 4 * channels) / (channels * 4)) in
      if chunks <? 0 then Fault OutOfBounds
      else
        d ← for_loop (Z.to_nat chunks) 0 (fun _ => chunk_step inbuf channels) d;
        Ok (1 + chunks * 8, outbuf d).

(** ** The reference *)

(** The decoder of one channel: a four-bit code changes the sample and the index. *)
Definition ima_step (st : Z * Z) (code : Z) : Z * Z :=
  let '(p, i) := st in
  let step := byte step_table i in
  let m := step / 8 + bit_of code 0 * (step / 4) + bit_of code 1 * (step / 2) + bit_of code 2 * step in
  (Z.max (-32768) (Z.min 32767 (if Z.testbit code 3 then p - m else p + m)),
   Z.max 0 (Z.min 88 (i + byte index_table (code mod 8)))).

(** The header of channel [ch] and the code of its sample [t + 1]. *)
Definition header (inbuf : list Z) (ch : Z) : Z * Z :=
  (signed 16 (le_word [byte inbuf (4 * ch); byte inbuf (4 * ch + 1)]), byte inbuf (4 * ch + 2)).
Definition valid_header (inbuf : list Z) (ch : Z) : bool :=
  (byte inbuf (4 * ch + 2) <=? 88) && (byte inbuf (4 * ch + 3) =? 0).
Definition code_at (inbuf : list Z) (channels ch t : Z) : Z :=
  let b := byte inbuf (4 * channels + (t / 8 * channels + ch) * 4 + t mod 8 / 2) in
  if Z.even t then b mod 16 else b / 16.

(** The state of channel [ch] at sample [t]. *)
Fixpoint ref_state (inbuf : list Z) (channels ch : Z) (t : nat) : Z * Z :=
  match t with
  | O => header inbuf ch
  | S t => ima_step (ref_state inbuf channels ch t) (code_at inbuf channels ch (Z.of_nat t))
  end.

(** ** One sample *)

(** Samples are 16-bit and indices are in the table. *)
Definition st_ok (st : Z * Z) : Prop := -32768 <= fst st <= 32767 /\ 0 <= snd st <= 88.

Lemma step_range i : 0 <= i <= 88 -> 7 <= byte step_table i <= 32767.
Proof.
  intros Hi. apply (byte_Forall (fun x => 7 <= x <= 32767)); [|cbn; lia].
  unfold step_table. repeat constructor; lia.
Qed.

Lemma index_range c : 0 <= c < 8 -> -1 <= byte index_table c <= 8.
Proof.
  intros Hc. apply (byte_Forall (fun x => -1 <= x <= 8)); [|cbn; lia]. unfold index_table. repeat constructor; lia.
Qed.

Lemma ima_step_ok st code : st_ok (ima_step st code).
Proof. destruct st as [p i]. unfold st_ok, ima_step. cbn [fst snd]. lia. Qed.

Lemma CLIP_spec x lo hi : lo <= hi -> CLIP x lo hi = Z.max lo (Z.min hi x).
Proof. intros H. unfold CLIP. destruct (Z.ltb_spec hi x), (Z.ltb_spec x lo); lia. Qed.

(** Either half of a byte is a code. *)
Lemma decode_half_ok b k p i : 0 <= b -> 0 <= k -> st_ok (p, i) ->
  let code := (b / 2 ^ k) mod 16 in
  decode_half b (bit k) (bit (k + 1)) (bit (k + 2)) (bit (k + 3)) (code mod 8) (p, i) = Ok (ima_step (p, i) code).
Proof.
  intros Hb Hk [Hp Hi] code. cbn [fst snd] in Hp, Hi. unfold decode_half, ima_step.
  rewrite (fetch_byte step_table) by (cbn; lia). cbn [mbind result_mbind result_bind].
  pose proof (Z.mod_pos_bound code 8 ltac:(lia)) as Hc. rewrite (fetch_byte index_table) by (cbn; lia).
  cbn [mbind result_mbind result_bind]. rewrite !has_bit by lia.
  assert (forall j, 0 <= j < 4 -> Z.testbit b (k + j) = Z.testbit code j) as Hbits.
  { intros j Hj. unfold code. change 16 with (2 ^ 4). rewrite Z.mod_pow2_bits_low, Z.div_pow2_bits by lia. f_equal. lia. }
  pose proof (Hbits 0 ltac:(lia)) as H0. rewrite Z.add_0_r in H0. rewrite H0, !Hbits, !bit_of_testbit by lia.
  rewrite !CLIP_spec by lia. pose proof (step_range i Hi). pose proof (index_range _ Hc).
  rewrite s8_id, !Z.shiftr_div_pow2 by lia. change (2 ^ 3) with 8. change (2 ^ 2) with 4. change (2 ^ 1) with 2.
  do 2 f_equal. destruct (Z.testbit code 0), (Z.testbit code 1), (Z.testbit code 2), (Z.testbit code 3);
    cbn [Z.b2z]; lia.
Qed.

Lemma decode_low b st : is_u8 b -> st_ok st -> decode_half b 1 2 4 8 (Z.land b 0x7) st = Ok (ima_step st (b mod 16)).
Proof.
  intros Hb Hst. destruct st as [p i]. pose proof (decode_half_ok b 0 p i (proj1 Hb) ltac:(lia) Hst) as E.
  cbn zeta in E. rewrite Z.div_1_r in E. change (Z.land b 0x7) with (Z.land b (Z.ones 3)).
  rewrite Z.land_ones by lia. replace (b mod 2 ^ 3) with ((b mod 16) mod 8); [exact E|].
  change 16 with (8 * 2). rewrite Z.rem_mul_r by lia. rewrite (Z.mul_comm 8), Z.mod_add, Z.mod_mod by lia. done.
Qed.

Lemma decode_high b st : is_u8 b -> st_ok st ->
  decode_half b 0x10 0x20 0x40 0x80 (Z.land (Z.shiftr b 4) 0x7) st = Ok (ima_step st (b / 16)).
Proof.
  intros Hb Hst. destruct st as [p i]. pose proof (decode_half_ok b 4 p i (proj1 Hb) ltac:(lia) Hst) as E.
  cbn zeta in E. change (2 ^ 4) with 16 in E. unfold is_u8 in Hb.
  assert (b / 16 < 16) by (apply Z.div_lt_upper_bound; lia). assert (0 <= b / 16) by (apply Z.div_pos; lia).
  rewrite (Z.mod_small (b / 16)) in E by lia. change 0x7 with (Z.ones 3). rewrite Z.land_ones, Z.shiftr_div_pow2 by lia.
  exact E.
Qed.

(** The four-bit codes of a byte are those of two neighbouring samples. *)
Lemma code_low inbuf channels ch k i : 0 <= i < 4 ->
  code_at inbuf channels ch (8 * k + 2 * i) = byte inbuf (4 * channels + (k * channels + ch) * 4 + i) mod 16.
Proof.
  intros Hi. unfold code_at. rewrite Z.even_add, !Z.even_mul. cbn [Z.even Bool.eqb orb].
  rewrite <- (Z.div_unique (8 * k + 2 * i) 8 k (2 * i)), <- (Z.mod_unique (8 * k + 2 * i) 8 k (2 * i)) by lia.
  by rewrite (Z.mul_comm 2 i), Z.div_mul by lia.
Qed.

Lemma code_high inbuf channels ch k i : 0 <= i < 4 ->
  code_at inbuf channels ch (8 * k + 2 * i + 1) = byte inbuf (4 * channels + (k * channels + ch) * 4 + i) / 16.
Proof.
  intros Hi. unfold code_at. rewrite !Z.even_add, !Z.even_mul. cbn [Z.even Bool.eqb orb].
  rewrite <- (Z.div_unique (8 * k + 2 * i + 1) 8 k (2 * i + 1)), <- (Z.mod_unique (8 * k + 2 * i + 1) 8 k (2 * i + 1)) by lia.
  by rewrite <- (Z.div_unique (2 * i + 1) 2 i 1) by lia.
Qed.

(** ** The interleaved output *)

Section Interleaved.
Context (inbuf out0 : list Z) (channels : Z).
Context (channels_ok : 1 <= channels <= 2).
Context (inbuf_u8 : Forall is_u8 inbuf).

Definition ref (c t : Z) : Z * Z := ref_state inbuf channels c (Z.to_nat t).

Lemma ref_succ c t : 0 <= t -> ref c (t + 1) = ima_step (ref c t) (code_at inbuf channels c t).
Proof. intros Ht. unfold ref. rewrite Z2Nat.inj_add, Nat.add_1_r by lia. cbn [ref_state]. by rewrite Z2Nat.id by lia. Qed.

(** Sample [t] of channel [c] is in the output, for [t] up to [cnt c]. *)
Record written (cnt : Z -> Z) (out : list Z) : Prop := {
  w_length : length out = length out0;
  w_samples : forall c t, 0 <= c < channels -> 0 <= t <= cnt c -> byte out (t * channels + c) = fst (ref c t);
  w_rest : forall j, 0 <= j -> (forall c t, 0 <= c < channels -> 0 <= t <= cnt c -> j <> t * channels + c) ->
    byte out j = byte out0 j;
}.

Definition bump (cnt : Z -> Z) (ch : Z) : Z -> Z := fun c => if c =? ch then cnt c + 1 else cnt c.

Lemma in_range a j : (a <=? j) && (j <? a + Z.of_nat 1) = bool_decide (j = a).
Proof. destruct (Z.leb_spec a j), (Z.ltb_spec j (a + Z.of_nat 1)); symmetry; cbn [andb];
  (apply bool_decide_eq_true_2 || apply bool_decide_eq_false_2); lia. Qed.

Lemma place_inj c t c' t' : 0 <= c < channels -> 0 <= c' < channels -> t * channels + c = t' * channels + c' ->
  t = t' /\ c = c'.
Proof. intros Hc Hc' E. assert (t = t') by nia. subst. lia. Qed.

Lemma write_sample cnt out ch : written cnt out -> 0 <= ch < channels -> -1 <= cnt ch ->
  (cnt ch + 1) * channels + ch < Z.of_nat (length out0) ->
  exists out', blit out ((cnt ch + 1) * channels + ch) [fst (ref ch (cnt ch + 1))] = Ok out' /\ written (bump cnt ch) out'.
Proof.
  intros [Hl Hs Hr] Hch Hcnt Hfit. assert (0 <= (cnt ch + 1) * channels + ch) as H0 by nia.
  destruct (blit out ((cnt ch + 1) * channels + ch) [fst (ref ch (cnt ch + 1))]) as [out'|f] eqn:E.
  2:{ rewrite blit_one in E by lia. done. }
  exists out'. split; [done|]. destruct (blit_inv _ _ _ _ E) as (_ & _ & Hl' & Hb). cbn [length] in Hb.
  split; [by rewrite Hl'| |].
  - intros c t Hc Ht. unfold bump in Ht. rewrite Hb, in_range by nia. case_bool_decide as Hin.
    + assert (t * channels + c = (cnt ch + 1) * channels + ch) as Ep by lia.
      destruct (place_inj _ _ _ _ Hc Hch Ep) as [-> ->]. by rewrite Z.sub_diag.
    + apply Hs; [done|]. destruct (Z.eqb_spec c ch); [|lia]. subst. assert (t <> cnt ch + 1) by (intros ->; lia). lia.
  - intros j Hj Hno. rewrite Hb, in_range by done. case_bool_decide as Hin.
    + exfalso. apply (Hno ch (cnt ch + 1)); [done| |lia]. unfold bump. rewrite Z.eqb_refl. lia.
    + apply Hr; [done|]. intros c t Hc Ht. apply Hno; [done|]. unfold bump. destruct (c =? ch); lia.
Qed.

(** The variables of the loops when that much is decoded. *)
Record decoded (cnt : Z -> Z) (d : dec) : Prop := {
  d_out : written cnt (outbuf d);
  d_pcm : length (pcmdata d) = 2%nat;
  d_index : length (index d) = 2%nat;
  d_state : forall c, 0 <= c < channels -> 0 <= cnt c -> (byte (pcmdata d) c, byte (index d) c) = ref c (cnt c);
}.

Lemma written_ext cnt cnt' out : (forall c, 0 <= c < channels -> cnt' c = cnt c) -> written cnt out -> written cnt' out.
Proof.
  intros E [Hl Hs Hr]. split; [done| |].
  - intros c t Hc Ht. apply Hs; [done|]. by rewrite <- E.
  - intros j Hj Hno. apply Hr; [done|]. intros c t Hc Ht. apply Hno; [done|]. by rewrite E.
Qed.

Lemma decoded_ext cnt cnt' d : (forall c, 0 <= c < channels -> cnt' c = cnt c) -> decoded cnt d -> decoded cnt' d.
Proof.
  intros E [Ho Hp Hi Hs]. split; [by apply (written_ext cnt)|done..|].
  intros c Hc H0. rewrite E in * by done. by apply Hs.
Qed.

Lemma byte_insert l i j v : 0 <= i < Z.of_nat (length l) -> 0 <= j ->
  byte (<[Z.to_nat i := v]> l) j = if j =? i then v else byte l j.
Proof.
  intros Hi Hj. unfold byte. rewrite !nth_lookup, list_lookup_insert.
  destruct (Z.eqb_spec j i); [rewrite decide_True by lia|rewrite decide_False by lia]; done.
Qed.

Hypothesis headers_in : 4 * channels <= Z.of_nat (length inbuf).

(** The headers of the channels below [ch] are read. *)
Definition hcnt (ch : Z) : Z -> Z := fun c => if c <? ch then 0 else -1.

Lemma header_value b0 b1 : is_u8 b0 -> is_u8 b1 -> s16 (Z.lor b0 (Z.shiftl b1 8)) = signed 16 (le_word [b0; b1]).
Proof.
  unfold is_u8. intros H0 H1. unfold s16. rewrite lor_shiftl by lia. cbn [le_word].
  replace (b0 + b1 * 2 ^ 8) with (b0 + 256 * (b1 + 256 * 0)) by lia. by rewrite u16_id by (unfold is_u16; lia).
Qed.

Lemma header_step_ok ch d : 0 <= ch < channels -> channels <= Z.of_nat (length out0) ->
  decoded (hcnt ch) d -> in_at d = 4 * ch -> out_at d = ch ->
  exists d', header_step inbuf ch (d, false) = Ok (d', negb (valid_header inbuf ch)) /\
    length (outbuf d') = length out0 /\
    (valid_header inbuf ch = true -> decoded (hcnt (ch + 1)) d' /\ in_at d' = 4 * (ch + 1) /\ out_at d' = ch + 1).
Proof.
  intros Hch Hfit [Ho Hp Hx Hs] Hin Hout. unfold header_step. rewrite Hin, Hout.
  assert (forall j, 0 <= j < 4 -> is_u8 (byte inbuf (4 * ch + j))) as H8 by (intros j Hj; apply byte_Forall; [done|lia]).
  pose proof (H8 0 ltac:(lia)) as H0. rewrite Z.add_0_r in H0.
  rewrite !(fetch_byte inbuf) by lia. cbn [mbind result_mbind result_bind].
  rewrite header_value by (try done; apply H8; lia). set (v := signed 16 _).
  rewrite (blit_one (pcmdata d)) by lia. cbn [mbind result_mbind result_bind].
  assert (hcnt ch ch = -1) as C by (unfold hcnt; by rewrite Z.ltb_irrefl).
  destruct (write_sample (hcnt ch) (outbuf d) ch Ho Hch ltac:(lia) ltac:(rewrite C; lia)) as (o & Eo & Wo).
  rewrite C in Eo. change ((-1 + 1) * channels + ch) with ch in Eo. change (fst (ref ch (-1 + 1))) with v in Eo.
  rewrite Eo. cbn [mbind result_mbind result_bind].
  rewrite (blit_one (index d)) by lia. cbn [mbind result_mbind result_bind].
  pose proof (H8 2 ltac:(lia)) as H2. unfold is_u8 in H2. set (b2 := byte inbuf (4 * ch + 2)) in *.
  assert ((s8 b2 <? 0) || (88 <? s8 b2) || negb (byte inbuf (4 * ch + 3) =? 0) = negb (valid_header inbuf ch)) as Ev.
  { unfold valid_header. fold b2. destruct (byte inbuf (4 * ch + 3) =? 0); [|by rewrite andb_false_r, orb_true_r].
    rewrite andb_true_r, orb_false_r. unfold s8, signed. rewrite u8_id by (unfold is_u8; lia).
    destruct (Z.ltb_spec b2 (2 ^ (8 - 1))), (Z.leb_spec b2 88); cbn [negb]; lia. }
  rewrite Ev. destruct (valid_header inbuf ch) eqn:V; cbn [negb]; eexists; (split; [done|]).
  - split; [apply Wo|]. intros _. split; [|proj_red; lia]. split; proj_red; rewrite ?length_insert; try done.
    + revert Wo. apply written_ext. intros c Hc. unfold bump, hcnt.
      destruct (Z.ltb_spec c ch), (Z.ltb_spec c (ch + 1)), (Z.eqb_spec c ch); lia.
    + intros c Hc H0c. unfold hcnt in H0c. assert (hcnt (ch + 1) c = 0) as C'
        by (unfold hcnt; destruct (Z.ltb_spec c (ch + 1)); lia).
      rewrite C', !byte_insert by lia. destruct (Z.eqb_spec c ch) as [->|].
      * change (ref ch 0) with (v, b2). rewrite s8_small; [done|].
        unfold valid_header in V. fold b2 in V. rewrite andb_true_iff, Z.leb_le in V. lia.
      * replace 0 with (hcnt ch c). 1: apply Hs; [done|].
        all: unfold hcnt; rewrite (proj2 (Z.ltb_lt c ch)); [lia|destruct (Z.ltb_spec c (ch + 1)); lia].
  - split; [apply Wo|done].
Qed.

(** The loop over the headers stops at the first that is not valid. *)
Definition headers_read (ch : Z) (st : dec * bool) : Prop :=
  length (outbuf (fst st)) = length out0 /\
  if snd st then exists c, 0 <= c < ch /\ valid_header inbuf c = false
  else (forall c, 0 <= c < ch -> valid_header inbuf c = true) /\ decoded (hcnt ch) (fst st) /\
       in_at (fst st) = 4 * ch /\ out_at (fst st) = ch.

Lemma headers_loop pcm0 index0 : channels <= Z.of_nat (length out0) -> length pcm0 = 2%nat -> length index0 = 2%nat ->
  exists st, for_loop (Z.to_nat channels) 0 (header_step inbuf) (mkDec out0 pcm0 index0 0 0, false) = Ok st /\
    headers_read channels st.
Proof.
  intros Hfit Hp Hx.
  destruct (for_loop_inv headers_read (header_step inbuf) (Z.to_nat channels) 0 (mkDec out0 pcm0 index0 0 0, false))
    as (st & E & H).
  - split; [done|]. cbn [snd fst]. split; [lia|]. split; [|done]. split; proj_red; try done.
    + split; [done| |done]. unfold hcnt. intros c t Hc. destruct (Z.ltb_spec c 0); lia.
    + intros c Hc. unfold hcnt. destruct (Z.ltb_spec c 0); lia.
  - intros ch [d [|]] Hch [Hl H]; cbn [fst snd] in *.
    + eexists. split; [done|]. split; [done|]. cbn [snd]. destruct H as (c & Hc & V). exists c. split; [lia|done].
    + destruct H as (Hv & Hd & Hin & Hout). destruct (header_step_ok ch d ltac:(lia) Hfit Hd Hin Hout) as (d' & -> & L' & Hok).
      eexists. split; [done|]. split; [done|]. cbn [fst snd]. destruct (valid_header inbuf ch) eqn:V; cbn [negb].
      * split; [|by apply Hok]. intros c Hc. destruct (decide (c = ch)) as [->|]; [done|]. apply Hv. lia.
      * exists ch. split; [lia|done].
  - rewrite Z.add_0_l, Z2Nat.id in H by lia. by exists st.
Qed.

Hypothesis headers_ok : forall c, 0 <= c < channels -> valid_header inbuf c = true.

Lemma ref_ok c t : 0 <= c < channels -> 0 <= t -> st_ok (ref c t).
Proof.
  intros Hc Ht. unfold ref. destruct (Z.to_nat t) as [|n]; cbn [ref_state]; [|apply ima_step_ok].
  specialize (headers_ok c Hc). unfold valid_header in headers_ok. rewrite andb_true_iff, Z.leb_le in headers_ok.
  unfold header, st_ok. cbn [fst snd]. assert (forall j, 0 <= j < 4 -> is_u8 (byte inbuf (4 * c + j))) as H8
    by (intros j Hj; apply byte_Forall; [done|lia]).
  pose proof (H8 2 ltac:(lia)) as H2. pose proof (H8 1 ltac:(lia)) as H1. pose proof (H8 0 ltac:(lia)) as H0.
  rewrite Z.add_0_r in H0. unfold is_u8 in *. split; [|lia]. unfold signed. cbn [le_word]. destruct (Z.ltb_spec
    (byte inbuf (4 * c) + 256 * (byte inbuf (4 * c + 1) + 256 * 0)) (2 ^ (16 - 1))); lia.
Qed.

Lemma byte_step_ok cnt d k ch i : decoded cnt d -> 0 <= ch < channels -> 0 <= k -> 0 <= i < 4 ->
  cnt ch = 8 * k + 2 * i -> in_at d = 4 * channels + (k * channels + ch) * 4 + i ->
  out_at d = channels + 8 * channels * k + ch -> in_at d < Z.of_nat (length inbuf) ->
  (cnt ch + 2) * channels + ch < Z.of_nat (length out0) ->
  exists d', byte_step inbuf channels ch i d = Ok d' /\ decoded (bump (bump cnt ch) ch) d' /\
    in_at d' = in_at d + 1 /\ out_at d' = out_at d.
Proof.
  intros [Ho Hp Hx Hs] Hch Hk Hi Hcnt Hin Hout Hfin Hfit. unfold byte_step.
  assert (0 <= in_at d) by nia. rewrite (fetch_byte inbuf) by lia. cbn [mbind result_mbind result_bind].
  rewrite !fetch_byte by lia. cbn [mbind result_mbind result_bind].
  rewrite (Hs ch Hch) by lia. set (b := byte inbuf (in_at d)).
  assert (is_u8 b) as Hb by (apply byte_Forall; [done|lia]).
  rewrite decode_low by (try done; apply ref_ok; lia).
  replace (b mod 16) with (code_at inbuf channels ch (cnt ch)) by (rewrite Hcnt, code_low, <- Hin by lia; done).
  rewrite <- ref_succ by lia. pose proof (ref_ok ch (cnt ch + 1) Hch ltac:(lia)) as K1.
  destruct (write_sample cnt (outbuf d) ch Ho Hch ltac:(lia) ltac:(nia)) as (o1 & E1 & W1).
  destruct (ref ch (cnt ch + 1)) as [p1 x1] eqn:R1. cbn [mbind result_mbind result_bind fst] in *.
  replace (out_at d + i * 2 * channels) with ((cnt ch + 1) * channels + ch) by (rewrite Hout, Hcnt; ring).
  rewrite s16_id, E1 by apply K1. cbn [mbind result_mbind result_bind].
  rewrite decode_high by done.
  replace (b / 16) with (code_at inbuf channels ch (cnt ch + 1)) by (rewrite Hcnt, code_high, <- Hin by lia; done).
  rewrite <- R1, <- ref_succ by lia. pose proof (ref_ok ch (cnt ch + 1 + 1) Hch ltac:(lia)) as K2.
  assert (bump cnt ch ch = cnt ch + 1) as B1 by (unfold bump; by rewrite Z.eqb_refl).
  destruct (write_sample (bump cnt ch) o1 ch W1 Hch ltac:(lia) ltac:(rewrite B1; nia)) as (o2 & E2 & W2). rewrite B1 in E2.
  destruct (ref ch (cnt ch + 1 + 1)) as [p2 x2] eqn:R2. cbn [mbind result_mbind result_bind fst] in *.
  replace (out_at d + (i * 2 + 1) * channels) with ((cnt ch + 1 + 1) * channels + ch) by (rewrite Hout, Hcnt; ring).
  rewrite s16_id, E2 by apply K2. cbn [mbind result_mbind result_bind].
  rewrite !blit_one by lia. cbn [mbind result_mbind result_bind]. eexists. split; [done|].
  split; [|done]. split; proj_red; rewrite ?length_insert; try done.
  intros c Hc Hcc. rewrite !byte_insert by lia. unfold bump in *. destruct (Z.eqb_spec c ch) as [->|]; [by rewrite R2|].
  by apply Hs.
Qed.

(** Chunk [k], channel [ch], byte [i] is the next. *)
Definition cnt_at (k ch i : Z) : Z -> Z := fun c => if c <? ch then 8 * k + 8 else if c =? ch then 8 * k + 2 * i else 8 * k.
Definition pos (k ch i : Z) (d : dec) : Prop := decoded (cnt_at k ch i) d /\
  in_at d = 4 * channels + (k * channels + ch) * 4 + i /\ out_at d = channels + 8 * channels * k + ch.

Definition chunk_fits (k : Z) : Prop :=
  4 * channels + (k + 1) * channels * 4 <= Z.of_nat (length inbuf) /\
  (8 * k + 9) * channels <= Z.of_nat (length out0).

Lemma channel_step_ok k ch d : 0 <= k -> chunk_fits k -> 0 <= ch < channels -> pos k ch 0 d ->
  exists d', channel_step inbuf channels ch d = Ok d' /\ pos k (ch + 1) 0 d'.
Proof.
  intros Hk [Fi Fo] Hch Hpos. unfold channel_step.
  destruct (for_loop_inv (fun i d => pos k ch i d) (byte_step inbuf channels ch) 4 0 d Hpos) as (d' & -> & Hd & Hin & Hout).
  - intros i e Hi (Hd & Hin & Hout). assert (cnt_at k ch i ch = 8 * k + 2 * i) as C
      by (unfold cnt_at; rewrite Z.ltb_irrefl, Z.eqb_refl; done).
    destruct (byte_step_ok (cnt_at k ch i) e k ch i Hd Hch Hk ltac:(lia) C Hin Hout ltac:(nia) ltac:(rewrite C; nia))
      as (e' & -> & Hd' & Hi' & Ho').
    exists e'. split; [done|]. split; [|lia]. apply (decoded_ext (bump (bump (cnt_at k ch i) ch) ch)); [|done].
    intros c Hc. unfold bump, cnt_at. destruct (Z.ltb_spec c ch), (Z.eqb_spec c ch); lia.
  - cbn [mbind result_mbind result_bind]. eexists. split; [done|]. change (0 + Z.of_nat 4) with 4 in *.
    split; [|proj_red; lia]. assert (decoded (cnt_at k ch 4) (d' <| out_at := out_at d' + 1 |>)) as Hd2 by (by destruct Hd).
    revert Hd2. apply decoded_ext. intros c Hc. unfold cnt_at.
    destruct (Z.ltb_spec c ch), (Z.ltb_spec c (ch + 1)), (Z.eqb_spec c ch), (Z.eqb_spec c (ch + 1)); lia.
Qed.

Lemma chunk_step_ok k d : 0 <= k -> chunk_fits k -> pos k 0 0 d ->
  exists d', chunk_step inbuf channels d = Ok d' /\ pos (k + 1) 0 0 d'.
Proof.
  intros Hk Hf Hpos. unfold chunk_step.
  destruct (for_loop_inv (fun ch d => pos k ch 0 d) (channel_step inbuf channels) (Z.to_nat channels) 0 d Hpos)
    as (d' & -> & Hd & Hin & Hout).
  - intros ch e Hch He. apply channel_step_ok; [done|done|lia|done].
  - rewrite Z.add_0_l, Z2Nat.id in * by lia. cbn [mbind result_mbind result_bind]. eexists. split; [done|].
    split; [|proj_red; lia]. assert (decoded (cnt_at k channels 0) (d' <| out_at := out_at d' + channels * 7 |>)) as Hd2
      by (by destruct Hd).
    revert Hd2. apply decoded_ext. intros c Hc. unfold cnt_at.
    destruct (Z.ltb_spec c 0), (Z.ltb_spec c channels), (Z.eqb_spec c 0), (Z.eqb_spec c channels); lia.
Qed.

Lemma chunks_ok n d : chunk_fits (Z.of_nat n - 1) -> pos 0 0 0 d ->
  exists d', for_loop n 0 (fun _ => chunk_step inbuf channels) d = Ok d' /\ pos (Z.of_nat n) 0 0 d'.
Proof.
  intros Hf Hpos. apply (for_loop_inv (fun k d => pos k 0 0 d) (fun _ => chunk_step inbuf channels) n 0 d Hpos).
  intros k e Hk He. apply chunk_step_ok; [lia| |done]. unfold chunk_fits in *. nia.
Qed.
End Interleaved.

Definition valid_headers (inbuf : list Z) (channels : Z) : bool :=
  forallb (fun c => valid_header inbuf (Z.of_nat c)) (seq 0 (Z.to_nat channels)).

Lemma valid_headers_spec inbuf channels :
  valid_headers inbuf channels = true <-> forall c, 0 <= c < channels -> valid_header inbuf c = true.
Proof.
  unfold valid_headers. rewrite forallb_forall. split.
  - intros H c Hc. specialize (H (Z.to_nat c)). rewrite Z2Nat.id in H by lia. apply H, in_seq. lia.
  - intros H c Hc. apply in_seq in Hc. apply H. lia.
Qed.

(** C30. Decoding a block gives each channel what its own codes give: for one or two
    channels, any block of whole header bytes and an output with room for its samples,
    nothing outside the buffers is touched; a block with a bad header gives 0; otherwise
    the number of samples is returned, sample [t] of channel [c] is at its interleaved
    place, each is a 16-bit value, and the rest of the output is as it was. *)
Theorem adpcm_decode_correct out inbuf channels pcm0 index0 : 1 <= channels <= 2 -> Forall is_u8 inbuf ->
  length pcm0 = 2%nat -> length index0 = 2%nat -> 4 * channels <= Z.of_nat (length inbuf) < 2 ^ 31 ->
  let chunks := (Z.of_nat (length inbuf) - 4 * channels) / (channels * 4) in
  (8 * chunks + 1) * channels <= Z.of_nat (length out) ->
  exists n out', adpcm_decode_block out inbuf (Z.of_nat (length inbuf)) channels pcm0 index0 = Ok (n, out') /\
    length out' = length out /\
    if valid_headers inbuf channels then
      n = 1 + 8 * chunks /\
      (forall c t, 0 <= c < channels -> 0 <= t < n ->
         byte out' (t * channels + c) = fst (ref inbuf channels c t) /\ -32768 <= byte out' (t * channels + c) <= 32767) /\
      (forall j, n * channels <= j -> byte out' j = byte out j)
    else n = 0.
Proof.
  intros Hc H8 Hp Hx Hin chunks Hout. unfold adpcm_decode_block.
  rewrite (u32_id channels), u32_id, (proj2 (Z.ltb_ge _ _)) by (unfold is_u32; lia).
  pose proof (Z.mul_div_le (Z.of_nat (length inbuf) - 4 * channels) (channels * 4) ltac:(lia)) as Hle. fold chunks in Hle.
  assert (0 <= chunks) as H0 by (apply Z.div_pos; lia).
  destruct (headers_loop inbuf out channels Hc H8 ltac:(lia) pcm0 index0 ltac:(nia) Hp Hx) as ([d r] & -> & Hl & H).
  cbn [mbind result_mbind result_bind fst snd] in *. destruct r.
  - exists 0, (outbuf d). split; [done|]. split; [done|]. destruct (valid_headers inbuf channels) eqn:V; [|done].
    rewrite valid_headers_spec in V. destruct H as (c & Hcc & Vc). by rewrite V in Vc.
  - destruct H as (Hv & Hd & Hi & Ho). rewrite (proj2 (valid_headers_spec inbuf channels)) by done.
    rewrite (proj2 (Z.eqb_neq channels 0)) by lia. fold chunks.
    assert (s32 chunks = chunks) as -> by (unfold s32; rewrite Z.mod_small; nia).
    rewrite (proj2 (Z.ltb_ge chunks 0)) by lia.
    assert (pos inbuf out channels 0 0 0 d) as Hpos.
    { split; [|lia]. revert Hd. apply decoded_ext. intros c Hcc. unfold cnt_at, hcnt.
      destruct (Z.ltb_spec c 0), (Z.ltb_spec c channels), (Z.eqb_spec c 0); lia. }
    destruct (chunks_ok inbuf out channels Hc H8 ltac:(lia) Hv (Z.to_nat chunks) d) as (d' & -> & [Wo _ _ _] & _);
      [unfold chunk_fits; rewrite Z2Nat.id by lia; nia|done|].
    cbn [mbind result_mbind result_bind]. exists (1 + chunks * 8), (outbuf d'). destruct Wo as [Wl Ws Wr].
    rewrite Z2Nat.id in * by lia.
    assert (forall c, 0 <= c -> cnt_at chunks 0 0 c = 8 * chunks) as Ec
      by (intros c Hcc; unfold cnt_at; destruct (Z.ltb_spec c 0), (Z.eqb_spec c 0); lia).
    split; [done|]. split; [done|]. split; [lia|]. split.
    + intros c t Hcc Ht. rewrite Ws by (try rewrite Ec; lia). split; [done|].
      apply (ref_ok inbuf channels H8 ltac:(lia) Hv); lia.
    + intros j Hj. apply Wr; [nia|]. intros c t Hcc Ht. rewrite Ec in Ht by lia. nia.
Qed.

(** A block of one channel as the voice processor hands it over: 36 bytes, 65 samples. *)
Definition sample_block : list Z := [0x10; 0xF0; 10; 0] ++ repeat 0x37 32.

Lemma adpcm_decode_correct_witness : exists n out',
  adpcm_decode_block (repeat 0 130) sample_block 36 1 [0; 0] [0; 0] = Ok (n, out') /\ length out' = 130%nat /\ n = 65 /\
  byte out' 0 = -4080.
Proof.
  destruct (adpcm_decode_correct (repeat 0 130) sample_block 1 [0; 0] [0; 0]) as (n & out' & E & L & H).
  - lia.
  - unfold sample_block. cbn [repeat app]. repeat constructor; unfold is_u8; lia.
  - reflexivity.
  - reflexivity.
  - vm_compute; split; [discriminate|reflexivity].
  - vm_compute. discriminate.
  - exists n, out'. split; [exact E|]. split; [exact L|].
    change (valid_headers sample_block 1) with true in H. cbv iota in H. destruct H as (-> & H & _).
    split; [reflexivity|]. destruct (H 0 0) as [E0 _]; [lia|vm_compute; split; [discriminate|reflexivity]|].
    change (0 * 1 + 0) with 0 in E0. rewrite E0. vm_compute. reflexivity.
Defined.
