(* ===== verification/VpCore.v ===== *)
(** * The voice processor: voices, methods and locks
    (src/xemu/hw/xbox/mcpx/apu/vp/vp.c, vp.h, apu_regs.h)

    The guest plays up to 256 voices.  A voice is a structure of 128 bytes in guest
    memory; the voices to play are in three linked lists, whose links are fields of the
    structures and whose tops are registers.  The guest changes voices with methods, the
    writes to a window of registers.  This file has the structure accesses, the locks,
    the notifiers and all methods; the samples are in VpVoice.v and the frames in
    VpWork.v. *)

From S2P Require Import Prelude GpEp.

Definition NV_PAPU_ISTS_FENINTSTS : Z := bit 5.
Definition NV_PAPU_ISTS_FEVINTSTS : Z := bit 6.
Definition NV_PAPU_FECTL_FETRAPREASON : Z := 0xF00.
Definition NV_PAPU_FECTL_FETRAPREASON_REQUESTED : Z := 0xF00.
Definition NV_PAPU_FECV : Z := 0x1110.
Definition NV_PAPU_FEAV : Z := 0x1118.
Definition NV_PAPU_FEAV_VALUE : Z := 0xFFFF.
Definition NV_PAPU_FEAV_LST : Z := 0x30000.
Definition NV_PAPU_FENADDR : Z := 0x115C.
Definition NV_PAPU_FEDECMETH : Z := 0x1300.
Definition NV_PAPU_FEDECPARAM : Z := 0x1304.
Definition NV_PAPU_FETFORCE1 : Z := 0x1504.
Definition NV_PAPU_FETFORCE1_SE2FE_IDLE_VOICE : Z := bit 15.
Definition NV_PAPU_VPVADDR : Z := 0x202C.
Definition NV_PAPU_VPSGEADDR : Z := 0x2030.
Definition NV_PAPU_VPSSLADDR : Z := 0x2034.
Definition NV_PAPU_TVL2D : Z := 0x2054.
Definition NV_PAPU_CVL2D : Z := 0x2058.
Definition NV_PAPU_NVL2D : Z := 0x205C.
Definition NV_PAPU_TVL3D : Z := 0x2060.
Definition NV_PAPU_CVL3D : Z := 0x2064.
Definition NV_PAPU_NVL3D : Z := 0x2068.
Definition NV_PAPU_TVLMP : Z := 0x206C.
Definition NV_PAPU_CVLMP : Z := 0x2070.
Definition NV_PAPU_NVLMP : Z := 0x2074.

Definition NV_PAVS_SIZE : Z := 0x80.
Definition NV_PAVS_VOICE_CFG_VBIN : Z := 0x00.
Definition NV_PAVS_VOICE_CFG_FMT : Z := 0x04.
Definition NV_PAVS_VOICE_CFG_FMT_DATA_TYPE : Z := bit 24.
Definition NV_PAVS_VOICE_CFG_ENV0 : Z := 0x08.
Definition NV_PAVS_VOICE_CFG_ENV0_EA_ATTACKRATE : Z := 0xFFF.
Definition NV_PAVS_VOICE_CFG_ENV0_EA_DELAYTIME : Z := 0xFFF000.
Definition NV_PAVS_VOICE_CFG_ENVA : Z := 0x0C.
Definition NV_PAVS_VOICE_CFG_ENVA_EA_DECAYRATE : Z := 0xFFF.
Definition NV_PAVS_VOICE_CFG_ENVA_EA_HOLDTIME : Z := 0xFFF000.
Definition NV_PAVS_VOICE_CFG_ENVA_EA_SUSTAINLEVEL : Z := 0xFF000000.
Definition NV_PAVS_VOICE_CFG_ENV1 : Z := 0x10.
Definition NV_PAVS_VOICE_CFG_ENVF : Z := 0x14.
Definition NV_PAVS_VOICE_CFG_MISC : Z := 0x18.
Definition NV_PAVS_VOICE_CFG_MISC_EF_RELEASERATE : Z := 0xFFF.
Definition NV_PAVS_VOICE_CFG_HRTF_TARGET : Z := 0x1C.
Definition NV_PAVS_VOICE_CFG_HRTF_TARGET_HANDLE : Z := 0xFFFF.
Definition NV_PAVS_VOICE_CUR_PSL_START : Z := 0x20.
Definition NV_PAVS_VOICE_CUR_PSL_START_BA : Z := 0xFFFFFF.
Definition NV_PAVS_VOICE_CUR_PSH_SAMPLE : Z := 0x24.
Definition NV_PAVS_VOICE_CUR_PSH_SAMPLE_LBO : Z := 0xFFFFFF.
Definition NV_PAVS_VOICE_CUR_ECNT : Z := 0x34.
Definition NV_PAVS_VOICE_CUR_ECNT_EACOUNT : Z := 0xFFFF.
Definition NV_PAVS_VOICE_CUR_ECNT_EFCOUNT : Z := 0xFFFF0000.
Definition NV_PAVS_VOICE_PAR_STATE : Z := 0x54.
Definition NV_PAVS_VOICE_PAR_STATE_PAUSED : Z := bit 18.
Definition NV_PAVS_VOICE_PAR_STATE_NEW_VOICE : Z := bit 20.
Definition NV_PAVS_VOICE_PAR_STATE_ACTIVE_VOICE : Z := bit 21.
Definition NV_PAVS_VOICE_PAR_STATE_EFCUR : Z := 0xF000000.
Definition NV_PAVS_VOICE_PAR_STATE_EFCUR_OFF : Z := 0.
Definition NV_PAVS_VOICE_PAR_STATE_EFCUR_DELAY : Z := 1.
Definition NV_PAVS_VOICE_PAR_STATE_EFCUR_ATTACK : Z := 2.
Definition NV_PAVS_VOICE_PAR_STATE_EFCUR_HOLD : Z := 3.
Definition NV_PAVS_VOICE_PAR_STATE_EFCUR_DECAY : Z := 4.
Definition NV_PAVS_VOICE_PAR_STATE_EFCUR_SUSTAIN : Z := 5.
Definition NV_PAVS_VOICE_PAR_STATE_EFCUR_RELEASE : Z := 6.
Definition NV_PAVS_VOICE_PAR_STATE_EFCUR_FORCE_RELEASE : Z := 7.
Definition NV_PAVS_VOICE_PAR_STATE_EACUR : Z := 0xF0000000.
Definition NV_PAVS_VOICE_PAR_OFFSET : Z := 0x58.
Definition NV_PAVS_VOICE_PAR_OFFSET_CBO : Z := 0xFFFFFF.
Definition NV_PAVS_VOICE_PAR_OFFSET_EALVL : Z := 0xFF000000.
Definition NV_PAVS_VOICE_PAR_NEXT : Z := 0x5C.
Definition NV_PAVS_VOICE_PAR_NEXT_EBO : Z := 0xFFFFFF.
Definition NV_PAVS_VOICE_PAR_NEXT_EFLVL : Z := 0xFF000000.
Definition NV_PAVS_VOICE_TAR_VOLA : Z := 0x60.
Definition NV_PAVS_VOICE_TAR_VOLB : Z := 0x64.
Definition NV_PAVS_VOICE_TAR_VOLC : Z := 0x68.
Definition NV_PAVS_VOICE_TAR_LFO_ENV : Z := 0x6C.
Definition NV_PAVS_VOICE_TAR_LFO_ENV_EA_RELEASERATE : Z := 0xFFF.
Definition NV_PAVS_VOICE_TAR_FCA : Z := 0x74.
Definition NV_PAVS_VOICE_TAR_FCB : Z := 0x78.
Definition NV_PAVS_VOICE_TAR_PITCH_LINK : Z := 0x7C.
Definition NV_PAVS_VOICE_TAR_PITCH_LINK_NEXT_VOICE_HANDLE : Z := 0xFFFF.
Definition NV_PAVS_VOICE_TAR_PITCH_LINK_PITCH : Z := 0xFFFF0000.

Definition MCPX_HW_MAX_VOICES : Z := 256.
Definition MCPX_HW_MAX_3D_VOICES : Z := 64.
Definition MCPX_HW_MAX_SSL_PRDS : Z := 256 * (16 * 2).
Definition NV_PSGE_SIZE : Z := 8.
Definition MCPX_HW_NOTIFIER_BASE_OFFSET : Z := 2.
Definition MCPX_HW_NOTIFIER_SSLA_DONE : Z := 0.
Definition MCPX_HW_NOTIFIER_COUNT : Z := 4.
Definition NV1BA0_NOTIFICATION_STATUS_DONE_SUCCESS : Z := 1.
Definition HRTF_NULL_HANDLE : Z := 0xFFFF.
Definition HRTF_ENTRY_COUNT : Z := 128.
Definition HRTF_NUM_TAPS : Z := 31.

Definition NV1BA0_PIO_FREE : Z := 0x10.
Definition NV1BA0_PIO_SET_ANTECEDENT_VOICE : Z := 0x120.
Definition NV1BA0_PIO_SET_ANTECEDENT_VOICE_LIST_INHERIT : Z := 0.
Definition NV1BA0_PIO_VOICE_ON : Z := 0x124.
Definition NV1BA0_PIO_VOICE_ON_HANDLE : Z := 0xFFFF.
Definition NV1BA0_PIO_VOICE_ON_ENVF : Z := 0xF000000.
Definition NV1BA0_PIO_VOICE_ON_ENVA : Z := 0xF0000000.
Definition NV1BA0_PIO_VOICE_OFF : Z := 0x128.
Definition NV1BA0_PIO_VOICE_RELEASE : Z := 0x12C.
Definition NV1BA0_PIO_GET_VOICE_POSITION : Z := 0x130.
Definition NV1BA0_PIO_VOICE_PAUSE : Z := 0x140.
Definition NV1BA0_PIO_VOICE_PAUSE_ACTION : Z := bit 18.
Definition NV1BA0_PIO_SET_CURRENT_HRTF_ENTRY : Z := 0x160.
Definition NV1BA0_PIO_SET_CONTEXT_DMA_NOTIFY : Z := 0x180.
Definition NV1BA0_PIO_SET_CURRENT_SSL_CONTEXT_DMA : Z := 0x18C.
Definition NV1BA0_PIO_SET_CURRENT_SSL : Z := 0x190.
Definition NV1BA0_PIO_SET_SUBMIX_HEADROOM : Z := 0x200.
Definition NV1BA0_PIO_SET_HRTF_HEADROOM : Z := 0x280.
Definition NV1BA0_PIO_SET_HRTF_SUBMIXES : Z := 0x2C0.
Definition NV1BA0_PIO_SET_CURRENT_VOICE : Z := 0x2F8.
Definition NV1BA0_PIO_VOICE_LOCK : Z := 0x2FC.
Definition NV1BA0_PIO_SET_VOICE_TAR_HRTF : Z := 0x31C.
Definition NV1BA0_PIO_SET_VOICE_SSL_A : Z := 0x320.
Definition NV1BA0_PIO_SET_VOICE_SSL_A_COUNT : Z := 0xFF.
Definition NV1BA0_PIO_SET_VOICE_SSL_A_BASE : Z := 0xFFFFFF00.
Definition NV1BA0_PIO_SET_VOICE_SSL_B : Z := 0x35C.
Definition NV1BA0_PIO_SET_VOICE_TAR_PITCH : Z := 0x37C.
Definition NV1BA0_PIO_SET_VOICE_TAR_PITCH_STEP : Z := 0xFFFF0000.
Definition NV1BA0_PIO_SET_HRIR : Z := 0x400.
Definition NV1BA0_PIO_SET_HRIR_X : Z := 0x43C.
Definition NV1BA0_PIO_SET_SSL_SEGMENT_OFFSET : Z := 0x600.
Definition NV1BA0_PIO_SET_SSL_SEGMENT_LENGTH : Z := 0x604.
Definition NV1BA0_PIO_SET_CURRENT_INBUF_SGE : Z := 0x804.
Definition NV1BA0_PIO_SET_CURRENT_INBUF_SGE_OFFSET : Z := 0x808.
Definition NV1BA0_PIO_SET_OUTBUF_BA : Z := 0x1000.
Definition NV1BA0_PIO_SET_OUTBUF_LEN : Z := 0x1004.
Definition NV1BA0_PIO_SET_CURRENT_OUTBUF_SGE : Z := 0x1800.
Definition NV1BA0_PIO_SET_CURRENT_OUTBUF_SGE_OFFSET : Z := 0x1808.
Definition NV1BA0_PIO_SET_SGE_OFFSET_PARAMETER : Z := 0xFFFFF000.
Definition SE2FE_IDLE_VOICE : Z := 0x8000.

(** The methods that store their argument in a word of the current voice, or a field of
    it, with the place and the mask. *)
Definition voice_word_methods : list (Z * (Z * Z)) :=
  [(0x300, (NV_PAVS_VOICE_CFG_VBIN, 0xFFFFFFFF));
   (0x304, (NV_PAVS_VOICE_CFG_FMT, 0xFFFFFFFF));
   (0x308, (NV_PAVS_VOICE_CFG_ENV0, 0xFFFFFFFF));
   (0x30C, (NV_PAVS_VOICE_CFG_ENVA, 0xFFFFFFFF));
   (0x310, (NV_PAVS_VOICE_CFG_ENV1, 0xFFFFFFFF));
   (0x314, (NV_PAVS_VOICE_CFG_ENVF, 0xFFFFFFFF));
   (0x318, (NV_PAVS_VOICE_CFG_MISC, 0xFFFFFFFF));
   (0x360, (NV_PAVS_VOICE_TAR_VOLA, 0xFFFFFFFF));
   (0x364, (NV_PAVS_VOICE_TAR_VOLB, 0xFFFFFFFF));
   (0x368, (NV_PAVS_VOICE_TAR_VOLC, 0xFFFFFFFF));
   (0x36C, (NV_PAVS_VOICE_TAR_LFO_ENV, 0xFFFFFFFF));
   (0x374, (NV_PAVS_VOICE_TAR_FCA, 0xFFFFFFFF));
   (0x378, (NV_PAVS_VOICE_TAR_FCB, 0xFFFFFFFF));
   (0x3A0, (NV_PAVS_VOICE_CUR_PSL_START, NV_PAVS_VOICE_CUR_PSL_START_BA));
   (0x3A4, (NV_PAVS_VOICE_CUR_PSH_SAMPLE, NV_PAVS_VOICE_CUR_PSH_SAMPLE_LBO));
   (0x3D8, (NV_PAVS_VOICE_PAR_OFFSET, NV_PAVS_VOICE_PAR_OFFSET_CBO));
   (0x3DC, (NV_PAVS_VOICE_PAR_NEXT, NV_PAVS_VOICE_PAR_NEXT_EBO))].
Definition voice_word_method (method : Z) : option (Z * Z) :=
  snd <$> List.find (fun p => fst p =? method) voice_word_methods.

Definition voice_list_regs : list (Z * Z * Z) :=
  [(NV_PAPU_TVL2D, NV_PAPU_CVL2D, NV_PAPU_NVL2D);
   (NV_PAPU_TVL3D, NV_PAPU_CVL3D, NV_PAPU_NVL3D);
   (NV_PAPU_TVLMP, NV_PAPU_CVLMP, NV_PAPU_NVLMP)].

(** ** State *)

Record MCPXAPUVPSSLData := mkSSL {
  ssl_base : list Z;
  ssl_count : list Z;
  ssl_index : Z;
  ssl_seg : Z;
}.
#[export] Instance MCPXAPUVPSSLData_settable : Settable MCPXAPUVPSSLData :=
  settable! mkSSL < ssl_base ; ssl_count ; ssl_index ; ssl_seg >.

(** An entry of the head-related transfer functions.  The coefficients and the delay are
    kept as the integers of the guest; the source converts them to floating point. *)
Record HrtfEntry := mkHrtf { hrir : list (list Z); itd : Z }.
#[export] Instance HrtfEntry_settable : Settable HrtfEntry := settable! mkHrtf < hrir ; itd >.

Record VoiceWorkItem := mkItem { voice : Z; voice_list : Z }.

(** The filters of a voice, in host floating point (svf.h, hrtf.h and the resampler),
    as the methods use them. *)
Class VoiceFilter (F : Type) := {
  filter_init : F -> F;
  filter_reset : F -> F;
  filter_set_target : HrtfEntry -> F -> F;
}.

(** [vw_queue] is the queue of the dispatcher up to its length; its workers are in
    VpThreads.v. *)
Record MCPXAPUVPState (F : Type) := mkVP {
  filters : list F;
  ssl_base_page : Z;
  ssl : list MCPXAPUVPSSLData;
  hrtf_headroom : Z;
  hrtf_submix : list Z;
  submix_headroom : list Z;
  voice_locked : list Z;
  current_entry : Z;
  hrtf_entries : list HrtfEntry;
  inbuf_sge_handle : Z;
  outbuf_sge_handle : Z;
  vw_queue : list VoiceWorkItem;
}.
Arguments mkVP {F} _ _ _ _ _ _ _ _ _ _ _ _.
Arguments filters {F} _.
Arguments ssl_base_page {F} _.
Arguments ssl {F} _.
Arguments hrtf_headroom {F} _.
Arguments hrtf_submix {F} _.
Arguments submix_headroom {F} _.
Arguments voice_locked {F} _.
Arguments current_entry {F} _.
Arguments hrtf_entries {F} _.
Arguments inbuf_sge_handle {F} _.
Arguments outbuf_sge_handle {F} _.
Arguments vw_queue {F} _.
#[export] Instance MCPXAPUVPState_settable F : Settable (MCPXAPUVPState F) :=
  settable! (@mkVP F) < filters ; ssl_base_page ; ssl ; hrtf_headroom ; hrtf_submix ; submix_headroom ;
    voice_locked ; current_entry ; hrtf_entries ; inbuf_sge_handle ; outbuf_sge_handle ; vw_queue >.

(** The part of the audio device the voice processor works on: memory and registers, its
    own state and the request for an interrupt. *)
Record VpDevice (F : Type) := mkVpDevice { dev : ApuShared; vp : MCPXAPUVPState F; set_irq : bool }.
Arguments mkVpDevice {F} _ _ _.
Arguments dev {F} _.
Arguments vp {F} _.
Arguments set_irq {F} _.
#[export] Instance VpDevice_settable F : Settable (VpDevice F) := settable! (@mkVpDevice F) < dev ; vp ; set_irq >.

Section Vp.
Context {host : ApuHost} {F : Type} `{!VoiceFilter F}.
Implicit Types d : VpDevice F.

Definition vreg d (a : Z) : Z := reg (dev d) a.
Definition set_vreg (a v : Z) d : VpDevice F := d <| dev ::= fun s => s <| apu_regs ::= wr a v |> |>.
Definition stl (addr val : Z) d : VpDevice F := d <| dev ::= stl_le_phys addr val |>.
Definition stb_phys (addr val : Z) d : VpDevice F :=
  d <| dev ::= fun s => if addr + 1 <=? ram_size s then s <| ram ::= wr addr (u8 val) |> else s |>.
Definition ldl d (addr : Z) : Z := ldl_le_phys (dev d) addr.

(** ** Voices *)

Definition set_notify_status (v notifier status : Z) d : VpDevice F :=
  let notify_offset := vreg d NV_PAPU_FENADDR +
    u32 (16 * (MCPX_HW_NOTIFIER_BASE_OFFSET + v * MCPX_HW_NOTIFIER_COUNT + notifier)) + 15 in
  let d := stb_phys (notify_offset - 1) 1 (stb_phys notify_offset status d) in
  let d := set_vreg NV_PAPU_ISTS (Z.lor (vreg d NV_PAPU_ISTS) (Z.lor NV_PAPU_ISTS_FEVINTSTS NV_PAPU_ISTS_FENINTSTS)) d in
  d <| set_irq := true |>.

Definition voice_reset_filters (v : Z) d : result (VpDevice F) :=
  _ ← check (v <? MCPX_HW_MAX_VOICES) "v < MCPX_HW_MAX_VOICES";
  f ← fetch (filters (vp d)) v;
  Ok (d <| vp ::= fun s => s <| filters ::= <[Z.to_nat v := filter_reset f]> |> |>).

(** A handle is a [uint16_t]; the address is computed with 32 bits. *)
Definition voice_addr d (v : Z) : Z := u32 (vreg d NV_PAPU_VPVADDR + u16 v * NV_PAVS_SIZE).
Definition voice_get_mask d (v offset mask : Z) : Z := GET_MASK (ldl d (voice_addr d v + offset)) mask.
Definition voice_set_mask (v offset mask val : Z) d : VpDevice F :=
  stl (voice_addr d v + offset) (SET_MASK (ldl d (voice_addr d v + offset)) mask (u32 val)) d.

Definition voice_off (v : Z) d : result (VpDevice F) :=
  let d := voice_set_mask v NV_PAVS_VOICE_PAR_STATE NV_PAVS_VOICE_PAR_STATE_ACTIVE_VOICE 0 d in
  let stream := negb (voice_get_mask d v NV_PAVS_VOICE_CFG_FMT NV_PAVS_VOICE_CFG_FMT_DATA_TYPE =? 0) in
  notifier ←
    (if stream then
       _ ← check (u16 v <? MCPX_HW_MAX_VOICES) "v < MCPX_HW_MAX_VOICES";
       s ← fetch (ssl (vp d)) (u16 v);
       _ ← check (ssl_index s <=? 1) "d->vp.ssl[v].ssl_index <= 1";
       Ok (MCPX_HW_NOTIFIER_SSLA_DONE + ssl_index s)
     else Ok MCPX_HW_NOTIFIER_SSLA_DONE);
  Ok (set_notify_status (u16 v) notifier NV1BA0_NOTIFICATION_STATUS_DONE_SUCCESS d).

Definition voice_lock (v : Z) (lock : bool) d : result (VpDevice F) :=
  _ ← check (u16 v <? MCPX_HW_MAX_VOICES) "v < MCPX_HW_MAX_VOICES";
  let mask := Z.shiftl 1 (u16 v mod 64) in
  w ← fetch (voice_locked (vp d)) (u16 v / 64);
  let w := if lock then Z.lor w mask else Z.ldiff w mask in
  Ok (d <| vp ::= fun s => s <| voice_locked ::= <[Z.to_nat (u16 v / 64) := w]> |> |>).
Definition is_voice_locked d (v : Z) : result bool :=
  _ ← check (u16 v <? MCPX_HW_MAX_VOICES) "v < MCPX_HW_MAX_VOICES";
  w ← fetch (voice_locked (vp d)) (u16 v / 64);
  Ok (has w (Z.shiftl 1 (u16 v mod 64))).

(** ** Methods *)

(** The voice enters a list at its top or behind the antecedent voice. *)
Definition voice_link (handle : Z) d : result (VpDevice F) :=
  let link := NV_PAVS_VOICE_TAR_PITCH_LINK in
  let next := NV_PAVS_VOICE_TAR_PITCH_LINK_NEXT_VOICE_HANDLE in
  let list := GET_MASK (vreg d NV_PAPU_FEAV) NV_PAPU_FEAV_LST in
  if negb (list =? NV1BA0_PIO_SET_ANTECEDENT_VOICE_LIST_INHERIT) then
    '(top_reg, _, _) ← fetch voice_list_regs (list - 1);
    let d := voice_set_mask handle link next (vreg d top_reg) d in
    Ok (set_vreg top_reg handle d)
  else
    let antecedent_voice := GET_MASK (vreg d NV_PAPU_FEAV) NV_PAPU_FEAV_VALUE in
    _ ← check (negb (antecedent_voice =? 0xFFFF)) "antecedent_voice != 0xFFFF";
    let next_handle := voice_get_mask d antecedent_voice link next in
    let d := voice_set_mask handle link next next_handle d in
    Ok (voice_set_mask antecedent_voice link next handle d).

(** The start of one of the two envelopes: its state and its counter. *)
Definition envelope_start (handle start cur_mask count_mask env_delay env_hold : Z) d : VpDevice F :=
  let d := voice_set_mask handle NV_PAVS_VOICE_PAR_STATE cur_mask start d in
  if start =? NV_PAVS_VOICE_PAR_STATE_EFCUR_DELAY then
    let delay_time := voice_get_mask d handle env_delay NV_PAVS_VOICE_CFG_ENV0_EA_DELAYTIME in
    voice_set_mask handle NV_PAVS_VOICE_CUR_ECNT count_mask (delay_time * 16) d
  else if start =? NV_PAVS_VOICE_PAR_STATE_EFCUR_ATTACK then
    voice_set_mask handle NV_PAVS_VOICE_CUR_ECNT count_mask 0 d
  else if start =? NV_PAVS_VOICE_PAR_STATE_EFCUR_HOLD then
    let hold_time := voice_get_mask d handle env_hold NV_PAVS_VOICE_CFG_ENVA_EA_HOLDTIME in
    voice_set_mask handle NV_PAVS_VOICE_CUR_ECNT count_mask (hold_time * 16) d
  else d.

(** The lock of a voice is taken around an operation unless the guest holds it. *)
Definition with_voice_lock (handle : Z) (op : VpDevice F -> result (VpDevice F)) d : result (VpDevice F) :=
  locked ← is_voice_locked d handle;
  d ← (if locked : bool then Ok d else voice_lock handle true d);
  d ← op d;
  if locked : bool then Ok d else voice_lock handle false d.

Definition voice_on_body (argument handle : Z) d : result (VpDevice F) :=
  d ← voice_link handle d;
  let d := voice_set_mask handle NV_PAVS_VOICE_PAR_OFFSET NV_PAVS_VOICE_PAR_OFFSET_CBO 0 d in
  s ← fetch (ssl (vp d)) handle;
  let d := d <| vp ::= fun p => p <| ssl ::= <[Z.to_nat handle := s <| ssl_seg := 0 |> <| ssl_index := 0 |>]> |> |> in
  let d := envelope_start handle (GET_MASK argument NV1BA0_PIO_VOICE_ON_ENVA) NV_PAVS_VOICE_PAR_STATE_EACUR
             NV_PAVS_VOICE_CUR_ECNT_EACOUNT NV_PAVS_VOICE_CFG_ENV0 NV_PAVS_VOICE_CFG_ENVA d in
  let d := envelope_start handle (GET_MASK argument NV1BA0_PIO_VOICE_ON_ENVF) NV_PAVS_VOICE_PAR_STATE_EFCUR
             NV_PAVS_VOICE_CUR_ECNT_EFCOUNT NV_PAVS_VOICE_CFG_ENV1 NV_PAVS_VOICE_CFG_ENVF d in
  d ← voice_reset_filters handle d;
  Ok (voice_set_mask handle NV_PAVS_VOICE_PAR_STATE NV_PAVS_VOICE_PAR_STATE_ACTIVE_VOICE 1 d).
Definition voice_on (argument : Z) d : result (VpDevice F) :=
  let selected_handle := Z.land argument NV1BA0_PIO_VOICE_ON_HANDLE in
  with_voice_lock selected_handle (voice_on_body argument selected_handle) d.

Definition voice_release_body (handle : Z) d : result (VpDevice F) :=
  let rr := voice_get_mask d handle NV_PAVS_VOICE_TAR_LFO_ENV NV_PAVS_VOICE_TAR_LFO_ENV_EA_RELEASERATE in
  let d := voice_set_mask handle NV_PAVS_VOICE_CUR_ECNT NV_PAVS_VOICE_CUR_ECNT_EACOUNT (rr * 16) d in
  let d := voice_set_mask handle NV_PAVS_VOICE_PAR_STATE NV_PAVS_VOICE_PAR_STATE_EACUR
             NV_PAVS_VOICE_PAR_STATE_EFCUR_RELEASE d in
  let rr := voice_get_mask d handle NV_PAVS_VOICE_CFG_MISC NV_PAVS_VOICE_CFG_MISC_EF_RELEASERATE in
  let d := voice_set_mask handle NV_PAVS_VOICE_CUR_ECNT NV_PAVS_VOICE_CUR_ECNT_EFCOUNT (rr * 16) d in
  Ok (voice_set_mask handle NV_PAVS_VOICE_PAR_STATE NV_PAVS_VOICE_PAR_STATE_EFCUR
        NV_PAVS_VOICE_PAR_STATE_EFCUR_RELEASE d).
Definition voice_release (argument : Z) d : result (VpDevice F) :=
  let selected_handle := Z.land argument NV1BA0_PIO_VOICE_ON_HANDLE in
  with_voice_lock selected_handle (voice_release_body selected_handle) d.

Definition set_hrir_coeff_tar (channel coeff_idx value : Z) d : result (VpDevice F) :=
  e ← fetch (hrtf_entries (vp d)) (current_entry (vp d));
  row ← fetch (hrir e) channel;
  row ← blit row coeff_idx [s8 value];
  let e := e <| hrir ::= <[Z.to_nat channel := row]> |> in
  Ok (d <| vp ::= fun s => s <| hrtf_entries ::= <[Z.to_nat (current_entry s) := e]> |> |>).
Definition set_hrir (method argument : Z) d : result (VpDevice F) :=
  _ ← check (current_entry (vp d) <? HRTF_ENTRY_COUNT) "d->vp.hrtf.current_entry < HRTF_ENTRY_COUNT";
  let coeff_idx := (method - NV1BA0_PIO_SET_HRIR) / 4 * 2 in
  d ← set_hrir_coeff_tar 0 coeff_idx (GET_MASK argument 0xFF) d;
  d ← set_hrir_coeff_tar 1 coeff_idx (GET_MASK argument 0xFF00) d;
  d ← set_hrir_coeff_tar 0 (coeff_idx + 1) (GET_MASK argument 0xFF0000) d;
  set_hrir_coeff_tar 1 (coeff_idx + 1) (GET_MASK argument 0xFF000000) d.
Definition set_hrir_x (argument : Z) d : result (VpDevice F) :=
  _ ← check (current_entry (vp d) <? HRTF_ENTRY_COUNT) "d->vp.hrtf.current_entry < HRTF_ENTRY_COUNT";
  d ← set_hrir_coeff_tar 0 30 (GET_MASK argument 0xFF) d;
  d ← set_hrir_coeff_tar 1 30 (GET_MASK argument 0xFF00) d;
  e ← fetch (hrtf_entries (vp d)) (current_entry (vp d));
  let e := e <| itd := s16 (GET_MASK argument 0xFFFF0000) |> in
  Ok (d <| vp ::= fun s => s <| hrtf_entries ::= <[Z.to_nat (current_entry s) := e]> |> |>).

(** The current voice is a signed [int] here. *)
Definition set_voice_tar_hrtf (argument : Z) d : result (VpDevice F) :=
  let handle := GET_MASK argument 0xFFFF in
  let current_voice := s32 (vreg d NV_PAPU_FECV) in
  let d := voice_set_mask current_voice NV_PAVS_VOICE_CFG_HRTF_TARGET NV_PAVS_VOICE_CFG_HRTF_TARGET_HANDLE handle d in
  if (current_voice <? MCPX_HW_MAX_3D_VOICES) && negb (handle =? HRTF_NULL_HANDLE) then
    _ ← check (handle <? HRTF_ENTRY_COUNT) "handle < HRTF_ENTRY_COUNT";
    f ← fetch (filters (vp d)) current_voice;
    e ← fetch (hrtf_entries (vp d)) handle;
    Ok (d <| vp ::= fun s => s <| filters ::= <[Z.to_nat current_voice := filter_set_target e f]> |> |>)
  else Ok d.
Definition set_voice_ssl (which argument : Z) d : result (VpDevice F) :=
  let current_voice := s32 (vreg d NV_PAPU_FECV) in
  _ ← check (current_voice <? MCPX_HW_MAX_VOICES) "current_voice < MCPX_HW_MAX_VOICES";
  s ← fetch (ssl (vp d)) current_voice;
  base ← blit (ssl_base s) which [GET_MASK argument NV1BA0_PIO_SET_VOICE_SSL_A_BASE];
  count ← blit (ssl_count s) which [GET_MASK argument NV1BA0_PIO_SET_VOICE_SSL_A_COUNT];
  Ok (d <| vp ::= fun p => p <| ssl ::= <[Z.to_nat current_voice := s <| ssl_base := base |> <| ssl_count := count |>]> |> |>).
Definition set_current_ssl (argument : Z) d : result (VpDevice F) :=
  _ ← check (Z.land argument 0x3f =? 0) "(argument & 0x3f) == 0";
  _ ← check (argument <? MCPX_HW_MAX_SSL_PRDS * NV_PSGE_SIZE) "argument < (MCPX_HW_MAX_SSL_PRDS*NV_PSGE_SIZE)";
  Ok (d <| vp ::= fun s => s <| ssl_base_page := argument |> |>).
Definition set_ssl_segment (method argument : Z) d : result (VpDevice F) :=
  _ ← check (Z.land method 0x3 =? 0) "(method & 0x3) == 0";
  let addr := u32 (vreg d NV_PAPU_VPSSLADDR + ssl_base_page (vp d) * 8 + (method - NV1BA0_PIO_SET_SSL_SEGMENT_OFFSET)) in
  Ok (stl addr argument d).
Definition set_submix_headroom (method argument : Z) d : result (VpDevice F) :=
  _ ← check (Z.land method 3 =? 0) "(method & 3) == 0";
  l ← blit (submix_headroom (vp d)) ((method - NV1BA0_PIO_SET_SUBMIX_HEADROOM) / 4) [Z.land argument 7];
  Ok (d <| vp ::= fun s => s <| submix_headroom := l |> |>).
Definition set_hrtf_submixes (argument : Z) d : VpDevice F :=
  d <| vp ::= fun s => s <| hrtf_submix := [Z.land argument 0x1f; Z.land (Z.shiftr argument 8) 0x1f;
                                          Z.land (Z.shiftr argument 16) 0x1f; Z.land (Z.shiftr argument 24) 0x1f] |> |>.
Definition set_sge_offset (handle argument : Z) d : VpDevice F :=
  stl (u32 (vreg d NV_PAPU_VPSGEADDR + handle * 8)) (Z.land argument NV1BA0_PIO_SET_SGE_OFFSET_PARAMETER) d.

(** The sound engine tells the front end that a voice of a list is not active. *)
Definition idle_voice d : result (VpDevice F) :=
  if has (vreg d NV_PAPU_FETFORCE1) NV_PAPU_FETFORCE1_SE2FE_IDLE_VOICE then
    let ctl := Z.lor (Z.ldiff (vreg d NV_PAPU_FECTL) NV_PAPU_FECTL_FEMETHMODE) NV_PAPU_FECTL_FEMETHMODE_TRAPPED in
    let ctl := Z.lor (Z.ldiff ctl NV_PAPU_FECTL_FETRAPREASON) NV_PAPU_FECTL_FETRAPREASON_REQUESTED in
    Ok (set_vreg NV_PAPU_FECTL ctl d <| set_irq := true |>)
  else Fault (AssertFail "SE2FE_IDLE_VOICE called but NV_PAPU_FETFORCE1_SE2FE_IDLE_VOICE not enabled").

Definition case_4 (method v step : Z) : bool :=
  (method =? v) || (method =? v + step) || (method =? v + step * 2) || (method =? v + step * 3).

Definition fe_method (method argument : Z) d : result (VpDevice F) :=
  let d := set_vreg NV_PAPU_FEDECPARAM argument (set_vreg NV_PAPU_FEDECMETH method d) in
  match voice_word_method method with
  | Some (offset, mask) => Ok (voice_set_mask (vreg d NV_PAPU_FECV) offset mask argument d)
  | None =>
  if method =? NV1BA0_PIO_VOICE_LOCK then voice_lock (vreg d NV_PAPU_FECV) (has argument 1) d
  else if method =? NV1BA0_PIO_SET_ANTECEDENT_VOICE then Ok (set_vreg NV_PAPU_FEAV argument d)
  else if method =? NV1BA0_PIO_VOICE_ON then voice_on argument d
  else if method =? NV1BA0_PIO_VOICE_RELEASE then voice_release argument d
  else if method =? NV1BA0_PIO_VOICE_OFF then voice_off (Z.land argument 0xFFFF) d
  else if method =? NV1BA0_PIO_VOICE_PAUSE then
    Ok (voice_set_mask (Z.land argument 0xFFFF) NV_PAVS_VOICE_PAR_STATE NV_PAVS_VOICE_PAR_STATE_PAUSED
          (Z.b2z (has argument NV1BA0_PIO_VOICE_PAUSE_ACTION)) d)
  else if method =? NV1BA0_PIO_SET_CURRENT_HRTF_ENTRY then
    Ok (d <| vp ::= fun s => s <| current_entry := GET_MASK argument 0xFFFF |> |>)
  else if method =? NV1BA0_PIO_SET_CURRENT_VOICE then Ok (set_vreg NV_PAPU_FECV argument d)
  else if method =? NV1BA0_PIO_SET_VOICE_TAR_HRTF then set_voice_tar_hrtf argument d
  else if method =? NV1BA0_PIO_SET_VOICE_TAR_PITCH then
    Ok (voice_set_mask (vreg d NV_PAPU_FECV) NV_PAVS_VOICE_TAR_PITCH_LINK NV_PAVS_VOICE_TAR_PITCH_LINK_PITCH
          (Z.shiftr (Z.land argument NV1BA0_PIO_SET_VOICE_TAR_PITCH_STEP) 16) d)
  else if (NV1BA0_PIO_SET_HRIR <=? method) && (method <=? NV1BA0_PIO_SET_HRIR_X - 1) then set_hrir method argument d
  else if method =? NV1BA0_PIO_SET_HRIR_X then set_hrir_x argument d
  else if method =? NV1BA0_PIO_SET_CURRENT_INBUF_SGE then Ok (d <| vp ::= fun s => s <| inbuf_sge_handle := argument |> |>)
  else if method =? NV1BA0_PIO_SET_CURRENT_INBUF_SGE_OFFSET then Ok (set_sge_offset (inbuf_sge_handle (vp d)) argument d)
  else if case_4 method NV1BA0_PIO_SET_OUTBUF_BA 8 || case_4 method NV1BA0_PIO_SET_OUTBUF_LEN 8 then Ok d
  else if method =? NV1BA0_PIO_SET_CURRENT_OUTBUF_SGE then Ok (d <| vp ::= fun s => s <| outbuf_sge_handle := argument |> |>)
  else if method =? NV1BA0_PIO_SET_CURRENT_OUTBUF_SGE_OFFSET then Ok (set_sge_offset (outbuf_sge_handle (vp d)) argument d)
  else if method =? NV1BA0_PIO_SET_VOICE_SSL_A then set_voice_ssl 0 argument d
  else if method =? NV1BA0_PIO_SET_VOICE_SSL_B then set_voice_ssl 1 argument d
  else if method =? NV1BA0_PIO_SET_CURRENT_SSL then set_current_ssl argument d
  else if (NV1BA0_PIO_SET_SSL_SEGMENT_OFFSET <=? method) && (method <=? NV1BA0_PIO_SET_SSL_SEGMENT_LENGTH + 8 * 64 - 1)
  then set_ssl_segment method argument d
  else if method =? NV1BA0_PIO_SET_HRTF_SUBMIXES then Ok (set_hrtf_submixes argument d)
  else if method =? NV1BA0_PIO_SET_HRTF_HEADROOM then
    Ok (d <| vp ::= fun s => s <| hrtf_headroom := Z.land argument 7 |> |>)
  else if (NV1BA0_PIO_SET_SUBMIX_HEADROOM <=? method) && (method <=? NV1BA0_PIO_SET_SUBMIX_HEADROOM + 4 * (NUM_MIXBINS - 1))
  then set_submix_headroom method argument d
  else if method =? SE2FE_IDLE_VOICE then idle_voice d
  else Fault (AssertFail "Unrecognized VP method - could be unimplemented or invalid")
  end.

Definition vp_read (addr : Z) : Z := if addr =? NV1BA0_PIO_FREE then 0x80 else 0.

(** The addresses that are methods. *)
Definition vp_method (addr : Z) : bool :=
  bool_decide (is_Some (voice_word_method addr)) ||
  bool_decide (addr ∈ [NV1BA0_PIO_SET_ANTECEDENT_VOICE; NV1BA0_PIO_VOICE_LOCK; NV1BA0_PIO_VOICE_ON; NV1BA0_PIO_VOICE_RELEASE;
    NV1BA0_PIO_VOICE_OFF; NV1BA0_PIO_VOICE_PAUSE; NV1BA0_PIO_SET_CURRENT_HRTF_ENTRY; NV1BA0_PIO_SET_CURRENT_VOICE;
    NV1BA0_PIO_SET_VOICE_TAR_HRTF; NV1BA0_PIO_SET_VOICE_TAR_PITCH; NV1BA0_PIO_SET_HRIR_X;
    NV1BA0_PIO_SET_CURRENT_INBUF_SGE; NV1BA0_PIO_SET_CURRENT_INBUF_SGE_OFFSET; NV1BA0_PIO_SET_CURRENT_OUTBUF_SGE;
    NV1BA0_PIO_SET_CURRENT_OUTBUF_SGE_OFFSET; NV1BA0_PIO_SET_CURRENT_SSL; NV1BA0_PIO_SET_VOICE_SSL_A;
    NV1BA0_PIO_SET_VOICE_SSL_B; NV1BA0_PIO_SET_HRTF_SUBMIXES; NV1BA0_PIO_SET_HRTF_HEADROOM]) ||
  ((NV1BA0_PIO_SET_HRIR <=? addr) && (addr <=? NV1BA0_PIO_SET_HRIR_X - 1)) ||
  case_4 addr NV1BA0_PIO_SET_OUTBUF_BA 8 || case_4 addr NV1BA0_PIO_SET_OUTBUF_LEN 8 ||
  ((NV1BA0_PIO_SET_SSL_SEGMENT_OFFSET <=? addr) && (addr <=? NV1BA0_PIO_SET_SSL_SEGMENT_LENGTH + 8 * 64 - 1)) ||
  ((NV1BA0_PIO_SET_SUBMIX_HEADROOM <=? addr) && (addr <=? NV1BA0_PIO_SET_SUBMIX_HEADROOM + 4 * (NUM_MIXBINS - 1))).
Definition vp_write (addr val : Z) d : result (VpDevice F) :=
  if vp_method addr then fe_method addr (u32 val) d
  else if (addr =? NV1BA0_PIO_GET_VOICE_POSITION) || (addr =? NV1BA0_PIO_SET_CONTEXT_DMA_NOTIFY) ||
          (addr =? NV1BA0_PIO_SET_CURRENT_SSL_CONTEXT_DMA) then Fault (AssertFail "0")
  else Ok d.

Definition mcpx_apu_vp_reset d : VpDevice F :=
  d <| vp ::= fun s => s <| ssl_base_page := 0 |> <| hrtf_headroom := 0 |>
    <| ssl := repeat (mkSSL [0; 0] [0; 0] 0 0) 256 |> <| hrtf_submix := repeat 0 4 |>
    <| submix_headroom := repeat 0 32 |> <| voice_locked := repeat 0 4 |>
    <| filters ::= map filter_init |> |>.

(** ** Methods stay inside the state *)

Definition ssl_ok (s : MCPXAPUVPSSLData) : Prop :=
  length (ssl_base s) = 2%nat /\ length (ssl_count s) = 2%nat /\ 0 <= ssl_index s <= 1.
Definition hrtf_ok (e : HrtfEntry) : Prop := length (hrir e) = 2%nat /\ Forall (fun row => length row = 31%nat) (hrir e).
Record vp_wf d : Prop := {
  wf_filters : length (filters (vp d)) = 256%nat;
  wf_ssl : length (ssl (vp d)) = 256%nat;
  wf_ssls : Forall ssl_ok (ssl (vp d));
  wf_submix : length (hrtf_submix (vp d)) = 4%nat;
  wf_headroom : length (submix_headroom (vp d)) = 32%nat;
  wf_locked : length (voice_locked (vp d)) = 4%nat;
  wf_entry : 0 <= current_entry (vp d);
  wf_entries : length (hrtf_entries (vp d)) = 128%nat;
  wf_hrtf : Forall hrtf_ok (hrtf_entries (vp d));
}.

Definition only_asserts (f : fault) : Prop := match f with AssertFail _ => True | _ => False end.
Definition method_safe (c : result (VpDevice F)) : Prop := safe only_asserts vp_wf c.

Lemma wf_same d d' : vp d' = vp d -> vp_wf d -> vp_wf d'.
Proof. intros Hv []. by constructor; rewrite Hv. Qed.
Lemma vp_set_mask v off mask val d : vp (voice_set_mask v off mask val d) = vp d.
Proof. reflexivity. Qed.
Lemma vp_notify v n st d : vp (set_notify_status v n st d) = vp d.
Proof. reflexivity. Qed.
Lemma vp_envelope h st cm em a b d : vp (envelope_start h st cm em a b d) = vp d.
Proof. unfold envelope_start. by repeat case_match. Qed.
Lemma wf_set_mask v off mask val d : vp_wf d -> vp_wf (voice_set_mask v off mask val d).
Proof. by apply wf_same. Qed.
Lemma wf_set_vreg a v d : vp_wf d -> vp_wf (set_vreg a v d).
Proof. by apply wf_same. Qed.
Lemma wf_set_ssl i s d : vp_wf d -> ssl_ok s -> vp_wf (d <| vp ::= fun p => p <| ssl ::= <[i := s]> |> |>).
Proof.
  intros [] Hs. constructor; proj_red; try done; [by rewrite length_insert|by apply Forall_insert].
Qed.
Lemma wf_set_filter i f d : vp_wf d -> vp_wf (d <| vp ::= fun p => p <| filters ::= <[i := f]> |> |>).
Proof. intros []. constructor; proj_red; try done. by rewrite length_insert. Qed.
Lemma wf_set_entry i e d : vp_wf d -> hrtf_ok e ->
  vp_wf (d <| vp ::= fun s => s <| hrtf_entries ::= <[i := e]> |> |>).
Proof. intros [] He. constructor; proj_red; try done; [by rewrite length_insert|by apply Forall_insert]. Qed.

Lemma safe_assert (b : bool) what (k : unit -> result (VpDevice F)) :
  (b = true -> method_safe (k tt)) -> method_safe (check b what ≫= k).
Proof. unfold check. destruct b; [intros H; by apply H|done]. Qed.
Lemma safe_read {A} (l : list A) i (k : A -> result (VpDevice F)) : 0 <= i < Z.of_nat (length l) ->
  (forall x, x ∈ l -> method_safe (k x)) -> method_safe (fetch l i ≫= k).
Proof.
  intros Hi Hk. eapply safe_bind; [by apply safe_fetch|]. intros x Hx. apply Hk. by apply list_elem_of_lookup_2 with (Z.to_nat i).
Qed.
Lemma safe_then (c : result (VpDevice F)) k : method_safe c -> (forall d, vp_wf d -> method_safe (k d)) -> method_safe (c ≫= k).
Proof. apply safe_bind. Qed.

Lemma voice_lock_safe v lock d : vp_wf d -> method_safe (voice_lock v lock d).
Proof.
  intros Hw. unfold voice_lock. apply safe_assert. intros Hv. apply safe_read.
  - rewrite (wf_locked _ Hw). pose proof (u16_range v). unfold MCPX_HW_MAX_VOICES in Hv.
    assert (0 <= u16 v / 64 < 4) by (split; [apply Z.div_pos|apply Z.div_lt_upper_bound]; unfold is_u16 in *; lia). lia.
  - intros w _. destruct Hw. constructor; proj_red; try done. by rewrite length_insert.
Qed.
Lemma is_locked_safe v d (k : bool -> result (VpDevice F)) : vp_wf d -> (forall b, u16 v < 256 -> method_safe (k b)) ->
  method_safe (is_voice_locked d v ≫= k).
Proof.
  intros Hw Hk. unfold is_voice_locked, check. destruct (Z.ltb_spec (u16 v) MCPX_HW_MAX_VOICES) as [Hv|]; [|done].
  pose proof (u16_range v). unfold MCPX_HW_MAX_VOICES, is_u16 in *.
  destruct (lookup_lt_is_Some_2 (voice_locked (vp d)) (Z.to_nat (u16 v / 64))) as [w Hl].
  { rewrite (wf_locked _ Hw). assert (u16 v / 64 < 4) by (apply Z.div_lt_upper_bound; lia). lia. }
  rewrite (fetch_ok _ _ w) by (try apply Z.div_pos; (lia || done)). cbn [mbind result_mbind result_bind]. by apply Hk.
Qed.
Lemma with_lock_safe v op d : vp_wf d -> (forall d, vp_wf d -> u16 v < 256 -> method_safe (op d)) ->
  method_safe (with_voice_lock v op d).
Proof.
  intros Hw Hop. unfold with_voice_lock. apply is_locked_safe; [done|]. intros b Hv.
  apply safe_then; [destruct b; [done|by apply voice_lock_safe]|]. intros d1 Hw1.
  apply safe_then; [by apply Hop|]. intros d2 Hw2. destruct b; [done|by apply voice_lock_safe].
Qed.

Lemma voice_off_safe v d : vp_wf d -> method_safe (voice_off v d).
Proof.
  intros Hw. unfold voice_off. set (d1 := voice_set_mask v _ _ 0 d). assert (vp_wf d1) as Hw1 by (by apply wf_set_mask).
  eapply safe_bind with (Q := fun _ => True); [|intros n _; by apply wf_same with d1].
  destruct (negb _); [|done]. unfold check. destruct (Z.ltb_spec (u16 v) MCPX_HW_MAX_VOICES); [|done].
  cbn [mbind result_mbind result_bind]. eapply safe_bind; [apply safe_fetch; rewrite (wf_ssl _ Hw1); pose proof (u16_range v); unfold MCPX_HW_MAX_VOICES, is_u16 in *; lia|].
  intros s _. cbn. by destruct (_ <=? _).
Qed.

Lemma voice_link_safe h d : vp_wf d -> method_safe (voice_link h d).
Proof.
  intros Hw. unfold voice_link. destruct (negb _) eqn:E.
  - apply safe_read.
    + pose proof (GET_MASK_range (vreg d NV_PAPU_FEAV) NV_PAPU_FEAV_LST 16 2 ltac:(by split_and!)).
      unfold NV1BA0_PIO_SET_ANTECEDENT_VOICE_LIST_INHERIT in E. cbn [length voice_list_regs]. lia.
    + intros [[t c] n] _. by apply wf_set_vreg, wf_set_mask.
  - apply safe_assert. intros _. by apply wf_set_mask, wf_set_mask.
Qed.

Lemma voice_on_safe arg d : vp_wf d -> method_safe (voice_on arg d).
Proof.
  intros Hw. unfold voice_on. set (h := Z.land arg NV1BA0_PIO_VOICE_ON_HANDLE).
  assert (0 <= h < 65536) as Hh by (unfold h, NV1BA0_PIO_VOICE_ON_HANDLE; change 0xFFFF with (Z.ones 16); rewrite Z.land_ones by lia;
    apply Z.mod_pos_bound; lia).
  apply with_lock_safe; [done|]. clear d Hw. intros d Hw Hv. rewrite u16_id in Hv by (unfold is_u16; lia).
  unfold voice_on_body. apply safe_then; [by apply voice_link_safe|]. clear d Hw. intros d Hw.
  apply safe_read; [rewrite vp_set_mask, (wf_ssl _ Hw); lia|]. intros s Hs.
  set (d1 := _ <| vp ::= _ |>). assert (vp_wf d1) as Hw1.
  { apply wf_set_ssl; [by apply wf_set_mask|]. destruct (proj1 (Forall_forall _ _) (wf_ssls _ Hw) s Hs) as (H1 & H2 & _).
    split; [done|]. split; [done|]. cbn. lia. }
  set (d3 := envelope_start _ _ _ _ _ _ (envelope_start _ _ _ _ _ _ d1)).
  assert (vp_wf d3) as Hw3 by (apply wf_same with d1; [unfold d3; by rewrite !vp_envelope|done]).
  apply safe_then; [|intros d4 Hw4; by apply wf_set_mask]. unfold voice_reset_filters. apply safe_assert. intros _.
  apply safe_read; [rewrite (wf_filters _ Hw3); lia|]. intros f _. by apply wf_set_filter.
Qed.

Lemma safe_blit l i x (k : list Z -> result (VpDevice F)) : 0 <= i < Z.of_nat (length l) ->
  (forall l', length l' = length l -> method_safe (k l')) -> method_safe (blit l i [x] ≫= k).
Proof. intros Hi Hk. rewrite blit_one by done. apply Hk. by rewrite length_insert. Qed.

(** The current entry stays what the methods of an entry have checked. *)
Lemma set_coeff_safe ch idx x d k : vp_wf d -> current_entry (vp d) < 128 -> 0 <= ch < 2 -> 0 <= idx < 31 ->
  (forall d', vp_wf d' -> current_entry (vp d') < 128 -> method_safe (k d')) ->
  method_safe (set_hrir_coeff_tar ch idx x d ≫= k).
Proof.
  intros Hw He Hch Hi Hk. unfold set_hrir_coeff_tar. pose proof (wf_entry _ Hw).
  destruct (lookup_lt_is_Some_2 (hrtf_entries (vp d)) (Z.to_nat (current_entry (vp d)))) as [e Hle]; [rewrite (wf_entries _ Hw); lia|].
  rewrite (fetch_ok _ _ e) by done. cbn [mbind result_mbind result_bind].
  destruct (Forall_lookup_1 _ _ _ _ (wf_hrtf _ Hw) Hle) as [Hl2 Hrows].
  destruct (lookup_lt_is_Some_2 (hrir e) (Z.to_nat ch)) as [row Hrow]; [rewrite Hl2; lia|].
  rewrite (fetch_ok _ _ row) by (lia || done). cbn [mbind result_mbind result_bind].
  pose proof (Forall_lookup_1 _ _ _ _ Hrows Hrow) as Hlen. cbv beta in Hlen.
  rewrite blit_one by (rewrite Hlen; lia). cbn [mbind result_mbind result_bind]. apply Hk; [|done].
  apply wf_set_entry; [done|]. split; cbn; [by rewrite length_insert|]. apply Forall_insert; [done|]. by rewrite length_insert.
Qed.
Lemma set_hrir_safe method arg d : vp_wf d -> NV1BA0_PIO_SET_HRIR <= method <= NV1BA0_PIO_SET_HRIR_X - 1 ->
  method_safe (set_hrir method arg d).
Proof.
  unfold NV1BA0_PIO_SET_HRIR, NV1BA0_PIO_SET_HRIR_X. intros Hw Hm. unfold set_hrir. apply safe_assert. intros He.
  unfold HRTF_ENTRY_COUNT in He. apply Z.ltb_lt in He.
  assert (0 <= (method - NV1BA0_PIO_SET_HRIR) / 4 <= 14) as Hi.
  { unfold NV1BA0_PIO_SET_HRIR. split; [apply Z.div_pos; lia|]. apply Z.lt_succ_r, Z.div_lt_upper_bound; lia. }
  do 3 (apply set_coeff_safe; [done|done|lia|lia|]; clear d Hw He; intros d Hw He).
  rewrite <- (result_bind_ret (set_hrir_coeff_tar _ _ _ d)). by apply set_coeff_safe; [| |lia|lia|].
Qed.
Lemma set_hrir_x_safe arg d : vp_wf d -> method_safe (set_hrir_x arg d).
Proof.
  intros Hw. unfold set_hrir_x. apply safe_assert. intros He. unfold HRTF_ENTRY_COUNT in He. apply Z.ltb_lt in He.
  do 2 (apply set_coeff_safe; [done|done|lia|lia|]; clear d Hw He; intros d Hw He).
  pose proof (wf_entry _ Hw). apply safe_read; [rewrite (wf_entries _ Hw); lia|]. intros e Hin.
  apply wf_set_entry; [done|]. exact (proj1 (Forall_forall _ _) (wf_hrtf _ Hw) e Hin).
Qed.

Lemma tar_hrtf_safe arg d : vp_wf d -> 0 <= vreg d NV_PAPU_FECV < 2 ^ 31 -> method_safe (set_voice_tar_hrtf arg d).
Proof.
  intros Hw Hv. unfold set_voice_tar_hrtf. rewrite (s32_id (vreg d NV_PAPU_FECV)) by lia.
  set (d1 := voice_set_mask _ _ _ _ d). assert (vp_wf d1) as Hw1 by (by apply wf_set_mask).
  destruct (_ && _) eqn:E; [|done]. apply andb_true_iff in E as [E _]. unfold MCPX_HW_MAX_3D_VOICES in E.
  apply safe_assert. intros Hh. unfold HRTF_ENTRY_COUNT in Hh.
  pose proof (GET_MASK_range arg 0xFFFF 0 16 ltac:(by split_and!)).
  apply safe_read; [rewrite (wf_filters _ Hw1); lia|]. intros f _.
  apply safe_read; [rewrite (wf_entries _ Hw1); lia|]. intros e _. by apply wf_set_filter.
Qed.
Lemma set_ssl_safe which arg d : vp_wf d -> 0 <= which < 2 -> 0 <= vreg d NV_PAPU_FECV < 2 ^ 31 ->
  method_safe (set_voice_ssl which arg d).
Proof.
  intros Hw Hwh Hv. unfold set_voice_ssl. rewrite (s32_id (vreg d NV_PAPU_FECV)) by lia.
  apply safe_assert. intros E. unfold MCPX_HW_MAX_VOICES in E.
  apply safe_read; [rewrite (wf_ssl _ Hw); lia|]. intros s Hs.
  destruct (proj1 (Forall_forall _ _) (wf_ssls _ Hw) s Hs) as (H1 & H2 & H3).
  apply safe_blit; [rewrite H1; lia|]. intros base Hb. apply safe_blit; [rewrite H2; lia|]. intros count Hc.
  apply wf_set_ssl; [done|]. split; cbn; [congruence|]. split; [congruence|done].
Qed.

Lemma fe_method_safe method arg d : vp_wf d -> 0 <= vreg d NV_PAPU_FECV < 2 ^ 31 -> method_safe (fe_method method arg d).
Proof.
  intros Hw Hv. unfold fe_method. set (d0 := set_vreg _ arg _).
  assert (vp_wf d0) as Hw0 by (by apply wf_set_vreg, wf_set_vreg).
  assert (vreg d0 NV_PAPU_FECV = vreg d NV_PAPU_FECV) as Hr.
  { unfold d0, vreg, set_vreg, reg. proj_red. by rewrite !rd_wr_ne. }
  rewrite <- Hr in Hv. clearbody d0. clear d Hw Hr. rename d0 into d, Hw0 into Hw.
  destruct (voice_word_method method) as [[off mask]|]; [by apply wf_set_mask|].
  destruct (method =? _); [by apply voice_lock_safe|].
  destruct (method =? _); [by apply wf_set_vreg|].
  destruct (method =? _); [by apply voice_on_safe|].
  destruct (method =? _).
  { apply with_lock_safe; [exact Hw|]. intros d1 Hw1 _. by apply wf_set_mask, wf_set_mask, wf_set_mask, wf_set_mask. }
  destruct (method =? _); [by apply voice_off_safe|].
  destruct (method =? _); [by apply wf_set_mask|].
  destruct (method =? _).
  { pose proof (GET_MASK_range arg 0xFFFF 0 16 ltac:(by split_and!)) as Hg. destruct Hw. constructor; proj_red; try assumption. lia. }
  destruct (method =? _); [by apply wf_set_vreg|].
  destruct (method =? _); [by apply tar_hrtf_safe|].
  destruct (method =? _); [by apply wf_set_mask|].
  destruct (_ && _) eqn:E; [apply set_hrir_safe; [exact Hw|lia]|clear E].
  destruct (method =? _); [by apply set_hrir_x_safe|].
  destruct (method =? _); [destruct Hw; by constructor|].
  destruct (method =? _); [by apply wf_same with d|].
  destruct (_ || _); [exact Hw|].
  destruct (method =? _); [destruct Hw; by constructor|].
  destruct (method =? _); [by apply wf_same with d|].
  destruct (method =? _); [apply set_ssl_safe; [exact Hw|lia|exact Hv]|].
  destruct (method =? _); [apply set_ssl_safe; [exact Hw|lia|exact Hv]|].
  destruct (method =? _).
  { apply safe_assert. intros _. apply safe_assert. intros _. destruct Hw; by constructor. }
  destruct (_ && _); [apply safe_assert; intros _; by apply wf_same with d|].
  destruct (method =? _); [destruct Hw; by constructor|].
  destruct (method =? _); [destruct Hw; by constructor|].
  destruct (_ && _) eqn:E; [|clear E; destruct (method =? _); [|exact I]].
  - unfold set_submix_headroom. apply safe_assert. intros _. unfold NV1BA0_PIO_SET_SUBMIX_HEADROOM, NUM_MIXBINS in *.
    apply safe_blit; [|intros l Hl; pose proof (wf_headroom _ Hw); destruct Hw; constructor; proj_red; congruence].
    rewrite (wf_headroom _ Hw). split; [apply Z.div_pos; lia|]. apply Z.div_lt_upper_bound; lia.
  - unfold idle_voice. destruct (has _ _); [|exact I]. by apply wf_same with d.
Qed.

(** C16. The methods of the voice processor are memory safe while the current voice is not
    negative as an [int]: whatever the guest writes to the window, the state keeps its
    shape or an assertion fails.  The two methods that index by the current voice compare
    it as a signed number: a guest that selects a voice from [2^31] on passes the check of
    the stream methods and writes in front of the array. *)
Theorem vp_methods_memory_safe d : vp_wf d ->
  (0 <= vreg d NV_PAPU_FECV < 2 ^ 31 -> forall addr val, safe only_asserts vp_wf (vp_write addr val d)) /\
  (forall cur arg, 2 ^ 31 <= cur < 2 ^ 32 -> exists d1,
     vp_write NV1BA0_PIO_SET_CURRENT_VOICE cur d = Ok d1 /\
     vp_write NV1BA0_PIO_SET_VOICE_SSL_A arg d1 = Fault OutOfBounds).
Proof.
  intros Hw. split.
  - intros Hv addr val. unfold vp_write. destruct (vp_method addr); [by apply fe_method_safe|].
    destruct (_ || _); [exact I|exact Hw].
  - intros cur arg Hc. exists (set_vreg NV_PAPU_FECV (u32 cur)
      (set_vreg NV_PAPU_FEDECPARAM (u32 cur) (set_vreg NV_PAPU_FEDECMETH NV1BA0_PIO_SET_CURRENT_VOICE d))).
    split; [reflexivity|]. set (d1 := set_vreg NV_PAPU_FECV _ _).
    change (set_voice_ssl 0 (u32 arg) (set_vreg NV_PAPU_FEDECPARAM (u32 arg)
      (set_vreg NV_PAPU_FEDECMETH NV1BA0_PIO_SET_VOICE_SSL_A d1)) = Fault OutOfBounds).
    unfold set_voice_ssl. assert (vreg (set_vreg NV_PAPU_FEDECPARAM (u32 arg)
      (set_vreg NV_PAPU_FEDECMETH NV1BA0_PIO_SET_VOICE_SSL_A d1)) NV_PAPU_FECV = cur) as ->.
    { unfold d1, vreg, set_vreg, reg. proj_red. rewrite !rd_wr_ne, rd_wr_eq by done. apply u32_id. unfold is_u32. lia. }
    assert (s32 cur < 0) as Hneg.
    { unfold s32. rewrite <- (Z.mod_unique_pos (cur + 2 ^ 31) (2 ^ 32) 1 (cur - 2 ^ 31)) by lia. lia. }
    unfold check. rewrite (proj2 (Z.ltb_lt (s32 cur) MCPX_HW_MAX_VOICES)) by (unfold MCPX_HW_MAX_VOICES; lia).
    cbn [mbind result_mbind result_bind]. unfold fetch. by rewrite (proj2 (Z.ltb_lt _ 0) Hneg).
Qed.

(** ** The structures of the voices *)

(** The 256 voices are in RAM. *)
Record voices_in_ram d : Prop := {
  vr_base : 0 <= vreg d NV_PAPU_VPVADDR;
  vr_fits : vreg d NV_PAPU_VPVADDR + 0x8000 <= ram_size (dev d) <= 2 ^ 32;
  vr_bytes : forall a, is_u8 (rd (ram (dev d)) a);
}.
Definition is_voice (v : Z) : Prop := 0 <= v < 256.
(** The place of a word in the structure. *)
Definition is_word (off : Z) : Prop := 0 <= off < 0x80 /\ off mod 4 = 0.

Lemma is_word_quot off : is_word off -> exists q, off = 4 * q /\ 0 <= q < 32.
Proof. intros [Ho H4]. exists (off / 4). pose proof (Z_div_mod_eq_full off 4). lia. Qed.
Lemma voice_addr_eq d v : voices_in_ram d -> is_voice v -> voice_addr d v = vreg d NV_PAPU_VPVADDR + v * 0x80.
Proof.
  intros [Hb Hf _] Hv. unfold voice_addr, is_voice, NV_PAVS_SIZE in *. rewrite (u16_id v) by (unfold is_u16; lia).
  apply u32_id. unfold is_u32. lia.
Qed.
Definition vword d (v off : Z) : Z := ldl d (voice_addr d v + off).
Lemma vword_range d v off : voices_in_ram d -> is_voice v -> is_word off -> is_u32 (vword d v off).
Proof.
  intros Hr Hv (q & -> & Hq)%is_word_quot. unfold vword, ldl, ldl_le_phys. rewrite voice_addr_eq by done. destruct Hr as [Hb Hf H8].
  unfold is_voice in Hv. rewrite (proj2 (Z.leb_le _ _)) by lia.
  assert (0 <= le_word (load_bytes (ram (dev d)) (vreg d NV_PAPU_VPVADDR + v * 0x80 + 4 * q) 4) < 256 ^ 4) as H.
  { apply (le_word_range (load_bytes _ _ 4)). apply Forall_forall. intros y Hy. apply list_elem_of_In, in_map_iff in Hy as (i & <- & _). apply H8. }
  exact H.
Qed.

Lemma store_ram a l m x : Forall is_u8 l -> (forall a, is_u8 (rd m a)) -> is_u8 (rd (store_bytes m a l) x).
Proof.
  intros Hl Hm. rewrite rd_store_bytes. destruct (_ && _) eqn:E; [|apply Hm]. apply byte_Forall; [done|]. lia.
Qed.
Lemma set_mask_in_ram v off mask val d : voices_in_ram d -> voices_in_ram (voice_set_mask v off mask val d).
Proof.
  intros [Hb Hf H8]. unfold voice_set_mask, stl, stl_le_phys.
  constructor; unfold vreg, reg; proj_red; destruct (_ <=? _); proj_red; try done.
  intros a. apply store_ram; [apply le_bytes_u8|done].
Qed.

(** A word of a voice after a field of some word was stored. *)
Lemma SET_MASK_u32 w mask x : is_u32 w -> is_u32 mask -> is_u32 (SET_MASK w mask x).
Proof.
  unfold is_u32, SET_MASK. intros Hw Hm. apply (lor_range _ _ 32); [lia| |].
  - apply (ldiff_range _ _ 32); lia.
  - rewrite Z.land_comm. apply (land_range _ _ 32); lia.
Qed.

Lemma ldl_stl a x b d : 0 <= a -> a + 4 <= ram_size (dev d) -> 0 <= b -> b + 4 <= ram_size (dev d) ->
  a = b \/ a + 4 <= b \/ b + 4 <= a -> is_u32 x -> ldl (stl a x d) b = if a =? b then x else ldl d b.
Proof.
  intros Ha Hfa Hb Hfb Hab Hx. unfold ldl, stl, ldl_le_phys, stl_le_phys. proj_red.
  rewrite !(proj2 (Z.leb_le (a + 4) _)) by lia. proj_red. rewrite !(proj2 (Z.leb_le (b + 4) _)) by lia.
  destruct (Z.eqb_spec a b) as [->|Hne].
  - rewrite load_le_same. apply Z.mod_small. exact Hx.
  - by rewrite load_store_disjoint by (rewrite length_le_bytes; lia).
Qed.
Lemma vword_set v off mask val d v' off' : voices_in_ram d -> is_voice v -> is_word off -> is_voice v' -> is_word off' ->
  is_u32 mask ->
  vword (voice_set_mask v off mask val d) v' off' =
    if (v =? v') && (off =? off') then SET_MASK (vword d v off) mask (u32 val) else vword d v' off'.
Proof.
  intros Hr Hv Ho Hv' Ho' Hm. pose proof (vword_range d v off Hr Hv Ho) as Hold.
  assert (vword (voice_set_mask v off mask val d) v' off' =
    ldl (voice_set_mask v off mask val d) (voice_addr d v' + off')) as ->.
  { unfold vword. do 2 f_equal. unfold voice_addr, voice_set_mask, stl, stl_le_phys, vreg, reg. proj_red. by destruct (_ <=? _). }
  unfold voice_set_mask. unfold vword in *. rewrite !voice_addr_eq in * by done. destruct Hr as [Hb Hf _].
  destruct (is_word_quot off Ho) as (q & -> & Hq), (is_word_quot off' Ho') as (q' & -> & Hq'). unfold is_voice in *.
  rewrite ldl_stl; [|lia|lia|lia|lia|lia|by apply SET_MASK_u32].
  assert ((vreg d NV_PAPU_VPVADDR + v * 0x80 + 4 * q =? vreg d NV_PAPU_VPVADDR + v' * 0x80 + 4 * q') = ((v =? v') && (4 * q =? 4 * q')))
    as -> by lia. done.
Qed.
Lemma get_set_mask v off mask x d off' mask' : voices_in_ram d -> is_voice v -> is_word off -> is_word off' -> is_u32 mask ->
  voice_get_mask (voice_set_mask v off mask x d) v off' mask' =
    if off =? off' then GET_MASK (SET_MASK (vword d v off) mask (u32 x)) mask' else voice_get_mask d v off' mask'.
Proof.
  intros Hr Hv Ho Ho' Hm. unfold voice_get_mask. fold (vword (voice_set_mask v off mask x d) v off').
  rewrite vword_set, Z.eqb_refl by done. cbn [andb]. by destruct (off =? off').
Qed.
Lemma set_mask_regs v off mask val d a : vreg (voice_set_mask v off mask val d) a = vreg d a.
Proof. unfold voice_set_mask, stl, stl_le_phys, vreg, reg. proj_red. by destruct (_ <=? _). Qed.
Lemma set_vreg_word a x d v off : a <> NV_PAPU_VPVADDR -> vword (set_vreg a x d) v off = vword d v off.
Proof. intros Ha. unfold vword, voice_addr, vreg, set_vreg, reg. proj_red. by rewrite rd_wr_ne. Qed.
Lemma set_vreg_in_ram a x d : a <> NV_PAPU_VPVADDR -> voices_in_ram d -> voices_in_ram (set_vreg a x d).
Proof. intros Ha [Hb Hf H8]. constructor; unfold vreg, set_vreg, reg in *; proj_red; by rewrite ?rd_wr_ne by done. Qed.
Lemma vreg_set_eq a x d : vreg (set_vreg a x d) a = x.
Proof. unfold vreg, set_vreg, reg. proj_red. apply rd_wr_eq. Qed.
Lemma vreg_set_ne a x d b : b <> a -> vreg (set_vreg a x d) b = vreg d b.
Proof. intros Hb. unfold vreg, set_vreg, reg. proj_red. by rewrite rd_wr_ne. Qed.

(** ** The lists of voices *)

Definition LINK : Z := NV_PAVS_VOICE_TAR_PITCH_LINK.
Definition next_of d (v : Z) : Z := voice_get_mask d v LINK NV_PAVS_VOICE_TAR_PITCH_LINK_NEXT_VOICE_HANDLE.
Definition active d (v : Z) : Z := voice_get_mask d v NV_PAVS_VOICE_PAR_STATE NV_PAVS_VOICE_PAR_STATE_ACTIVE_VOICE.
(** The links from handle [h] on lead through the voices [vs]. *)
Fixpoint linked d (h : Z) (vs : list Z) : Prop :=
  match vs with
  | [] => h = 0xFFFF
  | v :: vs => h = v /\ is_voice v /\ linked d (next_of d v) vs
  end.

Record keeps_links d d' : Prop := {
  kl_ram : voices_in_ram d';
  kl_next : forall v, is_voice v -> next_of d' v = next_of d v;
  kl_regs : forall a, vreg d' a = vreg d a;
}.
Lemma links_refl d : voices_in_ram d -> keeps_links d d.
Proof. by constructor. Qed.
Lemma links_trans d1 d2 d3 : keeps_links d1 d2 -> keeps_links d2 d3 -> keeps_links d1 d3.
Proof. intros [? H1 H2] [? H3 H4]. constructor; [done| |]; intros; [by rewrite H3, H1|by rewrite H4, H2]. Qed.
Lemma keeps_vp d d' : voices_in_ram d -> dev d' = dev d -> keeps_links d d'.
Proof.
  intros [Hb Hf H8] Hd. constructor; [constructor; unfold vreg in *; by rewrite ?Hd| |].
  - intros v _. unfold next_of, voice_get_mask, voice_addr, ldl, vreg. by rewrite Hd.
  - intros a. unfold vreg. by rewrite Hd.
Qed.
Lemma link_word : is_word LINK.
Proof. done. Qed.
Lemma keeps_set_mask v off mask val d : voices_in_ram d -> is_voice v -> is_word off -> is_u32 mask -> off <> LINK ->
  keeps_links d (voice_set_mask v off mask val d).
Proof.
  intros Hr Hv Ho Hm Hne. constructor; [by apply set_mask_in_ram| |apply set_mask_regs].
  intros w Hw. unfold next_of, voice_get_mask. fold (vword (voice_set_mask v off mask val d) w LINK) (vword d w LINK).
  rewrite vword_set by (done || apply link_word). by rewrite (proj2 (Z.eqb_neq off LINK) Hne), andb_false_r.
Qed.
Lemma keeps_envelope h st cm em a b d : voices_in_ram d -> is_voice h -> is_u32 cm -> is_u32 em ->
  keeps_links d (envelope_start h st cm em a b d).
Proof.
  intros Hr Hv Hc He. unfold envelope_start.
  assert (keeps_links d (voice_set_mask h NV_PAVS_VOICE_PAR_STATE cm st d)) as H1 by (by apply keeps_set_mask).
  repeat case_match; [eapply links_trans; [exact H1|apply keeps_set_mask; [apply H1|done..]]..|exact H1].
Qed.

Lemma linked_keep d d' vs : (forall v, v ∈ vs -> is_voice v -> next_of d' v = next_of d v) ->
  forall h, linked d h vs -> linked d' h vs.
Proof.
  induction vs as [|v vs IH]; intros Hn h; [done|]. intros (-> & Hv & Hl). split; [done|]. split; [done|].
  rewrite Hn by (done || apply elem_of_cons; by left). apply IH; [|done]. intros w Hw. apply Hn, elem_of_cons. by right.
Qed.
Lemma linked_voices d vs : forall h, linked d h vs -> Forall is_voice vs.
Proof. induction vs as [|v vs IH]; intros h; [done|]. intros (_ & Hv & Hl). constructor; [done|by apply (IH (next_of d v))]. Qed.
Lemma linked_handle d h vs : linked d h vs -> 0 <= h < 65536.
Proof. destruct vs; cbn; [lia|]. intros (-> & Hv & _). unfold is_voice in Hv. lia. Qed.

(** What linking stores in a voice. *)
Lemma next_set v x d w : voices_in_ram d -> is_voice v -> is_voice w -> 0 <= x < 65536 ->
  next_of (voice_set_mask v LINK NV_PAVS_VOICE_TAR_PITCH_LINK_NEXT_VOICE_HANDLE x d) w = if v =? w then x else next_of d w.
Proof.
  intros Hr Hv Hw Hx. unfold next_of at 1, voice_get_mask.
  fold (vword (voice_set_mask v LINK NV_PAVS_VOICE_TAR_PITCH_LINK_NEXT_VOICE_HANDLE x d) w LINK).
  rewrite vword_set by (done || apply link_word). rewrite Z.eqb_refl, andb_true_r.
  destruct (Z.eqb_spec v w) as [->|]; [|done].
  rewrite (GET_SET_same _ _ 0 16) by (by split_and!). rewrite u32_id by (unfold is_u32; lia). apply Z.mod_small. lia.
Qed.

Definition list_tops : list Z := [NV_PAPU_TVL2D; NV_PAPU_TVL3D; NV_PAPU_TVLMP].
Lemma list_regs_top i t c n : voice_list_regs !! i = Some (t, c, n) -> t ∈ list_tops.
Proof.
  unfold list_tops. rewrite !elem_of_cons. destruct i as [|[|[|[]]]]; cbn; intros [= <- <- <-]; tauto.
Qed.
Lemma top_other t : t ∈ list_tops -> t <> NV_PAPU_VPVADDR /\ t <> NV_PAPU_FEDECMETH /\ t <> NV_PAPU_FEDECPARAM.
Proof. unfold list_tops. rewrite !elem_of_cons, elem_of_nil. by intros [->|[->|[->|[]]]]. Qed.

(** The effect of linking a voice: its own link, that of the voice before it if there is
    one, and the top of the list otherwise. *)
Lemma voice_link_top h d t c n vs : voices_in_ram d -> is_voice h ->
  GET_MASK (vreg d NV_PAPU_FEAV) NV_PAPU_FEAV_LST <> 0 ->
  voice_list_regs !! Z.to_nat (GET_MASK (vreg d NV_PAPU_FEAV) NV_PAPU_FEAV_LST - 1) = Some (t, c, n) ->
  linked d (vreg d t) vs ->
  exists d1, voice_link h d = Ok d1 /\ voices_in_ram d1 /\ vp d1 = vp d /\ vreg d1 t = h /\
    (forall a, a <> t -> vreg d1 a = vreg d a) /\
    forall w, is_voice w -> next_of d1 w = if h =? w then vreg d t else next_of d w.
Proof.
  intros Hr Hh Hl Ht Hvs. unfold voice_link, NV1BA0_PIO_SET_ANTECEDENT_VOICE_LIST_INHERIT.
  pose proof (GET_MASK_range (vreg d NV_PAPU_FEAV) NV_PAPU_FEAV_LST 16 2 ltac:(by split_and!)) as Hrange.
  rewrite (proj2 (Z.eqb_neq _ 0) Hl). cbn [negb]. rewrite (fetch_ok voice_list_regs _ (t, c, n)) by (lia || done). cbn [mbind result_mbind result_bind].
  destruct (top_other t (list_regs_top _ _ _ _ Ht)) as (Hne & _ & _).
  eexists. split; [reflexivity|]. split; [by apply set_vreg_in_ram, set_mask_in_ram|]. split; [done|]. split; [apply vreg_set_eq|].
  split; [intros a Ha; rewrite vreg_set_ne by done; apply set_mask_regs|].
  intros w Hw. pose proof (linked_handle _ _ _ Hvs).
  assert (forall d' x, next_of (set_vreg t x d') w = next_of d' w) as ->.
  { intros d' x. unfold next_of, voice_get_mask. fold (vword (set_vreg t x d') w LINK). by rewrite set_vreg_word. }
  by rewrite (next_set h (vreg d t)).
Qed.
Lemma voice_link_after h d a : voices_in_ram d -> is_voice h -> is_voice a -> a <> h ->
  GET_MASK (vreg d NV_PAPU_FEAV) NV_PAPU_FEAV_LST = 0 -> GET_MASK (vreg d NV_PAPU_FEAV) NV_PAPU_FEAV_VALUE = a ->
  exists d1, voice_link h d = Ok d1 /\ voices_in_ram d1 /\ vp d1 = vp d /\ (forall a, vreg d1 a = vreg d a) /\
    forall w, is_voice w -> next_of d1 w = if a =? w then h else if h =? w then next_of d a else next_of d w.
Proof.
  intros Hr Hh Ha Hne Hl Hv. unfold voice_link. rewrite Hl, Hv. cbn [negb].
  rewrite (proj2 (Z.eqb_neq a 0xFFFF)) by (unfold is_voice in Ha; lia). cbn [negb check mbind result_mbind result_bind].
  change (negb (0 =? NV1BA0_PIO_SET_ANTECEDENT_VOICE_LIST_INHERIT)) with false. cbv iota.
  eexists. split; [reflexivity|]. pose proof (set_mask_in_ram h LINK NV_PAVS_VOICE_TAR_PITCH_LINK_NEXT_VOICE_HANDLE (next_of d a) d Hr) as Hr1.
  split; [by apply set_mask_in_ram|]. split; [done|]. split; [intros b; by rewrite !set_mask_regs|].
  intros w Hw. etransitivity; [exact (next_set a h _ w Hr1 Ha Hw ltac:(unfold is_voice in Hh; lia))|].
  destruct (a =? w); [done|]. apply next_set; [done|done|done|].
  exact (GET_MASK_range _ NV_PAVS_VOICE_TAR_PITCH_LINK_NEXT_VOICE_HANDLE 0 16 ltac:(by split_and!)).
Qed.

Lemma voice_on_body_ok arg h d d1 : vp_wf d -> is_voice h -> voice_link h d = Ok d1 -> voices_in_ram d1 -> vp d1 = vp d ->
  exists d', voice_on_body arg h d = Ok d' /\ keeps_links d1 d' /\ active d' h = 1 /\
    voice_locked (vp d') = voice_locked (vp d).
Proof.
  intros Hw Hh Hlink Hr Hvp. unfold voice_on_body. rewrite Hlink. cbn [mbind result_mbind result_bind].
  set (d2 := voice_set_mask h NV_PAVS_VOICE_PAR_OFFSET _ 0 d1).
  assert (keeps_links d1 d2) as K2 by (by apply keeps_set_mask). assert (vp d2 = vp d) as Hv2 by exact Hvp.
  rewrite Hv2. destruct (lookup_lt_is_Some_2 (ssl (vp d)) (Z.to_nat h)) as [s Hs]; [rewrite (wf_ssl _ Hw); unfold is_voice in Hh; lia|].
  rewrite (fetch_ok _ _ s) by (unfold is_voice in Hh; lia || done). cbn [mbind result_mbind result_bind].
  set (d3 := d2 <| vp ::= _ |>). assert (keeps_links d1 d3) as K3 by (eapply links_trans; [exact K2|by apply keeps_vp; [apply K2|]]).
  set (d4 := envelope_start h _ _ _ _ _ d3). assert (keeps_links d1 d4) as K4 by (eapply links_trans; [exact K3|by apply keeps_envelope; [apply K3|..]]).
  set (d5 := envelope_start h _ _ _ _ _ d4). assert (keeps_links d1 d5) as K5 by (eapply links_trans; [exact K4|by apply keeps_envelope; [apply K4|..]]).
  assert (vp d5 = vp d3) as Hv5 by (unfold d5, d4; by rewrite !vp_envelope).
  assert (vp d3 = vp d <| ssl ::= <[Z.to_nat h := s <| ssl_seg := 0 |> <| ssl_index := 0 |>]> |>) as Hv3 by (unfold d3; proj_red; by rewrite Hv2).
  clearbody d5. clear d4 K4. unfold voice_reset_filters, check. rewrite (proj2 (Z.ltb_lt h _)) by apply Hh.
  cbn [mbind result_mbind result_bind]. rewrite Hv5, Hv3.
  destruct (lookup_lt_is_Some_2 (filters (vp d)) (Z.to_nat h)) as [f Hf]; [rewrite (wf_filters _ Hw); unfold is_voice in Hh; lia|].
  rewrite (fetch_ok _ _ f) by (unfold is_voice in Hh; lia || done). cbn [mbind result_mbind result_bind].
  set (d6 := d5 <| vp ::= _ |>). assert (keeps_links d1 d6) as K6 by (eapply links_trans; [exact K5|by apply keeps_vp; [apply K5|]]).
  eexists. split; [reflexivity|]. split; [eapply links_trans; [exact K6|apply keeps_set_mask; [apply K6|done..]]|]. split.
  - unfold active, voice_get_mask. fold (vword (voice_set_mask h NV_PAVS_VOICE_PAR_STATE NV_PAVS_VOICE_PAR_STATE_ACTIVE_VOICE 1 d6) h NV_PAVS_VOICE_PAR_STATE).
    rewrite vword_set by (done || apply K6). rewrite !Z.eqb_refl. cbn [andb].
    by rewrite (GET_SET_same _ _ 21 1) by (by split_and!).
  - rewrite vp_set_mask. unfold d6. proj_red. by rewrite Hv5, Hv3.
Qed.

(** The lock is as before. *)
Lemma lock_unlock w k : 0 <= k -> has w (Z.shiftl 1 k) = false -> Z.ldiff (Z.lor w (Z.shiftl 1 k)) (Z.shiftl 1 k) = w.
Proof.
  intros Hk Hw. unfold has in Hw. apply negb_false_iff, Z.eqb_eq in Hw. apply Z.bits_inj'. intros i Hi.
  apply (f_equal (fun z => Z.testbit z i)) in Hw. rewrite Z.land_spec, Z.bits_0 in Hw.
  rewrite Z.ldiff_spec, Z.lor_spec. destruct (Z.testbit w i), (Z.testbit (Z.shiftl 1 k) i); done.
Qed.
Lemma with_lock_ok h op d : vp_wf d -> is_voice h ->
  exists l, length l = 4%nat /\ forall d2, op (d <| vp ::= fun s => s <| voice_locked := l |> |>) = Ok d2 -> voice_locked (vp d2) = l ->
    exists d', with_voice_lock h op d = Ok d' /\ dev d' = dev d2 /\ voice_locked (vp d') = voice_locked (vp d).
Proof.
  intros Hw Hh. unfold is_voice in Hh. unfold with_voice_lock, is_voice_locked, voice_lock, check.
  rewrite (u16_id h) by (unfold is_u16; lia). rewrite (proj2 (Z.ltb_lt h MCPX_HW_MAX_VOICES)) by (unfold MCPX_HW_MAX_VOICES; lia).
  cbn [mbind result_mbind result_bind].
  assert (0 <= h / 64 < 4) as Hq by (split; [apply Z.div_pos; lia|apply Z.div_lt_upper_bound; lia]).
  destruct (lookup_lt_is_Some_2 (voice_locked (vp d)) (Z.to_nat (h / 64))) as [w Hlw]; [rewrite (wf_locked _ Hw); lia|].
  rewrite (fetch_ok _ _ w) by (lia || done). cbn [mbind result_mbind result_bind].
  destruct (has w (Z.shiftl 1 (h mod 64))) eqn:E.
  - exists (voice_locked (vp d)). split; [apply Hw|]. intros d2 Hop Hl2. exists d2.
    assert (d <| vp ::= fun s => s <| voice_locked := voice_locked (vp d) |> |> = d) as Hsame by (by destruct d as [? [] ?]).
    rewrite Hsame in Hop. cbn [mbind result_mbind result_bind]. rewrite Hop. cbn [mbind result_mbind result_bind].
    split; [reflexivity|]. by split.
  - exists (<[Z.to_nat (h / 64) := Z.lor w (Z.shiftl 1 (h mod 64))]> (voice_locked (vp d))).
    split; [rewrite length_insert; apply Hw|]. intros d2 Hop Hl2. cbn [mbind result_mbind result_bind].
    match goal with |- context[op ?x] => change x with
      (d <| vp ::= fun s => s <| voice_locked := <[Z.to_nat (h / 64) := Z.lor w (Z.shiftl 1 (h mod 64))]> (voice_locked (vp d)) |> |>) end.
    rewrite Hop. cbn [mbind result_mbind result_bind]. rewrite Hl2.
    rewrite (fetch_ok _ _ (Z.lor w (Z.shiftl 1 (h mod 64)))) by (first [lia|apply list_lookup_insert_eq; rewrite (wf_locked _ Hw); lia]).
    cbn [mbind result_mbind result_bind]. eexists. split; [reflexivity|]. split; [done|]. proj_red. rewrite Hl2.
    rewrite list_insert_insert_eq, lock_unlock by (done || (apply Z.mod_pos_bound; lia)). by apply list_insert_id.
Qed.

Lemma voice_link_vp h d d1 p : voice_link h d = Ok d1 -> voice_link h (d <| vp := p |>) = Ok (d1 <| vp := p |>).
Proof.
  unfold voice_link. change (vreg (d <| vp := p |>)) with (vreg d). destruct d as [dv q i]. destruct (negb _).
  - destruct (fetch voice_list_regs _) as [[[t c] n]|]; [|done]. by intros [= <-].
  - unfold check. destruct (negb _); [|done]. by intros [= <-].
Qed.
Lemma voice_on_run arg d d1 : vp_wf d -> is_voice (Z.land arg NV1BA0_PIO_VOICE_ON_HANDLE) ->
  voice_link (Z.land arg NV1BA0_PIO_VOICE_ON_HANDLE) d = Ok d1 -> voices_in_ram d1 ->
  exists d', voice_on arg d = Ok d' /\ keeps_links d1 d' /\ active d' (Z.land arg NV1BA0_PIO_VOICE_ON_HANDLE) = 1 /\
    voice_locked (vp d') = voice_locked (vp d).
Proof.
  set (h := Z.land arg NV1BA0_PIO_VOICE_ON_HANDLE). intros Hw Hh Hlink Hr. unfold voice_on. fold h.
  destruct (with_lock_ok h (voice_on_body arg h) d Hw Hh) as (l & Hl & Hlock).
  set (p := vp d <| voice_locked := l |>). change (d <| vp ::= _ |>) with (d <| vp := p |>) in Hlock.
  assert (keeps_links d1 (d1 <| vp := p |>)) as K0 by (by apply keeps_vp).
  destruct (voice_on_body_ok arg h (d <| vp := p |>) (d1 <| vp := p |>)) as (d2 & Hrun & K & Ha & Hlk); [|done|by apply voice_link_vp|apply K0|done|].
  { destruct Hw. by constructor. }
  destruct (Hlock d2 Hrun Hlk) as (d' & Hd' & Hdev & Hlk'). exists d'. split; [exact Hd'|].
  assert (keeps_links d2 d') as K' by (apply keeps_vp; [apply K|done]).
  split; [exact (links_trans _ _ _ K0 (links_trans _ _ _ K K'))|]. split; [|done].
  rewrite <- Ha. unfold active, voice_get_mask, voice_addr, ldl, vreg. by rewrite Hdev.
Qed.

(** The method notes its number and argument first. *)
Definition decoded (method arg : Z) d : VpDevice F := set_vreg NV_PAPU_FEDECPARAM arg (set_vreg NV_PAPU_FEDECMETH method d).
Lemma decoded_ram m arg d : voices_in_ram d -> voices_in_ram (decoded m arg d).
Proof. intros Hr. by apply set_vreg_in_ram; [|apply set_vreg_in_ram]. Qed.
Lemma decoded_reg m arg d a : a <> NV_PAPU_FEDECMETH -> a <> NV_PAPU_FEDECPARAM -> vreg (decoded m arg d) a = vreg d a.
Proof. intros H1 H2. unfold decoded. by rewrite !vreg_set_ne. Qed.
Lemma decoded_next m arg d v : next_of (decoded m arg d) v = next_of d v.
Proof. unfold next_of, voice_get_mask. fold (vword (decoded m arg d) v LINK). unfold decoded. by rewrite !set_vreg_word. Qed.
Lemma decoded_linked m arg d h vs : linked d h vs -> linked (decoded m arg d) h vs.
Proof. apply linked_keep. intros v _ _. apply decoded_next. Qed.

Lemma linked_split d a l2 : forall l1 h, linked d h (l1 ++ a :: l2) -> is_voice a /\ linked d (next_of d a) l2.
Proof. induction l1 as [|v l1 IH]; intros h; cbn; intros (_ & Hv & Hl); [done|by apply (IH (next_of d v))]. Qed.
(** Links changed so that [h] stands behind [a]. *)
Lemma linked_insert d d' a h l2 : is_voice h -> a <> h ->
  (forall w, is_voice w -> next_of d' w = if a =? w then h else if h =? w then next_of d a else next_of d w) ->
  forall l1 x, NoDup (l1 ++ a :: l2) -> h ∉ l1 ++ a :: l2 -> linked d x (l1 ++ a :: l2) -> linked d' x (l1 ++ a :: h :: l2).
Proof.
  intros Hh Hne Hn l1. induction l1 as [|v l1 IH]; intros x Hnd Hnot (-> & Hv & Hl); cbn [app linked].
  - split; [done|]. split; [done|]. rewrite Hn, Z.eqb_refl by done. split; [done|]. split; [done|].
    rewrite Hn, (proj2 (Z.eqb_neq a h)), Z.eqb_refl by done. revert Hl. apply linked_keep.
    intros w Hw Hvw. apply NoDup_cons in Hnd as [Ha2 _]. apply not_elem_of_cons in Hnot as [_ Hnot].
    rewrite Hn, !(proj2 (Z.eqb_neq _ w)) by (done || congruence). done.
  - apply NoDup_cons in Hnd as [Hv2 Hnd]. apply not_elem_of_cons in Hnot as [Hvh Hnot].
    split; [done|]. split; [done|]. rewrite Hn, (proj2 (Z.eqb_neq a v)), (proj2 (Z.eqb_neq h v)); [by apply IH|done| |done].
    intros ->. apply Hv2, elem_of_app. right. apply elem_of_cons. by left.
Qed.

(** C14. Switching a voice on enters it in a list.  With the voices in RAM, the method
    never fails for a handle below 256; a voice that is in no list becomes the first of
    the list the antecedent register names, or, if that names none, the one behind the
    antecedent voice; it is active, the other lists are as before, and so are the locks. *)
Theorem voice_on_enters_list d arg : let h := Z.land arg NV1BA0_PIO_VOICE_ON_HANDLE in
  vp_wf d -> voices_in_ram d -> is_u32 arg -> is_voice h ->
  let list := GET_MASK (vreg d NV_PAPU_FEAV) NV_PAPU_FEAV_LST in
  let antecedent := GET_MASK (vreg d NV_PAPU_FEAV) NV_PAPU_FEAV_VALUE in
  (forall t c n vs, list <> 0 -> voice_list_regs !! Z.to_nat (list - 1) = Some (t, c, n) ->
     linked d (vreg d t) vs -> h ∉ vs ->
     exists d', vp_write NV1BA0_PIO_VOICE_ON arg d = Ok d' /\ linked d' (vreg d' t) (h :: vs) /\ active d' h = 1 /\
       voice_locked (vp d') = voice_locked (vp d) /\
       forall r ws, r ∈ list_tops -> r <> t -> linked d (vreg d r) ws -> h ∉ ws -> linked d' (vreg d' r) ws) /\
  (forall t l1 l2, list = 0 -> t ∈ list_tops -> linked d (vreg d t) (l1 ++ antecedent :: l2) ->
     NoDup (l1 ++ antecedent :: l2) -> h ∉ l1 ++ antecedent :: l2 ->
     exists d', vp_write NV1BA0_PIO_VOICE_ON arg d = Ok d' /\ linked d' (vreg d' t) (l1 ++ antecedent :: h :: l2) /\
       active d' h = 1 /\ voice_locked (vp d') = voice_locked (vp d) /\
       forall r ws, r ∈ list_tops -> linked d (vreg d r) ws -> antecedent ∉ ws -> h ∉ ws -> linked d' (vreg d' r) ws).
Proof.
  intros h Hw Hr Harg Hh list antecedent. set (d0 := decoded NV1BA0_PIO_VOICE_ON arg d).
  assert (vp_write NV1BA0_PIO_VOICE_ON arg d = voice_on arg d0) as Hrun by (unfold d0, decoded; rewrite <- (u32_id arg Harg) at 2 3; reflexivity).
  assert (vp_wf d0) as Hw0 by (by apply wf_same with d). pose proof (decoded_ram NV1BA0_PIO_VOICE_ON arg d Hr) as Hr0. fold d0 in Hr0.
  assert (vreg d0 NV_PAPU_FEAV = vreg d NV_PAPU_FEAV) as Hav by (by apply decoded_reg).
  assert (forall r, r ∈ list_tops -> vreg d0 r = vreg d r) as Htops.
  { intros r Hrt. destruct (top_other r Hrt) as (_ & H1 & H2). by apply decoded_reg. }
  rewrite Hrun. split.
  - intros t c n vs Hl Ht Hvs Hnot. pose proof (list_regs_top _ _ _ _ Ht) as Htt.
    assert (linked d0 (vreg d0 t) vs) as Hvs0 by (rewrite Htops by done; by apply decoded_linked).
    destruct (voice_link_top h d0 t c n vs Hr0 Hh) as (d1 & Hlink & Hr1 & _ & Htop & Hregs & Hnext); [by rewrite Hav|by rewrite Hav|done|].
    destruct (voice_on_run arg d0 d1 Hw0 Hh Hlink Hr1) as (d' & Hon & [K1 K2 K3] & Hact & Hlk).
    assert (forall w, is_voice w -> w <> h -> next_of d' w = next_of d0 w) as Hothers.
    { intros w Hvw Hne. rewrite K2, Hnext by done. by rewrite (proj2 (Z.eqb_neq h w)). }
    exists d'. split; [done|]. split; [|split; [done|split; [done|]]].
    + rewrite K3, Htop. split; [done|]. split; [done|]. rewrite K2, Hnext, Z.eqb_refl by done. revert Hvs0. apply linked_keep.
      intros w Hin Hvw. apply Hothers; [done|congruence].
    + intros r ws Hrt Hne Hws Hn2. rewrite K3, Hregs, Htops by done. apply (linked_keep d0); [|by apply decoded_linked].
      intros w Hin Hvw. apply Hothers; [done|congruence].
  - intros t l1 l2 Hl Htt Hvs Hnd Hnot. destruct (linked_split _ _ _ _ _ Hvs) as [Hva _].
    assert (antecedent <> h) as Hne by (intros E; apply Hnot; rewrite <- E; apply elem_of_app; right; apply elem_of_cons; by left).
    destruct (voice_link_after h d0 antecedent Hr0 Hh Hva Hne) as (d1 & Hlink & Hr1 & _ & Hregs & Hnext); [by rewrite Hav|by rewrite Hav|].
    destruct (voice_on_run arg d0 d1 Hw0 Hh Hlink Hr1) as (d' & Hon & [K1 K2 K3] & Hact & Hlk).
    exists d'. split; [done|]. split; [|split; [done|split; [done|]]].
    + rewrite K3, Hregs, Htops by done. apply (linked_insert d0); [done|done| |done|done|by apply decoded_linked].
      intros w Hvw. by rewrite K2, Hnext.
    + intros r ws Hrt Hws Hn1 Hn2. rewrite K3, Hregs, Htops by done. apply (linked_keep d0); [|by apply decoded_linked].
      intros w Hin Hvw. rewrite K2, Hnext, !(proj2 (Z.eqb_neq _ w)) by (done || congruence). done.
Qed.
End Vp.

(** ** Witnesses *)

#[export] Instance plain_filter : VoiceFilter unit := {|
  filter_init := fun x => x; filter_reset := fun x => x; filter_set_target := fun _ x => x;
|}.
Definition vp0 : MCPXAPUVPState unit :=
  mkVP (repeat tt 256) 0 (repeat (mkSSL [0; 0] [0; 0] 0 0) 256) 0 (repeat 0 4) (repeat 0 32) (repeat 0 4) 0
    (repeat (mkHrtf (repeat (repeat 0 31) 2) 0) 128) 0 0 [].
(** Empty memory, with [regs] over empty lists. *)
Definition quiet (regs : mem -> mem) : VpDevice unit :=
  mkVpDevice (mkShared ∅ 0x10000 (regs (wr NV_PAPU_TVL2D 0xFFFF (wr NV_PAPU_TVL3D 0xFFFF (wr NV_PAPU_TVLMP 0xFFFF ∅))))
    MCPX_APU_DEBUG_MON_VP []) vp0 false.
Lemma vp0_wf d : vp d = vp0 -> vp_wf d.
Proof.
  intros E. split; rewrite E; [reflexivity|reflexivity| |reflexivity|reflexivity|reflexivity|reflexivity|reflexivity|].
  - apply Forall_forall. intros x ->%list_elem_of_In%repeat_spec. by split_and!.
  - apply Forall_forall. intros x ->%list_elem_of_In%repeat_spec. split; [reflexivity|]. by repeat constructor.
Qed.
Lemma quiet_ram regs : vreg (quiet regs) NV_PAPU_VPVADDR = 0 -> voices_in_ram (quiet regs).
Proof. intros H0. split; rewrite ?H0; [lia|cbn [dev quiet ram_size]; lia|]. intros a. cbn [dev quiet ram]. by rewrite rd_empty. Qed.

Lemma vp_methods_memory_safe_witness : safe only_asserts vp_wf (vp_write NV1BA0_PIO_VOICE_ON 7 (quiet id)) /\
  exists d1, vp_write NV1BA0_PIO_SET_CURRENT_VOICE (2 ^ 31 + 5) (quiet id) = Ok d1 /\
    vp_write NV1BA0_PIO_SET_VOICE_SSL_A 1 d1 = Fault OutOfBounds.
Proof.
  destruct (vp_methods_memory_safe (quiet id) (vp0_wf (quiet id) eq_refl)) as [H1 H2]. split.
  - apply H1. vm_compute. split; [discriminate|reflexivity].
  - apply H2. vm_compute. split; [discriminate|reflexivity].
Defined.

(** Voice 3 is the only one of the first list. *)
Definition one_voice (feav : Z) : VpDevice unit :=
  voice_set_mask 3 LINK NV_PAVS_VOICE_TAR_PITCH_LINK_NEXT_VOICE_HANDLE 0xFFFF
    (quiet (fun regs => wr NV_PAPU_FEAV feav (wr NV_PAPU_TVL2D 3 regs))).
Lemma one_voice_ram feav : voices_in_ram (one_voice feav).
Proof. apply set_mask_in_ram, quiet_ram. unfold vreg, reg, quiet. cbn [dev apu_regs]. by rewrite !rd_wr_ne by done. Qed.
Lemma voice_on_enters_list_witness :
  (exists d', vp_write NV1BA0_PIO_VOICE_ON 7 (one_voice 0x10000) = Ok d' /\ linked d' (vreg d' NV_PAPU_TVL2D) [7; 3]) /\
  (exists d', vp_write NV1BA0_PIO_VOICE_ON 7 (one_voice 3) = Ok d' /\ linked d' (vreg d' NV_PAPU_TVL2D) [3; 7]).
Proof.
  split.
  - destruct (proj1 (voice_on_enters_list (one_voice 0x10000) 7 (vp0_wf (one_voice 0x10000) eq_refl) (one_voice_ram _) ltac:(done) ltac:(done))
      NV_PAPU_TVL2D NV_PAPU_CVL2D NV_PAPU_NVL2D [3]) as (d' & H1 & H2 & _); [vm_compute; discriminate|reflexivity| | |by exists d'].
    + split; [reflexivity|]. split; [done|]. vm_compute. reflexivity.
    + intros [?|[]%elem_of_nil]%elem_of_cons. discriminate.
  - destruct (proj2 (voice_on_enters_list (one_voice 3) 7 (vp0_wf (one_voice 3) eq_refl) (one_voice_ram _) ltac:(done) ltac:(done))
      NV_PAPU_TVL2D [] []) as (d' & H1 & H2 & _); [reflexivity|by apply elem_of_cons; left| | | |by exists d'].
    + split; [reflexivity|]. split; [done|]. vm_compute. reflexivity.
    + apply NoDup_singleton.
    + intros [?|[]%elem_of_nil]%elem_of_cons. discriminate.
Defined.
