(* ===== verification/VpWork.v ===== *)
(** * The voice processor: frames and workers
    (src/xemu/hw/xbox/mcpx/apu/vp/vp.c)

    Every frame the voice processor walks the three lists of voices, reports those that
    are not active and queues the others.  The queue is dealt to worker threads, each of
    which mixes its voices into 32 bins of its own; the bins of all workers are then
    added.  A multipass voice plays what other voices have mixed into bin 31, so that a
    voice and those that feed it must be with one worker.

    Samples are elements of a commutative monoid: the source adds floating-point
    numbers, where the order of the additions shows in the last bits only. *)

From S2P Require Import Prelude GpEp VpCore.

Definition NV_PAVS_VOICE_CFG_VBIN_V0BIN : Z := Z.shiftl 0x1F 0.
Definition NV_PAVS_VOICE_CFG_VBIN_V1BIN : Z := Z.shiftl 0x1F 5.
Definition NV_PAVS_VOICE_CFG_VBIN_V2BIN : Z := Z.shiftl 0x1F 10.
Definition NV_PAVS_VOICE_CFG_VBIN_V3BIN : Z := Z.shiftl 0x1F 16.
Definition NV_PAVS_VOICE_CFG_VBIN_V4BIN : Z := Z.shiftl 0x1F 21.
Definition NV_PAVS_VOICE_CFG_VBIN_V5BIN : Z := Z.shiftl 0x1F 26.
Definition NV_PAVS_VOICE_CFG_FMT_V6BIN : Z := Z.shiftl 0x1F 0.
Definition NV_PAVS_VOICE_CFG_FMT_V7BIN : Z := Z.shiftl 0x1F 5.
Definition NV_PAVS_VOICE_CFG_FMT_MULTIPASS_BIN : Z := Z.shiftl 0x1F 16.
Definition NV_PAVS_VOICE_CFG_FMT_MULTIPASS : Z := bit 21.
Definition NV_PAVS_VOICE_CFG_FMT_CLEAR_MIX : Z := bit 26.
Definition MULTIPASS_BIN : Z := 31.
Definition MULTIPASS_BIN_MASK : Z := bit MULTIPASS_BIN.

Section Frame.
Context {host : ApuHost} {F : Type} `{!VoiceFilter F}.
Implicit Types d : VpDevice F.

(** ** Walking the lists *)

Definition voice_work_enqueue (v list : Z) d : result (VpDevice F) :=
  _ ← check (Z.of_nat (length (vw_queue (vp d))) <? MCPX_HW_MAX_VOICES) "vwd->queue_len < ARRAY_SIZE(vwd->queue)";
  Ok (d <| vp ::= fun s => s <| vw_queue ::= fun q => q ++ [mkItem v list] |> |>).

(** The body of the loop over a list, [i] rounds after its start. *)
Fixpoint walk_list (fuel : nat) (i list current next : Z) d : result (VpDevice F) :=
  match fuel with
  | O => Fault OutOfFuel
  | S fuel =>
      if vreg d current =? 0xFFFF then Ok d
      else if MCPX_HW_MAX_VOICES <=? i then Ok d
      else
        let v := u16 (vreg d current) in
        let d := set_vreg next (voice_get_mask d v NV_PAVS_VOICE_TAR_PITCH_LINK
                                  NV_PAVS_VOICE_TAR_PITCH_LINK_NEXT_VOICE_HANDLE) d in
        d ← (if voice_get_mask d v NV_PAVS_VOICE_PAR_STATE NV_PAVS_VOICE_PAR_STATE_ACTIVE_VOICE =? 0
             then fe_method SE2FE_IDLE_VOICE v d
             else voice_work_enqueue v list d);
        walk_list fuel (i + 1) list current next (set_vreg current (vreg d next) d)
  end.
Definition vp_frame_lists d : result (VpDevice F) :=
  for_loop 3 0 (fun list d =>
    '(top, current, next) ← fetch voice_list_regs list;
    walk_list 257 0 list current next (set_vreg current (vreg d top) d)) d.

(** ** Dealing the voices *)

Definition voice_bins d (v : Z) : list Z :=
  (if v <? MCPX_HW_MAX_3D_VOICES then hrtf_submix (vp d)
   else [voice_get_mask d v NV_PAVS_VOICE_CFG_VBIN NV_PAVS_VOICE_CFG_VBIN_V0BIN;
         voice_get_mask d v NV_PAVS_VOICE_CFG_VBIN NV_PAVS_VOICE_CFG_VBIN_V1BIN;
         voice_get_mask d v NV_PAVS_VOICE_CFG_VBIN NV_PAVS_VOICE_CFG_VBIN_V2BIN;
         voice_get_mask d v NV_PAVS_VOICE_CFG_VBIN NV_PAVS_VOICE_CFG_VBIN_V3BIN]) ++
  [voice_get_mask d v NV_PAVS_VOICE_CFG_VBIN NV_PAVS_VOICE_CFG_VBIN_V4BIN;
   voice_get_mask d v NV_PAVS_VOICE_CFG_VBIN NV_PAVS_VOICE_CFG_VBIN_V5BIN;
   voice_get_mask d v NV_PAVS_VOICE_CFG_FMT NV_PAVS_VOICE_CFG_FMT_V6BIN;
   voice_get_mask d v NV_PAVS_VOICE_CFG_FMT NV_PAVS_VOICE_CFG_FMT_V7BIN].
Definition is_multipass d (v : Z) : bool := negb (voice_get_mask d v NV_PAVS_VOICE_CFG_FMT NV_PAVS_VOICE_CFG_FMT_MULTIPASS =? 0).
Definition clears_mix d (v : Z) : bool := negb (voice_get_mask d v NV_PAVS_VOICE_CFG_FMT NV_PAVS_VOICE_CFG_FMT_CLEAR_MIX =? 0).
Definition multipass_bin d (v : Z) : Z := voice_get_mask d v NV_PAVS_VOICE_CFG_FMT NV_PAVS_VOICE_CFG_FMT_MULTIPASS_BIN.

(** The multipass voice behind [v] in its list and its bin, or -1; the loop has no bound
    of its own. *)
Fixpoint peek_from (fuel : nat) (first : bool) (v : Z) d : result (Z * Z) :=
  match fuel with
  | O => Fault OutOfFuel
  | S fuel =>
      if v =? 0xFFFF then Ok (-1, 0xFFFF)
      else if is_multipass d v then (if first then Ok (-1, 0xFFFF) else Ok (multipass_bin d v, v))
      else peek_from fuel false (voice_get_mask d v NV_PAVS_VOICE_TAR_PITCH_LINK NV_PAVS_VOICE_TAR_PITCH_LINK_NEXT_VOICE_HANDLE) d
  end.
Definition peek_ahead_multipass_bin (fuel : nat) (v : Z) d : result (Z * Z) := peek_from fuel true v d.

(** The bins a voice reads, adds to and clears. *)
Definition get_voice_bin_src_dst d (v : Z) : Z * Z * Z :=
  let src := if is_multipass d v then bit (multipass_bin d v) else 0 in
  let clr := if is_multipass d v && clears_mix d v then bit (multipass_bin d v) else 0 in
  (src, foldl (fun dst b => Z.lor dst (bit b)) 0 (voice_bins d v), clr).

(** The queues of the workers, the next one to get a voice, whether it is in the middle
    of a multipass group, and the bins in use. *)
Record sched := mkSched { workers : list (list VoiceWorkItem); pending : Z; next_worker : Z; group : bool; dirty : Z }.

Definition schedule_voice d (item : VoiceWorkItem) (s : sched) : result sched :=
  let '(src, dst, clr) := get_voice_bin_src_dst d (voice item) in
  _ ← check ((src =? 0) || (src =? MULTIPASS_BIN_MASK)) "!src || (src == MULTIPASS_BIN_MASK)";
  _ ← check ((src =? 0) || (clr =? MULTIPASS_BIN_MASK)) "!src || (clr == MULTIPASS_BIN_MASK)";
  _ ← check (negb (src =? 0) || has dst MULTIPASS_BIN_MASK || negb (has (dirty s) MULTIPASS_BIN_MASK))
        "src || (dst & MULTIPASS_BIN_MASK) || !(dirty & MULTIPASS_BIN_MASK)";
  let group := has dst MULTIPASS_BIN_MASK && negb (has (dirty s) MULTIPASS_BIN_MASK) || group s in
  q ← fetch (workers s) (next_worker s);
  if MCPX_HW_MAX_VOICES <=? Z.of_nat (length q) then Fault OutOfBounds
  else
    let ws := <[Z.to_nat (next_worker s) := q ++ [item]]> (workers s) in
    let pending := Z.lor (pending s) (bit (next_worker s)) in
    let dirty := Z.lor (Z.ldiff (dirty s) clr) dst in
    let group := if has clr MULTIPASS_BIN_MASK then false else group in
    let next := if group then next_worker s else (next_worker s + 1) mod Z.of_nat (length (workers s)) in
    Ok (mkSched ws pending next group dirty).
Fixpoint schedule_queue d (items : list VoiceWorkItem) (s : sched) : result sched :=
  match items with [] => Ok s | it :: items => s ← schedule_voice d it s; schedule_queue d items s end.
Fixpoint any_locked d (items : list VoiceWorkItem) : result bool :=
  match items with
  | [] => Ok false
  | it :: items => b ← is_voice_locked d (voice it); if b : bool then Ok true else any_locked d items
  end.
Definition any_queued_voice_locked d : result bool := any_locked d (vw_queue (vp d)).
End Frame.

(** ** Mixing *)

Class Samples (S : Type) := { mzero : S; madd : S -> S -> S }.
Class SamplesLaws (S : Type) `{!Samples S} := {
  madd_comm : forall x y : S, madd x y = madd y x;
  madd_assoc : forall x y z : S, madd x (madd y z) = madd (madd x y) z;
  madd_zero : forall x : S, madd x mzero = x;
}.
(** What a voice gives to its eight outputs this frame, from samples of its own or from
    those of the multipass bin, after resampling, envelope, filters and volume; nothing
    if it has ended or is muted. *)
Class VoicePlay (S : Type) := voice_output : Z -> option S -> option (list S).

Section Mix.
Context {host : ApuHost} {F : Type} `{!VoiceFilter F} {S : Type} `{!Samples S, !VoicePlay S}.
Implicit Types (d : VpDevice F) (bins : Z -> S) (q : list VoiceWorkItem).

Definition no_sound : Z -> S := fun _ => mzero.
Definition add_bin (b : Z) (x : S) bins : Z -> S := fun b' => if b' =? b then madd (bins b) x else bins b'.
Definition mix_outputs (bs : list Z) (xs : list S) bins : Z -> S := foldl (fun bins '(b, x) => add_bin b x bins) bins (zip bs xs).

(** [get_multipass_samples]: the input and the bins after it. *)
Definition get_multipass_samples d (v : Z) bins : S * (Z -> S) :=
  let mp := multipass_bin d v in
  (bins mp, if clears_mix d v then fun b => if b =? mp then mzero else bins b else bins).
Definition voice_paused d (v : Z) : bool := negb (voice_get_mask d v NV_PAVS_VOICE_PAR_STATE NV_PAVS_VOICE_PAR_STATE_PAUSED =? 0).
(** The mixing of [voice_process]. *)
Definition voice_process d (v : Z) bins : Z -> S :=
  if voice_paused d v then bins
  else
    let '(input, bins) :=
      if is_multipass d v then let '(x, bins) := get_multipass_samples d v bins in (Some x, bins) else (None, bins) in
    match voice_output v input with
    | None => bins
    | Some xs => mix_outputs (voice_bins d v) xs bins
    end.

Definition mix_queue d q bins : Z -> S := foldl (fun bins it => voice_process d (voice it) bins) bins q.
Definition add_bins (f g : Z -> S) : Z -> S := fun b => madd (f b) (g b).
Context `{!SamplesLaws S}.

Lemma zero_madd (x : S) : madd mzero x = x.
Proof. by rewrite madd_comm, madd_zero. Qed.
Lemma mix_outputs_add bs xs : forall bins b, mix_outputs bs xs bins b = madd (bins b) (mix_outputs bs xs no_sound b).
Proof.
  revert xs. induction bs as [|c bs IH]; intros xs bins b; [symmetry; apply madd_zero|].
  destruct xs as [|x xs]; [symmetry; apply madd_zero|]. change (mix_outputs bs xs (add_bin c x bins) b =
    madd (bins b) (mix_outputs bs xs (add_bin c x no_sound) b)).
  rewrite IH, (IH xs (add_bin c x no_sound)), madd_assoc. f_equal. unfold add_bin. destruct (Z.eqb_spec b c) as [->|].
  - unfold no_sound. by rewrite zero_madd.
  - symmetry. apply madd_zero.
Qed.
Lemma mix_outputs_none bs xs b : b ∉ bs -> mix_outputs bs xs no_sound b = mzero.
Proof.
  revert xs. induction bs as [|c bs IH]; intros xs; [done|]. intros [Hc Hb]%not_elem_of_cons. destruct xs as [|x xs]; [done|].
  change (mix_outputs bs xs (add_bin c x no_sound) b = mzero). rewrite mix_outputs_add, IH by done.
  unfold add_bin. rewrite (proj2 (Z.eqb_neq b c)) by done. apply madd_zero.
Qed.

(** What a voice adds, given its input. *)
Definition contribution d (v : Z) (input : option S) (b : Z) : S :=
  match voice_output v input with None => mzero | Some xs => mix_outputs (voice_bins d v) xs no_sound b end.
Lemma contribution_none d v input b : b ∉ voice_bins d v -> contribution d v input b = mzero.
Proof. intros Hb. unfold contribution. destruct (voice_output v input); [by apply mix_outputs_none|done]. Qed.
Lemma process_single d v bins b : is_multipass d v = false ->
  voice_process d v bins b = madd (bins b) (if voice_paused d v then mzero else contribution d v None b).
Proof.
  intros Hm. unfold voice_process, contribution. rewrite Hm. destruct (voice_paused d v); [by rewrite madd_zero|].
  destruct (voice_output v None); [apply mix_outputs_add|by rewrite madd_zero].
Qed.
Lemma process_multi d v bins b : is_multipass d v = true -> clears_mix d v = true -> voice_paused d v = false ->
  voice_process d v bins b =
    madd (if b =? multipass_bin d v then mzero else bins b) (contribution d v (Some (bins (multipass_bin d v))) b).
Proof.
  intros Hm Hc Hp. unfold voice_process, contribution, get_multipass_samples. rewrite Hm, Hc, Hp.
  destruct (voice_output v _); [apply mix_outputs_add|by rewrite madd_zero].
Qed.

(** ** Sums over workers *)

Definition msum (l : list S) : S := foldr madd mzero l.
Lemma msum_perm l l' : Permutation l l' -> msum l = msum l'.
Proof.
  unfold msum. induction 1 as [|x l l' _ IH|x y l|l1 l2 l3 _ IH1 _ IH2]; cbn [foldr]; [done|by rewrite IH| |by rewrite IH1].
  by rewrite !madd_assoc, (madd_comm y x).
Qed.
Lemma msum_insert {A} (f : A -> S) (c : S) : forall l i x y, l !! i = Some x -> f y = madd (f x) c ->
  msum (map f (<[i := y]> l)) = madd (msum (map f l)) c.
Proof.
  unfold msum. induction l as [|a l IH]; intros i x y; [done|]. destruct i as [|i]; cbn.
  - intros [= ->] ->. by rewrite <- !madd_assoc, (madd_comm c).
  - intros Hl Hf. rewrite <- madd_assoc. f_equal. exact (IH i x y Hl Hf).
Qed.
Lemma msum_zero {A} (f : A -> S) l : (forall x, x ∈ l -> f x = mzero) -> msum (map f l) = mzero.
Proof.
  unfold msum. induction l as [|x l IH]; intros Hf; [done|]. cbn [map foldr]. rewrite Hf by (apply elem_of_cons; by left).
  rewrite IH by (intros y Hy; apply Hf, elem_of_cons; by right). apply madd_zero.
Qed.
Lemma msum_one {A} (f : A -> S) : forall l i x, l !! i = Some x -> (forall j y, j <> i -> l !! j = Some y -> f y = mzero) ->
  msum (map f l) = f x.
Proof.
  induction l as [|a l IH]; intros i x Hi Hz; [done|]. destruct i as [|i]; cbn in *.
  - injection Hi as ->. fold (msum (map f l)). rewrite msum_zero, madd_zero; [done|]. intros y [j Hj]%list_elem_of_lookup.
    by apply (Hz (Datatypes.S j)).
  - rewrite (Hz 0%nat a) by done. rewrite zero_madd. fold (msum (map f l)). apply (IH i x Hi). intros j y Hj Hy.
    apply (Hz (Datatypes.S j)); [congruence|done].
Qed.
(** ** Workers mix what one thread would *)

(** The sound one thread would have mixed, against the workers' queues: bin 31 is with
    the worker of the group, and empty between groups. *)
Record mixed d (bins : Z -> S) (s : sched) : Prop := {
  mx_next : 0 <= next_worker s < Z.of_nat (length (workers s));
  mx_group : group s = has (dirty s) MULTIPASS_BIN_MASK;
  mx_sum : forall b, b <> MULTIPASS_BIN -> bins b = msum (map (fun q => mix_queue d q no_sound b) (workers s));
  mx_bin : forall i q, workers s !! i = Some q -> i <> Z.to_nat (next_worker s) \/ group s = false ->
    mix_queue d q no_sound MULTIPASS_BIN = mzero;
  mx_input : forall q, workers s !! Z.to_nat (next_worker s) = Some q -> bins MULTIPASS_BIN = mix_queue d q no_sound MULTIPASS_BIN;
}.

Lemma dst_fold l : forall a, Z.testbit a MULTIPASS_BIN = true \/ MULTIPASS_BIN ∈ l ->
  Z.testbit (foldl (fun dst b => Z.lor dst (bit b)) a l) MULTIPASS_BIN = true.
Proof.
  induction l as [|b l IH]; intros a; cbn [foldl]; [by intros [?|?%elem_of_nil]|].
  intros [Ha|[<-|Hl]%elem_of_cons]; apply IH; [left|left|by right]; rewrite Z.lor_spec.
  - by rewrite Ha.
  - apply orb_true_iff. by right.
Qed.
Definition dst_of d (v : Z) : Z := foldl (fun dst b => Z.lor dst (bit b)) 0 (voice_bins d v).
Lemma bins_of d v : get_voice_bin_src_dst d v =
  (if is_multipass d v then bit (multipass_bin d v) else 0, dst_of d v,
   if is_multipass d v && clears_mix d v then bit (multipass_bin d v) else 0).
Proof. reflexivity. Qed.
Lemma dst_has d v : has (dst_of d v) MULTIPASS_BIN_MASK = false -> MULTIPASS_BIN ∉ voice_bins d v.
Proof.
  unfold MULTIPASS_BIN_MASK. rewrite has_bit by done. unfold dst_of. generalize (voice_bins d v). intros l Hb Hin.
  rewrite dst_fold in Hb; [discriminate Hb|by right].
Qed.
Lemma dst_has_not d v : MULTIPASS_BIN ∉ voice_bins d v -> Forall (fun b => 0 <= b) (voice_bins d v) ->
  has (dst_of d v) MULTIPASS_BIN_MASK = false.
Proof.
  unfold MULTIPASS_BIN_MASK. rewrite has_bit by done. unfold dst_of. generalize (voice_bins d v). intros l Hl Hpos.
  assert (forall a, Z.testbit a MULTIPASS_BIN = false -> Z.testbit (foldl (fun dst b => Z.lor dst (bit b)) a l) MULTIPASS_BIN = false) as H; [|by apply H].
  induction Hpos as [|b l Hb Hpos IH]; intros a Ha; cbn [foldl]; [exact Ha|]. apply not_elem_of_cons in Hl as [Hne Hl].
  apply IH; [exact Hl|]. rewrite Z.lor_spec, Ha. cbn [orb]. rewrite Z.shiftl_1_l. apply Z.pow2_bits_false. congruence.
Qed.

Lemma schedule_inv d it s s' src dst clr : get_voice_bin_src_dst d (voice it) = (src, dst, clr) -> schedule_voice d it s = Ok s' ->
  (src = 0 \/ src = MULTIPASS_BIN_MASK /\ clr = MULTIPASS_BIN_MASK) /\
  (src <> 0 \/ has dst MULTIPASS_BIN_MASK = true \/ has (dirty s) MULTIPASS_BIN_MASK = false) /\
  exists q, workers s !! Z.to_nat (next_worker s) = Some q /\ 0 <= next_worker s /\
    let g := if has clr MULTIPASS_BIN_MASK then false
             else has dst MULTIPASS_BIN_MASK && negb (has (dirty s) MULTIPASS_BIN_MASK) || group s in
    s' = mkSched (<[Z.to_nat (next_worker s) := q ++ [it]]> (workers s)) (Z.lor (pending s) (bit (next_worker s)))
           (if g then next_worker s else (next_worker s + 1) mod Z.of_nat (length (workers s))) g
           (Z.lor (Z.ldiff (dirty s) clr) dst).
Proof.
  intros Hb. unfold schedule_voice, check. rewrite Hb. clear Hb.
  destruct ((src =? 0) || (src =? MULTIPASS_BIN_MASK)) eqn:E1; [|intros H; discriminate H]. cbn [mbind result_mbind result_bind].
  destruct ((src =? 0) || (clr =? MULTIPASS_BIN_MASK)) eqn:E2; [|intros H; discriminate H]. cbn [mbind result_mbind result_bind].
  destruct (negb (src =? 0) || has dst MULTIPASS_BIN_MASK || negb (has (dirty s) MULTIPASS_BIN_MASK)) eqn:E3; [|intros H; discriminate H]. cbn [mbind result_mbind result_bind].
  unfold fetch. destruct (Z.ltb_spec (next_worker s) 0); [intros H'; discriminate H'|].
  destruct (workers s !! Z.to_nat (next_worker s)) as [q|]; [|intros H'; discriminate H']. cbn [mbind result_mbind result_bind].
  destruct (MCPX_HW_MAX_VOICES <=? Z.of_nat (length q)); intros H'; [discriminate H'|]. injection H' as <-.
  split; [lia|]. split.
  - destruct (Z.eqb_spec src 0); [|by left]. destruct (has dst _); [by right; left|]. destruct (has (dirty s) _); [discriminate E3|by right; right].
  - exists q. split; [reflexivity|]. split; [done|]. reflexivity.
Qed.

Lemma mix_queue_snoc d q it bins : mix_queue d (q ++ [it]) bins = voice_process d (voice it) (mix_queue d q bins).
Proof. unfold mix_queue. by rewrite foldl_app. Qed.
Lemma next_range s (g : bool) : 0 <= next_worker s < Z.of_nat (length (workers s)) ->
  0 <= (if g then next_worker s else (next_worker s + 1) mod Z.of_nat (length (workers s))) < Z.of_nat (length (workers s)).
Proof. intros Hn. destruct g; [done|]. apply Z.mod_pos_bound. lia. Qed.
Lemma dirty_bit a clr dst : has (Z.lor (Z.ldiff a clr) dst) MULTIPASS_BIN_MASK =
  has a MULTIPASS_BIN_MASK && negb (has clr MULTIPASS_BIN_MASK) || has dst MULTIPASS_BIN_MASK.
Proof. unfold MULTIPASS_BIN_MASK. rewrite !has_bit by done. by rewrite Z.lor_spec, Z.ldiff_spec. Qed.

(** A voice of a multipass group plays its bin on and leaves it empty. *)
Definition plays_ok d (v : Z) : Prop := is_multipass d v = true ->
  voice_paused d v = false /\ (MULTIPASS_BIN ∉ voice_bins d v) /\ Forall (fun b => 0 <= b) (voice_bins d v).

Lemma sched_single d it s s' bins : is_multipass d (voice it) = false -> mixed d bins s -> schedule_voice d it s = Ok s' ->
  mixed d (voice_process d (voice it) bins) s'.
Proof.
  intros Hm Hx Hrun. pose proof (bins_of d (voice it)) as Hb. rewrite Hm in Hb. cbn [andb] in Hb.
  destruct (schedule_inv d it s s' _ _ _ Hb Hrun) as (_ & Hcheck & q & Hq & _ & ->). clear Hb Hrun.
  set (dst := dst_of d (voice it)) in *. change (has 0 MULTIPASS_BIN_MASK) with false. cbv iota zeta.
  set (c := fun b => if voice_paused d (voice it) then mzero else contribution d (voice it) None b).
  assert (forall B b, voice_process d (voice it) B b = madd (B b) (c b)) as Hp by (intros B b; by apply process_single).
  assert (forall b, mix_queue d (q ++ [it]) no_sound b = madd (mix_queue d q no_sound b) (c b)) as Hq'
    by (intros b; rewrite mix_queue_snoc; apply Hp).
  destruct Hx as [Hn Hg Hsum Hbin Hin]. assert (Z.to_nat (next_worker s) < length (workers s))%nat as Hlt by lia.
  assert (has dst MULTIPASS_BIN_MASK = false -> c MULTIPASS_BIN = mzero /\ group s = false) as Hout.
  { intros Hd. split; [unfold c; destruct (voice_paused d (voice it)); [done|]; by apply contribution_none, dst_has|].
    rewrite Hg. by destruct Hcheck as [[]|[?|?]]; [|congruence|]. }
  clearbody dst c. constructor; cbn [next_worker workers group dirty]; rewrite ?length_insert.
  - by apply next_range.
  - rewrite dirty_bit, Hg. change (has 0 MULTIPASS_BIN_MASK) with false. by destruct (has dst _), (has (dirty s) _).
  - intros b Hne. rewrite Hp, Hsum by done. symmetry. by apply (msum_insert _ _ _ _ q).
  - intros i q1 Hi Hor. destruct (decide (i = Z.to_nat (next_worker s))) as [->|Hni].
    + rewrite list_lookup_insert_eq in Hi by done. injection Hi as <-. destruct (has dst MULTIPASS_BIN_MASK) eqn:Hd.
      * exfalso. destruct Hor as [Hne|Hgf].
        -- revert Hne. rewrite Hg. by destruct (has (dirty s) _).
        -- revert Hgf. rewrite Hg. by destruct (has (dirty s) _).
      * destruct (Hout eq_refl) as [Hc Hgs]. rewrite Hq', Hc, madd_zero. apply (Hbin _ _ Hq). by right.
    + rewrite list_lookup_insert_ne in Hi by congruence. apply (Hbin _ _ Hi). by left.
  - intros q1 Hi. rewrite Hp. destruct (has dst MULTIPASS_BIN_MASK) eqn:Hd.
    + assert (true && negb (has (dirty s) MULTIPASS_BIN_MASK) || group s = true) as E by (rewrite Hg; by destruct (has (dirty s) _)).
      rewrite E in Hi. rewrite list_lookup_insert_eq in Hi by done. injection Hi as <-. by rewrite Hq', (Hin q Hq).
    + destruct (Hout eq_refl) as [Hc Hgs]. rewrite Hc, madd_zero, (Hin q Hq), (Hbin _ _ Hq (or_intror Hgs)).
      rewrite list_lookup_insert in Hi. case_decide; [injection Hi as <-; by rewrite Hq', Hc, madd_zero, (Hbin _ _ Hq (or_intror Hgs))|].
      symmetry. apply (Hbin _ _ Hi). by right.
Qed.

Lemma bit_inj j k : 0 <= j -> 0 <= k -> bit j = bit k -> j = k.
Proof. intros Hj Hk. rewrite !Z.shiftl_1_l. apply Z.pow_inj_r; lia. Qed.
Lemma sched_multi d it s s' bins : is_multipass d (voice it) = true -> plays_ok d (voice it) -> mixed d bins s ->
  schedule_voice d it s = Ok s' -> mixed d (voice_process d (voice it) bins) s'.
Proof.
  intros Hm Hplay Hx Hrun. destruct (Hplay Hm) as (Hpause & Hnot & Hpos).
  pose proof (bins_of d (voice it)) as Hb. rewrite Hm in Hb. cbn [andb] in Hb.
  destruct (schedule_inv d it s s' _ _ _ Hb Hrun) as (Hsrc & _ & q & Hq & _ & ->). clear Hb Hrun.
  assert (0 <= multipass_bin d (voice it)) as Hmp0.
  { exact (proj1 (GET_MASK_range _ NV_PAVS_VOICE_CFG_FMT_MULTIPASS_BIN 16 5 ltac:(by split_and!))). }
  assert (0 < bit (multipass_bin d (voice it))) as Hbp by (rewrite Z.shiftl_1_l; apply Z.pow_pos_nonneg; lia).
  destruct Hsrc as [Hsrc|[Hsrc Hclr]]; [lia|].
  assert (clears_mix d (voice it) = true) as Hc by (destruct (clears_mix d (voice it)); [done|discriminate Hclr]).
  apply bit_inj in Hsrc; [|done|done]. rewrite Hclr. change (has MULTIPASS_BIN_MASK MULTIPASS_BIN_MASK) with true. cbv iota zeta.
  pose proof (dst_has_not d (voice it) Hnot Hpos) as Hdst. set (dst := dst_of d (voice it)) in *.
  destruct Hx as [Hn Hg Hsum Hbin Hin].
  set (c := contribution d (voice it) (Some (bins MULTIPASS_BIN))).
  assert (c MULTIPASS_BIN = mzero) as Hc31 by (by apply contribution_none).
  assert (forall B b, B MULTIPASS_BIN = bins MULTIPASS_BIN ->
    voice_process d (voice it) B b = madd (if b =? MULTIPASS_BIN then mzero else B b) (c b)) as Hp.
  { intros B b HB. rewrite process_multi by done. rewrite Hsrc. unfold c. by rewrite HB. }
  assert (forall b, mix_queue d (q ++ [it]) no_sound b =
    madd (if b =? MULTIPASS_BIN then mzero else mix_queue d q no_sound b) (c b)) as Hq'.
  { intros b. rewrite mix_queue_snoc. apply Hp. symmetry. by apply Hin. }
  clearbody dst c. assert (Z.to_nat (next_worker s) < length (workers s))%nat as Hlt by lia.
  assert (forall i q1, <[Z.to_nat (next_worker s) := q ++ [it]]> (workers s) !! i = Some q1 ->
    mix_queue d q1 no_sound MULTIPASS_BIN = mzero) as Hall.
  { intros i q1. rewrite list_lookup_insert. case_decide as Hi; [|intros Hl; apply (Hbin _ _ Hl); left; intros ->; by apply Hi].
    intros [= <-]. by rewrite Hq', Z.eqb_refl, Hc31, madd_zero. }
  constructor; cbn [next_worker workers group dirty]; rewrite ?length_insert.
  - apply (next_range s false). done.
  - rewrite dirty_bit, Hdst. change (has MULTIPASS_BIN_MASK MULTIPASS_BIN_MASK) with true. by rewrite andb_false_r.
  - intros b Hne. rewrite Hp, (proj2 (Z.eqb_neq b _) Hne), Hsum by done. symmetry. apply (msum_insert _ _ _ _ q); [done|].
    by rewrite Hq', (proj2 (Z.eqb_neq b _) Hne).
  - intros i q1 Hi _. by apply (Hall i).
  - intros q1 Hi. rewrite Hp, Z.eqb_refl, Hc31, madd_zero by done. symmetry. by apply (Hall _ _ Hi).
Qed.

Lemma schedule_mixed d items : Forall (fun it => plays_ok d (voice it)) items -> forall s s' bins, mixed d bins s ->
  schedule_queue d items s = Ok s' -> mixed d (mix_queue d items bins) s'.
Proof.
  induction 1 as [|it items Hit _ IH]; intros s s' bins Hx; cbn [schedule_queue]; [by intros [= <-]|].
  destruct (schedule_voice d it s) as [s1|] eqn:E; [|discriminate 1]. cbn [mbind result_mbind result_bind].
  apply IH. destruct (is_multipass d (voice it)) eqn:Hm; [by apply (sched_multi d it s)|by apply (sched_single d it s)].
Qed.

(** The queues of the workers together give what the whole queue gives in one thread,
    provided that its multipass voices are not paused and do not feed the multipass bin
    themselves. *)
Lemma dealt_mix d n queue pending s : (0 < n)%nat -> Forall (fun it => plays_ok d (voice it)) queue ->
  schedule_queue d queue (mkSched (repeat [] n) pending 0 false 0) = Ok s ->
  forall b, msum (map (fun q => mix_queue d q no_sound b) (workers s)) = mix_queue d queue no_sound b.
Proof.
  intros Hn Hq Hrun b.
  assert (forall i q, repeat (@nil VoiceWorkItem) n !! i = Some q -> q = []) as Hempty.
  { intros i q Hl. apply list_elem_of_lookup_2, list_elem_of_In in Hl. by apply repeat_spec in Hl. }
  assert (mixed d no_sound (mkSched (repeat [] n) pending 0 false 0)) as H0.
  { constructor; cbn [next_worker workers group dirty]; rewrite ?repeat_length; [lia|done| | |].
    - intros c _. rewrite msum_zero; [done|]. intros q Hin. apply list_elem_of_In, repeat_spec in Hin as ->. done.
    - intros i q Hl _. by rewrite (Hempty i q Hl).
    - intros q Hl. by rewrite (Hempty _ q Hl). }
  destruct (schedule_mixed d queue Hq _ s no_sound H0 Hrun) as [Hnx _ Hsum Hbin Hin].
  destruct (decide (b = MULTIPASS_BIN)) as [->|Hne]; [|symmetry; by apply Hsum].
  destruct (lookup_lt_is_Some_2 (workers s) (Z.to_nat (next_worker s))) as [q Hl]; [lia|].
  rewrite (Hin q Hl). apply (msum_one (fun q => mix_queue d q no_sound MULTIPASS_BIN) _ _ _ Hl). intros j y Hj Hy. apply (Hbin _ _ Hy). by left.
Qed.
End Mix.

(** ** A frame queues the active voices *)

Section Walk.
Context {host : ApuHost} {F : Type} `{!VoiceFilter F}.
Implicit Types d : VpDevice F.

(** The registers a walk changes. *)
Definition walk_regs : list Z :=
  [NV_PAPU_CVL2D; NV_PAPU_NVL2D; NV_PAPU_CVL3D; NV_PAPU_NVL3D; NV_PAPU_CVLMP; NV_PAPU_NVLMP;
   NV_PAPU_FEDECMETH; NV_PAPU_FEDECPARAM; NV_PAPU_FECTL].
Definition is_walk_reg (a : Z) : bool := existsb (Z.eqb a) walk_regs.
Record walked d d' : Prop := {
  wk_ram : ram (dev d') = ram (dev d) /\ ram_size (dev d') = ram_size (dev d);
  wk_regs : forall a, is_walk_reg a = false -> vreg d' a = vreg d a;
}.
Lemma walked_refl d : walked d d.
Proof. by constructor. Qed.
Lemma walked_trans d1 d2 d3 : walked d1 d2 -> walked d2 d3 -> walked d1 d3.
Proof.
  intros [[Ha Hb] Hr] [[Hc Hd] Hr']. constructor; [by rewrite Hc, Hd|]. intros a Hw. by rewrite Hr', Hr.
Qed.
Lemma walked_set a x d : is_walk_reg a = true -> walked d (set_vreg a x d).
Proof. intros Ha. constructor; [done|]. intros b Hb. apply vreg_set_ne. congruence. Qed.
Lemma walked_word d d' v off : walked d d' -> vword d' v off = vword d v off.
Proof.
  intros [[Ha Hb] Hr]. unfold vword, voice_addr, ldl, ldl_le_phys. by rewrite Ha, Hb, Hr.
Qed.
Lemma walked_mask d d' v off mask : walked d d' -> voice_get_mask d' v off mask = voice_get_mask d v off mask.
Proof. intros Hk. unfold voice_get_mask. fold (vword d' v off) (vword d v off). by rewrite (walked_word d d'). Qed.
Lemma walked_linked d d' h vs : walked d d' -> linked d h vs -> linked d' h vs.
Proof. intros Hk. apply linked_keep. intros v _ _. by apply walked_mask. Qed.
Lemma walked_active d d' v : walked d d' -> active d' v = active d v.
Proof. apply walked_mask. Qed.

Definition traps d : bool := has (vreg d NV_PAPU_FETFORCE1) NV_PAPU_FETFORCE1_SE2FE_IDLE_VOICE.
Definition playing d (v : Z) : bool := negb (active d v =? 0).

(** One voice of a list. *)
Lemma idle_reported v d : traps d = true ->
  exists d', fe_method SE2FE_IDLE_VOICE v d = Ok d' /\ walked d d' /\ vp d' = vp d /\
    forall a, a <> NV_PAPU_FEDECMETH -> a <> NV_PAPU_FEDECPARAM -> a <> NV_PAPU_FECTL -> vreg d' a = vreg d a.
Proof.
  intros Ht. change (fe_method SE2FE_IDLE_VOICE v d) with (idle_voice (decoded SE2FE_IDLE_VOICE v d)). unfold idle_voice.
  assert (vreg (decoded SE2FE_IDLE_VOICE v d) NV_PAPU_FETFORCE1 = vreg d NV_PAPU_FETFORCE1) as -> by (by apply decoded_reg).
  unfold traps in Ht. rewrite Ht. eexists. split; [reflexivity|].
  assert (forall a x e, walked e (set_vreg a x e <| set_irq := true |>) <-> walked e (set_vreg a x e)) as Hirq.
  { intros a x e. split; intros [H1 H2]; by constructor. }
  split; [|split; [reflexivity|]].
  - eapply walked_trans; [by apply (walked_set NV_PAPU_FEDECMETH SE2FE_IDLE_VOICE)|].
    eapply walked_trans; [by apply (walked_set NV_PAPU_FEDECPARAM v)|]. apply Hirq. by apply walked_set.
  - intros a H1 H2 H3. etransitivity; [exact (vreg_set_ne NV_PAPU_FECTL _ (decoded SE2FE_IDLE_VOICE v d) a H3)|]. by apply decoded_reg.
Qed.
Lemma enqueue_ok v l d : (length (vw_queue (vp d)) < 256)%nat ->
  exists d', voice_work_enqueue v l d = Ok d' /\ dev d' = dev d /\ vw_queue (vp d') = vw_queue (vp d) ++ [mkItem v l].
Proof.
  intros Hl. unfold voice_work_enqueue, check. rewrite (proj2 (Z.ltb_lt _ _)) by (unfold MCPX_HW_MAX_VOICES; lia).
  cbn [mbind result_mbind result_bind]. by eexists.
Qed.

(** The current and next registers of a list. *)
Record list_regs (current next : Z) : Prop := {
  lr_cur : is_walk_reg current = true; lr_next : is_walk_reg next = true; lr_ne : next <> current;
  lr_meth : next <> NV_PAPU_FEDECMETH /\ next <> NV_PAPU_FEDECPARAM /\ next <> NV_PAPU_FECTL;
}.

Definition items_of d (l : Z) (vs : list Z) : list VoiceWorkItem := map (fun v => mkItem v l) (List.filter (playing d) vs).
Lemma items_walked d d' l vs : walked d d' -> items_of d' l vs = items_of d l vs.
Proof.
  intros Hk. unfold items_of. f_equal. apply filter_ext. intros v. unfold playing. by rewrite (walked_active d d').
Qed.

Lemma visit_voice l next v d : is_voice v -> is_walk_reg next = true ->
  (playing d v = false -> traps d = true) ->
  (playing d v = true -> (length (vw_queue (vp d)) < 256)%nat) ->
  next <> NV_PAPU_FEDECMETH /\ next <> NV_PAPU_FEDECPARAM /\ next <> NV_PAPU_FECTL ->
  let d1 := set_vreg next (next_of d v) d in
  exists d', (if voice_get_mask d1 v NV_PAVS_VOICE_PAR_STATE NV_PAVS_VOICE_PAR_STATE_ACTIVE_VOICE =? 0
              then fe_method SE2FE_IDLE_VOICE v d1 else voice_work_enqueue v l d1) = Ok d' /\
    walked d d' /\ vw_queue (vp d') = vw_queue (vp d) ++ items_of d l [v] /\ vreg d' next = next_of d v.
Proof.
  intros Hv Hn Htr Hlen (Hn1 & Hn2 & Hn3) d1. assert (walked d d1) as K1 by (by apply walked_set).
  change (voice_get_mask d1 v _ _) with (active d1 v). rewrite (walked_active d d1) by done. unfold items_of. cbn [List.filter].
  unfold playing in *. destruct (active d v =? 0).
  - destruct (idle_reported v d1) as (d' & Hd' & K & Hvp & Hregs).
    { unfold traps. rewrite (wk_regs _ _ K1) by done. by apply Htr. }
    exists d'. split; [done|]. split; [by eapply walked_trans|]. split; [rewrite Hvp; cbn; by rewrite app_nil_r|].
    rewrite Hregs by done. apply vreg_set_eq.
  - destruct (enqueue_ok v l d1) as (d' & Hd' & Hdev & Hq); [by apply Hlen|]. exists d'. split; [done|].
    split; [|split; [done|]].
    + eapply walked_trans; [exact K1|]. constructor; unfold vreg; by rewrite Hdev.
    + unfold vreg. rewrite Hdev. apply vreg_set_eq.
Qed.

Lemma walk_linked l current next : list_regs current next -> forall vs fuel i d,
  linked d (vreg d current) vs -> i + Z.of_nat (length vs) <= 256 -> (length vs < fuel)%nat ->
  (forall v, v ∈ vs -> playing d v = false -> traps d = true) ->
  (length (vw_queue (vp d)) + length (items_of d l vs) <= 256)%nat ->
  exists d', walk_list fuel i l current next d = Ok d' /\ walked d d' /\
    vw_queue (vp d') = vw_queue (vp d) ++ items_of d l vs /\ vreg d' current = 0xFFFF.
Proof.
  intros Hlr. induction vs as [|v vs IH]; intros fuel i d Hvs Hi Hf Htr Hq; (destruct fuel as [|fuel]; [cbn in Hf; lia|]); cbn [walk_list].
  - cbn in Hvs. rewrite Hvs. exists d. rewrite app_nil_r. split; [done|]. split; [apply walked_refl|]. done.
  - destruct Hvs as (Hcur & Hv & Hvs). rewrite Hcur. cbn [length] in Hi, Hf. unfold is_voice in Hv.
    rewrite (proj2 (Z.eqb_neq v 0xFFFF)) by lia. rewrite (proj2 (Z.leb_gt MCPX_HW_MAX_VOICES i)) by (unfold MCPX_HW_MAX_VOICES; lia).
    rewrite (u16_id v) by (unfold is_u16; lia).
    assert (items_of d l (v :: vs) = items_of d l [v] ++ items_of d l vs) as Hsplit.
    { unfold items_of. cbn [List.filter]. by destruct (playing d v). }
    rewrite Hsplit, length_app in Hq.
    destruct (visit_voice l next v d Hv (lr_next _ _ Hlr)) as (d1 & Hrun & K1 & Hq1 & Hn1).
    { intros Hp. apply (Htr v); [apply elem_of_cons; by left|done]. }
    { intros Hp. unfold items_of in Hq at 1. cbn [List.filter] in Hq. rewrite Hp in Hq. cbn [map length] in Hq. lia. }
    { apply Hlr. }
    change (voice_get_mask d v NV_PAVS_VOICE_TAR_PITCH_LINK NV_PAVS_VOICE_TAR_PITCH_LINK_NEXT_VOICE_HANDLE) with (next_of d v).
    rewrite Hrun. cbn [mbind result_mbind result_bind]. rewrite Hn1. set (d2 := set_vreg current (next_of d v) d1).
    assert (walked d d2) as K2 by (eapply walked_trans; [exact K1|apply walked_set, Hlr]).
    destruct (IH fuel (i + 1) d2) as (d' & Hw & K' & Hq' & Hc'); [|lia|lia| | |].
    + unfold d2. rewrite vreg_set_eq. by apply (walked_linked d).
    + intros w Hw Hp. unfold traps. rewrite (wk_regs _ _ K2) by done. apply (Htr w); [apply elem_of_cons; by right|].
      unfold playing in *. by rewrite (walked_active d d2) in Hp.
    + change (vp d2) with (vp d1). rewrite Hq1, length_app, (items_walked d d2) by done. lia.
    + exists d'. split; [done|]. split; [by eapply walked_trans|]. split; [|done].
      rewrite Hq'. change (vp d2) with (vp d1). rewrite Hq1, (items_walked d d2), Hsplit, app_assoc by done. done.
Qed.

Lemma nodup_voices vs : NoDup vs -> Forall is_voice vs -> (length vs <= 256)%nat.
Proof.
  intros Hnd Hv. transitivity (length (map Z.of_nat (seq 0 256))); [|by rewrite length_map, length_seq].
  apply NoDup_incl_length; [by apply NoDup_ListNoDup|]. intros v Hin. apply list_elem_of_In in Hin.
  rewrite Forall_forall in Hv. specialize (Hv v Hin). unfold is_voice in Hv. apply in_map_iff. exists (Z.to_nat v).
  split; [lia|]. apply in_seq. lia.
Qed.
Lemma items_length d l vs : (length (items_of d l vs) <= length vs)%nat.
Proof. unfold items_of. rewrite length_map. apply filter_length_le. Qed.

Lemma walk_top l t c n d vs : list_regs c n -> linked d (vreg d t) vs -> (length vs <= 256)%nat ->
  (forall v, v ∈ vs -> playing d v = false -> traps d = true) ->
  (length (vw_queue (vp d)) + length vs <= 256)%nat ->
  exists d', walk_list 257 0 l c n (set_vreg c (vreg d t) d) = Ok d' /\ walked d d' /\
    vw_queue (vp d') = vw_queue (vp d) ++ items_of d l vs.
Proof.
  intros Hlr Hvs Hlen Htr Hq. set (d1 := set_vreg c (vreg d t) d).
  assert (walked d d1) as K1 by (apply walked_set, Hlr). pose proof (items_length d l vs).
  destruct (walk_linked l c n Hlr vs 257 0 d1) as (d' & Hrun & K & Hq' & _).
  - unfold d1. rewrite vreg_set_eq. by apply (walked_linked d).
  - lia.
  - lia.
  - intros v Hv Hp. unfold traps. rewrite (wk_regs _ _ K1) by done. apply (Htr v Hv).
    unfold playing in *. by rewrite (walked_active d d1) in Hp.
  - rewrite (items_walked d d1) by done. change (vp d1) with (vp d). lia.
  - exists d'. split; [done|]. split; [by eapply walked_trans|]. by rewrite Hq', (items_walked d d1).
Qed.


(** A voice linked to itself is queued over and over. *)
Lemma walk_cycle l current next v : list_regs current next -> is_voice v -> forall k fuel d,
  vreg d current = v -> next_of d v = v -> playing d v = true -> (k < fuel)%nat -> (k <= 256)%nat ->
  (length (vw_queue (vp d)) + k <= 256)%nat ->
  exists d', walk_list fuel (256 - Z.of_nat k) l current next d = Ok d' /\ walked d d' /\
    length (vw_queue (vp d')) = (length (vw_queue (vp d)) + k)%nat.
Proof.
  intros Hlr Hv. induction k as [|k IH]; intros fuel d Hcur Hnx Hp Hf Hk Hq; (destruct fuel as [|fuel]; [lia|]); cbn [walk_list].
  - rewrite Hcur. rewrite (proj2 (Z.eqb_neq v 0xFFFF)) by (unfold is_voice in Hv; lia). exists d.
    split; [done|]. split; [apply walked_refl|lia].
  - rewrite Hcur. rewrite (proj2 (Z.eqb_neq v 0xFFFF)) by (unfold is_voice in Hv; lia).
    rewrite (proj2 (Z.leb_gt MCPX_HW_MAX_VOICES _)) by (unfold MCPX_HW_MAX_VOICES; lia).
    rewrite (u16_id v) by (unfold is_u16, is_voice in *; lia).
    destruct (visit_voice l next v d Hv (lr_next _ _ Hlr)) as (d1 & Hrun & K1 & Hq1 & Hn1); [congruence|lia|apply Hlr|].
    change (voice_get_mask d v NV_PAVS_VOICE_TAR_PITCH_LINK NV_PAVS_VOICE_TAR_PITCH_LINK_NEXT_VOICE_HANDLE) with (next_of d v).
    rewrite Hrun. cbn [mbind result_mbind result_bind]. rewrite Hn1, Hnx. set (d2 := set_vreg current v d1).
    assert (walked d d2) as K2 by (eapply walked_trans; [exact K1|apply walked_set, Hlr]).
    assert (length (vw_queue (vp d2)) = S (length (vw_queue (vp d)))) as Hl2.
    { change (vp d2) with (vp d1). rewrite Hq1, length_app. unfold items_of. cbn [List.filter]. rewrite Hp. cbn. lia. }
    replace (256 - Z.of_nat (S k) + 1) with (256 - Z.of_nat k) by lia.
    destruct (IH fuel d2) as (d' & Hw & K' & Hl'); [apply vreg_set_eq| | |lia|lia|rewrite Hl2; lia|].
    + unfold next_of. rewrite (walked_mask d d2) by done. exact Hnx.
    + unfold playing. by rewrite (walked_active d d2).
    + exists d'. split; [done|]. split; [by eapply walked_trans|]. rewrite Hl', Hl2. lia.
Qed.

(** The queue of a frame holds 256 voices, but the three walks together may visit more:
    when the guest links an active voice of the first list to itself and the second list
    begins with an active voice, the frame stops at the assertion on the length of the
    queue.  The limit that protects the walk from cycles is one per list. *)
Theorem cyclic_list_overflows_queue d v w : vw_queue (vp d) = [] -> is_voice v -> is_voice w ->
  vreg d NV_PAPU_TVL2D = v -> next_of d v = v -> playing d v = true ->
  vreg d NV_PAPU_TVL3D = w -> playing d w = true ->
  vp_frame_lists d = Fault (AssertFail "vwd->queue_len < ARRAY_SIZE(vwd->queue)").
Proof.
  intros Hq Hv Hw Ht Hn Hp Ht2 Hp2. set (d1 := set_vreg NV_PAPU_CVL2D v d).
  assert (walked d d1) as K1 by (by apply walked_set).
  destruct (walk_cycle 0 NV_PAPU_CVL2D NV_PAPU_NVL2D v ltac:(done) Hv 256 257 d1) as (d2 & R & K2 & Hl);
    [apply vreg_set_eq|unfold next_of; by rewrite (walked_mask d d1)|unfold playing; by rewrite (walked_active d d1)|lia|lia| |].
  { change (vp d1) with (vp d). rewrite Hq. cbn [length]. lia. }
  pose proof (walked_trans _ _ _ K1 K2) as K. change (vp d1) with (vp d) in Hl. rewrite Hq in Hl. cbn [length] in Hl.
  unfold vp_frame_lists. cbn [for_loop]. change (fetch voice_list_regs 0) with (Ok (NV_PAPU_TVL2D, NV_PAPU_CVL2D, NV_PAPU_NVL2D)).
  change (fetch voice_list_regs (0 + 1)) with (Ok (NV_PAPU_TVL3D, NV_PAPU_CVL3D, NV_PAPU_NVL3D)).
  cbn [mbind result_mbind result_bind]. rewrite Ht. fold d1. change (256 - Z.of_nat 256) with 0 in R. rewrite R.
  cbn [mbind result_mbind result_bind]. change (0 + 1) with 1.
  rewrite (wk_regs _ _ K NV_PAPU_TVL3D), Ht2 by done. change 257%nat with (S 256). cbn [walk_list]. rewrite vreg_set_eq.
  rewrite (proj2 (Z.eqb_neq w 0xFFFF)) by (unfold is_voice in Hw; lia). change (MCPX_HW_MAX_VOICES <=? 0) with false. cbv iota.
  rewrite (u16_id w) by (unfold is_u16, is_voice in *; lia). set (d3 := set_vreg NV_PAPU_CVL3D w d2).
  set (d4 := set_vreg NV_PAPU_NVL3D _ d3). assert (walked d d4) as K4.
  { eapply walked_trans; [exact K|]. eapply walked_trans; [by apply (walked_set NV_PAPU_CVL3D w)|by apply walked_set]. }
  change (voice_get_mask d4 w _ _) with (active d4 w). rewrite (walked_active d d4) by done.
  unfold playing in Hp2. apply negb_true_iff in Hp2. rewrite Hp2. unfold voice_work_enqueue, check.
  change (vp d4) with (vp d2). by rewrite Hl.
Qed.

(** ** Looking for the multipass voice of a group *)

Definition group_voice d (vs : list Z) : Z * Z :=
  match List.find (is_multipass d) vs with Some w => (multipass_bin d w, w) | None => (-1, 0xFFFF) end.
Lemma peek_list d vs : forall h fuel, linked d h vs -> (length vs < fuel)%nat -> peek_from fuel false h d = Ok (group_voice d vs).
Proof.
  unfold group_voice. induction vs as [|v vs IH]; intros h fuel Hl Hf; (destruct fuel as [|fuel]; [cbn in Hf; lia|]); cbn [peek_from]; cbn [linked] in Hl.
  - by rewrite Hl.
  - destruct Hl as (-> & Hv & Hl). rewrite (proj2 (Z.eqb_neq v _)) by (unfold is_voice in Hv; lia). cbn [List.find].
    destruct (is_multipass d v); [done|]. apply (IH (next_of d v)); [done|cbn in Hf; lia].
Qed.
(** The search gives the first multipass voice behind a voice that is none itself, in as
    many steps as the list has voices; on a list that leads back to the voice it never
    ends, where the walk over the lists stops after 256. *)
Lemma peek_ahead_finds d v vs : linked d v (v :: vs) ->
  forall fuel, (length vs + 2 <= fuel)%nat ->
    peek_ahead_multipass_bin fuel v d = Ok (if is_multipass d v then (-1, 0xFFFF) else group_voice d vs).
Proof.
  intros (_ & Hv & Hl) fuel Hf. unfold peek_ahead_multipass_bin. destruct fuel as [|fuel]; [lia|]. cbn [peek_from].
  rewrite (proj2 (Z.eqb_neq v _)) by (unfold is_voice in Hv; lia). destruct (is_multipass d v); [done|].
  apply (peek_list d vs (next_of d v)); [done|lia].
Qed.
Lemma peek_ahead_hangs d v : is_voice v -> next_of d v = v -> is_multipass d v = false ->
  forall fuel, peek_ahead_multipass_bin fuel v d = Fault OutOfFuel.
Proof.
  intros Hv Hn Hm fuel. unfold peek_ahead_multipass_bin. generalize true. induction fuel as [|fuel IH]; intros first; [done|].
  cbn [peek_from]. rewrite (proj2 (Z.eqb_neq v _)), Hm by (unfold is_voice in Hv; lia). fold LINK. fold (next_of d v). rewrite Hn. apply IH.
Qed.
End Walk.

(** ** Witnesses *)

(** Voices 3 and 5 play, one in each of the first two lists; after voice 3 comes [next]. *)
Definition two_voices (next : Z) : VpDevice unit :=
  voice_set_mask 3 NV_PAVS_VOICE_TAR_PITCH_LINK NV_PAVS_VOICE_TAR_PITCH_LINK_NEXT_VOICE_HANDLE next
    (voice_set_mask 5 NV_PAVS_VOICE_TAR_PITCH_LINK NV_PAVS_VOICE_TAR_PITCH_LINK_NEXT_VOICE_HANDLE 0xFFFF
      (voice_set_mask 3 NV_PAVS_VOICE_PAR_STATE NV_PAVS_VOICE_PAR_STATE_ACTIVE_VOICE 1
        (voice_set_mask 5 NV_PAVS_VOICE_PAR_STATE NV_PAVS_VOICE_PAR_STATE_ACTIVE_VOICE 1
          (quiet (fun regs => wr NV_PAPU_TVL2D 3 (wr NV_PAPU_TVL3D 5 regs)))))).
Lemma cyclic_list_overflows_queue_witness :
  vp_frame_lists (two_voices 3) = Fault (AssertFail "vwd->queue_len < ARRAY_SIZE(vwd->queue)").
Proof.
  apply (cyclic_list_overflows_queue (two_voices 3) 3 5); [reflexivity|done|done|vm_compute; reflexivity..].
Defined.
