(* ===== verification/VpThreads.v ===== *)
(** * The voice processor: the worker threads
    (src/xemu/hw/xbox/mcpx/apu/vp/vp.c, [voice_worker_thread] to [voice_work_finalize])

    The thread of the audio device deals the voices of a frame to worker threads, wakes
    them and waits until the last has finished.  All of them share one mutex and two
    condition variables.  What a thread does between taking the mutex and giving it back
    is one step; a worker gives it back while it processes its voices, of which each is a
    step of its own.  A wait on a condition variable ends when it is signalled; the
    workers may also wake up for no reason, which POSIX allows. *)

From stdpp Require Import relations.
From S2P Require Import Prelude GpEp VpCore VpWork.

Definition MAX_VOICE_WORKERS : Z := 16.

(** A worker thread: before it has run, in its wait, woken from it, at voice [i] of its
    queue, or at its end.  [id] is its local [worker_id]. *)
Inductive thread :=
| Starting
| Waiting (id : nat)
| Woken (id : nat)
| Busy (id i : nat)
| Exited.
#[export] Instance thread_eq_dec : EqDecision thread.
Proof. solve_decision. Defined.
(** The thread that uses the workers: in [voice_work_init], between frames, in
    [voice_work_dispatch], in [voice_work_finalize], after it or with a failed assertion. *)
Inductive main_thread := InitWait | InitWoken | Ready | FrameWait | FrameWoken | Joining | Joined | Aborted.
#[export] Instance main_thread_eq_dec : EqDecision main_thread.
Proof. solve_decision. Defined.

(** [VoiceWorkDispatch] with its workers.  [output] is the array of the caller that the
    frames are added to. *)
Record VoiceWorkDispatch (S : Type) := mkPool {
  threads : list thread;
  main : main_thread;
  queues : list (list VoiceWorkItem);
  worker_mixbins : list (Z -> S);
  workers_pending : Z;
  workers_should_exit : bool;
  vwd_mixbins : Z -> S;
  output : Z -> S;
}.
Arguments mkPool {S} _ _ _ _ _ _ _ _.
Arguments threads {S} _.
Arguments main {S} _.
Arguments queues {S} _.
Arguments worker_mixbins {S} _.
Arguments workers_pending {S} _.
Arguments workers_should_exit {S} _.
Arguments vwd_mixbins {S} _.
Arguments output {S} _.
#[export] Instance VoiceWorkDispatch_settable S : Settable (VoiceWorkDispatch S) :=
  settable! (@mkPool S) < threads ; main ; queues ; worker_mixbins ; workers_pending ; workers_should_exit ; vwd_mixbins ; output >.

Fixpoint ctz_from (n : nat) (i : Z) (x : Z) : Z :=
  match n with O => i | S n => if Z.testbit x i then i else ctz_from n (i + 1) x end.
Definition ctz64 (x : Z) : Z := ctz_from 64 0 x.

Section Threads.
Context {host : ApuHost} {F : Type} `{!VoiceFilter F} {S : Type} `{!Samples S, !VoicePlay S}.
Implicit Types (d : VpDevice F) (s : VoiceWorkDispatch S) (t id : nat).

(** ** The workers *)

Definition set_thread t (x : thread) s : VoiceWorkDispatch S := s <| threads ::= <[t := x]> |>.
Definition wake (x : thread) : thread := match x with Waiting id => Woken id | _ => x end.
(** [qemu_cond_broadcast] of [work_pending]. *)
Definition broadcast s : VoiceWorkDispatch S := s <| threads ::= map wake |>.
(** [qemu_cond_signal] of [work_finished]. *)
Definition signalled (m : main_thread) : main_thread := match m with InitWait => InitWoken | FrameWait => FrameWoken | _ => m end.
Definition signal s : VoiceWorkDispatch S := s <| main ::= signalled |>.
(** The end of a round: the worker is not pending any more. *)
Definition finish_round t id s : VoiceWorkDispatch S :=
  let s := s <| workers_pending ::= fun p => Z.ldiff p (bit (Z.of_nat id)) |> in
  set_thread t (Waiting id) (if workers_pending s =? 0 then signal s else s).

(** What thread [t] does next; one that waits or has ended does nothing. *)
Definition runnable s t : bool :=
  match threads s !! t with Some Starting | Some (Woken _) | Some (Busy _ _) => true | _ => false end.
Definition voice_worker_thread d t s : result (VoiceWorkDispatch S) :=
  match threads s !! t with
  | Some Starting =>
      let id := ctz64 (workers_pending s) in
      _ ← fetch (queues s) id;
      Ok (finish_round t (Z.to_nat id) (s <| queues ::= <[Z.to_nat id := []]> |>))
  | Some (Woken id) =>
      if workers_should_exit s then Ok (set_thread t Exited s)
      else
        q ← fetch (queues s) (Z.of_nat id);
        match q with
        | [] => Ok (finish_round t id s)
        | _ => Ok (set_thread t (Busy id 0) (s <| worker_mixbins ::= <[id := no_sound]> |>))
        end
  | Some (Busy id i) =>
      q ← fetch (queues s) (Z.of_nat id);
      bins ← fetch (worker_mixbins s) (Z.of_nat id);
      match q !! i with
      | Some it => Ok (set_thread t (Busy id (i + 1)) (s <| worker_mixbins ::= <[id := voice_process d (voice it) bins]> |>))
      | None => Ok (finish_round t id (s <| vwd_mixbins ::= fun total => add_bins total bins |> <| queues ::= <[id := []]> |>))
      end
  | _ => Ok s
  end.

(** ** The thread that uses them *)

Definition voice_work_init (num_workers : Z) : VoiceWorkDispatch S :=
  let n := Z.to_nat (Z.max 1 (Z.min num_workers MAX_VOICE_WORKERS)) in
  mkPool (repeat Starting n) InitWait (repeat [] n) (repeat no_sound n) (Z.ones (Z.of_nat n)) false no_sound no_sound.
Definition voice_work_schedule d s : result (VoiceWorkDispatch S) :=
  c ← schedule_queue d (vw_queue (vp d)) (mkSched (queues s) (workers_pending s) 0 false 0);
  Ok (s <| queues := workers c |> <| workers_pending := pending c |>).
(** A turn of the loop in front of the dispatch: the frame is dropped, the guest has
    locked one of the voices, or the frame is dealt. *)
Inductive gate := Dropped | Locked | Deal.
Definition dispatch_gate (pause_requested : bool) d : result gate :=
  if pause_requested then Ok Dropped else b ← any_queued_voice_locked d; Ok (if b : bool then Locked else Deal).
(** [voice_work_dispatch] from there up to its wait. *)
Definition voice_work_dispatch d s : result (VoiceWorkDispatch S) :=
  match vw_queue (vp d) with
  | [] => Ok s
  | _ =>
      s ← voice_work_schedule d (s <| vwd_mixbins := no_sound |>);
      Ok (broadcast s <| main := FrameWait |>)
  end.
Definition voice_work_finalize s : VoiceWorkDispatch S :=
  broadcast (s <| workers_should_exit := true |>) <| main := Joining |>.
(** The dispatcher's own queue, which is part of the device, when the frame is done or
    dropped. *)
Definition end_frame d : VpDevice F := d <| vp ::= fun p => p <| vw_queue := [] |> |>.
(** Behind its waits, and the joins. *)
Definition main_runnable s : bool :=
  match main s with
  | InitWoken | FrameWoken => true
  | Joining => forallb (fun x => bool_decide (x = Exited)) (threads s)
  | _ => false
  end.
Definition main_run s : VoiceWorkDispatch S :=
  match main s with
  | InitWoken => s <| main := if workers_pending s =? 0 then Ready else Aborted |>
  | FrameWoken =>
      if workers_pending s =? 0 then s <| output ::= fun o => add_bins o (vwd_mixbins s) |> <| main := Ready |>
      else s <| main := Aborted |>
  | Joining => s <| main := Joined |>
  | _ => s
  end.

(** ** Steps *)

Inductive run d s : VoiceWorkDispatch S -> Prop :=
| run_thread t s' : runnable s t = true -> voice_worker_thread d t s = Ok s' -> run d s s'
| run_main : main_runnable s = true -> run d s (main_run s).
Inductive step d s : VoiceWorkDispatch S -> Prop :=
| step_run s' : run d s s' -> step d s s'
| step_spurious t id : threads s !! t = Some (Waiting id) -> step d s (set_thread t (Woken id) s).
(** The thread of the device leaves its wait for no reason. *)
Definition spurious_main s : VoiceWorkDispatch S := signal s.

(** ** Who is who *)

Definition thread_id (x : thread) : option nat := match x with Waiting id | Woken id | Busy id _ => Some id | _ => None end.
Definition worker_ids s : list nat := omap thread_id (threads s).

Lemma ids_cons x (l : list thread) :
  omap thread_id (x :: l) = match thread_id x with Some id => id :: omap thread_id l | None => omap thread_id l end.
Proof. reflexivity. Qed.
Lemma ids_same (l : list thread) t x y : l !! t = Some x -> thread_id y = thread_id x -> omap thread_id (<[t := y]> l) = omap thread_id l.
Proof.
  revert t. induction l as [|a l IH]; intros [|t]; [done..| |].
  - change (<[0%nat := y]> (a :: l)) with (y :: l). rewrite !ids_cons. by intros [= ->] ->.
  - change (<[Datatypes.S t := y]> (a :: l)) with (a :: <[t := y]> l). rewrite !ids_cons. intros Hl Hy. by rewrite (IH t Hl Hy).
Qed.
Lemma ids_start (l : list thread) t y id : l !! t = Some Starting -> thread_id y = Some id -> omap thread_id (<[t := y]> l) ≡ₚ id :: omap thread_id l.
Proof.
  revert t. induction l as [|a l IH]; intros [|t]; [done..| |].
  - change (<[0%nat := y]> (a :: l)) with (y :: l). rewrite !ids_cons. by intros [= ->] ->.
  - change (<[Datatypes.S t := y]> (a :: l)) with (a :: <[t := y]> l). rewrite !ids_cons. intros Hl Hy. destruct (thread_id a); rewrite (IH t Hl Hy); [apply perm_swap|done].
Qed.
Lemma ids_elem (l : list thread) t x id : l !! t = Some x -> thread_id x = Some id -> id ∈ omap thread_id l.
Proof. intros Hl Hx. apply list_elem_of_omap. exists x. split; [by eapply list_elem_of_lookup_2|done]. Qed.
Lemma ids_owner (l : list thread) : NoDup (omap thread_id l) -> forall t t' x y id,
  l !! t = Some x -> l !! t' = Some y -> thread_id x = Some id -> thread_id y = Some id -> t = t'.
Proof.
  induction l as [|a l IH]; intros Hnd t t' x y id Ht Ht' Hx Hy; [done|].
  assert (NoDup (omap thread_id l)) as Hnd' by (rewrite ids_cons in Hnd; destruct (thread_id a); [by apply NoDup_cons in Hnd as [_ ?]|done]).
  assert (forall t y, l !! t = Some y -> thread_id y = Some id -> thread_id a = Some id -> False) as Hno.
  { intros k z Hk Hz Ha. rewrite ids_cons, Ha in Hnd. apply NoDup_cons in Hnd as [Hn _]. apply Hn. by eapply ids_elem. }
  destruct t as [|t], t' as [|t']; cbn in Ht, Ht'; [done| | |].
  - injection Ht as ->. destruct (Hno t' y Ht' Hy Hx).
  - injection Ht' as ->. destruct (Hno t x Ht Hx Hy).
  - f_equal. by apply (IH Hnd' t t' x y id).
Qed.

(** Every worker has its thread. *)
Record staffed (n : nat) s : Prop := {
  sf_threads : length (threads s) = n; sf_queues : length (queues s) = n; sf_bins : length (worker_mixbins s) = n;
  sf_ids : NoDup (worker_ids s);
  sf_id : forall t x, threads s !! t = Some x -> exists id, thread_id x = Some id /\ (id < n)%nat;
}.
Lemma ids_length (l : list thread) : (forall t x, l !! t = Some x -> exists id : nat, thread_id x = Some id) -> length (omap thread_id l) = length l.
Proof.
  induction l as [|a l IH]; intros Hx; [done|]. destruct (Hx 0%nat a eq_refl) as [id Ha]. rewrite ids_cons, Ha. cbn [length]. f_equal.
  apply IH. intros t x Hl. by apply (Hx (Datatypes.S t)).
Qed.
Lemma staffed_thread n s i : staffed n s -> (i < n)%nat -> exists t x, threads s !! t = Some x /\ thread_id x = Some i.
Proof.
  intros [Ht _ _ Hnd Hid] Hi. assert (i ∈ worker_ids s) as Hin.
  { assert (worker_ids s ⊆+ seq 0 n) as Hsub.
    { apply NoDup_submseteq; [done|]. intros j Hj. apply list_elem_of_omap in Hj as (x & [t Hx]%list_elem_of_lookup & Hxj).
      destruct (Hid t x Hx) as (j' & Hj' & ?). assert (j' = j) as -> by congruence. apply elem_of_seq. lia. }
    rewrite (submseteq_length_Permutation _ _ Hsub).
    - apply elem_of_seq. lia.
    - unfold worker_ids. rewrite ids_length, Ht, length_seq; [done|]. intros t x Hx. destruct (Hid t x Hx) as (id & ? & _). by exists id. }
  apply list_elem_of_omap in Hin as (x & [t Hx]%list_elem_of_lookup & Hxi). by exists t, x.
Qed.
Lemma staffed_step n s s' t x y : staffed n s -> threads s !! t = Some x -> thread_id y = thread_id x ->
  threads s' = <[t := y]> (threads s) -> length (queues s') = length (queues s) ->
  length (worker_mixbins s') = length (worker_mixbins s) -> staffed n s'.
Proof.
  intros [H1 H2 H3 H4 H5] Hx Hy Ht Hq Hb. constructor; rewrite ?Hq, ?Hb, ?Ht; [by rewrite length_insert|done|done| |].
  - unfold worker_ids. by rewrite Ht, (ids_same _ _ x).
  - intros t' z. destruct (decide (t' = t)) as [->|Hne].
    + rewrite list_lookup_insert_eq by (by eapply lookup_lt_Some). intros [= <-]. rewrite Hy. by apply (H5 t).
    + rewrite list_lookup_insert_ne by done. apply H5.
Qed.

Lemma finish_fields t id s : let s' := finish_round t id s in
  threads s' = <[t := Waiting id]> (threads s) /\ queues s' = queues s /\ worker_mixbins s' = worker_mixbins s /\
  workers_pending s' = Z.ldiff (workers_pending s) (bit (Z.of_nat id)) /\ workers_should_exit s' = workers_should_exit s /\
  vwd_mixbins s' = vwd_mixbins s /\ output s' = output s /\
  main s' = if Z.ldiff (workers_pending s) (bit (Z.of_nat id)) =? 0 then signalled (main s) else main s.
Proof. unfold finish_round, set_thread, signal. cbv zeta. proj_red. destruct (_ =? 0); by split_and!. Qed.

(** ** A frame *)

(** What holds of a thread between its steps. *)
Definition thread_ok d s (x : thread) : Prop :=
  match x with
  | Waiting id => queues s !! id = Some []
  | Woken _ => True
  | Busy id i => exists q, queues s !! id = Some q /\ q <> [] /\ (i <= length q)%nat /\
      worker_mixbins s !! id = Some (mix_queue d (take i q) no_sound)
  | _ => False
  end.
Definition threads_ok d s : Prop := forall t x, threads s !! t = Some x -> thread_ok d s x.
Lemma threads_ok_step n d s s' t x y id : staffed n s -> threads_ok d s -> threads s !! t = Some x -> thread_id x = Some id ->
  threads s' = <[t := y]> (threads s) ->
  (forall j, j <> id -> queues s' !! j = queues s !! j /\ worker_mixbins s' !! j = worker_mixbins s !! j) ->
  thread_ok d s' y -> threads_ok d s'.
Proof.
  intros Hs Hok Hx Hid Ht Hother Hy t' z. rewrite Ht. destruct (decide (t' = t)) as [->|Hne].
  - rewrite list_lookup_insert_eq by (by eapply lookup_lt_Some). by intros [= <-].
  - rewrite list_lookup_insert_ne by done. intros Hz. specialize (Hok t' z Hz).
    assert (thread_id z <> Some id) as Hzi by (intros Hzi; apply Hne; by eapply (ids_owner _ (sf_ids _ _ Hs))).
    destruct z as [|j|j|j i|]; cbn in *; [done| |done| |done].
    + by rewrite (proj1 (Hother j ltac:(congruence))).
    + by rewrite (proj1 (Hother j ltac:(congruence))), (proj2 (Hother j ltac:(congruence))).
Qed.

Definition has_work s (i : nat) : bool := match queues s !! i with Some (_ :: _) => true | _ => false end.
Definition pending_ok s : Prop := forall i : nat, Z.testbit (workers_pending s) (Z.of_nat i) = has_work s i.
Lemma pending_zero s : pending_ok s -> workers_pending s = 0 <-> forall i : nat, has_work s i = false.
Proof.
  intros Hp. split; [intros H0 i; by rewrite <- Hp, H0, Z.testbit_0_l|]. intros Hw. apply Z.bits_inj'. intros i Hi.
  rewrite Z.testbit_0_l, <- (Z2Nat.id i Hi), Hp. apply Hw.
Qed.
Lemma pending_finish s s' (id : nat) : pending_ok s -> workers_pending s' = Z.ldiff (workers_pending s) (bit (Z.of_nat id)) ->
  has_work s' id = false -> (forall j, j <> id -> queues s' !! j = queues s !! j) -> pending_ok s'.
Proof.
  intros Hp Hs' Hid Hother i. rewrite Hs', Z.ldiff_spec, Hp. destruct (decide (i = id)) as [->|Hne].
  - rewrite Z.shiftl_1_l, Z.pow2_bits_true by lia. by rewrite andb_false_r.
  - rewrite Z.shiftl_1_l, Z.pow2_bits_false by lia. rewrite andb_true_r. unfold has_work. by rewrite Hother.
Qed.

(** The sound mixed so far and the sound of the queues left are that of the frame. *)
Definition left_to_mix d (sound : Z -> S) s : Prop :=
  forall b, madd (vwd_mixbins s b) (msum (map (fun q => mix_queue d q no_sound b) (queues s))) = sound b.
Definition main_ok d (sound before : Z -> S) s : Prop :=
  match main s with
  | FrameWait => workers_pending s <> 0 /\ left_to_mix d sound s /\ output s = before
  | FrameWoken => workers_pending s = 0 /\ left_to_mix d sound s /\ output s = before
  | Ready => workers_pending s = 0 /\ forall b, output s b = madd (before b) (sound b)
  | _ => False
  end.
Record frame_inv (n : nat) d (sound before : Z -> S) s : Prop := {
  fi_staffed : staffed n s; fi_exit : workers_should_exit s = false;
  fi_threads : threads_ok d s; fi_pending : pending_ok s; fi_main : main_ok d sound before s;
}.

Context `{!SamplesLaws S}.

Lemma main_same d sound before s s' : main_ok d sound before s -> main s' = main s -> workers_pending s' = workers_pending s ->
  vwd_mixbins s' = vwd_mixbins s -> queues s' = queues s -> output s' = output s -> main_ok d sound before s'.
Proof. intros Hm E1 E2 E3 E4 E5. unfold main_ok, left_to_mix in *. by rewrite E1, E2, E3, E4, E5. Qed.
Lemma frame_step n d sound before s s' t x y id : frame_inv n d sound before s -> threads s !! t = Some x ->
  thread_id x = Some id -> thread_id y = Some id -> threads s' = <[t := y]> (threads s) ->
  (forall j, j <> id -> queues s' !! j = queues s !! j /\ worker_mixbins s' !! j = worker_mixbins s !! j) ->
  length (queues s') = length (queues s) -> length (worker_mixbins s') = length (worker_mixbins s) ->
  workers_should_exit s' = workers_should_exit s -> thread_ok d s' y -> pending_ok s' -> main_ok d sound before s' ->
  frame_inv n d sound before s'.
Proof.
  intros [Hs He Hok Hp Hm] Hx Hxi Hyi Ht Hother Hq Hb Hexit Hy Hp' Hm'. constructor; [|congruence| |done|done].
  - apply (staffed_step n s s' t x y); [done|done|congruence|done..].
  - by apply (threads_ok_step n d s s' t x y id).
Qed.
Lemma frame_idle n d sound before s t id : frame_inv n d sound before s -> threads s !! t = Some (Woken id) ->
  queues s !! id = Some [] -> frame_inv n d sound before (finish_round t id s).
Proof.
  intros Hi Ht Hq. destruct (finish_fields t id s) as (F1 & F2 & F3 & F4 & F5 & F6 & F7 & F8).
  assert (Z.ldiff (workers_pending s) (bit (Z.of_nat id)) = workers_pending s) as Hsame.
  { apply Z.bits_inj'. intros i Hi0. rewrite Z.ldiff_spec, Z.shiftl_1_l. destruct (decide (i = Z.of_nat id)) as [->|].
    - rewrite (fi_pending _ _ _ _ _ Hi). unfold has_work. by rewrite Hq.
    - rewrite Z.pow2_bits_false by lia. apply andb_true_r. }
  apply (frame_step n d sound before s _ t (Woken id) (Waiting id) id); [done..|by rewrite F2, F3|by rewrite F2|by rewrite F3|done| | |].
  - unfold thread_ok. by rewrite F2.
  - apply (pending_finish s _ id); [apply Hi|done| |by rewrite F2]. unfold has_work. by rewrite F2, Hq.
  - apply (main_same d sound before s); [apply Hi| |by rewrite F4|done..]. rewrite F8, Hsame.
    pose proof (fi_main _ _ _ _ _ Hi) as Hm. unfold main_ok in Hm. destruct (Z.eqb_spec (workers_pending s) 0); [|done].
    by destruct (main s); try done; destruct Hm.
Qed.
Lemma frame_begin n d sound before s t id q : frame_inv n d sound before s -> threads s !! t = Some (Woken id) ->
  queues s !! id = Some q -> q <> [] ->
  frame_inv n d sound before (set_thread t (Busy id 0) (s <| worker_mixbins ::= <[id := no_sound]> |>)).
Proof.
  intros Hi Ht Hq Hne. unfold set_thread. pose proof (fi_staffed _ _ _ _ _ Hi) as Hs.
  apply (frame_step n d sound before s _ t (Woken id) (Busy id 0) id); proj_red; try done.
  - intros j Hj. by rewrite list_lookup_insert_ne.
  - apply length_insert.
  - exists q. proj_red. split_and!; [done|done|lia|]. rewrite list_lookup_insert_eq; [done|].
    rewrite (sf_bins _ _ Hs), <- (sf_queues _ _ Hs). by eapply lookup_lt_Some.
  - apply Hi.
  - apply (main_same d sound before s); [apply Hi|done..].
Qed.
Lemma frame_voice n d sound before s t id i q it bins : frame_inv n d sound before s -> threads s !! t = Some (Busy id i) ->
  queues s !! id = Some q -> worker_mixbins s !! id = Some bins -> q !! i = Some it ->
  frame_inv n d sound before (set_thread t (Busy id (i + 1)) (s <| worker_mixbins ::= <[id := voice_process d (voice it) bins]> |>)).
Proof.
  intros Hi Ht Hq Hb Hit. unfold set_thread. destruct (fi_threads _ _ _ _ _ Hi t _ Ht) as (q' & Hq' & Hne & Hle & Hmix).
  assert (q' = q) as -> by congruence. assert (bins = mix_queue d (take i q) no_sound) as -> by congruence.
  apply (frame_step n d sound before s _ t (Busy id i) (Busy id (i + 1)) id); proj_red; try done.
  - intros j Hj. by rewrite list_lookup_insert_ne.
  - apply length_insert.
  - exists q. proj_red. apply lookup_lt_Some in Hit as Hlt. split_and!; [done|done|lia|].
    rewrite list_lookup_insert_eq by (by eapply lookup_lt_Some). f_equal.
    rewrite Nat.add_1_r, (take_S_r _ _ it) by done. by rewrite mix_queue_snoc.
  - apply Hi.
  - apply (main_same d sound before s); [apply Hi|done..].
Qed.
Lemma mixed_off d (queues : list (list VoiceWorkItem)) id q b : queues !! id = Some q ->
  msum (map (fun q => mix_queue d q no_sound b) queues) =
    madd (msum (map (fun q => mix_queue d q no_sound b) (<[id := []]> queues))) (mix_queue d q no_sound b).
Proof.
  intros Hq. apply lookup_lt_Some in Hq as Hlt. rewrite <- (list_insert_id queues id q Hq) at 1.
  rewrite <- (list_insert_insert_eq queues id q []) at 1.
  apply (msum_insert (fun q => mix_queue d q no_sound b) (mix_queue d q no_sound b) _ id []).
  - by apply list_lookup_insert_eq.
  - cbn. symmetry. apply zero_madd.
Qed.
Lemma frame_end n d sound before s t id i q bins : frame_inv n d sound before s -> threads s !! t = Some (Busy id i) ->
  queues s !! id = Some q -> worker_mixbins s !! id = Some bins -> q !! i = None ->
  frame_inv n d sound before (finish_round t id (s <| vwd_mixbins ::= fun total => add_bins total bins |> <| queues ::= <[id := []]> |>)).
Proof.
  intros Hi Ht Hq Hb Hend. destruct (fi_threads _ _ _ _ _ Hi t _ Ht) as (q' & Hq' & Hne & Hle & Hmix).
  assert (q' = q) as -> by congruence. apply lookup_ge_None in Hend. rewrite take_ge in Hmix by done.
  assert (bins = mix_queue d q no_sound) as -> by congruence. clear Hb Hq' Hmix.
  set (s1 := s <| vwd_mixbins ::= _ |> <| queues ::= _ |>).
  destruct (finish_fields t id s1) as (F1 & F2 & F3 & F4 & F5 & F6 & F7 & F8).
  assert (queues s1 = <[id := []]> (queues s)) as Q1 by (unfold s1; by proj_red).
  assert (queues s1 !! id = Some []) as Qid by (rewrite Q1; apply list_lookup_insert_eq; by eapply lookup_lt_Some).
  assert (forall j, j <> id -> queues (finish_round t id s1) !! j = queues s !! j) as Hother.
  { intros j Hj. by rewrite F2, Q1, list_lookup_insert_ne. }
  assert (has_work s id = true) as Hwork by (unfold has_work; rewrite Hq; by destruct q).
  assert (pending_ok (finish_round t id s1)) as Hp.
  { apply (pending_finish s _ id); [apply Hi|exact F4| |exact Hother]. unfold has_work. by rewrite F2, Qid. }
  apply (frame_step n d sound before s _ t (Busy id i) (Waiting id) id); [done|done|done|done|exact F1| |by rewrite F2, Q1, length_insert|by rewrite F3|exact F5| |exact Hp|].
  - intros j Hj. rewrite F3. by split; [apply Hother|].
  - unfold thread_ok. by rewrite F2.
  - pose proof (fi_main _ _ _ _ _ Hi) as Hm. unfold main_ok in *.
    assert (workers_pending s <> 0) as Hp0.
    { intros H0. rewrite (proj1 (pending_zero s (fi_pending _ _ _ _ _ Hi)) H0 id) in Hwork. discriminate. }
    assert (main s = FrameWait) as Em by (destruct (main s); try done; by destruct Hm).
    rewrite Em in Hm. destruct Hm as (_ & Hsum & Hout).
    assert (left_to_mix d sound (finish_round t id s1)) as Hsum'.
    { intros b. rewrite <- (Hsum b), F6, F2, Q1, (mixed_off d (queues s) id q b Hq).
      change (vwd_mixbins s1 b) with (madd (vwd_mixbins s b) (mix_queue d q no_sound b)).
      rewrite <- madd_assoc. f_equal. apply madd_comm. }
    rewrite F8. change (main s1) with (main s). rewrite Em, F7. change (output s1) with (output s).
    change (workers_pending s1) with (workers_pending s). rewrite F4. change (workers_pending s1) with (workers_pending s).
    destruct (Z.eqb_spec (Z.ldiff (workers_pending s) (bit (Z.of_nat id))) 0); by split_and!.
Qed.

Lemma fetch_nat {A} (l : list A) (i : nat) x : l !! i = Some x -> fetch l (Z.of_nat i) = Ok x.
Proof. intros H. apply fetch_ok; [lia|by rewrite Nat2Z.id]. Qed.
(** A thread that can run does so, within the frame. *)
Lemma frame_thread n d sound before s t : frame_inv n d sound before s -> runnable s t = true ->
  exists s', voice_worker_thread d t s = Ok s' /\ frame_inv n d sound before s'.
Proof.
  intros Hi Hr. pose proof (fi_staffed _ _ _ _ _ Hi) as Hs. unfold runnable in Hr. unfold voice_worker_thread.
  destruct (threads s !! t) as [x|] eqn:Ht; [|done].
  destruct (sf_id _ _ Hs t x Ht) as (id & Hid & Hlt).
  destruct (lookup_lt_is_Some_2 (queues s) id) as [q Hq]; [by rewrite (sf_queues _ _ Hs)|].
  destruct (lookup_lt_is_Some_2 (worker_mixbins s) id) as [bins Hb]; [by rewrite (sf_bins _ _ Hs)|].
  destruct x as [|?|id'|id' i|]; try done; cbn in Hid; injection Hid as ->.
  - rewrite (fi_exit _ _ _ _ _ Hi), (fetch_nat _ _ q Hq). cbn [mbind result_mbind result_bind].
    destruct q as [|it q1]; eexists; (split; [reflexivity|]); [by apply frame_idle|by eapply frame_begin].
  - rewrite (fetch_nat _ _ q Hq), (fetch_nat _ _ bins Hb). cbn [mbind result_mbind result_bind].
    destruct (q !! i) as [it|] eqn:Hit; eexists; (split; [reflexivity|]); [by eapply frame_voice|by eapply frame_end].
Qed.
Lemma frame_spurious n d sound before s t id : frame_inv n d sound before s -> threads s !! t = Some (Waiting id) ->
  frame_inv n d sound before (set_thread t (Woken id) s).
Proof.
  intros Hi Ht. unfold set_thread. apply (frame_step n d sound before s _ t (Waiting id) (Woken id) id); proj_red; try done.
  - apply Hi.
  - apply (main_same d sound before s); [apply Hi|done..].
Qed.
Lemma frame_main n d sound before s : frame_inv n d sound before s -> main_runnable s = true -> frame_inv n d sound before (main_run s).
Proof.
  intros [Hs He Hok Hp Hm] Hr. unfold main_runnable, main_run, main_ok in *. destruct (main s) eqn:Em; try done.
  destruct Hm as (H0 & Hsum & Ho). rewrite H0. cbn [Z.eqb].
  set (s' := s <| output ::= _ |> <| main := Ready |>). assert (queues s' = queues s) as Hq by (unfold s'; by proj_red).
  constructor; [by destruct Hs|done|exact Hok|exact Hp|]. unfold main_ok. change (main s') with Ready. split; [exact H0|].
  intros b. change (output s' b) with (madd (output s b) (vwd_mixbins s b)). rewrite Ho, <- (Hsum b). f_equal.
  rewrite msum_zero, madd_zero; [done|]. intros q [i Hi]%list_elem_of_lookup.
  pose proof (proj1 (pending_zero s Hp) H0 i) as Hw. unfold has_work in Hw. rewrite Hi in Hw. by destruct q.
Qed.
Lemma frame_steps n d sound before s s' : rtc (step d) s s' -> frame_inv n d sound before s -> frame_inv n d sound before s'.
Proof.
  induction 1 as [|s1 s2 s3 Hstep _ IH]; [done|]. intros Hi. apply IH. destruct Hstep as [s2 [t s2' Hr Hrun|Hr]|t id Ht].
  - destruct (frame_thread _ _ _ _ _ t Hi Hr) as (s4 & E & H4). rewrite Hrun in E. injection E as <-. exact H4.
  - by apply frame_main.
  - by apply frame_spurious.
Qed.

(** ** Every run comes to its end *)

Definition queue_len s (id : nat) : nat := match queues s !! id with Some q => length q | None => 0 end.
Definition weight s (x : thread) : nat :=
  match x with
  | Starting => 1
  | Woken id => queue_len s id + 3
  | Busy id i => queue_len s id - i + 1
  | _ => 0
  end.
Definition main_weight (m : main_thread) : nat :=
  match m with InitWait | FrameWait => 2 | InitWoken | FrameWoken | Joining => 1 | _ => 0 end.
Definition steps_left s : nat := sum_list (map (weight s) (threads s)) + main_weight (main s).

Lemma sum_decreases (f g : thread -> nat) l t x y : l !! t = Some x -> (forall z, g z <= f z)%nat -> (g y < f x)%nat ->
  (sum_list (map g (<[t := y]> l)) < sum_list (map f l))%nat.
Proof.
  intros Hx Hle Hlt. revert t Hx. induction l as [|a l IH]; intros [|t] Hx; [done..| |].
  - injection Hx as ->. change (<[0%nat := y]> (x :: l)) with (y :: l). cbn.
    assert (sum_list (map g l) <= sum_list (map f l))%nat; [|lia]. clear IH. induction l as [|z l IH]; cbn; [lia|]. specialize (Hle z). lia.
  - change (<[Datatypes.S t := y]> (a :: l)) with (a :: <[t := y]> l). cbn. specialize (IH t Hx). specialize (Hle a). lia.
Qed.
Lemma steps_left_thread s s' t x y : threads s !! t = Some x -> threads s' = <[t := y]> (threads s) ->
  (forall id, queue_len s' id <= queue_len s id)%nat -> (weight s' y < weight s x)%nat ->
  (main_weight (main s') <= main_weight (main s))%nat -> (steps_left s' < steps_left s)%nat.
Proof.
  intros Hx Ht Hq Hw Hm. unfold steps_left. rewrite Ht.
  pose proof (sum_decreases (weight s) (weight s') (threads s) t x y Hx) as H. enough (forall z, weight s' z <= weight s z)%nat as Hz by (specialize (H Hz Hw); lia).
  intros [|id|id|id i|]; cbn [weight]; try lia; specialize (Hq id); lia.
Qed.
Lemma queue_len_clear s s' id : queues s' = <[id := []]> (queues s) -> forall j, (queue_len s' j <= queue_len s j)%nat.
Proof.
  intros Hq j. unfold queue_len. rewrite Hq. destruct (decide (j = id)) as [->|Hne]; [|by rewrite list_lookup_insert_ne].
  destruct (decide (id < length (queues s))%nat); [rewrite list_lookup_insert_eq by done; cbn; lia|].
  rewrite list_insert_ge by lia. done.
Qed.
Lemma steps_left_finish s s1 t x id : threads s !! t = Some x -> (0 < weight s x)%nat -> threads s1 = threads s -> main s1 = main s ->
  (forall j, queue_len s1 j <= queue_len s j)%nat -> (steps_left (finish_round t id s1) < steps_left s)%nat.
Proof.
  intros Hx Hw Ht Hm Hq. destruct (finish_fields t id s1) as (F1 & F2 & _ & _ & _ & _ & _ & F8).
  apply (steps_left_thread s _ t x (Waiting id)); [done|by rewrite F1, Ht| |exact Hw|].
  - intros j. unfold queue_len at 1. rewrite F2. apply Hq.
  - rewrite F8, Hm. destruct (_ =? 0); [|lia]. destruct (main s); cbn; lia.
Qed.
Lemma run_decreases d s s' : run d s s' -> (steps_left s' < steps_left s)%nat.
Proof.
  intros [t s1 Hr Hrun|Hr].
  - unfold runnable in Hr. unfold voice_worker_thread in Hrun. destruct (threads s !! t) as [x|] eqn:Ht; [|done].
    destruct x as [|?|id|id i|]; try done.
    + destruct (fetch (queues s) _); [|discriminate Hrun]. injection Hrun as <-. apply (steps_left_finish s _ t Starting); [done|cbn; lia|done|done|].
      by eapply queue_len_clear.
    + destruct (workers_should_exit s).
      * injection Hrun as <-. apply (steps_left_thread s _ t (Woken id) Exited); [done|done|done|cbn; lia|done].
      * unfold fetch in Hrun. rewrite (proj2 (Z.ltb_ge (Z.of_nat id) 0)), Nat2Z.id in Hrun by lia.
        destruct (queues s !! id) as [q|] eqn:Hq; [|discriminate Hrun]. cbn [mbind result_mbind result_bind] in Hrun.
        destruct q as [|it q1]; injection Hrun as <-; [apply (steps_left_finish s s t (Woken id)); [done|cbn; lia|done|done|done]|].
        apply (steps_left_thread s _ t (Woken id) (Busy id 0)); [done|done|done| |done]. unfold set_thread. cbn [weight]. unfold queue_len. proj_red. lia.
    + unfold fetch in Hrun. rewrite (proj2 (Z.ltb_ge (Z.of_nat id) 0)), Nat2Z.id in Hrun by lia.
      destruct (queues s !! id) as [q|] eqn:Hq; [|discriminate Hrun]. cbn [mbind result_mbind result_bind] in Hrun.
      destruct (worker_mixbins s !! id) as [bins|]; [|discriminate Hrun]. cbn [mbind result_mbind result_bind] in Hrun.
      destruct (q !! i) as [it|] eqn:Hit; injection Hrun as <-.
      * apply lookup_lt_Some in Hit. apply (steps_left_thread s _ t (Busy id i) (Busy id (i + 1))); [done|done|done| |done].
        unfold set_thread. cbn [weight]. unfold queue_len. proj_red. rewrite Hq. lia.
      * apply (steps_left_finish s _ t (Busy id i)); [done|cbn; lia|done|done|]. by eapply queue_len_clear.
  - assert (forall s1, threads s1 = threads s -> queues s1 = queues s -> (main_weight (main s1) < main_weight (main s))%nat ->
      (steps_left s1 < steps_left s)%nat) as Hmain.
    { intros s1 Ht Hq Hw. unfold steps_left. rewrite Ht. enough (map (weight s1) (threads s) = map (weight s) (threads s)) as -> by lia.
      apply map_ext. intros []; cbn [weight]; unfold queue_len; by rewrite ?Hq. }
    unfold main_runnable in Hr. unfold main_run. destruct (main s) eqn:Em; try done; repeat case_match; apply Hmain; rewrite ?Em; cbn; (done || lia).
Qed.
Lemma runs_bounded d k s s' : nsteps (run d) k s s' -> (k <= steps_left s)%nat.
Proof. induction 1 as [|k s1 s2 s3 Hr _ IH]; [lia|]. apply run_decreases in Hr. lia. Qed.

(** A worker with voices has a thread that can run, so the frame never stops. *)
Lemma work_exists s : pending_ok s -> workers_pending s <> 0 -> exists i q, queues s !! i = Some q /\ q <> [].
Proof.
  intros Hp H0. destruct (existsb (has_work s) (seq 0 (length (queues s)))) eqn:E.
  - apply existsb_exists in E as (i & _ & Hw). unfold has_work in Hw. destruct (queues s !! i) as [q|] eqn:Hq; [|done].
    exists i, q. split; [done|]. by destruct q.
  - destruct H0. apply (pending_zero s Hp). intros i. destruct (decide (i < length (queues s))%nat) as [Hi|Hi].
    + destruct (has_work s i) eqn:Hw; [|done]. rewrite <- E. symmetry. apply existsb_exists. exists i. split; [apply in_seq; lia|done].
    + unfold has_work. by rewrite lookup_ge_None_2 by lia.
Qed.
Lemma frame_progress n d sound before s : frame_inv n d sound before s -> main s <> Ready -> exists s', run d s s'.
Proof.
  intros Hi Hm. pose proof (fi_main _ _ _ _ _ Hi) as Hok. unfold main_ok in Hok. destruct (main s) eqn:Em; try done.
  - destruct Hok as (H0 & _ & _). destruct (work_exists s (fi_pending _ _ _ _ _ Hi) H0) as (id & q & Hq & Hne).
    destruct (staffed_thread n s id (fi_staffed _ _ _ _ _ Hi)) as (t & x & Ht & Hx).
    { rewrite <- (sf_queues _ _ (fi_staffed _ _ _ _ _ Hi)). by eapply lookup_lt_Some. }
    assert (runnable s t = true) as Hr.
    { unfold runnable. rewrite Ht. pose proof (fi_threads _ _ _ _ _ Hi t x Ht) as Hxo. destruct x as [|j|j|j i|]; try done.
      cbn in Hx, Hxo. injection Hx as ->. congruence. }
    destruct (frame_thread _ _ _ _ _ t Hi Hr) as (s' & Hrun & _). exists s'. by apply (run_thread d s t).
  - exists (main_run s). apply run_main. unfold main_runnable. by rewrite Em.
Qed.

(** ** Between frames *)

Record ready (n : nat) s : Prop := {
  rd_staffed : staffed n s; rd_exit : workers_should_exit s = false; rd_pending : workers_pending s = 0;
  rd_queues : queues s = repeat [] n; rd_idle : forall t id i, threads s !! t <> Some (Busy id i); rd_main : main s = Ready;
}.
Lemma all_empty (qs : list (list VoiceWorkItem)) : (forall i q, qs !! i = Some q -> q = []) -> qs = repeat [] (length qs).
Proof.
  induction qs as [|q qs IH]; intros Hq; [done|]. cbn. rewrite (Hq 0%nat q eq_refl). f_equal. apply IH. intros i q' Hi.
  by apply (Hq (Datatypes.S i)).
Qed.
Lemma frame_ready n d sound before s : frame_inv n d sound before s -> main s = Ready -> ready n s.
Proof.
  intros [Hs He Hok Hp Hm] Em. unfold main_ok in Hm. rewrite Em in Hm. destruct Hm as [H0 _].
  assert (forall i q, queues s !! i = Some q -> q = []) as Hq.
  { intros i q Hi. pose proof (proj1 (pending_zero s Hp) H0 i) as Hw. unfold has_work in Hw. rewrite Hi in Hw. by destruct q. }
  constructor; [done|done|done|rewrite <- (sf_queues _ _ Hs); by apply all_empty| |done].
  intros t id i Ht. destruct (Hok t _ Ht) as (q & Hq1 & Hne & _). by apply Hne, (Hq id).
Qed.

Lemma ids_wake (l : list thread) : omap thread_id (map wake l) = omap thread_id l.
Proof. induction l as [|x l IH]; [done|]. cbn [map]. rewrite !ids_cons, IH. by destruct x. Qed.
Lemma wake_lookup (l : list thread) t y : map wake l !! t = Some y -> exists x, l !! t = Some x /\ y = wake x.
Proof. intros H. apply list_lookup_fmap_Some in H as (x & -> & Hx). by exists x. Qed.
Lemma ready_woken n s t y : ready n s -> map wake (threads s) !! t = Some y -> exists id, y = Woken id /\ (id < n)%nat.
Proof.
  intros Hr [x [Hx ->]]%wake_lookup. destruct (sf_id _ _ (rd_staffed _ _ Hr) t x Hx) as (id & Hid & Hlt). exists id. split; [|done].
  destruct x as [|?|?|j i|]; try done; cbn in Hid; try (by injection Hid as ->). destruct (rd_idle _ _ Hr t j i Hx).
Qed.

Definition sched_ok (c : sched) : Prop :=
  forall i : nat, Z.testbit (pending c) (Z.of_nat i) = match workers c !! i with Some (_ :: _) => true | _ => false end.
Lemma schedule_pool d items : forall c c', schedule_queue d items c = Ok c' -> sched_ok c ->
  sched_ok c' /\ length (workers c') = length (workers c) /\ (items <> [] \/ pending c <> 0 -> pending c' <> 0).
Proof.
  induction items as [|it items IH]; intros c c'; cbn [schedule_queue]; [intros [= <-] Hc; split_and!; [done|done|by intros [|]]|].
  destruct (schedule_voice d it c) as [c1|] eqn:E; [|discriminate 1]. cbn [mbind result_mbind result_bind]. intros Hrun Hc.
  destruct (get_voice_bin_src_dst d (voice it)) as [[src dst] clr] eqn:Hb.
  destruct (schedule_inv d it c c1 src dst clr Hb E) as (_ & _ & q & Hq & Hn & E1). cbv zeta in E1. clear E Hb.
  assert (pending c1 = Z.lor (pending c) (bit (next_worker c))) as P1 by (by rewrite E1).
  assert (workers c1 = <[Z.to_nat (next_worker c) := q ++ [it]]> (workers c)) as W1 by (by rewrite E1).
  destruct (IH c1 c' Hrun) as (Hc' & Hl & Hne).
  - intros i. rewrite P1, W1, Z.lor_spec, Hc, Z.shiftl_1_l. destruct (decide (i = Z.to_nat (next_worker c))) as [->|Hni].
    + rewrite Z2Nat.id, Z.pow2_bits_true, orb_true_r, list_lookup_insert_eq by (lia || by eapply lookup_lt_Some). by destruct q.
    + rewrite Z.pow2_bits_false, orb_false_r, list_lookup_insert_ne by lia. done.
  - split; [done|]. split; [by rewrite Hl, W1, length_insert|]. intros _. apply Hne. right. rewrite P1. intros [_ H]%Z.lor_eq_0_iff.
    rewrite Z.shiftl_1_l in H. pose proof (Z.pow_pos_nonneg 2 (next_worker c)). lia.
Qed.

Lemma dispatch_inv n d s s1 : ready n s -> vw_queue (vp d) <> [] -> Forall (fun it => plays_ok d (voice it)) (vw_queue (vp d)) ->
  voice_work_dispatch d s = Ok s1 -> frame_inv n d (mix_queue d (vw_queue (vp d)) no_sound) (output s) s1.
Proof.
  intros Hr Hne Hplay. unfold voice_work_dispatch. destruct (vw_queue (vp d)) as [|it0 items] eqn:Eq; [done|]. rewrite <- Eq in *. clear Eq it0 items.
  unfold voice_work_schedule. proj_red. rewrite (rd_queues _ _ Hr), (rd_pending _ _ Hr).
  destruct (schedule_queue d (vw_queue (vp d)) (mkSched (repeat [] n) 0 0 false 0)) as [c|] eqn:E; [|discriminate 1].
  cbn [mbind result_mbind result_bind]. intros [= <-]. unfold broadcast.
  assert (forall i, match repeat (@nil VoiceWorkItem) n !! i with Some (_ :: _) => true | _ => false end = false) as H0.
  { intros i. destruct (repeat [] n !! i) as [q|] eqn:Hq; [|done]. by apply list_elem_of_lookup_2, list_elem_of_In, repeat_spec in Hq as ->. }
  destruct (schedule_pool d _ _ c E) as (Hc & Hl & Hp); [intros i; cbn [pending workers]; by rewrite H0, Z.testbit_0_l|].
  cbn [workers] in Hl. rewrite repeat_length in Hl. destruct (rd_staffed _ _ Hr) as [S1 S2 S3 S4 S5].
  assert (0 < n)%nat as Hn.
  { destruct n; [|lia]. destruct (vw_queue (vp d)) as [|it items] eqn:Eq; [done|]. cbn [schedule_queue] in E.
    destruct (schedule_voice d it _) as [c1|] eqn:E1; [|discriminate E].
    destruct (get_voice_bin_src_dst d (voice it)) as [[src dst] clr] eqn:Hb.
    by destruct (schedule_inv d it _ c1 src dst clr Hb E1) as (_ & _ & q & Hq & _). }
  constructor.
  - constructor; unfold worker_ids; proj_red; [by rewrite length_map|done|done|by rewrite ids_wake|].
    intros t y Hy. destruct (ready_woken n s t y Hr Hy) as (id & -> & Hlt). by exists id.
  - proj_red. apply Hr.
  - intros t y. proj_red. intros Hy. by destruct (ready_woken n s t y Hr Hy) as (id & -> & _).
  - intros i. unfold has_work. proj_red. apply Hc.
  - unfold main_ok. proj_red. split; [apply Hp; by left|]. split; [|done]. intros b. proj_red. unfold no_sound at 1. rewrite zero_madd.
    by apply (dealt_mix d n _ 0).
Qed.

(** No assertion has failed and no access is out of bounds; the run goes on until the
    main thread is at [stop], and ends. *)
Definition orderly d (stop : main_thread) s : Prop :=
  main s <> Aborted /\
  (forall t, runnable s t = true -> exists s', voice_worker_thread d t s = Ok s') /\
  (main s <> stop -> exists s', run d s s') /\
  (forall k s', nsteps (run d) k s s' -> (k <= steps_left s)%nat).


(** ** Start-up *)

Lemma ctz_from_spec n : forall i x j, i <= j < i + Z.of_nat n -> Z.testbit x j = true ->
  Z.testbit x (ctz_from n i x) = true /\ i <= ctz_from n i x.
Proof.
  induction n as [|n IH]; intros i x j Hj Hb; [lia|]. cbn [ctz_from]. destruct (Z.testbit x i) eqn:E; [by split; [|lia]|].
  assert (i <> j) by congruence. destruct (IH (i + 1) x j) as [? ?]; [lia|done|]. by split; [|lia].
Qed.
Definition starts (x : thread) : Prop := match x with Starting | Waiting _ | Woken _ => True | _ => False end.
Record init_inv (n : nat) s : Prop := {
  ii_threads : length (threads s) = n; ii_bins : length (worker_mixbins s) = n; ii_queues : queues s = repeat [] n;
  ii_n : (1 <= n <= 16)%nat; ii_ids : NoDup (worker_ids s); ii_exit : workers_should_exit s = false;
  ii_starts : forall t x, threads s !! t = Some x -> starts x;
  ii_id : forall i : nat, i ∈ worker_ids s -> (i < n)%nat;
  ii_pending : forall i : nat, Z.testbit (workers_pending s) (Z.of_nat i) = bool_decide (i < n)%nat && negb (bool_decide (i ∈ worker_ids s));
  ii_main : match main s with InitWait => workers_pending s <> 0 | InitWoken | Ready => workers_pending s = 0 | _ => False end;
}.
Lemma omap_all (l : list thread) : (length l <= length (omap thread_id l))%nat -> forall t x, l !! t = Some x -> exists id, thread_id x = Some id.
Proof.
  assert (forall l : list thread, length (omap thread_id l) <= length l)%nat as Hle.
  { clear l. induction l as [|a l IH]; [done|]. rewrite ids_cons. destruct (thread_id a); cbn [length]; lia. }
  induction l as [|a l IH]; intros Hl [|t] x Hx; try done; rewrite ids_cons in Hl.
  - injection Hx as ->. destruct (thread_id x) as [id|]; [by exists id|]. cbn [length] in Hl. specialize (Hle l). lia.
  - apply (IH) with t; [|done]. destruct (thread_id a); cbn [length] in Hl; [lia|]. specialize (Hle l). lia.
Qed.
(** Nobody is pending when all threads have run. *)
Lemma init_staffed n s : init_inv n s -> workers_pending s = 0 -> staffed n s.
Proof.
  intros [H1 H2 H3 H4 H5 H6 H7 H8 H9 H10] H0. constructor; [done|by rewrite H3, repeat_length|done|done|].
  assert (n <= length (worker_ids s))%nat as Hlen.
  { rewrite <- (length_seq n 0). apply submseteq_length, NoDup_submseteq; [apply NoDup_seq|]. intros i Hi%elem_of_seq.
    specialize (H9 i). rewrite H0, Z.testbit_0_l, bool_decide_true in H9 by lia. cbn [andb] in H9.
    destruct (bool_decide (i ∈ worker_ids s)) eqn:E; [by apply bool_decide_eq_true in E|done]. }
  intros t x Hx. destruct (omap_all (threads s)) with t x as [id Hid]; [by rewrite H1|done|]. exists id. split; [done|].
  apply H8. by eapply ids_elem.
Qed.
Lemma init_ready n s : init_inv n s -> main s = Ready -> ready n s.
Proof.
  intros Hi Em. pose proof (ii_main _ _ Hi) as Hm. rewrite Em in Hm. constructor; [by apply init_staffed|apply Hi|done|apply Hi| |done].
  intros t id i Ht. by apply (ii_starts _ _ Hi t _ Ht).
Qed.
Lemma init_pending n s : init_inv n s -> workers_pending s <> 0 -> exists i, (i < n)%nat /\ Z.testbit (workers_pending s) (Z.of_nat i) = true.
Proof.
  intros Hi H0. destruct (existsb (fun i => Z.testbit (workers_pending s) (Z.of_nat i)) (seq 0 n)) eqn:E.
  - apply existsb_exists in E as (i & Hin & Hb). apply in_seq in Hin. exists i. by split; [lia|].
  - destruct H0. apply Z.bits_inj'. intros i Hi0. rewrite Z.testbit_0_l, <- (Z2Nat.id i Hi0). destruct (Z.testbit _ _) eqn:Hb; [|done].
    exfalso. pose proof (ii_pending _ _ Hi (Z.to_nat i)) as Hp. rewrite Hb in Hp. symmetry in Hp. apply andb_true_iff in Hp as [Hlt%bool_decide_eq_true _].
    enough (true = false) by done. rewrite <- E. symmetry. apply existsb_exists. exists (Z.to_nat i). split; [apply in_seq; lia|done].
Qed.
Lemma lookup_empty_queue (n i : nat) : (i < n)%nat -> repeat (@nil VoiceWorkItem) n !! i = Some [].
Proof.
  intros Hi. destruct (lookup_lt_is_Some_2 (repeat (@nil VoiceWorkItem) n) i) as [q Hq]; [by rewrite repeat_length|].
  rewrite Hq. by apply list_elem_of_lookup_2, list_elem_of_In, repeat_spec in Hq as ->.
Qed.
Lemma starts_insert (l : list thread) t y : starts y -> (forall t x, l !! t = Some x -> starts x) ->
  forall t' x, <[t := y]> l !! t' = Some x -> starts x.
Proof.
  intros Hy Hl t' x. destruct (decide (t' = t)) as [->|Hne]; [|rewrite list_lookup_insert_ne by done; apply Hl].
  intros Hx. apply lookup_lt_Some in Hx as Hlt. rewrite length_insert in Hlt. rewrite list_lookup_insert_eq in Hx by done. by injection Hx as <-.
Qed.
(** A thread that starts takes a number nobody has. *)
Lemma init_start n d s t : init_inv n s -> threads s !! t = Some Starting ->
  exists s', voice_worker_thread d t s = Ok s' /\ init_inv n s'.
Proof.
  intros Hi Ht. assert (workers_pending s <> 0) as H0.
  { intros H0. by destruct (sf_id _ _ (init_staffed n s Hi H0) t _ Ht) as (id & ? & _). }
  destruct (init_pending n s Hi H0) as (j & Hj & Hbj). destruct Hi as [H1 H2 H3 H4 H5 H6 H7 H8 H9 H10].
  destruct (ctz_from_spec 64 0 (workers_pending s) (Z.of_nat j)) as [Hb Hc0]; [lia|done|]. fold (ctz64 (workers_pending s)) in *.
  set (c := ctz64 (workers_pending s)) in *. assert (exists id, c = Z.of_nat id) as [id Ec] by (exists (Z.to_nat c); lia).
  rewrite Ec in Hb. pose proof (H9 id) as Hid. rewrite Hb in Hid. symmetry in Hid.
  apply andb_true_iff in Hid as [Hlt%bool_decide_eq_true Hni%negb_true_iff%bool_decide_eq_false].
  unfold voice_worker_thread. rewrite Ht. cbv zeta. fold c. rewrite H3, Ec, (fetch_nat _ _ [] (lookup_empty_queue n id Hlt)), Nat2Z.id.
  cbn [mbind result_mbind result_bind]. eexists. split; [reflexivity|]. set (s1 := s <| queues ::= _ |>).
  destruct (finish_fields t id s1) as (F1 & F2 & F3 & F4 & F5 & F6 & F7 & F8). change (threads s1) with (threads s) in F1.
  assert (worker_ids (finish_round t id s1) ≡ₚ id :: worker_ids s) as Hids by (unfold worker_ids; rewrite F1; by apply ids_start).
  constructor; [by rewrite F1, length_insert|by rewrite F3| |done|rewrite Hids; by apply NoDup_cons|by rewrite F5| | | |].
  - rewrite F2. change (queues s1) with (<[id := []]> (queues s)). rewrite H3. apply list_insert_id. by apply lookup_empty_queue.
  - rewrite F1. by apply starts_insert.
  - intros i. rewrite Hids. intros [->|Hin]%elem_of_cons; [done|by apply H8].
  - intros i. rewrite F4. change (workers_pending s1) with (workers_pending s). rewrite Z.ldiff_spec, H9, Z.shiftl_1_l.
    rewrite (bool_decide_ext (i ∈ worker_ids (finish_round t id s1)) (i = id \/ i ∈ worker_ids s)) by (rewrite Hids; apply elem_of_cons).
    destruct (decide (i = id)) as [->|Hne].
    + rewrite Z.pow2_bits_true by lia. rewrite (bool_decide_true (id = id \/ _)) by (by left). cbn [negb]. by rewrite !andb_false_r.
    + rewrite Z.pow2_bits_false, andb_true_r by lia. do 2 f_equal. apply bool_decide_ext. split; [by right|by intros [|]].
  - rewrite F8, F4. change (workers_pending s1) with (workers_pending s). change (main s1) with (main s).
    destruct (Z.eqb_spec (Z.ldiff (workers_pending s) (bit (Z.of_nat id))) 0); destruct (main s); cbn [signalled]; (done || congruence).
Qed.
Lemma init_idle n s t id : init_inv n s -> threads s !! t = Some (Woken id) -> init_inv n (finish_round t id s).
Proof.
  intros [H1 H2 H3 H4 H5 H6 H7 H8 H9 H10] Ht. destruct (finish_fields t id s) as (F1 & F2 & F3 & F4 & F5 & F6 & F7 & F8).
  assert (id ∈ worker_ids s) as Hin by (by eapply ids_elem).
  assert (Z.ldiff (workers_pending s) (bit (Z.of_nat id)) = workers_pending s) as Hsame.
  { apply Z.bits_inj'. intros i Hi0. rewrite Z.ldiff_spec, Z.shiftl_1_l. destruct (decide (i = Z.of_nat id)) as [->|].
    - rewrite H9, (bool_decide_true (id ∈ _)) by done. by rewrite andb_false_r.
    - rewrite Z.pow2_bits_false by lia. apply andb_true_r. }
  assert (worker_ids (finish_round t id s) = worker_ids s) as Hids by (unfold worker_ids; rewrite F1; by apply (ids_same _ _ (Woken id))).
  constructor; rewrite ?Hids, ?F4, ?Hsame, ?F5, ?F2, ?F3, ?F1; try done.
  - by rewrite length_insert.
  - by apply starts_insert.
  - rewrite F8, Hsame. destruct (Z.eqb_spec (workers_pending s) 0); destruct (main s); done.
Qed.
Lemma init_thread n d s t : init_inv n s -> runnable s t = true -> exists s', voice_worker_thread d t s = Ok s' /\ init_inv n s'.
Proof.
  intros Hi Hr. unfold runnable in Hr. destruct (threads s !! t) as [x|] eqn:Ht; [|done].
  pose proof (ii_starts _ _ Hi t x Ht) as Hx. destruct x as [|?|id|? ?|]; try done; [by apply (init_start n d s t)|].
  exists (finish_round t id s). split; [|by apply init_idle]. unfold voice_worker_thread. rewrite Ht, (ii_exit _ _ Hi), (ii_queues _ _ Hi).
  rewrite (fetch_nat _ _ [] (lookup_empty_queue n id ltac:(apply (ii_id _ _ Hi); by eapply ids_elem))). done.
Qed.
Lemma init_steps n d s s' : rtc (step d) s s' -> init_inv n s -> init_inv n s'.
Proof.
  induction 1 as [|s1 s2 s3 Hstep _ IH]; [done|]. intros Hi. apply IH. destruct Hstep as [s2 [t s2' Hr Hrun|Hr]|t id Ht].
  - destruct (init_thread n d s1 t Hi Hr) as (s4 & E & H4). rewrite Hrun in E. injection E as <-. exact H4.
  - destruct Hi as [H1 H2 H3 H4 H5 H6 H7 H8 H9 H10]. unfold main_runnable in Hr. unfold main_run. destruct (main s1); try done.
    rewrite H10. cbn [Z.eqb]. by constructor.
  - destruct Hi as [H1 H2 H3 H4 H5 H6 H7 H8 H9 H10].
    assert (worker_ids (set_thread t (Woken id) s1) = worker_ids s1) as Hids by (by apply (ids_same _ _ (Waiting id))).
    constructor; rewrite ?Hids; try done; unfold set_thread; proj_red; [by rewrite length_insert|by apply starts_insert].
Qed.
Lemma init_progress n d s : init_inv n s -> main s <> Ready -> exists s', run d s s'.
Proof.
  intros Hi Hm. pose proof (ii_main _ _ Hi) as Hok. destruct (main s) eqn:Em; try done.
  - destruct (existsb (fun x => bool_decide (x = Starting)) (threads s)) eqn:E.
    + apply existsb_exists in E as (x & Hin & ->%bool_decide_eq_true). apply list_elem_of_In, list_elem_of_lookup in Hin as [t Ht].
      destruct (init_start n d s t Hi Ht) as (s' & Hrun & _). exists s'. apply (run_thread d s t); [|done]. unfold runnable. by rewrite Ht.
    + exfalso. destruct (init_pending n s Hi Hok) as (i & Hlt & Hb). rewrite (ii_pending _ _ Hi) in Hb.
      apply andb_true_iff in Hb as [_ Hni%negb_true_iff%bool_decide_eq_false]. apply Hni.
      assert (staffed n s) as Hs; [|destruct (staffed_thread n s i Hs Hlt) as (t & x & Ht & Hx); by eapply ids_elem].
      constructor; [apply Hi|by rewrite (ii_queues _ _ Hi), repeat_length|apply Hi|apply Hi|]. intros t x Ht.
      assert (x <> Starting) as Hne.
      { intros ->. enough (true = false) by done. rewrite <- E. symmetry. apply existsb_exists. exists Starting.
        split; [by eapply list_elem_of_In, list_elem_of_lookup_2|by apply bool_decide_true]. }
      pose proof (ii_starts _ _ Hi t x Ht) as Hx. assert (exists id, thread_id x = Some id) as [id Hid] by (destruct x; try done; by eexists).
      exists id. split; [done|]. apply (ii_id _ _ Hi). by eapply ids_elem.
  - exists (main_run s). apply run_main. unfold main_runnable. by rewrite Em.
Qed.

(** ** Shutdown *)

Record exit_inv s : Prop := {
  ei_exit : workers_should_exit s = true;
  ei_threads : forall t x, threads s !! t = Some x -> x = Exited \/ exists id, x = Woken id;
  ei_main : main s = Joining \/ main s = Joined /\ Forall (fun x => x = Exited) (threads s);
}.
Lemma exit_thread d s t : exit_inv s -> runnable s t = true -> exists s', voice_worker_thread d t s = Ok s' /\ exit_inv s'.
Proof.
  intros [He Ht Hm] Hr. unfold runnable in Hr. unfold voice_worker_thread. destruct (threads s !! t) as [x|] eqn:Hx; [|done].
  destruct (Ht t x Hx) as [->|[id ->]]; [done|]. rewrite He. eexists. split; [reflexivity|]. unfold set_thread.
  constructor; proj_red; [done| |].
  - intros t' y. destruct (decide (t' = t)) as [->|Hne]; [|rewrite list_lookup_insert_ne by done; apply Ht].
    rewrite list_lookup_insert_eq by (by eapply lookup_lt_Some). intros [= <-]. by left.
  - destruct Hm as [->|[-> Hall]]; [by left|]. right. split; [done|]. by apply Forall_insert.
Qed.
Lemma exit_steps d s s' : rtc (step d) s s' -> exit_inv s -> exit_inv s'.
Proof.
  induction 1 as [|s1 s2 s3 Hstep _ IH]; [done|]. intros Hi. apply IH. destruct Hstep as [s2 [t s2' Hr Hrun|Hr]|t id Ht].
  - destruct (exit_thread d s1 t Hi Hr) as (s4 & E & H4). rewrite Hrun in E. injection E as <-. exact H4.
  - destruct Hi as [He Ht Hm]. unfold main_runnable in Hr. unfold main_run. destruct (main s1); try done; [by destruct Hm as [?|[? _]]..|].
    constructor; proj_red; [done|done|]. right. split; [done|]. apply Forall_forall. intros x Hx%list_elem_of_In.
    rewrite forallb_forall in Hr. by apply Hr, bool_decide_eq_true in Hx.
  - destruct (ei_threads _ Hi t _ Ht) as [?|[? ?]]; discriminate.
Qed.
Lemma exit_progress d s : exit_inv s -> main s <> Joined -> exists s', run d s s'.
Proof.
  intros Hi Hm. destruct (ei_main _ Hi) as [Em|[? _]]; [|done].
  destruct (forallb (fun x => bool_decide (x = Exited)) (threads s)) eqn:E.
  - exists (main_run s). apply run_main. unfold main_runnable. by rewrite Em.
  - assert (exists x, x ∈ threads s /\ x <> Exited) as (x & [t Hx]%list_elem_of_lookup & Hne).
    { revert E. clear. generalize (threads s). intros l. induction l as [|a l IH]; [done|]. cbn [forallb].
      destruct (bool_decide (a = Exited)) eqn:Ea; cbn [andb].
      - intros (x & Hx & Hne)%IH. exists x. split; [apply elem_of_cons; by right|done].
      - intros _. exists a. split; [apply elem_of_cons; by left|by apply bool_decide_eq_false in Ea]. }
    assert (runnable s t = true) as Hr by (unfold runnable; rewrite Hx; destruct (ei_threads _ Hi t x Hx) as [|[id ->]]; done).
    destruct (exit_thread d s t Hi Hr) as (s' & Hrun & _). exists s'. by apply (run_thread d s t).
Qed.
Lemma finalize_inv n s : ready n s -> exit_inv (voice_work_finalize s).
Proof.
  intros Hr. unfold voice_work_finalize, broadcast. constructor; proj_red; [done| |by left]. intros t y Hy.
  destruct (ready_woken n s t y Hr Hy) as (id & -> & _). right. by exists id.
Qed.

(** The workers a configuration asks for. *)
Definition num_workers_of (configured : Z) : nat := Z.to_nat (Z.max 1 (Z.min configured MAX_VOICE_WORKERS)).
Lemma voice_work_init_inv configured : init_inv (num_workers_of configured) (voice_work_init configured).
Proof.
  unfold voice_work_init. fold (num_workers_of configured). set (n := num_workers_of configured).
  assert (1 <= n <= 16)%nat as Hn by (unfold n, num_workers_of, MAX_VOICE_WORKERS; lia).
  assert (worker_ids (mkPool (repeat Starting n) InitWait (repeat [] n) (repeat no_sound n) (Z.ones (Z.of_nat n)) false no_sound no_sound) = []) as Hids.
  { unfold worker_ids. cbn [threads]. clear Hn. induction n as [|n IH]; [done|]. cbn [repeat]. by rewrite ids_cons, IH. }
  constructor; rewrite ?Hids; cbn [threads worker_mixbins queues workers_should_exit workers_pending main].
  - apply repeat_length.
  - apply repeat_length.
  - done.
  - done.
  - apply NoDup_nil_2.
  - done.
  - intros t x Hx. by apply list_elem_of_lookup_2, list_elem_of_In, repeat_spec in Hx as ->.
  - intros i []%elem_of_nil.
  - intros i. rewrite Z.testbit_ones by lia. rewrite (bool_decide_false (i ∈ [])) by (intros []%elem_of_nil). cbn [negb].
    rewrite andb_true_r. destruct (Z.ltb_spec (Z.of_nat i) (Z.of_nat n)); [rewrite bool_decide_true|rewrite bool_decide_false]; lia.
  - rewrite Z.ones_equiv. pose proof (Z.pow_gt_1 2 (Z.of_nat n)). lia.
Qed.

End Threads.

(** ** Witnesses *)

#[export] Instance whole_samples : Samples Z := {| mzero := 0; madd := Z.add |}.
#[export] Instance whole_samples_laws : SamplesLaws Z.
Proof. split; cbn; intros; lia. Qed.
(** A voice of its own plays its number, a multipass voice ten times its input. *)
#[export] Instance numbers : VoicePlay Z := fun v input => Some (repeat (match input with Some x => 10 * x | None => v end) 8).

(** Voice 70 feeds bin 31, which voice 71 plays. *)
Definition group_queue : list VoiceWorkItem := [mkItem 72 0; mkItem 70 0; mkItem 71 2; mkItem 73 0].
Definition group_device : VpDevice unit :=
  voice_set_mask 70 NV_PAVS_VOICE_CFG_VBIN NV_PAVS_VOICE_CFG_VBIN_V0BIN 31
    (voice_set_mask 71 NV_PAVS_VOICE_CFG_FMT 0xFFFFFFFF
      (Z.lor (Z.shiftl 31 16) (Z.lor NV_PAVS_VOICE_CFG_FMT_MULTIPASS NV_PAVS_VOICE_CFG_FMT_CLEAR_MIX))
      (quiet id <| vp ::= fun p => p <| vw_queue := group_queue |> |>)).
Lemma group_plays : Forall (fun it => plays_ok group_device (voice it)) group_queue.
Proof.
  assert (forall it, is_multipass group_device (voice it) = false -> plays_ok group_device (voice it)) as Hplain
    by (intros it E; unfold plays_ok; rewrite E; discriminate).
  apply Forall_cons_2; [apply Hplain; vm_compute; reflexivity|]. apply Forall_cons_2; [apply Hplain; vm_compute; reflexivity|].
  apply Forall_cons_2; [|apply Forall_cons_2; [apply Hplain; vm_compute; reflexivity|apply Forall_nil_2]].
  intros _. split; [vm_compute; reflexivity|]. split; [apply (bool_decide_unpack _); vm_compute; exact I|].
  apply (bool_decide_unpack _). vm_compute. exact I.
Qed.

(** A run by the order of its threads; [None] is the main thread. *)
Fixpoint exec (d : VpDevice unit) (order : list (option nat)) (s : VoiceWorkDispatch Z) : option (VoiceWorkDispatch Z) :=
  match order with
  | [] => Some s
  | Some t :: order =>
      if runnable s t then match voice_worker_thread d t s with Ok s => exec d order s | Fault _ => None end else None
  | None :: order => if main_runnable s then exec d order (main_run s) else None
  end.
Lemma exec_steps d order : forall s s', exec d order s = Some s' -> rtc (step d) s s'.
Proof.
  induction order as [|[t|] order IH]; intros s s'; cbn [exec]; [by intros [= ->]| |].
  - destruct (runnable s t) eqn:Hr; [|discriminate 1]. destruct (voice_worker_thread d t s) as [s1|] eqn:Hrun; [|discriminate 1].
    intros H. apply rtc_l with s1; [|by apply IH]. by apply step_run, (run_thread d s t).
  - destruct (main_runnable s) eqn:Hr; [|discriminate 1]. intros H. apply rtc_l with (main_run s); [|by apply IH]. by apply step_run, run_main.
Qed.

(** Two workers; the second thread is first. *)
Definition two_workers : VoiceWorkDispatch Z :=
  mkPool [Waiting 1; Waiting 0] Ready [[]; []] [no_sound; no_sound] 0 false no_sound no_sound.
Lemma two_workers_started : exec group_device [Some 1%nat; Some 0%nat; None] (voice_work_init 2) = Some two_workers.
Proof. vm_compute. reflexivity. Qed.
Lemma two_workers_ready : ready 2 two_workers.
Proof. refine (init_ready 2 _ (init_steps 2 group_device _ _ (exec_steps _ _ _ _ two_workers_started) (voice_work_init_inv 2)) eq_refl). Qed.


(** The first worker gets voices 72 and 73, the second 70 and 71. *)
Definition frame_order : list (option nat) :=
  [Some 0%nat; Some 1%nat; Some 0%nat; Some 1%nat; Some 1%nat; Some 0%nat; Some 0%nat; Some 1%nat; None].
