(* ===== verification/VpVoice.v ===== *)
(** * The voice processor: envelopes and samples
    (src/xemu/hw/xbox/mcpx/apu/vp/vp.c, fpconv.h)

    Every frame a voice steps its two envelopes, state machines whose state, counter and
    level are fields of the voice, and fetches samples from a buffer behind page tables or
    from a stream of segments.  Floating-point numbers are those of CFloat; the power
    function of the C library is a parameter.  Samples are kept as integers scaled to 32
    bits, before their conversion to floating point. *)

From Stdlib Require Import SpecFloat.
From S2P Require Import Prelude CFloat GpEp Adpcm VpCore.

Definition f_255 : spec_float := f_of_Z 255.
Definition f_0_2 : spec_float := S754_finite false 13421773 (-26).
Definition f_decay : spec_float := S754_finite false 16775337 (-24).
Definition f_e : spec_float := S754_finite false 11401300 (-22).
Definition d_neg_6_91 : spec_float := S754_finite true 7779968356282532 (-50).
Definition d_16 : spec_float := d_of_Z 16.
Definition d_one : spec_float := d_of_Z 1.

(** The conversion of a [float] to [uint32_t], undefined for a value that does not fit. *)
Definition uint32_of_float (f : spec_float) : result Z :=
  match f with
  | S754_zero _ => Ok 0
  | S754_finite sign m e =>
      let t := if 0 <=? e then Zpos m * 2 ^ e else Zpos m / 2 ^ (- e) in
      let v := if sign then - t else t in
      if (0 <=? v) && (v <? 2 ^ 32) then Ok v else Fault BadCast
  | _ => Fault BadCast
  end.
Definition clampf (v min max : spec_float) : spec_float :=
  if SFltb v min then min else if SFltb max v then max else v.

Class CMath := powf : spec_float -> spec_float -> spec_float.

(** The fields of one of the two envelopes: what [voice_process] passes. *)
Record envelope := mkEnv {
  reg_0 : Z; reg_a : Z; rr_reg : Z; rr_mask : Z; lvl_reg : Z; lvl_mask : Z; count_mask : Z; cur_mask : Z;
}.
Definition env_filter : envelope :=
  mkEnv NV_PAVS_VOICE_CFG_ENV1 NV_PAVS_VOICE_CFG_ENVF NV_PAVS_VOICE_CFG_MISC NV_PAVS_VOICE_CFG_MISC_EF_RELEASERATE
    NV_PAVS_VOICE_PAR_NEXT NV_PAVS_VOICE_PAR_NEXT_EFLVL NV_PAVS_VOICE_CUR_ECNT_EFCOUNT NV_PAVS_VOICE_PAR_STATE_EFCUR.
Definition env_amplitude : envelope :=
  mkEnv NV_PAVS_VOICE_CFG_ENV0 NV_PAVS_VOICE_CFG_ENVA NV_PAVS_VOICE_TAR_LFO_ENV NV_PAVS_VOICE_TAR_LFO_ENV_EA_RELEASERATE
    NV_PAVS_VOICE_PAR_OFFSET NV_PAVS_VOICE_PAR_OFFSET_EALVL NV_PAVS_VOICE_CUR_ECNT_EACOUNT NV_PAVS_VOICE_PAR_STATE_EACUR.

Section Envelope.
Context {host : ApuHost} {F : Type} `{!VoiceFilter F} `{!CMath}.
Implicit Types (d : VpDevice F) (e : envelope).

Definition set_cur e (v x : Z) d : VpDevice F := voice_set_mask v NV_PAVS_VOICE_PAR_STATE (cur_mask e) x d.
Definition set_count e (v x : Z) d : VpDevice F := voice_set_mask v NV_PAVS_VOICE_CUR_ECNT (count_mask e) x d.
Definition set_lvl e (v x : Z) d : VpDevice F := voice_set_mask v (lvl_reg e) (lvl_mask e) x d.
Definition get_cur e d (v : Z) : Z := voice_get_mask d v NV_PAVS_VOICE_PAR_STATE (cur_mask e).
Definition get_count e d (v : Z) : Z := voice_get_mask d v NV_PAVS_VOICE_CUR_ECNT (count_mask e).

Definition envelope_delay e (v : Z) d : result (VpDevice F * spec_float) :=
  let count := get_count e d v in
  let d := set_lvl e v 0 d in
  let '(d, count) := if count =? 0 then (set_cur e v (NV_PAVS_VOICE_PAR_STATE_EFCUR_DELAY + 1) d, 0) else (d, count - 1) in
  Ok (set_count e v count d, f_zero).
Definition attack_level (count attack_rate : Z) : Z :=
  if attack_rate =? 0 then 255
  else if count <=? attack_rate * 16 then count * 0xFF / (attack_rate * 16) else 255.
Definition envelope_attack e (v : Z) d : result (VpDevice F * spec_float) :=
  let count := get_count e d v in
  let attack_rate := voice_get_mask d v (reg_0 e) NV_PAVS_VOICE_CFG_ENV0_EA_ATTACKRATE in
  let value := attack_level count attack_rate in
  let d := set_lvl e v value d in
  let '(d, count) :=
    if count =? attack_rate * 16 then
      let d := set_cur e v (NV_PAVS_VOICE_PAR_STATE_EFCUR_ATTACK + 1) d in
      (d, u16 (voice_get_mask d v (reg_a e) NV_PAVS_VOICE_CFG_ENVA_EA_HOLDTIME * 16))
    else (d, u16 (count + 1)) in
  Ok (set_count e v count d, f_div (f_of_Z value) f_255).
Definition envelope_hold e (v : Z) d : result (VpDevice F * spec_float) :=
  let count := get_count e d v in
  let d := set_lvl e v 0xFF d in
  let '(d, count) :=
    if count =? 0 then
      let d := set_cur e v (NV_PAVS_VOICE_PAR_STATE_EFCUR_HOLD + 1) d in
      (d, u16 (voice_get_mask d v (reg_a e) NV_PAVS_VOICE_CFG_ENVA_EA_DECAYRATE * 16))
    else (d, count - 1) in
  Ok (set_count e v count d, f_one).
(** The exponent is an [int] division. *)
Definition decay_value (count decay_rate : Z) : spec_float :=
  if decay_rate =? 0 then f_zero
  else f_mul f_255 (powf f_decay (f_of_Z (Z.quot ((decay_rate * 16 - count) * 4096) decay_rate))).
Definition envelope_decay e (v : Z) d : result (VpDevice F * spec_float) :=
  let count := get_count e d v in
  let decay_rate := voice_get_mask d v (reg_a e) NV_PAVS_VOICE_CFG_ENVA_EA_DECAYRATE in
  let sustain_level := voice_get_mask d v (reg_a e) NV_PAVS_VOICE_CFG_ENVA_EA_SUSTAINLEVEL in
  let value := decay_value count decay_rate in
  d ← (if SFleb value (f_add (f_of_Z sustain_level) f_0_2) || SFltb f_255 value
       then Ok (set_cur e v (NV_PAVS_VOICE_PAR_STATE_EFCUR_DECAY + 1) d)
       else
         let d := set_count e v (u16 (count - 1)) d in
         lvl ← uint32_of_float value;
         Ok (set_lvl e v lvl d));
  Ok (d, f_div value f_255).
Definition envelope_sustain e (v : Z) d : result (VpDevice F * spec_float) :=
  let sustain_level := voice_get_mask d v (reg_a e) NV_PAVS_VOICE_CFG_ENVA_EA_SUSTAINLEVEL in
  Ok (set_lvl e v sustain_level (set_count e v 0 d), f_div (f_of_Z sustain_level) f_255).
Definition release_value (count release_rate lvl : Z) : spec_float :=
  let pos := clampf (d_to_f (d_sub d_one (d_div (d_of_Z count) (d_mul (d_of_Z release_rate) d_16)))) f_zero f_one in
  f_mul (powf f_e (d_to_f (d_mul d_neg_6_91 (f_to_d pos)))) (f_of_Z lvl).
Definition envelope_release e (v : Z) d : result (VpDevice F * spec_float) :=
  let release_rate := voice_get_mask d v (rr_reg e) (rr_mask e) in
  let count := if release_rate =? 0 then 0 else get_count e d v in
  if count =? 0 then Ok (set_cur e v (NV_PAVS_VOICE_PAR_STATE_EFCUR_RELEASE + 1) d, f_div f_zero f_255)
  else
    let lvl := voice_get_mask d v (lvl_reg e) (lvl_mask e) in
    Ok (set_count e v (count - 1) d, f_div (release_value count release_rate lvl) f_255).

Definition voice_step_envelope e (v : Z) d : result (VpDevice F * spec_float) :=
  let cur := get_cur e d v in
  if cur =? NV_PAVS_VOICE_PAR_STATE_EFCUR_OFF then Ok (set_lvl e v 0xFF (set_count e v 0 d), f_one)
  else if cur =? NV_PAVS_VOICE_PAR_STATE_EFCUR_DELAY then envelope_delay e v d
  else if cur =? NV_PAVS_VOICE_PAR_STATE_EFCUR_ATTACK then envelope_attack e v d
  else if cur =? NV_PAVS_VOICE_PAR_STATE_EFCUR_HOLD then envelope_hold e v d
  else if cur =? NV_PAVS_VOICE_PAR_STATE_EFCUR_DECAY then envelope_decay e v d
  else if cur =? NV_PAVS_VOICE_PAR_STATE_EFCUR_SUSTAIN then envelope_sustain e v d
  else if cur =? NV_PAVS_VOICE_PAR_STATE_EFCUR_RELEASE then envelope_release e v d
  else if cur =? NV_PAVS_VOICE_PAR_STATE_EFCUR_FORCE_RELEASE then
    d ← (if count_mask e =? NV_PAVS_VOICE_CUR_ECNT_EACOUNT then voice_off v d else Ok d);
    Ok (d, f_zero)
  else Fault (AssertFail "Unknown envelope state").

(** The envelope with the assertions of [voice_process]. *)
Definition checked_envelope e (v : Z) d : result (VpDevice F * spec_float) :=
  '(d, value) ← voice_step_envelope e v d;
  _ ← check (SFleb f_zero value) "ea_value >= 0.0f";
  _ ← check (SFleb value f_one) "ea_value <= 1.0f";
  Ok (d, value).
Fixpoint run_envelope e (n : nat) (v : Z) d : result (VpDevice F * list spec_float) :=
  match n with
  | O => Ok (d, [])
  | S n => '(d, x) ← checked_envelope e v d; '(d, xs) ← run_envelope e n v d; Ok (d, x :: xs)
  end.

(** ** The phases of an envelope *)

Definition is_envelope e : Prop := e = env_filter \/ e = env_amplitude.
Definition attack_of e d (v : Z) : Z := voice_get_mask d v (reg_0 e) NV_PAVS_VOICE_CFG_ENV0_EA_ATTACKRATE.
Definition hold_of e d (v : Z) : Z := voice_get_mask d v (reg_a e) NV_PAVS_VOICE_CFG_ENVA_EA_HOLDTIME.
Definition decay_of e d (v : Z) : Z := voice_get_mask d v (reg_a e) NV_PAVS_VOICE_CFG_ENVA_EA_DECAYRATE.

(** What stays of an envelope and its configuration, and what a step sets. *)
Record env_view e d (v : Z) (cur count attack hold decay : Z) : Prop := {
  ev_ram : voices_in_ram d;
  ev_cur : get_cur e d v = cur; ev_count : get_count e d v = count;
  ev_attack : attack_of e d v = attack; ev_hold : hold_of e d v = hold; ev_decay : decay_of e d v = decay;
}.
Lemma view_cur e d v x cur count a h r : is_envelope e -> is_voice v -> 0 <= x < 16 ->
  env_view e d v cur count a h r -> env_view e (set_cur e v x d) v x count a h r.
Proof.
  intros He Hv Hx [Hr H1 H2 H3 H4 H5]. unfold get_cur, get_count, attack_of, hold_of, decay_of in *.
  constructor; [by apply set_mask_in_ram|..]; unfold set_cur, get_cur, get_count, attack_of, hold_of, decay_of; destruct He as [-> | ->]; rewrite get_set_mask by done; try done.
  - rewrite (GET_SET_same _ _ 24 4), (u32_id x) by (unfold is_u32; (lia || by split_and!)). by apply Z.mod_small.
  - rewrite (GET_SET_same _ _ 28 4), (u32_id x) by (unfold is_u32; (lia || by split_and!)). by apply Z.mod_small.
Qed.
Lemma view_count e d v x cur count a h r : is_envelope e -> is_voice v -> 0 <= x < 65536 ->
  env_view e d v cur count a h r -> env_view e (set_count e v x d) v cur x a h r.
Proof.
  intros He Hv Hx [Hr H1 H2 H3 H4 H5]. unfold get_cur, get_count, attack_of, hold_of, decay_of in *.
  constructor; [by apply set_mask_in_ram|..]; unfold set_count, get_cur, get_count, attack_of, hold_of, decay_of; destruct He as [-> | ->]; rewrite get_set_mask by done; try done.
  - rewrite (GET_SET_same _ _ 16 16), (u32_id x) by (unfold is_u32; (lia || by split_and!)). by apply Z.mod_small.
  - rewrite (GET_SET_same _ _ 0 16), (u32_id x) by (unfold is_u32; (lia || by split_and!)). by apply Z.mod_small.
Qed.
Lemma view_lvl e d v x cur count a h r : is_envelope e -> is_voice v ->
  env_view e d v cur count a h r -> env_view e (set_lvl e v x d) v cur count a h r.
Proof.
  intros He Hv [Hr H1 H2 H3 H4 H5]. unfold get_cur, get_count, attack_of, hold_of, decay_of in *.
  constructor; [by apply set_mask_in_ram|..]; unfold set_lvl, get_cur, get_count, attack_of, hold_of, decay_of; destruct He as [-> | ->]; rewrite get_set_mask by done; done.
Qed.

Definition in_unit (x : spec_float) : bool := SFleb f_zero x && SFleb x f_one.
Lemma level_in_unit n : 0 <= n <= 255 -> in_unit (f_div (f_of_Z n) f_255) = true.
Proof.
  intros Hn. assert (forallb (fun k => in_unit (f_div (f_of_Z (Z.of_nat k)) f_255)) (seq 0 256) = true) as Hall by (vm_compute; reflexivity).
  rewrite forallb_forall in Hall. specialize (Hall (Z.to_nat n)). rewrite Z2Nat.id in Hall by lia. apply Hall, in_seq. lia.
Qed.
Lemma checked_ok e v d d' x : voice_step_envelope e v d = Ok (d', x) -> in_unit x = true -> checked_envelope e v d = Ok (d', x).
Proof.
  intros Hs Hu. unfold checked_envelope. rewrite Hs. apply andb_true_iff in Hu as [H1 H2].
  cbn [mbind result_mbind result_bind]. by rewrite H1, H2.
Qed.
Lemma attack_level_range c a : 0 <= c -> 0 <= a -> 0 <= attack_level c a <= 255.
Proof.
  intros Hc Ha. unfold attack_level. destruct (Z.eqb_spec a 0); [lia|]. destruct (Z.leb_spec c (a * 16)); [|lia].
  split; [apply Z.div_pos; lia|]. apply Z.lt_succ_r, Z.div_lt_upper_bound; lia.
Qed.

Lemma run_step e n v d d1 x d' xs : checked_envelope e v d = Ok (d1, x) -> run_envelope e n v d1 = Ok (d', xs) ->
  run_envelope e (S n) v d = Ok (d', x :: xs).
Proof. intros H1 H2. cbn [run_envelope]. rewrite H1. cbn [mbind result_mbind result_bind]. by rewrite H2. Qed.
Lemma run_app e v m : forall n d d1 xs d2 ys, run_envelope e n v d = Ok (d1, xs) -> run_envelope e m v d1 = Ok (d2, ys) ->
  run_envelope e (n + m) v d = Ok (d2, xs ++ ys).
Proof.
  induction n as [|n IH]; intros d d1 xs d2 ys Hn Hm; [by injection Hn as -> <-|].
  cbn [run_envelope Nat.add] in *. destruct (checked_envelope e v d) as [[d0 x]|]; [|discriminate Hn]. cbn [mbind result_mbind result_bind] in *.
  destruct (run_envelope e n v d0) as [[d3 zs]|] eqn:E; [|discriminate Hn]. injection Hn as -> <-.
  by rewrite (IH _ _ _ _ _ E Hm).
Qed.

Section Phases.
Context (e : envelope) (v a h r : Z).
Hypothesis He : is_envelope e.
Hypothesis Hv : is_voice v.
Hypothesis Ha : 0 <= a < 4096.
Hypothesis Hh : 0 <= h < 4096.
Hypothesis Hr : 0 <= r < 4096.

Lemma step_at cur c d : env_view e d v cur c a h r ->
  voice_step_envelope e v d =
    if cur =? NV_PAVS_VOICE_PAR_STATE_EFCUR_OFF then Ok (set_lvl e v 0xFF (set_count e v 0 d), f_one)
    else if cur =? NV_PAVS_VOICE_PAR_STATE_EFCUR_DELAY then envelope_delay e v d
    else if cur =? NV_PAVS_VOICE_PAR_STATE_EFCUR_ATTACK then envelope_attack e v d
    else if cur =? NV_PAVS_VOICE_PAR_STATE_EFCUR_HOLD then envelope_hold e v d
    else voice_step_envelope e v d.
Proof. intros Hw. unfold voice_step_envelope. rewrite (ev_cur _ _ _ _ _ _ _ _ Hw). by repeat case_match. Qed.

Lemma delay_step d c : env_view e d v NV_PAVS_VOICE_PAR_STATE_EFCUR_DELAY c a h r -> 0 <= c < 65536 ->
  exists d', checked_envelope e v d = Ok (d', f_zero) /\
    if c =? 0 then env_view e d' v NV_PAVS_VOICE_PAR_STATE_EFCUR_ATTACK 0 a h r
    else env_view e d' v NV_PAVS_VOICE_PAR_STATE_EFCUR_DELAY (c - 1) a h r.
Proof.
  intros Hw Hc. pose proof (step_at _ _ _ Hw) as Hs. cbv [Z.eqb Pos.eqb NV_PAVS_VOICE_PAR_STATE_EFCUR_OFF NV_PAVS_VOICE_PAR_STATE_EFCUR_DELAY] in Hs.
  unfold envelope_delay in Hs. rewrite (ev_count _ _ _ _ _ _ _ _ Hw) in Hs. destruct (Z.eqb_spec c 0) as [->|].
  - eexists. split; [apply checked_ok; [exact Hs|vm_compute; reflexivity]|]. apply (view_count e _ v 0 _ 0); [done|done|lia|].
    apply (view_cur e _ v 2 NV_PAVS_VOICE_PAR_STATE_EFCUR_DELAY); [done|done|lia|]. by apply view_lvl.
  - eexists. split; [apply checked_ok; [exact Hs|vm_compute; reflexivity]|].
    apply (view_count e _ v (c - 1) _ c); [done|done|lia|]. by apply view_lvl.
Qed.
Lemma attack_step d c : env_view e d v NV_PAVS_VOICE_PAR_STATE_EFCUR_ATTACK c a h r -> 0 <= c <= a * 16 ->
  exists d', checked_envelope e v d = Ok (d', f_div (f_of_Z (attack_level c a)) f_255) /\
    if c =? a * 16 then env_view e d' v NV_PAVS_VOICE_PAR_STATE_EFCUR_HOLD (h * 16) a h r
    else env_view e d' v NV_PAVS_VOICE_PAR_STATE_EFCUR_ATTACK (c + 1) a h r.
Proof.
  intros Hw Hc. pose proof (step_at _ _ _ Hw) as Hs.
  cbv [Z.eqb Pos.eqb NV_PAVS_VOICE_PAR_STATE_EFCUR_OFF NV_PAVS_VOICE_PAR_STATE_EFCUR_DELAY NV_PAVS_VOICE_PAR_STATE_EFCUR_ATTACK] in Hs.
  unfold envelope_attack in Hs. fold (attack_of e d v) in Hs.
  rewrite (ev_count _ _ _ _ _ _ _ _ Hw), (ev_attack _ _ _ _ _ _ _ _ Hw) in Hs.
  pose proof (level_in_unit (attack_level c a) ltac:(apply attack_level_range; lia)) as Hu.
  assert (env_view e (set_lvl e v (attack_level c a) d) v NV_PAVS_VOICE_PAR_STATE_EFCUR_ATTACK c a h r) as Hl by (by apply view_lvl).
  destruct (Z.eqb_spec c (a * 16)) as [->|].
  - assert (env_view e (set_cur e v 3 (set_lvl e v (attack_level (a * 16) a) d)) v NV_PAVS_VOICE_PAR_STATE_EFCUR_HOLD (a * 16) a h r) as Hk
      by (by apply (view_cur e _ v 3 NV_PAVS_VOICE_PAR_STATE_EFCUR_ATTACK); [| |lia|]).
    eexists. split; [apply checked_ok; [exact Hs|exact Hu]|]. cbv beta iota.
    fold (hold_of e (set_cur e v (NV_PAVS_VOICE_PAR_STATE_EFCUR_ATTACK + 1) (set_lvl e v (attack_level (a * 16) a) d)) v).
    change (NV_PAVS_VOICE_PAR_STATE_EFCUR_ATTACK + 1) with 3. rewrite (ev_hold _ _ _ _ _ _ _ _ Hk), u16_id by (unfold is_u16; lia).
    apply (view_count e _ v (h * 16) _ (a * 16)); [done|done|lia|done].
  - eexists. split; [apply checked_ok; [exact Hs|exact Hu]|]. rewrite u16_id by (unfold is_u16; lia).
    apply (view_count e _ v (c + 1) _ c); [done|done|lia|done].
Qed.
Lemma hold_step d c : env_view e d v NV_PAVS_VOICE_PAR_STATE_EFCUR_HOLD c a h r -> 0 <= c < 65536 ->
  exists d', checked_envelope e v d = Ok (d', f_one) /\
    if c =? 0 then env_view e d' v NV_PAVS_VOICE_PAR_STATE_EFCUR_DECAY (r * 16) a h r
    else env_view e d' v NV_PAVS_VOICE_PAR_STATE_EFCUR_HOLD (c - 1) a h r.
Proof.
  intros Hw Hc. pose proof (step_at _ _ _ Hw) as Hs.
  cbv [Z.eqb Pos.eqb NV_PAVS_VOICE_PAR_STATE_EFCUR_OFF NV_PAVS_VOICE_PAR_STATE_EFCUR_DELAY NV_PAVS_VOICE_PAR_STATE_EFCUR_ATTACK
       NV_PAVS_VOICE_PAR_STATE_EFCUR_HOLD] in Hs.
  unfold envelope_hold in Hs. rewrite (ev_count _ _ _ _ _ _ _ _ Hw) in Hs.
  assert (env_view e (set_lvl e v 0xFF d) v NV_PAVS_VOICE_PAR_STATE_EFCUR_HOLD c a h r) as Hl by (by apply view_lvl).
  destruct (Z.eqb_spec c 0) as [->|].
  - assert (env_view e (set_cur e v 4 (set_lvl e v 0xFF d)) v NV_PAVS_VOICE_PAR_STATE_EFCUR_DECAY 0 a h r) as Hk
      by (by apply (view_cur e _ v 4 NV_PAVS_VOICE_PAR_STATE_EFCUR_HOLD); [| |lia|]).
    eexists. split; [apply checked_ok; [exact Hs|vm_compute; reflexivity]|]. cbv beta iota.
    fold (decay_of e (set_cur e v (NV_PAVS_VOICE_PAR_STATE_EFCUR_HOLD + 1) (set_lvl e v 0xFF d)) v).
    change (NV_PAVS_VOICE_PAR_STATE_EFCUR_HOLD + 1) with 4. rewrite (ev_decay _ _ _ _ _ _ _ _ Hk), u16_id by (unfold is_u16; lia).
    apply (view_count e _ v (r * 16) _ 0); [done|done|lia|done].
  - eexists. split; [apply checked_ok; [exact Hs|vm_compute; reflexivity]|].
    apply (view_count e _ v (c - 1) _ c); [done|done|lia|done].
Qed.

Lemma delay_phase n : Z.of_nat n < 65536 -> forall d, env_view e d v NV_PAVS_VOICE_PAR_STATE_EFCUR_DELAY (Z.of_nat n) a h r ->
  exists d', run_envelope e (S n) v d = Ok (d', repeat f_zero (S n)) /\ env_view e d' v NV_PAVS_VOICE_PAR_STATE_EFCUR_ATTACK 0 a h r.
Proof.
  induction n as [|n IH]; intros Hn d Hw; destruct (delay_step d _ Hw ltac:(lia)) as (d1 & Hs & Hw1).
  - exists d1. split; [by apply (run_step e 0 v d d1)|done].
  - rewrite (proj2 (Z.eqb_neq _ 0)) in Hw1 by lia. replace (Z.of_nat (S n) - 1) with (Z.of_nat n) in Hw1 by lia.
    destruct (IH ltac:(lia) d1 Hw1) as (d' & Hrun & Hw'). exists d'. split; [by apply (run_step e (S n) v d d1)|done].
Qed.
Lemma hold_phase n : Z.of_nat n < 65536 -> forall d, env_view e d v NV_PAVS_VOICE_PAR_STATE_EFCUR_HOLD (Z.of_nat n) a h r ->
  exists d', run_envelope e (S n) v d = Ok (d', repeat f_one (S n)) /\ env_view e d' v NV_PAVS_VOICE_PAR_STATE_EFCUR_DECAY (r * 16) a h r.
Proof.
  induction n as [|n IH]; intros Hn d Hw; destruct (hold_step d _ Hw ltac:(lia)) as (d1 & Hs & Hw1).
  - exists d1. split; [by apply (run_step e 0 v d d1)|done].
  - rewrite (proj2 (Z.eqb_neq _ 0)) in Hw1 by lia. replace (Z.of_nat (S n) - 1) with (Z.of_nat n) in Hw1 by lia.
    destruct (IH ltac:(lia) d1 Hw1) as (d' & Hrun & Hw'). exists d'. split; [by apply (run_step e (S n) v d d1)|done].
Qed.
Definition ramp (from : Z) (n : nat) : list spec_float :=
  map (fun t => f_div (f_of_Z (attack_level (from + Z.of_nat t) a)) f_255) (seq 0 n).
Lemma ramp_S c n : ramp c (S n) = f_div (f_of_Z (attack_level c a)) f_255 :: ramp (c + 1) n.
Proof.
  unfold ramp. cbn [seq map]. rewrite Z.add_0_r. f_equal. rewrite <- seq_shift, map_map. apply map_ext. intros t. do 3 f_equal. lia.
Qed.
Lemma attack_phase n : forall c d, c + Z.of_nat n = a * 16 -> 0 <= c ->
  env_view e d v NV_PAVS_VOICE_PAR_STATE_EFCUR_ATTACK c a h r ->
  exists d', run_envelope e (S n) v d = Ok (d', ramp c (S n)) /\ env_view e d' v NV_PAVS_VOICE_PAR_STATE_EFCUR_HOLD (h * 16) a h r.
Proof.
  induction n as [|n IH]; intros c d Hn Hc Hw; destruct (attack_step d _ Hw ltac:(lia)) as (d1 & Hs & Hw1); rewrite ramp_S.
  - rewrite (proj2 (Z.eqb_eq _ _)) in Hw1 by lia. exists d1. split; [by apply (run_step e 0 v d d1)|done].
  - rewrite (proj2 (Z.eqb_neq _ _)) in Hw1 by lia.
    destruct (IH (c + 1) d1 ltac:(lia) ltac:(lia) Hw1) as (d' & Hrun & Hw'). exists d'. split; [by apply (run_step e (S n) v d d1)|done].
Qed.
End Phases.

(** C36. The first phases of an envelope.  From the start of the delay, with the counter
    that switching on set ([16] per unit of delay time), each frame steps the envelope
    without a failed assertion: it gives 0 for [16 delay + 1] frames, then climbs to 1 in
    [16 attack + 1] frames along the quotients of the elapsed frames, stays at 1 for
    [16 hold + 1] frames, and is then at the start of its decay. *)
Theorem envelope_phases e v d delay attack hold decay :
  is_envelope e -> is_voice v -> 0 <= delay < 4096 ->
  env_view e d v NV_PAVS_VOICE_PAR_STATE_EFCUR_DELAY (delay * 16) attack hold decay ->
  let n := (S (Z.to_nat (delay * 16)) + (S (Z.to_nat (attack * 16)) + S (Z.to_nat (hold * 16))))%nat in
  exists d', run_envelope e n v d =
      Ok (d', repeat f_zero (S (Z.to_nat (delay * 16))) ++
              map (fun t => f_div (f_of_Z (attack_level (Z.of_nat t) attack)) f_255) (seq 0 (S (Z.to_nat (attack * 16)))) ++
              repeat f_one (S (Z.to_nat (hold * 16)))) /\
    env_view e d' v NV_PAVS_VOICE_PAR_STATE_EFCUR_DECAY (decay * 16) attack hold decay.
Proof.
  intros He Hv Hd Hw n.
  assert (0 <= attack < 4096) as Ha.
  { rewrite <- (ev_attack _ _ _ _ _ _ _ _ Hw). exact (GET_MASK_range _ NV_PAVS_VOICE_CFG_ENV0_EA_ATTACKRATE 0 12 ltac:(by split_and!)). }
  assert (0 <= hold < 4096) as Hh.
  { rewrite <- (ev_hold _ _ _ _ _ _ _ _ Hw). exact (GET_MASK_range _ NV_PAVS_VOICE_CFG_ENVA_EA_HOLDTIME 12 12 ltac:(by split_and!)). }
  assert (0 <= decay < 4096) as Hr.
  { rewrite <- (ev_decay _ _ _ _ _ _ _ _ Hw). exact (GET_MASK_range _ NV_PAVS_VOICE_CFG_ENVA_EA_DECAYRATE 0 12 ltac:(by split_and!)). }
  destruct (delay_phase e v attack hold decay He Hv (Z.to_nat (delay * 16)) ltac:(lia) d) as (d1 & R1 & W1); [by rewrite Z2Nat.id by lia|].
  destruct (attack_phase e v attack hold decay He Hv Ha Hh (Z.to_nat (attack * 16)) 0 d1 ltac:(lia) ltac:(lia) W1) as (d2 & R2 & W2).
  destruct (hold_phase e v attack hold decay He Hv Hr (Z.to_nat (hold * 16)) ltac:(lia) d2) as (d3 & R3 & W3); [by rewrite Z2Nat.id by lia|].
  exists d3. split; [|done]. exact (run_app _ _ _ _ _ _ _ _ _ R1 (run_app _ _ _ _ _ _ _ _ _ R2 R3)).
Qed.
End Envelope.

(** ** Witness *)

#[export] Instance plain_math : CMath := fun x _ => x.
(** The amplitude of voice 9: delay 1, attack 1, hold 1, all in units of 16 frames. *)
Definition env_device : VpDevice unit :=
  voice_set_mask 9 NV_PAVS_VOICE_CFG_ENV0 NV_PAVS_VOICE_CFG_ENV0_EA_ATTACKRATE 1
    (voice_set_mask 9 NV_PAVS_VOICE_CFG_ENVA NV_PAVS_VOICE_CFG_ENVA_EA_HOLDTIME 1
      (voice_set_mask 9 NV_PAVS_VOICE_CUR_ECNT NV_PAVS_VOICE_CUR_ECNT_EACOUNT 16
        (voice_set_mask 9 NV_PAVS_VOICE_PAR_STATE NV_PAVS_VOICE_PAR_STATE_EACUR NV_PAVS_VOICE_PAR_STATE_EFCUR_DELAY (quiet id)))).
Lemma envelope_phases_witness : exists d' out, run_envelope env_amplitude 51 9 env_device = Ok (d', out) /\
  out !! 50%nat = Some f_one /\ get_cur env_amplitude d' 9 = NV_PAVS_VOICE_PAR_STATE_EFCUR_DECAY.
Proof.
  destruct (envelope_phases env_amplitude 9 env_device 1 1 1 0) as (d' & Hrun & Hv); [by right|done|lia| |].
  - constructor; [|vm_compute; reflexivity..]. unfold env_device. do 4 apply set_mask_in_ram. apply quiet_ram. reflexivity.
  - eexists d', _. split; [exact Hrun|]. split; [reflexivity|]. apply (ev_cur _ _ _ _ _ _ _ _ Hv).
Defined.
