(* ===== verification/VpSamples.v ===== *)
(** * The voice processor: fetching samples
    (src/xemu/hw/xbox/mcpx/apu/vp/vp.c, [get_data_ptr] to [voice_resample_callback])

    [voice_get_samples] fetches the next samples of a voice, as PCM or as blocks of ADPCM,
    from a buffer behind the page table of the voice processor or from the segments of a
    stream, and moves the position of the voice.  Its caller, the callback of the
    resampler, asks until a frame of 32 samples is full.  A sample is a pair of integers
    scaled to 32 bits. *)

From S2P Require Import Prelude GpEp Adpcm VpCore.

Definition NV_PAVS_VOICE_CFG_FMT_SAMPLES_PER_BLOCK : Z := Z.shiftl 0x1F 16.
Definition NV_PAVS_VOICE_CFG_FMT_MULTIPASS : Z := bit 21.
Definition NV_PAVS_VOICE_CFG_FMT_PERSIST : Z := bit 23.
Definition NV_PAVS_VOICE_CFG_FMT_LOOP : Z := bit 25.
Definition NV_PAVS_VOICE_CFG_FMT_STEREO : Z := bit 27.
Definition NV_PAVS_VOICE_CFG_FMT_SAMPLE_SIZE : Z := Z.shiftl 0x3 28.
Definition NV_PAVS_VOICE_CFG_FMT_SAMPLE_SIZE_U8 : Z := 0.
Definition NV_PAVS_VOICE_CFG_FMT_SAMPLE_SIZE_S16 : Z := 1.
Definition NV_PAVS_VOICE_CFG_FMT_SAMPLE_SIZE_S24 : Z := 2.
Definition NV_PAVS_VOICE_CFG_FMT_CONTAINER_SIZE : Z := Z.shiftl 0x3 30.
Definition NV_PAVS_VOICE_CFG_FMT_CONTAINER_SIZE_ADPCM : Z := 2.
Definition ADPCM_SAMPLES_PER_BLOCK : Z := 64.
Definition container_sizes : list Z := [1; 2; 0; 4].

(** Reads of one or two bytes outside RAM, and what the arrays on the stack hold at the
    start of a call: 72 bytes for a block, 130 numbers for its samples, and the decoder's
    own two. *)
Class SampleHost := {
  other_read : Z -> Z -> Z;
  block0 : list Z;
  decoded0 : list Z;
  pcm_stack : list Z;
  index_stack : list Z;
}.

Section Samples.
Context {host : ApuHost} {F : Type} `{!VoiceFilter F} {smp : SampleHost}.
Implicit Types d : VpDevice F.

Definition ld_phys d (n addr : Z) : Z :=
  if addr + n <=? ram_size (dev d) then le_word (load_bytes (ram (dev d)) addr (Z.to_nat n)) else other_read n addr.

Definition get_data_ptr d (sge_base max_sge addr : Z) : result Z :=
  let entry := addr / TARGET_PAGE_SIZE in
  _ ← check (entry <=? max_sge) "entry <= max_sge";
  let prd_address := ldl d (sge_base + u32 (entry * 4 * 2)) in
  Ok (u32 (prd_address + addr mod TARGET_PAGE_SIZE)).

(** The variables of [voice_get_samples] that its loop reads. *)
Record fmt := mkFmt {
  stereo : bool; sample_size : Z; container_size : Z; stream : bool; adpcm : bool; ba : Z;
  samples_per_block : Z; block_size : Z; segment_offset : Z; seg_len : Z;
}.
Definition channels (f : fmt) : Z := if stereo f then 2 else 1.

(** ** ADPCM *)

(** The words of a block from the buffer. *)
Definition load_block d (f : fmt) (linear_addr : Z) (block : list Z) : result (list Z) :=
  for_loop (Z.to_nat (9 * samples_per_block f)) 0
    (fun word_index block =>
       addr ← get_data_ptr d (vreg d NV_PAPU_VPSGEADDR) 0xFFFFFFFF (u32 (linear_addr + 4 * word_index));
       blit block (4 * word_index) (le_bytes 4 (ldl d addr))) block.
(** [memcpy] from the host's copy of RAM. *)
Definition copy_segment d (f : fmt) (linear_addr : Z) (block : list Z) : result (list Z) :=
  let addr := segment_offset f + linear_addr in
  let max_seg_byte := Z.shiftr (seg_len f) 6 * block_size f in
  _ ← check (linear_addr + block_size f <=? max_seg_byte) "linear_addr + block_size <= max_seg_byte";
  if ram_size (dev d) <? addr + block_size f then Fault OutOfBounds
  else blit block 0 (load_bytes (ram (dev d)) addr (Z.to_nat (block_size f))).

(** The block decoded last, with the arrays it is in. *)
Record decoder := mkDecoder { at_block : Z; block : list Z; decoded : list Z }.
Definition int16_sample (x : Z) : Z := s16 x * 2 ^ 16.
Definition adpcm_sample d (f : fmt) (cbo : Z) (dec : decoder) : result (decoder * (Z * Z)) :=
  let block_index := cbo / ADPCM_SAMPLES_PER_BLOCK in
  let block_position := cbo mod ADPCM_SAMPLES_PER_BLOCK in
  dec ← (if at_block dec =? block_index then Ok dec
         else
           let linear_addr := u32 (block_index * block_size f) in
           blk ← (if stream f then copy_segment d f linear_addr (block dec)
                  else load_block d f (u32 (linear_addr + ba f)) (block dec));
           '(_, out) ← adpcm_decode_block (decoded dec) blk (block_size f) (channels f) pcm_stack index_stack;
           Ok (mkDecoder block_index blk out));
  l ← fetch (decoded dec) (block_position * channels f);
  r ← (if stereo f then fetch (decoded dec) (block_position * channels f + 1) else Ok l);
  Ok (dec, (int16_sample l, int16_sample r)).

(** ** PCM *)

Definition pcm_value d (f : fmt) (addr : Z) : Z :=
  if sample_size f =? NV_PAVS_VOICE_CFG_FMT_SAMPLE_SIZE_U8 then (Z.land (ld_phys d 1 addr) 0xff - 0x80) * 2 ^ 24
  else if sample_size f =? NV_PAVS_VOICE_CFG_FMT_SAMPLE_SIZE_S16 then int16_sample (Z.land (ld_phys d 2 addr) 0xffff)
  else if sample_size f =? NV_PAVS_VOICE_CFG_FMT_SAMPLE_SIZE_S24 then s32 (u32 (Z.shiftl (ldl d addr) 8))
  else s32 (ldl d addr).
Definition pcm_addr d (f : fmt) (cbo : Z) : result Z :=
  if stream f then Ok (segment_offset f + cbo * block_size f)
  else get_data_ptr d (vreg d NV_PAPU_VPSGEADDR) 0xFFFFFFFF (u32 (ba f + cbo * block_size f)).
Definition pcm_sample d (f : fmt) (cbo : Z) : result (Z * Z) :=
  addr ← pcm_addr d f cbo;
  let l := pcm_value d f addr in
  Ok (l, if stereo f then pcm_value d f (addr + container_size f) else l).

(** The loop: at most [n] samples, up to position [ebo]. *)
Fixpoint sample_loop d (f : fmt) (n : nat) (cbo ebo : Z) (dec : decoder) : result (list (Z * Z)) :=
  match n with
  | O => Ok []
  | S n =>
      if cbo <=? ebo then
        '(dec, x) ← (if adpcm f then adpcm_sample d f cbo dec else x ← pcm_sample d f cbo; Ok (dec, x));
        xs ← sample_loop d f n (cbo + 1) ebo dec;
        Ok (x :: xs)
      else Ok []
  end.

(** ** A call *)

Definition fmt_field d (v mask : Z) : Z := voice_get_mask d v NV_PAVS_VOICE_CFG_FMT mask.
Definition fmt_bit d (v mask : Z) : bool := negb (fmt_field d v mask =? 0).
Definition get_cbo d (v : Z) : Z := voice_get_mask d v NV_PAVS_VOICE_PAR_OFFSET NV_PAVS_VOICE_PAR_OFFSET_CBO.
Definition get_ebo d (v : Z) : Z := voice_get_mask d v NV_PAVS_VOICE_PAR_NEXT NV_PAVS_VOICE_PAR_NEXT_EBO.
Definition get_lbo d (v : Z) : Z := voice_get_mask d v NV_PAVS_VOICE_CUR_PSH_SAMPLE NV_PAVS_VOICE_CUR_PSH_SAMPLE_LBO.
Definition set_cbo (v cbo : Z) d : VpDevice F := voice_set_mask v NV_PAVS_VOICE_PAR_OFFSET NV_PAVS_VOICE_PAR_OFFSET_CBO cbo d.
Definition put_ssl (v : Z) (s : MCPXAPUVPSSLData) d : VpDevice F := d <| vp ::= fun p => p <| ssl ::= <[Z.to_nat v := s]> |> |>.

(** The end of a stream, when the current list of segments is empty. *)
Definition stream_ended (v : Z) (persist : bool) (s : MCPXAPUVPSSLData) d : result (VpDevice F) :=
  let d := set_cbo v 0 d in
  let s := s <| ssl_seg := 0 |> in
  if persist then
    Ok (set_notify_status v (MCPX_HW_NOTIFIER_SSLA_DONE + ssl_index s) NV1BA0_NOTIFICATION_STATUS_DONE_SUCCESS (put_ssl v s d))
  else voice_off v (put_ssl v (s <| ssl_index := 0 |>) d).

(** The segment of a stream the voice is in, checked against its format. *)
Definition stream_segment d (v : Z) (s : MCPXAPUVPSSLData) (base : Z) (f : fmt) (size_index : Z) : result (fmt * Z) :=
  let page := s32 (base + ssl_seg s) in
  let addr := u32 (vreg d NV_PAPU_VPSSLADDR + page * 8) in
  let segment_offset := ldl d addr in
  let segment_length := ldl d (addr + 4) in
  _ ← check (negb (segment_offset =? 0)) "segment_offset != 0";
  _ ← check (negb (segment_length =? 0)) "segment_length != 0";
  let seg_len := Z.land segment_length 0xffff in
  let seg_cs := Z.land (Z.shiftr segment_length 16) 3 in
  let seg_spb := Z.land (Z.shiftr segment_length 18) 0x1f in
  let seg_s := Z.land (Z.shiftr segment_length 23) 1 in
  _ ← check (seg_cs =? size_index) "seg_cs == container_size_index";
  _ ← check (seg_spb + 1 =? samples_per_block f) "(seg_spb + 1) == samples_per_block";
  _ ← check (seg_s =? Z.b2z (stereo f)) "seg_s == stereo";
  _ ← check (0 <? seg_len) "seg_len > 0";
  let f := mkFmt (stereo f) (if adpcm f then NV_PAVS_VOICE_CFG_FMT_SAMPLE_SIZE_S24 else sample_size f) (container_size f)
             true (adpcm f) (ba f) (samples_per_block f) (block_size f) segment_offset seg_len in
  Ok (f, seg_len - 1).

(** The position after the samples: the next segment or list, the start of the loop, or
    the end of the voice. *)
Definition advance (v cbo ebo lbo : Z) (is_stream loop : bool) d : result (VpDevice F * Z) :=
  if cbo <? ebo then Ok (d, cbo)
  else if is_stream then
    s ← fetch (ssl (vp d)) v;
    count ← fetch (ssl_count s) (ssl_index s);
    let seg := ssl_seg s + 1 in
    if seg <? count then Ok (put_ssl v (s <| ssl_seg := seg |>) d, 0)
    else
      let d := put_ssl v (s <| ssl_index := (ssl_index s + 1) mod 2 |> <| ssl_seg := 0 |>) d in
      Ok (set_notify_status v (MCPX_HW_NOTIFIER_SSLA_DONE + ssl_index s) NV1BA0_NOTIFICATION_STATUS_DONE_SUCCESS d, 0)
  else if loop then Ok (d, lbo)
  else d ← voice_off v d; Ok (d, ebo).

(** The end of a call: [n] samples from [cbo] on, and the new position. *)
Definition play_samples (v n : Z) (f : fmt) (cbo ebo lbo : Z) (loop : bool) d : result (VpDevice F * option (list (Z * Z))) :=
  xs ← sample_loop d f (Z.to_nat n) cbo ebo (mkDecoder (-1) block0 decoded0);
  '(d, cbo) ← advance v (cbo + Z.of_nat (length xs)) ebo lbo (stream f) loop d;
  Ok (set_cbo v cbo d, Some xs).

(** [None] is the result -1. *)
Definition voice_get_samples (v n : Z) d : result (VpDevice F * option (list (Z * Z))) :=
  _ ← check (v <? MCPX_HW_MAX_VOICES) "v < MCPX_HW_MAX_VOICES";
  let size_index := fmt_field d v NV_PAVS_VOICE_CFG_FMT_CONTAINER_SIZE in
  container ← fetch container_sizes size_index;
  let paused := negb (voice_get_mask d v NV_PAVS_VOICE_PAR_STATE NV_PAVS_VOICE_PAR_STATE_PAUSED =? 0) in
  let loop := fmt_bit d v NV_PAVS_VOICE_CFG_FMT_LOOP in
  let persist := fmt_bit d v NV_PAVS_VOICE_CFG_FMT_PERSIST in
  let ebo := get_ebo d v in
  let cbo := get_cbo d v in
  let lbo := get_lbo d v in
  let is_adpcm := size_index =? NV_PAVS_VOICE_CFG_FMT_CONTAINER_SIZE_ADPCM in
  let spb := 1 + fmt_field d v NV_PAVS_VOICE_CFG_FMT_SAMPLES_PER_BLOCK in
  let f := mkFmt (fmt_bit d v NV_PAVS_VOICE_CFG_FMT_STEREO) (fmt_field d v NV_PAVS_VOICE_CFG_FMT_SAMPLE_SIZE) container
             false is_adpcm (voice_get_mask d v NV_PAVS_VOICE_CUR_PSL_START NV_PAVS_VOICE_CUR_PSL_START_BA)
             spb ((if is_adpcm then 36 else container) * spb) 0 0 in
  let is_stream := fmt_bit d v NV_PAVS_VOICE_CFG_FMT_DATA_TYPE in
  _ ← check (negb (fmt_bit d v NV_PAVS_VOICE_CFG_FMT_MULTIPASS)) "!multipass";
  let d := voice_set_mask v NV_PAVS_VOICE_PAR_STATE NV_PAVS_VOICE_PAR_STATE_NEW_VOICE 0 d in
  if paused then Ok (d, None)
  else if is_stream then
    if negb persist && (voice_get_mask d v NV_PAVS_VOICE_PAR_STATE NV_PAVS_VOICE_PAR_STATE_EACUR
                          <? NV_PAVS_VOICE_PAR_STATE_EFCUR_RELEASE)
    then d ← voice_off v d; Ok (d, None)
    else
      _ ← check (negb loop) "!loop";
      s ← fetch (ssl (vp d)) v;
      base ← fetch (ssl_base s) (ssl_index s);
      count ← fetch (ssl_count s) (ssl_index s);
      if count =? 0 then d ← stream_ended v persist s d; Ok (d, None)
      else '(f, ebo) ← stream_segment d v s base f size_index; play_samples v n f cbo ebo lbo loop d
  else play_samples v n f cbo ebo lbo loop d.

(** ** The callback of the resampler *)

Definition is_active d (v : Z) : bool := negb (voice_get_mask d v NV_PAVS_VOICE_PAR_STATE NV_PAVS_VOICE_PAR_STATE_ACTIVE_VOICE =? 0).
(** The samples of a frame, [have] of them so far; the loop has no bound of its own. *)
Fixpoint fill_frame (fuel : nat) (v : Z) (have : list (Z * Z)) d : result (VpDevice F * list (Z * Z)) :=
  match fuel with
  | O => Fault OutOfFuel
  | S fuel =>
      if Z.of_nat (length have) <? NUM_SAMPLES_PER_FRAME then
        if negb (is_active d v) then Ok (d, have)
        else
          '(d, r) ← voice_get_samples v (NUM_SAMPLES_PER_FRAME - Z.of_nat (length have)) d;
          match r with
          | None => Ok (d, have)
          | Some xs => fill_frame fuel v (have ++ xs) d
          end
      else Ok (d, have)
  end.
(** What is missing is silence. *)
Definition voice_resample_callback (fuel : nat) (v : Z) d : result (VpDevice F * list (Z * Z)) :=
  _ ← check (v <? MCPX_HW_MAX_VOICES) "v < MCPX_HW_MAX_VOICES";
  '(d, xs) ← fill_frame fuel v [] d;
  Ok (d, xs ++ repeat (0, 0) (Z.to_nat NUM_SAMPLES_PER_FRAME - length xs)).

(** ** Buffers of PCM samples *)

Definition data_ptr d (addr : Z) : Z :=
  u32 (ldl d (vreg d NV_PAPU_VPSGEADDR + u32 (addr / TARGET_PAGE_SIZE * 4 * 2)) + addr mod TARGET_PAGE_SIZE).
Lemma get_data_ptr_ok d addr : is_u32 addr -> get_data_ptr d (vreg d NV_PAPU_VPSGEADDR) 0xFFFFFFFF addr = Ok (data_ptr d addr).
Proof.
  intros Ha. unfold get_data_ptr, check. rewrite (proj2 (Z.leb_le _ _)); [done|]. unfold TARGET_PAGE_SIZE, is_u32 in *.
  apply Z.lt_succ_r, Z.div_lt_upper_bound; lia.
Qed.
(** The sample at a position of a buffer, through the page table. *)
Definition pcm_at d (f : fmt) (pos : Z) : Z * Z :=
  let addr := data_ptr d (u32 (ba f + pos * block_size f)) in
  (pcm_value d f addr, if stereo f then pcm_value d f (addr + container_size f) else pcm_value d f addr).
Lemma pcm_loop d f dec ebo n : stream f = false -> adpcm f = false -> forall cbo,
  sample_loop d f n cbo ebo dec =
    Ok (map (fun i => pcm_at d f (cbo + Z.of_nat i)) (seq 0 (Nat.min n (Z.to_nat (ebo - cbo + 1))))).
Proof.
  intros Hs Ha. induction n as [|n IH]; intros cbo; cbn [sample_loop]; [done|].
  destruct (Z.leb_spec cbo ebo); [|by replace (Z.to_nat (ebo - cbo + 1)) with 0%nat by lia].
  rewrite Ha. unfold pcm_sample, pcm_addr. rewrite Hs, get_data_ptr_ok by apply u32_range. cbn [mbind result_mbind result_bind].
  rewrite IH. cbn [mbind result_mbind result_bind]. replace (Z.to_nat (ebo - cbo + 1)) with (S (Z.to_nat (ebo - (cbo + 1) + 1))) by lia.
  cbn [Nat.min seq map]. rewrite Z.add_0_r, <- seq_shift, map_map. do 2 f_equal. apply map_ext. intros i. f_equal. lia.
Qed.

(** A voice that plays a buffer: the fields a call of [voice_get_samples] reads. *)
Record plays_buffer d (v : Z) (f : fmt) (cbo ebo lbo : Z) (loop : bool) : Prop := {
  pb_ram : voices_in_ram d;
  pb_paused : voice_get_mask d v NV_PAVS_VOICE_PAR_STATE NV_PAVS_VOICE_PAR_STATE_PAUSED = 0;
  pb_stream : fmt_bit d v NV_PAVS_VOICE_CFG_FMT_DATA_TYPE = false;
  pb_multi : fmt_bit d v NV_PAVS_VOICE_CFG_FMT_MULTIPASS = false;
  pb_loop : fmt_bit d v NV_PAVS_VOICE_CFG_FMT_LOOP = loop;
  pb_cbo : get_cbo d v = cbo; pb_ebo : get_ebo d v = ebo; pb_lbo : get_lbo d v = lbo;
  pb_fmt : f = mkFmt (fmt_bit d v NV_PAVS_VOICE_CFG_FMT_STEREO) (fmt_field d v NV_PAVS_VOICE_CFG_FMT_SAMPLE_SIZE)
     (nth (Z.to_nat (fmt_field d v NV_PAVS_VOICE_CFG_FMT_CONTAINER_SIZE)) container_sizes 0) false
     (fmt_field d v NV_PAVS_VOICE_CFG_FMT_CONTAINER_SIZE =? NV_PAVS_VOICE_CFG_FMT_CONTAINER_SIZE_ADPCM)
     (voice_get_mask d v NV_PAVS_VOICE_CUR_PSL_START NV_PAVS_VOICE_CUR_PSL_START_BA)
     (1 + fmt_field d v NV_PAVS_VOICE_CFG_FMT_SAMPLES_PER_BLOCK)
     ((if fmt_field d v NV_PAVS_VOICE_CFG_FMT_CONTAINER_SIZE =? NV_PAVS_VOICE_CFG_FMT_CONTAINER_SIZE_ADPCM then 36
       else nth (Z.to_nat (fmt_field d v NV_PAVS_VOICE_CFG_FMT_CONTAINER_SIZE)) container_sizes 0) *
      (1 + fmt_field d v NV_PAVS_VOICE_CFG_FMT_SAMPLES_PER_BLOCK)) 0 0;
}.
(** The voice is not new any more. *)
Definition started (v : Z) d : VpDevice F := voice_set_mask v NV_PAVS_VOICE_PAR_STATE NV_PAVS_VOICE_PAR_STATE_NEW_VOICE 0 d.
Lemma get_samples_buffer d v n f cbo ebo lbo loop : is_voice v -> plays_buffer d v f cbo ebo lbo loop ->
  voice_get_samples v n d = play_samples v n f cbo ebo lbo loop (started v d).
Proof.
  intros Hv [Hr Hp Hs Hm Hl Hc He Hb ->]. unfold voice_get_samples, check.
  rewrite (proj2 (Z.ltb_lt v _)) by apply Hv. cbn [mbind result_mbind result_bind].
  pose proof (GET_MASK_range (ldl d (voice_addr d v + NV_PAVS_VOICE_CFG_FMT)) NV_PAVS_VOICE_CFG_FMT_CONTAINER_SIZE 30 2 ltac:(by split_and!)) as Hi.
  change (GET_MASK _ NV_PAVS_VOICE_CFG_FMT_CONTAINER_SIZE) with (fmt_field d v NV_PAVS_VOICE_CFG_FMT_CONTAINER_SIZE) in Hi.
  rewrite (fetch_byte container_sizes (fmt_field d v NV_PAVS_VOICE_CFG_FMT_CONTAINER_SIZE)) by (cbn [length container_sizes]; lia).
  cbn [mbind result_mbind result_bind]. rewrite Hm, Hp, Hs, Hl, Hc, He, Hb. reflexivity.
Qed.

Lemma same_fields d d' v f cbo ebo lbo loop cbo' : plays_buffer d v f cbo ebo lbo loop -> voices_in_ram d' ->
  (forall off mask, off <> NV_PAVS_VOICE_PAR_STATE -> off <> NV_PAVS_VOICE_PAR_OFFSET -> is_word off ->
     voice_get_mask d' v off mask = voice_get_mask d v off mask) ->
  voice_get_mask d' v NV_PAVS_VOICE_PAR_STATE NV_PAVS_VOICE_PAR_STATE_PAUSED = 0 -> get_cbo d' v = cbo' ->
  plays_buffer d' v f cbo' ebo lbo loop.
Proof.
  intros [Hr Hp Hs Hm Hl Hc He Hb Hf] Hr' Hsame Hp' Hc'. unfold fmt_bit, fmt_field, get_ebo, get_lbo in *.
  constructor; unfold fmt_bit, fmt_field, get_ebo, get_lbo; rewrite ?Hsame by done; done.
Qed.
Lemma buffer_started d v f cbo ebo lbo loop : is_voice v -> plays_buffer d v f cbo ebo lbo loop ->
  plays_buffer (started v d) v f cbo ebo lbo loop.
Proof.
  intros Hv Hb. pose proof (pb_ram _ _ _ _ _ _ _ Hb) as Hr. unfold started. apply (same_fields d _ v f cbo); [done|by apply set_mask_in_ram| | |].
  - intros off mask Ho _ Hw. rewrite get_set_mask by done. by rewrite (proj2 (Z.eqb_neq _ off)).
  - rewrite get_set_mask by done. rewrite Z.eqb_refl, GET_SET_other by done. apply Hb.
  - unfold get_cbo. rewrite get_set_mask by done. apply Hb.
Qed.
Lemma buffer_moved d v f cbo ebo lbo loop x : is_voice v -> 0 <= x < 2 ^ 24 -> plays_buffer d v f cbo ebo lbo loop ->
  plays_buffer (set_cbo v x d) v f x ebo lbo loop.
Proof.
  intros Hv Hx Hb. pose proof (pb_ram _ _ _ _ _ _ _ Hb) as Hr. unfold set_cbo. apply (same_fields d _ v f cbo); [done|by apply set_mask_in_ram| | |].
  - intros off mask _ Ho Hw. rewrite get_set_mask by done. by rewrite (proj2 (Z.eqb_neq _ off)).
  - rewrite get_set_mask by done. apply Hb.
  - unfold get_cbo. rewrite get_set_mask by done. rewrite Z.eqb_refl, (GET_SET_same _ _ 0 24), u32_id by (unfold is_u32; (lia || by split_and!)).
    by apply Z.mod_small.
Qed.
Lemma active_started d v : voices_in_ram d -> is_voice v -> is_active (started v d) v = is_active d v.
Proof.
  intros Hr Hv. unfold is_active, started. rewrite get_set_mask by done. by rewrite Z.eqb_refl, GET_SET_other by done.
Qed.
Lemma active_moved d v x : voices_in_ram d -> is_voice v -> is_active (set_cbo v x d) v = is_active d v.
Proof. intros Hr Hv. unfold is_active, set_cbo. by rewrite get_set_mask by done. Qed.
Lemma field24 d v off : 0 <= voice_get_mask d v off 0xFFFFFF < 2 ^ 24.
Proof. exact (GET_MASK_range _ 0xFFFFFF 0 24 ltac:(by split_and!)). Qed.

Lemma off_samples v d : voices_in_ram d -> is_voice v -> fmt_bit d v NV_PAVS_VOICE_CFG_FMT_DATA_TYPE = false ->
  exists d', voice_off v d = Ok d' /\ dev d' = dev (set_notify_status v 0 NV1BA0_NOTIFICATION_STATUS_DONE_SUCCESS
    (voice_set_mask v NV_PAVS_VOICE_PAR_STATE NV_PAVS_VOICE_PAR_STATE_ACTIVE_VOICE 0 d)).
Proof.
  intros Hr Hv Hs. unfold voice_off. set (d1 := voice_set_mask v _ _ 0 d).
  assert (voice_get_mask d1 v NV_PAVS_VOICE_CFG_FMT NV_PAVS_VOICE_CFG_FMT_DATA_TYPE =
    voice_get_mask d v NV_PAVS_VOICE_CFG_FMT NV_PAVS_VOICE_CFG_FMT_DATA_TYPE) as -> by (unfold d1; by rewrite get_set_mask by done).
  unfold fmt_bit, fmt_field in Hs. rewrite Hs. cbn [mbind result_mbind result_bind]. eexists. split; [reflexivity|].
  rewrite (u16_id v); [done|]. unfold is_u16, is_voice in *. lia.
Qed.

Lemma buffer_not_stream d v f cbo ebo lbo loop : plays_buffer d v f cbo ebo lbo loop -> stream f = false.
Proof. by intros [_ _ _ _ _ _ _ _ ->]. Qed.
(** C34. A call fetches the samples of a buffer.  For a voice that plays PCM from a buffer,
    a call for [n] samples gives those at the positions from the current one on, up to
    [n] or to the end of the buffer, each read through the page table.  Short of the last
    position the voice goes on behind them; otherwise it starts over at its loop position
    or is switched off.  The last position counts as played when it has been reached: if
    [n] samples end just in front of it, its sample is dropped. *)
Theorem buffer_samples_played d v f cbo ebo lbo loop n : is_voice v -> plays_buffer d v f cbo ebo lbo loop -> adpcm f = false ->
  let k := Nat.min (Z.to_nat n) (Z.to_nat (ebo - cbo + 1)) in
  exists d', voice_get_samples v n d = Ok (d', Some (map (fun i => pcm_at (started v d) f (cbo + Z.of_nat i)) (seq 0 k))) /\
    (cbo + Z.of_nat k < ebo -> plays_buffer d' v f (cbo + Z.of_nat k) ebo lbo loop) /\
    (ebo <= cbo + Z.of_nat k -> loop = true -> plays_buffer d' v f lbo ebo lbo loop) /\
    (ebo <= cbo + Z.of_nat k -> loop = false -> exists d2, voice_off v (started v d) = Ok d2 /\ d' = set_cbo v ebo d2).
Proof.
  intros Hv Hb Ha k. pose proof (buffer_started _ _ _ _ _ _ _ Hv Hb) as Hb1. set (d1 := started v d) in *.
  rewrite (get_samples_buffer d v n f cbo ebo lbo loop Hv Hb). fold d1. unfold play_samples.
  pose proof (buffer_not_stream _ _ _ _ _ _ _ Hb) as Hs. rewrite (pcm_loop d1 f _ ebo (Z.to_nat n) Hs Ha cbo). fold k.
  cbn [mbind result_mbind result_bind]. rewrite length_map, length_seq, Hs. unfold advance.
  assert (0 <= cbo < 2 ^ 24) as Hcr by (rewrite <- (pb_cbo _ _ _ _ _ _ _ Hb); apply field24).
  assert (0 <= ebo < 2 ^ 24) as Her by (rewrite <- (pb_ebo _ _ _ _ _ _ _ Hb); apply field24).
  assert (0 <= lbo < 2 ^ 24) as Hlr by (rewrite <- (pb_lbo _ _ _ _ _ _ _ Hb); apply field24).
  destruct (Z.ltb_spec (cbo + Z.of_nat k) ebo) as [Hlt|Hge].
  - eexists. split; [reflexivity|]. split_and!; [|lia|lia]. intros _. apply (buffer_moved d1 v f cbo); [done|lia|done].
  - destruct loop eqn:El.
    + eexists. split; [reflexivity|]. split_and!; [lia| |discriminate 2]. intros _ _. by apply (buffer_moved d1 v f cbo).
    + destruct (off_samples v d1 (pb_ram _ _ _ _ _ _ _ Hb1) Hv (pb_stream _ _ _ _ _ _ _ Hb1)) as (d2 & Hoff & _).
      rewrite Hoff. eexists. split; [reflexivity|]. split_and!; [lia|discriminate 2|]. intros _ _. by exists d2.
Qed.

(** ** Filling a frame *)

(** A call for a voice that loops. *)
Lemma loop_call d v f cbo ebo lbo n : is_voice v -> plays_buffer d v f cbo ebo lbo true -> adpcm f = false ->
  exists d' xs, voice_get_samples v n d = Ok (d', Some xs) /\ is_active d' v = is_active d v /\
    Z.of_nat (length xs) = Z.max 0 (Z.min n (ebo - cbo + 1)) /\
    plays_buffer d' v f (if cbo + Z.of_nat (length xs) <? ebo then cbo + Z.of_nat (length xs) else lbo) ebo lbo true.
Proof.
  intros Hv Hb Ha. pose proof (buffer_started _ _ _ _ _ _ _ Hv Hb) as Hb1. pose proof (buffer_not_stream _ _ _ _ _ _ _ Hb) as Hs.
  rewrite (get_samples_buffer d v n f cbo ebo lbo true Hv Hb). unfold play_samples. rewrite (pcm_loop _ f _ ebo (Z.to_nat n) Hs Ha cbo).
  cbn [mbind result_mbind result_bind]. set (xs := map _ _). rewrite Hs. unfold advance.
  assert (Z.of_nat (length xs) = Z.max 0 (Z.min n (ebo - cbo + 1))) as Hlen by (unfold xs; rewrite length_map, length_seq; lia).
  assert (0 <= cbo < 2 ^ 24) as Hcr by (rewrite <- (pb_cbo _ _ _ _ _ _ _ Hb); apply field24).
  assert (0 <= ebo < 2 ^ 24) as Her by (rewrite <- (pb_ebo _ _ _ _ _ _ _ Hb); apply field24).
  assert (0 <= lbo < 2 ^ 24) as Hlr by (rewrite <- (pb_lbo _ _ _ _ _ _ _ Hb); apply field24).
  assert (forall x, is_active (set_cbo v x (started v d)) v = is_active d v) as Hact.
  { intros x. rewrite active_moved, active_started; [done|apply Hb|done|apply Hb1|done]. }
  destruct (Z.ltb_spec (cbo + Z.of_nat (length xs)) ebo); eexists _, xs; (split; [reflexivity|]); (split; [apply Hact|]); (split; [done|]).
  - rewrite (proj2 (Z.ltb_lt _ _)) by done. apply (buffer_moved (started v d) v f cbo); (done || lia).
  - rewrite (proj2 (Z.ltb_ge _ _)) by done. apply (buffer_moved (started v d) v f cbo); (done || lia).
Qed.

Lemma fill_loop v f ebo lbo : is_voice v -> adpcm f = false -> lbo <= ebo -> forall k fuel cbo have d,
  plays_buffer d v f cbo ebo lbo true -> is_active d v = true -> cbo <= ebo ->
  (length have + k = 32)%nat -> (k < fuel)%nat ->
  exists d' xs, fill_frame fuel v have d = Ok (d', have ++ xs) /\ length xs = k.
Proof.
  intros Hv Ha Hle. induction k as [k IH] using (well_founded_induction lt_wf). intros fuel cbo have d Hb Hact Hc Hk Hf.
  destruct fuel as [|fuel]; [lia|]. cbn [fill_frame]. unfold NUM_SAMPLES_PER_FRAME. destruct (Z.ltb_spec (Z.of_nat (length have)) 32).
  - rewrite Hact. cbn [negb]. destruct (loop_call d v f cbo ebo lbo (32 - Z.of_nat (length have)) Hv Hb Ha) as (d1 & xs & -> & Ha1 & Hlen & Hb1).
    cbn [mbind result_mbind result_bind]. assert (1 <= Z.of_nat (length xs) <= Z.of_nat k) as Hx by lia.
    destruct (IH (k - length xs)%nat ltac:(lia) fuel _ (have ++ xs) d1 Hb1) as (d' & ys & Hrun & Hl).
    + congruence.
    + destruct (Z.ltb_spec (cbo + Z.of_nat (length xs)) ebo); lia.
    + rewrite length_app. lia.
    + lia.
    + exists d', (xs ++ ys). rewrite Hrun, app_assoc, length_app. split; [done|lia].
  - exists d, []. rewrite app_nil_r. split; [done|]. cbn. lia.
Qed.


(** ** Blocks of ADPCM samples *)

(** The first [k] words of the block hold what is in the buffer. *)
Definition block_holds d (addr : Z) (blk : list Z) (k : Z) : Prop := length blk = 72%nat /\
  forall i, 0 <= i < 4 * k -> byte blk i = byte (le_bytes 4 (ldl d (data_ptr d (u32 (addr + 4 * (i / 4)))))) (i mod 4).
Definition block_word d (addr word_index : Z) (blk : list Z) : result (list Z) :=
  addr ← get_data_ptr d (vreg d NV_PAPU_VPSGEADDR) 0xFFFFFFFF (u32 (addr + 4 * word_index));
  blit blk (4 * word_index) (le_bytes 4 (ldl d addr)).
Lemma block_words d addr n blk : length blk = 72%nat -> (n <= 18)%nat ->
  exists blk', for_loop n 0 (block_word d addr) blk = Ok blk' /\ block_holds d addr blk' (Z.of_nat n).
Proof.
  intros Hl Hn. apply (for_loop_inv (fun k b => block_holds d addr b k)); [by split; [|lia]|]. intros j b Hj [Hb Hbytes].
  unfold block_word. rewrite get_data_ptr_ok by apply u32_range. cbn [mbind result_mbind result_bind].
  set (x := le_bytes 4 _). assert (length x = 4%nat) as Hx by done. rewrite blit_ok by lia. eexists. split; [reflexivity|].
  destruct (blit_inv b (4 * j) x _ (blit_ok b (4 * j) x ltac:(lia) ltac:(lia))) as (_ & _ & Hlen & Hby).
  split; [congruence|]. intros i Hi. rewrite Hby by lia. rewrite Hx.
  destruct (Z.leb_spec (4 * j) i), (Z.ltb_spec i (4 * j + Z.of_nat 4)); cbn [andb]; [|lia|apply Hbytes; lia..].
  replace (i / 4) with j by (apply (Z.div_unique _ _ _ (i - 4 * j)); lia). replace (i mod 4) with (i - 4 * j); [done|].
  apply (Z.mod_unique _ _ j); lia.
Qed.

(** The array of a block has room for two.  With at most two
    samples per block the words of a block are loaded into it from the buffer, through the
    page table.  With three or more, which the format field can say, a call that fetches
    any sample writes behind the 72 bytes. *)
Theorem adpcm_block_load d v f cbo ebo lbo loop n : is_voice v -> plays_buffer d v f cbo ebo lbo loop -> adpcm f = true ->
  length block0 = 72%nat -> 1 <= n -> cbo <= ebo ->
  (samples_per_block f <= 2 -> forall addr, exists blk, load_block (started v d) f addr block0 = Ok blk /\
     block_holds (started v d) addr blk (9 * samples_per_block f)) /\
  (3 <= samples_per_block f -> voice_get_samples v n d = Fault OutOfBounds).
Proof.
  intros Hv Hb Ha H72 Hn Hc. pose proof (buffer_not_stream _ _ _ _ _ _ _ Hb) as Hs.
  assert (1 <= samples_per_block f) as Hspb.
  { rewrite (pb_fmt _ _ _ _ _ _ _ Hb). cbn [samples_per_block].
    pose proof (GET_MASK_range (ldl d (voice_addr d v + NV_PAVS_VOICE_CFG_FMT)) NV_PAVS_VOICE_CFG_FMT_SAMPLES_PER_BLOCK 16 5 ltac:(by split_and!)).
    unfold fmt_field, voice_get_mask. lia. }
  split.
  - intros H2 addr. destruct (block_words (started v d) addr (Z.to_nat (9 * samples_per_block f)) block0 H72 ltac:(lia)) as (blk & Hr & Hh).
    rewrite Z2Nat.id in Hh by lia. by exists blk.
  - intros H3. rewrite (get_samples_buffer d v n f cbo ebo lbo loop Hv Hb). unfold play_samples.
    destruct (Z.to_nat n) as [|n'] eqn:En; [lia|]. cbn [sample_loop]. rewrite (proj2 (Z.leb_le _ _)), Ha by done.
    unfold adpcm_sample. cbn [at_block block]. assert (0 <= cbo) by (rewrite <- (pb_cbo _ _ _ _ _ _ _ Hb); apply field24).
    rewrite (proj2 (Z.eqb_neq _ _)), Hs by (pose proof (Z.div_pos cbo ADPCM_SAMPLES_PER_BLOCK); unfold ADPCM_SAMPLES_PER_BLOCK in *; lia).
    enough (forall addr, load_block (started v d) f addr block0 = Fault OutOfBounds) as -> by done. intros addr.
    destruct (block_words (started v d) addr 18 block0 H72 ltac:(lia)) as (blk & Hr & Hl & _).
    assert (block_word (started v d) addr (0 + Z.of_nat 18) blk = Fault OutOfBounds) as Hf.
    { unfold block_word. rewrite get_data_ptr_ok by apply u32_range. cbn [mbind result_mbind result_bind]. unfold blit. by rewrite Hl. }
    change (for_loop (Z.to_nat (9 * samples_per_block f)) 0 (block_word (started v d) addr) block0 = Fault OutOfBounds).
    replace (Z.to_nat (9 * samples_per_block f)) with (18 + S (Z.to_nat (9 * samples_per_block f) - 19))%nat by lia.
    rewrite for_loop_add, Hr. cbn [mbind result_mbind result_bind for_loop]. by rewrite Hf.
Qed.
End Samples.

(** ** Witnesses *)

#[export] Instance plain_stack : SampleHost := {|
  other_read := fun _ _ => 0; block0 := repeat 0 72; decoded0 := repeat 0 130; pcm_stack := [0; 0]; index_stack := [0; 0];
|}.
(** Voice 100 is active and plays the positions up to 3 of a buffer at 0x200, which starts
    with the 16-bit samples 1 and 2. *)
Definition buffer_device (format cbo lbo : Z) : VpDevice unit :=
  voice_set_mask 100 NV_PAVS_VOICE_CFG_FMT 0xFFFFFFFF format
    (voice_set_mask 100 NV_PAVS_VOICE_PAR_OFFSET NV_PAVS_VOICE_PAR_OFFSET_CBO cbo
      (voice_set_mask 100 NV_PAVS_VOICE_PAR_NEXT NV_PAVS_VOICE_PAR_NEXT_EBO 3
        (voice_set_mask 100 NV_PAVS_VOICE_CUR_PSH_SAMPLE NV_PAVS_VOICE_CUR_PSH_SAMPLE_LBO lbo
          (voice_set_mask 100 NV_PAVS_VOICE_CUR_PSL_START NV_PAVS_VOICE_CUR_PSL_START_BA 0x200
            (voice_set_mask 100 NV_PAVS_VOICE_PAR_STATE NV_PAVS_VOICE_PAR_STATE_ACTIVE_VOICE 1
              (voice_set_mask 4 0 0xFFFFFFFF 0x00020001 (quiet id))))))).
Lemma buffer_device_ram format cbo lbo : voices_in_ram (buffer_device format cbo lbo).
Proof. unfold buffer_device. do 7 apply set_mask_in_ram. apply quiet_ram. reflexivity. Qed.
Definition s16_format : Z := Z.lor (Z.shiftl 1 28) (Z.shiftl 1 30).
Definition s16_fmt : fmt := mkFmt false 1 2 false false 0x200 1 2 0 0.
Definition adpcm_format (samples : Z) : Z := Z.lor (Z.shiftl (samples - 1) 16) (Z.shiftl 2 30).
Definition adpcm_fmt (samples : Z) : fmt := mkFmt false 0 0 false true 0x200 samples (36 * samples) 0 0.

Lemma buffer_samples_played_witness : exists d',
  voice_get_samples 100 2 (buffer_device s16_format 0 0) = Ok (d', Some [(0x10000, 0x10000); (0x20000, 0x20000)]) /\
  plays_buffer d' 100 s16_fmt 2 3 0 false.
Proof.
  destruct (buffer_samples_played (buffer_device s16_format 0 0) 100 s16_fmt 0 3 0 false 2) as (d' & Hrun & Hpos & _); [done| |reflexivity|].
  - constructor; [apply buffer_device_ram|vm_compute; reflexivity..].
  - exists d'. split; [|apply Hpos; vm_compute; reflexivity]. rewrite Hrun. vm_compute. reflexivity.
Defined.

Definition looping_format : Z := Z.lor s16_format NV_PAVS_VOICE_CFG_FMT_LOOP.

Lemma adpcm_block_load_witness :
  (exists blk, load_block (started 100 (buffer_device (adpcm_format 2) 0 0)) (adpcm_fmt 2) 0x200 block0 = Ok blk /\
     byte blk 0 = 1 /\ byte blk 2 = 2) /\
  voice_get_samples 100 1 (buffer_device (adpcm_format 3) 0 0) = Fault OutOfBounds.
Proof.
  split.
  - destruct (proj1 (adpcm_block_load (buffer_device (adpcm_format 2) 0 0) 100 (adpcm_fmt 2) 0 3 0 false 1 ltac:(done)
      ltac:(constructor; [apply buffer_device_ram|vm_compute; reflexivity..]) eq_refl eq_refl ltac:(lia) ltac:(lia))
      ltac:(vm_compute; discriminate) 0x200) as (blk & Hrun & _ & Hb).
    exists blk. split; [exact Hrun|]. rewrite !Hb by (vm_compute; split; [discriminate|reflexivity]). split; vm_compute; reflexivity.
  - apply (proj2 (adpcm_block_load (buffer_device (adpcm_format 3) 0 0) 100 (adpcm_fmt 3) 0 3 0 false 1 ltac:(done)
      ltac:(constructor; [apply buffer_device_ram|vm_compute; reflexivity..]) eq_refl eq_refl ltac:(lia) ltac:(lia))).
    vm_compute. discriminate.
Defined.
